(* ===== verification/_CoqProject ===== *)
-Q . S2P
Prelude.v
Pfa.v
Paging.v
PagingInit.v
Vmm.v
Heap.v
Bytes.v
Descriptors.v
Block.v
LibcString.v
LibcStdlib.v
Thread.v
Keyboard.v
Vga.v
Stdio.v
Panic.v
UserLib.v
Vfs.v
Ramfs.v
KernelMemory.v
Fat.v
FatFile.v
FatDir.v
VfsNode.v
RootTree.v
Ata.v
UserMem.v
Image.v
Sbrk.v
Syscall.v
StdFile.v
Kex.v
Layout.v
Ext4.v
Start.v
Ext4Extent.v
Ext4Journal.v
Ext4Alloc.v
Ext4File.v
Ext4Inodes.v
Ext4Dir.v
Ext4DirOps.v
Ext4Mkdir.v
Shell.v
ShellFiles.v
ShellLine.v
Dispatch.v
