(* ===== verification/Prelude.v ===== *)
(** * A verification of keonOS

    keonOS is a small kernel for x86_64 in C++ (the i386 directories of the
    repository are not built).  This development models its memory management,
    its scheduler, its file systems, its drivers, its system calls, its program
    loader, its shell, the C library inside it and the one for programs, and
    proves what they do.  File and function names below are those under src/.

    ** The program

    The boot loader passes a memory map; the frame allocator takes its bitmap
    from it, the page tables are built from its frames under those of the boot
    code, the kernel heap grows by mapping frames, and threads, file system nodes
    and buffers are heap blocks.  The timer interrupt wakes sleepers and yields.
    Paths are walked over virtual nodes: an EXT4 volume, or an overlay over a
    FAT32 volume, behind an ATA driver, with a RAM disk mounted in the overlay.
    EXT4 blocks may go through a journal.  A program enters the kernel through a
    table of system calls, which copy between user memory and the kernel and call
    the parts; the loader maps the segments of a program and makes its thread.
    The shell edits a line, splits it, and calls the parts itself.  An error that
    cannot be handled ends in the panic screen.

    ** Files, in dependency order

    - [Prelude]: outcomes of kernel code, machine integers, loops, lemmas on bits
      and lists.
    - [Pfa] (kernel/arch/x86_64/paging.cpp, the frame allocator; the memory map of
      include/drivers/multiboot2.h): the bitmap refines the set of free frames.
    - [Paging] (the rest of paging.cpp): tables in physical memory, reached
      through the direct map by the processor's walk; [translate] is the
      abstract view, [paging_wf] the invariant.  [PagingInit]: paging_init, under
      the tables of boot/boot.asm, establishes it.
    - [Vmm] (mm/vmm.cpp) and [Heap] (mm/heap.cpp): [sbrk]; the list of blocks, which
      refines a map of the blocks in use.
    - [Bytes], [Block]: byte buffers; the state monad of the file systems, with the
      interfaces [BlockDevice] and [Allocator] and the rules of [runs].
    - [Descriptors] (kernel/arch/x86_64/gdt.cpp, idt.cpp): segments, gates, the
      interrupt controllers.
    - [LibcString], [LibcStdlib] (libc/string, libc/stdlib): strings in a memory in
      which an access outside is a fault; numbers.
    - [Thread] (thread.cpp, drivers/timer.cpp): the ring, the zombie list, the timer.
    - [Keyboard], [Vga], [Stdio] (drivers/keyboard.cpp, drivers/vga.cpp,
      drivers/serial.cpp, libc/stdio/vprintf.cpp and the functions on it).
    - [Panic] (kernel/panic.cpp, include/kernel/error.h; drivers/speaker.cpp).
    - [UserLib] (user/libc, the listing of user/hello.c, user/tools/klbtool.c).
    - [Vfs] (fs/vfs.cpp), over the class [VirtualNode]; [FileTree] is what the walk
      relies on.
    - [Ramfs] (fs/ramfs_vfs.cpp and its headers; scripts/pack_keonfs.py is the
      format's other side).
    - [KernelMemory] (kernel_main of kernel/kernel.cpp): frames, page tables, heap
      and the window of the RAM disk, in the order of the code.
    - [Fat], [FatFile], [FatDir] (fs/fat32_vfs.cpp: the allocation table, files,
      directories).
    - [VfsNode] (include/fs/vfs_node.h and the node classes): objects behind
      pointers, dispatch, deletion; it implements [VirtualNode].  [RootTree]
      composes it with [Vfs] and [Ramfs] as kernel/kernel.cpp does.
    - [Ata] (drivers/ata.cpp): the port protocol; it implements [BlockDevice].
    - [UserMem] (copy_from_user and copy_to_user of kernel/syscalls/syscalls.cpp),
      [Sbrk] (kernel/syscalls/sys_mem.cpp), [Syscall] (sys_file.cpp, sys_stat.cpp),
      [StdFile] (the streams of libc/stdio).
    - [Image]: the pages that the loader maps, as a memory of their own; [Kex]
      (kernel/exec/kex_loader.cpp) over it.
    - [Layout]: packed structures by member name.  [Ext4] (fs/ext4_vfs.cpp:
      superblock, groups, inodes), [Ext4Extent] (the extent tree), [Ext4Journal]
      (fs/ext4_journal.cpp), [Ext4Alloc], [Ext4Inodes] (blocks and inodes),
      [Ext4File] (files), [Ext4Dir] (directories: definitions and lookups),
      [Ext4DirOps], [Ext4Mkdir] (their changes).
    - [Start] (init_file_system of kernel/kernel.cpp): the choice of the root.
    - [Shell], [ShellFiles], [ShellLine] (kernel/shell.cpp): the commands; the file
      commands over a tree; the line editor.
    - [Dispatch] (kernel/syscalls/syscalls.cpp, sys_proc.cpp, sys_vga.cpp): the table
      of system calls, over [Syscall], [Sbrk], [Kex] and the scheduler.

    ** State and operations

    A state is a record with the variables of the file; an operation is a function
    to [outcome], whose values are a result, a panic with its code, a fault (an
    access that C++ leaves undefined: a null, freed or out-of-range object) and
    [OutOfFuel].  The names are those of the code.  Integers are [Z] with [wrap]
    where the code's type wraps.  Objects behind pointers are maps from addresses,
    so aliasing and freed objects are visible.  Lists of bytes stand for buffers.

    ** What is shown

    - Refinement of an abstract state: the heap (a map of blocks in use), the
      FAT32 allocation table (a map), FAT32 and EXT4 files (lists of bytes), EXT4
      directories (a listing), the journal (the blocks it applies), the terminal (a
      screen), the keyboard (a queue), the line editor (a zipper), the path walk (a
      tree).
    - Invariants over all sequences of operations: the scheduler's ring and
      ownership of blocks, the clients of the heap, the frames handed out after
      boot.  Liveness: ready threads and sleepers run within a bound.
    - Functional behaviour with the frame: mapping and unmapping change one page;
      create, write, find and read a file, on FAT32 and on EXT4, and no other file
      changes; unlink and mkdir; the lowest free block is taken; a program's
      segments and relocations are in memory and nothing else changed; a program
      that opens, reads and closes a file through the system calls gets exactly its
      bytes; what the shell prints of a file and where cd leads; what the
      panic screen and the listing of a directory print; a new address space
      shares the half of the kernel.
    - The start: the invariant of the page tables after paging_init, the RAM disk
      mapped, the choice of the root, the descriptors decoded.
    - Equivalence: the user-mode check and the processor's, for canonical addresses;
      the string functions of programs and of the kernel.
    - Round trips (packed images, numbers, created files), termination
      (cyclic tables, format strings), bounds of the disk driver.
    - Behaviour on errors, and the cases in which the code does not do what it
      means to (the findings): these are theorems about the definitions as well.

    ** Fuel and bounds

    A loop that is not structural has fuel, and a theorem that it is enough: the
    number of threads for the ring, of headers for the heap, of table entries for
    chains (a chain that is longer is cyclic), the length of the path for the walk
    and of the format for [vprintf], [length l + 1] for a dynamic table of [l]
    entries or a directory of [l] entries, the depth of the root for an extent
    tree, the blocks that a range of bytes can touch for the loops of a file, one
    step for every byte of a directory block.  Where the code's loop does not end
    that is a theorem ([descent_of_cycle], [finddir_never_returns]).  Polling the
    disk is bounded by a patience of the protocol's hypothesis; waiting for a key
    is bounded by the number of blocked waits.

    ** Hypotheses

    What is outside src/ is a parameter with documented behaviour: the processor's
    walk (defined), the disk behind the ports ([AtaLaws]), addresses that the
    linker chooses.  The tables of boot/boot.asm are a hypothesis of [PagingInit],
    read from the assembly.  Interfaces between components ([StoreLaws],
    [FileTree], [UserLaws], [FileLaws], [WriteLaws], [LoaderLaws], [KernelLaws],
    [FileShell], [ScreenLaws], [DirectoryLaws]) are classes; instances are proved from the
    components ([Ata] for [StoreLaws], [VfsNode] for [FileTree], the page tables
    for [UserLaws], the terminal of [Vga] for [ScreenLaws]) or, where a whole
    machine is needed for an example, from a small one built of them.  The
    theorems on allocation, files and directories of EXT4 that change the disk are
    for a volume without a journal; those on directories are for one whose extents
    are in its inode.

    Some laws hold of a part of the kernel's own implementations only.  [FileTree] and
    [FileShell] ask that a node outlives its closing, as in the RAM disk, and
    [FileShell]'s theorem on cd that directories know their parents; EXT4 does neither.
    [WriteLaws], which only the write call uses, asks for a file that can be
    written, with room.  [FileLaws] and [LoaderLaws] ask the heap to serve requests
    up to a bound.  The heap's model does not look at the page tables:
    [heap_clients_safe] says when its memory is mapped.

    ** Not modelled

    - The banner, the messages and the idle loop of kernel_main and the constructors
      called by it: their modelled parts are theorems of their own ([KernelMemory],
      [Start], [RootTree], [Descriptors], [Heap], [Thread]).
    - The object of the EXT4 root in the store of nodes of [VfsNode]: EXT4 nodes are
      values of [Ext4Dir].
    - libc/stdio/getchar.cpp, abort.cpp, errno.cpp, ssp.cpp: forwarding functions and
      the ends of the system.
    - Spin locks and interrupt flags: each operation runs as a unit; the one
      unprotected window that matters, in thread_exit, is a theorem of [Thread]
      ([exit_race_faults]).
    - The i386 directories (not built), assembly except the effect of
      switch_context, user/libkex, the tests and the rest of the user programs, and
      caches of the processor: the TLB is assumed flushed. *)

From Stdlib Require Export ZArith Lia.
From stdpp Require Export base tactics numbers gmap list_numbers list.

#[global] Open Scope Z_scope.
#[export] Set Default Goal Selector "!".

(** ** Kernel error codes and outcomes *)

Inductive KernelError : Set :=
| K_OK
| K_ERR_MULTIBOOT_FAILED
| K_ERR_RAMFS_MAGIC_FAILED
| K_ERR_SYSTEM_INIT_FAILED
| K_ERR_SYSTEM_PAGING_ENABLE_FAILED
| K_ERR_SYSTEM_TIMER_INIT_FAILED
| K_ERR_PAGE_FAULT
| K_ERR_GENERAL_PROTECTION
| K_ERR_SYSTEM_THREAD_EXIT_ATTEMPT
| K_ERR_DIVIDE_BY_ZERO
| K_ERR_INVALID_OPCODE
| K_ERR_OUT_OF_MEMORY
| K_ERR_DEVICE_FAILURE
| K_ERR_STACK_SMASHED
| K_ERR_UNKNOWN_ERROR.

#[global] Instance KernelError_eq_dec : EqDecision KernelError.
Proof. solve_decision. Defined.

(** The result of running a piece of kernel code: it returns, it panics, it
    touches memory it must not touch (undefined behaviour in C++: an
    out-of-bounds index or a dereferenced dangling or null pointer), or the
    fuel given to a loop whose bound is not syntactic runs out. *)
Inductive outcome (A : Type) : Type :=
| Ok (a : A)
| Panic (e : KernelError)
| Fault
| OutOfFuel.
Arguments Ok {A} a.
Arguments Panic {A} e.
Arguments Fault {A}.
Arguments OutOfFuel {A}.

#[global] Instance outcome_ret : MRet outcome := @Ok.

#[global] Instance outcome_bind : MBind outcome := λ A B k m,
  match m with
  | Ok a => k a
  | Panic e => Panic e
  | Fault => Fault
  | OutOfFuel => OutOfFuel
  end.

Lemma bind_Ok {A B} (m : outcome A) (k : A → outcome B) b :
  m ≫= k = Ok b → ∃ a, m = Ok a ∧ k a = Ok b.
Proof. destruct m; simpl; intros H; try discriminate. eauto. Qed.

Lemma Ok_inj {A} (a b : A) : Ok a = Ok b → a = b.
Proof. by intros [=]. Qed.

Lemma bind_of_Ok {A B} (m : outcome A) a (k : A → outcome B) : m = Ok a → m ≫= k = k a.
Proof. by intros ->. Qed.

(** A computation that is checked to succeed, with what holds of its result. *)
Definition succeeds {A} (m : outcome A) (P : A → Prop) : Prop :=
  match m with Ok a => P a | _ => False end.

Lemma succeeds_Ok {A} (m : outcome A) P : succeeds m P → ∃ a, m = Ok a ∧ P a.
Proof. destruct m; cbn; try done. eauto. Qed.

Lemma succeeds_at {A} (m : outcome A) a P : succeeds m P → m = Ok a → P a.
Proof. by intros H ->. Qed.

(** Runs the monad one step, without unfolding anything else. *)
Ltac run := cbn [mbind outcome_bind mret outcome_ret].

(** Lift a lookup: a miss is a fault. *)
Definition of_option {A} (o : option A) : outcome A :=
  match o with Some a => Ok a | None => Fault end.

(** ** Machine integers: a w-bit unsigned integer is a [Z] in [0, 2^w). *)

Definition wrap (w x : Z) : Z := x mod 2 ^ w.
Abbreviation u8 := (wrap 8).
Abbreviation u16 := (wrap 16).
Abbreviation u32 := (wrap 32).
Abbreviation u64 := (wrap 64).

(** Two's-complement reading of a w-bit pattern. *)
Definition signed (w x : Z) : Z :=
  let y := wrap w x in if y <? 2 ^ (w - 1) then y else y - 2 ^ w.

Lemma wrap_small w x : 0 ≤ x < 2 ^ w → wrap w x = x.
Proof. intros. by apply Z.mod_small. Qed.

Lemma wrap_range w x : 0 ≤ w → 0 ≤ wrap w x < 2 ^ w.
Proof. intros. apply Z.mod_pos_bound. by apply Z.pow_pos_nonneg. Qed.

Lemma wrap_idem w x : 0 ≤ w → wrap w (wrap w x) = wrap w x.
Proof. intros. apply Z.mod_mod. apply Z.pow_nonzero; lia. Qed.

(** ** Tactics of the development *)

(** Arithmetic with [/] and [mod] by constants. *)
Ltac zdm := Z.div_mod_to_equations; lia.

(** Decompose a successful monadic computation in a hypothesis. *)
Ltac inv_ok H :=
  let a := fresh "r" in let E := fresh "E" in
  apply bind_Ok in H; destruct H as (a & E & H).

(** ** Loops *)

(** [for (i = lo; i < lo + n; i++) s = body(i, s)]. *)
Fixpoint for_range {S} (body : Z → S → outcome S) (n : nat) (i : Z) (s : S)
  : outcome S :=
  match n with
  | O => Ok s
  | Datatypes.S n' => s' ← body i s; for_range body n' (i + 1) s'
  end.

(** The same loop with an early [return]: [inl] goes on, [inr] leaves. *)
Fixpoint for_return {S R} (body : Z → S → outcome (S + R)) (n : nat) (i : Z) (s : S)
  : outcome (S + R) :=
  match n with
  | O => Ok (inl s)
  | Datatypes.S n' =>
      r ← body i s;
      match r with
      | inl s' => for_return body n' (i + 1) s'
      | inr v => Ok (inr v)
      end
  end.

(** [for (x : l) s = body(x, s)]. *)
Fixpoint for_each {A S} (body : A → S → outcome S) (l : list A) (s : S) : outcome S :=
  match l with
  | [] => Ok s
  | x :: l' => s' ← body x s; for_each body l' s'
  end.

Lemma for_each_app {A S} (body : A → S → outcome S) l1 l2 s :
  for_each body (l1 ++ l2) s = (s' ← for_each body l1 s; for_each body l2 s').
Proof.
  revert s. induction l1 as [|x l1 IH]; intros s; simpl; [done|].
  destruct (body x s); simpl; [apply IH|done..].
Qed.

(** Total-correctness rule for [for_each]: [P done s] holds after the elements
    [done] were processed. *)
Lemma for_each_rule {A S} (P : list A → S → Prop) (body : A → S → outcome S) l done0 s :
  P done0 s →
  (∀ l1 x l2 t, l = l1 ++ x :: l2 → P (done0 ++ l1) t →
     ∃ t', body x t = Ok t' ∧ P (done0 ++ l1 ++ [x]) t') →
  ∃ s', for_each body l s = Ok s' ∧ P (done0 ++ l) s'.
Proof.
  revert done0 s. induction l as [|x l IH]; intros done0 s Hs Hstep; simpl.
  - exists s. by rewrite app_nil_r.
  - destruct (Hstep [] x l s) as (s1 & E & H1); [done|by rewrite app_nil_r|].
    rewrite E. simpl. destruct (IH (done0 ++ [x]) s1) as (s2 & E2 & H2).
    + done.
    + intros l1 y l2 t -> Ht. destruct (Hstep (x :: l1) y l2 t) as (t' & Et & Ht'); [done| |].
      { by rewrite <- app_assoc in Ht. }
      exists t'. split; [done|]. by rewrite <- app_assoc.
    + exists s2. split; [done|]. by rewrite <- app_assoc in H2.
Qed.

(** Total-correctness rule for [for_range]. *)
Lemma for_range_rule {S} (P : Z → S → Prop) (body : Z → S → outcome S) n i s :
  P i s →
  (∀ j t, i ≤ j < i + Z.of_nat n → P j t → ∃ t', body j t = Ok t' ∧ P (j + 1) t') →
  ∃ s', for_range body n i s = Ok s' ∧ P (i + Z.of_nat n) s'.
Proof.
  revert i s. induction n as [|n IH]; intros i s Hs Hstep; simpl.
  - exists s. split; [done|]. by rewrite Z.add_0_r.
  - destruct (Hstep i s) as (s1 & E & H1); [lia|done|].
    rewrite E. simpl.
    destruct (IH (i + 1) s1 H1) as (s2 & E2 & H2).
    { intros. apply Hstep; [lia|done]. }
    exists s2. split; [done|]. replace (i + Z.of_nat (Datatypes.S n)) with (i + 1 + Z.of_nat n) by lia.
    done.
Qed.

(** Total-correctness rule for [for_return]: [P] holds at every index reached,
    [Q] of every value returned early. *)
Lemma for_return_rule {S R} (P : Z → S → Prop) (Q : R → Prop)
  (body : Z → S → outcome (S + R)) n i s :
  P i s →
  (∀ j t, i ≤ j < i + Z.of_nat n → P j t →
     (∃ t', body j t = Ok (inl t') ∧ P (j + 1) t') ∨
     (∃ v, body j t = Ok (inr v) ∧ Q v)) →
  (∃ s', for_return body n i s = Ok (inl s') ∧ P (i + Z.of_nat n) s') ∨
  (∃ v, for_return body n i s = Ok (inr v) ∧ Q v).
Proof.
  revert i s. induction n as [|n IH]; intros i s Hs Hstep; simpl.
  - left. exists s. split; [done|]. by rewrite Z.add_0_r.
  - destruct (Hstep i s) as [(s1 & E & H1)|(v & E & H1)]; [lia|done| |];
      rewrite E; simpl.
    + destruct (IH (i + 1) s1 H1) as [(s2 & E2 & H2)|H2]; [| |by right].
      { intros. apply Hstep; [lia|done]. }
      left. exists s2. split; [done|].
      by replace (i + Z.of_nat (Datatypes.S n)) with (i + 1 + Z.of_nat n) by lia.
    + right. eauto.
Qed.

(** ** Lists *)

Lemma list_filter_all {A} (P : A → Prop) `{∀ x, Decision (P x)} (l : list A) :
  Forall P l → filter P l = l.
Proof.
  induction 1; [done|]. rewrite filter_cons_True by done. by f_equal.
Qed.

Lemma list_filter_iff' {A} (P Q : A → Prop) `{∀ x, Decision (P x), ∀ x, Decision (Q x)} (l : list A) :
  (∀ x, x ∈ l → P x ↔ Q x) → filter P l = filter Q l.
Proof.
  induction l as [|x l IH]; intros Heq; [done|].
  destruct (decide (P x)) as [HP|HP].
  - rewrite !filter_cons_True; [by rewrite IH by set_solver|apply Heq; [set_solver|done]|done].
  - rewrite !filter_cons_False; [by apply IH; set_solver| |done]. rewrite <- Heq; [done|set_solver].
Qed.

(** ** Bits *)

(** [1 << k], the test [w & (1 << k)], and setting and clearing a bit. *)
Definition bit (k : Z) : Z := Z.shiftl 1 k.
Definition bit_test (w k : Z) : bool := negb (Z.land w (bit k) =? 0).
Definition bit_set (w k : Z) : Z := Z.lor w (bit k).
Definition bit_clear (w k : Z) : Z := Z.land w (Z.lnot (bit k)).

Lemma bit_spec k j : 0 ≤ k → Z.testbit (bit k) j = bool_decide (j = k).
Proof.
  intros Hk. unfold bit. rewrite Z.shiftl_1_l, Z.pow2_bits_eqb by done.
  case_bool_decide; subst; [by rewrite Z.eqb_refl|]. apply Z.eqb_neq. congruence.
Qed.

Lemma bit_set_spec w k j :
  0 ≤ k → Z.testbit (bit_set w k) j = bool_decide (j = k) || Z.testbit w j.
Proof. intros. unfold bit_set. by rewrite Z.lor_spec, bit_spec, orb_comm. Qed.

Lemma bit_clear_spec w k j :
  0 ≤ k → 0 ≤ j →
  Z.testbit (bit_clear w k) j = negb (bool_decide (j = k)) && Z.testbit w j.
Proof.
  intros. unfold bit_clear. by rewrite Z.land_spec, Z.lnot_spec, bit_spec, andb_comm.
Qed.

Lemma bit_test_spec w k : 0 ≤ k → bit_test w k = Z.testbit w k.
Proof.
  intros Hk. unfold bit_test. destruct (Z.testbit w k) eqn:E.
  - apply negb_true_iff, Z.eqb_neq. intros H.
    apply (f_equal (λ x, Z.testbit x k)) in H.
    rewrite Z.land_spec, bit_spec, E, Z.bits_0, bool_decide_true in H by done. done.
  - apply negb_false_iff, Z.eqb_eq. apply Z.bits_inj'. intros j Hj.
    rewrite Z.land_spec, bit_spec, Z.bits_0 by done.
    case_bool_decide; subst; [by rewrite E|]. by rewrite andb_false_r.
Qed.

(** A [w]-bit value has no bits at or above [w], and conversely. *)
Lemma testbit_high w x j : 0 ≤ x < 2 ^ w → w ≤ j → Z.testbit x j = false.
Proof.
  intros Hx Hj. destruct (decide (w < 0)); [rewrite Z.pow_neg_r in Hx; lia|].
  rewrite <- (Z.mod_small x (2 ^ w)) by done.
  apply Z.mod_pow2_bits_high. lia.
Qed.

Lemma bits_range w x :
  0 ≤ w → 0 ≤ x → (∀ j, w ≤ j → Z.testbit x j = false) → x < 2 ^ w.
Proof.
  intros Hw Hx Hb. destruct (decide (x = 0)) as [->|]; [lia|].
  apply Z.log2_lt_pow2; [lia|].
  destruct (decide (Z.log2 x < w)); [done|].
  pose proof (Z.bit_log2 x). rewrite Hb in * by lia. naive_solver lia.
Qed.

Lemma bit_set_range w x k : 0 ≤ x < 2 ^ w → 0 ≤ k < w → 0 ≤ bit_set x k < 2 ^ w.
Proof.
  intros Hx Hk. assert (0 ≤ bit_set x k).
  { apply Z.lor_nonneg. split; [lia|]. apply Z.shiftl_nonneg. lia. }
  split; [done|]. apply bits_range; [lia|done|]. intros j Hj.
  rewrite bit_set_spec by lia. rewrite (testbit_high w) by lia.
  rewrite bool_decide_false by lia. done.
Qed.

Lemma bit_clear_range w x k : 0 ≤ x < 2 ^ w → 0 ≤ k < w → 0 ≤ bit_clear x k < 2 ^ w.
Proof.
  intros Hx Hk. assert (0 ≤ bit_clear x k) by (apply Z.land_nonneg; lia).
  split; [done|]. apply bits_range; [lia|done|]. intros j Hj.
  rewrite bit_clear_spec by lia. rewrite (testbit_high w) by lia. by rewrite andb_false_r.
Qed.

(** [x & ~(2^k - 1)]: rounding down to a multiple of [2^k]. *)
Definition mask_low (x m : Z) : Z := Z.land x (Z.lnot m).

Lemma mask_low_ones x k : 0 ≤ k → mask_low x (2 ^ k - 1) = x - x mod 2 ^ k.
Proof.
  intros Hk. unfold mask_low. rewrite <- Z.ldiff_land.
  replace (2 ^ k - 1) with (Z.ones k) by (rewrite Z.ones_equiv; lia).
  rewrite Z.ldiff_ones_r, Z.shiftl_mul_pow2, Z.shiftr_div_pow2 by done.
  pose proof (Z.div_mod x (2 ^ k)). pose proof (Z.pow_pos_nonneg 2 k). lia.
Qed.
