(* ===== verification/Pfa.v ===== *)
(** * Physical frame allocator (kernel/arch/x86_64/paging.cpp, [pfa_*])

    The allocator keeps one bit per 4 KiB frame in an array of 32-bit words.
    This file models the bitmap: the state, marking, claiming and releasing
    frames, and the set-up from the boot loader's memory map.  Clearing a
    claimed frame through the kernel's direct map is in [Paging], where memory
    is modelled.

    The abstract state of the allocator is the increasing list of its free
    frames, [free_frames]; every operation is proved to act on that list as
    expected, and [used_frames] to count the rest. *)

From Stdlib Require Import Sorted.
From S2P Require Import Prelude.

Definition PAGE_SIZE : Z := 4096.

Module Pfa.

Record pfa : Set := mk_pfa {
  frame_bitmap : list Z;
  frame_bitmap_size : Z;
  total_frames : Z;
  used_frames : Z
}.

(** [frame_bitmap[i]] as a checked access. *)
Definition bm_read (s : pfa) (i : Z) : outcome Z :=
  of_option (frame_bitmap s !! Z.to_nat i).

Definition bm_write (s : pfa) (i w used : Z) : pfa :=
  mk_pfa (<[Z.to_nat i := w]> (frame_bitmap s)) (frame_bitmap_size s)
         (total_frames s) used.

(** One iteration of [pfa_mark_used]. *)
Definition mark_frame (frame : Z) (s : pfa) : outcome pfa :=
  if frame <? total_frames s then
    w ← bm_read s (frame / 32);
    if negb (bit_test w (frame mod 32))
    then Ok (bm_write s (frame / 32) (bit_set w (frame mod 32)) (u64 (used_frames s + 1)))
    else Ok s
  else Ok s.

Definition pfa_mark_used (frame_start frame_count : Z) (s : pfa) : outcome pfa :=
  for_range (λ i s, mark_frame (u64 (frame_start / PAGE_SIZE + i)) s)
            (Z.to_nat frame_count) 0 s.

Definition pfa_free_frame (frame : Z) (s : pfa) : outcome pfa :=
  let f := frame / PAGE_SIZE in
  if f <? total_frames s then
    w ← bm_read s (f / 32);
    if bit_test w (f mod 32)
    then Ok (bm_write s (f / 32) (bit_clear w (f mod 32)) (u64 (used_frames s - 1)))
    else Ok s
  else Ok s.

(** [__builtin_ctz]: index of the lowest set bit of a 32-bit word. *)
Fixpoint ctz_from (n : nat) (k x : Z) : Z :=
  match n with
  | O => k
  | S n' => if Z.testbit x k then k else ctz_from n' (k + 1) x
  end.
Definition builtin_ctz (x : Z) : Z := ctz_from 32 0 x.

(** The bitmap part of [pfa_alloc_frame]: the loop over the words, up to the
    point where the frame is taken; the result is the frame number. *)
Definition pfa_claim (s : pfa) : outcome (option Z * pfa) :=
  r ← for_return (λ i (_ : unit),
        w ← bm_read s i;
        if w =? 0xFFFFFFFF then Ok (inl ()) else
        let bit := builtin_ctz (u32 (Z.lnot w)) in
        let frame := u64 (i * 32 + bit) in
        if frame <? total_frames s
        then Ok (inr (frame, bm_write s i (bit_set w bit) (u64 (used_frames s + 1))))
        else Ok (inl ())) (Z.to_nat (frame_bitmap_size s)) 0 ();
  match r with
  | inr (frame, s') => Ok (Some frame, s')
  | inl _ => Ok (None, s)
  end.

(** ** Set-up from the boot loader's memory map

    The multiboot2 information is the sequence of its tags, as the three loops
    of the source visit them. *)

Record multiboot_mmap_entry : Set := mk_entry { me_addr : Z; me_len : Z; me_type : Z }.

Inductive multiboot_tag : Set :=
| TagMmap (entries : list multiboot_mmap_entry)
| TagModule (mod_start mod_end : Z)
| TagBasicMeminfo (mem_lower mem_upper : Z)
| TagOther (type : Z).

Definition MULTIBOOT_MEMORY_AVAILABLE : Z := 1.

(** First loop: the highest end of an available entry. *)
Definition mem_upper_of (tags : list multiboot_tag) : Z :=
  foldl (λ mu tag,
    match tag with
    | TagMmap entries =>
        foldl (λ mu e,
          if me_type e =? MULTIBOOT_MEMORY_AVAILABLE then
            let end_ := u64 (me_addr e + me_len e) in
            if mu <? end_ then end_ else mu
          else mu) mu entries
    | _ => mu
    end) 0 tags.

(** The body of the innermost second loop: release the frame at address [a]. *)
Definition release_frame (a : Z) (s : pfa) : outcome pfa :=
  let frame := a / PAGE_SIZE in
  w ← bm_read s (frame / 32);
  Ok (bm_write s (frame / 32) (bit_clear w (frame mod 32)) (u64 (used_frames s - 1))).

Definition entry_start (e : multiboot_mmap_entry) : Z := mask_low (u64 (me_addr e + 4095)) 4095.
Definition entry_end (e : multiboot_mmap_entry) : Z := mask_low (u64 (me_addr e + me_len e)) 4095.

(** [for (a = start; a < end; a += PAGE_SIZE)]: both ends are page aligned. *)
Definition release_entry (e : multiboot_mmap_entry) (s : pfa) : outcome pfa :=
  if me_type e =? MULTIBOOT_MEMORY_AVAILABLE then
    for_range (λ i s, release_frame (entry_start e + i * PAGE_SIZE) s)
      (Z.to_nat ((entry_end e - entry_start e) / PAGE_SIZE)) 0 s
  else Ok s.

Definition release_tag (tag : multiboot_tag) (s : pfa) : outcome pfa :=
  match tag with
  | TagMmap entries => for_each release_entry entries s
  | _ => Ok s
  end.

(** Third loop: the modules are reserved; sizes are 32-bit. *)
Definition reserve_tag (tag : multiboot_tag) (s : pfa) : outcome pfa :=
  match tag with
  | TagModule mod_start mod_end =>
      let m_size := u32 (mod_end - mod_start) in
      let m_pages := u32 (m_size + 4095) / 4096 in
      pfa_mark_used mod_start m_pages s
  | _ => Ok s
  end.

(** [kernel_start] and [kernel_end] are the physical ends of the kernel image
    and [mb2_phys] the physical address of the multiboot2 information. *)
Definition pfa_init_from_multiboot2 (kernel_start kernel_end mb2_phys : Z)
  (tags : list multiboot_tag) : outcome pfa :=
  let total := mem_upper_of tags / PAGE_SIZE in
  let size := total / 32 + 1 in
  let bitmap_phys := kernel_end + 0x1000 in
  let s0 := mk_pfa (replicate (Z.to_nat size) 0xFFFFFFFF) size total total in
  s1 ← for_each release_tag tags s0;
  s2 ← pfa_mark_used 0 256 s1;
  s3 ← pfa_mark_used kernel_start (u64 (kernel_end - kernel_start) / PAGE_SIZE + 2) s2;
  s4 ← pfa_mark_used bitmap_phys (size * 4 / PAGE_SIZE + 1) s3;
  s5 ← pfa_mark_used mb2_phys 64 s4;
  for_each reserve_tag tags s5.

(** ** The invariant and the abstract state *)

(** Bit of a frame in the bitmap. *)
Definition frame_used (s : pfa) (f : Z) : bool :=
  match frame_bitmap s !! Z.to_nat (f / 32) with
  | Some w => Z.testbit w (f mod 32)
  | None => true
  end.

Definition free_frames (s : pfa) : list Z :=
  filter (λ f, frame_used s f = false) (seqZ 0 (total_frames s)).

Record pfa_wf (s : pfa) : Prop := {
  wf_total : 0 ≤ total_frames s ≤ 2 ^ 52;
  wf_length : Z.of_nat (length (frame_bitmap s)) = frame_bitmap_size s;
  wf_cover : total_frames s ≤ 32 * frame_bitmap_size s;
  wf_size : frame_bitmap_size s ≤ 2 ^ 58;
  wf_words : Forall (λ w, 0 ≤ w < 2 ^ 32) (frame_bitmap s);
  wf_used : used_frames s + Z.of_nat (length (free_frames s)) = total_frames s
}.

(** ** Reading and writing one bit *)

Lemma ctz_from_spec n k x :
  0 ≤ k → (∃ j, k ≤ j < k + Z.of_nat n ∧ Z.testbit x j = true) →
  k ≤ ctz_from n k x < k + Z.of_nat n ∧
  Z.testbit x (ctz_from n k x) = true ∧
  ∀ j, k ≤ j < ctz_from n k x → Z.testbit x j = false.
Proof.
  revert k. induction n as [|n IH]; intros k Hk (j & Hj & Hb); [lia|].
  simpl. destruct (Z.testbit x k) eqn:E.
  - split_and!; [lia..|done|]. intros; lia.
  - assert (j ≠ k) by congruence.
    destruct (IH (k + 1)) as (H1 & H2 & H3); [lia|exists j; split; [lia|done]|].
    split_and!; [lia..|done|]. intros i Hi.
    destruct (decide (i = k)) as [->|]; [done|]. apply H3. lia.
Qed.

Lemma not_full_has_zero w :
  0 ≤ w < 2 ^ 32 → w ≠ 0xFFFFFFFF → ∃ j, 0 ≤ j < 32 ∧ Z.testbit w j = false.
Proof.
  intros Hw Hne.
  destruct (decide (Forall (λ j, Z.testbit w j = true) (seqZ 0 32))) as [Hall|Hnot].
  - exfalso. apply Hne. change 0xFFFFFFFF with (Z.ones 32). apply Z.bits_inj'. intros j Hj.
    destruct (decide (j < 32)).
    + rewrite Z.ones_spec_low by lia. rewrite Forall_forall in Hall.
      apply Hall. apply elem_of_seqZ. lia.
    + rewrite Z.ones_spec_high by lia. by apply (testbit_high 32); [|lia].
  - apply not_Forall_Exists in Hnot; [|apply _]. apply Exists_exists in Hnot as (j & Hj & Hb).
    exists j. apply elem_of_seqZ in Hj. split; [lia|]. simpl in Hb. by destruct (Z.testbit w j).
Qed.

(** [__builtin_ctz(~w)] is the lowest clear bit of [w]. *)
Lemma ctz_lnot_spec w :
  0 ≤ w < 2 ^ 32 → w ≠ 0xFFFFFFFF →
  let b := builtin_ctz (u32 (Z.lnot w)) in
  0 ≤ b < 32 ∧ Z.testbit w b = false ∧ ∀ j, 0 ≤ j < b → Z.testbit w j = true.
Proof.
  intros Hw Hne. assert (Hneg : ∀ j, 0 ≤ j < 32 → Z.testbit (u32 (Z.lnot w)) j = negb (Z.testbit w j)).
  { intros j Hj. unfold wrap. rewrite Z.mod_pow2_bits_low by lia. apply Z.lnot_spec. lia. }
  destruct (not_full_has_zero w Hw Hne) as (j & Hj & Hb).
  destruct (ctz_from_spec 32 0 (u32 (Z.lnot w))) as (H1 & H2 & H3); [lia| |].
  { exists j. split; [lia|]. rewrite Hneg by lia. by rewrite Hb. }
  cbv zeta. unfold builtin_ctz. split_and!; [lia..| |].
  - rewrite Hneg in H2 by lia. by apply negb_true_iff.
  - intros i Hi. specialize (H3 i). rewrite Hneg in H3 by lia.
    by apply negb_false_iff, H3.
Qed.

Lemma frame_split f i b : 0 ≤ b < 32 → f = 32 * i + b ↔ f / 32 = i ∧ f mod 32 = b.
Proof. intros. zdm. Qed.

(** Writing the word of frame [32 i + b] with only that bit changed. *)
Lemma frame_used_write s i b w w' u f v :
  0 ≤ i → 0 ≤ b < 32 →
  frame_bitmap s !! Z.to_nat i = Some w →
  (∀ j, 0 ≤ j < 32 → Z.testbit w' j = if decide (j = b) then v else Z.testbit w j) →
  0 ≤ f →
  frame_used (bm_write s i w' u) f = if decide (f = 32 * i + b) then v else frame_used s f.
Proof.
  intros Hi Hb Hw Hw' Hf. unfold frame_used, bm_write. simpl.
  pose proof (Z.mod_pos_bound f 32). pose proof (Z.div_pos f 32).
  destruct (decide (f / 32 = i)) as [He|Hne].
  - rewrite He, list_lookup_insert_eq by by eapply lookup_lt_Some.
    rewrite Hw, Hw' by lia.
    repeat case_decide; try done; exfalso; zdm.
  - rewrite list_lookup_insert_ne by lia.
    rewrite decide_False; [done|]. intros ->. apply Hne. zdm.
Qed.

(** ** Changing one frame changes the free list accordingly *)

Section change_one.
Context (s s' : pfa) (f0 : Z).
Hypothesis Htot : total_frames s' = total_frames s.
Hypothesis Hf0 : 0 ≤ f0 < total_frames s.
Hypothesis Hother : ∀ f, 0 ≤ f → f ≠ f0 → frame_used s' f = frame_used s f.

Lemma free_split :
  seqZ 0 (total_frames s) =
    seqZ 0 f0 ++ f0 :: seqZ (f0 + 1) (total_frames s - f0 - 1).
Proof.
  replace (total_frames s) with (f0 + (1 + (total_frames s - f0 - 1))) at 1 by lia.
  by rewrite !seqZ_app, Z.add_0_l by lia.
Qed.

Lemma filter_other (l : list Z) :
  (∀ f, f ∈ l → 0 ≤ f ∧ f ≠ f0) →
  filter (λ f, frame_used s' f = false) l = filter (λ f, frame_used s f = false) l.
Proof.
  induction l as [|x l IH]; intros Hl; [done|].
  rewrite !filter_cons, IH by (intros; apply Hl; by right).
  destruct (Hl x); [by left|]. by rewrite Hother.
Qed.

Lemma free_frames_change :
  ∃ l1 l2,
    free_frames s = l1 ++ (if frame_used s f0 then [] else [f0]) ++ l2 ∧
    free_frames s' = l1 ++ (if frame_used s' f0 then [] else [f0]) ++ l2 ∧
    Forall (λ f, f < f0) l1 ∧ Forall (λ f, f0 < f) l2.
Proof.
  unfold free_frames. rewrite Htot, free_split.
  rewrite !filter_app, !filter_cons.
  rewrite !filter_other; [|intros f Hf; apply elem_of_seqZ in Hf; lia..].
  eexists _, _. split_and!.
  - f_equal. destruct (frame_used s f0); simpl; reflexivity.
  - f_equal. destruct (frame_used s' f0); simpl; reflexivity.
  - apply Forall_forall. intros f Hf. apply list_elem_of_filter in Hf as [_ Hf].
    apply elem_of_seqZ in Hf. lia.
  - apply Forall_forall. intros f Hf. apply list_elem_of_filter in Hf as [_ Hf].
    apply elem_of_seqZ in Hf. lia.
Qed.
End change_one.

(** ** Functional behaviour of the bitmap operations *)

Section ops.
Context (s : pfa) (Hwf : pfa_wf s).

Lemma used_range : 0 ≤ used_frames s ≤ total_frames s.
Proof.
  destruct Hwf. unfold free_frames in *.
  pose proof (length_filter (λ f, frame_used s f = false) (seqZ 0 (total_frames s))).
  rewrite length_seqZ in *. lia.
Qed.

Lemma bm_read_ok i :
  0 ≤ i < frame_bitmap_size s → ∃ w, bm_read s i = Ok w ∧ 0 ≤ w < 2 ^ 32 ∧
  frame_bitmap s !! Z.to_nat i = Some w.
Proof.
  intros Hi. destruct Hwf. unfold bm_read.
  destruct (lookup_lt_is_Some_2 (frame_bitmap s) (Z.to_nat i)) as [w Hw]; [lia|].
  exists w. rewrite Hw. by pose proof (Forall_lookup_1 _ _ _ _ wf_words0 Hw).
Qed.

Lemma bm_read_frame f :
  0 ≤ f < total_frames s → ∃ w, bm_read s (f / 32) = Ok w ∧ 0 ≤ w < 2 ^ 32 ∧
  frame_bitmap s !! Z.to_nat (f / 32) = Some w ∧ Z.testbit w (f mod 32) = frame_used s f.
Proof.
  intros Hf. destruct (bm_read_ok (f / 32)) as (w & ? & ? & Hw).
  { destruct Hwf. zdm. }
  exists w. split_and!; try done; try lia. unfold frame_used. by rewrite Hw.
Qed.

(** Changing the bit of one frame, with [used_frames] adjusted, preserves the
    invariant and changes the free list at that frame only. *)
Lemma write_frame_wf f w w' u v :
  0 ≤ f < total_frames s →
  frame_bitmap s !! Z.to_nat (f / 32) = Some w →
  0 ≤ w' < 2 ^ 32 →
  (∀ j, 0 ≤ j < 32 → Z.testbit w' j = if decide (j = f mod 32) then v else Z.testbit w j) →
  frame_used s f = negb v →
  u = (if v then used_frames s + 1 else used_frames s - 1) →
  pfa_wf (bm_write s (f / 32) w' u) ∧
  (∀ g, 0 ≤ g → frame_used (bm_write s (f / 32) w' u) g =
                if decide (g = f) then v else frame_used s g) ∧
  ∃ l1 l2,
    free_frames s = l1 ++ (if v then [f] else []) ++ l2 ∧
    free_frames (bm_write s (f / 32) w' u) = l1 ++ (if v then [] else [f]) ++ l2 ∧
    Forall (λ g, g < f) l1 ∧ Forall (λ g, f < g) l2.
Proof.
  intros Hf Hw Hw' Hbits Hv ->.
  set (s' := bm_write _ _ _ _).
  assert (Hbit : ∀ g, 0 ≤ g → frame_used s' g = if decide (g = f) then v else frame_used s g).
  { intros g Hg. unfold s'.
    rewrite (frame_used_write s (f / 32) (f mod 32) w w' _ g v); [|zdm|zdm|done..].
    rewrite <- Z.div_mod by lia. done. }
  destruct (free_frames_change s s' f) as (l1 & l2 & E1 & E2 & Hl1 & Hl2); [done|done| |].
  { intros g Hg Hne. rewrite Hbit by done. by rewrite decide_False. }
  rewrite Hbit, decide_True in E2 by lia. rewrite Hv in E1.
  split_and!; [|done|exists l1, l2; split_and!; [by destruct v|by destruct v|done..]].
  destruct Hwf as [H1 H2 H3 H4 H5 H6]. unfold s' in *. constructor; simpl in *; auto.
  - by rewrite length_insert.
  - by apply Forall_insert.
  - rewrite E2. rewrite E1 in H6. rewrite !length_app in *. destruct v; simpl in *; lia.
Qed.
End ops.

(** Abstract effect of marking a frame: it leaves the free list. *)
Lemma mark_frame_spec s f :
  pfa_wf s → 0 ≤ f →
  ∃ s', mark_frame f s = Ok s' ∧ pfa_wf s' ∧ total_frames s' = total_frames s ∧
    free_frames s' = filter (λ g, g ≠ f) (free_frames s).
Proof.
  intros Hwf Hf. unfold mark_frame.
  assert (Hskip : frame_used s f = true ∨ total_frames s ≤ f →
    free_frames s = filter (λ g, g ≠ f) (free_frames s)).
  { intros H. symmetry. apply list_filter_all. apply Forall_forall. intros g Hg ->.
    apply list_elem_of_filter in Hg as [Hu Hg]. apply elem_of_seqZ in Hg.
    destruct H; [congruence|lia]. }
  destruct (Z.ltb_spec f (total_frames s)); [|exists s; split_and!; auto].
  destruct (bm_read_frame s Hwf f) as (w & -> & Hw & Hl & Hb); [lia|]. simpl.
  rewrite bit_test_spec by zdm. rewrite Hb.
  destruct (frame_used s f) eqn:Hu; simpl; [exists s; split_and!; auto|].
  eexists. split; [reflexivity|].
  destruct (used_range s Hwf). destruct (wf_total s Hwf).
  destruct (write_frame_wf s Hwf f w (bit_set w (f mod 32)) (u64 (used_frames s + 1)) true)
    as (Hwf' & _ & l1 & l2 & E1 & E2 & Hl1 & Hl2); [lia|done| | |done| |].
  { apply bit_set_range; [done|zdm]. }
  { intros j Hj. rewrite bit_set_spec by zdm. repeat case_decide; case_bool_decide; done. }
  { apply wrap_small. lia. }
  split_and!; [done..|]. rewrite E2, E1. simpl.
  rewrite filter_app, filter_cons_False by (intros Hne; by apply Hne).
  rewrite !list_filter_all; [done|eapply Forall_impl; [done|simpl; lia]..].
Qed.

(** Marking a range removes exactly the frames of the range from the free list. *)
Lemma pfa_mark_used_spec s frame_start frame_count :
  pfa_wf s → 0 ≤ frame_start < 2 ^ 64 → 0 ≤ frame_count < 2 ^ 63 →
  let f0 := frame_start / PAGE_SIZE in
  ∃ s', pfa_mark_used frame_start frame_count s = Ok s' ∧ pfa_wf s' ∧
    total_frames s' = total_frames s ∧
    free_frames s' = filter (λ g, ¬ (f0 ≤ g < f0 + frame_count)) (free_frames s).
Proof.
  intros Hwf Hs Hc f0. unfold pfa_mark_used.
  assert (Hf0 : 0 ≤ f0 < 2 ^ 52) by (unfold f0, PAGE_SIZE; zdm).
  destruct (for_range_rule
    (λ i t, pfa_wf t ∧ total_frames t = total_frames s ∧
       free_frames t = filter (λ g, ¬ (f0 ≤ g < f0 + i)) (free_frames s))
    (λ i s, mark_frame (u64 (frame_start / PAGE_SIZE + i)) s)
    (Z.to_nat frame_count) 0 s) as (s' & E & H).
  - split_and!; [done..|]. symmetry. apply list_filter_all, Forall_true. lia.
  - intros i t Hi (Ht & Htot & Hfree). fold f0.
    rewrite wrap_small by lia.
    destruct (mark_frame_spec t (f0 + i)) as (t' & E & Ht' & Htot' & Hfree'); [done|lia|].
    exists t'. split_and!; [done..|congruence|].
    rewrite Hfree', Hfree, list_filter_filter. apply list_filter_iff. intros; lia.
  - exists s'. rewrite Z2Nat.id in H by lia. by rewrite Z.add_0_l in H.
Qed.

(** [pfa_free_frame] puts the frame of the address back, in order; on a frame
    outside the managed range or already free it does nothing. *)
Lemma pfa_free_frame_spec s a :
  pfa_wf s → 0 ≤ a →
  let f := a / PAGE_SIZE in
  ∃ s', pfa_free_frame a s = Ok s' ∧ pfa_wf s' ∧ total_frames s' = total_frames s ∧
    ((f < total_frames s ∧ frame_used s f = true ∧
      ∃ l1 l2, free_frames s = l1 ++ l2 ∧ free_frames s' = l1 ++ f :: l2 ∧
        Forall (λ g, g < f) l1 ∧ Forall (λ g, f < g) l2)
     ∨ ((total_frames s ≤ f ∨ frame_used s f = false) ∧ s' = s)).
Proof.
  intros Hwf Ha f. unfold pfa_free_frame. fold f.
  assert (Hf : 0 ≤ f) by (unfold f, PAGE_SIZE; zdm).
  destruct (Z.ltb_spec f (total_frames s)); [|exists s; naive_solver].
  destruct (bm_read_frame s Hwf f) as (w & -> & Hw & Hl & Hb); [lia|]. simpl.
  rewrite bit_test_spec by zdm. rewrite Hb.
  destruct (frame_used s f) eqn:Hu; simpl; [|exists s; naive_solver].
  eexists. split; [reflexivity|].
  destruct (used_range s Hwf). destruct (wf_total s Hwf).
  destruct (write_frame_wf s Hwf f w (bit_clear w (f mod 32)) (u64 (used_frames s - 1)) false)
    as (Hwf' & _ & l1 & l2 & E1 & E2 & Hl1 & Hl2); [lia|done| | |done| |].
  { apply bit_clear_range; [done|zdm]. }
  { intros j Hj. rewrite bit_clear_spec by zdm. repeat case_decide; case_bool_decide; done. }
  { apply wrap_small. split; [|lia].
    assert (length (free_frames s) < Z.to_nat (total_frames s))%nat; [|pose proof (wf_used s Hwf); lia].
    rewrite <- (length_seqZ 0 (total_frames s)). unfold free_frames.
    apply (length_filter_lt _ _ f); [apply elem_of_seqZ; lia|congruence]. }
  split_and!; [done..|]. left. split_and!; [done..|]. exists l1, l2. by simpl in *.
Qed.

Lemma elem_of_free_frames s f :
  f ∈ free_frames s ↔ 0 ≤ f < total_frames s ∧ frame_used s f = false.
Proof.
  unfold free_frames. rewrite list_elem_of_filter, elem_of_seqZ. naive_solver lia.
Qed.

Lemma free_frames_NoDup s : NoDup (free_frames s).
Proof. apply NoDup_filter, NoDup_seqZ. Qed.

Lemma seqZ_sorted a n : StronglySorted Z.lt (seqZ a n).
Proof.
  destruct (decide (0 ≤ n)) as [Hn|]; [|by rewrite seqZ_nil by lia; constructor].
  revert a. pattern n. apply natlike_ind; [|clear n Hn; intros n Hn IH a|done].
  - intros a. rewrite seqZ_nil by done. constructor.
  - rewrite seqZ_cons by lia. constructor.
    + rewrite Z.pred_succ. apply IH.
    + apply Forall_forall. intros x Hx%elem_of_seqZ. lia.
Qed.

Lemma filter_sorted (P : Z → Prop) `{!∀ x, Decision (P x)} l :
  StronglySorted Z.lt l → StronglySorted Z.lt (filter P l).
Proof.
  induction 1 as [|x l Hl IH Hx]; [constructor|]. rewrite filter_cons. case_decide; [|done].
  constructor; [done|]. apply Forall_forall. intros y [_ Hy]%list_elem_of_filter.
  rewrite Forall_forall in Hx. auto.
Qed.

Lemma free_frames_sorted s : StronglySorted Z.lt (free_frames s).
Proof. apply filter_sorted, seqZ_sorted. Qed.

(** Freeing a frame that is free, or that is not managed, changes nothing. *)
Lemma free_frame_noop s a :
  (total_frames s ≤ a / PAGE_SIZE ∨ frame_used s (a / PAGE_SIZE) = false) →
  pfa_free_frame a s = Ok s.
Proof.
  intros H. unfold pfa_free_frame. destruct (Z.ltb_spec (a / PAGE_SIZE) (total_frames s)); [|done].
  destruct H as [|H]; [lia|]. unfold frame_used, bm_read in *.
  destruct (frame_bitmap s !! _) as [w|]; [|done]. run. unfold of_option. run.
  rewrite bit_test_spec by zdm. by rewrite H.
Qed.

(** One iteration of the search loop. *)
Lemma claim_step s i :
  pfa_wf s → 0 ≤ i < frame_bitmap_size s →
  (∀ g, 0 ≤ g < 32 * i → g < total_frames s → frame_used s g = true) →
  ∃ w, bm_read s i = Ok w ∧ frame_bitmap s !! Z.to_nat i = Some w ∧ 0 ≤ w < 2 ^ 32 ∧
    if decide (w = 0xFFFFFFFF ∨ total_frames s ≤ u64 (i * 32 + builtin_ctz (u32 (Z.lnot w))))
    then ∀ g, 0 ≤ g < 32 * (i + 1) → g < total_frames s → frame_used s g = true
    else let b := builtin_ctz (u32 (Z.lnot w)) in
         0 ≤ b < 32 ∧ u64 (i * 32 + b) = 32 * i + b ∧ 32 * i + b < total_frames s ∧
         Z.testbit w b = false ∧
         ∀ g, 0 ≤ g < 32 * i + b → frame_used s g = true.
Proof.
  intros Hwf Hi Hbelow. destruct (bm_read_ok s Hwf i) as (w & Hr & Hw & Hl); [done|].
  exists w. split_and!; try done; [lia..|].
  assert (Hbit : ∀ g, g / 32 = i → frame_used s g = Z.testbit w (g mod 32)).
  { intros g <-. unfold frame_used. by rewrite Hl. }
  destruct (decide (w = 0xFFFFFFFF)) as [->|Hne].
  { rewrite decide_True by auto. intros g Hg Ht.
    destruct (decide (g < 32 * i)); [apply Hbelow; lia|].
    rewrite Hbit by zdm. change 0xFFFFFFFF with (Z.ones 32). apply Z.ones_spec_low. zdm. }
  destruct (ctz_lnot_spec w) as (H1 & H2 & H3); [lia|done|].
  set (b := builtin_ctz _) in *.
  assert (Hwr : u64 (i * 32 + b) = 32 * i + b).
  { pose proof (wf_size s Hwf). rewrite wrap_small by lia. lia. }
  rewrite Hwr.
  assert (Hlow : ∀ g, 0 ≤ g < 32 * i + b → g < total_frames s → frame_used s g = true).
  { intros g Hg Ht. destruct (decide (g < 32 * i)); [apply Hbelow; lia|].
    rewrite Hbit by zdm. apply H3. zdm. }
  case_decide as Hd.
  - destruct Hd; [done|]. intros g Hg Ht. apply Hlow; lia.
  - split_and!; try done; try lia. intros g Hg. apply Hlow; lia.
Qed.

(** [pfa_claim] takes the lowest free frame, and fails exactly when there is none. *)
Lemma pfa_claim_spec s :
  pfa_wf s →
  ∃ r s', pfa_claim s = Ok (r, s') ∧ pfa_wf s' ∧ total_frames s' = total_frames s ∧
    match free_frames s with
    | [] => r = None ∧ s' = s
    | f :: l => r = Some f ∧ free_frames s' = l
    end.
Proof.
  intros Hwf. unfold pfa_claim.
  pose proof (wf_length s Hwf) as Hlen. pose proof (wf_cover s Hwf).
  edestruct (for_return_rule
    (λ i (_ : unit), ∀ g, 0 ≤ g < 32 * i → g < total_frames s → frame_used s g = true)
    (λ '(f, s'), 0 ≤ f < total_frames s ∧ pfa_wf s' ∧ total_frames s' = total_frames s ∧
       frame_used s f = false ∧ (∀ g, 0 ≤ g < f → frame_used s g = true) ∧
       ∃ l1 l2, free_frames s = l1 ++ f :: l2 ∧ free_frames s' = l1 ++ l2 ∧
         Forall (λ g, g < f) l1))
    as [(u & -> & Hu)|([f s'] & -> & Hf & Hwf' & Htot & Hfree & Hlow & l1 & l2 & E1 & E2 & Hl1)].
  - intros; lia.
  - intros i [] Hi Hbelow.
    destruct (claim_step s i) as (w & -> & Hl & Hw & Hstep); [done|lia|done|]. simpl.
    case_decide as Hd.
    { left. exists (). split; [|done]. destruct (Z.eqb_spec w 0xFFFFFFFF); [done|].
      destruct Hd; [done|]. by rewrite (proj2 (Z.ltb_ge _ _)). }
    right. destruct Hstep as (Hb & Hwr & Hlt & Htest & Hlow).
    destruct (Z.eqb_spec w 0xFFFFFFFF); [by destruct Hd; left|].
    rewrite Hwr in *. rewrite (proj2 (Z.ltb_lt _ _)) by done.
    set (b := builtin_ctz _) in *. eexists. split; [reflexivity|]. simpl.
    destruct (proj1 (frame_split (32 * i + b) i b Hb) eq_refl) as [Hdiv Hmod].
    assert (Hunused : frame_used s (32 * i + b) = false).
    { unfold frame_used. by rewrite Hdiv, Hmod, Hl. }
    destruct (used_range s Hwf). destruct (wf_total s Hwf).
    destruct (write_frame_wf s Hwf (32 * i + b) w (bit_set w b) (u64 (used_frames s + 1)) true)
      as (Hwf' & _ & l1 & l2 & E1 & E2 & Hl1 & Hl2); [lia|by rewrite Hdiv| | |done| |].
    { apply bit_set_range; [done|lia]. }
    { rewrite Hmod. intros j Hj. rewrite bit_set_spec by lia.
      repeat case_decide; case_bool_decide; done. }
    { apply wrap_small. lia. }
    rewrite Hdiv in *. split_and!; try done; [lia..|]. by exists l1, l2.
  - eexists None, s. split_and!; try done. destruct (free_frames s) as [|f l] eqn:E; [done|].
    assert (f ∈ free_frames s) as [Hf Huse]%elem_of_free_frames by (rewrite E; by left).
    rewrite Z2Nat.id in Hu by lia. rewrite Hu in Huse by lia. done.
  - exists (Some f), s'. split_and!; try done.
    destruct l1 as [|g l1]; [by rewrite E1, E2|].
    assert (g ∈ free_frames s) as [Hg Huse]%elem_of_free_frames by (rewrite E1; by left).
    apply Forall_cons in Hl1 as [Hlt _]. rewrite Hlow in Huse by lia. done.
Qed.

(** ** The set-up establishes the invariant *)

Definition tag_entries (tag : multiboot_tag) : list multiboot_mmap_entry :=
  match tag with TagMmap entries => entries | _ => [] end.
Definition all_entries (tags : list multiboot_tag) : list multiboot_mmap_entry :=
  tags ≫= tag_entries.

(** The frames of an available entry. *)
Definition in_entry (e : multiboot_mmap_entry) (f : Z) : Prop :=
  me_type e = MULTIBOOT_MEMORY_AVAILABLE ∧
  entry_start e ≤ f * PAGE_SIZE < entry_end e.

(** What the boot loader guarantees of its map: entries lie below 2^64 and the
    available ones do not overlap. *)
Record map_ok (entries : list multiboot_mmap_entry) : Prop := {
  map_range : ∀ e, e ∈ entries → 0 ≤ me_addr e ∧ 0 ≤ me_len e ∧
    me_addr e + me_len e + 4095 < 2 ^ 64;
  map_disjoint : ∀ i j e1 e2 f, entries !! i = Some e1 → entries !! j = Some e2 →
    in_entry e1 f → in_entry e2 f → i = j
}.

Lemma release_entries_concat tags s :
  for_each release_tag tags s = for_each release_entry (all_entries tags) s.
Proof.
  revert s. induction tags as [|tag tags IH]; intros s; [done|].
  unfold all_entries. simpl. rewrite for_each_app.
  assert (release_tag tag s = for_each release_entry (tag_entries tag) s) as -> by by destruct tag.
  destruct (for_each release_entry (tag_entries tag) s); simpl; [apply IH|done..].
Qed.

(** Releasing a frame in use is [pfa_free_frame]. *)
Lemma release_frame_free s a :
  pfa_wf s → 0 ≤ a → a / PAGE_SIZE < total_frames s → frame_used s (a / PAGE_SIZE) = true →
  release_frame a s = pfa_free_frame a s.
Proof.
  intros Hwf Ha Hf Hu. unfold release_frame, pfa_free_frame.
  rewrite (proj2 (Z.ltb_lt _ _)) by done.
  assert (0 ≤ a / PAGE_SIZE) by (unfold PAGE_SIZE; zdm).
  destruct (bm_read_frame s Hwf (a / PAGE_SIZE)) as (w & -> & Hw & Hl & Hb); [done|].
  simpl. rewrite bit_test_spec by zdm. by rewrite Hb, Hu.
Qed.

Lemma release_frame_spec s f :
  pfa_wf s → 0 ≤ f < total_frames s → f ∉ free_frames s →
  ∃ s', release_frame (f * PAGE_SIZE) s = Ok s' ∧ pfa_wf s' ∧
    total_frames s' = total_frames s ∧
    ∀ g, g ∈ free_frames s' ↔ g ∈ free_frames s ∨ g = f.
Proof.
  intros Hwf Hf Hnot.
  assert (Hu : frame_used s f = true).
  { destruct (frame_used s f) eqn:E; [done|]. destruct Hnot. by apply elem_of_free_frames. }
  assert (Hdiv : f * PAGE_SIZE / PAGE_SIZE = f) by by rewrite Z.div_mul.
  rewrite release_frame_free by (rewrite ?Hdiv; unfold PAGE_SIZE; lia || done).
  destruct (pfa_free_frame_spec s (f * PAGE_SIZE)) as (s' & E & Hwf' & Htot & Hcase);
    [done|unfold PAGE_SIZE; lia|]. rewrite Hdiv in Hcase.
  exists s'. split_and!; [done..|]. intros g.
  destruct Hcase as [(_ & _ & l1 & l2 & E1 & E2 & _)|[[|] _]]; [|lia|congruence].
  rewrite E1, E2. set_solver.
Qed.

Lemma entry_start_eq e :
  0 ≤ me_addr e → me_addr e + 4095 < 2 ^ 64 →
  entry_start e = (me_addr e + 4095) / 4096 * 4096.
Proof.
  intros. unfold entry_start. rewrite wrap_small by lia.
  change 4095 with (2 ^ 12 - 1) at 2. rewrite mask_low_ones by lia.
  change (2 ^ 12) with 4096. zdm.
Qed.

Lemma entry_end_eq e :
  0 ≤ me_addr e + me_len e < 2 ^ 64 →
  entry_end e = (me_addr e + me_len e) / 4096 * 4096.
Proof.
  intros. unfold entry_end. rewrite wrap_small by lia.
  change 4095 with (2 ^ 12 - 1). rewrite mask_low_ones by lia.
  change (2 ^ 12) with 4096. zdm.
Qed.

(** Releasing an available entry adds its frames to the free ones. *)
Lemma release_entry_spec e s :
  pfa_wf s →
  0 ≤ me_addr e ∧ 0 ≤ me_len e ∧ me_addr e + me_len e + 4095 < 2 ^ 64 →
  (∀ f, in_entry e f → f < total_frames s ∧ f ∉ free_frames s) →
  ∃ s', release_entry e s = Ok s' ∧ pfa_wf s' ∧ total_frames s' = total_frames s ∧
    ∀ g, g ∈ free_frames s' ↔ g ∈ free_frames s ∨ in_entry e g.
Proof.
  intros Hwf He Hfr. unfold release_entry, in_entry in *.
  destruct (Z.eqb_spec (me_type e) MULTIBOOT_MEMORY_AVAILABLE) as [Ht|Ht].
  2:{ exists s. split_and!; [done..|]. naive_solver. }
  rewrite entry_start_eq, entry_end_eq in * by lia. unfold PAGE_SIZE in *.
  set (f0 := (me_addr e + 4095) / 4096) in *. set (f1 := (me_addr e + me_len e) / 4096) in *.
  assert (0 ≤ f0) by (unfold f0; zdm).
  replace ((f1 * 4096 - f0 * 4096) / 4096) with (f1 - f0)
    by (rewrite <- Z.mul_sub_distr_r, Z.div_mul; lia).
  destruct (for_range_rule
    (λ i t, pfa_wf t ∧ total_frames t = total_frames s ∧
       ∀ g, g ∈ free_frames t ↔ g ∈ free_frames s ∨ f0 ≤ g < f0 + i)
    (λ i s, release_frame (f0 * 4096 + i * 4096) s) (Z.to_nat (f1 - f0)) 0 s)
    as (s' & -> & Hwf' & Htot & Hg).
  - split_and!; [done..|]. intros g. split; [naive_solver|]. intros [|]; [done|lia].
  - intros i t Hi (Hwt & Htot & Hg). rewrite <- Z.mul_add_distr_r.
    destruct (Hfr (f0 + i)) as [H1 H2]; [lia|].
    destruct (release_frame_spec t (f0 + i)) as (t' & E & Hw' & Ht' & Hg'); [done|lia| |].
    { rewrite Hg. intros [|]; [done|lia]. }
    exists t'. split_and!; [done..|congruence|]. intros g. rewrite Hg', Hg. naive_solver lia.
  - exists s'. split_and!; [done..|]. intros g. rewrite Hg. naive_solver lia.
Qed.

(** The first loop computes an upper bound of the available entries. *)
Definition upper_step (mu : Z) (e : multiboot_mmap_entry) : Z :=
  if me_type e =? MULTIBOOT_MEMORY_AVAILABLE then
    let end_ := u64 (me_addr e + me_len e) in if mu <? end_ then end_ else mu
  else mu.

Lemma mem_upper_concat tags : mem_upper_of tags = foldl upper_step 0 (all_entries tags).
Proof.
  unfold mem_upper_of, all_entries. generalize 0.
  induction tags as [|tag tags IH]; intros mu; [done|]. simpl. rewrite IH, foldl_app.
  by destruct tag.
Qed.

Lemma upper_step_bound mu e : 0 ≤ mu < 2 ^ 64 →
  mu ≤ upper_step mu e < 2 ^ 64 ∧
  (me_type e = MULTIBOOT_MEMORY_AVAILABLE → u64 (me_addr e + me_len e) ≤ upper_step mu e).
Proof.
  intros Hmu. unfold upper_step. pose proof (wrap_range 64 (me_addr e + me_len e)).
  destruct (Z.eqb_spec (me_type e) MULTIBOOT_MEMORY_AVAILABLE); [|naive_solver lia].
  destruct (Z.ltb_spec mu (u64 (me_addr e + me_len e))); lia.
Qed.

Lemma mem_upper_bound tags :
  0 ≤ mem_upper_of tags < 2 ^ 64 ∧
  ∀ e, e ∈ all_entries tags → me_type e = MULTIBOOT_MEMORY_AVAILABLE →
    u64 (me_addr e + me_len e) ≤ mem_upper_of tags.
Proof.
  rewrite mem_upper_concat. generalize (all_entries tags). intros l.
  assert (Hgen : ∀ mu, 0 ≤ mu < 2 ^ 64 →
    mu ≤ foldl upper_step mu l < 2 ^ 64 ∧
    ∀ e, e ∈ l → me_type e = MULTIBOOT_MEMORY_AVAILABLE →
      u64 (me_addr e + me_len e) ≤ foldl upper_step mu l).
  { induction l as [|e l IH]; intros mu Hmu; simpl; [split; [lia|set_solver]|].
    destruct (upper_step_bound mu e Hmu) as [Hb He].
    destruct (IH (upper_step mu e)) as [Hb' He']; [lia|]. split; [lia|].
    intros e' [->|Hin]%elem_of_cons Ht; [specialize (He Ht); lia|auto]. }
  destruct (Hgen 0) as [? ?]; [lia|]. split; [lia|done].
Qed.

Lemma in_entry_bound tags e f :
  e ∈ all_entries tags → map_ok (all_entries tags) → in_entry e f →
  0 ≤ f < mem_upper_of tags / PAGE_SIZE.
Proof.
  intros He Hok [Ht Hf]. destruct (map_range _ Hok e He) as (H1 & H2 & H3).
  destruct (mem_upper_bound tags) as [Hb Hle]. specialize (Hle e He Ht).
  rewrite wrap_small in Hle by lia. rewrite entry_start_eq, entry_end_eq in Hf by lia.
  unfold PAGE_SIZE in *. zdm.
Qed.

(** Every bit set: no frame is free. *)
Lemma init_bitmap_wf total :
  0 ≤ total ≤ 2 ^ 52 →
  let size := total / 32 + 1 in
  let s := mk_pfa (replicate (Z.to_nat size) 0xFFFFFFFF) size total total in
  pfa_wf s ∧ free_frames s = [].
Proof.
  intros Ht size s. assert (Hsz : 0 < size ∧ total ≤ 32 * size ∧ size ≤ 2 ^ 58) by (unfold size; zdm).
  assert (Hfree : free_frames s = []).
  { destruct (free_frames s) as [|f l] eqn:E; [done|]. exfalso.
    assert (f ∈ free_frames s) as [Hf Hu]%elem_of_free_frames by (rewrite E; by left).
    unfold frame_used, s in *. simpl in *.
    rewrite lookup_replicate_2 in Hu by (unfold size; zdm).
    change 0xFFFFFFFF with (Z.ones 32) in Hu. rewrite Z.ones_spec_low in Hu by zdm. done. }
  split; [|done]. constructor; simpl; try lia.
  - rewrite length_replicate. lia.
  - by apply Forall_replicate.
  - fold s. rewrite Hfree. simpl. lia.
Qed.

Lemma release_tags_spec tags s :
  map_ok (all_entries tags) → pfa_wf s → free_frames s = [] →
  total_frames s = mem_upper_of tags / PAGE_SIZE →
  ∃ s', for_each release_tag tags s = Ok s' ∧ pfa_wf s' ∧ total_frames s' = total_frames s ∧
    ∀ f, f ∈ free_frames s' ↔ ∃ e, e ∈ all_entries tags ∧ in_entry e f.
Proof.
  intros Hok Hwf Hnil Htot. rewrite release_entries_concat.
  destruct (for_each_rule
    (λ done t, pfa_wf t ∧ total_frames t = total_frames s ∧
       ∀ f, f ∈ free_frames t ↔ ∃ e, e ∈ done ∧ in_entry e f)
    release_entry (all_entries tags) [] s) as (s' & E & H).
  - split_and!; [done..|]. rewrite Hnil. set_solver.
  - intros l1 e l2 t Hl (Hwt & Htt & Hft). simpl in *.
    assert (He : e ∈ all_entries tags) by (rewrite Hl; set_solver).
    destruct (release_entry_spec e t) as (t' & Et & Hwt' & Htt' & Hft').
    + done.
    + by apply (map_range _ Hok).
    + intros f Hf. split; [rewrite Htt, Htot; by eapply in_entry_bound|].
      rewrite Hft. intros (e' & He' & Hf'). apply list_elem_of_lookup in He' as [i Hi].
      pose proof (lookup_lt_Some _ _ _ Hi).
      assert (i = length l1); [|lia]. eapply (map_disjoint _ Hok _ _ e' e f); rewrite ?Hl; try done.
      * by rewrite lookup_app_l.
      * by apply list_lookup_middle.
    + exists t'. split_and!; [done..|congruence|]. intros f. rewrite Hft', Hft. set_solver.
  - exists s'. by simpl in *.
Qed.

(** The frames of [count] pages from the page of address [start]. *)
Definition in_pages (start count f : Z) : Prop :=
  start / PAGE_SIZE ≤ f < start / PAGE_SIZE + count.

Definition in_module (tag : multiboot_tag) (f : Z) : Prop :=
  match tag with
  | TagModule m_start m_end => in_pages m_start (u32 (u32 (m_end - m_start) + 4095) / 4096) f
  | _ => False
  end.

Definition tag_ok (tag : multiboot_tag) : Prop :=
  match tag with TagModule m_start _ => 0 ≤ m_start < 2 ^ 32 | _ => True end.

Lemma mark_used_elem s start count :
  pfa_wf s → 0 ≤ start < 2 ^ 64 → 0 ≤ count < 2 ^ 63 →
  ∃ s', pfa_mark_used start count s = Ok s' ∧ pfa_wf s' ∧ total_frames s' = total_frames s ∧
    ∀ f, f ∈ free_frames s' ↔ f ∈ free_frames s ∧ ¬ in_pages start count f.
Proof.
  intros Hwf Hs Hc.
  destruct (pfa_mark_used_spec s start count) as (s' & E & Hwf' & Ht & Hf); [done..|].
  exists s'. split_and!; [done..|]. intros f. rewrite Hf, list_elem_of_filter.
  unfold in_pages. tauto.
Qed.

Lemma reserve_tags_spec tags s :
  Forall tag_ok tags → pfa_wf s →
  ∃ s', for_each reserve_tag tags s = Ok s' ∧ pfa_wf s' ∧ total_frames s' = total_frames s ∧
    ∀ f, f ∈ free_frames s' ↔ f ∈ free_frames s ∧ ¬ ∃ tag, tag ∈ tags ∧ in_module tag f.
Proof.
  intros Hok Hwf.
  destruct (for_each_rule
    (λ done t, pfa_wf t ∧ total_frames t = total_frames s ∧
       ∀ f, f ∈ free_frames t ↔ f ∈ free_frames s ∧ ¬ ∃ tag, tag ∈ done ∧ in_module tag f)
    reserve_tag tags [] s) as (s' & E & H).
  - split_and!; [done..|]. set_solver.
  - intros l1 tag l2 t Hl (Hwt & Htt & Hft). simpl in *.
    assert (Htag : tag_ok tag) by (rewrite Forall_forall in Hok; apply Hok; rewrite Hl; set_solver).
    destruct tag as [es|m_start m_end|lower upper|ty]; simpl;
      [exists t; split_and!; [done..|]; intros f; rewrite Hft; set_solver
      | |exists t; split_and!; [done..|]; intros f; rewrite Hft; set_solver..].
    destruct (mark_used_elem t m_start (u32 (u32 (m_end - m_start) + 4095) / 4096))
      as (t' & Et & Hwt' & Htt' & Hft'); [done|simpl in Htag; lia| |].
    { pose proof (wrap_range 32 (u32 (m_end - m_start) + 4095)). zdm. }
    exists t'. split_and!; [done..|congruence|]. intros f. rewrite Hft', Hft. set_solver.
  - exists s'. by simpl in *.
Qed.

(** Frames the kernel must never hand out: the first megabyte, the kernel
    image, the bitmap itself, the boot information and the modules. *)
Definition reserved (kernel_start kernel_end mb2_phys : Z) (tags : list multiboot_tag) (f : Z)
  : Prop :=
  in_pages 0 256 f ∨
  in_pages kernel_start ((kernel_end - kernel_start) / PAGE_SIZE + 2) f ∨
  in_pages (kernel_end + 0x1000) ((mem_upper_of tags / PAGE_SIZE / 32 + 1) * 4 / PAGE_SIZE + 1) f ∨
  in_pages mb2_phys 64 f ∨
  ∃ tag, tag ∈ tags ∧ in_module tag f.

Lemma pfa_init_spec kernel_start kernel_end mb2_phys tags :
  0 ≤ kernel_start ≤ kernel_end → kernel_end < 2 ^ 32 → 0 ≤ mb2_phys < 2 ^ 64 →
  map_ok (all_entries tags) → Forall tag_ok tags →
  ∃ s, pfa_init_from_multiboot2 kernel_start kernel_end mb2_phys tags = Ok s ∧ pfa_wf s ∧
    total_frames s = mem_upper_of tags / PAGE_SIZE ∧
    ∀ f, f ∈ free_frames s ↔
      (∃ e, e ∈ all_entries tags ∧ in_entry e f) ∧
      ¬ reserved kernel_start kernel_end mb2_phys tags f.
Proof.
  intros Hk Hk' Hmb Hmap Htags. unfold pfa_init_from_multiboot2.
  destruct (mem_upper_bound tags) as [Hmu _].
  set (total := mem_upper_of tags / PAGE_SIZE).
  assert (Htotal : 0 ≤ total ≤ 2 ^ 52) by (unfold total, PAGE_SIZE; zdm).
  destruct (init_bitmap_wf total Htotal) as [Hwf0 Hnil].
  set (s0 := mk_pfa _ _ _ _) in *.
  destruct (release_tags_spec tags s0) as (s1 & -> & Hwf1 & Ht1 & Hf1); [done..|]. simpl.
  destruct (mark_used_elem s1 0 256) as (s2 & -> & Hwf2 & Ht2 & Hf2); [done|lia..|]. simpl.
  rewrite wrap_small by lia.
  destruct (mark_used_elem s2 kernel_start ((kernel_end - kernel_start) / PAGE_SIZE + 2))
    as (s3 & -> & Hwf3 & Ht3 & Hf3); [done|lia|unfold PAGE_SIZE; zdm|]. simpl.
  destruct (mark_used_elem s3 (kernel_end + 0x1000) ((total / 32 + 1) * 4 / PAGE_SIZE + 1))
    as (s4 & -> & Hwf4 & Ht4 & Hf4); [done|lia|unfold PAGE_SIZE; zdm|]. simpl.
  destruct (mark_used_elem s4 mb2_phys 64) as (s5 & -> & Hwf5 & Ht5 & Hf5); [done|lia..|]. simpl.
  destruct (reserve_tags_spec tags s5) as (s6 & -> & Hwf6 & Ht6 & Hf6); [done..|].
  exists s6. split_and!; [done..|by rewrite Ht6, Ht5, Ht4, Ht3, Ht2, Ht1|].
  intros f. rewrite Hf6, Hf5, Hf4, Hf3, Hf2, Hf1. unfold reserved. fold total. tauto.
Qed.

(** Repeated allocation, for statements about sequences of requests. *)
Fixpoint pfa_claims (n : nat) (s : pfa) : outcome (list Z * pfa) :=
  match n with
  | O => Ok ([], s)
  | S n' =>
      '(r, s1) ← pfa_claim s;
      match r with
      | None => Ok ([], s1)
      | Some f => '(l, s2) ← pfa_claims n' s1; Ok (f :: l, s2)
      end
  end.

Lemma pfa_claims_spec n s :
  pfa_wf s → ∃ s', pfa_claims n s = Ok (take n (free_frames s), s') ∧ pfa_wf s' ∧
    free_frames s' = drop n (free_frames s).
Proof.
  revert s. induction n as [|n IH]; intros s Hwf; [by exists s|]. simpl.
  destruct (pfa_claim_spec s Hwf) as (r & s1 & -> & Hwf1 & _ & Hr). simpl.
  destruct (free_frames s) as [|f l] eqn:E.
  - destruct Hr as [-> ->]. exists s. by rewrite E.
  - destruct Hr as [-> Hl]. destruct (IH s1 Hwf1) as (s2 & -> & Hwf2 & Hf2). simpl.
    exists s2. rewrite Hl in *. done.
Qed.

Lemma free_frames_used s s' k :
  pfa_wf s → pfa_wf s' → total_frames s' = total_frames s →
  free_frames s' = drop k (free_frames s) → (k ≤ length (free_frames s))%nat →
  used_frames s' = used_frames s + Z.of_nat k.
Proof.
  intros Hs Hs' Ht Hf Hk. pose proof (wf_used s Hs). pose proof (wf_used s' Hs').
  rewrite Hf, length_drop in *. lia.
Qed.

Lemma pfa_claims_total n s l s' :
  pfa_wf s → pfa_claims n s = Ok (l, s') → total_frames s' = total_frames s.
Proof.
  revert s l s'. induction n as [|n IH]; intros s l s' Hwf; simpl; [by intros [= _ <-]|].
  destruct (pfa_claim_spec s Hwf) as (r & s1 & -> & Hwf1 & Ht & _). run.
  destruct r as [f|]; [|by intros [= _ <-]].
  destruct (pfa_claims n s1) as [[l2 s2]| | |] eqn:E; run; try done.
  intros [= _ <-]. by rewrite (IH s1 l2 s2).
Qed.

(** ** Properties *)

(** A memory of 4 MiB with one available entry, a hole and a module. *)
Definition demo_tags : list multiboot_tag :=
  [TagOther 1; TagMmap [mk_entry 0 0x9F000 1; mk_entry 0x9F000 0x61000 2;
                        mk_entry 0x100000 0x300000 1];
   TagModule 0x300000 0x303001].

Lemma demo_map_ok : map_ok (all_entries demo_tags).
Proof.
  constructor.
  - intros e He. unfold all_entries, demo_tags in He. simpl in He.
    repeat (apply elem_of_cons in He as [->|He]; [simpl; lia|]). by apply elem_of_nil in He.
  - assert (Hd : ∀ e f, in_entry e f → me_type e = 1 ∧ entry_start e ≤ f * 4096 < entry_end e) by done.
    intros i j e1 e2 f H1 H2 [T1 F1]%Hd [T2 F2]%Hd. clear Hd.
    destruct i as [|[|[|i]]]; cbn in H1; try discriminate H1;
      destruct j as [|[|[|j]]]; cbn in H2; try discriminate H2; try reflexivity;
      injection H1 as <-; injection H2 as <-; try discriminate T1; try discriminate T2;
      rewrite entry_start_eq, entry_end_eq in F1, F2 by (cbn; lia); cbn [me_addr me_len] in F1, F2; zdm.
Qed.

(** C4. After [pfa_init_from_multiboot2] on a well-formed memory map, any number
    of allocations succeeds without a fault and hands out distinct frames, each
    of them in available memory and none of them in the first megabyte, the
    kernel image, the bitmap, the boot information or a module; and the
    allocator stops only when every such frame is taken. *)
Theorem boot_allocations_sound kernel_start kernel_end mb2_phys tags n :
  0 ≤ kernel_start ≤ kernel_end → kernel_end < 2 ^ 32 → 0 ≤ mb2_phys < 2 ^ 64 →
  map_ok (all_entries tags) → Forall tag_ok tags →
  ∃ s l s', pfa_init_from_multiboot2 kernel_start kernel_end mb2_phys tags = Ok s ∧
    pfa_claims n s = Ok (l, s') ∧ NoDup l ∧
    (∀ f, f ∈ l → (∃ e, e ∈ all_entries tags ∧ in_entry e f) ∧
                  ¬ reserved kernel_start kernel_end mb2_phys tags f) ∧
    ((length l < n)%nat → ∀ e f, e ∈ all_entries tags → in_entry e f →
       ¬ reserved kernel_start kernel_end mb2_phys tags f → f ∈ l).
Proof.
  intros Hk Hk' Hmb Hmap Htags.
  destruct (pfa_init_spec kernel_start kernel_end mb2_phys tags) as (s & E & Hwf & _ & Hf);
    [done..|].
  destruct (pfa_claims_spec n s Hwf) as (s' & E' & _ & _).
  exists s, (take n (free_frames s)), s'. split_and!; [done..| | |].
  - eapply sublist_NoDup; [apply free_frames_NoDup|apply sublist_take].
  - intros f Hin. apply Hf. eapply elem_of_take in Hin as (i & Hi & _).
    by eapply list_elem_of_lookup_2.
  - intros Hlen e f He Hin Hr. rewrite length_take in Hlen.
    rewrite take_ge by lia. apply Hf. eauto.
Qed.

Lemma boot_allocations_sound_witness :
  ∃ s l s', pfa_init_from_multiboot2 0x100000 0x140000 0x180000 demo_tags = Ok s ∧
    pfa_claims 3 s = Ok (l, s') ∧ NoDup l.
Proof.
  destruct (boot_allocations_sound 0x100000 0x140000 0x180000 demo_tags 3)
    as (s & l & s' & E & E' & Hl & _); [lia..|apply demo_map_ok|by repeat constructor|].
  eauto 6.
Defined.

(** Allocation is first fit: [n] allocations return the [n] lowest free
    frames in increasing order, leave exactly the others free, and
    [used_frames] grows by the number of frames returned. *)
Theorem allocations_lowest_first s n :
  pfa_wf s →
  ∃ s', pfa_claims n s = Ok (take n (free_frames s), s') ∧ pfa_wf s' ∧
    StronglySorted Z.lt (free_frames s) ∧
    free_frames s' = drop n (free_frames s) ∧
    used_frames s' = used_frames s + Z.of_nat (length (take n (free_frames s))).
Proof.
  intros Hwf. destruct (pfa_claims_spec n s Hwf) as (s' & E & Hwf' & Hf).
  pose proof (pfa_claims_total _ _ _ _ Hwf E) as Ht.
  exists s'. split_and!; [done..| |done|].
  - apply free_frames_sorted.
  - pose proof (wf_used s Hwf). pose proof (wf_used s' Hwf').
    rewrite Hf, length_drop, length_take in *. lia.
Qed.

(** Frames 1, 3 and 5 of 40 are free. *)
Definition demo_pfa : pfa := mk_pfa [0xFFFFFFD5; 0xFF] 2 40 37.

Lemma demo_pfa_wf : pfa_wf demo_pfa.
Proof.
  constructor.
  - cbn. lia.
  - reflexivity.
  - cbn. lia.
  - cbn. lia.
  - cbn [demo_pfa frame_bitmap]. repeat constructor; lia.
  - assert (free_frames demo_pfa = [1; 3; 5]) as -> by (vm_compute; reflexivity). reflexivity.
Qed.

Lemma allocations_lowest_first_witness :
  ∃ s', pfa_claims 2 demo_pfa = Ok ([1; 3], s') ∧ free_frames s' = [5].
Proof.
  destruct (allocations_lowest_first demo_pfa 2 demo_pfa_wf) as (s' & E & _ & _ & F & _).
  exists s'. rewrite E, F. split; vm_compute; reflexivity.
Defined.

(** Freeing the frame an allocation returned restores the allocator's free
    frames and its count of used frames; freeing it a second time changes
    nothing. *)
Theorem claim_free_roundtrip s f s1 :
  pfa_wf s → pfa_claim s = Ok (Some f, s1) →
  ∃ s2, pfa_free_frame (f * PAGE_SIZE) s1 = Ok s2 ∧ free_frames s2 = free_frames s ∧
    used_frames s2 = used_frames s ∧ pfa_free_frame (f * PAGE_SIZE) s2 = Ok s2.
Proof.
  intros Hwf E. destruct (pfa_claim_spec s Hwf) as (r & s1' & E' & Hwf1 & Ht & Hr).
  rewrite E in E'. injection E' as <- <-.
  destruct (free_frames s) as [|g l] eqn:Ef; destruct Hr as [[= ->] Hl].
  pose proof (free_frames_sorted s) as Hs. rewrite Ef in Hs. apply StronglySorted_inv in Hs as [_ Hs].
  assert (g ∈ free_frames s) as [Hg _]%elem_of_free_frames by (rewrite Ef; by left).
  assert (Hdiv : g * PAGE_SIZE / PAGE_SIZE = g) by by rewrite Z.div_mul.
  destruct (pfa_free_frame_spec s1 (g * PAGE_SIZE) Hwf1 ltac:(unfold PAGE_SIZE; lia))
    as (s2 & E2 & Hwf2 & Ht2 & Hc). rewrite Hdiv in Hc.
  assert (Hng : g ∉ free_frames s1).
  { rewrite Hl. intros Hin. rewrite Forall_forall in Hs. specialize (Hs g Hin). lia. }
  exists s2. destruct Hc as [(_ & _ & l1 & l2 & F1 & F2 & H1 & H2)|[[|Hu] _]].
  2: lia.
  2:{ destruct Hng. apply elem_of_free_frames. split; [lia|done]. }
  assert (l1 = []) as ->.
  { destruct l1 as [|x l1]; [done|]. apply Forall_cons in H1 as [H1 _].
    rewrite Forall_forall in Hs. specialize (Hs x). rewrite <- Hl, F1 in Hs.
    specialize (Hs ltac:(by left)). lia. }
  assert (Hf2 : free_frames s2 = g :: l) by (by rewrite F2, <- Hl, F1).
  split_and!; [done..| |].
  - pose proof (wf_used s Hwf). pose proof (wf_used s2 Hwf2). rewrite Ef in *. rewrite Hf2 in *. lia.
  - apply free_frame_noop. rewrite Hdiv. right.
    assert (g ∈ free_frames s2) as [_ ?]%elem_of_free_frames by (rewrite Hf2; by left). done.
Qed.

Lemma claim_free_roundtrip_witness :
  ∃ s1 s2, pfa_claim demo_pfa = Ok (Some 1, s1) ∧ pfa_free_frame (1 * PAGE_SIZE) s1 = Ok s2 ∧
    free_frames s2 = [1; 3; 5].
Proof.
  destruct (claim_free_roundtrip demo_pfa 1 (mk_pfa [0xFFFFFFD7; 0xFF] 2 40 38))
    as (s2 & E & F & _); [apply demo_pfa_wf|by vm_compute|].
  eexists _, s2. split; [by vm_compute|]. split; [exact E|]. rewrite F. by vm_compute.
Defined.
End Pfa.
