(* ===== verification/Paging.v ===== *)
(** * Page tables (kernel/arch/x86_64/paging.cpp)

    The kernel reads and writes page tables, and clears fresh frames, through
    virtual addresses of its direct map, [phys_to_virt(p)].  The model keeps
    this: physical memory is a map of 64-bit words, and every access of the
    kernel goes through [translate], the processor's four-level walk from CR3.
    An access to an unmapped address is a page fault, which
    [page_fault_handler] turns into a panic.

    The invariant [paging_wf] says that the tables reachable from CR3 form a
    tree (each table frame has one path of indices), that the direct map
    reaches every table and every frame the allocator can hand out, and that no
    table frame is free.  Under it, [paging_map_page] changes the translation
    of the one page it maps and of no other address. *)

From S2P Require Import Prelude Pfa.

Definition KERNEL_VIRT_OFFSET : Z := 0xFFFFFFFF80000000.

Definition PTE_PRESENT : Z := 0x001.
Definition PTE_RW : Z := 0x002.
Definition PTE_USER : Z := 0x004.
Definition PTE_PS : Z := 0x080.

Definition PML4_IDX (addr : Z) : Z := Z.land (Z.shiftr addr 39) 0x1FF.
Definition PDPT_IDX (addr : Z) : Z := Z.land (Z.shiftr addr 30) 0x1FF.
Definition PD_IDX (addr : Z) : Z := Z.land (Z.shiftr addr 21) 0x1FF.
Definition PT_IDX (addr : Z) : Z := Z.land (Z.shiftr addr 12) 0x1FF.

Definition phys_to_virt (phys : Z) : Z := u64 (phys + KERNEL_VIRT_OFFSET).
Definition virt_to_phys (virt : Z) : Z := u64 (virt - KERNEL_VIRT_OFFSET).

Module Paging.
Import Pfa.

Record paging : Type := mk_paging {
  pg_pfa : pfa;
  pg_mem : gmap Z Z;          (** physical memory, by address of the 64-bit word *)
  cr3 : Z;
  kernel_pml4 : Z;            (** virtual address of the kernel's root table *)
  mapped_pages : Z
}.

Record paging_stats : Set := mk_stats {
  st_total_frames : Z;
  st_used_frames : Z;
  st_free_frames : Z;
  st_mapped_pages : Z
}.

(** ** The processor *)

Definition rd (m : gmap Z Z) (a : Z) : Z := default 0 (m !! a).

Definition flag (e f : Z) : bool := negb (Z.land e f =? 0).

(** Bits 12..51 of an entry hold a frame address. *)
Definition entry_addr (e : Z) : Z := Z.land e 0x000FFFFFFFFFF000.

(** The frame that the page of [va] is mapped to, from the root table at
    physical address [root]: the hardware walk, with 2 MiB and 1 GiB pages. *)
Definition walk_page (m : gmap Z Z) (root va : Z) : option Z :=
  let e4 := rd m (root + 8 * PML4_IDX va) in
  if negb (flag e4 PTE_PRESENT) then None else
  let e3 := rd m (entry_addr e4 + 8 * PDPT_IDX va) in
  if negb (flag e3 PTE_PRESENT) then None else
  if flag e3 PTE_PS then Some (entry_addr e3 + (PD_IDX va * 512 + PT_IDX va) * 4096) else
  let e2 := rd m (entry_addr e3 + 8 * PD_IDX va) in
  if negb (flag e2 PTE_PRESENT) then None else
  if flag e2 PTE_PS then Some (entry_addr e2 + PT_IDX va * 4096) else
  let e1 := rd m (entry_addr e2 + 8 * PT_IDX va) in
  if negb (flag e1 PTE_PRESENT) then None else Some (entry_addr e1).

Definition root_of (cr3 : Z) : Z := mask_low cr3 0xFFF.

Definition translate (m : gmap Z Z) (cr3 va : Z) : option Z :=
  (λ p, p + va mod 4096) <$> walk_page m (root_of cr3) va.

(** A load and a store of a 64-bit word at a virtual address. *)
Definition vload (st : paging) (va : Z) : outcome Z :=
  match translate (pg_mem st) (cr3 st) va with
  | Some pa => Ok (rd (pg_mem st) pa)
  | None => Panic K_ERR_PAGE_FAULT
  end.

Definition set_mem (m : gmap Z Z) (st : paging) : paging :=
  mk_paging (pg_pfa st) m (cr3 st) (kernel_pml4 st) (mapped_pages st).
Definition set_pfa (p : pfa) (st : paging) : paging :=
  mk_paging p (pg_mem st) (cr3 st) (kernel_pml4 st) (mapped_pages st).
Definition set_mapped (n : Z) (st : paging) : paging :=
  mk_paging (pg_pfa st) (pg_mem st) (cr3 st) (kernel_pml4 st) n.

Definition vstore (va v : Z) (st : paging) : outcome paging :=
  match translate (pg_mem st) (cr3 st) va with
  | Some pa => Ok (set_mem (<[pa := v]> (pg_mem st)) st)
  | None => Panic K_ERR_PAGE_FAULT
  end.

(** ** The code *)

(** [memset(p, 0, PAGE_SIZE)] on a page, word by word. *)
Definition memset_page0 (va : Z) (st : paging) : outcome paging :=
  for_range (λ i st, vstore (u64 (va + 8 * i)) 0 st) 512 0 st.

(** A physical address of 0 is [nullptr]. *)
Definition pfa_alloc_frame (st : paging) : outcome (Z * paging) :=
  '(r, p) ← pfa_claim (pg_pfa st);
  match r with
  | None => Ok (0, set_pfa p st)
  | Some frame =>
      let phys_ptr := u64 (frame * PAGE_SIZE) in
      st' ← memset_page0 (phys_to_virt phys_ptr) (set_pfa p st);
      Ok (phys_ptr, st')
  end.

Definition pfa_free (frame : Z) (st : paging) : outcome paging :=
  p ← pfa_free_frame frame (pg_pfa st); Ok (set_pfa p st).

(** The body of the loop of [get_pte] at one level: the slot of the current
    table; the result is the next table, [None] for the early [return nullptr]. *)
Definition get_pte_level (create : bool) (flags table idx : Z) (st : paging)
  : outcome (option Z * paging) :=
  let slot := u64 (table + 8 * idx) in
  e ← vload st slot;
  if negb (flag e PTE_PRESENT) then
    if negb create then Ok (None, st) else
    '(new_tab_phys, st1) ← pfa_alloc_frame st;
    if new_tab_phys =? 0 then Ok (None, st1) else
    st2 ← vstore slot (Z.lor (Z.lor (Z.lor new_tab_phys PTE_PRESENT) PTE_RW)
                             (Z.land flags PTE_USER)) st1;
    e' ← vload st2 slot;
    Ok (Some (phys_to_virt (mask_low e' 0xFFF)), st2)
  else
    st1 ← (if flag flags PTE_USER
           then e1 ← vload st slot; vstore slot (Z.lor e1 PTE_USER) st else Ok st);
    st2 ← (if flag flags PTE_RW
           then e1 ← vload st1 slot; vstore slot (Z.lor e1 PTE_RW) st1 else Ok st1);
    e' ← vload st2 slot;
    Ok (Some (phys_to_virt (mask_low e' 0xFFF)), st2).

Fixpoint get_pte_loop (create : bool) (flags : Z) (indices : list Z) (table : Z) (st : paging)
  : outcome (option Z * paging) :=
  match indices with
  | [] => Ok (Some table, st)
  | idx :: rest =>
      '(r, st') ← get_pte_level create flags table idx st;
      match r with
      | None => Ok (None, st')
      | Some table' => get_pte_loop create flags rest table' st'
      end
  end.

(** The address of the page-table entry of [virtual_addr]; [None] is [nullptr]. *)
Definition get_pte (pml4_base virtual_addr : Z) (create : bool) (flags : Z) (st : paging)
  : outcome (option Z * paging) :=
  '(r, st') ← get_pte_loop create flags
      [PML4_IDX virtual_addr; PDPT_IDX virtual_addr; PD_IDX virtual_addr] pml4_base st;
  match r with
  | None => Ok (None, st')
  | Some table => Ok (Some (u64 (table + 8 * PT_IDX virtual_addr)), st')
  end.

Definition get_current_pml4_virt (st : paging) : Z := phys_to_virt (mask_low (cr3 st) 0xFFF).

Definition paging_map_page (virt phys flags : Z) (st : paging) : outcome paging :=
  '(pte, st1) ← get_pte (get_current_pml4_virt st) virt true flags st;
  match pte with
  | Some p =>
      st2 ← vstore p (Z.lor (Z.lor (mask_low phys 0xFFF) flags) PTE_PRESENT) st1;
      Ok (set_mapped (u64 (mapped_pages st2 + 1)) st2)
  | None => Ok st1
  end.

Definition paging_unmap_page (virt : Z) (st : paging) : outcome paging :=
  '(pte, st1) ← get_pte (get_current_pml4_virt st) virt false 0 st;
  match pte with
  | Some p =>
      e ← vload st1 p;
      if flag e PTE_PRESENT then
        st2 ← vstore p 0 st1;
        Ok (set_mapped (u64 (mapped_pages st2 - 1)) st2)
      else Ok st1
  | None => Ok st1
  end.

Definition paging_get_physical_address (virt : Z) (st : paging) : outcome (Z * paging) :=
  '(pte, st1) ← get_pte (get_current_pml4_virt st) virt false 0 st;
  match pte with
  | Some p =>
      e ← vload st1 p;
      if flag e PTE_PRESENT
      then Ok (u64 (mask_low e 0xFFF + Z.land virt 0xFFF), st1)
      else Ok (0, st1)
  | None => Ok (0, st1)
  end.

Definition paging_identity_map (start size flags : Z) (st : paging) : outcome paging :=
  let addr := mask_low start 0xFFF in
  let end_ := mask_low (u64 (start + size + 0xFFF)) 0xFFF in
  for_range (λ i st, paging_map_page (addr + i * PAGE_SIZE) (addr + i * PAGE_SIZE) flags st)
    (Z.to_nat ((end_ - addr) / PAGE_SIZE)) 0 st.

Definition paging_get_stats (st : paging) : paging_stats :=
  mk_stats (total_frames (pg_pfa st)) (used_frames (pg_pfa st))
    (u64 (total_frames (pg_pfa st) - used_frames (pg_pfa st))) (mapped_pages st).

Definition paging_make_kernel_user_accessible (kernel_end : Z) (st : paging) : outcome paging :=
  let k_start := mask_low 0xffffffff80100000 0xFFF in
  let k_end := mask_low (u64 (kernel_end + 0x40000 + 0xFFF)) 0xFFF in
  for_range (λ i st,
      let p := k_start + i * 4096 in
      paging_map_page p (virt_to_phys p) (Z.lor (Z.lor PTE_PRESENT PTE_RW) PTE_USER) st)
    (Z.to_nat ((k_end - k_start) / 4096)) 0 st.

(** The walk of [paging_is_user_accessible]: every level present and user. *)
Fixpoint user_walk (indices : list Z) (table : Z) (st : paging) : outcome bool :=
  match indices with
  | [] => Ok true
  | idx :: rest =>
      e ← vload st (u64 (table + 8 * idx));
      if negb (flag e PTE_PRESENT) then Ok false else
      if negb (flag e PTE_USER) then Ok false else
      user_walk rest (phys_to_virt (mask_low e 0xFFF)) st
  end.

Definition paging_is_user_accessible (virt : Z) (st : paging) : outcome bool :=
  user_walk [PML4_IDX virt; PDPT_IDX virt; PD_IDX virt; PT_IDX virt]
    (get_current_pml4_virt st) st.

(** Copies the kernel half of the root table into a fresh one. *)
Definition paging_create_address_space (st : paging) : outcome (Z * paging) :=
  '(new_pml4_phys, st1) ← pfa_alloc_frame st;
  let new_pml4_virt := phys_to_virt new_pml4_phys in
  st2 ← memset_page0 new_pml4_virt st1;
  st3 ← for_range (λ i st,
      e ← vload st (u64 (kernel_pml4 st + 8 * i));
      vstore (u64 (new_pml4_virt + 8 * i)) e st) 256 256 st2;
  Ok (new_pml4_phys, st3).

(** ** Entries *)

Lemma flag_present e : flag e PTE_PRESENT = Z.testbit e 0.
Proof. apply (bit_test_spec e 0). lia. Qed.
Lemma flag_ps e : flag e PTE_PS = Z.testbit e 7.
Proof. apply (bit_test_spec e 7). lia. Qed.

Lemma entry_addr_shift e : entry_addr e = Z.shiftl (Z.land (Z.shiftr e 12) (Z.ones 40)) 12.
Proof.
  unfold entry_addr. change 0x000FFFFFFFFFF000 with (Z.shiftl (Z.ones 40) 12).
  apply Z.bits_inj'. intros j Hj. rewrite Z.land_spec. destruct (decide (j < 12)).
  - rewrite !Z.shiftl_spec_low by done. by rewrite andb_false_r.
  - rewrite !Z.shiftl_spec, Z.land_spec, Z.shiftr_spec by lia. f_equal. f_equal. lia.
Qed.

Lemma entry_addr_eq e : 0 ≤ e → entry_addr e = (e / 4096) mod 2 ^ 40 * 4096.
Proof.
  intros. rewrite entry_addr_shift, Z.shiftl_mul_pow2, Z.land_ones, Z.shiftr_div_pow2 by lia.
  done.
Qed.

Lemma mask_page_shift e : mask_low e 0xFFF = Z.shiftl (Z.shiftr e 12) 12.
Proof.
  unfold mask_low. rewrite <- Z.ldiff_land. change 0xFFF with (Z.ones 12).
  by rewrite Z.ldiff_ones_r.
Qed.

Lemma mask_page_eq e : mask_low e 0xFFF = e - e mod 4096.
Proof. apply (mask_low_ones e 12). lia. Qed.

Lemma shiftr_low b : 0 ≤ b < 4096 → Z.shiftr b 12 = 0.
Proof. intros. rewrite Z.shiftr_div_pow2 by lia. by apply Z.div_small. Qed.

(** Setting low bits does not change the address fields. *)
Lemma entry_addr_lor a b : 0 ≤ b < 4096 → entry_addr (Z.lor a b) = entry_addr a.
Proof. intros. by rewrite !entry_addr_shift, Z.shiftr_lor, (shiftr_low b), Z.lor_0_r. Qed.

Lemma mask_page_lor a b : 0 ≤ b < 4096 → mask_low (Z.lor a b) 0xFFF = mask_low a 0xFFF.
Proof. intros. by rewrite !mask_page_shift, Z.shiftr_lor, (shiftr_low b), Z.lor_0_r. Qed.

Lemma aligned_low_bit a j : a mod 4096 = 0 → 0 ≤ j < 12 → Z.testbit a j = false.
Proof.
  intros Ha Hj. rewrite <- (Z.mod_pow2_bits_low a 12) by lia.
  change (2 ^ 12) with 4096. by rewrite Ha, Z.bits_0.
Qed.

(** Two entries a table walk cannot tell apart. *)
Definition entry_sim (e e' : Z) : Prop :=
  flag e PTE_PRESENT = flag e' PTE_PRESENT ∧ flag e PTE_PS = flag e' PTE_PS ∧
  entry_addr e = entry_addr e' ∧ mask_low e 0xFFF = mask_low e' 0xFFF.

Lemma entry_sim_lor e b :
  (b = PTE_USER ∨ b = PTE_RW) → entry_sim e (Z.lor e b).
Proof.
  intros Hb. assert (0 ≤ b < 4096) by (destruct Hb as [-> | ->]; done).
  unfold entry_sim. rewrite !flag_present, !flag_ps, !Z.lor_spec, entry_addr_lor, mask_page_lor by done.
  destruct Hb as [-> | ->]; simpl; rewrite !orb_false_r; done.
Qed.

(** ** Indices *)

Definition path3 (va : Z) : list Z := [PML4_IDX va; PDPT_IDX va; PD_IDX va].
Definition path4 (va : Z) : list Z := path3 va ++ [PT_IDX va].

Definition is_idx (i : Z) : Prop := 0 ≤ i < 512.

Lemma idx_eq addr k : Z.land (Z.shiftr addr k) 0x1FF = Z.shiftr addr k mod 512.
Proof. by rewrite (Z.land_ones _ 9). Qed.

Lemma path4_idx va : Forall is_idx (path4 va).
Proof.
  unfold path4, path3, PML4_IDX, PDPT_IDX, PD_IDX, PT_IDX, is_idx.
  rewrite !idx_eq. repeat constructor; apply Z.mod_pos_bound; lia.
Qed.

(** The indices only depend on the page of the address. *)
Lemma path4_page va va' : va / 4096 = va' / 4096 → path4 va = path4 va'.
Proof.
  intros H. assert (Hs : ∀ k, 12 ≤ k → Z.shiftr va k = Z.shiftr va' k).
  { intros k Hk. replace k with (12 + (k - 12)) by lia.
    rewrite <- !(Z.shiftr_shiftr _ 12) by lia. f_equal.
    rewrite !Z.shiftr_div_pow2 by lia. done. }
  unfold path4, path3, PML4_IDX, PDPT_IDX, PD_IDX, PT_IDX. by rewrite !Hs by lia.
Qed.

(** Canonical 48-bit addresses with the same indices are in the same page. *)
Lemma path4_inj va va' :
  path4 va = path4 va' → va / 4096 mod 2 ^ 36 = va' / 4096 mod 2 ^ 36.
Proof.
  unfold path4, path3, PML4_IDX, PDPT_IDX, PD_IDX, PT_IDX. rewrite !idx_eq.
  rewrite !Z.shiftr_div_pow2 by lia. simpl. intros [= H1 H2 H3 H4].
  change (2 ^ 39) with (4096 * 134217728) in *. change (2 ^ 30) with (4096 * 262144) in *.
  change (2 ^ 21) with (4096 * 512) in *. change (2 ^ 12) with 4096 in *.
  rewrite <- !Z.div_div in * by lia.
  set (x := va / 4096) in *. set (y := va' / 4096) in *. clearbody x y. clear va va'.
  change (2 ^ 36) with 68719476736. zdm.
Qed.

(** ** Table walks *)

(** The walk of the tables along a list of indices, without large pages. *)
Fixpoint walk_tables (m : gmap Z Z) (table : Z) (idxs : list Z) : option Z :=
  match idxs with
  | [] => Some table
  | i :: rest =>
      let e := rd m (table + 8 * i) in
      if flag e PTE_PRESENT then walk_tables m (entry_addr e) rest else None
  end.

Lemma walk_tables_app m t l1 l2 :
  walk_tables m t (l1 ++ l2) = (walk_tables m t l1 ≫= λ t', walk_tables m t' l2).
Proof.
  revert t. induction l1 as [|i l1 IH]; intros t; [done|]. simpl.
  destruct (flag _ _); [apply IH|done].
Qed.

Record tables_wf (m : gmap Z Z) (root : Z) (T : gmap Z (list Z)) : Prop := {
  tw_root : T !! root = Some [];
  tw_frame : ∀ f p, T !! f = Some p →
    f mod 4096 = 0 ∧ 0 ≤ f < 2 ^ 31 ∧ (length p ≤ 3)%nat;
  tw_child : ∀ f p i, T !! f = Some p → (length p < 3)%nat → is_idx i →
    let e := rd m (f + 8 * i) in
    flag e PTE_PRESENT = true →
    flag e PTE_PS = false ∧ mask_low e 0xFFF = entry_addr e ∧
    T !! entry_addr e = Some (p ++ [i])
}.

(** Words of different slots of table frames are different. *)
Lemma slot_inj f f' i i' :
  f mod 4096 = 0 → f' mod 4096 = 0 → is_idx i → is_idx i' →
  f + 8 * i = f' + 8 * i' → f = f' ∧ i = i'.
Proof. unfold is_idx. intros. split; zdm. Qed.

Lemma rd_insert_eq m a v : rd (<[a := v]> m) a = v.
Proof. unfold rd. by rewrite lookup_insert_eq. Qed.
Lemma rd_insert_ne m a b v : a ≠ b → rd (<[a := v]> m) b = rd m b.
Proof. intros. unfold rd. by rewrite lookup_insert_ne. Qed.

Section tables.
Context (m : gmap Z Z) (root : Z) (T : gmap Z (list Z)).
Hypothesis Hwf : tables_wf m root T.

Lemma walk_tables_T idxs f p t :
  T !! f = Some p → Forall is_idx idxs → (length p + length idxs ≤ 3)%nat →
  walk_tables m f idxs = Some t → T !! t = Some (p ++ idxs).
Proof.
  revert f p. induction idxs as [|i idxs IH]; intros f p Hf Hi Hlen Hw; simpl in *.
  - injection Hw as <-. by rewrite app_nil_r.
  - apply Forall_cons in Hi as [Hi Hi']. destruct (flag _ _) eqn:E; [|done].
    destruct (tw_child _ _ _ Hwf f p i Hf) as (_ & _ & HT); [lia|done..|].
    rewrite (cons_middle i), app_assoc. eapply IH; [done|done| |done].
    rewrite length_app. simpl. lia.
Qed.

Lemma walk_page_tables va : walk_page m root va = walk_tables m root (path4 va).
Proof.
  pose proof (path4_idx va) as Hi. unfold path4, path3 in *. simpl in *.
  apply Forall_cons in Hi as [H1 Hi]. apply Forall_cons in Hi as [H2 Hi].
  apply Forall_cons in Hi as [H3 Hi].
  pose proof (tw_root _ _ _ Hwf) as Hr.
  unfold walk_page. destruct (flag (rd m (root + 8 * PML4_IDX va)) PTE_PRESENT) eqn:E4; [simpl|done].
  destruct (tw_child _ _ _ Hwf root [] _ Hr ltac:(simpl; lia) H1 E4) as (_ & _ & T3).
  set (t3 := entry_addr _) in *.
  destruct (flag (rd m (t3 + 8 * PDPT_IDX va)) PTE_PRESENT) eqn:E3; [simpl|done].
  destruct (tw_child _ _ _ Hwf t3 _ _ T3 ltac:(simpl; lia) H2 E3) as (-> & _ & T2).
  set (t2 := entry_addr (rd m (t3 + _))) in *.
  destruct (flag (rd m (t2 + 8 * PD_IDX va)) PTE_PRESENT) eqn:E2; [simpl|done].
  destruct (tw_child _ _ _ Hwf t2 _ _ T2 ltac:(simpl; lia) H3 E2) as (-> & _ & _).
  by destruct (flag (rd m (entry_addr _ + 8 * PT_IDX va)) PTE_PRESENT).
Qed.

(** Entries a walk cannot tell apart give the same walks. *)
Lemma walk_tables_sim m' t idxs :
  (∀ a, entry_sim (rd m a) (rd m' a)) → walk_tables m' t idxs = walk_tables m t idxs.
Proof.
  intros Hs. revert t. induction idxs as [|i idxs IH]; intros t; [done|]. simpl.
  destruct (Hs (t + 8 * i)) as (-> & _ & -> & _). by rewrite IH.
Qed.

Lemma tables_wf_sim m' : (∀ a, entry_sim (rd m a) (rd m' a)) → tables_wf m' root T.
Proof.
  intros Hs. destruct Hwf as [H1 H2 H3]. constructor; [done..|].
  intros f p i Hf Hlen Hi. destruct (Hs (f + 8 * i)) as (E1 & E2 & E3 & E4).
  specialize (H3 f p i Hf Hlen Hi). cbv zeta in *. by rewrite <- E1, <- E2, <- E3, <- E4.
Qed.

(** Memory that agrees on the tables gives the same walks. *)
Definition tables_agree (m' : gmap Z Z) : Prop :=
  ∀ f p i, T !! f = Some p → is_idx i → rd m' (f + 8 * i) = rd m (f + 8 * i).

Lemma walk_tables_agree m' idxs f p :
  tables_agree m' → T !! f = Some p → Forall is_idx idxs →
  (length p + length idxs ≤ 4)%nat →
  walk_tables m' f idxs = walk_tables m f idxs.
Proof.
  intros Hag. revert f p. induction idxs as [|i idxs IH]; intros f p Hf Hi Hlen; simpl in *; [done|].
  apply Forall_cons in Hi as [Hi Hi']. rewrite (Hag f p i) by done.
  destruct (flag _ _) eqn:E; [|done]. destruct idxs as [|j idxs]; [done|].
  eapply IH; [|done|].
  - apply (tw_child _ _ _ Hwf f p i Hf); [simpl in *; lia|done..].
  - rewrite length_app. simpl in *. lia.
Qed.

Lemma tables_wf_agree m' : tables_agree m' → tables_wf m' root T.
Proof.
  intros Hag. destruct Hwf as [H1 H2 H3]. constructor; [done..|].
  intros f p i Hf Hlen Hi. rewrite (Hag f p i) by done. by apply H3.
Qed.

(** Changing one slot only changes the walks that go through it. *)
Lemma walk_tables_upd f0 p0 i0 v idxs f p :
  T !! f0 = Some p0 → is_idx i0 → T !! f = Some p → Forall is_idx idxs →
  (length p + length idxs ≤ 4)%nat →
  (∀ l1 l2, idxs = l1 ++ i0 :: l2 → p ++ l1 ≠ p0) →
  walk_tables (<[f0 + 8 * i0 := v]> m) f idxs = walk_tables m f idxs.
Proof.
  intros Hf0 Hi0. revert f p. induction idxs as [|i idxs IH]; intros f p Hf Hi Hlen Hne;
    simpl in *; [done|].
  apply Forall_cons in Hi as [Hi Hi'].
  destruct (tw_frame _ _ _ Hwf _ _ Hf0) as (Ha0 & _). destruct (tw_frame _ _ _ Hwf _ _ Hf) as (Ha & _).
  rewrite rd_insert_ne.
  2:{ intros Heq. apply slot_inj in Heq as [-> ->]; try done.
      apply (Hne [] idxs); [done|]. rewrite app_nil_r. congruence. }
  destruct (flag _ _) eqn:E; [|done]. destruct idxs as [|j idxs]; [done|].
  eapply (IH _ (p ++ [i])); [|done| |].
  - apply (tw_child _ _ _ Hwf f p i Hf); [simpl in *; lia|done..].
  - rewrite length_app. simpl in *. lia.
  - intros l1 l2 Hl. rewrite <- app_assoc. apply (Hne (i :: l1) l2). by rewrite Hl.
Qed.
End tables.

(** A path of at most three indices does not go through a slot deeper in it. *)
Lemma short_path_ne (p0 l1 : list Z) (i : Z) l2 : p0 = l1 ++ i :: l2 → [] ++ l1 ≠ p0.
Proof.
  intros -> H. apply (f_equal length) in H. rewrite !length_app in H. simpl in H. lia.
Qed.

Section update.
Context (m : gmap Z Z) (root : Z) (T : gmap Z (list Z)).
Hypothesis Hwf : tables_wf m root T.
Context (f0 : Z) (p0 : list Z) (i0 v : Z).
Hypothesis Hidx : Forall is_idx (p0 ++ [i0]).
Hypothesis Hwalk : walk_tables m root p0 = Some f0.
Let m' := <[f0 + 8 * i0 := v]> m.

Lemma upd_pidx : Forall is_idx p0.
Proof. by apply Forall_app in Hidx as [Hi _]. Qed.

Lemma upd_T : (length p0 ≤ 3)%nat → T !! f0 = Some p0.
Proof.
  intros.
  eapply (walk_tables_T m root T Hwf p0 root []); [apply Hwf|apply upd_pidx|simpl; lia|done].
Qed.

Lemma upd_idx : is_idx i0.
Proof. apply Forall_app in Hidx as [_ H]. by apply Forall_cons in H as [? _]. Qed.

Lemma upd_prefix : (length p0 ≤ 3)%nat → walk_tables m' root p0 = Some f0.
Proof.
  intros Hlen. unfold m'. rewrite <- Hwalk.
  eapply (walk_tables_upd m root T Hwf f0 p0 i0 v p0 root []);
    [by apply upd_T|apply upd_idx|apply Hwf|apply upd_pidx|simpl; lia|].
  intros l1 l2. apply short_path_ne.
Qed.

(** A leaf entry: the walks of length four change exactly at its path. *)
Lemma walk_leaf_upd idxs :
  length p0 = 3%nat → Forall is_idx idxs → length idxs = 4%nat →
  walk_tables m' root idxs =
    if decide (idxs = p0 ++ [i0])
    then (if flag v PTE_PRESENT then Some (entry_addr v) else None)
    else walk_tables m root idxs.
Proof.
  intros Hlen Hi Hl. case_decide as Hd.
  - subst idxs. rewrite walk_tables_app, upd_prefix by lia. simpl.
    unfold m'. by rewrite rd_insert_eq.
  - eapply (walk_tables_upd m root T Hwf f0 p0 i0 v idxs root []);
      [apply upd_T; lia|apply upd_idx|apply Hwf|done|simpl; lia|].
    simpl. intros l1 l2 -> Hp. apply Hd. rewrite length_app, Hp in Hl. simpl in Hl.
    rewrite Hp. by destruct l2; [|simpl in Hl; lia].
Qed.

Lemma tables_wf_leaf_upd : length p0 = 3%nat → tables_wf m' root T.
Proof.
  intros Hlen. pose proof (upd_T ltac:(lia)) as HT0. pose proof upd_idx as Hi0.
  destruct Hwf as [H1 H2 H3]. constructor; [done..|].
  intros f p i Hf Hl Hi. unfold m'. rewrite rd_insert_ne; [by apply H3|].
  intros Heq. destruct (H2 _ _ Hf) as [Ha _]. destruct (H2 _ _ HT0) as [Ha0 _].
  apply slot_inj in Heq as [Heq _]; [|done..]. rewrite <- Heq, HT0 in Hf.
  injection Hf as Hf. rewrite <- Hf in Hl. lia.
Qed.

(** Linking a fresh, empty table below an absent entry: no walk changes. *)
Context (nf : Z).
Hypothesis Hlen3 : (length p0 < 3)%nat.
Hypothesis Habsent : flag (rd m (f0 + 8 * i0)) PTE_PRESENT = false.
Hypothesis Hfresh : T !! nf = None.
Hypothesis Hnf : nf mod 4096 = 0 ∧ 0 ≤ nf < 2 ^ 31.
Hypothesis Hzero : ∀ i, is_idx i → rd m (nf + 8 * i) = 0.
Hypothesis Hv : flag v PTE_PRESENT = true ∧ flag v PTE_PS = false ∧
  entry_addr v = nf ∧ mask_low v 0xFFF = nf.

Lemma link_zero i : is_idx i → rd m' (nf + 8 * i) = 0.
Proof.
  intros Hi. pose proof (upd_T ltac:(lia)) as HT0.
  unfold m'. rewrite rd_insert_ne; [by apply Hzero|]. intros Heq.
  destruct (tw_frame _ _ _ Hwf _ _ HT0) as [Ha0 _].
  apply slot_inj in Heq as [Heq _]; [|done|tauto|apply upd_idx|done].
  rewrite Heq, Hfresh in HT0. done.
Qed.

Lemma walk_link idxs :
  Forall is_idx idxs → length idxs = 4%nat →
  walk_tables m' root idxs = walk_tables m root idxs.
Proof.
  intros Hi Hl. destruct (decide (take (S (length p0)) idxs = p0 ++ [i0])) as [Hp|Hp].
  - rewrite <- (take_drop (S (length p0)) idxs), Hp.
    set (l2 := drop _ idxs). assert (Hl2 : Forall is_idx l2) by by apply Forall_drop.
    assert (Hl2' : l2 ≠ []).
    { intros E. apply (f_equal length) in E. unfold l2 in E. rewrite length_drop in E.
      simpl in E. lia. }
    rewrite !walk_tables_app, upd_prefix, Hwalk by lia. simpl.
    assert (Hrd : rd m' (f0 + 8 * i0) = v) by apply rd_insert_eq.
    rewrite Habsent, Hrd. pose proof link_zero as Hz. destruct Hv as (-> & _ & Ha & _).
    rewrite Ha. simpl. destruct l2 as [|j l2]; [done|]. simpl.
    apply Forall_cons in Hl2 as [Hj _]. by rewrite Hz.
  - eapply (walk_tables_upd m root T Hwf f0 p0 i0 v idxs root []);
      [apply upd_T; lia|apply upd_idx|apply Hwf|done|simpl; lia|].
    simpl. intros l1 l2 -> Hp1. apply Hp. rewrite <- Hp1. rewrite (cons_middle i0), app_assoc.
    rewrite take_app_length'; [done|]. rewrite length_app. simpl. lia.
Qed.

Lemma tables_wf_link : tables_wf m' root (<[nf := p0 ++ [i0]]> T).
Proof.
  pose proof (upd_T ltac:(lia)) as HT0. pose proof upd_idx as Hi0. pose proof link_zero as Hz.
  destruct Hwf as [H1 H2 H3]. constructor.
  - rewrite lookup_insert_ne; [done|]. intros ->. congruence.
  - intros f p [[<- <-]|[_ Hf]]%lookup_insert_Some; [|by apply H2].
    split_and!; try tauto; try lia. rewrite length_app. simpl. lia.
  - intros f p i [[<- <-]|[Hne Hf]]%lookup_insert_Some Hl Hi.
    + rewrite Hz by done. done.
    + cbv zeta. destruct (decide (f = f0 ∧ i = i0)) as [[-> ->]|Hd].
      * unfold m'. rewrite rd_insert_eq. intros _. destruct Hv as (_ & -> & -> & ->).
        rewrite HT0 in Hf. injection Hf as ->.
        split_and!; [done..|]. by rewrite lookup_insert_eq.
      * assert (Hrd : rd m' (f + 8 * i) = rd m (f + 8 * i)).
        { unfold m'. apply rd_insert_ne. intros Heq. apply Hd.
          destruct (H2 _ _ Hf) as [Ha _]. destruct (H2 _ _ HT0) as [Ha0 _].
          by apply slot_inj in Heq as [Heq1 Heq2]; [split; symmetry|..]. }
        rewrite Hrd. intros Hpr. destruct (H3 f p i Hf Hl Hi Hpr) as (E1 & E2 & E3).
        split_and!; [done..|]. rewrite lookup_insert_ne; [done|]. intros ->. congruence.
Qed.
End update.

(** ** The invariant *)

(** The direct map reaches frame [f]. *)
Definition reach (st : paging) (f : Z) : Prop :=
  walk_page (pg_mem st) (root_of (cr3 st)) (phys_to_virt f) = Some f.

Record paging_wf (st : paging) (T : gmap Z (list Z)) : Prop := {
  pw_tables : tables_wf (pg_mem st) (root_of (cr3 st)) T;
  pw_pfa : pfa_wf (pg_pfa st);
  pw_used : ∀ f p, T !! f = Some p → f / 4096 ∉ free_frames (pg_pfa st);
  pw_free : ∀ g, g ∈ free_frames (pg_pfa st) → 0 < g ∧ g * 4096 < 2 ^ 31;
  pw_direct_T : ∀ f p, T !! f = Some p → reach st f;
  pw_direct_free : ∀ g, g ∈ free_frames (pg_pfa st) → reach st (g * 4096)
}.

(** Two states with the same address space. *)
Definition same_space (st st' : paging) : Prop :=
  cr3 st' = cr3 st ∧ kernel_pml4 st' = kernel_pml4 st ∧
  ∀ va, walk_page (pg_mem st') (root_of (cr3 st')) va =
        walk_page (pg_mem st) (root_of (cr3 st)) va.

#[global] Instance same_space_preorder : PreOrder same_space.
Proof.
  split.
  - by intros st.
  - intros s1 s2 s3 (E1 & K1 & H1) (E2 & K2 & H2). split_and!; [congruence..|].
    intros va. by rewrite H2, H1.
Qed.

Lemma reach_same st st' f : same_space st st' → reach st f → reach st' f.
Proof. intros (_ & _ & Hw) Hr. unfold reach. by rewrite Hw. Qed.

Lemma phys_to_virt_eq f o : 0 ≤ f → 0 ≤ o → f + o < 2 ^ 31 →
  u64 (phys_to_virt f + o) = KERNEL_VIRT_OFFSET + f + o.
Proof.
  intros. unfold phys_to_virt, KERNEL_VIRT_OFFSET. rewrite (wrap_small _ (f + _)) by lia.
  rewrite wrap_small by lia. lia.
Qed.

Lemma offset_page f o : f mod 4096 = 0 → 0 ≤ o < 4096 →
  (KERNEL_VIRT_OFFSET + f + o) / 4096 = (KERNEL_VIRT_OFFSET + f) / 4096 ∧
  (KERNEL_VIRT_OFFSET + f + o) mod 4096 = o.
Proof. unfold KERNEL_VIRT_OFFSET. intros. zdm. Qed.

Lemma walk_page_same_page m root va va' :
  va / 4096 = va' / 4096 → walk_page m root va = walk_page m root va'.
Proof.
  intros H. apply path4_page in H. unfold path4, path3 in H. injection H as E1 E2 E3 E4.
  unfold walk_page. by rewrite E1, E2, E3, E4.
Qed.

Lemma direct_translate st f o :
  reach st f → f mod 4096 = 0 → 0 ≤ f < 2 ^ 31 → 0 ≤ o < 4096 →
  translate (pg_mem st) (cr3 st) (u64 (phys_to_virt f + o)) = Some (f + o).
Proof.
  intros Hr Ha Hf Ho. unfold translate. rewrite phys_to_virt_eq by zdm.
  destruct (offset_page f o) as [Hp Hm]; [done..|].
  rewrite (walk_page_same_page _ _ _ (phys_to_virt f)).
  - unfold reach in Hr. rewrite Hr. simpl. by rewrite Hm.
  - rewrite Hp. unfold phys_to_virt, KERNEL_VIRT_OFFSET. rewrite wrap_small by lia. f_equal. lia.
Qed.

(** Loads and stores of table words through the direct map. *)
Lemma direct_vload st f i :
  reach st f → f mod 4096 = 0 → 0 ≤ f < 2 ^ 31 → is_idx i →
  vload st (u64 (phys_to_virt f + 8 * i)) = Ok (rd (pg_mem st) (f + 8 * i)).
Proof.
  unfold is_idx. intros. unfold vload. rewrite direct_translate by (done || lia). done.
Qed.

Lemma direct_vstore st f i v :
  reach st f → f mod 4096 = 0 → 0 ≤ f < 2 ^ 31 → is_idx i →
  vstore (u64 (phys_to_virt f + 8 * i)) v st = Ok (set_mem (<[f + 8 * i := v]> (pg_mem st)) st).
Proof.
  unfold is_idx. intros. unfold vstore. rewrite direct_translate by (done || lia). done.
Qed.

(** Clearing a reachable frame that holds no table. *)
Lemma memset_page0_spec st T f :
  tables_wf (pg_mem st) (root_of (cr3 st)) T → T !! f = None →
  reach st f → f mod 4096 = 0 → 0 ≤ f < 2 ^ 31 →
  ∃ m', memset_page0 (phys_to_virt f) st = Ok (set_mem m' st) ∧
    tables_agree (pg_mem st) T m' ∧
    (∀ i, is_idx i → rd m' (f + 8 * i) = 0) ∧
    (∀ a, (∀ i, is_idx i → a ≠ f + 8 * i) → rd m' a = rd (pg_mem st) a).
Proof.
  intros Hwf HT Hr Ha Hf. unfold memset_page0.
  assert (Hagree : ∀ m' n, (∀ a, (∀ i, 0 ≤ i < n → a ≠ f + 8 * i) → rd m' a = rd (pg_mem st) a) →
    n ≤ 512 → tables_agree (pg_mem st) T m').
  { intros m' n Hm Hn g p i Hg Hi. apply Hm. intros j Hj Heq.
    destruct (tw_frame _ _ _ Hwf _ _ Hg) as [Hag _].
    apply slot_inj in Heq as [-> _]; try done; [congruence|]. unfold is_idx; lia. }
  destruct (for_range_rule
    (λ n t, ∃ m', t = set_mem m' st ∧ (∀ i, 0 ≤ i < n → rd m' (f + 8 * i) = 0) ∧
       (∀ a, (∀ i, 0 ≤ i < n → a ≠ f + 8 * i) → rd m' a = rd (pg_mem st) a))
    (λ i st, vstore (u64 (phys_to_virt f + 8 * i)) 0 st) 512 0 st)
    as (s' & -> & m' & -> & Hz & Hother).
  - exists (pg_mem st). split_and!; [by destruct st|intros; lia|done].
  - intros n t Hn (m' & -> & Hz & Hother).
    pose proof (Hagree m' n Hother ltac:(lia)) as Hag.
    assert (Hrt : reach (set_mem m' st) f).
    { unfold reach in *. simpl.
      rewrite (walk_page_tables _ _ T) by by eapply tables_wf_agree.
      rewrite (walk_page_tables _ _ T) in Hr by done. rewrite <- Hr.
      eapply (walk_tables_agree _ _ _ Hwf _ _ _ []); [done|apply Hwf|apply path4_idx|done]. }
    eexists. split; [by apply (direct_vstore _ f n 0)|].
    eexists. split; [reflexivity|]. simpl. split.
    + intros i Hi. destruct (decide (i = n)) as [->|]; [apply rd_insert_eq|].
      rewrite rd_insert_ne by lia. apply Hz. lia.
    + intros a Hne. rewrite rd_insert_ne; [|intros Heq; apply (Hne n); lia].
      apply Hother. intros i Hi. apply Hne. lia.
  - exists m'. split_and!; [done|by apply (Hagree m' (0 + Z.of_nat 512))| |].
    + intros i Hi. apply Hz. unfold is_idx in Hi. lia.
    + intros a Hne. apply Hother. intros i Hi. apply Hne. unfold is_idx. lia.
Qed.

(** Memory that agrees on the tables keeps the address space. *)
Lemma same_space_agree st T m' :
  tables_wf (pg_mem st) (root_of (cr3 st)) T → tables_agree (pg_mem st) T m' →
  same_space st (set_mem m' st).
Proof.
  intros Hwf Hag. split_and!; [done..|]. intros va. simpl.
  rewrite (walk_page_tables m' _ T), (walk_page_tables (pg_mem st) _ T);
    [|done|by eapply tables_wf_agree].
  eapply (walk_tables_agree _ _ _ Hwf _ _ _ []); [done|apply Hwf|apply path4_idx|done].
Qed.

(** Memory whose table words look the same keeps the address space. *)
Lemma same_space_sim st T m' :
  tables_wf (pg_mem st) (root_of (cr3 st)) T → (∀ a, entry_sim (rd (pg_mem st) a) (rd m' a)) →
  same_space st (set_mem m' st).
Proof.
  intros Hwf Hs. split_and!; [done..|]. intros va. simpl.
  rewrite (walk_page_tables m' _ T), (walk_page_tables (pg_mem st) _ T);
    [|done|by eapply tables_wf_sim]. by apply walk_tables_sim.
Qed.

(** The invariant only depends on the address space, the tables and the allocator. *)
Lemma paging_wf_same st st' T :
  paging_wf st T → same_space st st' →
  tables_wf (pg_mem st') (root_of (cr3 st')) T →
  pg_pfa st' = pg_pfa st → paging_wf st' T.
Proof.
  intros [H1 H2 H3 H4 H5 H6] Hs HT Hp. constructor; rewrite ?Hp; try done.
  - intros f p Hf. eapply reach_same; eauto.
  - intros g Hg. eapply reach_same; eauto.
Qed.

Lemma pfa_alloc_frame_spec st T :
  paging_wf st T →
  match free_frames (pg_pfa st) with
  | [] => pfa_alloc_frame st = Ok (0, st)
  | g :: l => ∃ st', pfa_alloc_frame st = Ok (g * 4096, st') ∧ paging_wf st' T ∧
      same_space st st' ∧ mapped_pages st' = mapped_pages st ∧
      free_frames (pg_pfa st') = l ∧ 0 < g * 4096 < 2 ^ 31 ∧
      T !! (g * 4096) = None ∧ reach st' (g * 4096) ∧
      (∀ i, is_idx i → rd (pg_mem st') (g * 4096 + 8 * i) = 0) ∧
      (∀ a, (∀ i, is_idx i → a ≠ g * 4096 + 8 * i) → rd (pg_mem st') a = rd (pg_mem st) a)
  end.
Proof.
  intros Hwf. unfold pfa_alloc_frame.
  destruct (pfa_claim_spec (pg_pfa st) (pw_pfa _ _ Hwf)) as (r & p & -> & Hp & _ & Hr). simpl.
  destruct (free_frames (pg_pfa st)) as [|g l] eqn:Efree.
  { destruct Hr as [-> ->]. by destruct st. }
  destruct Hr as [-> Hl]. assert (Hg : g ∈ free_frames (pg_pfa st)) by (rewrite Efree; by left).
  destruct (pw_free _ _ Hwf g Hg) as [Hg1 Hg2].
  assert (HT : T !! (g * 4096) = None).
  { destruct (T !! (g * 4096)) as [q|] eqn:E; [|done].
    destruct (pw_used _ _ Hwf _ _ E). by rewrite Z.div_mul. }
  change PAGE_SIZE with 4096. rewrite wrap_small by lia.
  destruct (memset_page0_spec (set_pfa p st) T (g * 4096))
    as (m' & -> & Hag & Hz & Hother);
    [apply Hwf|done|by apply (pw_direct_free _ _ Hwf)|by rewrite Z.mod_mul|lia|].
  simpl. eexists. split; [reflexivity|].
  assert (Hsp : same_space st (set_mem m' (set_pfa p st))).
  { apply (same_space_agree (set_pfa p st) T m'); [apply Hwf|done]. }
  assert (Hsub : ∀ x, x ∈ l → x ∈ free_frames (pg_pfa st)) by (intros; rewrite Efree; by right).
  split_and!; simpl; try done; try lia.
  - destruct Hwf as [H1 H2 H3 H4 H5 H6]. constructor; simpl; rewrite ?Hl; try done.
    + by eapply tables_wf_agree.
    + intros f q Hf Hin. apply (H3 f q Hf). auto.
    + intros; apply H4; auto.
    + intros f q Hf. eapply reach_same; eauto.
    + intros x Hx. eapply reach_same; eauto.
  - eapply reach_same; [done|]. by apply Hwf.
Qed.

(** ** [get_pte] *)

Lemma elem_of_drop_free k (l : list Z) x : x ∈ drop k l → x ∈ l.
Proof. intros H. by eapply elem_of_submseteq, sublist_submseteq, sublist_drop. Qed.

(** A frame that holds no table and is in use. *)
Definition foreign (st : paging) (T : gmap Z (list Z)) (f : Z) : Prop :=
  f mod 4096 = 0 ∧ T !! f = None ∧ f / 4096 ∉ free_frames (pg_pfa st).

Lemma foreign_slot st T f f0 p0 i i0 : paging_wf st T → foreign st T f → T !! f0 = Some p0 →
  is_idx i → is_idx i0 → f0 + 8 * i0 ≠ f + 8 * i.
Proof.
  intros Hwf (Ha & HT & _) Hf0 Hi Hi0 E. destruct (tw_frame _ _ _ (pw_tables _ _ Hwf) _ _ Hf0) as [Ha0 _].
  apply slot_inj in E as [-> _]; try done. congruence.
Qed.

(** The part of a state a table creation changes: at most [n] frames are taken
    from the front of the free list, the new tables are among them. *)
Record extends (n : nat) (st : paging) (T : gmap Z (list Z)) (st' : paging) (T' : gmap Z (list Z))
  : Prop := {
  ext_space : same_space st st';
  ext_mapped : mapped_pages st' = mapped_pages st;
  ext_wf : paging_wf st' T';
  ext_tables : ∀ f p, T' !! f = Some p → T !! f = Some p ∨
    (f mod 4096 = 0 ∧ f / 4096 ∈ free_frames (pg_pfa st));
  ext_sub : T ⊆ T';
  ext_free : ∃ k, (k ≤ n)%nat ∧ free_frames (pg_pfa st') = drop k (free_frames (pg_pfa st));
  ext_full : free_frames (pg_pfa st) = [] →
    ∀ t idxs, walk_tables (pg_mem st') t idxs = walk_tables (pg_mem st) t idxs;
  ext_words : ∀ f i, foreign st T f → is_idx i → rd (pg_mem st') (f + 8 * i) = rd (pg_mem st) (f + 8 * i)
}.

Lemma foreign_extends n st T st' T' f : extends n st T st' T' → foreign st T f → foreign st' T' f.
Proof.
  intros Hext (Ha & HT & Hf). split_and!; [done| |].
  - destruct (T' !! f) as [p|] eqn:E; [|done]. destruct (ext_tables _ _ _ _ _ Hext f p E) as [?|[_ ?]]; [congruence|done].
  - destruct (ext_free _ _ _ _ _ Hext) as (k & _ & ->). intros Hin. by apply Hf, (elem_of_drop_free k).
Qed.

Lemma extends_refl st T : paging_wf st T → extends 0 st T st T.
Proof. intros. constructor; try done; [auto|]. by exists 0%nat. Qed.

Lemma extends_trans n1 n2 s1 T1 s2 T2 s3 T3 :
  extends n1 s1 T1 s2 T2 → extends n2 s2 T2 s3 T3 → extends (n1 + n2) s1 T1 s3 T3.
Proof.
  intros HA HB. pose proof (λ f, foreign_extends _ _ _ _ _ f HA) as Hfor.
  destruct HA as [A1 A2 A3 A4 A5 (k1 & K1 & A6) A7 A8], HB as [B1 B2 B3 B4 B5 (k2 & K2 & B6) B7 B8].
  constructor; try done.
  - by etransitivity.
  - congruence.
  - intros f p Hf. destruct (B4 f p Hf) as [Hf'|[? Hf']]; [by apply A4|]. right.
    split; [done|]. rewrite A6 in Hf'. by eapply elem_of_submseteq, sublist_submseteq, sublist_drop.
  - by etransitivity.
  - exists (k1 + k2)%nat. split; [lia|]. rewrite B6, A6, drop_drop. done.
  - intros Hnil t idxs. rewrite B7, A7; [done..|]. by rewrite A6, Hnil, drop_nil.
  - intros f i Hf Hi. rewrite B8, A8; auto.
Qed.

Section level.
Context (st : paging) (T : gmap Z (list Z)) (f0 : Z) (p0 : list Z) (i0 : Z).
Hypothesis Hwf : paging_wf st T.
Hypothesis Hidx : Forall is_idx (p0 ++ [i0]).
Hypothesis Hlen : (length p0 < 3)%nat.
Hypothesis Hwalk : walk_tables (pg_mem st) (root_of (cr3 st)) p0 = Some f0.

Lemma level_T : T !! f0 = Some p0.
Proof. eapply (upd_T _ _ _ (pw_tables _ _ Hwf) f0 p0 i0); [done..|lia]. Qed.

Lemma level_idx : is_idx i0.
Proof. by eapply upd_idx. Qed.

Lemma level_frame : f0 mod 4096 = 0 ∧ 0 ≤ f0 < 2 ^ 31.
Proof. destruct (tw_frame _ _ _ (pw_tables _ _ Hwf) _ _ level_T) as (? & ? & _). done. Qed.

Lemma level_load : vload st (u64 (phys_to_virt f0 + 8 * i0)) = Ok (rd (pg_mem st) (f0 + 8 * i0)).
Proof.
  destruct level_frame. apply direct_vload; try done; [|apply level_idx].
  eapply pw_direct_T; [done|apply level_T].
Qed.

Lemma level_store v :
  vstore (u64 (phys_to_virt f0 + 8 * i0)) v st =
    Ok (set_mem (<[f0 + 8 * i0 := v]> (pg_mem st)) st).
Proof.
  destruct level_frame. apply direct_vstore; try done; [|apply level_idx].
  eapply pw_direct_T; [done|apply level_T].
Qed.

(** Setting a permission bit in a present entry. *)
Lemma level_set_flag b :
  b = PTE_USER ∨ b = PTE_RW →
  let e := rd (pg_mem st) (f0 + 8 * i0) in
  let st' := set_mem (<[f0 + 8 * i0 := Z.lor e b]> (pg_mem st)) st in
  extends 0 st T st' T ∧ walk_tables (pg_mem st') (root_of (cr3 st')) p0 = Some f0 ∧
  entry_sim e (rd (pg_mem st') (f0 + 8 * i0)).
Proof.
  intros Hb e st'.
  assert (Hsim : ∀ a, entry_sim (rd (pg_mem st) a) (rd (pg_mem st') a)).
  { intros a. simpl. destruct (decide (a = f0 + 8 * i0)) as [->|Hne].
    - rewrite rd_insert_eq. by apply entry_sim_lor.
    - by rewrite rd_insert_ne. }
  split_and!; [|simpl; by rewrite (walk_tables_sim (pg_mem st))|apply Hsim].
  constructor; try done.
  - by eapply same_space_sim; [apply Hwf|].
  - eapply paging_wf_same; [done| |by eapply tables_wf_sim; [apply Hwf|]|done].
    by eapply same_space_sim; [apply Hwf|].
  - auto.
  - by exists 0%nat.
  - intros _ t idxs. by apply walk_tables_sim.
  - intros f i Hf Hi. apply rd_insert_ne, (foreign_slot st T f f0 p0 i i0 Hwf Hf level_T Hi level_idx).
Qed.
End level.

(** The value [get_pte] writes for a new table. *)
Lemma new_entry_spec nf flags :
  nf mod 4096 = 0 → 0 ≤ nf < 2 ^ 31 →
  let v := Z.lor (Z.lor (Z.lor nf PTE_PRESENT) PTE_RW) (Z.land flags PTE_USER) in
  flag v PTE_PRESENT = true ∧ flag v PTE_PS = false ∧
  entry_addr v = nf ∧ mask_low v 0xFFF = nf.
Proof.
  intros Ha Hnf v. assert (Hu : 0 ≤ Z.land flags PTE_USER < 4096).
  { assert (Z.land flags PTE_USER = 0 ∨ Z.land flags PTE_USER = 4) as [-> | ->]; [|lia..].
    change PTE_USER with (bit 2). destruct (Z.testbit flags 2) eqn:E; [right|left];
      apply Z.bits_inj'; intros j Hj; rewrite Z.land_spec, bit_spec by lia.
    - change 4 with (bit 2). rewrite bit_spec by lia.
      case_bool_decide; subst; [by rewrite E|by rewrite andb_false_r].
    - rewrite Z.bits_0. case_bool_decide; subst; [by rewrite E|by rewrite andb_false_r]. }
  unfold v. rewrite flag_present, flag_ps, !Z.lor_spec, !entry_addr_lor, !mask_page_lor by done.
  rewrite !Z.land_spec, !(aligned_low_bit nf) by (done || lia).
  split_and!.
  - done.
  - change (Z.testbit PTE_USER 7) with false. by rewrite andb_false_r.
  - rewrite entry_addr_eq by lia. zdm.
  - rewrite mask_page_eq. lia.
Qed.

Lemma extends_weaken n n' st T st' T' :
  (n ≤ n')%nat → extends n st T st' T' → extends n' st T st' T'.
Proof. intros Hn [? ? ? ? ? (k & ? & ?) ? ?]. constructor; try done. exists k. split; [lia|done]. Qed.

Section level_ops.
Context (st : paging) (T : gmap Z (list Z)) (f0 : Z) (p0 : list Z) (i0 : Z).
Hypothesis Hwf : paging_wf st T.
Hypothesis Hidx : Forall is_idx (p0 ++ [i0]).
Hypothesis Hlen : (length p0 < 3)%nat.
Hypothesis Hwalk : walk_tables (pg_mem st) (root_of (cr3 st)) p0 = Some f0.
Let slot := u64 (phys_to_virt f0 + 8 * i0).
Let entry (s : paging) := rd (pg_mem s) (f0 + 8 * i0).

(** What a state with only permission bits added satisfies. *)
Definition perm_only (s : paging) : Prop :=
  extends 0 st T s T ∧ walk_tables (pg_mem s) (root_of (cr3 s)) p0 = Some f0 ∧
  entry_sim (entry st) (entry s).

Lemma perm_only_step s b flags :
  perm_only s → b = PTE_USER ∨ b = PTE_RW →
  ∃ s', (if flag flags b then e1 ← vload s slot; vstore slot (Z.lor e1 b) s else Ok s) = Ok s' ∧
    perm_only s'.
Proof.
  intros (Hext & Hw & Hs) Hb. destruct (flag flags b); [|by exists s].
  pose proof (ext_wf _ _ _ _ _ Hext) as Hwfs. unfold slot.
  rewrite (level_load s T f0 p0 i0) by done. simpl.
  rewrite (level_store s T f0 p0 i0) by done. eexists. split; [reflexivity|].
  destruct (level_set_flag s T f0 p0 i0 Hwfs Hidx Hlen Hw b Hb) as (He & Hw' & Hs').
  split_and!; [by apply (extends_trans 0 0 _ _ _ _ _ _ Hext He)|done|].
  destruct Hs as (? & ? & ? & ?), Hs' as (? & ? & ? & ?). unfold entry in *. repeat split; congruence.
Qed.

(** A present entry: only permission bits are added. *)
Lemma get_pte_level_present create flags :
  flag (entry st) PTE_PRESENT = true →
  ∃ f1 s, get_pte_level create flags (phys_to_virt f0) i0 st = Ok (Some (phys_to_virt f1), s) ∧
    extends 0 st T s T ∧
    walk_tables (pg_mem s) (root_of (cr3 s)) (p0 ++ [i0]) = Some f1.
Proof.
  intros Epr.
  assert (Hld : vload st slot = Ok (entry st)) by by apply (level_load st T f0 p0 i0).
  unfold get_pte_level. cbv zeta. fold slot. rewrite (bind_of_Ok _ _ _ Hld), Epr. cbn [negb].
  assert (H0 : perm_only st) by (split_and!; [by apply extends_refl|done|done]).
  destruct (perm_only_step st PTE_USER flags H0) as (s1 & -> & H1); [auto|]. simpl.
  destruct (perm_only_step s1 PTE_RW flags H1) as (s2 & -> & He2 & Hw2 & Hs2); [auto|]. simpl.
  pose proof (ext_wf _ _ _ _ _ He2) as Hwf2. unfold slot.
  rewrite (level_load s2 T f0 p0 i0) by done. simpl.
  destruct Hs2 as (E1 & E2 & E3 & E4). rewrite Epr in E1.
  pose proof (level_T st T f0 p0 i0 Hwf Hidx Hlen Hwalk) as HT0.
  destruct (tw_child _ _ _ (pw_tables _ _ Hwf2) f0 p0 i0 HT0 Hlen) as (_ & Hm & _);
    [by eapply upd_idx|done|].
  eexists _, s2. split_and!; [by rewrite Hm|done|].
  rewrite walk_tables_app, Hw2. simpl. fold (entry s2). by rewrite <- E1.
Qed.

(** Clearing a fresh frame does not disturb the table at hand. *)
Lemma fresh_frame_other s g :
  T !! g = None → g mod 4096 = 0 →
  (∀ a, (∀ i, is_idx i → a ≠ g + 8 * i) → rd (pg_mem s) a = rd (pg_mem st) a) →
  cr3 s = cr3 st →
  entry s = entry st ∧ walk_tables (pg_mem s) (root_of (cr3 s)) p0 = Some f0.
Proof.
  intros HTg Hg Hother Hcr.
  assert (Hag : tables_agree (pg_mem st) T (pg_mem s)).
  { intros f p i Hf Hi. apply Hother. intros j Hj Heq.
    destruct (tw_frame _ _ _ (pw_tables _ _ Hwf) _ _ Hf) as [Ha _].
    apply slot_inj in Heq as [-> _]; try done. congruence. }
  split.
  - unfold entry. eapply Hag; [by eapply level_T|by eapply upd_idx].
  - rewrite Hcr, <- Hwalk.
    eapply (walk_tables_agree _ _ T (pw_tables _ _ Hwf) _ _ _ []);
      [done|apply (pw_tables _ _ Hwf)|by apply Forall_app in Hidx as [? _]|simpl; lia].
Qed.
End level_ops.

(** Linking a fresh empty frame [nf] as a table, as [get_pte] does. *)
Lemma link_table s T f0 p0 i0 flags nf :
  paging_wf s T → Forall is_idx (p0 ++ [i0]) → (length p0 < 3)%nat →
  walk_tables (pg_mem s) (root_of (cr3 s)) p0 = Some f0 →
  flag (rd (pg_mem s) (f0 + 8 * i0)) PTE_PRESENT = false →
  T !! nf = None → nf mod 4096 = 0 → 0 ≤ nf < 2 ^ 31 → reach s nf →
  nf / 4096 ∉ free_frames (pg_pfa s) →
  (∀ i, is_idx i → rd (pg_mem s) (nf + 8 * i) = 0) →
  let v := Z.lor (Z.lor (Z.lor nf PTE_PRESENT) PTE_RW) (Z.land flags PTE_USER) in
  let s' := set_mem (<[f0 + 8 * i0 := v]> (pg_mem s)) s in
  same_space s s' ∧ paging_wf s' (<[nf := p0 ++ [i0]]> T) ∧
  walk_tables (pg_mem s') (root_of (cr3 s')) p0 = Some f0 ∧
  walk_tables (pg_mem s') (root_of (cr3 s')) (p0 ++ [i0]) = Some nf ∧
  mask_low (rd (pg_mem s') (f0 + 8 * i0)) 0xFFF = nf.
Proof.
  intros Hwf Hidx Hlen Hwalk Habs HT Hm Hr Hreach Hused Hz v s'.
  destruct (new_entry_spec nf flags Hm Hr) as (V1 & V2 & V3 & V4). fold v in V1, V2, V3, V4.
  pose proof (pw_tables _ _ Hwf) as HwfT.
  pose proof (tables_wf_link _ _ T HwfT f0 p0 i0 v Hidx Hwalk nf
    Hlen HT (conj Hm Hr) Hz (conj V1 (conj V2 (conj V3 V4)))) as HwfT'.
  assert (Hsp : same_space s s').
  { split_and!; [done..|]. intros va. simpl.
    rewrite (walk_page_tables _ _ _ HwfT'), (walk_page_tables _ _ _ HwfT).
    eapply (walk_link _ _ T HwfT f0 p0 i0 v Hidx Hwalk nf); try done; apply path4_idx. }
  pose proof (upd_prefix _ _ T HwfT f0 p0 i0 v Hidx Hwalk ltac:(lia)) as Hw2.
  assert (Hrd : rd (pg_mem s') (f0 + 8 * i0) = v) by apply rd_insert_eq.
  split_and!; [done| |done| |by rewrite Hrd].
  - destruct Hwf as [W1 W2 W3 W4 W5 W6]. constructor; simpl; try done.
    + intros f p [[<- <-]|[_ Hf]]%lookup_insert_Some; [done|by eapply W3].
    + intros f p [[<- <-]|[_ Hf]]%lookup_insert_Some; eapply reach_same; eauto.
    + intros x Hx. eapply reach_same; eauto.
  - rewrite walk_tables_app. simpl in *. rewrite Hw2. simpl. by rewrite Hrd, V1, V3.
Qed.

(** One level of [get_pte] with [create]: the entry ends up present, pointing
    to a table of the tree, unless no frame is left. *)
Lemma get_pte_level_create st T f0 p0 i0 flags :
  paging_wf st T → Forall is_idx (p0 ++ [i0]) → (length p0 < 3)%nat →
  walk_tables (pg_mem st) (root_of (cr3 st)) p0 = Some f0 →
  ∃ r st' T', get_pte_level true flags (phys_to_virt f0) i0 st = Ok (r, st') ∧
    extends 1 st T st' T' ∧
    match r with
    | None => free_frames (pg_pfa st) = []
    | Some tv => ∃ f1, tv = phys_to_virt f1 ∧
        walk_tables (pg_mem st') (root_of (cr3 st')) (p0 ++ [i0]) = Some f1
    end.
Proof.
  intros Hwf Hidx Hlen Hwalk.
  destruct (flag (rd (pg_mem st) (f0 + 8 * i0)) PTE_PRESENT) eqn:Epr.
  { destruct (get_pte_level_present st T f0 p0 i0 Hwf Hidx Hlen Hwalk true flags Epr)
      as (f1 & s & E & Hext & Hw). eexists _, s, T. split; [exact E|].
    split; [by eapply extends_weaken; [|done]; lia|]. eauto. }
  unfold get_pte_level. rewrite (level_load st T f0 p0 i0) by done. simpl. rewrite Epr. simpl.
  pose proof (pfa_alloc_frame_spec st T Hwf) as Halloc.
  destruct (free_frames (pg_pfa st)) as [|g l] eqn:Efree.
  { rewrite Halloc. simpl. exists None, st, T. split_and!; [done| |done].
    eapply extends_weaken; [|by apply extends_refl]. lia. }
  destruct Halloc as (s1 & -> & Hwf1 & Hsp1 & Hmap1 & Hl & Hg & HTg & Hrg & Hz & Hother). simpl.
  rewrite (proj2 (Z.eqb_neq _ 0)) by lia.
  assert (Hgm : g * 4096 mod 4096 = 0) by by rewrite Z.mod_mul.
  destruct (fresh_frame_other st T f0 p0 i0 Hwf Hidx Hlen Hwalk s1 (g * 4096)) as [Hrd1 Hwalk1];
    [done..|apply Hsp1|].
  pose proof (free_frames_NoDup (pg_pfa st)) as Hnd. rewrite Efree in Hnd.
  apply NoDup_cons in Hnd as [Hnd _].
  rewrite (level_store s1 T f0 p0 i0) by done. simpl.
  destruct (link_table s1 T f0 p0 i0 flags (g * 4096)) as (Hsp2 & Hwf2 & Hw2 & Hw3 & Hm);
    try done; [by rewrite Hrd1|lia|by rewrite Z.div_mul, Hl|].
  set (s2 := set_mem _ s1) in *.
  rewrite (level_load s2 _ f0 p0 i0 Hwf2) by done. simpl. simpl in Hm. rewrite Hm.
  eexists _, s2, _. split_and!; [reflexivity| |by exists (g * 4096)].
  constructor; try done.
  - by transitivity s1.
  - intros f p [[<- <-]|[_ Hf]]%lookup_insert_Some; [|by left]. right.
    rewrite Z.div_mul, Efree by lia. split; [done|]. by left.
  - by apply insert_subseteq.
  - exists 1%nat. split; [done|]. simpl. by rewrite Efree.
  - by rewrite Efree.
  - intros f i Hf Hi. pose proof (level_T st T f0 p0 i0 Hwf Hidx Hlen Hwalk) as HT0.
    pose proof (foreign_slot st T f f0 p0 i i0 Hwf Hf HT0 Hi (upd_idx p0 i0 Hidx)) as Hne.
    cbn [s2 pg_mem set_mem]. rewrite rd_insert_ne by done. apply Hother. intros j Hj E.
    destruct Hf as (Ha & _ & Hin). apply slot_inj in E as [-> _]; try done.
    apply Hin. rewrite Efree, Z.div_mul by lia. by left.
Qed.

Lemma get_pte_loop_create flags idxs st T f0 p0 :
  paging_wf st T → Forall is_idx (p0 ++ idxs) → (length p0 + length idxs ≤ 3)%nat →
  walk_tables (pg_mem st) (root_of (cr3 st)) p0 = Some f0 →
  ∃ r st' T', get_pte_loop true flags idxs (phys_to_virt f0) st = Ok (r, st') ∧
    extends (length idxs) st T st' T' ∧
    match r with
    | None => free_frames (pg_pfa st') = []
    | Some tv => ∃ f1, tv = phys_to_virt f1 ∧
        walk_tables (pg_mem st') (root_of (cr3 st')) (p0 ++ idxs) = Some f1
    end.
Proof.
  revert st T f0 p0. induction idxs as [|i idxs IH]; intros st T f0 p0 Hwf Hidx Hlen Hw; simpl in *.
  { eexists _, st, T. split_and!; [reflexivity|by apply extends_refl|]. exists f0. by rewrite app_nil_r. }
  rewrite (cons_middle i), app_assoc in Hidx.
  destruct (get_pte_level_create st T f0 p0 i flags) as (r & s1 & T1 & -> & Hext1 & Hr);
    [done|by apply Forall_app in Hidx as [? _]|lia|done|]. simpl.
  destruct r as [tv|].
  - destruct Hr as (f1 & -> & Hw1).
    destruct (IH s1 T1 f1 (p0 ++ [i])) as (r & s2 & T2 & -> & Hext2 & Hr);
      [by eapply ext_wf|done|rewrite length_app; simpl; lia|done|].
    exists r, s2, T2. split_and!; [done|by apply (extends_trans 1 _ _ _ _ _ _ _ Hext1)|].
    by rewrite <- app_assoc in Hr.
  - exists None, s1, T1. split_and!; [done|eapply extends_weaken; [|done]; lia|].
    destruct (ext_free _ _ _ _ _ Hext1) as (k & _ & ->). by rewrite Hr, drop_nil.
Qed.

(** The root table, as [get_current_pml4_virt] names it. *)
Lemma get_pte_create st T va flags :
  paging_wf st T →
  ∃ r st' T', get_pte (get_current_pml4_virt st) va true flags st = Ok (r, st') ∧
    extends 3 st T st' T' ∧
    match r with
    | None => free_frames (pg_pfa st') = []
    | Some pte => ∃ t, pte = u64 (phys_to_virt t + 8 * PT_IDX va) ∧
        walk_tables (pg_mem st') (root_of (cr3 st')) (path3 va) = Some t
    end.
Proof.
  intros Hwf. unfold get_pte, get_current_pml4_virt. fold (root_of (cr3 st)).
  destruct (get_pte_loop_create flags (path3 va) st T (root_of (cr3 st)) [])
    as (r & s & T' & Hr & Hext & Hcase); [done| |simpl; lia|done|].
  { pose proof (path4_idx va) as Hi. unfold path4 in Hi. by apply Forall_app in Hi as [? _]. }
  unfold path3 in Hr at 1. rewrite Hr. simpl. destruct r as [tv|].
  - destruct Hcase as (t & -> & Hw). eexists _, s, T'. split_and!; [reflexivity|done|]. by exists t.
  - exists None, s, T'. done.
Qed.

(** Without [create] and with no flags, [get_pte] reads and changes nothing. *)
Lemma get_pte_loop_lookup idxs st T f0 p0 :
  paging_wf st T → Forall is_idx idxs → (length p0 + length idxs ≤ 3)%nat → T !! f0 = Some p0 →
  get_pte_loop false 0 idxs (phys_to_virt f0) st =
    Ok (phys_to_virt <$> walk_tables (pg_mem st) f0 idxs, st).
Proof.
  intros Hwf. revert f0 p0. induction idxs as [|i idxs IH]; intros f0 p0 Hidx Hlen HT; simpl in *; [done|].
  apply Forall_cons in Hidx as [Hi Hidx]. unfold get_pte_level.
  destruct (tw_frame _ _ _ (pw_tables _ _ Hwf) _ _ HT) as (Ha & Hf & _).
  rewrite direct_vload by (try done; by eapply pw_direct_T). simpl.
  destruct (flag (rd (pg_mem st) (f0 + 8 * i)) PTE_PRESENT) eqn:Epr; simpl; [|done].
  rewrite direct_vload by (try done; by eapply pw_direct_T). simpl.
  destruct (tw_child _ _ _ (pw_tables _ _ Hwf) f0 p0 i HT) as (_ & -> & HT1); [lia|done..|].
  apply (IH _ (p0 ++ [i])); [done| |done]. rewrite length_app. simpl. lia.
Qed.

Lemma get_pte_lookup st T va :
  paging_wf st T →
  get_pte (get_current_pml4_virt st) va false 0 st =
    Ok ((λ t, u64 (phys_to_virt t + 8 * PT_IDX va)) <$>
          walk_tables (pg_mem st) (root_of (cr3 st)) (path3 va), st).
Proof.
  intros Hwf. unfold get_pte, get_current_pml4_virt. fold (root_of (cr3 st)). fold (path3 va).
  assert (Hi : Forall is_idx (path3 va)).
  { pose proof (path4_idx va) as Hi. unfold path4 in Hi. by apply Forall_app in Hi as [? _]. }
  rewrite (get_pte_loop_lookup (path3 va) st T (root_of (cr3 st)) []);
    [|done|done|simpl; lia|apply (pw_tables _ _ Hwf)].
  by destruct (walk_tables (pg_mem st) (root_of (cr3 st)) (path3 va)).
Qed.

(** The leaf table of an address and its entry. *)
Lemma leaf_table st T va t :
  paging_wf st T → walk_tables (pg_mem st) (root_of (cr3 st)) (path3 va) = Some t →
  T !! t = Some (path3 va) ∧ t mod 4096 = 0 ∧ 0 ≤ t < 2 ^ 31 ∧ reach st t ∧ is_idx (PT_IDX va).
Proof.
  intros Hwf Hw. pose proof (path4_idx va) as Hi. unfold path4 in Hi.
  apply Forall_app in Hi as [Hi3 Hi4].
  assert (HT : T !! t = Some (path3 va)).
  { apply (walk_tables_T _ _ _ (pw_tables _ _ Hwf) (path3 va) (root_of (cr3 st)) []);
      [apply (pw_tables _ _ Hwf)|done|simpl; lia|done]. }
  destruct (tw_frame _ _ _ (pw_tables _ _ Hwf) _ _ HT) as (? & ? & _).
  apply Forall_cons in Hi4 as [Hi4 _].
  split; [done|]. split; [done|]. split; [done|]. split; [by eapply pw_direct_T|done].
Qed.

Lemma walk_page_leaf st T va :
  paging_wf st T →
  walk_page (pg_mem st) (root_of (cr3 st)) va =
    (t ← walk_tables (pg_mem st) (root_of (cr3 st)) (path3 va);
     let e := rd (pg_mem st) (t + 8 * PT_IDX va) in
     if flag e PTE_PRESENT then Some (entry_addr e) else None).
Proof.
  intros Hwf. rewrite (walk_page_tables _ _ T) by apply Hwf. unfold path4.
  by rewrite walk_tables_app.
Qed.

(** ** Mapping and unmapping *)

#[global] Arguments PML4_IDX : simpl never.
#[global] Arguments PDPT_IDX : simpl never.
#[global] Arguments PD_IDX : simpl never.
#[global] Arguments PT_IDX : simpl never.
#[global] Arguments phys_to_virt : simpl never.
#[global] Arguments walk_page : simpl never.
#[global] Arguments path3 : simpl never.
#[global] Arguments path4 : simpl never.

(** [va] is not an address of the direct map of a table or of a free frame. *)
Definition not_direct (st : paging) (T : gmap Z (list Z)) (va : Z) : Prop :=
  ∀ f, is_Some (T !! f) ∨ (f mod 4096 = 0 ∧ f / 4096 ∈ free_frames (pg_pfa st)) →
    path4 (phys_to_virt f) ≠ path4 va.

Definition walk_st (st : paging) (va : Z) : option Z :=
  walk_page (pg_mem st) (root_of (cr3 st)) va.

(** Storing a leaf entry: the walk changes at the page of [va] and nowhere else. *)
Lemma store_leaf st T va t v :
  paging_wf st T → walk_tables (pg_mem st) (root_of (cr3 st)) (path3 va) = Some t →
  let st' := set_mem (<[t + 8 * PT_IDX va := v]> (pg_mem st)) st in
  vstore (u64 (phys_to_virt t + 8 * PT_IDX va)) v st = Ok st' ∧
  (∀ va', walk_st st' va' = if decide (path4 va' = path4 va)
     then (if flag v PTE_PRESENT then Some (entry_addr v) else None)
     else walk_st st va') ∧
  walk_tables (pg_mem st') (root_of (cr3 st')) (path3 va) = Some t ∧
  (not_direct st T va → paging_wf st' T).
Proof.
  intros Hwf Hw st'. destruct (leaf_table st T va t Hwf Hw) as (HT & Ha & Hr & Hreach & Hi).
  pose proof (pw_tables _ _ Hwf) as HwfT.
  pose proof (path4_idx va) as Hidx. unfold path4 in Hidx.
  pose proof (tables_wf_leaf_upd _ _ T HwfT t (path3 va) (PT_IDX va) v Hidx Hw eq_refl) as HwfT'.
  assert (Hwalk : ∀ va', walk_st st' va' = if decide (path4 va' = path4 va)
     then (if flag v PTE_PRESENT then Some (entry_addr v) else None) else walk_st st va').
  { intros va'. unfold walk_st.
    rewrite (walk_page_tables _ _ _ HwfT'), (walk_page_tables _ _ _ HwfT).
    apply (walk_leaf_upd _ _ T HwfT t (path3 va) (PT_IDX va) v Hidx Hw (path4 va') eq_refl);
      [apply path4_idx|reflexivity]. }
  split_and!; [by apply direct_vstore|exact Hwalk| |].
  { apply (upd_prefix _ _ T HwfT t (path3 va) (PT_IDX va) v Hidx Hw). apply Nat.le_refl. }
  intros Hnd. destruct Hwf as [W1 W2 W3 W4 W5 W6]. constructor; try done.
  - intros f p Hf. unfold reach. fold (walk_st st' (phys_to_virt f)). rewrite Hwalk, decide_False.
    + by eapply W5.
    + apply Hnd. left. eauto.
  - intros g Hg. unfold reach. fold (walk_st st' (phys_to_virt (g * 4096))).
    rewrite Hwalk, decide_False; [by apply W6|].
    apply Hnd. right. rewrite Z.mod_mul, Z.div_mul by lia. done.
Qed.

Lemma not_direct_extends n st T st' T' va :
  extends n st T st' T' → not_direct st T va → not_direct st' T' va.
Proof.
  intros Hext Hnd f [[p Hp]|[Ha Hf]].
  - apply Hnd. destruct (ext_tables _ _ _ _ _ Hext f p Hp); [left; eauto|by right].
  - apply Hnd. right. split; [done|]. destruct (ext_free _ _ _ _ _ Hext) as (k & _ & E).
    rewrite E in Hf. by eapply elem_of_drop_free.
Qed.

(** The value [paging_map_page] stores. *)
Lemma map_entry_spec phys flags :
  0 ≤ phys < 2 ^ 52 → 0 ≤ flags < 4096 →
  let v := Z.lor (Z.lor (mask_low phys 0xFFF) flags) PTE_PRESENT in
  flag v PTE_PRESENT = true ∧ entry_addr v = phys - phys mod 4096 ∧
  mask_low v 0xFFF = phys - phys mod 4096.
Proof.
  intros Hp Hf v. unfold v.
  rewrite flag_present, Z.lor_spec, !entry_addr_lor, !mask_page_lor by done.
  rewrite entry_addr_eq by (rewrite mask_page_eq; zdm). rewrite !mask_page_eq.
  split_and!; [by rewrite orb_true_r|zdm|zdm].
Qed.

Lemma map_page_spec st T va phys flags :
  paging_wf st T → 0 ≤ phys < 2 ^ 52 → 0 ≤ flags < 4096 →
  ∃ st', paging_map_page va phys flags st = Ok st' ∧ cr3 st' = cr3 st ∧
    (∃ k, (k ≤ 3)%nat ∧ free_frames (pg_pfa st') = drop k (free_frames (pg_pfa st))) ∧
    ((free_frames (pg_pfa st') = [] ∧ same_space st st' ∧
      mapped_pages st' = mapped_pages st ∧
      ∃ T', paging_wf st' T' ∧ ∀ va', not_direct st T va' → not_direct st' T' va')
     ∨
     (mapped_pages st' = u64 (mapped_pages st + 1) ∧
      (∀ va', walk_st st' va' = if decide (path4 va' = path4 va)
         then Some (phys - phys mod 4096) else walk_st st va') ∧
      (not_direct st T va → ∃ T', paging_wf st' T' ∧
         (∀ va', not_direct st T va' → not_direct st' T' va') ∧
         ∃ t, walk_tables (pg_mem st') (root_of (cr3 st')) (path3 va) = Some t ∧
           rd (pg_mem st') (t + 8 * PT_IDX va) =
             Z.lor (Z.lor (mask_low phys 0xFFF) flags) PTE_PRESENT))).
Proof.
  intros Hwf Hp Hf. unfold paging_map_page.
  destruct (get_pte_create st T va flags Hwf) as (r & s1 & T1 & -> & Hext & Hr). run.
  destruct (ext_space _ _ _ _ _ Hext) as (Hcr & _ & Hsame).
  pose proof (ext_wf _ _ _ _ _ Hext) as Hwf1. destruct r as [pte|].
  - destruct Hr as (t & -> & Hw).
    destruct (map_entry_spec phys flags Hp Hf) as (V1 & V2 & _). set (v := Z.lor _ PTE_PRESENT) in *.
    destruct (store_leaf s1 T1 va t v Hwf1 Hw) as (-> & Hwalk & Hw' & Hpres). run.
    eexists. split; [reflexivity|]. cbn [set_mapped cr3 pg_pfa mapped_pages set_mem].
    split; [done|]. split; [apply Hext|]. right. split_and!.
    + by rewrite (ext_mapped _ _ _ _ _ Hext).
    + intros va'. rewrite V1, V2 in Hwalk. etransitivity; [apply Hwalk|]. case_decide; [done|].
      unfold walk_st. by rewrite Hsame.
    + intros Hnd. pose proof (not_direct_extends _ _ _ _ _ _ Hext Hnd) as Hnd1.
      exists T1. split_and!; [|intros va' H; exact (not_direct_extends _ _ _ _ _ _ Hext H)|].
      * destruct (Hpres Hnd1) as [W1 W2 W3 W4 W5 W6]. by constructor.
      * exists t. split; [done|]. apply rd_insert_eq.
  - exists s1. split_and!; [done..|apply Hext|]. left. split_and!; [done|apply Hext..|].
    exists T1. split; [done|]. intros va' H. exact (not_direct_extends _ _ _ _ _ _ Hext H).
Qed.

(** Mapping a page with frames to spare: the frames in use keep their words. *)
Lemma map_page_foreign st T va phys flags :
  paging_wf st T → 0 ≤ phys < 2 ^ 52 → 0 ≤ flags < 4096 → not_direct st T va →
  (3 < length (free_frames (pg_pfa st)))%nat →
  ∃ st' T', paging_map_page va phys flags st = Ok st' ∧ paging_wf st' T' ∧
    (∀ va', not_direct st T va' → not_direct st' T' va') ∧
    (length (free_frames (pg_pfa st)) ≤ length (free_frames (pg_pfa st')) + 3)%nat ∧
    (∀ va', walk_st st' va' = if decide (path4 va' = path4 va)
       then Some (phys - phys mod 4096) else walk_st st va') ∧
    ∀ f, foreign st T f → foreign st' T' f ∧
      ∀ i, is_idx i → rd (pg_mem st') (f + 8 * i) = rd (pg_mem st) (f + 8 * i).
Proof.
  intros Hwf Hp Hf Hnd Hfree. unfold paging_map_page.
  destruct (get_pte_create st T va flags Hwf) as (r & s1 & T1 & -> & Hext & Hr). run.
  destruct (ext_space _ _ _ _ _ Hext) as (Hcr & _ & Hsame). pose proof (ext_wf _ _ _ _ _ Hext) as Hwf1.
  destruct (ext_free _ _ _ _ _ Hext) as (k & Hk & Hd).
  assert (Hlen : (length (free_frames (pg_pfa st)) ≤ length (free_frames (pg_pfa s1)) + 3)%nat).
  { rewrite Hd, length_drop. lia. }
  destruct r as [pte|]; [|rewrite Hr in Hlen; cbn in Hlen; lia].
  destruct Hr as (t & -> & Hw).
  destruct (map_entry_spec phys flags Hp Hf) as (V1 & V2 & _). set (v := Z.lor _ PTE_PRESENT) in *.
  destruct (store_leaf s1 T1 va t v Hwf1 Hw) as (-> & Hwalk & _ & Hpres). run.
  destruct (leaf_table s1 T1 va t Hwf1 Hw) as (HT & _ & _ & _ & Hi0).
  destruct (Hpres (not_direct_extends _ _ _ _ _ _ Hext Hnd)) as [W1 W2 W3 W4 W5 W6].
  eexists _, T1. split; [reflexivity|]. cbn [set_mapped cr3 pg_pfa mapped_pages set_mem].
  split_and!; [by constructor|by intros va'; apply (not_direct_extends _ _ _ _ _ _ Hext)|done| |].
  - intros va'. rewrite V1, V2 in Hwalk. etransitivity; [apply Hwalk|]. case_decide; [done|].
    unfold walk_st. by rewrite Hsame.
  - intros f Hfor. pose proof (foreign_extends _ _ _ _ _ f Hext Hfor) as Hfor1. split; [done|].
    intros i Hi. rewrite <- (ext_words _ _ _ _ _ Hext f i Hfor Hi). cbn [pg_mem set_mapped set_mem].
    apply rd_insert_ne, (foreign_slot s1 T1 f t _ i (PT_IDX va) Hwf1 Hfor1 HT Hi Hi0).
Qed.

Lemma unmap_page_spec st T va :
  paging_wf st T →
  ∃ st', paging_unmap_page va st = Ok st' ∧ cr3 st' = cr3 st ∧
    pg_pfa st' = pg_pfa st ∧
    mapped_pages st' = (if walk_st st va is Some _ then u64 (mapped_pages st - 1) else mapped_pages st) ∧
    (∀ va', walk_st st' va' = if decide (path4 va' = path4 va) then None else walk_st st va') ∧
    (not_direct st T va → paging_wf st' T).
Proof.
  intros Hwf. unfold paging_unmap_page. rewrite (get_pte_lookup st T va Hwf). run.
  pose proof (walk_page_leaf st T va Hwf) as Hleaf. fold (walk_st st va) in Hleaf.
  assert (Hnone : walk_st st va = None → ∀ va', walk_st st va' =
    if decide (path4 va' = path4 va) then None else walk_st st va').
  { intros Hn va'. case_decide as Hd; [|done]. rewrite <- Hn. unfold walk_st.
    rewrite !(walk_page_tables _ _ T) by apply Hwf. by rewrite Hd. }
  destruct (walk_tables (pg_mem st) (root_of (cr3 st)) (path3 va)) as [t|] eqn:Hw; cbn [fmap option_fmap option_map mbind option_bind] in *.
  2:{ exists st. rewrite Hleaf. split_and!; auto. }
  destruct (leaf_table st T va t Hwf Hw) as (HT & Ha & Hr & Hreach & Hi).
  rewrite direct_vload by done. run.
  destruct (flag (rd (pg_mem st) (t + 8 * PT_IDX va)) PTE_PRESENT) eqn:Epr.
  2:{ exists st. rewrite Hleaf. split_and!; auto. }
  destruct (store_leaf st T va t 0 Hwf Hw) as (-> & Hwalk & _ & Hpres). run.
  eexists. split; [reflexivity|]. rewrite Hleaf. do 3 (split; [done|]). split.
  - intros va'. etransitivity; [apply Hwalk|done].
  - intros Hnd. destruct (Hpres Hnd) as [W1 W2 W3 W4 W5 W6]. by constructor.
Qed.

(** [paging_get_physical_address] agrees with the processor's walk whenever the
    leaf entry has no bits above the address field. *)
Lemma get_physical_spec st T va :
  paging_wf st T →
  (∀ t, walk_tables (pg_mem st) (root_of (cr3 st)) (path3 va) = Some t →
     let e := rd (pg_mem st) (t + 8 * PT_IDX va) in mask_low e 0xFFF = entry_addr e) →
  paging_get_physical_address va st =
    Ok (match walk_st st va with Some p => u64 (p + va mod 4096) | None => 0 end, st).
Proof.
  intros Hwf Hleaf. unfold paging_get_physical_address. rewrite (get_pte_lookup st T va Hwf). run.
  pose proof (walk_page_leaf st T va Hwf) as Hw. fold (walk_st st va) in Hw. rewrite Hw.
  destruct (walk_tables (pg_mem st) (root_of (cr3 st)) (path3 va)) as [t|] eqn:Et;
    cbn [fmap option_fmap option_map mbind option_bind]; [|done].
  destruct (leaf_table st T va t Hwf Et) as (HT & Ha & Hr & Hreach & Hi).
  rewrite direct_vload by done. run. destruct (flag _ _); [|done].
  specialize (Hleaf t eq_refl). cbv zeta in Hleaf. rewrite Hleaf.
  change 0xFFF with (Z.ones 12). by rewrite Z.land_ones.
Qed.

(** Addresses the processor accepts: bits 48..63 repeat bit 47. *)
Definition canonical (va : Z) : Prop := 0 ≤ va < 2 ^ 47 ∨ 2 ^ 64 - 2 ^ 47 ≤ va < 2 ^ 64.

Lemma canonical_page va va' :
  canonical va → canonical va' → path4 va' = path4 va ↔ va' / 4096 = va / 4096.
Proof.
  unfold canonical. intros Hc Hc'. split; [|apply path4_page].
  intros H%path4_inj. destruct Hc, Hc'; zdm.
Qed.

Lemma translate_walk st va :
  translate (pg_mem st) (cr3 st) va = (λ p, p + va mod 4096) <$> walk_st st va.
Proof. reflexivity. Qed.

(** The statement of [walk_st] lemmas in terms of pages of canonical addresses. *)
Lemma translate_upd st st' va r :
  canonical va →
  (∀ va', walk_st st' va' = if decide (path4 va' = path4 va) then r else walk_st st va') →
  ∀ va', canonical va' →
    translate (pg_mem st') (cr3 st') va' =
      if decide (va' / 4096 = va / 4096) then (λ p, p + va' mod 4096) <$> r
      else translate (pg_mem st) (cr3 st) va'.
Proof.
  intros Hc Hw va' Hc'. rewrite !translate_walk, Hw.
  pose proof (canonical_page va va' Hc Hc') as Hp.
  destruct (decide (va' / 4096 = va / 4096)) as [E|E].
  - by rewrite decide_True by by apply Hp.
  - rewrite decide_False; [done|]. by rewrite Hp.
Qed.

(** With three free frames, mapping never runs out of table frames. *)
Lemma map_page_succeeds st T va phys flags :
  paging_wf st T → 0 ≤ phys < 2 ^ 52 → 0 ≤ flags < 4096 → not_direct st T va →
  (3 < length (free_frames (pg_pfa st)))%nat →
  ∃ st' T', paging_map_page va phys flags st = Ok st' ∧ paging_wf st' T' ∧
    not_direct st' T' va ∧ cr3 st' = cr3 st ∧
    mapped_pages st' = u64 (mapped_pages st + 1) ∧
    (∀ va', walk_st st' va' = if decide (path4 va' = path4 va)
       then Some (phys - phys mod 4096) else walk_st st va') ∧
    ∃ t, walk_tables (pg_mem st') (root_of (cr3 st')) (path3 va) = Some t ∧
      rd (pg_mem st') (t + 8 * PT_IDX va) =
        Z.lor (Z.lor (mask_low phys 0xFFF) flags) PTE_PRESENT.
Proof.
  intros Hwf Hp Hf Hnd Hfree.
  destruct (map_page_spec st T va phys flags Hwf Hp Hf)
    as (st' & E & Hcr & (k & Hk & Hdrop) & [(Hnil & _)|(Hm & Hw & Hpres)]).
  { exfalso. apply (f_equal length) in Hdrop. rewrite Hnil, length_drop in Hdrop.
    change (length []) with 0%nat in Hdrop. lia. }
  destruct (Hpres Hnd) as (T' & Hwf' & Hnd' & t & Ht). exists st', T'. split_and!; eauto.
Qed.

(** *** User accessibility *)

(** The part of the processor's user-mode check that reads the tables: at every level the
    entry is present and has the user bit. *)
Fixpoint user_path (m : gmap Z Z) (table : Z) (idxs : list Z) : bool :=
  match idxs with
  | [] => true
  | i :: rest =>
      let e := rd m (table + 8 * i) in
      flag e PTE_PRESENT && flag e PTE_USER && user_path m (entry_addr e) rest
  end.

Lemma user_walk_spec st T idxs f p :
  paging_wf st T → T !! f = Some p → Forall is_idx idxs → (length p + length idxs ≤ 4)%nat →
  user_walk idxs (phys_to_virt f) st = Ok (user_path (pg_mem st) f idxs).
Proof.
  intros Hwf. revert f p. induction idxs as [|i idxs IH]; intros f p Hf Hi Hlen; [done|].
  apply Forall_cons in Hi as [Hi Hi'].
  destruct (tw_frame _ _ _ (pw_tables _ _ Hwf) _ _ Hf) as (Ha & Hr & _).
  cbn [user_walk user_path].
  rewrite direct_vload by (try done; by eapply pw_direct_T). run.
  destruct (flag (rd (pg_mem st) (f + 8 * i)) PTE_PRESENT) eqn:Ep; [|done].
  destruct (flag (rd (pg_mem st) (f + 8 * i)) PTE_USER); [|done]. cbn [negb andb].
  destruct idxs as [|j idxs]; [done|]. cbn [length] in Hlen.
  destruct (tw_child _ _ _ (pw_tables _ _ Hwf) f p i Hf) as (_ & -> & HT1); [lia|done..|].
  apply (IH _ (p ++ [i])); [done..|]. rewrite length_app. cbn [length]. lia.
Qed.

Lemma user_path_app m t l1 l2 t' :
  walk_tables m t l1 = Some t' →
  user_path m t (l1 ++ l2) = user_path m t l1 && user_path m t' l2.
Proof.
  revert t. induction l1 as [|i l1 IH]; intros t; cbn [walk_tables app user_path]; [by intros [= <-]|].
  destruct (flag (rd m (t + 8 * i)) PTE_PRESENT); [|done]. intros Hw.
  rewrite (IH _ Hw). cbn [andb]. by rewrite andb_assoc.
Qed.

Lemma is_user_accessible_spec st T va :
  paging_wf st T →
  paging_is_user_accessible va st =
    Ok (user_path (pg_mem st) (root_of (cr3 st)) (path4 va)).
Proof.
  intros Hwf. apply (user_walk_spec st T (path4 va) (root_of (cr3 st)) []);
    [done|apply (pw_tables _ _ Hwf)|apply path4_idx|reflexivity].
Qed.

(** A successful check means the address translates. *)
Lemma user_path_walk m t idxs : user_path m t idxs = true → is_Some (walk_tables m t idxs).
Proof.
  revert t. induction idxs as [|i idxs IH]; intros t; cbn [user_path walk_tables]; [eauto|].
  destruct (flag (rd m (t + 8 * i)) PTE_PRESENT); [|done].
  intros [_ H]%andb_prop. auto.
Qed.

Lemma flag_user_entry phys flags :
  flag (Z.lor (Z.lor (mask_low phys 0xFFF) flags) PTE_PRESENT) PTE_USER = flag flags PTE_USER.
Proof.
  assert (Hu : ∀ e, flag e PTE_USER = Z.testbit e 2) by (intros; apply (bit_test_spec e 2); lia).
  rewrite !Hu, !Z.lor_spec, mask_page_shift, Z.shiftl_spec_low by lia.
  by rewrite orb_false_r.
Qed.

(** *** Address spaces *)

(** The walk from another root whose slot of [va] holds the same entry. *)
Lemma walk_page_other_root m m' T root root' va :
  tables_wf m root T → tables_agree m T m' →
  rd m' (root' + 8 * PML4_IDX va) = rd m (root + 8 * PML4_IDX va) →
  walk_page m' root' va = walk_page m root va.
Proof.
  intros Hwf Hag Hslot. rewrite (walk_page_tables m root T Hwf).
  pose proof (tables_wf_agree _ _ _ Hwf _ Hag) as Hwf'.
  rewrite <- (walk_tables_agree m root T Hwf m' (path4 va) root []);
    [|done|apply Hwf|apply path4_idx|reflexivity].
  rewrite <- (walk_page_tables m' root T Hwf').
  pose proof (path4_idx va) as Hi. apply Forall_cons in Hi as [Hi _].
  assert (Hs : rd m' (root + 8 * PML4_IDX va) = rd m (root + 8 * PML4_IDX va)).
  { apply (Hag root [] (PML4_IDX va)); [apply Hwf|done]. }
  unfold walk_page. by rewrite Hslot, Hs.
Qed.

(** The copy loop of [paging_create_address_space], into a frame that is not a table. *)
Lemma copy_kernel_half st T nf :
  paging_wf st T → T !! nf = None → reach st nf → nf mod 4096 = 0 → 0 ≤ nf < 2 ^ 31 →
  kernel_pml4 st = phys_to_virt (root_of (cr3 st)) →
  ∃ m', for_range (λ i st,
      e ← vload st (u64 (kernel_pml4 st + 8 * i));
      vstore (u64 (phys_to_virt nf + 8 * i)) e st) 256 256 st = Ok (set_mem m' st) ∧
    tables_agree (pg_mem st) T m' ∧
    (∀ i, is_idx i → rd m' (nf + 8 * i) =
       if decide (256 ≤ i) then rd (pg_mem st) (root_of (cr3 st) + 8 * i)
       else rd (pg_mem st) (nf + 8 * i)).
Proof.
  intros Hwf HT Hr Ha Hnf Hk. pose proof (pw_tables _ _ Hwf) as HwfT.
  destruct (for_range_rule (λ n t, ∃ m', t = set_mem m' st ∧ 256 ≤ n ∧
       tables_agree (pg_mem st) T m' ∧
       (∀ i, is_idx i → rd m' (nf + 8 * i) =
          if decide (256 ≤ i < n) then rd (pg_mem st) (root_of (cr3 st) + 8 * i)
          else rd (pg_mem st) (nf + 8 * i)))
    (λ i st, e ← vload st (u64 (kernel_pml4 st + 8 * i));
      vstore (u64 (phys_to_virt nf + 8 * i)) e st) 256 256 st)
    as (s' & -> & m' & -> & _ & Hag & Hc).
  - exists (pg_mem st). split_and!; [by destruct st|lia|done|].
    intros i Hi. rewrite decide_False by lia. done.
  - intros n t Hn (m' & -> & _ & Hag & Hc). assert (Hidx : is_idx n) by (unfold is_idx; lia).
    pose proof (same_space_agree _ _ _ HwfT Hag) as Hsp.
    assert (Hwf' : paging_wf (set_mem m' st) T).
    { eapply paging_wf_same; [done|done|by eapply tables_wf_agree|done]. }
    destruct (tw_frame _ _ _ HwfT _ _ (tw_root _ _ _ HwfT)) as (Har & Hrr & _).
    cbn [set_mem kernel_pml4]. rewrite Hk, (direct_vload (set_mem m' st));
      [|eapply pw_direct_T; [done|apply HwfT]|done..]. run.
    rewrite (direct_vstore (set_mem m' st)) by (done || by eapply reach_same).
    eexists. split; [reflexivity|]. eexists. split; [reflexivity|]. split; [lia|]. split.
    + intros g p i Hg Hi. destruct (tw_frame _ _ _ HwfT _ _ Hg) as [Hag' _].
      rewrite rd_insert_ne; [by apply (Hag g p i)|]. intros Heq.
      apply slot_inj in Heq as [-> _]; try done. congruence.
    + intros i Hi. cbn [set_mem pg_mem]. destruct (decide (i = n)) as [->|Hne].
      * rewrite rd_insert_eq, decide_True by lia. apply (Hag _ [] n); [apply HwfT|done].
      * rewrite rd_insert_ne by lia. rewrite Hc by done.
        repeat case_decide; first [done|lia].
  - exists m'. split_and!; [done..|]. intros i Hi. rewrite Hc by done. unfold is_idx in Hi.
    repeat case_decide; first [done|lia].
Qed.

Lemma create_address_space_spec st T g l :
  paging_wf st T → free_frames (pg_pfa st) = g :: l →
  kernel_pml4 st = phys_to_virt (root_of (cr3 st)) →
  ∃ st', paging_create_address_space st = Ok (g * 4096, st') ∧ paging_wf st' T ∧
    same_space st st' ∧ free_frames (pg_pfa st') = l ∧
    (∀ va, walk_page (pg_mem st') (g * 4096) va =
       if decide (256 ≤ PML4_IDX va) then walk_page (pg_mem st) (root_of (cr3 st)) va else None).
Proof.
  intros Hwf Hf Hk. unfold paging_create_address_space.
  pose proof (pfa_alloc_frame_spec st T Hwf) as Hal. rewrite Hf in Hal.
  destruct Hal as (s1 & -> & Hwf1 & Hsp1 & _ & Hl & Hr1 & HT & Hreach & Hz & Ho). run.
  assert (Ha : (g * 4096) mod 4096 = 0) by by rewrite Z.mod_mul.
  destruct (memset_page0_spec s1 T (g * 4096)) as (m2 & -> & Hag2 & Hz2 & Ho2);
    [apply Hwf1|done|done|done|lia|]. run.
  pose proof (same_space_agree _ _ _ (pw_tables _ _ Hwf1) Hag2) as Hsp2.
  assert (Hwf2 : paging_wf (set_mem m2 s1) T).
  { eapply paging_wf_same; [done|done| |done]. eapply tables_wf_agree; [apply Hwf1|done]. }
  destruct Hsp1 as (Hcr & Hkp & Hw1).
  destruct (copy_kernel_half (set_mem m2 s1) T (g * 4096)) as (m3 & -> & Hag3 & Hc3);
    [done|done|by eapply reach_same|done|lia| |].
  { cbn [set_mem kernel_pml4 cr3]. by rewrite Hkp, Hcr. }
  run. eexists. split; [reflexivity|].
  pose proof (same_space_agree _ _ _ (pw_tables _ _ Hwf2) Hag3) as Hsp3.
  split; [|split; [|split]].
  - eapply paging_wf_same; [exact Hwf2|done| |done]. eapply tables_wf_agree; [apply Hwf2|done].
  - transitivity s1; [done|]. by transitivity (set_mem m2 s1).
  - done.
  - intros va. pose proof (path4_idx va) as Hi. apply Forall_cons in Hi as [Hi _].
    case_decide as Hd.
    + etransitivity; [eapply (walk_page_other_root m2 m3 T (root_of (cr3 s1)));
        [apply Hwf2|done|] |].
      { rewrite Hc3 by done. by rewrite decide_True by done. }
      destruct Hsp2 as (_ & _ & Hw2). by rewrite Hw2, Hw1.
    + unfold walk_page. cbn [set_mem pg_mem]. rewrite Hc3 by done.
      rewrite decide_False by done. cbn [set_mem pg_mem]. by rewrite Hz2.
Qed.

(** No address of the lower half is in the direct map. *)
Lemma user_not_direct st T va : paging_wf st T → 0 ≤ va < 2 ^ 47 → not_direct st T va.
Proof.
  intros Hwf Hva f Hf Heq. assert (Hr : 0 ≤ f < 2 ^ 31).
  { destruct Hf as [[p Hp]|[Ha Hg]].
    - destruct (tw_frame _ _ _ (pw_tables _ _ Hwf) _ _ Hp) as (_ & ? & _). done.
    - destruct (pw_free _ _ Hwf _ Hg). zdm. }
  apply path4_inj in Heq. unfold phys_to_virt, KERNEL_VIRT_OFFSET in Heq.
  rewrite wrap_small in Heq by lia. zdm.
Qed.

(** ** Properties *)

(** A small machine: 16 frames, the tables in frames 1 to 4, and the direct map
    of the 16 frames. *)
Definition demo_words : list (Z * Z) :=
  (0x1000 + 8 * 511, 0x2003) :: (0x2000 + 8 * 510, 0x3003) :: (0x3000, 0x4003) ::
  ((λ k, (0x4000 + 8 * k, k * 4096 + 3)) <$> seqZ 0 16).
Definition demo_tables : gmap Z (list Z) :=
  list_to_map [(0x1000, []); (0x2000, [511]); (0x3000, [511; 510]); (0x4000, [511; 510; 0])].
Definition demo_paging : paging :=
  mk_paging (mk_pfa [0xFFFF001F] 1 16 5) (list_to_map demo_words) 0x1000 0xFFFFFFFF80001000 0.

Lemma demo_T_inv f p : demo_tables !! f = Some p →
  (f, p) ∈ [(0x1000, []); (0x2000, [511]); (0x3000, [511; 510]); (0x4000, [511; 510; 0])].
Proof. apply elem_of_list_to_map_2. Qed.

Lemma demo_rd_inv a : flag (rd (pg_mem demo_paging) a) PTE_PRESENT = true →
  (a, rd (pg_mem demo_paging) a) ∈ demo_words.
Proof.
  unfold rd. destruct (pg_mem demo_paging !! a) as [v|] eqn:E; [|done].
  intros _. by apply elem_of_list_to_map_2.
Qed.

Lemma demo_tables_wf : tables_wf (pg_mem demo_paging) 0x1000 demo_tables.
Proof.
  constructor.
  - reflexivity.
  - intros f p Hf%demo_T_inv.
    repeat (apply elem_of_cons in Hf as [[= -> ->]|Hf]; [repeat split; cbn; lia|]).
    by apply elem_of_nil in Hf.
  - intros f p i Hf%demo_T_inv Hlen Hi e He. unfold is_idx in Hi.
    pose proof (demo_rd_inv _ He) as Hin. fold e in Hin. clearbody e. clear He.
    unfold demo_words in Hin. apply elem_of_cons in Hf as [[= -> ->]|Hf].
    { apply elem_of_cons in Hin as [[= Hi' ->]|Hin]; [|exfalso].
      + assert (i = 511) as -> by lia. by vm_compute.
      + cbn in Hin. set_solver by lia. }
    apply elem_of_cons in Hf as [[= -> ->]|Hf].
    { do 1 (apply elem_of_cons in Hin as [[= Hi' ->]|Hin]; [lia|]).
      apply elem_of_cons in Hin as [[= Hi' ->]|Hin]; [|exfalso].
      + assert (i = 510) as -> by lia. by vm_compute.
      + cbn in Hin. set_solver by lia. }
    apply elem_of_cons in Hf as [[= -> ->]|Hf].
    { do 2 (apply elem_of_cons in Hin as [[= Hi' ->]|Hin]; [lia|]).
      apply elem_of_cons in Hin as [[= Hi' ->]|Hin]; [|exfalso].
      + assert (i = 0) as -> by lia. by vm_compute.
      + cbn in Hin. set_solver by lia. }
    apply elem_of_cons in Hf as [[= -> ->]|Hf]; [cbn in Hlen; lia|by apply elem_of_nil in Hf].
Qed.

Lemma demo_free : free_frames (pg_pfa demo_paging) = seqZ 5 11.
Proof. vm_compute. reflexivity. Qed.

Lemma demo_paging_wf : paging_wf demo_paging demo_tables.
Proof.
  constructor.
  - exact demo_tables_wf.
  - constructor; rewrite ?demo_free; [cbn; lia|reflexivity|cbn; lia|cbn; lia| |reflexivity].
    cbn [demo_paging pg_pfa frame_bitmap]. repeat constructor; lia.
  - intros f p Hf%demo_T_inv. rewrite demo_free, elem_of_seqZ.
    repeat (apply elem_of_cons in Hf as [[= -> ->]|Hf]; [zdm|]). by apply elem_of_nil in Hf.
  - intros g. rewrite demo_free, elem_of_seqZ. lia.
  - intros f p Hf%demo_T_inv.
    repeat (apply elem_of_cons in Hf as [[= -> ->]|Hf]; [vm_compute; reflexivity|]).
    by apply elem_of_nil in Hf.
  - intros g. rewrite demo_free. intros Hg.
    assert (Hin : g ∈ [5; 6; 7; 8; 9; 10; 11; 12; 13; 14; 15]) by exact Hg.
    repeat (apply elem_of_cons in Hin as [->|Hin]; [vm_compute; reflexivity|]).
    by apply elem_of_nil in Hin.
Qed.

(** C8. With enough free frames for the missing tables, [paging_map_page] of an
    address outside the direct map succeeds, and afterwards the addresses of
    that page translate to the given frame and every other canonical address
    translates as before; the invariant of the page tables is preserved. *)
Theorem map_page_changes_one_page st T va phys flags :
  paging_wf st T → 0 ≤ phys < 2 ^ 52 → 0 ≤ flags < 4096 → canonical va → not_direct st T va →
  (3 < length (free_frames (pg_pfa st)))%nat →
  ∃ st' T', paging_map_page va phys flags st = Ok st' ∧ paging_wf st' T' ∧
    ∀ va', canonical va' →
      translate (pg_mem st') (cr3 st') va' =
        if decide (va' / 4096 = va / 4096)
        then Some (phys - phys mod 4096 + va' mod 4096)
        else translate (pg_mem st) (cr3 st) va'.
Proof.
  intros Hwf Hp Hf Hc Hnd Hfree.
  destruct (map_page_succeeds st T va phys flags) as (st' & T' & E & Hwf' & _ & _ & _ & Hw & _);
    [done..|].
  exists st', T'. split_and!; [done..|]. by apply (translate_upd st st' va _ Hc Hw).
Qed.

Lemma map_page_changes_one_page_witness :
  ∃ st', paging_map_page 0x400123 0x7000 7 demo_paging = Ok st' ∧
    translate (pg_mem st') (cr3 st') 0x400ABC = Some 0x7ABC ∧
    translate (pg_mem st') (cr3 st') 0xFFFFFFFF80007008 = Some 0x7008.
Proof.
  destruct (map_page_changes_one_page demo_paging demo_tables 0x400123 0x7000 7)
    as (st' & T' & E & _ & Hw);
    [apply demo_paging_wf|lia|lia|left; lia|apply (user_not_direct _ _ _ demo_paging_wf); lia
    |rewrite demo_free; vm_compute; lia|].
  exists st'. split; [exact E|]. split.
  - rewrite Hw by (left; lia). reflexivity.
  - rewrite Hw by (right; lia). vm_compute. reflexivity.
Defined.

(** [paging_get_physical_address] after a successful [paging_map_page] gives
    back the mapped frame with the offset of the queried address. *)
Theorem map_then_get_physical st T va phys flags va' :
  paging_wf st T → 0 ≤ phys < 2 ^ 52 → 0 ≤ flags < 4096 → not_direct st T va →
  (3 < length (free_frames (pg_pfa st)))%nat → va' / 4096 = va / 4096 →
  ∃ st', paging_map_page va phys flags st = Ok st' ∧
    paging_get_physical_address va' st' = Ok (phys - phys mod 4096 + va' mod 4096, st').
Proof.
  intros Hwf Hp Hf Hnd Hfree Hpage.
  destruct (map_page_succeeds st T va phys flags)
    as (st' & T' & E & Hwf' & _ & _ & _ & Hw & t & Ht & Hrd); [done..|].
  destruct (map_entry_spec phys flags Hp Hf) as (_ & V2 & V3).
  assert (Hpath : path4 va' = path4 va) by by apply path4_page.
  exists st'. split; [done|]. rewrite (get_physical_spec st' T' va' Hwf').
  - rewrite Hw, decide_True by done. rewrite wrap_small; [done|]. zdm.
  - unfold path4 in Hpath. apply app_inj_2 in Hpath as [Hp3 [= Hp1]]; [|done].
    rewrite Hp3, Hp1, Ht. intros t' [= <-]. cbv zeta. by rewrite Hrd, V2, V3.
Qed.

Lemma map_then_get_physical_witness :
  ∃ st', paging_map_page 0x400123 0x7000 3 demo_paging = Ok st' ∧
    paging_get_physical_address 0x400ABC st' = Ok (0x7ABC, st').
Proof.
  apply (map_then_get_physical demo_paging demo_tables 0x400123 0x7000 3 0x400ABC);
    [apply demo_paging_wf|lia|lia|apply (user_not_direct _ _ _ demo_paging_wf); lia
    |rewrite demo_free; vm_compute; lia|reflexivity].
Defined.

(** [paging_unmap_page] never faults and takes no frame; afterwards the page does not
    translate, every other canonical address translates as before, and the
    count of mapped pages drops by one exactly when the page was mapped. *)
Theorem unmap_page_changes_one_page st T va :
  paging_wf st T → canonical va → not_direct st T va →
  ∃ st', paging_unmap_page va st = Ok st' ∧ paging_wf st' T ∧ pg_pfa st' = pg_pfa st ∧
    mapped_pages st' = (if decide (is_Some (translate (pg_mem st) (cr3 st) va))
      then u64 (mapped_pages st - 1) else mapped_pages st) ∧
    ∀ va', canonical va' →
      translate (pg_mem st') (cr3 st') va' =
        if decide (va' / 4096 = va / 4096) then None
        else translate (pg_mem st) (cr3 st) va'.
Proof.
  intros Hwf Hc Hnd. destruct (unmap_page_spec st T va Hwf) as (st' & E & _ & Hpfa & Hm & Hw & Hpres).
  exists st'. split_and!; [done|by apply Hpres|done| |].
  - rewrite Hm, translate_walk. destruct (walk_st st va).
    + rewrite decide_True; [done|]. cbn. eauto.
    + rewrite decide_False; [done|]. by intros [? [=]].
  - apply (translate_upd st st' va None Hc Hw).
Qed.

Lemma unmap_page_changes_one_page_witness :
  ∃ st', paging_unmap_page 0x400123 demo_paging = Ok st' ∧
    translate (pg_mem st') (cr3 st') 0xFFFFFFFF80007008 = Some 0x7008.
Proof.
  destruct (unmap_page_changes_one_page demo_paging demo_tables 0x400123)
    as (st' & E & _ & _ & _ & Hw);
    [apply demo_paging_wf|left; lia|apply (user_not_direct _ _ _ demo_paging_wf); lia|].
  exists st'. split; [exact E|]. rewrite Hw by (right; lia). vm_compute. reflexivity.
Defined.

(** When no frame is left, [paging_map_page] of an address whose page table
    is missing returns normally, maps nothing and leaves every translation and
    the count of mapped pages as they were: the caller is not told. *)
Theorem map_page_silent_failure st T va phys flags :
  paging_wf st T → 0 ≤ phys < 2 ^ 52 → 0 ≤ flags < 4096 →
  free_frames (pg_pfa st) = [] → walk_tables (pg_mem st) (root_of (cr3 st)) (path3 va) = None →
  ∃ st', paging_map_page va phys flags st = Ok st' ∧ mapped_pages st' = mapped_pages st ∧
    translate (pg_mem st') (cr3 st') va = None ∧
    ∀ va', translate (pg_mem st') (cr3 st') va' = translate (pg_mem st) (cr3 st) va'.
Proof.
  intros Hwf Hp Hf Hfree Hnone. unfold paging_map_page.
  destruct (get_pte_create st T va flags Hwf) as (r & s1 & T1 & -> & Hext & Hr). run.
  destruct (ext_space _ _ _ _ _ Hext) as (Hcr & _ & Hsame).
  pose proof (walk_page_leaf st T va Hwf) as Hleaf. rewrite Hnone in Hleaf.
  cbn [mbind option_bind] in Hleaf.
  assert (Hsp : ∀ va', translate (pg_mem s1) (cr3 s1) va' = translate (pg_mem st) (cr3 st) va').
  { intros va'. unfold translate. by rewrite Hsame. }
  assert (r = None) as ->.
  { destruct r as [pte|]; [|done]. destruct Hr as (t & _ & Ht).
    rewrite (ext_full _ _ _ _ _ Hext Hfree), Hcr, Hnone in Ht. done. }
  exists s1. split_and!; [done|apply Hext| |done].
  rewrite Hsp. unfold translate. by rewrite Hleaf.
Qed.

(** The same machine with every frame taken. *)
Definition demo_full : paging := set_pfa (mk_pfa [0xFFFFFFFF] 1 16 16) demo_paging.

Lemma paging_wf_full st T p :
  paging_wf st T → pfa_wf p → free_frames p = [] → paging_wf (set_pfa p st) T.
Proof.
  intros [W1 W2 W3 W4 W5 W6] Hp Hnil. constructor; cbn [set_pfa pg_pfa]; try done; rewrite Hnil.
  - intros f q _ H. by apply elem_of_nil in H.
  - intros g H. by apply elem_of_nil in H.
  - intros g H. by apply elem_of_nil in H.
Qed.

Lemma demo_full_wf : paging_wf demo_full demo_tables.
Proof.
  assert (Hnil : free_frames (pg_pfa demo_full) = []) by (vm_compute; reflexivity).
  apply paging_wf_full; [apply demo_paging_wf| |done].
  constructor; [cbn; lia|reflexivity|cbn; lia|cbn; lia| |].
  - cbn [frame_bitmap]. repeat constructor; lia.
  - cbn [demo_full set_pfa pg_pfa] in Hnil. by rewrite Hnil.
Qed.

Lemma map_page_silent_failure_witness :
  ∃ st', paging_map_page 0x400000 0x7000 3 demo_full = Ok st' ∧
    translate (pg_mem st') (cr3 st') 0x400000 = None.
Proof.
  destruct (map_page_silent_failure demo_full demo_tables 0x400000 0x7000 3)
    as (st' & E & _ & Hn & _);
    [apply demo_full_wf|lia|lia|vm_compute; reflexivity|vm_compute; reflexivity|]. eauto.
Defined.

Definition canonicalb (va : Z) : bool :=
  (0 <=? va) && (va <? 2 ^ 47) || (2 ^ 64 - 2 ^ 47 <=? va) && (va <? 2 ^ 64).

Lemma canonicalb_spec va : canonicalb va = true ↔ canonical va.
Proof. unfold canonicalb, canonical. rewrite orb_true_iff, !andb_true_iff, !Z.leb_le, !Z.ltb_lt. done. Qed.

(** The processor's check of a user-mode read: the address is canonical, and every entry on
    its path has the present and the user bit. *)
Definition cpu_user_access (m : gmap Z Z) (cr3 va : Z) : bool :=
  canonicalb va && user_path m (root_of cr3) (path4 va).

(** The canonical address with the same low 48 bits. *)
Definition sign_extended (va : Z) : Z :=
  let low := va mod 2 ^ 48 in if low <? 2 ^ 47 then low else low + (2 ^ 64 - 2 ^ 48).

Lemma index_high u k j : 0 ≤ j ≤ 39 → (u + 2 ^ 48 * k) / 2 ^ j mod 512 = u / 2 ^ j mod 512.
Proof.
  intros Hj. replace (2 ^ 48 * k) with (k * 2 ^ (39 - j) * 512 * 2 ^ j).
  - rewrite Z.div_add by (apply Z.pow_nonzero; lia). by rewrite Z.mod_add.
  - replace (2 ^ 48) with (2 ^ (39 - j) * 2 ^ 9 * 2 ^ j) by (rewrite <- !Z.pow_add_r by lia; f_equal; lia).
    change 512 with (2 ^ 9). ring.
Qed.

Lemma path4_high u k : path4 (u + 2 ^ 48 * k) = path4 u.
Proof.
  unfold path4, path3, PML4_IDX, PDPT_IDX, PD_IDX, PT_IDX. rewrite !idx_eq, !Z.shiftr_div_pow2 by lia.
  by rewrite !index_high by lia.
Qed.

Lemma sign_extended_spec va : canonical (sign_extended va) ∧ path4 (sign_extended va) = path4 va.
Proof.
  pose proof (Z_div_mod_eq_full va (2 ^ 48)) as Hd. pose proof (Z.mod_pos_bound va (2 ^ 48) ltac:(lia)) as Hm.
  unfold sign_extended. destruct (Z.ltb_spec (va mod 2 ^ 48) (2 ^ 47)).
  - split; [left; lia|]. rewrite <- (path4_high _ (va / 2 ^ 48)). f_equal. lia.
  - split; [right; lia|]. rewrite <- (path4_high _ (va / 2 ^ 48 - (2 ^ 16 - 1))). f_equal. lia.
Qed.

(** C40. [paging_is_user_accessible] never faults.  For a canonical address it answers
    exactly what the processor checks on a user-mode read: the present and the user bit
    at every level.  For any other address, which the processor refuses, it answers what it
    answers for the canonical address with the same low 48 bits.  When it says yes the
    address's path leads to a page; and right after a page is mapped without [PTE_USER]
    it says no. *)
Theorem user_accessible_exact st T va phys flags :
  paging_wf st T → 0 ≤ phys < 2 ^ 52 → 0 ≤ flags < 4096 → not_direct st T va →
  (3 < length (free_frames (pg_pfa st)))%nat →
  (canonical va → paging_is_user_accessible va st = Ok (cpu_user_access (pg_mem st) (cr3 st) va)) ∧
  (¬ canonical va →
     cpu_user_access (pg_mem st) (cr3 st) va = false ∧ canonical (sign_extended va) ∧
     paging_is_user_accessible va st = Ok (cpu_user_access (pg_mem st) (cr3 st) (sign_extended va))) ∧
  (paging_is_user_accessible va st = Ok true → is_Some (translate (pg_mem st) (cr3 st) va)) ∧
  (flag flags PTE_USER = false →
     ∃ st', paging_map_page va phys flags st = Ok st' ∧ paging_is_user_accessible va st' = Ok false).
Proof.
  intros Hwf Hp Hf Hnd Hfree. pose proof (is_user_accessible_spec st T va Hwf) as Hspec.
  split_and!.
  - intros Hc%canonicalb_spec. rewrite Hspec. unfold cpu_user_access. by rewrite Hc.
  - intros Hc. destruct (sign_extended_spec va) as [Hs Hp4]. rewrite Hspec. unfold cpu_user_access.
    rewrite (proj2 (canonicalb_spec _) Hs), Hp4. split_and!; [|done|done].
    destruct (canonicalb va) eqn:Hb; [|done]. by apply canonicalb_spec in Hb.
  - rewrite Hspec. intros H%Ok_inj%user_path_walk.
    rewrite <- (walk_page_tables _ _ T (pw_tables _ _ Hwf)) in H. by apply fmap_is_Some.
  - intros Hu.
    destruct (map_page_succeeds st T va phys flags)
      as (st' & T' & E & Hwf' & _ & _ & _ & _ & t & Ht & Hrd); [done..|].
    exists st'. split; [done|]. rewrite (is_user_accessible_spec st' T' va Hwf').
    unfold path4. rewrite (user_path_app _ _ _ _ _ Ht). cbn [user_path].
    rewrite Hrd, flag_user_entry, Hu, andb_false_r. by rewrite andb_false_r.
Qed.

Lemma user_accessible_exact_witness :
  ∃ st', paging_map_page 0x400000 0x7000 3 demo_paging = Ok st' ∧
    paging_is_user_accessible 0x400000 st' = Ok false.
Proof.
  apply (user_accessible_exact demo_paging demo_tables 0x400000 0x7000 3);
    [apply demo_paging_wf|lia|lia|apply (user_not_direct _ _ _ demo_paging_wf); lia
    |rewrite demo_free; vm_compute; lia|reflexivity].
Defined.

(** C15. [paging_create_address_space] gives a root table in which every address of
    the kernel half translates as in the kernel's own address space and no
    address of the user half translates; the current address space and the
    invariant are untouched and one frame is used. *)
Theorem create_address_space_kernel_half st T g l :
  paging_wf st T → free_frames (pg_pfa st) = g :: l →
  kernel_pml4 st = phys_to_virt (root_of (cr3 st)) →
  ∃ st', paging_create_address_space st = Ok (g * PAGE_SIZE, st') ∧ paging_wf st' T ∧
    free_frames (pg_pfa st') = l ∧
    (∀ va, 2 ^ 64 - 2 ^ 47 ≤ va < 2 ^ 64 →
       translate (pg_mem st') (g * PAGE_SIZE) va = translate (pg_mem st) (cr3 st) va) ∧
    (∀ va, 0 ≤ va < 2 ^ 47 → translate (pg_mem st') (g * PAGE_SIZE) va = None) ∧
    (∀ va, translate (pg_mem st') (cr3 st') va = translate (pg_mem st) (cr3 st) va).
Proof.
  intros Hwf Hf Hk. destruct (create_address_space_spec st T g l Hwf Hf Hk)
    as (st' & E & Hwf' & (_ & _ & Hw) & Hl & Hn).
  assert (Hroot : root_of (g * PAGE_SIZE) = g * 4096).
  { unfold root_of. rewrite mask_page_eq. change PAGE_SIZE with 4096. rewrite Z.mod_mul; lia. }
  assert (Hidx : ∀ va, PML4_IDX va = va / 2 ^ 39 mod 512).
  { intros va. unfold PML4_IDX. rewrite idx_eq, Z.shiftr_div_pow2 by lia. done. }
  exists st'. split_and!; [done..| | |].
  - intros va Hva. unfold translate. rewrite Hroot, Hn, decide_True; [done|]. rewrite Hidx. zdm.
  - intros va Hva. unfold translate. rewrite Hroot, Hn, decide_False; [done|]. rewrite Hidx. zdm.
  - intros va. unfold translate. by rewrite Hw.
Qed.

Lemma create_address_space_kernel_half_witness :
  ∃ st', paging_create_address_space demo_paging = Ok (5 * PAGE_SIZE, st') ∧
    translate (pg_mem st') (5 * PAGE_SIZE) 0xFFFFFFFF80007008 = Some 0x7008.
Proof.
  destruct (create_address_space_kernel_half demo_paging demo_tables 5 (seqZ 6 10))
    as (st' & E & _ & _ & Hk & _ & _);
    [apply demo_paging_wf|vm_compute; reflexivity|vm_compute; reflexivity|].
  exists st'. split; [exact E|]. rewrite Hk by lia. vm_compute. reflexivity.
Defined.
End Paging.
