(* ===== verification/PagingInit.v ===== *)
(** * The first page tables (paging_init of kernel/arch/x86_64/paging.cpp)

    The boot code (boot/boot.asm) enters the kernel with three tables of its
    own: a root, one directory pointer table used for both halves, and one
    directory of 512 large pages, so that the first gigabyte is mapped at 0 and
    at [KERNEL_VIRT_OFFSET].  Under them [paging_init] builds the tables of the
    kernel in fresh frames, writing through the map of the boot tables, and
    loads the new root.

    [init_establishes] is what [Paging] assumes of its states: afterwards
    [paging_wf] holds, and an address translates exactly when it is below 512
    MiB or in the direct map of the first 512 MiB. *)

From S2P Require Import Prelude Pfa Paging.

Module PagingInit.
Import Pfa Paging.

Definition set_cr3 (c : Z) (st : paging) : paging :=
  mk_paging (pg_pfa st) (pg_mem st) c (kernel_pml4 st) (mapped_pages st).
Definition set_kernel_pml4 (p : Z) (st : paging) : paging :=
  mk_paging (pg_pfa st) (pg_mem st) (cr3 st) p (mapped_pages st).

(** [PTE_PRESENT | PTE_RW]. *)
Definition PTE_KERNEL : Z := Z.lor PTE_PRESENT PTE_RW.

(** [*pte = v] for a pointer of [get_pte]; [nullptr] is the address 0, which the
    boot tables map. *)
Definition store_pte (pte : option Z) (v : Z) (st : paging) : outcome paging :=
  vstore (match pte with Some p => p | None => 0 end) v st.

(** One entry of the kernel's tables: [pte = get_pte(kernel_pml4, virt, true, ...);
    *pte = p | PTE_PRESENT | PTE_RW]. *)
Definition enter_page (virt p : Z) (st : paging) : outcome paging :=
  '(pte, st1) ← get_pte (kernel_pml4 st) virt true PTE_KERNEL st;
  store_pte pte (Z.lor (Z.lor p PTE_PRESENT) PTE_RW) st1.

(** The body of the first loop: a page at its own address and in the direct map. *)
Definition map_low_page (p : Z) (st : paging) : outcome paging :=
  st1 ← enter_page p p st;
  enter_page (phys_to_virt p) p st1.

Definition LOW_PAGES : nat := Z.to_nat (512 * 1024 * 1024 / PAGE_SIZE).
Definition FIRST_MB_PAGES : nat := Z.to_nat (1024 * 1024 / PAGE_SIZE).

Definition paging_init (st : paging) : outcome paging :=
  '(new_pml4_phys, st1) ← pfa_alloc_frame st;
  let st2 := set_kernel_pml4 (phys_to_virt new_pml4_phys) st1 in
  st3 ← memset_page0 (kernel_pml4 st2) st2;
  st4 ← for_range (λ i st, map_low_page (i * PAGE_SIZE) st) LOW_PAGES 0 st3;
  st5 ← for_range (λ i st,
          paging_map_page (u64 (0xffffffffc0000000 + i * PAGE_SIZE)) (i * PAGE_SIZE) PTE_KERNEL st)
        FIRST_MB_PAGES 0 st4;
  let vga_phys := 0xB8000 in
  let vga_virt := 0xffffffff800b8000 in
  st6 ← enter_page vga_virt vga_phys st5;
  Ok (set_cr3 new_pml4_phys st6).

(** ** The boot tables *)

(** What boot/boot.asm leaves: [b4], [b3] and [b2] are the physical addresses of
    [pml4_table], [pdpt_table] and [pd_table]. *)
Record boot_tables (m : gmap Z Z) (b4 b3 b2 : Z) : Prop := {
  bt_pml4 : rd m b4 = Z.lor b3 3 ∧ rd m (b4 + 8 * 511) = Z.lor b3 3;
  bt_pdpt : rd m b3 = Z.lor b2 3 ∧ rd m (b3 + 8 * 510) = Z.lor b2 3;
  bt_pd : ∀ k, is_idx k → rd m (b2 + 8 * k) = Z.lor (0x200000 * k) 0x83;
  bt_rest : ∀ i, is_idx i → i ≠ 0 → i ≠ 510 → rd m (b3 + 8 * i) = 0
}.

(** A frame below 1 GiB, where the boot tables map it. *)
Definition low_frame (f : Z) : Prop := f mod 4096 = 0 ∧ 0 ≤ f < 2 ^ 30.

Lemma low_frame_31 f : low_frame f → f mod 4096 = 0 ∧ 0 ≤ f < 2 ^ 31.
Proof. intros []. lia. Qed.

(** ** Entries and indices *)

Lemma table_entry f b : low_frame f → 0 ≤ b < 4096 →
  entry_addr (Z.lor f b) = f ∧ mask_low (Z.lor f b) 0xFFF = f ∧
  (∀ j, 0 ≤ j < 12 → Z.testbit (Z.lor f b) j = Z.testbit b j).
Proof.
  intros [Ha Hf] Hb. rewrite entry_addr_lor, mask_page_lor, entry_addr_eq, mask_page_eq by lia.
  split_and!; [zdm|lia|]. intros j Hj. rewrite Z.lor_spec, (aligned_low_bit f) by done. done.
Qed.

Lemma flag_bits e : flag e PTE_PRESENT = Z.testbit e 0 ∧ flag e PTE_RW = Z.testbit e 1 ∧
  flag e PTE_PS = Z.testbit e 7.
Proof. split_and!; [apply (bit_test_spec e 0)|apply (bit_test_spec e 1)|apply (bit_test_spec e 7)]; lia. Qed.

(** The indices of an address by division. *)
Lemma idx_div va :
  PML4_IDX va = va / 2 ^ 39 mod 512 ∧ PDPT_IDX va = va / 2 ^ 30 mod 512 ∧
  PD_IDX va = va / 2 ^ 21 mod 512 ∧ PT_IDX va = va / 2 ^ 12 mod 512.
Proof.
  unfold PML4_IDX, PDPT_IDX, PD_IDX, PT_IDX. rewrite !idx_eq, !Z.shiftr_div_pow2 by lia. done.
Qed.

(** The page number of an address, as the tables see it. *)
Definition page_no (va : Z) : Z := va / 4096 mod 2 ^ 36.

Lemma idx_period y d j : 0 < d → (y + j * 512 * d) / d mod 512 = y / d mod 512.
Proof. intros. rewrite Z.div_add by lia. apply Z.mod_add. lia. Qed.

Lemma path4_page_no va va' : path4 va = path4 va' ↔ page_no va = page_no va'.
Proof.
  split; [apply path4_inj|]. unfold page_no, path4, path3.
  destruct (idx_div va) as (-> & -> & -> & ->), (idx_div va') as (-> & -> & -> & ->).
  intros H. assert (∃ k r, va = va' - r + k * 2 ^ 48 + va mod 4096 ∧ r = va' mod 4096) as (k & r & E & Hr).
  { exists (va / 2 ^ 48 - va' / 2 ^ 48), (va' mod 4096). split; [|done]. revert H.
    change (2 ^ 48) with 281474976710656. change (2 ^ 36) with 68719476736. intros H. zdm. }
  assert (Hq : va / 4096 = va' / 4096 + k * 2 ^ 36).
  { change (2 ^ 36) with 68719476736. change (2 ^ 48) with 281474976710656 in E. zdm. }
  assert (Hd : ∀ j, 0 ≤ j ≤ 27 → va / 2 ^ (12 + j) mod 512 = va' / 2 ^ (12 + j) mod 512).
  { intros j Hj. rewrite !(Z.pow_add_r 2 12 j) by lia. change (2 ^ 12) with 4096.
    rewrite <- !Z.div_div by lia. rewrite Hq.
    replace (k * 2 ^ 36) with (k * 2 ^ (27 - j) * 512 * 2 ^ j).
    - apply idx_period. lia.
    - change 512 with (2 ^ 9). rewrite <- !Z.mul_assoc, <- !Z.pow_add_r by lia. do 2 f_equal. lia. }
  cbn [app]. f_equal; [apply (Hd 27); lia|]. f_equal; [apply (Hd 18); lia|].
  f_equal; [apply (Hd 9); lia|]. f_equal. apply (Hd 0). lia.
Qed.

Lemma kernel_phys f : 0 ≤ f < 2 ^ 31 → phys_to_virt f = KERNEL_VIRT_OFFSET + f.
Proof. intros. unfold phys_to_virt, KERNEL_VIRT_OFFSET. rewrite wrap_small by lia. lia. Qed.

(** Paths of the identity and the direct map. *)
Lemma low_path f : 0 ≤ f < 2 ^ 30 →
  path3 f = [0; 0; f / 2 ^ 21] ∧ path3 (phys_to_virt f) = [511; 510; f / 2 ^ 21] ∧
  PT_IDX f = f / 4096 mod 512 ∧ PT_IDX (phys_to_virt f) = f / 4096 mod 512.
Proof.
  intros Hf. rewrite kernel_phys by lia. unfold KERNEL_VIRT_OFFSET, path3.
  destruct (idx_div f) as (-> & -> & -> & ->).
  destruct (idx_div (0xFFFFFFFF80000000 + f)) as (-> & -> & -> & ->).
  split_and!; [repeat f_equal; zdm|repeat f_equal; zdm|zdm|zdm].
Qed.

(** [f] is a page table of the tree of [root], at any level. *)
Definition is_table (m : gmap Z Z) (root f : Z) : Prop :=
  ∃ p, Forall is_idx p ∧ walk_tables m root p = Some f ∧ (length p ≤ 3)%nat.

(** ** Access through the boot tables *)

Section boot.
Context (b4 b3 b2 : Z).
Hypothesis Hb4 : low_frame b4.
Hypothesis Hb3 : low_frame b3.
Hypothesis Hb2 : low_frame b2.

(** The words of the boot tables behind the direct map. *)
Record boot_core (m : gmap Z Z) : Prop := {
  bc_b4 : rd m (b4 + 8 * 511) = Z.lor b3 3;
  bc_b3 : rd m (b3 + 8 * 510) = Z.lor b2 3;
  bc_b2 : ∀ k, is_idx k → rd m (b2 + 8 * k) = Z.lor (0x200000 * k) 0x83
}.

Lemma boot_tables_core m : boot_tables m b4 b3 b2 → boot_core m.
Proof. intros [[_ ?] [_ ?] ? _]. by constructor. Qed.

Definition boot_frame (f : Z) : Prop := f = b4 ∨ f = b3 ∨ f = b2.

Lemma boot_core_frame m m' :
  boot_core m → (∀ f i, boot_frame f → is_idx i → rd m' (f + 8 * i) = rd m (f + 8 * i)) → boot_core m'.
Proof.
  unfold boot_frame, is_idx. intros [H1 H2 H3] Heq. constructor.
  - rewrite Heq; [done|auto|lia].
  - rewrite Heq; [done|auto|lia].
  - intros k Hk. rewrite Heq; auto.
Qed.

(** Stores to a slot that the boot map does not depend on. *)
Definition safe_slot (a : Z) : Prop := ∀ m v, boot_core m → boot_core (<[a := v]> m).

Lemma safe_other f i : f mod 4096 = 0 → ¬ boot_frame f → is_idx i → safe_slot (f + 8 * i).
Proof.
  intros Ha Hf Hi m v Hm. apply (boot_core_frame m); [done|]. intros g j Hg Hj.
  apply rd_insert_ne. intros E. apply slot_inj in E as [-> _]; try done.
  destruct Hg as [-> | [-> | ->]]; [apply Hb4|apply Hb3|apply Hb2].
Qed.

(** The boot map: the first gigabyte at [KERNEL_VIRT_OFFSET]. *)
Lemma boot_walk m f : boot_core m → low_frame f → walk_page m b4 (phys_to_virt f) = Some f.
Proof.
  intros [H1 H2 H3] [Ha Hf]. destruct (low_path f Hf) as (_ & Hp & _ & Hi).
  unfold path3 in Hp. injection Hp as P1 P2 P3. unfold walk_page. rewrite P1, P2, P3, Hi, H1.
  destruct (table_entry b3 3 Hb3 ltac:(lia)) as (E1 & _ & B1).
  destruct (table_entry b2 3 Hb2 ltac:(lia)) as (E2 & _ & B2).
  assert (Hk : is_idx (f / 2 ^ 21)) by (unfold is_idx; zdm).
  destruct (flag_bits (Z.lor b3 3)) as (-> & _ & _). rewrite B1, E1 by lia. cbn [Z.testbit negb].
  rewrite H2. destruct (flag_bits (Z.lor b2 3)) as (-> & _ & ->). rewrite !B2, E2 by lia.
  cbn [Z.testbit Pos.testbit negb]. rewrite H3 by done.
  destruct (flag_bits (Z.lor (0x200000 * (f / 2 ^ 21)) 0x83)) as (-> & _ & ->).
  assert (Hl : low_frame (0x200000 * (f / 2 ^ 21))) by (unfold low_frame; zdm).
  destruct (table_entry _ 0x83 Hl ltac:(lia)) as (E3 & _ & B3). rewrite !B3, E3 by lia.
  change (Z.testbit 0x83 0) with true. change (Z.testbit 0x83 7) with true. cbn [negb].
  f_equal. zdm.
Qed.

(** A state in which the boot tables are loaded. *)
Record booted (st : paging) : Prop := {
  bo_cr3 : root_of (cr3 st) = b4;
  bo_core : boot_core (pg_mem st)
}.

Lemma boot_reach st f : booted st → low_frame f → reach st f.
Proof. intros [Hc Hm] Hf. unfold reach. rewrite Hc. by apply boot_walk. Qed.

Lemma boot_load st f i : booted st → low_frame f → is_idx i →
  vload st (u64 (phys_to_virt f + 8 * i)) = Ok (rd (pg_mem st) (f + 8 * i)).
Proof.
  intros Hb Hf Hi. destruct (low_frame_31 f Hf). apply direct_vload; try done. by apply boot_reach.
Qed.

Lemma boot_store st f i v : booted st → low_frame f → is_idx i →
  vstore (u64 (phys_to_virt f + 8 * i)) v st = Ok (set_mem (<[f + 8 * i := v]> (pg_mem st)) st).
Proof.
  intros Hb Hf Hi. destruct (low_frame_31 f Hf). apply direct_vstore; try done. by apply boot_reach.
Qed.

Lemma booted_store st a v : booted st → safe_slot a → booted (set_mem (<[a := v]> (pg_mem st)) st).
Proof. intros [Hc Hm] Hs. constructor; [done|]. by apply Hs. Qed.

(** [g] is zero in [m'] and everything else is as in [m]. *)
Definition cleared (m m' : gmap Z Z) (g : Z) : Prop :=
  (∀ i, is_idx i → rd m' (g + 8 * i) = 0) ∧
  (∀ a, (∀ i, is_idx i → a ≠ g + 8 * i) → rd m' a = rd m a).

Lemma cleared_other m m' g f i : cleared m m' g → f mod 4096 = 0 → g mod 4096 = 0 → f ≠ g →
  is_idx i → rd m' (f + 8 * i) = rd m (f + 8 * i).
Proof.
  intros [_ Ho] Hf Hg Hne Hi. apply Ho. intros j Hj E. by apply slot_inj in E as [-> _].
Qed.

Lemma cleared_core m m' g :
  boot_core m → low_frame g → ¬ boot_frame g → cleared m m' g → boot_core m'.
Proof.
  intros Hm [Hg _] Hn Hc. apply (boot_core_frame m); [done|]. intros f i Hf Hi.
  apply (cleared_other m m' g); try done.
  - destruct Hf as [-> | [-> | ->]]; [apply Hb4|apply Hb3|apply Hb2].
  - by intros ->.
Qed.

(** Clearing a frame through the boot map. *)
Lemma boot_memset st g : booted st → low_frame g → ¬ boot_frame g →
  ∃ m', memset_page0 (phys_to_virt g) st = Ok (set_mem m' st) ∧
    cleared (pg_mem st) m' g ∧ boot_core m'.
Proof.
  intros Hb Hg Hn. unfold memset_page0.
  destruct (for_range_rule
    (λ n t, ∃ m', t = set_mem m' st ∧ boot_core m' ∧ (∀ i, 0 ≤ i < n → rd m' (g + 8 * i) = 0) ∧
       (∀ a, (∀ i, 0 ≤ i < n → a ≠ g + 8 * i) → rd m' a = rd (pg_mem st) a))
    (λ i st, vstore (u64 (phys_to_virt g + 8 * i)) 0 st) 512 0 st)
    as (s' & -> & m' & -> & Hm & Hz & Ho).
  - exists (pg_mem st). split_and!; [by destruct st|apply Hb|intros; lia|done].
  - intros n t Hn' (m' & -> & Hm & Hz & Ho).
    assert (Hi : is_idx n) by (unfold is_idx; lia).
    eexists. split; [apply boot_store; [by constructor; [apply Hb|]|done|done]|].
    eexists. split; [reflexivity|]. cbn [pg_mem set_mem]. split_and!.
    + by apply (safe_other g n (proj1 Hg)).
    + intros i Hi'. destruct (decide (i = n)) as [->|]; [apply rd_insert_eq|].
      rewrite rd_insert_ne by lia. apply Hz. lia.
    + intros a Hne. rewrite rd_insert_ne; [|intros E; apply (Hne n); lia].
      apply Ho. intros i Hi'. apply Hne. lia.
  - exists m'. split; [done|]. split; [split|done].
    + intros i Hi. apply Hz. unfold is_idx in Hi. lia.
    + intros a Hne. apply Ho. intros i Hi. apply Hne. unfold is_idx. lia.
Qed.

(** The frames that may be taken for tables. *)
Definition spare (st : paging) : Prop :=
  ∀ g, g ∈ free_frames (pg_pfa st) → 0 < g ∧ g * 4096 < 2 ^ 29 ∧ ¬ boot_frame (g * 4096).

Lemma spare_frame st g : spare st → g ∈ free_frames (pg_pfa st) →
  low_frame (g * 4096) ∧ ¬ boot_frame (g * 4096) ∧ g * 4096 ≠ 0.
Proof. intros Hs Hg. destruct (Hs g Hg) as (? & ? & ?). unfold low_frame. rewrite Z.mod_mul by lia. split_and!; done || lia. Qed.

Lemma boot_alloc st g l : booted st → pfa_wf (pg_pfa st) → spare st →
  free_frames (pg_pfa st) = g :: l →
  ∃ m' p, pfa_alloc_frame st = Ok (g * 4096, set_mem m' (set_pfa p st)) ∧ pfa_wf p ∧
    free_frames p = l ∧ cleared (pg_mem st) m' (g * 4096) ∧ boot_core m'.
Proof.
  intros Hb Hp Hs Ef. unfold pfa_alloc_frame.
  destruct (pfa_claim_spec (pg_pfa st) Hp) as (r & p & -> & Hp' & _ & Hr). run. rewrite Ef in Hr.
  destruct Hr as [-> Hl]. destruct (spare_frame st g Hs) as (Hg & Hn & _); [rewrite Ef; by left|].
  change PAGE_SIZE with 4096. destruct Hg as [Ha Hr]. rewrite wrap_small by lia.
  destruct (boot_memset (set_pfa p st) (g * 4096)) as (m' & -> & Hc & Hm); [|done|done|].
  { constructor; apply Hb. }
  run. exists m', p. split_and!; done.
Qed.

(** ** One level of [get_pte] *)

Lemma flag_kernel_user : flag PTE_KERNEL PTE_USER = false.
Proof. reflexivity. Qed.
Lemma flag_kernel_rw : flag PTE_KERNEL PTE_RW = true.
Proof. reflexivity. Qed.

Lemma lor_rw_id e : flag e PTE_RW = true → Z.lor e PTE_RW = e.
Proof.
  destruct (flag_bits e) as (_ & -> & _). intros H. apply Z.bits_inj'. intros j Hj.
  rewrite Z.lor_spec. change PTE_RW with (bit 1). rewrite bit_spec by lia.
  case_bool_decide; subst; [by rewrite H|apply orb_false_r].
Qed.

(** A present, writable entry is left as it is. *)
Lemma level_present st f i nf : booted st → low_frame f → is_idx i →
  let e := rd (pg_mem st) (f + 8 * i) in
  flag e PTE_PRESENT = true → flag e PTE_RW = true → mask_low e 0xFFF = nf →
  get_pte_level true PTE_KERNEL (phys_to_virt f) i st = Ok (Some (phys_to_virt nf), st).
Proof.
  intros Hb Hf Hi e Hp Hw Hnf. unfold get_pte_level. cbv zeta.
  rewrite (boot_load st f i) by done. run. fold e. rewrite Hp, flag_kernel_user, flag_kernel_rw.
  cbn [negb]. run. rewrite (boot_load st f i) by done. run. fold e.
  rewrite (boot_store st f i) by done. run. rewrite lor_rw_id by done.
  assert (Hid : <[f + 8 * i := e]> (pg_mem st) = pg_mem st).
  { apply insert_id. revert Hp. unfold e, rd. by destruct (pg_mem st !! (f + 8 * i)). }
  rewrite Hid. replace (set_mem (pg_mem st) st) with st by by destruct st.
  rewrite (boot_load st f i) by done. run. fold e. by rewrite Hnf.
Qed.

(** The entry [get_pte] makes for a new table. *)
Definition link_entry (nf : Z) : Z :=
  Z.lor (Z.lor (Z.lor nf PTE_PRESENT) PTE_RW) (Z.land PTE_KERNEL PTE_USER).

Lemma link_entry_spec nf : low_frame nf →
  flag (link_entry nf) PTE_PRESENT = true ∧ flag (link_entry nf) PTE_RW = true ∧
  flag (link_entry nf) PTE_PS = false ∧ entry_addr (link_entry nf) = nf ∧
  mask_low (link_entry nf) 0xFFF = nf.
Proof.
  intros Hf. unfold link_entry. change (Z.land PTE_KERNEL PTE_USER) with 0. rewrite Z.lor_0_r.
  rewrite <- Z.lor_assoc. change (Z.lor PTE_PRESENT PTE_RW) with 3.
  destruct (table_entry nf 3 Hf ltac:(lia)) as (E & M & B).
  destruct (flag_bits (Z.lor nf 3)) as (-> & -> & ->). by rewrite !B by lia.
Qed.

(** An absent entry gets a fresh, empty table. *)
Lemma level_absent st f i g l : booted st → low_frame f → is_idx i → pfa_wf (pg_pfa st) → spare st →
  free_frames (pg_pfa st) = g :: l → safe_slot (f + 8 * i) → f ≠ g * 4096 →
  flag (rd (pg_mem st) (f + 8 * i)) PTE_PRESENT = false →
  ∃ m' p, get_pte_level true PTE_KERNEL (phys_to_virt f) i st =
      Ok (Some (phys_to_virt (g * 4096)),
          set_mem (<[f + 8 * i := link_entry (g * 4096)]> m') (set_pfa p st)) ∧
    pfa_wf p ∧ free_frames p = l ∧ cleared (pg_mem st) m' (g * 4096) ∧ boot_core m'.
Proof.
  intros Hb Hf Hi Hp Hs Ef Hsafe Hne Habs. unfold get_pte_level. cbv zeta.
  rewrite (boot_load st f i) by done. run. rewrite Habs. cbn [negb].
  destruct (boot_alloc st g l) as (m' & p & -> & Hp' & Hl & Hc & Hm); try done. run.
  destruct (spare_frame st g Hs) as (Hg & _ & Hz); [rewrite Ef; by left|].
  rewrite (proj2 (Z.eqb_neq _ 0)) by done. fold (link_entry (g * 4096)).
  assert (Hb1 : booted (set_mem m' (set_pfa p st))) by (constructor; [apply Hb|done]).
  rewrite (boot_store _ f i) by done. run.
  rewrite (boot_load _ f i) by (try done; by apply (booted_store _ _ _ Hb1)). run.
  cbn [pg_mem set_mem]. rewrite rd_insert_eq.
  destruct (link_entry_spec (g * 4096) Hg) as (_ & _ & _ & _ & ->).
  exists m', p. split_and!; done.
Qed.

(** ** The tree under construction *)

(** [root] is the new root table, [T] its tree; [low] the word of the boot
    tables that the mapping of the first megabyte goes through. *)
Record building (low : Z) (st : paging) (root : Z) (T : gmap Z (list Z)) : Prop := {
  bd_boot : booted st;
  bd_low : rd (pg_mem st) (b3 + 8 * 511) = low;
  bd_root : kernel_pml4 st = phys_to_virt root;
  bd_tables : tables_wf (pg_mem st) root T;
  bd_pfa : pfa_wf (pg_pfa st);
  bd_spare : spare st;
  bd_T : ∀ f p, T !! f = Some p →
    (f / 4096 ∉ free_frames (pg_pfa st)) ∧ f < 2 ^ 29 ∧ ¬ boot_frame f;
  bd_rw : ∀ f p i, T !! f = Some p → (length p < 3)%nat → is_idx i →
    flag (rd (pg_mem st) (f + 8 * i)) PTE_PRESENT = true →
    flag (rd (pg_mem st) (f + 8 * i)) PTE_RW = true;
  bd_reach : ∀ f p, T !! f = Some p → Forall is_idx p ∧ walk_tables (pg_mem st) root p = Some f
}.

Lemma building_frame low st root T f p : building low st root T → T !! f = Some p →
  low_frame f ∧ ¬ boot_frame f ∧ (f / 4096 ∉ free_frames (pg_pfa st)) ∧ (length p ≤ 3)%nat.
Proof.
  intros B Hf. destruct (tw_frame _ _ _ (bd_tables _ _ _ _ B) _ _ Hf) as (Ha & Hr & Hl).
  destruct (bd_T _ _ _ _ B _ _ Hf) as (? & ? & ?). unfold low_frame. split_and!; done || lia.
Qed.

(** Words of the boot tables keep their values under a store to another frame. *)
Lemma low_word m f i v : f mod 4096 = 0 → ¬ boot_frame f → is_idx i →
  rd (<[f + 8 * i := v]> m) (b3 + 8 * 511) = rd m (b3 + 8 * 511).
Proof.
  intros Ha Hf Hi. apply rd_insert_ne. intros E. apply slot_inj in E as [-> _]; try done.
  - apply Hf. unfold boot_frame. auto.
  - apply Hb3.
Qed.

(** How many levels below the table [t] are missing for [idxs]. *)
Fixpoint missing (m : gmap Z Z) (t : Z) (idxs : list Z) : nat :=
  match idxs with
  | [] => 0%nat
  | i :: rest =>
      let e := rd m (t + 8 * i) in
      if flag e PTE_PRESENT then missing m (entry_addr e) rest else length idxs
  end.

Lemma missing_le m t idxs : (missing m t idxs ≤ length idxs)%nat.
Proof.
  revert t. induction idxs as [|i idxs IH]; intros t; cbn; [lia|].
  destruct (flag _ _); [|lia]. etransitivity; [apply IH|lia].
Qed.

Lemma missing_walk m t l1 l2 :
  is_Some (walk_tables m t l1) → (missing m t (l1 ++ l2) ≤ length l2)%nat.
Proof.
  revert t. induction l1 as [|i l1 IH]; intros t; cbn [walk_tables app missing]; [intros; apply missing_le|].
  destruct (flag _ _); [apply IH|]. intros [? [=]].
Qed.

(** Filling an absent entry keeps the walks that succeed. *)
Lemma walk_tables_fill m a v t idxs f :
  flag (rd m a) PTE_PRESENT = false → walk_tables m t idxs = Some f →
  walk_tables (<[a := v]> m) t idxs = Some f.
Proof.
  intros Ha. revert t. induction idxs as [|i idxs IH]; intros t; cbn [walk_tables]; [done|].
  destruct (flag (rd m (t + 8 * i)) PTE_PRESENT) eqn:E; [|done].
  rewrite rd_insert_ne by (intros ->; congruence). rewrite E. apply IH.
Qed.

(** One missing level. *)
Lemma build_absent low st root T f0 p0 i0 g l :
  building low st root T → Forall is_idx (p0 ++ [i0]) → (length p0 < 3)%nat →
  walk_tables (pg_mem st) root p0 = Some f0 →
  flag (rd (pg_mem st) (f0 + 8 * i0)) PTE_PRESENT = false → free_frames (pg_pfa st) = g :: l →
  ∃ st', get_pte_level true PTE_KERNEL (phys_to_virt f0) i0 st =
      Ok (Some (phys_to_virt (g * 4096)), st') ∧
    building low st' root (<[g * 4096 := p0 ++ [i0]]> T) ∧ free_frames (pg_pfa st') = l ∧
    walk_tables (pg_mem st') root (p0 ++ [i0]) = Some (g * 4096) ∧
    (∀ i, is_idx i → rd (pg_mem st') (g * 4096 + 8 * i) = 0) ∧
    ∀ va, walk_tables (pg_mem st') root (path4 va) = walk_tables (pg_mem st) root (path4 va).
Proof.
  intros B Hidx Hlen Hw Habs Ef. pose proof (bd_tables _ _ _ _ B) as HT.
  assert (HT0 : T !! f0 = Some p0) by (eapply (upd_T _ _ _ HT f0 p0 i0); done || lia).
  destruct (building_frame _ _ _ _ _ _ B HT0) as (Hf0 & Hn0 & Hu0 & _).
  assert (Hi0 : is_idx i0) by by eapply upd_idx.
  assert (Hg0 : g ∈ free_frames (pg_pfa st)) by (rewrite Ef; by left).
  destruct (spare_frame st g (bd_spare _ _ _ _ B) Hg0) as (Hg & Hng & _).
  assert (Hne : f0 ≠ g * 4096) by (intros ->; apply Hu0; by rewrite Z.div_mul).
  assert (Hfresh : T !! (g * 4096) = None).
  { destruct (T !! (g * 4096)) as [q|] eqn:E; [|done].
    destruct (building_frame _ _ _ _ _ _ B E) as (_ & _ & Hu & _). rewrite Z.div_mul in Hu; done || lia. }
  destruct (level_absent st f0 i0 g l (bd_boot _ _ _ _ B) Hf0 Hi0 (bd_pfa _ _ _ _ B) (bd_spare _ _ _ _ B) Ef)
    as (m' & p & E & Hp & Hl & Hc & Hm); [by apply safe_other; [apply Hf0| |]|done..|].
  rewrite E. eexists. split; [reflexivity|]. cbn [pg_mem set_mem set_pfa pg_pfa].
  assert (Hag : tables_agree (pg_mem st) T m').
  { intros f q i Hf Hi. destruct (building_frame _ _ _ _ _ _ B Hf) as (Hlf & _).
    apply (cleared_other _ _ (g * 4096)); try done; [apply Hlf|apply Hg|congruence]. }
  pose proof (tables_wf_agree _ _ _ HT m' Hag) as HT'.
  assert (Hsame : ∀ idxs, Forall is_idx idxs → (length idxs ≤ 4)%nat →
    walk_tables m' root idxs = walk_tables (pg_mem st) root idxs).
  { intros idxs Hi Hli. eapply (walk_tables_agree _ _ _ HT m' idxs root []); [done|apply HT|done|cbn; lia]. }
  assert (Hw' : walk_tables m' root p0 = Some f0).
  { rewrite Hsame; [done|by apply Forall_app in Hidx as [? _]|lia]. }
  assert (Habs' : flag (rd m' (f0 + 8 * i0)) PTE_PRESENT = false) by by rewrite (Hag f0 p0).
  destruct (link_entry_spec (g * 4096) Hg) as (V1 & V2 & V3 & V4 & V5).
  assert (Hnf : g * 4096 mod 4096 = 0 ∧ 0 ≤ g * 4096 < 2 ^ 31) by (destruct Hg; lia).
  set (v := link_entry (g * 4096)) in *.
  pose proof (tables_wf_link m' root T HT' f0 p0 i0 v Hidx Hw' (g * 4096) Hlen Hfresh Hnf (proj1 Hc)
    (conj V1 (conj V3 (conj V4 V5)))) as HT2.
  assert (Hz : ∀ i, is_idx i → rd (<[f0 + 8 * i0 := v]> m') (g * 4096 + 8 * i) = 0).
  { intros i Hi. apply (link_zero m' root T HT' f0 p0 i0 v Hidx Hw' (g * 4096) Hlen Hfresh Hnf (proj1 Hc)); done. }
  split_and!; [|done| |done|].
  - constructor; cbn [pg_mem set_mem set_pfa pg_pfa cr3 kernel_pml4].
    + constructor; [apply B|]. by apply safe_other; [apply Hf0| |..].
    + rewrite low_word by (done || apply Hf0). rewrite <- (bd_low _ _ _ _ B).
      apply (cleared_other _ _ (g * 4096)); [done|apply Hb3|apply Hg| |unfold is_idx; lia].
      intros Hb. apply Hng. rewrite <- Hb. unfold boot_frame. auto.
    + apply B.
    + done.
    + done.
    + intros x Hx. apply B. rewrite Ef. right. by rewrite <- Hl.
    + intros f q [[<- <-]|[Hnf' Hf]]%lookup_insert_Some.
      * rewrite Z.div_mul by lia. rewrite Hl. split_and!; [|by apply (bd_spare _ _ _ _ B)|done].
        pose proof (free_frames_NoDup (pg_pfa st)) as Hnd. rewrite Ef in Hnd.
        by apply NoDup_cons in Hnd as [? _].
      * destruct (bd_T _ _ _ _ B f q Hf) as (Hu & ? & ?). split_and!; [|done..].
        intros Hin. apply Hu. rewrite Ef. right. by rewrite <- Hl.
    + intros f q i [[<- <-]|[_ Hf]]%lookup_insert_Some Hq Hi.
      * rewrite Hz by done. done.
      * destruct (building_frame _ _ _ _ _ _ B Hf) as (Hlf & _).
        destruct (decide (f0 + 8 * i0 = f + 8 * i)) as [->|Hd]; [by rewrite rd_insert_eq|].
        rewrite rd_insert_ne, (Hag f q) by done. by apply (bd_rw _ _ _ _ B f q).
    + intros f q [[<- <-]|[_ Hf]]%lookup_insert_Some.
      * split; [done|]. rewrite walk_tables_app.
        rewrite (walk_tables_fill m' _ _ _ _ _ Habs' Hw'). cbn [mbind option_bind walk_tables].
        by rewrite rd_insert_eq, V1, V4.
      * destruct (bd_reach _ _ _ _ B f q Hf) as [Hq Hwq]. split; [done|].
        destruct (building_frame _ _ _ _ _ _ B Hf) as (_ & _ & _ & Hlq).
        apply walk_tables_fill; [done|]. rewrite Hsame; [done|done|lia].
  - rewrite walk_tables_app. rewrite (upd_prefix m' root T HT' f0 p0 i0 v Hidx Hw') by lia.
    cbn [mbind option_bind walk_tables]. by rewrite rd_insert_eq, V1, V4.
  - intros va. rewrite <- Hsame by (apply path4_idx || reflexivity).
    apply (walk_link m' root T HT' f0 p0 i0 v Hidx Hw' (g * 4096)); try done; [apply Hc|apply path4_idx].
Qed.

(** The new tables of [T'] are the frames [gs]. *)
Definition grown (gs : list Z) (T T' : gmap Z (list Z)) : Prop :=
  ∀ f, is_Some (T' !! f) ↔ is_Some (T !! f) ∨ ∃ g, g ∈ gs ∧ f = g * 4096.

Lemma tables_grown_refl T : grown [] T T.
Proof. intros f. split; [auto|]. intros [H|(g & Hg & _)]; [done|]. by apply elem_of_nil in Hg. Qed.

Lemma grown_cons g p gs T T' : grown gs (<[g * 4096 := p]> T) T' → grown (g :: gs) T T'.
Proof.
  intros H f. rewrite (H f). destruct (decide (f = g * 4096)) as [->|Hne].
  - rewrite lookup_insert_eq. split; [|by left].
    intros _. right. exists g. split; [by left|done].
  - rewrite lookup_insert_ne by done. split.
    + intros [?|(x & ? & ?)]; [by left|]. right. exists x. split; [by right|done].
    + intros [?|(x & [->|Hx]%elem_of_cons & ->)]; [by left|done|]. right. eauto.
Qed.

Lemma tables_grown_trans gs1 gs2 T1 T2 T3 : grown gs1 T1 T2 → grown gs2 T2 T3 → grown (gs1 ++ gs2) T1 T3.
Proof.
  intros H1 H2 f. rewrite (H2 f), (H1 f). split.
  - intros [[?|(x & ? & ?)]|(x & ? & ?)]; [by left|right; exists x; split; [set_solver|done]..].
  - intros [?|(x & [?|?]%elem_of_app & ?)]; [by left; left|left; right; eauto|right; eauto].
Qed.

(** The descent to the leaf table: it takes one frame per missing level. *)
Lemma build_loop low idxs st root T f0 p0 :
  building low st root T → Forall is_idx (p0 ++ idxs) → (length p0 + length idxs ≤ 3)%nat →
  walk_tables (pg_mem st) root p0 = Some f0 →
  (missing (pg_mem st) f0 idxs ≤ length (free_frames (pg_pfa st)))%nat →
  ∃ t st' T', get_pte_loop true PTE_KERNEL idxs (phys_to_virt f0) st = Ok (Some (phys_to_virt t), st') ∧
    building low st' root T' ∧ walk_tables (pg_mem st') root (p0 ++ idxs) = Some t ∧
    free_frames (pg_pfa st') = drop (missing (pg_mem st) f0 idxs) (free_frames (pg_pfa st)) ∧
    grown (take (missing (pg_mem st) f0 idxs) (free_frames (pg_pfa st))) T T' ∧
    ∀ va, walk_tables (pg_mem st') root (path4 va) = walk_tables (pg_mem st) root (path4 va).
Proof.
  revert st T f0 p0. induction idxs as [|i idxs IH]; intros st T f0 p0 B Hidx Hlen Hw Hfree.
  { exists f0, st, T. rewrite app_nil_r. split_and!; try done. apply tables_grown_refl. }
  cbn [length] in Hlen. rewrite (cons_middle i), app_assoc in Hidx.
  assert (Hidx0 : Forall is_idx (p0 ++ [i])) by by apply Forall_app in Hidx as [? _].
  assert (HT0 : T !! f0 = Some p0) by (eapply (upd_T _ _ _ (bd_tables _ _ _ _ B) f0 p0 i); done || lia).
  destruct (building_frame _ _ _ _ _ _ B HT0) as (Hf0 & _ & _ & _).
  assert (Hi : is_idx i) by by eapply upd_idx.
  cbn [get_pte_loop missing] in *.
  destruct (flag (rd (pg_mem st) (f0 + 8 * i)) PTE_PRESENT) eqn:Ep.
  - destruct (tw_child _ _ _ (bd_tables _ _ _ _ B) f0 p0 i HT0) as (_ & Hm & _); [lia|done..|].
    rewrite (level_present st f0 i _ (bd_boot _ _ _ _ B) Hf0 Hi Ep
      (bd_rw _ _ _ _ B f0 p0 i HT0 ltac:(lia) Hi Ep) Hm). run.
    destruct (IH st T (entry_addr (rd (pg_mem st) (f0 + 8 * i))) (p0 ++ [i]) B)
      as (t & st' & T' & E & B' & Hw' & Hfr & Hgr & Hsame); try done.
    + rewrite length_app. cbn. lia.
    + rewrite walk_tables_app, Hw. cbn [mbind option_bind walk_tables]. by rewrite Ep.
    + exists t, st', T'. rewrite <- app_assoc in Hw'. done.
  - destruct (free_frames (pg_pfa st)) as [|g l] eqn:Ef; [cbn in Hfree; lia|].
    destruct (build_absent low st root T f0 p0 i g l) as (s1 & -> & B1 & Hl & Hw1 & Hz & Hsame1);
      [done..|lia|done|done|done|]. run.
    assert (Hmiss : missing (pg_mem s1) (g * 4096) idxs = length idxs).
    { destruct idxs as [|j idxs]; [done|]. cbn [missing].
      rewrite Hz; [done|]. apply Forall_app in Hidx as [_ Hj]. by apply Forall_cons in Hj as [? _]. }
    destruct (IH s1 _ (g * 4096) (p0 ++ [i]) B1) as (t & st' & T' & E & B' & Hw' & Hfr & Hgr & Hsame); try done.
    + rewrite length_app. cbn. lia.
    + rewrite Hmiss, Hl. cbn in Hfree. lia.
    + exists t, st', T'. rewrite <- app_assoc in Hw'. split_and!; [done..| | |].
      * rewrite Hfr, Hmiss, Hl. done.
      * rewrite Hmiss, Hl in Hgr. cbn [length take]. by apply (grown_cons g (p0 ++ [i])).
      * intros va. by rewrite Hsame, Hsame1.
Qed.

(** Storing a leaf entry of the new tree. *)
Lemma build_store low st root T va t v :
  building low st root T → walk_tables (pg_mem st) root (path3 va) = Some t →
  let st' := set_mem (<[t + 8 * PT_IDX va := v]> (pg_mem st)) st in
  vstore (u64 (phys_to_virt t + 8 * PT_IDX va)) v st = Ok st' ∧ building low st' root T ∧
  ∀ va', walk_tables (pg_mem st') root (path4 va') =
    if decide (path4 va' = path4 va)
    then (if flag v PTE_PRESENT then Some (entry_addr v) else None)
    else walk_tables (pg_mem st) root (path4 va').
Proof.
  intros B Hw st'. pose proof (bd_tables _ _ _ _ B) as HT.
  pose proof (path4_idx va) as Hidx. unfold path4 in Hidx.
  assert (HT0 : T !! t = Some (path3 va)).
  { eapply (upd_T _ _ _ HT t (path3 va) (PT_IDX va)); [done|done|]. reflexivity. }
  destruct (building_frame _ _ _ _ _ _ B HT0) as (Ht & Hn & _).
  assert (Hi : is_idx (PT_IDX va)) by by eapply upd_idx.
  split; [by apply boot_store; [apply B| |]|]. split.
  - destruct B as [B1 B2 B3 B4 B5 B6 B7 B8 B9]. constructor; try done.
    + by apply (booted_store st _ v B1), safe_other; [apply Ht| |].
    + cbn [pg_mem set_mem st']. rewrite low_word; [done|apply Ht|done|done].
    + by apply (tables_wf_leaf_upd _ _ T HT t (path3 va) (PT_IDX va) v Hidx Hw eq_refl).
    + intros f q i Hf Hq Hi'. cbn [pg_mem set_mem st'].
      destruct (tw_frame _ _ _ HT _ _ Hf) as (Ha & _).
      rewrite rd_insert_ne; [by apply (B8 f q)|]. intros E.
      apply slot_inj in E as [<- _]; [|apply Ht|done..]. rewrite HT0 in Hf. injection Hf as <-.
        unfold path3 in Hq. cbn in Hq. lia.
    + intros f q Hf. destruct (B9 f q Hf) as [Hq Hwq]. split; [done|]. rewrite <- Hwq.
      apply (walk_tables_upd _ _ T HT t (path3 va) (PT_IDX va) v q root []); [done|done|apply HT|done|..].
      * destruct (tw_frame _ _ _ HT _ _ Hf) as (_ & _ & ?). cbn. lia.
      * intros l1 l2 -> E. destruct (tw_frame _ _ _ HT _ _ Hf) as (_ & _ & Hl).
        cbn [app] in E. rewrite E, length_app in Hl. unfold path3 in Hl. cbn in Hl. lia.
  - intros va'. apply (walk_leaf_upd _ _ T HT t (path3 va) (PT_IDX va) v Hidx Hw (path4 va') eq_refl);
      [apply path4_idx|reflexivity].
Qed.

(** One entry of the new tables. *)
Lemma enter_page_spec low st root T va p :
  building low st root T → low_frame p →
  (missing (pg_mem st) root (path3 va) ≤ length (free_frames (pg_pfa st)))%nat →
  ∃ st' T', enter_page va p st = Ok st' ∧ building low st' root T' ∧
    free_frames (pg_pfa st') = drop (missing (pg_mem st) root (path3 va)) (free_frames (pg_pfa st)) ∧
    grown (take (missing (pg_mem st) root (path3 va)) (free_frames (pg_pfa st))) T T' ∧
    ∀ va', walk_tables (pg_mem st') root (path4 va') =
      if decide (page_no va' = page_no va) then Some p else walk_tables (pg_mem st) root (path4 va').
Proof.
  intros B Hp Hfree. unfold enter_page, get_pte. rewrite (bd_root _ _ _ _ B). fold (path3 va).
  assert (Hi : Forall is_idx (path3 va)).
  { pose proof (path4_idx va) as Hi. unfold path4 in Hi. by apply Forall_app in Hi as [? _]. }
  destruct (build_loop low (path3 va) st root T root [] B) as (t & s1 & T1 & -> & B1 & Hw & Hfr & Hgr & Hsame);
    [done|unfold path3; cbn; lia|done|done|]. run. unfold store_pte.
  destruct (build_store low s1 root T1 va t (Z.lor (Z.lor p PTE_PRESENT) PTE_RW) B1 Hw)
    as (E & B2 & Hupd). rewrite E.
  eexists _, T1. split; [reflexivity|]. split; [exact B2|]. split; [exact Hfr|]. split; [exact Hgr|].
  intros va'. rewrite Hupd. rewrite <- Z.lor_assoc. change (Z.lor PTE_PRESENT PTE_RW) with 3.
  destruct (table_entry p 3 Hp ltac:(lia)) as (-> & _ & Hb).
  destruct (flag_bits (Z.lor p 3)) as (-> & _ & _). rewrite Hb by lia. change (Z.testbit 3 0) with true.
  destruct (path4_page_no va' va) as [H1 H2].
  destruct (decide (path4 va' = path4 va)); destruct (decide (page_no va' = page_no va)); try done.
  - by destruct (H1 e).
  - by destruct (H2 e).
Qed.

(** ** The first loop *)

(** Page number of [KERNEL_VIRT_OFFSET]. *)
Definition DIRECT_PAGE : Z := 2 ^ 36 - 2 ^ 19.

(** The translation after the first [n] pages. *)
Definition low_map (n va : Z) : option Z :=
  let q := page_no va in
  if decide (q < n) then Some (q * 4096)
  else if decide (DIRECT_PAGE ≤ q < DIRECT_PAGE + n) then Some ((q - DIRECT_PAGE) * 4096)
  else None.

(** The tables that they take, the root apart. *)
Definition tables_for (n : Z) : Z := if decide (n = 0) then 0 else 4 + 2 * ((n + 511) / 512).

Lemma page_no_range va : 0 ≤ page_no va < 2 ^ 36.
Proof. apply Z.mod_pos_bound. lia. Qed.

Lemma page_no_low n : 0 ≤ n < 2 ^ 19 →
  page_no (n * 4096) = n ∧ page_no (phys_to_virt (n * 4096)) = DIRECT_PAGE + n.
Proof.
  intros Hn. rewrite kernel_phys by lia. unfold page_no, KERNEL_VIRT_OFFSET, DIRECT_PAGE.
  change (2 ^ 36) with 68719476736. change (2 ^ 19) with 524288. split; zdm.
Qed.

Lemma missing_same m root va va' :
  is_Some (walk_tables m root (path4 va')) → path3 va = path3 va' →
  missing m root (path3 va) = 0%nat.
Proof.
  intros Hw ->. unfold path4 in Hw. rewrite walk_tables_app in Hw.
  assert (H3 : is_Some (walk_tables m root (path3 va'))).
  { destruct (walk_tables m root (path3 va')); [by eexists|]. by destruct Hw. }
  pose proof (missing_walk m root (path3 va') [] H3) as Hm. rewrite app_nil_r in Hm. cbn in Hm. lia.
Qed.

Lemma missing_directory m root va va' a b :
  is_Some (walk_tables m root (path4 va')) →
  (∃ c, path3 va = [a; b; c]) → (∃ c, path3 va' = [a; b; c]) → (missing m root (path3 va) ≤ 1)%nat.
Proof.
  intros Hw (c & ->) (c' & Hc). unfold path4 in Hw. rewrite Hc in Hw.
  apply (missing_walk m root [a; b] [c]).
  change ([a; b; c'] ++ [PT_IDX va']) with ([a; b] ++ [c'; PT_IDX va']) in Hw.
  rewrite walk_tables_app in Hw.
  destruct (walk_tables m root [a; b]); [by eexists|]. by destruct Hw.
Qed.

(** The frames a page needs: three tables for the first, one when a directory
    entry is new, none within a table. *)
Definition new_tables (n : Z) : Z := if decide (n = 0) then 3 else if decide (n mod 512 = 0) then 1 else 0.

Lemma missing_page m root n (addr : Z → Z) a b :
  0 ≤ n < 2 ^ 17 → (∀ f, 0 ≤ f < 2 ^ 30 → path3 (addr f) = [a; b; f / 2 ^ 21]) →
  (0 < n → is_Some (walk_tables m root (path4 (addr ((n - 1) * 4096))))) →
  Z.of_nat (missing m root (path3 (addr (n * 4096)))) ≤ new_tables n.
Proof.
  intros Hn Hp Hw. unfold new_tables. case_decide as H0.
  { pose proof (missing_le m root (path3 (addr (n * 4096)))) as H. rewrite Hp in H at 2 by lia. cbn in H. lia. }
  specialize (Hw ltac:(lia)). case_decide as H1.
  - apply (Nat2Z.inj_le _ 1).
    apply (missing_directory m root _ _ a b Hw); eexists; apply Hp; lia.
  - rewrite (missing_same m root _ _ Hw); [done|]. rewrite !Hp by lia. do 3 f_equal. zdm.
Qed.

Lemma tables_for_step n : 0 ≤ n → tables_for n + 2 * new_tables n ≤ tables_for (n + 1).
Proof.
  intros Hn. unfold tables_for, new_tables. repeat case_decide; subst; try lia; zdm.
Qed.

Lemma tables_for_bound n : 0 ≤ n ≤ 2 ^ 17 → tables_for n ≤ 516.
Proof. intros Hn. unfold tables_for. case_decide; zdm. Qed.

(** The state after [n] pages. *)
Definition low_done (root low : Z) (fr : list Z) (n : Z) (s : paging) : Prop :=
  ∃ T k, building low s root T ∧ free_frames (pg_pfa s) = drop k fr ∧ Z.of_nat k ≤ tables_for n ∧
    grown (take k fr) {[root := []]} T ∧
    ∀ va, walk_tables (pg_mem s) root (path4 va) = low_map n va.

Lemma low_page_step root low fr n s :
  0 ≤ n < 2 ^ 17 → 516 ≤ Z.of_nat (length fr) → low_done root low fr n s →
  ∃ s', map_low_page (n * PAGE_SIZE) s = Ok s' ∧ low_done root low fr (n + 1) s'.
Proof.
  intros Hn Hfr (T & k & B & Ef & Hk & Hg & Hw). change PAGE_SIZE with 4096.
  pose proof (tables_for_step n ltac:(lia)) as Hstep.
  pose proof (tables_for_bound (n + 1) ltac:(lia)) as Hbound.
  assert (Hnt : 0 ≤ new_tables n) by (unfold new_tables; repeat case_decide; lia).
  assert (Hlow : low_frame (n * 4096)) by (unfold low_frame; rewrite Z.mod_mul; lia).
  destruct (page_no_low n ltac:(lia)) as [Q1 Q2].
  assert (Hprev : 0 < n → page_no ((n - 1) * 4096) = n - 1 ∧
    page_no (phys_to_virt ((n - 1) * 4096)) = DIRECT_PAGE + (n - 1)) by (intros; apply page_no_low; lia).
  unfold map_low_page.
  assert (H1 : Z.of_nat (missing (pg_mem s) root (path3 (n * 4096))) ≤ new_tables n).
  { apply (missing_page _ _ n (λ f, f) 0 0 Hn); [intros f Hf; apply (low_path f Hf)|].
    intros H0. rewrite Hw. destruct (Hprev H0) as [E _]. unfold low_map. rewrite E, decide_True by lia. eauto. }
  destruct (enter_page_spec low s root T (n * 4096) (n * 4096) B Hlow) as (s1 & T1 & -> & B1 & Ef1 & Hg1 & Hw1).
  { rewrite Ef, length_drop. lia. }
  run.
  assert (H2 : Z.of_nat (missing (pg_mem s1) root (path3 (phys_to_virt (n * 4096)))) ≤ new_tables n).
  { apply (missing_page _ _ n phys_to_virt 511 510 Hn); [intros f Hf; apply (low_path f Hf)|].
    intros H0. rewrite Hw1, Hw. destruct (Hprev H0) as [_ E]. rewrite E, Q1.
    unfold DIRECT_PAGE in *. rewrite decide_False by lia. unfold low_map. rewrite E.
    unfold DIRECT_PAGE. rewrite decide_False, decide_True by lia. eauto. }
  destruct (enter_page_spec low s1 root T1 (phys_to_virt (n * 4096)) (n * 4096) B1 Hlow)
    as (s2 & T2 & -> & B2 & Ef2 & Hg2 & Hw2).
  { rewrite Ef1, Ef, !length_drop. lia. }
  exists s2. split; [done|]. eexists T2, _. split; [exact B2|]. split.
  { rewrite Ef2, Ef1, Ef, !drop_drop. reflexivity. }
  split; [lia|]. split.
  { rewrite Ef1 in Hg2. rewrite Ef in Hg1, Hg2. rewrite <- !take_take_drop.
    apply (tables_grown_trans _ _ _ T); [done|]. by apply (tables_grown_trans _ _ _ T1). }
  intros va. rewrite Hw2, Hw1, Hw, Q1, Q2. pose proof (page_no_range va). unfold low_map, DIRECT_PAGE in *.
  repeat case_decide; try done; try lia; f_equal; lia.
Qed.

Lemma low_pages_done root low fr s :
  516 ≤ Z.of_nat (length fr) → low_done root low fr 0 s →
  ∃ s', for_range (λ i st, map_low_page (i * PAGE_SIZE) st) LOW_PAGES 0 s = Ok s' ∧
    low_done root low fr (2 ^ 17) s'.
Proof.
  intros Hfr H0.
  assert (Hn : Z.of_nat LOW_PAGES = 2 ^ 17) by (unfold LOW_PAGES; rewrite Z2Nat.id; done).
  destruct (for_range_rule (low_done root low fr) (λ i st, map_low_page (i * PAGE_SIZE) st) LOW_PAGES 0 s H0)
    as (s' & E & H).
  { intros j t Hj Ht. apply low_page_step; [lia|done|done]. }
  rewrite Hn, Z.add_0_l in H. eauto.
Qed.

(** ** The first megabyte, through the boot tables *)

Hypothesis Hne43 : b4 ≠ b3.
Hypothesis Hne23 : b2 ≠ b3.

Lemma safe_low : safe_slot (b3 + 8 * 511).
Proof.
  intros m v [H1 H2 H3]. destruct Hb4 as [A4 _], Hb3 as [A3 _], Hb2 as [A2 _]. constructor.
  - rewrite rd_insert_ne; [done|]. intros E.
    apply slot_inj in E as [E _]; [by symmetry in E|done|done|unfold is_idx; lia..].
  - rewrite rd_insert_ne; [done|]. lia.
  - intros k Hk. rewrite rd_insert_ne; [by apply H3|]. intros E.
    apply slot_inj in E as [E _]; [by symmetry in E|done|done|unfold is_idx; lia|done].
Qed.

(** The new tree does not notice what happens in frames of its own. *)
Lemma building_agree low st root T st' :
  building low st root T → booted st' → kernel_pml4 st' = kernel_pml4 st → pfa_wf (pg_pfa st') →
  (∀ g, g ∈ free_frames (pg_pfa st') → g ∈ free_frames (pg_pfa st)) →
  tables_agree (pg_mem st) T (pg_mem st') →
  building (rd (pg_mem st') (b3 + 8 * 511)) st' root T ∧
  ∀ va, walk_tables (pg_mem st') root (path4 va) = walk_tables (pg_mem st) root (path4 va).
Proof.
  intros B Hb Hk Hp Hsub Hag. pose proof (bd_tables _ _ _ _ B) as HT. split.
  - constructor; try done.
    + rewrite Hk. apply B.
    + by apply (tables_wf_agree _ _ _ HT).
    + intros g Hg. by apply B, Hsub.
    + intros f p Hf. destruct (bd_T _ _ _ _ B f p Hf) as (Hu & ? & ?). split_and!; [|done..].
      intros Hin. by apply Hu, Hsub.
    + intros f p i Hf Hp' Hi. rewrite (Hag f p i Hf Hi). by apply (bd_rw _ _ _ _ B f p).
    + intros f p Hf. destruct (bd_reach _ _ _ _ B f p Hf) as [Hi Hw]. split; [done|]. rewrite <- Hw.
      destruct (tw_frame _ _ _ HT _ _ Hf) as (_ & _ & ?).
      apply (walk_tables_agree _ _ _ HT _ _ _ []); [done|apply HT|done|cbn; lia].
  - intros va. apply (walk_tables_agree _ _ _ HT _ _ _ []); [done|apply HT|apply path4_idx|reflexivity].
Qed.

(** Addresses of the first megabyte at [0xffffffffc0000000]. *)
Definition mb_virt (i : Z) : Z := u64 (0xffffffffc0000000 + i * PAGE_SIZE).

Lemma mb_path i : 0 ≤ i < 256 → path3 (mb_virt i) = [511; 511; 0] ∧ PT_IDX (mb_virt i) = i.
Proof.
  intros Hi. unfold mb_virt, path3. change PAGE_SIZE with 4096. rewrite wrap_small by lia.
  destruct (idx_div (0xffffffffc0000000 + i * 4096)) as (-> & -> & -> & ->).
  split; [repeat f_equal; zdm|zdm].
Qed.

(** A frame of the boot side: not a boot table, not in the new tree. *)
Definition aside (T : gmap Z (list Z)) (f : Z) : Prop :=
  low_frame f ∧ ¬ boot_frame f ∧ T !! f = None.

(** [b3[511]] leads to [d], whose first entry leads to [t]. *)
Record chain (st : paging) (root : Z) (T : gmap Z (list Z)) (d t : Z) : Prop := {
  ch_build : building (link_entry d) st root T;
  ch_d : aside T d;
  ch_t : aside T t;
  ch_ne : d ≠ t;
  ch_entry : rd (pg_mem st) (d + 8 * 0) = link_entry t
}.

Lemma pml4_level st : booted st →
  get_pte_level true PTE_KERNEL (phys_to_virt b4) 511 st = Ok (Some (phys_to_virt b3), st).
Proof.
  intros Hb. destruct (table_entry b3 3 Hb3 ltac:(lia)) as (_ & Hm & Hbits).
  destruct (flag_bits (Z.lor b3 3)) as (F1 & F2 & _).
  apply level_present; rewrite ?(bc_b4 _ (bo_core _ Hb)); try done.
  - rewrite F1, Hbits by lia. done.
  - rewrite F2, Hbits by lia. done.
Qed.

Lemma current_root st : booted st → get_current_pml4_virt st = phys_to_virt b4.
Proof. intros Hb. unfold get_current_pml4_virt. fold (root_of (cr3 st)). by rewrite (bo_cr3 _ Hb). Qed.

Lemma chain_pte st root T d t i : chain st root T d t → 0 ≤ i < 256 →
  get_pte (get_current_pml4_virt st) (mb_virt i) true PTE_KERNEL st =
    Ok (Some (u64 (phys_to_virt t + 8 * i)), st).
Proof.
  intros [B (Hd & _) (Ht & _) _ He] Hi. pose proof (bd_boot _ _ _ _ B) as Hb.
  rewrite (current_root st Hb). destruct (mb_path i Hi) as [Hp Hpt].
  unfold path3 in Hp. injection Hp as P1 P2 P3. unfold get_pte. rewrite P1, P2, P3, Hpt.
  cbn [get_pte_loop]. rewrite (pml4_level st Hb). run.
  destruct (link_entry_spec d Hd) as (D1 & D2 & _ & _ & D3).
  destruct (link_entry_spec t Ht) as (E1 & E2 & _ & _ & E3).
  pose proof (bd_low _ _ _ _ B) as Hlow.
  assert (is_idx 511 ∧ is_idx 0) as [I511 I0] by (unfold is_idx; lia).
  rewrite (level_present st b3 511 d Hb Hb3 I511) by (by rewrite Hlow). run.
  rewrite (level_present st d 0 t Hb Hd I0) by (by rewrite He). run. done.
Qed.

Lemma chain_map st root T d t i : chain st root T d t → 0 ≤ i < 256 →
  ∃ st', (st2 ← vstore (u64 (phys_to_virt t + 8 * i))
            (Z.lor (Z.lor (mask_low (i * PAGE_SIZE) 0xFFF) PTE_KERNEL) PTE_PRESENT) st;
          Ok (set_mapped (u64 (mapped_pages st2 + 1)) st2)) = Ok st' ∧
    chain st' root T d t ∧ pg_pfa st' = pg_pfa st ∧
    ∀ va, walk_tables (pg_mem st') root (path4 va) = walk_tables (pg_mem st) root (path4 va).
Proof.
  intros [B Hd Ht Hne He] Hi. pose proof (bd_boot _ _ _ _ B) as Hb.
  destruct Ht as (Ht & Htb & HtT), Hd as (Hd & Hdb & HdT).
  assert (Hidx : is_idx i) by (unfold is_idx; lia).
  rewrite (boot_store st t i) by done. run. eexists. split; [reflexivity|].
  set (v := Z.lor _ PTE_PRESENT). set (st' := set_mapped _ _).
  assert (Hb' : booted st').
  { destruct (booted_store st (t + 8 * i) v Hb) as [H1 H2]; [by apply safe_other; [apply Ht| |]|]. by constructor. }
  destruct (building_agree (link_entry d) st root T st' B Hb') as [B' Hw']; try done.
  { apply B. }
  { intros f p j Hf Hj. destruct (building_frame _ _ _ _ _ _ B Hf) as (Hlf & _).
    cbn [st' pg_mem set_mapped set_mem]. apply rd_insert_ne. intros E.
    apply slot_inj in E as [-> _]; [congruence|apply Ht|apply Hlf|done..]. }
  assert (Hlow : rd (pg_mem st') (b3 + 8 * 511) = link_entry d).
  { rewrite <- (bd_low _ _ _ _ B). apply low_word; [apply Ht|done..]. }
  rewrite Hlow in B'. split_and!; [constructor|done..]; try done.
  rewrite <- He. cbn [st' pg_mem set_mapped set_mem]. apply rd_insert_ne. intros E.
  apply slot_inj in E as [E _]; [by symmetry in E|apply Ht|apply Hd|done|unfold is_idx; lia].
Qed.

(** The first page makes the two tables. *)
Lemma chain_create st root T g1 g2 l i : building 0 st root T → 0 ≤ i < 256 →
  free_frames (pg_pfa st) = g1 :: g2 :: l →
  ∃ st', get_pte (get_current_pml4_virt st) (mb_virt i) true PTE_KERNEL st =
      Ok (Some (u64 (phys_to_virt (g2 * 4096) + 8 * i)), st') ∧
    chain st' root T (g1 * 4096) (g2 * 4096) ∧ free_frames (pg_pfa st') = l ∧
    ∀ va, walk_tables (pg_mem st') root (path4 va) = walk_tables (pg_mem st) root (path4 va).
Proof.
  intros B Hi Ef. pose proof (bd_boot _ _ _ _ B) as Hb. pose proof (bd_spare _ _ _ _ B) as Hs.
  destruct (spare_frame st g1 Hs) as (Hg1 & Hn1 & _); [rewrite Ef; by left|].
  destruct (spare_frame st g2 Hs) as (Hg2 & Hn2 & _); [rewrite Ef; right; by left|].
  pose proof (free_frames_NoDup (pg_pfa st)) as Hnd. rewrite Ef in Hnd.
  apply NoDup_cons in Hnd as [Hnd _]. assert (Hg : g1 ≠ g2) by (intros ->; apply Hnd; by left).
  assert (HT : ∀ g, g ∈ free_frames (pg_pfa st) → T !! (g * 4096) = None).
  { intros g Hgf. destruct (T !! (g * 4096)) as [q|] eqn:E; [|done].
    destruct (building_frame _ _ _ _ _ _ B E) as (_ & _ & Hu & _). by rewrite Z.div_mul in Hu. }
  assert (T1 : T !! (g1 * 4096) = None) by (apply HT; rewrite Ef; by left).
  assert (T2 : T !! (g2 * 4096) = None) by (apply HT; rewrite Ef; right; by left).
  assert (Hnb3 : ∀ f, ¬ boot_frame f → b3 ≠ f) by (intros f Hf ->; apply Hf; unfold boot_frame; auto).
  assert (I511 : is_idx 511) by (unfold is_idx; lia). assert (I0 : is_idx 0) by (unfold is_idx; lia).
  rewrite (current_root st Hb). destruct (mb_path i Hi) as [Hp Hpt].
  unfold path3 in Hp. injection Hp as P1 P2 P3. unfold get_pte. rewrite P1, P2, P3, Hpt.
  cbn [get_pte_loop]. rewrite (pml4_level st Hb). run.
  destruct (level_absent st b3 511 g1 (g2 :: l) Hb Hb3 I511 (bd_pfa _ _ _ _ B) Hs Ef safe_low (Hnb3 _ Hn1))
    as (m1 & p1 & -> & Hp1 & Hl1 & Hc1 & Hm1); [by rewrite (bd_low _ _ _ _ B)|]. run.
  set (s1 := set_mem _ _).
  assert (Hb1 : booted s1) by (constructor; [apply Hb|by apply safe_low]).
  assert (Hs1 : spare s1) by (intros x Hx; apply Hs; rewrite Ef; right; by rewrite <- Hl1).
  destruct (level_absent s1 (g1 * 4096) 0 g2 l Hb1 Hg1 I0 Hp1 Hs1 Hl1)
    as (m2 & p2 & -> & Hp2 & Hl2 & Hc2 & Hm2); [by apply safe_other; [apply Hg1| |]|lia| |].
  { cbn [s1 pg_mem set_mem]. rewrite rd_insert_ne; [by rewrite (proj1 Hc1)|].
    intros E. apply slot_inj in E as [E _]; [by apply (Hnb3 _ Hn1)|apply Hb3|apply Hg1|done..]. }
  run. eexists. split; [reflexivity|]. set (s2 := set_mem _ _).
  assert (Hb2' : booted s2).
  { constructor; [apply Hb|]. apply (safe_other (g1 * 4096) 0); [apply Hg1|done..]. }
  assert (Hlow : rd (pg_mem s2) (b3 + 8 * 511) = link_entry (g1 * 4096)).
  { cbn [s2 pg_mem set_mem]. rewrite low_word by (done || apply Hg1).
    rewrite (cleared_other _ _ _ b3 511 Hc2) by (done || apply Hb3 || apply Hg2 || by apply Hnb3).
    apply rd_insert_eq. }
  destruct (building_agree 0 st root T s2 B Hb2') as [B' Hw']; try done.
  { intros x Hx. rewrite Ef. right; right. by rewrite <- Hl2. }
  { intros f p j Hf Hj. destruct (building_frame _ _ _ _ _ _ B Hf) as (Hlf & Hnf & _).
    cbn [s2 pg_mem set_mem]. rewrite rd_insert_ne.
    2:{ intros E. apply slot_inj in E as [E _]; [congruence|apply Hg1|apply Hlf|done..]. }
    rewrite (cleared_other _ _ _ f j Hc2) by (done || apply Hlf || apply Hg2 || congruence).
    cbn [s1 pg_mem set_mem]. rewrite rd_insert_ne.
    2:{ intros E. apply slot_inj in E as [E _]; [by apply (Hnb3 _ Hnf)|apply Hb3|apply Hlf|done..]. }
    apply (cleared_other _ _ _ f j Hc1); [apply Hlf|apply Hg1|congruence|done]. }
  rewrite Hlow in B'. split_and!; [constructor|done..]; try done.
  - lia.
  - apply rd_insert_eq.
Qed.

(** The state after [n] pages of the first megabyte. *)
Definition mb_done (root : Z) (T : gmap Z (list Z)) (fr : list Z) (w : Z → option Z) (n : Z)
  (s : paging) : Prop :=
  ∃ low, building low s root T ∧
    (∀ va, walk_tables (pg_mem s) root (path4 va) = w va) ∧
    if decide (n = 0) then low = 0 ∧ free_frames (pg_pfa s) = fr
    else free_frames (pg_pfa s) = drop 2 fr ∧ ∃ d t, chain s root T d t.

Lemma mb_page_step root T fr w n s :
  0 ≤ n < 256 → (2 ≤ length fr)%nat → mb_done root T fr w n s →
  ∃ s', paging_map_page (mb_virt n) (n * PAGE_SIZE) PTE_KERNEL s = Ok s' ∧ mb_done root T fr w (n + 1) s'.
Proof.
  intros Hn Hfr (low & B & Hw & Hcase). unfold paging_map_page.
  assert (Hch : ∃ s1 d t, get_pte (get_current_pml4_virt s) (mb_virt n) true PTE_KERNEL s =
      Ok (Some (u64 (phys_to_virt t + 8 * n)), s1) ∧ chain s1 root T d t ∧
    free_frames (pg_pfa s1) = drop 2 fr ∧
    ∀ va, walk_tables (pg_mem s1) root (path4 va) = walk_tables (pg_mem s) root (path4 va)).
  { case_decide as Hz.
    - destruct Hcase as [-> Ef]. destruct fr as [|g1 [|g2 l]]; [cbn in Hfr; lia..|].
      destruct (chain_create s root T g1 g2 l n B Hn Ef) as (s1 & E & Hc & Hl & Hs). eauto 8.
    - destruct Hcase as (Hf & d & t & Hc). exists s, d, t. by rewrite (chain_pte s root T d t n Hc Hn). }
  destruct Hch as (s1 & d & t & -> & Hc & Hf & Hs). run.
  destruct (chain_map s1 root T d t n Hc Hn) as (s2 & E & Hc2 & Hp & Hs2).
  exists s2. split; [exact E|]. exists (link_entry d). split; [apply Hc2|]. split.
  { intros va. by rewrite Hs2, Hs. }
  rewrite decide_False by lia. rewrite Hp. eauto.
Qed.

Lemma mb_pages_done root T fr w s :
  (2 ≤ length fr)%nat → mb_done root T fr w 0 s →
  ∃ s', for_range (λ i st, paging_map_page (u64 (0xffffffffc0000000 + i * PAGE_SIZE)) (i * PAGE_SIZE)
            PTE_KERNEL st) FIRST_MB_PAGES 0 s = Ok s' ∧ mb_done root T fr w 256 s'.
Proof.
  intros Hfr H0.
  destruct (for_range_rule (mb_done root T fr w)
    (λ i st, paging_map_page (mb_virt i) (i * PAGE_SIZE) PTE_KERNEL st) FIRST_MB_PAGES 0 s H0) as (s' & E & H).
  { intros j t Hj Ht. apply mb_page_step; [|done|done].
    change (Z.of_nat FIRST_MB_PAGES) with 256 in Hj. lia. }
  exists s'. split; [exact E|]. exact H.
Qed.

(** ** The whole of [paging_init] *)

#[local] Opaque LOW_PAGES FIRST_MB_PAGES.

Lemma start_building st g l : booted st → pfa_wf (pg_pfa st) → spare st →
  rd (pg_mem st) (b3 + 8 * 511) = 0 → free_frames (pg_pfa st) = g :: l →
  ∃ s1 s2, pfa_alloc_frame st = Ok (g * 4096, s1) ∧
    memset_page0 (phys_to_virt (g * 4096)) (set_kernel_pml4 (phys_to_virt (g * 4096)) s1) = Ok s2 ∧
    low_done (g * 4096) 0 l 0 s2.
Proof.
  intros Hb Hp Hs Hlow Ef.
  destruct (boot_alloc st g l Hb Hp Hs Ef) as (m1 & p & E & Hp' & Hl & Hc & Hm).
  destruct (spare_frame st g Hs) as (Hg & Hn & _); [rewrite Ef; by left|].
  assert (Hg29 : g * 4096 < 2 ^ 29) by (apply (Hs g); rewrite Ef; by left).
  set (s1 := set_mem m1 (set_pfa p st)) in *.
  destruct (boot_memset (set_kernel_pml4 (phys_to_virt (g * 4096)) s1) (g * 4096)) as (m2 & E2 & Hc2 & Hm2);
    [constructor; [apply Hb|done]|done|done|].
  eexists s1, _. split; [exact E|]. split; [exact E2|].
  pose proof (free_frames_NoDup (pg_pfa st)) as Hnd. rewrite Ef in Hnd. apply NoDup_cons in Hnd as [Hnd _].
  assert (Hz : ∀ i, is_idx i → flag (rd m2 (g * 4096 + 8 * i)) PTE_PRESENT = false).
  { intros i Hi. by rewrite (proj1 Hc2). }
  exists {[g * 4096 := []]}, 0%nat. split; [constructor|]; cbn [pg_mem set_mem set_pfa pg_pfa cr3 kernel_pml4 set_kernel_pml4 s1].
  - constructor; [apply Hb|done].
  - rewrite (cleared_other _ _ _ b3 511 Hc2), <- Hlow.
    2: apply Hb3. 2: apply Hg. 2: { intros E'. apply Hn. rewrite <- E'. unfold boot_frame. auto. } 2: by unfold is_idx.
    apply (cleared_other _ _ _ b3 511 Hc); [apply Hb3|apply Hg| |by unfold is_idx].
    intros E'. apply Hn. rewrite <- E'. unfold boot_frame. auto.
  - done.
  - constructor.
    + apply lookup_singleton_eq.
    + intros f q [<- <-]%lookup_singleton_Some. destruct Hg. split_and!; cbn; done || lia.
    + intros f q i [<- <-]%lookup_singleton_Some _ Hi. cbv zeta. by rewrite Hz.
  - done.
  - intros x Hx. apply Hs. rewrite Ef. right. by rewrite <- Hl.
  - intros f q [<- <-]%lookup_singleton_Some. rewrite Z.div_mul, Hl by lia. done.
  - intros f q i [<- <-]%lookup_singleton_Some _ Hi. by rewrite Hz.
  - by intros f q [<- <-]%lookup_singleton_Some.
  - split; [done|]. split; [done|]. split; [apply tables_grown_refl|]. intros va. unfold path4, path3. cbn [app walk_tables].
    rewrite Hz.
    + pose proof (page_no_range va). unfold low_map, DIRECT_PAGE. repeat case_decide; done || lia.
    + pose proof (path4_idx va) as Hi. unfold path4, path3 in Hi. by apply Forall_cons in Hi as [? _].
Qed.

(** The VGA page is in the direct map already. *)
Lemma vga_same low st root T :
  building low st root T → (∀ va, walk_tables (pg_mem st) root (path4 va) = low_map (2 ^ 17) va) →
  ∃ st' T', enter_page 0xffffffff800b8000 0xB8000 st = Ok st' ∧ building low st' root T' ∧
    free_frames (pg_pfa st') = free_frames (pg_pfa st) ∧ grown [] T T' ∧
    ∀ va, walk_tables (pg_mem st') root (path4 va) = low_map (2 ^ 17) va.
Proof.
  intros B Hw. assert (Hv : page_no 0xffffffff800b8000 = DIRECT_PAGE + 0xB8) by reflexivity.
  assert (Hl : low_map (2 ^ 17) 0xffffffff800b8000 = Some 0xB8000).
  { unfold low_map. rewrite Hv. reflexivity. }
  assert (Hm : missing (pg_mem st) root (path3 0xffffffff800b8000) = 0%nat).
  { apply (missing_same _ _ _ 0xffffffff800b8000); [|done]. rewrite Hw, Hl. eauto. }
  destruct (enter_page_spec low st root T 0xffffffff800b8000 0xB8000 B) as (st' & T' & E & B' & Ef & Hg & Hw').
  { by unfold low_frame. }
  { rewrite Hm. lia. }
  rewrite Hm in Ef, Hg. exists st', T'. split_and!; [done..|]. 
  intros va. rewrite Hw', Hw. case_decide as Hd; [|done]. rewrite <- Hl. unfold low_map. by rewrite Hd.
Qed.

(** The leaf table of the [j]-th 2 MiB. *)
Definition leaf (m : gmap Z Z) (root j : Z) : Z :=
  match walk_tables m root (path3 (j * 2 ^ 21)) with Some t => t | None => 0 end.

(** The tree has a leaf table for each 2 MiB, so it took that many frames. *)
Lemma tables_enough low st root T gs :
  building low st root T → (∀ va, walk_tables (pg_mem st) root (path4 va) = low_map (2 ^ 17) va) →
  grown gs {[root := []]} T → (256 ≤ length gs)%nat.
Proof.
  intros B Hw Hg. pose proof (bd_tables _ _ _ _ B) as HT.
  assert (Hleaf : ∀ j, 0 ≤ j < 256 → T !! leaf (pg_mem st) root j = Some [0; 0; j]).
  { intros j Hj. destruct (low_path (j * 2 ^ 21)) as (Hp & _); [lia|]. rewrite Z.div_mul in Hp by lia.
    pose proof (Hw (j * 2 ^ 21)) as Hj'. unfold path4 in Hj'. rewrite walk_tables_app in Hj'. unfold leaf.
    destruct (walk_tables (pg_mem st) root (path3 (j * 2 ^ 21))) as [t|] eqn:Et.
    - rewrite <- Hp. apply (walk_tables_T _ _ _ HT _ root []); [apply HT| |unfold path3; cbn; lia|done].
      pose proof (path4_idx (j * 2 ^ 21)) as Hi. unfold path4 in Hi. by apply Forall_app in Hi as [? _].
    - exfalso. destruct (page_no_low (j * 512)) as [Q _]; [lia|].
      replace (j * 512 * 4096) with (j * 2 ^ 21) in Q by lia.
      unfold low_map in Hj'. rewrite Q, decide_True in Hj' by lia. done. }
  set (ls := leaf (pg_mem st) root <$> seqZ 0 256).
  assert (Hnd : NoDup ls).
  { apply NoDup_fmap_2_strong; [|apply NoDup_seqZ]. intros x y Hx%elem_of_seqZ Hy%elem_of_seqZ Heq.
    pose proof (Hleaf x ltac:(lia)) as E1. pose proof (Hleaf y ltac:(lia)) as E2. rewrite Heq in E1. congruence. }
  assert (Hsub : ls ⊆ ((λ g, g * 4096) <$> gs)).
  { intros f (j & -> & Hj%elem_of_seqZ)%list_elem_of_fmap. pose proof (Hleaf j ltac:(lia)) as E.
    assert (is_Some (T !! leaf (pg_mem st) root j)) as [Hs|(x & Hx & ->)]%Hg by (rewrite E; eauto).
    - exfalso. destruct (decide (leaf (pg_mem st) root j = root)) as [Hr|Hr].
      + rewrite Hr, (tw_root _ _ _ HT) in E. done.
      + rewrite lookup_singleton_ne in Hs by done. by destruct Hs.
    - apply list_elem_of_fmap. eauto. }
  pose proof (submseteq_length _ _ (NoDup_submseteq _ _ Hnd Hsub)) as Hlen.
  unfold ls in Hlen. rewrite !length_fmap, length_seqZ in Hlen. lia.
Qed.

Lemma paging_init_spec st g l : booted st → pfa_wf (pg_pfa st) → spare st →
  rd (pg_mem st) (b3 + 8 * 511) = 0 → free_frames (pg_pfa st) = g :: l →
  518 ≤ Z.of_nat (length l) →
  ∃ st' T k, paging_init st = Ok st' ∧ paging_wf st' T ∧ cr3 st' = g * 4096 ∧
    kernel_pml4 st' = phys_to_virt (g * 4096) ∧
    free_frames (pg_pfa st') = drop k (free_frames (pg_pfa st)) ∧ (k ≤ 519)%nat ∧
    (∀ j x, free_frames (pg_pfa st) !! j = Some x → (j < 256)%nat →
       is_table (pg_mem st') (g * 4096) (x * 4096)) ∧
    ∀ va, walk_page (pg_mem st') (g * 4096) va = low_map (2 ^ 17) va.
Proof.
  intros Hb Hp Hs Hlow Ef Hl.
  destruct (start_building st g l Hb Hp Hs Hlow Ef) as (s1 & s2 & E1 & E2 & H0).
  unfold paging_init. rewrite (bind_of_Ok _ _ _ E1). cbv beta iota zeta. cbn [kernel_pml4 set_kernel_pml4].
  rewrite (bind_of_Ok _ _ _ E2).
  destruct (low_pages_done (g * 4096) 0 l s2 ltac:(lia) H0) as (s3 & E3 & T3 & k & B3 & Ef3 & Hk & Hg3 & Hw3).
  rewrite (bind_of_Ok _ _ _ E3). pose proof (tables_for_bound (2 ^ 17) ltac:(lia)) as Hk'.
  destruct (mb_pages_done (g * 4096) T3 (drop k l) (low_map (2 ^ 17)) s3) as (s4 & E4 & low & B4 & Hw4 & Hc).
  { rewrite length_drop. lia. }
  { exists 0. split; [done|]. split; [done|]. by rewrite decide_True by done. }
  rewrite (bind_of_Ok _ _ _ E4). rewrite decide_False in Hc by lia. destruct Hc as [Ef4 _].
  destruct (vga_same low s4 (g * 4096) T3 B4 Hw4) as (s5 & T5 & E5 & B5 & Ef5 & Hg5 & Hw5).
  cbv zeta. rewrite (bind_of_Ok _ _ _ E5). exists (set_cr3 (g * 4096) s5), T5, (S (2 + k)).
  assert (Hroot : root_of (g * 4096) = g * 4096).
  { unfold root_of. rewrite mask_page_eq, Z.mod_mul; lia. }
  pose proof (bd_tables _ _ _ _ B5) as HT.
  assert (Hwalk : ∀ va, walk_page (pg_mem s5) (g * 4096) va = low_map (2 ^ 17) va).
  { intros va. by rewrite (walk_page_tables _ _ _ HT). }
  assert (Hreach : ∀ f, f mod 4096 = 0 → 0 ≤ f < 2 ^ 29 → reach (set_cr3 (g * 4096) s5) f).
  { intros f Ha Hf. unfold reach. cbn [cr3 set_cr3 pg_mem]. rewrite Hroot, Hwalk.
    destruct (page_no_low (f / 4096)) as [_ Hq]; [zdm|].
    replace (f / 4096 * 4096) with f in Hq by zdm. unfold low_map. rewrite Hq. unfold DIRECT_PAGE.
    rewrite decide_False, decide_True by zdm. f_equal. zdm. }
  split; [done|]. split; [constructor; cbn [pg_mem set_cr3 pg_pfa cr3]|].
  - by rewrite Hroot.
  - apply B5.
  - intros f q Hf. apply (bd_T _ _ _ _ B5 f q Hf).
  - intros x Hx. destruct (bd_spare _ _ _ _ B5 x Hx) as (? & ? & _). lia.
  - intros f q Hf. destruct (tw_frame _ _ _ HT _ _ Hf) as (? & ? & _).
    destruct (bd_T _ _ _ _ B5 f q Hf) as (_ & ? & _). apply Hreach; [done|lia].
  - intros x Hx. destruct (bd_spare _ _ _ _ B5 x Hx) as (? & ? & _). apply Hreach; [by apply Z.mod_mul|lia].
  - split_and!; [done|apply B5| |lia| |done].
    + cbn [pg_pfa set_cr3]. rewrite Ef5, Ef4, Ef, drop_drop. cbn [drop]. f_equal. lia.
    + assert (Hgr : grown (take k l) {[g * 4096 := []]} T5).
      { rewrite <- (app_nil_r (take k l)). by apply (tables_grown_trans _ _ _ T3). }
      pose proof (tables_enough _ _ _ _ _ B5 Hw5 Hgr) as Hk256. rewrite length_take in Hk256.
      intros j x Hx Hj. rewrite Ef in Hx. cut (is_Some (T5 !! (x * 4096))).
      { intros [q Hq]. destruct (bd_reach _ _ _ _ B5 _ _ Hq) as [Hi Hwq]. exists q. split_and!; [done|done|].
        by destruct (tw_frame _ _ _ HT _ _ Hq) as (_ & _ & ?). }
      apply Hgr. destruct j as [|j]; cbn in Hx.
      * injection Hx as ->. left. rewrite lookup_singleton_eq. eauto.
      * right. exists x. split; [|done]. apply list_elem_of_lookup_2 with j. by rewrite lookup_take_lt by lia.
Qed.
End boot.

(** ** What [paging_init] establishes *)

(** What translates after [paging_init]: the first 512 MiB, at their own
    addresses and in the direct map. *)
Definition first_map (va : Z) : option Z :=
  if decide (0 ≤ va < 2 ^ 29) then Some va
  else if decide (KERNEL_VIRT_OFFSET ≤ va < KERNEL_VIRT_OFFSET + 2 ^ 29) then Some (va - KERNEL_VIRT_OFFSET)
  else None.

Lemma page_no_canonical va : canonical va →
  page_no va = if decide (va < 2 ^ 47) then va / 4096 else va / 4096 - (2 ^ 52 - 2 ^ 36).
Proof.
  unfold page_no. intros [H|H].
  - rewrite decide_True by lia. apply Z.mod_small. zdm.
  - rewrite decide_False by lia. symmetry. apply (Z.mod_unique _ _ (2 ^ 16 - 1)); [left; zdm|lia].
Qed.

Lemma first_map_low va : canonical va →
  (λ p, p + va mod 4096) <$> low_map (2 ^ 17) va = first_map va.
Proof.
  intros Hc. unfold low_map, first_map. rewrite (page_no_canonical va Hc).
  assert (Hdm : va = 4096 * (va / 4096) + va mod 4096) by (apply Z.div_mod; lia).
  pose proof (Z.mod_pos_bound va 4096 ltac:(lia)) as Hm.
  set (q := va / 4096) in *. set (o := va mod 4096) in *. clearbody q o.
  unfold DIRECT_PAGE, KERNEL_VIRT_OFFSET, canonical in *.
  destruct (decide (va < 2 ^ 47)).
  - rewrite (decide_False (P := 18446744071562067968 ≤ va < _)) by lia.
    destruct (decide (q < 2 ^ 17)).
    + rewrite decide_True by lia. cbn. f_equal. lia.
    + rewrite !decide_False by lia. done.
  - rewrite (decide_False (P := 0 ≤ va < _)) by lia. rewrite decide_False by lia.
    destruct (decide (2 ^ 64 - 2 ^ 31 ≤ va < 2 ^ 64 - 2 ^ 31 + 2 ^ 29)).
    + rewrite !decide_True by lia. cbn. f_equal. lia.
    + rewrite !decide_False by lia. done.
Qed.

(** The state in which [kernel_main] calls [paging_init]: the boot tables of an
    image between [ks] and [ke], and the allocator [p]. *)
Record boot_state (st : paging) (ks ke b4 b3 b2 : Z) (p : Pfa.pfa) : Prop := {
  bs_root : root_of (cr3 st) = b4;
  bs_tables : boot_tables (pg_mem st) b4 b3 b2;
  bs_image : ∀ b, b = b4 ∨ b = b3 ∨ b = b2 → low_frame b ∧ ks ≤ b < ke;
  bs_distinct : b4 ≠ b3 ∧ b2 ≠ b3;
  bs_pfa : pg_pfa st = p
}.

Lemma available_below tags e f : map_ok (all_entries tags) → e ∈ all_entries tags → in_entry e f →
  f * 4096 < mem_upper_of tags.
Proof.
  intros Hm He [Ht Hf]. destruct (mem_upper_bound tags) as [_ Hb]. specialize (Hb e He Ht).
  destruct (map_range _ Hm e He) as (? & ? & ?). rewrite wrap_small in Hb by lia.
  rewrite entry_end_eq in Hf by lia. change PAGE_SIZE with 4096 in *. zdm.
Qed.

(** With at most 512 MiB of memory and 519 frames free after
    [pfa_init_from_multiboot2], [paging_init] builds the kernel's page tables:
    it returns, takes at most 519 frames, the first of them for the root, and
    loads it, and makes a table of each of the first 256; the invariant of the page tables holds, so that every table and
    every free frame is in the direct map; and an address translates exactly
    when it is below 512 MiB or in the direct map of those 512 MiB. *)
Lemma init_establishes ks ke mb2 tags st b4 b3 b2 :
  0 ≤ ks ≤ ke → ke < 2 ^ 32 → 0 ≤ mb2 < 2 ^ 64 →
  map_ok (all_entries tags) → Forall tag_ok tags → mem_upper_of tags ≤ 2 ^ 29 →
  ∃ p, pfa_init_from_multiboot2 ks ke mb2 tags = Ok p ∧
    (boot_state st ks ke b4 b3 b2 p → (519 ≤ length (free_frames p))%nat →
     ∃ st' T k, paging_init st = Ok st' ∧ paging_wf st' T ∧
       head (free_frames p) = Some (cr3 st' / PAGE_SIZE) ∧
       kernel_pml4 st' = get_current_pml4_virt st' ∧
       free_frames (pg_pfa st') = drop k (free_frames p) ∧ (k ≤ 519)%nat ∧
       (∀ j x, free_frames p !! j = Some x → (j < 256)%nat →
          is_table (pg_mem st') (root_of (cr3 st')) (x * PAGE_SIZE)) ∧
       ∀ va, canonical va → translate (pg_mem st') (cr3 st') va = first_map va).
Proof.
  intros Hk Hk' Hmb Hmap Htags Hmem.
  destruct (pfa_init_spec ks ke mb2 tags) as (p & E & Hp & _ & Hf); [done..|].
  exists p. split; [done|]. intros [Hcr Hbt Him [Hd1 Hd2] Hpfa] Hlen. subst p.
  assert (Hl : ∀ b, b = b4 ∨ b = b3 ∨ b = b2 → low_frame b) by (intros; by apply Him).
  assert (Hspare : spare b4 b3 b2 st).
  { intros g Hg. apply Hf in Hg as [(e & He & Hin) Hres]. pose proof (available_below tags e g Hmap He Hin).
    unfold reserved, in_pages in Hres. change PAGE_SIZE with 4096 in *. split_and!; [|lia|].
    - destruct Hin as [_ Hin]. change PAGE_SIZE with 4096 in *.
      assert (0 ≤ entry_start e).
      2:{ change (0 / 4096) with 0 in Hres. lia. }
      unfold entry_start, mask_low. apply Z.land_nonneg. left. by apply wrap_range.
    - intros Hb. apply Him in Hb as [_ Hb]. apply Hres. right; left. zdm. }
  destruct (free_frames (pg_pfa st)) as [|g l] eqn:Ef; [cbn in Hlen; lia|]. cbn [length] in Hlen.
  destruct (paging_init_spec b4 b3 b2 (Hl b4 ltac:(auto)) (Hl b3 ltac:(auto)) (Hl b2 ltac:(auto)) Hd1 Hd2 st g l)
    as (st' & T & k & E' & Hwf & Hcr' & Hk4 & Hfr & Hkn & Htab & Hw); [|done|done| |done|lia|].
  { constructor; [done|]. by apply boot_tables_core. }
  { apply (bt_rest _ _ _ _ Hbt); [by unfold is_idx|lia..]. }
  assert (Hroot : root_of (cr3 st') = g * 4096).
  { rewrite Hcr'. unfold root_of. rewrite mask_page_eq, Z.mod_mul; lia. }
  exists st', T, k. split_and!; [done|done| | |by rewrite Hfr, Ef|done| |].
  - rewrite Hcr'. change PAGE_SIZE with 4096. by rewrite Z.div_mul.
  - rewrite Hk4. unfold get_current_pml4_virt. fold (root_of (cr3 st')). by rewrite Hroot.
  - intros j x. rewrite <- Ef, Hroot. apply Htab.
  - intros va Hc. rewrite <- (first_map_low va Hc). unfold translate. by rewrite Hroot, Hw.
Qed.

(** A machine with 8 MiB, its boot tables in the kernel image. *)
Definition boot_tags : list multiboot_tag := [TagOther 1; TagMmap [mk_entry 0x100000 0x700000 1]].
Definition boot_words : list (Z * Z) :=
  (0x110000, 0x111003) :: (0x110000 + 8 * 511, 0x111003) ::
  (0x111000, 0x112003) :: (0x111000 + 8 * 510, 0x112003) ::
  ((λ k, (0x112000 + 8 * k, Z.lor (0x200000 * k) 0x83)) <$> seqZ 0 512).
Definition boot_machine (p : Pfa.pfa) : paging :=
  mk_paging p (list_to_map boot_words) 0x110000 0 0.

Lemma boot_map_ok : map_ok (all_entries boot_tags).
Proof.
  constructor.
  - intros e He. cbn in He. apply elem_of_cons in He as [->|He]; [cbn; lia|by apply elem_of_nil in He].
  - intros i j e1 e2 f H1 H2 _ _. cbn in H1, H2.
    destruct i as [|i]; [|done]. by destruct j as [|j].
Qed.

Lemma every_idx (P : Z → bool) : forallb P (seqZ 0 512) = true → ∀ i, is_idx i → P i = true.
Proof.
  intros H i Hi. rewrite forallb_forall in H. apply H, list_elem_of_In, elem_of_seqZ. unfold is_idx in Hi. lia.
Qed.

(** [k] names entry [i] of a table of [boot_words]. *)
Definition pd_word (k : Z) : bool :=
  rd (list_to_map boot_words) (0x112000 + 8 * k) =? Z.lor (0x200000 * k) 0x83.
Definition pdpt_word (i : Z) : bool :=
  (i =? 0) || (i =? 510) || (rd (list_to_map boot_words) (0x111000 + 8 * i) =? 0).

Lemma pd_words : forallb pd_word (seqZ 0 512) = true.
Proof. vm_compute. reflexivity. Qed.
Lemma pdpt_words : forallb pdpt_word (seqZ 0 512) = true.
Proof. vm_compute. reflexivity. Qed.

Lemma boot_machine_tables p : boot_tables (pg_mem (boot_machine p)) 0x110000 0x111000 0x112000.
Proof.
  cbn [boot_machine pg_mem]. constructor.
  - split; vm_compute; reflexivity.
  - split; vm_compute; reflexivity.
  - intros k Hk. pose proof (every_idx pd_word pd_words k Hk) as H. by apply Z.eqb_eq in H.
  - intros i Hi H0 H510. pose proof (every_idx pdpt_word pdpt_words i Hi) as H. unfold pdpt_word in H.
    rewrite (proj2 (Z.eqb_neq i 0)), (proj2 (Z.eqb_neq i 510)) in H by done. by apply Z.eqb_eq in H.
Qed.

Lemma boot_machine_state p : boot_state (boot_machine p) 0x100000 0x140000 0x110000 0x111000 0x112000 p.
Proof.
  constructor; [reflexivity|apply boot_machine_tables| |lia|done].
  unfold low_frame. intros b [-> | [-> | ->]]; (split; [split; [reflexivity|lia]|lia]).
Qed.

Definition boot_pfa : outcome Pfa.pfa := pfa_init_from_multiboot2 0x100000 0x140000 0x180000 boot_tags.

Lemma boot_frames_enough :
  match boot_pfa with Ok p => (519 <=? length (free_frames p))%nat | _ => false end = true.
Proof. vm_compute. reflexivity. Qed.

Lemma boot_memory_small : mem_upper_of boot_tags ≤ 2 ^ 29.
Proof. apply Z.leb_le. vm_compute. reflexivity. Qed.

Lemma boot_pfa_ok : ∃ p, boot_pfa = Ok p ∧ (519 ≤ length (free_frames p))%nat.
Proof.
  pose proof boot_frames_enough as Hlen.
  destruct boot_pfa as [p| | |]; [|discriminate Hlen..].
  apply Nat.leb_le in Hlen. exists p. split; [reflexivity|exact Hlen].
Qed.

(** [paging_init] also enters the first megabyte at [0xffffffffc0000000], but
    through [get_current_pml4_virt], while the boot tables are still loaded: the
    new tables have nothing there. *)
Lemma first_megabyte_is_lost va : 0xffffffffc0000000 ≤ va < 2 ^ 64 → first_map va = None.
Proof. intros Hva. unfold first_map, KERNEL_VIRT_OFFSET. by rewrite !decide_False by lia. Qed.

Lemma for_range_panics {S} (body : Z → S → outcome S) n i s e :
  (0 < n)%nat → body i s = Panic e → for_range body n i s = Panic e.
Proof. intros Hn E. destruct n; [lia|]. cbn. by rewrite E. Qed.

(** The direct map ends at 512 MiB: claiming a frame above it is a page fault. *)
Lemma high_frame_faults st g l :
  pfa_wf (pg_pfa st) → free_frames (pg_pfa st) = g :: l → 2 ^ 29 ≤ g * PAGE_SIZE < 2 ^ 31 - 4096 →
  (∀ va, canonical va → translate (pg_mem st) (cr3 st) va = first_map va) →
  pfa_alloc_frame st = Panic K_ERR_PAGE_FAULT.
Proof.
  change PAGE_SIZE with 4096. intros Hp Ef Hg Hw. unfold pfa_alloc_frame.
  destruct (pfa_claim_spec (pg_pfa st) Hp) as (r & p & -> & _ & _ & Hr). run.
  rewrite Ef in Hr. destruct Hr as [-> _]. change PAGE_SIZE with 4096. rewrite wrap_small by lia.
  unfold memset_page0. rewrite (for_range_panics _ 512 0 _ K_ERR_PAGE_FAULT); [done|lia|].
  rewrite (phys_to_virt_eq (g * 4096) (8 * 0)) by lia. change (8 * 0) with 0.
  unfold vstore. cbn [pg_mem cr3 set_pfa].
  rewrite (Hw (KERNEL_VIRT_OFFSET + g * 4096 + 0)) by (right; unfold KERNEL_VIRT_OFFSET; lia).
  unfold first_map, KERNEL_VIRT_OFFSET. by rewrite !decide_False by lia.
Qed.
End PagingInit.
