(* ===== verification/Vmm.v ===== *)
(** * Virtual memory manager (mm/vmm.cpp)

    [VMM] hands out kernel pages upwards from [kernel_dynamic_break].  The state
    is the paging state, the break and the byte counter.

    The invariant [vmm_wf] asks that the window above the break does not meet
    the direct map of a page table or of a free frame.  Under it [sbrk] always
    returns, moves the break by whole pages, leaves every other translation
    alone and, with enough frames, maps every page of the new region to a frame
    of its own.  [sbrk_over_direct_map_loses_data] shows what happens without
    that condition. *)

From S2P Require Import Prelude Pfa Paging.

Module Vmm.
Import Pfa Paging.

Record vmm : Type := mk_vmm {
  vm_paging : paging;
  kernel_dynamic_break : Z;
  vmm_allocated_bytes : Z
}.

Definition set_paging (st : paging) (v : vmm) : vmm :=
  mk_vmm st (kernel_dynamic_break v) (vmm_allocated_bytes v).
Definition set_break (b : Z) (v : vmm) : vmm :=
  mk_vmm (vm_paging v) b (vmm_allocated_bytes v).

(** [(void* )-1]. *)
Definition MINUS_ONE : Z := 2 ^ 64 - 1.

Definition allocate (pages flags : Z) (v : vmm) : outcome (Z * vmm) :=
  if kernel_dynamic_break v =? 0 then Ok (0, v) else
  let start_addr := kernel_dynamic_break v in
  r ← for_return (λ i v,
        '(phys_frame, st) ← pfa_alloc_frame (vm_paging v);
        if phys_frame =? 0 then Ok (inr (set_paging st v)) else
        st' ← paging_map_page (u64 (kernel_dynamic_break v + u64 (i * PAGE_SIZE))) phys_frame flags st;
        Ok (inl (set_paging st' v)))
      (Z.to_nat pages) 0 v;
  match r with
  | inr v' => Ok (0, v')
  | inl v' => Ok (start_addr, set_break (u64 (kernel_dynamic_break v' + u64 (pages * PAGE_SIZE))) v')
  end.

Definition free (virt_addr pages : Z) (v : vmm) : outcome vmm :=
  for_range (λ i v,
    let current_virt := u64 (virt_addr + u64 (i * PAGE_SIZE)) in
    '(phys_frame, st1) ← paging_get_physical_address current_virt (vm_paging v);
    st2 ← (if phys_frame =? 0 then Ok st1 else pfa_free phys_frame st1);
    st3 ← paging_unmap_page current_virt st2;
    Ok (set_paging st3 v)) (Z.to_nat pages) 0 v.

(** One page of [sbrk]: [inr] is the early [return (void* )-1]. *)
Definition sbrk_page (v : vmm) : outcome (vmm + vmm) :=
  '(phys_frame, st) ← pfa_alloc_frame (vm_paging v);
  if phys_frame =? 0 then Ok (inr (set_paging st v)) else
  st' ← paging_map_page (kernel_dynamic_break v) phys_frame (Z.lor PTE_PRESENT PTE_RW) st;
  Ok (inl (set_break (u64 (kernel_dynamic_break v + PAGE_SIZE)) (set_paging st' v))).

Definition sbrk (increment_bytes : Z) (v : vmm) : outcome (Z * vmm) :=
  if kernel_dynamic_break v =? 0 then Ok (MINUS_ONE, v) else
  let old_break := kernel_dynamic_break v in
  if increment_bytes =? 0 then Ok (old_break, v) else
  let pages_needed := u64 (increment_bytes + PAGE_SIZE - 1) / PAGE_SIZE in
  let v1 := mk_vmm (vm_paging v) old_break
              (u64 (vmm_allocated_bytes v + u64 (pages_needed * PAGE_SIZE))) in
  r ← for_return (λ _ v, sbrk_page v) (Z.to_nat pages_needed) 0 v1;
  match r with
  | inr v' => Ok (MINUS_ONE, v')
  | inl v' => Ok (old_break, v')
  end.

Definition get_total_allocated (v : vmm) : Z := vmm_allocated_bytes v.

Definition map_physical_region (phys_addr pages flags : Z) (v : vmm) : outcome (Z * vmm) :=
  let start_addr := kernel_dynamic_break v in
  v' ← for_range (λ i v,
    st ← paging_map_page (kernel_dynamic_break v) (u64 (phys_addr + u64 (i * PAGE_SIZE))) flags
           (vm_paging v);
    Ok (set_break (u64 (kernel_dynamic_break v + PAGE_SIZE)) (set_paging st v)))
    (Z.to_nat pages) 0 v;
  Ok (start_addr, v').

(** ** The invariant *)

Abbreviation frees v := (free_frames (pg_pfa (vm_paging v))).

Record vmm_wf (v : vmm) (T : gmap Z (list Z)) : Prop := {
  vw_paging : paging_wf (vm_paging v) T;
  vw_aligned : kernel_dynamic_break v mod 4096 = 0;
  vw_kernel : 2 ^ 64 - 2 ^ 47 ≤ kernel_dynamic_break v;
  vw_room : kernel_dynamic_break v + 4096 * Z.of_nat (length (frees v)) ≤ 2 ^ 64 - 4096;
  vw_window : ∀ va, kernel_dynamic_break v ≤ va < 2 ^ 64 → not_direct (vm_paging v) T va
}.

(** Every page outside [lo, hi) translates as before. *)
Definition unchanged_outside (lo hi : Z) (v v' : vmm) : Prop :=
  ∀ va, canonical va → ¬ lo ≤ va < hi → walk_st (vm_paging v') va = walk_st (vm_paging v) va.

(** The pages from [lo] on are mapped to the frames [fs], one each. *)
Definition region_mapped (lo : Z) (fs : list Z) (v : vmm) : Prop :=
  ∀ j f, fs !! j = Some f → walk_st (vm_paging v) (lo + 4096 * Z.of_nat j) = Some (f * 4096).

Lemma not_direct_less st T st' va :
  not_direct st T va →
  (∀ g, g ∈ free_frames (pg_pfa st') → g ∈ free_frames (pg_pfa st)) → not_direct st' T va.
Proof.
  intros Hnd Hsub f [HT|[Ha Hf]]; apply Hnd; [by left|right]. eauto.
Qed.

Lemma drop_free_sub k (l : list Z) x : x ∈ drop k l → x ∈ l.
Proof. apply elem_of_drop_free. Qed.

(** Two pages of the kernel half with the same indices are the same page. *)
Lemma same_page va va' :
  canonical va → canonical va' → va mod 4096 = 0 → path4 va' = path4 va → va ≤ va' < va + 4096.
Proof. intros H1 H2 Ha H. apply (canonical_page va va' H1 H2) in H. zdm. Qed.

(** One page of [sbrk]: out of frames, or one page further. *)
Lemma sbrk_page_spec v T :
  vmm_wf v T →
  (frees v = [] ∧ sbrk_page v = Ok (inr v)) ∨
  ∃ f l v' T', frees v = f :: l ∧ sbrk_page v = Ok (inl v') ∧ vmm_wf v' T' ∧
    kernel_dynamic_break v' = kernel_dynamic_break v + 4096 ∧
    vmm_allocated_bytes v' = vmm_allocated_bytes v ∧
    (∃ k, (k ≤ 3)%nat ∧ frees v' = drop k l) ∧
    unchanged_outside (kernel_dynamic_break v) (kernel_dynamic_break v + 4096) v v' ∧
    ((3 < length l)%nat → walk_st (vm_paging v') (kernel_dynamic_break v) = Some (f * 4096)).
Proof.
  intros [W1 W2 W3 W4 W5]. unfold sbrk_page.
  pose proof (pfa_alloc_frame_spec _ _ W1) as Hal.
  destruct (frees v) as [|f l] eqn:Ef.
  { left. rewrite Hal. run. split; [done|]. by destruct v. }
  right. destruct Hal as (s1 & -> & Hwf1 & (Hcr1 & _ & Hsp1) & _ & Hl & Hr & _). run.
  rewrite (proj2 (Z.eqb_neq _ 0)) by lia.
  set (b := kernel_dynamic_break v) in *. cbn [length] in W4.
  assert (Hnd1 : not_direct s1 T b).
  { eapply not_direct_less; [apply W5; lia|]. rewrite Hl, Ef. intros; by right. }
  destruct (map_page_spec s1 T b (f * 4096) (Z.lor PTE_PRESENT PTE_RW) Hwf1)
    as (s2 & -> & Hcr2 & (k & Hk & Hdrop) & Hcase); [lia|done|]. run.
  assert (Hwalk : ∀ va, ¬ path4 va = path4 b → walk_st s2 va = walk_st (vm_paging v) va).
  { intros va Hne. destruct Hcase as [(_ & (_ & _ & Hs) & _)|(_ & Hw & _)].
    - unfold walk_st. by rewrite Hs, Hsp1.
    - rewrite Hw, decide_False by done. unfold walk_st. by rewrite Hsp1. }
  assert (HT2 : ∃ T2, paging_wf s2 T2 ∧ ∀ va, not_direct s1 T va → not_direct s2 T2 va).
  { destruct Hcase as [(_ & _ & _ & ?)|(_ & _ & Hp)]; [done|].
    destruct (Hp Hnd1) as (T2 & H2 & H3 & _). eauto. }
  destruct HT2 as (T2 & Hwf2 & Hnd2).
  eexists f, l, _, T2. split; [done|]. split; [reflexivity|].
  change PAGE_SIZE with 4096. fold b. rewrite wrap_small by lia.
  split_and!; try reflexivity.
  - constructor; cbn [set_break set_paging vm_paging kernel_dynamic_break].
    + done.
    + zdm.
    + lia.
    + rewrite Hdrop, Hl, length_drop. lia.
    + intros va Hva. apply Hnd2. eapply not_direct_less; [apply W5; lia|].
      rewrite Hl, Ef. intros; by right.
  - exists k. split; [done|]. cbn. by rewrite Hdrop, Hl.
  - intros va Hc Hva. cbn. apply Hwalk. intros Hp.
    apply (same_page b va) in Hp; [lia|right; lia|done|done].
  - intros Hlen. cbn. destruct Hcase as [(Hnil & _)|(_ & Hw & _)].
    + exfalso. apply (f_equal length) in Hdrop. rewrite Hnil, Hl, length_drop in Hdrop.
      change (length []) with 0%nat in Hdrop. lia.
    + rewrite Hw, decide_True by done. f_equal. rewrite Z.mod_mul; lia.
Qed.

Lemma unchanged_outside_trans lo mid hi v1 v2 v3 :
  lo ≤ mid ≤ hi →
  unchanged_outside lo mid v1 v2 → unchanged_outside mid hi v2 v3 → unchanged_outside lo hi v1 v3.
Proof. intros H H1 H2 va Hc Hva. rewrite H2, H1; [done|done|lia|done|lia]. Qed.

Definition loop_state (r : vmm + vmm) : vmm := match r with inl v => v | inr v => v end.

(** The loop of [sbrk]: it always ends in a well-formed state, having moved the
    break by whole pages; it runs to the end when there are frames enough, and
    then the new pages have frames of their own. *)
Lemma sbrk_loop_spec n i v T :
  vmm_wf v T →
  ∃ r T', for_return (λ _ v, sbrk_page v) n i v = Ok r ∧ vmm_wf (loop_state r) T' ∧
    let v' := loop_state r in
    let b := kernel_dynamic_break v in
    b ≤ kernel_dynamic_break v' ≤ b + 4096 * Z.of_nat n ∧
    vmm_allocated_bytes v' = vmm_allocated_bytes v ∧
    unchanged_outside b (kernel_dynamic_break v') v v' ∧
    (∀ g, g ∈ frees v' → g ∈ frees v) ∧
    match r with inl _ => kernel_dynamic_break v' = b + 4096 * Z.of_nat n | inr _ => frees v' = [] end ∧
    ((4 * n < length (frees v))%nat → ∃ fs, r = inl v' ∧ length fs = n ∧ NoDup fs ∧
       (∀ f, f ∈ fs → f ∈ frees v ∧ f ∉ frees v') ∧ region_mapped b fs v').
Proof.
  revert i v T. induction n as [|n IH]; intros i v T Hwf.
  { exists (inl v), T. cbn. split_and!; try done; try lia.
    intros _. exists []. split_and!; try done; [constructor|set_solver]. }
  cbn [for_return].
  destruct (sbrk_page_spec v T Hwf)
    as [[Hnil ->]|(f & l & v1 & T1 & Ef & -> & Hwf1 & Hb1 & Hby1 & (k & Hk & Hd) & Hu1 & Hm1)]; run.
  { exists (inr v), T. cbn [loop_state]. rewrite Hnil. split_and!; try done; try lia.
    cbn. lia. }
  destruct (IH (i + 1) v1 T1 Hwf1) as (r & T2 & -> & Hwf2 & Hb2 & Hby2 & Hu2 & Hsub2 & Hr & Hmap).
  assert (Hsub1 : ∀ g, g ∈ frees v1 → g ∈ l) by (rewrite Hd; intros g; apply drop_free_sub).
  set (b := kernel_dynamic_break v) in *. rewrite Hb1 in *.
  exists r, T2. split; [done|]. split; [done|]. cbv zeta.
  split_and!; [lia|lia|congruence| | | |].
  - eapply unchanged_outside_trans; [|done|done]. lia.
  - rewrite Ef. intros g Hg. right. auto.
  - destruct r; [|done]. lia.
  - rewrite Ef. cbn [length]. intros Hlen.
    assert (Hl1 : (4 * n < length (frees v1))%nat) by (rewrite Hd, length_drop; lia).
    destruct (Hmap Hl1) as (fs & Hinl & Hfl & Hnd & Hin & Hreg).
    pose proof (free_frames_NoDup (pg_pfa (vm_paging v))) as Hndf. rewrite Ef in Hndf.
    apply NoDup_cons in Hndf as [Hfl' _].
    exists (f :: fs). split_and!; [done|cbn; lia| | |].
    + constructor; [|done]. intros Hf%Hin. apply Hfl'. apply Hsub1, Hf.
    + intros g [->|Hg]%elem_of_cons.
      * split; [by left|]. intros Hf. apply Hfl'. auto.
      * destruct (Hin g Hg). split; [right; auto|done].
    + intros [|j] g Hj; cbn in Hj; simplify_eq.
      * rewrite Z.mul_0_r, Z.add_0_r, Hu2; [apply Hm1; lia|right|lia].
        pose proof (vw_kernel _ _ Hwf). pose proof (vw_room _ _ Hwf). subst b. lia.
      * rewrite <- (Hreg j g Hj). f_equal. lia.
Qed.

Definition pages_of (bytes : Z) : Z := (bytes + 4095) / 4096.

Lemma sbrk_spec v T n :
  vmm_wf v T → 0 < n → n + 4095 < 2 ^ 64 →
  ∃ r v' T', sbrk n v = Ok (r, v') ∧ vmm_wf v' T' ∧
    let b := kernel_dynamic_break v in
    b ≤ kernel_dynamic_break v' ≤ b + 4096 * pages_of n ∧
    vmm_allocated_bytes v' = u64 (vmm_allocated_bytes v + 4096 * pages_of n) ∧
    unchanged_outside b (kernel_dynamic_break v') v v' ∧
    ((r = MINUS_ONE ∧ frees v' = []) ∨
     (r = b ∧ kernel_dynamic_break v' = b + 4096 * pages_of n)) ∧
    (4 * pages_of n < Z.of_nat (length (frees v)) → ∃ fs, r = b ∧
       Z.of_nat (length fs) = pages_of n ∧ NoDup fs ∧
       (∀ f, f ∈ fs → f ∈ frees v ∧ f ∉ frees v') ∧ region_mapped b fs v').
Proof.
  intros Hwf Hn Hn'. pose proof (vw_kernel _ _ Hwf) as Hk. unfold sbrk.
  rewrite (proj2 (Z.eqb_neq _ 0)) by lia. rewrite (proj2 (Z.eqb_neq _ 0)) by lia.
  replace (n + PAGE_SIZE - 1) with (n + 4095) by (unfold PAGE_SIZE; lia).
  rewrite (wrap_small _ (n + 4095)) by lia. change PAGE_SIZE with 4096. fold (pages_of n).
  assert (Hp : 0 < pages_of n ∧ pages_of n * 4096 < 2 ^ 64) by (unfold pages_of; zdm).
  rewrite (wrap_small _ (pages_of n * 4096)) by lia.
  set (v1 := mk_vmm _ _ _).
  assert (Hwf1 : vmm_wf v1 T) by (destruct Hwf; by constructor).
  destruct (sbrk_loop_spec (Z.to_nat (pages_of n)) 0 v1 T Hwf1)
    as (r & T' & -> & Hwf' & Hb & Hby & Hu & Hsub & Hr & Hmap). run.
  rewrite Z2Nat.id in * by lia. unfold v1 in *. cbn [kernel_dynamic_break vmm_allocated_bytes vm_paging] in *.
  rewrite Z.mul_comm in Hby. 
  exists (match r with inl _ => kernel_dynamic_break v | inr _ => MINUS_ONE end), (loop_state r), T'.
  split; [by destruct r|]. split; [done|]. cbv zeta. split_and!; [lia|lia|done|done| |].
  - destruct r; [by right|by left].
  - intros Hlen. destruct Hmap as (fs & E & Hfl & Hrest); [lia|].
    exists fs. split; [by rewrite E|]. split; [lia|exact Hrest].
Qed.

(** *** Memory that can be accessed

    With at most three frames left a table may be missing and the mapping of a page fails
    silently.  With more, every page that [sbrk] ever passed is mapped. *)

Definition plenty (v : vmm) : Prop := (3 < length (frees v))%nat.
Definition can_access (a : Z) (v : vmm) : Prop :=
  canonical a ∧ is_Some (translate (pg_mem (vm_paging v)) (cr3 (vm_paging v)) a).

Lemma can_access_walk a v : can_access a v ↔ canonical a ∧ is_Some (walk_st (vm_paging v) a).
Proof. unfold can_access. rewrite translate_walk, fmap_is_Some. done. Qed.

(** From [lo] on: what was accessible below [lo] still is, and so is all from [lo] to the break. *)
Definition memory_grows (lo : Z) (v v' : vmm) : Prop :=
  plenty v ∧ (∀ a, a < lo → can_access a v → can_access a v') ∧
  ∀ a, lo ≤ a < kernel_dynamic_break v' → can_access a v'.

Lemma sbrk_page_memory v v' T : vmm_wf v T → sbrk_page v = Ok (inl v') → plenty v' →
  memory_grows (kernel_dynamic_break v) v v'.
Proof.
  intros Hwf E Hp. destruct (sbrk_page_spec v T Hwf)
    as [[_ E']|(f & l & v1 & T1 & Ef & E' & Hwf1 & Hb1 & _ & (k & _ & Hd) & Hu & Hm)]; rewrite E in E'; [done|].
  injection E' as <-. unfold plenty in *. rewrite Hd, length_drop in Hp. unfold memory_grows, plenty. rewrite Ef.
  pose proof (vw_kernel _ _ Hwf). pose proof (vw_room _ _ Hwf). pose proof (vw_aligned _ _ Hwf).
  rewrite Ef in *. cbn [length] in *. split_and!; [lia| |].
  - intros a Ha. rewrite !can_access_walk. intros [Hc Hs]. split; [done|]. by rewrite (Hu a Hc) by lia.
  - intros a Ha. rewrite can_access_walk. rewrite Hb1 in Ha. split; [right; lia|]. unfold walk_st in *.
    rewrite <- (walk_page_same_page _ _ (kernel_dynamic_break v) a) by zdm. rewrite Hm by lia. by eexists.
Qed.

Lemma memory_grows_trans lo mid v1 v2 v3 : lo ≤ mid → kernel_dynamic_break v2 = mid →
  memory_grows lo v1 v2 → memory_grows mid v2 v3 → memory_grows lo v1 v3.
Proof.
  intros Hlo Hmid (P1 & A1 & B1) (_ & A2 & B2). split_and!; [done|intros a Ha Hc; apply A2; [lia|by apply A1]|].
  intros a Ha. destruct (decide (a < mid)); [apply A2; [done|apply B1; lia]|apply B2; lia].
Qed.

Lemma sbrk_loop_memory n : ∀ i v T r, vmm_wf v T → for_return (λ _ v, sbrk_page v) n i v = Ok r → plenty (loop_state r) →
  memory_grows (kernel_dynamic_break v) v (loop_state r).
Proof.
  induction n as [|n IH]; intros i v T r Hwf; cbn [for_return].
  { intros [= <-] Hp. split_and!; [done|done|]. cbn [loop_state]. lia. }
  destruct (sbrk_page_spec v T Hwf)
    as [[Hnil E]|(f & l & v1 & T1 & Ef & E & Hwf1 & Hb1 & _)]; rewrite E; run.
  { intros [= <-]. unfold plenty. cbn [loop_state]. rewrite Hnil. cbn. lia. }
  intros Er Hp. pose proof (IH (i + 1) v1 T1 r Hwf1 Er Hp) as HI.
  apply (memory_grows_trans _ (kernel_dynamic_break v1) _ v1); [lia|done| |done].
  apply (sbrk_page_memory v v1 T Hwf E). by destruct HI.
Qed.

Lemma sbrk_memory v T n r v' : vmm_wf v T → 0 < n → n + 4095 < 2 ^ 64 → sbrk n v = Ok (r, v') → plenty v' →
  memory_grows (kernel_dynamic_break v) v v'.
Proof.
  intros Hwf Hn Hn'. pose proof (vw_kernel _ _ Hwf) as Hk. unfold sbrk.
  rewrite (proj2 (Z.eqb_neq _ 0)) by lia. rewrite (proj2 (Z.eqb_neq _ 0)) by lia.
  set (v1 := mk_vmm _ _ _). assert (Hwf1 : vmm_wf v1 T) by (destruct Hwf; by constructor).
  intros H Hp. apply bind_Ok in H as (o & E & H).
  assert (Ev : v' = loop_state o) by (destruct o; injection H; done). subst v'.
  exact (sbrk_loop_memory _ _ v1 T o Hwf1 E Hp).
Qed.

(** A window above the direct map of all tables and free frames. *)
Lemma window_above st T b :
  (∀ f, is_Some (T !! f) ∨ (f mod 4096 = 0 ∧ f / 4096 ∈ free_frames (pg_pfa st)) →
     0 ≤ f ∧ KERNEL_VIRT_OFFSET + f + 4096 ≤ b) →
  ∀ va, b ≤ va < 2 ^ 64 → not_direct st T va.
Proof.
  intros Hb va Hva f Hf Heq. specialize (Hb f Hf). apply path4_inj in Heq.
  unfold phys_to_virt, KERNEL_VIRT_OFFSET in *. rewrite wrap_small in Heq by lia. zdm.
Qed.

(** ** Properties *)

(** The small machine with the break above its direct map. *)
Definition demo_vmm : vmm := mk_vmm demo_paging 0xFFFFFFFFC0000000 0.

Lemma demo_vmm_wf : vmm_wf demo_vmm demo_tables.
Proof.
  constructor; cbn [demo_vmm vm_paging kernel_dynamic_break].
  - apply demo_paging_wf.
  - reflexivity.
  - lia.
  - rewrite demo_free. vm_compute. discriminate.
  - apply window_above. intros f [[p Hp%demo_T_inv]|[Ha Hf]].
    + repeat (apply elem_of_cons in Hp as [[= -> ->]|Hp]; [unfold KERNEL_VIRT_OFFSET; lia|]).
      by apply elem_of_nil in Hp.
    + rewrite demo_free, elem_of_seqZ in Hf. unfold KERNEL_VIRT_OFFSET. zdm.
Qed.

(** [VMM::sbrk] with four free frames per page returns the old break, moves the
    break by the rounded size, and maps the new pages to distinct frames that
    were free and are no longer; every address outside the new region
    translates as before. *)
Theorem sbrk_maps_fresh_frames v T n :
  vmm_wf v T → 0 < n → n + 4095 < 2 ^ 64 →
  4 * pages_of n < Z.of_nat (length (frees v)) →
  ∃ v' T' fs, sbrk n v = Ok (kernel_dynamic_break v, v') ∧ vmm_wf v' T' ∧
    kernel_dynamic_break v' = kernel_dynamic_break v + PAGE_SIZE * pages_of n ∧
    Z.of_nat (length fs) = pages_of n ∧ NoDup fs ∧
    (∀ f, f ∈ fs → f ∈ frees v ∧ f ∉ frees v') ∧
    (∀ j f, fs !! j = Some f →
       walk_st (vm_paging v') (kernel_dynamic_break v + PAGE_SIZE * Z.of_nat j) =
         Some (f * PAGE_SIZE)) ∧
    unchanged_outside (kernel_dynamic_break v) (kernel_dynamic_break v') v v'.
Proof.
  intros Hwf Hn Hn' Hlen.
  destruct (sbrk_spec v T n Hwf Hn Hn')
    as (r & v' & T' & E & Hwf' & _ & _ & Hu & Hr & Hmap).
  destruct (Hmap Hlen) as (fs & -> & Hfl & Hnd & Hin & Hreg).
  exists v', T', fs. pose proof (vw_kernel _ _ Hwf). pose proof (vw_room _ _ Hwf).
  destruct Hr as [[Hbad _]|[_ Hb]]; [unfold MINUS_ONE in Hbad; lia|].
  split_and!; try done.
Qed.

Lemma sbrk_maps_fresh_frames_witness :
  ∃ v', sbrk 5000 demo_vmm = Ok (0xFFFFFFFFC0000000, v') ∧
    kernel_dynamic_break v' = 0xFFFFFFFFC0002000.
Proof.
  destruct (sbrk_maps_fresh_frames demo_vmm demo_tables 5000)
    as (v' & T' & fs & E & _ & Hb & _);
    [apply demo_vmm_wf|lia|lia|vm_compute; reflexivity|].
  exists v'. split; [exact E|exact Hb].
Defined.

(** For every request that does not wrap around, [VMM::sbrk] returns without a
    fault and keeps its invariant, never moves the break backwards or past the
    request, changes no translation outside the region it passed, and answers
    [(void* )-1] only with the frame allocator exhausted; the byte counter grows
    by the full request whatever the answer. *)
Theorem sbrk_total v T n :
  vmm_wf v T → 0 < n → n + 4095 < 2 ^ 64 →
  ∃ r v' T', sbrk n v = Ok (r, v') ∧ vmm_wf v' T' ∧
    kernel_dynamic_break v ≤ kernel_dynamic_break v'
      ≤ kernel_dynamic_break v + PAGE_SIZE * pages_of n ∧
    unchanged_outside (kernel_dynamic_break v) (kernel_dynamic_break v') v v' ∧
    get_total_allocated v' = u64 (get_total_allocated v + PAGE_SIZE * pages_of n) ∧
    (r = MINUS_ONE ∧ frees v' = [] ∨
     r = kernel_dynamic_break v ∧
     kernel_dynamic_break v' = kernel_dynamic_break v + PAGE_SIZE * pages_of n).
Proof.
  intros Hwf Hn Hn'.
  destruct (sbrk_spec v T n Hwf Hn Hn')
    as (r & v' & T' & E & Hwf' & Hb & Hby & Hu & Hr & _).
  exists r, v', T'. split_and!; [done|done|apply Hb|apply Hb|done|exact Hby|exact Hr].
Qed.

(** On the small machine a request of 16 pages fails with the break moved. *)
Lemma sbrk_total_witness :
  ∃ r v', sbrk 0x10000 demo_vmm = Ok (r, v') ∧ r = MINUS_ONE ∧ frees v' = [] ∧
    get_total_allocated v' = 0x10000.
Proof.
  destruct (sbrk_total demo_vmm demo_tables 0x10000)
    as (r & v' & T' & E & _ & _ & _ & Hby & Hr);
    [apply demo_vmm_wf|lia|lia|].
  assert (Hm : match sbrk 0x10000 demo_vmm with Ok (r', _) => r' = MINUS_ONE | _ => False end)
    by (vm_compute; reflexivity).
  rewrite E in Hm. exists r, v'. destruct Hr as [[_ Hf]|[Hb _]].
  - split; [exact E|]. split; [exact Hm|]. split; [exact Hf|exact Hby].
  - rewrite Hb in Hm. discriminate Hm.
Defined.

(** The small machine with the break inside its direct map, as [kernel_main]
    places it (the break starts 64 KiB past the kernel image). *)
Definition overlap_vmm : vmm := mk_vmm demo_paging (phys_to_virt 0x8000) 0.

(** Grows the heap by a page, writes [x] to it, then lets the kernel allocate
    [n] frames for other purposes, and reads the word back. *)
Definition write_then_allocate (n : nat) (x : Z) (v : vmm) : outcome Z :=
  '(a, v1) ← sbrk 4096 v;
  st ← vstore a x (vm_paging v1);
  st' ← for_range (λ _ st, '(_, st') ← pfa_alloc_frame st; Ok st') n 0 st;
  vload st' a.

(** With the break inside the direct map of free frames, the kernel's own clearing of
    a fresh frame goes through the address the heap page was mapped at: a word
    written to memory [VMM::sbrk] returned is lost after three frame allocations;
    with the break above the direct map it survives as long as there are frames. *)
Theorem sbrk_over_direct_map_loses_data :
  write_then_allocate 2 42 overlap_vmm = Ok 42 ∧
  write_then_allocate 3 42 overlap_vmm = Ok 0 ∧
  write_then_allocate 8 42 demo_vmm = Ok 42.
Proof. split_and!; vm_compute; reflexivity. Qed.
End Vmm.
