(* ===== verification/Heap.v ===== *)
(** * Kernel heap (mm/heap.cpp)

    The heap is a singly linked list of blocks, each a 24-byte header followed
    by its payload.  Headers are a map from addresses; the list is what the
    [next] pointers say, and a loop over it runs on fuel, the number of headers
    ever written, which is proved to be enough.  A header that was merged into
    its neighbour stays in the map, as it stays in memory.

    The memory the heap grows into comes from a backend, the class
    [HeapBackend]: what [VMM::sbrk] promises to the heap.  The instance at the
    end of the file discharges it with the model of [VMM].  The model keeps the
    headers apart from the payloads, so it describes clients that stay inside
    the blocks they were given, and a backend that does not write to heap
    memory.  It does not look at the page tables when it reads or writes a
    header: [heap_memory] is the condition under which such an access cannot
    fault, and [hb_memory_law] what the backend promises about it.

    The abstract state is the list of blocks in address order and, for clients,
    the finite map [live] from pointers to the sizes of the blocks in use. *)

From S2P Require Import Prelude Pfa Paging Vmm.

(** What the heap needs of the code that gives it memory: [sbrk] returns the old
    end of the heap memory and moves the end by whole pages, or fails. *)
Class HeapBackend (V : Type) := {
  hb_sbrk : Z → V → outcome (Z * V);
  hb_break : V → Z;
  hb_ok : V → Prop;
  hb_law v n : hb_ok v → 0 < n → n + 4095 < 2 ^ 64 →
    ∃ r v', hb_sbrk n v = Ok (r, v') ∧ hb_ok v' ∧
      0 < hb_break v ≤ hb_break v' ∧ hb_break v' < 2 ^ 64 ∧ hb_break v mod 8 = 0 ∧
      (r = Vmm.MINUS_ONE ∨
       r = hb_break v ∧ hb_break v' = hb_break v + PAGE_SIZE * Vmm.pages_of n);
  (** Memory that can be accessed: all that [sbrk] passed, while there is plenty left. *)
  hb_plenty : V → Prop;
  hb_access : Z → V → Prop;
  hb_memory_law v n r v' : hb_ok v → 0 < n → n + 4095 < 2 ^ 64 → hb_sbrk n v = Ok (r, v') → hb_plenty v' →
    hb_plenty v ∧ (∀ a, a < hb_break v → hb_access a v → hb_access a v') ∧
    ∀ a, hb_break v ≤ a < hb_break v' → hb_access a v'
}.

Module Heap.

Record heap_block : Set := mk_block { size : Z; free : bool; next : Z }.

Definition sizeof_heap_block : Z := 24.

Section heap.
Context {V : Type} `{!HeapBackend V}.

Record heap : Type := mk_heap {
  headers : gmap Z heap_block;
  heap_start : Z;
  heap_total_size : Z;
  backend : V
}.

Definition set_headers (m : gmap Z heap_block) (h : heap) : heap :=
  mk_heap m (heap_start h) (heap_total_size h) (backend h).

(** Dereferencing a header pointer. *)
Definition deref (m : gmap Z heap_block) (p : Z) : outcome heap_block := of_option (m !! p).

Definition kheap_init (start_addr sz : Z) (h : heap) : bool * heap :=
  if (start_addr =? 0) || (sz <? sizeof_heap_block * 2) then (false, h) else
  (true, mk_heap (<[start_addr := mk_block (sz - sizeof_heap_block) true 0]> (headers h))
           start_addr sz (backend h)).

(** The search of [kmalloc]: [inl] is the block to use, [inr] the last one seen. *)
Fixpoint kmalloc_scan (fuel : nat) (m : gmap Z heap_block) (sz current last : Z)
  : outcome (Z + Z) :=
  if current =? 0 then Ok (inr last) else
  match fuel with
  | O => OutOfFuel
  | S fuel' =>
      b ← deref m current;
      if free b && (sz <=? size b) then Ok (inl current)
      else kmalloc_scan fuel' m sz (next b) current
  end.

(** Taking the block [current]: it is split when the rest is worth a block. *)
Definition kmalloc_take (m : gmap Z heap_block) (sz current : Z) : outcome (gmap Z heap_block) :=
  b ← deref m current;
  let m1 :=
    if u64 (sz + sizeof_heap_block + 16) <? size b then
      let new_block := u64 (current + sizeof_heap_block + sz) in
      <[current := mk_block sz (free b) new_block]>
        (<[new_block := mk_block (u64 (size b - sz - sizeof_heap_block)) true (next b)]> m)
    else m in
  b1 ← deref m1 current;
  Ok (<[current := mk_block (size b1) false (next b1)]> m1).

(** [(size + 15) & ~15] *)
Definition round16 (sz : Z) : Z := mask_low (u64 (sz + 15)) 15.

Definition kmalloc (sz0 : Z) (h : heap) : outcome (Z * heap) :=
  if heap_start h =? 0 then Ok (0, h) else
  let sz := round16 sz0 in
  r ← kmalloc_scan (S (base.size (headers h))) (headers h) sz (heap_start h) 0;
  match r with
  | inl current =>
      m ← kmalloc_take (headers h) sz current;
      Ok (u64 (current + sizeof_heap_block), set_headers m h)
  | inr last =>
      let total_needed := u64 (sz + sizeof_heap_block) in
      '(new_region, v) ← hb_sbrk total_needed (backend h);
      if (new_region =? Vmm.MINUS_ONE) || (new_region =? 0)
      then Ok (0, mk_heap (headers h) (heap_start h) (heap_total_size h) v) else
      let actual_size := mask_low (u64 (total_needed + PAGE_SIZE - 1)) (PAGE_SIZE - 1) in
      let m1 := <[new_region :=
                   mk_block (u64 (actual_size - sizeof_heap_block)) false 0]> (headers h) in
      if last =? 0
      then Ok (u64 (new_region + sizeof_heap_block), mk_heap m1 new_region (heap_total_size h) v)
      else
        b ← deref m1 last;
        Ok (u64 (new_region + sizeof_heap_block),
            mk_heap (<[last := mk_block (size b) (free b) new_region]> m1)
              (heap_start h) (heap_total_size h) v)
  end.

(** [block->size += sizeof + next->size; block->next = next->next] *)
Definition absorb (m : gmap Z heap_block) (a : Z) (b n : heap_block) : gmap Z heap_block :=
  <[a := mk_block (u64 (size b + sizeof_heap_block + size n)) (free b) (next n)]> m.

(** The second loop of [kfree]. *)
Fixpoint coalesce (fuel : nat) (m : gmap Z heap_block) (curr : Z) : outcome (gmap Z heap_block) :=
  if curr =? 0 then Ok m else
  b ← deref m curr;
  if next b =? 0 then Ok m else
  match fuel with
  | O => OutOfFuel
  | S fuel' =>
      if free b then
        n ← deref m (next b);
        if free n then coalesce fuel' (absorb m curr b n) curr
        else coalesce fuel' m (next b)
      else coalesce fuel' m (next b)
  end.

Definition kfree (ptr : Z) (h : heap) : outcome heap :=
  if ptr =? 0 then Ok h else
  let block := u64 (ptr - sizeof_heap_block) in
  b ← deref (headers h) block;
  let b1 := mk_block (size b) true (next b) in
  let m1 := <[block := b1]> (headers h) in
  m2 ← (if next b1 =? 0 then Ok m1 else
        n ← deref m1 (next b1);
        if free n then Ok (absorb m1 block b1 n) else Ok m1);
  m3 ← coalesce (base.size m2) m2 (heap_start h);
  Ok (set_headers m3 h).

Record heap_stats : Set := mk_stats {
  st_total_size : Z;
  st_used_size : Z;
  st_free_size : Z;
  st_block_count : Z;
  st_free_block_count : Z
}.

(** The loop of [kheap_get_stats]: used, free, block and free-block counts. *)
Fixpoint stats_loop (fuel : nat) (m : gmap Z heap_block) (current used fre count fcount : Z)
  : outcome (Z * Z * Z * Z) :=
  if current =? 0 then Ok (used, fre, count, fcount) else
  match fuel with
  | O => OutOfFuel
  | S fuel' =>
      b ← deref m current;
      if free b
      then stats_loop fuel' m (next b) used (u64 (fre + size b)) (u64 (count + 1)) (u64 (fcount + 1))
      else stats_loop fuel' m (next b) (u64 (used + size b)) fre (u64 (count + 1)) fcount
  end.

Definition kheap_get_stats (h : heap) : outcome heap_stats :=
  '(used, fre, count, fcount) ←
    stats_loop (S (base.size (headers h))) (headers h) (heap_start h) 0 0 0 0;
  let total := heap_total_size h in
  let overhead := u64 (count * sizeof_heap_block) in
  let used1 := u64 (used + overhead) in
  let used2 := if total <? used1 then total else used1 in
  Ok (mk_stats total used2 (u64 (total - used2)) count fcount).

Definition operator_new (sz : Z) (h : heap) : outcome (Z * heap) := kmalloc sz h.
Definition operator_delete (ptr : Z) (h : heap) : outcome heap := kfree ptr h.

(** ** The list of blocks *)

Record blk : Set := mk_blk { b_addr : Z; b_size : Z; b_free : bool }.

Definition b_end (b : blk) : Z := b_addr b + sizeof_heap_block + b_size b.

(** [seg m p l q]: the [next] pointers lead from [p] over the blocks [l] to [q]. *)
Fixpoint seg (m : gmap Z heap_block) (p : Z) (l : list blk) (q : Z) : Prop :=
  match l with
  | [] => p = q
  | b :: l' => p = b_addr b ∧ ∃ nx, m !! p = Some (mk_block (b_size b) (b_free b) nx) ∧ seg m nx l' q
  end.

(** Blocks in address order, each after the end of the one before. *)
Fixpoint layout (lo : Z) (l : list blk) (hi : Z) : Prop :=
  match l with
  | [] => lo ≤ hi
  | b :: l' => lo ≤ b_addr b ∧ 0 ≤ b_size b ∧ b_addr b mod 8 = 0 ∧ b_size b mod 8 = 0 ∧
               layout (b_end b) l' hi
  end.

Record heap_ok (h : heap) (l : list blk) : Prop := {
  ho_chain : seg (headers h) (heap_start h) l 0;
  ho_layout : layout PAGE_SIZE l (hb_break (backend h));
  ho_nonempty : l ≠ [];
  ho_backend : hb_ok (backend h);
  ho_break : hb_break (backend h) < 2 ^ 64
}.

Lemma deref_Some m p b : m !! p = Some b → deref m p = Ok b.
Proof. unfold deref. by intros ->. Qed.

Lemma seg_app m p l1 l2 q : seg m p (l1 ++ l2) q ↔ ∃ r, seg m p l1 r ∧ seg m r l2 q.
Proof.
  revert p. induction l1 as [|b l1 IH]; intros p; simpl.
  - split; [eauto|]. by intros (r & -> & H).
  - split.
    + intros (-> & nx & Hm & H). apply IH in H as (r & H1 & H2). eauto 8.
    + intros (r & (-> & nx & Hm & H1) & H2). split; [done|]. exists nx. split; [done|].
      apply IH. eauto.
Qed.

(** Writing a header that is not on the list. *)
Lemma seg_insert_other m p l q a x :
  a ∉ (b_addr <$> l) → seg m p l q → seg (<[a := x]> m) p l q.
Proof.
  revert p. induction l as [|b l IH]; intros p Ha; simpl; [done|].
  rewrite fmap_cons, not_elem_of_cons in Ha. destruct Ha as [Hne Ha].
  intros (-> & nx & Hm & H). split; [done|]. exists nx.
  split; [by rewrite lookup_insert_ne|by apply IH].
Qed.

Lemma layout_app lo l1 l2 hi :
  layout lo (l1 ++ l2) hi ↔ ∃ mid, layout lo l1 mid ∧ layout mid l2 hi.
Proof.
  revert lo. induction l1 as [|b l1 IH]; intros lo; simpl.
  - split; [|by intros (mid & ? & ?); destruct l2; simpl in *; intuition lia].
    intros. exists lo. split; [lia|done].
  - rewrite IH. naive_solver.
Qed.

Lemma layout_mono lo lo' l hi hi' :
  lo' ≤ lo → hi ≤ hi' → layout lo l hi → layout lo' l hi'.
Proof.
  revert lo lo'. induction l as [|b l IH]; intros lo lo' H1 H2; simpl; [lia|].
  intros (? & ? & ? & ? & H). split_and!; try done; [lia|]. by eapply IH; [| |apply H].
Qed.

(** Where the blocks of a layout are. *)
Lemma layout_bounds lo l hi :
  layout lo l hi → lo ≤ hi ∧
    ∀ b, b ∈ l → lo ≤ b_addr b ∧ 0 ≤ b_size b ∧ b_addr b mod 8 = 0 ∧ b_size b mod 8 = 0 ∧ b_end b ≤ hi.
Proof.
  revert lo. induction l as [|b l IH]; intros lo; simpl; [split; [done|set_solver]|].
  intros (H1 & H2 & H3 & H4 & H). destruct (IH _ H) as [Hle Hb].
  unfold b_end, sizeof_heap_block in *. split; [lia|].
  intros c [->|Hc]%elem_of_cons; [split_and!; done || lia|].
  destruct (Hb c Hc) as (? & ? & ? & ? & ?). split_and!; done || lia.
Qed.

Lemma layout_addr_notin lo l hi a :
  layout lo l hi → (a < lo ∨ hi ≤ a) → a ∉ (b_addr <$> l).
Proof.
  intros Hl Ha (b & -> & Hb)%list_elem_of_fmap. destruct (layout_bounds _ _ _ Hl) as [_ H].
  destruct (H b Hb) as (? & ? & _ & _ & ?). unfold b_end, sizeof_heap_block in *. lia.
Qed.

Lemma layout_NoDup lo l hi : layout lo l hi → NoDup (b_addr <$> l).
Proof.
  revert lo. induction l as [|b l IH]; intros lo; simpl; [constructor|].
  intros (H1 & H2 & H3 & H4 & H). constructor; [|by eapply IH].
  eapply layout_addr_notin; [done|]. left. unfold b_end, sizeof_heap_block. lia.
Qed.

(** A block in the middle: the list around it does not use its address. *)
Lemma layout_middle lo l1 b l2 hi :
  layout lo (l1 ++ b :: l2) hi →
  (b_addr b ∉ (b_addr <$> l1)) ∧ b_addr b ∉ (b_addr <$> l2).
Proof.
  intros H%layout_NoDup. rewrite fmap_app, fmap_cons in H.
  apply NoDup_app in H as (_ & Hd & H%NoDup_cons). split; [|apply H].
  intros Hin. apply (Hd _ Hin). by left.
Qed.

Lemma seg_middle m p l1 b l2 q :
  seg m p (l1 ++ b :: l2) q →
  ∃ nx, m !! b_addr b = Some (mk_block (b_size b) (b_free b) nx) ∧
    seg m p l1 (b_addr b) ∧ seg m nx l2 q.
Proof. intros (r & H1 & -> & nx & Hm & H2)%seg_app. eauto. Qed.

(** Rewriting the header of a block in the middle. *)
Lemma seg_update m p l1 b l2 q s f nx :
  seg m p l1 (b_addr b) → seg m nx l2 q →
  b_addr b ∉ (b_addr <$> l1) → b_addr b ∉ (b_addr <$> l2) →
  seg (<[b_addr b := mk_block s f nx]> m) p (l1 ++ mk_blk (b_addr b) s f :: l2) q.
Proof.
  intros H1 H2 N1 N2. apply seg_app. exists (b_addr b). split; [by apply seg_insert_other|].
  simpl. split; [done|]. exists nx. rewrite lookup_insert_eq. split; [done|].
  by apply seg_insert_other.
Qed.

(** The number of headers bounds the length of the list: the fuel is enough. *)
Lemma seg_dom m p l q b : seg m p l q → b ∈ l → is_Some (m !! b_addr b).
Proof.
  revert p. induction l as [|c l IH]; intros p; simpl; [by intros _ ?%elem_of_nil|].
  intros (-> & nx & Hm & H) [->|Hb]%elem_of_cons; eauto.
Qed.

Lemma seg_length m p l lo hi q : seg m p l q → layout lo l hi → (length l ≤ base.size m)%nat.
Proof.
  intros Hs Hl%layout_NoDup. rewrite <- (length_fmap b_addr), <- (size_list_to_set (C:=gset Z)) by done.
  rewrite <- size_dom. apply subseteq_size. intros a (b & -> & Hb)%elem_of_list_to_set%list_elem_of_fmap.
  apply elem_of_dom. by eapply seg_dom.
Qed.

(** ** [kmalloc] *)

Definition fits (sz : Z) (b : blk) : bool := b_free b && (sz <=? b_size b).

(** First fit, on the list of blocks: the blocks before, the block, the rest. *)
Fixpoint find_fit (sz : Z) (l : list blk) : option (list blk * blk * list blk) :=
  match l with
  | [] => None
  | b :: l' =>
      if fits sz b then Some ([], b, l')
      else '(l1, c, l2) ← find_fit sz l'; Some (b :: l1, c, l2)
  end.

Lemma find_fit_Some sz l l1 b l2 :
  find_fit sz l = Some (l1, b, l2) →
  l = l1 ++ b :: l2 ∧ fits sz b = true ∧ Forall (λ c, fits sz c = false) l1.
Proof.
  revert l1. induction l as [|c l IH]; intros l1; simpl; [done|].
  destruct (fits sz c) eqn:E; [intros [= <- <- <-]; done|].
  destruct (find_fit sz l) as [[[l1' b'] l2']|]; [|done]. intros [= <- <- <-].
  destruct (IH l1' eq_refl) as (-> & ? & ?). split_and!; try done. by constructor.
Qed.

Lemma find_fit_None sz l : find_fit sz l = None → Forall (λ c, fits sz c = false) l.
Proof.
  induction l as [|c l IH]; simpl; [constructor|].
  destruct (fits sz c) eqn:E; [done|].
  destruct (find_fit sz l) as [[[l1' b'] l2']|]; [done|]. constructor; auto.
Qed.

(** The scan is first fit. *)
Lemma kmalloc_scan_spec fuel m sz p lst l lo hi :
  seg m p l 0 → layout lo l hi → 0 < lo → (length l ≤ fuel)%nat →
  kmalloc_scan fuel m sz p lst =
    Ok (match find_fit sz l with
        | Some (_, b, _) => inl (b_addr b)
        | None => inr (match last l with Some b => b_addr b | None => lst end)
        end).
Proof.
  revert p lst l lo. induction fuel as [|fuel IH]; intros p lst l lo Hs Hl Hlo Hlen;
    (destruct l as [|b l]; simpl in Hs; [subst p; done|]); simpl in Hlen; [lia|].
  destruct Hs as (-> & nx & Hm & Hs). destruct Hl as (L1 & L2 & L3 & L4 & Hl).
  cbn [kmalloc_scan]. rewrite (proj2 (Z.eqb_neq _ 0)) by lia.
  unfold deref. rewrite Hm. cbn [of_option]. run. cbn [find_fit size free].
  fold (fits sz b). destruct (fits sz b); [done|]. cbn [next].
  rewrite (IH nx (b_addr b) l (b_end b) Hs Hl) by (unfold b_end, sizeof_heap_block; lia || lia).
  destruct (find_fit sz l) as [[[? ?] ?]|]; [done|]. run.
  rewrite last_cons. by destruct (last l).
Qed.

(** What taking a block does to the list. *)
Definition take_block (sz : Z) (b : blk) : list blk :=
  if sz + sizeof_heap_block + 16 <? b_size b
  then [mk_blk (b_addr b) sz false;
        mk_blk (b_addr b + sizeof_heap_block + sz) (b_size b - sz - sizeof_heap_block) true]
  else [mk_blk (b_addr b) (b_size b) false].

Lemma round16_eq sz : 0 ≤ sz → sz + 15 < 2 ^ 64 → round16 sz = (sz + 15) / 16 * 16.
Proof.
  intros. unfold round16. rewrite wrap_small by lia.
  change 15 with (2 ^ 4 - 1) at 2. rewrite mask_low_ones by lia. change (2 ^ 4) with 16. zdm.
Qed.

Lemma kmalloc_take_spec m p l1 b l2 lo hi sz :
  seg m p (l1 ++ b :: l2) 0 → layout lo (l1 ++ b :: l2) hi → 16 ≤ lo → hi < 2 ^ 64 →
  0 ≤ sz ≤ b_size b → sz mod 8 = 0 →
  ∃ m', kmalloc_take m sz (b_addr b) = Ok m' ∧ seg m' p (l1 ++ take_block sz b ++ l2) 0 ∧
    layout lo (l1 ++ take_block sz b ++ l2) hi.
Proof.
  intros Hs Hl Hlo Hhi Hsz Hal. destruct (seg_middle _ _ _ _ _ _ Hs) as (nx & Hm & S1 & S2).
  destruct (layout_middle _ _ _ _ _ Hl) as [N1 N2].
  apply layout_app in Hl as (mid & Hl1 & B1 & B2 & B3 & B4 & Hl2).
  destruct (layout_bounds _ _ _ Hl1) as [Hmid _]. destruct (layout_bounds _ _ _ Hl2) as [Hend _].
  unfold b_end, sizeof_heap_block in *.
  unfold kmalloc_take, deref. rewrite Hm. cbn [of_option]. run. cbn [size free next].
  unfold take_block, sizeof_heap_block in *. rewrite (wrap_small _ (sz + 24 + 16)) by lia.
  destruct (Z.ltb_spec (sz + 24 + 16) (b_size b)) as [Hsp|Hsp].
  - rewrite !wrap_small by lia. set (nb := b_addr b + 24 + sz).
    rewrite lookup_insert_eq. cbn [of_option]. run. cbn [size next].
    eexists. split; [reflexivity|]. rewrite insert_insert_eq. split.
    + assert (Hnb : nb ∉ (b_addr <$> l2)).
      { eapply layout_addr_notin; [done|]. left. unfold nb. lia. }
      assert (Hnb1 : nb ∉ (b_addr <$> l1)).
      { eapply layout_addr_notin; [done|]. right. unfold nb. lia. }
      apply (seg_update _ _ _ b).
      * by apply seg_insert_other.
      * simpl. split; [done|]. exists nx. rewrite lookup_insert_eq. split; [done|].
        by apply seg_insert_other.
      * done.
      * simpl. apply not_elem_of_cons. split; [unfold nb; lia|done].
    + apply layout_app. exists mid. split; [done|]. simpl. unfold b_end, sizeof_heap_block. simpl.
      split_and!; try lia; try zdm. eapply layout_mono; [| |done]; lia.
  - rewrite Hm. cbn [of_option]. run. cbn [size next].
    eexists. split; [reflexivity|]. split; [by apply (seg_update _ _ _ b)|].
    apply layout_app. exists mid. split; [done|]. simpl. by split_and!.
Qed.

Definition set_backend (v : V) (h : heap) : heap :=
  mk_heap (headers h) (heap_start h) (heap_total_size h) v.

Definition grown_block (b sz : Z) : blk :=
  mk_blk b (PAGE_SIZE * Vmm.pages_of (sz + sizeof_heap_block) - sizeof_heap_block) false.

(** Linking a block written at the break behind the last block. *)
Lemma seg_append m p l b x nb lo hi :
  seg m p (l ++ [b]) 0 → layout lo (l ++ [b]) hi → hi ≤ nb → 
  let m1 := <[nb := mk_block (b_size x) (b_free x) 0]> m in
  nb = b_addr x →
  ∃ h0, deref m1 (b_addr b) = Ok h0 ∧
    seg (<[b_addr b := mk_block (size h0) (free h0) nb]> m1) p ((l ++ [b]) ++ [x]) 0.
Proof.
  intros Hs Hl Hhi m1 Hnb. destruct (seg_middle _ _ _ _ _ _ Hs) as (nx & Hm & S1 & _).
  destruct (layout_middle _ _ _ _ _ Hl) as [N1 _].
  pose proof (layout_addr_notin _ _ _ nb Hl (or_intror Hhi)) as Hn.
  rewrite fmap_app, not_elem_of_app in Hn. destruct Hn as [Hn1 Hn2].
  assert (Hne : nb ≠ b_addr b) by (intros ->; apply Hn2; by left).
  exists (mk_block (b_size b) (b_free b) nx). unfold deref, m1.
  rewrite lookup_insert_ne, Hm by done. split; [done|]. rewrite <- app_assoc. cbn [app size free].
  destruct b as [ba bs bf]. cbn [b_addr b_size b_free] in *.
  apply (seg_update _ _ _ (mk_blk ba bs bf)); cbn [b_addr].
  - by apply seg_insert_other.
  - simpl. split; [done|]. exists 0. rewrite lookup_insert_eq. done.
  - done.
  - simpl. apply not_elem_of_cons. split; [congruence|set_solver].
Qed.

Lemma actual_size_eq tn :
  0 ≤ tn → tn + 4095 < 2 ^ 64 →
  mask_low (u64 (tn + PAGE_SIZE - 1)) (PAGE_SIZE - 1) = PAGE_SIZE * Vmm.pages_of tn.
Proof.
  intros. unfold PAGE_SIZE, Vmm.pages_of. rewrite wrap_small by lia.
  change (4096 - 1) with (2 ^ 12 - 1). rewrite mask_low_ones by lia. change (2 ^ 12) with 4096. zdm.
Qed.

Lemma heap_start_nonzero h l : heap_ok h l → heap_start h ≠ 0.
Proof.
  intros [H1 H2 H3 _ _]. destruct l as [|b l]; [done|].
  destruct H1 as [-> _], H2 as [? _]. unfold PAGE_SIZE in *. lia.
Qed.

Lemma heap_scan h l sz :
  heap_ok h l →
  kmalloc_scan (S (base.size (headers h))) (headers h) sz (heap_start h) 0 =
    Ok (match find_fit sz l with
        | Some (_, b, _) => inl (b_addr b)
        | None => inr (match last l with Some b => b_addr b | None => 0 end)
        end).
Proof.
  intros [H1 H2 _ _ _].
  apply (kmalloc_scan_spec _ _ _ _ _ l PAGE_SIZE (hb_break (backend h))); [done..|].
  pose proof (seg_length _ _ _ _ _ _ H1 H2). lia.
Qed.

Section kmalloc_cases.
Context (h : heap) (l : list blk) (n : Z).
Hypothesis Hok : heap_ok h l.
Hypothesis Hn : 0 ≤ n < 2 ^ 63.
Let sz := round16 n.

Lemma round16_bounds : n ≤ sz < n + 16 ∧ sz mod 16 = 0.
Proof. unfold sz. rewrite round16_eq by lia. zdm. Qed.

Lemma kmalloc_found l1 b l2 :
  find_fit sz l = Some (l1, b, l2) →
  ∃ h', kmalloc n h = Ok (b_addr b + sizeof_heap_block, h') ∧
    heap_ok h' (l1 ++ take_block sz b ++ l2) ∧ backend h' = backend h ∧
    heap_total_size h' = heap_total_size h.
Proof.
  intros Ef. pose proof round16_bounds as Hsz. unfold kmalloc.
  rewrite (proj2 (Z.eqb_neq _ 0) (heap_start_nonzero _ _ Hok)), (heap_scan _ l) by done.
  fold sz. rewrite Ef. run. destruct Hok as [H1 H2 H3 H4 H5].
  apply find_fit_Some in Ef as (-> & Hfit & _). apply andb_prop in Hfit as [_ Hfit%Z.leb_le].
  destruct (kmalloc_take_spec _ _ _ _ _ _ _ sz H1 H2) as (m' & -> & Hs' & Hl');
    [done|done|lia|zdm|]. run.
  destruct (layout_bounds _ _ _ H2) as [_ Hb]. destruct (Hb b) as (B1 & B2 & _ & _ & B5);
    [set_solver|]. unfold b_end, sizeof_heap_block, PAGE_SIZE in *.
  rewrite wrap_small by lia. eexists. split; [reflexivity|]. split; [|done].
  constructor; cbn; try done. intros E. apply app_eq_nil in E as [_ E].
  apply app_eq_nil in E as [E _]. unfold take_block in E. by destruct (_ <? _).
Qed.

Lemma kmalloc_grow :
  find_fit sz l = None →
  ∃ p h' l', kmalloc n h = Ok (p, h') ∧ heap_ok h' l' ∧ heap_total_size h' = heap_total_size h ∧
    (p = 0 ∧ l' = l ∨ 
     p = hb_break (backend h) + sizeof_heap_block ∧
     l' = l ++ [grown_block (hb_break (backend h)) sz]).
Proof.
  intros Ef. pose proof round16_bounds as Hsz. unfold kmalloc.
  rewrite (proj2 (Z.eqb_neq _ 0) (heap_start_nonzero _ _ Hok)), (heap_scan _ l) by done.
  fold sz. rewrite Ef. run. destruct Hok as [H1 H2 H3 H4 H5].
  destruct (hb_law (backend h) (sz + 24) H4) as (r & v' & Hsb & Hv' & Hb & Hb' & Hbal & Hcase);
    [lia..|].
  unfold sizeof_heap_block. rewrite (wrap_small _ (sz + 24)) by lia. rewrite Hsb. run.
  destruct Hcase as [->|[-> Hbr]].
  { rewrite Z.eqb_refl. cbn [orb]. eexists 0, _, l. split; [reflexivity|].
    split; [|split; [done|by left]]. constructor; cbn; try done.
    eapply layout_mono; [| |done]; lia. }
  rewrite (proj2 (Z.eqb_neq _ Vmm.MINUS_ONE)) by (unfold Vmm.MINUS_ONE; zdm).
  rewrite (proj2 (Z.eqb_neq _ 0)) by lia. cbn [orb]. rewrite actual_size_eq by lia.
  assert (Hpg : sz + 24 ≤ PAGE_SIZE * Vmm.pages_of (sz + 24)) by (unfold PAGE_SIZE, Vmm.pages_of; zdm).
  set (pg := PAGE_SIZE * Vmm.pages_of (sz + 24)) in *.
  rewrite (wrap_small _ (pg - 24)), (wrap_small _ (hb_break (backend h) + 24)) by lia.
  destruct l as [|b l0 _] using rev_ind; [done|]. rewrite last_snoc.
  assert (Hbn : b_addr b ≠ 0).
  { destruct (layout_bounds _ _ _ H2) as [_ Hbd]. destruct (Hbd b) as [? _]; [set_solver|].
    unfold PAGE_SIZE in *. lia. }
  rewrite (proj2 (Z.eqb_neq _ 0) Hbn).
  destruct (seg_append _ _ _ _ (grown_block (hb_break (backend h)) sz) _ _ _ H1 H2
    (Z.le_refl _) eq_refl) as (h0 & Hd & Hseg).
  cbn [grown_block b_size b_free] in Hd, Hseg. unfold sizeof_heap_block in Hd, Hseg.
  fold pg in Hd, Hseg. rewrite Hd. run.
  eexists _, _, _. split; [reflexivity|]. split; [|split; [done|by right]].
  constructor; cbn [headers heap_start backend]; [exact Hseg| |by destruct l0|done|done].
  apply layout_app. exists (hb_break (backend h)). split; [done|].
  unfold grown_block. cbn [layout b_addr b_size].
  unfold b_end, sizeof_heap_block. cbn [b_addr b_size]. unfold pg, PAGE_SIZE in *. split_and!; [lia..|done|zdm|lia].
Qed.
End kmalloc_cases.

(** ** [kfree] *)

(** The block [b] with its successor absorbed. *)
Definition merge (b c : blk) : blk :=
  mk_blk (b_addr b) (b_size b + sizeof_heap_block + b_size c) (b_free b).

(** The second loop of [kfree], on the list of blocks. *)
Fixpoint coal_from (b : blk) (l : list blk) : list blk :=
  match l with
  | [] => [b]
  | c :: l' => if b_free b && b_free c then coal_from (merge b c) l' else b :: coal_from c l'
  end.

(** Absorbing the next block keeps the chain and the layout. *)
Lemma absorb_spec m p l1 b c l2 lo hi nx nx' :
  seg m p (l1 ++ b :: c :: l2) 0 → layout lo (l1 ++ b :: c :: l2) hi → 0 < lo → hi < 2 ^ 64 →
  m !! b_addr b = Some (mk_block (b_size b) (b_free b) nx) →
  m !! b_addr c = Some (mk_block (b_size c) (b_free c) nx') →
  seg (absorb m (b_addr b) (mk_block (b_size b) (b_free b) nx)
                           (mk_block (b_size c) (b_free c) nx')) p (l1 ++ merge b c :: l2) 0 ∧
  layout lo (l1 ++ merge b c :: l2) hi.
Proof.
  intros Hs Hl Hlo Hhi Hb Hc. destruct (layout_middle _ _ _ _ _ Hl) as [N1 N2].
  destruct (seg_middle _ _ _ _ _ _ Hs) as (nx0 & Hb0 & S1 & S2). rewrite Hb in Hb0.
  injection Hb0 as <-. destruct S2 as (-> & nx1 & Hc1 & S2). rewrite Hc in Hc1. injection Hc1 as <-.
  apply layout_app in Hl as (mid & L1 & B1 & B2 & B3 & B4 & C1 & C2 & C3 & C4 & L2).
  destruct (layout_bounds _ _ _ L1) as [Hm _]. destruct (layout_bounds _ _ _ L2) as [He _].
  unfold b_end, sizeof_heap_block in *. split.
  - unfold absorb, sizeof_heap_block. cbn [size free next].
    rewrite wrap_small by lia. apply (seg_update _ _ _ b); [done|done|done|].
    cbn in N2. by apply not_elem_of_cons in N2 as [_ N2].
  - apply layout_app. exists mid. split; [done|]. unfold merge, sizeof_heap_block.
    cbn [layout b_addr b_size]. split_and!; [lia..|done|zdm|].
    eapply layout_mono; [| |done]; unfold b_end, sizeof_heap_block; cbn [b_addr b_size]; lia.
Qed.

Lemma coalesce_spec fuel m p l1 b l lo hi :
  seg m p (l1 ++ b :: l) 0 → layout lo (l1 ++ b :: l) hi → 0 < lo → hi < 2 ^ 64 →
  (length l ≤ fuel)%nat →
  ∃ m', coalesce fuel m (b_addr b) = Ok m' ∧ seg m' p (l1 ++ coal_from b l) 0 ∧
    layout lo (l1 ++ coal_from b l) hi.
Proof.
  revert fuel m l1 b. induction l as [|c l IH]; intros fuel m l1 b Hs Hl Hlo Hhi Hfuel;
    destruct (seg_middle _ _ _ _ _ _ Hs) as (nx & Hb & S1 & S2);
    assert (Hbn : b_addr b ≠ 0) by
      (destruct (layout_bounds _ _ _ Hl) as [_ Hbd]; destruct (Hbd b) as [? _]; [set_solver|lia]).
  { exists m. cbn in S2. subst nx. split_and!; try done.
    destruct fuel; cbn [coalesce]; rewrite (proj2 (Z.eqb_neq _ 0) Hbn);
      unfold deref; rewrite Hb; done. }
  destruct S2 as (-> & nx' & Hc & S2). cbn in Hfuel. destruct fuel as [|fuel]; [lia|].
  assert (Hcn : b_addr c ≠ 0).
  { destruct (layout_bounds _ _ _ Hl) as [_ Hbd]; destruct (Hbd c) as [? _]; [set_solver|lia]. }
  cbn [coalesce]. rewrite (proj2 (Z.eqb_neq _ 0) Hbn). unfold deref. rewrite Hb.
  cbn [of_option]. run. cbn [next]. rewrite (proj2 (Z.eqb_neq _ 0) Hcn). cbn [free coal_from].
  assert (Hgo : ∃ m', coalesce fuel m (b_addr c) = Ok m' ∧
    seg m' p (l1 ++ b :: coal_from c l) 0 ∧ layout lo (l1 ++ b :: coal_from c l) hi).
  { rewrite (cons_middle b), !app_assoc in *. apply IH; try done. lia. }
  destruct (b_free b) eqn:Eb; [|done]. rewrite Hc. cbn [of_option]. run. cbn [free andb].
  destruct (b_free c) eqn:Ec; [|done].
  destruct (absorb_spec m p l1 b c l lo hi (b_addr c) nx') as [Hs' Hl']; try done;
    [by rewrite Eb|by rewrite Ec|]. rewrite Eb, Ec in Hs'.
  apply (IH fuel _ l1 (merge b c)); [done..|lia].
Qed.

(** ** The blocks in use *)

Definition used (l : list blk) : list blk := filter (λ b, b_free b = false) l.

Definition live_list (l : list blk) : list (Z * Z) :=
  (λ b, (b_addr b + sizeof_heap_block, b_size b)) <$> used l.
Definition live (l : list blk) : gmap Z Z := list_to_map (live_list l).

Lemma used_app l1 l2 : used (l1 ++ l2) = used l1 ++ used l2.
Proof. apply filter_app. Qed.
Lemma used_free b l : b_free b = true → used (b :: l) = used l.
Proof. intros H. unfold used. rewrite filter_cons_False; [done|]. by rewrite H. Qed.
Lemma used_used b l : b_free b = false → used (b :: l) = b :: used l.
Proof. intros H. unfold used. by rewrite filter_cons_True. Qed.

Lemma used_coal b l : used (coal_from b l) = used (b :: l).
Proof.
  revert b. induction l as [|c l IH]; intros b; [done|]. cbn [coal_from].
  destruct (b_free b) eqn:Eb, (b_free c) eqn:Ec; cbn [andb].
  - rewrite IH, !used_free; done.
  - rewrite (used_free b (coal_from c l)), (used_free b) by done. apply IH.
  - rewrite (used_used b (coal_from c l)), (used_used b) by done. by rewrite IH.
  - rewrite (used_used b (coal_from c l)), (used_used b) by done. by rewrite IH.
Qed.

Lemma live_fst l : (live_list l).*1 = (λ a, a + sizeof_heap_block) <$> (b_addr <$> used l).
Proof. unfold live_list. rewrite <- !list_fmap_compose. done. Qed.

Lemma used_sublist l : sublist (used l) l.
Proof. apply sublist_filter. Qed.

Lemma live_NoDup lo l hi : layout lo l hi → NoDup (live_list l).*1.
Proof.
  intros H%layout_NoDup. rewrite live_fst. apply NoDup_fmap_2; [intros ? ?; lia|].
  eapply sublist_NoDup; [exact H|]. apply fmap_sublist, used_sublist.
Qed.

Lemma live_lookup lo l hi q t :
  layout lo l hi →
  live l !! q = Some t ↔ ∃ b, b ∈ l ∧ b_free b = false ∧ q = b_addr b + sizeof_heap_block ∧ t = b_size b.
Proof.
  intros Hl. unfold live. rewrite <- elem_of_list_to_map by by eapply live_NoDup.
  unfold live_list, used. rewrite list_elem_of_fmap. setoid_rewrite list_elem_of_filter. naive_solver.
Qed.

(** Only the used blocks matter, and a used block in the middle is an entry of its own. *)
Lemma live_used l l' : used l = used l' → live l = live l'.
Proof. unfold live, live_list. by intros ->. Qed.

Lemma live_middle lo l1 b l2 hi :
  layout lo (l1 ++ b :: l2) hi → b_free b = false →
  live (l1 ++ b :: l2) = <[b_addr b + sizeof_heap_block := b_size b]> (live (l1 ++ l2)) ∧
  live (l1 ++ l2) !! (b_addr b + sizeof_heap_block) = None.
Proof.
  intros Hl Hb. pose proof (live_NoDup _ _ _ Hl) as Hnd.
  assert (E : live_list (l1 ++ b :: l2) ≡ₚ
    (b_addr b + sizeof_heap_block, b_size b) :: live_list (l1 ++ l2)).
  { unfold live_list. rewrite !used_app, used_used, !fmap_app, fmap_cons by done.
    by rewrite Permutation_middle. }
  split.
  - unfold live. by rewrite (list_to_map_proper _ _ Hnd E).
  - apply not_elem_of_list_to_map. rewrite E in Hnd. cbn in Hnd. by apply NoDup_cons in Hnd as [? _].
Qed.

(** Two different blocks of a layout do not meet. *)
Lemma layout_disjoint lo l hi b c :
  layout lo l hi → b ∈ l → c ∈ l → b_addr b ≠ b_addr c →
  b_end b ≤ b_addr c ∨ b_end c ≤ b_addr b.
Proof.
  revert lo. induction l as [|d l IH]; intros lo; [by intros _ ?%elem_of_nil|].
  intros (_ & _ & _ & _ & Hl) [->|Hb]%elem_of_cons [->|Hc]%elem_of_cons Hne; try done.
  - left. destruct (layout_bounds _ _ _ Hl) as [_ H]. apply (H c Hc).
  - right. destruct (layout_bounds _ _ _ Hl) as [_ H]. apply (H b Hb).
  - by eapply IH.
Qed.

Lemma no_gap_merge b c : b_end b = b_addr c → b_end (merge b c) = b_end c.
Proof. unfold b_end, merge, sizeof_heap_block. cbn. lia. Qed.

(** No two neighbours are both free. *)
Fixpoint coalesced (l : list blk) : Prop :=
  match l with
  | b :: (c :: _) as l' => (b_free b = false ∨ b_free c = false) ∧ coalesced l'
  | _ => True
  end.

Lemma coal_from_head b l : ∃ b' l', coal_from b l = b' :: l' ∧ b_free b' = b_free b.
Proof.
  revert b. induction l as [|c l IH]; intros b; cbn [coal_from]; [eauto|].
  destruct (b_free b && b_free c); [|eauto]. apply (IH (merge b c)).
Qed.

Lemma coal_from_coalesced b l : coalesced (coal_from b l).
Proof.
  revert b. induction l as [|c l IH]; intros b; cbn [coal_from]; [done|].
  destruct (b_free b && b_free c) eqn:E; [apply IH|].
  pose proof (IH c) as H. destruct (coal_from_head c l) as (c' & l' & Ec & Hf). rewrite Ec in *.
  split; [|done]. rewrite Hf. by apply andb_false_iff in E.
Qed.

(** The list after [kfree]: the block is freed, absorbs a free successor, and
    the whole list is coalesced from its head. *)
Definition free_block (b : blk) (l2 : list blk) : list blk :=
  let b1 := mk_blk (b_addr b) (b_size b) true in
  match l2 with
  | c :: l2' => if b_free c then merge b1 c :: l2' else b1 :: l2
  | [] => [b1]
  end.

Definition coal (l : list blk) : list blk :=
  match l with [] => [] | b :: l' => coal_from b l' end.

Lemma free_first_merge m p l1 b l2 lo hi nx :
  seg m p (l1 ++ b :: l2) 0 → layout lo (l1 ++ b :: l2) hi → 0 < lo → hi < 2 ^ 64 →
  m !! b_addr b = Some (mk_block (b_size b) (b_free b) nx) →
  let b1 := mk_block (b_size b) true nx in
  let m1 := <[b_addr b := b1]> m in
  ∃ m2, (if nx =? 0 then Ok m1 else
         n ← deref m1 nx; if free n then Ok (absorb m1 (b_addr b) b1 n) else Ok m1) = Ok m2 ∧
    seg m2 p (l1 ++ free_block b l2) 0 ∧ layout lo (l1 ++ free_block b l2) hi.
Proof.
  intros Hs Hl Hlo Hhi Hb b1 m1. destruct (layout_middle _ _ _ _ _ Hl) as [N1 N2].
  destruct (seg_middle _ _ _ _ _ _ Hs) as (nx0 & Hb0 & S1 & S2). rewrite Hb in Hb0.
  injection Hb0 as <-.
  assert (Hs1 : seg m1 p (l1 ++ mk_blk (b_addr b) (b_size b) true :: l2) 0) by by apply (seg_update _ _ _ b).
  assert (Hl1 : layout lo (l1 ++ mk_blk (b_addr b) (b_size b) true :: l2) hi).
  { apply layout_app in Hl as (mid & ? & ?). apply layout_app. by exists mid. }
  destruct l2 as [|c l2].
  { cbn in S2. subst nx. exists m1. done. }
  destruct S2 as (-> & nx' & Hc & S2).
  assert (Hcn : b_addr c ≠ 0).
  { destruct (layout_bounds _ _ _ Hl) as [_ Hbd]; destruct (Hbd c) as [? _]; [set_solver|lia]. }
  rewrite (proj2 (Z.eqb_neq _ 0) Hcn). unfold deref.
  cbn in N2. apply not_elem_of_cons in N2 as [Hne _].
  assert (Hc1 : m1 !! b_addr c = Some (mk_block (b_size c) (b_free c) nx')).
  { unfold m1. by rewrite lookup_insert_ne. }
  rewrite Hc1. cbn [of_option]. run. cbn [free free_block]. destruct (b_free c) eqn:Ec.
  - destruct (absorb_spec m1 p l1 (mk_blk (b_addr b) (b_size b) true) c l2 lo hi (b_addr c) nx')
      as [Hs2 Hl2]; try done; [apply lookup_insert_eq|by rewrite Ec|].
    eexists. split; [reflexivity|]. rewrite Ec in Hs2. done.
  - eexists. split; [reflexivity|]. done.
Qed.

Lemma kfree_list h l1 b l2 :
  heap_ok h (l1 ++ b :: l2) →
  ∃ h', kfree (b_addr b + sizeof_heap_block) h = Ok h' ∧
    heap_ok h' (coal (l1 ++ free_block b l2)) ∧ backend h' = backend h ∧
    heap_total_size h' = heap_total_size h.
Proof.
  intros [H1 H2 H3 H4 H5]. destruct (seg_middle _ _ _ _ _ _ H1) as (nx & Hb & _ & _).
  destruct (layout_bounds _ _ _ H2) as [_ Hbd]. destruct (Hbd b) as (B1 & B2 & _ & _ & B5); [set_solver|].
  unfold b_end, sizeof_heap_block, PAGE_SIZE in *. unfold kfree.
  rewrite (proj2 (Z.eqb_neq _ 0)) by lia. unfold sizeof_heap_block. cbv zeta.
  rewrite Z.add_simpl_r, wrap_small by lia. rewrite (deref_Some _ _ _ Hb). run.
  cbn [next size].
  destruct (free_first_merge _ _ _ _ _ _ _ nx H1 H2) as (m2 & -> & Hs2 & Hl2); [done..|]. run.
  pose proof (seg_length _ _ _ _ _ _ Hs2 Hl2) as Hlen.
  assert (Hne : ∃ d l, l1 ++ free_block b l2 = d :: l).
  { destruct l1; [|cbn; eauto]. unfold free_block. destruct l2 as [|c l2]; [cbn; eauto|].
    destruct (b_free c); cbn; eauto. }
  destruct Hne as (d & l & E). rewrite E in *. destruct Hs2 as [Hst Hs2'] eqn:EE. clear EE.
  cbn [length] in Hlen.
  destruct (coalesce_spec (base.size m2) m2 (heap_start h) [] d l 4096 (hb_break (backend h)))
    as (m3 & Hc & Hs3 & Hl3); [by split|done|done|done|lia|].
  rewrite Hst, Hc. run. eexists. split; [reflexivity|]. split; [|done].
  constructor; cbn; try done.
  destruct (coal_from_head d l) as (? & ? & -> & _). done.
Qed.

(** ** What clients see *)

(** [p .. p+s) is a block of its own: payload and header meet no block of [m]. *)
Definition apart (p s : Z) (m : gmap Z Z) : Prop :=
  ∀ q t, m !! q = Some t →
    p + s ≤ q - sizeof_heap_block ∨ q + t ≤ p - sizeof_heap_block.

Lemma block_apart lo l1 b l2 hi :
  layout lo (l1 ++ b :: l2) hi →
  apart (b_addr b + sizeof_heap_block) (b_size b) (live (l1 ++ l2)).
Proof.
  intros Hl q t Hq. pose proof (layout_middle _ _ _ _ _ Hl) as [N1 N2].
  assert (Hq' : (q, t) ∈ live_list (l1 ++ l2)) by by apply elem_of_list_to_map_2 in Hq.
  unfold live_list, used in Hq'. apply list_elem_of_fmap in Hq' as (c & [= -> ->] & Hc).
  apply list_elem_of_filter in Hc as [_ Hc].
  destruct (layout_disjoint _ _ _ b c Hl) as [H|H]; [set_solver..| | |];
    unfold b_end, sizeof_heap_block in *; [|lia..].
  intros E. apply elem_of_app in Hc as [Hc|Hc]; [apply N1|apply N2]; rewrite E;
    by apply list_elem_of_fmap_2.
Qed.

(** Adding the used block [b] between [l1] and [l2], where [lold] had no used one. *)
Lemma client_insert lo l1 b l2 hi lold :
  layout lo (l1 ++ b :: l2) hi → b_free b = false → live (l1 ++ l2) = live lold →
  let p := b_addr b + sizeof_heap_block in
  p mod 8 = 0 ∧ lo ≤ p - sizeof_heap_block ∧ p + b_size b ≤ hi ∧
  live lold !! p = None ∧ live (l1 ++ b :: l2) = <[p := b_size b]> (live lold) ∧
  apart p (b_size b) (live lold).
Proof.
  intros Hl Hb E p. destruct (live_middle _ _ _ _ _ Hl Hb) as [E1 E2]. rewrite E in *.
  destruct (layout_bounds _ _ _ Hl) as [_ Hbd]. destruct (Hbd b) as (B1 & B2 & B3 & _ & B5); [set_solver|].
  unfold p, b_end, sizeof_heap_block in *. split_and!; try done; try lia; try zdm.
  rewrite <- E. by eapply block_apart.
Qed.

(** The block [kmalloc] uses has room for the request. *)
Lemma take_block_used sz b l :
  used (take_block sz b ++ l) =
    mk_blk (b_addr b) (if sz + sizeof_heap_block + 16 <? b_size b then sz else b_size b) false :: used l.
Proof. unfold take_block. by destruct (_ <? _). Qed.

Lemma kmalloc_client h l n :
  heap_ok h l → 0 ≤ n < 2 ^ 63 →
  ∃ p h' l', kmalloc n h = Ok (p, h') ∧ heap_ok h' l' ∧
    ((p = 0 ∧ live l' = live l ∧ find_fit (round16 n) l = None) ∨
     ∃ s, n ≤ s ∧ p mod 8 = 0 ∧ PAGE_SIZE ≤ p - sizeof_heap_block ∧
       p + s ≤ hb_break (backend h') ∧ live l !! p = None ∧ live l' = <[p := s]> (live l) ∧
       apart p s (live l)).
Proof.
  intros Hok Hn. pose proof (round16_bounds n Hn) as [Hr _].
  destruct (find_fit (round16 n) l) as [[[l1 b] l2]|] eqn:Ef.
  - destruct (kmalloc_found h l n Hok Hn l1 b l2 Ef) as (h' & E & Hok' & _).
    apply find_fit_Some in Ef as (-> & [Hfr Hfit%Z.leb_le]%andb_prop & _).
    eexists _, h', _. split; [exact E|]. split; [exact Hok'|]. right.
    destruct (take_block (round16 n) b) as [|b' rest] eqn:Etb; [by unfold take_block in Etb; destruct (_ <? _)|].
    assert (Hb' : b_addr b' = b_addr b ∧ b_free b' = false ∧ n ≤ b_size b' ∧ used rest = []).
    { unfold take_block in Etb. destruct (Z.ltb_spec (round16 n + sizeof_heap_block + 16) (b_size b));
        injection Etb as <- <-; split_and!; try done; cbn; lia. }
    destruct Hb' as (Ha & Hf & Hs & Hu). exists (b_size b'). split; [done|]. rewrite <- Ha.
    pose proof (ho_layout _ _ Hok') as Hl'. cbn [app] in Hl' |- *.
    apply (client_insert _ _ _ _ _ (l1 ++ b :: l2) Hl' Hf).
    apply live_used. by rewrite !used_app, Hu, (used_free b).
  - destruct (kmalloc_grow h l n Hok Hn Ef) as (p & h' & l' & E & Hok' & _ & Hcase).
    exists p, h', l'. split; [done|]. split; [done|].
    destruct Hcase as [[-> ->]|[-> ->]]; [by left|]. right.
    pose proof (ho_layout _ _ Hok') as Hl'.
    exists (b_size (grown_block (hb_break (backend h)) (round16 n))).
    split; [unfold grown_block, Vmm.pages_of, PAGE_SIZE, sizeof_heap_block; cbn; zdm|].
    apply (client_insert _ l _ [] _ l Hl'); [done|]. by rewrite app_nil_r.
Qed.

Lemma kfree_client h l p s :
  heap_ok h l → live l !! p = Some s →
  ∃ h' l', kfree p h = Ok h' ∧ heap_ok h' l' ∧ live l' = delete p (live l) ∧ coalesced l' ∧
    backend h' = backend h.
Proof.
  intros Hok Hp. pose proof (ho_layout _ _ Hok) as Hl.
  apply (live_lookup _ _ _ _ _ Hl) in Hp as (b & Hb & Hf & -> & ->).
  apply list_elem_of_split in Hb as (l1 & l2 & ->).
  destruct (kfree_list h l1 b l2 Hok) as (h' & E & Hok' & Hbk & _).
  exists h', (coal (l1 ++ free_block b l2)). split_and!; [done..| | |done].
  - destruct (live_middle _ _ _ _ _ Hl Hf) as [-> Hn]. rewrite delete_insert_id by done.
    apply live_used. transitivity (used (l1 ++ free_block b l2)).
    + unfold coal. destruct (l1 ++ free_block b l2); [done|]. apply used_coal.
    + rewrite !used_app. f_equal. unfold free_block. destruct l2 as [|c l2]; [done|].
      destruct (b_free c) eqn:Ec; [|done]. by rewrite (used_free c).
  - unfold coal. destruct (l1 ++ free_block b l2); [done|]. apply coal_from_coalesced.
Qed.

(** *** Sequences of requests *)

(** A client and the heap: the client holds the pointers it was given, with the
    sizes it asked for, and frees only what it holds. *)
Inductive client_step : heap * gmap Z Z → heap * gmap Z Z → Prop :=
| step_malloc h own n p h' :
    0 ≤ n < 2 ^ 63 → kmalloc n h = Ok (p, h') →
    client_step (h, own) (h', if p =? 0 then own else <[p := n]> own)
| step_free h own p n h' :
    own !! p = Some n → kfree p h = Ok h' →
    client_step (h, own) (h', delete p own).

(** All memory from [start] to the break can be accessed, unless mapping may have failed. *)
Definition heap_memory (start : Z) (v : V) : Prop := hb_plenty v → ∀ a, start ≤ a < hb_break v → hb_access a v.

Lemma heap_memory_sbrk start v n r v' : hb_ok v → 0 < n → n + 4095 < 2 ^ 64 → hb_sbrk n v = Ok (r, v') →
  heap_memory start v → heap_memory start v'.
Proof.
  intros Hv Hn Hn' E Hm Hp a Ha. destruct (hb_memory_law v n r v' Hv Hn Hn' E Hp) as (Hp0 & H1 & H2).
  destruct (decide (a < hb_break v)); [apply H1; [done|apply (Hm Hp0); lia]|apply H2; lia].
Qed.

(** [kmalloc] changes the backend by [sbrk] alone, and the first block stays. *)
Lemma kmalloc_memory h l n p h' start : heap_ok h l → 0 ≤ n < 2 ^ 63 → kmalloc n h = Ok (p, h') →
  heap_start h' = heap_start h ∧ (heap_memory start (backend h) → heap_memory start (backend h')).
Proof.
  intros Hok Hn. pose proof (round16_bounds n Hn) as Hsz. unfold kmalloc.
  rewrite (proj2 (Z.eqb_neq _ 0) (heap_start_nonzero _ _ Hok)), (heap_scan _ l) by done. run.
  destruct (find_fit (round16 n) l) as [[[l1 b] l2]|].
  { intros H. apply bind_Ok in H as (m & _ & H). by injection H as _ <-. }
  intros H. apply bind_Ok in H as ([r v] & E & H).
  assert (Hm : heap_memory start (backend h) → heap_memory start v).
  { eapply heap_memory_sbrk; [apply (ho_backend _ _ Hok)| | |exact E]; unfold sizeof_heap_block; rewrite wrap_small; lia. }
  destruct (_ || _); [by injection H as _ <-|]. destruct Hok as [_ H2 H3 _ _].
  destruct l as [|b l0 _] using rev_ind; [done|]. rewrite last_snoc in H.
  destruct (layout_bounds _ _ _ H2) as [_ Hbd]. destruct (Hbd b) as [? _]; [set_solver|].
  rewrite (proj2 (Z.eqb_neq (b_addr b) 0)) in H by (unfold PAGE_SIZE in *; lia).
  apply bind_Ok in H as (x & _ & H). by injection H as _ <-.
Qed.

Lemma kfree_start p h h' : kfree p h = Ok h' → heap_start h' = heap_start h ∧ backend h' = backend h.
Proof.
  unfold kfree. destruct (p =? 0); [by intros [= <-]|]. intros H. inv_ok H. inv_ok H. inv_ok H. by injection H as <-.
Qed.

(** What holds of the heap and its client: the blocks it holds are in use, and the memory of the heap is there. *)
Definition client_inv (start : Z) (s : heap * gmap Z Z) : Prop :=
  ∃ l, heap_ok (fst s) l ∧ heap_start (fst s) = start ∧ heap_memory start (backend (fst s)) ∧
    ∀ p n, snd s !! p = Some n → ∃ sz, n ≤ sz ∧ live l !! p = Some sz.

Lemma client_step_inv start s s' : client_step s s' → client_inv start s → client_inv start s'.
Proof.
  intros Hstep (l & Hok & Hst & Hmem & Hown). destruct Hstep as [h own n p h' Hn E|h own p n h' Hp E]; cbn in *.
  - destruct (kmalloc_memory h l n p h' start Hok Hn E) as [Est Em].
    destruct (kmalloc_client h l n Hok Hn) as (p' & h'' & l' & E' & Hok' & Hcase).
    rewrite E in E'. injection E' as <- <-. exists l'. cbn. split_and!; [done|congruence|by apply Em|].
    destruct Hcase as [(-> & -> & _)|(sz & Hsz & _ & Hp & _ & _ & -> & _)]; [done|].
    unfold PAGE_SIZE, sizeof_heap_block in Hp. rewrite (proj2 (Z.eqb_neq _ 0)) by lia.
    intros q m [[-> ->]|[Hne Hq]]%lookup_insert_Some; [exists sz; by rewrite lookup_insert_eq|].
    rewrite lookup_insert_ne by done. eauto.
  - destruct (kfree_start _ _ _ E) as [Est Eb]. destruct (Hown p n Hp) as (sz & _ & Hlive).
    destruct (kfree_client h l p sz Hok Hlive) as (h'' & l' & E' & Hok' & Hl' & _).
    rewrite E in E'. injection E' as <-. exists l'. cbn. split_and!; [done|congruence|by rewrite Eb|]. rewrite Hl'.
    intros q m [Hne Hq]%lookup_delete_Some. rewrite lookup_delete_ne by done. eauto.
Qed.

Lemma client_steps_inv start s s' : rtc client_step s s' → client_inv start s → client_inv start s'.
Proof. induction 1; eauto using client_step_inv. Qed.

(** The headers start where the heap does. *)
Lemma blocks_from_start h l : heap_ok h l → layout (heap_start h) l (hb_break (backend h)).
Proof.
  intros [H1 H2 H3 _ _]. destruct l as [|b l]; [done|]. destruct H1 as [-> _]. cbn in H2 |- *. split; [lia|tauto].
Qed.

Lemma kheap_init_ok start sz h :
  PAGE_SIZE ≤ start → start mod 8 = 0 → 48 ≤ sz → sz mod 8 = 0 →
  start + sz ≤ hb_break (backend h) < 2 ^ 64 → hb_ok (backend h) →
  ∃ h', kheap_init start sz h = (true, h') ∧ backend h' = backend h ∧
    heap_ok h' [mk_blk start (sz - sizeof_heap_block) true].
Proof.
  intros H1 H2 H3 H4 H5 H6. unfold kheap_init, PAGE_SIZE, sizeof_heap_block in *.
  rewrite (proj2 (Z.eqb_neq _ 0)) by lia. rewrite (proj2 (Z.ltb_ge _ _)) by lia.
  eexists. split; [reflexivity|]. split; [done|]. constructor; cbn; try done; [| |lia].
  - split; [done|]. exists 0. by rewrite lookup_insert_eq.
  - unfold b_end, sizeof_heap_block. cbn. unfold PAGE_SIZE. split_and!; try lia; zdm.
Qed.

(** ** Statistics *)

Definition sum_sizes (l : list blk) : Z := foldr (λ b acc, b_size b + acc) 0 l.

Lemma layout_sum lo l hi : layout lo l hi →
  0 ≤ sum_sizes l ∧ sum_sizes l + sizeof_heap_block * Z.of_nat (length l) ≤ hi - lo.
Proof.
  revert lo. induction l as [|b l IH]; intros lo; cbn [layout sum_sizes foldr length]; [cbn; lia|].
  intros (H1 & H2 & _ & _ & H). specialize (IH _ H). unfold b_end, sizeof_heap_block in *.
  fold (sum_sizes l). lia.
Qed.

Definition frees (l : list blk) : list blk := filter (λ b, b_free b = true) l.

Lemma frees_free b l : b_free b = true → frees (b :: l) = b :: frees l.
Proof. intros H. unfold frees. by rewrite filter_cons_True. Qed.
Lemma frees_used b l : b_free b = false → frees (b :: l) = frees l.
Proof. intros H. unfold frees. rewrite filter_cons_False; [done|]. by rewrite H. Qed.

Lemma sum_cons b l : sum_sizes (b :: l) = b_size b + sum_sizes l.
Proof. reflexivity. Qed.

Lemma sum_split l : sum_sizes l = sum_sizes (used l) + sum_sizes (frees l).
Proof.
  induction l as [|b l IH]; [done|]. rewrite sum_cons, IH. destruct (b_free b) eqn:E.
  - rewrite used_free, frees_free, sum_cons by done. lia.
  - rewrite used_used, frees_used, sum_cons by done. lia.
Qed.

Lemma stats_loop_spec fuel m p l lo hi u f c fc :
  seg m p l 0 → layout lo l hi → 0 < lo → (length l ≤ fuel)%nat →
  0 ≤ u → 0 ≤ f → 0 ≤ c → 0 ≤ fc ≤ c →
  u + f + c + sum_sizes l + sizeof_heap_block * Z.of_nat (length l) < 2 ^ 64 →
  stats_loop fuel m p u f c fc =
    Ok (u + sum_sizes (used l), f + sum_sizes (frees l),
        c + Z.of_nat (length l), fc + Z.of_nat (length (frees l))).
Proof.
  revert p l lo u f c fc. induction fuel as [|fuel IH];
    intros p l lo u f c fc Hs Hl Hlo Hlen Hu Hf Hc Hfc Hb;
    (destruct l as [|b l]; [cbn in Hs; subst p; cbn; by rewrite !Z.add_0_r|]); cbn in Hlen; [lia|].
  destruct Hs as (-> & nx & Hm & Hs). destruct Hl as (L1 & L2 & _ & _ & Hl).
  destruct (layout_sum _ _ _ Hl) as [Hsum _].
  cbn [sum_sizes foldr length] in Hb. fold (sum_sizes l) in Hb. unfold sizeof_heap_block in Hb.
  cbn [stats_loop]. rewrite (proj2 (Z.eqb_neq _ 0)) by lia. rewrite (deref_Some _ _ _ Hm). run.
  cbn [free size next]. assert (Hlo' : 0 < b_end b) by (unfold b_end, sizeof_heap_block; lia).
  rewrite !wrap_small by lia. destruct (b_free b) eqn:Eb.
  - rewrite (IH nx l (b_end b)) by (try done; unfold sizeof_heap_block; lia).
    rewrite used_free, frees_free by done. cbn [sum_sizes foldr length].
    fold (sum_sizes (frees l)). f_equal. rewrite !pair_equal_spec. lia.
  - rewrite (IH nx l (b_end b)) by (try done; unfold sizeof_heap_block; lia).
    rewrite used_used, frees_used by done. cbn [sum_sizes foldr length].
    fold (sum_sizes (used l)). f_equal. rewrite !pair_equal_spec. lia.
Qed.

Lemma sum_filter_nonneg P `{!∀ b, Decision (P b)} lo l hi :
  layout lo l hi → 0 ≤ sum_sizes (filter P l).
Proof.
  intros Hl. destruct (layout_bounds _ _ _ Hl) as [_ Hb]. clear Hl.
  induction l as [|b l IH]; [done|]. rewrite filter_cons.
  assert (0 ≤ b_size b) by (apply (Hb b); by left).
  assert (0 ≤ sum_sizes (filter P l)) by (apply IH; intros; apply Hb; by right).
  case_decide; [rewrite sum_cons; lia|done].
Qed.

Lemma kheap_get_stats_list h l :
  heap_ok h l → 0 ≤ heap_total_size h < 2 ^ 64 →
  let in_use := sum_sizes (used l) + sizeof_heap_block * Z.of_nat (length l) in
  kheap_get_stats h =
    Ok (mk_stats (heap_total_size h) (Z.min (heap_total_size h) in_use)
          (heap_total_size h - Z.min (heap_total_size h) in_use)
          (Z.of_nat (length l)) (Z.of_nat (length (frees l)))).
Proof.
  intros [H1 H2 H3 H4 H5] Ht in_use. destruct (layout_sum _ _ _ H2) as [Hs Hs'].
  pose proof (sum_split l) as Hsp. pose proof (seg_length _ _ _ _ _ _ H1 H2) as Hlen.
  pose proof (sum_filter_nonneg (λ b, b_free b = false) _ _ _ H2 : 0 ≤ sum_sizes (used l)) as Hu.
  pose proof (sum_filter_nonneg (λ b, b_free b = true) _ _ _ H2 : 0 ≤ sum_sizes (frees l)) as Hf.
  unfold sizeof_heap_block, PAGE_SIZE in *. unfold kheap_get_stats.
  rewrite (stats_loop_spec _ _ _ l PAGE_SIZE (hb_break (backend h)) 0 0 0 0);
    [|done|done|done|lia..|unfold sizeof_heap_block; lia]. run.
  rewrite !Z.add_0_l. unfold sizeof_heap_block. rewrite (wrap_small _ (_ * 24)) by lia.
  rewrite (wrap_small _ (_ + _)) by lia. rewrite (Z.mul_comm (Z.of_nat _) 24). fold in_use.
  destruct (Z.ltb_spec (heap_total_size h) in_use).
  - rewrite Z.min_l, wrap_small by lia. done.
  - rewrite Z.min_r, wrap_small by (unfold in_use in *; lia). done.
Qed.
End heap.

(** ** The backend of the kernel: [VMM::sbrk] *)

#[global] Program Instance vmm_backend : HeapBackend Vmm.vmm := {|
  hb_sbrk := Vmm.sbrk;
  hb_break := Vmm.kernel_dynamic_break;
  hb_ok v := ∃ T, Vmm.vmm_wf v T;
  hb_plenty := Vmm.plenty;
  hb_access := Vmm.can_access
|}.
Next Obligation.
  intros v n (T & Hwf) Hn Hn'.
  destruct (Vmm.sbrk_spec v T n Hwf Hn Hn') as (r & v' & T' & E & Hwf' & Hb & _ & _ & Hr & _).
  pose proof (Vmm.vw_kernel _ _ Hwf). pose proof (Vmm.vw_room _ _ Hwf').
  pose proof (Vmm.vw_aligned _ _ Hwf).
  exists r, v'. split_and!; [done|by exists T'|lia|lia|lia|zdm|].
  destruct Hr as [[-> _]|[-> ->]]; [by left|by right].
Qed.
Next Obligation. intros v n r v' (T & Hwf) Hn Hn' E Hp. exact (Vmm.sbrk_memory v T n r v' Hwf Hn Hn' E Hp). Qed.

(** ** Properties *)

(** The kernel's own start-up on the small machine: one page from [VMM::sbrk],
    then [kheap_init] on it. *)
Definition demo_start : outcome heap :=
  '(a, v) ← Vmm.sbrk 4096 Vmm.demo_vmm;
  Ok (snd (kheap_init a 4096 (mk_heap ∅ 0 0 v))).

Definition demo_blocks : list blk := [mk_blk 0xFFFFFFFFC0000000 4072 true].

Lemma demo_start_ok : ∃ h, demo_start = Ok h ∧ heap_ok h demo_blocks.
Proof.
  destruct (Vmm.sbrk_spec Vmm.demo_vmm Paging.demo_tables 4096 Vmm.demo_vmm_wf)
    as (r & v & T & E & Hwf & _ & _ & _ & Hr & Hmap); [lia..|].
  destruct Hmap as (fs & -> & _); [vm_compute; reflexivity|].
  destruct Hr as [[Hbad _]|[_ Hb]]; [discriminate Hbad|].
  pose proof (Vmm.vw_room _ _ Hwf).
  destruct (kheap_init_ok (V := Vmm.vmm) 0xFFFFFFFFC0000000 4096 (mk_heap ∅ 0 0 v))
    as (h & Eh & _ & Hok);
    [unfold PAGE_SIZE; lia|reflexivity|lia|reflexivity| |by exists T|].
  { cbn [backend hb_break vmm_backend]. rewrite Hb in *.
    change (Vmm.kernel_dynamic_break Vmm.demo_vmm) with 0xFFFFFFFFC0000000.
    change (Vmm.pages_of 4096) with 1. lia. }
  exists h. unfold demo_start. rewrite E. run.
  change (Vmm.kernel_dynamic_break Vmm.demo_vmm) with 0xFFFFFFFFC0000000. rewrite Eh.
  split; [reflexivity|exact Hok].
Qed.

(** The memory of the first page. *)
Lemma demo_memory : ∃ v, Vmm.sbrk 4096 Vmm.demo_vmm = Ok (0xFFFFFFFFC0000000, v) ∧ hb_ok v ∧
  hb_break v = 0xFFFFFFFFC0001000 ∧ heap_memory 0xFFFFFFFFC0000000 v.
Proof.
  destruct (Vmm.sbrk_spec Vmm.demo_vmm Paging.demo_tables 4096 Vmm.demo_vmm_wf)
    as (r & v & T & E & Hwf & _ & _ & _ & Hr & Hmap); [lia..|].
  destruct Hmap as (fs & -> & _); [vm_compute; reflexivity|].
  destruct Hr as [[Hbad _]|[_ Hb]]; [discriminate Hbad|]. exists v. split; [exact E|]. split; [by exists T|].
  split; [exact Hb|]. intros Hp a Ha.
  destruct (Vmm.sbrk_memory Vmm.demo_vmm Paging.demo_tables 4096 _ v Vmm.demo_vmm_wf ltac:(lia) ltac:(lia) E Hp) as (_ & _ & H). by apply H.
Qed.

Section claims.
Context {V : Type} `{!HeapBackend V}.
Implicit Types h : @heap V.

(** C3. [kmalloc] always returns and keeps the heap well formed.  Either it answers
    null, with no free block large enough and nothing changed for clients, or
    it answers a fresh 8-byte aligned pointer to a block of at least the
    requested size, inside the heap, whose payload and header overlap no block
    in use, and the set of blocks in use grows by exactly this block. *)
Theorem kmalloc_sound h l n :
  heap_ok h l → 0 ≤ n < 2 ^ 63 →
  ∃ p h' l', kmalloc n h = Ok (p, h') ∧ heap_ok h' l' ∧
    ((p = 0 ∧ live l' = live l ∧ find_fit (round16 n) l = None) ∨
     ∃ s, n ≤ s ∧ p mod 8 = 0 ∧ PAGE_SIZE ≤ p - sizeof_heap_block ∧
       p + s ≤ hb_break (backend h') ∧ live l !! p = None ∧ live l' = <[p := s]> (live l) ∧
       apart p s (live l)).
Proof. apply kmalloc_client. Qed.

(** [kmalloc] is first fit: it uses the first block of the list that is free
    and large enough, splits it exactly when more than a header and 16 bytes
    would be left over, and asks for no memory then. *)
Theorem kmalloc_first_fit h l n l1 b l2 :
  heap_ok h l → 0 ≤ n < 2 ^ 63 → find_fit (round16 n) l = Some (l1, b, l2) →
  l = l1 ++ b :: l2 ∧ b_free b = true ∧
  Forall (λ c, b_free c = false ∨ b_size c < round16 n) l1 ∧
  ∃ h', kmalloc n h = Ok (b_addr b + sizeof_heap_block, h') ∧ backend h' = backend h ∧
    heap_ok h' (l1 ++ take_block (round16 n) b ++ l2).
Proof.
  intros Hok Hn Ef. destruct (kmalloc_found h l n Hok Hn l1 b l2 Ef) as (h' & E & Hok' & Hb & _).
  apply find_fit_Some in Ef as (-> & [Hfr _]%andb_prop & Hl1). split_and!; [done..| |eauto].
  eapply Forall_impl; [done|]. intros c [|H%Z.leb_gt]%andb_false_iff; [by left|by right].
Qed.

(** C19. [kfree] of a block in use returns and keeps the heap well formed: exactly
    that block leaves the set of blocks in use, and afterwards no two
    neighbouring blocks of the list are both free. *)
Theorem kfree_sound h l p s :
  heap_ok h l → live l !! p = Some s →
  ∃ h' l', kfree p h = Ok h' ∧ heap_ok h' l' ∧ live l' = delete p (live l) ∧ coalesced l' ∧
    backend h' = backend h.
Proof. apply kfree_client. Qed.


(** [kheap_get_stats] counts the blocks and the free blocks of the list, and as
    long as the blocks fill the size given to [kheap_init] it reports exactly
    the bytes of the free payloads as free and all others as used. *)
Theorem kheap_stats_exact h l :
  heap_ok h l → 0 ≤ heap_total_size h < 2 ^ 64 →
  sum_sizes l + sizeof_heap_block * Z.of_nat (length l) = heap_total_size h →
  ∃ st, kheap_get_stats h = Ok st ∧
    st_block_count st = Z.of_nat (length l) ∧
    st_free_block_count st = Z.of_nat (length (frees l)) ∧
    st_free_size st = sum_sizes (frees l) ∧
    st_used_size st + st_free_size st = st_total_size st.
Proof.
  intros Hok Ht Hsum. pose proof (sum_split l) as Hsp.
  eexists. split; [by apply kheap_get_stats_list|]. cbn.
  assert (0 ≤ sum_sizes (frees l)).
  { eapply sum_filter_nonneg. apply (ho_layout _ _ Hok). }
  rewrite Z.min_r by lia. lia.
Qed.
End claims.

Lemma kmalloc_sound_witness :
  ∃ h p h' l' s, demo_start = Ok h ∧ kmalloc 100 h = Ok (p, h') ∧ heap_ok h' l' ∧
    100 ≤ s ∧ live l' = <[p := s]> ∅.
Proof.
  destruct demo_start_ok as (h & E & Hok).
  destruct (kmalloc_sound h demo_blocks 100 Hok) as (p & h' & l' & Ek & Hok' & Hcase); [lia|].
  destruct Hcase as [(_ & _ & Hbad)|(s & Hs & _ & _ & _ & _ & Hl & _)];
    [vm_compute in Hbad; discriminate Hbad|].
  exists h, p, h', l', s. split; [exact E|]. split; [exact Ek|]. split; [exact Hok'|].
  split; [exact Hs|exact Hl].
Defined.

Lemma kmalloc_first_fit_witness :
  ∃ h h', demo_start = Ok h ∧ kmalloc 100 h = Ok (0xFFFFFFFFC0000018, h') ∧
    heap_ok h' [mk_blk 0xFFFFFFFFC0000000 112 false; mk_blk 0xFFFFFFFFC0000088 3936 true].
Proof.
  destruct demo_start_ok as (h & E & Hok).
  destruct (kmalloc_first_fit h demo_blocks 100 [] (mk_blk 0xFFFFFFFFC0000000 4072 true) [] Hok)
    as (_ & _ & _ & h' & Ek & _ & Hok'); [lia|vm_compute; reflexivity|].
  exists h, h'. split; [exact E|]. split; [exact Ek|exact Hok'].
Defined.

(** A block is allocated and freed on the small machine. *)
Lemma kfree_sound_witness :
  ∃ h h' h'' l, demo_start = Ok h ∧ kmalloc 100 h = Ok (0xFFFFFFFFC0000018, h') ∧
    kfree 0xFFFFFFFFC0000018 h' = Ok h'' ∧ heap_ok h'' l ∧ live l = ∅.
Proof.
  destruct demo_start_ok as (h & E & Hok).
  destruct (kmalloc_found h demo_blocks 100 Hok ltac:(lia) [] (mk_blk 0xFFFFFFFFC0000000 4072 true) [])
    as (h' & Ek & Hok' & _); [vm_compute; reflexivity|].
  destruct (kfree_sound h' _ 0xFFFFFFFFC0000018 112 Hok') as (h'' & l & Ef & Hok'' & Hl & _);
    [vm_compute; reflexivity|].
  exists h, h', h'', l. split; [exact E|]. split; [exact Ek|]. split; [exact Ef|].
  split; [exact Hok''|]. rewrite Hl. vm_compute. reflexivity.
Defined.


Lemma kheap_stats_exact_witness :
  ∃ h st, demo_start = Ok h ∧ kheap_get_stats h = Ok st ∧ st_free_size st = 4072.
Proof.
  destruct demo_start_ok as (h & E & Hok).
  assert (Ht : heap_total_size h = 4096).
  { assert (Hm : match demo_start with Ok h => heap_total_size h = 4096 | _ => False end)
      by (vm_compute; reflexivity). rewrite E in Hm. exact Hm. }
  destruct (kheap_stats_exact h demo_blocks Hok) as (st & Es & _ & _ & Hf & _);
    [rewrite Ht; lia|rewrite Ht; vm_compute; reflexivity|].
  exists h, st. split; [exact E|]. split; [exact Es|exact Hf].
Defined.

(** The rounding of the request wraps around: [kmalloc(2^64 - 1)] on a fresh heap
    answers a pointer, to a block of size 0. *)
Theorem kmalloc_huge_request_wraps :
  match demo_start with
  | Ok h =>
      match kmalloc (2 ^ 64 - 1) h with
      | Ok (p, h') =>
          p = 0xFFFFFFFFC0000018 ∧
          size <$> (headers h' !! (p - sizeof_heap_block)) = Some 0 ∧
          free <$> (headers h' !! (p - sizeof_heap_block)) = Some false
      | _ => False
      end
  | _ => False
  end.
Proof. vm_compute. split_and!; reflexivity. Qed.

(** The total of [kheap_get_stats] is not updated when the heap grows: after a
    5000-byte allocation from a fresh 4096-byte heap the statistics still say
    4096 bytes in total, now all used, although the first block is free. *)
Theorem kheap_stats_after_growth :
  match demo_start with
  | Ok h =>
      match kmalloc 5000 h with
      | Ok (p, h') => p ≠ 0 ∧ kheap_get_stats h' = Ok (mk_stats 4096 4096 0 2 1)
      | _ => False
      end
  | _ => False
  end.
Proof. vm_compute. split; [discriminate|reflexivity]. Qed.
End Heap.
