(* ===== verification/Bytes.v ===== *)
(** * Byte buffers

    The drivers and file systems read and write fields of byte buffers.  A
    buffer is a list of bytes; [get_bytes] and [put_bytes] copy a part of it out
    and in, a fault outside its bounds, and integers are stored little endian.
    [sub] and [splice] are the same without the bounds check, with the laws by
    which reads see writes. *)

From S2P Require Import Prelude.

Module Bytes.

Definition len {A} (l : list A) : Z := Z.of_nat (length l).

(** The [n] elements at [off]; [l] with [bs] at [off]. *)
Definition sub {A} (off n : Z) (l : list A) : list A := take (Z.to_nat n) (drop (Z.to_nat off) l).
Definition splice {A} (off : Z) (bs l : list A) : list A :=
  take (Z.to_nat off) l ++ bs ++ drop (Z.to_nat off + length bs) l.

Definition get_bytes {A} (off n : Z) (l : list A) : outcome (list A) :=
  if (0 <=? off) && (0 <=? n) && (off + n <=? len l) then Ok (sub off n l) else Fault.
Definition put_bytes {A} (off : Z) (bs l : list A) : outcome (list A) :=
  if (0 <=? off) && (off + len bs <=? len l) then Ok (splice off bs l) else Fault.

(** Little-endian integers of [n] bytes. *)
Fixpoint le (n : nat) (v : Z) : list Z :=
  match n with O => [] | S n' => v mod 256 :: le n' (v / 256) end.
Fixpoint of_le (bs : list Z) : Z :=
  match bs with [] => 0 | b :: bs' => b + 256 * of_le bs' end.

Definition get_le (n : nat) (off : Z) (l : list Z) : outcome Z :=
  bs ← get_bytes off (Z.of_nat n) l; Ok (of_le bs).
Abbreviation get8 := (get_le 1).
Abbreviation get16 := (get_le 2).
Abbreviation get32 := (get_le 4).
Abbreviation get64 := (get_le 8).
Definition put_le (n : nat) (off v : Z) (l : list Z) : outcome (list Z) := put_bytes off (le n v) l.
Abbreviation put8 := (put_le 1).
Abbreviation put16 := (put_le 2).
Abbreviation put32 := (put_le 4).
Abbreviation put64 := (put_le 8).

(** ** Length and lookup *)

Section lists.
Context {A : Type}.
Implicit Types l bs : list A.

Lemma len_nonneg l : 0 ≤ len l.
Proof. unfold len. lia. Qed.

Lemma len_app l1 l2 : len (l1 ++ l2) = len l1 + len l2.
Proof. unfold len. rewrite length_app. lia. Qed.

Lemma len_sub off n l : 0 ≤ off → 0 ≤ n → off + n ≤ len l → len (sub off n l) = n.
Proof. unfold len, sub. intros. rewrite length_take, length_drop. lia. Qed.

Lemma len_splice off bs l : 0 ≤ off → off + len bs ≤ len l → len (splice off bs l) = len l.
Proof. unfold len, splice. intros. rewrite !length_app, length_take, length_drop. lia. Qed.

Lemma lookup_sub off n l (i : nat) : (i < Z.to_nat n)%nat → sub off n l !! i = l !! (Z.to_nat off + i)%nat.
Proof. intros Hi. unfold sub. by rewrite lookup_take_lt, lookup_drop. Qed.

Lemma lookup_sub_ge off n l (i : nat) : (Z.to_nat n ≤ i)%nat → sub off n l !! i = None.
Proof. intros Hi. unfold sub. by rewrite lookup_take_ge. Qed.

Lemma lookup_splice_in off bs l (i : nat) : 0 ≤ off → off + len bs ≤ len l →
  off ≤ Z.of_nat i < off + len bs → splice off bs l !! i = bs !! (i - Z.to_nat off)%nat.
Proof.
  unfold len, splice. intros H0 Hl Hi. rewrite lookup_app_r; rewrite length_take; [|lia].
  rewrite lookup_app_l by lia. f_equal. lia.
Qed.

Lemma lookup_splice_out off bs l (i : nat) : 0 ≤ off → off + len bs ≤ len l →
  Z.of_nat i < off ∨ off + len bs ≤ Z.of_nat i → splice off bs l !! i = l !! i.
Proof.
  unfold len, splice. intros H0 Hl [Hi|Hi].
  - rewrite lookup_app_l by (rewrite length_take; lia). apply lookup_take_lt. lia.
  - rewrite lookup_app_r; rewrite length_take; [|lia].
    rewrite lookup_app_r by lia. rewrite lookup_drop. f_equal. lia.
Qed.

Lemma lookup_Z_ge l (i : nat) : len l ≤ Z.of_nat i → l !! i = None.
Proof. unfold len. intros. apply lookup_ge_None. lia. Qed.

(** ** Reads of writes *)

Lemma sub_splice_same off bs l : 0 ≤ off → off + len bs ≤ len l →
  sub off (len bs) (splice off bs l) = bs.
Proof.
  intros H0 Hl. apply list_eq. intros i. pose proof (len_nonneg bs).
  destruct (decide (Z.of_nat i < len bs)).
  - rewrite lookup_sub, lookup_splice_in by lia. f_equal. lia.
  - rewrite lookup_sub_ge by lia. symmetry. apply lookup_Z_ge. lia.
Qed.

Lemma sub_splice_disjoint off n o bs l : 0 ≤ off → 0 ≤ n → 0 ≤ o → o + len bs ≤ len l →
  off + n ≤ o ∨ o + len bs ≤ off → sub off n (splice o bs l) = sub off n l.
Proof.
  intros H0 Hn Ho Hl Hd. apply list_eq. intros i. destruct (decide (Z.of_nat i < n)).
  - rewrite !lookup_sub by lia. apply lookup_splice_out; lia.
  - by rewrite !lookup_sub_ge by lia.
Qed.

Lemma sub_splice_inside o n off bs l : 0 ≤ o → 0 ≤ n → o + n ≤ len l →
  o ≤ off → off + len bs ≤ o + n → sub o n (splice off bs l) = splice (off - o) bs (sub o n l).
Proof.
  intros H0 Hn Hl Ho Hb. pose proof (len_nonneg bs). apply list_eq. intros i.
  assert (Hs : len (sub o n l) = n) by by apply len_sub. destruct (decide (Z.of_nat i < n)).
  - rewrite lookup_sub by lia. destruct (decide (off - o ≤ Z.of_nat i < off - o + len bs)).
    + rewrite !lookup_splice_in by lia. f_equal. lia.
    + rewrite !lookup_splice_out by lia. by rewrite lookup_sub by lia.
  - rewrite lookup_sub_ge by lia. symmetry. apply lookup_Z_ge. rewrite len_splice; lia.
Qed.

(** Writing back a part with a change is the change. *)
Lemma splice_splice_sub o n p bs l : 0 ≤ o → 0 ≤ n → o + n ≤ len l →
  0 ≤ p → p + len bs ≤ n → splice o (splice p bs (sub o n l)) l = splice (o + p) bs l.
Proof.
  intros H0 Hn Hl Hp Hb. pose proof (len_nonneg bs). apply list_eq. intros i.
  assert (Hs : len (sub o n l) = n) by by apply len_sub.
  assert (Hs' : len (splice p bs (sub o n l)) = n) by (rewrite len_splice; lia).
  destruct (decide (o ≤ Z.of_nat i < o + n)).
  - rewrite (lookup_splice_in o) by lia. destruct (decide (o + p ≤ Z.of_nat i < o + p + len bs)).
    + rewrite !lookup_splice_in by lia. f_equal. lia.
    + rewrite !lookup_splice_out by lia. rewrite lookup_sub by lia. f_equal. lia.
  - by rewrite !lookup_splice_out by lia.
Qed.

Lemma sub_sub a b o n l : 0 ≤ a → 0 ≤ b → 0 ≤ o → a + b ≤ n → sub a b (sub o n l) = sub (o + a) b l.
Proof.
  intros Ha Hb Ho Hn. apply list_eq. intros i. destruct (decide (Z.of_nat i < b)).
  - rewrite !lookup_sub by lia. f_equal. lia.
  - by rewrite !lookup_sub_ge by lia.
Qed.

Lemma sub_app a n m l : 0 ≤ a → 0 ≤ n → 0 ≤ m → a + n + m ≤ len l →
  sub a n l ++ sub (a + n) m l = sub a (n + m) l.
Proof.
  intros Ha Hn Hm Hl. apply list_eq. intros i. pose proof (len_sub a n l Ha Hn) as E. unfold len in *.
  destruct (decide (Z.of_nat i < n)).
  - rewrite lookup_app_l by lia. by rewrite !lookup_sub by lia.
  - rewrite lookup_app_r by lia. destruct (decide (Z.of_nat i < n + m)).
    + rewrite !lookup_sub by lia. f_equal. lia.
    + by rewrite !lookup_sub_ge by lia.
Qed.

Lemma splice_commute o1 b1 o2 b2 l : 0 ≤ o1 → 0 ≤ o2 → o1 + len b1 ≤ len l → o2 + len b2 ≤ len l →
  o1 + len b1 ≤ o2 ∨ o2 + len b2 ≤ o1 →
  splice o1 b1 (splice o2 b2 l) = splice o2 b2 (splice o1 b1 l).
Proof.
  intros H1 H2 L1 L2 Hd. apply list_eq. intros i.
  assert (E1 := len_splice o1 b1 l H1 L1). assert (E2 := len_splice o2 b2 l H2 L2).
  destruct (decide (o1 ≤ Z.of_nat i < o1 + len b1)); [|destruct (decide (o2 ≤ Z.of_nat i < o2 + len b2))].
  - rewrite lookup_splice_in, lookup_splice_out, lookup_splice_in by lia. done.
  - rewrite lookup_splice_out, !lookup_splice_in by lia. done.
  - by rewrite !lookup_splice_out by lia.
Qed.

Lemma sub_app_l off n l1 l2 : 0 ≤ off → 0 ≤ n → off + n ≤ len l1 → sub off n (l1 ++ l2) = sub off n l1.
Proof.
  intros H0 Hn Hl. apply list_eq. intros i. unfold len in *. destruct (decide (Z.of_nat i < n)).
  - rewrite !lookup_sub by lia. apply lookup_app_l. lia.
  - by rewrite !lookup_sub_ge by lia.
Qed.

Lemma sub_app_r off n l1 l2 : len l1 ≤ off → 0 ≤ n → sub off n (l1 ++ l2) = sub (off - len l1) n l2.
Proof.
  intros H0 Hn. apply list_eq. intros i. unfold len in *. destruct (decide (Z.of_nat i < n)).
  - rewrite !lookup_sub by lia. rewrite lookup_app_r by lia. f_equal. lia.
  - by rewrite !lookup_sub_ge by lia.
Qed.

Lemma sub_app_cross off n l1 l2 : 0 ≤ off ≤ len l1 → len l1 ≤ off + n → off + n ≤ len l1 + len l2 →
  sub off n (l1 ++ l2) = sub off (len l1 - off) l1 ++ sub 0 (n - (len l1 - off)) l2.
Proof.
  intros H0 Hn Hl. rewrite <- (sub_app_l off (len l1 - off) l1 l2) by lia.
  assert (E : sub 0 (n - (len l1 - off)) l2 = sub (len l1) (n - (len l1 - off)) (l1 ++ l2)).
  { apply list_eq. intros i. unfold len in *. destruct (decide (Z.of_nat i < n - (len l1 - off))).
    - unfold len in *. rewrite !lookup_sub by lia. rewrite lookup_app_r by lia. f_equal. lia.
    - unfold len in *. by rewrite !lookup_sub_ge by lia. }
  rewrite E. replace (len l1) with (off + (len l1 - off)) at 2 by lia.
  rewrite sub_app; rewrite ?len_app; try lia. f_equal. lia.
Qed.

Lemma splice_app_l off bs l1 l2 : 0 ≤ off → off + len bs ≤ len l1 →
  splice off bs (l1 ++ l2) = splice off bs l1 ++ l2.
Proof.
  intros H0 Hl. unfold splice, len in *. rewrite take_app_le, drop_app_le by lia. by rewrite <- !app_assoc.
Qed.

Lemma splice_app_r off bs l1 l2 : len l1 ≤ off → off + len bs ≤ len l1 + len l2 →
  splice off bs (l1 ++ l2) = l1 ++ splice (off - len l1) bs l2.
Proof.
  intros H0 Hl. unfold splice, len in *. rewrite take_app_ge, drop_app_ge by lia.
  rewrite <- !app_assoc. do 2 f_equal; [f_equal; lia|]. do 2 f_equal. lia.
Qed.

(** A splice may also make the list longer. *)
Lemma lookup_splice off bs l (i : nat) : 0 ≤ off ≤ len l →
  splice off bs l !! i =
    if decide (Z.of_nat i < off) then l !! i
    else if decide (Z.of_nat i < off + len bs) then bs !! (i - Z.to_nat off)%nat else l !! i.
Proof.
  unfold len, splice. intros Ho. destruct (decide _).
  - rewrite lookup_app_l by (rewrite length_take; lia). apply lookup_take_lt. lia.
  - rewrite lookup_app_r; rewrite length_take; [|lia].
    replace (i - Z.to_nat off `min` length l)%nat with (i - Z.to_nat off)%nat by lia. destruct (decide _).
    + apply lookup_app_l. lia.
    + rewrite lookup_app_r by lia. rewrite lookup_drop. f_equal. lia.
Qed.

(** The first bytes of a longer list, up to the end of what was written. *)
Lemma sub_splice_grow off bs sz m l l2 : 0 ≤ off ≤ sz → sz ≤ len l → m = Z.max sz (off + len bs) →
  sub 0 m (splice off bs (l ++ l2)) = splice off bs (sub 0 sz l).
Proof.
  intros Ho Hs Hm. pose proof (len_nonneg bs). pose proof (len_nonneg l2). apply list_eq. intros i.
  rewrite (lookup_splice off bs (sub 0 sz l)) by (rewrite len_sub; lia).
  destruct (decide (Z.of_nat i < m)) as [Hi|Hi].
  - rewrite lookup_sub, Nat.add_0_l, lookup_splice by (rewrite ?len_app; lia). unfold len in *.
    repeat destruct (decide _); [|done|]; (rewrite lookup_sub by lia; apply lookup_app_l; lia).
  - rewrite lookup_sub_ge by lia. repeat destruct (decide _); try lia. by rewrite lookup_sub_ge by lia.
Qed.

(** Two adjacent writes are one. *)
Lemma splice_adjacent off b1 b2 l : 0 ≤ off → off + len b1 + len b2 ≤ len l →
  splice (off + len b1) b2 (splice off b1 l) = splice off (b1 ++ b2) l.
Proof.
  intros H0 Hl. pose proof (len_nonneg b1). pose proof (len_nonneg b2).
  assert (E := len_splice off b1 l). apply list_eq. intros i.
  destruct (decide (off ≤ Z.of_nat i < off + len b1)); [|destruct (decide (off + len b1 ≤ Z.of_nat i < off + len b1 + len b2))].
  - rewrite lookup_splice_out, !lookup_splice_in by (rewrite ?len_app; lia).
    symmetry. apply lookup_app_l. unfold len in *. lia.
  - rewrite !lookup_splice_in by (rewrite ?len_app; lia). rewrite lookup_app_r by (unfold len in *; lia).
    f_equal. unfold len in *. lia.
  - rewrite !lookup_splice_out by (rewrite ?len_app; lia). done.
Qed.

Lemma sub_full l : sub 0 (len l) l = l.
Proof. unfold sub, len. rewrite drop_0. apply take_ge. lia. Qed.

Lemma sub_0 off l : sub off 0 l = [].
Proof. done. Qed.

Lemma splice_nil off l : splice off [] l = l.
Proof. unfold splice. cbn [app length]. rewrite Nat.add_0_r. apply take_drop. Qed.

Lemma get_bytes_ok off n l : 0 ≤ off → 0 ≤ n → off + n ≤ len l → get_bytes off n l = Ok (sub off n l).
Proof.
  intros. unfold get_bytes. by rewrite !(proj2 (Z.leb_le _ _)) by done.
Qed.

Lemma put_bytes_ok off bs l : 0 ≤ off → off + len bs ≤ len l → put_bytes off bs l = Ok (splice off bs l).
Proof. intros. unfold put_bytes. by rewrite !(proj2 (Z.leb_le _ _)) by done. Qed.

Lemma Forall_sub (P : A → Prop) off n l : Forall P l → Forall P (sub off n l).
Proof. intros. by apply Forall_take, Forall_drop. Qed.
Lemma Forall_splice (P : A → Prop) off bs l : Forall P bs → Forall P l → Forall P (splice off bs l).
Proof. intros. unfold splice. rewrite !Forall_app. split_and!; [by apply Forall_take|done|by apply Forall_drop]. Qed.
End lists.

(** ** Integers *)

Abbreviation byte := (λ b, 0 ≤ b < 256).

Lemma bytes_check (l : list Z) : forallb (λ b, (0 <=? b) && (b <? 256)) l = true → Forall byte l.
Proof.
  intros H. apply Forall_forall. intros b Hb. rewrite forallb_forall in H.
  specialize (H b (proj1 (list_elem_of_In _ _) Hb)). lia.
Qed.

Lemma length_le n v : length (le n v) = n.
Proof. revert v. induction n as [|n IH]; intros v; cbn; [done|]. by rewrite IH. Qed.
Lemma len_le n v : len (le n v) = Z.of_nat n.
Proof. unfold len. by rewrite length_le. Qed.

Lemma le_bytes n v : Forall byte (le n v).
Proof. revert v. induction n as [|n IH]; intros v; cbn; constructor; [|done]. by apply Z.mod_pos_bound. Qed.

Lemma of_le_le n v : of_le (le n v) = v mod 2 ^ (8 * Z.of_nat n).
Proof.
  revert v. induction n as [|n IH]; intros v; cbn [le of_le]; [by rewrite Z.mod_1_r|].
  rewrite IH. replace (8 * Z.of_nat (S n)) with (8 + 8 * Z.of_nat n) by lia.
  rewrite Z.pow_add_r by lia. change (2 ^ 8) with 256.
  symmetry. apply Z.rem_mul_r; [lia|]. by apply Z.pow_pos_nonneg; lia.
Qed.

Lemma of_le_range bs : Forall byte bs → 0 ≤ of_le bs < 2 ^ (8 * len bs).
Proof.
  unfold len. induction 1 as [|b bs Hb _ IH]; cbn [of_le length]; [done|].
  replace (8 * Z.of_nat (S (length bs))) with (8 + 8 * Z.of_nat (length bs)) by lia.
  rewrite Z.pow_add_r by lia. change (2 ^ 8) with 256. lia.
Qed.

Lemma le_of_le bs : Forall byte bs → le (length bs) (of_le bs) = bs.
Proof.
  induction 1 as [|b bs Hb _ IH]; cbn [length le of_le]; [done|].
  rewrite Z.add_comm, Z.mul_comm, Z.add_comm. rewrite Z.mod_add, Z.mod_small by lia.
  rewrite Z.div_add, Z.div_small by lia. by rewrite Z.add_0_l, IH.
Qed.

Lemma sub_splice_le n k off v l : k = Z.of_nat n → 0 ≤ off → off + k ≤ len l →
  sub off k (splice off (le n v) l) = le n v.
Proof. intros -> H0 Hl. rewrite <- (len_le n v). apply sub_splice_same; rewrite ?len_le; lia. Qed.

Lemma get_le_ok n off l : 0 ≤ off → off + Z.of_nat n ≤ len l →
  get_le n off l = Ok (of_le (sub off (Z.of_nat n) l)).
Proof. intros. unfold get_le. rewrite get_bytes_ok by lia. by run. Qed.

Lemma put_le_ok n off v l : 0 ≤ off → off + Z.of_nat n ≤ len l →
  put_le n off v l = Ok (splice off (le n v) l).
Proof. intros. apply put_bytes_ok; rewrite ?len_le; lia. Qed.
End Bytes.
