(* ===== verification/Descriptors.v ===== *)
(** * Segment and interrupt descriptors (kernel/arch/x86_64/gdt.cpp, idt.cpp)

    The tables are bytes in memory that the processor decodes: [gdt_set_gate],
    [gdt_set_tss] and [idt_set_gate] write the fields of packed structures, the
    task descriptor over two entries.  [segment_at] and [gate_at] are the
    processor's reading of the same bytes.  [idt_init] also programs the two
    interrupt controllers; [pic_write] is what they do with the writes.

    [isr] and [irq] are the addresses of the assembly stubs, [tss] that of the
    task state segment. *)

From S2P Require Import Prelude Bytes.

Module Descriptors.
Import Bytes.

(** ** Segments *)

Definition sizeof_gdt_entry : Z := 8.
Definition sizeof_tss_entry : Z := 104.

(** A sequence of stores of little-endian fields: offset, size, value. *)
Fixpoint store_fields (base : Z) (fs : list (Z * nat * Z)) (t : list Z) : outcome (list Z) :=
  match fs with
  | [] => Ok t
  | (off, n, v) :: fs' => t1 ← put_le n (base + off) v t; store_fields base fs' t1
  end.

Definition gdt_set_gate (num base limit access gran : Z) (gdt : list Z) : outcome (list Z) :=
  store_fields (sizeof_gdt_entry * num)
    [(2, 2%nat, Z.land base 0xFFFF);
     (4, 1%nat, Z.land (Z.shiftr base 16) 0xFF);
     (7, 1%nat, Z.land (Z.shiftr base 24) 0xFF);
     (0, 2%nat, Z.land limit 0xFFFF);
     (6, 1%nat, Z.lor (Z.land (Z.shiftr limit 16) 0x0F) (Z.land gran 0xF0));
     (5, 1%nat, access)] gdt.

(** The sixteen bytes of the task descriptor cover two entries. *)
Definition gdt_set_tss (num base limit : Z) (gdt : list Z) : outcome (list Z) :=
  store_fields (sizeof_gdt_entry * num)
    [(0, 2%nat, Z.land limit 0xFFFF);
     (2, 2%nat, Z.land base 0xFFFF);
     (4, 1%nat, Z.land (Z.shiftr base 16) 0xFF);
     (5, 1%nat, 0x89);
     (6, 1%nat, Z.land (Z.shiftr limit 16) 0x0F);
     (7, 1%nat, Z.land (Z.shiftr base 24) 0xFF);
     (8, 4%nat, Z.land (Z.shiftr base 32) 0xFFFFFFFF);
     (12, 4%nat, 0)] gdt.

Definition tss_set_stack (stack : Z) : Z := mask_low stack 0xF.

(** The table, its limit, and the offset of the port permissions in the task state, before
    [gdt_flush] and [tss_load] hand them to the processor, which marks the task descriptor
    as busy (0x8B for 0x89) when it loads the task register. *)
Definition gdt_init (tss : Z) : outcome (list Z * Z * Z) :=
  let gdt := replicate 80 0 in
  g ← gdt_set_gate 0 0 0 0 0 gdt;
  g ← gdt_set_gate 1 0 0 0x9A 0x20 g;
  g ← gdt_set_gate 2 0 0 0x92 0x00 g;
  g ← gdt_set_gate 3 0 0 0xF2 0x00 g;
  g ← gdt_set_gate 4 0 0 0xFA 0x20 g;
  g ← gdt_set_tss 5 tss (sizeof_tss_entry - 1) g;
  Ok (g, 8 * 7 - 1, sizeof_tss_entry).

(** The value of the register that gives [syscall] and [sysret] their selectors. *)
Definition STAR : Z := Z.lor (Z.shiftl 0x13 48) (Z.shiftl 0x08 32).

(** ** Interrupts *)

Definition sizeof_idt_entry : Z := 16.

Definition idt_set_gate (num base selector flags : Z) (idt : list Z) : outcome (list Z) :=
  store_fields (sizeof_idt_entry * num)
    [(0, 2%nat, Z.land base 0xFFFF);
     (6, 2%nat, Z.land (Z.shiftr base 16) 0xFFFF);
     (8, 4%nat, Z.land (Z.shiftr base 32) 0xFFFFFFFF);
     (2, 2%nat, selector);
     (4, 1%nat, 0);
     (5, 1%nat, flags);
     (12, 4%nat, 0)] idt.

Section stubs.
Context (isr irq : Z → Z).

Definition set_exception (i : Z) : list Z → outcome (list Z) := idt_set_gate i (isr i) 0x08 0x8E.
Definition set_irq (i : Z) : list Z → outcome (list Z) := idt_set_gate (32 + i) (irq i) 0x08 0x8E.

(** The table after [idt_init], its limit, and the writes to the ports. *)
Definition idt_init (idt : list Z) : outcome (list Z * Z * list (Z * Z)) :=
  idt ← for_range (λ i, idt_set_gate i 0 0 0) 256 0 idt;
  idt ← for_range set_exception 32 0 idt;
  idt ← for_range set_irq 16 0 idt;
  Ok (idt, sizeof_idt_entry * 256 - 1,
      [(0x20, 0x11); (0xA0, 0x11); (0x21, 0x20); (0xA1, 0x28); (0x21, 0x04); (0xA1, 0x02);
       (0x21, 0x01); (0xA1, 0x01); (0x21, 0xF8); (0xA1, 0xFF)]).
End stubs.

(** The handlers of the two devices; a panic does not return. *)
Class Handlers (W : Type) := {
  timer_handler : W → outcome W;
  keyboard_handler : W → outcome W;
  port_out : Z → Z → W → outcome W
}.

Definition isr_exception_handler {W} `{!Handlers W} (int_no : Z) (w : W) : outcome W :=
  if (32 <=? int_no) && (int_no <=? 47) then
    w ← (if int_no =? 32 then timer_handler w
         else if int_no =? 33 then keyboard_handler w else Ok w);
    w ← (if 40 <=? int_no then port_out 0xA0 0x20 w else Ok w);
    port_out 0x20 0x20 w
  else if int_no =? 14 then Panic K_ERR_PAGE_FAULT
  else Panic K_ERR_UNKNOWN_ERROR.

(** ** What the processor reads *)

Record segment_view : Set := mk_view { v_base : Z; v_limit : Z; v_access : Z; v_flags : Z }.

Definition field (n : nat) (off : Z) (t : list Z) : Z := of_le (sub off (Z.of_nat n) t).

(** The eight bytes at a selector; the low three bits are no part of the index. *)
Definition segment_at (t : list Z) (selector : Z) : segment_view :=
  let o := selector / 8 * 8 in
  mk_view (field 2 (o + 2) t + field 1 (o + 4) t * 2 ^ 16 + field 1 (o + 7) t * 2 ^ 24)
    (field 2 o t + field 1 (o + 6) t mod 16 * 2 ^ 16) (field 1 (o + 5) t) (field 1 (o + 6) t / 16).

(** The base of a system descriptor has 64 bits. *)
Definition tss_base_at (t : list Z) (selector : Z) : Z :=
  v_base (segment_at t selector) + field 4 (selector / 8 * 8 + 8) t * 2 ^ 32.

(** Bits of the access byte and of the flags. *)
Definition present (v : segment_view) : bool := Z.testbit (v_access v) 7.
Definition dpl (v : segment_view) : Z := v_access v / 2 ^ 5 mod 4.
Definition is_code (v : segment_view) : bool := Z.testbit (v_access v) 4 && Z.testbit (v_access v) 3.
Definition is_data (v : segment_view) : bool := Z.testbit (v_access v) 4 && negb (Z.testbit (v_access v) 3) && Z.testbit (v_access v) 1.
Definition long_mode (v : segment_view) : bool := Z.testbit (v_flags v) 1.

Record gate_view : Set := mk_gate { g_offset : Z; g_selector : Z; g_ist : Z; g_flags : Z }.

Definition gate_at (t : list Z) (vector : Z) : gate_view :=
  let o := sizeof_idt_entry * vector in
  mk_gate (field 2 o t + field 2 (o + 6) t * 2 ^ 16 + field 4 (o + 8) t * 2 ^ 32)
    (field 2 (o + 2) t) (field 1 (o + 4) t) (field 1 (o + 5) t).

(** An interrupt controller: the vector of its first line, the mask, and the
    number of the initialisation word that it expects (0 is none). *)
Record pic : Set := mk_pic { p_base : Z; p_mask : Z; p_word : nat }.

Definition pic_write (command : bool) (v : Z) (p : pic) : pic :=
  if command then (if Z.testbit v 4 then mk_pic (p_base p) 0 2 else p)
  else match p_word p with
       | 2%nat => mk_pic v (p_mask p) 3
       | 3%nat => mk_pic (p_base p) (p_mask p) 4
       | 4%nat => mk_pic (p_base p) (p_mask p) 0
       | _ => mk_pic (p_base p) v 0
       end.

(** The master at ports 0x20 and 0x21, the slave at 0xA0 and 0xA1. *)
Definition pics_write (ps : pic * pic) (io : Z * Z) : pic * pic :=
  let '(m, s) := ps in let '(port, v) := io in
  if port =? 0x20 then (pic_write true v m, s) else if port =? 0x21 then (pic_write false v m, s)
  else if port =? 0xA0 then (m, pic_write true v s) else if port =? 0xA1 then (m, pic_write false v s)
  else ps.

(** The vector of a line, and whether the line is let through; line 2 of the
    master is the slave. *)
Definition vector_of (ps : pic * pic) (line : Z) : Z :=
  if line <? 8 then p_base (fst ps) + line else p_base (snd ps) + (line - 8).
Definition enabled (ps : pic * pic) (line : Z) : bool :=
  if line <? 8 then negb (Z.testbit (p_mask (fst ps)) line)
  else negb (Z.testbit (p_mask (snd ps)) (line - 8)) && negb (Z.testbit (p_mask (fst ps)) 2).

(** ** Fields *)

Fixpoint splices (base : Z) (fs : list (Z * nat * Z)) (t : list Z) : list Z :=
  match fs with
  | [] => t
  | (off, n, v) :: fs' => splices base fs' (splice (base + off) (le n v) t)
  end.

Definition fields_in (base : Z) (fs : list (Z * nat * Z)) (t : list Z) : Prop :=
  Forall (λ f, 0 ≤ base + fst (fst f) ∧ base + fst (fst f) + Z.of_nat (snd (fst f)) ≤ len t) fs.

Lemma store_fields_ok base fs : ∀ t, fields_in base fs t → store_fields base fs t = Ok (splices base fs t).
Proof.
  induction fs as [|[[off n] v] fs IH]; intros t Hf; [done|]. apply Forall_cons in Hf as [[H0 H1] Hf]. cbn in H0, H1.
  cbn [store_fields splices]. rewrite put_le_ok by done. run. apply IH. unfold fields_in.
  rewrite len_splice by (rewrite ?len_le; lia). done.
Qed.

Lemma len_splices base fs : ∀ t, fields_in base fs t → len (splices base fs t) = len t.
Proof.
  induction fs as [|[[off n] v] fs IH]; intros t Hf; [done|]. apply Forall_cons in Hf as [[H0 H1] Hf]. cbn in H0, H1.
  cbn [splices]. rewrite IH; unfold fields_in; rewrite len_splice by (rewrite ?len_le; lia); done.
Qed.

(** A field that is apart from every store reads as before. *)
Lemma field_splices_out base fs n o : ∀ t, fields_in base fs t → 0 ≤ o →
  Forall (λ f, o + Z.of_nat n ≤ base + fst (fst f) ∨ base + fst (fst f) + Z.of_nat (snd (fst f)) ≤ o) fs →
  field n o (splices base fs t) = field n o t.
Proof.
  induction fs as [|[[off k] v] fs IH]; intros t Hf Ho Hd; [done|]. apply Forall_cons in Hf as [[H0 H1] Hf]. cbn in H0, H1.
  apply Forall_cons in Hd as [Hd Hds]. cbn in Hd. cbn [splices].
  rewrite IH; [|unfold fields_in; by rewrite len_splice by (rewrite ?len_le; lia)|done|done].
  unfold field. rewrite sub_splice_disjoint; [done|done|lia|done|rewrite len_le; lia|rewrite len_le; lia].
Qed.

(** The field of a store that no later store touches. *)
Lemma field_splices_in base fs1 off n v fs2 t : fields_in base (fs1 ++ (off, n, v) :: fs2) t →
  Forall (λ f, base + off + Z.of_nat n ≤ base + fst (fst f) ∨ base + fst (fst f) + Z.of_nat (snd (fst f)) ≤ base + off) fs2 →
  field n (base + off) (splices base (fs1 ++ (off, n, v) :: fs2) t) = v mod 2 ^ (8 * Z.of_nat n).
Proof.
  revert t. induction fs1 as [|[[o k] x] fs1 IH]; intros t Hf Hd; cbn [app splices];
    apply Forall_cons in Hf as [[H0 H1] Hf]; cbn in H0, H1.
  - rewrite field_splices_out; [|unfold fields_in; by rewrite len_splice by (rewrite ?len_le; lia)|done|done].
    unfold field. rewrite sub_splice_le by (done || lia). apply of_le_le.
  - apply IH; [|done]. unfold fields_in. by rewrite len_splice by (rewrite ?len_le; lia).
Qed.

Lemma field_splices_nth base fs i off n v t : fields_in base fs t → fs !! i = Some (off, n, v) →
  Forall (λ f, off + Z.of_nat n ≤ fst (fst f) ∨ fst (fst f) + Z.of_nat (snd (fst f)) ≤ off) (drop (S i) fs) →
  field n (base + off) (splices base fs t) = v mod 2 ^ (8 * Z.of_nat n).
Proof.
  intros Hf Hi Hd. rewrite <- (take_drop_middle fs i (off, n, v) Hi) in Hf |- *. apply field_splices_in; [done|].
  eapply Forall_impl; [exact Hd|]. cbn. intros f Hf'. lia.
Qed.

Lemma land16 x : Z.land x 0xFFFF = x mod 2 ^ 16.
Proof. change 0xFFFF with (Z.ones 16). by rewrite Z.land_ones. Qed.
Lemma land8 x : Z.land x 0xFF = x mod 2 ^ 8.
Proof. change 0xFF with (Z.ones 8). by rewrite Z.land_ones. Qed.
Lemma land32 x : Z.land x 0xFFFFFFFF = x mod 2 ^ 32.
Proof. change 0xFFFFFFFF with (Z.ones 32). by rewrite Z.land_ones. Qed.
Lemma land4 x : Z.land x 0x0F = x mod 2 ^ 4.
Proof. change 0x0F with (Z.ones 4). by rewrite Z.land_ones. Qed.

(** The fields of a descriptor at [base], none over another. *)
Ltac apart_ok := repeat (apply Forall_cons; split); cbn; try lia; apply Forall_nil; exact I.
Ltac fields_ok := unfold fields_in; apart_ok.

(** ** Gates *)

Definition idt_ok (t : list Z) : Prop := len t = 4096.

Definition gate_fields (base selector flags : Z) : list (Z * nat * Z) :=
  [(0, 2%nat, Z.land base 0xFFFF); (6, 2%nat, Z.land (Z.shiftr base 16) 0xFFFF);
   (8, 4%nat, Z.land (Z.shiftr base 32) 0xFFFFFFFF); (2, 2%nat, selector); (4, 1%nat, 0); (5, 1%nat, flags); (12, 4%nat, 0)].

Lemma gate_other num n base selector flags t : idt_ok t → 0 ≤ num < 256 → 0 ≤ n < 256 → n ≠ num →
  gate_at (splices (sizeof_idt_entry * num) (gate_fields base selector flags) t) n = gate_at t n.
Proof.
  unfold idt_ok. intros Ht Hnum Hn Hne. unfold gate_at, sizeof_idt_entry.
  assert (Hin : fields_in (16 * num) (gate_fields base selector flags) t) by fields_ok.
  assert (Hout : ∀ o k, 16 * n ≤ o → o + Z.of_nat k ≤ 16 * n + 16 →
    field k o (splices (16 * num) (gate_fields base selector flags) t) = field k o t).
  { intros o k Ho Hk. apply field_splices_out; [done|lia|]. unfold gate_fields. apart_ok. }
  rewrite !Hout by lia. done.
Qed.

Lemma idt_set_gate_spec num base selector flags t : idt_ok t → 0 ≤ num < 256 → 0 ≤ base < 2 ^ 64 →
  0 ≤ selector < 2 ^ 16 → 0 ≤ flags < 2 ^ 8 →
  ∃ t', idt_set_gate num base selector flags t = Ok t' ∧ idt_ok t' ∧
    ∀ n, 0 ≤ n < 256 → gate_at t' n = if decide (n = num) then mk_gate base selector 0 flags else gate_at t n.
Proof.
  intros Ht Hnum Hb Hs Hf. assert (Hin : fields_in (16 * num) (gate_fields base selector flags) t).
  { unfold idt_ok in Ht. fields_ok. }
  exists (splices (sizeof_idt_entry * num) (gate_fields base selector flags) t).
  split; [by apply store_fields_ok|]. split; [unfold idt_ok; by rewrite len_splices|].
  intros n Hn. case_decide as E; [subst n|by apply gate_other]. unfold gate_at, sizeof_idt_entry.
  rewrite <- (Z.add_0_r (16 * num)) at 1.
  rewrite (field_splices_nth (16 * num) _ 0 0 2%nat _ t Hin eq_refl) by apart_ok.
  rewrite (field_splices_nth (16 * num) _ 1 6 2%nat _ t Hin eq_refl) by apart_ok.
  rewrite (field_splices_nth (16 * num) _ 2 8 4%nat _ t Hin eq_refl) by apart_ok.
  rewrite (field_splices_nth (16 * num) _ 3 2 2%nat _ t Hin eq_refl) by apart_ok.
  rewrite (field_splices_nth (16 * num) _ 4 4 1%nat _ t Hin eq_refl) by apart_ok.
  rewrite (field_splices_nth (16 * num) _ 5 5 1%nat _ t Hin eq_refl) by apart_ok.
  rewrite !land16, land32, !Z.shiftr_div_pow2 by lia. cbn -[Z.pow]. f_equal; [|by apply Z.mod_small..].
  change (2 ^ (8 * Z.of_nat 2)) with 65536. change (2 ^ (8 * Z.of_nat 4)) with 4294967296.
  change (2 ^ 16) with 65536. change (2 ^ 32) with 4294967296. change (2 ^ 64) with 18446744073709551616 in Hb. zdm.
Qed.

(** Filling a range of gates. *)
Lemma fill_gates (f : Z → Z) (sel fl lo : Z) n : ∀ i t, idt_ok t → 0 ≤ lo + i → lo + i + Z.of_nat n ≤ 256 →
  (∀ j, 0 ≤ f j < 2 ^ 64) → 0 ≤ sel < 2 ^ 16 → 0 ≤ fl < 2 ^ 8 →
  ∃ t', for_range (λ i, idt_set_gate (lo + i) (f i) sel fl) n i t = Ok t' ∧ idt_ok t' ∧
    ∀ k, 0 ≤ k < 256 → gate_at t' k =
      if decide (lo + i ≤ k < lo + i + Z.of_nat n) then mk_gate (f (k - lo)) sel 0 fl else gate_at t k.
Proof.
  induction n as [|n IH]; intros i t Ht H0 H1 Hf Hs Hfl; cbn [for_range].
  { exists t. split_and!; [done..|]. intros k Hk. by rewrite decide_False by lia. }
  destruct (idt_set_gate_spec (lo + i) (f i) sel fl t) as (t1 & -> & Ht1 & G1); try done; try lia. run.
  destruct (IH (i + 1) t1) as (t2 & -> & Ht2 & G2); try done; try lia.
  exists t2. split_and!; [done..|]. intros k Hk. rewrite G2, G1 by done.
  destruct (decide (k = lo + i)) as [->|Hne].
  - rewrite decide_False, decide_True by lia. f_equal. f_equal. lia.
  - destruct (decide (lo + (i + 1) ≤ k < lo + (i + 1) + Z.of_nat n)).
    + by rewrite decide_True by lia.
    + by rewrite decide_False by lia.
Qed.

(** ** Properties *)

(** After [idt_init], from whatever state of the two controllers: the gates 0 to
    31 lead to the exception stubs and 32 to 47 to the interrupt stubs, all
    present, for the kernel and through its code segment; every other gate is
    absent; line [n] of the controllers raises the vector of its own stub; and
    only the timer and the keyboard (and the line of the slave) are let through. *)
Theorem idt_init_vectors isr irq idt ps :
  idt_ok idt → (∀ i, 0 ≤ isr i < 2 ^ 64) → (∀ i, 0 ≤ irq i < 2 ^ 64) →
  ∃ t io, idt_init isr irq idt = Ok (t, 4095, io) ∧ idt_ok t ∧
    (∀ n, 0 ≤ n < 32 → gate_at t n = mk_gate (isr n) 0x08 0 0x8E) ∧
    (∀ n, 48 ≤ n < 256 → gate_at t n = mk_gate 0 0 0 0) ∧
    let ps' := foldl pics_write ps io in
    (∀ line, 0 ≤ line < 16 → gate_at t (vector_of ps' line) = mk_gate (irq line) 0x08 0 0x8E) ∧
    (∀ line, 0 ≤ line < 16 → enabled ps' line = bool_decide (line < 3)).
Proof.
  intros Ht Hisr Hirq. unfold idt_init.
  destruct (fill_gates (λ _, 0) 0 0 0 256 0 idt) as (t1 & E1 & Ht1 & G1); try done; try lia.
  cbn beta in E1. change (λ i, idt_set_gate (0 + i) 0 0 0) with (λ i, idt_set_gate i 0 0 0) in E1. rewrite E1. run.
  destruct (fill_gates isr 0x08 0x8E 0 32 0 t1) as (t2 & E2 & Ht2 & G2); try done; try lia.
  change (λ i, idt_set_gate (0 + i) (isr i) 0x08 0x8E) with (set_exception isr) in E2. rewrite E2. run.
  destruct (fill_gates irq 0x08 0x8E 32 16 0 t2) as (t3 & E3 & Ht3 & G3); try done; try lia.
  change (λ i, idt_set_gate (32 + i) (irq i) 0x08 0x8E) with (set_irq irq) in E3. rewrite E3. run.
  eexists t3, _. split; [reflexivity|]. split; [done|].
  assert (Hps : foldl pics_write ps [(0x20, 0x11); (0xA0, 0x11); (0x21, 0x20); (0xA1, 0x28); (0x21, 0x04); (0xA1, 0x02);
       (0x21, 0x01); (0xA1, 0x01); (0x21, 0xF8); (0xA1, 0xFF)] = (mk_pic 0x20 0xF8 0, mk_pic 0x28 0xFF 0)).
  { destruct ps as [[] []]. reflexivity. }
  cbv zeta. rewrite Hps. split_and!.
  - intros n Hn. rewrite G3, G2, decide_False, decide_True by lia. by rewrite Z.sub_0_r.
  - intros n Hn. rewrite G3, G2, G1, !decide_False, decide_True by lia. done.
  - intros line Hl. assert (Ev : vector_of (mk_pic 0x20 0xF8 0, mk_pic 0x28 0xFF 0) line = 32 + line).
    { unfold vector_of. cbn [fst snd p_base]. destruct (line <? 8); lia. }
    rewrite Ev, G3, decide_True by lia. do 2 f_equal. lia.
  - intros line Hl. assert (Hc : line ∈ seqZ 0 16) by (apply elem_of_seqZ; lia). revert line Hl Hc.
    assert (H : Forall (λ line, enabled (mk_pic 0x20 0xF8 0, mk_pic 0x28 0xFF 0) line = bool_decide (line < 3)) (seqZ 0 16)).
    { repeat (apply Forall_cons; split; [reflexivity|]). apply Forall_nil. exact I. }
    intros line _ Hc. by apply (proj1 (Forall_forall _ _) H).
Qed.

(** ** Segments *)

Definition boot_segments : list Z :=
  replicate 8 0 ++ [0; 0; 0; 0; 0; 0x9A; 0x20; 0] ++ [0; 0; 0; 0; 0; 0x92; 0; 0] ++ [0; 0; 0; 0; 0; 0xF2; 0; 0] ++
  [0; 0; 0; 0; 0; 0xFA; 0x20; 0] ++ replicate 40 0.

Definition tss_fields (tss : Z) : list (Z * nat * Z) :=
  [(0, 2%nat, Z.land (sizeof_tss_entry - 1) 0xFFFF); (2, 2%nat, Z.land tss 0xFFFF);
   (4, 1%nat, Z.land (Z.shiftr tss 16) 0xFF); (5, 1%nat, 0x89);
   (6, 1%nat, Z.land (Z.shiftr (sizeof_tss_entry - 1) 16) 0x0F); (7, 1%nat, Z.land (Z.shiftr tss 24) 0xFF);
   (8, 4%nat, Z.land (Z.shiftr tss 32) 0xFFFFFFFF); (12, 4%nat, 0)].

Lemma tss_fields_in tss : fields_in 40 (tss_fields tss) boot_segments.
Proof. assert (E : len boot_segments = 80) by reflexivity. unfold fields_in. rewrite E. fields_ok. Qed.

Lemma gdt_init_bytes tss : gdt_init tss = Ok (splices 40 (tss_fields tss) boot_segments, 55, 104).
Proof.
  transitivity (g ← gdt_set_tss 5 tss (sizeof_tss_entry - 1) boot_segments; Ok (g, 55, 104)); [reflexivity|].
  unfold gdt_set_tss. rewrite store_fields_ok by apply tss_fields_in. reflexivity.
Qed.

(** The entries before the task descriptor. *)
Lemma segment_before tss selector : 0 ≤ selector < 40 →
  segment_at (splices 40 (tss_fields tss) boot_segments) selector = segment_at boot_segments selector.
Proof.
  intros Hs. pose proof (tss_fields_in tss) as Hin. unfold segment_at.
  assert (Hout : ∀ o k, 0 ≤ o → o + Z.of_nat k ≤ 40 →
    field k o (splices 40 (tss_fields tss) boot_segments) = field k o boot_segments).
  { intros o k Ho Hk. apply field_splices_out; [done|lia|]. unfold tss_fields. apart_ok. }
  assert (0 ≤ selector / 8 * 8 ∧ selector / 8 * 8 + 8 ≤ 40) as [H1 H2] by zdm. by rewrite !Hout by lia.
Qed.

(** C38. After [gdt_init] the descriptors are what the rest of the kernel assumes: the
    selectors that [syscall] and [sysret] take from [STAR] are a 64-bit code segment
    with a data segment behind it, for the kernel, and a data segment with a 64-bit
    code segment behind it, for user mode; the task descriptor holds the whole
    64-bit address of the task state; and all of it is below the limit. *)
Theorem gdt_init_segments tss : 0 ≤ tss < 2 ^ 64 →
  ∃ t limit iopb, gdt_init tss = Ok (t, limit, iopb) ∧
    let kernel_cs := Z.land (Z.shiftr STAR 32) 0xFFFF in let kernel_ss := kernel_cs + 8 in
    let user_ss := Z.lor (Z.shiftr STAR 48 + 8) 3 in let user_cs := Z.lor (Z.shiftr STAR 48 + 16) 3 in
    (present (segment_at t kernel_cs) && is_code (segment_at t kernel_cs) && long_mode (segment_at t kernel_cs) = true
     ∧ dpl (segment_at t kernel_cs) = 0) ∧
    (present (segment_at t kernel_ss) && is_data (segment_at t kernel_ss) = true ∧ dpl (segment_at t kernel_ss) = 0) ∧
    (present (segment_at t user_cs) && is_code (segment_at t user_cs) && long_mode (segment_at t user_cs) = true
     ∧ dpl (segment_at t user_cs) = 3) ∧
    (present (segment_at t user_ss) && is_data (segment_at t user_ss) = true ∧ dpl (segment_at t user_ss) = 3) ∧
    (user_ss = 0x1B ∧ user_cs = 0x23) ∧
    (tss_base_at t 0x28 = tss ∧ v_limit (segment_at t 0x28) = 103 ∧ v_access (segment_at t 0x28) = 0x89 ∧
     0x28 + 15 = limit ∧ iopb = 104).
Proof.
  intros Ht. eexists _, _, _. split; [apply gdt_init_bytes|]. cbv zeta.
  change (Z.land (Z.shiftr STAR 32) 0xFFFF) with 0x08. change (Z.lor (Z.shiftr STAR 48 + 8) 3) with 0x1B.
  change (Z.lor (Z.shiftr STAR 48 + 16) 3) with 0x23. rewrite !segment_before by lia.
  pose proof (tss_fields_in tss) as Hin. split_and!.
  1-10: vm_compute; reflexivity.
  1-3: unfold tss_base_at, segment_at; cbn [v_base v_limit v_access]; change (0x28 / 8 * 8) with 40.
  - rewrite (field_splices_nth 40 _ 1 2 2%nat _ _ Hin eq_refl) by apart_ok.
    rewrite (field_splices_nth 40 _ 2 4 1%nat _ _ Hin eq_refl) by apart_ok.
    rewrite (field_splices_nth 40 _ 5 7 1%nat _ _ Hin eq_refl) by apart_ok.
    rewrite (field_splices_nth 40 _ 6 8 4%nat _ _ Hin eq_refl) by apart_ok.
    rewrite land16, !land8, land32, !Z.shiftr_div_pow2 by lia.
    change (2 ^ (8 * Z.of_nat 1)) with 256. change (2 ^ (8 * Z.of_nat 2)) with 65536.
    change (2 ^ (8 * Z.of_nat 4)) with 4294967296. change (2 ^ 8) with 256. change (2 ^ 16) with 65536.
    change (2 ^ 24) with 16777216. change (2 ^ 32) with 4294967296. change (2 ^ 64) with 18446744073709551616 in Ht. zdm.
  - rewrite <- (Z.add_0_r 40) at 1.
    rewrite (field_splices_nth 40 _ 0 0 2%nat _ _ Hin eq_refl) by apart_ok.
    rewrite (field_splices_nth 40 _ 4 6 1%nat _ _ Hin eq_refl) by apart_ok.
    reflexivity.
  - rewrite (field_splices_nth 40 _ 3 5 1%nat _ _ Hin eq_refl) by apart_ok.
    reflexivity.
  - reflexivity.
  - reflexivity.
Qed.

Lemma idt_init_vectors_witness :
  ∃ t io, idt_init (λ i, 0x100000 + 16 * (i mod 32)) (λ i, 0x200000 + 16 * (i mod 16)) (replicate 4096 0) = Ok (t, 4095, io) ∧
    gate_at t 14 = mk_gate 0x1000E0 0x08 0 0x8E.
Proof.
  destruct (idt_init_vectors (λ i, 0x100000 + 16 * (i mod 32)) (λ i, 0x200000 + 16 * (i mod 16)) (replicate 4096 0)
    (mk_pic 0 0 0, mk_pic 0 0 0)) as (t & io & E & _ & Hv & _).
  - reflexivity.
  - intros i. zdm.
  - intros i. zdm.
  - exists t, io. split; [exact E|]. exact (Hv 14 ltac:(lia)).
Defined.

Lemma gdt_init_segments_witness :
  ∃ t limit iopb, gdt_init 0xFFFFFFFF80123450 = Ok (t, limit, iopb) ∧ tss_base_at t 0x28 = 0xFFFFFFFF80123450.
Proof.
  destruct (gdt_init_segments 0xFFFFFFFF80123450) as (t & limit & iopb & E & _ & _ & _ & _ & _ & H & _).
  - lia.
  - exists t, limit, iopb. split; [exact E|exact H].
Defined.
End Descriptors.
