(* ===== verification/Block.v ===== *)
(** * What the file systems ask of the rest of the kernel

    The file system code runs in the monad [kernel] over an abstract state.  It
    uses a disk driver ([BlockDevice], implemented by [ATADriver]) and the kernel
    heap for scratch buffers ([Allocator], implemented by [kmalloc] and
    [kfree]).  [StoreLaws] is what they promise, in terms of a [store]: the bytes
    of the disk and the buffers in use.

    [runs m s a s'] is total correctness: from every state that holds the store
    [s], the code [m] returns [a] and leaves a state that holds [s']. *)

From S2P Require Import Prelude Bytes.

Module Block.
Import Bytes.

(** ** Code over a state *)

Definition kernel (W A : Type) : Type := W → outcome (A * W).

#[global] Instance kernel_ret {W} : MRet (kernel W) := λ A a w, Ok (a, w).
#[global] Instance kernel_bind {W} : MBind (kernel W) := λ A B k m w, '(a, w') ← m w; k a w'.

Definition ret {W A} (a : A) : kernel W A := λ w, Ok (a, w).
Definition lift {W A} (m : outcome A) : kernel W A := λ w, a ← m; Ok (a, w).

(** Unsigned division, which raises an exception for the divisor 0. *)
Definition udiv (a b : Z) : outcome Z := if b =? 0 then Panic K_ERR_DIVIDE_BY_ZERO else Ok (a / b).
Definition umod (a b : Z) : outcome Z := if b =? 0 then Panic K_ERR_DIVIDE_BY_ZERO else Ok (a mod b).

(** ** The interface *)

Definition SECTOR : Z := 512.

Class BlockDevice (W : Type) := {
  read_sectors : Z → Z → kernel W (list Z);
  write_sectors : Z → Z → list Z → kernel W unit
}.

Class Allocator (W : Type) := {
  kmalloc : Z → kernel W Z;
  kfree : Z → kernel W unit
}.

(** The bytes of the disk, the scratch buffers in use, and the size up to which
    requests for memory are met. *)
Record store : Type := mk_store { disk : list Z; live : gset Z; quota : Z }.

Definition set_disk (d : list Z) (s : store) : store := mk_store d (live s) (quota s).
Definition add_buffer (p : Z) (s : store) : store := mk_store (disk s) ({[p]} ∪ live s) (quota s).

(** [n] sectors at [lba] that one command can transfer. *)
Definition sectors_ok (lba n : Z) (d : list Z) : Prop :=
  0 ≤ lba ∧ 1 ≤ n ≤ 255 ∧ lba + n ≤ 2 ^ 28 ∧ SECTOR * (lba + n) ≤ len d.

Class StoreLaws (W : Type) `{!BlockDevice W, !Allocator W} := {
  holds : W → store → Prop;
  read_law w s lba n : holds w s → sectors_ok lba n (disk s) →
    ∃ w', read_sectors lba n w = Ok (sub (SECTOR * lba) (SECTOR * n) (disk s), w') ∧ holds w' s;
  write_law w s lba n bs : holds w s → sectors_ok lba n (disk s) → len bs = SECTOR * n → Forall byte bs →
    ∃ w', write_sectors lba n bs w = Ok ((), w') ∧
      holds w' (set_disk (splice (SECTOR * lba) bs (disk s)) s);
  kmalloc_law w s n : holds w s → 0 < n ≤ quota s →
    ∃ p w', kmalloc n w = Ok (p, w') ∧ p ≠ 0 ∧ (p ∉ live s) ∧ holds w' (add_buffer p s);
  kfree_law w s p : holds w s → p ∈ live s →
    ∃ w', kfree p w = Ok ((), w') ∧ holds w' (mk_store (disk s) (live s ∖ {[p]}) (quota s))
}.

(** ** Total correctness *)

(** One step of the monad. *)
Lemma kbind {W A B} (m : kernel W A) (k : A → kernel W B) w a w1 : m w = Ok (a, w1) → (m ≫= k) w = k a w1.
Proof. intros E. unfold mbind, kernel_bind. by rewrite E. Qed.

Section runs.
Context {W : Type} `{!BlockDevice W, !Allocator W, !StoreLaws W}.

Definition runs {A} (m : kernel W A) (s : store) (a : A) (s' : store) : Prop :=
  ∀ w, holds w s → ∃ w', m w = Ok (a, w') ∧ holds w' s'.

Lemma runs_ret {A} (a : A) s : runs (mret a) s a s.
Proof. intros w Hw. by exists w. Qed.

Lemma runs_bind {A B} (m : kernel W A) (k : A → kernel W B) s a s1 b s2 :
  runs m s a s1 → runs (k a) s1 b s2 → runs (m ≫= k) s b s2.
Proof.
  intros Hm Hk w Hw. destruct (Hm w Hw) as (w1 & E1 & H1). destruct (Hk w1 H1) as (w2 & E2 & H2).
  exists w2. split; [|done]. unfold mbind, kernel_bind. rewrite E1. by run.
Qed.

(** Pure code in the middle. *)
Lemma runs_lift {A B} (m : outcome A) (k : A → kernel W B) s a b s' :
  m = Ok a → runs (k a) s b s' → runs (lift m ≫= k) s b s'.
Proof. intros -> H. eapply runs_bind; [|exact H]. intros w Hw. by exists w. Qed.

Lemma runs_lift_ret {A} (m : outcome A) s a : m = Ok a → runs (lift m) s a s.
Proof. intros -> w Hw. by exists w. Qed.

Lemma runs_read s lba n : sectors_ok lba n (disk s) →
  runs (read_sectors lba n) s (sub (SECTOR * lba) (SECTOR * n) (disk s)) s.
Proof. intros H w Hw. by apply read_law. Qed.

Lemma runs_write s lba n bs : sectors_ok lba n (disk s) → len bs = SECTOR * n → Forall byte bs →
  runs (write_sectors lba n bs) s () (set_disk (splice (SECTOR * lba) bs (disk s)) s).
Proof. intros H1 H2 H3 w Hw. by apply write_law. Qed.

(** A scratch buffer, from its allocation to its release. *)
Lemma runs_kmalloc {A} n (k : Z → kernel W A) s a s' : 0 < n ≤ quota s →
  (∀ p, p ≠ 0 → p ∉ live s → runs (k p) (add_buffer p s) a s') →
  runs (kmalloc n ≫= k) s a s'.
Proof.
  intros Hn Hk w Hw. destruct (kmalloc_law w s n Hw Hn) as (p & w1 & E & H0 & Hf & H1).
  destruct (Hk p H0 Hf w1 H1) as (w2 & E2 & H2). exists w2. split; [|done].
  unfold mbind, kernel_bind. rewrite E. by run.
Qed.

Lemma runs_kfree {A} p (k : unit → kernel W A) s a s' : p ∉ live s →
  runs (k ()) s a s' → runs (kfree p ≫= k) (add_buffer p s) a s'.
Proof.
  intros Hp Hk w Hw. destruct (kfree_law w (add_buffer p s) p Hw) as (w1 & E & H1); [cbn; set_solver|].
  assert (Es : mk_store (disk (add_buffer p s)) (live (add_buffer p s) ∖ {[p]}) (quota (add_buffer p s)) = s).
  { destruct s as [d l q]. cbn in *. f_equal. set_solver. }
  rewrite Es in H1. destruct (Hk w1 H1) as (w2 & E2 & H2). exists w2. split; [|done].
  unfold mbind, kernel_bind. rewrite E. by run.
Qed.

Lemma runs_kfree_last p s : p ∉ live s → runs (kfree p) (add_buffer p s) () s.
Proof.
  intros Hp w Hw. destruct (runs_kfree p (λ _, mret ()) s () s Hp (runs_ret () s) w Hw) as (w' & E & H).
  exists w'. split; [|done]. unfold mbind, kernel_bind in E. destruct (kfree p w) as [[[] w1]|?| |]; [|done..].
  by injection E as ->.
Qed.

(** What code does from every state that holds a store. *)
Lemma runs_then {A B} (m : kernel W A) (k : A → kernel W B) s a s1 r :
  runs m s a s1 → (∀ w, holds w s1 → k a w = r) → ∀ w, holds w s → (m ≫= k) w = r.
Proof.
  intros Hm Hk w Hw. destruct (Hm w Hw) as (w1 & E & H1). unfold mbind, kernel_bind. rewrite E. run. by apply Hk.
Qed.

(** The same for a result that depends on more than the store, such as where a buffer
    lies: [Q] holds of what is returned and the store after it. *)
Definition ensures {A} (m : kernel W A) (s : store) (Q : A → store → Prop) : Prop :=
  ∀ w, holds w s → ∃ a w' s', m w = Ok (a, w') ∧ holds w' s' ∧ Q a s'.

Lemma ensures_runs {A} (m : kernel W A) s a s' (Q : A → store → Prop) : runs m s a s' → Q a s' → ensures m s Q.
Proof. intros Hm HQ w Hw. destruct (Hm w Hw) as (w' & E & H'). by exists a, w', s'. Qed.

Lemma ensures_ret {A} (a : A) s (Q : A → store → Prop) : Q a s → ensures (mret a) s Q.
Proof. apply ensures_runs, runs_ret. Qed.

Lemma ensures_bind {A B} (m : kernel W A) (k : A → kernel W B) s (P : A → store → Prop) Q :
  ensures m s P → (∀ a s1, P a s1 → ensures (k a) s1 Q) → ensures (m ≫= k) s Q.
Proof.
  intros Hm Hk w Hw. destruct (Hm w Hw) as (a & w1 & s1 & E & H1 & HP).
  destruct (Hk a s1 HP w1 H1) as (b & w2 & s2 & E2 & H2 & HQ). exists b, w2, s2. split; [|done].
  unfold mbind, kernel_bind. rewrite E. by run.
Qed.

Lemma ensures_step {A B} (m : kernel W A) (k : A → kernel W B) s a s1 Q :
  runs m s a s1 → ensures (k a) s1 Q → ensures (m ≫= k) s Q.
Proof.
  intros Hm Hk. apply (ensures_bind _ _ _ (λ a' s', a' = a ∧ s' = s1)); [by eapply ensures_runs|].
  by intros ? ? [-> ->].
Qed.

Lemma ensures_lift {A B} (m : outcome A) (k : A → kernel W B) s a Q :
  m = Ok a → ensures (k a) s Q → ensures (lift m ≫= k) s Q.
Proof. intros E Hk. eapply ensures_step; [by apply runs_lift_ret|done]. Qed.

Lemma ensures_kmalloc {A} n (k : Z → kernel W A) s Q : 0 < n ≤ quota s →
  (∀ p, p ≠ 0 → p ∉ live s → ensures (k p) (add_buffer p s) Q) → ensures (kmalloc n ≫= k) s Q.
Proof.
  intros Hn Hk w Hw. destruct (kmalloc_law w s n Hw Hn) as (p & w1 & E & H0 & Hf & H1).
  destruct (Hk p H0 Hf w1 H1) as (a & w2 & s2 & E2 & H2 & HQ). exists a, w2, s2. split; [|done].
  unfold mbind, kernel_bind. rewrite E. by run.
Qed.

(** Releasing a buffer among others. *)
Lemma runs_kfree_in p s : p ∈ live s → runs (kfree p) s () (mk_store (disk s) (live s ∖ {[p]}) (quota s)).
Proof. intros Hp w Hw. by apply kfree_law. Qed.

Lemma ensures_weaken {A} (m : kernel W A) s (P Q : A → store → Prop) :
  ensures m s P → (∀ a s', P a s' → Q a s') → ensures m s Q.
Proof. intros Hm HPQ w Hw. destruct (Hm w Hw) as (a & w' & s' & E & H' & HP). exists a, w', s'. auto. Qed.

Lemma set_disk_add d p s : set_disk d (add_buffer p s) = add_buffer p (set_disk d s).
Proof. done. Qed.
Lemma set_disk_set d d' s : set_disk d (set_disk d' s) = set_disk d s.
Proof. done. Qed.
Lemma set_disk_same s : set_disk (disk s) s = s.
Proof. by destruct s. Qed.

Lemma udiv_ok a b : b ≠ 0 → udiv a b = Ok (a / b).
Proof. intros H. unfold udiv. by rewrite (proj2 (Z.eqb_neq _ _) H). Qed.
Lemma umod_ok a b : b ≠ 0 → umod a b = Ok (a mod b).
Proof. intros H. unfold umod. by rewrite (proj2 (Z.eqb_neq _ _) H). Qed.
End runs.

(** ** A concrete implementation

    The state is the store itself: the laws can hold. *)
Module Pure.

Definition pure_read_sectors (lba n : Z) : kernel store (list Z) :=
  λ s, bs ← get_bytes (SECTOR * lba) (SECTOR * n) (disk s); Ok (bs, s).
Definition pure_write_sectors (lba n : Z) (bs : list Z) : kernel store unit :=
  λ s, d ← put_bytes (SECTOR * lba) bs (disk s); Ok ((), set_disk d s).
Definition fresh_pointer (s : store) : Z := 1 + foldr Z.max 0 (elements (live s)).
Definition pure_kmalloc (n : Z) : kernel store Z :=
  λ s, if (n <=? 0) || (quota s <? n) then Ok (0, s)
       else let p := fresh_pointer s in Ok (p, add_buffer p s).
Definition pure_kfree (p : Z) : kernel store unit :=
  λ s, Ok ((), mk_store (disk s) (live s ∖ {[p]}) (quota s)).

#[export] Instance pure_device : BlockDevice store := {|
  read_sectors := pure_read_sectors; write_sectors := pure_write_sectors |}.
#[export] Instance pure_allocator : Allocator store := {|
  kmalloc := pure_kmalloc; kfree := pure_kfree |}.

Lemma foldr_max_ge l p : p ∈ l → p ≤ foldr Z.max 0 l.
Proof. induction l as [|x l IH]; [set_solver|]. intros [->|H]%elem_of_cons; cbn; [lia|]. specialize (IH H). lia. Qed.

Lemma foldr_max_nonneg l : 0 ≤ foldr Z.max 0 l.
Proof. induction l; cbn; lia. Qed.

#[export] Program Instance pure_laws : StoreLaws store := {| holds := eq |}.
Next Obligation.
  intros w s lba n -> (H1 & H2 & H3 & H4). cbn. unfold pure_read_sectors, SECTOR in *.
  rewrite get_bytes_ok by lia. run. by exists s.
Qed.
Next Obligation.
  intros w s lba n bs -> (H1 & H2 & H3 & H4) Hl Hb. cbn. unfold pure_write_sectors, SECTOR in *.
  rewrite put_bytes_ok by lia. run. by eexists.
Qed.
Next Obligation.
  intros w s n -> Hn. cbn. unfold pure_kmalloc. rewrite (proj2 (Z.leb_gt _ _)), (proj2 (Z.ltb_ge _ _)) by lia.
  cbn [orb]. exists (fresh_pointer s). eexists. split; [done|]. unfold fresh_pointer.
  pose proof (foldr_max_nonneg (elements (live s))). split; [lia|]. split; [|done].
  intros Hp. apply elem_of_elements, foldr_max_ge in Hp. lia.
Qed.
Next Obligation. intros w s p -> Hp. cbn. by eexists. Qed.
End Pure.
End Block.
