(* ===== verification/LibcString.v ===== *)
(** * Memory and string functions (libc/string)

    Memory is a map from addresses to bytes; an address that is not in the map
    is not an object, and reading or writing it is a fault.  A loop that runs
    until a terminator is found runs on fuel, the number of bytes of memory,
    which is enough: it never visits an address twice.

    [bytes m a l] says that memory holds the bytes [l] at [a], and [cstr m a s]
    that a C string [s] is stored at [a]. *)

From S2P Require Import Prelude.

Module LibcString.

Abbreviation mem := (gmap Z Z).

Definition load (m : mem) (a : Z) : outcome Z := of_option (m !! a).
Definition store (a v : Z) (m : mem) : outcome mem :=
  match m !! a with Some _ => Ok (<[a := v]> m) | None => Fault end.

(** ** The functions *)

Definition memcpy (dstptr srcptr sz : Z) (m : mem) : outcome (Z * mem) :=
  m' ← for_range (λ i m, b ← load m (srcptr + i); store (dstptr + i) b m) (Z.to_nat sz) 0 m;
  Ok (dstptr, m').

(** [for (i = n; i != 0; i--) body(i - 1)] *)
Fixpoint for_down {S} (body : Z → S → outcome S) (n : nat) (s : S) : outcome S :=
  match n with
  | O => Ok s
  | Datatypes.S n' => s' ← body (Z.of_nat n') s; for_down body n' s'
  end.

Definition memmove (dstptr srcptr sz : Z) (m : mem) : outcome (Z * mem) :=
  let copy i m := b ← load m (srcptr + i); store (dstptr + i) b m in
  m' ← (if dstptr <? srcptr then for_range copy (Z.to_nat sz) 0 m
        else for_down copy (Z.to_nat sz) m);
  Ok (dstptr, m').

Definition memset (bufptr value sz : Z) (m : mem) : outcome (Z * mem) :=
  m' ← for_range (λ i m, store (bufptr + i) (u8 value) m) (Z.to_nat sz) 0 m;
  Ok (bufptr, m').

Definition memcmp (a b sz : Z) (m : mem) : outcome Z :=
  r ← for_return (λ i (_ : unit),
        x ← load m (a + i); y ← load m (b + i);
        if x <? y then Ok (inr (-1)) else if y <? x then Ok (inr 1) else Ok (inl ()))
      (Z.to_nat sz) 0 ();
  Ok (match r with inl _ => 0 | inr v => v end).

(** [while (p[len]) len++] *)
Fixpoint find_nul (fuel : nat) (m : mem) (p : Z) : outcome Z :=
  match fuel with
  | O => OutOfFuel
  | S fuel' => b ← load m p; if b =? 0 then Ok p else find_nul fuel' m (p + 1)
  end.

Abbreviation fuel_of m := (S (size m)).

Definition strlen (str : Z) (m : mem) : outcome Z :=
  e ← find_nul (fuel_of m) m str; Ok (e - str).

(** [while ( *src != 0) *ptr++ = *src++], the end of [dest] is the result. *)
Fixpoint copy_str (fuel : nat) (dest src : Z) (m : mem) : outcome (Z * mem) :=
  match fuel with
  | O => OutOfFuel
  | S fuel' =>
      b ← load m src;
      if b =? 0 then Ok (dest, m) else
      m' ← store dest b m; copy_str fuel' (dest + 1) (src + 1) m'
  end.

(** [while (( *dest++ = *src++) != 0)]: the terminator is copied too. *)
Fixpoint strcpy_loop (fuel : nat) (dest src : Z) (m : mem) : outcome mem :=
  match fuel with
  | O => OutOfFuel
  | S fuel' =>
      b ← load m src; m' ← store dest b m;
      if b =? 0 then Ok m' else strcpy_loop fuel' (dest + 1) (src + 1) m'
  end.

Definition strcpy (dest src : Z) (m : mem) : outcome (Z * mem) :=
  m' ← strcpy_loop (fuel_of m) dest src m; Ok (dest, m').

Definition strcat (dest src : Z) (m : mem) : outcome (Z * mem) :=
  ptr ← find_nul (fuel_of m) m dest;
  '(ptr', m') ← copy_str (fuel_of m) ptr src m;
  m'' ← store ptr' 0 m';
  Ok (dest, m'').

(** [while ( *src != 0 && i < n)] with [n - i] left to copy. *)
Fixpoint copy_str_n (fuel : nat) (n dest src : Z) (m : mem) : outcome (Z * mem) :=
  match fuel with
  | O => OutOfFuel
  | S fuel' =>
      b ← load m src;
      if (b =? 0) || (n <=? 0) then Ok (dest, m) else
      m' ← store dest b m; copy_str_n fuel' (n - 1) (dest + 1) (src + 1) m'
  end.

Definition strncat (dest src n : Z) (m : mem) : outcome (Z * mem) :=
  ptr ← find_nul (fuel_of m) m dest;
  '(ptr', m') ← copy_str_n (fuel_of m) n ptr src m;
  m'' ← store ptr' 0 m';
  Ok (dest, m'').

(** [while (n > 0 && *src != 0)]; the result is what is left of [n] and [dest]. *)
Fixpoint strncpy_loop (n : nat) (dest src : Z) (m : mem) : outcome (nat * Z * mem) :=
  match n with
  | O => Ok (O, dest, m)
  | S n' =>
      b ← load m src;
      if b =? 0 then Ok (n, dest, m) else
      m' ← store dest b m; strncpy_loop n' (dest + 1) (src + 1) m'
  end.

Definition strncpy (dest src n : Z) (m : mem) : outcome (Z * mem) :=
  '(n', d', m') ← strncpy_loop (Z.to_nat n) dest src m;
  m'' ← for_range (λ i m, store (d' + i) 0 m) n' 0 m';
  Ok (dest, m'').

Fixpoint strcmp_loop (fuel : nat) (s1 s2 : Z) (m : mem) : outcome Z :=
  match fuel with
  | O => OutOfFuel
  | S fuel' =>
      x ← load m s1;
      if x =? 0 then y ← load m s2; Ok (x - y) else
      y ← load m s2;
      if x =? y then strcmp_loop fuel' (s1 + 1) (s2 + 1) m else Ok (x - y)
  end.

Definition strcmp (s1 s2 : Z) (m : mem) : outcome Z := strcmp_loop (fuel_of m) s1 s2 m.

Fixpoint strncmp_loop (n : nat) (s1 s2 : Z) (m : mem) : outcome Z :=
  match n with
  | O => Ok 0
  | S n' =>
      x ← load m s1; y ← load m s2;
      if negb (x =? y) then Ok (x - y) else
      if x =? 0 then Ok 0 else strncmp_loop n' (s1 + 1) (s2 + 1) m
  end.

Definition strncmp (s1 s2 n : Z) (m : mem) : outcome Z := strncmp_loop (Z.to_nat n) s1 s2 m.

(** A null result is 0. *)
Fixpoint strchr_loop (fuel : nat) (s c : Z) (m : mem) : outcome Z :=
  match fuel with
  | O => OutOfFuel
  | S fuel' =>
      b ← load m s;
      if b =? c then Ok s else if b =? 0 then Ok 0 else strchr_loop fuel' (s + 1) c m
  end.

Definition strchr (s c : Z) (m : mem) : outcome Z := strchr_loop (fuel_of m) s (u8 c) m.

Fixpoint strrchr_loop (fuel : nat) (s target last : Z) (m : mem) : outcome (Z * Z) :=
  match fuel with
  | O => OutOfFuel
  | S fuel' =>
      b ← load m s;
      if b =? 0 then Ok (s, last)
      else strrchr_loop fuel' (s + 1) target (if b =? target then s else last) m
  end.

Definition strrchr (s c : Z) (m : mem) : outcome Z :=
  '(e, last) ← strrchr_loop (fuel_of m) s (u8 c) 0 m;
  Ok (if u8 c =? 0 then e else last).

(** ** Bytes in memory *)

Definition bytes (m : mem) (a : Z) (l : list Z) : Prop :=
  ∀ i b, l !! i = Some b → m !! (a + Z.of_nat i) = Some b.

Definition allocated (m : mem) (a n : Z) : Prop := ∀ i, 0 ≤ i < n → is_Some (m !! (a + i)).

Definition cstr (m : mem) (a : Z) (s : list Z) : Prop :=
  Forall (λ b, b ≠ 0) s ∧ bytes m a (s ++ [0]).

(** Memory outside [a, a+n) is unchanged, and the same addresses are objects. *)
Definition frame (m m' : mem) (a n : Z) : Prop :=
  (∀ x, ¬ a ≤ x < a + n → m' !! x = m !! x) ∧ ∀ x, is_Some (m' !! x) ↔ is_Some (m !! x).

Lemma bytes_nil m a : bytes m a [].
Proof. intros i b. by rewrite lookup_nil. Qed.

Lemma bytes_cons m a b l : bytes m a (b :: l) ↔ m !! a = Some b ∧ bytes m (a + 1) l.
Proof.
  split.
  - intros H. split; [specialize (H O b eq_refl); by rewrite Z.add_0_r in H|].
    intros i c Hi. rewrite <- (H (S i) c Hi). f_equal. lia.
  - intros [H1 H2] [|i] c Hi; cbn in Hi; [injection Hi as <-; by rewrite Z.add_0_r|].
    rewrite <- (H2 i c Hi). f_equal. lia.
Qed.

Lemma bytes_app m a l1 l2 :
  bytes m a (l1 ++ l2) ↔ bytes m a l1 ∧ bytes m (a + Z.of_nat (length l1)) l2.
Proof.
  revert a. induction l1 as [|b l1 IH]; intros a; cbn [app length].
  - rewrite Z.add_0_r. split; [split; [apply bytes_nil|done]|tauto].
  - rewrite !bytes_cons, IH. replace (a + Z.of_nat (S (length l1))) with
      (a + 1 + Z.of_nat (length l1)) by lia. tauto.
Qed.

Lemma frame_refl m a n : frame m m a n.
Proof. done. Qed.

Lemma frame_trans m1 m2 m3 a n : frame m1 m2 a n → frame m2 m3 a n → frame m1 m3 a n.
Proof.
  intros [A1 A2] [B1 B2]. split; [intros x Hx; by rewrite B1, A1|].
  intros x. by rewrite B2, A2.
Qed.

Lemma frame_widen m m' a n a' n' :
  a' ≤ a → a + n ≤ a' + n' → frame m m' a n → frame m m' a' n'.
Proof. intros H1 H2 [F1 F2]. split; [|done]. intros x Hx. apply F1. lia. Qed.

Lemma frame_bytes m m' a n p l :
  frame m m' a n → (p + Z.of_nat (length l) ≤ a ∨ a + n ≤ p) → bytes m p l → bytes m' p l.
Proof.
  intros [F _] Hd H i b Hi. pose proof (lookup_lt_Some _ _ _ Hi).
  rewrite F; [by apply H|lia].
Qed.

Lemma frame_allocated m m' a n p k : frame m m' a n → allocated m p k → allocated m' p k.
Proof. intros [_ F] H i Hi. apply F. auto. Qed.

Lemma store_ok m a v : is_Some (m !! a) → store a v m = Ok (<[a := v]> m).
Proof. intros [b E]. unfold store. by rewrite E. Qed.

Lemma load_ok m a b : m !! a = Some b → load m a = Ok b.
Proof. unfold load. by intros ->. Qed.

Lemma frame_store m a v b n : is_Some (m !! b) → a ≤ b < a + n → frame m (<[b := v]> m) a n.
Proof.
  intros Hb Hr. split.
  - intros x Hx. rewrite lookup_insert_ne; [done|lia].
  - intros x. destruct (decide (x = b)) as [->|].
    + rewrite lookup_insert_eq. split; [done|eauto].
    + by rewrite lookup_insert_ne.
Qed.

(** The fuel bounds every scan: bytes at different addresses of memory. *)
Lemma bytes_length m a l : bytes m a l → (length l ≤ size m)%nat.
Proof.
  intros H. rewrite <- size_dom.
  set (addrs := (λ i, a + Z.of_nat i) <$> seq 0 (length l)).
  assert (Hnd : NoDup addrs) by (apply NoDup_fmap_2; [intros x y; lia|apply NoDup_seq]).
  transitivity (length addrs); [unfold addrs; by rewrite length_fmap, length_seq|].
  rewrite <- (size_list_to_set (C := gset Z)) by done. apply subseteq_size.
  intros x (i & -> & Hi%elem_of_seq)%elem_of_list_to_set%list_elem_of_fmap.
  apply elem_of_dom. destruct (lookup_lt_is_Some_2 l i) as [b Hb]; [lia|].
  rewrite (H i b Hb). eauto.
Qed.

Lemma bytes_allocated m a l : bytes m a l → allocated m a (Z.of_nat (length l)).
Proof.
  intros H i Hi. destruct (lookup_lt_is_Some_2 l (Z.to_nat i)) as [b Hb]; [lia|].
  specialize (H _ _ Hb). rewrite Z2Nat.id in H by lia. eauto.
Qed.

(** ** Copying *)

(** [bytes] by index in [Z]. *)
Lemma bytes_Z m a l :
  bytes m a l ↔ ∀ k, 0 ≤ k < Z.of_nat (length l) → m !! (a + k) = l !! Z.to_nat k.
Proof.
  split.
  - intros H k Hk. destruct (lookup_lt_is_Some_2 l (Z.to_nat k)) as [b Hb]; [lia|].
    rewrite Hb, <- (H _ _ Hb). f_equal. lia.
  - intros H i b Hi. pose proof (lookup_lt_Some _ _ _ Hi).
    rewrite H by lia. by rewrite Nat2Z.id.
Qed.

Section copy.
Context (m0 : mem) (dst src : Z) (l : list Z).
Let n := Z.of_nat (length l).
Hypothesis Hsrc : bytes m0 src l.
Hypothesis Hdst : allocated m0 dst n.

(** One step of a copy in a state where the source byte is still there. *)
Lemma copy_step m i :
  frame m0 m dst n → 0 ≤ i < n → m !! (src + i) = l !! Z.to_nat i →
  ∃ b, l !! Z.to_nat i = Some b ∧
    (x ← load m (src + i); store (dst + i) x m) = Ok (<[dst + i := b]> m) ∧
    frame m0 (<[dst + i := b]> m) dst n.
Proof.
  intros HF Hi Hb. destruct (lookup_lt_is_Some_2 l (Z.to_nat i)) as [b E]; [lia|].
  assert (Ha : is_Some (m !! (dst + i))) by (apply HF, Hdst; lia).
  exists b. split; [done|]. rewrite (load_ok _ _ b) by congruence. run.
  split; [by apply store_ok|]. eapply frame_trans; [done|]. apply frame_store; [done|lia].
Qed.

Lemma copy_up :
  (dst < src ∨ dst + n ≤ src ∨ src + n ≤ dst) →
  ∃ m', for_range (λ i m, b ← load m (src + i); store (dst + i) b m) (length l) 0 m0 = Ok m' ∧
    bytes m' dst l ∧ frame m0 m' dst n.
Proof.
  intros Hov. pose proof (proj1 (bytes_Z _ _ _) Hsrc) as HsZ. fold n in HsZ.
  destruct (for_range_rule (λ i m, frame m0 m dst n ∧
       (∀ k, 0 ≤ k < i → m !! (dst + k) = l !! Z.to_nat k) ∧
       (∀ k, i ≤ k < n → m !! (src + k) = l !! Z.to_nat k))
    (λ i m, b ← load m (src + i); store (dst + i) b m) (length l) 0 m0) as (m' & E & HF & Hd & _).
  - split_and!; [apply frame_refl|lia|]. intros k Hk. apply HsZ. lia.
  - intros i m Hi (HF & Hd & Hs). fold n in Hi.
    destruct (copy_step m i HF) as (b & Hb & E & HF'); [lia|apply Hs; lia|].
    eexists. split; [exact E|]. split_and!; [done| |].
    + intros k Hk. destruct (decide (k = i)) as [->|]; [by rewrite lookup_insert_eq|].
      rewrite lookup_insert_ne by lia. apply Hd. lia.
    + intros k Hk. rewrite lookup_insert_ne by lia. apply Hs. lia.
  - exists m'. split_and!; [done| |done]. apply bytes_Z. intros k Hk. apply Hd. lia.
Qed.

Lemma for_down_rule {S} (P : nat → S → Prop) (body : Z → S → outcome S) k s :
  P k s → (∀ j t, (j < k)%nat → P (Datatypes.S j) t → ∃ t', body (Z.of_nat j) t = Ok t' ∧ P j t') →
  ∃ s', for_down body k s = Ok s' ∧ P O s'.
Proof.
  revert s. induction k as [|k IH]; intros s Hs Hstep; [by exists s|]. cbn [for_down].
  destruct (Hstep k s) as (t & -> & Ht); [lia|done|]. run.
  apply IH; [done|]. intros. apply Hstep; [lia|done].
Qed.

Lemma copy_down :
  src ≤ dst →
  ∃ m', for_down (λ i m, b ← load m (src + i); store (dst + i) b m) (length l) m0 = Ok m' ∧
    bytes m' dst l ∧ frame m0 m' dst n.
Proof.
  intros Hov. pose proof (proj1 (bytes_Z _ _ _) Hsrc) as HsZ. fold n in HsZ.
  destruct (for_down_rule (λ j m, frame m0 m dst n ∧
       (∀ k, Z.of_nat j ≤ k < n → m !! (dst + k) = l !! Z.to_nat k) ∧
       (∀ k, 0 ≤ k < Z.of_nat j → m !! (src + k) = l !! Z.to_nat k))
    (λ i m, b ← load m (src + i); store (dst + i) b m) (length l) m0) as (m' & E & HF & Hd & _).
  - split_and!; [apply frame_refl|lia|]. intros k Hk. apply HsZ. lia.
  - intros j m Hj (HF & Hd & Hs).
    destruct (copy_step m (Z.of_nat j) HF) as (b & Hb & E & HF'); [lia|apply Hs; lia|].
    eexists. split; [exact E|]. split_and!; [done| |].
    + intros k Hk. destruct (decide (k = Z.of_nat j)) as [->|]; [by rewrite lookup_insert_eq|].
      rewrite lookup_insert_ne by lia. apply Hd. lia.
    + intros k Hk. rewrite lookup_insert_ne by lia. apply Hs. lia.
  - exists m'. split_and!; [done| |done]. apply bytes_Z. intros k Hk. apply Hd. lia.
Qed.
End copy.

Lemma memmove_spec m dst src l :
  bytes m src l → allocated m dst (Z.of_nat (length l)) →
  ∃ m', memmove dst src (Z.of_nat (length l)) m = Ok (dst, m') ∧ bytes m' dst l ∧
    frame m m' dst (Z.of_nat (length l)).
Proof.
  intros Hs Hd. unfold memmove. rewrite Nat2Z.id. destruct (Z.ltb_spec dst src).
  - destruct (copy_up m dst src l Hs Hd) as (m' & -> & ? & ?); [by left|]. run. eauto.
  - destruct (copy_down m dst src l Hs Hd) as (m' & -> & ? & ?); [done|]. run. eauto.
Qed.

Lemma memcpy_spec m dst src l :
  bytes m src l → allocated m dst (Z.of_nat (length l)) →
  (dst < src ∨ src + Z.of_nat (length l) ≤ dst) →
  ∃ m', memcpy dst src (Z.of_nat (length l)) m = Ok (dst, m') ∧ bytes m' dst l ∧
    frame m m' dst (Z.of_nat (length l)).
Proof.
  intros Hs Hd Hov. unfold memcpy. rewrite Nat2Z.id.
  destruct (copy_up m dst src l Hs Hd) as (m' & -> & ? & ?); [tauto|]. run. eauto.
Qed.

Lemma fill_spec m a v k :
  allocated m a (Z.of_nat k) →
  ∃ m', for_range (λ i m, store (a + i) v m) k 0 m = Ok m' ∧ bytes m' a (replicate k v) ∧
    frame m m' a (Z.of_nat k).
Proof.
  intros Ha.
  destruct (for_range_rule (λ i m', frame m m' a (Z.of_nat k) ∧
       ∀ j, 0 ≤ j < i → m' !! (a + j) = Some v)
    (λ i m, store (a + i) v m) k 0 m) as (m' & E & HF & Hb).
  - split; [apply frame_refl|lia].
  - intros i t Hi (HF & Hb). assert (Hs : is_Some (t !! (a + i))) by (apply HF, Ha; lia).
    eexists. split; [by apply store_ok|]. split.
    + eapply frame_trans; [done|]. apply frame_store; [done|lia].
    + intros j Hj. destruct (decide (j = i)) as [->|]; [by rewrite lookup_insert_eq|].
      rewrite lookup_insert_ne by lia. apply Hb. lia.
  - exists m'. split_and!; [done| |done]. intros i b [-> Hi]%lookup_replicate. apply Hb. lia.
Qed.

Lemma memset_spec m a v k :
  allocated m a (Z.of_nat k) →
  ∃ m', memset a v (Z.of_nat k) m = Ok (a, m') ∧ bytes m' a (replicate k (u8 v)) ∧
    frame m m' a (Z.of_nat k).
Proof.
  intros Ha. unfold memset. rewrite Nat2Z.id.
  destruct (fill_spec m a (u8 v) k Ha) as (m' & -> & ? & ?). run. eauto.
Qed.

(** ** Strings *)

Lemma cstr_cons m a b s : cstr m a (b :: s) ↔ b ≠ 0 ∧ m !! a = Some b ∧ cstr m (a + 1) s.
Proof.
  unfold cstr. rewrite <- app_comm_cons, bytes_cons, Forall_cons. tauto.
Qed.

Lemma cstr_nil m a : cstr m a [] ↔ m !! a = Some 0.
Proof. unfold cstr. cbn [app]. rewrite bytes_cons. split; [tauto|]. intros H. split_and!; [done..|apply bytes_nil]. Qed.

Lemma cstr_fuel m a s : cstr m a s → (length s < fuel_of m)%nat.
Proof. intros [_ H%bytes_length]. rewrite length_app in H. cbn in H. lia. Qed.

Lemma find_nul_spec fuel m a s :
  cstr m a s → (length s < fuel)%nat → find_nul fuel m a = Ok (a + Z.of_nat (length s)).
Proof.
  revert fuel a. induction s as [|b s IH]; intros fuel a Hs Hf; destruct fuel as [|fuel]; try lia;
    cbn [find_nul].
  - apply cstr_nil in Hs. rewrite (load_ok _ _ _ Hs). run. cbn. by rewrite Z.add_0_r.
  - apply cstr_cons in Hs as (Hb & Hm & Hs). rewrite (load_ok _ _ _ Hm). run.
    rewrite (proj2 (Z.eqb_neq _ 0) Hb), (IH fuel (a + 1) Hs) by (cbn in Hf; lia).
    f_equal. cbn [length]. lia.
Qed.

Lemma strlen_spec m a s : cstr m a s → strlen a m = Ok (Z.of_nat (length s)).
Proof.
  intros Hs. unfold strlen. rewrite (find_nul_spec _ _ _ s Hs) by by apply (cstr_fuel m a). run.
  f_equal. lia.
Qed.

(** Lexicographic comparison of byte strings: the first difference decides. *)
Fixpoint str_diff (s1 s2 : list Z) : Z :=
  match s1, s2 with
  | [], [] => 0
  | [], y :: _ => - y
  | x :: _, [] => x
  | x :: s1', y :: s2' => if x =? y then str_diff s1' s2' else x - y
  end.

Lemma strcmp_loop_spec fuel m a1 a2 s1 s2 :
  cstr m a1 s1 → cstr m a2 s2 → (length s1 < fuel)%nat →
  strcmp_loop fuel a1 a2 m = Ok (str_diff s1 s2).
Proof.
  revert fuel a1 a2 s2. induction s1 as [|x s1 IH]; intros fuel a1 a2 s2 H1 H2 Hf;
    destruct fuel as [|fuel]; try lia; cbn [strcmp_loop].
  - apply cstr_nil in H1. rewrite (load_ok _ _ _ H1). run. cbn [Z.eqb].
    destruct s2 as [|y s2]; [apply cstr_nil in H2|apply cstr_cons in H2 as (_ & H2 & _)];
      rewrite (load_ok _ _ _ H2); run; done.
  - apply cstr_cons in H1 as (Hx & Hm & H1). rewrite (load_ok _ _ _ Hm). run.
    rewrite (proj2 (Z.eqb_neq _ 0) Hx). destruct s2 as [|y s2].
    + apply cstr_nil in H2. rewrite (load_ok _ _ _ H2). run.
      rewrite (proj2 (Z.eqb_neq _ 0) Hx). f_equal. cbn. lia.
    + apply cstr_cons in H2 as (Hy & Hm2 & H2). rewrite (load_ok _ _ _ Hm2). run.
      cbn [str_diff]. destruct (x =? y); [|done]. apply IH; [done..|cbn in Hf; lia].
Qed.

Lemma strcmp_spec m a1 a2 s1 s2 :
  cstr m a1 s1 → cstr m a2 s2 → strcmp a1 a2 m = Ok (str_diff s1 s2).
Proof. intros H1 H2. apply strcmp_loop_spec; [done|done|by apply (cstr_fuel m a1)]. Qed.

Lemma str_diff_zero s1 s2 :
  Forall (λ b, 0 < b) s1 → Forall (λ b, 0 < b) s2 → str_diff s1 s2 = 0 ↔ s1 = s2.
Proof.
  intros H1. revert s2. induction H1 as [|x s1 Hx H1 IH]; intros s2 H2;
    destruct H2 as [|y s2 Hy H2]; cbn [str_diff]; try (split; [lia|done]); [done|].
  destruct (Z.eqb_spec x y) as [->|]; [rewrite IH by done; split; congruence|].
  split; [lia|congruence].
Qed.

(** The sign of the difference is the order of the strings as byte sequences. *)
Fixpoint lex_lt (s1 s2 : list Z) : Prop :=
  match s1, s2 with
  | _, [] => False
  | [], _ :: _ => True
  | x :: s1', y :: s2' => x < y ∨ x = y ∧ lex_lt s1' s2'
  end.

Lemma str_diff_neg s1 s2 :
  Forall (λ b, 0 < b) s1 → Forall (λ b, 0 < b) s2 → str_diff s1 s2 < 0 ↔ lex_lt s1 s2.
Proof.
  intros H1. revert s2. induction H1 as [|x s1 Hx H1 IH]; intros s2 H2;
    destruct H2 as [|y s2 Hy H2]; cbn [str_diff lex_lt]; try (split; [lia|tauto]).
  - split; [done|lia].
  - destruct (Z.eqb_spec x y) as [->|]; [rewrite IH by done; naive_solver lia|naive_solver lia].
Qed.

(** *** Bounded copy *)

Lemma strncpy_loop_spec n m dest src s :
  cstr m src s → allocated m dest (Z.of_nat n) →
  (dest + Z.of_nat n ≤ src ∨ src + Z.of_nat (length s) < dest) →
  ∃ m', strncpy_loop n dest src m =
      Ok ((n - length s)%nat, dest + Z.of_nat (min n (length s)), m') ∧
    bytes m' dest (take n s) ∧ frame m m' dest (Z.of_nat n).
Proof.
  revert m dest src s. induction n as [|n IH]; intros m dest src s Hs Ha Hov; cbn [strncpy_loop].
  { exists m. rewrite take_0, Z.add_0_r. split_and!; [done|apply bytes_nil|apply frame_refl]. }
  destruct s as [|b s].
  { apply cstr_nil in Hs. rewrite (load_ok _ _ _ Hs). run. exists m. cbn.
    rewrite Z.add_0_r. split_and!; [done|apply bytes_nil|apply frame_refl]. }
  pose proof Hs as Hs0. apply cstr_cons in Hs as (Hb & Hm & Hs). rewrite (load_ok _ _ _ Hm). run.
  rewrite (proj2 (Z.eqb_neq _ 0) Hb). cbn [length] in Hov.
  assert (Hd : is_Some (m !! dest)) by (rewrite <- (Z.add_0_r dest); apply Ha; lia).
  rewrite (store_ok _ _ _ Hd). run.
  assert (HF : frame m (<[dest := b]> m) dest 1) by (apply frame_store; [done|lia]).
  destruct (IH (<[dest := b]> m) (dest + 1) (src + 1) s) as (m' & -> & Hbs & HF').
  - destruct Hs as [Hnz Hby]. split; [done|]. eapply frame_bytes; [exact HF| |done].
    rewrite length_app. cbn. lia.
  - eapply frame_allocated; [exact HF|]. intros i Hi.
    replace (dest + 1 + i) with (dest + (1 + i)) by lia. apply Ha. lia.
  - lia.
  - exists m'. split; [|split].
    + f_equal. f_equal. f_equal. cbn [length Nat.min]. lia.
    + cbn [take]. apply bytes_cons. split; [|done]. destruct HF' as [F _].
      rewrite F by lia. by rewrite lookup_insert_eq.
    + apply (frame_trans _ (<[dest := b]> m)); [by apply (frame_widen _ _ dest 1); [lia..|]|].
      apply (frame_widen _ _ (dest + 1) (Z.of_nat n)); [lia..|done].
Qed.

Lemma strncpy_spec m dest src s n :
  cstr m src s → allocated m dest (Z.of_nat n) →
  (dest + Z.of_nat n ≤ src ∨ src + Z.of_nat (length s) < dest) →
  ∃ m', strncpy dest src (Z.of_nat n) m = Ok (dest, m') ∧
    bytes m' dest (take n s ++ replicate (n - length s) 0) ∧ frame m m' dest (Z.of_nat n).
Proof.
  intros Hs Ha Hov. unfold strncpy. rewrite Nat2Z.id.
  destruct (strncpy_loop_spec n m dest src s Hs Ha Hov) as (m1 & -> & Hb1 & F1). run.
  set (d := dest + Z.of_nat (min n (length s))).
  destruct (fill_spec m1 d 0 (n - length s)) as (m2 & -> & Hb2 & F2).
  { eapply frame_allocated; [exact F1|]. intros i Hi. unfold d.
    rewrite <- Z.add_assoc. apply Ha. lia. }
  run. exists m2. split_and!; [done| |].
  - apply bytes_app. rewrite length_take. fold d. split; [|done].
    eapply frame_bytes; [exact F2| |done]. rewrite length_take. unfold d. lia.
  - eapply frame_trans; [exact F1|]. apply (frame_widen _ _ d (Z.of_nat (n - length s)));
      [unfold d; lia..|done].
Qed.

(** *** Unbounded copy *)

Lemma copy_str_spec fuel m dest src s :
  cstr m src s → allocated m dest (Z.of_nat (length s)) →
  (dest + Z.of_nat (length s) ≤ src ∨ src + Z.of_nat (length s) < dest) → (length s < fuel)%nat →
  ∃ m', copy_str fuel dest src m = Ok (dest + Z.of_nat (length s), m') ∧
    bytes m' dest s ∧ frame m m' dest (Z.of_nat (length s)).
Proof.
  revert fuel m dest src. induction s as [|b s IH]; intros fuel m dest src Hs Ha Hov Hf;
    destruct fuel as [|fuel]; try lia; cbn [copy_str].
  { apply cstr_nil in Hs. rewrite (load_ok _ _ _ Hs). run. exists m. cbn.
    rewrite Z.add_0_r. split_and!; [done|apply bytes_nil|apply frame_refl]. }
  apply cstr_cons in Hs as (Hb & Hm & Hs). rewrite (load_ok _ _ _ Hm). run.
  rewrite (proj2 (Z.eqb_neq _ 0) Hb). cbn [length] in *.
  assert (Hd : is_Some (m !! dest)) by (rewrite <- (Z.add_0_r dest); apply Ha; lia).
  rewrite (store_ok _ _ _ Hd). run.
  assert (HF : frame m (<[dest := b]> m) dest 1) by (apply frame_store; [done|lia]).
  destruct (IH fuel (<[dest := b]> m) (dest + 1) (src + 1)) as (m' & -> & Hbs & HF').
  - destruct Hs as [Hnz Hby]. split; [done|]. eapply frame_bytes; [exact HF| |done].
    rewrite length_app. cbn. lia.
  - eapply frame_allocated; [exact HF|]. intros i Hi.
    replace (dest + 1 + i) with (dest + (1 + i)) by lia. apply Ha. lia.
  - lia.
  - lia.
  - exists m'. split; [f_equal; f_equal; lia|]. split.
    + apply bytes_cons. split; [|done]. destruct HF' as [F _].
      rewrite F by lia. by rewrite lookup_insert_eq.
    + apply (frame_trans _ (<[dest := b]> m)); [by apply (frame_widen _ _ dest 1); [lia..|]|].
      apply (frame_widen _ _ (dest + 1) (Z.of_nat (length s))); [lia..|done].
Qed.

(** Appending: the destination has room for both strings and the terminator. *)
Lemma strcat_spec m dest src s1 s2 :
  cstr m dest s1 → cstr m src s2 →
  allocated m dest (Z.of_nat (length s1 + length s2 + 1)) →
  (dest + Z.of_nat (length s1 + length s2 + 1) ≤ src ∨ src + Z.of_nat (length s2) < dest) →
  ∃ m', strcat dest src m = Ok (dest, m') ∧ cstr m' dest (s1 ++ s2) ∧
    frame m m' dest (Z.of_nat (length s1 + length s2 + 1)).
Proof.
  intros H1 H2 Ha Hov. unfold strcat.
  rewrite (find_nul_spec _ _ _ s1 H1) by by apply (cstr_fuel m dest). run.
  set (e := dest + Z.of_nat (length s1)).
  assert (Hsub : ∀ k, (k ≤ length s2 + 1)%nat → allocated m e (Z.of_nat k)).
  { intros k Hk i Hi. unfold e. rewrite <- Z.add_assoc. apply Ha. lia. }
  destruct (copy_str_spec (fuel_of m) m e src s2 H2) as (m1 & -> & Hb & F1);
    [apply Hsub; lia|unfold e; lia|by apply (cstr_fuel m src)|]. run.
  set (z := e + Z.of_nat (length s2)).
  assert (Hz : is_Some (m1 !! z)) by (apply F1; unfold z; apply (Hsub (length s2 + 1)%nat); lia).
  rewrite (store_ok _ _ _ Hz). run. eexists. split; [reflexivity|].
  assert (F2 : frame m1 (<[z := 0]> m1) z 1) by (apply frame_store; [done|lia]).
  destruct H1 as [N1 B1], H2 as [N2 B2]. apply bytes_app in B1 as [B1 _]. split.
  - split; [by apply Forall_app|]. rewrite <- app_assoc. apply bytes_app. fold e. split.
    + eapply frame_bytes; [exact F2|unfold z, e; lia|].
      eapply frame_bytes; [exact F1|unfold e; lia|done].
    + apply bytes_app. fold z. split; [eapply frame_bytes; [exact F2|unfold z; lia|done]|].
      apply bytes_cons. split; [apply lookup_insert_eq|apply bytes_nil].
  - eapply frame_trans; [apply (frame_widen _ _ e (Z.of_nat (length s2))); [unfold e; lia..|exact F1]|].
    apply (frame_widen _ _ z 1); [unfold z, e; lia..|exact F2].
Qed.

(** Memory that holds the given bytes and nothing else. *)
Fixpoint mem_of (a : Z) (l : list Z) : mem :=
  match l with [] => ∅ | b :: l' => <[a := b]> (mem_of (a + 1) l') end.

Lemma bytes_mem_of a l : bytes (mem_of a l) a l.
Proof.
  revert a. induction l as [|b l IH]; intros a; [apply bytes_nil|]. cbn [mem_of].
  apply bytes_cons. split; [apply lookup_insert_eq|].
  intros i c Hi. rewrite lookup_insert_ne by lia. by apply IH.
Qed.

(** ** Properties *)

(** Sixteen bytes at address 100: the strings "abcd" and "abz", and seven zero bytes. *)
Definition demo_mem : mem :=
  list_to_map (zip (seqZ 100 16) ([97; 98; 99; 100; 0; 97; 98; 122; 0] ++ replicate 7 0)).

Ltac demo_bytes := repeat (apply bytes_cons; split; [reflexivity|]); apply bytes_nil.
Ltac demo_alloc :=
  let i := fresh in let Hi := fresh in
  intros i Hi; apply elem_of_seqZ with (m := 0) in Hi; cbn in Hi;
  repeat (apply elem_of_cons in Hi as [->|Hi]; [vm_compute; by eexists|]); by apply elem_of_nil in Hi.

(** [memmove] copies correctly however the two regions overlap: for every
    content of the source region the destination afterwards holds that content,
    and no byte outside the destination changes. *)
Theorem memmove_correct m dst src l :
  bytes m src l → allocated m dst (Z.of_nat (length l)) →
  ∃ m', memmove dst src (Z.of_nat (length l)) m = Ok (dst, m') ∧ bytes m' dst l ∧
    ∀ x, ¬ dst ≤ x < dst + Z.of_nat (length l) → m' !! x = m !! x.
Proof.
  intros Hs Hd. destruct (memmove_spec m dst src l Hs Hd) as (m' & E & Hb & [F _]). eauto.
Qed.

Lemma memmove_correct_witness :
  ∃ m', memmove 102 100 4 demo_mem = Ok (102, m') ∧ bytes m' 102 [97; 98; 99; 100].
Proof.
  destruct (memmove_correct demo_mem 102 100 [97; 98; 99; 100]) as (m' & E & Hb & _);
    [demo_bytes|demo_alloc|]. exists m'. split; [exact E|exact Hb].
Defined.

(** [strcmp] of two strings returns 0 exactly when they are equal, and a negative
    number exactly when the first comes before the second as a sequence of
    unsigned bytes. *)
Theorem strcmp_is_lexicographic m a1 a2 s1 s2 :
  cstr m a1 s1 → cstr m a2 s2 → Forall (λ b, 0 < b < 256) s1 → Forall (λ b, 0 < b < 256) s2 →
  ∃ r, strcmp a1 a2 m = Ok r ∧ -255 ≤ r ≤ 255 ∧ (r = 0 ↔ s1 = s2) ∧ (r < 0 ↔ lex_lt s1 s2).
Proof.
  intros H1 H2 F1 F2. exists (str_diff s1 s2). split; [by apply strcmp_spec|].
  assert (P1 : Forall (λ b, 0 < b) s1) by (eapply Forall_impl; [done|]; naive_solver).
  assert (P2 : Forall (λ b, 0 < b) s2) by (eapply Forall_impl; [done|]; naive_solver).
  split; [|split; [by apply str_diff_zero|by apply str_diff_neg]].
  clear -F1 F2. revert s2 F2. induction F1 as [|x s1 Hx F1 IH]; intros s2 F2;
    destruct F2 as [|y s2 Hy F2]; cbn [str_diff]; try lia.
  destruct (x =? y); [by apply IH|lia].
Qed.

Lemma strcmp_is_lexicographic_witness :
  ∃ r, strcmp 100 105 demo_mem = Ok r ∧ (r < 0 ↔ lex_lt [97; 98; 99; 100] [97; 98; 122]).
Proof.
  destruct (strcmp_is_lexicographic demo_mem 100 105 [97; 98; 99; 100] [97; 98; 122])
    as (r & E & _ & _ & Hr);
    [split; [repeat constructor; lia|demo_bytes]|split; [repeat constructor; lia|demo_bytes]
    |repeat constructor; lia|repeat constructor; lia|].
  exists r. split; [exact E|exact Hr].
Defined.

(** [strcat] into a buffer with room appends the source string and terminates
    the result, [strlen] then gives the sum of the lengths, and nothing outside
    the buffer changes; [strncpy] writes exactly [n] bytes, the first [n] of the
    source padded with zeros. *)
Theorem strcat_strlen m dest src s1 s2 :
  cstr m dest s1 → cstr m src s2 →
  allocated m dest (Z.of_nat (length s1 + length s2 + 1)) →
  (dest + Z.of_nat (length s1 + length s2 + 1) ≤ src ∨ src + Z.of_nat (length s2) < dest) →
  (∃ m', strcat dest src m = Ok (dest, m') ∧
    strlen dest m' = Ok (Z.of_nat (length s1) + Z.of_nat (length s2)) ∧
    cstr m' dest (s1 ++ s2) ∧
    ∀ x, ¬ dest ≤ x < dest + Z.of_nat (length s1 + length s2 + 1) → m' !! x = m !! x) ∧
  ∀ n, (n ≤ length s1 + length s2 + 1)%nat →
    ∃ m', strncpy dest src (Z.of_nat n) m = Ok (dest, m') ∧
      bytes m' dest (take n s2 ++ replicate (n - length s2) 0) ∧
      ∀ x, ¬ dest ≤ x < dest + Z.of_nat n → m' !! x = m !! x.
Proof.
  intros H1 H2 Ha Hov. split.
  - destruct (strcat_spec m dest src s1 s2 H1 H2 Ha Hov) as (m' & E & Hc & [F _]).
    exists m'. split_and!; try done. rewrite (strlen_spec _ _ _ Hc), length_app. f_equal. lia.
  - intros n Hn. destruct (strncpy_spec m dest src s2 n H2) as (m' & E & Hb & [F _]).
    + intros i Hi. apply Ha. lia.
    + lia.
    + eauto.
Qed.

Lemma strcat_strlen_witness :
  ∃ m', strcat 109 105 demo_mem = Ok (109, m') ∧ strlen 109 m' = Ok 3.
Proof.
  destruct (strcat_strlen demo_mem 109 105 [] [97; 98; 122]) as [(m' & E & Hl & _) _];
    [split; [constructor|demo_bytes]|split; [repeat constructor; lia|demo_bytes]|demo_alloc
    |right; cbn; lia|].
  exists m'. split; [exact E|exact Hl].
Defined.
End LibcString.
