(* ===== verification/LibcStdlib.v ===== *)
(** * Number conversions (libc/stdlib, include/libc/ctype.h)

    Printing ([itoa], [utoa], [ulltoa]) writes the digits from the least
    significant one and reverses them in place; reading ([strtoul], [atoi])
    works on a C string in memory.  [numeral] is the reference: the digits of a
    number, most significant first.  Characters are their ASCII codes; a C
    [int] is a [Z] with its 32-bit wrap written out.

    The printing loops get 64 units of fuel: a 64-bit number has at most 64
    digits in any base of at least 2.  In base 1 [itoa] does not terminate, and
    the model runs out of fuel. *)

From Stdlib Require Ascii.
From Stdlib Require Import String.
From S2P Require Import Prelude LibcString.

Module LibcStdlib.
Import LibcString.
#[local] Close Scope string_scope.
#[local] Open Scope list_scope.
#[local] Abbreviation length := List.length.

(** ** ctype *)

Definition isspace (c : Z) : bool :=
  (c =? 32) || (c =? 9) || (c =? 10) || (c =? 11) || (c =? 12) || (c =? 13).
Definition isdigit (c : Z) : bool := (48 <=? c) && (c <=? 57).
Definition isalpha (c : Z) : bool := ((97 <=? c) && (c <=? 122)) || ((65 <=? c) && (c <=? 90)).
Definition toupper (c : Z) : Z := if (97 <=? c) && (c <=? 122) then c - 97 + 65 else c.

(** ** Reading *)

Fixpoint atoi_loop (fuel : nat) (p res : Z) (m : mem) : outcome Z :=
  match fuel with
  | O => OutOfFuel
  | S fuel' =>
      c ← load m p;
      if c =? 0 then Ok res else
      if (c <? 48) || (57 <? c) then Ok res
      else atoi_loop fuel' (p + 1) (signed 32 (res * 10 + c - 48)) m
  end.

Definition atoi (str : Z) (m : mem) : outcome Z :=
  c ← load m str;
  let neg := c =? 45 in
  res ← atoi_loop (fuel_of m) (if neg then str + 1 else str) 0 m;
  Ok (signed 32 ((if neg then -1 else 1) * res)).

Fixpoint skip_space (fuel : nat) (p : Z) (m : mem) : outcome Z :=
  match fuel with
  | O => OutOfFuel
  | S fuel' => c ← load m p; if isspace c then skip_space fuel' (p + 1) m else Ok p
  end.

(** The digit loop of [strtoul]: the accumulator, the end, and whether any digit was read. *)
Fixpoint strtoul_loop (fuel : nat) (s acc base : Z) (any : bool) (m : mem)
  : outcome (Z * Z * bool) :=
  match fuel with
  | O => OutOfFuel
  | S fuel' =>
      c0 ← load m s;
      if negb (isdigit c0 || isalpha c0) then Ok (acc, s, any) else
      let c := if isdigit c0 then c0 - 48 else toupper c0 - 65 + 10 in
      if base <=? c then Ok (acc, s, any)
      else strtoul_loop fuel' (s + 1) (u64 (acc * base + c)) base true m
  end.

Definition is_x (c : Z) : bool := (c =? 120) || (c =? 88).

(** The result and the address [*endptr] receives. *)
Definition strtoul (nptr base : Z) (m : mem) : outcome (Z * Z) :=
  s ← skip_space (fuel_of m) nptr m;
  '(s1, base1) ←
    (if base =? 0 then
       c ← load m s;
       if c =? 48 then
         c1 ← load m (s + 1);
         if is_x c1 then Ok (s + 2, 16) else Ok (s + 1, 8)
       else Ok (s, 10)
     else if base =? 16 then
       c ← load m s;
       if c =? 48 then
         c1 ← load m (s + 1); if is_x c1 then Ok (s + 2, base) else Ok (s, base)
       else Ok (s, base)
     else Ok (s, base));
  '(acc, e, any) ← strtoul_loop (fuel_of m) s1 0 base1 false m;
  Ok (acc, match any with true => e | false => nptr end).

(** ** Printing *)

Definition chars (s : String.string) : list Z :=
  (λ c, Z.of_N (Ascii.N_of_ascii c)) <$> String.list_ascii_of_string s.

#[local] Open Scope string_scope.
Definition DIGITS : list Z := chars "0123456789abcdefghijklmnopqrstuvwxyz".
Definition HEX_DIGITS : list Z := chars "0123456789abcdef".

#[local] Close Scope string_scope.

(** Indexing a string literal, whose last byte is the terminator. *)
Definition digit_at (digits : list Z) (i : Z) : outcome Z :=
  of_option ((digits ++ [0]) !! Z.to_nat i).

(** [do { *ptr++ = digits[value % base]; value /= base; } while (value)] *)
Fixpoint put_digits (fuel : nat) (digits : list Z) (value base ptr : Z) (m : mem)
  : outcome (Z * mem) :=
  match fuel with
  | O => OutOfFuel
  | S fuel' =>
      c ← digit_at digits (value mod base);
      m' ← store ptr c m;
      if value / base =? 0 then Ok (ptr + 1, m')
      else put_digits fuel' digits (value / base) base (ptr + 1) m'
  end.

(** [while (low < ptr)]: the reversal of [utoa] and [ulltoa]. *)
Fixpoint reverse_loop (fuel : nat) (low ptr : Z) (m : mem) : outcome mem :=
  if low <? ptr then
    match fuel with
    | O => OutOfFuel
    | S fuel' =>
        tmp ← load m low;
        y ← load m ptr;
        m1 ← store low y m;
        m2 ← store ptr tmp m1;
        reverse_loop fuel' (low + 1) (ptr - 1) m2
    end
  else Ok m.

(** The reversal of [itoa], which stores the other way round. *)
Fixpoint reverse_loop' (fuel : nat) (ptr1 ptr : Z) (m : mem) : outcome mem :=
  if ptr1 <? ptr then
    match fuel with
    | O => OutOfFuel
    | S fuel' =>
        tmp ← load m ptr;
        y ← load m ptr1;
        m1 ← store ptr y m;
        m2 ← store ptr1 tmp m1;
        reverse_loop' fuel' (ptr1 + 1) (ptr - 1) m2
    end
  else Ok m.

Definition ulltoa (value str base : Z) (m : mem) : outcome (Z * mem) :=
  if (base <? 2) || (36 <? base) then m' ← store str 0 m; Ok (str, m') else
  '(ptr, m1) ← put_digits 64 DIGITS value base str m;
  m2 ← store ptr 0 m1;
  m3 ← reverse_loop 64 str (ptr - 1) m2;
  Ok (str, m3).

Definition utoa (value str base : Z) (m : mem) : outcome (Z * mem) :=
  if (base <? 2) || (36 <? base) then m' ← store str 0 m; Ok (str, m') else
  '(ptr, m1) ← put_digits 64 DIGITS value base str m;
  m2 ← store ptr 0 m1;
  m3 ← reverse_loop 64 str (ptr - 1) m2;
  Ok (str, m3).

(** Division by zero is a processor fault, which panics. *)
Definition itoa (value str base : Z) (m : mem) : outcome (Z * mem) :=
  if value =? 0 then
    m1 ← store str 48 m; m2 ← store (str + 1) 0 m1; Ok (str, m2)
  else if base =? 0 then Panic K_ERR_DIVIDE_BY_ZERO else
  '(ptr, m1) ← put_digits 64 HEX_DIGITS value (u64 base) str m;
  m2 ← store ptr 0 m1;
  m3 ← reverse_loop' 64 str (ptr - 1) m2;
  Ok (str, m3).

(** ** The reference *)

(** The digits of [v], least significant first. *)
Fixpoint rdigits (fuel : nat) (base v : Z) : list Z :=
  match fuel with
  | O => []
  | S fuel' => v mod base :: (if v / base =? 0 then [] else rdigits fuel' base (v / base))
  end.

Definition numeral (base v : Z) : list Z := rev (rdigits 64 base v).

Definition value_of (base : Z) (ds : list Z) : Z := foldl (λ acc d, acc * base + d) 0 ds.

Definition digit_char (d : Z) : Z := default 0 (DIGITS !! Z.to_nat d).

Lemma rdigits_range fuel base v : 2 ≤ base → 0 ≤ v → Forall (λ d, 0 ≤ d < base) (rdigits fuel base v).
Proof.
  intros Hb. revert v. induction fuel as [|fuel IH]; intros v Hv; cbn [rdigits]; [constructor|].
  constructor; [apply Z.mod_pos_bound; lia|]. destruct (v / base =? 0); [constructor|].
  apply IH. apply Z.div_pos; lia.
Qed.

Lemma value_of_snoc base ds d : value_of base (ds ++ [d]) = value_of base ds * base + d.
Proof. unfold value_of. by rewrite foldl_app. Qed.

Lemma rdigits_value fuel base v :
  2 ≤ base → 0 ≤ v < base ^ Z.of_nat fuel → value_of base (rev (rdigits fuel base v)) = v.
Proof.
  intros Hb. revert v. induction fuel as [|fuel IH]; intros v Hv.
  { cbn. rewrite Z.pow_0_r in Hv. lia. }
  cbn [rdigits rev]. rewrite value_of_snoc. pose proof (Z.div_mod v base ltac:(lia)).
  destruct (Z.eqb_spec (v / base) 0) as [E|E]; [cbn; lia|].
  rewrite IH; [lia|]. split; [apply Z.div_pos; lia|]. apply Z.div_lt_upper_bound; [lia|].
  rewrite Nat2Z.inj_succ, Z.pow_succ_r in Hv by lia. lia.
Qed.

Lemma pow_base_64 base v : 2 ≤ base → v < 2 ^ 64 → v < base ^ Z.of_nat 64.
Proof.
  intros Hb Hv. eapply Z.lt_le_trans; [exact Hv|]. apply Z.pow_le_mono_l. lia.
Qed.

Lemma numeral_value base v : 2 ≤ base → 0 ≤ v < 2 ^ 64 → value_of base (numeral base v) = v.
Proof. intros. apply rdigits_value; [done|]. split; [lia|]. apply pow_base_64; lia. Qed.

Lemma rdigits_length fuel base v : (length (rdigits fuel base v) ≤ fuel)%nat.
Proof.
  revert v. induction fuel as [|fuel IH]; intros v; cbn; [lia|].
  destruct (v / base =? 0); cbn; [lia|]. specialize (IH (v / base)). lia.
Qed.

(** Facts about the 36 digit characters, checked one by one. *)
Lemma digit_char_facts d :
  0 ≤ d < 36 →
  DIGITS !! Z.to_nat d = Some (digit_char d) ∧
  isspace (digit_char d) = false ∧
  isdigit (digit_char d) || isalpha (digit_char d) = true ∧
  (if isdigit (digit_char d) then digit_char d - 48 else toupper (digit_char d) - 65 + 10) = d ∧
  0 < digit_char d < 256 ∧
  (d < 16 → HEX_DIGITS !! Z.to_nat d = Some (digit_char d) ∧ is_x (digit_char d) = false) ∧
  (d < 10 → digit_char d = 48 + d) ∧ digit_char d ≠ 45.
Proof.
  intros Hd. assert (Hin : d ∈ seqZ 0 36) by (apply elem_of_seqZ; lia).
  cbn in Hin. repeat (apply elem_of_cons in Hin as [->|Hin];
    [vm_compute; repeat split; intros; try reflexivity; try discriminate|]).
  by apply elem_of_nil in Hin.
Qed.

(** ** Printing is correct *)

Lemma put_digits_spec digits base fuel v ptr m :
  2 ≤ base → (∀ d, 0 ≤ d < base → digit_at digits d = Ok (digit_char d)) →
  0 ≤ v < base ^ Z.of_nat fuel → (0 < fuel)%nat →
  allocated m ptr (Z.of_nat (length (rdigits fuel base v))) →
  ∃ m', put_digits fuel digits v base ptr m =
      Ok (ptr + Z.of_nat (length (rdigits fuel base v)), m') ∧
    bytes m' ptr (digit_char <$> rdigits fuel base v) ∧
    frame m m' ptr (Z.of_nat (length (rdigits fuel base v))).
Proof.
  intros Hb Htab. revert v ptr m. induction fuel as [|fuel IH]; intros v ptr m Hv Hf Ha; [lia|].
  cbn [put_digits rdigits] in *. rewrite Htab by (apply Z.mod_pos_bound; lia). run.
  assert (Hp : is_Some (m !! ptr)) by (rewrite <- (Z.add_0_r ptr); apply Ha; cbn; lia).
  rewrite (store_ok _ _ _ Hp). run. set (c := digit_char (v mod base)).
  assert (HF : frame m (<[ptr := c]> m) ptr 1) by (apply frame_store; [done|lia]).
  destruct (Z.eqb_spec (v / base) 0) as [E|E].
  - eexists. split; [reflexivity|]. split; [|exact HF].
    cbn. apply bytes_cons. split; [apply lookup_insert_eq|apply bytes_nil].
  - cbn [List.length] in *. rewrite Nat2Z.inj_succ, Z.pow_succ_r in Hv by lia.
    assert (Hv' : 0 ≤ v / base < base ^ Z.of_nat fuel).
    { split; [apply Z.div_pos; lia|apply Z.div_lt_upper_bound; lia]. }
    destruct (IH (v / base) (ptr + 1) (<[ptr := c]> m)) as (m' & -> & Hby & HF'); [done| | |].
    { destruct fuel; [|lia]. cbn in Hv'. lia. }
    { eapply frame_allocated; [exact HF|]. intros i Hi.
      replace (ptr + 1 + i) with (ptr + (1 + i)) by lia. apply Ha. lia. }
    exists m'. split; [f_equal; f_equal; lia|]. split.
    + cbn. apply bytes_cons. split; [|done]. destruct HF' as [F _].
      rewrite F by lia. apply lookup_insert_eq.
    + apply (frame_trans _ (<[ptr := c]> m)); [by apply (frame_widen _ _ ptr 1); [lia..|]|].
      eapply frame_widen; [| |exact HF']; lia.
Qed.

Lemma reverse_loop_spec fuel a l m :
  bytes m a l → (length l ≤ fuel)%nat →
  ∃ m', reverse_loop fuel a (a + Z.of_nat (length l) - 1) m = Ok m' ∧ bytes m' a (rev l) ∧
    frame m m' a (Z.of_nat (length l)).
Proof.
  revert a l m. induction fuel as [|fuel IH]; intros a l m Hl Hlen.
  { destruct l; [|cbn in Hlen; lia]. cbn. rewrite (proj2 (Z.ltb_ge _ _)) by lia.
    exists m. split_and!; [done|apply bytes_nil|apply frame_refl]. }
  destruct l as [|x l]; [|destruct l as [|y l _] using rev_ind].
  - cbn. rewrite (proj2 (Z.ltb_ge _ _)) by lia.
    exists m. split_and!; [done|apply bytes_nil|apply frame_refl].
  - cbn. rewrite (proj2 (Z.ltb_ge _ _)) by lia. exists m. split_and!; [done|done|apply frame_refl].
  - cbn [reverse_loop]. apply bytes_cons in Hl as [Hx Hl]. apply bytes_app in Hl as [Hl Hy].
    apply bytes_cons in Hy as [Hy _]. cbn [List.length] in *. rewrite length_app in *. cbn in Hlen.
    set (n := Z.of_nat (length l)) in *. cbn [List.length].
    replace (a + Z.of_nat (S (length l + 1)) - 1) with (a + 1 + n) by lia.
    rewrite (proj2 (Z.ltb_lt _ _)) by lia.
    rewrite (load_ok _ _ _ Hx), (load_ok _ _ _ Hy). run. rewrite store_ok by eauto. run.
    rewrite store_ok by (rewrite lookup_insert_ne by lia; eauto). run.
    set (m1 := <[a + 1 + n := x]> (<[a := y]> m)).
    assert (HF : frame m m1 a (n + 2)).
    { apply (frame_trans _ (<[a := y]> m)); [by apply frame_store; [|lia]|].
      apply frame_store; [rewrite lookup_insert_ne by lia; eauto|lia]. }
    destruct (IH (a + 1) l m1) as (m' & E & Hb & HF').
    + intros i b Hi. pose proof (lookup_lt_Some _ _ _ Hi). unfold m1.
      rewrite !lookup_insert_ne by lia. by apply Hl.
    + lia.
    + fold n in E. exists m'. split; [|split].
      * rewrite <- E. f_equal; lia.
      * cbn [rev]. rewrite rev_app_distr. cbn [rev app]. destruct HF' as [F _].
        apply bytes_cons. split; [rewrite F by lia; unfold m1;
          rewrite lookup_insert_ne by lia; apply lookup_insert_eq|].
        apply bytes_app. split; [done|]. rewrite length_rev. fold n. apply bytes_cons.
        split; [|apply bytes_nil]. rewrite F by lia. apply lookup_insert_eq.
      * apply (frame_trans _ m1); [eapply frame_widen; [| |exact HF]; lia|].
        eapply frame_widen; [| |exact HF']; lia.
Qed.

(** The two reversals agree. *)
Lemma reverse_loop_same fuel low ptr m : reverse_loop' fuel low ptr m = reverse_loop fuel low ptr m.
Proof.
  revert low ptr m. induction fuel as [|fuel IH]; intros low ptr m; cbn; [done|].
  destruct (Z.ltb_spec low ptr); [|done]. unfold load.
  destruct (m !! low) as [x|] eqn:Ex, (m !! ptr) as [y|] eqn:Ey; cbn [of_option]; run; try done.
  rewrite !store_ok by eauto. run.
  rewrite !store_ok by (rewrite lookup_insert_ne by lia; eauto). run.
  rewrite IH. f_equal. apply insert_insert_ne. lia.
Qed.

(** Digits, terminator, reversal: the three printers after their range checks. *)
Lemma print_spec digits base v str m :
  2 ≤ base → (∀ d, 0 ≤ d < base → digit_at digits d = Ok (digit_char d)) → base ≤ 36 →
  0 ≤ v < 2 ^ 64 → allocated m str (Z.of_nat (length (numeral base v)) + 1) →
  ∃ m', ('(ptr, m1) ← put_digits 64 digits v base str m;
         m2 ← store ptr 0 m1;
         m3 ← reverse_loop 64 str (ptr - 1) m2;
         Ok (str, m3)) = Ok (str, m') ∧
    cstr m' str (digit_char <$> numeral base v) ∧
    frame m m' str (Z.of_nat (length (numeral base v)) + 1).
Proof.
  intros Hb Htab Hb' Hv Ha. unfold numeral in *. rewrite length_rev in *.
  set (ds := rdigits 64 base v) in *. set (n := Z.of_nat (length ds)) in *.
  destruct (put_digits_spec digits base 64 v str m Hb Htab) as (m1 & -> & Hby1 & F1); [| | |run].
  { split; [lia|]. apply pow_base_64; lia. }
  { lia. }
  { intros i Hi. apply Ha. fold ds n in Hi. lia. }
  fold ds n in Hby1, F1. fold ds n.
  assert (Hz : is_Some (m1 !! (str + n))) by (apply F1, Ha; lia).
  rewrite (store_ok _ _ _ Hz). run.
  assert (F2 : frame m1 (<[str + n := 0]> m1) (str + n) 1) by (apply frame_store; [done|lia]).
  assert (Hby2 : bytes (<[str + n := 0]> m1) str (digit_char <$> ds)).
  { eapply frame_bytes; [exact F2| |done]. rewrite length_fmap. fold n. lia. }
  pose proof (rdigits_length 64 base v) as Hl64. fold ds in Hl64.
  destruct (reverse_loop_spec 64 str _ _ Hby2) as (m3 & E & Hby3 & F3); [by rewrite length_fmap|].
  rewrite length_fmap in E, F3. fold n in E, F3. rewrite E. run.
  exists m3. split; [done|]. split.
  - pose proof (rdigits_range 64 base v Hb ltac:(lia)) as Hr. fold ds in Hr. split.
    + apply Forall_fmap, Forall_rev. eapply Forall_impl; [exact Hr|]. intros d Hd.
      destruct (digit_char_facts d) as (_ & _ & _ & _ & ? & _); [cbn in Hd; lia|]. unfold compose. lia.
    + rewrite <- map_rev in Hby3. apply bytes_app. split; [exact Hby3|].
      rewrite length_fmap, length_rev. fold n. apply bytes_cons. split; [|apply bytes_nil].
      destruct F3 as [F3 _]. rewrite F3 by lia. apply lookup_insert_eq.
  - apply (frame_trans _ m1); [eapply frame_widen; [| |exact F1]; lia|].
    apply (frame_trans _ (<[str + n := 0]> m1)); eapply frame_widen; [| |exact F2| | |exact F3]; lia.
Qed.

(** ** Reading is correct *)

Lemma wrap_mul_add w a b c : 0 ≤ w → wrap w (wrap w a * b + c) = wrap w (a * b + c).
Proof.
  intros Hw. unfold wrap. rewrite Z.add_mod, Z.mul_mod_idemp_l, <- Z.add_mod; [done|..];
    apply Z.pow_nonzero; lia.
Qed.

Lemma wrap_signed x : wrap 32 (signed 32 x) = wrap 32 x.
Proof.
  unfold signed. destruct (wrap 32 x <? 2 ^ (32 - 1)); [by apply wrap_idem|].
  unfold wrap. rewrite <- (Z.mod_add (_ - _) 1) by done.
  rewrite Z.mul_1_l, Z.sub_add. by apply Z.mod_mod.
Qed.

Lemma signed_eq x y : wrap 32 x = wrap 32 y → signed 32 x = signed 32 y.
Proof. unfold signed. by intros ->. Qed.

Lemma signed_step a c : signed 32 (signed 32 a * 10 + c) = signed 32 (a * 10 + c).
Proof.
  apply signed_eq. rewrite <- (wrap_mul_add 32 (signed 32 a)), wrap_signed by done.
  by apply wrap_mul_add.
Qed.

Lemma signed_small x : - 2 ^ 31 ≤ x < 2 ^ 31 → signed 32 x = x.
Proof.
  intros H. unfold signed, wrap. change (32 - 1) with 31.
  destruct (decide (0 ≤ x)) as [|Hn].
  - rewrite Z.mod_small by lia. by rewrite (proj2 (Z.ltb_lt _ _)) by lia.
  - replace (x mod 2 ^ 32) with (x + 2 ^ 32).
    + rewrite (proj2 (Z.ltb_ge _ _)) by lia. lia.
    + rewrite <- (Z.mod_add x 1) by lia. rewrite Z.mod_small; lia.
Qed.

Lemma strtoul_loop_spec fuel m s ds acc base any :
  base ≤ 36 → Forall (λ d, 0 ≤ d < base) ds → cstr m s (digit_char <$> ds) → (length ds < fuel)%nat →
  strtoul_loop fuel s (u64 acc) base any m =
    Ok (u64 (foldl (λ a d, a * base + d) acc ds), s + Z.of_nat (length ds),
        any || negb (bool_decide (ds = []))).
Proof.
  intros Hb Hds. revert fuel s acc any.
  induction Hds as [|d ds Hd Hds IH]; intros fuel s acc any Hs Hf; destruct fuel as [|fuel];
    try (cbn in Hf; lia); cbn [strtoul_loop].
  - apply cstr_nil in Hs. rewrite (load_ok _ _ _ Hs). run. cbn. by rewrite orb_false_r, Z.add_0_r.
  - rewrite fmap_cons in Hs. apply cstr_cons in Hs as (_ & Hm & Hs).
    rewrite (load_ok _ _ _ Hm). run.
    destruct (digit_char_facts d) as (_ & _ & Hc & Hv & _); [lia|]. rewrite Hc, Hv. cbn [negb].
    rewrite (proj2 (Z.leb_gt _ _)) by lia. rewrite wrap_mul_add by done.
    rewrite IH by (done || (cbn in Hf; lia)). cbn [foldl List.length orb].
    rewrite (bool_decide_eq_false_2 (d :: ds = [])) by done. rewrite orb_true_r.
    f_equal. f_equal. f_equal. lia.
Qed.

Lemma atoi_loop_spec fuel m p ds acc :
  Forall (λ d, 0 ≤ d < 10) ds → cstr m p (digit_char <$> ds) → (length ds < fuel)%nat →
  atoi_loop fuel p (signed 32 acc) m = Ok (signed 32 (foldl (λ a d, a * 10 + d) acc ds)).
Proof.
  intros Hds. revert fuel p acc. induction Hds as [|d ds Hd Hds IH]; intros fuel p acc Hs Hf;
    destruct fuel as [|fuel]; try (cbn in Hf; lia); cbn [atoi_loop].
  - apply cstr_nil in Hs. rewrite (load_ok _ _ _ Hs). run. done.
  - rewrite fmap_cons in Hs. apply cstr_cons in Hs as (Hz & Hm & Hs).
    rewrite (load_ok _ _ _ Hm). run.
    destruct (digit_char_facts d) as (_ & _ & _ & _ & _ & _ & Hc & _); [lia|].
    rewrite Hc in * by lia. rewrite (proj2 (Z.eqb_neq _ 0) Hz).
    rewrite (proj2 (Z.ltb_ge _ _)) by lia. rewrite (proj2 (Z.ltb_ge _ _)) by lia. cbn [orb].
    replace (signed 32 acc * 10 + (48 + d) - 48) with (signed 32 acc * 10 + d) by lia.
    rewrite signed_step. rewrite IH by (done || (cbn in Hf; lia)). done.
Qed.

(** The first two characters of a numeral: no space, no sign, no "0x". *)
Lemma numeral_head base v :
  2 ≤ base ≤ 36 → 0 ≤ v → ∃ d ds, numeral base v = d :: ds ∧ Forall (λ d, 0 ≤ d < base) (d :: ds).
Proof.
  intros Hb Hv. pose proof (rdigits_range 64 base v ltac:(lia) Hv) as Hr. unfold numeral.
  apply Forall_rev in Hr. destruct (rev (rdigits 64 base v)) as [|d ds] eqn:E; [|by exists d, ds].
  apply (f_equal (@rev Z)) in E. rewrite rev_involutive in E. done.
Qed.

Lemma strtoul_numeral m s base v :
  2 ≤ base ≤ 36 → 0 ≤ v < 2 ^ 64 → cstr m s (digit_char <$> numeral base v) →
  strtoul s base m = Ok (v, s + Z.of_nat (length (numeral base v))).
Proof.
  intros Hb Hv Hs. destruct (numeral_head base v Hb ltac:(lia)) as (d & ds & E & Hds).
  pose proof (cstr_fuel _ _ _ Hs) as Hf. rewrite length_fmap in Hf.
  pose proof Hs as Hs0. rewrite E in Hs0. rewrite fmap_cons in Hs0.
  apply cstr_cons in Hs0 as (_ & Hm & Hs1).
  apply Forall_cons in Hds as Hd. destruct Hd as [Hd Hds'].
  destruct (digit_char_facts d) as (_ & Hsp & _); [lia|].
  unfold strtoul. cbn [skip_space]. rewrite (load_ok _ _ _ Hm). run. rewrite Hsp. run.
  rewrite (proj2 (Z.eqb_neq base 0)) by lia.
  assert (Hpre : (if base =? 16 then
       c ← load m s; if c =? 48 then c1 ← load m (s + 1); if is_x c1 then Ok (s + 2, base) else Ok (s, base)
       else Ok (s, base) else Ok (s, base)) = Ok (s, base)).
  { destruct (Z.eqb_spec base 16) as [->|]; [|done]. rewrite (load_ok _ _ _ Hm). run.
    destruct (digit_char d =? 48); [|done]. destruct ds as [|d2 ds].
    - apply cstr_nil in Hs1. rewrite (load_ok _ _ _ Hs1). run. done.
    - rewrite fmap_cons in Hs1. apply cstr_cons in Hs1 as (_ & Hm2 & _).
      rewrite (load_ok _ _ _ Hm2). run. apply Forall_cons in Hds' as [Hd2 _].
      destruct (digit_char_facts d2) as (_ & _ & _ & _ & _ & Hx & _); [lia|].
      destruct Hx as [_ ->]; [lia|]. done. }
  rewrite Hpre. run. change 0 with (u64 0) at 1.
  rewrite (strtoul_loop_spec _ m s (numeral base v) 0 base false);
    [|lia|by rewrite E|done|exact Hf]. run.
  fold (value_of base (numeral base v)). rewrite numeral_value, wrap_small by lia.
  rewrite bool_decide_eq_false_2 by by rewrite E. done.
Qed.

Lemma atoi_numeral m s v :
  0 ≤ v < 2 ^ 31 → cstr m s (digit_char <$> numeral 10 v) → atoi s m = Ok v.
Proof.
  intros Hv Hs. destruct (numeral_head 10 v ltac:(lia) ltac:(lia)) as (d & ds & E & Hds).
  pose proof (cstr_fuel _ _ _ Hs) as Hf. rewrite length_fmap in Hf.
  pose proof Hs as Hs0. rewrite E in Hs0. rewrite fmap_cons in Hs0.
  apply cstr_cons in Hs0 as (_ & Hm & _). apply Forall_cons in Hds as Hd. destruct Hd as [Hd _].
  destruct (digit_char_facts d) as (_ & _ & _ & _ & _ & _ & _ & Hne); [lia|].
  unfold atoi. rewrite (load_ok _ _ _ Hm). run. rewrite (proj2 (Z.eqb_neq _ 45) Hne).
  change (atoi_loop (fuel_of m) s 0 m) with (atoi_loop (fuel_of m) s (signed 32 0) m).
  rewrite (atoi_loop_spec _ m s (numeral 10 v) 0); [|by rewrite E|done|exact Hf]. run.
  fold (value_of 10 (numeral 10 v)). rewrite numeral_value by lia.
  rewrite Z.mul_1_l, !signed_small by (rewrite ?signed_small; lia). done.
Qed.

(** ** The printers after their range checks *)

Lemma digits_table d : 0 ≤ d < 36 → digit_at DIGITS d = Ok (digit_char d).
Proof.
  intros Hd. destruct (digit_char_facts d Hd) as (E & _). unfold digit_at.
  by rewrite (lookup_app_l_Some _ _ _ _ E).
Qed.

Lemma hex_table d : 0 ≤ d < 16 → digit_at HEX_DIGITS d = Ok (digit_char d).
Proof.
  intros Hd. destruct (digit_char_facts d) as (_ & _ & _ & _ & _ & E & _); [lia|].
  destruct E as [E _]; [lia|]. unfold digit_at. by rewrite (lookup_app_l_Some _ _ _ _ E).
Qed.

Lemma ulltoa_spec v str base m :
  2 ≤ base ≤ 36 → 0 ≤ v < 2 ^ 64 → allocated m str (Z.of_nat (length (numeral base v)) + 1) →
  ∃ m', ulltoa v str base m = Ok (str, m') ∧ cstr m' str (digit_char <$> numeral base v) ∧
    frame m m' str (Z.of_nat (length (numeral base v)) + 1).
Proof.
  intros Hb Hv Ha. unfold ulltoa.
  rewrite (proj2 (Z.ltb_ge base 2)), (proj2 (Z.ltb_ge 36 base)) by lia. cbn [orb].
  apply print_spec; [lia| |lia|done|done]. intros d Hd. apply digits_table. lia.
Qed.

Lemma utoa_ulltoa v str base m : utoa v str base m = ulltoa v str base m.
Proof. reflexivity. Qed.

Lemma itoa_ulltoa v str base m :
  2 ≤ base ≤ 16 → 0 ≤ v < 2 ^ 64 → allocated m str (Z.of_nat (length (numeral base v)) + 1) →
  ∃ m', itoa v str base m = Ok (str, m') ∧ cstr m' str (digit_char <$> numeral base v) ∧
    frame m m' str (Z.of_nat (length (numeral base v)) + 1).
Proof.
  intros Hb Hv Ha. unfold itoa. destruct (Z.eqb_spec v 0) as [->|Hv0].
  - assert (E : numeral base 0 = [0]).
    { unfold numeral. change 64%nat with (S 63). cbn [rdigits].
      rewrite Z.mod_0_l, Z.div_0_l by lia. done. }
    rewrite E in *. cbn [List.length] in *.
    assert (H0 : is_Some (m !! str)) by (rewrite <- (Z.add_0_r str); apply Ha; lia).
    rewrite (store_ok _ _ _ H0). run.
    assert (H1 : is_Some (<[str := 48]> m !! (str + 1))) by (rewrite lookup_insert_ne by lia; apply Ha; lia).
    rewrite (store_ok _ _ _ H1). run. eexists. split; [reflexivity|]. split.
    + apply cstr_cons. split; [by vm_compute|]. split.
      * rewrite lookup_insert_ne by lia. rewrite lookup_insert_eq. by vm_compute.
      * apply cstr_nil. apply lookup_insert_eq.
    + apply (frame_trans _ (<[str := 48]> m)); apply frame_store; (done || lia).
  - rewrite (proj2 (Z.eqb_neq base 0)), (wrap_small _ base) by lia.
    destruct (print_spec HEX_DIGITS base v str m) as (m' & E & HC & HF);
      [lia|intros d Hd; apply hex_table; lia|lia|done|done|].
    exists m'. split; [|done]. rewrite <- E.
    destruct (put_digits 64 HEX_DIGITS v base str m) as [[p m1]| | |]; run; [|done..].
    destruct (store p 0 m1); run; [|done..]. by rewrite reverse_loop_same.
Qed.

(** ** Properties *)

(** Seventy zero bytes at address 1000. *)
Definition demo_buf : mem := list_to_map (zip (seqZ 1000 70) (replicate 70 0)).

Lemma demo_buf_allocated n : 0 ≤ n ≤ 70 → allocated demo_buf 1000 n.
Proof.
  intros Hn i Hi. assert (Hin : i ∈ seqZ 0 70) by (apply elem_of_seqZ; lia).
  cbn in Hin. repeat (apply elem_of_cons in Hin as [->|Hin]; [vm_compute; by eexists|]).
  by apply elem_of_nil in Hin.
Qed.

(** [strtoul] reads back what [ulltoa] writes: for every 64-bit value and every base
    from 2 to 36, both calls succeed in a buffer with room for the digits and
    the terminator, [strtoul] returns the value and stops at the terminator,
    and nothing outside the buffer changes. *)
Theorem strtoul_ulltoa_roundtrip v base str m :
  2 ≤ base ≤ 36 → 0 ≤ v < 2 ^ 64 → allocated m str (Z.of_nat (length (numeral base v)) + 1) →
  ∃ m', ulltoa v str base m = Ok (str, m') ∧
    strtoul str base m' = Ok (v, str + Z.of_nat (length (numeral base v))) ∧
    m' !! (str + Z.of_nat (length (numeral base v))) = Some 0 ∧
    ∀ x, ¬ str ≤ x < str + (Z.of_nat (length (numeral base v)) + 1) → m' !! x = m !! x.
Proof.
  intros Hb Hv Ha. destruct (ulltoa_spec v str base m Hb Hv Ha) as (m' & E & Hc & [F _]).
  exists m'. split_and!; [done|by apply strtoul_numeral| |done].
  destruct Hc as [_ Hc]. apply bytes_app in Hc as [_ Hc]. rewrite length_fmap in Hc.
  by apply bytes_cons in Hc as [Hc _].
Qed.

Lemma strtoul_ulltoa_roundtrip_witness :
  ∃ m', ulltoa 0xDEADBEEF 1000 16 demo_buf = Ok (1000, m') ∧
    strtoul 1000 16 m' = Ok (0xDEADBEEF, 1008).
Proof.
  destruct (strtoul_ulltoa_roundtrip 0xDEADBEEF 16 1000 demo_buf) as (m' & E & Hs & _);
    [lia|lia|apply demo_buf_allocated; vm_compute; split; discriminate|].
  exists m'. split; [exact E|exact Hs].
Defined.

(** The three printing functions agree with the positional numeral of the value,
    most significant digit first, and [atoi] of a decimal below 2^31 printed by
    [utoa] gives the value back. *)
Theorem printers_agree v base str m :
  2 ≤ base ≤ 16 → 0 ≤ v < 2 ^ 32 → allocated m str (Z.of_nat (length (numeral base v)) + 1) →
  value_of base (numeral base v) = v ∧
  ∃ m1 m2 m3, itoa v str base m = Ok (str, m1) ∧ utoa v str base m = Ok (str, m2) ∧
    ulltoa v str base m = Ok (str, m3) ∧
    cstr m1 str (digit_char <$> numeral base v) ∧ cstr m2 str (digit_char <$> numeral base v) ∧
    cstr m3 str (digit_char <$> numeral base v) ∧
    (base = 10 → v < 2 ^ 31 → atoi str m2 = Ok v).
Proof.
  intros Hb Hv Ha. split; [apply numeral_value; lia|].
  destruct (itoa_ulltoa v str base m Hb ltac:(lia) Ha) as (m1 & E1 & C1 & _).
  destruct (ulltoa_spec v str base m ltac:(lia) ltac:(lia) Ha) as (m2 & E2 & C2 & _).
  exists m1, m2, m2. split_and!; [done|by rewrite utoa_ulltoa|done..|].
  intros -> Hv'. apply atoi_numeral; [lia|done].
Qed.

Lemma printers_agree_witness :
  ∃ m2, utoa 31415 1000 10 demo_buf = Ok (1000, m2) ∧ atoi 1000 m2 = Ok 31415.
Proof.
  destruct (printers_agree 31415 10 1000 demo_buf)
    as (_ & m1 & m2 & m3 & _ & E & _ & _ & _ & _ & Ha);
    [lia|lia|apply demo_buf_allocated; vm_compute; split; discriminate|].
  exists m2. split; [exact E|]. apply Ha; lia.
Defined.
End LibcStdlib.
