(* ===== verification/Thread.v ===== *)
(** * Threads and the scheduler (kernel/arch/x86_64/thread.cpp, drivers/timer.cpp)

    Threads are kept in a ring linked by [next]; [yield] picks the next ready
    thread in ring order, the idle thread only when there is no other.  A thread
    that ends moves from the ring to the zombie list, which the idle thread
    empties.  Thread structures and kernel stacks are heap blocks, so the state
    contains the kernel heap; a [thread_t] that was freed is no longer in the
    map [threads], and reading it is a fault.

    A [do ... while] loop around the ring runs on fuel, the number of thread
    structures, which is proved to be enough for every ring.

    The invariant [sched_ok] describes the ring and the zombie list as lists of
    pointers.  The main results: [yield] is round robin, a ready thread runs
    within as many timer interrupts as there are threads, ending a thread moves
    exactly it to the zombie list, and emptying the zombie list frees exactly
    the blocks of the zombies. *)

From S2P Require Import Prelude Pfa Paging Vmm Heap LibcString LibcStdlib.

Module Thread.

Inductive thread_state_t : Set :=
| THREAD_RUNNING
| THREAD_READY
| THREAD_SLEEPING
| THREAD_BLOCKED
| THREAD_ZOMBIE.

#[global] Instance thread_state_eq_dec : EqDecision thread_state_t.
Proof. solve_decision. Defined.

Abbreviation is_state s x := (bool_decide (s = x)).

(** [name] holds the bytes of the string, without the terminator. *)
Record thread_t : Set := mk_thread {
  rsp : Z;
  id : Z;
  name : list Z;
  stack_start : Z;
  user_stack : Z;
  is_user : bool;
  next : Z;
  state : thread_state_t;
  sleep_ticks : Z;
  exit_code : Z;
  user_image_start : Z;
  user_image_end : Z;
  user_heap_break : Z;
  dyn_lib_break : Z;
  fd_table : list Z;
  fd_offset : list Z
}.

Definition set_rsp (v : Z) (t : thread_t) : thread_t :=
  mk_thread v (id t) (name t) (stack_start t) (user_stack t) (is_user t) (next t) (state t)
    (sleep_ticks t) (exit_code t) (user_image_start t) (user_image_end t) (user_heap_break t)
    (dyn_lib_break t) (fd_table t) (fd_offset t).
Definition set_id (v : Z) (t : thread_t) : thread_t :=
  mk_thread (rsp t) v (name t) (stack_start t) (user_stack t) (is_user t) (next t) (state t)
    (sleep_ticks t) (exit_code t) (user_image_start t) (user_image_end t) (user_heap_break t)
    (dyn_lib_break t) (fd_table t) (fd_offset t).
Definition set_next (v : Z) (t : thread_t) : thread_t :=
  mk_thread (rsp t) (id t) (name t) (stack_start t) (user_stack t) (is_user t) v (state t)
    (sleep_ticks t) (exit_code t) (user_image_start t) (user_image_end t) (user_heap_break t)
    (dyn_lib_break t) (fd_table t) (fd_offset t).
Definition set_state (v : thread_state_t) (t : thread_t) : thread_t :=
  mk_thread (rsp t) (id t) (name t) (stack_start t) (user_stack t) (is_user t) (next t) v
    (sleep_ticks t) (exit_code t) (user_image_start t) (user_image_end t) (user_heap_break t)
    (dyn_lib_break t) (fd_table t) (fd_offset t).
Definition set_sleep (v : Z) (t : thread_t) : thread_t :=
  mk_thread (rsp t) (id t) (name t) (stack_start t) (user_stack t) (is_user t) (next t) (state t)
    v (exit_code t) (user_image_start t) (user_image_end t) (user_heap_break t)
    (dyn_lib_break t) (fd_table t) (fd_offset t).
Definition set_exit_code (v : Z) (t : thread_t) : thread_t :=
  mk_thread (rsp t) (id t) (name t) (stack_start t) (user_stack t) (is_user t) (next t) (state t)
    (sleep_ticks t) v (user_image_start t) (user_image_end t) (user_heap_break t)
    (dyn_lib_break t) (fd_table t) (fd_offset t).

(** The structure after [memset(t, 0, sizeof(thread_t))]; state 0 is RUNNING. *)
Definition zero_thread : thread_t :=
  mk_thread 0 0 [] 0 0 false 0 THREAD_RUNNING 0 0 0 0 0 0 (replicate 16 0) (replicate 16 0).

Definition sizeof_thread_t : Z := 304.
Definition KSTACK_SIZE : Z := 16384.
Definition THREAD_NOT_FOUND : Z := 0xFFFFFFFF.
Definition THREAD_AMBIGUOUS : Z := 0xFFFFFFFE.

Abbreviation kheap := (@Heap.heap Vmm.vmm).

Record sched : Type := mk_sched {
  sc_heap : kheap;
  threads : gmap Z thread_t;
  stack_words : gmap Z Z;        (** words of the kernel stacks, by address *)
  current_thread : Z;
  idle_thread_ptr : Z;
  next_thread_id : Z;
  zombie_list_head : Z;
  tss_rsp0 : Z;
  syscall_kernel_stack : Z;
  cpu_rsp : Z
}.

Definition set_heap (h : kheap) (s : sched) : sched :=
  mk_sched h (threads s) (stack_words s) (current_thread s) (idle_thread_ptr s) (next_thread_id s)
    (zombie_list_head s) (tss_rsp0 s) (syscall_kernel_stack s) (cpu_rsp s).
Definition set_threads (m : gmap Z thread_t) (s : sched) : sched :=
  mk_sched (sc_heap s) m (stack_words s) (current_thread s) (idle_thread_ptr s) (next_thread_id s)
    (zombie_list_head s) (tss_rsp0 s) (syscall_kernel_stack s) (cpu_rsp s).
Definition set_stack_words (m : gmap Z Z) (s : sched) : sched :=
  mk_sched (sc_heap s) (threads s) m (current_thread s) (idle_thread_ptr s) (next_thread_id s)
    (zombie_list_head s) (tss_rsp0 s) (syscall_kernel_stack s) (cpu_rsp s).
Definition set_current (p : Z) (s : sched) : sched :=
  mk_sched (sc_heap s) (threads s) (stack_words s) p (idle_thread_ptr s) (next_thread_id s)
    (zombie_list_head s) (tss_rsp0 s) (syscall_kernel_stack s) (cpu_rsp s).
Definition set_idle (p : Z) (s : sched) : sched :=
  mk_sched (sc_heap s) (threads s) (stack_words s) (current_thread s) p (next_thread_id s)
    (zombie_list_head s) (tss_rsp0 s) (syscall_kernel_stack s) (cpu_rsp s).
Definition set_next_id (n : Z) (s : sched) : sched :=
  mk_sched (sc_heap s) (threads s) (stack_words s) (current_thread s) (idle_thread_ptr s) n
    (zombie_list_head s) (tss_rsp0 s) (syscall_kernel_stack s) (cpu_rsp s).
Definition set_zombies (p : Z) (s : sched) : sched :=
  mk_sched (sc_heap s) (threads s) (stack_words s) (current_thread s) (idle_thread_ptr s)
    (next_thread_id s) p (tss_rsp0 s) (syscall_kernel_stack s) (cpu_rsp s).
Definition set_cpu (rsp0 kstack sp : Z) (s : sched) : sched :=
  mk_sched (sc_heap s) (threads s) (stack_words s) (current_thread s) (idle_thread_ptr s)
    (next_thread_id s) (zombie_list_head s) rsp0 kstack sp.

(** Dereferencing and assigning through a [thread_t] pointer. *)
Definition deref (m : gmap Z thread_t) (p : Z) : outcome thread_t := of_option (m !! p).
Definition assign (p : Z) (f : thread_t → thread_t) (s : sched) : outcome sched :=
  t ← deref (threads s) p; Ok (set_threads (<[p := f t]> (threads s)) s).

Definition fuel_of (s : sched) : nat := size (threads s).

(** [do { body(scan); scan = scan->next; } while (scan != stop)] *)
Fixpoint ring_update (body : thread_t → thread_t) (fuel : nat) (m : gmap Z thread_t)
  (scan stop : Z) : outcome (gmap Z thread_t) :=
  match fuel with
  | O => OutOfFuel
  | S fuel' =>
      t ← deref m scan;
      let m' := <[scan := body t]> m in
      if next (body t) =? stop then Ok m' else ring_update body fuel' m' (next (body t)) stop
  end.

(** [do { if (test(scan)) break; scan = scan->next; } while (scan != stop)] *)
Fixpoint ring_find (test : Z → thread_t → bool) (fuel : nat) (m : gmap Z thread_t)
  (scan stop : Z) : outcome (option Z) :=
  match fuel with
  | O => OutOfFuel
  | S fuel' =>
      t ← deref m scan;
      if test scan t then Ok (Some scan)
      else if next t =? stop then Ok None else ring_find test fuel' m (next t) stop
  end.

(** ** yield *)

(** First loop of [yield]. *)
Definition wake_sleeper (t : thread_t) : thread_t :=
  if is_state (state t) THREAD_SLEEPING && (sleep_ticks t =? 0)
  then set_state THREAD_READY t else t.

(** Stores the stack pointer of the thread that leaves and loads the one of the
    thread that resumes; the call and the seven pushes take 64 bytes. *)
Definition switch_context (old new : Z) (s : sched) : outcome sched :=
  s1 ← assign old (set_rsp (u64 (cpu_rsp s - 64))) s;
  t ← deref (threads s1) new;
  Ok (set_cpu (tss_rsp0 s1) (syscall_kernel_stack s1) (u64 (rsp t + 64)) s1).

Definition yield (s : sched) : outcome sched :=
  if (current_thread s =? 0) || (idle_thread_ptr s =? 0) then Ok s else
  let prev := current_thread s in
  prev_t ← deref (threads s) prev;
  let start_node := if is_state (state prev_t) THREAD_ZOMBIE then idle_thread_ptr s else prev in
  start_t ← deref (threads s) start_node;
  m1 ← ring_update wake_sleeper (fuel_of s) (threads s) (next start_t) (next start_t);
  start_t1 ← deref m1 start_node;
  r ← ring_find (λ scan t, is_state (state t) THREAD_READY && negb (scan =? idle_thread_ptr s))
        (fuel_of s) m1 (next start_t1) (next start_t1);
  prev_t1 ← deref m1 prev;
  let next_to_run :=
    match r with
    | Some p => p
    | None => if is_state (state prev_t1) THREAD_READY then prev else idle_thread_ptr s
    end in
  let s1 := set_threads m1 s in
  if next_to_run =? prev then Ok s1 else
  let s2 := set_current next_to_run s1 in
  nt ← deref m1 next_to_run;
  let kstack := u64 (stack_start nt + 16384) in
  let s3 := set_cpu (if is_user nt then kstack else tss_rsp0 s2) kstack (cpu_rsp s2) s2 in
  switch_context prev next_to_run s3.

(** ** Creating threads *)

Definition kmalloc (sz : Z) (s : sched) : outcome (Z * sched) :=
  '(p, h) ← Heap.kmalloc sz (sc_heap s); Ok (p, set_heap h s).
Definition kfree (p : Z) (s : sched) : outcome sched :=
  h ← Heap.kfree p (sc_heap s); Ok (set_heap h s).

(** Running a paging operation on the page tables of the kernel. *)
Definition get_paging (s : sched) : Paging.paging := Vmm.vm_paging (Heap.backend (sc_heap s)).
Definition set_paging (st : Paging.paging) (s : sched) : sched :=
  set_heap (Heap.set_backend (Vmm.set_paging st (Heap.backend (sc_heap s))) (sc_heap s)) s.

(** [*(--sp) = w] for the words of the list in turn. *)
Fixpoint push_words (sp : Z) (ws : list Z) (m : gmap Z Z) : Z * gmap Z Z :=
  match ws with
  | [] => (sp, m)
  | w :: ws' => push_words (u64 (sp - 8)) ws' (<[u64 (sp - 8) := w]> m)
  end.

(** Addresses of the functions whose addresses the code stores. *)
Section code_addresses.
Context (addr_thread_exit addr_user_thread_entry addr_idle_task : Z).

Definition thread_create (entry_point : Z) (nm : option (list Z)) (s : sched)
  : outcome (Z * sched) :=
  '(t, s1) ← kmalloc sizeof_thread_t s;
  '(stack, s2) ← kmalloc KSTACK_SIZE s1;
  if (stack =? 0) || (t =? 0) then Ok (0, s2) else
  let name' := match nm with Some n => take 15 n | None => [117; 110; 107] end in
  let '(sp, words) := push_words (u64 (stack + 16384))
      [addr_thread_exit; entry_point; 0x202; 0; 0; 0; 0; 0; 0] (stack_words s2) in
  let th := mk_thread sp 0 name' stack 0 false 0 THREAD_READY 0 0 0 0 0 0
              (replicate 16 0) (replicate 16 0) in
  Ok (t, set_stack_words words (set_threads (<[t := th]> (threads s2)) s2)).

Definition USER_STACK_BASE : Z := 0x0000700000000000.

(** The loop that maps the four pages of the user stack: [inr] is the early
    return after the two [kfree] calls. *)
Definition map_user_stack (t k_stack : Z) (s : sched) : outcome (sched + sched) :=
  for_return (λ i s,
    '(phys, st) ← Paging.pfa_alloc_frame (get_paging s);
    let s1 := set_paging st s in
    if phys =? 0 then
      s2 ← kfree k_stack s1; s3 ← kfree t s2; Ok (inr s3)
    else
      st' ← Paging.paging_map_page (u64 (USER_STACK_BASE + i * 4096)) phys
              (Z.lor (Z.lor PTE_PRESENT PTE_RW) PTE_USER) st;
      Ok (inl (set_paging st' s1))) 4 0 s.

(** A null [t] or [k_stack] is written through. *)
Definition thread_create_user (entry_point : Z) (nm : list Z) (s : sched) : outcome (Z * sched) :=
  '(t, s1) ← kmalloc sizeof_thread_t s;
  '(k_stack, s2) ← kmalloc KSTACK_SIZE s1;
  r ← map_user_stack t k_stack s2;
  match r with
  | inr s3 => Ok (0, s3)
  | inl s3 =>
      if (t =? 0) || (k_stack =? 0) then Fault else
      let u_stack_top := USER_STACK_BASE + 16384 in
      let '(sp, words) := push_words (u64 (k_stack + 16384))
          [0x1B; u_stack_top; 0x202; 0x23; entry_point; addr_user_thread_entry;
           0x202; 0; 0; 0; 0; 0; 0] (stack_words s3) in
      let th := mk_thread sp 0 (take 15 nm) k_stack u_stack_top true 0 THREAD_READY 0 0 0 0
                  0x600000 0 (replicate 16 0) (replicate 16 0) in
      Ok (t, set_stack_words words (set_threads (<[t := th]> (threads s3)) s3))
  end.

(** The part of [thread_add] after the structure was created: a fresh id, and a
    place in the ring behind the current thread. *)
Definition thread_link (t : Z) (s : sched) : outcome sched :=
  s1 ← assign t (set_id (next_thread_id s)) s;
  cur ← deref (threads s1) (current_thread s1);
  s2 ← assign t (set_next (next cur)) (set_next_id (u32 (next_thread_id s + 1)) s1);
  assign (current_thread s2) (set_next t) s2.

Definition thread_add (entry_point : Z) (nm : list Z) (user : bool) (s : sched)
  : outcome (Z * sched) :=
  '(t, s1) ← (if user then thread_create_user entry_point nm s
              else thread_create entry_point (Some nm) s);
  if t =? 0 then Ok (0, s1) else s2 ← thread_link t s1; Ok (t, s2).

Definition NAME_KERNEL : list Z := [107; 101; 114; 110; 101; 108].
Definition NAME_IDLE : list Z := [115; 121; 115; 95; 105; 100; 108; 101].

Definition thread_init (s : sched) : outcome sched :=
  '(cur, s1) ← kmalloc sizeof_thread_t s;
  if cur =? 0 then Fault else
  let th := mk_thread 0 (next_thread_id s1) NAME_KERNEL 0 0 false cur THREAD_READY 0 0 0 0 0 0
              (replicate 16 0) (replicate 16 0) in
  let s2 := set_current cur (set_next_id (u32 (next_thread_id s1 + 1))
              (set_threads (<[cur := th]> (threads s1)) s1)) in
  '(idle, s3) ← thread_create addr_idle_task (Some NAME_IDLE) s2;
  let s4 := set_idle idle s3 in
  if idle =? 0 then Ok s4 else
  c ← deref (threads s4) cur;
  s5 ← assign idle (set_next (next c)) s4;
  assign cur (set_next idle) s5.
End code_addresses.

(** ** Sleeping, blocking and ending *)

Definition thread_sleep (ms : Z) (s : sched) : outcome sched :=
  let ticks := if ms / 10 =? 0 then 1 else ms / 10 in
  s1 ← assign (current_thread s) (λ t, set_state THREAD_SLEEPING (set_sleep ticks t)) s;
  yield s1.

Definition wake_blocked (t : thread_t) : thread_t :=
  if is_state (state t) THREAD_BLOCKED then set_state THREAD_READY t else t.

Definition thread_wakeup_blocked (s : sched) : outcome sched :=
  if current_thread s =? 0 then Ok s else
  m ← ring_update wake_blocked (fuel_of s) (threads s) (current_thread s) (current_thread s);
  Ok (set_threads m s).

Definition thread_get_by_id (i : Z) (s : sched) : outcome Z :=
  if current_thread s =? 0 then Ok 0 else
  r ← ring_find (λ _ t, id t =? i) (fuel_of s) (threads s) (current_thread s) (current_thread s);
  Ok (default 0 r).

(** The loop of [thread_get_id_by_name]: the last match and the number of matches. *)
Fixpoint name_loop (nm : list Z) (fuel : nat) (m : gmap Z thread_t) (temp stop found count : Z)
  : outcome (Z * Z) :=
  match fuel with
  | O => OutOfFuel
  | S fuel' =>
      t ← deref m temp;
      let hit := LibcString.str_diff (name t) nm =? 0 in
      let found' := if hit then id t else found in
      let count' := if hit then count + 1 else count in
      if next t =? stop then Ok (found', count')
      else name_loop nm fuel' m (next t) stop found' count'
  end.

Definition thread_get_id_by_name (nm : option (list Z)) (s : sched) : outcome Z :=
  match nm with
  | None => Ok THREAD_NOT_FOUND
  | Some n =>
      if current_thread s =? 0 then Ok THREAD_NOT_FOUND else
      '(found, count) ← name_loop n (fuel_of s) (threads s) (current_thread s) (current_thread s)
                          THREAD_NOT_FOUND 0;
      Ok (if 1 <? count then THREAD_AMBIGUOUS else found)
  end.

(** Moving a thread that was unlinked to the front of the zombie list. *)
Definition push_zombie (p : Z) (s : sched) : outcome sched :=
  s1 ← assign p (set_next (zombie_list_head s)) s; Ok (set_zombies p s1).

(** The loop of [thread_kill]; the result says whether the thread was found. *)
Fixpoint kill_loop (i : Z) (fuel : nat) (prev curr stop : Z) (s : sched) : outcome (bool * sched) :=
  match fuel with
  | O => OutOfFuel
  | S fuel' =>
      c ← deref (threads s) curr;
      if id c =? i then
        s1 ← assign prev (set_next (next c)) s;
        s2 ← assign curr (λ t, set_exit_code (-1) (set_state THREAD_ZOMBIE t)) s1;
        s3 ← push_zombie curr s2;
        Ok (true, s3)
      else if next c =? stop then Ok (false, s)
      else kill_loop i fuel' curr (next c) stop s
  end.

Definition thread_kill (i : Z) (s : sched) : outcome (bool * sched) :=
  cur ← deref (threads s) (current_thread s);
  idle ← deref (threads s) (idle_thread_ptr s);
  if (i =? id cur) || (i =? id idle) || (i =? 0) then Ok (false, s) else
  kill_loop i (fuel_of s) (current_thread s) (next cur) (current_thread s) s.

(** [while (prev->next != self) prev = prev->next] *)
Fixpoint find_prev (fuel : nat) (m : gmap Z thread_t) (prev self : Z) : outcome Z :=
  match fuel with
  | O => OutOfFuel
  | S fuel' =>
      t ← deref m prev;
      if next t =? self then Ok prev else find_prev fuel' m (next t) self
  end.

(** [thread_exit] up to the release of the lock. *)
Definition thread_exit_unlink (code : Z) (s : sched) : outcome sched :=
  let self := current_thread s in
  s1 ← assign self (λ t, set_state THREAD_ZOMBIE (set_exit_code code t)) s;
  t ← deref (threads s1) self;
  if (id t =? 0) || (self =? idle_thread_ptr s) then Panic K_ERR_SYSTEM_THREAD_EXIT_ATTEMPT else
  prev ← find_prev (fuel_of s1) (threads s1) self self;
  s2 ← assign prev (set_next (next t)) s1;
  push_zombie self s2.

Definition thread_exit (code : Z) (s : sched) : outcome sched :=
  s1 ← thread_exit_unlink code s; yield s1.

Definition EINVAL : Z := 22.
Definition ESRCH : Z := 3.
Definition E2BIG : Z := 7.
Definition EPERM : Z := 1.

(** [atoi] of the bytes of a string. *)
Definition atoi_bytes (s : list Z) : outcome Z :=
  LibcStdlib.atoi 1 (list_to_map (zip (seqZ 1 (Z.of_nat (length s + 1))) (s ++ [0]))).

Definition thread_kill_by_string (input : option (list Z)) (s : sched) : outcome (Z * sched) :=
  match input with
  | None | Some [] => Ok (- EINVAL, s)
  | Some ((c :: _) as inp) =>
      i ← (if (48 <=? c) && (c <=? 57) then v ← atoi_bytes inp; Ok (u32 v)
           else thread_get_id_by_name (Some inp) s);
      let by_name := negb ((48 <=? c) && (c <=? 57)) in
      if by_name && (i =? THREAD_NOT_FOUND) then Ok (- ESRCH, s) else
      if by_name && (i =? THREAD_AMBIGUOUS) then Ok (- E2BIG, s) else
      '(ok, s') ← thread_kill i s;
      Ok (if ok : bool then 0 else - EPERM, s')
  end.

(** ** Emptying the zombie list *)

(** Frees the frame of a user page, if it is mapped. *)
Definition release_user_page (addr : Z) (s : sched) : outcome sched :=
  '(phys, st1) ← Paging.paging_get_physical_address addr (get_paging s);
  if phys =? 0 then Ok (set_paging st1 s) else
  st2 ← Paging.pfa_free phys st1;
  st3 ← Paging.paging_unmap_page addr st2;
  Ok (set_paging st3 s).

(** [for (addr = lo; addr < hi; addr += 4096)] *)
Definition release_user_range (lo hi : Z) (s : sched) : outcome sched :=
  for_range (λ i s, release_user_page (lo + i * 4096) s) (Z.to_nat ((hi - lo + 4095) / 4096)) 0 s.

Definition USER_HEAP_START : Z := 0x40000000.

Definition release_user_memory (c : thread_t) (s : sched) : outcome sched :=
  s1 ← release_user_range USER_STACK_BASE (USER_STACK_BASE + 4 * 4096) s;
  s2 ← (if user_image_start c <? user_image_end c
        then release_user_range (user_image_start c) (user_image_end c) s1 else Ok s1);
  if USER_HEAP_START <? user_heap_break c
  then release_user_range USER_HEAP_START (user_heap_break c) s2 else Ok s2.

(** The loop of [cleanup_zombies]: the structure of a freed thread is gone. *)
Fixpoint cleanup_loop (fuel : nat) (curr : Z) (s : sched) : outcome sched :=
  if curr =? 0 then Ok s else
  match fuel with
  | O => OutOfFuel
  | S fuel' =>
      c ← deref (threads s) curr;
      s1 ← (if stack_start c =? 0 then Ok s else kfree (stack_start c) s);
      s2 ← (if is_user c then release_user_memory c s1 else Ok s1);
      s3 ← kfree curr s2;
      cleanup_loop fuel' (next c) (set_threads (delete curr (threads s3)) s3)
  end.

Definition cleanup_zombies (s : sched) : outcome sched :=
  cleanup_loop (S (fuel_of s)) (zombie_list_head s) (set_zombies 0 s).

(** ** The timer *)

(** One tick for one thread, in [timer_handler]. *)
Definition tick_thread (t : thread_t) : thread_t :=
  if is_state (state t) THREAD_SLEEPING then
    let t1 := if 0 <? sleep_ticks t then set_sleep (u32 (sleep_ticks t - 1)) t else t in
    if sleep_ticks t1 =? 0 then set_state THREAD_READY t1 else t1
  else t.

Record timer : Type := mk_timer { timer_ticks : Z; timer_hz : Z; tm_sched : sched }.

Definition PIT_FREQUENCY : Z := 1193182.

Definition PIT_COMMAND : Z := 0x43.
Definition PIT_CHANNEL0_DATA : Z := 0x40.

(** The answer, the bytes written to ports, and the new state. *)
Definition timer_init (frequency : Z) (tm : timer) : bool * list (Z * Z) * timer :=
  let tm1 := mk_timer (timer_ticks tm) frequency (tm_sched tm) in
  if (frequency =? 0) || (PIT_FREQUENCY <? frequency) then (false, [], tm1) else
  let divisor := PIT_FREQUENCY / frequency in
  let low := u8 (Z.land divisor 0xFF) in
  let high := u8 (Z.land (Z.shiftr divisor 8) 0xFF) in
  (true, [(PIT_COMMAND, 0x36); (PIT_CHANNEL0_DATA, low); (PIT_CHANNEL0_DATA, high)],
   mk_timer 0 frequency (tm_sched tm1)).

(** [timer_handler] on the scheduler: tick every thread, then yield. *)
Definition tick_threads (s : sched) : outcome sched :=
  s1 ← (if current_thread s =? 0 then Ok s else
        m ← ring_update tick_thread (fuel_of s) (threads s) (current_thread s) (current_thread s);
        Ok (set_threads m s));
  yield s1.

Definition timer_handler (tm : timer) : outcome timer :=
  s ← tick_threads (tm_sched tm);
  Ok (mk_timer (u32 (timer_ticks tm + 1)) (timer_hz tm) s).

Definition timer_get_ticks (tm : timer) : Z := timer_ticks tm.

(** Without a current thread the loop spins until that many interrupts have come. *)
Definition timer_sleep (milliseconds : Z) (tm : timer) : outcome timer :=
  let t0 := u32 (milliseconds * timer_hz tm) / 1000 in
  let ticks := if (t0 =? 0) && (0 <? milliseconds) then 1 else t0 in
  if ticks =? 0 then Ok tm else
  if current_thread (tm_sched tm) =? 0 then
    for_range (λ _, timer_handler) (Z.to_nat ticks) 0 tm
  else
  s1 ← assign (current_thread (tm_sched tm))
         (λ t, set_state THREAD_SLEEPING (set_sleep ticks t)) (tm_sched tm);
  s2 ← yield s1;
  Ok (mk_timer (timer_ticks tm) (timer_hz tm) s2).

(** ** Rings and lists of threads *)

(** The [next] pointers lead from [p] over the pointers [l] to [q]. *)
Fixpoint path (m : gmap Z thread_t) (p : Z) (l : list Z) (q : Z) : Prop :=
  match l with
  | [] => p = q
  | a :: l' => p = a ∧ ∃ t, m !! a = Some t ∧ path m (next t) l' q
  end.

Lemma path_app m p l1 l2 q : path m p (l1 ++ l2) q ↔ ∃ r, path m p l1 r ∧ path m r l2 q.
Proof.
  revert p. induction l1 as [|a l1 IH]; intros p; cbn.
  - split; [eauto|]. by intros (r & -> & H).
  - split.
    + intros (-> & t & Hm & H). apply IH in H as (r & H1 & H2). eauto 8.
    + intros (r & (-> & t & Hm & H1) & H2). split; [done|]. exists t. split; [done|].
      apply IH. eauto.
Qed.

(** Maps that agree on the [next] pointers of [l] have the same paths over it. *)
Definition same_next (l : list Z) (m m' : gmap Z thread_t) : Prop :=
  ∀ p, p ∈ l → next <$> (m !! p) = next <$> (m' !! p).

Lemma path_same_next m m' p l q : same_next l m m' → path m p l q → path m' p l q.
Proof.
  revert p. induction l as [|a l IH]; intros p Hs; cbn; [done|].
  intros (-> & t & Hm & H). split; [done|].
  assert (Ha : next <$> (m !! a) = next <$> (m' !! a)) by (apply Hs; by left).
  rewrite Hm in Ha. destruct (m' !! a) as [t'|] eqn:Hm'; [|done]. cbn in Ha.
  injection Ha as Ha. exists t'. split; [done|]. rewrite <- Ha. apply IH; [|done].
  intros x Hx. apply Hs. by right.
Qed.

(** A ring starting at the head of a list of different pointers. *)
Definition ring (m : gmap Z thread_t) (l : list Z) : Prop :=
  NoDup l ∧ ∃ h, head l = Some h ∧ path m h l h.

(** A ring may be entered at any of its members. *)
Lemma ring_rotate m a l : ring m (a :: l) → ring m (l ++ [a]).
Proof.
  intros (Hnd & h & Hh & Hp). assert (h = a) as -> by (cbn in Hh; congruence). clear Hh.
  destruct Hp as (_ & t & Hm & H). split.
  - rewrite (Permutation_app_comm l [a]). done.
  - destruct l as [|b l]; cbn in *.
    + exists a. split; [done|]. split; [done|]. by exists t.
    + destruct H as (Hb & t' & Hm' & H). exists b. split; [done|]. split; [done|].
      exists t'. split; [done|]. apply path_app. exists a. split; [done|].
      cbn. split; [done|]. exists t. by rewrite Hb.
Qed.

Lemma ring_rotate_to m l1 l2 : ring m (l1 ++ l2) → ring m (l2 ++ l1).
Proof.
  revert l2. induction l1 as [|a l1 IH]; intros l2 H; [by rewrite app_nil_r|].
  cbn in H. apply ring_rotate in H. rewrite <- app_assoc in H.
  apply IH in H. rewrite <- app_assoc in H. done.
Qed.

Lemma path_dom m p l q a : path m p l q → a ∈ l → is_Some (m !! a).
Proof.
  revert p. induction l as [|b l IH]; intros p; cbn; [by intros _ ?%elem_of_nil|].
  intros (-> & t & Hm & H) [->|Ha]%elem_of_cons; eauto.
Qed.

Lemma NoDup_dom_size (m : gmap Z thread_t) l :
  NoDup l → (∀ a, a ∈ l → is_Some (m !! a)) → (length l ≤ size m)%nat.
Proof.
  intros Hnd Hd. rewrite <- (size_list_to_set (C := gset Z)) by done.
  rewrite <- size_dom. apply subseteq_size. intros a Ha%elem_of_list_to_set.
  apply elem_of_dom. auto.
Qed.

Lemma ring_size m l : ring m l → (length l ≤ size m)%nat.
Proof. intros (Hnd & h & _ & H). apply NoDup_dom_size; [done|]. intros a. by eapply path_dom. Qed.

(** *** Updating a whole ring *)

(** The map with [body] applied to the threads of [l]. *)
Definition update_on (body : thread_t → thread_t) (l : list Z) (m : gmap Z thread_t)
  : gmap Z thread_t := foldr (λ p m, alter body p m) m l.

Lemma lookup_update_on body l m p :
  NoDup l → update_on body l m !! p = (if decide (p ∈ l) then body <$> (m !! p) else m !! p).
Proof.
  intros Hnd. induction Hnd as [|a l Ha Hnd IH]; [by rewrite decide_False by apply not_elem_of_nil|].
  cbn [update_on foldr]. fold (update_on body l m). destruct (decide (p = a)) as [->|Hne].
  - rewrite lookup_alter_eq, IH, decide_False, decide_True by (done || by left). done.
  - rewrite lookup_alter_ne, IH by done. destruct (decide (p ∈ l)).
    + by rewrite decide_True by by right.
    + rewrite decide_False; [done|]. rewrite elem_of_cons. naive_solver.
Qed.

Lemma update_on_next body l m l' :
  NoDup l → (∀ t, next (body t) = next t) → same_next l' m (update_on body l m).
Proof.
  intros Hnd Hb p _. rewrite lookup_update_on by done. case_decide; [|done].
  destruct (m !! p); cbn; [by rewrite Hb|done].
Qed.

Lemma ring_update_path body fuel m p l q :
  (∀ t, next (body t) = next t) → NoDup (p :: l) → path m p (p :: l) q → q ∉ l →
  (length l < fuel)%nat →
  ring_update body fuel m p q = Ok (update_on body (p :: l) m).
Proof.
  intros Hb. revert m p l. induction fuel as [|fuel IH]; intros m p l Hnd Hp Hq Hf; [lia|].
  destruct Hp as (_ & t & Hm & Hp). cbn [ring_update]. unfold deref. rewrite Hm. cbn [of_option].
  run. rewrite Hb. apply NoDup_cons in Hnd as [Hnp Hnd].
  assert (Hcomm : ∀ l', p ∉ l' → update_on body l' (<[p := body t]> m) = update_on body (p :: l') m).
  { intros l' Hl'. unfold update_on. induction l' as [|b l' IHl]; simpl.
    - apply map_eq. intros x. destruct (decide (x = p)) as [->|].
      + by rewrite lookup_insert_eq, lookup_alter_eq, Hm.
      + by rewrite lookup_insert_ne, lookup_alter_ne.
    - apply not_elem_of_cons in Hl' as [Hne Hl']. rewrite IHl by done. simpl.
      by rewrite alter_alter_ne. }
  destruct l as [|b l]; cbn in Hp.
  - rewrite Hp, Z.eqb_refl. by rewrite <- Hcomm by apply not_elem_of_nil.
  - destruct Hp as (Hnb & t' & Hm' & Hp). rewrite Hnb.
    rewrite (proj2 (Z.eqb_neq b q)) by (intros ->; apply Hq; by left).
    rewrite (IH (<[p := body t]> m) b l); [by rewrite Hcomm|done| |by (intros H; apply Hq; by right)|cbn in Hf; lia].
    apply (path_same_next m); [|cbn; eauto]. intros x Hx. rewrite lookup_insert_ne; [done|].
    intros ->. done.
Qed.

(** *** Searching a ring *)

Fixpoint find_first (test : Z → thread_t → bool) (m : gmap Z thread_t) (l : list Z) : option Z :=
  match l with
  | [] => None
  | a :: l' =>
      match m !! a with
      | Some t => if test a t then Some a else find_first test m l'
      | None => find_first test m l'
      end
  end.

Lemma ring_find_path test fuel m p l q :
  path m p (p :: l) q → q ∉ l → (length l < fuel)%nat →
  ring_find test fuel m p q = Ok (find_first test m (p :: l)).
Proof.
  revert p l. induction fuel as [|fuel IH]; intros p l Hp Hq Hf; [lia|].
  destruct Hp as (_ & t & Hm & Hp). cbn [ring_find find_first]. unfold deref. rewrite Hm.
  cbn [of_option]. run. destruct (test p t); [done|].
  destruct l as [|b l]; cbn in Hp; [by rewrite Hp, Z.eqb_refl|].
  destruct Hp as (Hnb & t' & Hm' & Hp). rewrite Hnb.
  rewrite (proj2 (Z.eqb_neq b q)) by (intros ->; apply Hq; by left).
  apply IH; [cbn; eauto|by (intros H; apply Hq; by right)|cbn in Hf; lia].
Qed.

Lemma find_first_Some test m l p :
  find_first test m l = Some p →
  ∃ i t, l !! i = Some p ∧ m !! p = Some t ∧ test p t = true ∧
    ∀ j q u, (j < i)%nat → l !! j = Some q → m !! q = Some u → test q u = false.
Proof.
  induction l as [|a l IH]; cbn; [done|]. destruct (m !! a) as [t|] eqn:E.
  - destruct (test a t) eqn:Et.
    + intros [= <-]. exists O, t. split_and!; try done. lia.
    + intros H. destruct (IH H) as (i & u & Hi & Hu & Ht & Hb). exists (S i), u.
      split_and!; try done. intros [|j] q w Hj; cbn; [intros [= <-]; congruence|]. apply Hb. lia.
  - intros H. destruct (IH H) as (i & u & Hi & Hu & Ht & Hb). exists (S i), u.
    split_and!; try done. intros [|j] q w Hj; cbn; [intros [= <-]; congruence|]. apply Hb. lia.
Qed.

Lemma find_first_None test m l q u :
  find_first test m l = None → q ∈ l → m !! q = Some u → test q u = false.
Proof.
  intros H Hq Hu. induction l as [|a l IH]; [by apply elem_of_nil in Hq|]. cbn in H.
  apply elem_of_cons in Hq as [->|Hq].
  - rewrite Hu in H. by destruct (test a u).
  - destruct (m !! a) as [t|]; [destruct (test a t); [done|]|]; auto.
Qed.

(** ** The effect of [yield] *)

(** Ready, and not the idle thread. *)
Definition runnable (idle : Z) (scan : Z) (t : thread_t) : bool :=
  is_state (state t) THREAD_READY && negb (scan =? idle).

(** The thread that runs next: the first runnable one in the order of the scan,
    else the thread that yields if it is ready, else the idle thread. *)
Definition pick (m : gmap Z thread_t) (idle prev : Z) (scan : list Z) : Z :=
  match find_first (runnable idle) m scan with
  | Some p => p
  | None => match m !! prev with
            | Some t => if is_state (state t) THREAD_READY then prev else idle
            | None => idle
            end
  end.

(** The state after switching from [prev] to [n], with the threads [m]. *)
Definition switched (m : gmap Z thread_t) (prev n : Z) (s : sched) : sched :=
  if n =? prev then set_threads m s else
  let m' := alter (set_rsp (u64 (cpu_rsp s - 64))) prev m in
  match m !! n with
  | Some t =>
      let kstack := u64 (stack_start t + 16384) in
      set_cpu (if is_user t then kstack else tss_rsp0 s) kstack (u64 (rsp t + 64))
        (set_current n (set_threads m' s))
  | None => s
  end.

Lemma find_first_elem test m l p : find_first test m l = Some p → p ∈ l.
Proof. intros (i & _ & Hi & _)%find_first_Some. by eapply list_elem_of_lookup_2. Qed.

Lemma alter_insert_Some (f : thread_t → thread_t) (m : gmap Z thread_t) p t :
  m !! p = Some t → <[p := f t]> m = alter f p m.
Proof.
  intros H. apply map_eq. intros x. destruct (decide (x = p)) as [->|].
  - by rewrite lookup_insert_eq, lookup_alter_eq, H.
  - by rewrite lookup_insert_ne, lookup_alter_ne.
Qed.

Lemma wake_next t : next (wake_sleeper t) = next t.
Proof. unfold wake_sleeper. by destruct (_ && _). Qed.
Lemma tick_next t : next (tick_thread t) = next t.
Proof.
  unfold tick_thread. destruct (is_state _ _); [|done].
  destruct (0 <? sleep_ticks t); cbn; by destruct (_ =? 0).
Qed.
Lemma wake_blocked_next t : next (wake_blocked t) = next t.
Proof. unfold wake_blocked. by destruct (is_state _ _). Qed.

Lemma deref_thread m p t : m !! p = Some t → deref m p = Ok t.
Proof. unfold deref. by intros ->. Qed.

(** The two loops of [yield] on a ring entered at [st]. *)
Lemma yield_loops m st rest stt test fuel :
  ring m (st :: rest) → m !! st = Some stt → (length rest < fuel)%nat →
  let M := update_on wake_sleeper (rest ++ [st]) m in
  ring_update wake_sleeper fuel m (next stt) (next stt) = Ok M ∧
  M !! st = Some (wake_sleeper stt) ∧
  ring_find test fuel M (next stt) (next stt) = Ok (find_first test M (rest ++ [st])).
Proof.
  intros Hring Hst Hf M. pose proof (ring_rotate _ _ _ Hring) as (Hnd & b & Hh & Hp).
  assert (Hnext : next stt = b ∧ ∃ l, rest ++ [st] = b :: l ∧ (length l < fuel)%nat).
  { destruct Hring as (_ & h & Hh' & _ & t & Ht & Hpath). rewrite Hst in Ht. injection Ht as <-.
    assert (h = st) as -> by (cbn in Hh'; congruence).
    destruct rest as [|c rest]; cbn in Hh, Hpath, Hf.
    - split; [congruence|]. exists []. split; [cbn; congruence|cbn; lia].
    - destruct Hpath as [-> _]. split; [congruence|]. exists (rest ++ [st]).
      split; [cbn; congruence|rewrite length_app; cbn; lia]. }
  destruct Hnext as (Hnext & l & E & Hl). unfold M. rewrite Hnext, E in *. clear Hh.
  apply NoDup_cons in Hnd as Hnb. destruct Hnb as [Hnb _]. split; [|split].
  - apply ring_update_path; (done || apply wake_next).
  - rewrite lookup_update_on, decide_True, Hst; [done|rewrite <- E; set_solver|done].
  - apply ring_find_path; [|done|done].
    eapply path_same_next; [|exact Hp]. apply update_on_next; [done|apply wake_next].
Qed.

Lemma yield_gen s st rest pt :
  let cur := current_thread s in
  let idle := idle_thread_ptr s in
  threads s !! cur = Some pt → cur ≠ 0 → idle ≠ 0 →
  st = (if is_state (state pt) THREAD_ZOMBIE then idle else cur) →
  ring (threads s) (st :: rest) → idle ∈ st :: rest →
  let m1 := update_on wake_sleeper (rest ++ [st]) (threads s) in
  yield s = Ok (switched m1 cur (pick m1 idle cur (rest ++ [st])) s).
Proof.
  intros cur idle Hpt Hc0 Hi0 Hst Hring Hidle m1. unfold yield. fold cur idle.
  rewrite (proj2 (Z.eqb_neq _ 0) Hc0), (proj2 (Z.eqb_neq _ 0) Hi0). cbn [orb].
  rewrite (deref_thread _ _ _ Hpt). run. rewrite <- Hst.
  pose proof (ring_size _ _ Hring) as Hsz. cbn in Hsz.
  assert (Hnd : NoDup (rest ++ [st])) by apply (ring_rotate _ _ _ Hring).
  assert (Hstt : ∃ stt, threads s !! st = Some stt).
  { destruct Hring as (_ & h & _ & _ & t & Ht & _). eauto. }
  destruct Hstt as [stt Hstt]. rewrite (deref_thread _ _ _ Hstt). run.
  destruct (yield_loops (threads s) st rest stt (runnable idle) (fuel_of s) Hring Hstt)
    as (-> & HM & Hfind); [unfold fuel_of; lia|]. fold m1 in HM, Hfind |- *. run.
  rewrite (deref_thread _ _ _ HM). run. rewrite wake_next.
  fold (runnable idle). rewrite Hfind. run.
  assert (Hm1 : ∀ p, is_Some (threads s !! p) → is_Some (m1 !! p)).
  { intros p [t Ht]. unfold m1. rewrite lookup_update_on, Ht by done. destruct (decide _); [by exists (wake_sleeper t)|by exists t]. }
  destruct (Hm1 cur) as [pt1 Hpt1]; [eauto|]. rewrite (deref_thread _ _ _ Hpt1). run.
  assert (Epick : match find_first (runnable idle) m1 (rest ++ [st]) with
      | Some p => p | None => if is_state (state pt1) THREAD_READY then cur else idle end
    = pick m1 idle cur (rest ++ [st])) by (unfold pick; by rewrite Hpt1).
  rewrite Epick. set (n := pick _ _ _ _) in *. unfold switched.
  destruct (Z.eqb_spec n cur) as [En|En]; [done|].
  assert (Hn : is_Some (m1 !! n)).
  { apply Hm1. rewrite <- Epick. destruct (find_first _ _ _) as [p|] eqn:Ef.
    - destruct Hring as (_ & h & _ & Hp). eapply path_dom; [exact Hp|].
      apply find_first_elem in Ef. set_solver.
    - destruct (is_state (state pt1) _); [by exists pt|]. destruct Hring as (_ & h & _ & Hp).
      by eapply path_dom. }
  destruct Hn as [nt Hn]. rewrite (deref_thread _ _ _ Hn). run.
  unfold switch_context, assign. cbn [set_cpu set_current set_threads threads cpu_rsp].
  rewrite (deref_thread _ _ _ Hpt1). run. cbn [set_threads threads].
  rewrite (deref_thread _ n nt) by by rewrite lookup_insert_ne. run.
  rewrite Hn, (alter_insert_Some _ _ _ _ Hpt1). reflexivity.
Qed.

(** ** The invariant *)

(** The ring and the zombie list of a state. *)
Record lists_ok (s : sched) (l zl : list Z) : Prop := {
  lo_ring : ring (threads s) l;
  lo_zombies : path (threads s) (zombie_list_head s) zl 0;
  lo_nodup : NoDup (l ++ zl);
  lo_null : 0 ∉ l ++ zl;
  lo_idle : idle_thread_ptr s ∈ l;
  lo_alive : ∀ p t, p ∈ l → threads s !! p = Some t → state t ≠ THREAD_ZOMBIE;
  lo_dead : ∀ p t, p ∈ zl → threads s !! p = Some t → state t = THREAD_ZOMBIE
}.

(** The current thread is in the ring; the ring is listed from it. *)
Definition sched_ok (s : sched) (l zl : list Z) : Prop :=
  lists_ok s l zl ∧ head l = Some (current_thread s).

(** What an update that concerns neither links nor zombies preserves. *)
Definition same_links (l : list Z) (m m' : gmap Z thread_t) : Prop :=
  ∀ p, p ∈ l → ∀ t', m' !! p = Some t' → ∃ t, m !! p = Some t ∧ next t' = next t ∧
    (state t' = THREAD_ZOMBIE ↔ state t = THREAD_ZOMBIE).

Lemma lists_ok_links s s' l zl :
  lists_ok s l zl → same_links (l ++ zl) (threads s) (threads s') →
  (∀ p, p ∈ l ++ zl → is_Some (threads s' !! p)) →
  zombie_list_head s' = zombie_list_head s → idle_thread_ptr s' = idle_thread_ptr s →
  lists_ok s' l zl.
Proof.
  intros [H1 H2 H3 H4 H5 H6 H7] Hs Hd Hz Hi.
  assert (Hn : same_next (l ++ zl) (threads s) (threads s')).
  { intros p Hp. destruct (Hd p Hp) as [t' Ht']. destruct (Hs p Hp t' Ht') as (t & Ht & Hnx & _).
    rewrite Ht, Ht'. cbn. by rewrite Hnx. }
  constructor; rewrite ?Hz, ?Hi; try done.
  - destruct H1 as (Hnd & h & Hh & Hp). split; [done|]. exists h. split; [done|].
    eapply path_same_next; [|exact Hp]. intros p Hp'. apply Hn. set_solver.
  - eapply path_same_next; [|exact H2]. intros p Hp'. apply Hn. set_solver.
  - intros p t' Hp Ht' E. destruct (Hs p) with (t' := t') as (t & Ht & _ & Hst); [set_solver|done|].
    apply (H6 p t Hp Ht). by apply Hst.
  - intros p t' Hp Ht'. destruct (Hs p) with (t' := t') as (t & Ht & _ & Hst); [set_solver|done|].
    apply Hst. by apply (H7 p t).
Qed.

Lemma lists_dom s l zl p : lists_ok s l zl → p ∈ l ++ zl → is_Some (threads s !! p).
Proof.
  intros [(_ & h & _ & H1) H2 _ _ _ _ _] [Hp|Hp]%elem_of_app;
    [exact (path_dom _ _ _ _ _ H1 Hp)|exact (path_dom _ _ _ _ _ H2 Hp)].
Qed.

(** Listing the ring from another member. *)
Lemma lists_rotate s l1 l2 zl : lists_ok s (l1 ++ l2) zl → lists_ok s (l2 ++ l1) zl.
Proof.
  intros [H1 H2 H3 H4 H5 H6 H7]. constructor; try done.
  - by apply ring_rotate_to.
  - by rewrite (Permutation_app_comm l2 l1).
  - set_solver.
  - set_solver.
  - intros p t Hp. apply H6. set_solver.
Qed.

(** Updates of single threads. *)
Definition tame (body : thread_t → thread_t) : Prop :=
  ∀ t, next (body t) = next t ∧ (state (body t) = THREAD_ZOMBIE ↔ state t = THREAD_ZOMBIE).

Lemma tame_wake : tame wake_sleeper.
Proof.
  intros t. unfold wake_sleeper. case_bool_decide as E; cbn; [|done].
  destruct (sleep_ticks t =? 0); cbn; [|done]. by rewrite E.
Qed.
Lemma tame_tick : tame tick_thread.
Proof.
  intros t. unfold tick_thread. case_bool_decide as E; [|done].
  destruct (0 <? sleep_ticks t); cbn; destruct (_ =? 0); cbn; by rewrite ?E.
Qed.
Lemma tame_blocked : tame wake_blocked.
Proof. intros t. unfold wake_blocked. case_bool_decide as E; cbn; [by rewrite E|done]. Qed.
Lemma tame_rsp v : tame (set_rsp v).
Proof. done. Qed.

Lemma links_update_on body l m l' : NoDup l → tame body → same_links l' m (update_on body l m).
Proof.
  intros Hnd Hb p _ t'. rewrite lookup_update_on by done. case_decide.
  - destruct (m !! p) as [t|]; [|done]. intros [= <-]. exists t. by destruct (Hb t).
  - intros ->. by exists t'.
Qed.

Lemma links_alter body p m l' : tame body → same_links l' m (alter body p m).
Proof.
  intros Hb q _ t'. destruct (decide (q = p)) as [->|Hne].
  - rewrite lookup_alter_eq. destruct (m !! p) as [t|]; [|done]. intros [= <-]. exists t.
    by destruct (Hb t).
  - rewrite lookup_alter_ne by done. intros ->. by exists t'.
Qed.

Lemma links_trans l m1 m2 m3 : same_links l m1 m2 → same_links l m2 m3 → same_links l m1 m3.
Proof.
  intros H1 H2 p Hp t3 H3. destruct (H2 p Hp t3 H3) as (t2 & E2 & N2 & S2).
  destruct (H1 p Hp t2 E2) as (t1 & E1 & N1 & S1). exists t1. split; [done|].
  split; [congruence|]. by rewrite S2.
Qed.

Lemma is_Some_update_on body l m p :
  NoDup l → is_Some (m !! p) → is_Some (update_on body l m !! p).
Proof.
  intros Hnd [t Ht]. rewrite lookup_update_on, Ht by done.
  destruct (decide _); [by exists (body t)|by exists t].
Qed.

Lemma is_Some_alter (f : thread_t → thread_t) (m : gmap Z thread_t) p q :
  is_Some (m !! q) → is_Some (alter f p m !! q).
Proof.
  intros [t Ht]. destruct (decide (q = p)) as [->|].
  - rewrite lookup_alter_eq, Ht. by exists (f t).
  - rewrite lookup_alter_ne by done. by exists t.
Qed.

(** [switched] keeps the lists, with the ring listed from the new thread. *)
Lemma switched_lists s m n l zl :
  lists_ok s l zl → same_links (l ++ zl) (threads s) m → (∀ p, p ∈ l ++ zl → is_Some (m !! p)) →
  n ∈ l →
  lists_ok (switched m (current_thread s) n s) l zl ∧
  current_thread (switched m (current_thread s) n s) = n.
Proof.
  intros Hok Hl Hd Hn. unfold switched. destruct (Z.eqb_spec n (current_thread s)) as [->|Hne].
  - split; [|done]. by eapply lists_ok_links.
  - destruct (Hd n) as [t Ht]; [set_solver|]. rewrite Ht. split; [|done].
    eapply lists_ok_links; [exact Hok| | |done|done]; cbn [set_cpu set_current set_threads threads].
    + eapply links_trans; [exact Hl|]. apply links_alter, tame_rsp.
    + intros p Hp. apply is_Some_alter. auto.
Qed.

Lemma pick_in m idle cur (scan l : list Z) :
  (∀ p, p ∈ scan → p ∈ l) → cur ∈ l → idle ∈ l → pick m idle cur scan ∈ l.
Proof.
  intros Hs Hc Hi. unfold pick. destruct (find_first _ _ _) as [p|] eqn:E.
  - apply Hs. by eapply find_first_elem.
  - destruct (m !! cur) as [t|]; [|done]. by destruct (is_state (state t) _).
Qed.

(** [yield] of a thread in the ring. *)
Lemma yield_ok s cur rest zl :
  sched_ok s (cur :: rest) zl →
  let m1 := update_on wake_sleeper (rest ++ [cur]) (threads s) in
  let n := pick m1 (idle_thread_ptr s) cur (rest ++ [cur]) in
  yield s = Ok (switched m1 cur n s) ∧ n ∈ cur :: rest ∧
  ∀ l1 l2, cur :: rest = l1 ++ n :: l2 → sched_ok (switched m1 cur n s) (n :: l2 ++ l1) zl.
Proof.
  intros [Hok Hh]. cbn in Hh. injection Hh as ->. set (cur := current_thread s) in *. intros m1 n.
  assert (Hnd : NoDup (rest ++ [cur])).
  { rewrite (Permutation_app_comm rest [cur]). apply (lo_ring _ _ _ Hok). }
  destruct (lists_dom _ _ _ cur Hok) as [t Ht]; [set_solver|].
  assert (Halive : state t ≠ THREAD_ZOMBIE) by (eapply lo_alive; [done| |done]; by left).
  assert (Hnz : ∀ p, p ∈ cur :: rest → p ≠ 0).
  { intros p Hp ->. apply (lo_null _ _ _ Hok). set_solver. }
  pose proof (lo_idle _ _ _ Hok) as Hidle.
  assert (Hn : n ∈ cur :: rest) by (apply pick_in; [set_solver|by left|done]).
  split; [|split; [done|]].
  - apply yield_gen with (pt := t); try done.
    + apply Hnz. by left.
    + by apply Hnz.
    + by rewrite bool_decide_eq_false_2.
    + apply (lo_ring _ _ _ Hok).
  - intros l1 l2 E. destruct (switched_lists s m1 n (cur :: rest) zl Hok) as [Hok' Hc'].
    + apply links_update_on; [done|apply tame_wake].
    + intros p Hp. apply is_Some_update_on; [done|]. by eapply lists_dom.
    + done.
    + fold cur in Hok', Hc'. split; [|rewrite Hc'; reflexivity].
      rewrite E in Hok'. by apply lists_rotate in Hok'.
Qed.

(** *** Updating the ring as a whole *)

Lemma ring_update_sched body s l zl :
  sched_ok s l zl → tame body →
  ring_update body (fuel_of s) (threads s) (current_thread s) (current_thread s) =
    Ok (update_on body l (threads s)) ∧
  sched_ok (set_threads (update_on body l (threads s)) s) l zl.
Proof.
  intros [Hok Hh] Hb. pose proof (ring_size _ _ (lo_ring _ _ _ Hok)) as Hsz.
  destruct (lo_ring _ _ _ Hok) as (Hnd & h & Hh' & Hp).
  assert (h = current_thread s) as -> by congruence.
  destruct l as [|c rest]; [done|]. assert (c = current_thread s) as -> by (cbn in Hh; congruence).
  apply NoDup_cons in Hnd as Hnc. destruct Hnc as [Hnc _]. split.
  - apply ring_update_path; [intros t; apply Hb|done|done|done|]. cbn in Hsz. unfold fuel_of. lia.
  - split; [|done]. eapply lists_ok_links; [exact Hok| | |done|done]; cbn [set_threads threads].
    + by apply links_update_on.
    + intros p Hp'. apply is_Some_update_on; [done|]. by eapply lists_dom.
Qed.

Lemma tick_threads_eq s l zl :
  sched_ok s l zl → current_thread s ≠ 0 →
  tick_threads s = yield (set_threads (update_on tick_thread l (threads s)) s) ∧
  sched_ok (set_threads (update_on tick_thread l (threads s)) s) l zl.
Proof.
  intros Hok Hc. unfold tick_threads. rewrite (proj2 (Z.eqb_neq _ 0) Hc).
  destruct (ring_update_sched tick_thread s l zl Hok tame_tick) as [-> Hok']. run. done.
Qed.

Lemma sched_current_nonzero s l zl : sched_ok s l zl → current_thread s ≠ 0.
Proof.
  intros [Hok Hh] E. apply (lo_null _ _ _ Hok). apply elem_of_app. left. rewrite <- E.
  destruct l; [done|]. cbn in Hh. injection Hh as ->. by left.
Qed.

(** [p] is a thread of the map that is ready. *)
Definition ready_in (m : gmap Z thread_t) (p : Z) : Prop :=
  ∃ t, m !! p = Some t ∧ state t = THREAD_READY.

Lemma ready_update_on body l m p :
  NoDup l → (∀ t, state t = THREAD_READY → state (body t) = THREAD_READY) →
  ready_in m p → ready_in (update_on body l m) p.
Proof.
  intros Hnd Hb (t & Ht & Hr). unfold ready_in. rewrite lookup_update_on, Ht by done.
  destruct (decide _); [exists (body t); auto|by exists t].
Qed.

Lemma wake_ready t : state t = THREAD_READY → state (wake_sleeper t) = THREAD_READY.
Proof. intros H. unfold wake_sleeper. rewrite H. by rewrite bool_decide_eq_false_2. Qed.
Lemma tick_ready t : state t = THREAD_READY → state (tick_thread t) = THREAD_READY.
Proof. intros H. unfold tick_thread. rewrite H. by rewrite bool_decide_eq_false_2. Qed.

Lemma switched_ready m prev n s p :
  is_Some (m !! n) → ready_in m p → ready_in (threads (switched m prev n s)) p.
Proof.
  intros [tn Hn] (t & Ht & Hr). unfold switched. destruct (n =? prev); [by exists t|].
  rewrite Hn. cbn [set_cpu set_current set_threads threads]. unfold ready_in.
  destruct (decide (p = prev)) as [->|].
  - rewrite lookup_alter_eq, Ht. by exists (set_rsp (u64 (cpu_rsp s - 64)) t).
  - rewrite lookup_alter_ne by done. by exists t.
Qed.

Lemma switched_idle m prev n s : idle_thread_ptr (switched m prev n s) = idle_thread_ptr s.
Proof. unfold switched. destruct (n =? prev); [done|]. by destruct (m !! n). Qed.

(** A runnable thread of the scan is not overtaken by a later one. *)
Lemma pick_before m idle cur scan i p :
  scan !! i = Some p → ready_in m p → p ≠ idle →
  ∃ k, (k ≤ i)%nat ∧ scan !! k = Some (pick m idle cur scan).
Proof.
  intros Hi (t & Ht & Hr) Hp. unfold pick.
  assert (Hrun : runnable idle p t = true).
  { unfold runnable. rewrite bool_decide_eq_true_2 by done. by rewrite (proj2 (Z.eqb_neq _ _) Hp). }
  destruct (find_first (runnable idle) m scan) as [q|] eqn:E.
  - apply find_first_Some in E as (k & u & Hk & Hu & _ & Hb). exists k. split; [|done].
    destruct (decide (k ≤ i)%nat); [done|]. rewrite (Hb i p t) in Hrun; [done|lia|done|done].
  - rewrite (find_first_None _ _ _ p t E) in Hrun; [done| |done]. by eapply list_elem_of_lookup_2.
Qed.

(** Each timer interrupt brings a ready thread closer to the head of the ring. *)
Lemma tick_progress s l zl i p :
  sched_ok s l zl → l !! S i = Some p → ready_in (threads s) p → p ≠ idle_thread_ptr s →
  ∃ s' l' j, tick_threads s = Ok s' ∧ sched_ok s' l' zl ∧ (j ≤ i)%nat ∧ l' !! j = Some p ∧
    ready_in (threads s') p ∧ idle_thread_ptr s' = idle_thread_ptr s.
Proof.
  intros Hok Hi Hr Hp. pose proof (sched_current_nonzero _ _ _ Hok) as Hc0.
  destruct (tick_threads_eq s l zl Hok Hc0) as [-> Hok1]. set (s1 := set_threads _ s) in *.
  destruct l as [|cur rest]; [done|]. cbn in Hi.
  destruct (yield_ok s1 cur rest zl Hok1) as (Hy & Hn & Hrot).
  set (m1 := update_on wake_sleeper (rest ++ [cur]) (threads s1)) in *.
  change (idle_thread_ptr s1) with (idle_thread_ptr s) in *.
  assert (Hnd : NoDup (cur :: rest)) by apply (lo_ring _ _ _ (proj1 Hok)).
  assert (Hnd' : NoDup (rest ++ [cur])) by by rewrite (Permutation_app_comm rest [cur]).
  assert (Hr1 : ready_in m1 p).
  { apply ready_update_on; [done|apply wake_ready|].
    apply ready_update_on; [done|apply tick_ready|done]. }
  destruct (pick_before m1 (idle_thread_ptr s) cur (rest ++ [cur]) i p) as (k & Hk & Hpick);
    [by apply lookup_app_l_Some|done|done|].
  set (n := pick _ _ _ _) in *. pose proof (lookup_lt_Some _ _ _ Hi) as Hlen.
  rewrite lookup_app_l in Hpick by lia.
  assert (E : cur :: rest = (cur :: take k rest) ++ n :: drop (S k) rest).
  { cbn. f_equal. by rewrite take_drop_middle. }
  eexists _, _, (i - k)%nat. split; [exact Hy|]. split; [exact (Hrot _ _ E)|].
  split; [lia|]. split; [|split].
  - destruct (decide (i = k)) as [->|Hne].
    + rewrite Nat.sub_diag. transitivity (Some n); [reflexivity|]. by rewrite <- Hpick, <- Hi.
    + replace (i - k)%nat with (S (i - S k)) by lia. cbn.
      apply lookup_app_l_Some. rewrite lookup_drop. by replace (S k + (i - S k))%nat with i by lia.
  - apply switched_ready; [|done]. apply is_Some_update_on; [done|].
    eapply lists_dom; [exact (proj1 Hok1)|]. apply elem_of_app. by left.
  - exact (switched_idle m1 cur n s1).
Qed.

(** [k] timer interrupts. *)
Fixpoint ticks (k : nat) (s : sched) : outcome sched :=
  match k with
  | O => Ok s
  | S k' => s1 ← tick_threads s; ticks k' s1
  end.

Lemma ready_runs i s l zl p :
  sched_ok s l zl → l !! i = Some p → ready_in (threads s) p → p ≠ idle_thread_ptr s →
  ∃ k s', (k ≤ i)%nat ∧ ticks k s = Ok s' ∧ current_thread s' = p.
Proof.
  revert s l. induction (lt_wf i) as [i _ IH]; intros s l Hok Hi Hr Hp. destruct i as [|i].
  - exists O, s. split_and!; [lia|done|]. destruct Hok as [_ Hh].
    destruct l; cbn in *; [done|]. congruence.
  - destruct (tick_progress s l zl i p Hok Hi Hr Hp)
      as (s1 & l1 & j & E & Hok1 & Hj & Hlj & Hr1 & Hid).
    destruct (IH j ltac:(lia) s1 l1 Hok1 Hlj Hr1) as (k & s2 & Hk & E2 & Hc2); [by rewrite Hid|].
    exists (S k), s2. split; [lia|]. cbn [ticks]. rewrite E. run. done.
Qed.

(** ** Ending a thread *)

(** The state after [p], whose predecessor in the ring is [prev] and successor
    [nx], was unlinked, changed by [f] and put on the zombie list. *)
Definition unlinked (prev p nx : Z) (f : thread_t → thread_t) (s : sched) : sched :=
  set_zombies p
    (set_threads (alter (λ t, set_next (zombie_list_head s) (f t)) p
                    (alter (set_next nx) prev (threads s))) s).

Lemma lookup_unlinked_other prev p nx f s q :
  q ≠ prev → q ≠ p → threads (unlinked prev p nx f s) !! q = threads s !! q.
Proof. intros H1 H2. cbn. by rewrite !lookup_alter_ne. Qed.

Lemma perm_unlink (l1 l2 zl : list Z) prev p :
  (l1 ++ prev :: p :: l2) ++ zl ≡ₚ (l1 ++ prev :: l2) ++ p :: zl.
Proof.
  rewrite <- (Permutation_middle _ zl p). 
  assert (E : l1 ++ prev :: p :: l2 ≡ₚ p :: l1 ++ prev :: l2).
  { rewrite (cons_middle prev), app_assoc, <- Permutation_middle, <- app_assoc. done. }
  by rewrite E.
Qed.

(** Elsewhere the links are as before. *)
Lemma unlinked_same_next prev p nx f s l :
  p ∉ l → prev ∉ l → same_next l (threads s) (threads (unlinked prev p nx f s)).
Proof. intros H1 H2 q Hq. rewrite lookup_unlinked_other; [done| |]; intros ->; done. Qed.

(** The states after unlinking: [p] is as [f] makes it, the others as before. *)
Lemma unlinked_state prev p nx f s q t :
  threads (unlinked prev p nx f s) !! q = Some t →
  ∃ t0, threads s !! q = Some t0 ∧
    (q ≠ p → state t = state t0) ∧ (q = p → ∃ t1, state t1 = state t0 ∧ state t = state (f t1)).
Proof.
  cbn. destruct (decide (q = p)) as [->|Hqp].
  - rewrite lookup_alter_eq. destruct (decide (p = prev)) as [->|].
    + rewrite lookup_alter_eq. destruct (threads s !! prev) as [t0|]; [|done].
      intros [= <-]. exists t0. split_and!; [done..|]. by exists (set_next nx t0).
    + rewrite lookup_alter_ne by done. destruct (threads s !! p) as [t0|]; [|done].
      intros [= <-]. exists t0. split_and!; [done..|]. by exists t0.
  - rewrite lookup_alter_ne by done. destruct (decide (q = prev)) as [->|].
    + rewrite lookup_alter_eq. destruct (threads s !! prev) as [t0|]; [|done].
      intros [= <-]. by exists t0.
    + rewrite lookup_alter_ne by done. intros ->. by exists t.
Qed.

Lemma unlinked_lists s l1 prev p l2 zl tp f :
  lists_ok s (l1 ++ prev :: p :: l2) zl → threads s !! p = Some tp → p ≠ idle_thread_ptr s →
  (∀ t, state (f t) = THREAD_ZOMBIE) →
  lists_ok (unlinked prev p (next tp) f s) (l1 ++ prev :: l2) (p :: zl).
Proof.
  intros [H1 H2 H3 H4 H5 H6 H7] Htp Hidle Hf.
  destruct H1 as (Hnd & h & Hh & Hp). rewrite perm_unlink in H3, H4.
  apply NoDup_app in H3 as Hn3. destruct Hn3 as (Nr & Nd & Nz). apply NoDup_cons in Nz as [Pz Nz].
  apply NoDup_app in Nr as Nr'. destruct Nr' as (N1 & N2 & N3). apply NoDup_cons in N3 as [Q2 N3].
  assert (Hpl : p ∉ l1 ++ prev :: l2) by (intros Hin; apply (Nd p Hin); by left).
  assert (Hd : (p ∉ l1) ∧ (p ∉ l2) ∧ (prev ∉ l1) ∧ p ≠ prev ∧ (prev ∉ zl)) by set_solver.
  destruct Hd as (P1 & P2 & Q1 & Hpp & Qz).
  assert (Htprev : ∃ tv, threads s !! prev = Some tv ∧ path (threads s) h l1 prev ∧
    path (threads s) (next tp) l2 h).
  { apply path_app in Hp as (r & A & -> & tv & Hv & _ & tp' & Hp' & B).
    rewrite Htp in Hp'. injection Hp' as <-. eauto. }
  destruct Htprev as (tv & Htv & A & B).
  constructor; cbn [unlinked set_zombies set_threads zombie_list_head idle_thread_ptr].
  - split; [done|]. exists h. split; [by destruct l1|].
    apply path_app. exists prev. split; [eapply path_same_next; [by apply unlinked_same_next|exact A]|].
    cbn. split; [done|]. exists (set_next (next tp) tv).
    rewrite lookup_alter_ne, lookup_alter_eq, Htv by done. split; [done|].
    eapply path_same_next; [by apply unlinked_same_next|exact B].
  - cbn. split; [done|]. eexists. rewrite lookup_alter_eq, lookup_alter_ne, Htp by done.
    split; [reflexivity|]. cbn. eapply path_same_next; [by apply unlinked_same_next|exact H2].
  - done.
  - done.
  - set_solver.
  - intros q t Hq Ht. apply unlinked_state in Ht as (t0 & Ht0 & Hst & _).
    rewrite Hst by (intros ->; done). apply (H6 q t0); [set_solver|done].
  - intros q t Hq Ht. apply unlinked_state in Ht as (t0 & Ht0 & Hst & Hst').
    destruct (decide (q = p)) as [E|E].
    + destruct (Hst' E) as (t1 & _ & ->). apply Hf.
    + rewrite Hst by done. apply (H7 q t0); [|done]. by apply elem_of_cons in Hq as [?|?].
Qed.

Lemma assign_ok p f s t :
  threads s !! p = Some t → assign p f s = Ok (set_threads (<[p := f t]> (threads s)) s).
Proof. intros H. unfold assign. by rewrite (deref_thread _ _ _ H). Qed.

(** The assignments of an unlinking, one after the other. *)
Lemma unlink_assigns {A} prev p tp tv f s (k : sched → outcome A) :
  threads s !! p = Some tp → threads s !! prev = Some tv → p ≠ prev →
  (s1 ← assign prev (set_next (next tp)) s; s2 ← assign p f s1; s3 ← push_zombie p s2; k s3) =
    k (unlinked prev p (next tp) f s).
Proof.
  intros Hp Hv Hne. rewrite (assign_ok _ _ _ _ Hv). run.
  rewrite (assign_ok p _ _ tp) by (cbn; rewrite lookup_insert_ne by done; exact Hp). run.
  unfold push_zombie. rewrite (assign_ok p _ _ (f tp)) by apply lookup_insert_eq. run.
  cbn [set_threads threads zombie_list_head]. rewrite insert_insert_eq. unfold unlinked. do 2 f_equal.
  rewrite (alter_insert_Some (set_next (next tp)) _ _ _ Hv).
  rewrite <- (alter_insert_Some (λ t, set_next (zombie_list_head s) (f t)) _ p tp); [done|].
  by rewrite lookup_alter_ne.
Qed.

Definition killed (t : thread_t) : thread_t := set_exit_code (-1) (set_state THREAD_ZOMBIE t).

Lemma kill_loop_spec i stop s l2 : ∀ l1 prev curr fuel,
  path (threads s) stop (l1 ++ prev :: curr :: l2) stop → NoDup (l1 ++ prev :: curr :: l2) →
  stop ∉ curr :: l2 → (length l2 < fuel)%nat →
  (∃ a v p b tp, l1 ++ prev :: curr :: l2 = a ++ v :: p :: b ∧ p ∈ curr :: l2 ∧
     threads s !! p = Some tp ∧ id tp = i ∧
     kill_loop i fuel prev curr stop s = Ok (true, unlinked v p (next tp) killed s)) ∨
  (∀ q t, q ∈ curr :: l2 → threads s !! q = Some t → id t ≠ i) ∧
  kill_loop i fuel prev curr stop s = Ok (false, s).
Proof.
  induction l2 as [|c l2 IH]; intros l1 prev curr fuel Hp Hnd Hstop Hf;
    (destruct fuel as [|fuel]; [lia|]); cbn [kill_loop];
    pose proof Hp as Hp0; apply path_app in Hp0 as (r & _ & -> & tv & Hv & Hnv & tc & Hc & Hrest).
  all: assert (Hne : curr ≠ prev) by
    (apply NoDup_app in Hnd as (_ & _ & [Hn _]%NoDup_cons); intros ->; apply Hn; by left).
  all: rewrite (deref_thread _ _ _ Hc); run; destruct (Z.eqb_spec (id tc) i) as [Hi|Hi];
    [left; eexists l1, prev, curr, _, tc; split_and!; [reflexivity|by left|done|done|];
     exact (unlink_assigns prev curr tc tv killed s (λ s3, Ok (true, s3)) Hc Hv Hne)|].
  - cbn in Hrest. rewrite Hrest, Z.eqb_refl. right. split; [|done].
    intros q t [->|[]%elem_of_nil]%elem_of_cons Ht. congruence.
  - destruct Hrest as [Hnc Hrest]. rewrite Hnc.
    rewrite (proj2 (Z.eqb_neq c stop)) by (intros ->; apply Hstop; set_solver).
    rewrite (cons_middle prev), app_assoc in Hp, Hnd.
    destruct (IH (l1 ++ [prev]) curr c fuel Hp Hnd) as [H|[Hno E]].
    + set_solver.
    + cbn in Hf. lia.
    + left. destruct H as (a & v & p & b & tp & El & Hin & Ht & Hid & E).
      exists a, v, p, b, tp. rewrite <- app_assoc in El. split_and!; try done. set_solver.
    + right. split; [|done]. intros q t [->|Hq]%elem_of_cons Ht; [congruence|by eapply Hno].
Qed.

Lemma sched_threads s l zl p : sched_ok s l zl → p ∈ l → ∃ t, threads s !! p = Some t.
Proof. intros [Hok _] Hp. eapply lists_dom in Hok as [t Ht]; [eauto|]. set_solver. Qed.

(** [thread_kill]: either exactly one thread moves to the zombie list, or none has the id
    or it is refused, and nothing changes. *)
Lemma thread_kill_cases i s cur rest zl :
  sched_ok s (cur :: rest) zl →
  ∃ tc ti, threads s !! cur = Some tc ∧ threads s !! idle_thread_ptr s = Some ti ∧
  ((i = id tc ∨ i = id ti ∨ i = 0) ∧ thread_kill i s = Ok (false, s) ∨
   (i ≠ id tc ∧ i ≠ id ti ∧ i ≠ 0 ∧
    ((∀ q t, q ∈ cur :: rest → threads s !! q = Some t → id t ≠ i) ∧
       thread_kill i s = Ok (false, s) ∨
     ∃ a v p b tp, cur :: rest = a ++ v :: p :: b ∧ threads s !! p = Some tp ∧ id tp = i ∧
       p ≠ idle_thread_ptr s ∧
       thread_kill i s = Ok (true, unlinked v p (next tp) killed s)))).
Proof.
  intros Hok. destruct (sched_threads _ _ _ cur Hok) as [tc Htc]; [by left|].
  destruct (sched_threads _ _ _ (idle_thread_ptr s) Hok) as [ti Hti]; [apply (lo_idle _ _ _ (proj1 Hok))|].
  exists tc, ti. split; [done|]. split; [done|].
  assert (Hcur : current_thread s = cur) by (destruct Hok as [_ Hh]; cbn in Hh; congruence).
  unfold thread_kill. rewrite Hcur, (deref_thread _ _ _ Htc). run. rewrite (deref_thread _ _ _ Hti). run.
  destruct (Z.eqb_spec i (id tc)), (Z.eqb_spec i (id ti)), (Z.eqb_spec i 0); cbn [orb];
    [left; by auto..|]. right. split_and!; try done.
  pose proof (lo_ring _ _ _ (proj1 Hok)) as (Hnd & h & Hh & Hp). cbn in Hh.
  assert (h = cur) as -> by congruence.
  pose proof (ring_size _ _ (lo_ring _ _ _ (proj1 Hok))) as Hsz. cbn in Hsz.
  destruct rest as [|c rest].
  - assert (Hnx : next tc = cur).
    { destruct Hp as (_ & t & Ht & Hn). cbn in Hn. congruence. }
    left. split; [intros q t [->|[]%elem_of_nil]%elem_of_cons Ht; congruence|].
    unfold fuel_of. destruct (size (threads s)); [lia|]. cbn [kill_loop].
    rewrite Hnx, (deref_thread _ _ _ Htc). run.
    rewrite (proj2 (Z.eqb_neq (id tc) i)) by done. by rewrite Hnx, Z.eqb_refl.
  - assert (Hnx : next tc = c).
    { destruct Hp as (_ & t & Ht & Hn & _). congruence. }
    rewrite Hnx. pose proof Hnd as Hnd'. apply NoDup_cons in Hnd' as [Hstop _].
    destruct (kill_loop_spec i cur s rest [] cur c (fuel_of s) Hp Hnd Hstop)
      as [(a & v & p & b & tp & El & Hin & Ht & Hid & E)|[Hno E]]; [unfold fuel_of; cbn in Hsz; lia| |].
    + right. exists a, v, p, b, tp. split_and!; try done. intros ->. congruence.
    + left. split; [|done]. intros q t [->|Hq]%elem_of_cons Ht; [congruence|by eapply Hno].
Qed.

Lemma find_prev_path fuel m p l self :
  path m p (p :: l) self → self ∉ l → (length l < fuel)%nat →
  find_prev fuel m p self = Ok (List.last l p) ∧
  ∃ t, m !! List.last l p = Some t ∧ next t = self.
Proof.
  revert p l. induction fuel as [|fuel IH]; intros p l Hp Hs Hf; [lia|].
  destruct Hp as (_ & t & Hm & Hp). cbn [find_prev]. rewrite (deref_thread _ _ _ Hm). run.
  destruct l as [|b l]; cbn in Hp.
  - rewrite Hp, Z.eqb_refl. split; [done|]. cbn. eauto.
  - destruct Hp as (Hnb & t' & Hm' & Hp). rewrite Hnb.
    rewrite (proj2 (Z.eqb_neq b self)) by (intros ->; apply Hs; by left).
    destruct (IH b l) as [E H]; [cbn; eauto|by (intros H; apply Hs; by right)|cbn in Hf; lia|].
    assert (El : List.last (b :: l) p = List.last l b).
    { destruct l as [|c l]; [done|]. cbn. clear. revert c. by induction l; cbn. }
    rewrite El. done.
Qed.

Definition exited (code : Z) (t : thread_t) : thread_t :=
  set_state THREAD_ZOMBIE (set_exit_code code t).

(** [thread_exit] up to the unlock: the calling thread moves to the zombie list. *)
Lemma exit_unlink_spec s self rest zl code t :
  sched_ok s (self :: rest) zl → threads s !! self = Some t → id t ≠ 0 →
  self ≠ idle_thread_ptr s →
  ∃ prev l1, rest = l1 ++ [prev] ∧
    thread_exit_unlink code s = Ok (unlinked prev self (next t) (exited code) s) ∧
    lists_ok (unlinked prev self (next t) (exited code) s) rest (self :: zl).
Proof.
  intros [Hok Hh] Ht Hid Hni. assert (Hcur : current_thread s = self) by (cbn in Hh; congruence).
  destruct rest as [|prev l1 _] using rev_ind.
  { pose proof (lo_idle _ _ _ Hok) as [|[]%elem_of_nil]%elem_of_cons. congruence. }
  exists prev, l1. split; [done|].
  assert (Hok' : lists_ok s (l1 ++ prev :: self :: []) zl).
  { change (lists_ok s ([self] ++ (l1 ++ [prev])) zl) in Hok. apply lists_rotate in Hok.
    by rewrite <- app_assoc in Hok. }
  split; [|eapply unlinked_lists; [exact Hok'|done|done|done]].
  destruct (lo_ring _ _ _ Hok) as (Hnd & h & Hh' & Hp). cbn in Hh'.
  assert (h = self) as -> by congruence.
  apply NoDup_cons in Hnd as [Hns Hnd].
  set (m1 := <[self := exited code t]> (threads s)).
  assert (Hp1 : path m1 self (self :: l1 ++ [prev]) self).
  { eapply path_same_next; [|exact Hp]. intros q _. unfold m1. destruct (decide (q = self)) as [->|].
    - by rewrite lookup_insert_eq, Ht.
    - by rewrite lookup_insert_ne. }
  pose proof (ring_size _ _ (lo_ring _ _ _ Hok)) as Hsz. cbn in Hsz.
  destruct (find_prev_path (size m1) m1 self (l1 ++ [prev]) self Hp1 Hns) as [Hfp (tv & Htv & _)].
  { unfold m1. rewrite map_size_insert_Some by eauto. lia. }
  rewrite last_last in Hfp, Htv.
  assert (Hne : self ≠ prev) by set_solver.
  unfold thread_exit_unlink. rewrite Hcur, (assign_ok _ _ _ _ Ht). run.
  fold (exited code t) m1. cbn [set_threads threads].
  rewrite (deref_thread m1 self (exited code t)) by apply lookup_insert_eq. run.
  cbn [exited set_state set_exit_code id]. rewrite (proj2 (Z.eqb_neq _ 0) Hid).
  rewrite (proj2 (Z.eqb_neq _ _) Hni). cbn [orb]. unfold fuel_of. cbn [set_threads threads].
  rewrite Hfp. run. rewrite (assign_ok prev _ _ tv) by exact Htv. run.
  unfold push_zombie. rewrite (assign_ok self _ _ (exited code t)).
  2:{ cbn. rewrite lookup_insert_ne by done. apply lookup_insert_eq. }
  run. unfold unlinked. cbn [set_threads threads zombie_list_head].
  change (next (exited code t)) with (next t).
  apply (f_equal (λ m, Ok (set_zombies self (set_threads m s)))). unfold m1 in *. rewrite lookup_insert_ne in Htv by done.
  rewrite (insert_insert_ne _ prev self) by done. rewrite insert_insert_eq.
  rewrite (alter_insert_Some (set_next (next t)) _ _ _ Htv).
  apply (alter_insert_Some (λ t, set_next (zombie_list_head s) (exited code t)) _ self t).
  by rewrite lookup_alter_ne.
Qed.

(** *** What rescheduling leaves alone *)

(** From [s] to [s'] the threads of [l] went through [body], stack pointers and
    the choice of the current thread apart, and nothing else changed. *)
Record resched (body : thread_t → thread_t) (l : list Z) (s s' : sched) : Prop := {
  rs_threads : ∀ p, set_rsp 0 <$> (threads s' !! p) =
    set_rsp 0 <$> (if decide (p ∈ l) then body <$> (threads s !! p) else threads s !! p);
  rs_heap : sc_heap s' = sc_heap s;
  rs_words : stack_words s' = stack_words s;
  rs_idle : idle_thread_ptr s' = idle_thread_ptr s;
  rs_next_id : next_thread_id s' = next_thread_id s;
  rs_zombies : zombie_list_head s' = zombie_list_head s
}.

Lemma switched_resched body l l' n s :
  NoDup l → (∀ p, p ∈ l ↔ p ∈ l') → is_Some (threads s !! n) →
  resched body l' s (switched (update_on body l (threads s)) (current_thread s) n s).
Proof.
  intros Hnd Hl Hn. set (m := update_on body l (threads s)).
  assert (Hm : ∀ p, m !! p = if decide (p ∈ l') then body <$> (threads s !! p) else threads s !! p).
  { intros p. unfold m. rewrite lookup_update_on by done. specialize (Hl p).
    repeat case_decide; tauto. }
  unfold switched. destruct (n =? current_thread s).
  { constructor; try done. intros p. cbn. by rewrite Hm. }
  destruct (is_Some_update_on body l (threads s) n Hnd Hn) as [t Ht]. fold m in Ht. rewrite Ht.
  constructor; try done. intros p. cbn. rewrite <- Hm.
  destruct (decide (p = current_thread s)) as [->|]; [|by rewrite lookup_alter_ne].
  rewrite lookup_alter_eq. by destruct (m !! current_thread s).
Qed.

(** The [body] of a thread that is in [l], read off the state after it. *)
Lemma resched_thread body l s s' p t :
  resched body l s s' → p ∈ l → threads s !! p = Some t →
  ∃ t', threads s' !! p = Some t' ∧ set_rsp 0 t' = set_rsp 0 (body t).
Proof.
  intros [H _ _ _ _ _] Hp Ht. specialize (H p). rewrite decide_True, Ht in H by done. cbn in H.
  destruct (threads s' !! p) as [t'|]; [|done]. exists t'. split; [done|]. apply (inj Some) in H. exact H.
Qed.

Lemma pick_in_zombie m idle cur (scan l : list Z) t :
  (∀ p, p ∈ scan → p ∈ l) → idle ∈ l → m !! cur = Some t → state t = THREAD_ZOMBIE →
  pick m idle cur scan ∈ l.
Proof.
  intros Hs Hi Ht Hz. unfold pick. destruct (find_first _ _ _) as [p|] eqn:E.
  - apply Hs. by eapply find_first_elem.
  - rewrite Ht, Hz. by rewrite bool_decide_eq_false_2.
Qed.

(** [yield] of a thread that is on the zombie list. *)
Lemma yield_zombie_ok s l zl :
  lists_ok s l zl → current_thread s ∈ zl →
  ∃ s' l', yield s = Ok s' ∧ sched_ok s' l' zl ∧ l' ≡ₚ l ∧ resched wake_sleeper l s s'.
Proof.
  intros Hok Hz. set (cur := current_thread s) in *.
  destruct (lists_dom _ _ _ cur Hok) as [t Ht]; [set_solver|].
  pose proof (lo_dead _ _ _ Hok cur t Hz Ht) as Hst.
  pose proof (lo_idle _ _ _ Hok) as Hidle. pose proof (lo_null _ _ _ Hok) as Hnull.
  pose proof Hidle as Hsplit. apply list_elem_of_split in Hsplit as (l1 & l2 & El).
  set (idle := idle_thread_ptr s) in *.
  assert (Hok' : lists_ok s (idle :: l2 ++ l1) zl) by (rewrite El in Hok; by apply lists_rotate in Hok).
  set (m1 := update_on wake_sleeper ((l2 ++ l1) ++ [idle]) (threads s)).
  set (n := pick m1 idle cur ((l2 ++ l1) ++ [idle])).
  assert (Hnd : NoDup ((l2 ++ l1) ++ [idle])).
  { rewrite (Permutation_app_comm _ [idle]). apply (lo_ring _ _ _ Hok'). }
  assert (Hy : yield s = Ok (switched m1 cur n s)).
  { apply yield_gen with (pt := t); try done.
    - intros E. apply Hnull. rewrite <- E. set_solver.
    - intros E. apply Hnull. rewrite <- E. set_solver.
    - by rewrite bool_decide_eq_true_2.
    - apply (lo_ring _ _ _ Hok').
    - by left. }
  assert (Hm1 : ∃ t1, m1 !! cur = Some t1 ∧ state t1 = THREAD_ZOMBIE).
  { unfold m1. rewrite lookup_update_on, Ht by done. destruct (decide _); [|by exists t].
    exists (wake_sleeper t). split; [done|]. by apply tame_wake. }
  destruct Hm1 as (t1 & Ht1 & Hst1).
  assert (Hn : n ∈ idle :: l2 ++ l1) by (eapply pick_in_zombie; [set_solver|by left|done|done]).
  destruct (switched_lists s m1 n (idle :: l2 ++ l1) zl Hok') as [Hok2 Hc2].
  - apply links_update_on; [done|apply tame_wake].
  - intros p Hp. apply is_Some_update_on; [done|]. by eapply lists_dom.
  - done.
  - fold cur in Hok2, Hc2. apply list_elem_of_split in Hn as (k1 & k2 & Ek).
    exists (switched m1 cur n s), (n :: k2 ++ k1). split; [done|]. split; [split|split].
    + rewrite Ek in Hok2. by apply lists_rotate in Hok2.
    + rewrite Hc2. done.
    + rewrite El. change (n :: k2 ++ k1) with ((n :: k2) ++ k1).
      rewrite (Permutation_app_comm (n :: k2) k1), <- Ek, (Permutation_app_comm l1).
      done.
    + apply switched_resched; [done|rewrite El; set_solver|].
      eapply lists_dom; [exact Hok'|]. apply elem_of_app. left. rewrite Ek. set_solver.
Qed.

(** ** Thread structures and stacks are heap blocks *)

(** The blocks a thread owns: its stack, unless it has none, and its structure. *)
Definition owned (m : gmap Z thread_t) (p : Z) : list Z :=
  match m !! p with
  | Some t => if stack_start t =? 0 then [p] else [stack_start t; p]
  | None => []
  end.

Record resources_ok (s : sched) (ps : list Z) (bl : list Heap.blk) : Prop := {
  ro_heap : Heap.heap_ok (sc_heap s) bl;
  ro_nodup : NoDup (ps ≫= owned (threads s));
  ro_live : ∀ q, q ∈ (ps ≫= owned (threads s)) → is_Some (Heap.live bl !! q)
}.

Lemma owned_self m p t : m !! p = Some t → p ∈ owned m p.
Proof. intros H. unfold owned. rewrite H. destruct (_ =? 0); set_solver. Qed.

Lemma owned_same (m m' : gmap Z thread_t) p :
  stack_start <$> (m !! p) = stack_start <$> (m' !! p) → owned m p = owned m' p.
Proof.
  unfold owned. destruct (m !! p) as [t|], (m' !! p) as [t'|]; cbn; intros H; try done.
  injection H as H. by rewrite H.
Qed.

Lemma bind_owned_same (m m' : gmap Z thread_t) ps :
  (∀ p, p ∈ ps → stack_start <$> (m !! p) = stack_start <$> (m' !! p)) →
  ps ≫= owned m = ps ≫= owned m'.
Proof.
  induction ps as [|p ps IH]; intros H; [done|]. cbn.
  rewrite (owned_same m m' p) by (apply H; by left). f_equal. apply IH. intros. apply H. by right.
Qed.

(** Freeing a live block. *)
Lemma kfree_sched s bl p :
  Heap.heap_ok (sc_heap s) bl → is_Some (Heap.live bl !! p) →
  ∃ h' bl', kfree p s = Ok (set_heap h' s) ∧ Heap.heap_ok h' bl' ∧
    Heap.live bl' = delete p (Heap.live bl).
Proof.
  intros Hh [sz Hp]. destruct (Heap.kfree_client _ _ _ _ Hh Hp) as (h' & bl' & E & Hh' & Hl & _).
  exists h', bl'. unfold kfree. rewrite E. run. done.
Qed.

(** Freeing the blocks of one kernel thread. *)
Lemma free_owned s bl p t :
  threads s !! p = Some t → Heap.heap_ok (sc_heap s) bl → NoDup (owned (threads s) p) →
  (∀ q, q ∈ owned (threads s) p → is_Some (Heap.live bl !! q)) →
  ∃ h' bl', (s1 ← (if stack_start t =? 0 then Ok s else kfree (stack_start t) s); kfree p s1) =
      Ok (set_heap h' s) ∧
    Heap.heap_ok h' bl' ∧
    ∀ q, Heap.live bl' !! q =
      if decide (q ∈ owned (threads s) p) then None else Heap.live bl !! q.
Proof.
  intros Ht Hh Hnd Hlive. unfold owned in *. rewrite Ht in *.
  destruct (stack_start t =? 0) eqn:E; run.
  - destruct (kfree_sched s bl p Hh) as (h' & bl' & -> & Hh' & Hl); [apply Hlive; by left|].
    exists h', bl'. split_and!; [done..|]. intros q. rewrite Hl. destruct (decide (q = p)) as [->|].
    + rewrite lookup_delete_eq, decide_True by set_solver. done.
    + rewrite lookup_delete_ne, decide_False by set_solver. done.
  - destruct (kfree_sched s bl (stack_start t) Hh) as (h1 & bl1 & -> & Hh1 & Hl1);
      [apply Hlive; by left|]. run.
    apply NoDup_cons in Hnd as [Hne _].
    destruct (kfree_sched (set_heap h1 s) bl1 p Hh1) as (h' & bl' & -> & Hh' & Hl).
    { rewrite Hl1, lookup_delete_ne by set_solver. apply Hlive. set_solver. }
    exists h', bl'. split_and!; [done..|]. intros q. rewrite Hl.
    destruct (decide (q = p)) as [->|].
    { rewrite lookup_delete_eq, decide_True by set_solver. done. }
    rewrite lookup_delete_ne, Hl1 by done. destruct (decide (q = stack_start t)) as [->|].
    + rewrite lookup_delete_eq, decide_True by set_solver. done.
    + rewrite lookup_delete_ne, decide_False by set_solver. done.
Qed.

(** The blocks of a list of threads of which the first is gone. *)
Lemma owned_delete m p ps : p ∉ ps → ps ≫= owned (delete p m) = ps ≫= owned m.
Proof.
  intros Hp. apply bind_owned_same. intros q Hq. rewrite lookup_delete_ne; [done|]. by intros ->.
Qed.

Lemma cleanup_loop_spec fuel zl : ∀ p s bl,
  path (threads s) p zl 0 → NoDup zl → 0 ∉ zl →
  (∀ q t, q ∈ zl → threads s !! q = Some t → is_user t = false) →
  resources_ok s zl bl → (length zl ≤ fuel)%nat →
  ∃ m' h' bl', cleanup_loop fuel p s = Ok (set_threads m' (set_heap h' s)) ∧
    (∀ q, m' !! q = if decide (q ∈ zl) then None else threads s !! q) ∧
    Heap.heap_ok h' bl' ∧
    (∀ q, Heap.live bl' !! q =
       if decide (q ∈ (zl ≫= owned (threads s))) then None else Heap.live bl !! q).
Proof.
  revert fuel. induction zl as [|a zl IH]; intros fuel p s bl Hp Hnd H0 Hk [Hh Hro Hlive] Hf.
  { cbn in Hp. subst p. exists (threads s), (sc_heap s), bl. split_and!.
    - destruct fuel; cbn; by destruct s.
    - intros q. by rewrite decide_False by apply not_elem_of_nil.
    - done.
    - intros q. by rewrite decide_False by apply not_elem_of_nil. }
  destruct Hp as (-> & t & Ht & Hp). destruct fuel as [|fuel]; [cbn in Hf; lia|].
  apply NoDup_cons in Hnd as [Ha Hnd]. cbn [cleanup_loop].
  rewrite (proj2 (Z.eqb_neq a 0)) by (intros ->; apply H0; by left).
  rewrite (deref_thread _ _ _ Ht). run. rewrite (Hk a t) by (done || by left).
  rewrite bind_cons in Hro, Hlive. apply NoDup_app in Hro as (N1 & N2 & N3).
  destruct (free_owned s bl a t Ht Hh N1) as (h1 & bl1 & E & Hh1 & Hl1).
  { intros q Hq. apply Hlive. set_solver. }
  destruct (if stack_start t =? 0 then Ok s else kfree (stack_start t) s) as [s1| | |];
    run; cbn in E; try done. rewrite E. run.
  set (s2 := set_threads (delete a (threads (set_heap h1 s))) (set_heap h1 s)).
  destruct (IH fuel (next t) s2 bl1) as (m' & h' & bl' & E' & Hm' & Hh' & Hl').
  - eapply path_same_next; [|exact Hp]. intros q Hq. cbn. rewrite lookup_delete_ne; [done|].
    by intros ->.
  - done.
  - set_solver.
  - intros q tq Hq Htq. apply (Hk q); [by right|]. cbn in Htq.
    by apply lookup_delete_Some in Htq as [_ ?].
  - constructor; cbn [s2 set_threads set_heap threads sc_heap]; rewrite ?owned_delete by done;
      [done|done|]. intros q Hq. rewrite Hl1, decide_False by (intros Hq'; by apply (N2 q)).
    apply Hlive. set_solver.
  - cbn in Hf. lia.
  - exists m', h', bl'. split; [rewrite E'; done|]. split; [|split; [done|]].
    + intros q. rewrite Hm'. cbn. destruct (decide (q ∈ zl)).
      * by rewrite decide_True by by right.
      * destruct (decide (q = a)) as [->|].
        -- rewrite decide_True by by left. apply lookup_delete_eq.
        -- rewrite decide_False by set_solver. by apply lookup_delete_ne.
    + intros q. rewrite Hl', Hl1. cbn [s2 set_threads set_heap threads].
      rewrite owned_delete by done. rewrite bind_cons.
      repeat case_decide; try done; set_solver.
Qed.

(** ** Creating a kernel thread *)

Lemma kmalloc_sched s bl sz :
  Heap.heap_ok (sc_heap s) bl → 0 ≤ sz < 2 ^ 63 →
  ∃ p h' bl', kmalloc sz s = Ok (p, set_heap h' s) ∧ Heap.heap_ok h' bl' ∧
    (p = 0 ∧ Heap.live bl' = Heap.live bl ∨
     0 < p ∧ p + sz < 2 ^ 64 ∧ Heap.live bl !! p = None ∧
     ∃ s', Heap.live bl' = <[p := s']> (Heap.live bl)).
Proof.
  intros Hh Hsz. destruct (Heap.kmalloc_client _ _ _ Hh Hsz) as (p & h' & bl' & E & Hh' & Hc).
  exists p, h', bl'. unfold kmalloc. rewrite E. run. split; [done|]. split; [done|].
  destruct Hc as [(-> & Hl & _)|(s' & H1 & _ & H2 & H3 & H4 & H5 & _)]; [by left|right].
  pose proof (Heap.ho_break _ _ Hh'). unfold PAGE_SIZE, Heap.sizeof_heap_block in *.
  split_and!; [lia|lia|done|eauto].
Qed.

(** The words pushed, below the old stack pointer. *)
Lemma push_words_spec ws : ∀ sp m,
  8 * Z.of_nat (length ws) ≤ sp < 2 ^ 64 →
  ∃ m', push_words sp ws m = (sp - 8 * Z.of_nat (length ws), m') ∧
    (∀ i w, ws !! i = Some w → m' !! (sp - 8 * Z.of_nat (S i)) = Some w) ∧
    (∀ a, sp ≤ a → m' !! a = m !! a).
Proof.
  induction ws as [|w ws IH]; intros sp m Hsp; cbn [push_words length] in *.
  { exists m. split; [f_equal; lia|]. split; [intros i w; by rewrite lookup_nil|done]. }
  rewrite wrap_small by lia.
  destruct (IH (sp - 8) (<[sp - 8 := w]> m)) as (m' & E & Hw & Ho); [lia|].
  exists m'. split; [rewrite E; f_equal; lia|]. split.
  - intros [|i] x Hx; cbn in Hx.
    + injection Hx as <-. rewrite Ho by lia. replace (sp - 8 * Z.of_nat 1) with (sp - 8) by lia.
      apply lookup_insert_eq.
    + rewrite <- (Hw i x Hx). f_equal. lia.
  - intros a Ha. rewrite Ho by lia. apply lookup_insert_ne. lia.
Qed.

(** A fresh thread that starts at [entry] when it is switched to, and goes to
    [texit] when [entry] returns. *)
Definition fresh_thread (texit entry : Z) (nm : list Z) (stack : Z) (t : thread_t)
  (words : gmap Z Z) : Prop :=
  stack_start t = stack ∧ is_user t = false ∧ state t = THREAD_READY ∧ name t = take 15 nm ∧
  stack ≤ rsp t ∧ rsp t + 72 = stack + KSTACK_SIZE ∧
  words !! (rsp t + 56) = Some entry ∧ words !! (rsp t + 64) = Some texit.

Lemma thread_create_spec texit entry nm s bl :
  Heap.heap_ok (sc_heap s) bl →
  ∃ t s' bl', thread_create texit entry (Some nm) s = Ok (t, s') ∧ Heap.heap_ok (sc_heap s') bl' ∧
    (∀ q, is_Some (Heap.live bl !! q) → is_Some (Heap.live bl' !! q)) ∧
    current_thread s' = current_thread s ∧ idle_thread_ptr s' = idle_thread_ptr s ∧
    next_thread_id s' = next_thread_id s ∧ zombie_list_head s' = zombie_list_head s ∧
    (t = 0 ∧ threads s' = threads s ∨
     ∃ stack th, 0 < t ∧ 0 < stack ∧ t ≠ stack ∧ threads s' = <[t := th]> (threads s) ∧
       fresh_thread texit entry nm stack th (stack_words s') ∧
       Heap.live bl !! t = None ∧ Heap.live bl !! stack = None ∧
       is_Some (Heap.live bl' !! t) ∧ is_Some (Heap.live bl' !! stack)).
Proof.
  intros Hh. unfold thread_create.
  destruct (kmalloc_sched s bl sizeof_thread_t Hh) as (t & h1 & bl1 & -> & Hh1 & C1);
    [unfold sizeof_thread_t; lia|]. run.
  destruct (kmalloc_sched (set_heap h1 s) bl1 KSTACK_SIZE Hh1) as (k & h2 & bl2 & -> & Hh2 & C2);
    [unfold KSTACK_SIZE; lia|]. run.
  assert (Hmono : ∀ q, is_Some (Heap.live bl !! q) → is_Some (Heap.live bl2 !! q)).
  { intros q Hq.
    assert (Hq1 : is_Some (Heap.live bl1 !! q)).
    { destruct C1 as [[_ ->]|(_ & _ & _ & x & ->)]; [done|]. by apply lookup_insert_is_Some'; right. }
    destruct C2 as [[_ ->]|(_ & _ & _ & x & ->)]; [done|]. by apply lookup_insert_is_Some'; right. }
  destruct C2 as [[-> _]|(K1 & K2 & K3 & xk & K4)].
  { exists 0, (set_heap h2 (set_heap h1 s)), bl2. cbn. split_and!; try done. by left. }
  destruct C1 as [[-> _]|(T1 & T2 & T3 & xt & T4)].
  { rewrite (proj2 (Z.eqb_neq k 0)) by lia. cbn [orb Z.eqb].
    exists 0, (set_heap h2 (set_heap h1 s)), bl2. split_and!; try done. by left. }
  rewrite (proj2 (Z.eqb_neq k 0)), (proj2 (Z.eqb_neq t 0)) by lia. cbn [orb].
  unfold KSTACK_SIZE in K2. rewrite wrap_small by lia.
  destruct (push_words_spec [texit; entry; 0x202; 0; 0; 0; 0; 0; 0] (k + 16384)
    (stack_words (set_heap h2 (set_heap h1 s)))) as (w & -> & Hw & _); [cbn; lia|].
  cbn [length Z.of_nat] in *. eexists t, _, bl2. split; [reflexivity|].
  split; [exact Hh2|]. split; [exact Hmono|]. do 4 (split; [done|]). right.
  assert (Htk : t ≠ k) by (intros ->; rewrite T4, lookup_insert_eq in K3; done).
  eexists k, _. split; [done|]. split; [done|]. split; [done|]. split; [reflexivity|].
  split; [|split; [done|split]].
  - unfold fresh_thread, KSTACK_SIZE. cbn. split_and!; try done; try lia.
    + rewrite <- (Hw 1%nat entry eq_refl). f_equal. cbn. lia.
    + rewrite <- (Hw 0%nat texit eq_refl). f_equal. cbn. lia.
  - rewrite T4, lookup_insert_ne in K3 by done. done.
  - rewrite K4, T4. split; [|by rewrite lookup_insert_eq].
    rewrite lookup_insert_ne, lookup_insert_eq by done. done.
Qed.

(** The map after [t] was linked behind [cur]. *)
Definition linked (cur t n : Z) (ct th : thread_t) (m : gmap Z thread_t) : gmap Z thread_t :=
  <[cur := set_next t ct]> (<[t := set_next (next ct) (set_id n th)]> m).

Lemma thread_link_eq s t th ct :
  threads s !! t = Some th → threads s !! current_thread s = Some ct → t ≠ current_thread s →
  thread_link t s =
    Ok (set_threads (linked (current_thread s) t (next_thread_id s) ct th (threads s))
          (set_next_id (u32 (next_thread_id s + 1)) s)).
Proof.
  intros Ht Hc Hne. unfold thread_link. rewrite (assign_ok _ _ _ _ Ht). run.
  cbn [set_threads threads current_thread].
  rewrite (deref_thread _ _ ct) by (rewrite lookup_insert_ne by done; exact Hc). run.
  rewrite (assign_ok t _ _ (set_id (next_thread_id s) th)) by (cbn; apply lookup_insert_eq). run.
  cbn [set_threads set_next_id threads current_thread]. rewrite insert_insert_eq.
  rewrite (assign_ok _ _ _ ct) by (cbn; rewrite lookup_insert_ne by done; exact Hc). done.
Qed.

Lemma linked_lists s s' cur rest zl t th ct n :
  lists_ok s (cur :: rest) zl → threads s !! cur = Some ct → t ∉ (cur :: rest) ++ zl → t ≠ 0 →
  state th ≠ THREAD_ZOMBIE → threads s' = linked cur t n ct th (threads s) →
  zombie_list_head s' = zombie_list_head s → idle_thread_ptr s' = idle_thread_ptr s →
  lists_ok s' (cur :: t :: rest) zl.
Proof.
  intros [H1 H2 H3 H4 H5 H6 H7] Hct Ht H0 Hth Em Ez Ei.
  destruct H1 as (Hnd & h & Hh & Hp). cbn in Hh. assert (h = cur) as -> by congruence.
  assert (Hd : t ≠ cur ∧ (t ∉ rest) ∧ (t ∉ zl)) by set_solver. destruct Hd as (Dc & Dr & Dz).
  apply NoDup_cons in Hnd as Hnc. destruct Hnc as [Hcr Hndr].
  assert (Hlk : ∀ q, q ≠ cur → q ≠ t → threads s' !! q = threads s !! q).
  { intros q Q1 Q2. rewrite Em. unfold linked. by rewrite !lookup_insert_ne. }
  assert (Hcur' : threads s' !! cur = Some (set_next t ct)) by (rewrite Em; apply lookup_insert_eq).
  assert (Ht' : threads s' !! t = Some (set_next (next ct) (set_id n th))).
  { rewrite Em. unfold linked. rewrite lookup_insert_ne by done. apply lookup_insert_eq. }
  assert (Hzc : cur ∉ zl).
  { apply NoDup_app in H3 as (_ & Hd & _). apply Hd. by left. }
  constructor; rewrite ?Ez, ?Ei.
  - split; [constructor; [set_solver|by constructor]|]. exists cur. split; [done|].
    cbn. split; [done|]. eexists. split; [exact Hcur'|]. cbn. split; [done|].
    eexists. split; [exact Ht'|]. cbn. destruct Hp as (_ & ct' & Hct' & Hp).
    rewrite Hct in Hct'. injection Hct' as <-.
    eapply path_same_next; [|exact Hp]. intros q Hq. rewrite Hlk; [done| |]; by intros ->.
  - eapply path_same_next; [|exact H2]. intros q Hq. rewrite Hlk; [done| |]; by intros ->.
  - assert (E : (cur :: t :: rest) ++ zl ≡ₚ t :: (cur :: rest) ++ zl) by (cbn; apply perm_swap).
    rewrite E. by constructor.
  - set_solver.
  - set_solver.
  - intros q u Hq Hu. destruct (decide (q = cur)) as [->|Q1].
    + rewrite Hcur' in Hu. injection Hu as <-. cbn. eapply H6; [by left|done].
    + destruct (decide (q = t)) as [->|Q2].
      * rewrite Ht' in Hu. injection Hu as <-. done.
      * rewrite Hlk in Hu by done. assert (q ∈ cur :: rest) by set_solver. by eapply H6.
  - intros q u Hq Hu. rewrite Hlk in Hu; [by eapply H7| |]; by intros ->.
Qed.

(** The blocks owned after [t] was linked. *)
Lemma linked_resources s s' cur rest zl t th ct n bl bl' :
  lists_ok s (cur :: rest) zl → resources_ok s ((cur :: rest) ++ zl) bl →
  threads s !! cur = Some ct → t ∉ (cur :: rest) ++ zl →
  threads s' = linked cur t n ct th (threads s) →
  Heap.heap_ok (sc_heap s') bl' → stack_start th ≠ 0 → t ≠ stack_start th →
  (∀ q, is_Some (Heap.live bl !! q) → is_Some (Heap.live bl' !! q)) →
  Heap.live bl !! t = None → Heap.live bl !! stack_start th = None →
  is_Some (Heap.live bl' !! t) → is_Some (Heap.live bl' !! stack_start th) →
  resources_ok s' ((cur :: t :: rest) ++ zl) bl'.
Proof.
  intros Hok [R1 R2 R3] Hct Ht Em Hh Hs0 Hts Hmono L1 L2 L3 L4.
  assert (Hd : t ≠ cur) by set_solver.
  set (os := ((cur :: rest) ++ zl) ≫= owned (threads s)) in *.
  assert (Eo : ((cur :: t :: rest) ++ zl) ≫= owned (threads s') ≡ₚ [stack_start th; t] ++ os).
  { assert (E1 : (cur :: t :: rest) ++ zl ≡ₚ t :: (cur :: rest) ++ zl) by (cbn; apply perm_swap).
    rewrite E1. rewrite bind_cons. unfold os. f_equiv.
    - unfold owned. rewrite Em. unfold linked. rewrite lookup_insert_ne, lookup_insert_eq by done.
      cbn. by rewrite (proj2 (Z.eqb_neq _ 0) Hs0).
    - rewrite (bind_owned_same (threads s') (threads s)); [done|]. intros q Hq. rewrite Em. unfold linked.
      destruct (decide (q = cur)) as [->|]; [by rewrite lookup_insert_eq, Hct|].
      rewrite !lookup_insert_ne; [done|by intros <-|by intros <-]. }
  constructor; [done| |].
  - rewrite Eo. apply NoDup_app. split; [|split; [|done]].
    + constructor; [set_solver|]. apply NoDup_singleton.
    + intros q Hq Hos. destruct (R3 q Hos) as [x Hx].
      apply elem_of_cons in Hq as [->|Hq]; [congruence|].
      apply elem_of_cons in Hq as [->|[]%elem_of_nil]. congruence.
  - intros q. rewrite Eo. intros [Hq|Hq]%elem_of_app; [|auto].
    apply elem_of_cons in Hq as [->|Hq]; [done|].
    by apply elem_of_cons in Hq as [->|[]%elem_of_nil].
Qed.

(** A pointer the heap gave out just now is not a thread. *)
Lemma fresh_not_thread s ps zl bl t :
  lists_ok s ps zl → resources_ok s (ps ++ zl) bl → Heap.live bl !! t = None → t ∉ ps ++ zl.
Proof.
  intros Hok [_ _ Hlive] Ht Hin. destruct (lists_dom _ _ _ t Hok Hin) as [th Hth].
  destruct (Hlive t) as [x Hx]; [|congruence].
  apply list_elem_of_bind. exists t. split; [by eapply owned_self|done].
Qed.

(** ** Results: the scheduler *)

(** Ready once [yield] has woken the sleepers whose ticks ran out, and not the
    idle thread. *)
Definition awake (s : sched) (p : Z) : Prop :=
  p ≠ idle_thread_ptr s ∧ ∃ t, threads s !! p = Some t ∧
    (state t = THREAD_READY ∨ state t = THREAD_SLEEPING ∧ sleep_ticks t = 0).

Lemma awake_runnable s l p :
  NoDup l → p ∈ l → is_Some (threads s !! p) →
  (∃ t, update_on wake_sleeper l (threads s) !! p = Some t ∧
     runnable (idle_thread_ptr s) p t = true) ↔ awake s p.
Proof.
  intros Hnd Hp [t Ht]. rewrite lookup_update_on, decide_True, Ht by done.
  unfold awake, runnable. rewrite Ht. split.
  - intros (u & [= <-] & [Hr Hi]%andb_prop). apply negb_true_iff, Z.eqb_neq in Hi.
    split; [done|]. exists t. split; [done|]. revert Hr. unfold wake_sleeper.
    destruct (bool_decide_reflect (state t = THREAD_SLEEPING)) as [Es|_]; cbn;
      [|rewrite bool_decide_eq_true; by left].
    destruct (Z.eqb_spec (sleep_ticks t) 0); [by right|].
    rewrite bool_decide_eq_true. by left.
  - intros (Hi & u & [= <-] & Hs). exists (wake_sleeper t). split; [done|].
    rewrite (proj2 (Z.eqb_neq _ _) Hi). cbn. rewrite andb_true_r. apply bool_decide_eq_true.
    destruct Hs as [Hs|[Hs Hz]]; [by apply wake_ready|].
    unfold wake_sleeper. rewrite bool_decide_eq_true_2 by done. by rewrite Hz.
Qed.

(** [pick] in terms of the states before the wake-up. *)
Lemma pick_awake s cur rest zl :
  sched_ok s (cur :: rest) zl →
  let n := pick (update_on wake_sleeper (rest ++ [cur]) (threads s)) (idle_thread_ptr s) cur
             (rest ++ [cur]) in
  (∃ i, (rest ++ [cur]) !! i = Some n ∧ awake s n ∧
     ∀ j q, (j < i)%nat → (rest ++ [cur]) !! j = Some q → ¬ awake s q) ∨
  n = idle_thread_ptr s ∧ ∀ q, q ∈ cur :: rest → ¬ awake s q.
Proof.
  intros Hok n.
  assert (Hnd : NoDup (rest ++ [cur])).
  { rewrite (Permutation_app_comm rest [cur]). apply (lo_ring _ _ _ (proj1 Hok)). }
  assert (Hdom : ∀ q, q ∈ rest ++ [cur] → is_Some (threads s !! q)).
  { intros q Hq. eapply lists_dom; [exact (proj1 Hok)|]. set_solver. }
  set (m := update_on wake_sleeper (rest ++ [cur]) (threads s)) in *. unfold pick in n.
  destruct (find_first (runnable (idle_thread_ptr s)) m (rest ++ [cur])) as [p|] eqn:E.
  - left. apply find_first_Some in E as (i & t & Hi & Ht & Hr & Hb). exists i.
    assert (Hp := list_elem_of_lookup_2 _ _ _ Hi). split; [done|]. split.
    + apply (awake_runnable s (rest ++ [cur])); eauto.
    + intros j q Hj Hq Ha. assert (Hq' := list_elem_of_lookup_2 _ _ _ Hq).
      apply (awake_runnable s (rest ++ [cur])) in Ha as (u & Hu & Hru); auto.
      rewrite (Hb j q u) in Hru; done.
  - right. assert (Hnone : ∀ q, q ∈ cur :: rest → ¬ awake s q).
    { intros q Hq Ha. assert (Hq' : q ∈ rest ++ [cur]) by set_solver.
      apply (awake_runnable s (rest ++ [cur])) in Ha as (u & Hu & Hru); auto.
      rewrite (find_first_None _ _ _ q u E Hq' Hu) in Hru. done. }
    split; [|done]. unfold n. destruct (m !! cur) as [t|] eqn:Et; [|done].
    case_bool_decide as Hs; [|done].
    destruct (decide (cur = idle_thread_ptr s)) as [|Hne]; [done|].
    destruct (Hnone cur); [by left|]. apply (awake_runnable s (rest ++ [cur])); [done|set_solver|apply Hdom; set_solver|].
    exists t. split; [done|]. unfold runnable. rewrite bool_decide_eq_true_2 by done.
    by rewrite (proj2 (Z.eqb_neq _ _) Hne).
Qed.

(** *** Yielding, ticking and sleeping *)

Lemma yield_resched s l zl :
  sched_ok s l zl →
  ∃ s' l', yield s = Ok s' ∧ sched_ok s' l' zl ∧ l' ≡ₚ l ∧ resched wake_sleeper l s s'.
Proof.
  intros Hok. destruct l as [|cur rest]; [by destruct Hok|].
  destruct (yield_ok s cur rest zl Hok) as (E & Hn & Hrot).
  set (m1 := update_on _ _ _) in *. set (n := pick _ _ _ _) in *.
  pose proof Hn as Hsp. apply list_elem_of_split in Hsp as (l1 & l2 & El).
  eexists _, _. split; [exact E|]. split; [exact (Hrot _ _ El)|]. split.
  - rewrite El. change (n :: l2 ++ l1) with ((n :: l2) ++ l1). apply Permutation_app_comm.
  - assert (Hc : cur = current_thread s) by (destruct Hok as [_ Hh]; cbn in Hh; congruence).
    rewrite Hc at 2. apply switched_resched.
    + rewrite (Permutation_app_comm rest [cur]). apply (lo_ring _ _ _ (proj1 Hok)).
    + set_solver.
    + eapply lists_dom; [exact (proj1 Hok)|]. set_solver.
Qed.

(** A timer interrupt: one tick for every thread, then [yield]. *)
Definition tick_and_wake (t : thread_t) : thread_t := wake_sleeper (tick_thread t).

Lemma tick_resched s l zl :
  sched_ok s l zl →
  ∃ s' l', tick_threads s = Ok s' ∧ sched_ok s' l' zl ∧ l' ≡ₚ l ∧ resched tick_and_wake l s s'.
Proof.
  intros Hok. destruct (tick_threads_eq s l zl Hok) as [-> Hok1];
    [by eapply sched_current_nonzero|].
  destruct (yield_resched _ l zl Hok1) as (s' & l' & E & Hok' & Hl & [R1 R2 R3 R4 R5 R6]).
  exists s', l'. split_and!; try done. constructor; try done. intros p. rewrite R1.
  cbn [set_threads threads]. rewrite lookup_update_on by apply (lo_ring _ _ _ (proj1 Hok)).
  case_decide; [|done]. by destruct (threads s !! p).
Qed.

(** One tick of a sleeping thread. *)
Lemma tick_sleeping t :
  state t = THREAD_SLEEPING → 0 < sleep_ticks t < 2 ^ 32 →
  sleep_ticks (tick_and_wake t) = sleep_ticks t - 1 ∧
  state (tick_and_wake t) = if sleep_ticks t =? 1 then THREAD_READY else THREAD_SLEEPING.
Proof.
  intros Hs Ht. unfold tick_and_wake, tick_thread. rewrite bool_decide_eq_true_2 by done.
  rewrite (proj2 (Z.ltb_lt _ _)) by lia. cbn [sleep_ticks set_sleep]. rewrite wrap_small by lia.
  destruct (Z.eqb_spec (sleep_ticks t - 1) 0), (Z.eqb_spec (sleep_ticks t) 1); try lia;
    unfold wake_sleeper; cbn [sleep_ticks set_sleep set_state state].
  - done.
  - rewrite bool_decide_eq_true_2 by done. rewrite (proj2 (Z.eqb_neq _ _)) by lia. done.
Qed.

(** The interrupts of a sleep: after [k] of them the thread is ready if that was
    the last of its ticks, and still asleep before. *)
Lemma sleep_counts k : ∀ s l zl p t,
  sched_ok s l zl → p ∈ l → threads s !! p = Some t → state t = THREAD_SLEEPING →
  Z.of_nat k ≤ sleep_ticks t < 2 ^ 32 → 0 < sleep_ticks t →
  ∃ s' l' t', ticks k s = Ok s' ∧ sched_ok s' l' zl ∧ l' ≡ₚ l ∧
    idle_thread_ptr s' = idle_thread_ptr s ∧ threads s' !! p = Some t' ∧
    state t' = (if sleep_ticks t =? Z.of_nat k then THREAD_READY else THREAD_SLEEPING).
Proof.
  induction k as [|k IH]; intros s l zl p t Hok Hp Ht Hs Hk H0.
  { exists s, l, t. rewrite (proj2 (Z.eqb_neq _ _)) by lia. done. }
  destruct (tick_resched s l zl Hok) as (s1 & l1 & E & Hok1 & Hl1 & Hr).
  destruct (resched_thread _ _ _ _ p t Hr Hp Ht) as (t1 & Ht1 & Et).
  destruct (tick_sleeping t Hs) as [Hst Hss]; [lia|].
  assert (E1 : sleep_ticks t1 = sleep_ticks t - 1).
  { rewrite <- Hst. exact (f_equal sleep_ticks Et). }
  assert (E2 : state t1 = if sleep_ticks t =? 1 then THREAD_READY else THREAD_SLEEPING).
  { rewrite <- Hss. exact (f_equal state Et). }
  cbn [ticks]. rewrite E. run. destruct (Z.eqb_spec (sleep_ticks t) 1) as [H1|H1].
  - assert (k = O) as -> by lia. exists s1, l1, t1. cbn [ticks].
    rewrite (rs_idle _ _ _ _ Hr). rewrite (proj2 (Z.eqb_eq _ _)) by lia. done.
  - destruct (IH s1 l1 zl p t1 Hok1) as (s' & l' & t' & -> & Hok' & Hl' & Hi & Ht' & Hs');
      [by rewrite Hl1|done|done|lia|lia|].
    exists s', l', t'. rewrite Hi, (rs_idle _ _ _ _ Hr). split_and!; try done.
    + by rewrite Hl'.
    + rewrite Hs', E1. do 2 f_equal.
      destruct (Z.eqb_spec (sleep_ticks t - 1) (Z.of_nat k)), (Z.eqb_spec (sleep_ticks t) (Z.of_nat (S k))); (done || lia).
Qed.

Lemma ticks_app j k s s1 : ticks j s = Ok s1 → ticks (j + k) s = ticks k s1.
Proof.
  revert s. induction j as [|j IH]; intros s; cbn [ticks Nat.add]; [by intros [= ->]|].
  intros H. inv_ok H. rewrite E. run. auto.
Qed.

(** *** Ownership is unaffected by scheduling *)

(** What of a thread decides what is freed with it. *)
Definition owner (t : thread_t) : Z * bool := (stack_start t, is_user t).
Definition same_owner (m m' : gmap Z thread_t) : Prop :=
  ∀ p, owner <$> (m !! p) = owner <$> (m' !! p).

(** Kernel threads that own their blocks of the heap. *)
Definition kernel_ok (s : sched) (ps : list Z) (bl : list Heap.blk) : Prop :=
  resources_ok s ps bl ∧ ∀ p t, p ∈ ps → threads s !! p = Some t → is_user t = false.

Lemma kernel_ok_same s s' ps ps' bl :
  kernel_ok s ps bl → sc_heap s' = sc_heap s → same_owner (threads s) (threads s') → ps' ≡ₚ ps →
  kernel_ok s' ps' bl.
Proof.
  intros [[H1 H2 H3] H4] Hh Ho Hps.
  assert (E : ps' ≫= owned (threads s') ≡ₚ ps ≫= owned (threads s)).
  { rewrite Hps. rewrite (bind_owned_same (threads s') (threads s)); [done|]. intros p _.
    specialize (Ho p). unfold owner in Ho.
    destruct (threads s !! p), (threads s' !! p); cbn in Ho |- *; try done.
    injection Ho as Ho _. by rewrite Ho. }
  split; [constructor|].
  - by rewrite Hh.
  - by rewrite E.
  - intros q. rewrite E. apply H3.
  - intros p t Hp Ht. rewrite Hps in Hp. specialize (Ho p). rewrite Ht in Ho.
    destruct (threads s !! p) as [u|] eqn:Hu; cbn in Ho; [|done].
    injection Ho as _ Hi. rewrite <- Hi. by eapply H4.
Qed.

Lemma same_owner_alter f p m : (∀ t, owner (f t) = owner t) → same_owner m (alter f p m).
Proof.
  intros Hf q. destruct (decide (q = p)) as [->|]; [|by rewrite lookup_alter_ne].
  rewrite lookup_alter_eq. destruct (m !! p); cbn; [by rewrite Hf|done].
Qed.

Lemma same_owner_trans m1 m2 m3 : same_owner m1 m2 → same_owner m2 m3 → same_owner m1 m3.
Proof. intros H1 H2 p. by rewrite H1. Qed.

Lemma resched_owner body l s s' :
  (∀ t, owner (body t) = owner t) → resched body l s s' → same_owner (threads s) (threads s').
Proof.
  intros Hb [H _ _ _ _ _] p. specialize (H p).
  assert (E : owner <$> (threads s' !! p) = owner <$> (set_rsp 0 <$> (threads s' !! p)))
    by by destruct (threads s' !! p).
  rewrite E, H. case_decide; destruct (threads s !! p); cbn; try done.
  change (Some (owner t) = Some (owner (body t))). by rewrite Hb.
Qed.

Lemma wake_fields t :
  rsp (wake_sleeper t) = rsp t ∧ stack_start (wake_sleeper t) = stack_start t ∧
  is_user (wake_sleeper t) = is_user t.
Proof. unfold wake_sleeper. by destruct (_ && _). Qed.
Lemma owner_wake t : owner (wake_sleeper t) = owner t.
Proof. unfold wake_sleeper. by destruct (_ && _). Qed.
Lemma owner_tick t : owner (tick_thread t) = owner t.
Proof.
  unfold tick_thread. destruct (is_state _ _); [|done].
  destruct (0 <? sleep_ticks t); cbn; by destruct (_ =? 0).
Qed.
Lemma owner_blocked t : owner (wake_blocked t) = owner t.
Proof. unfold wake_blocked. by destruct (is_state _ _). Qed.

Lemma unlinked_owner prev p nx f s :
  (∀ t, owner (f t) = owner t) → same_owner (threads s) (threads (unlinked prev p nx f s)).
Proof.
  intros Hf. unfold unlinked. cbn. eapply same_owner_trans; apply same_owner_alter; [done|].
  intros t. apply (Hf t).
Qed.

(** *** The invariant of a running system of kernel threads *)

Definition system_ok (s : sched) : Prop :=
  ∃ l zl bl, sched_ok s l zl ∧ kernel_ok s (l ++ zl) bl.

Lemma resched_system body s s' l l' zl bl :
  (∀ t, owner (body t) = owner t) → sched_ok s' l' zl → l' ≡ₚ l → resched body l s s' →
  kernel_ok s (l ++ zl) bl → system_ok s'.
Proof.
  intros Hb Hok Hl Hr Hk. exists l', zl, bl. split; [done|].
  eapply kernel_ok_same; [exact Hk|by apply (rs_heap _ _ _ _ Hr)|by eapply resched_owner|].
  by rewrite Hl.
Qed.

Lemma yield_system s : system_ok s → ∃ s', yield s = Ok s' ∧ system_ok s'.
Proof.
  intros (l & zl & bl & Hok & Hk). destruct (yield_resched s l zl Hok) as (s' & l' & E & Hok' & Hl & Hr).
  exists s'. split; [done|]. by eapply resched_system; [apply owner_wake|..].
Qed.

Lemma tick_system s : system_ok s → ∃ s', tick_threads s = Ok s' ∧ system_ok s'.
Proof.
  intros (l & zl & bl & Hok & Hk). destruct (tick_resched s l zl Hok) as (s' & l' & E & Hok' & Hl & Hr).
  exists s'. split; [done|].
  eapply resched_system; [|done..]. intros t. unfold tick_and_wake. by rewrite owner_wake, owner_tick.
Qed.

Lemma wakeup_system s : system_ok s → ∃ s', thread_wakeup_blocked s = Ok s' ∧ system_ok s'.
Proof.
  intros (l & zl & bl & Hok & Hk). unfold thread_wakeup_blocked.
  rewrite (proj2 (Z.eqb_neq _ 0)) by by eapply sched_current_nonzero.
  destruct (ring_update_sched wake_blocked s l zl Hok tame_blocked) as [-> Hok']. run.
  eexists. split; [reflexivity|]. exists l, zl, bl. split; [done|].
  eapply kernel_ok_same; [exact Hk|done| |done]. intros p. cbn [set_threads threads].
  rewrite lookup_update_on by apply (lo_ring _ _ _ (proj1 Hok)). case_decide; [|done].
  destruct (threads s !! p); cbn; [by rewrite owner_blocked|done].
Qed.

(** Changing the current thread without ending it. *)
Lemma assign_current_system f s :
  system_ok s → (∀ t, owner (f t) = owner t ∧ next (f t) = next t ∧ state (f t) ≠ THREAD_ZOMBIE) →
  ∃ s', assign (current_thread s) f s = Ok s' ∧ system_ok s'.
Proof.
  intros (l & zl & bl & Hok & Hk) Hf.
  assert (Hc : current_thread s ∈ l).
  { destruct Hok as [_ Hh]. destruct l; [done|]. cbn in Hh. injection Hh as ->. by left. }
  destruct (sched_threads _ _ _ _ Hok Hc) as [t Ht]. rewrite (assign_ok _ _ _ _ Ht).
  eexists. split; [reflexivity|]. exists l, zl, bl. rewrite (alter_insert_Some _ _ _ _ Ht). split.
  - destruct Hok as [Hok Hh]. split; [|done].
    eapply lists_ok_links; [exact Hok| | |done|done]; cbn [set_threads threads].
    + intros q Hq u Hu. destruct (decide (q = current_thread s)) as [->|].
      * rewrite lookup_alter_eq, Ht in Hu. injection Hu as <-. exists t.
        split; [done|]. split; [apply Hf|]. split; intros H; [by destruct (Hf t) as (_ & _ & [])|].
        by destruct (lo_alive _ _ _ Hok _ _ Hc Ht).
      * rewrite lookup_alter_ne in Hu by done. by exists u.
    + intros q Hq. apply is_Some_alter. by eapply lists_dom.
  - eapply kernel_ok_same; [exact Hk|done| |done]. apply same_owner_alter. intros u. apply Hf.
Qed.

Lemma sleep_system ms s : system_ok s → ∃ s', thread_sleep ms s = Ok s' ∧ system_ok s'.
Proof.
  intros H. unfold thread_sleep.
  destruct (assign_current_system (λ t, set_state THREAD_SLEEPING
    (set_sleep (if ms / 10 =? 0 then 1 else ms / 10) t)) s H) as (s1 & -> & H1); [done|].
  run. by apply yield_system.
Qed.

Lemma kill_system i s : system_ok s → ∃ b s', thread_kill i s = Ok (b, s') ∧ system_ok s'.
Proof.
  intros (l & zl & bl & Hok & Hk). destruct l as [|cur rest]; [by destruct Hok|].
  assert (Hs : system_ok s) by by exists (cur :: rest), zl, bl.
  destruct (thread_kill_cases i s cur rest zl Hok)
    as (tc & ti & Htc & Hti & [(_ & ->)|(N1 & N2 & N3 & [(_ & ->)|(a & v & p & b & tp & El & Hp & Hi & Hni & ->)])]);
    [by eauto..|].
  eexists _, _. split; [reflexivity|]. destruct Hok as [Hok Hh]. rewrite El in Hok, Hh.
  exists (a ++ v :: b), (p :: zl), bl. split; [split|].
  - by eapply unlinked_lists.
  - cbn [unlinked]. by destruct a.
  - eapply kernel_ok_same; [exact Hk|done|by apply unlinked_owner|]. rewrite El. symmetry.
    apply perm_unlink.
Qed.

(** [thread_exit] of a thread other than the two that must not end. *)
Lemma exit_resched code s self rest zl t :
  sched_ok s (self :: rest) zl → threads s !! self = Some t → id t ≠ 0 →
  self ≠ idle_thread_ptr s →
  ∃ s1 s' l', thread_exit_unlink code s = Ok s1 ∧ thread_exit code s = Ok s' ∧
    same_owner (threads s) (threads s') ∧ sc_heap s' = sc_heap s ∧
    sched_ok s' l' (self :: zl) ∧ l' ≡ₚ rest ∧
    ∃ t', threads s' !! self = Some t' ∧ state t' = THREAD_ZOMBIE ∧ exit_code t' = code.
Proof.
  intros Hok Ht Hid Hni.
  destruct (exit_unlink_spec s self rest zl code t Hok Ht Hid Hni) as (prev & l1 & Er & E1 & Hok1).
  set (s1 := unlinked prev self (next t) (exited code) s) in *.
  assert (Hc : current_thread s1 = self) by (destruct Hok as [_ Hh]; cbn in Hh |- *; congruence).
  destruct (yield_zombie_ok s1 rest (self :: zl) Hok1) as (s' & l' & E & Hok' & Hl' & Hr);
    [rewrite Hc; by left|].
  exists s1, s', l'. split; [done|]. split; [unfold thread_exit; rewrite E1; done|].
  assert (Hnr : self ∉ rest) by by apply NoDup_cons, (lo_ring _ _ _ (proj1 Hok)).
  assert (Hne : self ≠ prev) by (intros ->; apply Hnr; set_solver).
  split_and!; try done.
  - eapply same_owner_trans; [by apply (unlinked_owner prev self (next t) (exited code))|].
    eapply resched_owner; [apply owner_wake|exact Hr].
  - by rewrite (rs_heap _ _ _ _ Hr).
  - pose proof (rs_threads _ _ _ _ Hr self) as Hs. rewrite decide_False in Hs by done.
    unfold s1, unlinked in Hs. cbn in Hs. rewrite lookup_alter_eq, lookup_alter_ne, Ht in Hs by done.
    destruct (threads s' !! self) as [t'|]; [|done]. exists t'. split; [done|]. cbn in Hs.
    apply (inj Some) in Hs. split; [exact (f_equal state Hs)|exact (f_equal exit_code Hs)].
Qed.

Lemma exit_panics code s self rest zl t :
  sched_ok s (self :: rest) zl → threads s !! self = Some t →
  id t = 0 ∨ self = idle_thread_ptr s →
  thread_exit code s = Panic K_ERR_SYSTEM_THREAD_EXIT_ATTEMPT.
Proof.
  intros [_ Hh] Ht Hbad. assert (Hc : current_thread s = self) by (cbn in Hh; congruence).
  unfold thread_exit, thread_exit_unlink. rewrite Hc, (assign_ok _ _ _ _ Ht). run.
  cbn [set_threads threads]. rewrite (deref_thread _ _ _ (lookup_insert_eq _ _ _)). run.
  destruct Hbad as [Hz|Hz]; cbn [set_state set_exit_code id].
  - by rewrite Hz.
  - by rewrite (proj2 (Z.eqb_eq _ _) Hz), orb_true_r.
Qed.

Lemma exit_system code s :
  system_ok s →
  (∃ s', thread_exit code s = Ok s' ∧ system_ok s') ∨
  thread_exit code s = Panic K_ERR_SYSTEM_THREAD_EXIT_ATTEMPT.
Proof.
  intros (l & zl & bl & Hok & Hk). destruct l as [|self rest]; [by destruct Hok|].
  destruct (sched_threads _ _ _ self Hok) as [t Ht]; [by left|].
  destruct (decide (id t = 0 ∨ self = idle_thread_ptr s)) as [Hbad|[Hid Hni]%Decidable.not_or].
  - right. by eapply exit_panics.
  - left. destruct (exit_resched code s self rest zl t Hok Ht Hid Hni)
      as (s1 & s' & l' & _ & E & Ho & Hh & Hok' & Hl' & _).
    exists s'. split; [done|]. exists l', (self :: zl), bl. split; [done|].
    eapply kernel_ok_same; [exact Hk|done|done|]. rewrite Hl'. symmetry.
    exact (Permutation_middle rest zl self).
Qed.

Lemma cleanup_spec s l zl bl :
  sched_ok s l zl → kernel_ok s (l ++ zl) bl →
  ∃ s' bl', cleanup_zombies s = Ok s' ∧ sched_ok s' l [] ∧ kernel_ok s' l bl' ∧
    (∀ p, threads s' !! p = if decide (p ∈ zl) then None else threads s !! p) ∧
    (∀ q, Heap.live bl' !! q =
       if decide (q ∈ (zl ≫= owned (threads s))) then None else Heap.live bl !! q).
Proof.
  intros [[H1 H2 H3 H4 H5 H6 H7] Hh] [[R1 R2 R3] Hk].
  apply NoDup_app in H3 as (_ & Hdisj & Hndz). rewrite bind_app in R2, R3.
  apply NoDup_app in R2 as (N1 & N2 & N3). unfold cleanup_zombies.
  destruct (cleanup_loop_spec (S (fuel_of s)) zl (zombie_list_head s) (set_zombies 0 s) bl)
    as (m' & h' & bl' & -> & Hm & Hh' & Hl').
  - exact H2.
  - done.
  - set_solver.
  - intros q t Hq. apply Hk. set_solver.
  - constructor; [exact R1|exact N3|]. intros q Hq. apply R3. set_solver.
  - apply le_S, NoDup_dom_size; [done|]. intros q. by eapply path_dom.
  - cbn in Hm, Hl'. eexists _, bl'. split; [reflexivity|].
    assert (Hml : ∀ q, q ∈ l → m' !! q = threads s !! q).
    { intros q Hq. rewrite Hm, decide_False; [done|]. by apply Hdisj. }
    split; [split; [constructor|done]|]; cbn; rewrite ?app_nil_r; try done.
    + destruct H1 as (Hnd & h & Hh1 & Hp). split; [done|]. exists h. split; [done|].
      eapply path_same_next; [|exact Hp]. intros q Hq. by rewrite Hml.
    + apply H1.
    + set_solver.
    + intros p t Hp. rewrite Hml by done. by apply H6.
    + intros p t Hp%elem_of_nil. done.
    + split; [|done].
      assert (Eo : l ≫= owned m' = l ≫= owned (threads s)).
      { apply bind_owned_same. intros q Hq. by rewrite Hml. }
      split; [constructor; cbn; rewrite ?Eo; try done|].
      * intros q Hq. rewrite Hl', decide_False by by apply N2. apply R3. set_solver.
      * intros p t Hp. cbn. rewrite Hml by done. apply Hk. set_solver.
Qed.

Lemma cleanup_system s : system_ok s → ∃ s', cleanup_zombies s = Ok s' ∧ system_ok s'.
Proof.
  intros (l & zl & bl & Hok & Hk).
  destruct (cleanup_spec s l zl bl Hok Hk) as (s' & bl' & E & Hok' & Hk' & _).
  exists s'. split; [done|]. exists l, [], bl'. by rewrite app_nil_r.
Qed.

(** Adding a kernel thread: it starts right behind the current thread, or there
    was no memory and the threads are as before. *)
Lemma add_spec texit uentry entry nm s cur rest zl bl :
  sched_ok s (cur :: rest) zl → kernel_ok s ((cur :: rest) ++ zl) bl →
  ∃ t s' bl', thread_add texit uentry entry nm false s = Ok (t, s') ∧
    current_thread s' = cur ∧
    (t = 0 ∧ sched_ok s' (cur :: rest) zl ∧ kernel_ok s' ((cur :: rest) ++ zl) bl' ∧
       threads s' = threads s ∧ next_thread_id s' = next_thread_id s ∨
     sched_ok s' (cur :: t :: rest) zl ∧ kernel_ok s' ((cur :: t :: rest) ++ zl) bl' ∧
       (t ∉ (cur :: rest) ++ zl) ∧
       ∃ th, threads s' !! t = Some th ∧ id th = next_thread_id s ∧
         fresh_thread texit entry nm (stack_start th) th (stack_words s')).
Proof.
  intros Hok [HR Hk]. unfold thread_add.
  assert (Hc : current_thread s = cur) by (destruct Hok as [_ Hh]; cbn in Hh; congruence).
  destruct (thread_create_spec texit entry nm s bl (ro_heap _ _ _ HR))
    as (t & s1 & bl1 & -> & Hh1 & Hmono & Ec & Ei & En & Ez & Hcase). run.
  destruct Hcase as [[-> Em]|(stack & th & T0 & S0 & Hts & Em & Hf & L1 & L2 & L3 & L4)].
  { exists 0, s1, bl1. split; [done|]. split; [congruence|]. left. split; [done|].
    destruct Hok as [[H1 H2 H3 H4 H5 H6 H7] Hh], HR as [R1 R2 R3].
    split; [split; [constructor; rewrite ?Em, ?Ei, ?Ez; done|congruence]|]. split; [|done].
    split; [constructor; rewrite ?Em; auto|]. by rewrite Em. }
  rewrite (proj2 (Z.eqb_neq t 0)) by lia.
  destruct (sched_threads _ _ _ cur Hok) as [ct Hct]; [by left|].
  pose proof (fresh_not_thread s (cur :: rest) zl bl t (proj1 Hok) HR L1) as Hnt.
  assert (Hne : t ≠ cur) by set_solver.
  assert (Hct1 : threads s1 !! cur = Some ct) by by rewrite Em, lookup_insert_ne.
  rewrite (thread_link_eq s1 t th ct); rewrite ?Ec, ?Hc, ?Em; [|apply lookup_insert_eq|by rewrite lookup_insert_ne|done].
  run. set (s2 := set_threads _ _).
  assert (Em2 : threads s2 = linked cur t (next_thread_id s1) ct th (threads s)).
  { unfold s2, linked. cbn. by rewrite insert_insert_eq. }
  destruct Hf as (F1 & F2 & F3 & Fr). subst stack.
  exists t, s2, bl1. split; [done|]. split; [cbn; congruence|]. right. split_and!; [split|split| |].
  - eapply (linked_lists s); [exact (proj1 Hok)|done|done|lia|by rewrite F3|exact Em2|done|done].
  - cbn. congruence.
  - eapply (linked_resources s); [exact (proj1 Hok)|done|done|done|exact Em2|done|lia|done|done..].
  - intros q u Hq Hu. rewrite Em2 in Hu. unfold linked in Hu.
    apply lookup_insert_Some in Hu as [[-> <-]|[Q1 Hu]]; [cbn; eapply Hk; [|exact Hct]; by left|].
    apply lookup_insert_Some in Hu as [[-> <-]|[Q2 Hu]]; [done|].
    apply (Hk q); [set_solver|done].
  - done.
  - exists (set_next (next ct) (set_id (next_thread_id s1) th)). rewrite Em2. unfold linked.
    rewrite lookup_insert_ne, lookup_insert_eq by done. split; [done|]. split; [cbn; congruence|].
    unfold fresh_thread. cbn. by destruct Fr as (? & ? & ? & ? & ?).
Qed.

Lemma add_system texit uentry entry nm s :
  system_ok s → ∃ t s', thread_add texit uentry entry nm false s = Ok (t, s') ∧ system_ok s'.
Proof.
  intros (l & zl & bl & Hok & Hk). destruct l as [|cur rest]; [by destruct Hok|].
  destruct (add_spec texit uentry entry nm s cur rest zl bl Hok Hk)
    as (t & s' & bl' & E & _ & [(-> & Hok' & Hk' & _)|(Hok' & Hk' & _)]);
    eexists _, s'; (split; [exact E|]); by eexists _, _, _.
Qed.

(** A ring of the boot thread, which has no stack of its own, and the idle thread. *)
Lemma two_threads_ok s c t tc tt bl :
  threads s !! c = Some tc → threads s !! t = Some tt → next tc = t → next tt = c →
  0 ≠ c → 0 ≠ t → c ≠ t → state tc = THREAD_READY → state tt = THREAD_READY →
  current_thread s = c → idle_thread_ptr s = t → zombie_list_head s = 0 →
  is_user tc = false → is_user tt = false →
  stack_start tc = 0 → stack_start tt ≠ 0 → stack_start tt ≠ c → stack_start tt ≠ t →
  Heap.heap_ok (sc_heap s) bl → is_Some (Heap.live bl !! c) → is_Some (Heap.live bl !! t) →
  is_Some (Heap.live bl !! stack_start tt) →
  sched_ok s [c; t] [] ∧ kernel_ok s [c; t] bl.
Proof.
  intros Hc Ht Nc Nt C0 T0 Hct Sc St Ec Ei Ez Uc Ut Kc Kt K1 K2 Hh Lc Lt Lk.
  assert (Hall : ∀ p u, p ∈ [c; t] → threads s !! p = Some u → u = tc ∨ u = tt) by set_solver.
  assert (Eo : [c; t] ≫= owned (threads s) = [c; stack_start tt; t]).
  { cbn. unfold owned. rewrite Hc, Ht, Kc. by rewrite (proj2 (Z.eqb_neq _ _) Kt). }
  split; [split; [constructor|]|split; [constructor|]]; rewrite ?app_nil_r, ?Eo, ?Ez, ?Ei; try done.
  - split; [repeat constructor; set_solver|]. exists c. split; [done|].
    cbn. rewrite Hc, Ht. eauto 10.
  - repeat constructor; set_solver.
  - set_solver.
  - set_solver.
  - intros p u Hp Hu. destruct (Hall p u Hp Hu) as [->| ->]; congruence.
  - by intros p u Hp%elem_of_nil.
  - cbn. congruence.
  - repeat constructor; set_solver.
  - intros q. rewrite !elem_of_cons, elem_of_nil. by intros [->|[->|[->|[]]]].
  - intros p u Hp Hu. destruct (Hall p u Hp Hu) as [->| ->]; congruence.
Qed.

(** Starting the scheduler: the boot thread and the idle thread form the ring. *)
Lemma init_spec texit idle_task s s' bl :
  Heap.heap_ok (sc_heap s) bl → zombie_list_head s = 0 →
  thread_init texit idle_task s = Ok s' → idle_thread_ptr s' ≠ 0 →
  ∃ bl', sched_ok s' [current_thread s'; idle_thread_ptr s'] [] ∧
    kernel_ok s' [current_thread s'; idle_thread_ptr s'] bl'.
Proof.
  intros Hh Hz Hi Hn. unfold thread_init in Hi.
  destruct (kmalloc_sched s bl sizeof_thread_t Hh) as (c & h1 & bl1 & E1 & Hh1 & C1);
    [unfold sizeof_thread_t; lia|]. rewrite E1 in Hi. run.
  cbn [mbind outcome_bind] in Hi. destruct (Z.eqb_spec c 0) as [|Hc0]; [done|].
  destruct C1 as [[-> _]|(C0 & _ & _ & x & C1)]; [done|].
  set (th := mk_thread 0 _ _ _ _ _ c _ _ _ _ _ _ _ _ _) in Hi.
  set (s2 := set_current c _) in Hi.
  destruct (thread_create_spec texit idle_task NAME_IDLE s2 bl1 Hh1)
    as (t & s3 & bl3 & E3 & Hh3 & Hmono & Ec & Ei & En & Ez & Hcase).
  rewrite E3 in Hi. cbn [mbind outcome_bind] in Hi. destruct (Z.eqb_spec t 0) as [->|Ht0].
  { injection Hi as <-. done. }
  destruct Hcase as [[-> _]|(stack & it & T0 & S0 & Hts & Em & Hf & L1 & L2 & L3 & L4)]; [done|].
  assert (Lc : is_Some (Heap.live bl1 !! c)) by (rewrite C1, lookup_insert_eq; done).
  assert (Htc : t ≠ c) by (intros ->; rewrite L1 in Lc; by destruct Lc).
  assert (Hsc : stack ≠ c) by (intros ->; rewrite L2 in Lc; by destruct Lc).
  assert (Hc3 : threads (set_idle t s3) !! c = Some th).
  { cbn. rewrite Em, lookup_insert_ne by done. apply lookup_insert_eq. }
  rewrite (deref_thread _ _ _ Hc3) in Hi. cbn [mbind outcome_bind] in Hi.
  rewrite (assign_ok t _ _ it) in Hi by (cbn; rewrite Em; apply lookup_insert_eq).
  cbn [mbind outcome_bind] in Hi.
  rewrite (assign_ok c _ _ th) in Hi by (cbn; by rewrite lookup_insert_ne by done).
  injection Hi as <-. cbn [current_thread idle_thread_ptr set_threads set_idle] in *.
  rewrite Ec. change (current_thread s2) with c. exists bl3.
  set (m := <[c := _]> _). assert (Mc : m !! c = Some (set_next t th)) by apply lookup_insert_eq.
  assert (Mt : m !! t = Some (set_next c it)) by (unfold m; by rewrite lookup_insert_ne, lookup_insert_eq by done).
  destruct Hf as (F1 & F2 & F3 & _). subst stack.
  apply (two_threads_ok _ c t (set_next t th) (set_next c it)); cbn; try done; try lia; try congruence.
  - by rewrite Ez.
  - by apply Hmono.
Qed.

(** *** Everything a kernel thread or an interrupt does to the scheduler *)

Inductive thread_op : Type :=
| OpYield
| OpTimer
| OpSleep (ms : Z)
| OpWakeup
| OpKill (i : Z)
| OpExit (code : Z)
| OpAdd (entry : Z) (nm : list Z)
| OpCleanup.

Definition run_op (texit uentry : Z) (o : thread_op) (s : sched) : outcome sched :=
  match o with
  | OpYield => yield s
  | OpTimer => tick_threads s
  | OpSleep ms => thread_sleep ms s
  | OpWakeup => thread_wakeup_blocked s
  | OpKill i => '(_, s') ← thread_kill i s; Ok s'
  | OpExit code => thread_exit code s
  | OpAdd entry nm => '(_, s') ← thread_add texit uentry entry nm false s; Ok s'
  | OpCleanup => cleanup_zombies s
  end.

(** The states after a start of the scheduler that found memory. *)
Inductive reachable (texit uentry itask : Z) : sched → Prop :=
| reach_init s0 s bl :
    Heap.heap_ok (sc_heap s0) bl → zombie_list_head s0 = 0 → thread_init texit itask s0 = Ok s →
    idle_thread_ptr s ≠ 0 → reachable texit uentry itask s
| reach_op o s s' :
    reachable texit uentry itask s → run_op texit uentry o s = Ok s' →
    reachable texit uentry itask s'.

Lemma run_op_system texit uentry o s :
  system_ok s →
  (∃ s', run_op texit uentry o s = Ok s' ∧ system_ok s') ∨
  (∃ code, o = OpExit code) ∧ run_op texit uentry o s = Panic K_ERR_SYSTEM_THREAD_EXIT_ATTEMPT.
Proof.
  intros Hs. destruct o; cbn [run_op].
  - left. by apply yield_system.
  - left. by apply tick_system.
  - left. by apply sleep_system.
  - left. by apply wakeup_system.
  - left. destruct (kill_system i s Hs) as (b & s' & -> & H). by exists s'.
  - destruct (exit_system code s Hs) as [H|H]; [by left|right; eauto].
  - left. destruct (add_system texit uentry entry nm s Hs) as (t & s' & -> & H). by exists s'.
  - left. by apply cleanup_system.
Qed.

Lemma reachable_system texit uentry itask s : reachable texit uentry itask s → system_ok s.
Proof.
  induction 1 as [s0 s bl Hh Hz Hi Hn|o s s' _ IH E].
  - destruct (init_spec texit itask s0 s bl Hh Hz Hi Hn) as (bl' & Hok & Hk).
    eexists _, [], bl'. rewrite app_nil_r. eauto.
  - destruct (run_op_system texit uentry o s IH) as [(s1 & E1 & H)|[_ H]]; congruence.
Qed.

(** *** A small machine: the boot thread, the idle thread and two more *)

Definition demo_heap : kheap :=
  snd (Heap.kheap_init 0xFFFFFFFFC0000000 0x20000
         (Heap.mk_heap ∅ 0 0 (Vmm.mk_vmm Paging.demo_paging 0xFFFFFFFFC0020000 0))).

Lemma demo_heap_ok : ∃ bl, Heap.heap_ok demo_heap bl.
Proof.
  destruct Vmm.demo_vmm_wf as [W1 W2 W3 W4 W5].
  destruct (Heap.kheap_init_ok (V := Vmm.vmm) 0xFFFFFFFFC0000000 0x20000
    (Heap.mk_heap ∅ 0 0 (Vmm.mk_vmm Paging.demo_paging 0xFFFFFFFFC0020000 0))) as (h & E & _ & Hok);
    [unfold PAGE_SIZE; lia|reflexivity|lia|reflexivity|cbn; lia| |].
  - exists Paging.demo_tables. constructor; cbn [Heap.backend Vmm.vm_paging Vmm.kernel_dynamic_break].
    + exact W1.
    + reflexivity.
    + lia.
    + vm_compute. discriminate.
    + intros va Hva. apply W5. cbn. lia.
  - eexists. unfold demo_heap. rewrite E. exact Hok.
Qed.

Definition demo_boot : outcome sched :=
  thread_init 100 200 (mk_sched demo_heap ∅ ∅ 0 0 0 0 0 0 0).
Definition demo : outcome sched :=
  s ← demo_boot;
  s1 ← run_op 100 300 (OpAdd 400 [65]) s;
  run_op 100 300 (OpAdd 500 [66]) s1.

(** Where the threads of the small machine are. *)
Definition T0 : Z := 18446744072635809816.
Definition TI : Z := 18446744072635810144.
Definition T1 : Z := 18446744072635826880.
Definition T2 : Z := 18446744072635843616.

Lemma demo_step s t' s1 l bl ent nm t r :
  sched_ok s (T0 :: l) [] → kernel_ok s (T0 :: l) bl →
  thread_add 100 300 ent nm false s = Ok (t', r) → t' = t → t ≠ 0 →
  run_op 100 300 (OpAdd ent nm) s = Ok s1 →
  ∃ bl1, sched_ok s1 (T0 :: t :: l) [] ∧ kernel_ok s1 (T0 :: t :: l) bl1.
Proof.
  intros Hok Hk E -> H0 Er. rewrite <- (app_nil_r (T0 :: l)) in Hk.
  destruct (add_spec 100 300 ent nm s T0 l [] bl Hok Hk) as (t1 & s' & bl' & E' & _ & C).
  cbn [run_op] in Er. rewrite E' in E, Er. injection E as -> ->. injection Er as ->.
  destruct C as [[-> _]|(Hok' & Hk' & _)]; [done|]. exists bl'. by rewrite app_nil_r in Hk'.
Qed.

Lemma demo_ok : ∃ s bl, demo = Ok s ∧ sched_ok s [T0; T2; T1; TI] [] ∧ kernel_ok s [T0; T2; T1; TI] bl.
Proof.
  destruct demo_heap_ok as [bl0 Hh].
  assert (Hb : succeeds demo_boot (λ s, current_thread s = T0 ∧ idle_thread_ptr s = TI ∧
    succeeds (thread_add 100 300 400 [65] false s) (λ '(t, s1), t = T1 ∧
      succeeds (thread_add 100 300 500 [66] false s1) (λ '(t, _), t = T2)))) by (vm_compute; auto).
  apply succeeds_Ok in Hb as (s & E & Hc & Hi & Hb).
  apply succeeds_Ok in Hb as ([t s1] & E1 & -> & Hb).
  apply succeeds_Ok in Hb as ([t s2] & E2 & ->).
  unfold demo. rewrite E. run. cbn [run_op]. rewrite E1. run. rewrite E2. run.
  destruct (init_spec 100 200 (mk_sched demo_heap ∅ ∅ 0 0 0 0 0 0 0) s bl0 Hh eq_refl E) as (bl & Hok & Hk); [rewrite Hi; discriminate|].
  rewrite Hc, Hi in Hok, Hk.
  destruct (demo_step s T1 s1 [TI] bl 400 [65] T1 s1 Hok Hk E1 eq_refl) as (bl1 & Hok1 & Hk1);
    [discriminate|cbn [run_op]; by rewrite E1|].
  destruct (demo_step s1 T2 s2 [T1; TI] bl1 500 [66] T2 s2 Hok1 Hk1 E2 eq_refl) as (bl2 & Hok2 & Hk2);
    [discriminate|cbn [run_op]; by rewrite E2|].
  exists s2, bl2. split; [reflexivity|]. split; [exact Hok2|exact Hk2].
Qed.

(** ** Properties *)

(** [yield] is round robin.  It always returns, keeps the ring and the zombie
    list, and runs the first thread after the caller in ring order that is
    ready, or asleep with no ticks left, the idle thread and then the caller
    itself coming last; the idle thread runs only when no other thread can.  The
    stack pointer of the caller is saved and the one of the new thread loaded,
    with its kernel stack set for system calls. *)
Theorem yield_round_robin s cur rest zl :
  sched_ok s (cur :: rest) zl →
  ∃ s' n l1 l2 t, yield s = Ok s' ∧ cur :: rest = l1 ++ n :: l2 ∧
    sched_ok s' (n :: l2 ++ l1) zl ∧ current_thread s' = n ∧
    ((∃ i, (rest ++ [cur]) !! i = Some n ∧ awake s n ∧
        ∀ j q, (j < i)%nat → (rest ++ [cur]) !! j = Some q → ¬ awake s q) ∨
     n = idle_thread_ptr s ∧ ∀ q, q ∈ cur :: rest → ¬ awake s q) ∧
    threads s !! n = Some t ∧
    (n ≠ cur → rsp <$> (threads s' !! cur) = Some (u64 (cpu_rsp s - 64)) ∧
       cpu_rsp s' = u64 (rsp t + 64) ∧
       syscall_kernel_stack s' = u64 (stack_start t + KSTACK_SIZE) ∧
       tss_rsp0 s' = (if is_user t then u64 (stack_start t + KSTACK_SIZE) else tss_rsp0 s)) ∧
    (n = cur → cpu_rsp s' = cpu_rsp s).
Proof.
  intros Hok. destruct (yield_ok s cur rest zl Hok) as (E & Hn & Hrot).
  pose proof (pick_awake s cur rest zl Hok) as Hpick. cbn zeta in Hpick.
  assert (Hnd : NoDup (rest ++ [cur])).
  { rewrite (Permutation_app_comm rest [cur]). apply (lo_ring _ _ _ (proj1 Hok)). }
  set (m := update_on _ _ _) in *. set (n := pick _ _ _ _) in *.
  pose proof Hn as Hsp. apply list_elem_of_split in Hsp as (l1 & l2 & El).
  destruct (sched_threads _ _ _ n Hok Hn) as [t Ht].
  destruct (sched_threads _ _ _ cur Hok) as [tc Htc]; [by left|].
  eexists _, n, l1, l2, t. split; [exact E|]. split; [done|]. split; [by apply Hrot|].
  assert (Hm : m !! n = Some (wake_sleeper t)).
  { unfold m. rewrite lookup_update_on, decide_True, Ht; [done|set_solver|done]. }
  assert (Hmc : m !! cur = Some (wake_sleeper tc)).
  { unfold m. rewrite lookup_update_on, decide_True, Htc; [done|set_solver|done]. }
  unfold switched. rewrite Hm. destruct (Z.eqb_spec n cur) as [En|En].
  - split; [destruct Hok as [_ Hh]; cbn in Hh |- *; congruence|]. done.
  - split; [done|]. split; [done|]. split; [done|]. split; [|done]. intros _. cbn.
    rewrite lookup_alter_eq, Hmc. destruct (wake_fields t) as (-> & -> & ->). done.
Qed.

Lemma yield_round_robin_witness :
  ∃ s s' l, demo = Ok s ∧ yield s = Ok s' ∧ sched_ok s' (T2 :: l) [].
Proof.
  destruct demo_ok as (s & bl & E & Hok & _). exists s.
  destruct (yield_round_robin s T0 [T2; T1; TI] [] Hok)
    as (s' & n & l1 & l2 & t & Ey & El & Hok' & Hc & _).
  assert (Hm : succeeds demo (λ s, succeeds (yield s) (λ s', current_thread s' = T2)))
    by (vm_compute; reflexivity).
  pose proof (succeeds_at _ _ _ (succeeds_at _ _ _ Hm E) Ey) as Hc2. cbn beta in Hc2.
  exists s', (l2 ++ l1). split; [exact E|]. split; [exact Ey|]. rewrite Hc in Hc2. clear Hc.
  subst n. exact Hok'.
Defined.

(** C20. No thread starves: a thread of the ring other than the idle thread that is
    ready becomes the current one after fewer timer interrupts than the ring
    has threads, and one that sleeps for [n] ticks is asleep until exactly [n]
    interrupts have come and runs fewer than the ring's length after them. *)
Theorem threads_get_to_run s l zl p t :
  sched_ok s l zl → p ∈ l → p ≠ idle_thread_ptr s → threads s !! p = Some t →
  (state t = THREAD_READY →
     ∃ k s', (k < length l)%nat ∧ ticks k s = Ok s' ∧ current_thread s' = p) ∧
  (state t = THREAD_SLEEPING → 0 < sleep_ticks t < 2 ^ 32 →
     (∀ k, (k < Z.to_nat (sleep_ticks t))%nat →
        ∃ s' t', ticks k s = Ok s' ∧ threads s' !! p = Some t' ∧ state t' = THREAD_SLEEPING) ∧
     ∃ k s', (k < Z.to_nat (sleep_ticks t) + length l)%nat ∧ ticks k s = Ok s' ∧
       current_thread s' = p).
Proof.
  intros Hok Hp Hi Ht. split.
  - intros Hs. apply list_elem_of_lookup in Hp as [i Hl]. pose proof (lookup_lt_Some _ _ _ Hl).
    destruct (ready_runs i s l zl p Hok Hl) as (k & s' & Hk & E & Hc); [by exists t|done|].
    exists k, s'. split; [lia|done].
  - intros Hs Hn. split.
    + intros k Hk.
      destruct (sleep_counts k s l zl p t Hok Hp Ht Hs) as (s' & l' & t' & E & _ & _ & _ & Ht' & Hst);
        [lia|lia|]. exists s', t'. rewrite (proj2 (Z.eqb_neq _ _)) in Hst by lia. done.
    + destruct (sleep_counts (Z.to_nat (sleep_ticks t)) s l zl p t Hok Hp Ht Hs)
        as (s1 & l1 & t1 & E1 & Hok1 & Hl1 & Hi1 & Ht1 & Hst); [lia|lia|].
      rewrite (proj2 (Z.eqb_eq _ _)) in Hst by lia.
      rewrite <- Hl1 in Hp. apply list_elem_of_lookup in Hp as [i Hl].
      pose proof (lookup_lt_Some _ _ _ Hl).
      destruct (ready_runs i s1 l1 zl p Hok1 Hl) as (k & s' & Hk & E & Hc);
        [by exists t1|by rewrite Hi1|].
      exists (Z.to_nat (sleep_ticks t) + k)%nat, s'. rewrite (ticks_app _ k _ _ E1).
      split; [rewrite <- (Permutation_length Hl1); lia|done].
Qed.

Lemma threads_get_to_run_witness :
  ∃ s k s', demo = Ok s ∧ (k < 4)%nat ∧ ticks k s = Ok s' ∧ current_thread s' = T1.
Proof.
  destruct demo_ok as (s & bl & E & Hok & _). exists s.
  assert (Hm : succeeds demo (λ s, idle_thread_ptr s = TI ∧
    state <$> (threads s !! T1) = Some THREAD_READY)) by (vm_compute; auto).
  destruct (succeeds_at _ _ _ Hm E) as [Hi Ht].
  destruct (threads s !! T1) as [t|] eqn:Et; [|discriminate Ht]. injection Ht as Hs.
  destruct (threads_get_to_run s [T0; T2; T1; TI] [] T1 t Hok) as [Hr _].
  - do 2 apply list_elem_of_further. apply list_elem_of_here.
  - rewrite Hi. discriminate.
  - exact Et.
  - destruct (Hr Hs) as (k & s' & Hk & Ek & Hc). exists k, s'. auto.
Defined.



(** The small machine with its second thread running. *)
Lemma demo_running : ∃ s l bl, (s ← demo; yield s) = Ok s ∧ sched_ok s (T2 :: l) [] ∧
  kernel_ok s ((T2 :: l) ++ []) bl ∧ idle_thread_ptr s = TI ∧ id <$> (threads s !! T2) = Some 2 ∧
  threads s !! 0 = None.
Proof.
  destruct demo_ok as (s & bl & E & Hok & Hk).
  destruct (yield_resched s _ [] Hok) as (s' & l' & Ey & Hok' & Hl' & Hr).
  assert (Hm : succeeds demo (λ s, succeeds (yield s) (λ s', current_thread s' = T2 ∧
    idle_thread_ptr s' = TI ∧ id <$> (threads s' !! T2) = Some 2 ∧ threads s' !! 0 = None)))
    by (vm_compute; auto).
  destruct (succeeds_at _ _ _ (succeeds_at _ _ _ Hm E) Ey) as (Hc & Hrest).
  assert (Hl : ∃ l, l' = T2 :: l).
  { destruct Hok' as [_ Hh]. rewrite Hc in Hh. destruct l' as [|a l]; [discriminate Hh|].
    injection Hh as ->. by exists l. }
  destruct Hl as [l ->]. exists s', l, bl. rewrite E. run. split; [exact Ey|].
  split; [exact Hok'|]. rewrite app_nil_r. split; [|exact Hrest].
  eapply kernel_ok_same; [exact Hk|exact (rs_heap _ _ _ _ Hr)| |exact Hl'].
  eapply resched_owner; [apply owner_wake|exact Hr].
Qed.

(** [thread_kill] moves one thread with the given id, neither the current nor the
    idle one, from the ring to the zombie list with exit code -1 and leaves the
    other threads as they are, links apart; when it answers false, nothing has
    changed and the id is 0, the id of the current or the idle thread, or no
    thread's. *)
Theorem thread_kill_exact i s cur rest zl :
  sched_ok s (cur :: rest) zl →
  ∃ tc ti, threads s !! cur = Some tc ∧ threads s !! idle_thread_ptr s = Some ti ∧
  ((∃ s' a p b tp tp', thread_kill i s = Ok (true, s') ∧ cur :: rest = a ++ p :: b ∧ p ≠ cur ∧
      p ≠ idle_thread_ptr s ∧ threads s !! p = Some tp ∧ id tp = i ∧
      sched_ok s' (a ++ b) (p :: zl) ∧ sc_heap s' = sc_heap s ∧
      threads s' !! p = Some tp' ∧ exit_code tp' = -1 ∧
      ∀ q, q ≠ p → set_next 0 <$> (threads s' !! q) = set_next 0 <$> (threads s !! q)) ∨
   thread_kill i s = Ok (false, s) ∧
     (i = 0 ∨ i = id tc ∨ i = id ti ∨
      ∀ q t, q ∈ cur :: rest → threads s !! q = Some t → id t ≠ i)).
Proof.
  intros Hok. destruct (thread_kill_cases i s cur rest zl Hok) as (tc & ti & Htc & Hti & C).
  exists tc, ti. split; [done|]. split; [done|].
  destruct C as [(Hi & E)|(N1 & N2 & N3 & [(Hi & E)|(a & v & p & b & tp & El & Hp & Hi & Hni & E)])].
  { right. split; [done|]. tauto. }
  { right. split; [done|]. auto. }
  left. destruct Hok as [Hok Hh]. rewrite El in Hok, Hh.
  assert (Hnd : p ∉ a ++ [v]).
  { destruct (lo_ring _ _ _ Hok) as [Hnd _]. rewrite cons_middle, app_assoc in Hnd.
    apply NoDup_app in Hnd as (_ & Hd & _). intros Hin. apply (Hd p Hin). by left. }
  eexists _, (a ++ [v]), p, b, tp, _. split; [exact E|]. split; [rewrite El, <- app_assoc; done|].
  split; [intros ->; destruct a; cbn in El; [|]; injection El as -> _; apply Hnd; set_solver|].
  split; [done|]. split; [done|]. split; [done|].
  split; [split; [|]|split; [done|split; [|split]]].
  - rewrite <- app_assoc. by eapply unlinked_lists.
  - cbn. rewrite <- app_assoc. cbn. destruct a; done.
  - cbn. rewrite lookup_alter_eq, lookup_alter_ne by set_solver. rewrite Hp. reflexivity.
  - done.
  - intros q Hq. cbn. rewrite lookup_alter_ne by done.
    destruct (decide (q = v)) as [->|]; [|by rewrite lookup_alter_ne].
    rewrite lookup_alter_eq. by destruct (threads s !! v).
Qed.

Lemma thread_kill_exact_witness :
  ∃ s s' l, demo = Ok s ∧ thread_kill 2 s = Ok (true, s') ∧ sched_ok s' l [T2].
Proof.
  destruct demo_ok as (s & bl & E & Hok & _). exists s.
  destruct (thread_kill_exact 2 s T0 [T2; T1; TI] [] Hok) as (tc & ti & _ & _ & C).
  assert (Hm : succeeds demo (λ s, succeeds (thread_kill 2 s) (λ '(r, s'),
    r = true ∧ zombie_list_head s' = T2))) by (vm_compute; auto).
  pose proof (succeeds_at _ _ _ Hm E) as Hm1. cbn beta in Hm1. clear Hm.
  destruct C as [(s' & a & p & b & tp & tp' & Ek & _ & _ & _ & _ & _ & Hok' & _)|[Ek _]].
  - destruct (succeeds_at _ _ _ Hm1 Ek) as [_ Hz]. exists s', (a ++ b).
    destruct (lo_zombies _ _ _ (proj1 Hok')) as [Hz' _]. rewrite Hz in Hz'. subst p. auto.
  - destruct (succeeds_at _ _ _ Hm1 Ek) as [Hf _]. discriminate Hf.
Defined.

(** [thread_exit] does not come back to its caller: it panics in the boot thread
    and the idle thread, and otherwise moves the caller to the zombie list with
    its exit code and switches to one of the remaining threads. *)
Theorem thread_exit_leaves code s self rest zl t :
  sched_ok s (self :: rest) zl → threads s !! self = Some t →
  (id t = 0 ∨ self = idle_thread_ptr s →
     thread_exit code s = Panic K_ERR_SYSTEM_THREAD_EXIT_ATTEMPT) ∧
  (id t ≠ 0 → self ≠ idle_thread_ptr s →
     ∃ s' l' t', thread_exit code s = Ok s' ∧ sched_ok s' l' (self :: zl) ∧ l' ≡ₚ rest ∧
       current_thread s' ∈ rest ∧ current_thread s' ≠ self ∧
       threads s' !! self = Some t' ∧ state t' = THREAD_ZOMBIE ∧ exit_code t' = code).
Proof.
  intros Hok Ht. split; [by eapply exit_panics|]. intros Hid Hni.
  destruct (exit_resched code s self rest zl t Hok Ht Hid Hni)
    as (s1 & s' & l' & _ & E & _ & _ & Hok' & Hl & t' & Ht' & Hs' & Hc').
  assert (Hin : current_thread s' ∈ rest).
  { rewrite <- Hl. destruct Hok' as [_ Hh]. destruct l'; [done|]. cbn in Hh. injection Hh as ->. by left. }
  exists s', l', t'. split_and!; try done. intros Heq. rewrite Heq in Hin.
  apply (NoDup_cons self rest); [apply (lo_ring _ _ _ (proj1 Hok))|done].
Qed.

Lemma thread_exit_leaves_witness :
  ∃ s s' l, (s ← demo; yield s) = Ok s ∧ thread_exit 7 s = Ok s' ∧ sched_ok s' l [T2].
Proof.
  destruct demo_running as (s & l & bl & E & Hok & _ & Hi & Hid & _). exists s.
  destruct (threads s !! T2) as [t|] eqn:Et; [|discriminate Hid]. injection Hid as Hid.
  destruct (thread_exit_leaves 7 s T2 l [] t Hok Et) as [_ Hx].
  destruct Hx as (s' & l' & t' & Ex & Hok' & _); [lia|rewrite Hi; discriminate|].
  exists s', l'. auto.
Defined.

(** Running off the end of a list that is not a ring. *)
Lemma ring_update_runs_off body fuel l : ∀ m p stop,
  (∀ t, next (body t) = next t) → path m p (p :: l) 0 → NoDup (p :: l) →
  m !! 0 = None → stop ≠ 0 → stop ∉ l → (S (length l) < fuel)%nat →
  ring_update body fuel m p stop = Fault.
Proof.
  revert fuel. induction l as [|a l IH]; intros fuel m p stop Hb Hp Hnd H0 Hs Hsl Hf.
  - destruct fuel as [|[|fuel]]; [cbn in Hf; lia..|]. destruct Hp as (_ & t & Ht & Hn).
    cbn [ring_update]. rewrite (deref_thread _ _ _ Ht). run. cbn in Hn. rewrite Hb, Hn.
    rewrite (proj2 (Z.eqb_neq _ _)) by congruence. unfold deref.
    rewrite lookup_insert_ne, H0; [done|]. intros ->. congruence.
  - destruct fuel as [|fuel]; [cbn in Hf; lia|]. destruct Hp as (_ & t & Ht & Hn & t' & Ht' & Hp).
    apply NoDup_cons in Hnd as [Hnp Hnd]. cbn [ring_update]. rewrite (deref_thread _ _ _ Ht). run.
    rewrite Hb, Hn. rewrite (proj2 (Z.eqb_neq _ _)) by (intros ->; apply Hsl; by left).
    apply (IH fuel); [done| |done| |done| |cbn in Hf; lia].
    + eapply (path_same_next m); [|cbn; eauto]. intros q Hq. rewrite lookup_insert_ne; [done|].
      by intros ->.
    + rewrite lookup_insert_ne; [done|]. intros ->. congruence.
    + intros Hin. apply Hsl. by right.
Qed.

(** [thread_exit] releases the lock, with interrupts enabled again, before it
    yields.  A timer interrupt at that point finds the current thread linked
    into the zombie list instead of the ring, follows it to its end and reads
    through the null pointer. *)
Theorem exit_race_faults code s self rest zl t :
  sched_ok s (self :: rest) zl → threads s !! self = Some t → id t ≠ 0 →
  self ≠ idle_thread_ptr s → threads s !! 0 = None →
  ∃ s1, thread_exit_unlink code s = Ok s1 ∧ tick_threads s1 = Fault.
Proof.
  intros Hok Ht Hid Hni H0.
  destruct (exit_unlink_spec s self rest zl code t Hok Ht Hid Hni) as (prev & l1 & Er & E1 & Hok1).
  eexists. split; [exact E1|]. unfold tick_threads. set (s1 := unlinked _ _ _ _ _) in *.
  assert (Hc : current_thread s1 = self) by (destruct Hok as [_ Hh]; cbn in Hh |- *; congruence).
  pose proof (lo_null _ _ _ Hok1) as Hnull. pose proof (lo_nodup _ _ _ Hok1) as Hnd.
  assert (Hs0 : self ≠ 0) by (intros ->; apply Hnull; set_solver).
  rewrite Hc, (proj2 (Z.eqb_neq _ _) Hs0).
  assert (Hsz : (length (rest ++ self :: zl) ≤ fuel_of s1)%nat).
  { apply NoDup_dom_size; [done|]. intros q. by eapply lists_dom. }
  apply NoDup_app in Hnd as (_ & _ & Hnz). apply NoDup_cons in Hnz as Hn. destruct Hn as [Hn _].
  rewrite (ring_update_runs_off tick_thread (fuel_of s1) zl (threads s1) self self); [done|..].
  - apply tick_next.
  - exact (lo_zombies _ _ _ Hok1).
  - done.
  - unfold s1, unlinked. cbn. rewrite lookup_alter_ne by done.
    apply lookup_alter_None. done.
  - done.
  - done.
  - rewrite length_app in Hsz. rewrite Er, length_app in Hsz. cbn [length] in Hsz. lia.
Qed.

Lemma exit_race_faults_witness :
  ∃ s s1, (s ← demo; yield s) = Ok s ∧ thread_exit_unlink 0 s = Ok s1 ∧ tick_threads s1 = Fault.
Proof.
  destruct demo_running as (s & l & bl & E & Hok & _ & Hi & Hid & H0). exists s.
  destruct (threads s !! T2) as [t|] eqn:Et; [|discriminate Hid]. injection Hid as Hid.
  destruct (exit_race_faults 0 s T2 l [] t Hok Et) as (s1 & E1 & Ef);
    [lia|rewrite Hi; discriminate|exact H0|]. exists s1. auto.
Defined.

(** [cleanup_zombies] gives back to the heap exactly the structures and stacks of
    the ended kernel threads, forgets those threads, and touches neither the
    ring nor any other block. *)
Theorem cleanup_frees_exactly s l zl bl :
  sched_ok s l zl → kernel_ok s (l ++ zl) bl →
  ∃ s' bl', cleanup_zombies s = Ok s' ∧ sched_ok s' l [] ∧ kernel_ok s' l bl' ∧
    (∀ p, threads s' !! p = if decide (p ∈ zl) then None else threads s !! p) ∧
    (∀ q, Heap.live bl' !! q =
       if decide (q ∈ (zl ≫= owned (threads s))) then None else Heap.live bl !! q).
Proof. apply cleanup_spec. Qed.

Lemma cleanup_frees_exactly_witness :
  ∃ s s1 s', (s ← demo; yield s) = Ok s ∧ thread_exit 0 s = Ok s1 ∧ cleanup_zombies s1 = Ok s' ∧
    threads s' !! T2 = None.
Proof.
  destruct demo_running as (s & l & bl & E & Hok & Hk & Hi & Hid & _). exists s.
  destruct (threads s !! T2) as [t|] eqn:Et; [|discriminate Hid]. injection Hid as Hid.
  destruct (exit_resched 0 s T2 l [] t Hok Et) as (_ & s1 & l' & _ & E1 & Ho & Hh & Hok1 & Hl & _);
    [lia|rewrite Hi; discriminate|].
  destruct (cleanup_frees_exactly s1 l' [T2] bl Hok1) as (s' & bl' & Ec & _ & _ & Hm & _).
  - eapply kernel_ok_same; [exact Hk|exact Hh|exact Ho|]. rewrite Hl. symmetry.
    exact (Permutation_middle l [] T2).
  - exists s1, s'. split; [exact E|]. split; [exact E1|]. split; [exact Ec|].
    rewrite Hm, decide_True; [reflexivity|apply list_elem_of_here].
Defined.

(** [thread_add] of a kernel thread either finds no memory and leaves the threads
    as they are, or puts a fresh thread behind the current one, with the next
    id, ready, in blocks of its own, and with a stack from which the switch
    goes to the entry point and, when that returns, to [thread_exit]. *)
Theorem thread_add_links texit uentry entry nm s cur rest zl bl :
  sched_ok s (cur :: rest) zl → kernel_ok s ((cur :: rest) ++ zl) bl →
  ∃ t s' bl', thread_add texit uentry entry nm false s = Ok (t, s') ∧
    current_thread s' = cur ∧
    (t = 0 ∧ sched_ok s' (cur :: rest) zl ∧ kernel_ok s' ((cur :: rest) ++ zl) bl' ∧
       threads s' = threads s ∧ next_thread_id s' = next_thread_id s ∨
     sched_ok s' (cur :: t :: rest) zl ∧ kernel_ok s' ((cur :: t :: rest) ++ zl) bl' ∧
       (t ∉ (cur :: rest) ++ zl) ∧
       ∃ th, threads s' !! t = Some th ∧ id th = next_thread_id s ∧
         fresh_thread texit entry nm (stack_start th) th (stack_words s')).
Proof. apply add_spec. Qed.

Lemma thread_add_links_witness :
  ∃ s t s', demo_boot = Ok s ∧ thread_add 100 300 400 [65] false s = Ok (t, s') ∧
    sched_ok s' [T0; t; TI] [].
Proof.
  destruct demo_heap_ok as [bl0 Hh].
  assert (Hb : succeeds demo_boot (λ s, current_thread s = T0 ∧ idle_thread_ptr s = TI ∧
    succeeds (thread_add 100 300 400 [65] false s) (λ '(t, _), t = T1))) by (vm_compute; auto).
  apply succeeds_Ok in Hb as (s & E & Hc & Hi & Hb). exists s.
  destruct (init_spec 100 200 (mk_sched demo_heap ∅ ∅ 0 0 0 0 0 0 0) s bl0 Hh eq_refl E)
    as (bl & Hok & Hk); [rewrite Hi; discriminate|]. rewrite Hc, Hi in Hok, Hk.
  destruct (thread_add_links 100 300 400 [65] s T0 [TI] [] bl Hok Hk)
    as (t & s' & bl' & E1 & _ & C). exists t, s'. split; [exact E|]. split; [exact E1|].
  pose proof (succeeds_at _ _ _ Hb E1) as Ht. cbn beta iota in Ht.
  destruct C as [[H0 _]|[Hok' _]]; [rewrite Ht in H0; discriminate H0|exact Hok'].
Defined.
End Thread.
