(* ===== verification/Keyboard.v ===== *)
(** * The keyboard driver (drivers/keyboard.cpp)

    The interrupt handler decodes scan codes, keeps the state of the shift and
    caps-lock keys, and writes characters to a circular buffer from which
    [keyboard_getchar] reads, blocking its thread while the buffer is empty.

    The specification is a queue of characters: the handler appends, readers
    take from the front.  The buffer refines it as long as fewer than 255
    characters wait; the 256th pending character empties the buffer, because a
    full buffer looks like an empty one.  Typing a text on the US layout and
    reading it back gives the text. *)

From Stdlib Require Import String.
From S2P Require Import Prelude LibcStdlib Thread.

Module Keyboard.
#[local] Close Scope string_scope.
#[local] Open Scope list_scope.
#[local] Abbreviation length := List.length.

Definition KEYBOARD_BUFFER_SIZE : Z := 256.
Definition KEY_UP : Z := 0x11.
Definition KEY_DOWN : Z := 0x12.
Definition KEY_LEFT : Z := 0x13.
Definition KEY_RIGHT : Z := 0x14.

#[local] Open Scope string_scope.
Definition scancode_to_ascii : list Z :=
  [0; 27] ++ LibcStdlib.chars "1234567890-=" ++ [8; 9] ++ LibcStdlib.chars "qwertyuiop[]" ++
  [10; 0] ++ LibcStdlib.chars "asdfghjkl;'`" ++ [0] ++ LibcStdlib.chars "\zxcvbnm,./" ++
  [0; 42; 0; 32; 0] ++ replicate 10 0.
#[local] Close Scope string_scope.

Record kbd : Type := mk_kbd {
  shift_pressed : bool;
  caps_lock : bool;
  keyboard_buffer : list Z;
  buffer_read_pos : Z;
  buffer_write_pos : Z;
  kb_sched : Thread.sched
}.

(** [pending] are the bytes waiting in the controller, which the loop drains;
    the answer, the bytes written to ports, and the new state. *)
Definition keyboard_init (pending : list Z) (k : kbd) : bool * list (Z * Z) * list Z * kbd :=
  (true, [(0x64, 0xAE); (0x60, 0xED)], [],
   mk_kbd (shift_pressed k) (caps_lock k) (keyboard_buffer k) 0 0 (kb_sched k)).

Definition get_shift_variant (c : Z) : Z :=
  match c with
  | 49 => 33 | 50 => 64 | 51 => 35 | 52 => 36 | 53 => 37 | 54 => 94 | 55 => 38 | 56 => 42
  | 57 => 40 | 48 => 41 | 45 => 95 | 61 => 43 | 91 => 123 | 93 => 125 | 59 => 58 | 39 => 34
  | 96 => 126 | 92 => 124 | 44 => 60 | 46 => 62 | 47 => 63
  | _ => c
  end.

Definition keyboard_has_input (k : kbd) : bool :=
  negb (buffer_read_pos k =? buffer_write_pos k).

Definition buffer_get (k : kbd) (i : Z) : outcome Z :=
  of_option (keyboard_buffer k !! Z.to_nat i).

Definition keyboard_peek (k : kbd) : outcome Z :=
  if negb (keyboard_has_input k) then Ok 0 else buffer_get k (buffer_read_pos k).

Definition set_sched (s : Thread.sched) (k : kbd) : kbd :=
  mk_kbd (shift_pressed k) (caps_lock k) (keyboard_buffer k) (buffer_read_pos k)
    (buffer_write_pos k) s.

(** The end of [keyboard_getchar]: taking a character that is there. *)
Definition take_char (k : kbd) : outcome (Z * kbd) :=
  c ← buffer_get k (buffer_read_pos k);
  Ok (c, mk_kbd (shift_pressed k) (caps_lock k) (keyboard_buffer k)
           ((buffer_read_pos k + 1) mod KEYBOARD_BUFFER_SIZE) (buffer_write_pos k) (kb_sched k)).

(** The body of its loop: the thread blocks and yields. *)
Definition block_and_yield (k : kbd) : outcome kbd :=
  let s := kb_sched k in
  s1 ← Thread.assign (Thread.current_thread s) (Thread.set_state Thread.THREAD_BLOCKED) s;
  s2 ← Thread.yield s1;
  Ok (set_sched s2 k).

(** [resumes] is what the interrupts and the other threads do each time this
    one yields, until it runs again; a reader that is not resumed waits. *)
Fixpoint keyboard_getchar (resumes : list (kbd → outcome kbd)) (k : kbd) : outcome (Z * kbd) :=
  if keyboard_has_input k then take_char k else
  match resumes with
  | [] => OutOfFuel
  | others :: resumes' => k1 ← block_and_yield k; k2 ← others k1; keyboard_getchar resumes' k2
  end.

(** The [default] case of the handler. *)
Definition plain_key (shift caps : bool) (scancode : Z) : outcome Z :=
  if scancode <? Z.of_nat (length scancode_to_ascii) then
    ascii ← of_option (scancode_to_ascii !! Z.to_nat scancode);
    Ok (if (97 <=? ascii) && (ascii <=? 122) then
          if xorb shift caps then ascii - 32 else ascii
        else if shift then get_shift_variant ascii else ascii)
  else Ok 0.

Definition put_char (ascii : Z) (k : kbd) : outcome kbd :=
  if ascii =? 0 then Ok k else
  _ ← buffer_get k (buffer_write_pos k);
  s ← Thread.thread_wakeup_blocked (kb_sched k);
  Ok (mk_kbd (shift_pressed k) (caps_lock k)
        (<[Z.to_nat (buffer_write_pos k) := ascii]> (keyboard_buffer k)) (buffer_read_pos k)
        ((buffer_write_pos k + 1) mod KEYBOARD_BUFFER_SIZE) s).

Definition set_mods (shift caps : bool) (k : kbd) : kbd :=
  mk_kbd shift caps (keyboard_buffer k) (buffer_read_pos k) (buffer_write_pos k) (kb_sched k).

(** [scancode] is the byte read from the data port. *)
Definition keyboard_handler (scancode : Z) (k : kbd) : outcome kbd :=
  if negb (Z.land scancode 0x80 =? 0) then
    let release_scancode := Z.land scancode 0x7F in
    Ok (if (release_scancode =? 0x2A) || (release_scancode =? 0x36)
        then set_mods false (caps_lock k) k else k)
  else match scancode with
  | 0x2A | 0x36 => Ok (set_mods true (caps_lock k) k)
  | 0x3A => Ok (set_mods (shift_pressed k) (negb (caps_lock k)) k)
  | 0x48 => put_char KEY_UP k
  | 0x50 => put_char KEY_DOWN k
  | 0x4B => put_char KEY_LEFT k
  | 0x4D => put_char KEY_RIGHT k
  | 0x0E => put_char 8 k
  | _ => ascii ← plain_key (shift_pressed k) (caps_lock k) scancode; put_char ascii k
  end.

(** ** The queue *)

Definition count (k : kbd) : Z := (buffer_write_pos k - buffer_read_pos k) mod 256.

(** The characters that wait, oldest first. *)
Definition queue (k : kbd) : list Z :=
  (λ i, default 0 (keyboard_buffer k !! Z.to_nat ((buffer_read_pos k + i) mod 256)))
    <$> seqZ 0 (count k).

Record kbd_ok (k : kbd) : Prop := {
  ko_length : length (keyboard_buffer k) = 256%nat;
  ko_read : 0 ≤ buffer_read_pos k < 256;
  ko_write : 0 ≤ buffer_write_pos k < 256;
  ko_sched : Thread.system_ok (kb_sched k)
}.

(** The specification of a key press that gives a character. *)
Definition enqueue (c : Z) (q : list Z) : list Z :=
  if (length q <? 255)%nat then q ++ [c] else [].

Lemma queue_length k : kbd_ok k → Z.of_nat (length (queue k)) = count k.
Proof. intros []. unfold queue, count. rewrite length_fmap, length_seqZ. zdm. Qed.

Lemma has_input_queue k : kbd_ok k → keyboard_has_input k = bool_decide (queue k ≠ []).
Proof.
  intros Hok. pose proof (queue_length k Hok) as Hl. destruct Hok as [_ Hr Hw _].
  unfold keyboard_has_input, count in *. destruct (Z.eqb_spec (buffer_read_pos k) (buffer_write_pos k)) as [E|E].
  - rewrite E, Z.sub_diag in Hl. destruct (queue k); [done|]. cbn [List.length] in Hl. zdm.
  - destruct (queue k) eqn:Eq; [|done]. cbn [List.length] in Hl. zdm.
Qed.

Lemma buffer_get_ok k i :
  kbd_ok k → 0 ≤ i < 256 → ∃ c, buffer_get k i = Ok c ∧ keyboard_buffer k !! Z.to_nat i = Some c.
Proof.
  intros [Hl _ _ _] Hi. destruct (lookup_lt_is_Some_2 (keyboard_buffer k) (Z.to_nat i)) as [c Hc];
    [lia|]. exists c. unfold buffer_get. by rewrite Hc.
Qed.

Lemma put_char_queue c k :
  kbd_ok k → c ≠ 0 →
  ∃ k', put_char c k = Ok k' ∧ kbd_ok k' ∧ queue k' = enqueue c (queue k) ∧
    shift_pressed k' = shift_pressed k ∧ caps_lock k' = caps_lock k.
Proof.
  intros Hok Hc. unfold put_char. rewrite (proj2 (Z.eqb_neq _ _) Hc).
  pose proof (queue_length k Hok) as Hl.
  destruct (buffer_get_ok k (buffer_write_pos k) Hok) as (b & -> & _); [apply Hok|]. run.
  destruct Hok as [Hlen Hr Hw Hs].
  destruct (Thread.wakeup_system (kb_sched k) Hs) as (s' & -> & Hs'). run.
  eexists. split; [reflexivity|]. split; [constructor; cbn; [by rewrite length_insert|done|unfold KEYBOARD_BUFFER_SIZE; zdm|done]|].
  split; [|done]. unfold enqueue, KEYBOARD_BUFFER_SIZE, count in *.
  destruct (Nat.ltb_spec (length (queue k)) 255) as [Hlt|Hge]; unfold queue, count in *; cbn in *.
  - set (n := (buffer_write_pos k - buffer_read_pos k) mod 256) in *.
    assert (En : ((buffer_write_pos k + 1) mod 256 - buffer_read_pos k) mod 256 = n + 1) by (subst n; zdm).
    rewrite En, seqZ_app by (subst n; zdm). rewrite fmap_app. f_equal.
    + apply list_fmap_ext. intros i x Hx. apply lookup_seqZ in Hx as [-> Hx].
      rewrite list_lookup_insert_ne; [done|]. subst n. zdm.
    + assert (E1 : (buffer_read_pos k + n) mod 256 = buffer_write_pos k) by (subst n; zdm).
      rewrite (seqZ_cons (0 + n) 1) by lia. cbn [fmap list_fmap].
      rewrite Z.add_0_l, E1. rewrite list_lookup_insert_eq by lia. done.
  - rewrite length_fmap, length_seqZ in *.
    replace (((buffer_write_pos k + 1) mod 256 - buffer_read_pos k) mod 256) with 0 by zdm. done.
Qed.

Lemma take_char_queue k c q :
  kbd_ok k → queue k = c :: q →
  ∃ k', take_char k = Ok (c, k') ∧ kbd_ok k' ∧ queue k' = q ∧
    shift_pressed k' = shift_pressed k ∧ caps_lock k' = caps_lock k.
Proof.
  intros Hok Hq. pose proof (queue_length k Hok) as Hl. rewrite Hq in Hl. cbn in Hl.
  unfold take_char. destruct (buffer_get_ok k (buffer_read_pos k) Hok) as (b & -> & Hb); [apply Hok|].
  run. destruct Hok as [Hlen Hr Hw Hs]. unfold count in *.
  set (n := (buffer_write_pos k - buffer_read_pos k) mod 256) in *.
  assert (Eq : queue k = b :: ((λ i, default 0 (keyboard_buffer k !! Z.to_nat ((buffer_read_pos k + i) mod 256))) <$> seqZ 1 (n - 1))).
  { unfold queue, count. fold n. rewrite (seqZ_cons 0 n) by lia. cbn.
    rewrite Z.add_0_r, Z.mod_small, Hb by lia. done. }
  rewrite Hq in Eq. injection Eq as -> ->. eexists. split; [reflexivity|].
  split; [constructor; cbn; [done|unfold KEYBOARD_BUFFER_SIZE; zdm|done|done]|]. split; [|done].
  unfold queue, count, KEYBOARD_BUFFER_SIZE. cbn.
  replace ((buffer_write_pos k - (buffer_read_pos k + 1) mod 256) mod 256) with (n - 1) by (subst n; zdm).
  assert (E1 : seqZ 1 (n - 1) = Z.add 1 <$> seqZ 0 (n - 1)) by (symmetry; apply (fmap_add_seqZ 1 0)).
  rewrite E1, <- list_fmap_compose. apply list_fmap_ext. intros i x _. cbn. do 3 f_equal. zdm.
Qed.

(** ** Events *)

(** A scan code as the handler takes it: the new state of the two modifiers and
    the character, 0 for none. *)
Definition key_event (shift caps : bool) (scancode : Z) : outcome (bool * bool * Z) :=
  if negb (Z.land scancode 0x80 =? 0) then
    let code := Z.land scancode 0x7F in
    Ok (shift && negb ((code =? 0x2A) || (code =? 0x36)), caps, 0)
  else match scancode with
  | 0x2A | 0x36 => Ok (true, caps, 0)
  | 0x3A => Ok (shift, negb caps, 0)
  | 0x48 => Ok (shift, caps, KEY_UP)
  | 0x50 => Ok (shift, caps, KEY_DOWN)
  | 0x4B => Ok (shift, caps, KEY_LEFT)
  | 0x4D => Ok (shift, caps, KEY_RIGHT)
  | 0x0E => Ok (shift, caps, 8)
  | _ => c ← plain_key shift caps scancode; Ok (shift, caps, c)
  end.

Lemma handler_event scancode k :
  keyboard_handler scancode k =
    ('(shift, caps, c) ← key_event (shift_pressed k) (caps_lock k) scancode;
     put_char c (set_mods shift caps k)).
Proof.
  assert (Hk : ∀ sh ca, shift_pressed k = sh → caps_lock k = ca → set_mods sh ca k = k)
    by (intros ? ? <- <-; by destruct k).
  unfold keyboard_handler, key_event.
  destruct (negb (Z.land scancode 0x80 =? 0)).
  - run. destruct (_ || _); cbn [negb].
    + by rewrite andb_false_r.
    + rewrite andb_true_r, Hk; done.
  - assert (Hd : (ascii ← plain_key (shift_pressed k) (caps_lock k) scancode; put_char ascii k) =
      ('(shift, caps, c) ← (c ← plain_key (shift_pressed k) (caps_lock k) scancode;
         Ok (shift_pressed k, caps_lock k, c)); put_char c (set_mods shift caps k))).
    { destruct (plain_key _ _ _); run; [|done..]. by rewrite Hk. }
    destruct scancode as [|p|p]; [exact Hd| |exact Hd].
    repeat (destruct p as [p|p|]; try exact Hd; try (run; reflexivity);
      try (run; rewrite (Hk _ _ eq_refl eq_refl); reflexivity)).
Qed.

(** Every scan code is handled, and a released key gives no character. *)
Lemma key_event_total shift caps scancode :
  0 ≤ scancode < 256 → ∃ sh ca c, key_event shift caps scancode = Ok (sh, ca, c).
Proof.
  intros Hs. unfold key_event. destruct (negb _); [eauto|].
  assert (Hd : ∃ sh ca c, (c ← plain_key shift caps scancode; Ok (shift, caps, c)) = Ok (sh, ca, c)).
  { unfold plain_key. destruct (Z.ltb_spec scancode (Z.of_nat (length scancode_to_ascii))); [|run; eauto].
    destruct (lookup_lt_is_Some_2 scancode_to_ascii (Z.to_nat scancode)) as [c ->]; [lia|].
    cbn [of_option]. run. eauto. }
  destruct scancode as [|p|p]; [exact Hd| |exact Hd].
  repeat (destruct p as [p|p|]; try exact Hd; try (do 3 eexists; reflexivity)).
Qed.

Lemma set_mods_ok sh ca k : kbd_ok k → kbd_ok (set_mods sh ca k) ∧ queue (set_mods sh ca k) = queue k.
Proof. intros [H1 H2 H3 H4]. split; [by constructor|done]. Qed.

Lemma handler_queue scancode k sh ca c :
  kbd_ok k → key_event (shift_pressed k) (caps_lock k) scancode = Ok (sh, ca, c) →
  ∃ k', keyboard_handler scancode k = Ok k' ∧ kbd_ok k' ∧
    queue k' = (if c =? 0 then queue k else enqueue c (queue k)) ∧
    shift_pressed k' = sh ∧ caps_lock k' = ca.
Proof.
  intros Hok E. rewrite handler_event, E. run.
  destruct (set_mods_ok sh ca k Hok) as [Hok1 Hq1]. destruct (Z.eqb_spec c 0) as [->|Hc].
  - exists (set_mods sh ca k). by rewrite Hq1.
  - destruct (put_char_queue c _ Hok1 Hc) as (k' & E' & Hok' & Hq' & Hs & Hcl).
    exists k'. by rewrite <- Hq1.
Qed.

(** Blocking leaves the buffer as it is. *)
Lemma block_and_yield_ok k :
  kbd_ok k →
  ∃ s', block_and_yield k = Ok (set_sched s' k) ∧ Thread.system_ok s'.
Proof.
  intros [_ _ _ Hs]. unfold block_and_yield.
  destruct (Thread.assign_current_system (Thread.set_state Thread.THREAD_BLOCKED) (kb_sched k) Hs)
    as (s1 & -> & H1); [done|]. run.
  destruct (Thread.yield_system s1 H1) as (s2 & -> & H2). run. eauto.
Qed.

(** ** The US layout of scan code set 1: per row the first code, the characters
    of the keys and the characters with shift. *)
#[local] Open Scope string_scope.
Definition us_rows : list (Z * list Z * list Z) :=
  [(2, LibcStdlib.chars "1234567890-=", LibcStdlib.chars "!@#$%^&*()_+");
   (16, LibcStdlib.chars "qwertyuiop[]", LibcStdlib.chars "QWERTYUIOP{}");
   (30, LibcStdlib.chars "asdfghjkl;'`", LibcStdlib.chars "ASDFGHJKL:" ++ [34; 126]);
   (43, LibcStdlib.chars "\zxcvbnm,./", LibcStdlib.chars "|ZXCVBNM<>?");
   (57, [32], [32]); (28, [10], [10]); (15, [9], [9]); (14, [8], [8])]%list.
#[local] Close Scope string_scope.

Definition us_keys : list (Z * Z * Z) :=
  us_rows ≫= λ '(code, plain, shifted), zip (zip (seqZ code (Z.of_nat (length plain))) plain) shifted.

Definition press (code : Z) : list Z := [code; code + 0x80].

(** What a typist does for a character: the key, with the left shift held if needed. *)
Definition keystrokes (c : Z) : list Z :=
  match list_find (λ '(_, plain, _), plain = c) us_keys with
  | Some (_, (code, _, _)) => press code
  | None =>
      match list_find (λ '(_, _, shifted), shifted = c) us_keys with
      | Some (_, (code, _, _)) => [0x2A] ++ press code ++ [0xAA]
      | None => []
      end
  end.

(** Printable characters, newline, tab and backspace. *)
Definition typable (c : Z) : bool := ((32 <=? c) && (c <=? 126)) || (c =? 10) || (c =? 9) || (c =? 8).

(** The characters of a list of scan codes. *)
Fixpoint events (shift caps : bool) (codes : list Z) : outcome (bool * bool * list Z) :=
  match codes with
  | [] => Ok (shift, caps, [])
  | code :: codes' =>
      '(sh, ca, c) ← key_event shift caps code;
      '(sh', ca', cs) ← events sh ca codes';
      Ok (sh', ca', if c =? 0 then cs else c :: cs)
  end.

Lemma events_keystrokes c :
  typable c = true → events false false (keystrokes c) = Ok (false, false, [c]).
Proof.
  intros Hc.
  assert (Hall : forallb (λ c, if typable c then
      match events false false (keystrokes c) with
      | Ok (false, false, [d]) => c =? d | _ => false end else true) (seqZ 0 127) = true)
    by (vm_compute; reflexivity).
  rewrite forallb_forall in Hall. specialize (Hall c). rewrite Hc in Hall.
  destruct (events false false (keystrokes c)) as [[[[] []] [|d [|? ?]]]| | |]; try (ospecialize (Hall _); [|discriminate Hall]);
    try (apply list_elem_of_In, elem_of_seqZ; unfold typable in Hc; lia).
  ospecialize (Hall _); [apply list_elem_of_In, elem_of_seqZ; unfold typable in Hc; lia|].
  apply Z.eqb_eq in Hall. by subst.
Qed.

Lemma enqueue_room c q : (length q < 255)%nat → enqueue c q = q ++ [c].
Proof. intros H. unfold enqueue. by rewrite (proj2 (Nat.ltb_lt _ _)) by lia. Qed.

(** The handler run on a list of scan codes appends their characters. *)
Lemma handlers_events codes : ∀ k sh ca cs,
  kbd_ok k → events (shift_pressed k) (caps_lock k) codes = Ok (sh, ca, cs) →
  (length (queue k) + length cs ≤ 255)%nat →
  ∃ k', for_each keyboard_handler codes k = Ok k' ∧ kbd_ok k' ∧ queue k' = queue k ++ cs ∧
    shift_pressed k' = sh ∧ caps_lock k' = ca.
Proof.
  induction codes as [|code codes IH]; intros k sh ca cs Hok E Hl; cbn [events for_each] in *.
  { injection E as <- <- <-. exists k. by rewrite app_nil_r. }
  inv_ok E. destruct r as [[sh1 ca1] c]. inv_ok E. destruct r as [[sh2 ca2] cs2].
  apply Ok_inj in E. injection E as <- <- <-.
  destruct (handler_queue code k sh1 ca1 c Hok E0) as (k1 & -> & Hok1 & Hq1 & <- & <-). run.
  destruct (Z.eqb_spec c 0) as [->|Hc].
  - rewrite <- Hq1 in *. by apply IH.
  - cbn [List.length] in Hl. rewrite enqueue_room in Hq1 by lia.
    destruct (IH k1 _ _ _ Hok1 E1) as (k' & -> & Hok' & Hq' & Hs & Hcl).
    + rewrite Hq1, length_app. cbn. lia.
    + exists k'. rewrite Hq', Hq1, <- app_assoc. done.
Qed.

Lemma events_app codes1 codes2 sh ca sh1 ca1 cs1 sh2 ca2 cs2 :
  events sh ca codes1 = Ok (sh1, ca1, cs1) → events sh1 ca1 codes2 = Ok (sh2, ca2, cs2) →
  events sh ca (codes1 ++ codes2) = Ok (sh2, ca2, cs1 ++ cs2).
Proof.
  revert sh ca cs1. induction codes1 as [|code codes1 IH]; intros sh ca cs1 H1 H2; cbn [events app] in *.
  { by injection H1 as -> -> <-. }
  inv_ok H1. destruct r as [[sh' ca'] c]. inv_ok H1. destruct r as [[sh'' ca''] cs].
  apply Ok_inj in H1. injection H1 as -> -> <-. rewrite E. run.
  rewrite (IH _ _ _ E0 H2). run. by destruct (c =? 0).
Qed.

Lemma events_text text :
  Forall (λ c, typable c = true) text →
  events false false (text ≫= keystrokes) = Ok (false, false, text).
Proof.
  induction 1 as [|c text Hc _ IH]; [done|]. rewrite bind_cons.
  exact (events_app _ _ _ _ _ _ [c] _ _ _ (events_keystrokes c Hc) IH).
Qed.

(** Reading a line of [n] characters. *)
Fixpoint read_chars (n : nat) (k : kbd) : outcome (list Z * kbd) :=
  match n with
  | O => Ok ([], k)
  | S n' => '(c, k1) ← keyboard_getchar [] k; '(cs, k2) ← read_chars n' k1; Ok (c :: cs, k2)
  end.

Lemma getchar_ready resumes k c q :
  kbd_ok k → queue k = c :: q →
  ∃ k', keyboard_getchar resumes k = Ok (c, k') ∧ kbd_ok k' ∧ queue k' = q.
Proof.
  intros Hok Hq. destruct (take_char_queue k c q Hok Hq) as (k' & E & Hok' & Hq' & _).
  exists k'. split; [|done]. destruct resumes; cbn [keyboard_getchar];
    rewrite has_input_queue, bool_decide_eq_true_2 by (done || by rewrite Hq); done.
Qed.

Lemma read_chars_queue cs : ∀ k q,
  kbd_ok k → queue k = cs ++ q →
  ∃ k', read_chars (length cs) k = Ok (cs, k') ∧ kbd_ok k' ∧ queue k' = q.
Proof.
  induction cs as [|c cs IH]; intros k q Hok Hq; cbn [read_chars List.length].
  { by exists k. }
  destruct (getchar_ready [] k c (cs ++ q) Hok Hq) as (k1 & -> & Hok1 & Hq1). run.
  destruct (IH k1 q Hok1 Hq1) as (k2 & -> & Hok2 & Hq2). run. by exists k2.
Qed.

(** ** Properties *)

(** The keyboard on the small machine of the scheduler. *)
Definition demo_kbd (s : Thread.sched) : kbd := mk_kbd false false (replicate 256 0) 250 250 s.

Lemma demo_kbd_ok : ∃ s, Thread.demo = Ok s ∧ kbd_ok (demo_kbd s).
Proof.
  destruct Thread.demo_ok as (s & bl & E & Hok & Hk). exists s. split; [exact E|].
  constructor; cbn [keyboard_buffer buffer_read_pos buffer_write_pos kb_sched demo_kbd];
    [by rewrite length_replicate|lia|lia|].
  exists [Thread.T0; Thread.T2; Thread.T1; Thread.TI], [], bl. rewrite app_nil_r. split; [exact Hok|exact Hk].
Qed.

(** The circular buffer implements a queue: [keyboard_has_input] and
    [keyboard_peek] look at its front, [keyboard_getchar] takes from it without
    waiting unless it is empty, and each interrupt appends the character of its
    scan code, if it has one, when fewer than 255 wait.  One more makes the
    full buffer look empty and all of them are lost.  A reader that finds the
    queue empty blocks and gets the character of the key pressed meanwhile. *)
Theorem keyboard_is_queue k scancode :
  kbd_ok k → 0 ≤ scancode < 256 →
  keyboard_has_input k = bool_decide (queue k ≠ []) ∧
  keyboard_peek k = Ok (default 0 (head (queue k))) ∧
  (∀ c q resumes, queue k = c :: q →
     ∃ k', keyboard_getchar resumes k = Ok (c, k') ∧ kbd_ok k' ∧ queue k' = q) ∧
  ∃ sh ca c k', key_event (shift_pressed k) (caps_lock k) scancode = Ok (sh, ca, c) ∧
    keyboard_handler scancode k = Ok k' ∧ kbd_ok k' ∧
    queue k' = (if c =? 0 then queue k
                else if (length (queue k) <? 255)%nat then queue k ++ [c] else []) ∧
    (queue k = [] → c ≠ 0 →
       ∃ k1, keyboard_getchar [keyboard_handler scancode] k = Ok (c, k1) ∧ kbd_ok k1 ∧
         queue k1 = []).
Proof.
  intros Hok Hs. split; [by apply has_input_queue|]. split; [|split; [intros; by apply getchar_ready|]].
  - unfold keyboard_peek. rewrite has_input_queue by done. destruct (queue k) as [|c q] eqn:Eq; [done|].
    destruct (take_char_queue k c q Hok Eq) as (k' & E & _). unfold take_char in E.
    inv_ok E. apply Ok_inj in E. injection E as -> _. exact E0.
  - destruct (key_event_total (shift_pressed k) (caps_lock k) scancode Hs) as (sh & ca & c & E).
    destruct (handler_queue scancode k sh ca c Hok E) as (k' & E1 & Hok' & Hq' & _).
    exists sh, ca, c, k'. split_and!; try done. intros Hq Hc. cbn [keyboard_getchar].
    rewrite has_input_queue, Hq by done. cbn [bool_decide].
    destruct (block_and_yield_ok k Hok) as (s' & -> & Hs'). run.
    assert (Hok1 : kbd_ok (set_sched s' k)) by (destruct Hok; by constructor).
    destruct (handler_queue scancode (set_sched s' k) sh ca c Hok1 E) as (k2 & -> & Hok2 & Hq2 & _).
    run. rewrite (proj2 (Z.eqb_neq _ _) Hc) in Hq2. change (queue (set_sched s' k)) with (queue k) in Hq2.
    rewrite Hq in Hq2. by apply (getchar_ready []) in Hq2.
Qed.

Lemma keyboard_is_queue_witness :
  ∃ s k', Thread.demo = Ok s ∧ keyboard_handler 0x1E (demo_kbd s) = Ok k' ∧ queue k' = [97].
Proof.
  destruct demo_kbd_ok as (s & E & Hok). exists s.
  destruct (keyboard_is_queue (demo_kbd s) 0x1E Hok) as (_ & _ & _ & sh & ca & c & k' & Ee & Eh & _ & Hq & _);
    [lia|]. exists k'. split; [exact E|]. split; [exact Eh|]. rewrite Hq.
  change (key_event (shift_pressed (demo_kbd s)) (caps_lock (demo_kbd s)) 0x1E)
    with (key_event false false 0x1E) in Ee. injection Ee as <- <- <-. reflexivity.
Defined.

(** Typing on a US keyboard: for a text of printable characters, newlines, tabs
    and backspaces that fits the buffer, pressing and releasing its keys, with
    the shift key where the layout wants it, and then reading gives the text. *)
Theorem typing_roundtrip text k :
  Forall (λ c, typable c = true) text → (length text ≤ 255)%nat →
  kbd_ok k → queue k = [] → shift_pressed k = false → caps_lock k = false →
  ∃ k1 k2, for_each keyboard_handler (text ≫= keystrokes) k = Ok k1 ∧
    read_chars (length text) k1 = Ok (text, k2) ∧ kbd_ok k2 ∧ queue k2 = [] ∧
    shift_pressed k1 = false.
Proof.
  intros Ht Hl Hok Hq Hs Hc. pose proof (events_text text Ht) as E.
  destruct (handlers_events (text ≫= keystrokes) k false false text Hok)
    as (k1 & E1 & Hok1 & Hq1 & Hs1 & _); [by rewrite Hs, Hc|by rewrite Hq|].
  rewrite Hq in Hq1. cbn [app] in Hq1. rewrite <- (app_nil_r text) in Hq1.
  destruct (read_chars_queue text k1 [] Hok1 Hq1) as (k2 & E2 & Hok2 & Hq2).
  exists k1, k2. auto.
Qed.

Lemma typing_roundtrip_witness :
  ∃ s k1 k2, Thread.demo = Ok s ∧
    for_each keyboard_handler [0x2A; 0x23; 0xA3; 0xAA; 0x17; 0x97] (demo_kbd s) = Ok k1 ∧
    read_chars 2 k1 = Ok ([72; 105], k2).
Proof.
  destruct demo_kbd_ok as (s & E & Hok). exists s.
  destruct (typing_roundtrip [72; 105] (demo_kbd s)) as (k1 & k2 & E1 & E2 & _);
    [repeat constructor|cbn; lia|exact Hok|reflexivity..|].
  exists k1, k2. split; [exact E|]. split; [exact E1|exact E2].
Defined.
End Keyboard.
