(* ===== verification/Vga.v ===== *)
(** * The text terminal (drivers/vga.cpp)

    The video memory is byte memory, the cells are 16-bit words in it, and
    scrolling is a [memmove].  The cursor registers of the display controller
    are kept by index.

    The specification is a screen of 25 rows of 80 cells with a cursor: printing
    any bytes on the terminal does to it what [screen_write] does to the
    screen, never touches memory outside the cells, keeps the cursor on the
    screen, and tells the controller where it is. *)

From S2P Require Import Prelude Paging LibcString.

Module Vga.
Import LibcString.

Definition VGA_WIDTH : Z := 80.
Definition VGA_HEIGHT : Z := 25.
Definition VGA_MEMORY : Z := 0xB8000 + Paging.KERNEL_VIRT_OFFSET.
Definition VGA_COLOR_BLACK : Z := 0.
Definition VGA_COLOR_WHITE : Z := 15.

Record vga_color_t : Set := mk_color { fg : Z; bg : Z }.

Definition to_byte (c : vga_color_t) : Z := u8 (Z.lor (Z.shiftl (bg c) 4) (Z.land (fg c) 0x0F)).
Definition vga_entry (uc : Z) (color : vga_color_t) : Z :=
  u16 (Z.lor (u8 uc) (Z.shiftl (to_byte color) 8)).

Record terminal : Type := mk_terminal {
  terminal_row : Z;
  terminal_column : Z;
  terminal_color : vga_color_t;
  video : mem;
  crtc : gmap Z Z                (** registers of the display controller *)
}.

Definition set_cursor (row col : Z) (t : terminal) : terminal :=
  mk_terminal row col (terminal_color t) (video t) (crtc t).
Definition set_video (m : mem) (t : terminal) : terminal :=
  mk_terminal (terminal_row t) (terminal_column t) (terminal_color t) m (crtc t).
Definition set_crtc (c : gmap Z Z) (t : terminal) : terminal :=
  mk_terminal (terminal_row t) (terminal_column t) (terminal_color t) (video t) c.

(** [terminal_buffer[i] = v] *)
Definition store16 (a v : Z) (m : mem) : outcome mem :=
  m1 ← store a (v mod 256) m; store (a + 1) (v / 256) m1.
Definition put_cell (i v : Z) (t : terminal) : outcome terminal :=
  m ← store16 (VGA_MEMORY + 2 * i) v (video t); Ok (set_video m t).

(** A register is selected at port 0x3D4 and read or written at 0x3D5. *)
Definition terminal_enable_cursor (cursor_start cursor_end : Z) (t : terminal) : terminal :=
  let r := crtc t in
  let r1 := <[0x0A := Z.lor (Z.land (default 0 (r !! 0x0A)) 0xC0) cursor_start]> r in
  set_crtc (<[0x0B := Z.lor (Z.land (default 0 (r1 !! 0x0B)) 0xE0) cursor_end]> r1) t.

Definition update_cursor (x y : Z) (t : terminal) : terminal :=
  let pos := u16 (y * VGA_WIDTH + x) in
  set_crtc (<[0x0E := Z.land (Z.shiftr pos 8) 0xFF]> (<[0x0F := Z.land pos 0xFF]> (crtc t))) t.

(** The two nested loops that blank the screen. *)
Definition fill_screen (color : vga_color_t) (t : terminal) : outcome terminal :=
  for_range (λ y, for_range (λ x, put_cell (y * VGA_WIDTH + x) (vga_entry 32 color)) 80 0) 25 0 t.

Definition white_on_black : vga_color_t := mk_color VGA_COLOR_WHITE VGA_COLOR_BLACK.

Definition terminal_initialize (t : terminal) : outcome terminal :=
  t1 ← fill_screen white_on_black (mk_terminal 0 0 white_on_black (video t) (crtc t));
  Ok (terminal_enable_cursor 14 15 t1).

Definition terminal_setcolor (color : vga_color_t) (t : terminal) : terminal :=
  mk_terminal (terminal_row t) (terminal_column t) color (video t) (crtc t).

Definition terminal_putentryat (c : Z) (color : vga_color_t) (x y : Z) (t : terminal)
  : outcome terminal := put_cell (y * VGA_WIDTH + x) (vga_entry c color) t.

Definition terminal_scroll (t : terminal) : outcome terminal :=
  '(_, m) ← memmove VGA_MEMORY (VGA_MEMORY + 2 * VGA_WIDTH) (2 * (VGA_HEIGHT - 1) * VGA_WIDTH) (video t);
  t1 ← for_range (λ x, put_cell ((VGA_HEIGHT - 1) * VGA_WIDTH + x) (vga_entry 32 (terminal_color t)))
         80 0 (set_video m t);
  Ok (set_cursor (VGA_HEIGHT - 1) (terminal_column t1) t1).

(** [terminal_column = 0; if (++terminal_row == VGA_HEIGHT) terminal_scroll();] *)
Definition next_line (t : terminal) : outcome terminal :=
  let t1 := set_cursor (terminal_row t + 1) 0 t in
  if terminal_row t1 =? VGA_HEIGHT then terminal_scroll t1 else Ok t1.

Definition show_cursor (t : terminal) : terminal := update_cursor (terminal_column t) (terminal_row t) t.

Definition terminal_putchar (c : Z) (t : terminal) : outcome terminal :=
  if c =? 10 then t1 ← next_line t; Ok (show_cursor t1)
  else if c =? 9 then
    let t1 := set_cursor (terminal_row t) (Z.land (terminal_column t + 8) (u64 (Z.lnot 7))) t in
    t2 ← (if VGA_WIDTH <=? terminal_column t1 then next_line t1 else Ok t1);
    Ok (show_cursor t2)
  else if c =? 8 then
    let t1 :=
      if 0 <? terminal_column t then set_cursor (terminal_row t) (terminal_column t - 1) t
      else if 0 <? terminal_row t then set_cursor (terminal_row t - 1) (VGA_WIDTH - 1) t
      else t in
    t2 ← put_cell (terminal_row t1 * VGA_WIDTH + terminal_column t1)
           (vga_entry 32 (terminal_color t1)) t1;
    Ok (show_cursor t2)
  else
    t1 ← terminal_putentryat c (terminal_color t) (terminal_column t) (terminal_row t) t;
    let t2 := set_cursor (terminal_row t1) (terminal_column t1 + 1) t1 in
    t3 ← (if terminal_column t2 =? VGA_WIDTH then next_line t2 else Ok t2);
    Ok (show_cursor t3).

Definition terminal_write (data : list Z) (t : terminal) : outcome terminal :=
  for_each terminal_putchar data t.

(** [terminal_writestring], of a string given by its bytes up to the null that ends it:
    the [strlen] of the code is the length of the list. *)
Definition terminal_writestring (data : list Z) (t : terminal) : outcome terminal :=
  terminal_write data t.

Definition terminal_clear (custom_color : vga_color_t) (t : terminal) : outcome terminal :=
  t1 ← fill_screen custom_color (set_cursor 0 0 t); Ok (update_cursor 0 0 t1).

Definition terminal_move_cursor (dx : Z) (t : terminal) : terminal :=
  let current_pos := signed 32 (terminal_row t * VGA_WIDTH + terminal_column t + dx) in
  let pos := if current_pos <? 0 then 0
             else if VGA_HEIGHT * VGA_WIDTH <=? current_pos then VGA_HEIGHT * VGA_WIDTH - 1
             else current_pos in
  show_cursor (set_cursor (pos / VGA_WIDTH) (pos mod VGA_WIDTH) t).

(** ** Cells *)

Definition le16 (v : Z) : list Z := [v mod 256; v / 256].

Lemma length_le16s l : length (l ≫= le16) = (2 * length l)%nat.
Proof. induction l as [|v l IH]; [done|]. cbn in *. lia. Qed.

(** The words at [a] in memory. *)
Definition words (m : mem) (a : Z) (l : list Z) : Prop := bytes m a (l ≫= le16).

Lemma words_app m a l1 l2 :
  words m a (l1 ++ l2) ↔ words m a l1 ∧ words m (a + 2 * Z.of_nat (length l1)) l2.
Proof.
  unfold words. rewrite bind_app, bytes_app, length_le16s.
  by replace (Z.of_nat (2 * length l1)) with (2 * Z.of_nat (length l1)) by lia.
Qed.

Lemma store16_spec m a v l i :
  words m a l → (i < length l)%nat →
  ∃ m', store16 (a + 2 * Z.of_nat i) v m = Ok m' ∧ words m' a (<[i := v]> l) ∧
    frame m m' a (2 * Z.of_nat (length l)).
Proof.
  intros Hw Hi. destruct (lookup_lt_is_Some_2 l i Hi) as [x Hx].
  pose proof (take_drop_middle l i x Hx) as El. set (l1 := take i l) in *. set (l2 := drop (S i) l) in *.
  assert (Hl1 : length l1 = i) by (unfold l1; rewrite length_take; lia).
  rewrite <- El in Hw. apply words_app in Hw as [H1 H2]. change (x :: l2) with ([x] ++ l2) in H2.
  apply words_app in H2 as [H2 H3]. rewrite Hl1 in H2, H3. cbn [length] in H3.
  set (p := a + 2 * Z.of_nat i) in *. unfold words in H2. cbn [mbind list_bind app le16] in H2.
  apply bytes_cons in H2 as [Hp H2]. apply bytes_cons in H2 as [Hp1 _].
  unfold store16. rewrite store_ok by by rewrite Hp. run.
  rewrite store_ok by (rewrite lookup_insert_ne by lia; by rewrite Hp1).
  eexists. split; [reflexivity|]. set (m' := <[p + 1 := v / 256]> (<[p := v mod 256]> m)).
  assert (HF : frame m m' p 2).
  { eapply frame_trans; [apply (frame_store m p (v mod 256) p 2); [by rewrite Hp|lia]|].
    apply frame_store; [rewrite lookup_insert_ne by lia; by rewrite Hp1|lia]. }
  assert (Hlen : (length l = i + S (length l2))%nat) by (unfold l2; rewrite length_drop; lia).
  split; [|eapply frame_widen; [| |exact HF]; lia].
  rewrite insert_take_drop by done. fold l1 l2. apply words_app. rewrite Hl1. fold p. split.
  - eapply frame_bytes; [exact HF| |exact H1]. rewrite length_le16s. lia.
  - change (v :: l2) with ([v] ++ l2). apply words_app. split.
    + apply bytes_cons. split; [unfold m'; rewrite lookup_insert_ne by lia; apply lookup_insert_eq|].
      apply bytes_cons. split; [apply lookup_insert_eq|apply bytes_nil].
    + eapply frame_bytes; [exact HF| |exact H3]. cbn. lia.
Qed.

(** The cells of the screen. *)
Definition cells_ok (t : terminal) (l : list Z) : Prop :=
  length l = 2000%nat ∧ words (video t) VGA_MEMORY l.

Lemma put_cell_spec t l i v :
  cells_ok t l → 0 ≤ i < 2000 →
  ∃ m', put_cell i v t = Ok (set_video m' t) ∧ cells_ok (set_video m' t) (<[Z.to_nat i := v]> l).
Proof.
  intros [Hl Hw] Hi. unfold put_cell.
  destruct (store16_spec (video t) VGA_MEMORY v l (Z.to_nat i) Hw) as (m' & E & Hw' & _); [lia|].
  rewrite Z2Nat.id in E by lia. rewrite E. run. exists m'. split; [done|]. split; [by rewrite length_insert|done].
Qed.

Lemma insert_fill (l : list Z) b i v :
  (b + i < length l)%nat →
  <[(b + i)%nat := v]> (take b l ++ replicate i v ++ drop (b + i) l) =
    take b l ++ replicate (S i) v ++ drop (b + S i) l.
Proof.
  intros H. destruct (lookup_lt_is_Some_2 l (b + i)) as [x Hx]; [lia|].
  rewrite (drop_S _ _ _ Hx). replace (b + S i)%nat with (S (b + i)) by lia.
  rewrite replicate_S_end, <- app_assoc. rewrite insert_app_r_alt by (rewrite length_take; lia).
  rewrite length_take, Nat.min_l by lia. replace (b + i - b)%nat with i by lia.
  rewrite insert_app_r_alt by (rewrite length_replicate; lia).
  rewrite length_replicate, Nat.sub_diag. done.
Qed.

(** A loop over consecutive cells. *)
Lemma fill_cells t l b n v :
  cells_ok t l → (b + n ≤ 2000)%nat →
  ∃ m', for_range (λ x, put_cell (Z.of_nat b + x) v) n 0 t = Ok (set_video m' t) ∧
    cells_ok (set_video m' t) (take b l ++ replicate n v ++ drop (b + n) l).
Proof.
  intros Hc Hb. destruct (for_range_rule (λ i t', ∃ m', t' = set_video m' t ∧
      cells_ok t' (take b l ++ replicate (Z.to_nat i) v ++ drop (b + Z.to_nat i) l))
    (λ x, put_cell (Z.of_nat b + x) v) n 0 t) as (t' & E & m' & -> & H).
  - exists (video t). split; [by destruct t|]. change (Z.to_nat 0) with O.
    cbn [replicate app]. rewrite Nat.add_0_r. rewrite (take_drop b l). done.
  - intros i t' Hi (m' & -> & H).
    destruct (put_cell_spec (set_video m' t) _ (Z.of_nat b + i) v H) as (m2 & E & H2); [lia|].
    exists (set_video m2 t). split; [exact E|]. exists m2. split; [done|].
    replace (Z.to_nat (Z.of_nat b + i)) with (b + Z.to_nat i)%nat in H2 by lia.
    rewrite insert_fill in H2 by (destruct Hc; lia).
    by replace (Z.to_nat (i + 1)) with (S (Z.to_nat i)) by lia.
  - exists m'. rewrite Z.add_0_l, Nat2Z.id in H. done.
Qed.

Lemma scroll_spec t l :
  cells_ok t l →
  ∃ m', terminal_scroll t = Ok (set_cursor 24 (terminal_column t) (set_video m' t)) ∧
    cells_ok (set_video m' t) (drop 80 l ++ replicate 80 (vga_entry 32 (terminal_color t))).
Proof.
  intros [Hl Hw]. unfold terminal_scroll, VGA_WIDTH, VGA_HEIGHT.
  rewrite <- (take_drop 80 l) in Hw. apply words_app in Hw as [H1 H2].
  rewrite length_take, Nat.min_l in H2 by lia. unfold words in H2.
  assert (Hlen : length (drop 80 l ≫= le16) = 3840%nat) by (rewrite length_le16s, length_drop; lia).
  destruct (memmove_spec (video t) VGA_MEMORY (VGA_MEMORY + 160) (drop 80 l ≫= le16)) as (m1 & E & Hb & HF).
  - exact H2.
  - rewrite Hlen. intros i Hi. destruct (decide (i < 160)).
    + apply bytes_allocated in H1. rewrite length_le16s, length_take in H1. apply H1. lia.
    + apply bytes_allocated in H2. rewrite Hlen in H2.
      replace (VGA_MEMORY + i) with (VGA_MEMORY + 2 * Z.of_nat 80 + (i - 160)) by lia. apply H2. lia.
  - rewrite Hlen in E, HF. change (2 * (25 - 1) * 80) with (Z.of_nat 3840).
    change (VGA_MEMORY + 2 * 80) with (VGA_MEMORY + 160). rewrite E. run.
    assert (Hc1 : cells_ok (set_video m1 t) (drop 80 l ++ drop 1920 l)).
    { split; [rewrite length_app, !length_drop; lia|]. apply words_app. split; [exact Hb|].
      rewrite length_drop, Hl. cbn [set_video video]. eapply frame_bytes; [exact HF|lia|].
      rewrite <- (take_drop 1840 (drop 80 l)), drop_drop in H2. change (80 + 1840)%nat with 1920%nat in H2.
      apply words_app in H2 as [_ H2]. rewrite length_take, length_drop, Nat.min_l in H2 by lia.
      replace (VGA_MEMORY + 2 * Z.of_nat (2000 - 80)) with (VGA_MEMORY + 2 * Z.of_nat 80 + 2 * Z.of_nat 1840) by lia.
      exact H2. }
    destruct (fill_cells _ _ 1920 80 (vga_entry 32 (terminal_color t)) Hc1) as (m2 & E2 & H3); [lia|].
    change ((25 - 1) * 80) with (Z.of_nat 1920). cbn [set_video terminal_color] in E2 |- *. rewrite E2. run.
    exists m2. split; [done|]. cbn [set_video] in H3 |- *.
    rewrite take_app_length' in H3 by (rewrite length_drop; lia).
    rewrite (drop_ge _ (1920 + 80)), app_nil_r in H3 by (rewrite length_app, !length_drop; lia).
    exact H3.
Qed.

(** ** The screen *)

Record screen : Set := mk_screen { rows : list (list Z); row : Z; col : Z }.

Definition grid (rs : list (list Z)) : Prop := length rs = 25%nat ∧ Forall (λ r, length r = 80%nat) rs.

Definition screen_put (v : Z) (s : screen) : screen :=
  mk_screen (alter (<[Z.to_nat (col s) := v]>) (Z.to_nat (row s)) (rows s)) (row s) (col s).

(** The next line, with a blank line coming in from below on the last one. *)
Definition line_feed (blank : Z) (s : screen) : screen :=
  if row s =? 24 then mk_screen (tail (rows s) ++ [replicate 80 blank]) 24 0
  else mk_screen (rows s) (row s + 1) 0.

Definition move_back (s : screen) : screen :=
  if 0 <? col s then mk_screen (rows s) (row s) (col s - 1)
  else if 0 <? row s then mk_screen (rows s) (row s - 1) 79
  else s.

Definition screen_putchar (color : vga_color_t) (s : screen) (c : Z) : screen :=
  let blank := vga_entry 32 color in
  if c =? 10 then line_feed blank s
  else if c =? 9 then
    let col' := 8 * (col s / 8 + 1) in
    if col' =? 80 then line_feed blank s else mk_screen (rows s) (row s) col'
  else if c =? 8 then screen_put blank (move_back s)
  else
    let s1 := screen_put (vga_entry c color) s in
    if col s =? 79 then line_feed blank s1 else mk_screen (rows s1) (row s1) (col s1 + 1).

Definition screen_write (color : vga_color_t) (data : list Z) (s : screen) : screen :=
  foldl (screen_putchar color) s data.

(** A terminal that shows [s]. *)
Record shows (t : terminal) (s : screen) : Prop := {
  sh_grid : grid (rows s);
  sh_cells : words (video t) VGA_MEMORY (concat (rows s));
  sh_row : terminal_row t = row s;
  sh_col : terminal_column t = col s;
  sh_row_range : 0 ≤ row s < 25;
  sh_col_range : 0 ≤ col s < 80
}.

(** The cursor registers point at the cell of the cursor. *)
Definition cursor_shown (t : terminal) : Prop :=
  crtc t !! 0x0F = Some ((80 * terminal_row t + terminal_column t) mod 256) ∧
  crtc t !! 0x0E = Some ((80 * terminal_row t + terminal_column t) / 256).

Lemma length_concat80 (rs : list (list Z)) : Forall (λ r, length r = 80%nat) rs → length (concat rs) = (80 * length rs)%nat.
Proof. induction 1 as [|r rs H _ IH]; [done|]. cbn. rewrite length_app. lia. Qed.

Lemma grid_cells t s : shows t s → cells_ok t (concat (rows s)).
Proof. intros [[Hn Hg] Hw _ _ _ _]. split; [|done]. rewrite length_concat80 by done. lia. Qed.

Lemma concat_put (rs : list (list Z)) r c v :
  Forall (λ r, length r = 80%nat) rs → (r < length rs)%nat → (c < 80)%nat →
  concat (alter (<[c := v]>) r rs) = <[(r * 80 + c)%nat := v]> (concat rs).
Proof.
  intros Hg. revert r. induction Hg as [|x rs Hx _ IH]; intros r Hr Hc; cbn in Hr; [lia|].
  destruct r as [|r].
  - change (alter (<[c:=v]>) 0%nat (x :: rs)) with (<[c:=v]> x :: rs). cbn [concat].
    by rewrite insert_app_l by lia.
  - change (alter (<[c:=v]>) (S r) (x :: rs)) with (x :: alter (<[c:=v]>) r rs). cbn [concat].
    rewrite IH by lia. rewrite insert_app_r_alt by lia. do 2 f_equal. lia.
Qed.

Lemma grid_put rs r c v : grid rs → grid (alter (<[c := v]>) r rs).
Proof.
  intros [Hn Hg]. split; [by rewrite length_alter|]. apply Forall_alter; [done|].
  intros x _ Hx. by rewrite length_insert.
Qed.

Lemma grid_scroll rs v : grid rs → grid (tail rs ++ [replicate 80 v]) ∧
  concat (tail rs ++ [replicate 80 v]) = drop 80 (concat rs) ++ replicate 80 v.
Proof.
  intros [Hn Hg]. destruct Hg as [|r rs Hr Hg]; [done|]. cbn [tail]. split.
  - split; [rewrite length_app; cbn in *; lia|]. apply Forall_app. split; [done|].
    repeat constructor.
  - rewrite concat_app. cbn [concat]. rewrite app_nil_r. by rewrite drop_app_length' by done.
Qed.

(** Writing the cell under the cursor. *)
Lemma put_shows t s v :
  shows t s →
  ∃ m', put_cell (terminal_row t * VGA_WIDTH + terminal_column t) v t = Ok (set_video m' t) ∧
    shows (set_video m' t) (screen_put v s).
Proof.
  intros Hs. pose proof (grid_cells t s Hs) as Hc. destruct Hs as [Hg Hw Hr Hcl Hrr Hcr].
  destruct (put_cell_spec t _ (terminal_row t * VGA_WIDTH + terminal_column t) v Hc) as (m' & E & H).
  { unfold VGA_WIDTH. lia. }
  exists m'. split; [done|]. destruct Hg as [Hn Hg]. constructor; cbn [screen_put rows row col]; try done.
  - by apply grid_put.
  - rewrite concat_put by (done || lia). destruct H as [_ H]. unfold VGA_WIDTH in H.
    replace (Z.to_nat (row s) * 80 + Z.to_nat (col s))%nat
      with (Z.to_nat (terminal_row t * 80 + terminal_column t)) by lia. exact H.
Qed.

Lemma next_line_shows t s :
  grid (rows s) → words (video t) VGA_MEMORY (concat (rows s)) → terminal_row t = row s →
  0 ≤ row s < 25 →
  ∃ t', next_line t = Ok t' ∧ shows t' (line_feed (vga_entry 32 (terminal_color t)) s) ∧
    terminal_color t' = terminal_color t.
Proof.
  intros Hg Hw Hr Hrr. unfold next_line, line_feed. cbn [terminal_row set_cursor].
  unfold VGA_HEIGHT. destruct (Z.eqb_spec (row s) 24) as [E|E].
  - rewrite (proj2 (Z.eqb_eq _ _)) by lia.
    destruct (scroll_spec (set_cursor (terminal_row t + 1) 0 t) (concat (rows s))) as (m' & -> & H).
    { split; [|done]. destruct Hg as [Hn Hg]. rewrite length_concat80 by done. lia. }
    eexists. split; [reflexivity|]. split; [|done].
    destruct (grid_scroll (rows s) (vga_entry 32 (terminal_color t)) Hg) as [Hg' Hcat].
    constructor; cbn [rows row col]; try done; [|lia..]. rewrite Hcat. apply H.
  - rewrite (proj2 (Z.eqb_neq _ _)) by lia. eexists. split; [reflexivity|]. split; [|done].
    constructor; cbn; try done; lia.
Qed.

Lemma tab_column c : 0 ≤ c < 80 → Z.land (c + 8) (u64 (Z.lnot 7)) = 8 * (c / 8 + 1).
Proof.
  intros Hc. assert (H : forallb (λ c, Z.land (c + 8) (u64 (Z.lnot 7)) =? 8 * (c / 8 + 1)) (seqZ 0 80) = true)
    by (vm_compute; reflexivity).
  rewrite forallb_forall in H. apply Z.eqb_eq, H, list_elem_of_In, elem_of_seqZ. lia.
Qed.

Lemma show_cursor_shows t s : shows t s → shows (show_cursor t) s ∧ cursor_shown (show_cursor t).
Proof.
  intros [H1 H2 H3 H4 H5 H6]. split; [by constructor|]. unfold cursor_shown, show_cursor, update_cursor.
  cbn [crtc set_crtc terminal_row terminal_column]. unfold VGA_WIDTH.
  rewrite wrap_small by lia. rewrite lookup_insert_ne, !lookup_insert_eq by done.
  replace (terminal_row t * 80) with (80 * terminal_row t) by lia.
  change 0xFF with (Z.ones 8). rewrite !Z.land_ones, Z.shiftr_div_pow2 by lia.
  split; f_equal. rewrite Z.mod_small; [done|]. zdm.
Qed.

Lemma putchar_shows t s c :
  shows t s →
  ∃ t', terminal_putchar c t = Ok t' ∧ shows t' (screen_putchar (terminal_color t) s c) ∧
    cursor_shown t' ∧ terminal_color t' = terminal_color t.
Proof.
  intros Hs. pose proof Hs as [Hg Hw Hr Hcl Hrr Hcr]. unfold terminal_putchar, screen_putchar.
  assert (Hend : ∀ t1 s1, shows t1 s1 → terminal_color t1 = terminal_color t →
    ∃ t', Ok (show_cursor t1) = Ok t' ∧ shows t' s1 ∧ cursor_shown t' ∧ terminal_color t' = terminal_color t).
  { intros t1 s1 H1 Hc1. destruct (show_cursor_shows t1 s1 H1) as [H2 H3]. by exists (show_cursor t1). }
  destruct (c =? 10).
  { destruct (next_line_shows t s Hg Hw Hr Hrr) as (t1 & -> & H1 & Hc1). run. auto. }
  destruct (c =? 9).
  { cbn [terminal_column set_cursor]. rewrite Hcl, tab_column by done. unfold VGA_WIDTH.
    destruct (Z.leb_spec 80 (8 * (col s / 8 + 1))) as [H80|H80].
    - rewrite (proj2 (Z.eqb_eq _ _)) by zdm.
      destruct (next_line_shows (set_cursor (terminal_row t) (8 * (col s / 8 + 1)) t) s Hg Hw Hr Hrr)
        as (t1 & -> & H1 & Hc1). run. auto.
    - rewrite (proj2 (Z.eqb_neq _ _)) by zdm. run. apply Hend; [|done].
      constructor; cbn; try done. zdm. }
  destruct (c =? 8).
  { set (t1 := if 0 <? terminal_column t then _ else _).
    assert (Ht1 : shows t1 (move_back s) ∧ terminal_color t1 = terminal_color t).
    { unfold t1, move_back. rewrite Hcl, Hr. unfold VGA_WIDTH.
      destruct (Z.ltb_spec 0 (col s)); [|destruct (Z.ltb_spec 0 (row s)); [|done]];
        (split; [constructor; cbn; (done || lia)|done]). }
    destruct Ht1 as [H1 Hc1]. rewrite Hc1.
    destruct (put_shows t1 (move_back s) (vga_entry 32 (terminal_color t)) H1) as (m' & -> & H2). run. auto. }
  unfold terminal_putentryat.
  destruct (put_shows t s (vga_entry c (terminal_color t)) Hs) as (m' & -> & H2). run.
  cbn [terminal_row terminal_column set_cursor set_video]. rewrite Hcl. unfold VGA_WIDTH.
  pose proof H2 as [Hg2 Hw2 Hr2 _ Hrr2 _].
  destruct (Z.eqb_spec (col s + 1) 80), (Z.eqb_spec (col s) 79); try lia.
  - destruct (next_line_shows (set_cursor (terminal_row t) (col s + 1) (set_video m' t))
      (screen_put (vga_entry c (terminal_color t)) s) Hg2 Hw2 Hr2 Hrr2) as (t1 & -> & H1 & Hc1). run. auto.
  - run. apply Hend; [|done]. constructor; cbn; try done; lia.
Qed.

(** The loops that blank the screen. *)
Lemma fill_screen_spec t color l :
  cells_ok t l →
  ∃ m', fill_screen color t = Ok (set_video m' t) ∧
    cells_ok (set_video m' t) (replicate 2000 (vga_entry 32 color)).
Proof.
  intros Hc. unfold fill_screen. set (v := vga_entry 32 color).
  destruct (for_range_rule (λ y t', ∃ m' l', t' = set_video m' t ∧ cells_ok t' l' ∧
      take (80 * Z.to_nat y) l' = replicate (80 * Z.to_nat y) v)
    (λ y, for_range (λ x, put_cell (y * VGA_WIDTH + x) v) 80 0) 25 0 t) as (t' & E & m' & l' & -> & H & Ht).
  - exists (video t), l. split; [by destruct t|]. done.
  - intros y t' Hy (m' & l' & -> & H & Ht).
    destruct (fill_cells _ l' (80 * Z.to_nat y) 80 v H) as (m2 & E & H2); [lia|].
    exists (set_video m2 t). unfold VGA_WIDTH.
    replace (y * 80) with (Z.of_nat (80 * Z.to_nat y)) by lia. split; [exact E|].
    eexists m2, _. split; [done|]. split; [exact H2|].
    replace (80 * Z.to_nat (y + 1))%nat with (80 * Z.to_nat y + 80)%nat by lia.
    rewrite Ht, app_assoc, <- replicate_add. apply take_app_length'. by rewrite length_replicate.
  - exists m'. split; [exact E|]. destruct H as [Hl Hw].
    rewrite (take_ge l') in Ht by (rewrite Hl; lia). rewrite Ht in Hw. by split.
Qed.

Definition blank_screen (color : vga_color_t) : screen :=
  mk_screen (replicate 25 (replicate 80 (vga_entry 32 color))) 0 0.

Lemma blank_shows t color :
  cells_ok t (replicate 2000 (vga_entry 32 color)) → terminal_row t = 0 → terminal_column t = 0 →
  shows t (blank_screen color).
Proof.
  intros [_ Hw] Hr Hc. constructor; cbn [rows row col blank_screen]; try done.
  - split; [by rewrite length_replicate|]. apply Forall_replicate. by rewrite length_replicate.
Qed.

Lemma initialize_shows t l :
  cells_ok t l →
  ∃ t', terminal_initialize t = Ok t' ∧ shows t' (blank_screen white_on_black) ∧
    terminal_color t' = white_on_black.
Proof.
  intros Hc. unfold terminal_initialize.
  destruct (fill_screen_spec (mk_terminal 0 0 white_on_black (video t) (crtc t)) white_on_black l Hc)
    as (m' & -> & H). run. eexists. split; [reflexivity|]. split; [|done]. by apply blank_shows.
Qed.

Lemma clear_shows t color l :
  cells_ok t l →
  ∃ t', terminal_clear color t = Ok t' ∧ shows t' (blank_screen color).
Proof.
  intros Hc. unfold terminal_clear.
  destruct (fill_screen_spec (set_cursor 0 0 t) color l Hc) as (m' & -> & H). run.
  eexists. split; [reflexivity|]. by apply blank_shows.
Qed.

Lemma move_cursor_shows t s dx :
  shows t s → -2 ^ 31 ≤ dx < 2 ^ 31 - 2000 →
  let pos := Z.max 0 (Z.min 1999 (80 * row s + col s + dx)) in
  shows (terminal_move_cursor dx t) (mk_screen (rows s) (pos / 80) (pos mod 80)) ∧
  cursor_shown (terminal_move_cursor dx t).
Proof.
  intros [Hg Hw Hr Hcl Hrr Hcr] Hdx pos. unfold terminal_move_cursor, VGA_WIDTH, VGA_HEIGHT.
  assert (Hs : signed 32 (terminal_row t * 80 + terminal_column t + dx) = 80 * row s + col s + dx).
  { unfold signed, wrap. destruct (Z.ltb_spec ((terminal_row t * 80 + terminal_column t + dx) mod 2 ^ 32) (2 ^ (32 - 1))); zdm. }
  rewrite Hs. set (p := if _ <? _ then _ else _).
  assert (Hp : p = pos) by (unfold p, pos; destruct (Z.ltb_spec (80 * row s + col s + dx) 0);
    [lia|destruct (Z.leb_spec (25 * 80) (80 * row s + col s + dx)); lia]).
  rewrite Hp. apply show_cursor_shows. constructor; cbn; try done; unfold pos; zdm.
Qed.

(** ** Properties *)

Definition demo_terminal : terminal :=
  mk_terminal 7 7 white_on_black (mem_of VGA_MEMORY (replicate 2000 0 ≫= le16)) ∅.

(** C35. Printing on the terminal, from the initialised state and for any bytes, does
    to the cells and the cursor what [screen_write] does to the screen of 25
    lines: nothing is written outside the cells, the cursor stays on the screen,
    and after any output its position is in the controller's registers. *)
Theorem terminal_refines_screen t l data :
  cells_ok t l →
  ∃ t0 t1, terminal_initialize t = Ok t0 ∧ terminal_writestring data t0 = Ok t1 ∧
    shows t1 (screen_write white_on_black data (blank_screen white_on_black)) ∧
    (data ≠ [] → cursor_shown t1).
Proof.
  intros Hc. destruct (initialize_shows t l Hc) as (t0 & E & H0 & Hc0). exists t0.
  destruct (for_each_rule (λ d t1, shows t1 (screen_write white_on_black d (blank_screen white_on_black)) ∧
      terminal_color t1 = white_on_black ∧ (d ≠ [] → cursor_shown t1))
    terminal_putchar data [] t0) as (t1 & E1 & H1 & _ & H2); [done| |by exists t1].
  intros l1 c l2 t1 _ (H1 & Hc1 & _). cbn [app] in *.
  destruct (putchar_shows t1 _ c H1) as (t2 & E2 & H2 & H3 & H4). exists t2. split; [done|].
  split; [|split; [congruence|done]]. unfold screen_write. rewrite foldl_app. cbn [foldl].
  by rewrite <- Hc1 at 1.
Qed.

Lemma terminal_refines_screen_witness :
  ∃ t0 t1 s, terminal_initialize demo_terminal = Ok t0 ∧ terminal_writestring [72; 105; 10] t0 = Ok t1 ∧
    shows t1 s ∧ row s = 1 ∧ col s = 0 ∧
    take 3 <$> (rows s !! 0%nat) = Some [vga_entry 72 white_on_black; vga_entry 105 white_on_black; vga_entry 32 white_on_black].
Proof.
  destruct (terminal_refines_screen demo_terminal (replicate 2000 0) [72; 105; 10]) as (t0 & t1 & E0 & E1 & H & _).
  - split; [reflexivity|apply bytes_mem_of].
  - exists t0, t1. eexists. split; [exact E0|]. split; [exact E1|]. split; [exact H|].
    split; [|split]; vm_compute; reflexivity.
Defined.
End Vga.
