(* ===== verification/Stdio.v ===== *)
(** * Console output (drivers/serial.cpp, libc/stdio/putchar.cpp, vprintf.cpp, printf.cpp, puts.cpp)

    In the kernel [putchar] sends a character to the serial port and to the
    terminal.  [vprintf] is modelled by the characters it hands to [putchar] and
    by the count it returns; numbers are written to a buffer in memory with the
    C library's own functions and read back from it.

    The specification is a list of segments, the pieces of a format string as
    the loop of [vprintf] takes them, each with its rendering. *)

From Stdlib Require Import String.
From S2P Require Import Prelude LibcString LibcStdlib Vga.

Module Stdio.
Import LibcString LibcStdlib.
#[local] Close Scope string_scope.
#[local] Open Scope list_scope.
#[local] Abbreviation length := List.length.

(** ** The serial port *)

Definition COM1 : Z := 0x3F8.

(** The writes to the ports of the controller, in order. *)
Definition serial_install : list (Z * Z) :=
  [(COM1 + 1, 0x00); (COM1 + 3, 0x80); (COM1 + 0, 0x03); (COM1 + 1, 0x00);
   (COM1 + 3, 0x03); (COM1 + 2, 0xC7); (COM1 + 4, 0x0B)].

(** [serial_out] is what was sent so far; [serial_in] the bytes received and not yet read. *)
Record console : Type := mk_console {
  serial_out : list Z;
  serial_in : list Z;
  screen : Vga.terminal
}.

(** Waiting for the transmitter is not modelled. *)
Definition write_serial (a : Z) (c : console) : console :=
  mk_console (serial_out c ++ [u8 a]) (serial_in c) (screen c).

Definition serial_received (c : console) : bool := match serial_in c with [] => false | _ => true end.

Definition serial_getc (c : console) : Z * console :=
  match serial_in c with
  | b :: q => (b, mk_console (serial_out c) q (screen c))
  | [] => (0, c)
  end.

Definition serial_putc (ch : Z) (c : console) : console :=
  if ch =? 10 then write_serial 10 (write_serial 13 c)
  else if ch =? 8 then write_serial 8 (write_serial 32 (write_serial 8 c))
  else write_serial ch c.

Definition serial_move_cursor (dx : Z) (c : console) : console :=
  if dx =? 0 then c else
  let c1 := write_serial 91 (write_serial 0x1B c) in
  let abs_dx := if 0 <? dx then dx else signed 32 (- dx) in
  let dir := if 0 <? dx then 67 else 68 in
  let c2 :=
    if 100 <=? abs_dx then
      write_serial (48 + abs_dx mod 10)
        (write_serial (48 + (abs_dx / 10) mod 10) (write_serial (48 + abs_dx / 100) c1))
    else if 10 <=? abs_dx then
      write_serial (48 + abs_dx mod 10) (write_serial (48 + abs_dx / 10) c1)
    else write_serial (48 + abs_dx) c1 in
  write_serial dir c2.

(** In the kernel; a user program makes a system call instead. *)
Definition putchar (ic : Z) (c : console) : outcome console :=
  let ch := u8 ic in
  let c1 := serial_putc ch c in
  t ← Vga.terminal_write [ch] (screen c1);
  Ok (mk_console (serial_out c1) (serial_in c1) t).

(** ** vprintf *)

(** The variable arguments: 64-bit words and strings. *)
Inductive arg : Set :=
| ArgWord (w : Z)
| ArgStr (s : option (list Z)).

Definition va_word (args : list arg) : outcome (Z * list arg) :=
  match args with ArgWord w :: args' => Ok (w, args') | _ => Fault end.
Definition va_str (args : list arg) : outcome (option (list Z) * list arg) :=
  match args with ArgStr s :: args' => Ok (s, args') | _ => Fault end.

(** The characters up to the next [%] or the end. *)
Fixpoint span_text (f : list Z) : list Z * list Z :=
  match f with
  | [] => ([], [])
  | c :: f' => if c =? 37 then ([], f) else let '(l, r) := span_text f' in (c :: l, r)
  end.

(** [*p == c] *)
Definition starts (c : Z) (f : list Z) : bool := match f with d :: _ => d =? c | [] => false end.

(** [while (digit) width = width * 10 + digit]; overflow of [int] is undefined. *)
Fixpoint parse_width (f : list Z) (width : Z) : outcome (Z * list Z) :=
  match f with
  | c :: f' =>
      if isdigit c then
        let w := width * 10 + (c - 48) in
        if 2 ^ 31 <=? w then Fault else parse_width f' w
      else Ok (width, f)
  | [] => Ok (width, [])
  end.

(** Counts the letters [l]. *)
Fixpoint parse_mods (f : list Z) : nat * list Z :=
  match f with
  | c :: f' => if c =? 108 then let '(n, r) := parse_mods f' in (S n, r) else (O, f)
  | [] => (O, [])
  end.

Definition spaces (n : Z) : list Z := replicate (Z.to_nat n) 32.

(** Padding of [body], counted as [total] characters, to [width]. *)
Definition padded (align_left : bool) (width total : Z) (body : list Z) : list Z :=
  let pad := if total <? width then spaces (width - total) else [] in
  if align_left then body ++ pad else pad ++ body.

Fixpoint read_bytes (n : nat) (a : Z) (m : mem) : outcome (list Z) :=
  match n with
  | O => Ok []
  | S n' => b ← load m a; l ← read_bytes n' (a + 1) m; Ok (b :: l)
  end.

(** The local [char buffer[64]]. *)
Definition BUFFER : Z := 0x1000.
Definition buffer : mem := mem_of BUFFER (replicate 64 0).

Definition number_text (print : Z → Z → Z → mem → outcome (Z * mem)) (v base : Z) : outcome (list Z) :=
  '(_, m) ← print v BUFFER base buffer;
  n ← strlen BUFFER m;
  read_bytes (Z.to_nat n) BUFFER m.

(** The value fetched for [d] and [i], converted to the [uint64_t] of [itoa]. *)
Definition signed_arg (mods : nat) (w : Z) : Z := if (1 <=? mods)%nat then u64 w else u64 (signed 32 w).
Definition unsigned_arg (mods : nat) (w : Z) : Z := if (1 <=? mods)%nat then u64 w else u32 w.

(** The text of a number and the length it counts as. *)
Definition number_conv (type : Z) (mods : nat) (w : Z) : outcome (list Z * Z) :=
  if (type =? 100) || (type =? 105) then
    s ← number_text itoa (signed_arg mods w) 10; Ok (s, Z.of_nat (length s))
  else if type =? 117 then
    s ← number_text ulltoa (unsigned_arg mods w) 10; Ok (s, Z.of_nat (length s))
  else if type =? 112 then
    s ← number_text ulltoa (u64 w) 16;
    let len := Z.of_nat (length s) in
    let zeros := replicate (Z.to_nat (16 - len)) 48 in
    Ok ([48; 120] ++ zeros ++ s, if len <? 16 then 16 + 2 else len + 2)
  else
    s ← number_text ulltoa (unsigned_arg mods w) 16; Ok (s, Z.of_nat (length s)).

Definition NULL_TEXT : list Z := [40; 110; 117; 108; 108; 41].

(** One directive: [f] is the format from the conversion character on, [begun]
    the text from the percent sign to there. *)
Definition directive (align_left : bool) (width : Z) (mods : nat) (begun f : list Z) (args : list arg)
  : outcome (list Z * list Z * list arg) :=
  match f with
  | c :: f' =>
      if c =? 99 then '(w, args') ← va_word args; Ok ([u8 w], f', args')
      else if c =? 115 then
        '(s, args') ← va_str args;
        let text := default NULL_TEXT s in
        Ok (padded align_left width (Z.of_nat (length text)) text, f', args')
      else if (c =? 100) || (c =? 105) || (c =? 117) || (c =? 120) || (c =? 112) then
        '(w, args') ← va_word args;
        '(text, total) ← number_conv c mods w;
        Ok (padded align_left width total text, f', args')
      else Ok (begun, f, args)
  | [] => Ok (begun, [], args)
  end.

Fixpoint vprintf_loop (fuel : nat) (f : list Z) (args : list arg) (written : Z)
  : outcome (list Z * Z) :=
  match f with
  | [] => Ok ([], written)
  | c :: f1 =>
      match fuel with
      | O => OutOfFuel
      | S fuel' =>
          let emit out f' args' :=
            '(rest, n) ← vprintf_loop fuel' f' args' (signed 32 (written + Z.of_nat (length out)));
            Ok (out ++ rest, n) in
          if negb (c =? 37) then let '(l, r) := span_text f1 in emit (c :: l) r args
          else if starts 37 f1 then let '(l, r) := span_text (tail f1) in emit (37 :: l) r args
          else
            let '(align_left, f2) := if starts 45 f1 then (true, tail f1) else (false, f1) in
            '(width, f3) ← parse_width f2 0;
            let '(mods, f4) := parse_mods f3 in
            '(out, f5, args') ← directive align_left width mods (take (length f - length f4) f) f4 args;
            emit out f5 args'
      end
  end.

(** The characters printed and the count returned. *)
Definition vprintf (format : list Z) (args : list arg) : outcome (list Z * Z) :=
  vprintf_loop (length format) format args 0.

Definition printf (format : list Z) (args : list arg) (c : console) : outcome (Z * console) :=
  '(out, n) ← vprintf format args;
  c' ← for_each putchar out c;
  Ok (n, c').

Definition puts (string : list Z) (c : console) : outcome (Z * console) :=
  printf [37; 115; 10] [ArgStr (Some string)] c.

(** ** Numbers *)

Definition decimal (v : Z) : list Z := digit_char <$> numeral 10 v.
Definition hexadecimal (v : Z) : list Z := digit_char <$> numeral 16 v.

Lemma rdigits_bound base k : ∀ fuel v,
  2 ≤ base → 0 ≤ v < base ^ Z.of_nat (S k) → (length (rdigits fuel base v) ≤ S k)%nat.
Proof.
  induction k as [|k IH]; intros fuel v Hb Hv; destruct fuel as [|fuel]; cbn [rdigits List.length]; try lia.
  - change (Z.of_nat 1) with 1 in Hv. rewrite Z.pow_1_r in Hv. rewrite Z.div_small by lia. cbn. lia.
  - destruct (v / base =? 0); cbn [List.length]; [lia|]. apply le_n_S, IH; [done|].
    rewrite (Nat2Z.inj_succ (S k)), Z.pow_succ_r in Hv by lia.
    split; [apply Z.div_pos; lia|apply Z.div_lt_upper_bound; lia].
Qed.

Lemma numeral_bound base v : 10 ≤ base → 0 ≤ v < 2 ^ 64 → (length (numeral base v) ≤ 20)%nat.
Proof.
  intros Hb Hv. unfold numeral. rewrite length_rev. apply rdigits_bound; [lia|]. split; [lia|].
  apply Z.lt_le_trans with (10 ^ Z.of_nat 20); [|apply Z.pow_le_mono_l; lia].
  change (10 ^ Z.of_nat 20) with 100000000000000000000. lia.
Qed.

Lemma read_bytes_spec l : ∀ m a, bytes m a l → read_bytes (length l) a m = Ok l.
Proof.
  induction l as [|b l IH]; intros m a H; cbn [read_bytes List.length]; [done|].
  apply bytes_cons in H as [Hb H]. rewrite (load_ok _ _ _ Hb). run. rewrite (IH _ _ H). done.
Qed.

Lemma buffer_room n : 0 ≤ n ≤ 64 → allocated buffer BUFFER n.
Proof.
  intros Hn i Hi. pose proof (bytes_allocated _ _ _ (bytes_mem_of BUFFER (replicate 64 0))) as H.
  apply H. rewrite length_replicate. lia.
Qed.

Lemma number_text_spec print v base :
  (∀ m, allocated m BUFFER (Z.of_nat (length (numeral base v)) + 1) →
     ∃ m', print v BUFFER base m = Ok (BUFFER, m') ∧ cstr m' BUFFER (digit_char <$> numeral base v) ∧
       frame m m' BUFFER (Z.of_nat (length (numeral base v)) + 1)) →
  10 ≤ base → 0 ≤ v < 2 ^ 64 → number_text print v base = Ok (digit_char <$> numeral base v).
Proof.
  intros Hp Hb Hv. pose proof (numeral_bound base v Hb Hv) as Hl. unfold number_text.
  destruct (Hp buffer) as (m & -> & Hs & _); [apply buffer_room; lia|]. run.
  rewrite (strlen_spec _ _ _ Hs). run. rewrite Nat2Z.id. apply read_bytes_spec.
  destruct Hs as [_ H]. by apply bytes_app in H as [H _].
Qed.

Lemma itoa_text v : 0 ≤ v < 2 ^ 64 → number_text itoa v 10 = Ok (decimal v).
Proof. intros Hv. apply number_text_spec; [|lia|done]. intros m. apply itoa_ulltoa; lia. Qed.
Lemma ulltoa_text v base : 10 ≤ base ≤ 16 → 0 ≤ v < 2 ^ 64 →
  number_text ulltoa v base = Ok (digit_char <$> numeral base v).
Proof. intros Hb Hv. apply number_text_spec; [|lia|done]. intros m. apply ulltoa_spec; lia. Qed.

Lemma signed_arg_range mods w : 0 ≤ signed_arg mods w < 2 ^ 64.
Proof. unfold signed_arg. destruct (_ <=? _)%nat; apply wrap_range; lia. Qed.
Lemma unsigned_arg_range mods w : 0 ≤ unsigned_arg mods w < 2 ^ 64.
Proof.
  unfold unsigned_arg. destruct (_ <=? _)%nat; [apply wrap_range; lia|].
  pose proof (wrap_range 32 w). lia.
Qed.

(** What a conversion of a number prints, before padding. *)
Definition number_spec (type : Z) (mods : nat) (w : Z) : list Z :=
  if (type =? 100) || (type =? 105) then decimal (signed_arg mods w)
  else if type =? 117 then decimal (unsigned_arg mods w)
  else if type =? 112 then
    [48; 120] ++ replicate (16 - length (hexadecimal (u64 w)))%nat 48 ++ hexadecimal (u64 w)
  else hexadecimal (unsigned_arg mods w).

Lemma number_conv_spec type mods w :
  number_conv type mods w =
    Ok (number_spec type mods w, Z.of_nat (length (number_spec type mods w))).
Proof.
  unfold number_conv, number_spec, hexadecimal.
  pose proof (signed_arg_range mods w). pose proof (unsigned_arg_range mods w).
  destruct (_ || _); [rewrite itoa_text by done; done|].
  destruct (type =? 117); [rewrite ulltoa_text by (done || lia); done|].
  destruct (type =? 112); [|rewrite ulltoa_text by (done || lia); done].
  rewrite ulltoa_text by (lia || by apply wrap_range). run. set (s := digit_char <$> _). f_equal. f_equal.
  - do 3 f_equal. lia.
  - rewrite !length_app, length_replicate. cbn [List.length].
    destruct (Z.ltb_spec (Z.of_nat (length s)) 16); lia.
Qed.

(** ** Segments *)

Inductive seg : Set :=
| Text (s : list Z)
| PctText (s : list Z)                                  (** [%%] and the text after it *)
| Conv (align_left : bool) (width : list Z) (mods : nat) (type : Z).

Definition unparse (g : seg) : list Z :=
  match g with
  | Text s => s
  | PctText s => 37 :: 37 :: s
  | Conv lj width mods type =>
      37 :: (if lj then [45] else []) ++ width ++ replicate mods 108 ++ [type]
  end.

Definition width_of (ds : list Z) : Z := foldl (λ w c, w * 10 + (c - 48)) 0 ds.

Definition plain (s : list Z) : bool := forallb (λ c, negb (c =? 37)) s.

Definition conversions : list Z := [99; 115; 100; 105; 117; 120; 112].

Definition seg_ok (g : seg) : bool :=
  match g with
  | Text s => plain s && negb (length s =? 0)%nat
  | PctText s => plain s
  | Conv _ width _ type =>
      forallb isdigit width && (width_of width <? 2 ^ 31) && bool_decide (type ∈ conversions)
  end.

(** Neighbouring texts are one segment. *)
Fixpoint segs_ok (gs : list seg) : bool :=
  match gs with
  | [] => true
  | g :: gs' =>
      seg_ok g && segs_ok gs' &&
      match g, gs' with
      | Conv _ _ _ _, _ => true
      | _, Text _ :: _ => false
      | _, _ => true
      end
  end.

(** The text of a segment and the arguments left; [None] when an argument does
    not fit. *)
Definition render (g : seg) (args : list arg) : option (list Z * list arg) :=
  match g with
  | Text s => Some (s, args)
  | PctText s => Some (37 :: s, args)
  | Conv lj width mods type =>
      match args with
      | ArgStr s :: args' =>
          let text := default NULL_TEXT s in
          if type =? 115 then Some (padded lj (width_of width) (Z.of_nat (length text)) text, args')
          else None
      | ArgWord w :: args' =>
          if type =? 115 then None
          else if type =? 99 then Some ([u8 w], args')
          else
            let text := number_spec type mods w in
            Some (padded lj (width_of width) (Z.of_nat (length text)) text, args')
      | [] => None
      end
  end.

Fixpoint render_all (gs : list seg) (args : list arg) : option (list Z) :=
  match gs with
  | [] => Some []
  | g :: gs' => '(out, args') ← render g args; rest ← render_all gs' args'; Some (out ++ rest)
  end.

(** *** Each segment is one turn of the loop *)

Lemma span_text_plain s f :
  plain s = true → starts 37 f = true ∨ f = [] → span_text (s ++ f) = (s, f).
Proof.
  intros Hs Hf. induction s as [|c s IH]; cbn [app span_text plain forallb] in *.
  - destruct Hf as [Hf| ->]; [|done]. destruct f as [|d f]; [done|]. cbn [starts span_text] in *. by rewrite Hf.
  - apply andb_prop in Hs as [Hc Hs]. apply negb_true_iff in Hc. rewrite Hc, IH by done. done.
Qed.

Lemma segs_start g gs :
  segs_ok (g :: gs) = true → (∀ lj w m t, g ≠ Conv lj w m t) →
  starts 37 (gs ≫= unparse) = true ∨ gs ≫= unparse = [].
Proof.
  cbn [segs_ok]. intros [_ H]%andb_prop Hg. destruct gs as [|g' gs]; [by right|]. left.
  destruct g as [s|s|]; [| |by edestruct Hg]; by destruct g'.
Qed.

Lemma width_mono ds w : 0 ≤ w → forallb isdigit ds = true →
  w ≤ foldl (λ w c, w * 10 + (c - 48)) w ds.
Proof.
  revert w. induction ds as [|d ds IH]; intros w Hw Hd; cbn [foldl forallb] in *; [lia|].
  apply andb_prop in Hd as [Hd Hds]. unfold isdigit in Hd.   destruct (Z.leb_spec 48 d); [|done].
  specialize (IH (w * 10 + (d - 48)) ltac:(lia) Hds). lia.
Qed.

Lemma parse_width_spec ds f : ∀ w,
  0 ≤ w → forallb isdigit ds = true → foldl (λ w c, w * 10 + (c - 48)) w ds < 2 ^ 31 →
  match f with c :: _ => isdigit c = false | [] => True end →
  parse_width (ds ++ f) w = Ok (foldl (λ w c, w * 10 + (c - 48)) w ds, f).
Proof.
  induction ds as [|d ds IH]; intros w Hw Hd Hb Hf; cbn [app parse_width foldl forallb] in *.
  - destruct f as [|c f]; [done|]. cbn [parse_width]. by rewrite Hf.
  - apply andb_prop in Hd as [Hd Hds]. rewrite Hd.
    assert (H48 : 48 ≤ d) by (unfold isdigit in Hd; destruct (Z.leb_spec 48 d); done).
    pose proof (width_mono ds (w * 10 + (d - 48)) ltac:(lia) Hds).
    rewrite (proj2 (Z.leb_gt _ _)) by lia. apply IH; (done || lia).
Qed.

Lemma parse_mods_spec n c f : c ≠ 108 → parse_mods (replicate n 108 ++ c :: f) = (n, c :: f).
Proof.
  intros Hc. induction n as [|n IH]; cbn [replicate app parse_mods].
  - by rewrite (proj2 (Z.eqb_neq _ _) Hc).
  - rewrite Z.eqb_refl, IH. done.
Qed.

(** What is known of a conversion character. *)
Lemma conversion_char c : c ∈ conversions →
  isdigit c = false ∧ c ≠ 108 ∧ c ≠ 37 ∧ c ≠ 45 ∧
  (c = 99 ∨ c = 115 ∨ (c ≠ 99 ∧ c ≠ 115 ∧
     (c =? 100) || (c =? 105) || (c =? 117) || (c =? 120) || (c =? 112) = true)).
Proof.
  unfold conversions. intros H. repeat (apply elem_of_cons in H as [->|H]; [naive_solver|]).
  by apply elem_of_nil in H.
Qed.

Lemma directive_spec lj width mods begun c f args out args' :
  c ∈ conversions → render (Conv lj width mods c) args = Some (out, args') →
  directive lj (width_of width) mods begun (c :: f) args = Ok (out, f, args').
Proof.
  intros Hc Hr. destruct (conversion_char c Hc) as (_ & _ & _ & _ & Hk). cbn [directive render] in *.
  destruct args as [|[w|s] args]; [done| |].
  - destruct (Z.eqb_spec c 115) as [|N115]; [done|]. destruct Hk as [->|[?|(H1 & H2 & ->)]]; [|done|].
    + injection Hr as <- <-. done.
    + rewrite (proj2 (Z.eqb_neq _ _) H1) in Hr |- *. injection Hr as <- <-. cbn [va_word]. run.
      by rewrite number_conv_spec.
  - destruct (Z.eqb_spec c 115) as [->|_]; [|done]. injection Hr as <- <-. done.
Qed.

Lemma signed_add a b : signed 32 (signed 32 a + b) = signed 32 (a + b).
Proof.
  apply signed_eq. unfold wrap. rewrite <- Zplus_mod_idemp_l. fold (wrap 32 (signed 32 a)).
  rewrite wrap_signed. unfold wrap. by rewrite Zplus_mod_idemp_l.
Qed.

Lemma signed_idem a : signed 32 (signed 32 a) = signed 32 a.
Proof. pose proof (signed_add a 0) as H. by rewrite !Z.add_0_r in H. Qed.

Lemma count_app w (a b : list Z) :
  signed 32 (signed 32 (w + Z.of_nat (length a)) + Z.of_nat (length b)) =
    signed 32 (w + Z.of_nat (length (a ++ b))).
Proof. rewrite signed_add, length_app. f_equal. lia. Qed.

(** One turn of the loop on a segment at the front of the format. *)
Lemma loop_segment fuel g gs args w out args' :
  segs_ok (g :: gs) = true → render g args = Some (out, args') →
  vprintf_loop (S fuel) (unparse g ++ (gs ≫= unparse)) args w =
    ('(rest, n) ← vprintf_loop fuel (gs ≫= unparse) args' (signed 32 (w + Z.of_nat (length out)));
     Ok (out ++ rest, n)).
Proof.
  intros Hok Hr. pose proof (segs_start g gs Hok) as Hst. cbn [segs_ok] in Hok.
  apply andb_prop in Hok as [[Hg _]%andb_prop _]. destruct g as [s|s|lj ds mods c]; cbn [unparse seg_ok] in *.
  - apply andb_prop in Hg as [Hp Hne]. destruct s as [|c s]; [done|]. injection Hr as <- <-.
    cbn [app vprintf_loop plain forallb] in *. apply andb_prop in Hp as [Hc Hp]. rewrite Hc.
    rewrite span_text_plain by (done || by apply Hst). done.
  - injection Hr as <- <-. cbn [app vprintf_loop starts tail negb]. rewrite !Z.eqb_refl. cbn [negb].
    rewrite span_text_plain by (done || by apply Hst). done.
  - apply andb_prop in Hg as [[Hd Hw%Z.ltb_lt]%andb_prop Hc%bool_decide_eq_true].
    pose proof (conversion_char c Hc) as (Hcd & Hcl & Hcp & Hcm & _).
    set (f := gs ≫= unparse) in *.
    assert (Hrest : ∀ fm, ('(width, f3) ← parse_width (ds ++ replicate mods 108 ++ [c] ++ f) 0;
        let '(mods, f4) := parse_mods f3 in
        '(out, f5, args') ← directive lj width mods (fm f4) f4 args;
        '(rest, n) ← vprintf_loop fuel f5 args' (signed 32 (w + Z.of_nat (length out))); Ok (out ++ rest, n)) =
       ('(rest, n) ← vprintf_loop fuel f args' (signed 32 (w + Z.of_nat (length out))); Ok (out ++ rest, n))).
    { intros fm. rewrite parse_width_spec by (done || (by destruct mods)). run.
      cbn [app]. rewrite parse_mods_spec by done. fold (width_of ds).
      by rewrite (directive_spec lj ds mods (fm (c :: f)) c f args out args' Hc Hr). }
    destruct lj; cbn [app vprintf_loop starts tail negb]; rewrite Z.eqb_refl; cbn [negb].
    + change (45 =? 37) with false. rewrite Z.eqb_refl. cbn iota. rewrite <- !app_assoc. apply Hrest.
    + assert (Hs : starts 37 (ds ++ replicate mods 108 ++ [c] ++ f) = false ∧
                   starts 45 (ds ++ replicate mods 108 ++ [c] ++ f) = false).
      { destruct ds as [|d ds]; [destruct mods|]; cbn [app replicate starts]; try done.
        - by rewrite (proj2 (Z.eqb_neq c 37)), (proj2 (Z.eqb_neq c 45)).
        - cbn [forallb] in Hd. apply andb_prop in Hd as [Hd _]. unfold isdigit in Hd.
          destruct (Z.leb_spec 48 d); [|done].
          by rewrite (proj2 (Z.eqb_neq d 37)), (proj2 (Z.eqb_neq d 45)) by lia. }
      destruct Hs as [Hs1 Hs2]. rewrite <- !app_assoc. cbn [app] in Hs1, Hs2, Hrest |- *.
      rewrite Hs1, Hs2. apply Hrest.
Qed.

Lemma loop_segments gs : ∀ fuel args w out,
  segs_ok gs = true → render_all gs args = Some out → signed 32 w = w → (length gs ≤ fuel)%nat →
  vprintf_loop fuel (gs ≫= unparse) args w = Ok (out, signed 32 (w + Z.of_nat (length out))).
Proof.
  induction gs as [|g gs IH]; intros fuel args w out Hok Hr Hw Hf.
  { injection Hr as <-. cbn [List.length] in *. rewrite Z.add_0_r, Hw. by destruct fuel. }
  destruct fuel as [|fuel]; [cbn [List.length] in Hf; lia|]. cbn [render_all] in Hr.
  destruct (render g args) as [[o args']|] eqn:Eg; [|done]. cbn [mbind option_bind] in Hr.
  destruct (render_all gs args') as [rest|] eqn:Er; [|done]. injection Hr as <-.
  rewrite bind_cons, (loop_segment fuel g gs args w o args' Hok Eg).
  cbn [segs_ok] in Hok. apply andb_prop in Hok as [[_ Hok]%andb_prop _].
  rewrite (IH fuel args' _ rest Hok Er); [|apply signed_idem|cbn [List.length] in Hf; lia].
  run. by rewrite count_app.
Qed.

Lemma unparse_length gs : segs_ok gs = true → (length gs ≤ length (gs ≫= unparse))%nat.
Proof.
  induction gs as [|g gs IH]; [done|]. cbn [segs_ok]. intros [[Hg Hok]%andb_prop _]%andb_prop.
  specialize (IH Hok). rewrite bind_cons, length_app. cbn [List.length].
  assert (1 ≤ length (unparse g))%nat; [|lia].
  destruct g as [s|s|]; cbn [unparse List.length]; [|lia..]. cbn in Hg.
  apply andb_prop in Hg as [_ Hg]. destruct s; [done|]. cbn. lia.
Qed.

(** ** Every format *)

Lemma span_text_length f : (length (snd (span_text f)) ≤ length f)%nat.
Proof.
  induction f as [|c f IH]; cbn [span_text List.length]; [done|]. destruct (c =? 37); [done|].
  destruct (span_text f) as [l r]. cbn in *. lia.
Qed.
Lemma parse_mods_length f : (length (snd (parse_mods f)) ≤ length f)%nat.
Proof.
  induction f as [|c f IH]; cbn [parse_mods List.length]; [done|]. destruct (c =? 108); [|done].
  destruct (parse_mods f) as [n r]. cbn in *. lia.
Qed.
Lemma parse_width_length f : ∀ w,
  parse_width f w = Fault ∨ ∃ w' r, parse_width f w = Ok (w', r) ∧ (length r ≤ length f)%nat.
Proof.
  induction f as [|c f IH]; intros w; cbn [parse_width List.length]; [right; eauto|].
  destruct (isdigit c); [|right; eauto]. destruct (2 ^ 31 <=? _); [by left|].
  destruct (IH (w * 10 + (c - 48))) as [->|(w' & r & -> & H)]; [by left|right]. exists w', r. eauto.
Qed.

Lemma directive_length lj width mods begun f args :
  directive lj width mods begun f args = Fault ∨
  ∃ out f' args', directive lj width mods begun f args = Ok (out, f', args') ∧ (length f' ≤ length f)%nat.
Proof.
  destruct f as [|c f]; cbn [directive List.length]; [right; eauto 6|].
  destruct (c =? 99).
  { destruct args as [|[w|s] args]; cbn [va_word]; run; [by left| |by left]. right. eauto 6. }
  destruct (c =? 115).
  { destruct args as [|[w|s] args]; cbn [va_str]; run; [by left|by left|]. right. eauto 6. }
  destruct (_ || _); [|right; eauto 6].
  destruct args as [|[w|s] args]; cbn [va_word]; run; [by left| |by left].
  rewrite number_conv_spec. run. right. eauto 6.
Qed.

Lemma loop_total fuel : ∀ f args w,
  (length f ≤ fuel)%nat → signed 32 w = w →
  vprintf_loop fuel f args w = Fault ∨
  ∃ out, vprintf_loop fuel f args w = Ok (out, signed 32 (w + Z.of_nat (length out))).
Proof.
  induction fuel as [|fuel IH]; intros f args w Hf Hw.
  { destruct f; [|cbn [List.length] in Hf; lia]. right. exists []. cbn. by rewrite Z.add_0_r, Hw. }
  destruct f as [|c f1]; [right; exists []; cbn; by rewrite Z.add_0_r, Hw|]. cbn [List.length] in Hf.
  assert (Hemit : ∀ (o f' : list Z) args', (length f' ≤ length f1)%nat →
    let r := '(rest, n) ← vprintf_loop fuel f' args' (signed 32 (w + Z.of_nat (length o))); Ok (o ++ rest, n) in
    r = Fault ∨ ∃ out, r = Ok (out, signed 32 (w + Z.of_nat (length out)))).
  { intros o f' args' Hl r. unfold r.
    destruct (IH f' args' (signed 32 (w + Z.of_nat (length o)))) as [->|(out & ->)];
      [lia|apply signed_idem|by left|]. run. right. exists (o ++ out). by rewrite count_app. }
  cbn [vprintf_loop]. destruct (negb (c =? 37)).
  { pose proof (span_text_length f1). destruct (span_text f1) as [l r]. by apply Hemit. }
  destruct (starts 37 f1).
  { pose proof (span_text_length (tail f1)). destruct (span_text (tail f1)) as [l r]. apply Hemit.
    destruct f1; cbn in *; lia. }
  assert (Hf2 : (length (snd (if starts 45 f1 then (true, tail f1) else (false, f1))) ≤ length f1)%nat)
    by (destruct (starts 45 f1), f1; cbn; lia).
  destruct (if starts 45 f1 then (true, tail f1) else (false, f1)) as [lj f2]. cbn in Hf2.
  destruct (parse_width_length f2 0) as [->|(w' & f3 & -> & H3)]; run; [by left|].
  pose proof (parse_mods_length f3). destruct (parse_mods f3) as [mods f4]. cbn in *.
  match goal with |- context [directive ?a ?b ?c ?d ?e ?g] =>
    destruct (directive_length a b c d e g) as [->|(out & f5 & args' & -> & H5)] end; run; [by left|].
  apply Hemit. lia.
Qed.

(** ** Properties *)

(** A format made of texts, percent signs and supported conversions prints, for
    arguments that fit, exactly the renderings of its segments one after the
    other: strings, characters, decimal and hexadecimal numerals of the value at
    the width of its length modifier, pointers with 16 digits, padded with
    spaces on the side the minus sign says; the count returned is the number of
    characters. *)
Theorem vprintf_renders gs args out :
  segs_ok gs = true → render_all gs args = Some out →
  vprintf (gs ≫= unparse) args = Ok (out, signed 32 (Z.of_nat (length out))).
Proof.
  intros Hok Hr. unfold vprintf.
  exact (loop_segments gs _ args 0 out Hok Hr eq_refl (unparse_length gs Hok)).
Qed.

Lemma vprintf_renders_witness :
  vprintf [37; 45; 53; 115; 124; 37; 53; 108; 120; 37; 37; 33]
    [ArgStr (Some [65; 66]); ArgWord 255] =
    Ok ([65; 66; 32; 32; 32; 124; 32; 32; 32; 102; 102; 37; 33], 13).
Proof.
  exact (vprintf_renders [Conv true [53] 0 115; Text [124]; Conv false [53] 1 120; PctText [33]]
    [ArgStr (Some [65; 66]); ArgWord 255] [65; 66; 32; 32; 32; 124; 32; 32; 32; 102; 102; 37; 33]
    eq_refl eq_refl).
Defined.

(** [vprintf] ends on every format and every list of arguments, unknown
    conversions and a percent sign at the end included: it returns the number of
    characters it printed, unless it reads an argument that is not there or is
    of the other kind, or a field width overflows. *)
Theorem vprintf_terminates format args :
  vprintf format args = Fault ∨
  ∃ out, vprintf format args = Ok (out, signed 32 (Z.of_nat (length out))).
Proof. exact (loop_total (length format) format args 0 (le_n _) eq_refl). Qed.

(** Negative numbers print as their 64-bit pattern. *)
Lemma vprintf_negative w mods :
  - 2 ^ 31 ≤ w < 0 →
  vprintf [37; 100] [ArgWord (u32 w)] = Ok (decimal (2 ^ 64 + w), signed 32 (Z.of_nat (length (decimal (2 ^ 64 + w))))) ∧
  number_spec 100 mods (u64 w) = decimal (2 ^ 64 + w).
Proof.
  intros Hw. assert (E64 : u64 w = 2 ^ 64 + w).
  { unfold wrap. rewrite <- (Z.mod_add w 1) by done. rewrite Z.mod_small; lia. }
  assert (E32 : signed 32 (u32 w) = w).
  { rewrite <- (signed_small w) at 2 by lia. apply signed_eq. by apply wrap_idem. }
  split.
  - apply (loop_segments [Conv false [] 0 100] 2 _ 0); [done| |done|cbn; lia].
    cbn [render_all render]. cbn [Z.eqb Pos.eqb]. unfold number_spec, signed_arg. cbn [Z.eqb Pos.eqb orb Nat.leb].
    rewrite E32, E64. cbn [mbind option_bind]. rewrite app_nil_r. unfold padded, width_of. cbn [foldl].
    rewrite (proj2 (Z.ltb_ge _ 0)) by lia. done.
  - unfold number_spec, signed_arg. cbn [Z.eqb Pos.eqb orb].
    destruct (1 <=? mods)%nat; [by rewrite wrap_idem, E64|].
    assert (E : signed 32 (u64 w) = w); [|by rewrite E, E64].
    rewrite <- E32 at 2. apply signed_eq. rewrite wrap_idem by done. unfold wrap.
    apply Z.mod_mod_divide. by exists (2 ^ 32).
Qed.
End Stdio.
