(* ===== verification/Panic.v ===== *)
(** * The panic screen (kernel/panic.cpp, include/kernel/error.h) and the speaker (drivers/speaker.cpp)

    [panic] prints a report on the serial port and on the screen and halts: the
    names of the error, the error code, the registers and a dump of 64 bytes of
    the stack, which is read while the report is printed: the memory of [panic] is a
    function of the moment.  The report is a list of texts with their colours ([report]), and
    [panic_reports] is that both devices get exactly it. *)

From Stdlib Require Import String.
From S2P Require Import Prelude Bytes LibcString LibcStdlib Vga Stdio Thread.

Module Panic.
Import Bytes LibcString LibcStdlib Vga Stdio.
#[local] Open Scope string_scope.
#[local] Open Scope Z_scope.
#[local] Open Scope list_scope.
#[local] Abbreviation length := List.length.

(** ** The code *)

Definition kerror_to_str (err : KernelError) : list Z :=
  chars match err with
  | K_OK => "No Error: OK"
  | K_ERR_MULTIBOOT_FAILED => "Multiboot header not found or invalid."
  | K_ERR_RAMFS_MAGIC_FAILED => "Not a valid keonOS RAMFS MAGIC."
  | K_ERR_SYSTEM_INIT_FAILED => "Failed system initialization."
  | K_ERR_SYSTEM_PAGING_ENABLE_FAILED => "Failed system paging initialization."
  | K_ERR_SYSTEM_TIMER_INIT_FAILED => "Failed system timer initialization."
  | K_ERR_PAGE_FAULT => "Page Fault"
  | K_ERR_GENERAL_PROTECTION => "General Protection Fault"
  | K_ERR_SYSTEM_THREAD_EXIT_ATTEMPT => "System thread attempted to exit!"
  | K_ERR_DIVIDE_BY_ZERO => "Divide by Zero"
  | K_ERR_INVALID_OPCODE => "Invalid Opcode"
  | K_ERR_OUT_OF_MEMORY => "Out of Memory"
  | K_ERR_DEVICE_FAILURE => "Device Failure"
  | K_ERR_STACK_SMASHED => "Stack smashed!"
  | K_ERR_UNKNOWN_ERROR => "Unknown Error"
  end.

(** The registers an interrupt saved, as far as the report shows them. *)
Record registers_t : Set := mk_registers {
  rax : Z; rbx : Z; rcx : Z; rdx : Z; rsi : Z; rdi : Z; rbp : Z; rsp : Z; rip : Z; cs : Z; rflags : Z
}.

(** What the processor holds: the general registers count without saved ones. *)
Record processor : Set := mk_processor { now : registers_t; cr0 : Z; cr2 : Z; cr3 : Z }.

Definition NL : list Z := [10].
Definition VGA_COLOR_RED : Z := 4.
Definition VGA_COLOR_LIGHT_CYAN : Z := 11.
Definition VGA_COLOR_YELLOW : Z := 14.
Definition white : vga_color_t := mk_color VGA_COLOR_WHITE VGA_COLOR_RED.
Definition yellow : vga_color_t := mk_color VGA_COLOR_YELLOW VGA_COLOR_RED.
Definition light_cyan : vga_color_t := mk_color VGA_COLOR_LIGHT_CYAN VGA_COLOR_RED.
Definition OS_VERSION_STRING : list Z := chars "keonOS v0.6 ".

Definition print (format : list Z) (args : list arg) (c : console) : outcome console :=
  '(_, c1) ← printf format args c; Ok c1.
Definition setcolor (color : vga_color_t) (c : console) : console :=
  mk_console (serial_out c) (serial_in c) (terminal_setcolor color (screen c)).
Definition clear (c : console) : outcome console :=
  t ← terminal_clear white_on_black (screen c); Ok (mk_console (serial_out c) (serial_in c) t).

(** A yellow text, and white again. *)
Definition label (text : list Z) (c : console) : outcome console :=
  c1 ← print text [] (setcolor yellow c); Ok (setcolor white c1).

(** [itoa] to a local array of [size] bytes, as the string it leaves there. *)
Definition itoa_in (size : nat) (v base : Z) : outcome (list Z) :=
  '(_, m) ← itoa v BUFFER base (mem_of BUFFER (replicate size 0));
  n ← strlen BUFFER m;
  read_bytes (Z.to_nat n) BUFFER m.

Definition two_registers (format : string) (a b : Z) : console → outcome console :=
  print (chars format ++ NL) [ArgWord a; ArgWord b].

(** A row of the dump: 16 bytes from [ptr + i] on in hexadecimal, then as characters.  What the
    report prints may change the stack that it shows, so each reading has its moment: byte [j]
    of a row is read at [3 * i + 2 * j], again for its digits, and at [3 * i + 32 + j] as a character. *)
Definition dump_hex (m : Z → mem) (t a : Z) (c : console) : outcome console :=
  b ← load (m t) a;
  c1 ← (if b <? 0x10 then print (chars "0") [] c else Ok c);
  b' ← load (m (t + 1)) a;
  buf ← itoa_in 10 b' 16;
  print (chars "%s ") [ArgStr (Some buf)] c1.
Definition dump_char (m : Z → mem) (t a : Z) (c : console) : outcome console :=
  b ← load (m t) a;
  let ch := signed 8 b in
  if (32 <=? ch) && (ch <=? 126) then print (chars "%c") [ArgWord ch] c else print (chars ".") [] c.
Definition dump_row (m : Z → mem) (ptr i : Z) (c : console) : outcome console :=
  c1 ← print (chars "0x%16llx: ") [ArgWord (u64 (ptr + i))] c;
  c2 ← for_range (λ j, dump_hex m (3 * i + 2 * j) (u64 (ptr + i + j))) 16 0 c1;
  c3 ← print (chars " | ") [] c2;
  c4 ← for_range (λ j, dump_char m (3 * i + 32 + j) (u64 (ptr + i + j))) 16 0 c3;
  print NL [] c4.

Definition print_message (message : option (list Z)) (c : console) : outcome console :=
  match message with
  | None => Ok c
  | Some msg => c1 ← label (chars "Message: ") c; print (chars "%s") [ArgStr (Some msg)] c1
  end.

Definition print_registers (saved : bool) (r : registers_t) (p : processor) (c : console) : outcome console :=
  c1 ← print NL [] c;
  c2 ← label (chars "Registers (x64):" ++ NL) c1;
  c3 ← two_registers "RAX: %16llx RBX: %16llx" (rax r) (rbx r) c2;
  c4 ← two_registers "RCX: %16llx RDX: %16llx" (rcx r) (rdx r) c3;
  c5 ← two_registers "RSI: %16llx RDI: %16llx" (rsi r) (rdi r) c4;
  c6 ← two_registers "RBP: %16llx RSP: %16llx" (rbp r) (rsp r) c5;
  c7 ← (if saved then print (chars "RIP: %16llx CS:  %16llx RFLG: %16llx" ++ NL)
          [ArgWord (rip r); ArgWord (cs r); ArgWord (rflags r)] c6 else Ok c6);
  print (chars "CR0: %16llx CR2: %16llx CR3: %16llx" ++ NL) [ArgWord (cr0 p); ArgWord (cr2 p); ArgWord (cr3 p)] c7.

(** The console when the processor halts for good. *)
Definition panic (error : KernelError) (message : option (list Z)) (error_code : Z) (regs : option registers_t)
  (p : processor) (m : Z → mem) (c : console) : outcome console :=
  c0 ← clear c;
  c1 ← print NL [] (setcolor white c0);
  c2 ← print (chars "========================================" ++ NL) [] c1;
  c3 ← print (chars "   KERNEL PANIC - SYSTEM HALTED" ++ NL) [] c2;
  c4 ← print (chars "========================================" ++ NL) [] c3;
  c5 ← print NL [] c4;
  c6 ← label (chars "Error type: ") c5;
  c7 ← print (chars "%s") [ArgStr (Some (kerror_to_str error))] c6;
  c8 ← print NL [] c7;
  c9 ← print_message message c8;
  c10 ← label (NL ++ chars "Error Code: 0x") c9;
  buffer ← itoa_in 32 (u64 (signed 32 error_code)) 16;
  c11 ← print (chars "%s") [ArgStr (Some buffer)] c10;
  let r := default (now p) regs in
  c12 ← print_registers (bool_decide (is_Some regs)) r p c11;
  c13 ← print (NL ++ NL) [] c12;
  c14 ← label (chars "Stack Trace Dump:" ++ NL) c13;
  c15 ← for_range (λ k, dump_row m (rsp r) (16 * k)) 4 0 c14;
  c16 ← print NL [] c15;
  print (chars "System: %s" ++ NL) [ArgStr (Some OS_VERSION_STRING)] (setcolor light_cyan c16).

(** The helpers of error.h. *)
Definition check_error (err : KernelError) (msg : option (list Z)) (code : Z) (p : processor) (m : Z → mem) (c : console)
  : outcome console := if bool_decide (err = K_OK) then Ok c else panic err msg code None p m c.
Definition log_error (err : KernelError) (c : console) : outcome console :=
  let c1 := setcolor (mk_color 12 VGA_COLOR_BLACK) c in
  c2 ← print (chars "[ERROR] %s" ++ NL) [ArgStr (Some (kerror_to_str err))] c1;
  Ok (setcolor white_on_black c2).
Definition handle_error (err : KernelError) (error_code : Z) (c : console) : outcome console :=
  print (chars "%s (code: 0x%x)" ++ NL) [ArgStr (Some (kerror_to_str err)); ArgWord error_code] c.

(** ** The report *)

(** A text in a colour, one character after the other. *)
Definition paint (color : vga_color_t) (text : list Z) : list (vga_color_t * Z) := (λ ch, (color, ch)) <$> text.

Definition hex16 (v : Z) : list Z :=
  let s := hexadecimal (u64 v) in padded false 16 (Z.of_nat (length s)) s.

Definition visible (b : Z) : Z := if (32 <=? b) && (b <=? 126) then b else 46.
Definition hex_cell (b b' : Z) : list Z := (if b <? 16 then [48] else []) ++ hexadecimal b' ++ [32].

(** The row at offset [i], of the bytes [seen] by moment and offset. *)
Definition dump_line (ptr : Z) (seen : Z → Z → Z) (i : Z) : list Z :=
  chars "0x" ++ hex16 (ptr + i) ++ chars ": " ++
  (seqZ 0 16 ≫= λ j, hex_cell (seen (3 * i + 2 * j) (i + j)) (seen (3 * i + 2 * j + 1) (i + j))) ++ chars " | " ++
  (seqZ 0 16 ≫= λ j, [visible (seen (3 * i + 32 + j) (i + j))]) ++ NL.

Definition saved_text (r : registers_t) : list Z :=
  chars "RIP: " ++ hex16 (rip r) ++ chars " CS:  " ++ hex16 (cs r) ++ chars " RFLG: " ++ hex16 (rflags r) ++ NL.

Definition register_text (saved : bool) (r : registers_t) (p : processor) : list Z :=
  chars "RAX: " ++ hex16 (rax r) ++ chars " RBX: " ++ hex16 (rbx r) ++ NL ++
  chars "RCX: " ++ hex16 (rcx r) ++ chars " RDX: " ++ hex16 (rdx r) ++ NL ++
  chars "RSI: " ++ hex16 (rsi r) ++ chars " RDI: " ++ hex16 (rdi r) ++ NL ++
  chars "RBP: " ++ hex16 (rbp r) ++ chars " RSP: " ++ hex16 (rsp r) ++ NL ++
  (if saved then saved_text r else []) ++
  chars "CR0: " ++ hex16 (cr0 p) ++ chars " CR2: " ++ hex16 (cr2 p) ++ chars " CR3: " ++ hex16 (cr3 p) ++ NL.

(** The names that the errors have in the report. *)
Definition error_names : list (KernelError * string) :=
  [(K_OK, "No Error: OK"); (K_ERR_MULTIBOOT_FAILED, "Multiboot header not found or invalid.");
   (K_ERR_RAMFS_MAGIC_FAILED, "Not a valid keonOS RAMFS MAGIC."); (K_ERR_SYSTEM_INIT_FAILED, "Failed system initialization.");
   (K_ERR_SYSTEM_PAGING_ENABLE_FAILED, "Failed system paging initialization.");
   (K_ERR_SYSTEM_TIMER_INIT_FAILED, "Failed system timer initialization."); (K_ERR_PAGE_FAULT, "Page Fault");
   (K_ERR_GENERAL_PROTECTION, "General Protection Fault"); (K_ERR_SYSTEM_THREAD_EXIT_ATTEMPT, "System thread attempted to exit!");
   (K_ERR_DIVIDE_BY_ZERO, "Divide by Zero"); (K_ERR_INVALID_OPCODE, "Invalid Opcode"); (K_ERR_OUT_OF_MEMORY, "Out of Memory");
   (K_ERR_DEVICE_FAILURE, "Device Failure"); (K_ERR_STACK_SMASHED, "Stack smashed!"); (K_ERR_UNKNOWN_ERROR, "Unknown Error")].
Definition error_name (error : KernelError) : list Z :=
  (filter (λ e, e.1 = error) error_names) ≫= λ e, chars e.2.

Definition bar : list Z := chars "========================================" ++ NL.

Definition report (error : KernelError) (message : option (list Z)) (error_code : Z) (saved : bool)
  (r : registers_t) (p : processor) (seen : Z → Z → Z) : list (vga_color_t * Z) :=
  paint white (NL ++ bar ++ chars "   KERNEL PANIC - SYSTEM HALTED" ++ NL ++ bar ++ NL) ++
  paint yellow (chars "Error type: ") ++ paint white (error_name error ++ NL) ++
  match message with
  | None => []
  | Some msg => paint yellow (chars "Message: ") ++ paint white msg
  end ++
  paint yellow (NL ++ chars "Error Code: 0x") ++ paint white (hexadecimal (u64 (signed 32 error_code)) ++ NL) ++
  paint yellow (chars "Registers (x64):" ++ NL) ++ paint white (register_text saved r p ++ NL ++ NL) ++
  paint yellow (chars "Stack Trace Dump:" ++ NL) ++
  paint white (([0; 16; 32; 48] ≫= dump_line (rsp r) seen) ++ NL) ++
  paint light_cyan (chars "System: " ++ OS_VERSION_STRING ++ NL).

(** What the serial port gets for a character. *)
Definition cook (ch : Z) : list Z := if ch =? 10 then [13; 10] else if ch =? 8 then [8; 32; 8] else [ch].

Definition painted (s : Vga.screen) (rs : list (vga_color_t * Z)) : Vga.screen :=
  foldl (λ s p, screen_putchar p.1 s p.2) s rs.

(** ** Printing *)

Section printing.
Context (s0 : Vga.screen) (out0 : list Z).

(** After [rs], with the colour [color] for what comes next. *)
Definition printed (rs : list (vga_color_t * Z)) (color : vga_color_t) (c : console) : Prop :=
  shows (screen c) (painted s0 rs) ∧ terminal_color (screen c) = color ∧ serial_out c = out0 ++ (rs.*2 ≫= cook).

Definition says (m : console → outcome console) (col : vga_color_t) (rs : list (vga_color_t * Z)) (col' : vga_color_t) : Prop :=
  ∀ rs0 c, printed rs0 col c → ∃ c', m c = Ok c' ∧ printed (rs0 ++ rs) col' c'.

Lemma says_bind m1 m2 col rs1 col1 rs2 col2 rs : says m1 col rs1 col1 → says m2 col1 rs2 col2 → rs = rs1 ++ rs2 →
  says (λ c, c1 ← m1 c; m2 c1) col rs col2.
Proof.
  intros H1 H2 -> rs0 c Hc. destruct (H1 rs0 c Hc) as (c1 & -> & Hc1). run.
  destruct (H2 _ c1 Hc1) as (c2 & E & Hc2). exists c2. rewrite app_assoc. by split.
Qed.

Lemma says_ret col : says (λ c, Ok c) col [] col.
Proof. intros rs0 c Hc. exists c. rewrite app_nil_r. by split. Qed.

Lemma says_setcolor m col col1 rs col2 : says m col1 rs col2 → says (λ c, m (setcolor col1 c)) col rs col2.
Proof. intros H rs0 c ([] & _ & Ho). apply H. split; [|by split]. by constructor. Qed.

Lemma says_range body f n i col : (∀ j, i ≤ j < i + Z.of_nat n → says (body j) col (f j) col) →
  says (for_range body n i) col (seqZ i (Z.of_nat n) ≫= f) col.
Proof.
  revert i. induction n as [|n IH]; intros i H; [apply says_ret|].
  rewrite Nat2Z.inj_succ, seqZ_cons, Z.pred_succ by lia. cbn [for_range].
  apply (says_bind _ (for_range body n (i + 1)) _ (f i) col (seqZ (i + 1) (Z.of_nat n) ≫= f)); [apply H; lia| |done].
  apply IH. intros j Hj. apply H. lia.
Qed.

Lemma serial_putc_out ch c : byte ch → serial_out (serial_putc ch c) = serial_out c ++ cook ch ∧
  screen (serial_putc ch c) = screen c.
Proof.
  intros Hb. unfold serial_putc, cook, write_serial. cbn beta in Hb.
  destruct (ch =? 10); [cbn; by rewrite <- app_assoc|].
  destruct (ch =? 8); [cbn; by rewrite <- !app_assoc|]. cbn. by rewrite wrap_small by lia.
Qed.

Lemma putchar_says col ch : byte ch → says (putchar ch) col [(col, ch)] col.
Proof.
  intros Hb rs0 c (Hs & Hc & Ho). unfold putchar. cbn beta in Hb. rewrite wrap_small by lia.
  destruct (serial_putc_out ch c Hb) as [E1 E2]. rewrite E2.
  unfold terminal_write. cbn [for_each]. destruct (putchar_shows _ _ ch Hs) as (t & -> & Ht & _ & Hct). run.
  eexists. split; [reflexivity|]. rewrite Hc in *. split; [|split].
  - unfold painted in *. rewrite foldl_app. exact Ht.
  - exact Hct.
  - cbn [serial_out]. rewrite E1, Ho, fmap_app, bind_app, app_assoc. cbn. by rewrite app_nil_r.
Qed.

Lemma put_all_says col l : Forall byte l → says (for_each putchar l) col (paint col l) col.
Proof.
  induction 1 as [|ch l Hch Hl IH]; [apply says_ret|]. cbn [for_each].
  by apply (says_bind _ (for_each putchar l) _ [(col, ch)] col (paint col l)); [apply putchar_says| |].
Qed.

Lemma print_says gs args out col : segs_ok gs = true → render_all gs args = Some out → Forall byte out →
  says (print (gs ≫= unparse) args) col (paint col out) col.
Proof.
  intros Hg Hr Hb rs0 c Hc. unfold print, printf, vprintf.
  rewrite (loop_segments gs _ args 0 out Hg Hr eq_refl (unparse_length gs Hg)). run.
  destruct (put_all_says col out Hb rs0 c Hc) as (c' & -> & Hc'). run. by exists c'.
Qed.

End printing.

(** ** The texts *)

Lemma hexadecimal_bytes v : 0 ≤ v < 2 ^ 64 → Forall byte (hexadecimal v).
Proof.
  intros Hv. unfold hexadecimal, numeral. apply Forall_fmap, Forall_rev.
  eapply Forall_impl; [apply rdigits_range; lia|]. cbn beta. intros d Hd.
  destruct (digit_char_facts d) as (_ & _ & _ & _ & H & _); cbn; lia.
Qed.

Lemma hex16_bytes v : Forall byte (hex16 v).
Proof.
  unfold hex16, padded. apply Forall_app. split; [|apply hexadecimal_bytes, wrap_range; lia].
  destruct (_ <? _); [|done]. by apply Forall_replicate.
Qed.

Lemma numeral_short v k : (1 ≤ k)%nat → 0 ≤ v < 16 ^ Z.of_nat k → (length (numeral 16 v) ≤ k)%nat.
Proof.
  intros Hk Hv. unfold numeral. rewrite length_rev. destruct k as [|k]; [lia|]. by apply rdigits_bound.
Qed.

(** The local arrays have room for the digits. *)
Lemma itoa_in_ok size v k : (1 ≤ k < size)%nat → 0 ≤ v < 16 ^ Z.of_nat k → 0 ≤ v < 2 ^ 64 →
  itoa_in size v 16 = Ok (hexadecimal v).
Proof.
  intros Hk Hv Hv64. unfold itoa_in. pose proof (numeral_short v k ltac:(lia) Hv) as Hl.
  destruct (itoa_ulltoa v BUFFER 16 (mem_of BUFFER (replicate size 0))) as (m & -> & Hs & _); [lia|done| |].
  - intros i Hi. apply (bytes_allocated _ _ _ (bytes_mem_of BUFFER (replicate size 0))). rewrite length_replicate. lia.
  - run. rewrite (strlen_spec _ _ _ Hs). run. rewrite Nat2Z.id. apply read_bytes_spec.
    destruct Hs as [_ H]. by apply bytes_app in H as [H _].
Qed.

Definition bytes_ok (l : list Z) : bool := forallb (λ b, (0 <=? b) && (b <? 256)) l.

Section texts.
Context (s0 : Vga.screen) (out0 : list Z) (col : vga_color_t).
Abbreviation says := (says s0 out0).

Lemma text_says t : seg_ok (Text t) && bytes_ok t = true → says (print t []) col (paint col t) col.
Proof.
  intros [Hs Hb]%andb_prop. rewrite <- (app_nil_r t) at 1. apply (print_says s0 out0 [Text t]).
  - cbn [segs_ok]. by rewrite Hs.
  - cbn. by rewrite app_nil_r.
  - by apply bytes_check.
Qed.

Lemma string_says s : Forall byte s → says (print (chars "%s") [ArgStr (Some s)]) col (paint col s) col.
Proof.
  intros Hs. apply (print_says s0 out0 [Conv false [] 0 115]); [done| |done].
  cbn. unfold padded. rewrite (proj2 (Z.ltb_ge _ _)) by lia. cbn. by rewrite app_nil_r.
Qed.

(** A format of texts and 64-bit registers in columns of 16. *)
Definition X : seg := Conv false (chars "16") 2 120.

Lemma hex_says gs args out : segs_ok gs = true → render_all gs args = Some out → Forall byte out →
  says (print (gs ≫= unparse) args) col (paint col out) col.
Proof. apply print_says. Qed.

Lemma two_registers_says l1 l2 f a b : seg_ok (Text l1) && bytes_ok l1 = true → seg_ok (Text l2) && bytes_ok l2 = true →
  chars f ++ NL = [Text l1; X; Text l2; X; Text NL] ≫= unparse →
  says (two_registers f a b) col (paint col (l1 ++ hex16 a ++ l2 ++ hex16 b ++ NL)) col.
Proof.
  intros [H1 B1]%andb_prop [H2 B2]%andb_prop E. unfold two_registers. rewrite E. apply hex_says.
  - cbn [segs_ok]. by rewrite H1, H2.
  - reflexivity.
  - apply bytes_check in B1, B2. rewrite !Forall_app; split_and!; (done || apply hex16_bytes || by repeat constructor).
Qed.

Lemma three_registers_says l1 l2 l3 f a b d :
  seg_ok (Text l1) && bytes_ok l1 = true → seg_ok (Text l2) && bytes_ok l2 = true → seg_ok (Text l3) && bytes_ok l3 = true →
  f = [Text l1; X; Text l2; X; Text l3; X; Text NL] ≫= unparse →
  says (print f [ArgWord a; ArgWord b; ArgWord d]) col
    (paint col (l1 ++ hex16 a ++ l2 ++ hex16 b ++ l3 ++ hex16 d ++ NL)) col.
Proof.
  intros [H1 B1]%andb_prop [H2 B2]%andb_prop [H3 B3]%andb_prop ->. apply hex_says.
  - cbn [segs_ok]. by rewrite H1, H2, H3.
  - reflexivity.
  - apply bytes_check in B1, B2, B3. rewrite !Forall_app; split_and!; (done || apply hex16_bytes || by repeat constructor).
Qed.

Lemma paint_app l1 l2 : paint col (l1 ++ l2) = paint col l1 ++ paint col l2.
Proof. apply fmap_app. Qed.

(** *** The dump *)

Lemma dump_hex_says m t a b b' : m t !! a = Some b → byte b → m (t + 1) !! a = Some b' → byte b' →
  says (dump_hex m t a) col (paint col (hex_cell b b')) col.
Proof.
  intros Hm Hb Hm' Hb'. cbn beta in Hb, Hb'. unfold dump_hex. rewrite (load_ok _ _ _ Hm), (load_ok _ _ _ Hm').
  cbn [mbind outcome_bind]. rewrite (itoa_in_ok 10 b' 2) by lia. cbn [mbind outcome_bind]. unfold hex_cell. rewrite paint_app.
  apply (says_bind _ _ (λ c, if b <? 0x10 then print (chars "0") [] c else Ok c) _ _ (paint col (if b <? 16 then [48] else [])) col
    (paint col (hexadecimal b' ++ [32]))); [| |done].
  - destruct (b <? 16); [by apply text_says|apply says_ret].
  - apply (print_says s0 out0 [Conv false [] 0 115; Text [32]]); [done| |].
    + cbn. unfold padded. rewrite (proj2 (Z.ltb_ge _ _)) by lia. reflexivity.
    + apply Forall_app_2; [apply hexadecimal_bytes; lia|by repeat constructor].
Qed.

Lemma dump_char_says m t a b : m t !! a = Some b → byte b → says (dump_char m t a) col (paint col [visible b]) col.
Proof.
  intros Hm Hb. cbn beta in Hb. unfold dump_char, visible. rewrite (load_ok _ _ _ Hm). cbn [mbind outcome_bind].
  assert (Es : signed 8 b = if b <? 128 then b else b - 256) by (unfold signed; by rewrite wrap_small by lia).
  assert (Ev : (32 <=? signed 8 b) && (signed 8 b <=? 126) = (32 <=? b) && (b <=? 126)).
  { rewrite Es. destruct (Z.ltb_spec b 128); lia. }
  rewrite Ev. destruct ((32 <=? b) && (b <=? 126)) eqn:E; [|by apply text_says].
  rewrite Es, (proj2 (Z.ltb_lt b 128)) by lia.
  apply (print_says s0 out0 [Conv false [] 0 99]); [done| |by apply Forall_singleton].
  cbn. by rewrite wrap_small by lia.
Qed.
End texts.

Section row.
Context (s0 : Vga.screen) (out0 : list Z) (col : vga_color_t).
Abbreviation says := (says s0 out0).

Lemma paint_bind (g : Z → list Z) l : paint col (l ≫= g) = l ≫= λ j, paint col (g j).
Proof. induction l as [|j l IH]; [done|]. by rewrite !bind_cons, paint_app, IH. Qed.

(** The bytes seen from [ptr] on at each moment of the dump. *)
Definition readable (m : Z → mem) (ptr : Z) (seen : Z → Z → Z) : Prop :=
  ∀ t i, 0 ≤ t < 192 → 0 ≤ i < 64 → m t !! (ptr + i) = Some (seen t i) ∧ byte (seen t i).

Lemma dump_row_says m ptr seen i : readable m ptr seen → 0 ≤ i ≤ 48 → 0 ≤ ptr → ptr + 64 ≤ 2 ^ 64 →
  says (dump_row m ptr i) col (paint col (dump_line ptr seen i)) col.
Proof.
  intros Hr Hi H0 Ha. unfold dump_row, dump_line. rewrite !paint_app, !paint_bind.
  assert (Hw : ∀ j, 0 ≤ j < 16 → u64 (ptr + i + j) = ptr + (i + j)) by (intros j Hj; rewrite wrap_small by lia; lia).
  eapply says_bind; [|eapply says_bind; [|eapply says_bind; [|eapply says_bind; [|by apply text_says|reflexivity]|reflexivity]|reflexivity]|].
  - apply (print_says s0 out0 [Text (chars "0x"); X; Text (chars ": ")] [ArgWord (u64 (ptr + i))]
      (chars "0x" ++ hex16 (ptr + i) ++ chars ": ")); [done| |].
    + unfold hex16. cbn. unfold unsigned_arg. cbn. by rewrite !(wrap_small _ (ptr + i)) by lia.
    + rewrite !Forall_app. split_and!; [by apply bytes_check|apply hex16_bytes|by apply bytes_check].
  - apply (says_range s0 out0 _ (λ j, paint col (hex_cell (seen (3 * i + 2 * j) (i + j)) (seen (3 * i + 2 * j + 1) (i + j)))) 16 0 col).
    intros j Hj. rewrite Hw by lia. by apply dump_hex_says; apply Hr; lia.
  - by apply text_says.
  - apply (says_range s0 out0 _ (λ j, paint col [visible (seen (3 * i + 32 + j) (i + j))]) 16 0 col).
    intros j Hj. rewrite Hw by lia. by apply dump_char_says; apply Hr; lia.
  - rewrite !paint_app, <- !app_assoc. do 5 f_equal.
Qed.
End row.

Section parts.
Context (s0 : Vga.screen) (out0 : list Z).
Abbreviation says := (says s0 out0).

Lemma label_says t col : seg_ok (Text t) && bytes_ok t = true → says (label t) col (paint yellow t) white.
Proof.
  intros Ht. eapply (says_bind _ _ (λ c, print t [] (setcolor yellow c)) (λ c, Ok (setcolor white c)));
    [by apply says_setcolor, text_says|apply (says_setcolor _ _ (λ c, Ok c)), says_ret|by rewrite app_nil_r].
Qed.

Lemma print_message_says msg : Forall byte (default [] msg) →
  says (print_message msg) white
    match msg with None => [] | Some t => paint yellow (chars "Message: ") ++ paint white t end white.
Proof.
  intros Hb. destruct msg as [t|]; [|apply says_ret]. unfold print_message.
  eapply says_bind; [by apply label_says|by apply string_says|done].
Qed.

Lemma register_rows r p saved :
  says (λ c3, c4 ← two_registers "RAX: %16llx RBX: %16llx" (rax r) (rbx r) c3;
    c5 ← two_registers "RCX: %16llx RDX: %16llx" (rcx r) (rdx r) c4;
    c6 ← two_registers "RSI: %16llx RDI: %16llx" (rsi r) (rdi r) c5;
    c7 ← two_registers "RBP: %16llx RSP: %16llx" (rbp r) (rsp r) c6;
    c8 ← (if saved : bool then print (chars "RIP: %16llx CS:  %16llx RFLG: %16llx" ++ NL)
          [ArgWord (rip r); ArgWord (cs r); ArgWord (rflags r)] c7 else Ok c7);
    print (chars "CR0: %16llx CR2: %16llx CR3: %16llx" ++ NL) [ArgWord (cr0 p); ArgWord (cr2 p); ArgWord (cr3 p)] c8)
  white (paint white (register_text saved r p)) white.
Proof.
  eapply says_bind; [by apply (two_registers_says _ _ _ (chars "RAX: ") (chars " RBX: "))| |].
  1: eapply says_bind; [by apply (two_registers_says _ _ _ (chars "RCX: ") (chars " RDX: "))| |reflexivity].
  1: eapply says_bind; [by apply (two_registers_says _ _ _ (chars "RSI: ") (chars " RDI: "))| |reflexivity].
  1: eapply says_bind; [by apply (two_registers_says _ _ _ (chars "RBP: ") (chars " RSP: "))| |reflexivity].
  1: eapply (says_bind _ _ (λ c, if saved then _ else Ok c) _ _ (paint white (if saved then saved_text r else [])) white); [| |reflexivity].
  - destruct saved; [|apply says_ret].
    by apply (three_registers_says _ _ _ (chars "RIP: ") (chars " CS:  ") (chars " RFLG: ")).
  - by apply (three_registers_says _ _ _ (chars "CR0: ") (chars " CR2: ") (chars " CR3: ")).
  - unfold register_text. rewrite !paint_app, <- !app_assoc. reflexivity.
Qed.

Lemma print_registers_says r p saved :
  says (print_registers saved r p) white
    (paint white NL ++ paint yellow (chars "Registers (x64):" ++ NL) ++ paint white (register_text saved r p)) white.
Proof.
  unfold print_registers. eapply says_bind; [by apply text_says| |reflexivity].
  eapply says_bind; [by apply label_says|apply register_rows|reflexivity].
Qed.

Lemma kerror_name err : kerror_to_str err = error_name err.
Proof. by destruct err. Qed.
Lemma kerror_bytes err : Forall byte (kerror_to_str err).
Proof. apply bytes_check. by destruct err. Qed.

Lemma dump_says m ptr seen : readable m ptr seen → 0 ≤ ptr → ptr + 64 ≤ 2 ^ 64 →
  says (for_range (λ k, dump_row m ptr (16 * k)) 4 0) white (paint white ([0; 16; 32; 48] ≫= dump_line ptr seen)) white.
Proof.
  intros Hm H0 Hp. rewrite paint_bind.
  apply (says_range s0 out0 _ (λ k, paint white (dump_line ptr seen (16 * k))) 4 0 white).
  intros k Hk. apply dump_row_says; (done || lia).
Qed.
End parts.

(** C36. A panic clears the screen and prints its report, whatever is on the screen
    and for every error, message, code and set of registers, when the 64 bytes
    at the stack pointer can be read: on the screen in its colours, with the
    lines scrolled as they come, and on the serial port.  The dump shows each byte as it is
    when it is read, twice for the digits and once as a character: with saved registers
    nothing writes there meanwhile, without them it is the frame of the report itself.  The
    code is printed as the 64-bit pattern of a signed 32-bit number. *)
Theorem panic_reports error message error_code regs p m c l seen :
  let r := default (now p) regs in
  cells_ok (screen c) l → readable m (rsp r) seen →
  0 ≤ rsp r → rsp r + 64 ≤ 2 ^ 64 → Forall byte (default [] message) →
  let rep := report error message error_code (bool_decide (is_Some regs)) r p seen in
  ∃ c', panic error message error_code regs p m c = Ok c' ∧
    shows (screen c') (painted (blank_screen white_on_black) rep) ∧
    serial_out c' = serial_out c ++ (rep.*2 ≫= cook).
Proof.
  intros r Hcells Hm H0 Hp Hmsg rep. unfold panic.
  destruct (clear_shows (screen c) white_on_black l Hcells) as (t & Et & Ht). unfold clear. rewrite Et. run.
  rewrite (itoa_in_ok 32 _ 16) by (try lia; apply wrap_range; lia). fold r. cbn [mbind outcome_bind].
  set (code := hexadecimal (u64 (signed 32 error_code))).
  assert (Hcode : Forall byte code) by (apply hexadecimal_bytes, wrap_range; lia).
  pose proof (print_message_says (blank_screen white_on_black) (serial_out c) message Hmsg) as Hmess.
  pose proof (print_registers_says (blank_screen white_on_black) (serial_out c) r p (bool_decide (is_Some regs))) as Hregs.
  pose proof (dump_says (blank_screen white_on_black) (serial_out c) m (rsp r) seen Hm H0 Hp) as Hdump.
  match goal with |- ∃ c', ?body = Ok c' ∧ _ =>
    let f := eval pattern (setcolor white (mk_console (serial_out c) (serial_in c) t)) in body in
    match f with ?g _ => assert (Hd : says (blank_screen white_on_black) (serial_out c) g white rep light_cyan) end end.
  - eapply says_bind; [by apply text_says| |].
    1: eapply says_bind; [by apply text_says| |reflexivity].
    1: eapply says_bind; [by apply text_says| |reflexivity].
    1: eapply says_bind; [by apply text_says| |reflexivity].
    1: eapply says_bind; [by apply text_says| |reflexivity].
    1: eapply says_bind; [by apply label_says| |reflexivity].
    1: eapply says_bind; [by apply string_says, kerror_bytes| |reflexivity].
    1: eapply says_bind; [by apply text_says| |reflexivity].
    1: eapply says_bind; [exact Hmess| |reflexivity].
    1: eapply says_bind; [by apply label_says| |reflexivity].
    1: eapply says_bind; [by apply string_says| |reflexivity].
    1: eapply says_bind; [exact Hregs| |reflexivity].
    1: eapply says_bind; [by apply text_says| |reflexivity].
    1: eapply says_bind; [by apply label_says| |reflexivity].
    1: eapply says_bind; [exact Hdump| |reflexivity].
    1: eapply says_bind; [by apply text_says| |reflexivity].
    + apply says_setcolor, (print_says _ _ [Text (chars "System: "); Conv false [] 0 115; Text NL]
        [ArgStr (Some OS_VERSION_STRING)] (chars "System: " ++ OS_VERSION_STRING ++ NL)); [done|reflexivity|by apply bytes_check].
    + unfold rep, report, bar. fold code. rewrite <- kerror_name, !paint_app, <- !app_assoc. reflexivity.
  - destruct (Hd [] (setcolor white (mk_console (serial_out c) (serial_in c) t))) as (c' & E & Hs & _ & Ho).
    + split; [by destruct Ht|]. split; [done|]. cbn. by rewrite app_nil_r.
    + exists c'. split; [exact E|]. by split.
Qed.

(** A code with the highest bit, as the stack protector's 0xDEADBEEF, gets eight
    digits that it does not have. *)
Lemma error_code_extended error_code : 2 ^ 31 ≤ error_code < 2 ^ 32 →
  hexadecimal (u64 (signed 32 error_code)) = hexadecimal (2 ^ 64 - 2 ^ 32 + error_code).
Proof.
  intros H. assert (Es : signed 32 error_code = error_code - 2 ^ 32).
  { unfold signed. rewrite wrap_small by lia. by rewrite (proj2 (Z.ltb_ge error_code (2 ^ (32 - 1)))) by (change (2 ^ (32 - 1)) with (2 ^ 31); lia). }
  rewrite Es. f_equal. unfold wrap. symmetry. apply (Z.mod_unique_pos _ _ (-1)); lia.
Qed.

(** The stack of an interrupted thread, all of whose bytes are 'A', and the frame of a panic
    without saved registers, with a byte that changes before its second reading. *)
Definition demo_registers : registers_t := mk_registers 1 2 3 4 5 6 7 0x1000 0 0x8 0x202.
Definition demo_processor : processor := mk_processor demo_registers 0x80000011 0 0x5000.
Definition steady (t i : Z) : Z := 65.
Definition live_frame (t i : Z) : Z := if (i =? 0) && (t =? 0) then 1 else 65.
Definition demo_stack (seen : Z → Z → Z) (t : Z) : mem := mem_of 0x1000 (seen t <$> seqZ 0 64).

Lemma demo_readable seen : (∀ t i, byte (seen t i)) → readable (demo_stack seen) 0x1000 seen.
Proof.
  intros Hb t i Ht Hi. split; [|apply Hb]. unfold demo_stack.
  replace (0x1000 + i) with (0x1000 + Z.of_nat (Z.to_nat i)) by lia. apply bytes_mem_of.
  rewrite list_lookup_fmap, lookup_seqZ_lt by lia. cbn. by rewrite Z2Nat.id by lia.
Qed.

Lemma panic_reports_witness :
  (∃ c', panic K_ERR_PAGE_FAULT (Some (chars "stack")) 2 (Some demo_registers) demo_processor
      (demo_stack steady) (mk_console [] [] demo_terminal) = Ok c' ∧
    serial_out c' = (report K_ERR_PAGE_FAULT (Some (chars "stack")) 2 true demo_registers demo_processor steady).*2 ≫= cook) ∧
  ∃ c', panic K_ERR_STACK_SMASHED None 0xDEADBEEF None demo_processor
      (demo_stack live_frame) (mk_console [] [] demo_terminal) = Ok c' ∧
    serial_out c' = (report K_ERR_STACK_SMASHED None 0xDEADBEEF false demo_registers demo_processor live_frame).*2 ≫= cook.
Proof.
  split.
  - destruct (panic_reports K_ERR_PAGE_FAULT (Some (chars "stack")) 2 (Some demo_registers) demo_processor
      (demo_stack steady) (mk_console [] [] demo_terminal) (replicate 2000 0) steady) as (c' & E & _ & H).
    + split; [reflexivity|apply bytes_mem_of].
    + apply demo_readable. intros t i. unfold steady. lia.
    + done.
    + done.
    + by apply bytes_check.
    + exists c'. split; [exact E|exact H].
  - destruct (panic_reports K_ERR_STACK_SMASHED None 0xDEADBEEF None demo_processor
      (demo_stack live_frame) (mk_console [] [] demo_terminal) (replicate 2000 0) live_frame) as (c' & E & _ & H).
    + split; [reflexivity|apply bytes_mem_of].
    + apply demo_readable. intros t i. unfold live_frame. destruct (_ && _); lia.
    + done.
    + done.
    + constructor.
    + exists c'. split; [exact E|exact H].
Defined.
End Panic.

(** ** The speaker

    A state is the list of the bytes written to ports, in order, and the timer;
    [tmp] are the bytes read from the port 0x61. *)
Module Speaker.
Import Thread.

Definition play_sound (nFrequence tmp : Z) : list (Z * Z) :=
  if nFrequence =? 0 then [] else
  let Div := 1193180 / nFrequence in
  [(0x43, 0xB6); (0x42, u8 Div); (0x42, u8 (Z.shiftr Div 8))] ++
  (if negb (tmp =? Z.lor tmp 3) then [(0x61, Z.lor tmp 3)] else []).

Definition nosound (tmp : Z) : list (Z * Z) := [(0x61, Z.land tmp 0xFC)].

Definition beep (frequency duration_ms tmp1 tmp2 : Z) (tm : timer) : outcome (list (Z * Z) * timer) :=
  let w := play_sound frequency tmp1 in
  tm' ← timer_sleep duration_ms tm;
  Ok (w ++ nosound tmp2, tm').

(** What a byte port holds after the writes. *)
Definition port (p v : Z) (w : list (Z * Z)) : Z := foldl (λ v x, if x.1 =? p then x.2 else v) v w.

(** The counter of the tone gets the divisor from 19 Hz on, below that only its low 16
    bits; the two bits of the gate are set, and [nosound] clears them again. *)
Lemma beep_tone f v : 0 < f < 2 ^ 32 → 0 ≤ v < 256 →
  ∃ lo hi w, play_sound f v = (0x43, 0xB6) :: (0x42, lo) :: (0x42, hi) :: w ∧
    lo + 256 * hi = (1193180 / f) mod 2 ^ 16 ∧ (19 ≤ f → lo + 256 * hi = 1193180 / f) ∧
    port 0x61 v (play_sound f v) = Z.lor v 3 ∧ port 0x61 v (play_sound f v ++ nosound (Z.lor v 3)) = Z.land (Z.lor v 3) 0xFC.
Proof.
  intros Hf Hv. unfold play_sound. rewrite (proj2 (Z.eqb_neq f 0)) by lia. cbv zeta. cbn [app].
  set (d := 1193180 / f). assert (Hd : 0 ≤ d) by (apply Z.div_pos; lia).
  assert (Em : u8 d + 256 * u8 (Z.shiftr d 8) = d mod 2 ^ 16).
  { unfold wrap. rewrite Z.shiftr_div_pow2 by lia. change (2 ^ 8) with 256. change (2 ^ 16) with (256 * 256). zdm. }
  eexists _, _, _. split; [reflexivity|]. split_and!; [exact Em| | |].
  - intros H19. rewrite Em. apply Z.mod_small. split; [lia|]. apply Z.div_lt_upper_bound; [lia|]. change (2 ^ 16) with 65536. lia.
  - destruct (Z.eqb_spec v (Z.lor v 3)) as [E|E]; cbn; [exact E|done].
  - destruct (Z.eqb_spec v (Z.lor v 3)) as [E|E]; reflexivity.
Qed.
End Speaker.
