(* ===== verification/UserLib.v ===== *)
(** * The library of user programs (user/libc)

    The C library that programs link.  Strings and numbers work on the memory of
    the program; [itoa] and most string functions are word for word those of
    the kernel, and where they are written differently they are proved equal
    ([strings_agree]).  [vprintf] is modelled by the texts it hands to [write];
    [printf_renders] gives its output for any format, [strtol_reads_numerals]
    what [strtol] makes of a number.  The system calls are a parameter
    ([UserCalls], with the laws of [DirectoryLaws]); [directory_listed] is what
    the listing of hello.c prints.  At the end of the definitions: klbtool.c. *)

From Stdlib Require Import String.
From S2P Require Import Prelude Bytes LibcString LibcStdlib Vga Stdio Block.

Module UserLib.
Import Bytes Block LibcString LibcStdlib Stdio.
#[local] Open Scope string_scope.
#[local] Open Scope Z_scope.
#[local] Open Scope list_scope.
#[local] Abbreviation length := List.length.

(** ** Strings (string/string.c) *)

Definition strlen (str : Z) (m : mem) : outcome Z := e ← find_nul (fuel_of m) m str; Ok (e - str).

(** [while (n--) *d++ = *s++;] *)
Fixpoint memcpy_loop (n : nat) (d s : Z) (m : mem) : outcome mem :=
  match n with
  | O => Ok m
  | S n' => b ← load m s; m' ← store d b m; memcpy_loop n' (d + 1) (s + 1) m'
  end.
Definition memcpy (dest src n : Z) (m : mem) : outcome (Z * mem) :=
  m' ← memcpy_loop (Z.to_nat n) dest src m; Ok (dest, m').

Fixpoint memset_loop (n : nat) (p c : Z) (m : mem) : outcome mem :=
  match n with
  | O => Ok m
  | S n' => m' ← store p (u8 c) m; memset_loop n' (p + 1) c m'
  end.
Definition memset (s c n : Z) (m : mem) : outcome (Z * mem) := m' ← memset_loop (Z.to_nat n) s c m; Ok (s, m').

(** [for (i = 0; i < n && src[i] != 0; i++)], with [n - i] left; the answer is [i]. *)
Fixpoint strncpy_copy (n : nat) (i dest src : Z) (m : mem) : outcome (Z * mem) :=
  match n with
  | O => Ok (i, m)
  | S n' =>
      b ← load m (src + i);
      if b =? 0 then Ok (i, m) else m' ← store (dest + i) b m; strncpy_copy n' (i + 1) dest src m'
  end.
Definition strncpy (dest src n : Z) (m : mem) : outcome (Z * mem) :=
  '(i, m1) ← strncpy_copy (Z.to_nat n) 0 dest src m;
  m2 ← for_range (λ i m, store (dest + i) 0 m) (Z.to_nat (n - i)) i m1;
  Ok (dest, m2).

Fixpoint strcmp_loop (fuel : nat) (s1 s2 : Z) (m : mem) : outcome Z :=
  match fuel with
  | O => OutOfFuel
  | S fuel' =>
      x ← load m s1;
      if x =? 0 then y ← load m s2; Ok (x - y) else
      y ← load m s2;
      if x =? y then strcmp_loop fuel' (s1 + 1) (s2 + 1) m else Ok (x - y)
  end.
Definition strcmp (s1 s2 : Z) (m : mem) : outcome Z := strcmp_loop (fuel_of m) s1 s2 m.

(** [while (n && *s1 && *s1 == *s2)], then [n == 0] or the difference. *)
Fixpoint strncmp_loop (n : nat) (s1 s2 : Z) (m : mem) : outcome Z :=
  match n with
  | O => Ok 0
  | S n' =>
      x ← load m s1;
      if x =? 0 then y ← load m s2; Ok (x - y) else
      y ← load m s2;
      if x =? y then strncmp_loop n' (s1 + 1) (s2 + 1) m else Ok (x - y)
  end.
Definition strncmp (s1 s2 n : Z) (m : mem) : outcome Z := strncmp_loop (Z.to_nat n) s1 s2 m.

(** [while ( *s != (char)c) { if (! *s++) return 0; }] *)
Fixpoint strchr_loop (fuel : nat) (s c : Z) (m : mem) : outcome Z :=
  match fuel with
  | O => OutOfFuel
  | S fuel' =>
      b ← load m s;
      if negb (b =? c) then (if b =? 0 then Ok 0 else strchr_loop fuel' (s + 1) c m) else Ok s
  end.
Definition strchr (s c : Z) (m : mem) : outcome Z := strchr_loop (fuel_of m) s (u8 c) m.

(** ** Numbers (stdlib/utils.c) *)

(** The same text as the kernel's. *)
Definition itoa (value str base : Z) (m : mem) : outcome (Z * mem) := LibcStdlib.itoa value str base m.
Definition ulltoa (value str base : Z) (m : mem) : outcome (Z * mem) := itoa value str base m.

Fixpoint skip_blanks (fuel : nat) (str : Z) (m : mem) : outcome Z :=
  match fuel with
  | O => OutOfFuel
  | S fuel' =>
      c ← load m str;
      if (c =? 32) || (c =? 9) || (c =? 10) then skip_blanks fuel' (str + 1) m else Ok str
  end.

(** The value of a digit, or of a letter. *)
Definition digit_value (c : Z) : option Z :=
  if (48 <=? c) && (c <=? 57) then Some (c - 48)
  else if (97 <=? c) && (c <=? 122) then Some (c - 97 + 10)
  else if (65 <=? c) && (c <=? 90) then Some (c - 65 + 10)
  else None.

(** A [long]; overflow is undefined. *)
Definition as_long (v : Z) : outcome Z := if (- 2 ^ 63 <=? v) && (v <? 2 ^ 63) then Ok v else Fault.

Fixpoint strtol_digits (fuel : nat) (str base result : Z) (m : mem) : outcome (Z * Z) :=
  match fuel with
  | O => OutOfFuel
  | S fuel' =>
      c ← load m str;
      if c =? 0 then Ok (result, str) else
      match digit_value c with
      | None => Ok (result, str)
      | Some v =>
          if base <=? v then Ok (result, str) else
          p ← as_long (result * base);
          r ← as_long (p + v);
          strtol_digits fuel' (str + 1) base r m
      end
  end.

(** The prefix of the number: where its digits start, and the base. *)
Definition strtol_prefix (str base : Z) (m : mem) : outcome (Z * Z) :=
  if base =? 0 then
    c ← load m str;
    if c =? 48 then
      c1 ← load m (str + 1);
      if (c1 =? 120) || (c1 =? 88) then Ok (str + 2, 16) else Ok (str, 8)
    else Ok (str, 10)
  else if base =? 16 then
    c ← load m str;
    if c =? 48 then
      c1 ← load m (str + 1);
      if (c1 =? 120) || (c1 =? 88) then Ok (str + 2, base) else Ok (str, base)
    else Ok (str, base)
  else Ok (str, base).

(** The value and the address for [*endptr]. *)
Definition strtol (str base : Z) (m : mem) : outcome (Z * Z) :=
  s ← skip_blanks (fuel_of m) str m;
  c ← load m s;
  let '(sign, s1) := if c =? 45 then (-1, s + 1) else if c =? 43 then (1, s + 1) else (1, s) in
  '(s2, base') ← strtol_prefix s1 base m;
  '(result, e) ← strtol_digits (fuel_of m) s2 base' 0 m;
  v ← as_long (result * sign);
  Ok (v, e).

(** ** Printing (stdio/printf.c) *)

Definition text_of (value base : Z) : outcome (list Z) := number_text itoa value base.

(** One directive, from the character after the percent sign on: the texts
    written, and the arguments left.  An unknown one does nothing. *)
Definition directive (c : Z) (args : list arg) : outcome (list (list Z) * list arg) :=
  if c =? 37 then Ok ([[37]], args)
  else if c =? 115 then
    '(s, args') ← va_str args; Ok ([default NULL_TEXT s], args')
  else if (c =? 100) || (c =? 105) then
    '(w, args') ← va_word args;
    let val := signed 32 w in
    if val <? 0 then
      if val =? - 2 ^ 31 then Fault else
      s ← text_of (- val) 10; Ok ([[45]; s], args')
    else s ← text_of val 10; Ok ([s], args')
  else if c =? 120 then
    '(w, args') ← va_word args; s ← text_of (u32 w) 16; Ok ([s], args')
  else if c =? 112 then
    '(w, args') ← va_word args; s ← text_of (u64 w) 16; Ok ([[48; 120]; s], args')
  else if c =? 99 then
    '(w, args') ← va_word args; Ok ([[u8 w]], args')
  else Ok ([], args).

Definition total (texts : list (list Z)) : Z := Z.of_nat (length (concat texts)).

(** The texts written, one call of [write] each, and the count returned.  A
    percent sign at the end takes the pointer behind the terminator. *)
Fixpoint vprintf_loop (fuel : nat) (f : list Z) (args : list arg) (written : Z) : outcome (list (list Z) * Z) :=
  match f with
  | [] => Ok ([], written)
  | c :: f1 =>
      match fuel with
      | O => OutOfFuel
      | S fuel' =>
          if negb (c =? 37) then
            let '(l, r) := span_text f1 in
            '(rest, n) ← vprintf_loop fuel' r args (signed 32 (written + Z.of_nat (length (c :: l))));
            Ok ((c :: l) :: rest, n)
          else
            match f1 with
            | [] => Fault
            | d :: f2 =>
                '(texts, args') ← directive d args;
                '(rest, n) ← vprintf_loop fuel' f2 args' (signed 32 (written + total texts));
                Ok (texts ++ rest, n)
            end
      end
  end.

Definition vprintf (format : list Z) (args : list arg) : outcome (list (list Z) * Z) :=
  vprintf_loop (length format) format args 0.

(** ** The strings agree with the kernel's *)

Lemma memcpy_loop_range n : ∀ d s i m,
  memcpy_loop n (d + i) (s + i) m = for_range (λ i m, b ← load m (s + i); store (d + i) b m) n i m.
Proof.
  induction n as [|n IH]; intros d s i m; [done|]. cbn [memcpy_loop for_range].
  destruct (load m (s + i)) as [b|?| |]; run; [|done..]. destruct (store (d + i) b m) as [m'|?| |]; run; [|done..].
  rewrite <- IH. by rewrite !Z.add_assoc.
Qed.

Lemma memset_loop_range n : ∀ p c i m,
  memset_loop n (p + i) c m = for_range (λ i m, store (p + i) (u8 c) m) n i m.
Proof.
  induction n as [|n IH]; intros p c i m; [done|]. cbn [memset_loop for_range].
  destruct (store (p + i) (u8 c) m) as [m'|?| |]; run; [|done..]. rewrite <- IH. by rewrite Z.add_assoc.
Qed.

Lemma strcmp_loop_same fuel : ∀ s1 s2 m, strcmp_loop fuel s1 s2 m = LibcString.strcmp_loop fuel s1 s2 m.
Proof.
  induction fuel as [|fuel IH]; intros s1 s2 m; [done|]. cbn [strcmp_loop LibcString.strcmp_loop].
  destruct (load m s1) as [x|?| |]; run; [|done..]. destruct (x =? 0); [done|].
  destruct (load m s2) as [y|?| |]; run; [|done..]. by destruct (x =? y).
Qed.

Lemma strncmp_loop_same n : ∀ s1 s2 m, strncmp_loop n s1 s2 m = LibcString.strncmp_loop n s1 s2 m.
Proof.
  induction n as [|n IH]; intros s1 s2 m; [done|]. cbn [strncmp_loop LibcString.strncmp_loop].
  destruct (load m s1) as [x|?| |]; run; [|done..]. destruct (load m s2) as [y|?| |]; run; [|by case_match..].
  destruct (Z.eqb_spec x 0) as [->|Hx].
  - destruct (Z.eqb_spec 0 y) as [<-|]; done.
  - destruct (x =? y); [|done]. cbn [negb]. apply IH.
Qed.

Lemma strchr_loop_same fuel : ∀ s c m, strchr_loop fuel s c m = LibcString.strchr_loop fuel s c m.
Proof.
  induction fuel as [|fuel IH]; intros s c m; [done|]. cbn [strchr_loop LibcString.strchr_loop].
  destruct (load m s) as [b|?| |]; run; [|done..]. destruct (b =? c); cbn [negb]; [done|]. by destruct (b =? 0).
Qed.

Lemma strncpy_copy_same n : ∀ i dest src m,
  (r ← strncpy_copy n i dest src m; Ok r) =
  ('(k, d, m') ← LibcString.strncpy_loop n (dest + i) (src + i) m; Ok (i + Z.of_nat n - Z.of_nat k, m')) ∧
  ∀ k d m', LibcString.strncpy_loop n (dest + i) (src + i) m = Ok (k, d, m') →
    (k ≤ n)%nat ∧ d = dest + (i + Z.of_nat n - Z.of_nat k).
Proof.
  induction n as [|n IH]; intros i dest src m; cbn [strncpy_copy LibcString.strncpy_loop].
  { split; [run; do 2 f_equal; lia|]. intros k d m' [= <- <- <-]. split; [lia|]. lia. }
  destruct (load m (src + i)) as [b|?| |]; run; [|split; [done|by intros ???]..].
  destruct (b =? 0); run.
  { split; [do 2 f_equal; lia|]. intros k d m' [= <- <- <-]. split; [done|]. lia. }
  destruct (store (dest + i) b m) as [m1|?| |]; run; [|split; [done|by intros ???]..].
  destruct (IH (i + 1) dest src m1) as [E H]. rewrite !Z.add_assoc in E, H. split.
  - rewrite E. destruct (LibcString.strncpy_loop n _ _ m1) as [[[k d] m2]|?| |]; run; [|done..]. do 2 f_equal. lia.
  - intros k d m' Hl. destruct (H k d m' Hl) as [H1 H2]. split; [lia|]. lia.
Qed.

Lemma clear_range n : ∀ i dest a m,
  for_range (λ i m, store (dest + i) 0 m) n (a + i) m = for_range (λ i m, store (dest + a + i) 0 m) n i m.
Proof.
  induction n as [|n IH]; intros i dest a m; [done|]. cbn [for_range]. rewrite Z.add_assoc.
  destruct (store (dest + a + i) 0 m); run; [|done..]. by rewrite <- Z.add_assoc, IH.
Qed.

(** The string functions of programs and of the kernel do the same, faults
    included, on every memory and for all arguments, although three of them are
    written differently. *)
Theorem strings_agree m :
  (∀ s, strlen s m = LibcString.strlen s m) ∧
  (∀ d s n, memcpy d s n m = LibcString.memcpy d s n m) ∧
  (∀ s c n, memset s c n m = LibcString.memset s c n m) ∧
  (∀ d s n, 0 ≤ n → strncpy d s n m = LibcString.strncpy d s n m) ∧
  (∀ a b, strcmp a b m = LibcString.strcmp a b m) ∧
  (∀ a b n, strncmp a b n m = LibcString.strncmp a b n m) ∧
  (∀ s c, strchr s c m = LibcString.strchr s c m).
Proof.
  split_and!.
  - done.
  - intros d s n. unfold memcpy, LibcString.memcpy. pose proof (memcpy_loop_range (Z.to_nat n) d s 0 m) as H.
    rewrite !Z.add_0_r in H. by rewrite H.
  - intros s c n. unfold memset, LibcString.memset. pose proof (memset_loop_range (Z.to_nat n) s c 0 m) as H.
    rewrite !Z.add_0_r in H. by rewrite H.
  - intros d s n Hn. unfold strncpy, LibcString.strncpy. destruct (strncpy_copy_same (Z.to_nat n) 0 d s m) as [E H].
    rewrite !Z.add_0_r in E, H. destruct (LibcString.strncpy_loop (Z.to_nat n) d s m) as [[[k e] m1]|?| |]; run;
      destruct (strncpy_copy (Z.to_nat n) 0 d s m) as [[i m2]|?| |]; run; try done.
    injection E as -> ->. destruct (H k e m1 eq_refl) as [Hl ->].
    replace (Z.to_nat (n - _)) with k by lia.
    rewrite <- (clear_range k 0). by rewrite Z.add_0_r.
  - intros a b. apply strcmp_loop_same.
  - intros a b n. apply strncmp_loop_same.
  - intros s c. apply strchr_loop_same.
Qed.

Lemma strings_agree_witness :
  strncpy 1000 1002 3 (mem_of 1000 [9; 9; 65; 0; 7]) = LibcString.strncpy 1000 1002 3 (mem_of 1000 [9; 9; 65; 0; 7]).
Proof. apply strings_agree. lia. Defined.

(** ** Reading numbers *)

Definition blank (c : Z) : bool := (c =? 32) || (c =? 9) || (c =? 10).

Lemma digit_char_read d : 0 ≤ d < 36 →
  digit_value (digit_char d) = Some d ∧ blank (digit_char d) = false ∧ digit_char d ≠ 0 ∧ digit_char d ≠ 43 ∧
  digit_char d ≠ 45 ∧ (d < 16 → digit_char d ≠ 120 ∧ digit_char d ≠ 88).
Proof.
  intros Hd. assert (Hin : d ∈ seqZ 0 36) by (apply elem_of_seqZ; lia).
  cbn in Hin. repeat (apply elem_of_cons in Hin as [->|Hin]; [vm_compute; repeat split; congruence|]).
  by apply elem_of_nil in Hin.
Qed.

Lemma as_long_ok v : - 2 ^ 63 ≤ v < 2 ^ 63 → as_long v = Ok v.
Proof. intros H. unfold as_long. by rewrite (proj2 (Z.leb_le _ _)), (proj2 (Z.ltb_lt _ _)) by lia. Qed.

(** The character behind a number: not a digit of the base, nor an x. *)
Definition stops (base c : Z) : Prop :=
  (c = 0 ∨ match digit_value c with None => True | Some v => base ≤ v end) ∧ c ≠ 120 ∧ c ≠ 88.

Lemma skip_blanks_spec bl : ∀ fuel m s c, Forall (λ b, blank b = true) bl → bytes m s (bl ++ [c]) → blank c = false →
  (length bl < fuel)%nat → skip_blanks fuel s m = Ok (s + Z.of_nat (length bl)).
Proof.
  induction bl as [|b bl IH]; intros fuel m s c Hb Hm Hc Hf; (destruct fuel as [|fuel]; [cbn in Hf; lia|]); cbn [skip_blanks].
  - apply bytes_cons in Hm as [Hm _]. rewrite (load_ok _ _ _ Hm). run. unfold blank in Hc. rewrite Hc. by rewrite Z.add_0_r.
  - apply Forall_cons in Hb as [Hb1 Hb]. apply bytes_cons in Hm as [Hm1 Hm]. rewrite (load_ok _ _ _ Hm1). run.
    unfold blank in Hb1. rewrite Hb1. rewrite (IH fuel m (s + 1) c) by (done || (cbn in Hf; lia)). f_equal. cbn [List.length]. lia.
Qed.

Lemma strtol_digits_spec fuel m s ds base acc stop :
  base ≤ 36 → Forall (λ d, 0 ≤ d < base) ds → bytes m s ((digit_char <$> ds) ++ [stop]) → stops base stop →
  (length ds < fuel)%nat → 0 ≤ acc → foldl (λ a d, a * base + d) acc ds < 2 ^ 63 →
  strtol_digits fuel s base acc m = Ok (foldl (λ a d, a * base + d) acc ds, s + Z.of_nat (length ds)).
Proof.
  intros Hb Hds. revert fuel s acc. induction Hds as [|d ds Hd Hds IH]; intros fuel s acc Hm Hs Hf Ha Hv;
    (destruct fuel as [|fuel]; [cbn in Hf; lia|]); cbn [strtol_digits].
  - apply bytes_cons in Hm as [Hm _]. rewrite (load_ok _ _ _ Hm). run. rewrite Z.add_0_r. destruct Hs as [[->|Hs] _]; [done|].
    destruct (stop =? 0); [done|]. destruct (digit_value stop) as [v|]; [|done]. by rewrite (proj2 (Z.leb_le _ _) Hs).
  - rewrite fmap_cons in Hm. apply bytes_cons in Hm as [Hm1 Hm]. rewrite (load_ok _ _ _ Hm1). run.
    destruct (digit_char_read d) as (Ev & _ & H0 & _); [lia|]. rewrite Ev, (proj2 (Z.eqb_neq _ 0) H0), (proj2 (Z.leb_gt _ _)) by lia.
    cbn [foldl] in *.
    assert (Hmono : ∀ l a, Forall (λ d, 0 ≤ d < base) l → 0 ≤ a → a ≤ foldl (λ a d, a * base + d) a l).
    { intros l. induction l as [|x l IHl]; intros a Hl Hpos; [done|]. apply Forall_cons in Hl as [Hx Hl]. cbn [foldl].
      etransitivity; [|apply IHl; [done|nia]]. nia. }
    pose proof (Hmono ds (acc * base + d) Hds ltac:(nia)) as Hle.
    rewrite as_long_ok by nia. run. rewrite as_long_ok by nia. run.
    rewrite IH; [f_equal; f_equal; cbn [List.length]; lia|done|done|cbn in Hf; lia|nia|done].
Qed.

(** No prefix in front of the digits of a numeral. *)
Lemma strtol_prefix_spec m s base ds stop : 2 ≤ base ≤ 16 → Forall (λ d, 0 ≤ d < base) ds → ds ≠ [] →
  bytes m s ((digit_char <$> ds) ++ [stop]) → stops base stop → strtol_prefix s base m = Ok (s, base).
Proof.
  intros Hb Hds Hne Hm Hs. unfold strtol_prefix. rewrite (proj2 (Z.eqb_neq base 0)) by lia.
  destruct (base =? 16); [|done]. destruct ds as [|d ds]; [done|]. apply Forall_cons in Hds as [Hd Hds].
  rewrite fmap_cons in Hm. apply bytes_cons in Hm as [Hm1 Hm]. rewrite (load_ok _ _ _ Hm1). run.
  destruct (digit_char d =? 48); [|done].
  assert (Hnext : ∃ c, m !! (s + 1) = Some c ∧ c ≠ 120 ∧ c ≠ 88).
  { destruct ds as [|d2 ds].
    - exists stop. apply bytes_cons in Hm as [Hm2 _]. destruct Hs as [_ Hs]. by split.
    - rewrite fmap_cons in Hm. apply bytes_cons in Hm as [Hm2 _]. exists (digit_char d2). split; [done|].
      apply Forall_cons in Hds as [Hd2 _]. apply digit_char_read; lia. }
  destruct Hnext as (c & Hc & H1 & H2). rewrite (load_ok _ _ _ Hc). run.
  by rewrite (proj2 (Z.eqb_neq c 120) H1), (proj2 (Z.eqb_neq c 88) H2).
Qed.

Definition signs (sgn : list Z) : option Z :=
  match sgn with [] => Some 1 | [c] => if c =? 45 then Some (-1) else if c =? 43 then Some 1 else None | _ => None end.

(** [strtol] reads a number that [itoa] can write, behind blanks and a sign:
    its value, with the sign, and the address of the first character behind its
    digits, for every base from 2 to 16 and every value that a long holds. *)
Theorem strtol_reads_numerals m s base v bl sgn sg stop :
  2 ≤ base ≤ 16 → 0 ≤ v < 2 ^ 63 → Forall (λ b, blank b = true) bl → signs sgn = Some sg → stops base stop →
  bytes m s (bl ++ sgn ++ (digit_char <$> numeral base v) ++ [stop]) →
  strtol s base m = Ok (sg * v, s + Z.of_nat (length bl + length sgn + length (numeral base v))).
Proof.
  intros Hb Hv Hbl Hsg Hstop Hm. pose proof (bytes_length _ _ _ Hm) as Hlen. rewrite !length_app, length_fmap in Hlen. cbn [List.length] in Hlen.
  destruct (numeral_head base v) as (d & ds & En & Hds); [lia|lia|].
  apply bytes_app in Hm as [Hm1 Hm]. apply bytes_app in Hm as [Hm2 Hm]. set (s1 := s + Z.of_nat (length bl)) in *.
  set (s2 := s1 + Z.of_nat (length sgn)) in *. destruct (digit_char_read d) as (_ & Hd1 & Hd2 & Hd3 & Hd4 & _).
  { apply Forall_cons in Hds as [? _]. lia. }
  assert (Hfirst : ∃ c, m !! s1 = Some c ∧ blank c = false ∧
    (if c =? 45 then (-1, s1 + 1) else if c =? 43 then (1, s1 + 1) else (1, s1)) = (sg, s2)).
  { destruct sgn as [|c [|]]; [| |done]; cbn [signs] in Hsg.
    - injection Hsg as <-. rewrite En, fmap_cons in Hm. apply bytes_cons in Hm as [Hm _]. exists (digit_char d).
      split; [by subst s2; rewrite Z.add_0_r in Hm|]. split; [done|].
      rewrite (proj2 (Z.eqb_neq _ 45) Hd4), (proj2 (Z.eqb_neq _ 43) Hd3). subst s2. by rewrite Z.add_0_r.
    - apply bytes_cons in Hm2 as [Hm2 _]. exists c. split; [done|].
      destruct (Z.eqb_spec c 45) as [->|]; [by injection Hsg as <-|]. destruct (Z.eqb_spec c 43) as [->|]; [by injection Hsg as <-|done]. }
  destruct Hfirst as (c & Hc & Hcb & Esign). unfold strtol.
  rewrite (skip_blanks_spec bl _ m s c Hbl); [|apply bytes_app; split; [exact Hm1|apply bytes_cons; split; [exact Hc|apply bytes_nil]]|done|lia].
  run. fold s1. rewrite (load_ok _ _ _ Hc). run. rewrite Esign.
  rewrite (strtol_prefix_spec m s2 base (numeral base v) stop); [|done|by rewrite En|by rewrite En|done|done]. run.
  assert (Hval : foldl (λ a d, a * base + d) 0 (numeral base v) = v) by (apply numeral_value; lia).
  rewrite (strtol_digits_spec _ m s2 (numeral base v) base 0 stop); [|lia|by rewrite En|done|done|lia|done|rewrite Hval; lia].
  run. rewrite Hval. assert (Hs : sg = 1 ∨ sg = -1).
  { destruct sgn as [|x [|]]; cbn [signs] in Hsg; repeat case_match; simplify_eq; auto. }
  rewrite as_long_ok by (destruct Hs as [-> | ->]; lia).
  run. f_equal. f_equal; [lia|]. subst s2 s1. lia.
Qed.

Lemma strtol_reads_numerals_witness :
  strtol 1000 10 (mem_of 1000 [32; 45; 49; 50; 51; 96; 10]) = Ok (-123, 1005).
Proof.
  apply (strtol_reads_numerals _ 1000 10 123 [32] [45] (-1) 96).
  - lia.
  - lia.
  - by repeat constructor.
  - reflexivity.
  - split; [by right|done].
  - assert (E : [32; 45; 49; 50; 51; 96; 10] = ([32] ++ [45] ++ (digit_char <$> numeral 10 123) ++ [96]) ++ [10]) by (vm_compute; reflexivity).
    rewrite E. exact (proj1 (proj1 (bytes_app _ _ _ _) (bytes_mem_of 1000 _))).
Defined.

(** ** What [vprintf] prints *)

(** A format is texts and directives; only a percent sign at the end is neither. *)
Inductive piece : Set := Plain (s : list Z) | Directive (c : Z).

Definition unparse (g : piece) : list Z := match g with Plain s => s | Directive c => [37; c] end.

Fixpoint pieces_ok (gs : list piece) : bool :=
  match gs with
  | [] => true
  | Plain s :: gs' =>
      plain s && negb (length s =? 0)%nat && pieces_ok gs' && match gs' with Plain _ :: _ => false | _ => true end
  | Directive _ :: gs' => pieces_ok gs'
  end.

(** The text of a directive and the arguments left. *)
Definition render (c : Z) (args : list arg) : option (list Z * list arg) :=
  if c =? 37 then Some ([37], args)
  else if c =? 115 then
    match args with ArgStr s :: args' => Some (default NULL_TEXT s, args') | _ => None end
  else if bool_decide (c ∈ [100; 105; 120; 112; 99]) then
    match args with
    | ArgWord w :: args' =>
        if (c =? 100) || (c =? 105) then
          let v := signed 32 w in
          if v =? - 2 ^ 31 then None
          else Some ((if v <? 0 then [45] else []) ++ decimal (Z.abs v), args')
        else if c =? 120 then Some (hexadecimal (u32 w), args')
        else if c =? 112 then Some ([48; 120] ++ hexadecimal (u64 w), args')
        else Some ([u8 w], args')
    | _ => None
    end
  else Some ([], args).

Fixpoint render_all (gs : list piece) (args : list arg) : option (list Z) :=
  match gs with
  | [] => Some []
  | Plain s :: gs' => rest ← render_all gs' args; Some (s ++ rest)
  | Directive c :: gs' => '(out, args') ← render c args; rest ← render_all gs' args'; Some (out ++ rest)
  end.

Lemma text_of_ok v base : 10 ≤ base ≤ 16 → 0 ≤ v < 2 ^ 64 → text_of v base = Ok (digit_char <$> numeral base v).
Proof. intros Hb Hv. apply number_text_spec; [|lia|done]. intros m. apply itoa_ulltoa; lia. Qed.

Lemma signed_range v : - 2 ^ 31 ≤ signed 32 v < 2 ^ 31.
Proof.
  unfold signed. pose proof (wrap_range 32 v ltac:(lia)). change (2 ^ (32 - 1)) with (2 ^ 31).
  destruct (Z.ltb_spec (wrap 32 v) (2 ^ 31)); lia.
Qed.

Lemma directive_ok c args out args' : render c args = Some (out, args') →
  ∃ texts, directive c args = Ok (texts, args') ∧ concat texts = out.
Proof.
  unfold render, directive. destruct (Z.eqb_spec c 37) as [->|]; [intros [= <- <-]; by exists [[37]]|].
  destruct (Z.eqb_spec c 115) as [->|].
  { destruct args as [|[w|s] args1]; [done..|]. intros [= <- <-]. cbn [va_str]. run. eexists [_]. by rewrite concat_cons, app_nil_r. }
  case_bool_decide as Hc.
  2:{ intros [= <- <-]. exists []. repeat (rewrite (proj2 (Z.eqb_neq c _)) by (intros ->; set_solver)). done. }
  destruct args as [|[w|s] args1]; [done| |done]. cbn [va_word]. destruct ((c =? 100) || (c =? 105)) eqn:E1.
  - pose proof (signed_range w) as Hr. run. destruct (Z.eqb_spec (signed 32 w) (- 2 ^ 31)) as [|Hmin]; [done|].
    intros [= <- <-]. destruct (Z.ltb_spec (signed 32 w) 0).
    + rewrite text_of_ok by lia. run. eexists [_; _]. split; [reflexivity|]. rewrite Z.abs_neq by lia. cbn. by rewrite app_nil_r.
    + rewrite text_of_ok by lia. run. eexists [_]. split; [reflexivity|]. rewrite Z.abs_eq by lia. cbn. by rewrite app_nil_r.
  - destruct (c =? 120) eqn:E2.
    { intros [= <- <-]. run. pose proof (wrap_range 32 w ltac:(lia)). rewrite text_of_ok by lia. run.
      eexists [_]. split; [reflexivity|]. cbn. by rewrite app_nil_r. }
    destruct (c =? 112) eqn:E3.
    { intros [= <- <-]. run. pose proof (wrap_range 64 w ltac:(lia)). rewrite text_of_ok by lia. run.
      eexists [_; _]. split; [reflexivity|]. cbn. by rewrite app_nil_r. }
    intros [= <- <-]. rewrite (proj2 (Z.eqb_eq c 99)).
    2:{ repeat (apply elem_of_cons in Hc as [->|Hc]; [done|]). by apply elem_of_nil in Hc. }
    run. by eexists [_].
Qed.

(** *** The loop *)

Lemma pieces_start gs : match gs with Plain _ :: _ => false | _ => true end = true →
  starts 37 (gs ≫= unparse) = true ∨ gs ≫= unparse = [].
Proof. destruct gs as [|[s|c] gs]; [by right|done|by left]. Qed.

Lemma written_step w (a b : list Z) :
  signed 32 (signed 32 (w + Z.of_nat (length a)) + Z.of_nat (length b)) = signed 32 (w + Z.of_nat (length (a ++ b))).
Proof. rewrite signed_add, length_app. f_equal. lia. Qed.

Lemma vprintf_loop_ok gs : ∀ fuel args w out,
  pieces_ok gs = true → render_all gs args = Some out → signed 32 w = w → (length gs ≤ fuel)%nat →
  ∃ texts, vprintf_loop fuel (gs ≫= unparse) args w = Ok (texts, signed 32 (w + Z.of_nat (length out))) ∧ concat texts = out.
Proof.
  induction gs as [|g gs IH]; intros fuel args w out Hok Hr Hw Hf.
  { injection Hr as <-. exists []. split; [|done]. cbn [List.length] in *. rewrite Z.add_0_r, Hw. by destruct fuel. }
  destruct fuel as [|fuel]; [cbn in Hf; lia|]. cbn [List.length] in Hf. rewrite bind_cons.
  destruct g as [s|c]; cbn [pieces_ok render_all unparse] in *.
  - apply andb_prop in Hok as [[[Hp Hs]%andb_prop Hok]%andb_prop Hnext]. destruct s as [|c s]; [done|].
    destruct (render_all gs args) as [rest|] eqn:Er; [|done]. injection Hr as <-.
    cbn [plain forallb] in Hp. apply andb_prop in Hp as [Hc Hp]. cbn [app vprintf_loop]. rewrite Hc.
    rewrite (span_text_plain s _ Hp (pieces_start gs Hnext)).
    destruct (IH fuel args (signed 32 (w + Z.of_nat (length (c :: s)))) rest Hok Er (signed_idem _) ltac:(lia)) as (ts & -> & Et).
    run. exists ((c :: s) :: ts). split; [|by rewrite concat_cons, Et]. by rewrite written_step.
  - destruct (render c args) as [[out1 args']|] eqn:E1; [|done]. cbn [mbind option_bind] in Hr.
    destruct (render_all gs args') as [rest|] eqn:Er; [|done]. injection Hr as <-.
    destruct (directive_ok c args out1 args' E1) as (t1 & Ed & Et1). cbn [app vprintf_loop negb Z.eqb Pos.eqb]. rewrite Ed. run.
    destruct (IH fuel args' (signed 32 (w + total t1)) rest Hok Er (signed_idem _) ltac:(lia)) as (ts & -> & Et).
    run. exists (t1 ++ ts). split; [|by rewrite concat_app, Et1, Et]. unfold total. rewrite Et1. by rewrite written_step.
Qed.

Lemma pieces_length gs : pieces_ok gs = true → (length gs ≤ length (gs ≫= unparse))%nat.
Proof.
  induction gs as [|g gs IH]; [done|]. intros Hok. rewrite bind_cons, length_app. cbn [List.length].
  destruct g as [s|c]; cbn [pieces_ok unparse List.length] in *; [|specialize (IH Hok); lia].
  apply andb_prop in Hok as [[[_ Hs]%andb_prop Hok]%andb_prop _]. specialize (IH Hok). destruct s; [done|]. cbn in *. lia.
Qed.

(** What the [vprintf] of programs writes for a format and arguments that fit:
    its texts as they are, strings, characters, signed decimal numbers,
    hexadecimal numbers and addresses, nothing for any other directive, which
    takes no argument either; the count returned is the number of characters. *)
Theorem printf_renders gs args out :
  pieces_ok gs = true → render_all gs args = Some out →
  ∃ texts, vprintf (gs ≫= unparse) args = Ok (texts, signed 32 (Z.of_nat (length out))) ∧ concat texts = out.
Proof.
  intros Hok Hr. unfold vprintf.
  exact (vprintf_loop_ok gs (length (gs ≫= unparse)) args 0 out Hok Hr eq_refl (pieces_length gs Hok)).
Qed.

Lemma printf_renders_witness :
  ∃ texts, vprintf (chars "%s=%d%%") [ArgStr (Some (chars "a")); ArgWord (-5)] = Ok (texts, 5) ∧ concat texts = chars "a=-5%".
Proof.
  exact (printf_renders [Directive 115; Plain (chars "="); Directive 100; Directive 37]
    [ArgStr (Some (chars "a")); ArgWord (-5)] (chars "a=-5%") eq_refl eq_refl).
Defined.

(** A percent sign at the end: the loop goes on behind the terminator. *)
Lemma lone_percent gs : ∀ fuel args w out, pieces_ok gs = true → render_all gs args = Some out → (length gs < fuel)%nat →
  vprintf_loop fuel ((gs ≫= unparse) ++ [37]) args w = Fault.
Proof.
  induction gs as [|g gs IH]; intros fuel args w out Hok Hr Hf; (destruct fuel as [|fuel]; [cbn in Hf; lia|]); [done|].
  rewrite bind_cons. cbn [List.length] in Hf. destruct g as [s|c]; cbn [pieces_ok render_all unparse] in *.
  - apply andb_prop in Hok as [[[Hp Hs]%andb_prop Hok]%andb_prop Hnext]. destruct s as [|c s]; [done|].
    destruct (render_all gs args) as [rest|] eqn:Er; [|done].
    cbn [plain forallb] in Hp. apply andb_prop in Hp as [Hc Hp]. rewrite <- app_assoc. cbn [app vprintf_loop]. rewrite Hc.
    rewrite (span_text_plain s _ Hp) by (left; by destruct gs as [|[?|?] ?]).
    by rewrite (IH fuel args _ rest) by (done || lia).
  - destruct (render c args) as [[out1 args']|] eqn:E1; [|done]. cbn [mbind option_bind] in Hr.
    destruct (render_all gs args') as [rest|] eqn:Er; [|done].
    destruct (directive_ok c args out1 args' E1) as (t1 & Ed & _). cbn [app vprintf_loop negb Z.eqb Pos.eqb].
    rewrite Ed. run. by rewrite (IH fuel args' _ rest) by (done || lia).
Qed.

Lemma vprintf_lone_percent gs args out : pieces_ok gs = true → render_all gs args = Some out →
  vprintf ((gs ≫= unparse) ++ [37]) args = Fault.
Proof.
  intros Hok Hr. apply (lone_percent gs _ args 0 out Hok Hr). rewrite length_app. cbn [List.length].
  pose proof (pieces_length gs Hok). lia.
Qed.

(** The length modifiers of the formats of hello.c and klbtool.c are not known here:
    a long prints as the letter d. *)
Lemma printf_long_is_a_letter v : ∃ texts, vprintf (chars "%ld") [ArgWord v] = Ok (texts, 1) ∧ concat texts = chars "d".
Proof. eexists. split; [reflexivity|]. reflexivity. Qed.

(** The least integer has no positive counterpart. *)
Lemma printf_least_int : vprintf (chars "%d") [ArgWord (2 ^ 31)] = Fault.
Proof. reflexivity. Qed.

(** ** System calls (unistd, sys/kex_syscalls.c, stdlib/malloc.c, stdlib/exit.c)

    [syscall] is the instruction with the number and the arguments, the answer a
    signed 64-bit number.  For the calls that move bytes, [sys_write] is given what
    is at the buffer, and [sys_read] and [sys_readdir] answer what arrives there. *)

Class UserCalls (W : Type) := {
  syscall : Z → list Z → kernel W Z;
  sys_write : Z → list Z → kernel W Z;
  sys_read : Z → Z → Z → kernel W (Z * list Z);
  sys_readdir : Z → Z → kernel W (Z * list Z);
  sys_open : option (list Z) → Z → kernel W Z
}.

Definition SYS_CLOSE : Z := 3.
Definition SYS_MKDIR : Z := 4.
Definition SYS_UNLINK : Z := 6.
Definition SYS_STAT : Z := 8.
Definition SYS_FSTAT : Z := 9.
Definition SYS_GETPID : Z := 10.
Definition SYS_SLEEP : Z := 11.
Definition SYS_SBRK : Z := 12.
Definition SYS_LOAD_LIBRARY : Z := 20.
Definition SYS_EXIT : Z := 60.

Section calls.
Context {W : Type} `{!UserCalls W}.

(** The answer as an [int]. *)
Definition int_answer (m : kernel W Z) : kernel W Z := r ← m; mret (signed 32 r).

Definition write (fd : Z) (text : list Z) : kernel W Z := sys_write fd text.
Definition read (fd buf count : Z) : kernel W (Z * list Z) := sys_read fd buf count.
Definition open (pathname : option (list Z)) (flags : Z) : kernel W Z := int_answer (sys_open pathname flags).
Definition close (fd : Z) : kernel W Z := int_answer (syscall SYS_CLOSE [fd]).
Definition mkdir (pathname mode : Z) : kernel W Z := int_answer (syscall SYS_MKDIR [pathname; mode]).
Definition unlink (pathname : Z) : kernel W Z := int_answer (syscall SYS_UNLINK [pathname]).
Definition stat (path buf : Z) : kernel W Z := int_answer (syscall SYS_STAT [path; buf]).
Definition fstat (fd buf : Z) : kernel W Z := int_answer (syscall SYS_FSTAT [fd; buf]).
Definition getpid : kernel W Z := int_answer (syscall SYS_GETPID []).
Definition sleep (seconds : Z) : kernel W Z := syscall SYS_SLEEP [u32 (seconds * 1000)];; mret 0.
Definition msleep (ms : Z) : kernel W unit := syscall SYS_SLEEP [ms];; mret ().
Definition load_library (path : Z) : kernel W Z := syscall SYS_LOAD_LIBRARY [path].

(** The call does not return; if it did, the loop behind it would not end. *)
Definition exit (status : Z) : kernel W unit := syscall SYS_EXIT [status];; lift OutOfFuel.

Definition sbrk (increment : Z) : kernel W Z := syscall SYS_SBRK [increment].
Definition malloc (size : Z) : kernel W Z :=
  if size =? 0 then mret 0 else
  ptr ← sbrk size;
  if ptr =? -1 then mret 0 else mret ptr.
Definition free (ptr : Z) : kernel W unit := mret ().

(** *** Output *)

Fixpoint print_strs (texts : list (list Z)) : kernel W unit :=
  match texts with [] => mret () | s :: texts' => write 1 s;; print_strs texts' end.

Definition putchar (c : Z) : kernel W Z := write 1 [u8 c];; mret c.
Definition puts (s : list Z) : kernel W Z := write 1 s;; putchar 10;; mret (signed 32 (Z.of_nat (length s) + 1)).
Definition printf (format : list Z) (args : list arg) : kernel W Z :=
  '(texts, written) ← lift (vprintf format args); print_strs texts;; mret written.

(** *** Directories (dirent/dirent.c): the objects [DIR], by their addresses *)

Record DIR : Set := mk_DIR { fd : Z; index : Z; entry : list Z }.

Definition sizeof_DIR : Z := 144.

Definition opendir (name : list Z) (dirs : gmap Z DIR) : kernel W (Z * gmap Z DIR) :=
  fd ← open (Some name) 0;
  if fd <? 0 then mret (0, dirs) else
  dir ← malloc sizeof_DIR;
  if dir =? 0 then close fd;; mret (0, dirs) else
  mret (dir, <[dir := mk_DIR fd 0 (replicate 136 0)]> dirs).

(** The answer is whether there is an entry, which is then in the object. *)
Definition readdir (dir : Z) (dirs : gmap Z DIR) : kernel W (bool * gmap Z DIR) :=
  if dir =? 0 then mret (false, dirs) else
  d ← lift (of_option (dirs !! dir));
  '(ret, bs) ← sys_readdir (fd d) (index d);
  if ret <=? 0 then mret (false, dirs) else
  mret (true, <[dir := mk_DIR (fd d) (signed 32 (index d + 1)) bs]> dirs).

Definition closedir (dir : Z) (dirs : gmap Z DIR) : kernel W (Z * gmap Z DIR) :=
  if dir =? 0 then mret (-1, dirs) else
  d ← lift (of_option (dirs !! dir));
  ret ← close (fd d);
  free dir;;
  mret (ret, dirs).

(** The characters of a string in an array. *)
Fixpoint c_text (l : list Z) : list Z := match l with [] => [] | c :: l' => if c =? 0 then [] else c :: c_text l' end.

Definition DT_DIR : Z := 2.

(** The loop of hello.c over the entries of a directory: [d_name] has 128 bytes, [d_type] is at 132. *)
Definition print_entry (e : list Z) : kernel W Z :=
  printf (chars "  %s [%s]" ++ [10])
    [ArgStr (Some (c_text (take 128 e)));
     ArgStr (Some (if of_le (sub 132 4 e) =? DT_DIR then chars "DIR" else chars "FILE"))].
Fixpoint list_entries (fuel : nat) (dir : Z) (dirs : gmap Z DIR) : kernel W (gmap Z DIR) :=
  match fuel with
  | O => lift OutOfFuel
  | S fuel' =>
      '(more, dirs1) ← readdir dir dirs;
      if negb more then mret dirs1 else
      d ← lift (of_option (dirs1 !! dir));
      print_entry (entry d);;
      list_entries fuel' dir dirs1
  end.
Definition list_directory (fuel : nat) (name : list Z) : kernel W unit :=
  '(dir, dirs) ← opendir name ∅;
  if negb (dir =? 0) then
    dirs1 ← list_entries fuel dir dirs;
    closedir dir dirs1;;
    mret ()
  else printf (chars "Failed to open root directory" ++ [10]) [];; mret ().

(** *** Archives (tools/klbtool.c)

    The locals of [list_klb] are objects of their own: the header at [HDR], the
    copy of the name at [NAME], and the constant it is compared with. *)

Definition S_ARMAG : list Z := chars "!<arch>" ++ [10].
Definition ARFMAG : list Z := chars "`" ++ [10].
Definition MAGIC : Z := 0x1000.
Definition HDR : Z := 0x2000.
Definition NAME : Z := 0x3000.
Definition CONST : Z := 0x4000.
Definition sizeof_hdr : Z := 60.

(** [strncmp] of local bytes with a constant. *)
Definition differs (a : Z) (object constant : list Z) (n : Z) : outcome bool :=
  d ← strncmp a CONST n (mem_of a object ∪ mem_of CONST (constant ++ [0])); Ok (negb (d =? 0)).

(** The name without the slash: the header's 16 bytes and a terminator, cut at a slash. *)
Definition member_name (hdr : list Z) : outcome (list Z) :=
  '(_, m1) ← memcpy NAME HDR 16 (mem_of HDR hdr ∪ mem_of NAME (replicate 17 0));
  m2 ← store (NAME + 16) 0 m1;
  slash ← strchr NAME 47 m2;
  m3 ← (if negb (slash =? 0) then store slash 0 m2 else Ok m2);
  n ← strlen NAME m3;
  read_bytes (Z.to_nat n) NAME m3.

Fixpoint members_loop (fuel : nat) (fd : Z) : kernel W unit :=
  match fuel with
  | O => lift OutOfFuel
  | S fuel' =>
      '(n, hdr) ← read fd HDR sizeof_hdr;
      if negb (n =? sizeof_hdr) then mret () else
      corrupt ← lift (differs (HDR + 58) (drop 58 hdr) ARFMAG 2);
      if corrupt : bool then printf (chars "Error: Corrupt archive header" ++ [10]) [];; mret () else
      '(size, _) ← lift (strtol (HDR + 48) 10 (mem_of HDR hdr));
      name ← lift (member_name hdr);
      printf (chars "  %s (%ld bytes)" ++ [10]) [ArgStr (Some name); ArgWord size];;
      let offset := size + Z.rem size 2 in
      dummy ← malloc (u64 offset);
      read fd dummy (u64 offset);;
      free dummy;;
      members_loop fuel' fd
  end.

Definition list_klb (fuel : nat) (filename : option (list Z)) : kernel W Z :=
  fd ← open filename 0;
  if fd <? 0 then printf (chars "Error: Cannot open %s" ++ [10]) [ArgStr filename];; mret 1 else
  '(n, magic) ← read fd MAGIC 8;
  bad ← (if negb (n =? 8) then mret true else lift (differs MAGIC magic S_ARMAG 8));
  if bad : bool then
    printf (chars "Error: Not a valid .klb archive" ++ [10]) [];; close fd;; mret 1
  else
    printf (chars "Listing archive: %s" ++ [10]) [ArgStr filename];;
    members_loop fuel fd;;
    close fd;;
    mret 0.

(** [argv] are the words of the command line, with a null pointer behind them. *)
Definition klbtool_main (fuel : nat) (argv : list (list Z)) : kernel W Z :=
  if (length argv <? 2)%nat then
    printf (chars "Usage: klbtool [list|create] <file.klb>" ++ [10]) [];; mret 1
  else
    if bool_decide (nth 1 argv [] = chars "list") then
      list_klb fuel (argv !! 2%nat)
    else printf (chars "Unknown command: %s" ++ [10]) [ArgStr (argv !! 1%nat)];; mret 1.
End calls.


(** The name and the size in the header of a member. *)
Example member_fields :
  let hdr := chars "crt0.o/         0           0     0     644     1052      `" ++ [10] in
  member_name hdr = Ok (chars "crt0.o") ∧ differs (HDR + 58) (drop 58 hdr) ARFMAG 2 = Ok false ∧
  strtol (HDR + 48) 10 (mem_of HDR hdr) = Ok (1052, HDR + 52).
Proof. vm_compute. done. Qed.


(** ** What the loop of hello.c prints

    The documented behaviour of the calls it makes: [shown] is the standard output,
    [handles] the entries of the open directories, [listing] the entries of a
    directory that can be opened, [room] whether the break can grow.  A single write to
    the standard output is cut at 256 bytes by the kernel; each text that the loop
    writes, a name of at most 127 characters or a constant, is shorter. *)

Class DirectoryLaws (W : Type) `{!UserCalls W} := {
  shown : W → list Z;
  handles : W → gmap Z (list (list Z));
  listing : list Z → W → option (list (list Z));
  room : Z → W → bool;
  write_law t w : ∃ w', sys_write 1 t w = Ok (Z.of_nat (length t), w') ∧ shown w' = shown w ++ t ∧ handles w' = handles w;
  open_law name es w : listing name w = Some es → ∃ h w', sys_open (Some name) 0 w = Ok (h, w') ∧ 0 ≤ h < 2 ^ 31 ∧
    handles w !! h = None ∧ handles w' = <[h := es]> (handles w) ∧ shown w' = shown w ∧ (∀ n, room n w' = room n w);
  open_fails_law name w : listing name w = None → ∃ r w', sys_open (Some name) 0 w = Ok (r, w') ∧ - 2 ^ 31 ≤ r < 0 ∧
    handles w' = handles w ∧ shown w' = shown w;
  readdir_law h i es w : handles w !! h = Some es → 0 ≤ i < 2 ^ 31 → ∃ w', sys_readdir h i w =
    Ok (match es !! Z.to_nat i with Some e => (1, e) | None => (0, []) end, w') ∧ handles w' = handles w ∧ shown w' = shown w;
  close_law h es w : handles w !! h = Some es → ∃ w', syscall SYS_CLOSE [h] w = Ok (0, w') ∧
    handles w' = delete h (handles w) ∧ shown w' = shown w;
  sbrk_law n w : 0 < n → ∃ a w', syscall SYS_SBRK [n] w = Ok (a, w') ∧ (if room n w then 0 < a else a = -1) ∧
    handles w' = handles w ∧ shown w' = shown w
}.

Section listing.
Context {W : Type} `{!UserCalls W, !DirectoryLaws W}.

(** A run that prints a text and leaves the directories as they were. *)
Definition prints {A} (m : kernel W A) (w : W) (a : A) (t : list Z) (w' : W) : Prop :=
  m w = Ok (a, w') ∧ shown w' = shown w ++ t ∧ handles w' = handles w.

Lemma print_strs_prints texts : ∀ w, ∃ w', prints (print_strs texts) w () (concat texts) w'.
Proof.
  induction texts as [|s texts IH]; intros w; cbn [print_strs].
  { exists w. split; [done|]. by rewrite app_nil_r. }
  destruct (write_law s w) as (w1 & E1 & S1 & H1). destruct (IH w1) as (w2 & E2 & S2 & H2). exists w2. split_and!.
  - unfold write, mbind, kernel_bind. rewrite E1. run. exact E2.
  - by rewrite S2, S1, concat_cons, app_assoc.
  - by rewrite H2.
Qed.

Lemma user_printf_prints gs args out w : pieces_ok gs = true → render_all gs args = Some out →
  ∃ w', prints (printf (gs ≫= unparse) args) w (signed 32 (Z.of_nat (length out))) out w'.
Proof.
  intros Hok Hr.
  destruct (vprintf_loop_ok gs (length (gs ≫= unparse)) args 0 out Hok Hr eq_refl (pieces_length gs Hok)) as (texts & Ev & Et).
  destruct (print_strs_prints texts w) as (w' & E & S1 & H1). exists w'. rewrite Et in S1. split; [|done].
  unfold printf, vprintf. rewrite Ev. unfold lift, mbind, kernel_bind. run. by rewrite E.
Qed.

Definition entry_line (e : list Z) : list Z :=
  chars "  " ++ c_text (take 128 e) ++ chars " [" ++
  (if of_le (sub 132 4 e) =? DT_DIR then chars "DIR" else chars "FILE") ++ (chars "]" ++ [10]).

Definition failure_line : list Z := chars "Failed to open root directory" ++ [10].

Lemma print_entry_prints e w : ∃ n w', prints (print_entry e) w n (entry_line e) w'.
Proof.
  eexists. apply (user_printf_prints [Plain (chars "  "); Directive 115; Plain (chars " ["); Directive 115; Plain (chars "]" ++ [10])]);
    [reflexivity|]. cbn [render_all render Z.eqb Pos.eqb mbind option_bind default from_option id]. unfold entry_line.
  rewrite app_nil_r. by destruct (_ =? DT_DIR).
Qed.

Lemma failure_prints w : ∃ n w', prints (printf failure_line []) w n failure_line w'.
Proof. eexists. exact (user_printf_prints [Plain failure_line] [] failure_line w eq_refl eq_refl). Qed.

Lemma readdir_spec h i es p e dirs w : p ≠ 0 → handles w !! h = Some es → Z.of_nat i + 1 < 2 ^ 31 →
  dirs !! p = Some (mk_DIR h (Z.of_nat i) e) → ∃ w', handles w' = handles w ∧ shown w' = shown w ∧
  readdir p dirs w = Ok (match es !! i with
                         | Some b => (true, <[p := mk_DIR h (Z.of_nat (S i)) b]> dirs)
                         | None => (false, dirs)
                         end, w').
Proof.
  intros Hp Hh Hi Hd. destruct (readdir_law h (Z.of_nat i) es w Hh ltac:(lia)) as (w1 & E1 & H1 & S1).
  rewrite Nat2Z.id in E1. exists w1. split; [done|]. split; [done|].
  unfold readdir. rewrite (proj2 (Z.eqb_neq p 0) Hp), Hd.
  rewrite (kbind _ _ w (mk_DIR h (Z.of_nat i) e) w eq_refl). cbn [fd index]. rewrite (kbind _ _ w _ w1 E1).
  destruct (es !! i); [|done]. rewrite signed_small by lia. by replace (Z.of_nat i + 1) with (Z.of_nat (S i)) by lia.
Qed.

(** From the entry [i] on, the loop prints the rest of the directory. *)
Lemma list_entries_prints h es p : p ≠ 0 → Z.of_nat (length es) + 1 < 2 ^ 31 → ∀ fuel i w e dirs,
  handles w !! h = Some es → (i ≤ length es)%nat → (length es - i < fuel)%nat →
  dirs !! p = Some (mk_DIR h (Z.of_nat i) e) →
  ∃ dirs' w' d, prints (list_entries fuel p dirs) w dirs' (drop i es ≫= entry_line) w' ∧ dirs' !! p = Some d ∧ fd d = h.
Proof.
  intros Hp Hes. induction fuel as [|fuel IH]; intros i w e dirs Hh Hi Hf Hd; [lia|]. cbn [list_entries].
  destruct (readdir_spec h i es p e dirs w Hp Hh ltac:(lia) Hd) as (w1 & H1 & S1 & E1).
  destruct (es !! i) as [b|] eqn:Ei; unfold prints; rewrite (kbind _ _ w _ w1 E1); cbn [negb].
  2:{ exists dirs, w1, (mk_DIR h (Z.of_nat i) e). apply lookup_ge_None in Ei.
    rewrite drop_ge by lia. cbn [mbind list_bind]. by rewrite app_nil_r. }
  rewrite lookup_insert_eq. rewrite (kbind _ _ w1 (mk_DIR h (Z.of_nat (S i)) b) w1 eq_refl). cbn [entry].
  destruct (print_entry_prints b w1) as (n & w2 & E2 & S2 & H2). rewrite (kbind _ _ w1 _ w2 E2).
  apply lookup_lt_Some in Ei as Hlt.
  destruct (IH (S i) w2 b (<[p := mk_DIR h (Z.of_nat (S i)) b]> dirs)) as (dirs' & w3 & d & (E3 & S3 & H3) & Hd3);
    [by rewrite H2, H1|lia|lia|by rewrite lookup_insert_eq|].
  exists dirs', w3, d. split; [|done]. split; [exact E3|].
  by rewrite S3, S2, S1, (drop_S es b i Ei), bind_cons, app_assoc, H3, H2, H1.
Qed.

(** [opendir] gives an object for the directory, or null, with nothing left open. *)
Lemma opendir_spec name w : ∃ p dirs w', opendir name ∅ w = Ok ((p, dirs), w') ∧ shown w' = shown w ∧
  if decide (p = 0) then
    match listing name w with Some es => if room sizeof_DIR w then es ≫= entry_line else failure_line | None => failure_line end
      = failure_line ∧ handles w' = handles w
  else ∃ es h, listing name w = Some es ∧ room sizeof_DIR w = true ∧ dirs !! p = Some (mk_DIR h 0 (replicate 136 0)) ∧
    handles w' !! h = Some es ∧ delete h (handles w') = handles w.
Proof.
  unfold opendir, open, int_answer. destruct (listing name w) as [es|] eqn:El.
  2:{ destruct (open_fails_law name w El) as (r & w1 & E1 & Hr & H1 & S1). exists 0, ∅, w1.
    rewrite (kbind _ _ w (signed 32 r) w1) by (by rewrite (kbind _ _ w r w1 E1)).
    rewrite signed_small, (proj2 (Z.ltb_lt r 0)) by lia. done. }
  destruct (open_law name es w El) as (h & w1 & E1 & Hh & Hnew & H1 & S1 & R1).
  destruct (sbrk_law sizeof_DIR w1 ltac:(done)) as (a & w2 & E2 & Ha & H2 & S2). rewrite R1 in Ha.
  rewrite (kbind _ _ w (signed 32 h) w1) by (by rewrite (kbind _ _ w h w1 E1)).
  rewrite signed_small, (proj2 (Z.ltb_ge h 0)) by lia.
  rewrite (kbind _ _ w1 (if a =? -1 then 0 else a) w2)
    by (unfold malloc, sbrk; change (sizeof_DIR =? 0) with false; cbn iota; rewrite (kbind _ _ w1 a w2 E2); by destruct (a =? -1)).
  destruct (room sizeof_DIR w).
  - exists a, (<[a := mk_DIR h 0 (replicate 136 0)]> ∅), w2.
    rewrite (proj2 (Z.eqb_neq a (-1))), (proj2 (Z.eqb_neq a 0)) by lia. rewrite decide_False by lia.
    split; [done|]. split; [by rewrite S2|]. exists es, h. split_and!; try done.
    + by rewrite lookup_insert_eq.
    + by rewrite H2, H1, lookup_insert_eq.
    + by rewrite H2, H1, delete_insert_id.
  - subst a. destruct (close_law h es w2) as (w3 & E3 & H3 & S3); [by rewrite H2, H1, lookup_insert_eq|].
    exists 0, ∅, w3. cbn [Z.eqb Pos.eqb]. rewrite (kbind _ _ w2 (signed 32 0) w3) by (unfold close, int_answer; by rewrite (kbind _ _ w2 0 w3 E3)).
    split; [done|]. split; [by rewrite S3, S2|]. split; [done|]. by rewrite H3, H2, H1, delete_insert_id.
Qed.

Lemma closedir_spec p d es dirs w : p ≠ 0 → dirs !! p = Some d → handles w !! fd d = Some es →
  ∃ w', closedir p dirs w = Ok ((0, dirs), w') ∧ handles w' = delete (fd d) (handles w) ∧ shown w' = shown w.
Proof.
  intros Hp Hd Hh. destruct (close_law (fd d) es w Hh) as (w1 & E1 & H1). exists w1. split; [|done].
  unfold closedir, close, int_answer, free. rewrite (proj2 (Z.eqb_neq p 0) Hp), Hd.
  rewrite (kbind _ _ w d w eq_refl).
  by rewrite (kbind _ _ w (signed 32 0) w1) by (by rewrite (kbind _ _ w 0 w1 E1)).
Qed.

(** C37. Listing a directory, as hello.c does: when it can be opened and the break
    can grow, one line for each of its entries, in order, with the name up to its
    terminator and whether it is a directory; otherwise the message that it cannot
    be opened.  Its descriptor is closed again in every case. *)
Theorem directory_listed name fuel w :
  (∀ es, listing name w = Some es → (length es < fuel)%nat ∧ Z.of_nat (length es) + 1 < 2 ^ 31) →
  ∃ w', list_directory fuel name w = Ok (tt, w') ∧ handles w' = handles w ∧
    shown w' = shown w ++ match listing name w with
                         | Some es => if room sizeof_DIR w then es ≫= entry_line else failure_line
                         | None => failure_line
                         end.
Proof.
  intros Hes. unfold list_directory. destruct (opendir_spec name w) as (p & dirs & w1 & E1 & S1 & Hp).
  rewrite (kbind _ _ w _ w1 E1). destruct (decide (p = 0)) as [->|Hp0].
  { destruct Hp as [-> H1]. destruct (failure_prints w1) as (n & w2 & E2 & S2 & H2). exists w2.
    change (chars _ ++ [10]) with failure_line. cbn [Z.eqb negb].
    rewrite (kbind _ _ w1 _ w2 E2). by rewrite H2, S2, S1. }
  destruct Hp as (es & h & El & -> & Hd & Hh & Hclosed). rewrite El in *. destruct (Hes es eq_refl) as [Hf Hlen].
  rewrite (proj2 (Z.eqb_neq p 0) Hp0). cbn [negb].
  destruct (list_entries_prints h es p Hp0 Hlen fuel 0 w1 _ dirs Hh ltac:(lia) ltac:(lia) Hd)
    as (dirs2 & w2 & d & (E2 & S2 & H2) & Hd2 & Hfd). rewrite (kbind _ _ w1 _ w2 E2).
  destruct (closedir_spec p d es dirs2 w2 Hp0 Hd2) as (w3 & E3 & H3 & S3); [by rewrite Hfd, H2|].
  rewrite (kbind _ _ w2 _ w3 E3). exists w3. split; [done|]. by rewrite H3, Hfd, H2, Hclosed, S3, S2, S1, drop_0.
Qed.
End listing.

(** A small world: one directory, which opens once at a time as descriptor 3. *)
Module Small.

Record small : Set := mk_small { out : list Z; is_open : bool; brk : Z }.

Definition dirent_of (name : list Z) (type : Z) : list Z :=
  name ++ replicate (128 - length name) 0 ++ le 4 0 ++ le 4 type.
Definition root_entries : list (list Z) := [dirent_of (chars "bin") 2; dirent_of (chars "notes.txt") 1].

#[local] Instance small_calls : UserCalls small := {|
  syscall n args w :=
    if n =? SYS_CLOSE then Ok (if bool_decide (args = [3]) && is_open w then (0, mk_small (out w) false (brk w)) else (-1, w))
    else if n =? SYS_SBRK then
      Ok (if brk w + nth 0 args 0 <=? 4096 then (0x500000 + Z.max 0 (brk w), mk_small (out w) (is_open w) (Z.max 0 (brk w + nth 0 args 0)))
          else (-1, w))
    else Ok (-1, w);
  sys_write fd t w := Ok (Z.of_nat (length t), mk_small (out w ++ t) (is_open w) (brk w));
  sys_read fd buf n w := Ok ((0, []), w);
  sys_readdir h i w :=
    Ok ((if is_open w && (h =? 3) then match root_entries !! Z.to_nat i with Some e => (1, e) | None => (0, []) end else (-1, [])), w);
  sys_open path flags w :=
    Ok (if bool_decide (path = Some (chars "/")) && negb (is_open w) then (3, mk_small (out w) true (brk w)) else (-1, w))
|}.

#[local] Program Instance small_laws : DirectoryLaws small := {|
  shown := out;
  handles w := if is_open w then {[3 := root_entries]} else ∅;
  listing name w := if bool_decide (name = chars "/") && negb (is_open w) then Some root_entries else None;
  room n w := brk w + n <=? 4096
|}.
Next Obligation. intros t w. eexists. split; [reflexivity|]. done. Qed.
Next Obligation.
  intros name es w. cbn [sys_open small_calls]. destruct (bool_decide (name = _)) eqn:En; [|done].
  apply bool_decide_eq_true in En as ->. rewrite bool_decide_true by done. destruct (is_open w); [done|]. intros [= <-].
  eexists 3, _. split; [reflexivity|]. split_and!; done.
Qed.
Next Obligation.
  intros name w. cbn [sys_open small_calls]. destruct (bool_decide (name = _)) eqn:En.
  - destruct (is_open w) eqn:Ew; [|done]. intros _. eexists (-1), w. rewrite andb_false_r. split_and!; try done. by rewrite Ew.
  - intros _. rewrite bool_decide_false by (intros [= ->]; by rewrite bool_decide_true in En). eexists (-1), w. done.
Qed.
Next Obligation.
  intros h i es w Hh Hi. cbn beta in Hh. exists w. cbn [sys_readdir small_calls]. destruct (is_open w); [|by apply lookup_empty_Some in Hh].
  apply lookup_singleton_Some in Hh as [<- <-]. done.
Qed.
Next Obligation.
  intros h es w Hh. cbn beta in *. destruct (is_open w) eqn:Ew; [|by apply lookup_empty_Some in Hh].
  apply lookup_singleton_Some in Hh as [<- <-]. eexists. split; [cbn; rewrite Ew; reflexivity|]. by rewrite delete_singleton_eq.
Qed.
Next Obligation.
  intros n w Hn. cbn [syscall small_calls SYS_SBRK SYS_CLOSE Z.eqb Pos.eqb nth]. destruct (brk w + n <=? 4096); eexists _, _; split; try reflexivity; split_and!; try done. lia.
Qed.

Lemma directory_listed_witness :
  ∃ w', list_directory 5 (chars "/") (mk_small [] false 0) = Ok (tt, w') ∧
    shown w' = chars "  bin [DIR]" ++ [10] ++ chars "  notes.txt [FILE]" ++ [10].
Proof.
  destruct (directory_listed (chars "/") 5 (mk_small [] false 0)) as (w' & E & _ & S1).
  - intros es [= <-]. split; [cbn; lia|done].
  - exists w'. split; [exact E|]. rewrite S1. vm_compute. reflexivity.
Defined.
End Small.
End UserLib.
