(* ===== verification/Vfs.v ===== *)
(** * The virtual file system (fs/vfs.cpp)

    The VFS walks paths over nodes whose operations are virtual.  The class
    [VirtualNode] has one operation per virtual method, on a state that the
    implementation chooses; the functions of [vfs.cpp] are defined over it.

    The class [FileTree] is what the path walk relies on: the nodes denote the
    objects of a tree, [finddir] finds the named child, opening and closing
    change neither.  Against it, [vfs_open] is proved to resolve a path as the
    tree says; [vfs_create], [vfs_mkdir] and [vfs_unlink] are proved to call the
    method of the parent directory with the last component, for every path that
    fits the local buffers. *)

From S2P Require Import Prelude LibcString.

Module Vfs.

(** A [vfs_dirent], and the flags of files as the nodes keep them. *)
Record vfs_dirent : Set := mk_dirent { de_name : list Z; de_inode : Z; de_type : Z }.

(** Strings are lists of bytes, a missing node is 0. *)
Class VirtualNode (W : Type) := {
  vfs_root : W → Z;
  cwd_node : W → Z;
  parent : Z → W → outcome Z;
  node_open : Z → W → outcome W;
  node_close : Z → W → outcome W;
  node_finddir : Z → list Z → W → outcome (Z * W);
  node_read : Z → Z → Z → W → outcome (list Z * W);
  node_write : Z → Z → list Z → W → outcome (Z * W);
  node_readdir : Z → Z → W → outcome (option vfs_dirent * W);
  node_create : Z → list Z → Z → W → outcome (Z * W);
  node_mkdir : Z → list Z → Z → W → outcome (Z * W);
  node_unlink : Z → list Z → W → outcome (bool * W)
}.

Definition SLASH : Z := 47.
Definition DOT : list Z := [46].
Definition DOTDOT : list Z := [46; 46].

Fixpoint skip_slashes (path : list Z) : list Z :=
  match path with c :: p => if c =? SLASH then skip_slashes p else path | [] => [] end.

(** Up to [n] characters of a component, and the path after them. *)
Fixpoint take_component (n : nat) (p : list Z) : list Z * list Z :=
  match n, p with
  | S n', c :: p' =>
      if c =? SLASH then ([], p) else let '(comp, rest) := take_component n' p' in (c :: comp, rest)
  | _, _ => ([], p)
  end.

Section vfs.
Context {W : Type} `{!VirtualNode W}.

(** The loop of [vfs_open]. *)
Fixpoint walk (fuel : nat) (current : Z) (p : list Z) (w : W) : outcome (Z * W) :=
  match p with
  | [] => Ok (current, w)
  | _ =>
      match fuel with
      | O => OutOfFuel
      | S fuel' =>
          let '(component, p1) := take_component 127 p in
          if bool_decide (component = DOT) then walk fuel' current (skip_slashes p1) w else
          '(next, w1) ←
            (if bool_decide (component = DOTDOT) then
               next ← (if current =? vfs_root w then Ok (vfs_root w) else parent current w);
               if next =? 0 then Ok (next, w) else w' ← node_open next w; Ok (next, w')
             else node_finddir current component w);
          w2 ← node_close current w1;
          if next =? 0 then Ok (0, w2) else walk fuel' next (skip_slashes p1) w2
      end
  end.

Definition vfs_open (path : option (list Z)) (w : W) : outcome (Z * W) :=
  match path with
  | None => Ok (0, w)
  | Some path =>
      if vfs_root w =? 0 then Ok (0, w) else
      let absolute := match path with c :: _ => c =? SLASH | [] => false end in
      let current :=
        if absolute then vfs_root w
        else if cwd_node w =? 0 then vfs_root w else cwd_node w in
      let path := if absolute then skip_slashes path else path in
      w1 ← node_open current w;
      walk (length path) current path w1
  end.

Definition vfs_read (node offset size : Z) (w : W) : outcome (list Z * W) :=
  if node =? 0 then Ok ([], w) else node_read node offset size w.
Definition vfs_write (node offset : Z) (buffer : list Z) (w : W) : outcome (Z * W) :=
  if node =? 0 then Ok (0, w) else node_write node offset buffer w.
Definition vfs_readdir (node index : Z) (w : W) : outcome (option vfs_dirent * W) :=
  if node =? 0 then Ok (None, w) else node_readdir node index w.
Definition vfs_close (node : Z) (w : W) : outcome W :=
  if node =? 0 then Ok w else node_close node w.

(** [strcpy] to a local array: writing past its end is undefined. *)
Definition copy_local (n : nat) (s : list Z) : outcome (list Z) :=
  if (length s <? n)%nat then Ok s else Fault.

(** The position of the last slash. *)
Fixpoint last_slash (p : list Z) : option nat :=
  match p with
  | [] => None
  | c :: p' =>
      match last_slash p' with
      | Some i => Some (S i)
      | None => if c =? SLASH then Some O else None
      end
  end.

(** The code that [vfs_unlink], [vfs_create] and [vfs_mkdir] share: the path of the
    parent in [parent_path[256]] and the last component in [filename[128]]. *)
Definition split_path (path : list Z) : outcome (list Z * list Z) :=
  match last_slash path with
  | None => f ← copy_local 128 path; Ok (DOT, f)
  | Some O => f ← copy_local 128 (drop 1 path); Ok ([SLASH], f)
  | Some i =>
      p ← copy_local 256 (take i path);
      f ← copy_local 128 (drop (S i) path);
      Ok (p, f)
  end.

(** The part of those functions after the checks. *)
Definition on_parent {A} (none : A) (call : Z → list Z → W → outcome (A * W)) (path : option (list Z))
  (w : W) : outcome (A * W) :=
  match path with
  | None | Some [] => Ok (none, w)
  | Some path =>
      if vfs_root w =? 0 then Ok (none, w) else
      '(parent_path, filename) ← split_path path;
      '(parent_node, w1) ← vfs_open (Some parent_path) w;
      if parent_node =? 0 then Ok (none, w1) else
      '(r, w2) ← call parent_node filename w1;
      w3 ← vfs_close parent_node w2;
      Ok (r, w3)
  end.

Definition vfs_unlink (path : option (list Z)) (w : W) : outcome (bool * W) :=
  on_parent false node_unlink path w.
Definition vfs_create (path : option (list Z)) (flags : Z) (w : W) : outcome (Z * W) :=
  on_parent 0 (λ p f w, node_create p f flags w) path w.
Definition vfs_mkdir (path : option (list Z)) (mode : Z) (w : W) : outcome (Z * W) :=
  on_parent (-1) (λ p f w, node_mkdir p f mode w) path w.
End vfs.

(** ** Paths *)

(** The components of a path: what is between slashes. *)
Fixpoint components (p : list Z) : list (list Z) :=
  match p with
  | [] => []
  | c :: p' =>
      if c =? SLASH then components p'
      else match p' with
           | [] => [[c]]
           | d :: _ =>
               if d =? SLASH then [c] :: components p'
               else match components p' with
                    | comp :: cs => (c :: comp) :: cs
                    | [] => [[c]]
                    end
           end
  end.

Definition name_ok (nm : list Z) : Prop := nm ≠ [] ∧ (SLASH ∉ nm) ∧ (length nm ≤ 127)%nat.

Lemma components_skip p : components (skip_slashes p) = components p.
Proof.
  induction p as [|c p IH]; [done|]. cbn [skip_slashes components].
  destruct (c =? SLASH) eqn:E; [done|]. cbn [components]. by rewrite E.
Qed.

Lemma skip_slashes_length p : (length (skip_slashes p) ≤ length p)%nat.
Proof. induction p as [|c p IH]; cbn; [done|]. destruct (c =? SLASH); cbn; lia. Qed.

Lemma skip_slashes_head p c p' : skip_slashes p = c :: p' → c ≠ SLASH.
Proof.
  induction p as [|d p IH]; cbn; [done|]. destruct (Z.eqb_spec d SLASH); [done|]. by intros [= -> ->].
Qed.

(** A path that does not begin with a slash begins with its first component. *)
Lemma components_head c p : c ≠ SLASH →
  ∃ comp cs, components (c :: p) = comp :: cs ∧ comp ≠ [] ∧ (SLASH ∉ comp) ∧
    ∃ rest, c :: p = comp ++ rest ∧ components rest = cs ∧
      match rest with [] => True | d :: _ => d = SLASH end.
Proof.
  revert c. induction p as [|d p IH]; intros c Hc; cbn [components]; rewrite (proj2 (Z.eqb_neq _ _) Hc).
  - exists [c], []. split_and!; [done|done|set_solver|]. by exists [].
  - destruct (Z.eqb_spec d SLASH) as [->|Hd].
    + exists [c], (components (SLASH :: p)). split_and!; [done|done|set_solver|]. by exists (SLASH :: p).
    + destruct (IH d Hd) as (comp & cs & E & Hne & Hs & rest & Er & Ec & Hr).
      cbn [components] in E. rewrite (proj2 (Z.eqb_neq _ _) Hd) in E. rewrite E.
      exists (c :: comp), cs. split_and!; [done|done|set_solver|]. exists rest. by rewrite Er.
Qed.

Lemma take_component_spec comp rest n :
  SLASH ∉ comp → (length comp ≤ n)%nat → match rest with [] => True | d :: _ => d = SLASH end →
  take_component n (comp ++ rest) = (comp, rest).
Proof.
  revert n. induction comp as [|c comp IH]; intros n Hs Hn Hr; cbn [app take_component].
  - destruct rest as [|d rest]; [by destruct n|]. subst d. destruct n; [done|]. cbn. done.
  - destruct n as [|n]; [cbn in Hn; lia|]. apply not_elem_of_cons in Hs as [Hc Hs].
    cbn [take_component]. rewrite (proj2 (Z.eqb_neq c SLASH)) by congruence. rewrite IH; [done|done|cbn in Hn; lia|done].
Qed.

(** ** The tree behind the nodes *)

(** [w'] is [w] after something that concerns reference counts only. *)
Record keeps_tree {W O : Type} `{!VirtualNode W} (tree_ok : W → Prop) (den : W → Z → O → Prop)
  (child : W → O → list Z → option O) (up : W → O → option O) (w w' : W) : Prop := {
  kt_ok : tree_ok w';
  kt_root : vfs_root w' = vfs_root w;
  kt_cwd : cwd_node w' = cwd_node w;
  kt_den : ∀ p o, den w p o → den w' p o;
  kt_child : ∀ o nm, child w' o nm = child w o nm;
  kt_up : ∀ o, up w' o = up w o
}.

(** The laws of a tree of nodes that outlive their closing, as those of the RAM disk under the
    root do ([static_file_tree] in the file VfsNode).  A node of EXT4, or a
    directory of FAT32, that [finddir] made is deleted with its last reference, so these
    trees are not instances. *)
Class FileTree (W : Type) `{!VirtualNode W} := {
  obj : Type;
  tree_ok : W → Prop;
  den : W → Z → obj → Prop;
  child : W → obj → list Z → option obj;
  up : W → obj → option obj;
  keeps := keeps_tree tree_ok den child up;
  den_not_null w p o : tree_ok w → den w p o → p ≠ 0;
  den_root_up w o : tree_ok w → den w (vfs_root w) o → up w o = Some o;
  open_law w p o : tree_ok w → den w p o → ∃ w', node_open p w = Ok w' ∧ keeps w w';
  close_law w p o : tree_ok w → den w p o → ∃ w', node_close p w = Ok w' ∧ keeps w w';
  find_law w p o nm : tree_ok w → den w p o → name_ok nm →
    ∃ q w', node_finddir p nm w = Ok (q, w') ∧ keeps w w' ∧
      match child w o nm with Some o' => den w' q o' | None => q = 0 end;
  parent_law w p o : tree_ok w → den w p o → p ≠ vfs_root w →
    ∃ q, parent p w = Ok q ∧ match up w o with Some o' => den w q o' | None => q = 0 end
}.

Section tree.
Context {W : Type} `{!VirtualNode W} `{!FileTree W}.
Implicit Types w : W.

Lemma keeps_refl w : tree_ok w → keeps w w.
Proof. by constructor. Qed.
Lemma keeps_trans w1 w2 w3 : keeps w1 w2 → keeps w2 w3 → keeps w1 w3.
Proof.
  intros [A1 A2 A3 A4 A5 A6] [B1 B2 B3 B4 B5 B6]. constructor.
  - done.
  - by rewrite B2.
  - by rewrite B3.
  - auto.
  - intros o nm. by rewrite B5.
  - intros o. by rewrite B6.
Qed.

(** The meaning of a list of components. *)
Fixpoint resolve w (o : obj) (cs : list (list Z)) : option obj :=
  match cs with
  | [] => Some o
  | c :: cs' =>
      if bool_decide (c = DOT) then resolve w o cs'
      else o' ← (if bool_decide (c = DOTDOT) then up w o else child w o c); resolve w o' cs'
  end.

Lemma resolve_keeps w w' cs : keeps w w' → ∀ o, resolve w' o cs = resolve w o cs.
Proof.
  intros [_ _ _ _ Hc Hu]. induction cs as [|c cs IH]; intros o; cbn [resolve]; [done|].
  destruct (bool_decide (c = DOT)); [apply IH|].
  rewrite Hu, Hc. by destruct (if bool_decide (c = DOTDOT) then up w o else child w o c); cbn.
Qed.

(** One component other than a dot. *)
Lemma step_spec w current o c :
  tree_ok w → den w current o → name_ok c → c ≠ DOT →
  ∃ next w1, (if bool_decide (c = DOTDOT) then
       next ← (if current =? vfs_root w then Ok (vfs_root w) else parent current w);
       if next =? 0 then Ok (next, w) else w' ← node_open next w; Ok (next, w')
     else node_finddir current c w) = Ok (next, w1) ∧ keeps w w1 ∧
    match (if bool_decide (c = DOTDOT) then up w o else child w o c) with
    | Some o' => den w1 next o'
    | None => next = 0
    end.
Proof.
  intros Hok Hd Hc Hdot. destruct (bool_decide (c = DOTDOT)); [|by apply find_law].
  assert (Hpar : ∃ q, (if current =? vfs_root w then Ok (vfs_root w) else parent current w) = Ok q ∧
    match up w o with Some o' => den w q o' | None => q = 0 end).
  { destruct (Z.eqb_spec current (vfs_root w)) as [->|Hne]; [|by apply parent_law].
    exists (vfs_root w). split; [done|]. by rewrite (den_root_up w o). }
  destruct Hpar as (q & -> & Hq). run. destruct (up w o) as [o'|].
  - rewrite (proj2 (Z.eqb_neq q 0)) by by eapply den_not_null.
    destruct (open_law w q o' Hok Hq) as (w1 & -> & Hk). run.
    exists q, w1. split_and!; [done|done|]. by apply (kt_den _ _ _ _ _ _ Hk).
  - subst q. cbn [Z.eqb]. exists 0, w. split_and!; [done|by apply keeps_refl|done].
Qed.

Lemma walk_spec fuel : ∀ w current p o,
  tree_ok w → den w current o → (length p ≤ fuel)%nat →
  match p with c :: _ => c ≠ SLASH | [] => True end →
  Forall (λ c, (length c ≤ 127)%nat) (components p) →
  ∃ q w', walk fuel current p w = Ok (q, w') ∧ keeps w w' ∧
    match resolve w o (components p) with Some o' => den w' q o' | None => q = 0 end.
Proof.
  induction fuel as [|fuel IH]; intros w current p o Hok Hd Hf Hp Hs.
  { destruct p; [|cbn in Hf; lia]. exists current, w. cbn. by split_and!; [|apply keeps_refl|]. }
  destruct p as [|c p]; [exists current, w; cbn; by split_and!; [|apply keeps_refl|]|].
  destruct (components_head c p Hp) as (comp & cs & E & Hne & Hsl & rest & Er & Ec & Hr).
  rewrite E in Hs |- *. apply Forall_cons in Hs as [Hlen Hs]. cbn [walk].
  rewrite Er, (take_component_spec comp rest 127 Hsl Hlen Hr).
  assert (Hrest : (length (skip_slashes rest) ≤ fuel)%nat).
  { pose proof (skip_slashes_length rest). apply (f_equal length) in Er. rewrite length_app in Er.
    destruct comp; [done|]. cbn [length] in *. lia. }
  assert (Hhead : match skip_slashes rest with d :: _ => d ≠ SLASH | [] => True end).
  { destruct (skip_slashes rest) eqn:Es; [done|]. by eapply skip_slashes_head. }
  rewrite <- Ec, <- components_skip in Hs |- *. cbn [resolve].
  destruct (bool_decide_reflect (comp = DOT)) as [->|Hdot]; [by apply IH|].
  destruct (step_spec w current o comp Hok Hd) as (next & w1 & -> & Hk1 & Hn); [by split_and!|done|]. run.
  destruct (close_law w1 current o) as (w2 & -> & Hk2); [apply Hk1|by apply (kt_den _ _ _ _ _ _ Hk1)|]. run.
  pose proof (keeps_trans _ _ _ Hk1 Hk2) as Hk.
  destruct (if bool_decide (comp = DOTDOT) then up w o else child w o comp) as [o'|]; cbn.
  - rewrite (proj2 (Z.eqb_neq next 0)) by (eapply den_not_null; [apply Hk1|done]).
    apply (kt_den _ _ _ _ _ _ Hk2) in Hn.
    destruct (IH w2 next (skip_slashes rest) o' (kt_ok _ _ _ _ _ _ Hk) Hn Hrest Hhead Hs)
      as (q & w' & Ew & Hk' & Hq).
    exists q, w'. split; [done|]. split; [by eapply keeps_trans|]. by rewrite (resolve_keeps _ _ _ Hk) in Hq.
  - subst next. cbn [Z.eqb]. exists 0, w2. done.
Qed.

(** Where the walk of a path starts. *)
Definition start_node w (path : list Z) : Z :=
  if (match path with c :: _ => c =? SLASH | [] => false end) then vfs_root w
  else if cwd_node w =? 0 then vfs_root w else cwd_node w.

Lemma open_spec w path o :
  tree_ok w → vfs_root w ≠ 0 → den w (start_node w path) o →
  Forall (λ c, (length c ≤ 127)%nat) (components path) →
  ∃ q w', vfs_open (Some path) w = Ok (q, w') ∧ keeps w w' ∧
    match resolve w o (components path) with Some o' => den w' q o' | None => q = 0 end.
Proof.
  intros Hok Hr Hd Hs. unfold vfs_open. rewrite (proj2 (Z.eqb_neq _ _) Hr).
  unfold start_node in Hd. set (ab := match path with [] => false | _ :: _ => _ end) in *.
  set (start := if ab then _ else _) in *.
  destruct (open_law w start o Hok Hd) as (w1 & -> & Hk1). run.
  set (p := if ab then skip_slashes path else path).
  assert (Hc : components p = components path) by (unfold p; destruct ab; [apply components_skip|done]).
  assert (Hp : match p with c :: _ => c ≠ SLASH | [] => True end).
  { unfold p, ab. destruct path as [|c path]; [done|]. destruct (Z.eqb_spec c SLASH); [|done].
    destruct (skip_slashes (c :: path)) eqn:Es; [done|]. by eapply skip_slashes_head. }
  destruct (walk_spec (length p) w1 start p o) as (q & w' & E & Hk & Hq).
  - apply Hk1.
  - by apply (kt_den _ _ _ _ _ _ Hk1).
  - done.
  - done.
  - by rewrite Hc.
  - exists q, w'. split; [done|]. split; [by eapply keeps_trans|].
    rewrite Hc, (resolve_keeps _ _ _ Hk1) in Hq. done.
Qed.

(** *** The operations on the parent directory *)

Lemma last_slash_none p : SLASH ∉ p → last_slash p = None.
Proof.
  induction p as [|c p IH]; [done|]. intros [Hc Hp]%not_elem_of_cons. cbn [last_slash].
  by rewrite IH, (proj2 (Z.eqb_neq c SLASH)) by congruence.
Qed.

Lemma last_slash_app dir nm : SLASH ∉ nm → last_slash (dir ++ SLASH :: nm) = Some (length dir).
Proof.
  intros Hn. induction dir as [|c dir IH]; cbn [app last_slash length].
  - by rewrite last_slash_none.
  - by rewrite IH.
Qed.

Definition parent_path (dir : list Z) : list Z := match dir with [] => [SLASH] | _ => dir end.

Lemma copy_local_ok n s : (length s < n)%nat → copy_local n s = Ok s.
Proof. intros H. unfold copy_local. by rewrite (proj2 (Nat.ltb_lt _ _)). Qed.

Lemma split_path_spec dir nm :
  SLASH ∉ nm → (length nm < 128)%nat → (length dir < 256)%nat →
  split_path (dir ++ SLASH :: nm) = Ok (parent_path dir, nm).
Proof.
  intros Hs Hn Hd. unfold split_path. rewrite last_slash_app by done. destruct dir as [|c dir].
  - cbn [length app drop]. by rewrite copy_local_ok.
  - cbn [length]. change (S (length dir)) with (length (c :: dir)).
    rewrite take_app_length, (copy_local_ok 256 (c :: dir)) by exact Hd. run.
    replace (S (length (c :: dir))) with (length (c :: dir) + 1)%nat by lia.
    rewrite <- drop_drop, drop_app_length. cbn [drop]. by rewrite copy_local_ok.
Qed.

(** What an operation on a path does: nothing when the parent directory is not
    there, else what the parent's method does with the last component. *)
Lemma on_parent_spec dir nm w o :
  tree_ok w → vfs_root w ≠ 0 → den w (start_node w (parent_path dir)) o →
  Forall (λ c, (length c ≤ 127)%nat) (components dir) →
  SLASH ∉ nm → (length nm < 128)%nat → (length dir < 256)%nat →
  ∃ q w1, keeps w w1 ∧
    match resolve w o (components dir) with
    | None => ∀ A (none : A) call,
        on_parent none call (Some (dir ++ SLASH :: nm)) w = Ok (none, w1)
    | Some d => den w1 q d ∧ ∀ A (none : A) call,
        on_parent none call (Some (dir ++ SLASH :: nm)) w =
          ('(r, w2) ← call q nm w1; w3 ← node_close q w2; Ok (r, w3))
    end.
Proof.
  intros Hok Hr Hd Hc Hs Hn Hl.
  assert (Ec : components (parent_path dir) = components dir) by by destruct dir.
  destruct (open_spec w (parent_path dir) o Hok Hr Hd) as (q & w1 & E & Hk & Hq); [by rewrite Ec|].
  rewrite Ec in Hq. exists q, w1. split; [done|].
  assert (Eo : ∀ A (none : A) call, on_parent none call (Some (dir ++ SLASH :: nm)) w =
    (if q =? 0 then Ok (none, w1) else '(r, w2) ← call q nm w1; w3 ← vfs_close q w2; Ok (r, w3))).
  { intros A none call. unfold on_parent. destruct (dir ++ SLASH :: nm) as [|c p] eqn:Ep; [by destruct dir|].
    rewrite (proj2 (Z.eqb_neq _ _) Hr), <- Ep, split_path_spec by done. run. rewrite E. by run. }
  destruct (resolve w o (components dir)) as [d|].
  - split; [done|]. intros A none call. rewrite Eo, (proj2 (Z.eqb_neq q 0)) by (eapply den_not_null; [apply Hk|done]).
    unfold vfs_close. by rewrite (proj2 (Z.eqb_neq q 0)) by (eapply den_not_null; [apply Hk|done]).
  - subst q. intros A none call. by rewrite Eo.
Qed.

(** ** Properties *)

(** C11. [vfs_open] resolves paths: from the root, or the working directory for a path
    without a leading slash, it follows the components as the tree says, dots
    and repeated slashes included, and answers the node of the object it
    reaches or null when a component is missing; the tree is unchanged. *)
Theorem vfs_open_resolves w path o :
  tree_ok w → vfs_root w ≠ 0 → den w (start_node w path) o →
  Forall (λ c, (length c ≤ 127)%nat) (components path) →
  ∃ q w', vfs_open (Some path) w = Ok (q, w') ∧ keeps w w' ∧
    match resolve w o (components path) with Some o' => den w' q o' | None => q = 0 end.
Proof. apply open_spec. Qed.

(** [vfs_create], [vfs_mkdir] and [vfs_unlink] of a path with a directory part find
    the directory as [vfs_open] does and call its method with the last
    component, closing it afterwards, and do nothing but answer the failure
    when it is not there; a name of 128 characters or more without a slash
    overflows a local array. *)
Theorem vfs_operations_on_parent w dir nm flags o :
  tree_ok w → vfs_root w ≠ 0 → den w (start_node w (parent_path dir)) o →
  Forall (λ c, (length c ≤ 127)%nat) (components dir) →
  SLASH ∉ nm → (length dir < 256)%nat →
  let path := Some (dir ++ SLASH :: nm) in
  ((length nm < 128)%nat →
   ∃ q w1, keeps w w1 ∧
    match resolve w o (components dir) with
    | None => vfs_create path flags w = Ok (0, w1) ∧ vfs_mkdir path flags w = Ok (-1, w1) ∧
        vfs_unlink path w = Ok (false, w1)
    | Some d => den w1 q d ∧
        vfs_create path flags w =
          ('(r, w2) ← node_create q nm flags w1; w3 ← node_close q w2; Ok (r, w3)) ∧
        vfs_mkdir path flags w =
          ('(r, w2) ← node_mkdir q nm flags w1; w3 ← node_close q w2; Ok (r, w3)) ∧
        vfs_unlink path w =
          ('(r, w2) ← node_unlink q nm w1; w3 ← node_close q w2; Ok (r, w3))
    end) ∧
  ((128 ≤ length nm)%nat → vfs_create (Some nm) flags w = Fault ∧
     vfs_mkdir (Some nm) flags w = Fault ∧ vfs_unlink (Some nm) w = Fault).
Proof.
  intros Hok Hr Hd Hc Hs Hl path. split.
  - intros Hn. destruct (on_parent_spec dir nm w o Hok Hr Hd Hc Hs Hn Hl) as (q & w1 & Hk & H).
    exists q, w1. split; [done|]. unfold vfs_create, vfs_mkdir, vfs_unlink, path.
    destruct (resolve w o (components dir)) as [d|]; [destruct H as [Hq H]; split; [done|]|];
      split_and!; by rewrite H.
  - intros Hn. unfold vfs_create, vfs_mkdir, vfs_unlink, on_parent.
    destruct nm as [|c nm]; [cbn in Hn; lia|]. rewrite (proj2 (Z.eqb_neq _ _) Hr).
    unfold split_path. rewrite last_slash_none by done. unfold copy_local.
    rewrite (proj2 (Nat.ltb_ge _ _) Hn). by run.
Qed.
End tree.
End Vfs.
