(* ===== verification/Ramfs.v ===== *)
(** * The initial RAM disk (include/fs/ramfs.h, ramfs_vfs.h, fs/ramfs_vfs.cpp, scripts/pack_keonfs.py)

    An image is a superblock, a chain of file headers and the contents.  The
    constructor of the mount node walks the chain in memory, panics on a bad
    magic number or a file outside the image, and makes a file node per header.

    [pack] is the layout that the packing script writes.  Mounting a packed
    image gives back the files, and reading them their contents. *)

From S2P Require Import Prelude LibcString.

Module Ramfs.
Import LibcString.

Definition KEONFS_MAGIC : Z := 0x4B454F4E.
Definition sizeof_KeonFS_FileHeader : Z := 84.
Definition sizeof_KeonFS_Info : Z := 32.

(** A 32-bit field of a packed structure. *)
Definition load32 (a : Z) (m : mem) : outcome Z :=
  b0 ← load m a; b1 ← load m (a + 1); b2 ← load m (a + 2); b3 ← load m (a + 3);
  Ok (b0 + 2 ^ 8 * b1 + 2 ^ 16 * b2 + 2 ^ 24 * b3).

Record KeonFS_FileHeader : Set := mk_header {
  h_name_addr : Z; h_size : Z; h_offset : Z; h_next_header : Z
}.
Definition load_header (hdr : Z) (m : mem) : outcome KeonFS_FileHeader :=
  sz ← load32 (hdr + 68) m; off ← load32 (hdr + 72) m; next ← load32 (hdr + 76) m;
  Ok (mk_header (hdr + 4) sz off next).

Record KeonFS_Info : Set := mk_info { i_magic : Z; i_total_files : Z; i_fs_size : Z }.
Definition load_info (addr : Z) (m : mem) : outcome KeonFS_Info :=
  magic ← load32 addr m; total ← load32 (addr + 4) m; sz ← load32 (addr + 12) m;
  Ok (mk_info magic total sz).

Record KeonFS_File : Set := mk_file { f_name : list Z; f_size : Z; f_data_ptr : Z }.

(** [strncpy(name, n, 127)]: the bytes before the first null, at most [n] of them. *)
Fixpoint load_name (n : nat) (a : Z) (m : mem) : outcome (list Z) :=
  match n with
  | O => Ok []
  | S n' => b ← load m a; if b =? 0 then Ok [] else nm ← load_name n' (a + 1) m; Ok (b :: nm)
  end.

Definition new_file (name_addr sz ptr : Z) (m : mem) : outcome KeonFS_File :=
  nm ← load_name 127 name_addr m; Ok (mk_file nm sz ptr).

Definition add_child (child : KeonFS_File) (children : list KeonFS_File) : outcome (list KeonFS_File) :=
  if (128 <=? length children)%nat then Panic K_ERR_GENERAL_PROTECTION else Ok (children ++ [child]).

(** The loop of the constructor over the [n] headers left. *)
Fixpoint mount_loop (n : nat) (base fs_size hdr : Z) (children : list KeonFS_File) (m : mem)
  : outcome (list KeonFS_File) :=
  match n with
  | O => Ok children
  | S n' =>
      h ← load_header hdr m;
      if fs_size <? u32 (h_offset h + h_size h) then Panic K_ERR_GENERAL_PROTECTION else
      child ← new_file (h_name_addr h) (h_size h) (u64 (base + h_offset h)) m;
      children' ← add_child child children;
      if h_next_header h =? 0 then Ok children'
      else mount_loop n' base fs_size (u64 (base + h_next_header h)) children' m
  end.

(** [KeonFS_MountNode]: the children, and the size of the file system. *)
Definition KeonFS_MountNode (addr : Z) (m : mem) : outcome (list KeonFS_File * Z) :=
  info ← load_info addr m;
  if negb (i_magic info =? KEONFS_MAGIC) then Panic K_ERR_RAMFS_MAGIC_FAILED else
  children ← mount_loop (Z.to_nat (i_total_files info)) addr (i_fs_size info)
               (u64 (addr + sizeof_KeonFS_Info)) [] m;
  Ok (children, i_fs_size info).

Fixpoint load_bytes (n : nat) (a : Z) (m : mem) : outcome (list Z) :=
  match n with O => Ok [] | S n' => b ← load m a; l ← load_bytes n' (a + 1) m; Ok (b :: l) end.

(** [KeonFS_File::read]: the bytes copied to the buffer, as many as it answers. *)
Definition read (f : KeonFS_File) (offset size : Z) (m : mem) : outcome (list Z) :=
  if f_size f <=? offset then Ok [] else
  let to_read := if f_size f <? u32 (offset + size) then f_size f - offset else size in
  load_bytes (Z.to_nat to_read) (f_data_ptr f + offset) m.

(** [KeonFS_MountNode::finddir]: the index of the first child with the name. *)
Fixpoint finddir (name : list Z) (children : list KeonFS_File) : option nat :=
  match children with
  | [] => None
  | f :: rest =>
      if str_diff (f_name f) name =? 0 then Some O else S <$> finddir name rest
  end.

(** ** Packing *)

Definition le32 (v : Z) : list Z :=
  [v mod 256; (v / 2 ^ 8) mod 256; (v / 2 ^ 16) mod 256; (v / 2 ^ 24) mod 256].

Abbreviation file := (list Z * list Z)%type.

Definition padding (off : Z) : Z := (4 - off mod 4) mod 4.

(** Where the contents go, from the offset [off] on, and where they end. *)
Fixpoint place (off : Z) (files : list file) : list Z * Z :=
  match files with
  | [] => ([], off)
  | (_, d) :: fs =>
      let o := off + padding off in
      let '(os, e) := place (o + Z.of_nat (length d)) fs in (o :: os, e)
  end.

Fixpoint payloads (off : Z) (files : list file) : list Z :=
  match files with
  | [] => []
  | (_, d) :: fs =>
      let o := off + padding off in
      replicate (Z.to_nat (padding off)) 0 ++ d ++ payloads (o + Z.of_nat (length d)) fs
  end.

(** [name.encode('ascii')[:63].ljust(64, b'\x00')] *)
Definition name_field (nm : list Z) : list Z := take 63 nm ++ replicate (64 - length (take 63 nm)) 0.

Definition header (nm : list Z) (sz off next : Z) : list Z :=
  le32 KEONFS_MAGIC ++ name_field nm ++ le32 sz ++ le32 off ++ le32 next ++ le32 0.

(** The headers from number [i] of [n] on. *)
Fixpoint headers (i n : Z) (files : list file) (offs : list Z) : list Z :=
  match files, offs with
  | (nm, d) :: fs, o :: os =>
      header nm (Z.of_nat (length d)) o (if i <? n - 1 then 32 + (i + 1) * 84 else 0) ++
      headers (i + 1) n fs os
  | _, _ => []
  end.

Definition pack (files : list file) : list Z :=
  let n := Z.of_nat (length files) in
  let data := 32 + n * 84 in
  let '(offs, total) := place data files in
  le32 KEONFS_MAGIC ++ le32 n ++ le32 1 ++ le32 total ++ le32 0 ++ le32 0 ++ le32 0 ++ le32 0 ++
  headers 0 n files offs ++ payloads data files.

(** ** Fields *)

Lemma le32_length v : length (le32 v) = 4%nat.
Proof. done. Qed.

Lemma load32_spec m a v : bytes m a (le32 v) → 0 ≤ v < 2 ^ 32 → load32 a m = Ok v.
Proof.
  unfold le32. rewrite !bytes_cons. intros (H0 & H1 & H2 & H3 & _) Hv. unfold load32.
  replace (a + 2) with (a + 1 + 1) by lia. replace (a + 3) with (a + 1 + 1 + 1) by lia.
  rewrite (load_ok _ _ _ H0). run. rewrite (load_ok _ _ _ H1). run.
  rewrite (load_ok _ _ _ H2). run. rewrite (load_ok _ _ _ H3). run. f_equal. zdm.
Qed.

Lemma load_name_spec nm : ∀ n m a,
  Forall (λ b, b ≠ 0) nm → bytes m a (nm ++ [0]) → (length nm < n)%nat → load_name n a m = Ok nm.
Proof.
  induction nm as [|b nm IH]; intros n m a Hnm Hb Hn; (destruct n as [|n]; [lia|]); cbn [load_name].
  - apply bytes_cons in Hb as [Hb _]. rewrite (load_ok _ _ _ Hb). by run.
  - apply bytes_cons in Hb as [Hb Hb']. apply Forall_cons in Hnm as [H0 Hnm].
    rewrite (load_ok _ _ _ Hb). run. rewrite (proj2 (Z.eqb_neq _ _) H0).
    rewrite (IH n m (a + 1)) by (done || (cbn in Hn; lia)). by run.
Qed.

Lemma load_bytes_spec l : ∀ m a, bytes m a l → load_bytes (length l) a m = Ok l.
Proof.
  induction l as [|b l IH]; intros m a H; cbn [load_bytes length]; [done|].
  apply bytes_cons in H as [Hb H]. rewrite (load_ok _ _ _ Hb). run. by rewrite (IH _ _ H).
Qed.

Definition file_ok (f : file) : Prop := Forall (λ b, 0 < b) (fst f) ∧ (length (fst f) ≤ 63)%nat.

Lemma name_field_spec nm : (length nm ≤ 63)%nat →
  ∃ k, name_field nm = nm ++ [0] ++ replicate k 0 ∧ length (name_field nm) = 64%nat.
Proof.
  intros H. unfold name_field. rewrite take_ge by lia. exists (63 - length nm)%nat.
  rewrite length_app, length_replicate. split; [|lia].
  replace (64 - length nm)%nat with (S (63 - length nm)) by lia. done.
Qed.

Lemma header_length nm sz off next : (length nm ≤ 63)%nat → length (header nm sz off next) = 84%nat.
Proof.
  intros H. unfold header. destruct (name_field_spec nm H) as (_ & _ & E).
  rewrite !length_app, E. done.
Qed.

Lemma load_header_spec m hdr nm sz off next :
  bytes m hdr (header nm sz off next) → Forall (λ b, b ≠ 0) nm → (length nm ≤ 63)%nat →
  0 ≤ sz < 2 ^ 32 → 0 ≤ off < 2 ^ 32 → 0 ≤ next < 2 ^ 32 →
  load_header hdr m = Ok (mk_header (hdr + 4) sz off next) ∧ load_name 127 (hdr + 4) m = Ok nm.
Proof.
  intros Hb Hnm Hl Hs Ho Hn. unfold header in Hb. rewrite !bytes_app in Hb.
  destruct (name_field_spec nm Hl) as (k & Ek & E64). rewrite E64, !le32_length in Hb.
  destruct Hb as (_ & Hname & Hsz & Hoff & Hnx & _). split.
  - unfold load_header.
    replace (hdr + 68) with (hdr + Z.of_nat 4 + Z.of_nat 64) by lia.
    replace (hdr + 72) with (hdr + Z.of_nat 4 + Z.of_nat 64 + Z.of_nat 4) by lia.
    replace (hdr + 76) with (hdr + Z.of_nat 4 + Z.of_nat 64 + Z.of_nat 4 + Z.of_nat 4) by lia.
    rewrite (load32_spec _ _ _ Hsz), (load32_spec _ _ _ Hoff) by done. run.
    rewrite (load32_spec _ _ _ Hnx) by done. by run.
  - apply load_name_spec; [done| |lia]. rewrite Ek, app_assoc in Hname.
    by apply bytes_app in Hname as [Hname _].
Qed.
(** ** Layout *)

Lemma padding_range off : 0 ≤ padding off < 4.
Proof. unfold padding. zdm. Qed.

(** The contents lie between [off] and the end. *)
Lemma place_bounds fs : ∀ off, 0 ≤ off →
  off ≤ snd (place off fs) ∧
  Forall2 (λ f o, 0 ≤ o ∧ o + Z.of_nat (length (snd f)) ≤ snd (place off fs)) fs (fst (place off fs)).
Proof.
  induction fs as [|[nm d] fs IH]; intros off Hoff; [by split; [cbn; lia|]|].
  pose proof (padding_range off). cbn [place].
  destruct (IH (off + padding off + Z.of_nat (length d))) as [H1 H2]; [lia|].
  destruct (place _ fs) as [os e]. cbn [fst snd] in *. split; [lia|]. constructor; [cbn; lia|done].
Qed.

(** The contents are in the image where [place] says. *)
Lemma payloads_bytes fs : ∀ m base off, 0 ≤ off → bytes m (base + off) (payloads off fs) →
  Forall2 (λ f o, bytes m (base + o) (snd f)) fs (fst (place off fs)).
Proof.
  induction fs as [|[nm d] fs IH]; intros m base off Hoff Hb; [constructor|].
  pose proof (padding_range off). cbn [place payloads] in *.
  rewrite !bytes_app, length_replicate in Hb. destruct Hb as (_ & Hd & Hb).
  replace (base + off + Z.of_nat (Z.to_nat (padding off))) with (base + (off + padding off)) in * by lia.
  rewrite <- Z.add_assoc in Hb. apply IH in Hb; [|lia].
  destruct (place _ fs) as [os e]. cbn [fst] in *. by constructor.
Qed.

(** The node of a packed file. *)
Definition node_of (base : Z) (f : file) (o : Z) : KeonFS_File :=
  mk_file (fst f) (Z.of_nat (length (snd f))) (base + o).

Lemma mount_loop_spec fs : ∀ os i n base total children m,
  Forall2 (λ f o, 0 ≤ o ∧ o + Z.of_nat (length (snd f)) ≤ total) fs os → Forall file_ok fs →
  bytes m (base + (32 + i * 84)) (headers i n fs os) →
  0 ≤ i → i + Z.of_nat (length fs) = n → 0 ≤ base → base + total < 2 ^ 64 → 32 + n * 84 ≤ total < 2 ^ 32 →
  (length children + length fs ≤ 128)%nat →
  mount_loop (length fs) base total (base + (32 + i * 84)) children m =
    Ok (children ++ zip_with (node_of base) fs os).
Proof.
  induction fs as [|[nm d] fs IH]; intros os i n base total children m Ho Hf Hb Hi Hn H0 Ht Hs Hc.
  - cbn. by rewrite app_nil_r.
  - inversion Ho as [|? o ? os' [Ho1 Ho2] Ho']; subst os. cbn [fst snd] in Ho2.
    apply Forall_cons in Hf as [[Hnm Hl] Hf].
    cbn [headers] in Hb. rewrite bytes_app, (header_length _ _ _ _ Hl) in Hb. destruct Hb as [Hh Hb].
    cbn [length] in Hn, Hc |- *. cbn [mount_loop].
    destruct (load_header_spec _ _ _ _ _ _ Hh) as [Eh En]; [|done|lia..|destruct (_ <? _); lia|].
    { eapply Forall_impl; [exact Hnm|]. cbn. lia. }
    cbn [fst] in *. rewrite Eh. run. cbn [h_offset h_size h_name_addr h_next_header].
    rewrite (wrap_small 32), (proj2 (Z.ltb_ge _ _)) by lia.
    unfold new_file. rewrite En. run. unfold add_child. rewrite (proj2 (Nat.leb_gt _ _)) by lia. run.
    rewrite (wrap_small 64 (base + o)) by lia.
    change (mk_file nm (Z.of_nat (length d)) (base + o)) with (node_of base (nm, d) o).
    cbn [zip_with].
    replace (children ++ node_of base (nm, d) o :: zip_with (node_of base) fs os')
      with ((children ++ [node_of base (nm, d) o]) ++ zip_with (node_of base) fs os') by by rewrite <- app_assoc.
    destruct (Z.ltb_spec i (n - 1)) as [Hlt|Hge].
    + rewrite (proj2 (Z.eqb_neq _ _)), (wrap_small 64) by lia.
      apply IH with (n := n); try done; try lia; [|by rewrite length_app; cbn; lia].
      by replace (base + (32 + (i + 1) * 84)) with (base + (32 + i * 84) + Z.of_nat 84) by lia.
    + cbn [Z.eqb]. destruct fs; [|cbn [length] in Hn; lia]. cbn. by rewrite app_nil_r.
Qed.

Lemma load_bytes_part m a d k n : bytes m a d → (k + n ≤ length d)%nat →
  load_bytes n (a + Z.of_nat k) m = Ok (take n (drop k d)).
Proof.
  intros Hb Hk. assert (El : length (take n (drop k d)) = n) by (rewrite length_take, length_drop; lia).
  rewrite <- El at 1. apply load_bytes_spec. rewrite <- (take_drop k d) in Hb.
  apply bytes_app in Hb as [_ Hb]. rewrite length_take_le in Hb by lia.
  rewrite <- (take_drop n (drop k d)) in Hb. by apply bytes_app in Hb as [Hb _].
Qed.

Lemma read_spec m base nm d o offset size :
  bytes m (base + o) d → Z.of_nat (length d) < 2 ^ 32 → 0 ≤ offset → 0 ≤ size → offset + size < 2 ^ 32 →
  read (node_of base (nm, d) o) offset size m =
    Ok (take (Z.to_nat size) (drop (Z.to_nat offset) d)).
Proof.
  intros Hb Hd Ho Hs Hw. unfold read, node_of. cbn [f_size f_data_ptr fst snd].
  rewrite (wrap_small 32) by lia.
  destruct (Z.leb_spec (Z.of_nat (length d)) offset) as [Hle|Hgt].
  { rewrite drop_ge by lia. by rewrite take_nil. }
  replace (base + o + offset) with (base + o + Z.of_nat (Z.to_nat offset)) by lia.
  destruct (Z.ltb_spec (Z.of_nat (length d)) (offset + size)).
  - rewrite (load_bytes_part _ _ d) by (done || lia).
    rewrite !take_ge; rewrite ?length_drop; (done || lia).
  - apply load_bytes_part; [done|lia].
Qed.

Lemma finddir_spec base fs : ∀ os i nm d, NoDup (fst <$> fs) → Forall file_ok fs →
  length os = length fs → fs !! i = Some (nm, d) →
  finddir nm (zip_with (node_of base) fs os) = Some i.
Proof.
  induction fs as [|[nm' d'] fs IH]; intros os i nm d Hnd Hf Hl Hi; [done|].
  destruct os as [|o os]; [done|]. cbn [zip_with finddir node_of f_name fst]. cbn in Hnd.
  apply NoDup_cons in Hnd as [Hn Hnd]. apply Forall_cons in Hf as [[Hp _] Hf].
  destruct i as [|i]; cbn in Hi.
  - injection Hi as -> ->. by rewrite (proj2 (Z.eqb_eq _ _)) by by apply str_diff_zero.
  - pose proof (proj1 (Forall_lookup _ _) Hf _ _ Hi) as [Hp' _].
    rewrite (proj2 (Z.eqb_neq _ _)).
    + rewrite (IH os i nm d) by (done || (cbn in Hl; lia)). done.
    + rewrite str_diff_zero by done. cbn. intros ->. apply Hn.
      apply list_elem_of_fmap. exists (nm, d). split; [done|]. by eapply list_elem_of_lookup_2.
Qed.

Lemma zip_with_at (base : Z) (fs : list file) os i f : length os = length fs → fs !! i = Some f →
  ∃ o, os !! i = Some o ∧ zip_with (node_of base) fs os !! i = Some (node_of base f o).
Proof.
  intros Hl Hi. destruct (lookup_lt_is_Some_2 os i) as [o Ho].
  { rewrite Hl. by eapply lookup_lt_Some. }
  exists o. split; [done|]. by rewrite lookup_zip_with, Hi, Ho.
Qed.

Lemma headers_length fs os n : ∀ i total,
  Forall2 (λ f o, 0 ≤ o ∧ o + Z.of_nat (length (snd f)) ≤ total) fs os → Forall file_ok fs →
  length (headers i n fs os) = (84 * length fs)%nat.
Proof.
  intros i total Hos. revert i. induction Hos as [|[nm d] o fs os _ Hos IH]; intros i Hf; [done|].
  apply Forall_cons in Hf as [[_ Hl] Hf]. cbn [headers length].
  rewrite length_app, (header_length _ _ _ _ Hl), IH by done. lia.
Qed.

(** What the constructor sees of a packed image. *)
Lemma mount_pack m addr files :
  let n := Z.of_nat (length files) in
  let total := snd (place (32 + n * 84) files) in
  bytes m addr (pack files) → Forall file_ok files → (length files ≤ 128)%nat →
  total < 2 ^ 32 → 0 ≤ addr → addr + total < 2 ^ 64 →
  KeonFS_MountNode addr m =
    Ok (zip_with (node_of addr) files (fst (place (32 + n * 84) files)), total) ∧
  bytes m (addr + (32 + n * 84)) (payloads (32 + n * 84) files).
Proof.
  intros n total Hb Hf Hn Ht H0 Ha. unfold pack in Hb. fold n in Hb.
  destruct (place_bounds files (32 + n * 84)) as [He Hos]; [lia|].
  unfold total in *. clear total. destruct (place (32 + n * 84) files) as [os total] eqn:Ep. cbn [fst snd] in *.
  pose proof (headers_length _ _ n 0 total Hos Hf) as Ehl.
  rewrite !bytes_app, !le32_length, Ehl in Hb.
  change (Z.of_nat 4) with 4 in Hb. destruct Hb as (Hm & Htf & _ & Hfs & _ & _ & _ & _ & Hh & Hp). split.
  - unfold KeonFS_MountNode, load_info. rewrite (load32_spec _ _ _ Hm) by done. run.
    replace (addr + 12) with (addr + 4 + 4 + 4) by lia.
    rewrite (load32_spec _ _ _ Htf), (load32_spec _ _ _ Hfs) by lia. run. cbn [i_magic i_total_files i_fs_size].
    unfold n at 1. rewrite Z.eqb_refl, Nat2Z.id. cbn [negb]. unfold sizeof_KeonFS_Info.
    rewrite (wrap_small 64) by lia. replace (addr + 32) with (addr + (32 + 0 * 84)) by lia.
    rewrite mount_loop_spec with (os := os) (n := n); try done; try lia.
    by replace (addr + (32 + 0 * 84)) with (addr + 4 + 4 + 4 + 4 + 4 + 4 + 4 + 4) by lia.
  - replace (addr + (32 + n * 84)) with (addr + 4 + 4 + 4 + 4 + 4 + 4 + 4 + 4 + Z.of_nat (84 * length files)) by lia. done.
Qed.

(** The children that the constructor makes of a packed image. *)
Lemma packed_files m addr files :
  let total := snd (place (32 + Z.of_nat (length files) * 84) files) in
  bytes m addr (pack files) → Forall file_ok files → NoDup (fst <$> files) → (length files ≤ 128)%nat →
  total < 2 ^ 32 → 0 ≤ addr → addr + total < 2 ^ 64 →
  ∃ children, KeonFS_MountNode addr m = Ok (children, total) ∧ length children = length files ∧
    ∀ i nm d, files !! i = Some (nm, d) →
      finddir nm children = Some i ∧
      ∃ f, children !! i = Some f ∧ f_name f = nm ∧ f_size f = Z.of_nat (length d) ∧
        ∀ offset size, 0 ≤ offset → 0 ≤ size → offset + size < 2 ^ 32 →
          read f offset size m = Ok (take (Z.to_nat size) (drop (Z.to_nat offset) d)).
Proof.
  intros total Hb Hf Hnd Hn Ht H0 Ha. set (n := Z.of_nat (length files)) in *.
  destruct (mount_pack m addr files Hb Hf Hn Ht H0 Ha) as [Em Hp]. fold n in Em, Hp.
  destruct (place_bounds files (32 + n * 84)) as [_ Hos]; [lia|]. fold total in Hos.
  apply payloads_bytes in Hp; [|lia]. set (os := fst (place (32 + n * 84) files)) in *.
  pose proof (Forall2_length _ _ _ Hos) as El.
  exists (zip_with (node_of addr) files os). split; [exact Em|]. split; [rewrite length_zip_with; lia|].
  intros i nm d Hi. split; [by eapply finddir_spec|].
  destruct (zip_with_at addr files os i (nm, d)) as (o & Eo & Ez); [done|done|].
  exists (node_of addr (nm, d) o). split_and!; [done|done|done|]. intros offset size Hoff Hsz Hw.
  pose proof (Forall2_lookup_lr _ _ _ _ _ _ Hos Hi Eo) as [Hpos Hle]. cbn [snd] in Hpos, Hle.
  apply read_spec; [|lia..]. exact (Forall2_lookup_lr _ _ _ _ _ _ Hp Hi Eo).
Qed.

(** ** Properties *)

(** C34. Mounting what the packing script wrote gives back the files: the mount node
    has one child per file in order, with its name and size, [finddir] finds
    each by its name and [read] answers exactly the part of the contents asked
    for, nothing at or after the end. *)
Theorem packed_image_mounts m addr files :
  let total := snd (place (32 + Z.of_nat (length files) * 84) files) in
  bytes m addr (pack files) → Forall file_ok files → NoDup (fst <$> files) → (length files ≤ 128)%nat →
  total < 2 ^ 32 → 0 ≤ addr → addr + total < 2 ^ 64 →
  ∃ children, KeonFS_MountNode addr m = Ok (children, total) ∧ length children = length files ∧
    ∀ i nm d, files !! i = Some (nm, d) →
      finddir nm children = Some i ∧
      ∃ f, children !! i = Some f ∧ f_name f = nm ∧ f_size f = Z.of_nat (length d) ∧
        ∀ offset size, 0 ≤ offset → 0 ≤ size → offset + size < 2 ^ 32 →
          read f offset size m = Ok (take (Z.to_nat size) (drop (Z.to_nat offset) d)).
Proof. apply packed_files. Qed.

Definition demo_files : list file := [([97], [1; 2; 3]); ([98; 99], [4; 5])].

Lemma packed_image_mounts_witness :
  ∃ children, KeonFS_MountNode 0x1000 (mem_of 0x1000 (pack demo_files)) = Ok (children, 206) ∧
    finddir [98; 99] children = Some 1%nat.
Proof.
  destruct (packed_image_mounts (mem_of 0x1000 (pack demo_files)) 0x1000 demo_files) as (ch & E & _ & H).
  - apply bytes_mem_of.
  - repeat constructor; lia.
  - repeat constructor; set_solver.
  - cbn. lia.
  - vm_compute. reflexivity.
  - lia.
  - vm_compute. reflexivity.
  - exists ch. split; [exact E|]. exact (proj1 (H 1%nat _ _ eq_refl)).
Defined.

(** The sum of [read] wraps: a read of nearly 4 GiB that starts inside a file
    is not cut at its end. *)
Lemma read_wraps m nm sz ptr offset :
  0 < offset < sz → sz < 2 ^ 32 →
  read (mk_file nm sz ptr) offset (2 ^ 32 - offset) m =
    load_bytes (Z.to_nat (2 ^ 32 - offset)) (ptr + offset) m.
Proof.
  intros Ho Hs. unfold read. cbn [f_size f_data_ptr].
  rewrite (proj2 (Z.leb_gt _ _)) by lia. replace (offset + (2 ^ 32 - offset)) with (2 ^ 32) by lia.
  unfold wrap. rewrite Z_mod_same_full. by rewrite (proj2 (Z.ltb_ge _ _)) by lia.
Qed.
End Ramfs.
