(* ===== verification/KernelMemory.v ===== *)
(** * Memory at start (kernel_main of kernel/kernel.cpp)

    [kernel_main] sets up the frames, the page tables, the access of user mode to
    the kernel image, and the heap, in this order.  [memory_ready] is what holds
    before the heap: the invariant of the page tables, the translation, and that
    user mode may write the image.  [heap_over_tables] is what the place of the
    heap does to the page tables.  [ramdisk_mapped] is the mapping of the initial
    RAM disk. *)

From S2P Require Import Prelude Pfa Paging PagingInit Vmm Heap Ramfs.

Module KernelMemory.
Import Pfa Paging PagingInit Vmm.

(** ** The code *)

(** [VMM::kernel_dynamic_break = (&_kernel_end + 0xFFF) & ~0xFFF; += 0x10000]. *)
Definition initial_break (kernel_end : Z) : Z :=
  u64 (mask_low (u64 (kernel_end + 0xFFF)) 0xFFF + 0x10000).

Definition initial_heap_size : Z := 4 * 1024 * 1024.

(** The tables, up to the heap; [kernel_end] is the virtual address of [_kernel_end]. *)
Definition setup_tables (kernel_end : Z) (st : paging) : outcome paging :=
  st1 ← paging_init st;
  paging_make_kernel_user_accessible kernel_end st1.

(** The break and the heap: the result of [sbrk] is not looked at. *)
Definition setup_heap (kernel_end : Z) (st : paging) : outcome (bool * @Heap.heap vmm) :=
  let heap_start := initial_break kernel_end in
  '(_, v) ← sbrk initial_heap_size (mk_vmm st heap_start 0);
  Ok (Heap.kheap_init heap_start initial_heap_size (Heap.mk_heap ∅ 0 0 v)).

(** ** Access of user mode *)

(** Every level is present and has the user and the write bit: what the
    processor asks of a store in user mode. *)
Fixpoint writable_path (m : gmap Z Z) (table : Z) (idxs : list Z) : bool :=
  match idxs with
  | [] => true
  | i :: rest =>
      let e := rd m (table + 8 * i) in
      flag e PTE_PRESENT && flag e PTE_USER && flag e PTE_RW && writable_path m (entry_addr e) rest
  end.

Definition user_writable (st : paging) (va : Z) : Prop :=
  writable_path (pg_mem st) (root_of (cr3 st)) (path4 va) = true.

Lemma writable_user m t idxs : writable_path m t idxs = true → user_path m t idxs = true.
Proof.
  revert t. induction idxs as [|i idxs IH]; intros t; cbn [writable_path user_path]; [done|].
  intros [[[-> ->]%andb_prop _]%andb_prop H]%andb_prop. by apply IH.
Qed.

(** [e'] is [e] with permissions added. *)
Definition more (e e' : Z) : Prop :=
  flag e PTE_PRESENT = flag e' PTE_PRESENT ∧ (flag e PTE_PRESENT = true → entry_addr e = entry_addr e') ∧
  (flag e PTE_USER = true → flag e' PTE_USER = true) ∧ (flag e PTE_RW = true → flag e' PTE_RW = true).

#[global] Instance more_preorder : PreOrder more.
Proof.
  split; [done|]. intros a b c (P1 & A1 & U1 & R1) (P2 & A2 & U2 & R2). split_and!; auto; [congruence|].
  intros H. rewrite A1 by done. apply A2. congruence.
Qed.

Definition mem_more (m m' : gmap Z Z) : Prop := ∀ a, more (rd m a) (rd m' a).

#[global] Instance mem_more_preorder : PreOrder mem_more.
Proof. split; [done|]. intros a b c H1 H2 x. by transitivity (rd b x). Qed.

Lemma more_insert m a v : more (rd m a) v → mem_more m (<[a := v]> m).
Proof.
  intros H x. destruct (decide (x = a)) as [->|]; [by rewrite rd_insert_eq|by rewrite rd_insert_ne].
Qed.

Lemma writable_app m t l1 l2 t' :
  walk_tables m t l1 = Some t' → writable_path m t (l1 ++ l2) = writable_path m t l1 && writable_path m t' l2.
Proof.
  revert t. induction l1 as [|i l1 IH]; intros t; cbn [walk_tables app writable_path]; [by intros [= <-]|].
  destruct (flag (rd m (t + 8 * i)) PTE_PRESENT); [|done]. intros Hw.
  rewrite (IH _ Hw). cbn [andb]. by rewrite !andb_assoc.
Qed.

Lemma writable_more m m' t idxs : mem_more m m' →
  writable_path m t idxs = true → writable_path m' t idxs = true.
Proof.
  intros Hm. revert t. induction idxs as [|i idxs IH]; intros t; cbn [writable_path]; [done|].
  destruct (Hm (t + 8 * i)) as (P & A & U & R).
  intros [[[Hp Hu]%andb_prop Hr]%andb_prop Hw]%andb_prop.
  rewrite <- P, U, R, <- A, Hp by done. cbn [andb]. by apply IH.
Qed.

Lemma walk_more m m' t idxs : mem_more m m' → walk_tables m' t idxs = walk_tables m t idxs.
Proof.
  intros Hm. revert t. induction idxs as [|i idxs IH]; intros t; [done|]. cbn [walk_tables].
  destruct (Hm (t + 8 * i)) as (P & A & _). rewrite <- P.
  destruct (flag (rd m (t + 8 * i)) PTE_PRESENT); [|done]. rewrite <- A by done. apply IH.
Qed.

(** ** Present entries with the flags of the kernel image *)

Definition PTE_IMAGE : Z := Z.lor (Z.lor PTE_PRESENT PTE_RW) PTE_USER.

Lemma flag_user_bit e : flag e PTE_USER = Z.testbit e 2.
Proof. apply (bit_test_spec e 2). lia. Qed.
Lemma flag_rw_bit e : flag e PTE_RW = Z.testbit e 1.
Proof. apply (bit_test_spec e 1). lia. Qed.

Lemma more_lor e b : b = PTE_USER ∨ b = PTE_RW → more e (Z.lor e b).
Proof.
  intros Hb. destruct (entry_sim_lor e b Hb) as (P & _ & A & _). unfold more.
  rewrite !flag_user_bit, !flag_rw_bit, !Z.lor_spec. split_and!; [done|done| |]; by intros ->.
Qed.

(** One of the two conditional stores of a level. *)
Lemma perm_more st T f0 p0 i0 b flags :
  paging_wf st T → Forall is_idx (p0 ++ [i0]) → (length p0 < 3)%nat →
  walk_tables (pg_mem st) (root_of (cr3 st)) p0 = Some f0 → b = PTE_USER ∨ b = PTE_RW →
  ∃ s, (if flag flags b
        then e1 ← vload st (u64 (phys_to_virt f0 + 8 * i0)); vstore (u64 (phys_to_virt f0 + 8 * i0)) (Z.lor e1 b) st
        else Ok st) = Ok s ∧
    extends 0 st T s T ∧ pg_pfa s = pg_pfa st ∧ mem_more (pg_mem st) (pg_mem s) ∧
    walk_tables (pg_mem s) (root_of (cr3 s)) p0 = Some f0 ∧
    rd (pg_mem s) (f0 + 8 * i0) =
      if flag flags b then Z.lor (rd (pg_mem st) (f0 + 8 * i0)) b else rd (pg_mem st) (f0 + 8 * i0).
Proof.
  intros Hwf Hidx Hlen Hw Hb. destruct (flag flags b).
  2:{ exists st. split_and!; [done|by apply extends_refl|done..]. }
  rewrite (level_load st T f0 p0 i0) by done. run. rewrite (level_store st T f0 p0 i0) by done.
  destruct (level_set_flag st T f0 p0 i0 Hwf Hidx Hlen Hw b Hb) as (X & W & _).
  eexists. split; [reflexivity|]. split_and!; [done|done| |done|apply rd_insert_eq].
  by apply more_insert, more_lor.
Qed.

(** One level with a present entry: the flags are added and the walk goes on. *)
Lemma level_add st T f0 p0 i0 flags :
  paging_wf st T → Forall is_idx (p0 ++ [i0]) → (length p0 < 3)%nat →
  walk_tables (pg_mem st) (root_of (cr3 st)) p0 = Some f0 →
  flag (rd (pg_mem st) (f0 + 8 * i0)) PTE_PRESENT = true →
  ∃ s, get_pte_level true flags (phys_to_virt f0) i0 st =
      Ok (Some (phys_to_virt (entry_addr (rd (pg_mem st) (f0 + 8 * i0)))), s) ∧
    extends 0 st T s T ∧ pg_pfa s = pg_pfa st ∧ mem_more (pg_mem st) (pg_mem s) ∧
    (flag flags PTE_USER = true → flag (rd (pg_mem s) (f0 + 8 * i0)) PTE_USER = true) ∧
    (flag flags PTE_RW = true → flag (rd (pg_mem s) (f0 + 8 * i0)) PTE_RW = true).
Proof.
  intros Hwf Hidx Hlen Hw Hp. unfold get_pte_level. cbv zeta.
  rewrite (bind_of_Ok _ _ _ (level_load st T f0 p0 i0 Hwf Hidx Hlen Hw)), Hp. cbn [negb].
  destruct (perm_more st T f0 p0 i0 PTE_USER flags) as (s1 & -> & X1 & F1 & M1 & W1 & E1); [by auto..|]. run.
  destruct (perm_more s1 T f0 p0 i0 PTE_RW flags) as (s2 & -> & X2 & F2 & M2 & W2 & E2); [apply X1|done..|by auto|]. run.
  rewrite (level_load s2 T f0 p0 i0) by (done || apply X2). run.
  assert (HT0 : T !! f0 = Some p0) by by apply (level_T st T f0 p0 i0).
  destruct (tw_child _ _ _ (pw_tables _ _ Hwf) f0 p0 i0 HT0 Hlen) as (_ & Hm & _);
    [by eapply upd_idx|done|].
  exists s2. split_and!.
  - rewrite E2, E1. do 3 f_equal. rewrite <- Hm. destruct (flag flags PTE_USER), (flag flags PTE_RW); rewrite ?mask_page_lor by done; done.
  - by apply (extends_trans 0 0 _ _ _ _ _ _ X1).
  - by rewrite F2.
  - by transitivity (pg_mem s1).
  - intros Hu. destruct (M2 (f0 + 8 * i0)) as (_ & _ & U & _). apply U.
    rewrite E1, Hu, flag_user_bit, Z.lor_spec. apply orb_true_r.
  - intros Hr. rewrite E2, Hr, flag_rw_bit, Z.lor_spec. apply orb_true_r.
Qed.

(** The descent when every table is there. *)
Lemma loop_add flags idxs st T f0 p0 t :
  paging_wf st T → Forall is_idx (p0 ++ idxs) → (length p0 + length idxs ≤ 3)%nat →
  walk_tables (pg_mem st) (root_of (cr3 st)) p0 = Some f0 → walk_tables (pg_mem st) f0 idxs = Some t →
  ∃ s, get_pte_loop true flags idxs (phys_to_virt f0) st = Ok (Some (phys_to_virt t), s) ∧
    extends 0 st T s T ∧ pg_pfa s = pg_pfa st ∧ mem_more (pg_mem st) (pg_mem s) ∧
    (flag flags PTE_USER = true → flag flags PTE_RW = true → writable_path (pg_mem s) f0 idxs = true).
Proof.
  revert st f0 p0. induction idxs as [|i idxs IH]; intros st f0 p0 Hwf Hidx Hlen Hw Ht; cbn [get_pte_loop walk_tables] in *.
  { injection Ht as ->. exists st. split_and!; [done|by apply extends_refl|done|done|done]. }
  cbn [length] in Hlen. rewrite (cons_middle i), app_assoc in Hidx.
  destruct (flag (rd (pg_mem st) (f0 + 8 * i)) PTE_PRESENT) eqn:Hp; [|done].
  destruct (level_add st T f0 p0 i flags) as (s1 & -> & X1 & F1 & M1 & U1 & R1);
    [done|by apply Forall_app in Hidx as [? _]|lia|done|done|]. run.
  destruct (M1 (f0 + 8 * i)) as (P & A & _).
  destruct (IH s1 (entry_addr (rd (pg_mem st) (f0 + 8 * i))) (p0 ++ [i])) as (s2 & -> & X2 & F2 & M2 & W2).
  - apply X1.
  - done.
  - rewrite length_app. cbn. lia.
  - destruct (ext_space _ _ _ _ _ X1) as (-> & _). rewrite (walk_more _ _ _ _ M1), walk_tables_app, Hw.
    cbn [mbind option_bind walk_tables]. by rewrite Hp.
  - by rewrite (walk_more _ _ _ _ M1).
  - exists s2. split; [done|]. split; [by apply (extends_trans 0 0 _ _ _ _ _ _ X1)|]. split; [by rewrite F2|].
    split; [by transitivity (pg_mem s1)|]. intros Hu Hr. cbn [writable_path].
    destruct (M2 (f0 + 8 * i)) as (P2 & A2 & U2 & R2).
    rewrite <- P2, <- P, Hp, U2, R2 by auto. cbn [andb]. rewrite <- A2 by congruence. rewrite <- A by done. auto.
Qed.

(** [paging_map_page] when every table is there: only the leaf changes. *)
Lemma map_present st T va phys flags t :
  paging_wf st T → 0 ≤ phys < 2 ^ 52 → 0 ≤ flags < 4096 →
  walk_tables (pg_mem st) (root_of (cr3 st)) (path3 va) = Some t →
  let v := Z.lor (Z.lor (mask_low phys 0xFFF) flags) PTE_PRESENT in
  ∃ st' m1, paging_map_page va phys flags st = Ok st' ∧ cr3 st' = cr3 st ∧ kernel_pml4 st' = kernel_pml4 st ∧
    pg_pfa st' = pg_pfa st ∧ mem_more (pg_mem st) m1 ∧ pg_mem st' = <[t + 8 * PT_IDX va := v]> m1 ∧
    tables_wf m1 (root_of (cr3 st)) T ∧ tables_wf (pg_mem st') (root_of (cr3 st)) T ∧ T !! t = Some (path3 va) ∧
    (flag flags PTE_USER = true → flag flags PTE_RW = true →
       writable_path m1 (root_of (cr3 st)) (path3 va) = true) ∧
    ∀ va', walk_st st' va' = if decide (path4 va' = path4 va)
       then Some (phys - phys mod 4096) else walk_st st va'.
Proof.
  intros Hwf Hp Hf Et v. unfold paging_map_page, get_pte, get_current_pml4_virt.
  fold (root_of (cr3 st)). fold (path3 va).
  pose proof (path4_idx va) as Hidx. unfold path4 in Hidx.
  destruct (loop_add flags (path3 va) st T (root_of (cr3 st)) [] t) as (s1 & E & X1 & F1 & M1 & W1);
    [done|by apply Forall_app in Hidx as [? _]|unfold path3; cbn; lia|done|done|].
  rewrite E. run. pose proof (ext_wf _ _ _ _ _ X1) as Hwf1.
  destruct (ext_space _ _ _ _ _ X1) as (Hcr & Hk & Hsp).
  assert (Hw1 : walk_tables (pg_mem s1) (root_of (cr3 s1)) (path3 va) = Some t).
  { rewrite Hcr. by rewrite (walk_more _ _ _ _ M1). }
  fold v. destruct (store_leaf s1 T va t v Hwf1 Hw1) as (-> & Hupd & _ & _). run.
  destruct (map_entry_spec phys flags Hp Hf) as (V1 & V2 & _). fold v in V1, V2.
  pose proof (pw_tables _ _ Hwf1) as HT1. rewrite Hcr in HT1.
  eexists _, (pg_mem s1). split; [reflexivity|]. cbn [set_mapped set_mem cr3 kernel_pml4 pg_pfa pg_mem].
  split_and!; [done|done|done|done|done|done| | |done|].
  - rewrite Hcr in Hw1. by apply (tables_wf_leaf_upd _ _ T HT1 t (path3 va) (PT_IDX va) v Hidx Hw1 eq_refl).
  - rewrite Hcr in Hw1. eapply (upd_T _ _ _ HT1 t (path3 va) (PT_IDX va)); [done|done|]. reflexivity.
  - intros va'. rewrite V1, V2 in Hupd. etransitivity; [apply Hupd|]. case_decide; [done|].
    unfold walk_st. by rewrite Hsp.
Qed.

(** Mapping a page of the direct map to its own frame changes permissions only. *)
Lemma remap_page st T f :
  paging_wf st T → low_frame f → reach st f →
  ∃ st', paging_map_page (phys_to_virt f) f PTE_IMAGE st = Ok st' ∧ paging_wf st' T ∧ same_space st st' ∧
    pg_pfa st' = pg_pfa st ∧ mem_more (pg_mem st) (pg_mem st') ∧ user_writable st' (phys_to_virt f) ∧
    ∀ va, user_writable st va → user_writable st' va.
Proof.
  intros Hwf [Hfa Hfr] Hr. pose proof (pw_tables _ _ Hwf) as HT. set (va := phys_to_virt f) in *.
  unfold reach in Hr. fold va in Hr. pose proof Hr as Hr0. rewrite (walk_page_tables _ _ _ HT) in Hr.
  unfold path4 in Hr. rewrite walk_tables_app in Hr.
  destruct (walk_tables (pg_mem st) (root_of (cr3 st)) (path3 va)) as [t|] eqn:Et; [|done].
  cbn [mbind option_bind walk_tables] in Hr.
  destruct (flag (rd (pg_mem st) (t + 8 * PT_IDX va)) PTE_PRESENT) eqn:Hp; [|done]. injection Hr as Ha.
  destruct (map_present st T va f PTE_IMAGE t) as (st' & m1 & E & Hcr & Hk & Hpfa & M1 & Em & HT1 & HT' & HTt & W1 & Hw);
    [done|lia|done|done|].
  rewrite Hfa, Z.sub_0_r in Hw. destruct (map_entry_spec f PTE_IMAGE) as (V1 & V2 & _); [lia|done|].
  rewrite Hfa, Z.sub_0_r in V2.
  set (v := Z.lor (Z.lor (mask_low f 0xFFF) PTE_IMAGE) PTE_PRESENT) in *.
  assert (Vu : flag v PTE_USER = true) by (unfold v; rewrite flag_user_entry; reflexivity).
  assert (Vr : flag v PTE_RW = true).
  { unfold v. rewrite flag_rw_bit, !Z.lor_spec. change (Z.testbit PTE_IMAGE 1) with true.
    by rewrite orb_true_r. }
  assert (M2 : mem_more m1 (pg_mem st')).
  { rewrite Em. apply more_insert. destruct (M1 (t + 8 * PT_IDX va)) as (P & A & _).
    split_and!; [congruence| |done|done]. intros _. rewrite V2, <- Ha. symmetry. by apply A. }
  assert (Hspace : same_space st st').
  { split_and!; [done|done|]. intros va'. unfold walk_st in Hw. rewrite Hw. case_decide as Hd; [|done].
    rewrite (walk_page_tables _ _ _ HT), Hd, <- (walk_page_tables _ _ _ HT). by rewrite Hr0. }
  exists st'. split_and!; [done| |done|done|by transitivity m1| |].
  - apply (paging_wf_same st); [done|done| |done]. by rewrite Hcr.
  - unfold user_writable. rewrite Hcr. unfold path4.
    assert (Hw3 : walk_tables (pg_mem st') (root_of (cr3 st)) (path3 va) = Some t).
    { by rewrite (walk_more _ _ _ _ M2), (walk_more _ _ _ _ M1). }
    rewrite (writable_app _ _ _ _ _ Hw3), (writable_more _ _ _ _ M2 (W1 eq_refl eq_refl)). cbn [andb writable_path].
    by rewrite Em, rd_insert_eq, V1, Vu, Vr.
  - intros va'. unfold user_writable. rewrite Hcr. apply writable_more. by transitivity m1.
Qed.

(** ** The kernel image *)

(** [k_end]: the image and 256 KiB, up to a page. *)
Definition image_end (kernel_end : Z) : Z := mask_low (u64 (kernel_end + 0x40000 + 0xFFF)) 0xFFF.

Lemma page_of va : ∃ o, va = va / 4096 * 4096 + o ∧ 0 ≤ o < 4096.
Proof. exists (va mod 4096). zdm. Qed.

Lemma user_writable_page st va va' : va / 4096 = va' / 4096 → user_writable st va → user_writable st va'.
Proof. intros Hp. unfold user_writable. by rewrite (path4_page _ _ Hp). Qed.

Lemma make_accessible_spec st T ke :
  paging_wf st T → (∀ f, f mod 4096 = 0 → 0 ≤ f < 2 ^ 29 → reach st f) → 0x100000 ≤ ke → ke + 0x41000 ≤ 2 ^ 29 →
  ∃ st', paging_make_kernel_user_accessible (KERNEL_VIRT_OFFSET + ke) st = Ok st' ∧ paging_wf st' T ∧
    same_space st st' ∧ pg_pfa st' = pg_pfa st ∧
    (∀ q, walk_tables (pg_mem st') (root_of (cr3 st')) q = walk_tables (pg_mem st) (root_of (cr3 st)) q) ∧
    ∀ va, 0xffffffff80100000 ≤ va < image_end (KERNEL_VIRT_OFFSET + ke) → user_writable st' va.
Proof.
  intros Hwf Hreach Hke Hke'. unfold paging_make_kernel_user_accessible. cbv zeta.
  change (mask_low 0xffffffff80100000 0xFFF) with 0xffffffff80100000. fold (image_end (KERNEL_VIRT_OFFSET + ke)).
  assert (He : image_end (KERNEL_VIRT_OFFSET + ke) = KERNEL_VIRT_OFFSET + (ke + 0x40FFF) / 4096 * 4096).
  { unfold image_end, KERNEL_VIRT_OFFSET. rewrite wrap_small, mask_page_eq by lia. zdm. }
  rewrite He. unfold KERNEL_VIRT_OFFSET.
  set (n := (ke + 0x40FFF) / 4096 - 256).
  replace ((0xFFFFFFFF80000000 + (ke + 0x40FFF) / 4096 * 4096 - 0xffffffff80100000) / 4096) with n by (subst n; zdm).
  assert (Hn : 0 ≤ n ∧ n * 4096 + 0x100000 ≤ 2 ^ 29) by (subst n; zdm).
  destruct (for_range_rule (λ i s, paging_wf s T ∧ same_space st s ∧ pg_pfa s = pg_pfa st ∧ mem_more (pg_mem st) (pg_mem s) ∧
      ∀ va, 0xffffffff80100000 ≤ va < 0xffffffff80100000 + i * 4096 → user_writable s va)
    (λ i st, let p := 0xffffffff80100000 + i * 4096 in
      paging_map_page p (virt_to_phys p) (Z.lor (Z.lor PTE_PRESENT PTE_RW) PTE_USER) st) (Z.to_nat n) 0 st)
    as (s' & E & Hwf' & Hsp & Hpfa & Hm & Hu).
  - split_and!; [done|done|done|done|lia].
  - intros i s Hi (Hwfs & Hsp & Hpfa & Hm & Hu). cbv zeta. rewrite Z2Nat.id in Hi by lia.
    set (f := 0x100000 + i * 4096).
    assert (Hf : low_frame f ∧ f < 2 ^ 29) by (unfold low_frame; subst f; zdm).
    assert (Hp : 0xffffffff80100000 + i * 4096 = phys_to_virt f).
    { rewrite kernel_phys by lia. unfold KERNEL_VIRT_OFFSET. subst f. lia. }
    assert (Hv : virt_to_phys (phys_to_virt f) = f).
    { rewrite <- Hp. unfold virt_to_phys, KERNEL_VIRT_OFFSET. rewrite wrap_small; subst f; lia. }
    rewrite Hp, Hv. change (Z.lor (Z.lor PTE_PRESENT PTE_RW) PTE_USER) with PTE_IMAGE.
    destruct (remap_page s T f Hwfs (proj1 Hf)) as (s1 & E & Hwf1 & Hsp1 & Hpfa1 & Hm1 & Hu1 & Hk).
    { eapply reach_same; [exact Hsp|]. apply Hreach; [apply Hf|]. destruct Hf as [[? ?] ?]. lia. }
    exists s1. split; [exact E|]. split_and!; [done|by transitivity s|congruence|by transitivity (pg_mem s)|].
    intros va Hva. destruct (decide (va < 0xffffffff80100000 + i * 4096)) as [Hlt|Hge]; [apply Hk, Hu; lia|].
    apply (user_writable_page _ (phys_to_virt f)); [|done]. rewrite <- Hp. zdm.
  - exists s'. split; [exact E|]. split_and!; [done|done|done| |].
    { intros q. destruct Hsp as (-> & _). by apply walk_more. }
    intros va Hva. apply Hu.
    rewrite Z2Nat.id by lia. subst n. lia.
Qed.

(** The states of [kernel_main] before the heap. *)
Lemma walk_of_translate st va f : va mod 4096 = 0 →
  translate (pg_mem st) (cr3 st) va = Some f → walk_page (pg_mem st) (root_of (cr3 st)) va = Some f.
Proof.
  intros Ha. unfold translate. rewrite Ha.
  destruct (walk_page _ _ va); cbn; [|done]. intros [= <-]. f_equal. lia.
Qed.

Section start.
Context (ks ke mb2 : Z) (tags : list multiboot_tag) (st : paging) (b4 b3 b2 : Z).
Hypothesis Hk : 0 ≤ ks ≤ ke.
Hypothesis Hke : 0x100000 ≤ ke ∧ ke + 0x41000 ≤ 2 ^ 29.
Hypothesis Hmb : 0 ≤ mb2 < 2 ^ 64.
Hypothesis Hmap : map_ok (all_entries tags).
Hypothesis Htags : Forall tag_ok tags.
Hypothesis Hmem : mem_upper_of tags ≤ 2 ^ 29.

Lemma setup_tables_spec :
  ∃ p, pfa_init_from_multiboot2 ks ke mb2 tags = Ok p ∧
    (boot_state st ks ke b4 b3 b2 p → (519 ≤ length (free_frames p))%nat →
     ∃ st' T k, setup_tables (KERNEL_VIRT_OFFSET + ke) st = Ok st' ∧ paging_wf st' T ∧
       free_frames (pg_pfa st') = drop k (free_frames p) ∧ (k ≤ 519)%nat ∧
       (∀ va, canonical va → translate (pg_mem st') (cr3 st') va = first_map va) ∧
       (∀ j x, free_frames p !! j = Some x → (j < 256)%nat →
          ∃ q, T !! (x * 4096) = Some q ∧ walk_tables (pg_mem st') (root_of (cr3 st')) q = Some (x * 4096) ∧
            Forall is_idx q) ∧
       ∀ va, 0xffffffff80100000 ≤ va < KERNEL_VIRT_OFFSET + ke →
         user_writable st' va ∧ paging_is_user_accessible va st' = Ok true).
Proof.
  destruct (init_establishes ks ke mb2 tags st b4 b3 b2) as (p & E & H); [done|lia|done..|].
  exists p. split; [done|]. intros Hb Hlen.
  destruct (H Hb Hlen) as (s1 & T & k & E1 & Hwf & _ & _ & Hfr & Hkn & Htab & Hw).
  assert (Hreach : ∀ f, f mod 4096 = 0 → 0 ≤ f < 2 ^ 29 → reach s1 f).
  { intros f Ha Hf. unfold reach. rewrite kernel_phys by lia.
    apply (walk_of_translate s1); [unfold KERNEL_VIRT_OFFSET; zdm|].
    rewrite Hw by (right; unfold KERNEL_VIRT_OFFSET; lia). unfold first_map, KERNEL_VIRT_OFFSET.
    rewrite decide_False, decide_True by lia. f_equal. lia. }
  destruct Hke as [Hke1 Hke2].
  destruct (make_accessible_spec s1 T ke Hwf Hreach Hke1 Hke2) as (s2 & E2 & Hwf2 & Hsp & Hpfa & Hmore & Hu).
  exists s2, T, k. unfold setup_tables. rewrite (bind_of_Ok _ _ _ E1), E2.
  split_and!; [done|done|by rewrite Hpfa|done| | |].
  - intros va Hc. rewrite <- Hw by done. unfold translate. destruct Hsp as (_ & _ & Hsp). by rewrite Hsp.
  - intros j x Hx Hj. destruct (Htab j x Hx Hj) as (q & Hi & Hq & Hl). change PAGE_SIZE with 4096 in *.
    exists q. split_and!; [|by rewrite Hmore|done].
    apply (walk_tables_T _ _ _ (pw_tables _ _ Hwf) q (root_of (cr3 s1)) []); [apply Hwf|done|cbn; lia|done].
  - intros va Hva. assert (Huw : user_writable s2 va).
    { apply Hu. unfold image_end. unfold KERNEL_VIRT_OFFSET in *. rewrite wrap_small, mask_page_eq by lia. zdm. }
    split; [done|]. rewrite (is_user_accessible_spec s2 T va Hwf2). f_equal. by apply writable_user.
Qed.
End start.

(** ** The place of the heap *)

Lemma initial_break_eq ke : 0 ≤ ke → ke + 0x41000 ≤ 2 ^ 29 →
  initial_break (KERNEL_VIRT_OFFSET + ke) = KERNEL_VIRT_OFFSET + ((ke + 4095) / 4096 + 16) * 4096.
Proof.
  intros. unfold initial_break, KERNEL_VIRT_OFFSET. rewrite (wrap_small _ (_ + 0xFFF)), mask_page_eq by lia.
  rewrite wrap_small by zdm. zdm.
Qed.

(** A walk of at most three indices does not go through a leaf table. *)
Lemma short_walk_leaf m root T t path i v q f : tables_wf m root T → T !! t = Some path → length path = 3%nat →
  is_idx i → Forall is_idx q → T !! f = Some q →
  walk_tables (<[t + 8 * i := v]> m) root q = walk_tables m root q.
Proof.
  intros HT Ht Hl Hi Hq Hf. destruct (tw_frame _ _ _ HT _ _ Hf) as (_ & _ & Hlq).
  apply (walk_tables_upd _ _ T HT t path i v q root []); [done|done|apply HT|done|cbn; lia|].
  intros l1 l2 -> E. cbn [app] in E. rewrite E, length_app in Hlq. cbn in Hlq. lia.
Qed.

(** The first page of the heap over the direct map of a page table [f]. *)
Lemma heap_page_hides st T f q n :
  paging_wf st T → T !! f = Some q → walk_tables (pg_mem st) (root_of (cr3 st)) q = Some f → Forall is_idx q →
  reach st f → is_Some (walk_tables (pg_mem st) (root_of (cr3 st)) (path3 (phys_to_virt f))) →
  free_frames (pg_pfa st) ≠ [] →
  ∃ v, sbrk_page (mk_vmm st (phys_to_virt f) n) = Ok (inl v) ∧
    walk_tables (pg_mem (vm_paging v)) (root_of (cr3 (vm_paging v))) q = Some f ∧
    (∀ i, is_idx i → ∃ e, vload (vm_paging v) (u64 (phys_to_virt f + 8 * i)) = Ok e ∧ flag e PTE_PRESENT = false) ∧
    ∀ T', ¬ paging_wf (vm_paging v) T'.
Proof.
  intros Hwf Hf Hq Hiq Hr [t Ht] Hne. unfold sbrk_page. cbn [vm_paging kernel_dynamic_break].
  pose proof (pfa_alloc_frame_spec st T Hwf) as Hal.
  destruct (free_frames (pg_pfa st)) as [|g l] eqn:Ef; [done|].
  destruct Hal as (s1 & -> & Hwf1 & (Hcr1 & Hk1 & Hsp1) & _ & Hl & Hg & HTg & _ & Hz & Hoth). run.
  rewrite (proj2 (Z.eqb_neq _ 0)) by lia.
  assert (Hag : tables_agree (pg_mem st) T (pg_mem s1)).
  { intros h p i Hh Hi. apply Hoth. intros j Hj E.
    destruct (tw_frame _ _ _ (pw_tables _ _ Hwf) _ _ Hh) as (Ha & _).
    apply slot_inj in E as [-> _]; try done; [congruence|by apply Z.mod_mul]. }
  assert (Hsame : ∀ idxs, Forall is_idx idxs → (length idxs ≤ 4)%nat →
    walk_tables (pg_mem s1) (root_of (cr3 st)) idxs = walk_tables (pg_mem st) (root_of (cr3 st)) idxs).
  { intros idxs Hi Hli. eapply (walk_tables_agree _ _ _ (pw_tables _ _ Hwf) _ idxs _ []);
      [done|apply (pw_tables _ _ Hwf)|done|cbn; lia]. }
  assert (Hi3 : Forall is_idx (path3 (phys_to_virt f)) ∧ is_idx (PT_IDX (phys_to_virt f))).
  { pose proof (path4_idx (phys_to_virt f)) as Hi. unfold path4 in Hi. apply Forall_app in Hi as [? Hi].
    by apply Forall_cons in Hi as [? _]. }
  destruct Hi3 as [Hi3 Hi4].
  destruct (tw_frame _ _ _ (pw_tables _ _ Hwf) _ _ Hf) as (Hfa & Hfr & Hlq).
  destruct (map_present s1 T (phys_to_virt f) (g * 4096) (Z.lor PTE_PRESENT PTE_RW) t)
    as (s2 & m1 & -> & Hcr2 & _ & _ & M1 & Em & HT1 & HT2 & HTt & _ & Hw); [done|lia|done| |].
  { rewrite Hcr1, Hsame; [done|done|unfold path3; cbn; lia]. }
  run. rewrite Z.mod_mul, Z.sub_0_r in Hw by lia. rewrite Hcr1 in HT1, HT2.
  eexists. split; [reflexivity|]. cbn [vm_paging set_break set_paging].
  assert (Hq2 : walk_tables (pg_mem s2) (root_of (cr3 s2)) q = Some f).
  { rewrite Hcr2, Hcr1, Em. rewrite (short_walk_leaf _ _ T t _ _ _ q f HT1 HTt eq_refl Hi4 Hiq Hf).
    rewrite (walk_more _ _ _ _ M1), Hsame; [done|done|lia]. }
  assert (Hwf2 : walk_st s2 (phys_to_virt f) = Some (g * 4096)) by by rewrite Hw, decide_True.
  split; [exact Hq2|]. split.
  - intros i Hi. unfold vload. rewrite phys_to_virt_eq by (unfold is_idx in Hi; zdm).
    destruct (offset_page f (8 * i)) as [Hp Hm]; [done|unfold is_idx in Hi; lia|].
    unfold translate. rewrite (walk_page_same_page _ _ _ (phys_to_virt f)).
    2:{ rewrite Hp. f_equal. unfold phys_to_virt, KERNEL_VIRT_OFFSET. rewrite wrap_small by lia. lia. }
    unfold walk_st in Hwf2. rewrite Hwf2. cbn [fmap option_fmap option_map]. rewrite Hm.
    eexists. split; [reflexivity|]. rewrite Em, rd_insert_ne.
    2:{ intros E. destruct (tw_frame _ _ _ HT1 _ _ HTt) as (Hta & _).
        apply slot_inj in E as [-> _]; [congruence|done|by apply Z.mod_mul|done|done]. }
    destruct (M1 (g * 4096 + 8 * i)) as (P & _). rewrite <- P, Hz by done. done.
  - intros T' Hwf'. assert (Hf' : T' !! f = Some q).
    { apply (walk_tables_T _ _ _ (pw_tables _ _ Hwf') q (root_of (cr3 s2)) []); [apply (pw_tables _ _ Hwf')|done|cbn; lia|done]. }
    pose proof (pw_direct_T _ _ Hwf' f q Hf') as Hr'. unfold reach in Hr'. unfold walk_st in Hwf2.
    rewrite Hwf2 in Hr'. injection Hr' as Hr'. rewrite Hr' in HTg. congruence.
Qed.

(** ** Properties *)

(** C10. With at most 512 MiB of memory and 519 free frames, [kernel_main] comes to
    the heap with page tables in order: the invariant holds, at most 519 frames
    are taken, and an address translates exactly when it is below 512 MiB or in
    the direct map of those 512 MiB.  A program may read and write the whole
    image of the kernel: in every entry on the way to it the user and the write
    bit are set, and [paging_is_user_accessible] says so. *)
Theorem memory_ready ks ke mb2 tags st b4 b3 b2 :
  0 ≤ ks ≤ ke → 0x100000 ≤ ke ∧ ke + 0x41000 ≤ 2 ^ 29 → 0 ≤ mb2 < 2 ^ 64 →
  map_ok (all_entries tags) → Forall tag_ok tags → mem_upper_of tags ≤ 2 ^ 29 →
  ∃ p, pfa_init_from_multiboot2 ks ke mb2 tags = Ok p ∧
    (boot_state st ks ke b4 b3 b2 p → (519 ≤ length (free_frames p))%nat →
     ∃ st' T k, setup_tables (KERNEL_VIRT_OFFSET + ke) st = Ok st' ∧ paging_wf st' T ∧
       free_frames (pg_pfa st') = drop k (free_frames p) ∧ (k ≤ 519)%nat ∧
       (∀ va, canonical va → translate (pg_mem st') (cr3 st') va = first_map va) ∧
       ∀ va, 0xffffffff80100000 ≤ va < KERNEL_VIRT_OFFSET + ke →
         user_writable st' va ∧ paging_is_user_accessible va st' = Ok true).
Proof.
  intros Hk Hke Hmb Hmap Htags Hmem.
  destruct (setup_tables_spec ks ke mb2 tags st b4 b3 b2 Hk Hke Hmb Hmap Htags Hmem) as (p & E & H).
  exists p. split; [done|]. intros Hb Hlen.
  destruct (H Hb Hlen) as (st' & T & k & H1 & H2 & H3 & H4 & H5 & _ & H7). eauto 10.
Qed.

Lemma memory_ready_witness :
  ∃ p st' T, boot_pfa = Ok p ∧ setup_tables (KERNEL_VIRT_OFFSET + 0x140000) (boot_machine p) = Ok st' ∧
    paging_wf st' T ∧ translate (pg_mem st') (cr3 st') 0xFFFFFFFF800B8010 = Some 0xB8010 ∧
    user_writable st' 0xFFFFFFFF80120000.
Proof.
  destruct boot_pfa_ok as (p & E & Hlen).
  destruct (memory_ready 0x100000 0x140000 0x180000 boot_tags (boot_machine p)
    0x110000 0x111000 0x112000) as (p' & E' & H);
    [lia|lia|lia|exact boot_map_ok|by repeat constructor|exact boot_memory_small|].
  assert (Ok p = Ok p') as [= <-] by (rewrite <- E; exact E').
  destruct (H (boot_machine_state p) Hlen) as (st' & T & k & E2 & Hwf & _ & _ & Hw & Hu).
  exists p, st', T. split; [exact E|]. split; [exact E2|]. split; [exact Hwf|]. split.
  - rewrite Hw; [reflexivity|right; lia].
  - apply Hu. unfold KERNEL_VIRT_OFFSET. lia.
Defined.

(** The heap starts 64 KiB behind the image, in the direct map.  When the
    frame behind that address is among the first 256 that were free at start, it
    is a page table, and the first page that [VMM::sbrk] maps takes its place in
    the direct map: the processor goes on using the table, the kernel reads an
    empty one and writes to the heap instead, and the invariant of the page
    tables is lost for good. *)
Theorem heap_over_tables ks ke mb2 tags st b4 b3 b2 j :
  0 ≤ ks ≤ ke → 0x100000 ≤ ke ∧ ke + 0x41000 ≤ 2 ^ 29 → 0 ≤ mb2 < 2 ^ 64 →
  map_ok (all_entries tags) → Forall tag_ok tags → mem_upper_of tags ≤ 2 ^ 29 →
  ∃ p, pfa_init_from_multiboot2 ks ke mb2 tags = Ok p ∧
    (boot_state st ks ke b4 b3 b2 p → (520 ≤ length (free_frames p))%nat →
     (j < 256)%nat → free_frames p !! j = Some ((ke + 4095) / PAGE_SIZE + 16) →
     let b := initial_break (KERNEL_VIRT_OFFSET + ke) in
     let f := virt_to_phys b in
     ∃ st' v q, setup_tables (KERNEL_VIRT_OFFSET + ke) st = Ok st' ∧
       sbrk_page (mk_vmm st' b 0) = Ok (inl v) ∧
       walk_tables (pg_mem (vm_paging v)) (root_of (cr3 (vm_paging v))) q = Some f ∧ (length q ≤ 3)%nat ∧
       (∀ i, is_idx i → ∃ e, vload (vm_paging v) (u64 (b + 8 * i)) = Ok e ∧ flag e PTE_PRESENT = false) ∧
       ∀ T, ¬ paging_wf (vm_paging v) T).
Proof.
  intros Hk Hke Hmb Hmap Htags Hmem.
  destruct (setup_tables_spec ks ke mb2 tags st b4 b3 b2 Hk Hke Hmb Hmap Htags Hmem) as (p & E & H).
  exists p. split; [done|]. intros Hb Hlen Hj Hf b f.
  destruct (H Hb ltac:(lia)) as (st' & T & k & E1 & Hwf & Hfr & Hkn & Hw & Htab & _).
  destruct (Htab j _ Hf Hj) as (q & HT & Hq & Hi). change PAGE_SIZE with 4096 in *.
  set (x := ((ke + 4095) / 4096 + 16) * 4096) in *.
  assert (Hx : 0 ≤ x < 2 ^ 29 ∧ x mod 4096 = 0) by (subst x; zdm).
  assert (Eb : b = phys_to_virt x).
  { subst b. rewrite initial_break_eq, kernel_phys by lia. done. }
  assert (Ex : f = x).
  { subst f. rewrite Eb, kernel_phys by lia. unfold virt_to_phys, KERNEL_VIRT_OFFSET.
    rewrite wrap_small by lia. lia. }
  assert (Hr : reach st' x) by (apply (pw_direct_T _ _ Hwf x q); done).
  assert (Hp3 : is_Some (walk_tables (pg_mem st') (root_of (cr3 st')) (path3 (phys_to_virt x)))).
  { unfold reach in Hr. rewrite (walk_page_tables _ _ T) in Hr by apply Hwf. unfold path4 in Hr.
    rewrite walk_tables_app in Hr. destruct (walk_tables _ _ (path3 (phys_to_virt x))); [eauto|done]. }
  destruct (heap_page_hides st' T x q 0 Hwf HT Hq Hi Hr Hp3) as (v & Ev & Hv1 & Hv2 & Hv3).
  { rewrite Hfr. intros Hnil. apply (f_equal length) in Hnil. rewrite length_drop in Hnil. cbn in Hnil. lia. }
  exists st', v, q. rewrite Ex, Eb. split_and!; [done|done|done| |done|done].
  by destruct (tw_frame _ _ _ (pw_tables _ _ Hwf) _ _ HT) as (_ & _ & ?).
Qed.

Lemma boot_page_is_table :
  match boot_pfa with
  | Ok p => (520 <=? length (free_frames p))%nat && bool_decide (free_frames p !! 14%nat = Some ((0x140000 + 4095) / PAGE_SIZE + 16))
  | _ => false
  end = true.
Proof. vm_compute. reflexivity. Qed.

Lemma boot_pfa_tables : ∃ p, boot_pfa = Ok p ∧ (520 ≤ length (free_frames p))%nat ∧
  free_frames p !! 14%nat = Some ((0x140000 + 4095) / PAGE_SIZE + 16).
Proof.
  pose proof boot_page_is_table as H. destruct boot_pfa as [p| | |]; [|discriminate H..].
  apply andb_prop in H as [H1 H2]. apply Nat.leb_le in H1. apply bool_decide_eq_true in H2.
  exists p. split; [reflexivity|]. split; [exact H1|exact H2].
Qed.

(** On a machine with 8 MiB and an image that ends at 0x140000, the page table in
    frame 0x150. *)
Lemma heap_over_tables_witness :
  ∃ p st' v, boot_pfa = Ok p ∧ setup_tables (KERNEL_VIRT_OFFSET + 0x140000) (boot_machine p) = Ok st' ∧
    sbrk_page (mk_vmm st' 0xFFFFFFFF80150000 0) = Ok (inl v) ∧ ∀ T, ¬ paging_wf (vm_paging v) T.
Proof.
  destruct boot_pfa_tables as (p & E & Hlen & Hx).
  destruct (heap_over_tables 0x100000 0x140000 0x180000 boot_tags (boot_machine p)
    0x110000 0x111000 0x112000 14) as (p' & E' & H);
    [lia|lia|lia|exact boot_map_ok|by repeat constructor|exact boot_memory_small|].
  assert (Ok p = Ok p') as [= <-] by (rewrite <- E; exact E').
  assert (Hb : initial_break (KERNEL_VIRT_OFFSET + 0x140000) = 0xFFFFFFFF80150000) by reflexivity.
  destruct (H (boot_machine_state p) Hlen ltac:(lia) Hx) as (st' & v & q & E1 & E2 & _ & _ & _ & Hn).
  rewrite Hb in E2. exists p, st', v. split; [exact E|]. split; [exact E1|]. split; [exact E2|exact Hn].
Defined.

(** ** The boot information and the initial RAM disk *)

Record boot_info : Set := mk_boot_info {
  total_mem_bytes : Z;
  rd_phys : Z;
  rd_size : Z;
  mods_count : Z
}.

(** The body of the loop over the tags; the sizes are 32-bit numbers. *)
Definition scan_tag (b : boot_info) (tag : multiboot_tag) : boot_info :=
  match tag with
  | TagBasicMeminfo mem_lower mem_upper =>
      mk_boot_info (u32 (u32 (mem_lower + mem_upper) * 1024)) (rd_phys b) (rd_size b) (mods_count b)
  | TagModule mod_start mod_end =>
      mk_boot_info (total_mem_bytes b) mod_start (u32 (mod_end - mod_start)) (u32 (mods_count b + 1))
  | _ => b
  end.

Definition scan_tags (tags : list multiboot_tag) : boot_info :=
  foldl scan_tag (mk_boot_info 0 0 0 0) tags.

Definition RAMDISK : Z := 0xFFFFFFFFE0000000.

(** The mapping of the module and the check of its first word; the result is
    [ramdisk_vaddr]. *)
Definition map_ramdisk (phys size : Z) (st : paging) : outcome (Z * paging) :=
  if phys =? 0 then Ok (0, st) else
  let rd_pages := u32 (size + 4095) / 4096 in
  st1 ← for_range (λ i st,
          paging_map_page (u64 (RAMDISK + i * PAGE_SIZE)) (phys + i * PAGE_SIZE) (Z.lor PTE_PRESENT PTE_RW) st)
        (Z.to_nat rd_pages) 0 st;
  w ← vload st1 RAMDISK;
  if negb (u32 w =? Ramfs.KEONFS_MAGIC) then Panic K_ERR_RAMFS_MAGIC_FAILED else Ok (RAMDISK, st1).

Section ramdisk.
Context (st0 : paging) (phys n : Z).
Hypothesis Hphys : 0 < phys ∧ phys mod 4096 = 0 ∧ phys + n * 4096 ≤ 2 ^ 32.
Hypothesis Hn : 0 ≤ n ∧ n * 4096 ≤ 2 ^ 29 - 4096.

(** The state after [i] pages. *)
Record mapped_to (T0 : gmap Z (list Z)) (i : Z) (s : paging) (T : gmap Z (list Z)) : Prop := {
  mt_wf : paging_wf s T;
  mt_window : ∀ va, RAMDISK ≤ va < 2 ^ 64 → not_direct s T va;
  mt_frames : Z.of_nat (length (free_frames (pg_pfa st0))) ≤ Z.of_nat (length (free_frames (pg_pfa s))) + 3 * i;
  mt_walk : ∀ va, canonical va → walk_st s va =
    if decide (RAMDISK ≤ va < RAMDISK + i * 4096) then Some (phys + (va - RAMDISK) / 4096 * 4096)
    else walk_st st0 va;
  mt_words : ∀ f, foreign st0 T0 f → foreign s T f ∧
    ∀ j, is_idx j → rd (pg_mem s) (f + 8 * j) = rd (pg_mem st0) (f + 8 * j)
}.

Lemma ramdisk_step T0 i s T : 0 ≤ i < n → 3 * n + 3 < Z.of_nat (length (free_frames (pg_pfa st0))) →
  mapped_to T0 i s T →
  ∃ s' T', paging_map_page (u64 (RAMDISK + i * PAGE_SIZE)) (phys + i * PAGE_SIZE) (Z.lor PTE_PRESENT PTE_RW) s = Ok s' ∧
    mapped_to T0 (i + 1) s' T'.
Proof.
  intros Hi Hfree [M1 M2 M3 M4 M5]. change PAGE_SIZE with 4096. unfold RAMDISK in *. rewrite wrap_small by lia.
  set (va := 0xFFFFFFFFE0000000 + i * 4096) in *.
  destruct (map_page_foreign s T va (phys + i * 4096) (Z.lor PTE_PRESENT PTE_RW) M1)
    as (s' & T' & E & Hwf & Hnd & Hl & Hw & Hfor); [lia|done|apply M2; subst va; lia|lia|].
  exists s', T'. split; [exact E|]. constructor; unfold RAMDISK.
  - done.
  - intros va' Hva'. by apply Hnd, M2.
  - lia.
  - intros va' Hc. rewrite Hw.
    assert (Hcan : canonical va) by (right; subst va; lia).
    pose proof (canonical_page va va' Hcan Hc) as Hp.
    destruct (decide (path4 va' = path4 va)) as [Hd|Hd].
    + apply Hp in Hd. rewrite decide_True by (subst va; zdm).
      replace ((phys + i * 4096) mod 4096) with 0 by zdm. f_equal.
      assert ((va' - 0xFFFFFFFFE0000000) / 4096 = i) as -> by (subst va; zdm). lia.
    + rewrite M4 by done. assert (Hne : va' / 4096 ≠ va / 4096) by (intros ?; by apply Hd, Hp).
      destruct (decide (0xFFFFFFFFE0000000 ≤ va' < 0xFFFFFFFFE0000000 + i * 4096)).
      * by rewrite !decide_True by lia.
      * rewrite !decide_False; [done|subst va; zdm|lia].
  - intros f Hf. destruct (M5 f Hf) as [Hf1 Hw1]. destruct (Hfor f Hf1) as [Hf2 Hw2].
    split; [done|]. intros j Hj. by rewrite Hw2, Hw1.
Qed.

Lemma ramdisk_pages T0 : paging_wf st0 T0 → (∀ va, RAMDISK ≤ va < 2 ^ 64 → not_direct st0 T0 va) →
  3 * n + 3 < Z.of_nat (length (free_frames (pg_pfa st0))) →
  ∃ s T, for_range (λ i st,
      paging_map_page (u64 (RAMDISK + i * PAGE_SIZE)) (phys + i * PAGE_SIZE) (Z.lor PTE_PRESENT PTE_RW) st)
    (Z.to_nat n) 0 st0 = Ok s ∧ mapped_to T0 n s T.
Proof.
  intros Hwf Hwin Hfree.
  destruct (for_range_rule (λ i s, ∃ T, mapped_to T0 i s T) (λ i st,
      paging_map_page (u64 (RAMDISK + i * PAGE_SIZE)) (phys + i * PAGE_SIZE) (Z.lor PTE_PRESENT PTE_RW) st)
    (Z.to_nat n) 0 st0) as (s & E & T & HT).
  - exists T0. constructor; [done|done|lia| |done]. intros va Hc. by rewrite decide_False by lia.
  - intros i s Hi (T & HT). rewrite Z2Nat.id in Hi by lia. apply ramdisk_step in HT as (s' & T' & E & HT'); [eauto|lia|done].
  - rewrite Z2Nat.id, Z.add_0_l in HT by lia. eauto.
Qed.
End ramdisk.

(** C12. A module that the allocator does not hand out is mapped as the RAM disk at
    [0xFFFFFFFFE0000000]: with frames for the tables, [kernel_main] maps all its
    pages there, in order, changes no other translation, below or above the pages of
    the module, and no byte of it, and goes on exactly when its first word is the magic
    number, with a panic otherwise.  The page tables are assumed to be well formed
    before; [heap_over_tables] shows how the place of the heap can break that. *)
Theorem ramdisk_mapped st T phys size :
  paging_wf st T → (∀ va, RAMDISK ≤ va < 2 ^ 64 → not_direct st T va) →
  0 < phys → phys mod 4096 = 0 → 0 < size ≤ 2 ^ 28 → phys + size ≤ 2 ^ 31 →
  3 * ((size + 4095) / 4096) + 3 < Z.of_nat (length (free_frames (pg_pfa st))) →
  (∀ off, 0 ≤ off < size → foreign st T (phys + off / 4096 * 4096)) →
  ∃ st' T', paging_wf st' T' ∧
    map_ramdisk phys size st =
      (if u32 (rd (pg_mem st) phys) =? Ramfs.KEONFS_MAGIC then Ok (RAMDISK, st') else Panic K_ERR_RAMFS_MAGIC_FAILED) ∧
    (∀ off, 0 ≤ off < size → translate (pg_mem st') (cr3 st') (RAMDISK + off) = Some (phys + off) ∧
       (off mod 8 = 0 → rd (pg_mem st') (phys + off) = rd (pg_mem st) (phys + off))) ∧
    ∀ va, canonical va → ¬ (RAMDISK ≤ va < RAMDISK + (size + 4095) / 4096 * 4096) →
      translate (pg_mem st') (cr3 st') va = translate (pg_mem st) (cr3 st) va.
Proof.
  intros Hwf Hwin H0 Ha Hsz Hend Hfree Hfor. set (n := (size + 4095) / 4096) in *.
  assert (Hn : 0 ≤ n ∧ n * 4096 ≤ 2 ^ 29 - 4096 ∧ size ≤ n * 4096 ∧ phys + n * 4096 ≤ 2 ^ 32) by (subst n; zdm).
  destruct (ramdisk_pages st phys n) with (T0 := T) as (s & T' & E & M); [lia|lia|done|done|lia|].
  assert (Htr : ∀ off, 0 ≤ off < size → translate (pg_mem s) (cr3 s) (RAMDISK + off) = Some (phys + off)).
  { intros off Ho. rewrite translate_walk, (mt_walk _ _ _ _ _ _ M) by (right; unfold RAMDISK; lia).
    rewrite decide_True by lia. cbn [fmap option_fmap option_map]. f_equal.
    replace (RAMDISK + off - RAMDISK) with off by lia. unfold RAMDISK. zdm. }
  assert (Hrd : ∀ off, 0 ≤ off < size → off mod 8 = 0 → rd (pg_mem s) (phys + off) = rd (pg_mem st) (phys + off)).
  { intros off Ho H8. destruct (mt_words _ _ _ _ _ _ M _ (Hfor off Ho)) as [_ Hw].
    specialize (Hw (off mod 4096 / 8)).
    replace (phys + off / 4096 * 4096 + 8 * (off mod 4096 / 8)) with (phys + off) in Hw by zdm.
    apply Hw. unfold is_idx. zdm. }
  exists s, T'. split; [apply M|]. split; [|split].
  - unfold map_ramdisk. rewrite (proj2 (Z.eqb_neq phys 0)) by lia. cbv zeta.
    rewrite (wrap_small _ (size + 4095)) by lia. fold n. rewrite (bind_of_Ok _ _ _ E).
    unfold vload. pose proof (Htr 0 ltac:(lia)) as Ht0. rewrite Z.add_0_r in Ht0. rewrite Ht0. run.
    pose proof (Hrd 0 ltac:(lia) eq_refl) as Hr0. rewrite !Z.add_0_r in Hr0. rewrite Z.add_0_r, Hr0.
    by destruct (_ =? _).
  - auto.
  - intros va Hc Hva. rewrite !translate_walk, (mt_walk _ _ _ _ _ _ M) by done. by rewrite decide_False by lia.
Qed.

(** The small machine with a module in frame 5. *)
Definition module_machine : paging :=
  set_mem (<[0x5000 := Ramfs.KEONFS_MAGIC]> (pg_mem demo_paging)) (set_pfa (mk_pfa [0xFFFF003F] 1 16 6) demo_paging).

Lemma paging_wf_fewer st T p :
  paging_wf st T → pfa_wf p → (∀ g, g ∈ free_frames p → g ∈ free_frames (pg_pfa st)) → paging_wf (set_pfa p st) T.
Proof.
  intros [W1 W2 W3 W4 W5 W6] Hp Hsub. constructor; cbn [set_pfa pg_pfa]; try done.
  - intros f q Hf Hin. by apply (W3 f q Hf), Hsub.
  - intros g Hg. by apply W4, Hsub.
  - intros g Hg. by apply W6, Hsub.
Qed.

Lemma paging_wf_word st T f v : paging_wf st T → f mod 4096 = 0 → T !! f = None →
  paging_wf (set_mem (<[f := v]> (pg_mem st)) st) T.
Proof.
  intros Hwf Ha HT. assert (Hag : tables_agree (pg_mem st) T (<[f := v]> (pg_mem st))).
  { intros g q i Hg Hi. apply rd_insert_ne. intros E.
    destruct (tw_frame _ _ _ (pw_tables _ _ Hwf) _ _ Hg) as (Hga & _).
    rewrite <- (Z.add_0_r f) in E. change 0 with (8 * 0) in E at 1.
    apply slot_inj in E as [-> _]; [congruence|done|done|by unfold is_idx|done]. }
  apply (paging_wf_same st); [done|by apply (same_space_agree st T); [apply Hwf|]| |done].
  cbn [set_mem pg_mem cr3]. by apply (tables_wf_agree _ _ _ (pw_tables _ _ Hwf)).
Qed.

Lemma module_free : free_frames (pg_pfa module_machine) = seqZ 6 10.
Proof. vm_compute. reflexivity. Qed.

Lemma module_tables f : is_Some (demo_tables !! f) → 0x1000 ≤ f ≤ 0x4000.
Proof.
  intros [p Hf%demo_T_inv].
  repeat (apply elem_of_cons in Hf as [[= -> ->]|Hf]; [lia|]). by apply elem_of_nil in Hf.
Qed.

Lemma module_no_table : demo_tables !! 0x5000 = None.
Proof. by vm_compute. Qed.

Lemma module_machine_wf : paging_wf module_machine demo_tables.
Proof.
  apply (paging_wf_word (set_pfa (mk_pfa [0xFFFF003F] 1 16 6) demo_paging)); [|reflexivity|apply module_no_table].
  assert (Hfr : free_frames (mk_pfa [0xFFFF003F] 1 16 6) = seqZ 6 10) by (vm_compute; reflexivity).
  apply paging_wf_fewer; [apply demo_paging_wf| |].
  - constructor; rewrite ?Hfr; [cbn; lia|reflexivity|cbn; lia|cbn; lia| |reflexivity].
    cbn [frame_bitmap]. repeat constructor; lia.
  - intros g. rewrite Hfr, demo_free, !elem_of_seqZ. lia.
Qed.

Lemma ramdisk_mapped_witness :
  ∃ st', map_ramdisk 0x5000 0x100 module_machine = Ok (RAMDISK, st') ∧
    translate (pg_mem st') (cr3 st') (RAMDISK + 0x20) = Some 0x5020.
Proof.
  destruct (ramdisk_mapped module_machine demo_tables 0x5000 0x100) as (st' & T' & _ & E & Hw & _).
  - apply module_machine_wf.
  - apply (window_above module_machine). intros f [Hf%module_tables|[Ha Hf]]; unfold KERNEL_VIRT_OFFSET, RAMDISK; [lia|].
    rewrite module_free, elem_of_seqZ in Hf. zdm.
  - lia.
  - reflexivity.
  - lia.
  - lia.
  - rewrite module_free. vm_compute. reflexivity.
  - intros off Hoff. replace (off / 4096) with 0 by zdm. split_and!; [reflexivity|apply module_no_table|].
    rewrite module_free, elem_of_seqZ. change ((0x5000 + 0 * 4096) / 4096) with 5. lia.
  - exists st'. split; [exact E|]. apply (Hw 0x20). lia.
Defined.

(** The size of the memory that the boot loader reports is computed with 32 bits:
    4 GiB count as none, and the line with the size is not printed. *)
Lemma meminfo_wraps upper : 0 ≤ upper → 640 + upper = 2 ^ 22 →
  total_mem_bytes (scan_tags [TagBasicMeminfo 640 upper]) = 0.
Proof.
  intros H0 H. cbn [scan_tags foldl scan_tag total_mem_bytes]. rewrite H. reflexivity.
Qed.

(** Of several modules the last one becomes the RAM disk. *)
Lemma last_module_wins tags s e :
  let b := scan_tags (tags ++ [TagModule s e]) in rd_phys b = s ∧ rd_size b = u32 (e - s).
Proof. unfold scan_tags. by rewrite foldl_app. Qed.
End KernelMemory.
