(* ===== verification/Fat.v ===== *)
(** * FAT32: the file allocation table (fs/fat32_vfs.cpp: FAT32Manager)

    The state of [fat32_inst] is where the partition starts and the fields of the
    BPB that the code uses.  A cluster's entry of the table is [entry]; the
    chains of entries are the contents of files and directories.

    The loops over chains get as fuel one more than the number of entries of
    the table: more steps would visit a cluster twice. *)

From S2P Require Import Prelude Bytes Block.

Module Fat.
Import Bytes Block.

Record FAT32_BPB : Set := mk_bpb {
  sectors_per_cluster : Z;
  reserved_sector_count : Z;
  table_count : Z;
  table_size_32 : Z;
  root_cluster : Z
}.

Record FAT32Manager : Set := mk_fat { partition_lba : Z; bpb : FAT32_BPB }.

(** The packed structure at the start of the boot sector. *)
Definition load_bpb (sector : list Z) : outcome FAT32_BPB :=
  spc ← get8 13 sector;
  reserved ← get16 14 sector;
  tables ← get8 16 sector;
  size ← get32 36 sector;
  root ← get32 44 sector;
  Ok (mk_bpb spc reserved tables size root).

(** The mark of the end of a chain, and the 28 bits of an entry. *)
Definition END_OF_CHAIN : Z := 0x0FFFFFF8.
Definition ENTRY_MASK : Z := 0x0FFFFFFF.

Definition cluster_size (f : FAT32Manager) : Z := sectors_per_cluster (bpb f) * 512.
Definition fuel (f : FAT32Manager) : nat := S (Z.to_nat (table_size_32 (bpb f) * 128)).

Section manager.
Context {W : Type} `{!BlockDevice W}.

(** The trimmed volume label is a local variable that nothing reads. *)
Definition init (lba : Z) : kernel W FAT32Manager :=
  sector_buffer ← read_sectors lba 1;
  b ← lift (load_bpb sector_buffer);
  mret (mk_fat lba b).

Definition cluster_to_lba (f : FAT32Manager) (cluster : Z) : Z :=
  let fat_size := table_size_32 (bpb f) in
  let data_lba := u32 (partition_lba f + reserved_sector_count (bpb f) + table_count (bpb f) * fat_size) in
  u32 (data_lba + u32 (cluster - 2) * sectors_per_cluster (bpb f)).

Definition fat_offset (cluster : Z) : Z := u32 (cluster * 4).
Definition fat_sector (f : FAT32Manager) (cluster : Z) : Z :=
  u32 (partition_lba f + reserved_sector_count (bpb f) + fat_offset cluster / 512).

Definition get_next_cluster (f : FAT32Manager) (current_cluster : Z) : kernel W Z :=
  buffer ← read_sectors (fat_sector f current_cluster) 1;
  v ← lift (get32 (fat_offset current_cluster mod 512) buffer);
  mret (Z.land v ENTRY_MASK).

(** Reads the sector of an entry, stores [v] there and writes it back. *)
Definition put_entry (f : FAT32Manager) (cluster v : Z) : kernel W unit :=
  buffer ← read_sectors (fat_sector f cluster) 1;
  buffer' ← lift (put32 (fat_offset cluster mod 512) v buffer);
  write_sectors (fat_sector f cluster) 1 buffer'.

Definition set_next_cluster (f : FAT32Manager) (current_cluster next_cluster : Z) : kernel W unit :=
  put_entry f current_cluster (Z.land next_cluster ENTRY_MASK).

(** The search of a sector for a free entry, from entry [j] on. *)
Fixpoint scan_entries (n : nat) (j : Z) (buffer : list Z) : outcome (option Z) :=
  match n with
  | O => Ok None
  | S n' =>
      v ← get32 (4 * j) buffer;
      if Z.land v ENTRY_MASK =? 0 then Ok (Some j) else scan_entries n' (j + 1) buffer
  end.

(** The [n] sectors of the table from [i] on. *)
Fixpoint scan_table (f : FAT32Manager) (n : nat) (i : Z) : kernel W Z :=
  match n with
  | O => mret 0
  | S n' =>
      let sector_lba := u32 (partition_lba f + reserved_sector_count (bpb f) + i) in
      buffer ← read_sectors sector_lba 1;
      r ← lift (scan_entries 128 0 buffer);
      match r with
      | Some j =>
          buffer' ← lift (put32 (4 * j) ENTRY_MASK buffer);
          write_sectors sector_lba 1 buffer';;
          mret (u32 (i * 128 + j))
      | None => scan_table f n' (i + 1)
      end
  end.

Definition allocate_cluster (f : FAT32Manager) : kernel W Z :=
  scan_table f (Z.to_nat (table_size_32 (bpb f))) 0.

(** The four entries of the partition table. *)
Fixpoint scan_partitions (n : nat) (i : Z) (sector : list Z) : outcome Z :=
  match n with
  | O => Ok 0
  | S n' =>
      type ← get8 (446 + 16 * i + 4) sector;
      if (type =? 0x0B) || (type =? 0x0C) then get32 (446 + 16 * i + 8) sector
      else scan_partitions n' (i + 1) sector
  end.

Definition find_fat32_partition : kernel W Z :=
  sector ← read_sectors 0 1; lift (scan_partitions 4 0 sector).

Fixpoint free_loop (n : nat) (f : FAT32Manager) (cluster : Z) : kernel W unit :=
  if (cluster <? END_OF_CHAIN) && negb (cluster =? 0) then
    match n with
    | O => lift OutOfFuel
    | S n' => next ← get_next_cluster f cluster; put_entry f cluster 0;; free_loop n' f next
    end
  else mret ().

Definition free_cluster_chain (f : FAT32Manager) (cluster : Z) : kernel W unit :=
  if cluster <? 2 then mret () else free_loop (fuel f) f cluster.
End manager.

(** ** The file allocation table on the disk *)

Definition fat_base (f : FAT32Manager) : Z := 512 * (partition_lba f + reserved_sector_count (bpb f)).
Definition data_lba (f : FAT32Manager) : Z :=
  partition_lba f + reserved_sector_count (bpb f) + table_count (bpb f) * table_size_32 (bpb f).
Definition entries (f : FAT32Manager) : Z := 128 * table_size_32 (bpb f).

(** The table and the reserved sectors are on the disk, and the disk is within the
    reach of the driver. *)
Record geometry_ok (f : FAT32Manager) (d : list Z) : Prop := {
  go_partition : 0 ≤ partition_lba f;
  go_reserved : 0 ≤ reserved_sector_count (bpb f);
  go_tables : 1 ≤ table_count (bpb f);
  go_size : 1 ≤ table_size_32 (bpb f);
  go_entries : entries f ≤ END_OF_CHAIN;
  go_cluster : 1 ≤ sectors_per_cluster (bpb f) ≤ 255;
  go_data : 512 * data_lba f ≤ len d;
  go_disk : len d ≤ 512 * 2 ^ 28;
  go_bytes : Forall byte d
}.

Definition entry (f : FAT32Manager) (d : list Z) (c : Z) : Z :=
  Z.land (of_le (sub (fat_base f + 4 * c) 4 d)) ENTRY_MASK.
Definition set_entry (f : FAT32Manager) (c v : Z) (d : list Z) : list Z :=
  splice (fat_base f + 4 * c) (le 4 v) d.

(** A cluster with an entry of its own whose sectors are on the disk. *)
Definition valid (f : FAT32Manager) (d : list Z) (c : Z) : Prop :=
  2 ≤ c < entries f ∧ 512 * (data_lba f + (c - 1) * sectors_per_cluster (bpb f)) ≤ len d.
Definition cluster_addr (f : FAT32Manager) (c : Z) : Z :=
  512 * (data_lba f + (c - 2) * sectors_per_cluster (bpb f)).
Definition cluster_data (f : FAT32Manager) (d : list Z) (c : Z) : list Z :=
  sub (cluster_addr f c) (cluster_size f) d.

Section table.
Context (f : FAT32Manager).
Implicit Types d : list Z.

Lemma mask28 v : Z.land v ENTRY_MASK = v mod 2 ^ 28.
Proof. unfold ENTRY_MASK. change 0x0FFFFFFF with (Z.ones 28). by rewrite Z.land_ones by lia. Qed.

Lemma entry_range d c : 0 ≤ entry f d c < 2 ^ 28.
Proof. unfold entry. rewrite mask28. by apply Z.mod_pos_bound. Qed.

Lemma table_bounds d c : geometry_ok f d → 0 ≤ c < entries f →
  0 ≤ fat_base f ∧ fat_base f + 4 * c + 4 ≤ 512 * data_lba f ∧ 512 * data_lba f ≤ len d ∧
  len d ≤ 512 * 2 ^ 28.
Proof.
  intros [G1 G2 G3 G4 G5 G6 G7 G8 _] Hc. unfold fat_base, data_lba, entries in *. split_and!; nia.
Qed.

Lemma geometry_len d d' : geometry_ok f d → len d' = len d → Forall byte d' → geometry_ok f d'.
Proof. intros [] E Hb. by constructor; rewrite ?E. Qed.

Lemma valid_len d d' c : len d' = len d → valid f d c → valid f d' c.
Proof. unfold valid. by intros ->. Qed.

Lemma len_set_entry d c v : geometry_ok f d → 0 ≤ c < entries f → len (set_entry f c v d) = len d.
Proof.
  intros Hg Hc. destruct (table_bounds d c Hg Hc) as (B1 & B2 & B3 & B4).
  apply len_splice; rewrite ?len_le; lia.
Qed.

Lemma geometry_set d c v : geometry_ok f d → 0 ≤ c < entries f → geometry_ok f (set_entry f c v d).
Proof.
  intros Hg Hc. eapply geometry_len; [done|by apply len_set_entry|].
  apply Forall_splice; [apply le_bytes|apply Hg].
Qed.

Lemma entry_set_same d c v : geometry_ok f d → 0 ≤ c < entries f →
  entry f (set_entry f c v d) c = v mod 2 ^ 28.
Proof.
  intros Hg Hc. destruct (table_bounds d c Hg Hc) as (B1 & B2 & B3 & B4).
  unfold entry, set_entry. rewrite sub_splice_le by lia.
  rewrite of_le_le, mask28. change (8 * Z.of_nat 4) with 32. change (2 ^ 32) with (2 ^ 4 * 2 ^ 28). zdm.
Qed.

Lemma entry_set_other d c c' v : geometry_ok f d → 0 ≤ c < entries f → 0 ≤ c' < entries f → c ≠ c' →
  entry f (set_entry f c v d) c' = entry f d c'.
Proof.
  intros Hg Hc Hc' Hne. destruct (table_bounds d c Hg Hc) as (B1 & B2 & B3 & B4).
  unfold entry, set_entry. rewrite sub_splice_disjoint; rewrite ?len_le; (done || lia).
Qed.

Lemma cluster_bounds d c : geometry_ok f d → valid f d c →
  512 * data_lba f ≤ cluster_addr f c ∧ cluster_addr f c + cluster_size f ≤ len d ∧ 0 < cluster_size f ∧
  0 ≤ data_lba f.
Proof.
  intros [G1 G2 G3 G4 G5 G6 G7 G8 _] [Hc Hv]. unfold cluster_addr, cluster_size, data_lba in *.
  split_and!; nia.
Qed.

Lemma cluster_disjoint c c' : 1 ≤ sectors_per_cluster (bpb f) → c ≠ c' →
  cluster_addr f c + cluster_size f ≤ cluster_addr f c' ∨
  cluster_addr f c' + cluster_size f ≤ cluster_addr f c.
Proof. intros. unfold cluster_addr, cluster_size. nia. Qed.

Lemma data_set_entry d c c' v : geometry_ok f d → 0 ≤ c < entries f → valid f d c' →
  cluster_data f (set_entry f c v d) c' = cluster_data f d c'.
Proof.
  intros Hg Hc Hv. destruct (table_bounds d c Hg Hc) as (B1 & B2 & B3 & B4).
  destruct (cluster_bounds d c' Hg Hv) as (C1 & C2 & C3 & C4).
  unfold cluster_data, set_entry. apply sub_splice_disjoint; rewrite ?len_le; lia.
Qed.

(** Addresses of sectors. *)
Lemma cluster_to_lba_spec d c : geometry_ok f d → valid f d c →
  SECTOR * cluster_to_lba f c = cluster_addr f c ∧
  sectors_ok (cluster_to_lba f c) (sectors_per_cluster (bpb f)) d.
Proof.
  intros Hg Hv. destruct (cluster_bounds d c Hg Hv) as (C1 & C2 & C3 & C4).
  destruct Hg as [G1 G2 G3 G4 G5 G6 G7 G8 _]. destruct Hv as [Hc Hv].
  assert (E : cluster_to_lba f c = data_lba f + (c - 2) * sectors_per_cluster (bpb f)).
  { unfold cluster_to_lba. fold (data_lba f). unfold cluster_addr, END_OF_CHAIN in *.
    rewrite (wrap_small 32 (c - 2)) by lia. rewrite (wrap_small 32 (data_lba f)) by lia. apply wrap_small. lia. }
  unfold sectors_ok, cluster_addr, SECTOR, cluster_size in *. rewrite E. split_and!; lia.
Qed.

Lemma fat_sector_spec d c : geometry_ok f d → 0 ≤ c < entries f →
  fat_offset c = 4 * c ∧ SECTOR * fat_sector f c = fat_base f + 4 * c - (4 * c) mod 512 ∧
  0 ≤ (4 * c) mod 512 ∧ (4 * c) mod 512 + 4 ≤ 512 ∧ sectors_ok (fat_sector f c) 1 d.
Proof.
  intros Hg Hc. pose proof (table_bounds d c Hg Hc) as (B1 & B2 & B3 & B4).
  destruct Hg as [G1 G2 G3 G4 G5 G6 G7 G8 _].
  assert (Eo : fat_offset c = 4 * c) by (unfold fat_offset, END_OF_CHAIN in *; rewrite wrap_small; lia).
  pose proof (Z.div_mod (4 * c) 512 ltac:(lia)) as Ed. pose proof (Z.mod_pos_bound (4 * c) 512 ltac:(lia)).
  assert (Es : fat_sector f c = partition_lba f + reserved_sector_count (bpb f) + 4 * c / 512).
  { unfold fat_sector. rewrite Eo. apply wrap_small. unfold fat_base in *. lia. }
  assert ((4 * c) mod 512 + 4 ≤ 512) by zdm.
  unfold sectors_ok, SECTOR. rewrite Es, Eo. unfold fat_base in *.
  assert (4 * c / 512 < table_size_32 (bpb f)) by (apply Z.div_lt_upper_bound; unfold entries in *; lia).
  assert (0 ≤ 4 * c / 512) by (apply Z.div_pos; lia).
  unfold data_lba in *. split_and!; nia.
Qed.
End table.

(** ** The operations *)

Section operations.
Context {W : Type} `{!BlockDevice W, !Allocator W, !StoreLaws W}.
Context (f : FAT32Manager).
Implicit Types s : store.

Lemma runs_get_next s c : geometry_ok f (disk s) → 0 ≤ c < entries f →
  runs (get_next_cluster f c) s (entry f (disk s) c) s.
Proof.
  intros Hg Hc. destruct (fat_sector_spec f (disk s) c Hg Hc) as (Eo & Es & H0 & H1 & Hs).
  destruct (table_bounds f (disk s) c Hg Hc) as (B1 & B2 & B3 & B4). unfold get_next_cluster.
  eapply runs_bind; [by apply runs_read|]. rewrite Eo.
  assert (El : len (sub (SECTOR * fat_sector f c) (SECTOR * 1) (disk s)) = 512).
  { rewrite len_sub; unfold SECTOR in *; lia. }
  eapply runs_lift; [apply get_le_ok; lia|].
  rewrite sub_sub by (unfold SECTOR in *; lia). rewrite Es.
  replace (fat_base f + 4 * c - (4 * c) mod 512 + (4 * c) mod 512) with (fat_base f + 4 * c) by lia.
  apply runs_ret.
Qed.

(** Changing part of a sector. *)
Lemma runs_write_part s lba p bs :
  sectors_ok lba 1 (disk s) → Forall byte (disk s) → Forall byte bs → 0 ≤ p → p + len bs ≤ 512 →
  runs (write_sectors lba 1 (splice p bs (sub (SECTOR * lba) (SECTOR * 1) (disk s)))) s ()
    (set_disk (splice (SECTOR * lba + p) bs (disk s)) s).
Proof.
  intros Hs Hd Hb H0 H1. destruct Hs as (L1 & L2 & L3 & L4). unfold SECTOR in *.
  assert (El : len (sub (512 * lba) (512 * 1) (disk s)) = 512) by (rewrite len_sub; lia).
  rewrite <- (splice_splice_sub (512 * lba) (512 * 1)) by lia.
  apply runs_write; [by unfold sectors_ok, SECTOR|rewrite len_splice; unfold SECTOR; lia|].
  by apply Forall_splice, Forall_sub.
Qed.

Lemma runs_put_entry s c v : geometry_ok f (disk s) → 0 ≤ c < entries f →
  runs (put_entry f c v) s () (set_disk (set_entry f c v (disk s)) s).
Proof.
  intros Hg Hc. destruct (fat_sector_spec f (disk s) c Hg Hc) as (Eo & Es & H0 & H1 & Hs).
  destruct (table_bounds f (disk s) c Hg Hc) as (B1 & B2 & B3 & B4). unfold put_entry.
  eapply runs_bind; [by apply runs_read|]. rewrite Eo.
  eapply runs_lift; [apply put_le_ok; [lia|rewrite len_sub; unfold SECTOR in *; lia]|].
  unfold set_entry.
  replace (fat_base f + 4 * c) with (SECTOR * fat_sector f c + (4 * c) mod 512) by lia.
  apply runs_write_part; [done|apply Hg|apply le_bytes|done|rewrite len_le; lia].
Qed.

Lemma runs_set_next s c v : geometry_ok f (disk s) → 0 ≤ c < entries f →
  runs (set_next_cluster f c v) s () (set_disk (set_entry f c (Z.land v ENTRY_MASK) (disk s)) s).
Proof. apply runs_put_entry. Qed.

(** The table sector with the entries from [128 * i] on. *)
Definition table_sector (d : list Z) (i : Z) : list Z := sub (fat_base f + 512 * i) 512 d.

Lemma table_sector_entry d i j : geometry_ok f d → 0 ≤ i < table_size_32 (bpb f) → 0 ≤ j < 128 →
  get32 (4 * j) (table_sector d i) = Ok (of_le (sub (fat_base f + 4 * (i * 128 + j)) 4 d)).
Proof.
  intros Hg Hi Hj. destruct (table_bounds f d (i * 128 + j) Hg) as (B1 & B2 & B3 & B4); [unfold entries; lia|].
  destruct (table_bounds f d (i * 128 + 127) Hg) as (_ & B2' & _ & _); [unfold entries; lia|].
  unfold table_sector. rewrite get_le_ok by (rewrite ?len_sub; lia). rewrite sub_sub by lia.
  do 3 f_equal. lia.
Qed.

(** The first free entry of a sector. *)
Lemma scan_entries_spec d i n : ∀ j, geometry_ok f d → 0 ≤ i < table_size_32 (bpb f) → 0 ≤ j →
  j + Z.of_nat n = 128 →
  ∃ r, scan_entries n j (table_sector d i) = Ok r ∧
    match r with
    | Some k => j ≤ k < 128 ∧ entry f d (i * 128 + k) = 0 ∧
        ∀ k', j ≤ k' < k → entry f d (i * 128 + k') ≠ 0
    | None => ∀ k', j ≤ k' < 128 → entry f d (i * 128 + k') ≠ 0
    end.
Proof.
  induction n as [|n IH]; intros j Hg Hi Hj Hn; cbn [scan_entries].
  { exists None. split; [done|]. intros k Hk. lia. }
  rewrite table_sector_entry by (done || lia). run. fold (entry f d (i * 128 + j)).
  destruct (Z.eqb_spec (entry f d (i * 128 + j)) 0) as [E|E].
  { exists (Some j). split; [done|]. split_and!; [lia|lia|done|]. intros k Hk. lia. }
  destruct (IH (j + 1)) as (r & Er & Hr); [done|done|lia|lia|]. exists r. split; [done|].
  assert (Hj' : ∀ k' hi, (j + 1 ≤ k' < hi → entry f d (i * 128 + k') ≠ 0) →
    j ≤ k' < hi → entry f d (i * 128 + k') ≠ 0).
  { intros k' hi H Hk'. destruct (decide (k' = j)) as [->|]; [done|]. apply H. lia. }
  destruct r as [k|]; [destruct Hr as (R1 & R2 & R3); split_and!; [lia|lia|done|]|];
    intros k' Hk'; eapply Hj'; eauto.
Qed.

Definition no_free_entry (d : list Z) (lo hi : Z) : Prop := ∀ c, lo ≤ c < hi → entry f d c ≠ 0.

(** The cluster that an allocation answers and what it does to the table. *)
Definition allocates (s : store) (c : Z) (s' : store) : Prop :=
  (0 ≤ c < entries f ∧ entry f (disk s) c = 0 ∧ no_free_entry (disk s) 0 c ∧
    s' = set_disk (set_entry f c ENTRY_MASK (disk s)) s) ∨
  (c = 0 ∧ no_free_entry (disk s) 0 (entries f) ∧ s' = s).

Lemma scan_table_spec s n : ∀ i, geometry_ok f (disk s) → 0 ≤ i →
  i + Z.of_nat n = table_size_32 (bpb f) → no_free_entry (disk s) 0 (i * 128) →
  ∃ c s', allocates s c s' ∧ runs (scan_table f n i) s c s'.
Proof.
  induction n as [|n IH]; intros i Hg Hi Hn Hfree; cbn [scan_table].
  { exists 0, s. split; [|apply runs_ret]. right. split_and!; [done| |done].
    intros c Hc. apply Hfree. unfold entries in Hc. lia. }
  destruct (table_bounds f (disk s) (i * 128 + 127) Hg) as (B1 & B2 & B3 & B4); [unfold entries; lia|].
  pose proof Hg as [G1 G2 G3 G4 G5 G6 G7 G8 G9]. unfold fat_base in B1, B2.
  rewrite (wrap_small 32 (_ + i)) by lia. set (lba := partition_lba f + reserved_sector_count (bpb f) + i).
  assert (Hs : sectors_ok lba 1 (disk s)) by (unfold sectors_ok, SECTOR, lba; lia).
  assert (Esec : sub (SECTOR * lba) (SECTOR * 1) (disk s) = table_sector (disk s) i).
  { unfold table_sector, fat_base, SECTOR, lba. f_equal. lia. }
  destruct (scan_entries_spec (disk s) i 128 0 Hg) as (r & Er & Hr); [lia..|]. destruct r as [j|].
  - destruct Hr as (Hj & E0 & Hmin). exists (i * 128 + j), (set_disk (set_entry f (i * 128 + j) ENTRY_MASK (disk s)) s).
    split.
    { left. split_and!; [lia|unfold entries; lia|done| |done]. intros c Hc.
      destruct (decide (c < i * 128)); [by apply Hfree; lia|].
      replace c with (i * 128 + (c - i * 128)) by lia. apply Hmin. lia. }
    eapply runs_bind; [by apply runs_read|]. rewrite Esec. eapply runs_lift; [exact Er|].
    eapply runs_lift; [apply put_le_ok; [lia|unfold table_sector, fat_base; rewrite len_sub; lia]|].
    rewrite <- Esec. eapply runs_bind.
    { apply runs_write_part; [done|done|apply le_bytes|lia|rewrite len_le; lia]. }
    rewrite (wrap_small 32) by (unfold entries, END_OF_CHAIN in *; lia). unfold set_entry.
    replace (fat_base f + 4 * (i * 128 + j)) with (SECTOR * lba + 4 * j) by (unfold fat_base, SECTOR, lba; lia).
    apply runs_ret.
  - destruct (IH (i + 1)) as (c & s' & Ha & Hrun); [done|lia|lia| |].
    { intros c Hc. destruct (decide (c < i * 128)); [by apply Hfree; lia|].
      replace c with (i * 128 + (c - i * 128)) by lia. apply Hr. lia. }
    exists c, s'. split; [done|]. eapply runs_bind; [by apply runs_read|]. rewrite Esec.
    eapply runs_lift; [exact Er|]. exact Hrun.
Qed.

Lemma runs_allocate s : geometry_ok f (disk s) →
  ∃ c s', allocates s c s' ∧ runs (allocate_cluster f) s c s'.
Proof.
  intros Hg. apply scan_table_spec; [done|lia|destruct Hg; lia|]. intros c Hc. lia.
Qed.

(** ** Chains *)

(** The clusters of a chain that ends. *)
Inductive chain (d : list Z) : Z → list Z → Prop :=
| chain_last c : valid f d c → END_OF_CHAIN ≤ entry f d c → chain d c [c]
| chain_next c l : valid f d c → chain d (entry f d c) l → chain d c (c :: l).

Lemma chain_valid d c l : chain d c l → valid f d c.
Proof. by destruct 1. Qed.
Lemma chain_all_valid d c l : chain d c l → Forall (valid f d) l.
Proof. induction 1; by constructor. Qed.
Lemma chain_hd d c l : chain d c l → head l = Some c.
Proof. by destruct 1. Qed.

Lemma valid_below_end d c : geometry_ok f d → valid f d c → 0 < c < END_OF_CHAIN ∧ 0 ≤ c < entries f.
Proof. intros Hg [Hc _]. pose proof (go_entries f d Hg). lia. Qed.

Lemma chain_fun d c l : geometry_ok f d → chain d c l → ∀ l', chain d c l' → l = l'.
Proof.
  intros Hg.
  assert (Hend : ∀ c l, END_OF_CHAIN ≤ entry f d c → ¬ chain d (entry f d c) l).
  { intros c0 l0 He Hch. apply chain_valid, valid_below_end in Hch; [lia|done]. }
  induction 1 as [c Hv He|c l Hv H IH]; intros l' H'; inversion H'; subst; try done.
  - by edestruct Hend.
  - by edestruct Hend.
  - f_equal. auto.
Qed.

Lemma chain_suffix d c l c' : chain d c l → c' ∈ l → ∃ l', chain d c' l' ∧ (length l' ≤ length l)%nat.
Proof.
  induction 1 as [c Hv He|c l Hv H IH]; intros Hc'.
  - apply list_elem_of_singleton in Hc' as ->. exists [c]. split; [by constructor|done].
  - apply elem_of_cons in Hc' as [->|Hc']; [exists (c :: l); split; [by constructor|done]|].
    destruct (IH Hc') as (l' & H1 & H2). exists l'. split; [done|]. cbn. lia.
Qed.

(** A chain that ends visits no cluster twice. *)
Lemma chain_nodup d c l : geometry_ok f d → chain d c l → NoDup l.
Proof.
  intros Hg H. induction H as [c Hv He|c l Hv H IH]; [apply NoDup_singleton|].
  constructor; [|done]. intros Hin. destruct (chain_suffix _ _ _ _ H Hin) as (l' & H1 & H2).
  assert (c :: l = l') as <- by (eapply chain_fun; [done| |done]; by constructor). cbn in H2. lia.
Qed.

Lemma NoDup_range_length (l : list Z) n : 0 ≤ n → NoDup l → Forall (λ c, 0 ≤ c < n) l →
  (length l ≤ Z.to_nat n)%nat.
Proof.
  intros Hn Hnd Hf. rewrite <- (length_seqZ 0 n). apply submseteq_length, NoDup_submseteq; [done|].
  intros c Hc. apply elem_of_seqZ. by apply (proj1 (Forall_forall _ _) Hf) in Hc; lia.
Qed.

Lemma chain_length d c l : geometry_ok f d → chain d c l → (length l < fuel f)%nat.
Proof.
  intros Hg H. unfold fuel. apply Nat.lt_succ_r, NoDup_range_length.
  - destruct Hg; lia.
  - by eapply chain_nodup.
  - eapply Forall_impl; [by eapply chain_all_valid|]. intros c' [Hc' _]. unfold entries in Hc'. lia.
Qed.

(** Only the entries of a chain and the size of the disk matter. *)
Lemma chain_ext d d' c l : chain d c l → len d' = len d →
  (∀ c', c' ∈ l → entry f d' c' = entry f d c') → chain d' c l.
Proof.
  intros H El. induction H as [c Hv He|c l Hv H IH]; intros Heq.
  - apply chain_last; [by eapply valid_len|]. rewrite Heq; [done|set_solver].
  - apply chain_next; [by eapply valid_len|]. rewrite Heq by set_solver. apply IH.
    intros c' Hc'. apply Heq. set_solver.
Qed.

(** ** Freeing *)

Definition free_all (l : list Z) (d : list Z) : list Z := foldl (λ d c, set_entry f c 0 d) d l.

Lemma free_all_cons c l d : free_all (c :: l) d = free_all l (set_entry f c 0 d).
Proof. done. Qed.

Lemma free_all_spec l : ∀ d, geometry_ok f d → Forall (λ c, 0 ≤ c < entries f) l →
  geometry_ok f (free_all l d) ∧ len (free_all l d) = len d ∧
  (∀ c, 0 ≤ c < entries f → entry f (free_all l d) c = if decide (c ∈ l) then 0 else entry f d c) ∧
  (∀ c, valid f d c → cluster_data f (free_all l d) c = cluster_data f d c).
Proof.
  induction l as [|c l IH]; intros d Hg Hl; rewrite ?free_all_cons.
  { split_and!; [done|done| |done]. intros c Hc. rewrite decide_False; [done|set_solver]. }
  apply Forall_cons in Hl as [Hc Hl]. pose proof (len_set_entry f d c 0 Hg Hc) as El.
  destruct (IH (set_entry f c 0 d)) as (I1 & I2 & I3 & I4); [by apply geometry_set|done|].
  split_and!; [done|by rewrite I2| |].
  - intros c' Hc'. rewrite I3 by done. destruct (decide (c' ∈ l)); [by rewrite decide_True by set_solver|].
    destruct (decide (c' = c)) as [->|].
    + rewrite decide_True by set_solver. by rewrite entry_set_same.
    + rewrite decide_False by set_solver. by rewrite entry_set_other.
  - intros c' Hv. rewrite I4 by (eapply valid_len; [exact El|done]). by apply data_set_entry.
Qed.

(** One step of the loop. *)
Lemma runs_free_step n s c s' : geometry_ok f (disk s) → 0 < c < entries f →
  runs (free_loop n f (entry f (disk s) c)) (set_disk (set_entry f c 0 (disk s)) s) () s' →
  runs (free_loop (S n) f c) s () s'.
Proof.
  intros Hg Hc H. pose proof (go_entries f _ Hg). cbn [free_loop].
  rewrite (proj2 (Z.ltb_lt _ _)), (proj2 (Z.eqb_neq _ _)) by lia. cbn [andb negb].
  eapply runs_bind; [by apply runs_get_next; [|lia]|]. eapply runs_bind; [by apply runs_put_entry; [|lia]|]. done.
Qed.

Lemma runs_free_end n s c : c = 0 ∨ END_OF_CHAIN ≤ c → runs (free_loop n f c) s () s.
Proof.
  intros H. assert (E : (c <? END_OF_CHAIN) && negb (c =? 0) = false).
  { destruct H as [->|H]; [done|]. by rewrite (proj2 (Z.ltb_ge _ _)). }
  destruct n; cbn [free_loop]; rewrite E; apply runs_ret.
Qed.

Lemma runs_free_loop l : ∀ n s c, geometry_ok f (disk s) → chain (disk s) c l → (length l ≤ n)%nat →
  runs (free_loop n f c) s () (set_disk (free_all l (disk s)) s).
Proof.
  induction l as [|c0 l IH]; intros n s c Hg Hch Hn; [inversion Hch|].
  pose proof (chain_nodup _ _ _ Hg Hch) as Hnd. pose proof (chain_valid _ _ _ Hch) as Hv.
  apply (valid_below_end _ _ Hg) in Hv as [Hv0 Hv1].
  destruct n as [|n]; [cbn in Hn; lia|]. apply runs_free_step; [done|lia|].
  inversion Hch as [? Hv He|? ? Hv Hch']; subst; rewrite free_all_cons.
  - apply runs_free_end. by right.
  - apply NoDup_cons in Hnd as [Hnin Hnd].
    specialize (IH n (set_disk (set_entry f c0 0 (disk s)) s) (entry f (disk s) c0)).
    rewrite set_disk_set in IH. apply IH; [by apply geometry_set| |cbn in Hn; lia].
    eapply chain_ext; [done|by apply len_set_entry|]. intros c' Hc'.
    apply entry_set_other; [done|done| |set_solver].
    eapply Forall_forall in Hc'; [|by eapply chain_all_valid]. destruct Hc'. lia.
Qed.

(** *** Termination on any table *)

(** Every entry in use leads into the table or ends a chain. *)
Definition closed (d : list Z) : Prop :=
  ∀ c, 0 ≤ c < entries f → entry f d c < entries f ∨ END_OF_CHAIN ≤ entry f d c.

Definition used (d : list Z) : list Z := filter (λ c, entry f d c ≠ 0) (seqZ 0 (entries f)).

Lemma used_set d c : geometry_ok f d → 0 ≤ c < entries f → entry f d c ≠ 0 →
  (length (used (set_entry f c 0 d)) < length (used d))%nat.
Proof.
  intros Hg Hc H0. assert (Hsub : c :: used (set_entry f c 0 d) ⊆+ used d).
  { apply NoDup_submseteq.
    - constructor.
      + unfold used. rewrite list_elem_of_filter. intros [H _]. by rewrite entry_set_same in H.
      + apply NoDup_filter, NoDup_seqZ.
    - intros c' [->|H]%elem_of_cons; unfold used; rewrite list_elem_of_filter, elem_of_seqZ; [lia|].
      unfold used in H. rewrite list_elem_of_filter, elem_of_seqZ in H. destruct H as [H1 H2].
      split; [|done]. destruct (decide (c = c')) as [->|Hne]; [by rewrite entry_set_same in H1|].
      by rewrite entry_set_other in H1 by (done || lia). }
  apply submseteq_length in Hsub. cbn in Hsub. lia.
Qed.

(** [d'] is [d] with some entries zeroed. *)
Definition zeroed (d d' : list Z) : Prop :=
  geometry_ok f d' ∧ len d' = len d ∧
  (∀ c, 0 ≤ c < entries f → entry f d' c = 0 ∨ entry f d' c = entry f d c) ∧
  (∀ c, valid f d c → cluster_data f d' c = cluster_data f d c).

Lemma zeroed_refl d : geometry_ok f d → zeroed d d.
Proof. intros Hg. split_and!; auto. Qed.

Lemma zeroed_trans d1 d2 d3 : zeroed d1 d2 → zeroed d2 d3 → zeroed d1 d3.
Proof.
  intros (A1 & A2 & A3 & A4) (B1 & B2 & B3 & B4). split_and!; [done|by rewrite B2| |].
  - intros c Hc. destruct (B3 c Hc) as [->| ->]; auto.
  - intros c Hv. rewrite B4; [auto|by eapply valid_len].
Qed.

Lemma zeroed_set d c : geometry_ok f d → 0 ≤ c < entries f → zeroed d (set_entry f c 0 d).
Proof.
  intros Hg Hc. split_and!; [by apply geometry_set|by apply len_set_entry| |].
  - intros c' Hc'. destruct (decide (c = c')) as [->|Hne].
    + left. by rewrite entry_set_same.
    + right. by apply entry_set_other.
  - intros c' Hv. by apply data_set_entry.
Qed.

Lemma closed_zeroed d d' : closed d → zeroed d d' → closed d'.
Proof.
  intros Hcl (_ & _ & H & _) c Hc. destruct (H c Hc) as [->| ->]; [left; lia|by apply Hcl].
Qed.

Lemma free_loop_total n : ∀ s c, geometry_ok f (disk s) → closed (disk s) →
  (0 ≤ c < entries f ∨ END_OF_CHAIN ≤ c) → (length (used (disk s)) < n)%nat →
  ∃ d', zeroed (disk s) d' ∧ runs (free_loop n f c) s () (set_disk d' s).
Proof.
  induction n as [|n IH]; intros s c Hg Hcl Hc Hn; [lia|].
  destruct (decide (c = 0 ∨ END_OF_CHAIN ≤ c)) as [He|Hne].
  { exists (disk s). split; [by apply zeroed_refl|]. rewrite set_disk_same. by apply runs_free_end. }
  assert (Hc' : 0 < c < entries f) by lia. assert (Hc0 : 0 ≤ c < entries f) by lia.
  pose proof (zeroed_set (disk s) c Hg Hc0) as Hz. set (s1 := set_disk (set_entry f c 0 (disk s)) s).
  assert (Hr : ∃ d', zeroed (disk s1) d' ∧
    runs (free_loop n f (entry f (disk s) c)) s1 () (set_disk d' s1)).
  { destruct (decide (entry f (disk s) c = 0)) as [->|H0].
    - exists (disk s1). split; [apply zeroed_refl, Hz|]. rewrite set_disk_same. apply runs_free_end. by left.
    - apply IH; [apply Hz|by eapply closed_zeroed| |pose proof (used_set _ _ Hg Hc0 H0); cbn; lia].
      pose proof (entry_range f (disk s) c). destruct (Hcl c Hc0); lia. }
  destruct Hr as (d' & Hz' & Hr). exists d'. split; [by eapply zeroed_trans|].
  apply runs_free_step; [done|lia|done].
Qed.

(** ** Properties *)

(** C21. The table on the disk is a map from clusters to 28-bit values: reading and
    writing an entry are the lookup and the update, and an allocation answers
    the lowest free entry and marks it as the end of a chain, or answers 0 and
    changes nothing when there is none.  No data cluster changes. *)
Theorem fat_table_refines s c v :
  geometry_ok f (disk s) → 0 ≤ c < entries f →
  runs (get_next_cluster f c) s (entry f (disk s) c) s ∧
  (∃ d, runs (set_next_cluster f c v) s () (set_disk d s) ∧ geometry_ok f d ∧
    (∀ c', 0 ≤ c' < entries f → entry f d c' = if decide (c' = c) then v mod 2 ^ 28 else entry f (disk s) c') ∧
    ∀ c', valid f (disk s) c' → cluster_data f d c' = cluster_data f (disk s) c') ∧
  ∃ r d, runs (allocate_cluster f) s r (set_disk d s) ∧ geometry_ok f d ∧
    (r = 0 ∧ d = disk s ∧ no_free_entry (disk s) 0 (entries f) ∨
     0 ≤ r < entries f ∧ entry f (disk s) r = 0 ∧ no_free_entry (disk s) 0 r ∧
     (∀ c', 0 ≤ c' < entries f → entry f d c' = if decide (c' = r) then ENTRY_MASK else entry f (disk s) c') ∧
     ∀ c', valid f (disk s) c' → cluster_data f d c' = cluster_data f (disk s) c').
Proof.
  intros Hg Hc.
  assert (Hset : ∀ k x, 0 ≤ k < entries f → ∀ c', 0 ≤ c' < entries f →
    entry f (set_entry f k x (disk s)) c' = if decide (c' = k) then x mod 2 ^ 28 else entry f (disk s) c').
  { intros k x Hk c' Hc'. destruct (decide (c' = k)) as [->|]; [by apply entry_set_same|by apply entry_set_other]. }
  split; [by apply runs_get_next|]. split.
  - eexists. split; [by apply runs_set_next|]. split; [by apply geometry_set|]. split.
    + intros c' Hc'. rewrite Hset by done. rewrite mask28. by rewrite Z.mod_mod by done.
    + intros c' Hv. by apply data_set_entry.
  - destruct (runs_allocate s Hg) as (r & s' & [(R1 & R2 & R3 & ->)|(-> & R2 & ->)] & Hr).
    + exists r. eexists. split; [exact Hr|]. split; [by apply geometry_set|]. right.
      split_and!; [lia|lia|done|done| |]; intros c' Hc'; [by rewrite Hset|by apply data_set_entry].
    + exists 0, (disk s). rewrite set_disk_same. split; [done|]. split; [done|]. by left.
Qed.

(** C33. [free_cluster_chain] terminates on every table whose entries stay in the table
    or end a chain, a cyclic one included, and does nothing but zero entries;
    from the head of a chain it zeroes exactly the entries of the chain. *)
Theorem free_cluster_chain_frees s c :
  geometry_ok f (disk s) → 2 ≤ c < entries f →
  (closed (disk s) → ∃ d, zeroed (disk s) d ∧ runs (free_cluster_chain f c) s () (set_disk d s)) ∧
  ∀ l, chain (disk s) c l →
    ∃ d, runs (free_cluster_chain f c) s () (set_disk d s) ∧ geometry_ok f d ∧
      (∀ c', 0 ≤ c' < entries f → entry f d c' = if decide (c' ∈ l) then 0 else entry f (disk s) c') ∧
      ∀ c', valid f (disk s) c' → cluster_data f d c' = cluster_data f (disk s) c'.
Proof.
  intros Hg Hc. unfold free_cluster_chain. rewrite (proj2 (Z.ltb_ge _ _)) by lia. split.
  - intros Hcl. apply free_loop_total; [done|done|lia|].
    apply Nat.lt_succ_r. unfold used. etrans; [apply length_filter|]. rewrite length_seqZ. unfold entries. lia.
  - intros l Hch. exists (free_all l (disk s)). split.
    + apply runs_free_loop; [done|done|]. apply Nat.lt_le_incl. by eapply chain_length.
    + destruct (free_all_spec l (disk s) Hg) as (F1 & F2 & F3 & F4); [|done].
      eapply Forall_impl; [by eapply chain_all_valid|]. intros c' [Hc' _]. lia.
Qed.
End operations.

(** *** A small volume *)

Import Block.Pure.

(** One reserved sector, one table of one sector, and four clusters of one sector: 2
    is a directory, 3 and 4 a file, 5 is free.  The other entries are in use. *)
Definition demo_fat : FAT32Manager := mk_fat 0 (mk_bpb 1 1 1 1 2).
Definition demo_table : list Z :=
  ([0x0FFFFFF8; 0x0FFFFFFF; 0x0FFFFFFF; 4; 0x0FFFFFFF; 0] ++ replicate 122 0x0FFFFFFF) ≫= le 4.
Definition demo_disk : list Z :=
  replicate 512 0 ++ demo_table ++ replicate 512 0 ++ replicate 512 65 ++ replicate 512 66 ++ replicate 512 67.
Definition demo_store : store := mk_store demo_disk ∅ 4096.

Lemma demo_geometry : geometry_ok demo_fat demo_disk.
Proof.
  constructor; try (vm_compute; split; discriminate); try (vm_compute; discriminate).
  apply bytes_check. vm_compute. reflexivity.
Qed.

Lemma demo_chain : chain demo_fat demo_disk 3 [3; 4].
Proof.
  assert (H3 : valid demo_fat demo_disk 3) by (repeat split; vm_compute; congruence).
  assert (H4 : valid demo_fat demo_disk 4) by (repeat split; vm_compute; congruence).
  apply chain_next; [done|]. replace (entry demo_fat demo_disk 3) with 4 by (vm_compute; reflexivity).
  apply chain_last; [done|]. vm_compute. discriminate.
Qed.

Lemma fat_table_refines_witness :
  runs (W := store) (get_next_cluster demo_fat 3) demo_store 4 demo_store ∧
  ∃ r d, runs (W := store) (allocate_cluster demo_fat) demo_store r (set_disk d demo_store) ∧ geometry_ok demo_fat d.
Proof.
  destruct (fat_table_refines demo_fat demo_store 3 0 demo_geometry) as (H1 & _ & r & d & H2 & H3 & _).
  - vm_compute. split; congruence.
  - split; [exact H1|]. exists r, d. split; [exact H2|exact H3].
Defined.

Lemma free_cluster_chain_frees_witness :
  ∃ d, runs (W := store) (free_cluster_chain demo_fat 3) demo_store () (set_disk d demo_store) ∧
    entry demo_fat d 3 = 0 ∧ entry demo_fat d 4 = 0 ∧ entry demo_fat d 5 = 0.
Proof.
  destruct (free_cluster_chain_frees demo_fat demo_store 3 demo_geometry) as [_ H].
  - vm_compute. split; congruence.
  - destruct (H [3; 4] demo_chain) as (d & H1 & _ & H2 & _). exists d. split; [exact H1|].
    split; [|split]; (rewrite H2; [vm_compute; reflexivity|vm_compute; split; congruence]).
Defined.
End Fat.
