(* ===== verification/FatFile.v ===== *)
(** * FAT32: files (fs/fat32_vfs.cpp: FAT32_File)

    The contents of a file are the bytes of the clusters of its chain, up to its
    size.  [read] and [write] walk the chain from its head for every call, and
    [write] for every sector, allocating clusters at its end. *)

From S2P Require Import Prelude Bytes Block Fat.

Module FatFile.
Import Bytes Block Fat.

Record FAT32_File : Set := mk_file {
  name : list Z; first_cluster : Z; size : Z; dir_entry_lba : Z; dir_entry_offset : Z
}.

(** [strncpy(this->name, n, 127)] *)
Definition new_file (n : list Z) (cluster sz entry_lba entry_off : Z) : FAT32_File :=
  mk_file (take 127 n) cluster sz entry_lba entry_off.

Section file.
Context {W : Type} `{!BlockDevice W, !Allocator W}.
Context (f : FAT32Manager).

(** Reading to a buffer that [kmalloc] may have refused. *)
Definition read_into (buffer lba n : Z) : kernel W (list Z) :=
  if buffer =? 0 then lift Fault else read_sectors lba n.

Fixpoint skip_clusters (n : nat) (current_cluster : Z) : kernel W Z :=
  match n with
  | O => mret current_cluster
  | S n' => next ← get_next_cluster f current_cluster; skip_clusters n' next
  end.

Fixpoint read_loop (n : nat) (temp_buffer current_cluster size bytes_read internal_offset : Z)
  : kernel W (list Z) :=
  if bytes_read <? size then
    match n with
    | O => lift OutOfFuel
    | S n' =>
        data ← read_into temp_buffer (cluster_to_lba f current_cluster) (sectors_per_cluster (bpb f));
        let room := cluster_size f - internal_offset in
        let to_copy := if size - bytes_read <? room then size - bytes_read else room in
        bs ← lift (get_bytes internal_offset to_copy data);
        if bytes_read + to_copy <? size then
          next ← get_next_cluster f current_cluster;
          if END_OF_CHAIN <=? next then mret bs
          else rest ← read_loop n' temp_buffer next size (bytes_read + to_copy) 0; mret (bs ++ rest)
        else mret bs
    end
  else mret [].

(** The bytes copied to the caller's buffer. *)
Definition read (fl : FAT32_File) (offset count : Z) : kernel W (list Z) :=
  if size fl <=? offset then mret [] else
  let count := if size fl <? u32 (offset + count) then size fl - offset else count in
  k ← lift (udiv offset (cluster_size f));
  current_cluster ← skip_clusters (Z.to_nat k) (first_cluster fl);
  internal_offset ← lift (umod offset (cluster_size f));
  temp_buffer ← kmalloc (cluster_size f);
  bs ← read_loop (Z.to_nat (count / cluster_size f) + 2) temp_buffer current_cluster count 0 internal_offset;
  kfree temp_buffer;;
  mret bs.

(** The walk to a cluster, which makes the chain longer where it ends. *)
Fixpoint walk_alloc (n : nat) (current_cluster : Z) : kernel W Z :=
  match n with
  | O => mret current_cluster
  | S n' =>
      next ← get_next_cluster f current_cluster;
      if END_OF_CHAIN <=? next then
        next ← allocate_cluster f;
        set_next_cluster f current_cluster next;;
        walk_alloc n' next
      else walk_alloc n' next
  end.

Fixpoint write_loop (n : nat) (first offset : Z) (buffer : list Z) (bytes_written : Z) : kernel W Z :=
  if bytes_written <? len buffer then
    match n with
    | O => lift OutOfFuel
    | S n' =>
        let current_offset := u32 (offset + bytes_written) in
        k ← lift (udiv current_offset (cluster_size f));
        current_cluster ← walk_alloc (Z.to_nat k) first;
        in_cluster ← lift (umod current_offset (cluster_size f));
        let lba := u32 (cluster_to_lba f current_cluster + in_cluster / 512) in
        let byte_in_sector := current_offset mod 512 in
        sector_data ← read_sectors lba 1;
        let room := 512 - byte_in_sector in
        let to_write := if len buffer - bytes_written <? room then len buffer - bytes_written else room in
        part ← lift (get_bytes bytes_written to_write buffer);
        sector_data' ← lift (put_bytes byte_in_sector part sector_data);
        write_sectors lba 1 sector_data';;
        write_loop n' first offset buffer (bytes_written + to_write)
    end
  else mret bytes_written.

(** The size in the directory entry. *)
Definition update_metadata (fl : FAT32_File) : kernel W unit :=
  sector ← read_sectors (dir_entry_lba fl) 1;
  sector' ← lift (put32 (dir_entry_offset fl + 28) (size fl) sector);
  write_sectors (dir_entry_lba fl) 1 sector'.

Definition set_size (n : Z) (fl : FAT32_File) : FAT32_File :=
  mk_file (name fl) (first_cluster fl) n (dir_entry_lba fl) (dir_entry_offset fl).

(** Answers the count and the file object after the call. *)
Definition write (fl : FAT32_File) (offset : Z) (buffer : list Z) : kernel W (Z * FAT32_File) :=
  bytes_written ← write_loop (Z.to_nat (len buffer / 512) + 2) (first_cluster fl) offset buffer 0;
  if size fl <? u32 (offset + len buffer) then
    let fl' := set_size (u32 (offset + len buffer)) fl in
    update_metadata fl';; mret (bytes_written, fl')
  else mret (bytes_written, fl).
End file.

(** ** The contents of a chain *)

Definition flat (f : FAT32Manager) (d : list Z) (l : list Z) : list Z := l ≫= cluster_data f d.

Section specs.
Context (f : FAT32Manager).
Implicit Types d l : list Z.

Lemma len_cluster_data d c : geometry_ok f d → valid f d c → len (cluster_data f d c) = cluster_size f.
Proof.
  intros Hg Hv. destruct (cluster_bounds f d c Hg Hv) as (C1 & C2 & C3 & C4).
  apply len_sub; lia.
Qed.

Lemma flat_cons d c l : flat f d (c :: l) = cluster_data f d c ++ flat f d l.
Proof. done. Qed.
Lemma flat_app d l1 l2 : flat f d (l1 ++ l2) = flat f d l1 ++ flat f d l2.
Proof. apply bind_app. Qed.

Lemma len_flat d l : geometry_ok f d → Forall (valid f d) l → len (flat f d l) = cluster_size f * len l.
Proof.
  intros Hg. induction 1 as [|c l Hv Hl IH]; [unfold len; cbn; lia|].
  rewrite flat_cons, len_app, len_cluster_data, IH by done. unfold len. cbn [length]. lia.
Qed.

Lemma flat_ext d d' l : (∀ c, c ∈ l → cluster_data f d' c = cluster_data f d c) → flat f d' l = flat f d l.
Proof.
  induction l as [|c l IH]; intros H; [done|]. rewrite !flat_cons, H by set_solver. f_equal.
  apply IH. set_solver.
Qed.

(** A change in one cluster of a list. *)
Lemma flat_update d d' x p bs l : ∀ k, geometry_ok f d → NoDup l → Forall (valid f d) l →
  l !! k = Some x → 0 ≤ p → p + len bs ≤ cluster_size f →
  cluster_data f d' x = splice p bs (cluster_data f d x) →
  (∀ y, y ∈ l → y ≠ x → cluster_data f d' y = cluster_data f d y) →
  flat f d' l = splice (cluster_size f * Z.of_nat k + p) bs (flat f d l).
Proof.
  induction l as [|c l IH]; intros k Hg Hnd Hl Hk Hp Hb Hx Ho; [done|].
  apply NoDup_cons in Hnd as [Hn Hnd]. apply Forall_cons in Hl as [Hc Hl].
  assert (0 < cluster_size f) by (destruct Hg; unfold cluster_size; lia).
  pose proof (len_cluster_data d c Hg Hc) as Ec. pose proof (len_flat d l Hg Hl) as El.
  pose proof (len_nonneg bs). rewrite !flat_cons. destruct k as [|k]; cbn in Hk.
  - injection Hk as ->. rewrite Hx, splice_app_l by lia. f_equal; [f_equal; lia|].
    apply flat_ext. intros y Hy. apply Ho; set_solver.
  - assert (Hin : x ∈ l) by by eapply list_elem_of_lookup_2.
    rewrite (IH k) by (done || set_solver). rewrite Ho; [|set_solver|by intros ->].
    assert (Hkl : Z.of_nat k < len l) by (apply lookup_lt_Some in Hk; unfold len; lia).
    rewrite splice_app_r by nia. f_equal. f_equal. lia.
Qed.

(** A part of one cluster of a list. *)
Lemma flat_sub d x p n l : ∀ k, geometry_ok f d → Forall (valid f d) l → l !! k = Some x →
  0 ≤ p → 0 ≤ n → p + n ≤ cluster_size f →
  sub (cluster_size f * Z.of_nat k + p) n (flat f d l) = sub p n (cluster_data f d x).
Proof.
  induction l as [|c l IH]; intros k Hg Hl Hk Hp Hn Hb; [done|]. apply Forall_cons in Hl as [Hc Hl].
  pose proof (len_cluster_data d c Hg Hc) as Ec. rewrite flat_cons. destruct k as [|k]; cbn in Hk.
  - injection Hk as ->. rewrite sub_app_l by lia. f_equal. lia.
  - assert (0 < cluster_size f) by (destruct Hg; unfold cluster_size; lia).
    rewrite sub_app_r by nia. rewrite Ec, <- (IH k) by done. f_equal. lia.
Qed.

Lemma cluster_size_pos d : geometry_ok f d → 0 < cluster_size f ∧ cluster_size f < 2 ^ 32.
Proof. intros []. unfold cluster_size. lia. Qed.
End specs.

(** ** Reading *)

Section reading.
Context {W : Type} `{!BlockDevice W, !Allocator W, !StoreLaws W}.
Context (f : FAT32Manager).
Implicit Types s : store.

Lemma runs_skip i : ∀ s c l, geometry_ok f (disk s) → chain f (disk s) c l → (i < length l)%nat →
  ∃ c', chain f (disk s) c' (drop i l) ∧ runs (skip_clusters f i c) s c' s.
Proof.
  induction i as [|i IH]; intros s c l Hg Hch Hi; cbn [skip_clusters].
  - exists c. rewrite drop_0. split; [done|apply runs_ret].
  - inversion Hch as [? Hv He|? l' Hv Hch']; subst; cbn [length] in Hi; [lia|].
    destruct (IH s _ l' Hg Hch') as (c' & H1 & H2); [lia|]. exists c'. split; [done|].
    eapply runs_bind; [apply runs_get_next; [done|]|done]. destruct Hv. lia.
Qed.

Lemma runs_read_into s p c : geometry_ok f (disk s) → valid f (disk s) c → p ≠ 0 →
  runs (read_into p (cluster_to_lba f c) (sectors_per_cluster (bpb f))) s (cluster_data f (disk s) c) s.
Proof.
  intros Hg Hv Hp. destruct (cluster_to_lba_spec f _ c Hg Hv) as [E Hs].
  unfold read_into. rewrite (proj2 (Z.eqb_neq _ _)) by done.
  assert (Ed : cluster_data f (disk s) c = sub (SECTOR * cluster_to_lba f c)
    (SECTOR * sectors_per_cluster (bpb f)) (disk s)).
  { unfold cluster_data. rewrite E. f_equal. unfold cluster_size, SECTOR. lia. }
  rewrite Ed. by apply runs_read.
Qed.

(** [r] bytes from [i] on in the chain [l]. *)
Lemma runs_read_loop l : ∀ n s p c count done_ i,
  geometry_ok f (disk s) → chain f (disk s) c l → p ≠ 0 →
  0 ≤ i < cluster_size f → 0 ≤ done_ ≤ count → i + (count - done_) ≤ cluster_size f * len l →
  i + (count - done_) ≤ cluster_size f * Z.of_nat n →
  runs (read_loop f n p c count done_ i) s (sub i (count - done_) (flat f (disk s) l)) s.
Proof.
  induction l as [|c0 l IH]; intros n s p c count dn i Hg Hch Hp Hi Hd Hl Hn; [inversion Hch|].
  assert (c0 = c) as -> by (apply chain_hd in Hch; by injection Hch).
  pose proof (chain_valid _ _ _ _ Hch) as Hv. pose proof (len_cluster_data f _ c Hg Hv) as Ec.
  destruct (Z.ltb_spec dn count) as [Hlt|Hge].
  2: { replace (count - dn) with 0 by lia. rewrite sub_0.
       destruct n; cbn [read_loop]; rewrite (proj2 (Z.ltb_ge _ _)) by lia; apply runs_ret. }
  destruct n as [|n]; [lia|]. cbn [read_loop]. rewrite (proj2 (Z.ltb_lt _ _)) by lia.
  eapply runs_bind; [by apply runs_read_into|]. rewrite flat_cons.
  destruct (Z.ltb_spec (count - dn) (cluster_size f - i)) as [Hin|Hout].
  - eapply runs_lift; [apply get_bytes_ok; lia|]. rewrite (proj2 (Z.ltb_ge _ _)) by lia.
    rewrite sub_app_l by lia. apply runs_ret.
  - eapply runs_lift; [apply get_bytes_ok; lia|].
    destruct (Z.ltb_spec (dn + (cluster_size f - i)) count) as [Hmore|Hend].
    + inversion Hch as [? ? He|? ? ? Hch']; subst; [unfold len in Hl; cbn in Hl; lia|].
      assert (Hlen : len (flat f (disk s) l) = cluster_size f * len l).
      { apply len_flat; [done|by eapply chain_all_valid]. }
      unfold len in Hl; cbn [length] in Hl; fold (len l) in *.
      eapply runs_bind; [apply runs_get_next; [done|destruct Hv; lia]|].
      rewrite (proj2 (Z.leb_gt _ _)) by (apply chain_valid, (valid_below_end _ _ _ Hg) in Hch'; lia).
      eapply runs_bind; [apply (IH n s p _ count (dn + (cluster_size f - i)) 0 Hg Hch'); unfold len in *; lia|].
      rewrite sub_app_cross by (unfold len in *; lia). rewrite Ec.
      replace (count - (dn + (cluster_size f - i))) with (count - dn - (cluster_size f - i)) by lia.
      apply runs_ret.
    + replace (count - dn) with (cluster_size f - i) by lia. rewrite sub_app_l by lia. apply runs_ret.
Qed.

(** The contents of a file: what its size leaves of the bytes of its clusters. *)
Definition content (d l : list Z) (fl : FAT32_File) : list Z := sub 0 (size fl) (flat f d l).

Lemma sub_content d l fl off n : 0 ≤ off → 0 ≤ n → 0 ≤ size fl ≤ len (flat f d l) →
  sub off n (content d l fl) =
    if size fl <=? off then [] else
    sub off (if size fl <? off + n then size fl - off else n) (flat f d l).
Proof.
  intros H0 Hn Hs. unfold content. apply list_eq. intros j.
  pose proof (len_sub 0 (size fl) (flat f d l)) as El.
  destruct (Z.leb_spec (size fl) off).
  { rewrite lookup_nil. destruct (decide (Z.of_nat j < n)); [|by rewrite lookup_sub_ge by lia].
    rewrite lookup_sub by lia. apply lookup_Z_ge. lia. }
  set (m := if _ <? _ then _ else _). assert (Hm : 0 ≤ m ≤ n ∧ m = Z.min n (size fl - off)).
  { unfold m. destruct (Z.ltb_spec (size fl) (off + n)); lia. }
  destruct (decide (Z.of_nat j < n)).
  - rewrite lookup_sub by lia. destruct (decide (Z.of_nat j < m)).
    + rewrite !lookup_sub by lia. f_equal.
    + rewrite !lookup_sub_ge by lia. done.
  - by rewrite !lookup_sub_ge by lia.
Qed.

Lemma runs_file_read s fl l off n :
  geometry_ok f (disk s) → chain f (disk s) (first_cluster fl) l →
  0 ≤ size fl ≤ cluster_size f * len l → cluster_size f ≤ quota s →
  0 ≤ off → 0 ≤ n → off + n < 2 ^ 32 →
  runs (read f fl off n) s (sub off n (content (disk s) l fl)) s.
Proof.
  intros Hg Hch Hs Hq H0 Hn Hw. pose proof (cluster_size_pos f _ Hg) as Hc.
  pose proof (len_flat f _ l Hg (chain_all_valid _ _ _ _ Hch)) as El.
  rewrite sub_content by lia. unfold read. destruct (Z.leb_spec (size fl) off); [apply runs_ret|].
  rewrite (wrap_small 32) by lia. set (m := if _ <? _ then _ else _).
  assert (Hm : 0 ≤ m ≤ n ∧ m ≤ size fl - off) by (unfold m; destruct (Z.ltb_spec (size fl) (off + n)); lia).
  eapply runs_lift; [apply udiv_ok; lia|]. pose proof (Z.div_mod off (cluster_size f) ltac:(lia)) as Ed.
  pose proof (Z.mod_pos_bound off (cluster_size f) ltac:(lia)) as Em.
  assert (Hk : 0 ≤ off / cluster_size f) by (apply Z.div_pos; lia).
  set (k := off / cluster_size f) in *. set (i := off mod cluster_size f) in *.
  assert (Hkl : (Z.to_nat k < length l)%nat) by (unfold len in *; nia).
  destruct (runs_skip (Z.to_nat k) s _ l Hg Hch Hkl) as (c & Hch' & Hskip).
  eapply runs_bind; [exact Hskip|]. eapply runs_lift; [apply umod_ok; lia|].
  apply runs_kmalloc; [lia|]. intros p Hp Hlive. fold i.
  eapply runs_bind; [apply (runs_read_loop (drop (Z.to_nat k) l)); try done; try lia|].
  - unfold len in *. rewrite length_drop. nia.
  - pose proof (Z.div_mod m (cluster_size f) ltac:(lia)). pose proof (Z.mod_pos_bound m (cluster_size f) ltac:(lia)).
    assert (0 ≤ m / cluster_size f) by (apply Z.div_pos; lia). nia.
  - apply runs_kfree; [done|]. cbn [disk add_buffer].
    assert (E : sub i (m - 0) (flat f (disk s) (drop (Z.to_nat k) l)) = sub off m (flat f (disk s) l)).
    { rewrite <- (take_drop (Z.to_nat k) l) at 2. rewrite flat_app.
      assert (Et : len (flat f (disk s) (take (Z.to_nat k) l)) = cluster_size f * k).
      { rewrite len_flat; [|done|by apply Forall_take, (chain_all_valid _ _ _ _ Hch)].
        unfold len. rewrite length_take. nia. }
      rewrite sub_app_r by lia. f_equal; lia. }
    rewrite E. apply runs_ret.
Qed.
End reading.

(** ** Allocation *)

Section growing.
Context (f : FAT32Manager).
Implicit Types d l : list Z.

Definition free d : list Z := filter (λ c, entry f d c = 0) (seqZ 0 (entries f)).

Lemma elem_of_free d c : c ∈ free d ↔ entry f d c = 0 ∧ 0 ≤ c < entries f.
Proof. unfold free. rewrite list_elem_of_filter, elem_of_seqZ. intuition lia. Qed.

Lemma free_nodup d : NoDup (free d).
Proof. apply NoDup_filter, NoDup_seqZ. Qed.

(** The table has no more entries than the volume has clusters, or the rest are in use. *)
Definition no_spare d : Prop := ∀ c, 0 ≤ c < entries f → entry f d c = 0 → valid f d c.

(** [d'] is [d] after the chain [l] grew by [l'], and changed in its own clusters only. *)
Record grown d l d' l' : Prop := {
  gr_geometry : geometry_ok f d';
  gr_len : len d' = len d;
  gr_new : Forall (λ c, valid f d c ∧ entry f d c = 0) l';
  gr_other : ∀ x, 0 ≤ x < entries f → (x ∉ l ++ l') → entry f d' x = entry f d x;
  gr_data : ∀ x, valid f d x → (x ∉ l ++ l') → cluster_data f d' x = cluster_data f d x;
  gr_free : (length (free d') + length l' = length (free d))%nat;
  gr_spare : no_spare d'
}.

Lemma grown_refl d l : geometry_ok f d → no_spare d → grown d l d [].
Proof. intros. by constructor. Qed.

Lemma chain_used d c l x : geometry_ok f d → chain f d c l → x ∈ l → entry f d x ≠ 0.
Proof.
  intros Hg H. induction H as [c Hv He|c l Hv H IH]; intros Hx.
  - apply list_elem_of_singleton in Hx as ->. unfold END_OF_CHAIN in He. lia.
  - apply elem_of_cons in Hx as [->|Hx]; [|auto]. apply chain_valid in H. destruct H. lia.
Qed.

Lemma grown_trans d l d1 l1 d2 l2 : geometry_ok f d1 → (∀ x, x ∈ l ++ l1 → entry f d1 x ≠ 0) →
  grown d l d1 l1 → grown d1 (l ++ l1) d2 l2 → grown d l d2 (l1 ++ l2).
Proof.
  intros Hg Hu [A1 A2 A3 A4 A5 A6 A7] [B1 B2 B3 B4 B5 B6 B7]. constructor.
  - done.
  - by rewrite B2.
  - apply Forall_app. split; [done|]. eapply Forall_impl; [exact B3|]. intros x [Hv H0].
    split; [by eapply valid_len|]. rewrite <- A4; [done|destruct Hv; lia|]. intros Hx. by apply (Hu x Hx).
  - intros x Hx Hn. rewrite app_assoc in Hn. rewrite B4 by done. apply A4; [done|set_solver].
  - intros x Hx Hn. rewrite app_assoc in Hn. rewrite B5; [|by eapply valid_len|done]. apply A5; [done|set_solver].
  - rewrite length_app. lia.
  - done.
Qed.

(** Linking the new cluster [a] behind the last cluster [c]. *)
Lemma link_spec d c a : geometry_ok f d → no_spare d → valid f d c → END_OF_CHAIN ≤ entry f d c →
  0 ≤ a < entries f → entry f d a = 0 →
  let d1 := set_entry f c (Z.land a ENTRY_MASK) (set_entry f a ENTRY_MASK d) in
  geometry_ok f d1 ∧ len d1 = len d ∧ valid f d a ∧ a ≠ c ∧ entry f d1 c = a ∧ entry f d1 a = ENTRY_MASK ∧
  (∀ x, 0 ≤ x < entries f → x ≠ c → x ≠ a → entry f d1 x = entry f d x) ∧
  (∀ x, valid f d x → cluster_data f d1 x = cluster_data f d x) ∧
  S (length (free d1)) = length (free d) ∧ no_spare d1.
Proof.
  intros Hg Hsp Hv He Ha H0 d1. assert (Hva : valid f d a) by auto.
  assert (Hc : 0 ≤ c < entries f) by (destruct Hv; lia).
  assert (Hne : a ≠ c) by (intros ->; unfold END_OF_CHAIN in He; lia).
  assert (Hg1 : geometry_ok f (set_entry f a ENTRY_MASK d)) by by apply geometry_set.
  assert (Hl1 : len (set_entry f a ENTRY_MASK d) = len d) by by apply len_set_entry.
  assert (Ec : entry f d1 c = a).
  { unfold d1. rewrite entry_set_same, mask28 by done. rewrite Z.mod_mod by done. apply Z.mod_small.
    pose proof (go_entries f d Hg). unfold END_OF_CHAIN in *. lia. }
  assert (Ea : entry f d1 a = ENTRY_MASK).
  { unfold d1. rewrite entry_set_other, entry_set_same by done. done. }
  assert (Eo : ∀ x, 0 ≤ x < entries f → x ≠ c → x ≠ a → entry f d1 x = entry f d x).
  { intros x Hx Hxc Hxa. unfold d1. by rewrite !entry_set_other by done. }
  assert (Hl : len d1 = len d) by (unfold d1; rewrite len_set_entry; done).
  split_and!; try done.
  - by apply geometry_set.
  - intros x Hx. unfold d1. rewrite data_set_entry; [by apply data_set_entry|done|done|by eapply valid_len].
  - change (S (length (free d1))) with (length (a :: free d1)). apply Permutation_length, NoDup_Permutation.
    + constructor; [|apply free_nodup]. rewrite elem_of_free, Ea. by intros [? _].
    + apply free_nodup.
    + intros x. rewrite elem_of_cons, !elem_of_free. split.
      * intros [->|[E Hx]]; [done|]. split; [|done]. rewrite <- Eo; [done|done| |]; intros ->.
        -- rewrite Ec in E. destruct Hva. lia.
        -- by rewrite Ea in E.
      * intros [E Hx]. destruct (decide (x = a)) as [->|Hxa]; [by left|]. right. split; [|done].
        rewrite Eo; [done|done| |done]. intros ->. unfold END_OF_CHAIN in He. lia.
  - intros x Hx E. eapply valid_len; [exact Hl|]. apply Hsp; [done|]. rewrite <- Eo; [done|done| |]; intros ->.
    + rewrite Ec in E. destruct Hva. lia.
    + by rewrite Ea in E.
Qed.

(** ** Writing inside the clusters of a chain *)

Lemma len_flat_chain d c l : geometry_ok f d → chain f d c l → len (flat f d l) = cluster_size f * len l.
Proof. intros Hg Hch. apply len_flat; [done|by eapply chain_all_valid]. Qed.

Section data_write.
Context (d : list Z) (x p : Z) (bs : list Z).
Context (Hg : geometry_ok f d) (Hv : valid f d x) (Hp : 0 ≤ p) (Hb : p + len bs ≤ cluster_size f).
Context (Hbs : Forall byte bs).
Let d' := splice (cluster_addr f x + p) bs d.

Lemma dw_len : len d' = len d.
Proof.
  destruct (cluster_bounds f d x Hg Hv) as (C1 & C2 & C3 & C4). apply len_splice; lia.
Qed.

Lemma dw_geometry : geometry_ok f d'.
Proof. eapply geometry_len; [exact Hg|apply dw_len|]. apply Forall_splice; [done|apply Hg]. Qed.

Lemma dw_entry c : 0 ≤ c < entries f → entry f d' c = entry f d c.
Proof.
  intros Hc. destruct (cluster_bounds f d x Hg Hv) as (C1 & C2 & C3 & C4).
  destruct (table_bounds f d c Hg Hc) as (B1 & B2 & B3 & B4).
  unfold entry, d'. rewrite sub_splice_disjoint by lia. done.
Qed.

Lemma dw_same : cluster_data f d' x = splice p bs (cluster_data f d x).
Proof.
  destruct (cluster_bounds f d x Hg Hv) as (C1 & C2 & C3 & C4).
  unfold cluster_data, d'. rewrite sub_splice_inside by lia. f_equal. lia.
Qed.

Lemma dw_other y : valid f d y → y ≠ x → cluster_data f d' y = cluster_data f d y.
Proof.
  intros Hy Hne. destruct (cluster_bounds f d x Hg Hv) as (C1 & C2 & C3 & C4).
  destruct (cluster_bounds f d y Hg Hy) as (D1 & D2 & D3 & D4). pose proof (go_cluster f d Hg).
  unfold cluster_data, d'. apply sub_splice_disjoint; try lia.
  destruct (cluster_disjoint f y x); [lia|done| |]; lia.
Qed.

Lemma dw_free : free d' = free d.
Proof.
  unfold free. apply list_filter_iff'. intros c Hc. apply elem_of_seqZ in Hc. by rewrite dw_entry by lia.
Qed.

Lemma dw_chain c l : chain f d c l → chain f d' c l.
Proof.
  intros Hch. eapply chain_ext; [exact Hch|apply dw_len|]. intros c' Hc'. apply dw_entry.
  eapply Forall_forall in Hc'; [|by eapply chain_all_valid]. destruct Hc'. lia.
Qed.

Lemma dw_grown l : no_spare d → x ∈ l → grown d l d' [].
Proof.
  intros Hsp Hx. constructor.
  - apply dw_geometry.
  - apply dw_len.
  - done.
  - intros y Hy _. by apply dw_entry.
  - intros y Hy Hn. apply dw_other; [done|]. intros ->. apply Hn. rewrite app_nil_r. done.
  - rewrite dw_free. cbn. lia.
  - intros c Hc E. rewrite dw_entry in E by done. eapply valid_len; [apply dw_len|]. auto.
Qed.

(** The effect on the contents of a chain. *)
Lemma dw_flat l k : NoDup l → Forall (valid f d) l → l !! k = Some x →
  flat f d' l = splice (cluster_size f * Z.of_nat k + p) bs (flat f d l).
Proof.
  intros Hnd Hl Hk. apply (flat_update f d d' x p bs l k); try done; [apply dw_same|].
  intros y Hy Hne. apply dw_other; [|done]. by eapply Forall_forall.
Qed.
End data_write.

(** The growth after a link is growth. *)
Lemma grown_link d c a d' l' : geometry_ok f d → no_spare d → valid f d c → END_OF_CHAIN ≤ entry f d c →
  0 ≤ a < entries f → entry f d a = 0 →
  grown (set_entry f c (Z.land a ENTRY_MASK) (set_entry f a ENTRY_MASK d)) [a] d' l' →
  grown d [c] d' (a :: l').
Proof.
  intros Hg Hsp Hv He Ha H0.
  destruct (link_spec d c a Hg Hsp Hv He Ha H0) as (L1 & L2 & L3 & L4 & L5 & L6 & L7 & L8 & L9 & L10).
  set (d1 := set_entry f c _ _) in *. intros [G1 G2 G3 G4 G5 G6 G7]. constructor.
  - done.
  - by rewrite G2.
  - constructor; [done|]. eapply Forall_impl; [exact G3|]. intros x [Hx E].
    split; [by eapply valid_len|]. rewrite <- L7; [done|destruct Hx; lia| |]; intros ->.
    + rewrite L5 in E. destruct L3. lia.
    + by rewrite L6 in E.
  - intros x Hx Hn'. rewrite G4, L7; [done|done|set_solver|set_solver|done|set_solver].
  - intros x Hx Hn'. rewrite G5, L8; [done|done|by eapply valid_len|set_solver].
  - cbn. lia.
  - done.
Qed.
End growing.

(** ** Writing *)

Section writing.
Context {W : Type} `{!BlockDevice W, !Allocator W, !StoreLaws W}.
Context (f : FAT32Manager).
Implicit Types s : store.

(** A free entry is found when there is one. *)
Lemma runs_allocate_some s : geometry_ok f (disk s) → (0 < length (free f (disk s)))%nat →
  ∃ a, 0 ≤ a < entries f ∧ entry f (disk s) a = 0 ∧
    runs (allocate_cluster f) s a (set_disk (set_entry f a ENTRY_MASK (disk s)) s).
Proof.
  intros Hg Hn. destruct (runs_allocate f s Hg) as (a & s' & [(R1 & R2 & R3 & ->)|(_ & R2 & _)] & Hr); [by exists a|].
  destruct (free f (disk s)) as [|c fr] eqn:E; [cbn in Hn; lia|].
  assert (Hc : c ∈ free f (disk s)) by (rewrite E; set_solver). apply elem_of_free in Hc as [H0 Hc].
  by destruct (R2 c Hc).
Qed.

Lemma runs_walk_alloc i : ∀ s c l, geometry_ok f (disk s) → chain f (disk s) c l → no_spare f (disk s) →
  (S i ≤ length l + length (free f (disk s)))%nat →
  ∃ c' d' l', runs (walk_alloc f i c) s c' (set_disk d' s) ∧ chain f d' c (l ++ l') ∧
    grown f (disk s) l d' l' ∧ (∀ x, valid f (disk s) x → cluster_data f d' x = cluster_data f (disk s) x) ∧
    (l ++ l') !! i = Some c' ∧ length (l ++ l') = Nat.max (length l) (S i).
Proof.
  induction i as [|i IH]; intros s c l Hg Hch Hsp Hn; cbn [walk_alloc].
  { exists c, (disk s), []. rewrite set_disk_same, app_nil_r. split_and!; [apply runs_ret|done|by apply grown_refl|done| |].
    - apply chain_hd in Hch. by rewrite head_lookup in Hch.
    - destruct l; [by inversion Hch|]. cbn. lia. }
  pose proof (chain_valid _ _ _ _ Hch) as Hv. assert (Hc : 0 ≤ c < entries f) by (destruct Hv; lia).
  inversion Hch as [? _ He|? l1 _ Hch']; subst.
  - destruct (runs_allocate_some s Hg) as (a & Ha & H0 & Hr); [cbn in Hn; lia|].
    destruct (link_spec f (disk s) c a Hg Hsp Hv He Ha H0) as (L1 & L2 & L3 & L4 & L5 & L6 & L7 & L8 & L9 & L10).
    set (d1 := set_entry f c _ _) in *.
    destruct (IH (set_disk d1 s) a [a]) as (c' & d' & l' & R1 & R2 & R3 & R4 & R5 & R6).
    { done. } { apply chain_last; [by eapply valid_len|]. cbn. rewrite L6. done. } { done. } { cbn in *. lia. }
    assert (Hnin : c ∉ [a] ++ l').
    { intros [->%list_elem_of_singleton|Hin]%elem_of_app; [done|].
      apply (proj1 (Forall_forall _ _) (gr_new _ _ _ _ _ R3)) in Hin as [_ Hin]. cbn in Hin.
      rewrite L5 in Hin. destruct L3. lia. }
    exists c', d', (a :: l'). split_and!.
    + eapply runs_bind; [by apply runs_get_next|]. rewrite (proj2 (Z.leb_le _ _)) by done.
      eapply runs_bind; [exact Hr|]. eapply runs_bind; [apply runs_set_next; [by apply geometry_set|done]|]. exact R1.
    + cbn. pose proof R3 as [G1 G2 G3 G4 G5 G6 G7]. apply chain_next; [eapply valid_len; [|exact Hv]; by rewrite G2|].
      rewrite G4 by done. cbn. rewrite L5. exact R2.
    + by eapply grown_link.
    + intros x Hx. cbn in R4. rewrite R4, L8; [done|done|by eapply valid_len].
    + exact R5.
    + cbn in *. lia.
  - destruct (IH s _ l1 Hg Hch' Hsp) as (c' & d' & l' & R1 & R2 & R3 & R4 & R5 & R6); [cbn in Hn; lia|].
    pose proof (chain_nodup _ _ _ _ Hg Hch) as Hnd. apply NoDup_cons in Hnd as [Hnd _].
    assert (Hu : entry f (disk s) c ≠ 0) by (eapply chain_used; [done|exact Hch|set_solver]).
    pose proof R3 as [G1 G2 G3 G4 G5 G6 G7].
    assert (Hnin : c ∉ l1 ++ l').
    { intros [Hin|Hin]%elem_of_app; [done|]. by apply (proj1 (Forall_forall _ _) G3) in Hin as [_ Hin]. }
    exists c', d', l'. split_and!.
    + eapply runs_bind; [by apply runs_get_next|].
      rewrite (proj2 (Z.leb_gt _ _)) by (apply chain_valid, (valid_below_end _ _ _ Hg) in Hch'; lia). exact R1.
    + cbn. apply chain_next; [by eapply valid_len|]. by rewrite G4.
    + constructor; try done.
      * intros x Hx Hn'. apply G4; [done|set_solver].
      * intros x Hx Hn'. apply G5; [done|set_solver].
    + done.
    + exact R5.
    + cbn in *. lia.
Qed.

(** The sector of a cluster that holds the byte [p] of the cluster. *)
Lemma sector_in_cluster d c p : geometry_ok f d → valid f d c → 0 ≤ p < cluster_size f →
  let lba := u32 (cluster_to_lba f c + p / 512) in
  SECTOR * lba + p mod 512 = cluster_addr f c + p ∧ sectors_ok lba 1 d ∧
  p - p mod 512 + 512 ≤ cluster_size f.
Proof.
  intros Hg Hv Hp lba. destruct (cluster_to_lba_spec f d c Hg Hv) as [E (S1 & S2 & S3 & S4)].
  pose proof (Z.div_mod p 512 ltac:(lia)) as Ed. pose proof (Z.mod_pos_bound p 512 ltac:(lia)).
  assert (p / 512 < sectors_per_cluster (bpb f)).
  { apply Z.div_lt_upper_bound; unfold cluster_size in *; lia. }
  assert (0 ≤ p / 512) by (apply Z.div_pos; lia). pose proof (go_disk f d Hg). unfold SECTOR in *.
  assert (El : lba = cluster_to_lba f c + p / 512) by (unfold lba; apply wrap_small; lia).
  unfold sectors_ok, SECTOR, cluster_size in *. rewrite El. split_and!; lia.
Qed.

Lemma mod_cluster_512 x : 1 ≤ sectors_per_cluster (bpb f) → (x mod cluster_size f) mod 512 = x mod 512.
Proof.
  intros H. unfold cluster_size. rewrite (Z.mul_comm _ 512), Z.rem_mul_r by lia.
  rewrite Z.mul_comm, Z.mod_add by lia. by apply Z.mod_mod.
Qed.

(** Where the loop is after the bytes [bw] were written. *)
Definition wrote s first l off buffer bw d' l' G : Prop :=
  chain f d' first (l ++ l') ∧ grown f (disk s) l d' l' ∧ len G = cluster_size f * len l' ∧
  flat f d' (l ++ l') = splice (off + bw) (drop (Z.to_nat bw) buffer) (flat f (disk s) l ++ G) ∧
  (bw < len buffer → off + len buffer ≤ cluster_size f * len (l ++ l')).

(** One turn: the walk, and the bytes [bs] put into the cluster it found. *)
Lemma wrote_step s first l off buffer bw d1 l1 c' bs d3 l3 G3 :
  let k := (off + bw) / cluster_size f in
  let p := (off + bw) mod cluster_size f in
  let d2 := splice (cluster_addr f c' + p) bs d1 in
  geometry_ok f (disk s) → chain f (disk s) first l → chain f d1 first (l ++ l1) →
  grown f (disk s) l d1 l1 → (∀ x, valid f (disk s) x → cluster_data f d1 x = cluster_data f (disk s) x) →
  0 ≤ off → 0 ≤ bw → (l ++ l1) !! Z.to_nat k = Some c' →
  bs = sub bw (len bs) buffer → 0 < len bs → bw + len bs ≤ len buffer → p + len bs ≤ cluster_size f →
  Forall byte bs →
  wrote (set_disk d2 s) first (l ++ l1) off buffer (bw + len bs) d3 l3 G3 →
  ∃ G, wrote s first l off buffer bw d3 (l1 ++ l3) G.
Proof.
  intros k p d2 Hg Hch Hch1 Hgr Hdata Hoff Hbw Hk Ebs Hbs Hbb Hpb Hbyte (C1 & C2 & C3 & C4 & C5).
  cbn [disk set_disk] in *. pose proof Hgr as [G1 G2 G4 G5 G6 G7 G8].
  pose proof (chain_all_valid _ _ _ _ Hch1) as Hval. pose proof (cluster_size_pos f _ Hg) as [Hcs _].
  assert (Hv' : valid f d1 c') by (eapply Forall_lookup_1; eauto).
  pose proof (Z.mod_pos_bound (off + bw) (cluster_size f) Hcs) as Hpp. fold p in Hpp.
  pose proof (Z.div_mod (off + bw) (cluster_size f) ltac:(lia)) as Edm. fold k p in Edm.
  assert (0 ≤ k) by (apply Z.div_pos; lia).
  assert (Hin : c' ∈ l ++ l1) by by eapply list_elem_of_lookup_2.
  assert (Hgd : grown f d1 (l ++ l1) d2 []) by (apply dw_grown; done || lia).
  assert (Hkl : k < len (l ++ l1)) by (apply lookup_lt_Some in Hk; unfold len; lia).
  assert (Ef : flat f d2 (l ++ l1) = splice (off + bw) bs (flat f (disk s) l ++ flat f d1 l1)).
  { unfold d2. rewrite (dw_flat f d1 c' p bs) with (k := Z.to_nat k); try done; try lia.
    - rewrite flat_app. f_equal; [lia|]. f_equal. apply flat_ext. intros y Hy. apply Hdata.
      eapply Forall_forall; [|exact Hy]. by eapply chain_all_valid.
    - by eapply chain_nodup. }
  assert (El1 : len (flat f d1 l1) = cluster_size f * len l1).
  { apply len_flat; [done|]. by apply Forall_app in Hval as [_ ?]. }
  pose proof (len_flat_chain f _ _ _ Hg Hch) as El. rewrite <- app_assoc in C1, C4.
  rewrite <- (app_assoc l l1 l3) in C5. pose proof (len_nonneg l3) as Hl3. rewrite len_app in Hkl.
  exists (flat f d1 l1 ++ G3). unfold wrote. split_and!.
  - exact C1.
  - eapply (grown_trans f _ _ d1); [done| |done|].
    { intros x Hx. by eapply chain_used. }
    change l3 with ([] ++ l3). eapply grown_trans; [apply Hgd| |exact Hgd|by rewrite app_nil_r].
    intros x Hx. rewrite app_nil_r in Hx. eapply chain_used; [apply Hgd| |exact Hx].
    apply dw_chain; (done || lia).
  - rewrite len_app, El1, C3, len_app. lia.
  - rewrite C4, Ef. rewrite <- splice_app_l by (rewrite ?len_app; nia).
    rewrite Z.add_assoc, splice_adjacent.
    + rewrite <- app_assoc. f_equal. rewrite Ebs at 1. unfold sub.
      replace (Z.to_nat (bw + len bs)) with (Z.to_nat bw + Z.to_nat (len bs))%nat by (unfold len; lia).
      rewrite <- drop_drop. apply take_drop.
    + lia.
    + rewrite !len_app. unfold len at 2. rewrite length_drop. fold (len buffer).
      destruct (decide (bw + len bs < len buffer)) as [Hlt|Hge].
      * specialize (C5 Hlt). rewrite !len_app in C5. unfold len in *. lia.
      * unfold len in *. nia.
  - intros _. rewrite !len_app in *. destruct (decide (bw + len bs < len buffer)); [lia|nia].
Qed.

(** The loop when everything is written. *)
Lemma runs_write_end n s first l off buffer :
  geometry_ok f (disk s) → chain f (disk s) first l → no_spare f (disk s) →
  ∃ d' l' G, runs (write_loop f n first off buffer (len buffer)) s (len buffer) (set_disk d' s) ∧
    wrote s first l off buffer (len buffer) d' l' G.
Proof.
  intros Hg Hch Hsp. exists (disk s), [], []. split.
  - rewrite set_disk_same. destruct n; cbn [write_loop]; rewrite Z.ltb_irrefl; apply runs_ret.
  - unfold wrote. rewrite !app_nil_r. split_and!; [done|by apply grown_refl|unfold len; cbn; lia| |lia].
    rewrite drop_ge by (unfold len; lia). by rewrite splice_nil.
Qed.

(** The sector of one turn, at the position [p] of the cluster. *)
Lemma runs_write_turn {A} s c p b lba buffer bw tw (k : unit → kernel W A) a s' :
  lba = u32 (cluster_to_lba f c + p / 512) → b = p mod 512 →
  geometry_ok f (disk s) → valid f (disk s) c → 0 ≤ p < cluster_size f → Forall byte buffer →
  0 ≤ bw → 0 ≤ tw → bw + tw ≤ len buffer → b + tw ≤ 512 →
  runs (k ()) (set_disk (splice (cluster_addr f c + p) (sub bw tw buffer) (disk s)) s) a s' →
  runs (sector_data ← read_sectors lba 1;
        part ← lift (get_bytes bw tw buffer);
        sector_data' ← lift (put_bytes b part sector_data);
        write_sectors lba 1 sector_data' ≫= k) s a s'.
Proof.
  intros -> -> Hg Hv Hp Hby Hbw Htw Hlen Hfit Hk.
  destruct (sector_in_cluster (disk s) c p Hg Hv Hp) as (E & Hs & _).
  pose proof (Z.mod_pos_bound p 512 ltac:(lia)). pose proof (len_sub bw tw buffer Hbw Htw Hlen) as El.
  eapply runs_bind; [by apply runs_read|]. destruct Hs as (S1 & S2 & S3 & S4).
  eapply runs_lift; [by apply get_bytes_ok|].
  eapply runs_lift; [apply put_bytes_ok; [lia|rewrite El, len_sub; unfold SECTOR in *; lia]|].
  eapply runs_bind; [apply runs_write_part; [done|apply Hg|by apply Forall_sub|lia|lia]|]. by rewrite E.
Qed.

Lemma runs_write_loop n : ∀ s first l off buffer bw,
  geometry_ok f (disk s) → chain f (disk s) first l → no_spare f (disk s) → Forall byte buffer →
  0 ≤ off → 0 ≤ bw ≤ len buffer → off + len buffer < 2 ^ 32 →
  (bw < len buffer → (off + bw) mod 512 + (len buffer - bw) ≤ 512 * Z.of_nat n) →
  off + len buffer ≤ cluster_size f * (len l + len (free f (disk s))) →
  ∃ d' l' G, runs (write_loop f n first off buffer bw) s (len buffer) (set_disk d' s) ∧
    wrote s first l off buffer bw d' l' G.
Proof.
  induction n as [|n IH]; intros s first l off buffer bw Hg Hch Hsp Hby Hoff Hbw Hw Hn Hroom;
    (destruct (decide (bw = len buffer)) as [->|Hlt]; [by apply runs_write_end|]);
    pose proof (Z.mod_pos_bound (off + bw) 512 ltac:(lia)) as Hb; specialize (Hn ltac:(lia)); [lia|].
  pose proof (cluster_size_pos f _ Hg) as [Hcs _]. pose proof (go_cluster _ _ Hg) as Hspc.
  pose proof (Z.div_mod (off + bw) (cluster_size f) ltac:(lia)) as Edm.
  pose proof (Z.mod_pos_bound (off + bw) (cluster_size f) Hcs) as Hp.
  assert (Hk0 : 0 ≤ (off + bw) / cluster_size f) by (apply Z.div_pos; lia).
  pose proof (mod_cluster_512 (off + bw) ltac:(lia)) as Em.
  destruct (runs_walk_alloc (Z.to_nat ((off + bw) / cluster_size f)) s first l Hg Hch Hsp)
    as (c' & d1 & l1 & R1 & R2 & R3 & R4 & R5 & R6).
  { unfold len in *. nia. }
  set (k := (off + bw) / cluster_size f) in *. set (p := (off + bw) mod cluster_size f) in *.
  pose proof (gr_geometry _ _ _ _ _ R3) as Hg1.
  assert (Hv : valid f d1 c') by (eapply Forall_lookup_1; [by eapply chain_all_valid|exact R5]).
  destruct (sector_in_cluster d1 c' p Hg1 Hv Hp) as (_ & _ & Hfit).
  set (room := 512 - (off + bw) mod 512).
  set (tw := if len buffer - bw <? room then len buffer - bw else room).
  assert (Htw : 0 < tw ≤ room ∧ tw ≤ len buffer - bw ∧ (tw = room ∨ tw = len buffer - bw)).
  { unfold tw. destruct (Z.ltb_spec (len buffer - bw) room); lia. }
  set (part := sub bw tw buffer). assert (Ep : len part = tw) by (apply len_sub; lia).
  assert (Hpart : Forall byte part) by by apply Forall_sub.
  set (s2 := set_disk (splice (cluster_addr f c' + p) part d1) (set_disk d1 s)).
  assert (Hg2 : grown f d1 (l ++ l1) (disk s2) []).
  { apply dw_grown; try done; try lia; [apply R3|by eapply list_elem_of_lookup_2]. }
  destruct (IH s2 first (l ++ l1) off buffer (bw + tw)) as (d3 & l3 & G3 & Hrun & Hwr).
  - apply Hg2.
  - apply dw_chain; (done || lia).
  - apply Hg2.
  - done.
  - done.
  - lia.
  - done.
  - intros Hmore. replace (off + (bw + tw)) with (((off + bw) / 512 + 1) * 512).
    + rewrite Z.mod_mul by lia. lia.
    + pose proof (Z.div_mod (off + bw) 512 ltac:(lia)). lia.
  - pose proof (gr_free _ _ _ _ _ R3) as Hf1. pose proof (gr_free _ _ _ _ _ Hg2) as Hf2.
    cbn [length] in Hf2.
    replace (len (l ++ l1) + len (free f (disk s2))) with (len l + len (free f (disk s))); [done|].
    rewrite len_app. unfold len. lia.
  - rewrite <- Ep in Hwr. destruct (wrote_step s first l off buffer bw d1 l1 c' part d3 l3 G3) as (G & Hres);
      try done; try (rewrite Ep; done); try lia.
    exists d3, (l1 ++ l3), G. split; [|exact Hres]. cbn [write_loop].
    rewrite (proj2 (Z.ltb_lt _ _)) by lia. rewrite (wrap_small 32 (off + bw)) by lia.
    eapply runs_lift; [apply udiv_ok; lia|]. eapply runs_bind; [exact R1|].
    eapply runs_lift; [apply umod_ok; lia|]. fold p; fold room; fold tw.
    eapply runs_write_turn; try done; try lia.
Qed.

(** ** The directory entry *)

(** The entry of the file is in sector [i] of a cluster [dc] of another chain. *)
Record entry_at (d l : list Z) (fl : FAT32_File) (dc i : Z) : Prop := {
  ea_valid : valid f d dc;
  ea_used : entry f d dc ≠ 0;
  ea_other : (dc ∉ l);
  ea_sector : 0 ≤ i < sectors_per_cluster (bpb f);
  ea_lba : dir_entry_lba fl = cluster_to_lba f dc + i;
  ea_offset : 0 ≤ dir_entry_offset fl ∧ dir_entry_offset fl + 32 ≤ 512
}.

(** Where the size is in the cluster of the entry. *)
Definition size_field (fl : FAT32_File) (i : Z) : Z := 512 * i + dir_entry_offset fl + 28.

Lemma runs_update_metadata s fl dc i : geometry_ok f (disk s) → valid f (disk s) dc →
  0 ≤ i < sectors_per_cluster (bpb f) → dir_entry_lba fl = cluster_to_lba f dc + i →
  0 ≤ dir_entry_offset fl ∧ dir_entry_offset fl + 32 ≤ 512 →
  runs (update_metadata fl) s ()
    (set_disk (splice (cluster_addr f dc + size_field fl i) (le 4 (size fl)) (disk s)) s).
Proof.
  intros Hg E1 E4 E5 E6. destruct (cluster_to_lba_spec f _ dc Hg E1) as [Ea (S1 & S2 & S3 & S4)].
  assert (Hs : sectors_ok (dir_entry_lba fl) 1 (disk s)).
  { unfold sectors_ok, SECTOR in *. rewrite E5. lia. }
  unfold update_metadata. eapply runs_bind; [by apply runs_read|]. unfold SECTOR in *.
  eapply runs_lift; [apply put_le_ok; [lia|rewrite len_sub; lia]|].
  replace (cluster_addr f dc + size_field fl i) with (SECTOR * dir_entry_lba fl + (dir_entry_offset fl + 28))
    by (unfold size_field, SECTOR; lia).
  apply runs_write_part; [done|apply Hg|apply le_bytes|lia|rewrite len_le; lia].
Qed.

Lemma runs_file_write s fl l dc i off data :
  geometry_ok f (disk s) → chain f (disk s) (first_cluster fl) l → no_spare f (disk s) →
  entry_at (disk s) l fl dc i → 0 ≤ size fl ≤ cluster_size f * len l → 0 ≤ off ≤ size fl →
  Forall byte data → off + len data < 2 ^ 32 →
  off + len data ≤ cluster_size f * (len l + len (free f (disk s))) →
  let fl' := set_size (Z.max (size fl) (off + len data)) fl in
  ∃ d l', runs (write f fl off data) s (len data, fl') (set_disk d s) ∧
    geometry_ok f d ∧ len d = len (disk s) ∧ chain f d (first_cluster fl') (l ++ l') ∧
    content f d (l ++ l') fl' = splice off data (content f (disk s) l fl) ∧
    Forall (λ c, entry f (disk s) c = 0) l' ∧
    (∀ c, 0 ≤ c < entries f → (c ∉ l ++ l') → entry f d c = entry f (disk s) c) ∧
    (∀ c, valid f (disk s) c → (c ∉ l ++ l') → c ≠ dc → cluster_data f d c = cluster_data f (disk s) c) ∧
    cluster_data f d dc = (if size fl <? size fl' then splice (size_field fl i) (le 4 (size fl')) else id)
                            (cluster_data f (disk s) dc).
Proof.
  intros Hg Hch Hsp He Hs Hoff Hby Hw Hroom fl'.
  destruct (runs_write_loop (Z.to_nat (len data / 512) + 2) s (first_cluster fl) l off data 0)
    as (d & l' & G & Hrun & Hch' & Hgr & HG & Hflat & _); try done; try lia.
  { pose proof (len_nonneg data). lia. }
  { intros _. pose proof (Z.div_mod (len data) 512 ltac:(lia)). pose proof (Z.mod_pos_bound (len data) 512 ltac:(lia)).
    pose proof (Z.mod_pos_bound (off + 0) 512 ltac:(lia)). pose proof (Z.div_pos (len data) 512 (len_nonneg data) ltac:(lia)). lia. }
  rewrite Z.add_0_r, drop_0 in Hflat. pose proof (len_nonneg data) as Hd0.
  pose proof (len_flat_chain f _ _ _ Hg Hch) as El. pose proof Hgr as [G1 G2 G3 G4 G5 G6 G7].
  assert (Hcont : ∀ d2, flat f d2 (l ++ l') = flat f d (l ++ l') →
    content f d2 (l ++ l') fl' = splice off data (content f (disk s) l fl)).
  { intros d2 E. unfold content. rewrite E, Hflat. apply sub_splice_grow; cbn [size fl' set_size]; lia. }
  assert (Hnew : Forall (λ c, entry f (disk s) c = 0) l').
  { eapply Forall_impl; [exact G3|]. by intros c [_ ?]. }
  assert (Hdc : dc ∉ l ++ l').
  { intros [Hin|Hin]%elem_of_app; [by apply (ea_other _ _ _ _ _ He)|].
    apply (ea_used _ _ _ _ _ He). by apply (proj1 (Forall_forall _ _) Hnew). }
  pose proof (ea_valid _ _ _ _ _ He) as Hdv. cbn [size fl' set_size].
  destruct (Z.ltb_spec (size fl) (Z.max (size fl) (off + len data))) as [Hgrow|Hno].
  - pose proof He as [E1 E2 E3 E4 E5 E6].
    assert (He' : entry_at d (l ++ l') fl' dc i).
    { constructor; try done; [by eapply valid_len|]. rewrite G4; [done|destruct Hdv; lia|done]. }
    assert (Hfield : 0 ≤ size_field fl i ∧ size_field fl i + len (le 4 (size fl')) ≤ cluster_size f).
    { rewrite len_le. unfold size_field, cluster_size. lia. }
    assert (Hdv' : valid f d dc) by by eapply valid_len. destruct Hfield as [F1 F2].
    set (d2 := splice (cluster_addr f dc + size_field fl i) (le 4 (size fl')) d).
    exists d2, l'. split_and!.
    + eapply runs_bind; [exact Hrun|]. rewrite (wrap_small 32), (proj2 (Z.ltb_lt _ _)) by lia.
      replace (off + len data) with (Z.max (size fl) (off + len data)) by lia.
      eapply runs_bind; [by apply (runs_update_metadata (set_disk d s) fl' dc i)|]. apply runs_ret.
    + apply dw_geometry; (done || apply le_bytes).
    + rewrite <- G2. by apply dw_len.
    + by apply dw_chain.
    + apply Hcont, flat_ext. intros c Hc. apply dw_other; try done.
      * eapply Forall_forall; [|exact Hc]. by eapply chain_all_valid.
      * by intros ->.
    + done.
    + intros c Hc Hn. unfold d2. rewrite dw_entry by done. auto.
    + intros c Hc Hn Hne. unfold d2. rewrite dw_other; [by apply G5|done..| |done]. by eapply valid_len.
    + unfold d2. rewrite dw_same by done. cbn [fl' set_size size]. f_equal. by apply G5.
  - exists d, l'. split_and!; try done.
    + eapply runs_bind; [exact Hrun|]. rewrite (wrap_small 32), (proj2 (Z.ltb_ge _ _)) by lia.
      replace fl' with fl; [apply runs_ret|]. unfold fl', set_size. rewrite Z.max_l by lia. by destruct fl.
    + by apply Hcont.
    + intros c Hc Hn _. by apply G5.
    + by apply G5.
Qed.

(** ** A full disk *)

Lemma runs_allocate_none s : geometry_ok f (disk s) → free f (disk s) = [] →
  runs (allocate_cluster f) s 0 s.
Proof.
  intros Hg Hn. destruct (runs_allocate f s Hg) as (a & s' & [(R1 & R2 & R3 & ->)|(-> & _ & ->)] & Hr); [|done].
  assert (Ha : a ∈ free f (disk s)) by by apply elem_of_free. rewrite Hn in Ha. set_solver.
Qed.

(** The walk past the end unlinks: the last cluster gets the entry 0. *)
Lemma runs_walk_full l : ∀ s c x, geometry_ok f (disk s) → chain f (disk s) c l → free f (disk s) = [] →
  last l = Some x → runs (walk_alloc f (length l) c) s 0 (set_disk (set_entry f x 0 (disk s)) s).
Proof.
  induction l as [|c0 l IH]; intros s c x Hg Hch Hn Hx; [inversion Hch|].
  assert (c0 = c) as -> by (apply chain_hd in Hch; by injection Hch).
  pose proof (chain_valid _ _ _ _ Hch) as Hv. assert (Hc : 0 ≤ c < entries f) by (destruct Hv; lia).
  cbn [length walk_alloc]. eapply runs_bind; [by apply runs_get_next|].
  inversion Hch as [? _ He|? ? _ Hch']; subst.
  - injection Hx as <-. rewrite (proj2 (Z.leb_le _ _)) by done.
    eapply runs_bind; [by apply runs_allocate_none|]. eapply runs_bind; [by apply runs_set_next|]. apply runs_ret.
  - rewrite (proj2 (Z.leb_gt _ _)) by (apply chain_valid, (valid_below_end _ _ _ Hg) in Hch'; lia).
    apply IH; try done. rewrite last_cons in Hx. destruct l; [inversion Hch'|]. destruct (last (z :: l)) eqn:E; [done|by apply last_None in E].
Qed.

(** The number 0 as a cluster is the place two clusters before the data. *)
Lemma cluster_zero d : geometry_ok f d → 2 * sectors_per_cluster (bpb f) ≤ data_lba f →
  cluster_to_lba f 0 = data_lba f - 2 * sectors_per_cluster (bpb f).
Proof.
  intros [G1 G2 G3 G4 G5 G6 G7 G8 _] H. unfold cluster_to_lba. fold (data_lba f).
  rewrite (wrap_small 32 (data_lba f)) by lia. unfold wrap.
  replace (data_lba f + (0 - 2) mod 2 ^ 32 * sectors_per_cluster (bpb f))
    with (data_lba f - 2 * sectors_per_cluster (bpb f) + sectors_per_cluster (bpb f) * 2 ^ 32).
  - rewrite Z.mod_add by lia. apply Z.mod_small. lia.
  - change ((0 - 2) mod 2 ^ 32) with (2 ^ 32 - 2). lia.
Qed.

(** ** Properties *)

(** [read] answers the part of the contents asked for: the bytes of the clusters of
    the chain cut at the size of the file; the disk does not change and the
    scratch buffer is given back. *)
Theorem file_read_content s fl l off n :
  geometry_ok f (disk s) → chain f (disk s) (first_cluster fl) l →
  0 ≤ size fl ≤ cluster_size f * len l → cluster_size f ≤ quota s →
  0 ≤ off → 0 ≤ n → off + n < 2 ^ 32 →
  runs (read f fl off n) s (sub off n (content f (disk s) l fl)) s.
Proof. apply runs_file_read. Qed.

(** C6. [write] at or before the end of a file overwrites and extends its contents with
    the data, growing the chain by free clusters as needed when there are enough;
    the new size is in the object and in the directory entry, and no other entry
    of the table and no other cluster changes. *)
Theorem file_write_extends s fl l dc i off data :
  geometry_ok f (disk s) → chain f (disk s) (first_cluster fl) l → no_spare f (disk s) →
  entry_at (disk s) l fl dc i → 0 ≤ size fl ≤ cluster_size f * len l → 0 ≤ off ≤ size fl →
  Forall byte data → off + len data < 2 ^ 32 →
  off + len data ≤ cluster_size f * (len l + len (free f (disk s))) →
  let fl' := set_size (Z.max (size fl) (off + len data)) fl in
  ∃ d l', runs (write f fl off data) s (len data, fl') (set_disk d s) ∧
    geometry_ok f d ∧ len d = len (disk s) ∧ chain f d (first_cluster fl') (l ++ l') ∧
    content f d (l ++ l') fl' = splice off data (content f (disk s) l fl) ∧
    Forall (λ c, entry f (disk s) c = 0) l' ∧
    (∀ c, 0 ≤ c < entries f → (c ∉ l ++ l') → entry f d c = entry f (disk s) c) ∧
    (∀ c, valid f (disk s) c → (c ∉ l ++ l') → c ≠ dc → cluster_data f d c = cluster_data f (disk s) c) ∧
    cluster_data f d dc = (if size fl <? size fl' then splice (size_field fl i) (le 4 (size fl')) else id)
                            (cluster_data f (disk s) dc).
Proof. apply runs_file_write. Qed.

(** On a full volume [write] at the end of the last cluster reports success and
    grows the size of the file, but its data goes two clusters before the data
    area, over the table or the boot sector, and the chain of the file is broken
    by a 0 in the entry of its last cluster. *)
Theorem file_write_full_volume s fl l x dc i data :
  geometry_ok f (disk s) → chain f (disk s) (first_cluster fl) l → last l = Some x →
  free f (disk s) = [] → 2 * sectors_per_cluster (bpb f) ≤ data_lba f →
  entry_at (disk s) l fl dc i → size fl = cluster_size f * len l → Forall byte data →
  0 < len data ≤ 512 → size fl + len data < 2 ^ 32 →
  let fl' := set_size (size fl + len data) fl in
  runs (write f fl (size fl) data) s (len data, fl')
    (set_disk (splice (cluster_addr f dc + size_field fl i) (le 4 (size fl'))
      (splice (512 * (data_lba f - 2 * sectors_per_cluster (bpb f))) data
        (set_entry f x 0 (disk s)))) s).
Proof.
  intros Hg Hch Hx Hfree Hlow He Hs Hby Hd Hw fl'. pose proof (cluster_size_pos f _ Hg) as [Hcs _].
  assert (Hl0 : 0 ≤ len l) by apply len_nonneg. pose proof He as [E1 E2 E3 E4 E5 E6].
  assert (Hxr : 0 ≤ x < entries f).
  { apply last_Some_elem_of in Hx. eapply Forall_forall in Hx; [|by eapply chain_all_valid]. destruct Hx. lia. }
  set (d1 := set_entry f x 0 (disk s)). assert (Hg1 : geometry_ok f d1) by by apply geometry_set.
  pose proof (len_set_entry f _ x 0 Hg Hxr) as Ed1. fold d1 in Ed1.
  pose proof Hg as [G1 G2 G3 G4 G5 G6 G7 G8 G9].
  set (lba := data_lba f - 2 * sectors_per_cluster (bpb f)).
  assert (Hlba : sectors_ok lba 1 d1) by (unfold sectors_ok, SECTOR, lba; lia).
  assert (Hk : size fl / cluster_size f = len l) by (rewrite Hs, Z.mul_comm; apply Z.div_mul; lia).
  assert (Hm : size fl mod cluster_size f = 0) by (rewrite Hs, Z.mul_comm; apply Z.mod_mul; lia).
  assert (Hm2 : size fl mod 512 = 0).
  { rewrite Hs. unfold cluster_size. rewrite <- Z.mul_assoc, (Z.mul_comm 512), Z.mul_assoc. by apply Z.mod_mul. }
  assert (Hrun : runs (write_loop f (Z.to_nat (len data / 512) + 2) (first_cluster fl) (size fl) data 0) s (len data)
    (set_disk (splice (512 * lba) data d1) s)).
  { replace (Z.to_nat (len data / 512) + 2)%nat with (S (Z.to_nat (len data / 512) + 1)) by lia. cbn [write_loop].
    rewrite (proj2 (Z.ltb_lt _ _)), Z.add_0_r, (wrap_small 32 (size fl)) by lia.
    eapply runs_lift; [apply udiv_ok; lia|]. rewrite Hk. replace (Z.to_nat (len l)) with (length l) by (unfold len; lia).
    eapply runs_bind; [by apply (runs_walk_full l s _ x)|]. eapply runs_lift; [apply umod_ok; lia|].
    rewrite Hm, Hm2, (cluster_zero _ Hg Hlow), Z.add_0_r. fold lba d1. rewrite (wrap_small 32 lba) by (unfold lba; lia).
    eapply runs_bind; [by apply runs_read|]. rewrite !Z.sub_0_r.
    replace (if len data <? 512 then len data else 512) with (len data) by (destruct (Z.ltb_spec (len data) 512); lia).
    eapply runs_lift; [apply get_bytes_ok; lia|]. rewrite sub_full.
    destruct Hlba as (S1 & S2 & S3 & S4). unfold SECTOR in S4.
    eapply runs_lift; [apply put_bytes_ok; [lia|rewrite len_sub; unfold SECTOR; cbn [disk set_disk]; lia]|].
    eapply runs_bind; [apply (runs_write_part (set_disk d1 s)); [done|apply Hg1|done|lia|lia]|].
    rewrite Z.add_0_r. replace (Z.to_nat (len data / 512) + 1)%nat with (S (Z.to_nat (len data / 512))) by lia.
    cbn [write_loop]. rewrite Z.add_0_l, Z.ltb_irrefl. apply runs_ret. }
  eapply runs_bind; [exact Hrun|]. rewrite (wrap_small 32), (proj2 (Z.ltb_lt _ _)) by lia.
  assert (Ed2 : len (splice (512 * lba) data d1) = len d1) by (apply len_splice; unfold lba; lia).
  eapply runs_bind; [|apply runs_ret].
  apply (runs_update_metadata (set_disk (splice (512 * lba) data d1) s) fl' dc i); try done.
  - eapply geometry_len; [exact Hg1|done|]. by apply Forall_splice; [|apply Hg1].
  - eapply valid_len; [|exact E1]. cbn. by rewrite Ed2.
Qed.
End writing.

(** ** Witnesses on the small volume *)

Import Block.Pure.

(** A file of 1000 bytes in the clusters 3 and 4, whose entry is the second one of
    the directory in cluster 2. *)
Definition demo_file : FAT32_File := mk_file [65] 3 1000 2 32.
Definition full_disk : list Z := set_entry demo_fat 5 ENTRY_MASK demo_disk.

Lemma demo_free_clusters : free demo_fat demo_disk = [5].
Proof. vm_compute. reflexivity. Qed.

Lemma demo_no_spare : no_spare demo_fat demo_disk.
Proof.
  intros c Hc E. assert (H : c ∈ free demo_fat demo_disk) by by apply elem_of_free.
  rewrite demo_free_clusters in H. apply list_elem_of_singleton in H as ->. repeat split; vm_compute; congruence.
Qed.

Lemma demo_entry d n : len d = len demo_disk → entry demo_fat d 2 = ENTRY_MASK →
  entry_at demo_fat d [3; 4] (set_size n demo_file) 2 0.
Proof.
  intros El Ee. constructor.
  - eapply valid_len; [exact El|]. repeat split; vm_compute; congruence.
  - by rewrite Ee.
  - set_solver.
  - vm_compute. split; congruence.
  - vm_compute. reflexivity.
  - vm_compute. split; congruence.
Qed.

Lemma file_read_content_witness :
  runs (W := store) (read demo_fat demo_file 510 4) demo_store [65; 65; 66; 66] demo_store.
Proof.
  assert (E : sub 510 4 (content demo_fat demo_disk [3; 4] demo_file) = [65; 65; 66; 66]) by (vm_compute; reflexivity).
  rewrite <- E. apply (file_read_content demo_fat demo_store demo_file [3; 4] 510 4 demo_geometry demo_chain).
  - vm_compute. split; congruence.
  - vm_compute. congruence.
  - lia.
  - lia.
  - lia.
Defined.

Lemma file_write_extends_witness :
  ∃ d l', runs (W := store) (write demo_fat demo_file 1000 (replicate 30 9)) demo_store
      (30, set_size 1030 demo_file) (set_disk d demo_store) ∧
    chain demo_fat d 3 ([3; 4] ++ l') ∧ geometry_ok demo_fat d.
Proof.
  destruct (file_write_extends demo_fat demo_store demo_file [3; 4] 2 0 1000 (replicate 30 9)
    demo_geometry demo_chain demo_no_spare) as (d & l' & H1 & H2 & _ & H3 & _).
  - apply (demo_entry demo_disk 1000); vm_compute; reflexivity.
  - vm_compute. split; congruence.
  - vm_compute. split; congruence.
  - apply bytes_check. vm_compute. reflexivity.
  - vm_compute. congruence.
  - vm_compute. congruence.
  - exists d, l'. split; [exact H1|]. split; [exact H3|exact H2].
Defined.

Lemma full_chain : chain demo_fat full_disk 3 [3; 4].
Proof.
  eapply chain_ext; [apply demo_chain|vm_compute; reflexivity|].
  intros c Hc. apply entry_set_other; [apply demo_geometry|vm_compute; split; congruence| |];
    (repeat (apply elem_of_cons in Hc as [->|Hc]); [vm_compute; first [congruence|split; congruence]..|set_solver]).
Qed.

(** The file of two full clusters on the full volume: its data goes over the boot sector. *)
Lemma file_write_full_volume_witness :
  ∃ d, runs (W := store) (write demo_fat (set_size 1024 demo_file) 1024 [7; 8; 9]) (mk_store full_disk ∅ 4096)
      (3, set_size 1027 demo_file) (mk_store d ∅ 4096) ∧
    sub 0 3 d = [7; 8; 9] ∧ entry demo_fat d 4 = 0.
Proof.
  eexists. split; [|split].
  - apply (file_write_full_volume demo_fat (mk_store full_disk ∅ 4096) (set_size 1024 demo_file) [3; 4] 4 2 0 [7; 8; 9]).
    + apply geometry_set; [apply demo_geometry|vm_compute; split; congruence].
    + apply full_chain.
    + reflexivity.
    + vm_compute. reflexivity.
    + vm_compute. congruence.
    + apply demo_entry; vm_compute; reflexivity.
    + vm_compute. reflexivity.
    + repeat constructor; lia.
    + vm_compute. split; congruence.
    + vm_compute. congruence.
  - vm_compute. reflexivity.
  - vm_compute. reflexivity.
Defined.
End FatFile.
