(* ===== verification/FatDir.v ===== *)
(** * FAT32: directories (fs/fat32_vfs.cpp: FAT32_Directory, compare_fat_name)

    A directory is the array of 32-byte entries in the clusters of its chain.
    The code walks it cluster by cluster with a scratch buffer, and collects long
    names in an array of 256 characters. *)

From S2P Require Import Prelude Bytes LibcString Block Fat FatFile Vfs.

Module FatDir.
Import Bytes LibcString Block Fat FatFile.

Record FAT32_Directory : Set := mk_directory { dname : list Z; cluster : Z }.

(** What [finddir] and [create] make. *)
Inductive fat_node : Set := NodeFile (fl : FAT32_File) | NodeDirectory (dir : FAT32_Directory).

Definition new_directory (n : list Z) (c : Z) : FAT32_Directory := mk_directory (take 127 n) c.

Definition ENTRY : Z := 32.
Definition DELETED : Z := 0xE5.
Definition ATTR_VOLUME : Z := 0x08.
Definition ATTR_DIRECTORY : Z := 0x10.
Definition ATTR_ARCHIVE : Z := 0x20.
Definition ATTR_LFN : Z := 0x0F.
Definition attr_set (attr flag : Z) : bool := negb (Z.land attr flag =? 0).

(** ** Short names *)

Definition upcase (c : Z) : Z := if (97 <=? c) && (c <=? 122) then c - 32 else c.

(** Up to [n] characters before a dot, and what follows. *)
Fixpoint take_base (n : nat) (s : list Z) : list Z * list Z :=
  match n, s with
  | S n', c :: s' => if c =? 46 then ([], s) else let '(b, r) := take_base n' s' in (upcase c :: b, r)
  | _, _ => ([], s)
  end.

Definition pad (n : nat) (s : list Z) : list Z := s ++ replicate (n - length s) 32.

(** The 11 characters that [compare_fat_name] looks for. *)
Definition name83 (search_name : list Z) : list Z :=
  let '(b, r) := take_base 8 search_name in
  let ext := match r with c :: r' => if c =? 46 then upcase <$> take 3 r' else [] | [] => [] end in
  pad 8 b ++ pad 3 ext.

Definition compare_fat_name (fat_name search_name : list Z) : bool :=
  if bool_decide (search_name = Vfs.DOT) then bool_decide (fat_name = pad 11 Vfs.DOT)
  else if bool_decide (search_name = Vfs.DOTDOT) then bool_decide (fat_name = pad 11 Vfs.DOTDOT)
  else bool_decide (fat_name = name83 search_name).

(** ** Long names *)

(** The string in an array. *)
Fixpoint c_string (l : list Z) : list Z :=
  match l with c :: l' => if c =? 0 then [] else c :: c_string l' | [] => [] end.

Definition no_lfn : list Z := replicate 256 0.

(** [for (k < n) if (name[k]) lfn_name[to + k] = name[k]]; [skip_ffff]: only if it is not 0xFFFF. *)
Fixpoint put_chars (skip_ffff : bool) (n : nat) (from to : Z) (entry : list Z) (lfn : list Z) : outcome (list Z) :=
  match n with
  | O => Ok lfn
  | S n' =>
      u ← get16 from entry;
      lfn' ← (if (u =? 0) || (skip_ffff && (u =? 0xFFFF)) then Ok lfn else put8 to u lfn);
      put_chars skip_ffff n' (from + 2) (to + 1) entry lfn'
  end.

(** The part of a long name in an entry. *)
Definition put_lfn (skip_ffff : bool) (entry : list Z) (lfn : list Z) : outcome (list Z) :=
  sequence ← get8 0 entry;
  let index := (Z.land sequence 0x3F - 1) * 13 in
  if (0 <=? index) && (index <? 240) then
    l1 ← put_chars skip_ffff 5 1 index entry lfn;
    l2 ← put_chars skip_ffff 6 14 (index + 5) entry l1;
    put_chars skip_ffff 2 28 (index + 11) entry l2
  else Ok lfn.

(** ** Entries *)

Definition entry_cluster (e : list Z) : outcome Z :=
  hi ← get16 20 e; lo ← get16 26 e; Ok (Z.lor (Z.shiftl hi 16) lo).

Inductive scan : Set := Found (i : Z) | Ended | More (lfn : list Z).

(** The loop of [finddir] over [n] entries of a buffer from number [i] on. *)
Fixpoint find_entries (n : nat) (i : Z) (name : list Z) (buffer lfn : list Z) : outcome scan :=
  match n with
  | O => Ok (More lfn)
  | S n' =>
      e ← get_bytes (ENTRY * i) ENTRY buffer;
      c ← get8 0 e;
      attr ← get8 11 e;
      if c =? 0 then Ok Ended
      else if c =? DELETED then find_entries n' (i + 1) name buffer no_lfn
      else if attr_set attr ATTR_VOLUME && negb (attr =? ATTR_LFN) then find_entries n' (i + 1) name buffer lfn
      else if attr =? ATTR_LFN then
        lfn' ← put_lfn true e lfn; find_entries n' (i + 1) name buffer lfn'
      else if (match lfn with c0 :: _ => negb (c0 =? 0) | [] => false end
               && (str_diff (c_string lfn) name =? 0)) ||
              (match lfn with c0 :: _ => c0 =? 0 | [] => true end
               && compare_fat_name (take 11 e) name)
      then Ok (Found i) else find_entries n' (i + 1) name buffer no_lfn
  end.

(** The object for entry [i] of the cluster at [lba]. *)
Definition make_node (name : list Z) (lba i : Z) (buffer : list Z) : outcome fat_node :=
  e ← get_bytes (ENTRY * i) ENTRY buffer;
  attr ← get8 11 e;
  f_cluster ← entry_cluster e;
  if attr_set attr ATTR_DIRECTORY then Ok (NodeDirectory (new_directory name f_cluster))
  else
    sz ← get32 28 e;
    Ok (NodeFile (new_file name f_cluster sz (u32 (lba + i * ENTRY / 512)) (i * ENTRY mod 512))).

(** The text of a short name as [readdir] shows it; no entry with a volume label gets here. *)
Definition no_spaces (s : list Z) : list Z := filter (λ c, c ≠ 32) s.
Definition show_name (e : list Z) : list Z :=
  no_spaces (take 8 e) ++
  (if bool_decide (sub 8 1 e = [32]) then [] else 46 :: no_spaces (sub 8 3 e)).

Inductive listing : Set := Item (de : Vfs.vfs_dirent) | ListEnd | Next (logical_index : Z) (lfn : list Z).

(** The loop of [readdir]. *)
Fixpoint read_entries (n : nat) (i index logical_index : Z) (buffer lfn : list Z) : outcome listing :=
  match n with
  | O => Ok (Next logical_index lfn)
  | S n' =>
      e ← get_bytes (ENTRY * i) ENTRY buffer;
      c ← get8 0 e;
      attr ← get8 11 e;
      if c =? 0 then Ok ListEnd
      else if c =? DELETED then read_entries n' (i + 1) index logical_index buffer no_lfn
      else if attr_set attr ATTR_VOLUME && negb (attr =? ATTR_LFN) then
        read_entries n' (i + 1) index logical_index buffer no_lfn
      else if attr =? ATTR_LFN then
        lfn' ← put_lfn false e lfn; read_entries n' (i + 1) index logical_index buffer lfn'
      else if logical_index =? index then
        let nm := match lfn with c0 :: _ => if c0 =? 0 then c_string (show_name e) else take 127 (c_string lfn)
                  | [] => [] end in
        inode ← entry_cluster e;
        Ok (Item (Vfs.mk_dirent nm inode 0))
      else read_entries n' (i + 1) index (u32 (logical_index + 1)) buffer no_lfn
  end.

(** The first entry of a buffer that is free. *)
Fixpoint free_entry (n : nat) (i : Z) (buffer : list Z) : outcome (option Z) :=
  match n with
  | O => Ok None
  | S n' =>
      c ← get8 (ENTRY * i) buffer;
      if (c =? 0) || (c =? DELETED) then Ok (Some i) else free_entry n' (i + 1) buffer
  end.

(** The first entry of a buffer with the short name; an unused one ends the search of the buffer. *)
Fixpoint match_entry (n : nat) (i : Z) (name buffer : list Z) : outcome (option Z) :=
  match n with
  | O => Ok None
  | S n' =>
      e ← get_bytes (ENTRY * i) ENTRY buffer;
      c ← get8 0 e;
      if c =? 0 then Ok None
      else if c =? DELETED then match_entry n' (i + 1) name buffer
      else if compare_fat_name (take 11 e) name then Ok (Some i)
      else match_entry n' (i + 1) name buffer
  end.

(** Marks the entries of a long name before entry [i], from [j = i - 1] down. *)
Fixpoint delete_lfn (n : nat) (buffer : list Z) : outcome (list Z) :=
  match n with
  | O => Ok buffer
  | S n' =>
      let j := Z.of_nat n' in
      attr ← get8 (ENTRY * j + 11) buffer;
      if attr =? ATTR_LFN then b ← put8 (ENTRY * j) DELETED buffer; delete_lfn n' b else Ok buffer
  end.

(** The 32 bytes of a new entry. *)
Definition raw_entry (short : list Z) (attr first_cluster sz : Z) : list Z :=
  short ++ le 1 attr ++ replicate 8 0 ++ le 2 (Z.shiftr first_cluster 16) ++ replicate 4 0 ++
  le 2 first_cluster ++ le 4 sz.

(** The short name that [mkdir] stores, and the one that [create] stores: the
    extension is what follows the last dot. *)
Definition mkdir_name (name : list Z) : list Z := pad 11 (fst (take_base 8 name)).

Fixpoint after_last_dot (s : list Z) : option (list Z) :=
  match s with
  | [] => None
  | c :: s' =>
      match after_last_dot s' with
      | Some r => Some r
      | None => if c =? 46 then Some s' else None
      end
  end.

Definition create_name (name : list Z) : list Z :=
  pad 8 (fst (take_base 8 name)) ++
  pad 3 (match after_last_dot name with Some ext => upcase <$> take 3 ext | None => [] end).

Section directory.
Context {W : Type} `{!BlockDevice W, !Allocator W}.
Context (f : FAT32Manager).

Definition per_cluster : nat := Z.to_nat (cluster_size f / ENTRY).
Definition in_use (c : Z) : bool := (c <? END_OF_CHAIN) && negb (c =? 0).
Definition read_cluster (buffer c : Z) : kernel W (list Z) :=
  read_into buffer (cluster_to_lba f c) (sectors_per_cluster (bpb f)).

Fixpoint find_loop (n : nat) (buffer current_cluster : Z) (name lfn_name : list Z) : kernel W (option fat_node) :=
  if in_use current_cluster then
    match n with
    | O => lift OutOfFuel
    | S n' =>
        data ← read_cluster buffer current_cluster;
        r ← lift (find_entries per_cluster 0 name data lfn_name);
        match r with
        | Found i => res ← lift (make_node name (cluster_to_lba f current_cluster) i data); mret (Some res)
        | Ended => mret None
        | More lfn' =>
            next ← get_next_cluster f current_cluster; find_loop n' buffer next name lfn'
        end
    end
  else mret None.

Definition finddir (dir : FAT32_Directory) (name : list Z) : kernel W (option fat_node) :=
  buffer ← kmalloc (cluster_size f);
  r ← find_loop (fuel f) buffer (cluster dir) name no_lfn;
  kfree buffer;;
  mret r.

Fixpoint readdir_loop (n : nat) (buffer current_cluster index logical_index : Z) (lfn_name : list Z)
  : kernel W (option Vfs.vfs_dirent) :=
  if in_use current_cluster then
    match n with
    | O => lift OutOfFuel
    | S n' =>
        data ← read_cluster buffer current_cluster;
        r ← lift (read_entries per_cluster 0 index logical_index data lfn_name);
        match r with
        | Item de => mret (Some de)
        | ListEnd => mret None
        | Next k lfn' =>
            next ← get_next_cluster f current_cluster; readdir_loop n' buffer next index k lfn'
        end
    end
  else mret None.

Definition readdir (dir : FAT32_Directory) (index : Z) : kernel W (option Vfs.vfs_dirent) :=
  buffer ← kmalloc (cluster_size f);
  r ← readdir_loop (fuel f) buffer (cluster dir) index 0 no_lfn;
  kfree buffer;;
  mret r.

(** Where the first free entry is: the sector and the offset in it.  The
    directory grows when there is none; the new cluster is not cleared. *)
Fixpoint free_entry_loop (n : nat) (buffer current_cluster : Z) : kernel W (option (Z * Z)) :=
  if current_cluster <? END_OF_CHAIN then
    match n with
    | O => lift OutOfFuel
    | S n' =>
        data ← read_cluster buffer current_cluster;
        r ← lift (free_entry per_cluster 0 data);
        match r with
        | Some i =>
            mret (Some (u32 (cluster_to_lba f current_cluster + i * ENTRY / 512), i * ENTRY mod 512))
        | None =>
            next ← get_next_cluster f current_cluster;
            if END_OF_CHAIN <=? next then
              next ← allocate_cluster f;
              set_next_cluster f current_cluster next;;
              free_entry_loop n' buffer next
            else free_entry_loop n' buffer next
        end
    end
  else mret None.

Definition find_free_entry_index (dir : FAT32_Directory) : kernel W (option (Z * Z)) :=
  buffer ← kmalloc (cluster_size f);
  r ← free_entry_loop (S (fuel f)) buffer (cluster dir);
  kfree buffer;;
  mret r.

(** Stores an entry in a sector. *)
Definition store_entry (target_lba target_offset : Z) (e : list Z) : kernel W unit :=
  sector ← read_sectors target_lba 1;
  sector' ← lift (put_bytes target_offset e sector);
  write_sectors target_lba 1 sector'.

Definition create (dir : FAT32_Directory) (name : list Z) (flags : Z) : kernel W (option fat_node) :=
  slot ← find_free_entry_index dir;
  match slot with
  | None => mret None
  | Some (target_lba, target_offset) =>
      first_cluster ← allocate_cluster f;
      if first_cluster =? 0 then mret None else
      store_entry target_lba target_offset (raw_entry (create_name name) ATTR_ARCHIVE first_cluster 0);;
      mret (Some (NodeFile (new_file name first_cluster 0 target_lba target_offset)))
  end.

(** The first cluster of a new directory: the entries of itself and of its parent. *)
Definition dots (new_cluster parent_cluster : Z) : list Z :=
  let parent_cluster_val := if parent_cluster =? root_cluster (bpb f) then 0 else parent_cluster in
  raw_entry (pad 11 Vfs.DOT) ATTR_DIRECTORY new_cluster 0 ++
  raw_entry (pad 11 Vfs.DOTDOT) ATTR_DIRECTORY parent_cluster_val 0.

Definition mkdir (dir : FAT32_Directory) (name : list Z) (mode : Z) : kernel W Z :=
  new_cluster ← allocate_cluster f;
  if new_cluster =? 0 then mret (-1) else
  sector_data ← kmalloc (cluster_size f);
  (if sector_data =? 0 then lift Fault else mret tt);;
  data ← lift (put_bytes 0 (dots new_cluster (cluster dir)) (replicate (Z.to_nat (cluster_size f)) 0));
  write_sectors (cluster_to_lba f new_cluster) (sectors_per_cluster (bpb f)) data;;
  slot ← find_free_entry_index dir;
  match slot with
  | None => kfree sector_data;; mret (-1)
  | Some (target_lba, target_offset) =>
      store_entry target_lba target_offset (raw_entry (mkdir_name name) ATTR_DIRECTORY new_cluster 0);;
      kfree sector_data;;
      mret 0
  end.

Fixpoint unlink_loop (n : nat) (buffer current_cluster : Z) (name : list Z) : kernel W bool :=
  if in_use current_cluster then
    match n with
    | O => lift OutOfFuel
    | S n' =>
        data ← read_cluster buffer current_cluster;
        r ← lift (match_entry per_cluster 0 name data);
        match r with
        | Some i =>
            e ← lift (get_bytes (ENTRY * i) ENTRY data);
            f_cluster ← lift (entry_cluster e);
            free_cluster_chain f f_cluster;;
            data1 ← lift (delete_lfn (Z.to_nat i) data);
            data2 ← lift (put8 (ENTRY * i) DELETED data1);
            write_sectors (cluster_to_lba f current_cluster) (sectors_per_cluster (bpb f)) data2;;
            mret true
        | None => next ← get_next_cluster f current_cluster; unlink_loop n' buffer next name
        end
    end
  else mret false.

(** For the two dots the buffer is not given back. *)
Definition unlink (dir : FAT32_Directory) (name : list Z) : kernel W bool :=
  buffer ← kmalloc (cluster_size f);
  if bool_decide (name = Vfs.DOT) || bool_decide (name = Vfs.DOTDOT) then mret false else
  r ← unlink_loop (fuel f) buffer (cluster dir) name;
  kfree buffer;;
  mret r.
End directory.

(** ** Scanning a directory as one array *)

Lemma get_entry_l (b1 b2 : list Z) i : 0 ≤ i → ENTRY * (i + 1) ≤ len b1 →
  get_bytes (ENTRY * i) ENTRY (b1 ++ b2) = get_bytes (ENTRY * i) ENTRY b1.
Proof.
  unfold ENTRY. intros H0 H1. pose proof (len_nonneg b2).
  rewrite !get_bytes_ok by (rewrite ?len_app; lia). by rewrite sub_app_l by lia.
Qed.

Lemma get_entry_r (b1 b2 : list Z) k i : 0 ≤ i → len b1 = ENTRY * k →
  get_bytes (ENTRY * (k + i)) ENTRY (b1 ++ b2) = get_bytes (ENTRY * i) ENTRY b2.
Proof.
  unfold ENTRY. intros H0 H1. pose proof (len_nonneg b1).
  unfold get_bytes. rewrite len_app, H1. rewrite sub_app_r by lia. rewrite H1.
  replace (32 * (k + i) - 32 * k) with (32 * i) by lia.
  rewrite !(proj2 (Z.leb_le 0 _)) by lia. cbn [andb].
  destruct (Z.leb_spec (32 * i + 32) (len b2)).
  - by rewrite (proj2 (Z.leb_le _ _)) by lia.
  - by rewrite (proj2 (Z.leb_gt _ _)) by lia.
Qed.

Definition shift (k : Z) (r : scan) : scan := match r with Found i => Found (k + i) | _ => r end.

Section scanning.
Context (name : list Z).

Lemma find_entries_l n b1 b2 : ∀ i lfn, 0 ≤ i → ENTRY * (i + Z.of_nat n) ≤ len b1 →
  find_entries n i name (b1 ++ b2) lfn = find_entries n i name b1 lfn.
Proof.
  induction n as [|n IH]; intros i lfn H0 H1; cbn [find_entries]; [done|].
  rewrite get_entry_l by (unfold ENTRY in *; lia).
  assert (H2 : ENTRY * (i + 1 + Z.of_nat n) ≤ len b1) by (unfold ENTRY in *; lia).
  destruct (get_bytes (ENTRY * i) ENTRY b1) as [e| | |]; cbn [mbind outcome_bind]; try done.
  destruct (get8 0 e) as [c| | |]; cbn [mbind outcome_bind]; try done.
  destruct (get8 11 e) as [attr| | |]; cbn [mbind outcome_bind]; try done.
  rewrite !IH by lia. destruct (put_lfn true e lfn) as [lfn'| | |]; cbn [mbind outcome_bind]; try done.
  by rewrite IH by lia.
Qed.

Lemma find_entries_r n b1 b2 k : len b1 = ENTRY * k → ∀ i lfn, 0 ≤ i →
  find_entries n (k + i) name (b1 ++ b2) lfn = (r ← find_entries n i name b2 lfn; Ok (shift k r)).
Proof.
  intros Hk. induction n as [|n IH]; intros i lfn H0; cbn [find_entries]; [done|].
  rewrite get_entry_r by done. replace (k + i + 1) with (k + (i + 1)) by lia.
  destruct (get_bytes (ENTRY * i) ENTRY b2) as [e| | |]; cbn [mbind outcome_bind]; try done.
  destruct (get8 0 e) as [c| | |]; cbn [mbind outcome_bind]; try done.
  destruct (get8 11 e) as [attr| | |]; cbn [mbind outcome_bind]; try done.
  destruct (c =? 0); [done|]. destruct (c =? DELETED); [apply IH; lia|].
  destruct (attr_set attr ATTR_VOLUME && negb (attr =? ATTR_LFN)); [apply IH; lia|].
  destruct (attr =? ATTR_LFN).
  - destruct (put_lfn true e lfn) as [lfn'| | |]; cbn [mbind outcome_bind]; try done. apply IH. lia.
  - destruct (_ || _); [done|]. apply IH. lia.
Qed.

Lemma find_entries_split n1 n2 b : ∀ i lfn,
  find_entries (n1 + n2) i name b lfn =
    (r ← find_entries n1 i name b lfn;
     match r with More lfn' => find_entries n2 (i + Z.of_nat n1) name b lfn' | _ => Ok r end).
Proof.
  induction n1 as [|n1 IH]; intros i lfn; cbn [find_entries Nat.add].
  { run. by rewrite Z.add_0_r. }
  destruct (get_bytes (ENTRY * i) ENTRY b) as [e| | |]; cbn [mbind outcome_bind]; try done.
  destruct (get8 0 e) as [c| | |]; cbn [mbind outcome_bind]; try done.
  destruct (get8 11 e) as [attr| | |]; cbn [mbind outcome_bind]; try done.
  replace (i + Z.of_nat (S n1)) with (i + 1 + Z.of_nat n1) by lia.
  destruct (c =? 0); [done|]. destruct (c =? DELETED); [apply IH|].
  destruct (attr_set attr ATTR_VOLUME && negb (attr =? ATTR_LFN)); [apply IH|].
  destruct (attr =? ATTR_LFN).
  - destruct (put_lfn true e lfn) as [lfn'| | |]; cbn [mbind outcome_bind]; try done.
  - destruct (_ || _); [done|]. apply IH.
Qed.
End scanning.

(** *** The scan always succeeds *)

Lemma put_chars_total skip n from entry : ∀ to lfn, 0 ≤ from → from + 2 * Z.of_nat n ≤ len entry →
  0 ≤ to → to + Z.of_nat n ≤ len lfn → ∃ lfn', put_chars skip n from to entry lfn = Ok lfn' ∧ len lfn' = len lfn.
Proof.
  revert from. induction n as [|n IH]; intros from to lfn H0 H1 H2 H3; cbn [put_chars]; [by exists lfn|].
  rewrite get_le_ok by lia. run. set (u := of_le _).
  destruct ((u =? 0) || (skip && (u =? 0xFFFF))).
  - run. destruct (IH (from + 2) (to + 1) lfn) as (l' & E & Hl); [lia..|]. by exists l'.
  - rewrite put_le_ok by lia. run.
    assert (El : len (splice to (le 1 u) lfn) = len lfn) by (apply len_splice; rewrite ?len_le; lia).
    destruct (IH (from + 2) (to + 1) (splice to (le 1 u) lfn)) as (l' & E & Hl); [lia..|].
    exists l'. split; [done|lia].
Qed.

Lemma put_lfn_total skip entry lfn : len entry = ENTRY → len lfn = 256 →
  ∃ lfn', put_lfn skip entry lfn = Ok lfn' ∧ len lfn' = 256.
Proof.
  unfold ENTRY. intros He Hl. unfold put_lfn. rewrite get_le_ok by lia. run.
  set (index := (_ - 1) * 13). destruct ((0 <=? index) && (index <? 240)) eqn:Ei; [|by exists lfn].
  apply andb_true_iff in Ei as [Hi1 Hi2]. apply Z.leb_le in Hi1. apply Z.ltb_lt in Hi2.
  destruct (put_chars_total skip 5 1 entry index lfn) as (l1 & -> & E1); [lia..|]. run.
  destruct (put_chars_total skip 6 14 entry (index + 5) l1) as (l2 & -> & E2); [lia..|]. run.
  destruct (put_chars_total skip 2 28 entry (index + 11) l2) as (l3 & -> & E3); [lia..|].
  exists l3. split; [done|lia].
Qed.

Lemma len_no_lfn : len no_lfn = 256.
Proof. done. Qed.

Lemma find_entries_total n name b : ∀ i lfn, 0 ≤ i → ENTRY * (i + Z.of_nat n) ≤ len b → len lfn = 256 →
  ∃ r, find_entries n i name b lfn = Ok r ∧
    match r with Found g => i ≤ g < i + Z.of_nat n | Ended => True | More lfn' => len lfn' = 256 end.
Proof.
  unfold ENTRY. induction n as [|n IH]; intros i lfn H0 H1 Hl; cbn [find_entries]; [by exists (More lfn)|].
  unfold ENTRY. rewrite get_bytes_ok by lia. run. set (e := sub _ _ b).
  assert (He : len e = 32) by (apply len_sub; lia).
  rewrite !get_le_ok by lia. run. set (c := of_le (sub 0 _ e)). set (attr := of_le (sub 11 _ e)).
  assert (Hrec : ∀ lfn', len lfn' = 256 → ∃ r, find_entries n (i + 1) name b lfn' = Ok r ∧
    match r with Found g => i ≤ g < i + Z.of_nat (S n) | Ended => True | More lfn' => len lfn' = 256 end).
  { intros lfn' Hl'. destruct (IH (i + 1) lfn') as (r & E & Hr); [lia|lia|done|].
    exists r. split; [done|]. destruct r; [lia|done|done]. }
  destruct (c =? 0); [by exists Ended|]. destruct (c =? DELETED); [by apply Hrec|].
  destruct (_ && negb _); [by apply Hrec|]. destruct (attr =? ATTR_LFN).
  - destruct (put_lfn_total true e lfn He Hl) as (lfn' & -> & Hl'). run. by apply Hrec.
  - destruct (_ || _); [exists (Found i); split; [done|lia]|by apply Hrec].
Qed.

(** ** The directory as an array of entries *)

Section array.
Context (f : FAT32Manager).
Implicit Types d l name : list Z.

(** The object for entry [g] of the directory in the clusters [l]. *)
Definition node_of d l name (g : Z) : outcome fat_node :=
  let k := g / Z.of_nat (per_cluster f) in
  match l !! Z.to_nat k with
  | Some c => make_node name (cluster_to_lba f c) (g mod Z.of_nat (per_cluster f)) (cluster_data f d c)
  | None => Fault
  end.

(** [finddir] as one scan of the entries of all clusters. *)
Definition lookup_from d l name (lfn : list Z) : outcome (option fat_node) :=
  r ← find_entries (per_cluster f * length l) 0 name (flat f d l) lfn;
  match r with
  | Found g => nd ← node_of d l name g; Ok (Some nd)
  | _ => Ok None
  end.
Definition lookup d l name : outcome (option fat_node) := lookup_from d l name no_lfn.

Lemma per_cluster_spec d : geometry_ok f d →
  ENTRY * Z.of_nat (per_cluster f) = cluster_size f ∧ 16 ≤ Z.of_nat (per_cluster f).
Proof.
  intros []. unfold per_cluster, cluster_size, ENTRY.
  replace (sectors_per_cluster (bpb f) * 512) with (sectors_per_cluster (bpb f) * 16 * 32) by lia.
  rewrite Z.div_mul by lia. lia.
Qed.

Lemma make_node_total name lba i b : 0 ≤ i → ENTRY * (i + 1) ≤ len b → ∃ nd, make_node name lba i b = Ok nd.
Proof.
  unfold ENTRY. intros H0 H1. unfold make_node, ENTRY. rewrite get_bytes_ok by lia. run.
  assert (He : len (sub (32 * i) 32 b) = 32) by (apply len_sub; lia).
  rewrite get_le_ok by lia. run. unfold entry_cluster. rewrite !get_le_ok by lia. run.
  destruct (attr_set _ _); run; eauto.
Qed.

Lemma lookup_from_cons d c l name lfn : geometry_ok f d → Forall (valid f d) (c :: l) → len lfn = 256 →
  lookup_from d (c :: l) name lfn =
    (r ← find_entries (per_cluster f) 0 name (cluster_data f d c) lfn;
     match r with
     | Found i => nd ← make_node name (cluster_to_lba f c) i (cluster_data f d c); Ok (Some nd)
     | Ended => Ok None
     | More lfn' => lookup_from d l name lfn'
     end).
Proof.
  intros Hg Hv Hl. apply Forall_cons in Hv as [Hc Hv]. destruct (per_cluster_spec d Hg) as [He Hp].
  pose proof (len_cluster_data f d c Hg Hc) as Ec. set (e := per_cluster f) in *.
  unfold lookup_from at 1. cbn [length]. fold e. rewrite flat_cons.
  replace (e * S (length l))%nat with (e + e * length l)%nat by lia.
  rewrite find_entries_split, find_entries_l by (unfold ENTRY in *; lia).
  destruct (find_entries_total e name (cluster_data f d c) 0 lfn) as (r & -> & Hr); [lia|unfold ENTRY in *; lia|done|].
  run. destruct r as [i| |lfn']; run; [|done|].
  - unfold node_of. fold e. rewrite Z.div_small, Z.mod_small by lia. cbn. done.
  - replace (0 + Z.of_nat e) with (Z.of_nat e + 0) by lia.
    rewrite find_entries_r by (unfold ENTRY in *; lia). unfold lookup_from. fold e.
    destruct (find_entries_total (e * length l) name (flat f d l) 0 lfn') as (r & -> & Hr2); [lia| |done|].
    { rewrite len_flat by done. unfold len, ENTRY in *. nia. }
    run. destruct r as [g| |]; cbn [shift]; [|done|done].
    unfold node_of. fold e. replace (Z.of_nat e + g) with (g + 1 * Z.of_nat e) by lia.
    rewrite Z.div_add, Z.mod_add by lia.
    replace (Z.to_nat (g / Z.of_nat e + 1)) with (S (Z.to_nat (g / Z.of_nat e))); [done|].
    assert (0 ≤ g / Z.of_nat e) by (apply Z.div_pos; lia). lia.
Qed.

Lemma lookup_total d l name : geometry_ok f d → Forall (valid f d) l → ∀ lfn, len lfn = 256 →
  ∃ r, lookup_from d l name lfn = Ok r.
Proof.
  intros Hg. induction 1 as [|c l Hc Hl IH]; intros lfn Hlfn.
  { exists None. unfold lookup_from. cbn [length]. by rewrite Nat.mul_0_r. }
  destruct (per_cluster_spec d Hg) as [He Hp]. pose proof (len_cluster_data f d c Hg Hc) as Ec.
  rewrite lookup_from_cons by (done || by constructor).
  destruct (find_entries_total (per_cluster f) name (cluster_data f d c) 0 lfn) as (r & -> & Hr);
    [lia|unfold ENTRY in *; lia|done|].
  run. destruct r as [i| |lfn']; [|by exists None|by apply IH].
  destruct (make_node_total name (cluster_to_lba f c) i (cluster_data f d c)) as [nd ->]; [lia|unfold ENTRY in *; lia|].
  by exists (Some nd).
Qed.

(** *** The first free entry *)

Lemma free_entry_l n b1 b2 : ∀ i, 0 ≤ i → ENTRY * (i + Z.of_nat n) ≤ len b1 →
  free_entry n i (b1 ++ b2) = free_entry n i b1.
Proof.
  unfold ENTRY. induction n as [|n IH]; intros i H0 H1; cbn [free_entry]; [done|].
  pose proof (len_nonneg b2). unfold ENTRY. rewrite !get_le_ok by (rewrite ?len_app; lia).
  rewrite sub_app_l by lia. run. by rewrite IH by lia.
Qed.

Lemma free_entry_r n b1 b2 k : len b1 = ENTRY * k → ∀ i, 0 ≤ i → ENTRY * (i + Z.of_nat n) ≤ len b2 →
  free_entry n (k + i) (b1 ++ b2) = (r ← free_entry n i b2; Ok (option_map (Z.add k) r)).
Proof.
  unfold ENTRY. intros Hk. pose proof (len_nonneg b1).
  induction n as [|n IH]; intros i H0 H1; cbn [free_entry]; [done|].
  unfold ENTRY. rewrite !get_le_ok by (rewrite ?len_app; lia).
  rewrite sub_app_r by lia. rewrite Hk. replace (32 * (k + i) - 32 * k) with (32 * i) by lia. run.
  destruct (_ || _); [done|]. replace (k + i + 1) with (k + (i + 1)) by lia. apply IH; lia.
Qed.

Lemma free_entry_split n1 n2 b : ∀ i,
  free_entry (n1 + n2) i b =
    (r ← free_entry n1 i b; match r with None => free_entry n2 (i + Z.of_nat n1) b | _ => Ok r end).
Proof.
  induction n1 as [|n1 IH]; intros i; cbn [free_entry Nat.add].
  { run. by rewrite Z.add_0_r. }
  destruct (get8 (ENTRY * i) b) as [c| | |]; cbn [mbind outcome_bind]; try done.
  replace (i + Z.of_nat (S n1)) with (i + 1 + Z.of_nat n1) by lia.
  destruct (_ || _); [done|]. apply IH.
Qed.

Definition slot_free (b : list Z) (g : Z) : Prop :=
  of_le (sub (ENTRY * g) 1 b) = 0 ∨ of_le (sub (ENTRY * g) 1 b) = DELETED.

Lemma free_entry_spec n b : ∀ i, 0 ≤ i → ENTRY * (i + Z.of_nat n) ≤ len b →
  ∃ r, free_entry n i b = Ok r ∧
    match r with
    | Some g => i ≤ g < i + Z.of_nat n ∧ slot_free b g ∧ ∀ j, i ≤ j < g → ¬ slot_free b j
    | None => ∀ j, i ≤ j < i + Z.of_nat n → ¬ slot_free b j
    end.
Proof.
  unfold ENTRY. induction n as [|n IH]; intros i H0 H1; cbn [free_entry].
  { exists None. split; [done|]. intros j Hj. lia. }
  unfold ENTRY. rewrite get_le_ok by lia. run. change (Z.of_nat 1) with 1.
  destruct ((_ =? 0) || (_ =? DELETED)) eqn:E.
  - exists (Some i). split; [done|]. split_and!; [lia|lia| |intros j Hj; lia].
    apply orb_true_iff in E as [E|E]; apply Z.eqb_eq in E; [by left|by right].
  - apply orb_false_iff in E as [E1 E2]. apply Z.eqb_neq in E1, E2.
    assert (Hi : ¬ slot_free b i) by (intros [?|?]; done).
    destruct (IH (i + 1)) as (r & Er & Hr); [lia|lia|]. exists r. split; [done|].
    destruct r as [g|]; [destruct Hr as (R1 & R2 & R3); split_and!; [lia|lia|done|]|];
      intros j Hj; (destruct (decide (j = i)) as [->|]; [done|]); [apply R3|apply Hr]; lia.
Qed.
End array.

(** ** Short names *)

(** A name of at most eight characters, or such a name, a dot and at most three characters. *)
Definition name_83 (nm base ext : list Z) : Prop :=
  ((nm = base ∧ ext = []) ∨ nm = base ++ 46 :: ext) ∧ (46 ∉ base) ∧ (46 ∉ ext) ∧
  (length base ≤ 8)%nat ∧ (length ext ≤ 3)%nat ∧ Forall (λ c, 0 < c < 256) nm ∧
  head base ≠ Some DELETED ∧ nm ≠ Vfs.DOT ∧ nm ≠ Vfs.DOTDOT.

Lemma take_base_all base n rest : 46 ∉ base → (length base ≤ n)%nat →
  match rest with [] => True | c :: _ => c = 46 end →
  take_base n (base ++ rest) = (upcase <$> base, rest).
Proof.
  revert n. induction base as [|c base IH]; intros n Hd Hn Hr; cbn [app].
  - destruct rest as [|c rest]; [by destruct n|]. subst c. by destruct n.
  - apply not_elem_of_cons in Hd as [Hc Hd]. destruct n as [|n]; [cbn in Hn; lia|].
    cbn [take_base]. rewrite (proj2 (Z.eqb_neq c 46)) by congruence. rewrite IH; [done|done|cbn in Hn; lia|done].
Qed.

Lemma after_last_dot_none s : 46 ∉ s → after_last_dot s = None.
Proof.
  induction s as [|c s IH]; [done|]. intros [Hc Hs]%not_elem_of_cons. cbn [after_last_dot].
  by rewrite IH, (proj2 (Z.eqb_neq c 46)) by congruence.
Qed.

Lemma after_last_dot_app base ext : 46 ∉ ext → after_last_dot (base ++ 46 :: ext) = Some ext.
Proof.
  intros He. induction base as [|c base IH]; cbn [app after_last_dot].
  - by rewrite after_last_dot_none.
  - by rewrite IH.
Qed.

Definition short_name (base ext : list Z) : list Z := pad 8 (upcase <$> base) ++ pad 3 (upcase <$> ext).

Lemma names_agree nm base ext : name_83 nm base ext →
  create_name nm = short_name base ext ∧ name83 nm = short_name base ext.
Proof.
  intros (Hn & Hb & He & Lb & Le & _). unfold create_name, name83, short_name.
  destruct Hn as [[-> ->]| ->].
  - rewrite after_last_dot_none by done. pose proof (take_base_all base 8 [] Hb Lb I) as E.
    rewrite app_nil_r in E. by rewrite E.
  - rewrite after_last_dot_app, take_base_all by done. cbn [fst]. rewrite take_ge by done. done.
Qed.

Lemma length_pad n s : (length s ≤ n)%nat → length (pad n s) = n.
Proof. intros H. unfold pad. rewrite length_app, length_replicate. lia. Qed.

Lemma length_short nm base ext : name_83 nm base ext → length (short_name base ext) = 11%nat.
Proof.
  intros (_ & _ & _ & Lb & Le & _). unfold short_name. rewrite length_app, !length_pad; rewrite ?length_fmap; lia.
Qed.

Lemma compare_created nm base ext : name_83 nm base ext → compare_fat_name (create_name nm) nm = true.
Proof.
  intros H. pose proof H as (_ & _ & _ & _ & _ & _ & _ & Hd & Hdd).
  destruct (names_agree _ _ _ H) as [-> E]. unfold compare_fat_name. rewrite E.
  rewrite !bool_decide_false by done. by apply bool_decide_true.
Qed.

(** With a longer name before the extension the two encodings differ. *)
Lemma long_name_differs base ext c : 46 ∉ base → 46 ∉ c :: ext → (8 < length base)%nat → upcase c ≠ 32 →
  compare_fat_name (create_name (base ++ 46 :: c :: ext)) (base ++ 46 :: c :: ext) = false.
Proof.
  intros Hb He Hl Hc. set (nm := base ++ 46 :: c :: ext).
  assert (Ht : take_base 8 nm = (upcase <$> take 8 base, drop 8 base ++ 46 :: c :: ext)).
  { unfold nm. rewrite <- (take_drop 8 base) at 1. rewrite <- app_assoc.
    clear nm Hl Hc He. revert base Hb. generalize 8%nat. intros n. induction n as [|n IH]; intros base Hb; [done|].
    destruct base as [|x base]; cbn; [done|]. apply not_elem_of_cons in Hb as [Hx Hb].
    rewrite (proj2 (Z.eqb_neq x 46)) by congruence. by rewrite IH. }
  assert (Hr : name83 nm = pad 8 (upcase <$> take 8 base) ++ pad 3 []).
  { unfold name83. rewrite Ht. destruct (drop 8 base) as [|x r] eqn:E.
    - apply (f_equal length) in E. rewrite length_drop in E. cbn in E. lia.
    - cbn [app]. rewrite (proj2 (Z.eqb_neq x 46)); [done|]. intros ->. apply Hb.
      rewrite <- (take_drop 8 base), E. set_solver. }
  assert (Hcr : create_name nm = pad 8 (upcase <$> take 8 base) ++ pad 3 (upcase <$> take 3 (c :: ext))).
  { unfold create_name. rewrite Ht. unfold nm. by rewrite after_last_dot_app. }
  assert (Hlen : ∀ l, (length l < 8)%nat → nm ≠ l).
  { intros l' Hl' E. apply (f_equal length) in E. unfold nm in E. rewrite length_app in E. cbn in E. lia. }
  unfold compare_fat_name. rewrite !bool_decide_false; [done| | |]; try (apply Hlen; cbn; lia).
  rewrite Hcr, Hr. intros E. apply app_inj_1 in E as [_ E]; [|done]. cbn in E. congruence.
Qed.

(** ** A stored entry *)

Lemma cluster_halves c : 0 ≤ c < 2 ^ 32 →
  Z.lor (Z.shiftl (Z.shiftr c 16 mod 2 ^ 16) 16) (c mod 2 ^ 16) = c.
Proof.
  intros Hc. apply Z.bits_inj'. intros n Hn. rewrite Z.lor_spec, Z.shiftl_spec by done.
  destruct (decide (n < 16)).
  - rewrite Z.testbit_neg_r by lia. by rewrite Z.mod_pow2_bits_low by lia.
  - rewrite (Z.mod_pow2_bits_high c) by lia. rewrite orb_false_r.
    destruct (decide (n - 16 < 16)).
    + rewrite Z.mod_pow2_bits_low, Z.shiftr_spec by lia. f_equal. lia.
    + rewrite Z.mod_pow2_bits_high by lia. symmetry. apply (testbit_high 32); lia.
Qed.

Section raw.
Context (short : list Z) (attr c sz : Z) (Hs : length short = 11%nat).
Let e := raw_entry short attr c sz.

Lemma raw_length : len e = 32.
Proof. unfold e, raw_entry, len. rewrite length_app, Hs. done. Qed.

Lemma raw_short : take 11 e = short.
Proof. unfold e, raw_entry. rewrite <- Hs. apply take_app_length. Qed.

Lemma raw_field k n : 11 ≤ k → k + Z.of_nat n ≤ 32 → get_le n k e = Ok (of_le (sub (k - 11) (Z.of_nat n)
  (le 1 attr ++ replicate 8 0 ++ le 2 (Z.shiftr c 16) ++ replicate 4 0 ++ le 2 c ++ le 4 sz))).
Proof.
  intros H0 H1. rewrite get_le_ok by (rewrite ?raw_length; lia).
  unfold e, raw_entry. rewrite sub_app_r by (unfold len; lia). unfold len. by rewrite Hs.
Qed.

Lemma raw_attr : get8 11 e = Ok (attr mod 2 ^ 8).
Proof. rewrite raw_field by lia. f_equal. apply (of_le_le 1). Qed.

Lemma raw_cluster : 0 ≤ c < 2 ^ 32 → entry_cluster e = Ok c.
Proof.
  intros Hc. unfold entry_cluster. rewrite !raw_field by lia. run. f_equal.
  etrans; [|by apply cluster_halves]. f_equal; [f_equal|]; apply (of_le_le 2).
Qed.

Lemma raw_size : 0 ≤ sz < 2 ^ 32 → get32 28 e = Ok sz.
Proof.
  intros Hz. rewrite raw_field by lia. f_equal. etrans; [apply (of_le_le 4)|]. by apply Z.mod_small.
Qed.

Lemma raw_first x rest : short = x :: rest → get8 0 e = Ok x.
Proof.
  intros E. rewrite get_le_ok by (rewrite ?raw_length; lia). unfold e, raw_entry. rewrite E.
  unfold sub. change (Z.to_nat 0) with O. change (Z.to_nat (Z.of_nat 1)) with 1%nat. cbn [app drop take of_le].
  rewrite take_0. cbn [of_le]. f_equal. lia.
Qed.

Lemma raw_bytes : Forall byte short → Forall byte e.
Proof.
  intros Hb. unfold e, raw_entry. rewrite !Forall_app.
  split_and!; try apply le_bytes; [done| |]; apply Forall_replicate; lia.
Qed.

(** Changing the size. *)
Lemma raw_set_size sz' : splice 28 (le 4 sz') e = raw_entry short attr c sz'.
Proof.
  unfold e, raw_entry. rewrite !(app_assoc _ _ (le 4 _)), !app_assoc.
  set (pre := _ ++ le 2 c). assert (Hp : len pre = 28).
  { unfold pre, len. rewrite !length_app, !length_le, !length_replicate, Hs. done. }
  rewrite splice_app_r by (rewrite ?len_le; lia). f_equal. rewrite Hp. reflexivity.
Qed.
End raw.

(** ** The operations *)

Section operations.
Context {W : Type} `{!BlockDevice W, !Allocator W, !StoreLaws W}.
Context (f : FAT32Manager).
Implicit Types s : store.

Lemma in_use_valid d c : geometry_ok f d → valid f d c → in_use c = true.
Proof.
  intros Hg Hv. destruct (valid_below_end f d c Hg Hv). unfold in_use.
  by rewrite (proj2 (Z.ltb_lt _ _)), (proj2 (Z.eqb_neq _ _)) by lia.
Qed.

Lemma in_use_end c : END_OF_CHAIN ≤ c → in_use c = false.
Proof. intros H. unfold in_use. by rewrite (proj2 (Z.ltb_ge _ _)). Qed.

Lemma runs_read_cluster s p c : geometry_ok f (disk s) → valid f (disk s) c → p ≠ 0 →
  runs (read_cluster f p c) s (cluster_data f (disk s) c) s.
Proof. apply runs_read_into. Qed.

Lemma runs_find_loop l : ∀ n s p c name lfn r,
  geometry_ok f (disk s) → chain f (disk s) c l → p ≠ 0 → (length l ≤ n)%nat → len lfn = 256 →
  lookup_from f (disk s) l name lfn = Ok r → runs (find_loop f n p c name lfn) s r s.
Proof.
  induction l as [|c0 l IH]; intros n s p c name lfn r Hg Hch Hp Hn Hl Hr; [inversion Hch|].
  assert (c0 = c) as -> by (apply chain_hd in Hch; by injection Hch).
  pose proof (chain_valid _ _ _ _ Hch) as Hv. destruct n as [|n]; [cbn in Hn; lia|].
  rewrite lookup_from_cons in Hr by (done || by eapply chain_all_valid).
  cbn [find_loop]. rewrite (in_use_valid _ _ Hg Hv). eapply runs_bind; [by apply runs_read_cluster|].
  destruct (per_cluster_spec f _ Hg) as [He _]. pose proof (len_cluster_data f _ c Hg Hv) as Ec.
  destruct (find_entries_total (per_cluster f) name (cluster_data f (disk s) c) 0 lfn) as (q & E & Hq);
    [lia|unfold ENTRY in *; lia|done|].
  rewrite E in Hr. revert Hr. run. intros Hr. eapply runs_lift; [exact E|]. destruct q as [i| |lfn'].
  - apply bind_Ok in Hr as (nd & End & [= <-]). eapply runs_lift; [exact End|]. apply runs_ret.
  - injection Hr as <-. apply runs_ret.
  - eapply runs_bind; [apply runs_get_next; [done|destruct Hv; lia]|].
    inversion Hch as [? _ He'|? ? _ Hch']; subst.
    + destruct n; cbn [find_loop]; rewrite (in_use_end _ He'); revert Hr; unfold lookup_from; cbn [length];
        rewrite Nat.mul_0_r; intros [= <-]; apply runs_ret.
    + apply IH; try done. cbn in Hn. lia.
Qed.

(** [finddir] is the scan of the array. *)
Lemma runs_finddir s dir l name r : geometry_ok f (disk s) → chain f (disk s) (cluster dir) l →
  cluster_size f ≤ quota s → lookup f (disk s) l name = Ok r → runs (finddir f dir name) s r s.
Proof.
  intros Hg Hch Hq Hr. pose proof (cluster_size_pos f _ Hg) as [Hcs _]. unfold finddir.
  apply runs_kmalloc; [lia|]. intros p Hp Hlive. eapply runs_bind.
  - apply (runs_find_loop l); try done. apply Nat.lt_le_incl. by eapply chain_length.
  - apply runs_kfree; [done|]. apply runs_ret.
Qed.

(** *** The free slot *)

(** Where entry [g] is: its cluster, its number there, and the sector and offset. *)
Definition slot_cluster (l : list Z) (g : Z) : Z := default 0 (l !! Z.to_nat (g / Z.of_nat (per_cluster f))).
Definition slot_index (g : Z) : Z := g mod Z.of_nat (per_cluster f).
Definition slot_lba (l : list Z) (g : Z) : Z :=
  u32 (cluster_to_lba f (slot_cluster l g) + slot_index g * ENTRY / 512).
Definition slot_offset (g : Z) : Z := slot_index g * ENTRY mod 512.

Definition first_slot (d l : list Z) (g : Z) : Prop :=
  free_entry (per_cluster f * length l) 0 (flat f d l) = Ok (Some g).

Lemma first_slot_cons d c l g : geometry_ok f d → Forall (valid f d) (c :: l) → first_slot d (c :: l) g →
  let e := Z.of_nat (per_cluster f) in
  (free_entry (per_cluster f) 0 (cluster_data f d c) = Ok (Some g) ∧ 0 ≤ g < e) ∨
  (free_entry (per_cluster f) 0 (cluster_data f d c) = Ok None ∧ first_slot d l (g - e) ∧ e ≤ g).
Proof.
  intros Hg Hv Hs e. apply Forall_cons in Hv as [Hc Hv]. destruct (per_cluster_spec f d Hg) as [He Hp].
  pose proof (len_cluster_data f d c Hg Hc) as Ec. pose proof (len_flat f d l Hg Hv) as Ef.
  unfold first_slot in Hs |- *. cbn [length] in Hs. rewrite flat_cons in Hs.
  replace (per_cluster f * S (length l))%nat with (per_cluster f + per_cluster f * length l)%nat in Hs by lia.
  rewrite free_entry_split, (free_entry_l (per_cluster f) (cluster_data f d c)) in Hs by (unfold ENTRY in *; lia).
  destruct (free_entry_spec (per_cluster f) (cluster_data f d c) 0) as (r & E & Hr); [lia|unfold ENTRY in *; lia|].
  rewrite E in Hs |- *. revert Hs. run. intros Hs. destruct r as [i|].
  - injection Hs as ->. left. destruct Hr as [Hr _]. split; [done|unfold e; lia].
  - right. replace (0 + Z.of_nat (per_cluster f)) with (e + 0) in Hs by lia.
    rewrite free_entry_r in Hs by (unfold ENTRY, e, len in *; nia).
    destruct (free_entry_spec (per_cluster f * length l) (flat f d l) 0) as (r & E2 & Hr2);
      [lia|unfold ENTRY, len in *; nia|].
    rewrite E2 in Hs |- *. revert Hs. run. destruct r as [j|]; cbn; [|done]. intros [= <-].
    destruct Hr2 as [Hr2 _]. unfold e. split_and!; [done|do 2 f_equal; lia|lia].
Qed.

Lemma slot_cons c l g : let e := Z.of_nat (per_cluster f) in 0 < e →
  (0 ≤ g < e → slot_cluster (c :: l) g = c ∧ slot_index g = g) ∧
  (e ≤ g → slot_cluster (c :: l) g = slot_cluster l (g - e) ∧ slot_index g = slot_index (g - e)).
Proof.
  intros e He. unfold slot_cluster, slot_index. fold e. split; intros Hg.
  - rewrite Z.div_small, Z.mod_small by lia. done.
  - replace g with (g - e + 1 * e) at 1 3 by lia. rewrite Z.div_add, Z.mod_add by lia. split; [|done].
    assert (0 ≤ (g - e) / e) by (apply Z.div_pos; lia).
    by replace (Z.to_nat ((g - e) / e + 1)) with (S (Z.to_nat ((g - e) / e))) by lia.
Qed.

Lemma runs_free_entry_loop l : ∀ n s p c g,
  geometry_ok f (disk s) → chain f (disk s) c l → p ≠ 0 → (length l ≤ n)%nat → first_slot (disk s) l g →
  runs (free_entry_loop f n p c) s (Some (slot_lba l g, slot_offset g)) s.
Proof.
  induction l as [|c0 l IH]; intros n s p c g Hg Hch Hp Hn Hs; [inversion Hch|].
  assert (c0 = c) as -> by (apply chain_hd in Hch; by injection Hch).
  pose proof (chain_valid _ _ _ _ Hch) as Hv. destruct (valid_below_end f _ c Hg Hv) as [Hb Hb'].
  destruct n as [|n]; [cbn in Hn; lia|]. cbn [free_entry_loop]. rewrite (proj2 (Z.ltb_lt _ _)) by lia.
  eapply runs_bind; [by apply runs_read_cluster|]. destruct (per_cluster_spec f _ Hg) as [_ Hp16].
  destruct (slot_cons c l g ltac:(lia)) as [S1 S2].
  destruct (first_slot_cons _ _ _ _ Hg (chain_all_valid _ _ _ _ Hch) Hs) as [(E & Hgr)|(E & Hs' & Hgr)];
    (eapply runs_lift; [exact E|]); cbn beta iota.
  - destruct (S1 Hgr) as [E1 E2]. unfold slot_lba, slot_offset. rewrite E1, E2. apply runs_ret.
  - destruct (S2 Hgr) as [E1 E2]. eapply runs_bind; [by apply runs_get_next|].
    inversion Hch as [? _ He'|? ? _ Hch']; subst.
    + unfold first_slot in Hs'. cbn [length] in Hs'. by rewrite Nat.mul_0_r in Hs'.
    + rewrite (proj2 (Z.leb_gt _ _)) by (apply chain_valid, (valid_below_end _ _ _ Hg) in Hch'; lia).
      unfold slot_lba, slot_offset. rewrite E1, E2. apply IH; try done. cbn in Hn. lia.
Qed.

Lemma runs_find_free_entry s dir l g : geometry_ok f (disk s) → chain f (disk s) (cluster dir) l →
  cluster_size f ≤ quota s → first_slot (disk s) l g →
  runs (find_free_entry_index f dir) s (Some (slot_lba l g, slot_offset g)) s.
Proof.
  intros Hg Hch Hq Hs. pose proof (cluster_size_pos f _ Hg) as [Hcs _]. unfold find_free_entry_index.
  apply runs_kmalloc; [lia|]. intros p Hp Hlive. eapply runs_bind.
  - apply (runs_free_entry_loop l); try done. pose proof (chain_length _ _ _ _ Hg Hch). lia.
  - apply runs_kfree; [done|]. apply runs_ret.
Qed.

(** The slot is an entry of a cluster of the directory. *)
Lemma slot_spec d c l g : geometry_ok f d → chain f d c l → first_slot d l g →
  0 ≤ g < Z.of_nat (per_cluster f) * len l ∧
  l !! Z.to_nat (g / Z.of_nat (per_cluster f)) = Some (slot_cluster l g) ∧ valid f d (slot_cluster l g) ∧
  0 ≤ slot_index g < Z.of_nat (per_cluster f) ∧ 0 ≤ g / Z.of_nat (per_cluster f) ∧
  cluster_size f * (g / Z.of_nat (per_cluster f)) + ENTRY * slot_index g = ENTRY * g.
Proof.
  intros Hg Hch Hs. destruct (per_cluster_spec f d Hg) as [He Hp].
  pose proof (len_flat_chain f d c l Hg Hch) as Ef.
  destruct (free_entry_spec (per_cluster f * length l) (flat f d l) 0) as (r & E & Hr);
    [lia|unfold ENTRY, len in *; nia|].
  unfold first_slot in Hs. rewrite E in Hs. injection Hs as ->. destruct Hr as [Hgr _].
  pose proof (Z.div_mod g (Z.of_nat (per_cluster f)) ltac:(lia)).
  pose proof (Z.mod_pos_bound g (Z.of_nat (per_cluster f)) ltac:(lia)).
  assert (Hk : 0 ≤ g / Z.of_nat (per_cluster f)) by (apply Z.div_pos; lia).
  destruct (lookup_lt_is_Some_2 l (Z.to_nat (g / Z.of_nat (per_cluster f)))) as [x Hx].
  { assert (g / Z.of_nat (per_cluster f) < Z.of_nat (length l)) by (apply Z.div_lt_upper_bound; lia). lia. }
  unfold slot_cluster, slot_index. rewrite Hx. cbn [default from_option id].
  split_and!; [lia|unfold len; lia|done| |lia|lia|done|rewrite <- He; unfold ENTRY; lia].
  eapply Forall_lookup_1; [by eapply chain_all_valid|exact Hx].
Qed.

(** Storing an entry in its sector. *)
Lemma runs_store_entry s c i e : geometry_ok f (disk s) → valid f (disk s) c →
  0 ≤ i < Z.of_nat (per_cluster f) → len e = ENTRY → Forall byte e →
  runs (store_entry (u32 (cluster_to_lba f c + i * ENTRY / 512)) (i * ENTRY mod 512) e) s ()
    (set_disk (splice (cluster_addr f c + ENTRY * i) e (disk s)) s).
Proof.
  intros Hg Hv Hi He Hb. destruct (per_cluster_spec f _ Hg) as [Hp _]. unfold ENTRY in *.
  destruct (sector_in_cluster f _ c (i * 32) Hg Hv) as (E & Hs & _); [lia|].
  assert (Hm : i * 32 mod 512 + 32 ≤ 512 ∧ 0 ≤ i * 32 mod 512) by zdm.
  unfold store_entry. eapply runs_bind; [by apply runs_read|]. destruct Hs as (S1 & S2 & S3 & S4).
  eapply runs_lift; [apply put_bytes_ok; [lia|rewrite len_sub; unfold SECTOR in *; lia]|].
  replace (cluster_addr f c + 32 * i) with (cluster_addr f c + i * 32) by lia. rewrite <- E.
  apply runs_write_part; [done|apply Hg|done|lia|lia].
Qed.
End operations.

(** ** Finding a stored entry *)

Section finding.
Context (f : FAT32Manager).
Context (nm base ext : list Z) (Hnm : name_83 nm base ext).

Lemma created_first : ∃ x rest, create_name nm = x :: rest ∧ x ≠ 0 ∧ x ≠ DELETED.
Proof.
  destruct (names_agree _ _ _ Hnm) as [-> _]. destruct Hnm as (Hn & _ & _ & _ & _ & Hb & Hd & _).
  unfold short_name. destruct base as [|c b]; [by exists 32, (replicate 7 32 ++ pad 3 (upcase <$> ext))|].
  exists (upcase c). eexists. split; [done|].
  assert (Hc : 0 < c < 256). { destruct Hn as [[-> _]| ->]; by inversion Hb. }
  assert (c ≠ DELETED) by (intros ->; done). unfold upcase, DELETED in *.
  destruct (Z.leb_spec 97 c), (Z.leb_spec c 122); cbn [andb]; lia.
Qed.

Lemma created_bytes : Forall byte (create_name nm).
Proof.
  destruct (names_agree _ _ _ Hnm) as [-> _]. destruct Hnm as (Hn & _ & _ & _ & _ & Hb & _).
  assert (Hup : ∀ l, Forall (λ c, 0 < c < 256) l → Forall byte (upcase <$> l)).
  { intros l Hl. apply Forall_fmap. eapply Forall_impl; [exact Hl|]. intros c Hc. unfold compose, upcase.
    cbv beta in *. destruct (Z.leb_spec 97 c), (Z.leb_spec c 122); cbn [andb]; lia. }
  assert (Hbe : Forall (λ c, 0 < c < 256) base ∧ Forall (λ c, 0 < c < 256) ext).
  { destruct Hn as [[-> ->]| ->]; [done|]. apply Forall_app in Hb as [? Hb]. by inversion Hb. }
  unfold short_name, pad. rewrite !Forall_app.
  split_and!; try (by apply Hup, Hbe); apply Forall_replicate; lia.
Qed.

Lemma created_length : length (create_name nm) = 11%nat.
Proof. destruct (names_agree _ _ _ Hnm) as [-> _]. by eapply length_short. Qed.

(** The entry of a file that the scan reaches without a pending long name. *)
Lemma scan_finds N b b' g lfn a sz :
  find_entries (Z.to_nat g) 0 nm b no_lfn = Ok (More (0 :: lfn)) →
  take (Z.to_nat (ENTRY * g)) b' = take (Z.to_nat (ENTRY * g)) b →
  sub (ENTRY * g) ENTRY b' = raw_entry (create_name nm) ATTR_ARCHIVE a sz →
  0 ≤ g < Z.of_nat N → ENTRY * (g + 1) ≤ len b → ENTRY * (g + 1) ≤ len b' →
  find_entries N 0 nm b' no_lfn = Ok (Found g).
Proof.
  unfold ENTRY. intros Hpre Htake Hraw HN Hb Hb'.
  assert (Ht : ∀ x : list Z, 32 * (g + 1) ≤ len x → len (take (Z.to_nat (32 * g)) x) = 32 * g).
  { intros x Hx. unfold len in *. rewrite length_take. lia. }
  rewrite <- (take_drop (Z.to_nat (32 * g)) b) in Hpre.
  rewrite find_entries_l in Hpre by (unfold ENTRY; rewrite ?Ht; lia). rewrite <- Htake in Hpre.
  replace N with (Z.to_nat g + S (N - S (Z.to_nat g)))%nat by lia.
  rewrite find_entries_split. rewrite <- (take_drop (Z.to_nat (32 * g)) b') at 1.
  rewrite find_entries_l by (unfold ENTRY; rewrite ?Ht; lia). rewrite Hpre. run.
  replace (0 + Z.of_nat (Z.to_nat g)) with g by lia. cbn [find_entries]. unfold ENTRY.
  rewrite get_bytes_ok, Hraw by lia. run. destruct created_first as (x & rest & Ex & H0 & H5).
  rewrite (raw_first _ _ _ _ created_length x rest Ex). run. rewrite raw_attr by apply created_length. run.
  rewrite (proj2 (Z.eqb_neq _ _) H0), (proj2 (Z.eqb_neq _ _) H5).
  change (attr_set (ATTR_ARCHIVE mod 2 ^ 8) ATTR_VOLUME && negb (ATTR_ARCHIVE mod 2 ^ 8 =? ATTR_LFN)) with false.
  change (ATTR_ARCHIVE mod 2 ^ 8 =? ATTR_LFN) with false. cbn [Z.eqb negb andb orb].
  rewrite raw_short by apply created_length. by rewrite (compare_created _ _ _ Hnm).
Qed.

Lemma make_file_node lba i b a sz : 0 ≤ i → ENTRY * (i + 1) ≤ len b → 0 ≤ a < 2 ^ 32 → 0 ≤ sz < 2 ^ 32 →
  sub (ENTRY * i) ENTRY b = raw_entry (create_name nm) ATTR_ARCHIVE a sz →
  make_node nm lba i b =
    Ok (NodeFile (new_file nm a sz (u32 (lba + i * ENTRY / 512)) (i * ENTRY mod 512))).
Proof.
  unfold ENTRY. intros Hi Hb Ha Hz E. unfold make_node, ENTRY. rewrite get_bytes_ok, E by lia. run.
  rewrite raw_attr by apply created_length. run. rewrite raw_cluster by (done || apply created_length). run.
  change (attr_set (ATTR_ARCHIVE mod 2 ^ 8) ATTR_DIRECTORY) with false. cbn iota.
  rewrite raw_size by (done || apply created_length). by run.
Qed.

(** So the lookup answers the file. *)
Lemma lookup_created d d' c l g lfn a sz : geometry_ok f d → geometry_ok f d' →
  chain f d c l → chain f d' c l → first_slot f d l g →
  find_entries (Z.to_nat g) 0 nm (flat f d l) no_lfn = Ok (More (0 :: lfn)) →
  take (Z.to_nat (ENTRY * g)) (flat f d' l) = take (Z.to_nat (ENTRY * g)) (flat f d l) →
  sub (ENTRY * g) ENTRY (flat f d' l) = raw_entry (create_name nm) ATTR_ARCHIVE a sz →
  0 ≤ a < 2 ^ 32 → 0 ≤ sz < 2 ^ 32 →
  lookup f d' l nm = Ok (Some (NodeFile (new_file nm a sz (slot_lba f l g) (slot_offset f g)))).
Proof.
  intros Hg Hg' Hch Hch' Hs Hpre Ht Hraw Ha Hz.
  destruct (slot_spec f d c l g Hg Hch Hs) as (S1 & S2 & S3 & S4 & S5 & S6).
  destruct (per_cluster_spec f d Hg) as [He Hp]. pose proof (len_flat_chain f d c l Hg Hch) as Ef.
  pose proof (len_flat_chain f d' c l Hg' Hch') as Ef'. pose proof (len_nonneg l) as Hl0.
  unfold lookup, lookup_from. rewrite (scan_finds _ (flat f d l) _ g lfn a sz); try done;
    try (unfold ENTRY, len in *; nia).
  run. unfold node_of. rewrite S2. fold (slot_index f g).
  pose proof (chain_all_valid _ _ _ _ Hch') as Hval.
  assert (Hv' : valid f d' (slot_cluster f l g)) by (eapply Forall_lookup_1; [exact Hval|exact S2]).
  rewrite (make_file_node _ _ _ a sz); try done; try lia.
  - rewrite len_cluster_data by done. unfold ENTRY in *. lia.
  - rewrite <- Hraw, <- S6. rewrite <- (Z2Nat.id (g / Z.of_nat (per_cluster f))) by done.
    symmetry. apply flat_sub; try done; unfold ENTRY in *; lia.
Qed.
End finding.

(** ** Creating a file *)

Section creating.
Context {W : Type} `{!BlockDevice W, !Allocator W, !StoreLaws W}.
Context (f : FAT32Manager).
Context (nm base ext : list Z) (Hnm : name_83 nm base ext).
Implicit Types s : store.

(** [d'] is [d] after a file that starts in cluster [a] got the entry [g] of the directory [l]. *)
Record created d l g a d' : Prop := {
  cr_geometry : geometry_ok f d';
  cr_valid : valid f d a;
  cr_was_free : entry f d a = 0;
  cr_end : entry f d' a = ENTRY_MASK;
  cr_other : ∀ x, 0 ≤ x < entries f → x ≠ a → entry f d' x = entry f d x;
  cr_len : len d' = len d;
  cr_free : S (length (free f d')) = length (free f d);
  cr_spare : no_spare f d';
  cr_flat : flat f d' l = splice (ENTRY * g) (raw_entry (create_name nm) ATTR_ARCHIVE a 0) (flat f d l);
  cr_data : ∀ x, valid f d x → (x ∉ l) → cluster_data f d' x = cluster_data f d x
}.

(** Allocating a cluster without linking it. *)
Lemma take_cluster d a : geometry_ok f d → no_spare f d → 0 ≤ a < entries f → entry f d a = 0 →
  let d1 := set_entry f a ENTRY_MASK d in
  S (length (free f d1)) = length (free f d) ∧ no_spare f d1.
Proof.
  intros Hg Hsp Ha H0 d1. assert (Ea : entry f d1 a = ENTRY_MASK) by by apply entry_set_same.
  assert (Eo : ∀ x, 0 ≤ x < entries f → x ≠ a → entry f d1 x = entry f d x).
  { intros x Hx Hne. apply entry_set_other; (done || congruence). }
  split.
  - change (S (length (free f d1))) with (length (a :: free f d1)). apply Permutation_length, NoDup_Permutation.
    + constructor; [|apply free_nodup]. rewrite elem_of_free, Ea. by intros [? _].
    + apply free_nodup.
    + intros x. rewrite elem_of_cons, !elem_of_free. destruct (decide (x = a)) as [->|Hne].
      * split; [done|]. by left.
      * split; [intros [?|[E Hx]]; [done|by rewrite <- Eo]|]. intros [E Hx]. right. by rewrite Eo.
  - intros x Hx E. destruct (decide (x = a)) as [->|Hne]; [by rewrite Ea in E|].
    eapply valid_len; [by apply len_set_entry|]. apply Hsp; [done|]. by rewrite <- Eo.
Qed.

Lemma raw_created_bytes a : Forall byte (raw_entry (create_name nm) ATTR_ARCHIVE a 0).
Proof. apply raw_bytes; [by eapply created_length|by eapply created_bytes]. Qed.

Lemma runs_create s dir l flags g :
  geometry_ok f (disk s) → chain f (disk s) (cluster dir) l → no_spare f (disk s) →
  cluster_size f ≤ quota s → (0 < length (free f (disk s)))%nat → first_slot f (disk s) l g →
  ∃ a d, runs (create f dir nm flags) s
           (Some (NodeFile (new_file nm a 0 (slot_lba f l g) (slot_offset f g)))) (set_disk d s) ∧
    created (disk s) l g a d.
Proof.
  intros Hg Hch Hsp Hq Hfree Hs. destruct (runs_allocate_some f s Hg Hfree) as (a & Ha & H0 & Hrun).
  pose proof (Hsp a Ha H0) as Hva. destruct (slot_spec f _ _ l g Hg Hch Hs) as (S1 & S2 & S3 & S4 & S5 & S6).
  set (d1 := set_entry f a ENTRY_MASK (disk s)) in *. set (x := slot_cluster f l g) in *.
  assert (Hg1 : geometry_ok f d1) by by apply geometry_set.
  assert (El1 : len d1 = len (disk s)) by by apply len_set_entry.
  assert (Hx1 : valid f d1 x) by by eapply valid_len.
  destruct (per_cluster_spec f _ Hg) as [He _].
  set (raw := raw_entry (create_name nm) ATTR_ARCHIVE a 0).
  assert (Hraw : len raw = ENTRY) by (apply raw_length; by eapply created_length).
  assert (Hpos : 0 ≤ ENTRY * slot_index f g ∧ ENTRY * slot_index f g + len raw ≤ cluster_size f).
  { rewrite Hraw, <- He. unfold ENTRY. lia. }
  destruct Hpos as [P1 P2]. set (d := splice (cluster_addr f x + ENTRY * slot_index f g) raw d1).
  assert (Hxl : x ∈ l) by by eapply list_elem_of_lookup_2.
  assert (Hin : ∀ y, y ∈ l → y ≠ a).
  { intros y Hy ->. by apply (chain_used f _ _ l a Hg Hch Hy). }
  destruct (take_cluster (disk s) a Hg Hsp Ha H0) as [T1 T2]. fold d1 in T1, T2.
  assert (Hch1 : chain f d1 (cluster dir) l).
  { eapply chain_ext; [exact Hch|exact El1|]. intros y Hy. apply entry_set_other; try done.
    - eapply Forall_forall in Hy; [|by eapply chain_all_valid]. destruct Hy. lia.
    - intros ->. by apply (Hin y). }
  assert (Hgr : grown f d1 l d []) by (apply dw_grown; done || apply raw_created_bytes).
  pose proof Hgr as [G1 G2 G3 G4 G5 G6 G7]. exists a, d. split.
  - unfold create. eapply runs_bind; [by apply (runs_find_free_entry f s dir l g)|]. cbn beta iota.
    eapply runs_bind; [exact Hrun|]. rewrite (proj2 (Z.eqb_neq _ _)) by (destruct Hva; lia).
    eapply runs_bind; [|apply runs_ret]. unfold slot_lba, slot_offset. fold x raw.
    apply (runs_store_entry f (set_disk d1 s)); try done. apply raw_created_bytes.
  - constructor; try done.
    + unfold d. rewrite dw_entry by done. by apply entry_set_same.
    + intros y Hy Hne. unfold d. rewrite dw_entry by done. apply entry_set_other; (done || congruence).
    + by rewrite G2.
    + cbn in G6. lia.
    + unfold d. rewrite (dw_flat f d1 x _ raw Hg1 Hx1 P1 P2 l (Z.to_nat (g / Z.of_nat (per_cluster f)))); try done.
      * rewrite (flat_ext f (disk s) d1); [by rewrite Z2Nat.id, S6 by done|]. intros y Hy. apply data_set_entry; try done.
        eapply Forall_forall; [|exact Hy]. by eapply chain_all_valid.
      * exact (chain_nodup f _ _ _ Hg Hch).
      * exact (chain_all_valid f _ _ _ Hch1).
    + intros y Hy Hn. rewrite G5; [|by eapply valid_len|by rewrite app_nil_r]. by apply data_set_entry.
Qed.

(** *** Writing the new file *)

(** The entry of a created file, as [update_metadata] needs it. *)
Lemma created_entry_at d dir l g a d' : geometry_ok f d → chain f d dir l → first_slot f d l g →
  created d l g a d' →
  entry_at f d' [a] (new_file nm a 0 (slot_lba f l g) (slot_offset f g)) (slot_cluster f l g)
    (slot_index f g * ENTRY / 512) ∧
  size_field (new_file nm a 0 (slot_lba f l g) (slot_offset f g)) (slot_index f g * ENTRY / 512) =
    ENTRY * slot_index f g + 28.
Proof.
  intros Hg Hch Hs [C1 C2 C3 C4 C5 C6 C7 C8 C9 C10].
  destruct (slot_spec f _ _ l g Hg Hch Hs) as (S1 & S2 & S3 & S4 & S5 & S6).
  destruct (per_cluster_spec f _ Hg) as [He _]. unfold ENTRY in *. set (x := slot_cluster f l g) in *.
  assert (Hxl : x ∈ l) by by eapply list_elem_of_lookup_2.
  assert (Hxa : x ≠ a) by (intros ->; by apply (chain_used f _ _ l a Hg Hch Hxl)).
  destruct (cluster_to_lba_spec f _ x Hg S3) as [_ (L1 & L2 & L3 & _)].
  assert (Hi : 0 ≤ slot_index f g * 32 / 512 < sectors_per_cluster (bpb f)).
  { unfold cluster_size in He. split; [apply Z.div_pos; lia|apply Z.div_lt_upper_bound; lia]. }
  split.
  - constructor; cbn [new_file dir_entry_lba dir_entry_offset].
    + by eapply valid_len.
    + rewrite C5; [by eapply chain_used|destruct S3; lia|done].
    + set_solver.
    + done.
    + unfold slot_lba, ENTRY. apply wrap_small. fold x. lia.
    + unfold slot_offset, ENTRY. zdm.
  - unfold size_field, slot_offset, ENTRY. cbn [new_file dir_entry_offset].
    pose proof (Z.div_mod (slot_index f g * 32) 512 ltac:(lia)). lia.
Qed.

(** The directory bytes after the entry was stored and its size set. *)
Lemma sized_entry F g a n : 0 ≤ g → ENTRY * (g + 1) ≤ len F →
  let F2 := splice (ENTRY * g + 28) (le 4 n)
              (splice (ENTRY * g) (raw_entry (create_name nm) ATTR_ARCHIVE a 0) F) in
  take (Z.to_nat (ENTRY * g)) F2 = take (Z.to_nat (ENTRY * g)) F ∧
  sub (ENTRY * g) ENTRY F2 = raw_entry (create_name nm) ATTR_ARCHIVE a n.
Proof.
  intros Hg HF F2. unfold ENTRY in *. pose proof (created_length nm base ext Hnm) as Hcl.
  pose proof (raw_length _ ATTR_ARCHIVE a 0 Hcl) as Hraw.
  set (raw := raw_entry (create_name nm) ATTR_ARCHIVE a 0) in *.
  assert (E1 : len (splice (32 * g) raw F) = len F) by (apply len_splice; lia).
  assert (E2 : len F2 = len F) by (unfold F2; rewrite len_splice; rewrite ?len_le; lia). split.
  - apply list_eq. intros i. destruct (decide (Z.of_nat i < 32 * g)).
    + rewrite !lookup_take_lt by lia. unfold F2. by rewrite !lookup_splice_out by (rewrite ?len_le; lia).
    + by rewrite !lookup_take_ge by lia.
  - pose proof (sub_splice_same (32 * g) raw F) as Es. rewrite Hraw in Es.
    unfold F2. rewrite sub_splice_inside by (rewrite ?len_le; lia). rewrite Es by lia. replace (32 * g + 28 - 32 * g) with 28 by lia. by apply raw_set_size.
Qed.

(** Reading back what was written to an empty file. *)
Lemma runs_read_written s fl l0 l d0 data : geometry_ok f (disk s) → chain f (disk s) (first_cluster fl) l →
  content f (disk s) l fl = splice 0 data (content f d0 l0 (set_size 0 fl)) →
  size fl = len data → cluster_size f ≤ quota s → len data < 2 ^ 32 →
  runs (read f fl 0 (len data)) s data s.
Proof.
  intros Hg Hch Hc Hs Hq Hd. pose proof (len_nonneg data).
  assert (E : content f (disk s) l fl = data).
  { rewrite Hc. unfold content. cbn [set_size size]. rewrite sub_0. unfold splice. cbn. by rewrite drop_nil, app_nil_r. }
  pose proof (len_flat_chain f _ _ _ Hg Hch) as El.
  assert (Hle : size fl ≤ cluster_size f * len l).
  { rewrite <- El, Hs, <- E. unfold content, len, sub. rewrite length_take, length_drop. lia. }
  assert (Er : sub 0 (len data) (content f (disk s) l fl) = data) by (rewrite E; apply sub_full).
  rewrite <- Er at 2. apply (runs_file_read f s fl l 0 (len data)); try done; lia.
Qed.

(** [d2] is [d] after the file was created with its entry [g] in [l] and [n] bytes written to it. *)
Record filled (d l : list Z) (g a n : Z) (d2 : list Z) : Prop := {
  fi_geometry : geometry_ok f d2;
  fi_len : len d2 = len d;
  fi_entry : ∀ y, 0 ≤ y < entries f → entry f d y ≠ 0 → entry f d2 y = entry f d y;
  fi_data : ∀ y, valid f d y → entry f d y ≠ 0 → (y ∉ l) → cluster_data f d2 y = cluster_data f d y;
  fi_flat : flat f d2 l =
    splice (ENTRY * g + 28) (le 4 n) (splice (ENTRY * g) (raw_entry (create_name nm) ATTR_ARCHIVE a 0) (flat f d l))
}.

(** The chains that were there are there. *)
Lemma filled_chain d l g a n d2 c l2 : geometry_ok f d → filled d l g a n d2 → chain f d c l2 → chain f d2 c l2.
Proof.
  intros Hg [F1 F2 F3 F4 F5] Hc. eapply chain_ext; [exact Hc|exact F2|]. intros y Hy.
  apply F3; [|by eapply chain_used]. eapply Forall_forall in Hy; [|by eapply chain_all_valid]. destruct Hy. lia.
Qed.

(** A write to a created file that is as [runs_file_write] says. *)
Lemma filled_intro d dir l g a d1 n l' d2 : geometry_ok f d → chain f d dir l → first_slot f d l g → created d l g a d1 →
  let x := slot_cluster f l g in
  geometry_ok f d2 → len d2 = len d1 → chain f d2 a ([a] ++ l') → Forall (λ c, entry f d1 c = 0) l' →
  (∀ c, 0 ≤ c < entries f → (c ∉ [a] ++ l') → entry f d2 c = entry f d1 c) →
  (∀ c, valid f d1 c → (c ∉ [a] ++ l') → c ≠ x → cluster_data f d2 c = cluster_data f d1 c) →
  cluster_data f d2 x = splice (ENTRY * slot_index f g + 28) (le 4 n) (cluster_data f d1 x) →
  filled d l g a n d2.
Proof.
  intros Hg Hch Hs Hc x W2 W0 W3 W5 W6 W7 W8. pose proof Hc as [C1 C2 C3 C4 C5 C6 C7 C8 C9 C10].
  destruct (slot_spec f _ _ l g Hg Hch Hs) as (S1 & S2 & S3 & S4 & S5 & S6).
  destruct (per_cluster_spec f _ Hg) as [He _]. fold x in S2, S3.
  assert (Hkeep : ∀ y, entry f d y ≠ 0 → y ∉ [a] ++ l').
  { intros y Hy [->%list_elem_of_singleton|Hin]%elem_of_app; [done|].
    apply (proj1 (Forall_forall _ _) W5) in Hin as H0. cbn in H0. apply Hy. rewrite <- C5; [done| |].
    - apply chain_all_valid, Forall_app in W3 as [_ W3]. apply (proj1 (Forall_forall _ _) W3) in Hin. destruct Hin. lia.
    - intros ->. by rewrite C4 in H0. }
  assert (Hdata : ∀ y, valid f d y → entry f d y ≠ 0 → y ≠ x → cluster_data f d2 y = cluster_data f d1 y).
  { intros y Hy Hu Hne. apply W7; [by eapply valid_len|by apply Hkeep|done]. }
  pose proof (chain_all_valid f _ _ _ Hch) as Hlv. pose proof (chain_nodup f _ _ _ Hg Hch) as Hnd.
  assert (Hxl : x ∈ l) by by eapply list_elem_of_lookup_2.
  constructor; [done|by rewrite W0| | |].
  - intros y Hy Hu. rewrite W6, C5; [done|done|by intros ->|done|by apply Hkeep].
  - intros y Hy Hu Hn. rewrite Hdata; [by apply C10|done|done|by intros ->].
  - rewrite <- C9. rewrite (flat_update f d1 d2 x (ENTRY * slot_index f g + 28) (le 4 n) l (Z.to_nat (g / Z.of_nat (per_cluster f))) C1 Hnd).
    + rewrite Z2Nat.id by done. f_equal. lia.
    + eapply Forall_impl; [exact Hlv|]. intros y. by apply valid_len.
    + done.
    + unfold ENTRY. lia.
    + rewrite len_le, <- He. unfold ENTRY. lia.
    + exact W8.
    + intros y Hy Hne. apply Hdata; [by eapply Forall_forall|by eapply chain_used|done].
Qed.

(** Creating a file and writing to it. *)
Lemma runs_fill s dir l flags g data :
  geometry_ok f (disk s) → chain f (disk s) (cluster dir) l → no_spare f (disk s) →
  cluster_size f ≤ quota s → first_slot f (disk s) l g → Forall byte data → 0 < len data < 2 ^ 32 →
  len data ≤ cluster_size f * len (free f (disk s)) →
  ∃ a l' d1 d2, let fl := new_file nm a 0 (slot_lba f l g) (slot_offset f g) in
    let fl' := new_file nm a (len data) (slot_lba f l g) (slot_offset f g) in
    runs (create f dir nm flags) s (Some (NodeFile fl)) (set_disk d1 s) ∧
    runs (write f fl 0 data) (set_disk d1 s) (len data, fl') (set_disk d2 s) ∧
    0 ≤ a < 2 ^ 32 ∧ chain f d2 a ([a] ++ l') ∧
    content f d2 ([a] ++ l') fl' = splice 0 data (content f d1 [a] (set_size 0 fl')) ∧
    filled (disk s) l g a (len data) d2.
Proof.
  intros Hg Hch Hsp Hq Hs Hby Hd Hroom. pose proof (cluster_size_pos f _ Hg) as [Hcs Hcs32].
  assert (Hfree : (0 < length (free f (disk s)))%nat) by (unfold len in *; nia).
  destruct (runs_create s dir l flags g Hg Hch Hsp Hq Hfree Hs) as (a & d1 & Hrun1 & Hc).
  pose proof Hc as [C1 C2 C3 C4 C5 C6 C7 C8 C9 C10].
  destruct (created_entry_at _ _ l g a d1 Hg Hch Hs Hc) as [Hea Hsf].
  set (fl := new_file nm a 0 (slot_lba f l g) (slot_offset f g)) in *.
  assert (Hva : valid f d1 a) by by eapply valid_len.
  assert (Hcha : chain f d1 a [a]) by (apply chain_last; [done|by rewrite C4]).
  destruct (runs_file_write f (set_disk d1 s) fl [a] (slot_cluster f l g) (slot_index f g * ENTRY / 512) 0 data)
    as (d2 & l' & W1 & W2 & W0 & W3 & W4 & W5 & W6 & W7 & W8);
    [done|done|done|done|change (len [a]) with 1; cbn; lia|cbn; lia|done|lia| |].
  { cbn [disk set_disk]. replace (len [a] + len (free f d1)) with (len (free f (disk s))); [lia|].
    unfold len. cbn [length]. lia. }
  cbn [disk set_disk] in *. rewrite Z.add_0_l in *. rewrite (Z.max_r (size fl) (len data)) in * by (cbn; lia).
  change (size (set_size (len data) fl)) with (len data) in W8. rewrite Hsf, (proj2 (Z.ltb_lt (size fl) (len data))) in W8 by (cbn; lia).
  exists a, l', d1, d2. split_and!; try done.
  - destruct C2 as [C2 _]. lia.
  - pose proof (go_entries f _ Hg). destruct C2 as [C2 _]. unfold END_OF_CHAIN in *. lia.
  - by eapply (filled_intro (disk s) (cluster dir) l g a d1 (len data) l' d2).
Qed.

(** ** Properties *)

(** C1. A file that [create] makes, with an 8.3 name not in use, can be written and found
    again: [finddir] answers the object with its new size and [read] gives the
    data back.  The contents of every other file and directory stay as they were. *)
Theorem created_file_reads_back s dir l flags g lfn data :
  geometry_ok f (disk s) → chain f (disk s) (cluster dir) l → no_spare f (disk s) →
  cluster_size f ≤ quota s → first_slot f (disk s) l g →
  find_entries (Z.to_nat g) 0 nm (flat f (disk s) l) no_lfn = Ok (More (0 :: lfn)) →
  Forall byte data → 0 < len data < 2 ^ 32 →
  len data ≤ cluster_size f * len (free f (disk s)) →
  ∃ fl fl' d1 d2,
    runs (create f dir nm flags) s (Some (NodeFile fl)) (set_disk d1 s) ∧
    runs (write f fl 0 data) (set_disk d1 s) (len data, fl') (set_disk d2 s) ∧
    runs (finddir f dir nm) (set_disk d2 s) (Some (NodeFile fl')) (set_disk d2 s) ∧
    runs (read f fl' 0 (len data)) (set_disk d2 s) data (set_disk d2 s) ∧
    ∀ c l2, chain f (disk s) c l2 → (∀ x, x ∈ l2 → x ∉ l) →
      chain f d2 c l2 ∧ flat f d2 l2 = flat f (disk s) l2.
Proof.
  intros Hg Hch Hsp Hq Hs Hpre Hby Hd Hroom.
  destruct (runs_fill s dir l flags g data Hg Hch Hsp Hq Hs Hby Hd Hroom) as (a & l' & d1 & d2 & R1 & R2 & Ha & Hcha & Hcont & Hf).
  pose proof Hf as [F1 F2 F3 F4 F5]. pose proof (filled_chain _ l g a _ d2 _ l Hg Hf Hch) as Hch2.
  destruct (slot_spec f _ _ l g Hg Hch Hs) as (S1 & S2 & S3 & S4 & S5 & S6). destruct (per_cluster_spec f _ Hg) as [He _].
  do 4 eexists. split_and!.
  - exact R1.
  - exact R2.
  - apply (runs_finddir f _ dir l); [done|done|done|].
    destruct (sized_entry (flat f (disk s) l) g a (len data)) as [T1 T2]; [lia| |].
    { rewrite (len_flat_chain f _ _ l Hg Hch), <- He. unfold ENTRY, len in *. nia. }
    rewrite <- F5 in T1, T2. eapply (lookup_created f nm base ext Hnm (disk s) d2); eauto. lia.
  - apply (runs_read_written (set_disk d2 s) _ [a] ([a] ++ l') d1); try done; lia.
  - intros c l2 Hc2 Hout. split; [by apply (filled_chain (disk s) l g a (len data))|]. apply flat_ext. intros y Hy.
    apply F4; [eapply Forall_forall; [|exact Hy]; by eapply chain_all_valid|by eapply chain_used|by apply Hout].
Qed.
End creating.

(** ** Removing a file *)

Section removing.
Context {W : Type} `{!BlockDevice W, !Allocator W, !StoreLaws W}.
Context (f : FAT32Manager).
Implicit Types s : store.

(** The bytes of a cluster in which entry [i] and its long name were deleted. *)
Definition deleted (i : Z) (b : list Z) : outcome (list Z) :=
  b1 ← delete_lfn (Z.to_nat i) b; put8 (ENTRY * i) DELETED b1.

Lemma delete_lfn_total n : ∀ b, ENTRY * Z.of_nat n ≤ len b → Forall byte b →
  ∃ b', delete_lfn n b = Ok b' ∧ len b' = len b ∧ Forall byte b'.
Proof.
  unfold ENTRY. induction n as [|n IH]; intros b Hl Hb; cbn [delete_lfn]; [by exists b|]. unfold ENTRY.
  rewrite get_le_ok by lia. run. destruct (_ =? ATTR_LFN); [|by exists b].
  rewrite put_le_ok by lia. run.
  assert (El : len (splice (32 * Z.of_nat n) (le 1 DELETED) b) = len b) by (apply len_splice; rewrite ?len_le; lia).
  destruct (IH (splice (32 * Z.of_nat n) (le 1 DELETED) b)) as (b' & E1 & E2 & E3).
  - lia.
  - apply Forall_splice; [apply le_bytes|done].
  - exists b'. split; [done|]. split; [lia|done].
Qed.

Lemma deleted_total i b : 0 ≤ i → ENTRY * (i + 1) ≤ len b → Forall byte b →
  ∃ b', deleted i b = Ok b' ∧ len b' = len b ∧ Forall byte b'.
Proof.
  unfold ENTRY. intros Hi Hl Hb. unfold deleted.
  destruct (delete_lfn_total (Z.to_nat i) b) as (b1 & -> & E1 & B1); [unfold ENTRY; lia|done|]. run.
  unfold ENTRY. rewrite put_le_ok by lia. eexists. split; [done|]. split.
  - rewrite len_splice; rewrite ?len_le; lia.
  - apply Forall_splice; [apply le_bytes|done].
Qed.

(** Entry [k] of a cluster belongs to the entry [i]: it is [i] itself, or every entry from
    [k] up to the one before [i] has the attribute byte of a long name. *)
Definition belongs (b : list Z) (i k : Z) : Prop :=
  0 ≤ k ≤ i ∧ ∀ m, k ≤ m < i → b !! Z.to_nat (32 * m + 11) = Some 15.

(** The bytes of a cluster, before and after: the first byte of every entry that belongs to
    [i] is 0xE5, and no other byte of the cluster is changed. *)
Record marked (i : Z) (b b' : list Z) : Prop := {
  marked_size : length b' = length b;
  marked_gone k : belongs b i k → b' !! Z.to_nat (32 * k) = Some 229;
  marked_kept (j : nat) : (∀ k, belongs b i k → j ≠ Z.to_nat (32 * k)) → b' !! j = b !! j }.

(** The same for the entries before [i] alone. *)
Record lfn_marked (i : Z) (b b' : list Z) : Prop := {
  lm_size : len b' = len b;
  lm_gone k : k < i → belongs b i k → b' !! Z.to_nat (32 * k) = Some 229;
  lm_kept (j : nat) : (∀ k, k < i → belongs b i k → j ≠ Z.to_nat (32 * k)) → b' !! j = b !! j }.

Lemma byte_put off v b (j : nat) : 0 ≤ off < len b →
  splice off (le 1 v) b !! j = if decide (j = Z.to_nat off) then Some (v mod 256) else b !! j.
Proof.
  intros Ho. case_decide as Hj.
  - subst j. rewrite lookup_splice_in; rewrite ?len_le; [|lia..]. by rewrite Nat.sub_diag.
  - apply lookup_splice_out; rewrite ?len_le; lia.
Qed.

Lemma byte_get off b : 0 ≤ off < len b → b !! Z.to_nat off = Some (of_le (sub off 1 b)).
Proof.
  intros Ho. destruct (lookup_lt_is_Some_2 b (Z.to_nat off)) as [c E]; [unfold len in Ho; lia|].
  rewrite E. f_equal. unfold sub. rewrite (drop_S _ c) by done. change (Z.to_nat 1) with 1%nat. cbn [take of_le]. rewrite firstn_O. cbn [of_le]. lia.
Qed.

Lemma belongs_pred b i k : b !! Z.to_nat (32 * i + 11) = Some 15 → k ≤ i →
  belongs b (i + 1) k ↔ belongs b i k.
Proof.
  intros Hi Hk. split; (intros [H1 H2]; split; [lia|]; intros m Hm); [apply H2; lia|].
  destruct (decide (m = i)) as [->|]; [done|]. apply H2. lia.
Qed.

Lemma belongs_put b i k j v : 0 ≤ j → 32 * j < len b →
  belongs (splice (32 * j) (le 1 v) b) i k ↔ belongs b i k.
Proof.
  intros Hj Hl. unfold belongs.
  assert (He : ∀ m, 0 ≤ m → splice (32 * j) (le 1 v) b !! Z.to_nat (32 * m + 11) = b !! Z.to_nat (32 * m + 11)).
  { intros m Hm. rewrite byte_put by lia. by rewrite decide_False by lia. }
  split; (intros [H1 H2]; split; [done|]); intros m Hm; specialize (H2 m Hm); rewrite He in * by lia; done.
Qed.

Lemma delete_lfn_marks n : ∀ b b1, ENTRY * Z.of_nat n ≤ len b → delete_lfn n b = Ok b1 →
  lfn_marked (Z.of_nat n) b b1.
Proof.
  unfold ENTRY. induction n as [|n IH]; intros b b1 Hl; cbn [delete_lfn]; unfold ENTRY.
  { intros [= <-]. constructor; [done| |done]. intros k Hk [? _]. lia. }
  rewrite get_le_ok by lia. run. change (Z.of_nat 1) with 1.
  pose proof (byte_get (32 * Z.of_nat n + 11) b ltac:(lia)) as Ha. rewrite Nat2Z.inj_succ, <- Z.add_1_r in *.
  destruct (Z.eqb_spec (of_le (sub (32 * Z.of_nat n + 11) 1 b)) ATTR_LFN) as [E|E].
  - rewrite E in Ha. rewrite put_le_ok by lia. run. intros Eb.
    apply IH in Eb as [M1 M2 M3]; [|rewrite len_splice; rewrite ?len_le; lia].
    assert (Hb : ∀ k, k < Z.of_nat n → belongs b (Z.of_nat n + 1) k ↔
      belongs (splice (32 * Z.of_nat n) (le 1 DELETED) b) (Z.of_nat n) k).
    { intros k Hk. rewrite belongs_put by lia. apply belongs_pred; [done|lia]. }
    constructor.
    + rewrite M1. apply len_splice; rewrite ?len_le; lia.
    + intros k Hk Hbk. destruct (decide (k = Z.of_nat n)) as [->|].
      * rewrite M3 by (intros ?? [? _]; lia). rewrite byte_put by lia. by rewrite decide_True by lia.
      * apply M2; [lia|]. apply Hb; [lia|done].
    + intros j Hj. rewrite M3 by (intros k Hk Hbk; apply Hj; [lia|by apply Hb]).
      rewrite byte_put by lia. rewrite decide_False; [done|]. apply Hj; [lia|]. apply belongs_pred; [done|lia|].
      split; [lia|]. intros m Hm. lia.
  - intros [= <-]. constructor; [done| |done]. intros k Hk [_ H].
    destruct E. specialize (H (Z.of_nat n) ltac:(lia)). rewrite Ha in H. by injection H.
Qed.

Lemma deleted_marks i b b' : 0 ≤ i → ENTRY * (i + 1) ≤ len b → deleted i b = Ok b' → marked i b b'.
Proof.
  unfold deleted, ENTRY. intros Hi Hl H. apply bind_Ok in H as (b1 & E1 & E2).
  apply delete_lfn_marks in E1 as [M1 M2 M3]; [|unfold ENTRY; lia]. rewrite Z2Nat.id in * by lia.
  rewrite put_le_ok in E2 by lia. assert (b' = splice (32 * i) (le 1 DELETED) b1) as -> by congruence. constructor.
  - apply Nat2Z.inj. change (len (splice (32 * i) (le 1 DELETED) b1) = len b).
    rewrite len_splice; rewrite ?len_le; lia.
  - intros k Hk. rewrite byte_put by lia. case_decide; [done|]. apply M2; [|done]. destruct Hk as [Hk _].
    destruct (decide (k = i)) as [->|]; [done|lia].
  - intros j Hj. rewrite byte_put by lia. rewrite decide_False; [apply M3; auto|].
    apply Hj. split; [lia|]. intros m Hm. lia.
Qed.

(** The whole of a cluster written. *)
Lemma runs_write_cluster s c b : geometry_ok f (disk s) → valid f (disk s) c →
  len b = cluster_size f → Forall byte b →
  runs (write_sectors (cluster_to_lba f c) (sectors_per_cluster (bpb f)) b) s ()
    (set_disk (splice (cluster_addr f c + 0) b (disk s)) s).
Proof.
  intros Hg Hv Hl Hb. destruct (cluster_to_lba_spec f _ c Hg Hv) as [E Hs].
  rewrite Z.add_0_r, <- E. apply runs_write; [done| |done]. rewrite Hl. unfold cluster_size, SECTOR. lia.
Qed.

Lemma runs_unlink_loop l1 : ∀ n s p c name s' r l2 x i,
  geometry_ok f (disk s) → chain f (disk s) c (l1 ++ x :: l2) → p ≠ 0 → (length l1 < n)%nat →
  Forall (λ y, match_entry (per_cluster f) 0 name (cluster_data f (disk s) y) = Ok None) l1 →
  match_entry (per_cluster f) 0 name (cluster_data f (disk s) x) = Ok (Some i) →
  (∀ m, runs (unlink_loop f (S m) p x name) s r s') →
  runs (unlink_loop f n p c name) s r s'.
Proof.
  induction l1 as [|y l1 IH]; intros n s p c name s' r l2 x i Hg Hch Hp Hn H1 H2 Hrun.
  - assert (x = c) as -> by (apply chain_hd in Hch; by injection Hch).
    destruct n as [|n]; [cbn in Hn; lia|]. apply Hrun.
  - assert (y = c) as -> by (apply chain_hd in Hch; by injection Hch).
    pose proof (chain_valid _ _ _ _ Hch) as Hv. apply Forall_cons in H1 as [Hy H1].
    destruct n as [|n]; [cbn in Hn; lia|]. cbn [unlink_loop]. rewrite (in_use_valid f _ _ Hg Hv).
    eapply runs_bind; [by apply runs_read_cluster|]. eapply runs_lift; [exact Hy|].
    eapply runs_bind; [apply runs_get_next; [done|destruct Hv; lia]|].
    inversion Hch as [? ? He E|? ? ? Hch' E]; subst; [by destruct l1|].
    eapply IH; try done. cbn in Hn. lia.
Qed.

Lemma match_entry_range n name b : ∀ i j, match_entry n i name b = Ok (Some j) → i ≤ j < i + Z.of_nat n.
Proof.
  induction n as [|n IH]; intros i j; cbn [match_entry]; [done|].
  intros H. inv_ok H. inv_ok H. destruct (_ =? 0); [done|].
  destruct (_ =? DELETED); [apply IH in H; lia|]. destruct (compare_fat_name _ _); [injection H as ->; lia|].
  apply IH in H. lia.
Qed.


End removing.
(** For an 8.3 name the short name that [create] stores is the one that [finddir]
    and [unlink] compare with, so an entry matches exactly when it holds it.  For
    a name with more than eight characters before its extension [create] keeps
    the extension and the comparison drops it: the file is never found again. *)
Theorem short_names nm base ext :
  (name_83 nm base ext → create_name nm = short_name base ext ∧
     ∀ e, compare_fat_name e nm = true ↔ e = create_name nm) ∧
  (∀ c, 46 ∉ base → (46 ∉ c :: ext) → (8 < length base)%nat → upcase c ≠ 32 →
     compare_fat_name (create_name (base ++ 46 :: c :: ext)) (base ++ 46 :: c :: ext) = false).
Proof.
  split.
  - intros H. destruct (names_agree _ _ _ H) as [E1 E2]. split; [done|]. intros e.
    destruct H as (_ & _ & _ & _ & _ & _ & _ & Hd & Hdd). unfold compare_fat_name.
    rewrite E1, E2, (bool_decide_false (nm = Vfs.DOT)), (bool_decide_false (nm = Vfs.DOTDOT)) by done.
    apply bool_decide_eq_true.
  - intros c. apply long_name_differs.
Qed.

Lemma demo_name : name_83 [97; 46; 116] [97] [116].
Proof.
  split_and!; try done; try (by right); try set_solver; try (cbn; lia); by repeat constructor.
Qed.

Lemma short_names_witness :
  create_name [97; 46; 116] = [65; 32; 32; 32; 32; 32; 32; 32; 84; 32; 32] ∧
  compare_fat_name (create_name (replicate 9 97 ++ [46; 116])) (replicate 9 97 ++ [46; 116]) = false.
Proof.
  split.
  - exact (proj1 (proj1 (short_names _ _ _) demo_name)).
  - apply (proj2 (short_names [] (replicate 9 97) [])); [|set_solver|cbn; lia|done].
    intros H. apply elem_of_replicate in H as [H _]. lia.
Defined.

(** ** Witnesses on the small volume *)

Import Block.Pure.

Definition demo_dir : FAT32_Directory := mk_directory [47] 2.

Lemma demo_dir_chain : chain demo_fat demo_disk 2 [2].
Proof. apply chain_last; [repeat split; vm_compute; congruence|vm_compute; congruence]. Qed.

Lemma created_file_reads_back_witness :
  ∃ fl fl' d1 d2,
    runs (W := store) (create demo_fat demo_dir [97; 46; 116] 0) demo_store (Some (NodeFile fl)) (set_disk d1 demo_store) ∧
    runs (W := store) (write demo_fat fl 0 [1; 2; 3]) (set_disk d1 demo_store) (3, fl') (set_disk d2 demo_store) ∧
    runs (W := store) (finddir demo_fat demo_dir [97; 46; 116]) (set_disk d2 demo_store) (Some (NodeFile fl'))
      (set_disk d2 demo_store).
Proof.
  destruct (created_file_reads_back demo_fat [97; 46; 116] [97] [116] demo_name demo_store demo_dir [2] 0 0
    (replicate 255 0) [1; 2; 3] demo_geometry demo_dir_chain demo_no_spare)
    as (fl & fl' & d1 & d2 & H1 & H2 & H3 & _).
  - vm_compute. congruence.
  - vm_compute. reflexivity.
  - reflexivity.
  - repeat constructor; lia.
  - vm_compute. split; congruence.
  - vm_compute. congruence.
  - exists fl, fl', d1, d2. split; [exact H1|]. split; [exact H2|exact H3].
Defined.

(** The volume with a file A of the chain 3, 4 in its directory. *)
Definition file_disk : list Z :=
  splice 1024 (raw_entry (create_name [65]) ATTR_ARCHIVE 3 1000) demo_disk.

Lemma file_disk_ok : geometry_ok demo_fat file_disk ∧ chain demo_fat file_disk 2 [2] ∧
  chain demo_fat file_disk 3 [3; 4].
Proof.
  assert (Hv : valid demo_fat demo_disk 2) by (repeat split; vm_compute; congruence).
  assert (Hb : 0 + len (raw_entry (create_name [65]) ATTR_ARCHIVE 3 1000) ≤ cluster_size demo_fat) by (vm_compute; congruence).
  change file_disk with (splice (cluster_addr demo_fat 2 + 0) (raw_entry (create_name [65]) ATTR_ARCHIVE 3 1000) demo_disk).
  split; [|split].
  - apply dw_geometry; [apply demo_geometry|done|done|done|]. apply bytes_check. vm_compute. reflexivity.
  - apply dw_chain; [apply demo_geometry|done|done|done|apply demo_dir_chain].
  - apply dw_chain; [apply demo_geometry|done|done|done|apply demo_chain].
Qed.

End FatDir.
