(* ===== verification/VfsNode.v ===== *)
(** * The objects of the file systems (include/fs/vfs_node.h, fs/vfs.cpp, include/fs/ramfs_vfs.h)

    The nodes are C++ objects behind pointers: a map from addresses to a record of
    the fields of [VFSNode] and the fields of the class.  The virtual methods
    dispatch on the class; [VirtualNode] is instantiated with them, so that the
    functions of the module [Vfs] run on these objects.  [new] and [delete] go to
    the kernel heap; a deleted object is not in the map, and using it is a fault.

    A read-only tree whose nodes are all there from the start (the initial RAM
    disk under [RootFS]) is a [FileTree]. *)

From S2P Require Import Prelude Bytes LibcString Block Vfs Ramfs Fat FatFile FatDir.

Module VfsNode.
Import LibcString Block Vfs.

Definition VFS_FILE : Z := 1.
Definition VFS_DIRECTORY : Z := 2.
Definition VFS_DEVICE : Z := 3.

(** The classes, with the fields of their own. *)
Inductive node_kind : Set :=
| RootFS (mounts : list Z)
| DeviceNode
| SimpleDirectory (children : list Z)
| MountOverlayNode (underlying : Z) (mounts : list (list Z * Z))
| KeonFS_File (data_ptr : Z)
| KeonFS_MountNode (children : list Z)
| FAT32_File (first_cluster dir_entry_lba dir_entry_offset : Z)
| FAT32_Directory (cluster : Z).

Record VFSNode : Set := mk_node {
  name : list Z; type : Z; size : Z; inode : Z; ref_count : Z; parent : Z; kind : node_kind
}.

Definition set_ref (r : Z) (n : VFSNode) : VFSNode :=
  mk_node (name n) (type n) (size n) (inode n) r (parent n) (kind n).
Definition set_parent (p : Z) (n : VFSNode) : VFSNode :=
  mk_node (name n) (type n) (size n) (inode n) (ref_count n) p (kind n).
Definition set_size (z : Z) (n : VFSNode) : VFSNode :=
  mk_node (name n) (type n) z (inode n) (ref_count n) (parent n) (kind n).
Definition set_kind (k : node_kind) (n : VFSNode) : VFSNode :=
  mk_node (name n) (type n) (size n) (inode n) (ref_count n) (parent n) k.

(** The constructors: the fields of a new object, by class. *)
Definition node (nm : list Z) (ty sz : Z) (k : node_kind) : VFSNode := mk_node (take 127 nm) ty sz 0 0 0 k.
Definition new_DeviceNode (nm : list Z) : VFSNode := node nm VFS_DEVICE (64 * 1024 * 1024) DeviceNode.
Definition new_SimpleDirectory (nm : list Z) : VFSNode := node nm VFS_DIRECTORY 0 (SimpleDirectory []).
Definition new_RootFS (this : Z) : VFSNode := mk_node [SLASH] VFS_DIRECTORY 0 0 1 this (RootFS []).
Definition new_MountOverlayNode (underlying : Z) (base : VFSNode) : VFSNode :=
  mk_node (take 127 (name base)) (type base) (size base) (inode base) 0 (parent base)
    (MountOverlayNode underlying []).
Definition of_fat_node (n : FatDir.fat_node) : VFSNode :=
  match n with
  | FatDir.NodeFile fl =>
      node (FatFile.name fl) VFS_FILE (FatFile.size fl)
        (FAT32_File (FatFile.first_cluster fl) (FatFile.dir_entry_lba fl) (FatFile.dir_entry_offset fl))
  | FatDir.NodeDirectory dir => node (FatDir.dname dir) VFS_DIRECTORY 0 (FAT32_Directory (FatDir.cluster dir))
  end.

(** The size of an object of the class. *)
Definition sizeof (k : node_kind) : Z :=
  match k with
  | RootFS _ => 424
  | DeviceNode => 160
  | SimpleDirectory _ => 424
  | MountOverlayNode _ _ => 1264
  | KeonFS_File _ => 168
  | KeonFS_MountNode _ => 1208
  | FAT32_File _ _ _ => 184
  | FAT32_Directory _ => 176
  end.

(** [io] is the state of the disk and the heap, [memory] what the kernel reads files of
    the RAM disk from. *)
Record world (D : Type) : Type := mk_world {
  nodes : gmap Z VFSNode; root : Z; cwd : Z; memory : mem; fat : Fat.FAT32Manager; io : D
}.
Arguments mk_world {D}. Arguments nodes {D}. Arguments root {D}. Arguments cwd {D}.
Arguments memory {D}. Arguments fat {D}. Arguments io {D}.

Section objects.
Context {D : Type} `{!BlockDevice D, !Allocator D}.
Implicit Types w : world D.

Definition set_nodes (m : gmap Z VFSNode) w : world D := mk_world m (root w) (cwd w) (memory w) (fat w) (io w).
Definition set_root (p : Z) w : world D := mk_world (nodes w) p (cwd w) (memory w) (fat w) (io w).
Definition set_cwd (p : Z) w : world D := mk_world (nodes w) (root w) p (memory w) (fat w) (io w).

(** Running code of the drivers and the heap. *)
Definition on_io {A} (m : kernel D A) : kernel (world D) A :=
  λ w, '(a, d) ← m (io w); Ok (a, mk_world (nodes w) (root w) (cwd w) (memory w) (fat w) d).

Definition deref (p : Z) w : outcome VFSNode := of_option (nodes w !! p).
Definition update (p : Z) (f : VFSNode → VFSNode) w : outcome (world D) :=
  n ← deref p w; Ok (set_nodes (<[p := f n]> (nodes w)) w).

(** [new]: the memory comes from the heap, and the constructor writes through the pointer. *)
Definition new_node (n : VFSNode) w : outcome (Z * world D) :=
  '(p, w1) ← on_io (kmalloc (sizeof (kind n))) w;
  if p =? 0 then Fault else Ok (p, set_nodes (<[p := n]> (nodes w1)) w1).
Definition delete_node (p : Z) w : outcome (world D) :=
  _ ← deref p w;
  '(_, w1) ← on_io (kfree p) w;
  Ok (set_nodes (delete p (nodes w1)) w1).

(** *** open and close *)

(** [ref_count++], and [if (ref_count > 0) ref_count--]. *)
Definition count_up (p : Z) w : outcome (world D) := update p (λ n, set_ref (u32 (ref_count n + 1)) n) w.
Definition count_down (p : Z) w : outcome (world D) :=
  n ← deref p w; if 0 <? ref_count n then update p (set_ref (ref_count n - 1)) w else Ok w.

Definition SimpleDirectory_close (p : Z) w : outcome (world D) :=
  update p (λ n, set_ref (u32 (ref_count n - 1)) n) w.

(** A directory of the disk deletes itself with its last reference. *)
Definition FAT32_Directory_close (p : Z) w : outcome (world D) :=
  n ← deref p w;
  w1 ← update p (set_ref (u32 (ref_count n - 1))) w;
  if (u32 (ref_count n - 1) =? 0) && negb (p =? root w) then delete_node p w1 else Ok w1.

Definition v_open (p : Z) w : outcome (world D) :=
  n ← deref p w;
  match kind n with
  | FAT32_File _ _ _ | KeonFS_File _ | KeonFS_MountNode _ => Ok w
  | _ => count_up p w
  end.

Definition v_close (p : Z) w : outcome (world D) :=
  n ← deref p w;
  match kind n with
  | FAT32_File _ _ _ | KeonFS_File _ | KeonFS_MountNode _ => Ok w
  | RootFS _ | DeviceNode | MountOverlayNode _ _ => count_down p w
  | SimpleDirectory _ => SimpleDirectory_close p w
  | FAT32_Directory _ => FAT32_Directory_close p w
  end.

(** *** Looking up *)

(** The first of some nodes with the name; 0 if there is none. *)
Fixpoint find_named (nm : list Z) (ps : list Z) w : outcome Z :=
  match ps with
  | [] => Ok 0
  | p :: ps' => n ← deref p w; if str_diff (name n) nm =? 0 then Ok p else find_named nm ps' w
  end.

Definition RootFS_finddir (this : Z) (mounts : list Z) (nm : list Z) w : outcome (Z * world D) :=
  match nm with
  | [] => Ok (this, w)
  | _ =>
      if str_diff nm [SLASH] =? 0 then Ok (this, w) else
      q ← find_named nm mounts w;
      if q =? 0 then Ok (0, w) else w1 ← update q (set_parent this) w; Ok (q, w1)
  end.

Definition SimpleDirectory_finddir (children : list Z) (nm : list Z) w : outcome (Z * world D) :=
  q ← find_named nm children w; Ok (q, w).
Definition KeonFS_MountNode_finddir (children : list Z) (nm : list Z) w : outcome (Z * world D) :=
  q ← find_named nm children w; Ok (q, w).

Fixpoint find_mount (nm : list Z) (ms : list (list Z * Z)) : option Z :=
  match ms with
  | [] => None
  | (mn, p) :: ms' => if str_diff mn nm =? 0 then Some p else find_mount nm ms'
  end.

(** The mounts hide the entries of the directory under the overlay. *)
Definition MountOverlayNode_finddir (underlying_finddir : list Z → world D → outcome (Z * world D))
  (mounts : list (list Z * Z)) (nm : list Z) w : outcome (Z * world D) :=
  match find_mount nm mounts with Some q => Ok (q, w) | None => underlying_finddir nm w end.

Definition FAT32_Directory_finddir (this cluster : Z) (nm : list Z) w : outcome (Z * world D) :=
  n ← deref this w;
  '(r, w1) ← on_io (FatDir.finddir (fat w) (FatDir.mk_directory (name n) cluster) nm) w;
  match r with
  | None => Ok (0, w1)
  | Some nd => new_node (set_parent this (of_fat_node nd)) w1
  end.

Fixpoint v_finddir (depth : nat) (p : Z) (nm : list Z) w : outcome (Z * world D) :=
  n ← deref p w;
  match kind n with
  | RootFS mounts => RootFS_finddir p mounts nm w
  | DeviceNode | KeonFS_File _ | FAT32_File _ _ _ => Ok (0, w)
  | SimpleDirectory children => SimpleDirectory_finddir children nm w
  | KeonFS_MountNode children => KeonFS_MountNode_finddir children nm w
  | MountOverlayNode underlying mounts =>
      MountOverlayNode_finddir
        (match depth with O => λ _ _, OutOfFuel | S depth' => v_finddir depth' underlying end) mounts nm w
  | FAT32_Directory cluster => FAT32_Directory_finddir p cluster nm w
  end.

(** The entry of a child, and of a mount under its name. *)
Definition dirent_of (q : Z) (nm : list Z) (index : Z) w : outcome (option vfs_dirent) :=
  m ← deref q w; Ok (Some (mk_dirent nm index (type m))).
Definition child_dirent (ps : list Z) (index : Z) w : outcome (option vfs_dirent) :=
  match ps !! Z.to_nat index with
  | None => Ok None
  | Some q => m ← deref q w; dirent_of q (name m) index w
  end.

Definition RootFS_readdir (mounts : list Z) (index : Z) w : outcome (option vfs_dirent * world D) :=
  de ← child_dirent mounts index w; Ok (de, w).
Definition SimpleDirectory_readdir (children : list Z) (index : Z) w : outcome (option vfs_dirent * world D) :=
  de ← child_dirent children index w; Ok (de, w).
(** The type of the entry is not set and stays 0. *)
Definition KeonFS_MountNode_readdir (children : list Z) (index : Z) w : outcome (option vfs_dirent * world D) :=
  de ← child_dirent children index w; Ok (option_map (λ e, mk_dirent (de_name e) (de_inode e) 0) de, w).

Definition MountOverlayNode_readdir (underlying_readdir : Z → world D → outcome (option vfs_dirent * world D))
  (mounts : list (list Z * Z)) (index : Z) w : outcome (option vfs_dirent * world D) :=
  match mounts !! Z.to_nat index with
  | Some (mn, q) => de ← dirent_of q mn index w; Ok (de, w)
  | None => underlying_readdir (u32 (index - Z.of_nat (length mounts))) w
  end.

Fixpoint v_readdir (depth : nat) (p index : Z) w : outcome (option vfs_dirent * world D) :=
  n ← deref p w;
  match kind n with
  | RootFS ps => RootFS_readdir ps index w
  | SimpleDirectory ps => SimpleDirectory_readdir ps index w
  | KeonFS_MountNode ps => KeonFS_MountNode_readdir ps index w
  | DeviceNode | KeonFS_File _ | FAT32_File _ _ _ => Ok (None, w)
  | MountOverlayNode underlying mounts =>
      MountOverlayNode_readdir
        (match depth with O => λ _ _, OutOfFuel | S depth' => v_readdir depth' underlying end) mounts index w
  | FAT32_Directory cluster =>
      on_io (FatDir.readdir (fat w) (FatDir.mk_directory (name n) cluster) index) w
  end.

(** *** Reading and writing *)

(** [DeviceNode::read]; what lies behind the sectors read is not initialised. *)
Definition device_read (offset count : Z) : kernel D (list Z) :=
  let start_sector := offset / 512 in
  let end_sector := u32 (offset + count - 1) / 512 in
  let num_sectors := u32 (end_sector - start_sector + 1) in
  temp_buffer ← kmalloc (u32 (num_sectors * 512));
  if temp_buffer =? 0 then mret [] else
  data ← read_sectors start_sector (u8 num_sectors);
  bs ← lift (Bytes.get_bytes (offset mod 512) count data);
  kfree temp_buffer;;
  mret bs.

Definition fat_file (n : VFSNode) (first_cluster lba off : Z) : FatFile.FAT32_File :=
  FatFile.mk_file (name n) first_cluster (size n) lba off.

Fixpoint v_read (depth : nat) (p offset count : Z) w : outcome (list Z * world D) :=
  n ← deref p w;
  match kind n with
  | RootFS _ | SimpleDirectory _ | KeonFS_MountNode _ | FAT32_Directory _ => Ok ([], w)
  | DeviceNode => on_io (device_read offset count) w
  | MountOverlayNode underlying _ =>
      match depth with O => OutOfFuel | S depth' => v_read depth' underlying offset count w end
  | KeonFS_File data_ptr =>
      bs ← Ramfs.read (Ramfs.mk_file (name n) (size n) data_ptr) offset count (memory w); Ok (bs, w)
  | FAT32_File c lba off => on_io (FatFile.read (fat w) (fat_file n c lba off) offset count) w
  end.

Fixpoint v_write (depth : nat) (p offset : Z) (buffer : list Z) w : outcome (Z * world D) :=
  n ← deref p w;
  match kind n with
  | MountOverlayNode underlying _ =>
      match depth with O => OutOfFuel | S depth' => v_write depth' underlying offset buffer w end
  | FAT32_File c lba off =>
      '((count, fl), w1) ← on_io (FatFile.write (fat w) (fat_file n c lba off) offset buffer) w;
      w2 ← update p (set_size (FatFile.size fl)) w1;
      Ok (count, w2)
  | _ => Ok (0, w)
  end.

(** *** Changing directories *)

Fixpoint v_create (depth : nat) (p : Z) (nm : list Z) (flags : Z) w : outcome (Z * world D) :=
  n ← deref p w;
  match kind n with
  | MountOverlayNode underlying _ =>
      match depth with O => OutOfFuel | S depth' => v_create depth' underlying nm flags w end
  | FAT32_Directory cluster =>
      '(r, w1) ← on_io (FatDir.create (fat w) (FatDir.mk_directory (name n) cluster) nm flags) w;
      match r with None => Ok (0, w1) | Some nd => new_node (of_fat_node nd) w1 end
  | _ => Ok (0, w)
  end.

Fixpoint v_mkdir (depth : nat) (p : Z) (nm : list Z) (mode : Z) w : outcome (Z * world D) :=
  n ← deref p w;
  match kind n with
  | MountOverlayNode underlying _ =>
      match depth with O => OutOfFuel | S depth' => v_mkdir depth' underlying nm mode w end
  | FAT32_Directory cluster =>
      on_io (FatDir.mkdir (fat w) (FatDir.mk_directory (name n) cluster) nm mode) w
  | _ => Ok (-1, w)
  end.

Fixpoint v_unlink (depth : nat) (p : Z) (nm : list Z) w : outcome (bool * world D) :=
  n ← deref p w;
  match kind n with
  | MountOverlayNode underlying _ =>
      match depth with O => OutOfFuel | S depth' => v_unlink depth' underlying nm w end
  | FAT32_Directory cluster =>
      on_io (FatDir.unlink (fat w) (FatDir.mk_directory (name n) cluster) nm) w
  | _ => Ok (false, w)
  end.

(** An overlay forwards to the node under it; more steps than there are nodes would
    be an endless recursion. *)
Definition depth w : nat := base.size (nodes w).

#[export] Instance world_nodes : VirtualNode (world D) := {|
  vfs_root := root;
  cwd_node := cwd;
  Vfs.parent p w := n ← deref p w; Ok (parent n);
  node_open := v_open;
  node_close := v_close;
  node_finddir p nm w := v_finddir (depth w) p nm w;
  node_read p offset count w := v_read (depth w) p offset count w;
  node_write p offset buffer w := v_write (depth w) p offset buffer w;
  node_readdir p index w := v_readdir (depth w) p index w;
  node_create p nm flags w := v_create (depth w) p nm flags w;
  node_mkdir p nm mode w := v_mkdir (depth w) p nm mode w;
  node_unlink p nm w := v_unlink (depth w) p nm w
|}.

(** ** Building the tree *)

(** [rootfs_buffer] is the static memory of the fall-back root. *)
Definition vfs_init (rootfs_buffer root_node : Z) w : world D :=
  if root_node =? 0 then
    set_root rootfs_buffer (set_nodes (<[rootfs_buffer := new_RootFS rootfs_buffer]> (nodes w)) w)
  else set_root root_node w.

Definition register_node (this p : Z) w : outcome (world D) :=
  n ← deref this w;
  match kind n with
  | RootFS mounts =>
      if (length mounts <? 32)%nat then
        w1 ← update this (set_kind (RootFS (mounts ++ [p]))) w;
        update p (set_parent this) w1
      else Ok w
  | _ => Fault
  end.

(** The cast of the root to [RootFS] is not checked. *)
Definition vfs_mount (p : Z) w : outcome (world D) :=
  if (root w =? 0) || (p =? 0) then Ok w else register_node (root w) p w.

Definition add_mount (this : Z) (nm : list Z) (p : Z) w : outcome (world D) :=
  n ← deref this w;
  match kind n with
  | MountOverlayNode underlying mounts =>
      if (length mounts <? 8)%nat then
        w1 ← update this (set_kind (MountOverlayNode underlying (mounts ++ [(take 127 nm, p)]))) w;
        update p (set_parent this) w1
      else Ok w
  | _ => Fault
  end.

Definition simple_add_child (this p : Z) w : outcome (world D) :=
  n ← deref this w;
  match kind n with
  | SimpleDirectory children =>
      if (length children <? 16)%nat then update this (set_kind (SimpleDirectory (children ++ [p]))) w else Ok w
  | _ => Fault
  end.

(** The objects of the files of the RAM disk. *)
Fixpoint new_files (fs : list Ramfs.KeonFS_File) w : outcome (list Z * world D) :=
  match fs with
  | [] => Ok ([], w)
  | f :: fs' =>
      '(p, w1) ← new_node (node (Ramfs.f_name f) VFS_FILE (Ramfs.f_size f) (KeonFS_File (Ramfs.f_data_ptr f))) w;
      '(ps, w2) ← new_files fs' w1;
      Ok (p :: ps, w2)
  end.

(** [new KeonFS_MountNode(mount_name, addr)] *)
Definition new_KeonFS_MountNode (mount_name : list Z) (addr : Z) w : outcome (Z * world D) :=
  '(p, w1) ← new_node (node mount_name VFS_DIRECTORY 0 (KeonFS_MountNode [])) w;
  '(files, fs_size) ← Ramfs.KeonFS_MountNode addr (memory w1);
  '(ps, w2) ← new_files files w1;
  w3 ← update p (λ n, set_size fs_size (set_kind (KeonFS_MountNode ps) n)) w2;
  Ok (p, w3).

(** ** Trees that do not change *)

(** The children of the classes whose objects are all made at start. *)
Definition kids (k : node_kind) : option (list Z) :=
  match k with
  | RootFS ps | SimpleDirectory ps | KeonFS_MountNode ps => Some ps
  | DeviceNode | KeonFS_File _ => Some []
  | _ => None
  end.

Record static_tree w : Prop := {
  st_root : is_Some (nodes w !! root w);
  st_null : nodes w !! 0 = None;
  st_kids p n : nodes w !! p = Some n →
    ∃ ps, kids (kind n) = Some ps ∧ ∀ q, q ∈ ps → ∃ m, nodes w !! q = Some m ∧
      match kind n with RootFS _ => parent m = p | _ => True end;
  st_parent p n : nodes w !! p = Some n → parent n = 0 ∨ is_Some (nodes w !! parent n)
}.

(** The same objects up to reference counts. *)
Record same_tree w w' : Prop := {
  sm_root : root w' = root w;
  sm_cwd : cwd w' = cwd w;
  sm_nodes p : set_ref 0 <$> nodes w' !! p = set_ref 0 <$> nodes w !! p
}.

Lemma same_tree_refl w : same_tree w w.
Proof. by constructor. Qed.

Lemma same_node w w' p n : same_tree w w' → nodes w !! p = Some n →
  ∃ n', nodes w' !! p = Some n' ∧ name n' = name n ∧ kind n' = kind n ∧ parent n' = parent n.
Proof.
  intros [_ _ H] Hp. specialize (H p). rewrite Hp in H. destruct (nodes w' !! p) as [n'|]; [|done].
  cbn in H. injection H as E1 E2 E3 E4 E5 E6. by exists n'.
Qed.

Lemma same_tree_sym w w' : same_tree w w' → same_tree w' w.
Proof. intros [H1 H2 H3]. by constructor. Qed.

Lemma same_none w w' p : same_tree w w' → nodes w !! p = None → nodes w' !! p = None.
Proof. intros [_ _ H] Hp. specialize (H p). rewrite Hp in H. by destruct (nodes w' !! p). Qed.

Lemma same_tree_ok w w' : same_tree w w' → static_tree w → static_tree w'.
Proof.
  intros Hs [H1 H2 H3 H4]. pose proof (same_tree_sym _ _ Hs) as Hs'.
  assert (Hsome : ∀ p, is_Some (nodes w !! p) → is_Some (nodes w' !! p)).
  { intros p [n Hn]. destruct (same_node _ _ _ _ Hs Hn) as (n' & Hn' & _). by exists n'. }
  constructor.
  - rewrite (sm_root _ _ Hs). auto.
  - by eapply same_none.
  - intros p n' Hn'. destruct (same_node _ _ _ _ Hs' Hn') as (n & Hn & _ & Ek & _).
    destruct (H3 p n Hn) as (ps & Eps & Hps). rewrite Ek in Eps, Hps. exists ps. split; [done|].
    intros q Hq. destruct (Hps q Hq) as (m & Hm & Hpar).
    destruct (same_node _ _ _ _ Hs Hm) as (m' & Hm' & _ & _ & Ep). exists m'. split; [done|].
    destruct (kind n'); try done. by rewrite Ep.
  - intros p n' Hn'. destruct (same_node _ _ _ _ Hs' Hn') as (n & Hn & _ & _ & Ep). rewrite <- Ep.
    destruct (H4 p n Hn); auto.
Qed.

Lemma deref_node w p n : nodes w !! p = Some n → deref p w = Ok n.
Proof. intros H. unfold deref. by rewrite H. Qed.

(** Changing only the count of a node, or nothing. *)
Lemma update_ref w p n (f : VFSNode → Z) : nodes w !! p = Some n →
  ∃ w', update p (λ n, set_ref (f n) n) w = Ok w' ∧ same_tree w w'.
Proof.
  intros Hp. unfold update, deref. rewrite Hp. run. eexists. split; [done|]. constructor; [done..|].
  intros q. cbn. destruct (decide (p = q)) as [<-|Hne].
  - by rewrite lookup_insert_eq, Hp.
  - by rewrite lookup_insert_ne.
Qed.

Lemma find_named_same w w' nm ps : same_tree w w' → find_named nm ps w' = find_named nm ps w.
Proof.
  intros Hs. induction ps as [|p ps IH]; cbn [find_named]; [done|]. unfold deref.
  destruct (nodes w !! p) as [n|] eqn:E.
  - destruct (same_node _ _ _ _ Hs E) as (n' & E' & En & _). rewrite E'. cbn. by rewrite En, IH.
  - by rewrite (same_none _ _ _ Hs E).
Qed.

Lemma find_named_total w nm ps : (∀ q, q ∈ ps → is_Some (nodes w !! q)) → nodes w !! 0 = None →
  ∃ q, find_named nm ps w = Ok q ∧ (q = 0 ∨ q ∈ ps ∧ q ≠ 0).
Proof.
  intros H H0. induction ps as [|p ps IH]; cbn [find_named]; [exists 0; auto|].
  destruct (H p) as [n Hn]; [set_solver|]. unfold deref. rewrite Hn. cbn.
  destruct (str_diff (name n) nm =? 0).
  - exists p. split; [done|]. right. split; [set_solver|]. intros ->. by rewrite H0 in Hn.
  - destruct IH as (q & -> & Hq); [intros q Hq; apply H; set_solver|].
    exists q. split; [done|]. destruct Hq as [->|[Hq ?]]; [by left|]. right. split; [set_solver|done].
Qed.

Definition s_child w (o : Z) (nm : list Z) : option Z :=
  match nodes w !! o with
  | Some n =>
      match find_named nm (default [] (kids (kind n))) w with
      | Ok q => if q =? 0 then None else Some q
      | _ => None
      end
  | None => None
  end.

Definition s_up w (o : Z) : option Z :=
  if o =? root w then Some (root w) else
  match nodes w !! o with
  | Some n => if parent n =? 0 then None else Some (parent n)
  | None => None
  end.

Definition s_den w (p o : Z) : Prop := p = o ∧ is_Some (nodes w !! p).

Lemma same_keeps w w' : static_tree w → same_tree w w' → keeps_tree static_tree s_den s_child s_up w w'.
Proof.
  intros Hok Hs. constructor.
  - by eapply same_tree_ok.
  - apply Hs.
  - apply Hs.
  - intros p o [-> [n Hn]]. split; [done|]. destruct (same_node _ _ _ _ Hs Hn) as (n' & Hn' & _). by exists n'.
  - intros o nm. unfold s_child. destruct (nodes w !! o) as [n|] eqn:E.
    + destruct (same_node _ _ _ _ Hs E) as (n' & E' & _ & Ek & _).
      by rewrite E', Ek, (find_named_same _ _ _ _ Hs).
    + by rewrite (same_none _ _ _ Hs E).
  - intros o. unfold s_up. rewrite (sm_root _ _ Hs). destruct (o =? root w); [done|].
    destruct (nodes w !! o) as [n|] eqn:E.
    + destruct (same_node _ _ _ _ Hs E) as (n' & E' & _ & _ & Ep). by rewrite E', Ep.
    + by rewrite (same_none _ _ _ Hs E).
Qed.
Lemma static_kids w p n : static_tree w → nodes w !! p = Some n → is_Some (kids (kind n)).
Proof. intros [_ _ H _] Hn. destruct (H p n Hn) as (ps & E & _). by exists ps. Qed.

Lemma s_open w p o : static_tree w → s_den w p o → ∃ w', v_open p w = Ok w' ∧ same_tree w w'.
Proof.
  intros Hok [-> [n Hn]]. pose proof (static_kids _ _ _ Hok Hn) as [ps Hk]. unfold v_open. rewrite (deref_node _ _ _ Hn). run.
  destruct (kind n); try done; first [exact (update_ref w o n _ Hn)|exists w; split; [done|apply same_tree_refl]].
Qed.

Lemma s_close w p o : static_tree w → s_den w p o → ∃ w', v_close p w = Ok w' ∧ same_tree w w'.
Proof.
  intros Hok [-> [n Hn]]. pose proof (static_kids _ _ _ Hok Hn) as [ps Hk]. unfold v_close, count_down.
  rewrite (deref_node _ _ _ Hn). run.
  destruct (kind n); try done; try (destruct (0 <? ref_count n));
    first [exact (update_ref w o n _ Hn)|exact (update_ref w o n (λ _, ref_count n - 1) Hn)
          |exists w; split; [done|apply same_tree_refl]].
Qed.

(** A set that sets nothing new. *)
Lemma update_same w q n p : nodes w !! q = Some n → parent n = p →
  ∃ w', update q (set_parent p) w = Ok w' ∧ same_tree w w'.
Proof.
  intros Hq Hp. unfold update, deref. rewrite Hq. cbn. eexists. split; [done|]. constructor; [done..|].
  intros r. cbn. destruct (decide (q = r)) as [<-|Hne]; [|by rewrite lookup_insert_ne].
  rewrite lookup_insert_eq, Hq. cbn. f_equal. by rewrite <- Hp.
Qed.

Lemma not_slash nm : (SLASH ∉ nm) → nm ≠ [] → (str_diff nm [SLASH] =? 0) = false.
Proof.
  intros Hs Hne. destruct nm as [|c nm]; [done|]. apply not_elem_of_cons in Hs as [Hc _].
  cbn [str_diff]. destruct (Z.eqb_spec c SLASH); [congruence|]. apply Z.eqb_neq. lia.
Qed.

(** On these classes [finddir] is the search among the children. *)
Lemma finddir_search w dp p n nm ps q :
  static_tree w → nodes w !! p = Some n → kids (kind n) = Some ps → (SLASH ∉ nm) → nm ≠ [] →
  find_named nm ps w = Ok q → (q = 0 ∨ q ∈ ps ∧ q ≠ 0) →
  ∃ w', v_finddir dp p nm w = Ok (q, w') ∧ same_tree w w'.
Proof.
  intros Hok Hn Ek Hsl Hne Eq Hq. destruct (st_kids _ Hok _ _ Hn) as (ps' & Ek' & Hps).
  rewrite Ek in Ek'. injection Ek' as <-.
  assert (E : v_finddir dp p nm w = match kind n with
    | RootFS _ => if q =? 0 then Ok (0, w) else w1 ← update q (set_parent p) w; Ok (q, w1)
    | _ => Ok (q, w)
    end).
  { destruct dp; cbn [v_finddir]; rewrite (deref_node _ _ _ Hn); run;
      unfold RootFS_finddir, SimpleDirectory_finddir, KeonFS_MountNode_finddir;
      destruct (kind n); cbn in Ek; try done; injection Ek as <-; try (by rewrite Eq);
      try (by cbn in Eq; injection Eq as <-);
      destruct nm as [|c nm]; try done; rewrite (not_slash (c :: nm)) by done; by rewrite Eq. }
  rewrite E. destruct (kind n); try by (exists w; split; [done|apply same_tree_refl]).
  destruct (Z.eqb_spec q 0) as [->|Hq0]; [by exists w; split; [|apply same_tree_refl]|].
  destruct Hq as [?|[Hq _]]; [done|]. destruct (Hps q Hq) as (m & Hm & Hp).
  destruct (update_same w q m p Hm Hp) as (w' & -> & Hs). exists w'. by split.
Qed.

Lemma s_find w p o nm : static_tree w → s_den w p o → name_ok nm →
  ∃ q w', v_finddir (depth w) p nm w = Ok (q, w') ∧ same_tree w w' ∧
    match s_child w o nm with Some o' => s_den w' q o' | None => q = 0 end.
Proof.
  intros Hok [-> [n Hn]] (Hne & Hsl & _). destruct (st_kids _ Hok _ _ Hn) as (ps & Ek & Hps).
  destruct (find_named_total w nm ps) as (q & Eq & Hq).
  { intros q Hq. destruct (Hps q Hq) as (m & Hm & _). by exists m. }
  { apply Hok. }
  destruct (finddir_search w (depth w) o n nm ps q) as (w' & Ef & Hs); [done..|].
  exists q, w'. split_and!; [done|done|]. unfold s_child. rewrite Hn, Ek. cbn. rewrite Eq.
  destruct (Z.eqb_spec q 0); [done|]. split; [done|]. destruct Hq as [?|[Hq _]]; [done|].
  destruct (Hps q Hq) as (m & Hm & _). destruct (same_node _ _ _ _ Hs Hm) as (m' & Hm' & _). by exists m'.
Qed.

Lemma s_parent w p o : static_tree w → s_den w p o → p ≠ root w →
  ∃ q, (n ← deref p w; Ok (parent n)) = Ok q ∧ match s_up w o with Some o' => s_den w q o' | None => q = 0 end.
Proof.
  intros Hok [-> [n Hn]] Hne. unfold deref, s_up. rewrite Hn, (proj2 (Z.eqb_neq _ _) Hne). cbn.
  exists (parent n). split; [done|]. destruct (Z.eqb_spec (parent n) 0); [done|].
  split; [done|]. by destruct (st_parent _ Hok _ _ Hn).
Qed.

#[export] Program Instance static_file_tree : FileTree (world D) := {|
  obj := Z; tree_ok := static_tree; den := s_den; child := s_child; up := s_up
|}.
Next Obligation.
  intros w p o Hok [-> [n Hn]] ->. by rewrite (st_null _ Hok) in Hn.
Qed.
Next Obligation. intros w o _ [<- _]. unfold s_up. cbn. by rewrite Z.eqb_refl. Qed.
Next Obligation.
  intros w p o Hok Hd. destruct (s_open w p o Hok Hd) as (w' & E & Hs). exists w'. split; [done|by apply same_keeps].
Qed.
Next Obligation.
  intros w p o Hok Hd. destruct (s_close w p o Hok Hd) as (w' & E & Hs). exists w'. split; [done|by apply same_keeps].
Qed.
Next Obligation.
  intros w p o nm Hok Hd Hnm. destruct (s_find w p o nm Hok Hd Hnm) as (q & w' & E & Hs & Hq).
  exists q, w'. split_and!; [done|by apply same_keeps|done].
Qed.
Next Obligation. intros w p o Hok Hd Hne. by apply s_parent. Qed.
End objects.
End VfsNode.
