(* ===== verification/RootTree.v ===== *)
(** * The tree at start (kernel/kernel.cpp, include/fs/ramfs_vfs.h, fs/vfs.cpp)

    [init_file_system] makes an overlay over the directory of the disk the root
    and mounts the initial RAM disk in it.  The end-to-end property: every file
    of a packed image can be opened by its path under /initrd and read, through
    the overlay, the mount node and the file node.

    The working directory of the shell keeps no reference to its node; what that
    does to a directory of the disk is the second property. *)

From S2P Require Import Prelude Bytes LibcString Block Vfs Ramfs Fat FatFile FatDir VfsNode.

Module RootTree.
Import LibcString Block Vfs VfsNode.

Definition INITRD : list Z := [105; 110; 105; 116; 114; 100].

Section start.
Context {D : Type} `{!BlockDevice D, !Allocator D, !StoreLaws D}.
Implicit Types w : world D.

(** The end of [init_file_system]: the initial RAM disk at [ramdisk_vaddr], if there is one. *)
Definition mount_initrd (root_overlay ramdisk_vaddr : Z) w : outcome (world D) :=
  if ramdisk_vaddr =? 0 then Ok w else
  '(initrd_fs, w1) ← new_KeonFS_MountNode INITRD ramdisk_vaddr w;
  add_mount root_overlay INITRD initrd_fs w1.

(** ** New objects *)

Record heap_ok w (s : store) : Prop := {
  ho_holds : holds (io w) s;
  ho_live p : is_Some (nodes w !! p) → p ∈ live s
}.

(** [w'] has the objects of [w] and maybe more. *)
Record extends w w' : Prop := {
  ex_root : root w' = root w;
  ex_cwd : cwd w' = cwd w;
  ex_memory : memory w' = memory w;
  ex_fat : fat w' = fat w;
  ex_nodes : nodes w ⊆ nodes w'
}.

Lemma extends_world_trans w1 w2 w3 : extends w1 w2 → extends w2 w3 → extends w1 w3.
Proof.
  intros [] []. constructor; [congruence..|]. by etrans.
Qed.

Lemma new_node_spec w s n : heap_ok w s → 0 < sizeof (kind n) ≤ quota s →
  ∃ p w', new_node n w = Ok (p, w') ∧ p ≠ 0 ∧ nodes w !! p = None ∧ nodes w' = <[p := n]> (nodes w) ∧
    extends w w' ∧ heap_ok w' (add_buffer p s).
Proof.
  intros [Hh Hl] Hn. destruct (kmalloc_law (io w) s _ Hh Hn) as (p & d & E & Hp & Hf & Hh').
  assert (Hnone : nodes w !! p = None).
  { destruct (nodes w !! p) eqn:Ep; [|done]. destruct Hf. apply Hl. by eexists. }
  unfold new_node, on_io. rewrite E. run. rewrite (proj2 (Z.eqb_neq _ _) Hp).
  exists p. eexists. split; [reflexivity|]. split_and!; [done|done|done| |].
  - constructor; [done..|]. cbn. by apply insert_subseteq.
  - constructor; [done|]. cbn. intros q [m Hq]. destruct (decide (p = q)) as [<-|Hne]; [set_solver|].
    rewrite lookup_insert_ne in Hq by done. apply elem_of_union_r, Hl. by exists m.
Qed.

Definition file_node (f : Ramfs.KeonFS_File) : VFSNode :=
  node (Ramfs.f_name f) VFS_FILE (Ramfs.f_size f) (KeonFS_File (Ramfs.f_data_ptr f)).

Lemma new_files_spec fs : ∀ w s, heap_ok w s → 168 ≤ quota s →
  ∃ ps w' s', new_files fs w = Ok (ps, w') ∧ extends w w' ∧ heap_ok w' s' ∧ quota s' = quota s ∧
    Forall2 (λ p f, nodes w' !! p = Some (file_node f) ∧ p ≠ 0 ∧ nodes w !! p = None) ps fs.
Proof.
  induction fs as [|f fs IH]; intros w s Hh Hq; cbn [new_files].
  { exists [], w, s. split_and!; try done. }
  destruct (new_node_spec w s (file_node f) Hh) as (p & w1 & E & Hp & Hno & En & Hx & Hh1).
  { cbn. lia. }
  fold (file_node f). rewrite E. run.
  destruct (IH w1 _ Hh1 Hq) as (ps & w2 & s2 & -> & Hx2 & Hh2 & Hq2 & Hps). run.
  exists (p :: ps), w2, s2. split_and!; [done|by eapply extends_world_trans|done|done|].
  constructor.
  - split_and!; [|done|done]. eapply lookup_weaken; [|apply Hx2]. by rewrite En, lookup_insert_eq.
  - eapply Forall2_impl; [exact Hps|]. cbn. intros q g (H1 & H2 & H3). split_and!; [done|done|].
    eapply lookup_weaken_None; [exact H3|apply Hx].
Qed.
(** ** The RAM disk under the root *)

(** The root is an overlay whose only mount is a RAM disk with the files [fs]. *)
Definition initrd_at (fs : list Ramfs.KeonFS_File) w : Prop :=
  root w ≠ 0 ∧ ∃ b u p m ps,
    nodes w !! root w = Some b ∧ kind b = MountOverlayNode u [(INITRD, p)] ∧
    p ≠ root w ∧ p ≠ 0 ∧ nodes w !! p = Some m ∧ kind m = KeonFS_MountNode ps ∧
    Forall2 (λ q f, q ≠ 0 ∧ q ≠ root w ∧ nodes w !! q = Some (file_node f)) ps fs.

Lemma mount_initrd_spec w s b u addr fs total :
  heap_ok w s → 1208 ≤ quota s → root w ≠ 0 → addr ≠ 0 →
  nodes w !! root w = Some b → kind b = MountOverlayNode u [] →
  Ramfs.KeonFS_MountNode addr (memory w) = Ok (fs, total) →
  ∃ w', mount_initrd (root w) addr w = Ok w' ∧ initrd_at fs w' ∧ memory w' = memory w ∧
    root w' = root w ∧ cwd w' = cwd w ∧ fat w' = fat w ∧
    (∃ b' p, nodes w' !! root w = Some b' ∧ kind b' = MountOverlayNode u [(INITRD, p)]) ∧
    ∀ q n, q ≠ root w → nodes w !! q = Some n → nodes w' !! q = Some n.
Proof.
  intros Hh Hq Hr Ha Hb Eb Ek. unfold mount_initrd, new_KeonFS_MountNode.
  rewrite (proj2 (Z.eqb_neq _ _) Ha).
  destruct (new_node_spec w s (node INITRD VFS_DIRECTORY 0 (KeonFS_MountNode [])) Hh)
    as (p & w1 & -> & Hp & Hno & En & Hx & Hh1); [cbn; lia|]. run.
  rewrite (ex_memory _ _ Hx), Ek. run.
  destruct (new_files_spec fs w1 _ Hh1) as (ps & w2 & s2 & -> & Hx2 & _ & _ & Hps); [cbn; lia|]. run.
  assert (Hp2 : nodes w2 !! p = Some (node INITRD VFS_DIRECTORY 0 (KeonFS_MountNode []))).
  { eapply lookup_weaken; [|apply Hx2]. by rewrite En, lookup_insert_eq. }
  assert (Hb2 : nodes w2 !! root w = Some b).
  { eapply lookup_weaken; [|apply Hx2]. eapply lookup_weaken; [exact Hb|apply Hx]. }
  assert (Hpr : p ≠ root w) by (intros ->; by rewrite Hno in Hb).
  unfold update, add_mount, deref. rewrite Hp2. cbn. rewrite lookup_insert_ne, Hb2 by done. cbn.
  rewrite Eb. cbn. unfold update, deref. cbn.
  rewrite lookup_insert_ne, Hb2 by done. cbn.
  rewrite lookup_insert_ne, lookup_insert_eq by done. cbn.
  eexists. split; [reflexivity|]. pose proof (extends_world_trans _ _ _ Hx Hx2) as [X1 X2 X3 X4 X5].
  split.
  2:{ cbn. split_and!; [done..| |].
      - eexists _, p. by rewrite lookup_insert_ne, lookup_insert_eq by done.
      - intros q n Hqr Hqn. assert (q ≠ p) by congruence.
        rewrite !lookup_insert_ne by congruence. eapply lookup_weaken; [|exact X5]. exact Hqn. }
  unfold initrd_at. cbn. rewrite X1. split; [done|].
  eexists _, u, p, _, ps. rewrite lookup_insert_ne, lookup_insert_eq, lookup_insert_eq by done.
  split_and!; try done. eapply Forall2_impl; [exact Hps|]. cbn. intros q f (H1 & H2 & H3).
  assert (Hqr : q ≠ root w).
  { intros ->. rewrite (lookup_weaken _ _ _ _ Hb (ex_nodes _ _ Hx)) in H3. done. }
  assert (Hqp : q ≠ p) by (intros ->; by rewrite En, lookup_insert_eq in H3).
  split_and!; [done..|]. by rewrite !lookup_insert_ne by congruence.
Qed.
Lemma find_named_files w ps fs i nm q : Forall2 (λ q f, nodes w !! q = Some (file_node f)) ps fs →
  Forall (λ f, (length (Ramfs.f_name f) ≤ 127)%nat) fs →
  Ramfs.finddir nm fs = Some i → ps !! i = Some q → find_named nm ps w = Ok q.
Proof.
  intros H. revert i. induction H as [|p f ps fs Hp H IH]; intros i Hl Hi Hq; [done|].
  apply Forall_cons in Hl as [Hf Hl]. cbn [find_named]. unfold deref. rewrite Hp. cbn.
  rewrite take_ge by done. cbn [Ramfs.finddir] in Hi. destruct (str_diff (Ramfs.f_name f) nm =? 0).
  - injection Hi as <-. by injection Hq as ->.
  - destruct (Ramfs.finddir nm fs) as [j|]; [|done]. injection Hi as <-. by apply (IH j).
Qed.

(** The overlay answers its mount, whatever lies under it. *)
Lemma overlay_finds dp w r b u p : nodes w !! r = Some b → kind b = MountOverlayNode u [(INITRD, p)] →
  v_finddir dp r INITRD w = Ok (p, w).
Proof. intros Hb Ek. destruct dp; cbn [v_finddir]; unfold deref; rewrite Hb; cbn; by rewrite Ek. Qed.

Lemma mount_finds dp w p m ps nm q : nodes w !! p = Some m → kind m = KeonFS_MountNode ps →
  find_named nm ps w = Ok q → v_finddir dp p nm w = Ok (q, w).
Proof. intros Hm Ek E. destruct dp; cbn [v_finddir]; unfold KeonFS_MountNode_finddir; rewrite (deref_node _ _ _ Hm); run; rewrite Ek, E; done. Qed.

Lemma overlay_close w r b u ms : nodes w !! r = Some b → kind b = MountOverlayNode u ms →
  ∃ w', v_close r w = Ok w' ∧ memory w' = memory w ∧ ∀ q, q ≠ r → nodes w' !! q = nodes w !! q.
Proof.
  intros Hb Ek. unfold v_close, count_down, update, deref. rewrite Hb. cbn. rewrite Ek.
  destruct (0 <? ref_count b); [|by exists w]. eexists. split; [reflexivity|]. split; [done|].
  intros q Hq. cbn. by rewrite lookup_insert_ne.
Qed.

Definition initrd_path (nm : list Z) : list Z := SLASH :: INITRD ++ SLASH :: nm.

Lemma walk_component fuel current nm rest w : name_ok nm → nm ≠ DOT → nm ≠ DOTDOT →
  match rest with [] => True | d :: _ => d = SLASH end →
  walk (S fuel) current (nm ++ rest) w =
    ('(next, w1) ← node_finddir current nm w;
     w2 ← node_close current w1;
     if next =? 0 then Ok (0, w2) else walk fuel next (skip_slashes rest) w2).
Proof.
  intros (Hne & Hs & Hl) Hd Hdd Hr. destruct nm as [|c nm]; [done|]. cbn [walk].
  change (c :: (nm ++ rest)) with ((c :: nm) ++ rest). rewrite take_component_spec by done.
  destruct ((c :: nm) ++ rest) eqn:E; [done|].
  by rewrite (bool_decide_eq_false_2 _ Hd), (bool_decide_eq_false_2 _ Hdd).
Qed.

Lemma open_initrd_file w fs nm i f :
  initrd_at fs w → Forall (λ f, (length (Ramfs.f_name f) ≤ 127)%nat) fs →
  name_ok nm → nm ≠ DOT → nm ≠ DOTDOT → Ramfs.finddir nm fs = Some i → fs !! i = Some f →
  ∃ q w', vfs_open (Some (initrd_path nm)) w = Ok (q, w') ∧ q ≠ 0 ∧ memory w' = memory w ∧
    nodes w' !! q = Some (file_node f).
Proof.
  intros (Hr & b & u & p & m & ps & Hb & Ekb & Hpr & Hp & Hm & Ekm & Hps) Hl Hnm Hd Hdd Hi Hf.
  destruct (Forall2_lookup_r _ _ _ _ _ Hps Hf) as (q & Hq & Hq0 & Hqr & Hqf).
  assert (Eq : ∀ v : world D, (∀ x, x ≠ root w → nodes v !! x = nodes w !! x) → find_named nm ps v = Ok q).
  { intros v Hv. apply (find_named_files _ _ fs i); try done. eapply Forall2_impl; [exact Hps|]. cbn.
    intros x g (_ & H & Hx). by rewrite Hv. }
  unfold vfs_open, initrd_path. cbn [vfs_root world_nodes]. rewrite (proj2 (Z.eqb_neq _ _) Hr).
  cbn [Z.eqb SLASH].
  assert (Eo : node_open (root w) w = Ok (set_nodes (<[root w := set_ref (u32 (ref_count b + 1)) b]> (nodes w)) w)).
  { cbn [node_open world_nodes]. unfold v_open, count_up, update, deref. rewrite Hb. cbn. by rewrite Ekb. }
  set (b1 := set_ref _ b) in Eo. set (w1 := set_nodes _ w) in Eo.
  assert (Hb1 : nodes w1 !! root w = Some b1) by (cbn; by rewrite lookup_insert_eq).
  assert (Hn1 : ∀ q, q ≠ root w → nodes w1 !! q = nodes w !! q) by (intros x Hx; cbn; by rewrite lookup_insert_ne).
  cbn [Pos.eqb]. rewrite Eo. run.
  change (skip_slashes (SLASH :: INITRD ++ SLASH :: nm)) with (INITRD ++ SLASH :: nm).
  change (length (INITRD ++ SLASH :: nm)) with (S (S (5 + length nm))).
  rewrite walk_component by (done || (split_and!; [done|unfold INITRD, SLASH; set_solver|cbn; lia])).
  cbn [node_finddir world_nodes]. rewrite (overlay_finds _ _ _ b1 u p) by done. run.
  cbn [node_close world_nodes]. destruct (overlay_close w1 (root w) b1 u _ Hb1 Ekb) as (w2 & -> & Em2 & Hn2). run.
  rewrite (proj2 (Z.eqb_neq _ _) Hp). assert (Hm2 : nodes w2 !! p = Some m) by by rewrite Hn2, Hn1.
  assert (Es : skip_slashes (SLASH :: nm) = nm ++ []).
  { rewrite app_nil_r. destruct Hnm as (Hne & Hs & _). destruct nm as [|c nm']; [done|].
    apply not_elem_of_cons in Hs as [Hs _]. cbn. by rewrite (proj2 (Z.eqb_neq c SLASH)) by congruence. }
  rewrite Es, walk_component by done. cbn [node_finddir world_nodes].
  rewrite (mount_finds _ _ p m ps nm q) by (done || (apply Eq; intros x Hx; by rewrite Hn2, Hn1)). run.
  cbn [node_close world_nodes]. unfold v_close, deref. rewrite Hm2. cbn [of_option]. run. rewrite Ekm. run.
  rewrite (proj2 (Z.eqb_neq _ _) Hq0). exists q, w2. split_and!; [done|done|by rewrite Em2|by rewrite Hn2, Hn1].
Qed.
(** ** The working directory *)

Lemma open_fat_dir w p n c : nodes w !! p = Some n → kind n = FAT32_Directory c →
  v_open p w = Ok (set_nodes (<[p := set_ref (u32 (ref_count n + 1)) n]> (nodes w)) w).
Proof. intros Hn Ek. unfold v_open, count_up, update, deref. rewrite Hn. cbn. by rewrite Ek. Qed.

(** Looking up in a directory of the disk leaves the directory as it is. *)
Lemma find_fat_dir w s p n c l nm dp :
  heap_ok w s → nodes w !! p = Some n → kind n = FAT32_Directory c →
  Fat.geometry_ok (fat w) (disk s) → Fat.chain (fat w) (disk s) c l →
  Fat.cluster_size (fat w) ≤ quota s → 184 ≤ quota s →
  ∃ q w' s', v_finddir dp p nm w = Ok (q, w') ∧ heap_ok w' s' ∧ extends w w' ∧
    (∀ x, nodes w' !! x = None → nodes w !! x = None).
Proof.
  intros Hh Hn Ek Hg Hc Hq Hq2.
  destruct (FatDir.lookup_total (fat w) (disk s) l nm Hg (Fat.chain_all_valid _ _ _ _ Hc) FatDir.no_lfn FatDir.len_no_lfn) as [r Hr].
  destruct (FatDir.runs_finddir (fat w) s (FatDir.mk_directory (name n) c) l nm r Hg Hc Hq Hr (io w)) as (d & Ed & Hd).
  { apply Hh. }
  assert (Ef : v_finddir dp p nm w = match r with
    | None => Ok (0, mk_world (nodes w) (root w) (cwd w) (memory w) (fat w) d)
    | Some nd => new_node (set_parent p (of_fat_node nd)) (mk_world (nodes w) (root w) (cwd w) (memory w) (fat w) d)
    end).
  { destruct dp; cbn [v_finddir]; unfold FAT32_Directory_finddir, deref, on_io; rewrite Hn; cbn [of_option]; run; rewrite Ek; run; by rewrite Ed. }
  rewrite Ef. set (w1 := mk_world _ _ _ _ _ _).
  assert (Hh1 : heap_ok w1 s) by (constructor; [done|apply Hh]).
  destruct r as [nd|]; [|exists 0, w1, s; split_and!; [done|done|by constructor|done]].
  destruct (new_node_spec w1 s (set_parent p (of_fat_node nd)) Hh1) as (q & w2 & E2 & Hq0 & _ & En2 & Hx & Hh2).
  { destruct nd; cbn; lia. }
  exists q, w2, (add_buffer q s). split_and!; [done|done|destruct Hx; by constructor|].
  intros x. rewrite En2. intros [H _]%lookup_insert_None. done.
Qed.

(** Closing the last reference deletes the directory. *)
Lemma close_fat_dir w s p n c : heap_ok w s → nodes w !! p = Some n → kind n = FAT32_Directory c →
  ref_count n = 1 → p ≠ root w →
  ∃ w', v_close p w = Ok w' ∧ nodes w' !! p = None ∧ root w' = root w ∧ cwd w' = cwd w.
Proof.
  intros Hh Hn Ek Hr Hp. unfold v_close, FAT32_Directory_close, deref. rewrite Hn. cbn [of_option]. run. rewrite Ek, Hr.
  unfold update, deref. rewrite Hn. cbn [of_option]. run. rewrite (proj2 (Z.eqb_neq _ _) Hp).
  change (u32 (1 - 1) =? 0) with true. cbn [negb andb]. unfold delete_node, deref. cbn [nodes set_nodes].
  rewrite lookup_insert_eq. cbn [of_option]. run. unfold on_io. cbn [io set_nodes].
  destruct (kfree_law (io w) s p) as (d & -> & _); [apply Hh|apply Hh; by exists n|]. run.
  eexists. split; [reflexivity|]. cbn. by rewrite lookup_delete_eq.
Qed.

(** ** Properties *)

(** C14. The files of the RAM disk at work: when the kernel has mounted a packed image
    under its root overlay, opening /initrd/<name> gives for every file of the
    image a node from which [vfs_read] reads exactly the requested part of the
    file's contents, whatever file system lies under the root. *)
Theorem initrd_files_open w s b u addr files :
  heap_ok w s → 1208 ≤ quota s → root w ≠ 0 →
  nodes w !! root w = Some b → kind b = MountOverlayNode u [] →
  let total := snd (Ramfs.place (32 + Z.of_nat (length files) * 84) files) in
  LibcString.bytes (memory w) addr (Ramfs.pack files) → Forall Ramfs.file_ok files → NoDup (fst <$> files) →
  (length files ≤ 128)%nat → total < 2 ^ 32 → 0 < addr → addr + total < 2 ^ 64 →
  ∃ w1, mount_initrd (root w) addr w = Ok w1 ∧
    ∀ i nm d, files !! i = Some (nm, d) → name_ok nm → nm ≠ DOT → nm ≠ DOTDOT →
      ∃ q w2, vfs_open (Some (initrd_path nm)) w1 = Ok (q, w2) ∧ q ≠ 0 ∧
        ∀ offset size, 0 ≤ offset → 0 ≤ size → offset + size < 2 ^ 32 →
          vfs_read q offset size w2 = Ok (take (Z.to_nat size) (drop (Z.to_nat offset) d), w2).
Proof.
  intros Hh Hq Hr Hb Ek total Hi Hf Hnd Hlen Ht Ha Hat.
  destruct (Ramfs.packed_files (memory w) addr files Hi Hf Hnd Hlen Ht) as (fs & Em & El & Hfs); [lia..|].
  destruct (mount_initrd_spec w s b u addr fs total Hh Hq Hr) as (w1 & E1 & Hat1 & Emem & _); [lia|done..|].
  exists w1. split; [done|]. intros i nm d Hid Hnm Hd Hdd.
  destruct (Hfs i nm d Hid) as (Efi & f & Efs & En & Es & Hread).
  assert (Hl : Forall (λ f, (length (Ramfs.f_name f) ≤ 127)%nat) fs).
  { apply Forall_lookup. intros j g Hg. destruct (lookup_lt_is_Some_2 files j) as [[nm' d'] Hj].
    { rewrite <- El. by eapply lookup_lt_Some. }
    destruct (Hfs j nm' d' Hj) as (_ & g' & Eg & <- & _). rewrite Hg in Eg. injection Eg as <-.
    pose proof (proj1 (Forall_lookup _ _) Hf _ _ Hj) as [_ Hl']. cbn in Hl'. lia. }
  destruct (open_initrd_file w1 fs nm i f Hat1 Hl Hnm Hd Hdd Efi Efs) as (q & w2 & Eo & Hq0 & Em2 & Hqn).
  exists q, w2. split; [done|]. split; [done|]. intros offset size Ho Hs Hw.
  unfold vfs_read. rewrite (proj2 (Z.eqb_neq _ _) Hq0). cbn [node_read world_nodes].
  assert (Er : ∀ dp, v_read dp q offset size w2 = (bs ← Ramfs.read f offset size (memory w2); Ok (bs, w2))).
  { intros dp. destruct dp; cbn [v_read]; unfold deref; rewrite Hqn; by cbn. }
  rewrite Er, Em2, Emem, Hread by done. by run.
Qed.

(** The working directory of the shell does not own its node.  When it is a
    directory of the disk that nothing else holds open (as [vfs_open] returns it:
    count 0), opening any name relative to it deletes it on the way, and the
    next relative path is looked up in freed memory. *)
Theorem cwd_is_freed w s n c l nm :
  heap_ok w s → root w ≠ 0 → cwd w ≠ 0 → cwd w ≠ root w →
  nodes w !! cwd w = Some n → kind n = FAT32_Directory c → ref_count n = 0 →
  Fat.geometry_ok (fat w) (disk s) → Fat.chain (fat w) (disk s) c l →
  Fat.cluster_size (fat w) ≤ quota s → 184 ≤ quota s →
  name_ok nm → nm ≠ DOT → nm ≠ DOTDOT →
  ∃ q w', vfs_open (Some nm) w = Ok (q, w') ∧ cwd w' = cwd w ∧ nodes w' !! cwd w' = None ∧
    ∀ path, match path with x :: _ => x ≠ SLASH | [] => True end → vfs_open (Some path) w' = Fault.
Proof.
  intros Hh Hr Hc0 Hcr Hn Ek Hr0 Hg Hch Hq Hq2 Hnm Hd Hdd.
  assert (Hrel : ∀ path : list Z, match path with x :: _ => x ≠ SLASH | [] => True end →
    match path with x :: _ => x =? SLASH | [] => false end = false).
  { intros [|x path]; [done|]. apply Z.eqb_neq. }
  set (n1 := set_ref 1 n). set (w1 := set_nodes (<[cwd w := n1]> (nodes w)) w).
  assert (Hn1 : nodes w1 !! cwd w = Some n1) by (cbn; by rewrite lookup_insert_eq).
  assert (Hh1 : heap_ok w1 s).
  { constructor; [apply Hh|]. cbn. intros p. rewrite lookup_insert_is_Some. intros [<-|[_ H]]; [|by apply Hh].
    apply Hh. by exists n. }
  destruct (find_fat_dir w1 s (cwd w) n1 c l nm (depth w1) Hh1 Hn1 Ek Hg Hch Hq Hq2)
    as (q & w2 & s2 & Ef & Hh2 & Hx & Hno).
  pose proof (lookup_weaken _ _ _ _ Hn1 (ex_nodes _ _ Hx)) as Hn2.
  destruct (close_fat_dir w2 s2 (cwd w) n1 c Hh2 Hn2 Ek eq_refl) as (w3 & Ec & Hdel & Hr3 & Hc3).
  { by rewrite (ex_root _ _ Hx). }
  assert (Eo : vfs_open (Some nm) w = Ok (q, w3)).
  { unfold vfs_open. cbn [vfs_root cwd_node world_nodes]. rewrite (proj2 (Z.eqb_neq _ _) Hr), Hrel.
    - rewrite (proj2 (Z.eqb_neq _ _) Hc0). cbn [node_open world_nodes]. rewrite (open_fat_dir _ _ n c Hn Ek), Hr0.
      change (u32 (0 + 1)) with 1. fold n1 w1. run. rewrite <- (app_nil_r nm) at 2.
      destruct nm as [|x nm'] eqn:Enm; [by destruct Hnm|]. rewrite <- Enm in *. rewrite Enm at 1. cbn [length].
      rewrite walk_component by done. cbn [node_finddir node_close world_nodes]. rewrite Ef. run. rewrite Ec. run.
      destruct (Z.eqb_spec q 0) as [->|_]; [done|]. cbn [skip_slashes]. by destruct (length nm').
    - destruct Hnm as (Hne & Hs & _). destruct nm as [|x nm']; [done|]. apply not_elem_of_cons in Hs as [Hs _]. congruence. }
  exists q, w3. rewrite Hc3, (ex_cwd _ _ Hx). split_and!; [done|done|done|]. intros path Hp.
  unfold vfs_open. cbn [vfs_root cwd_node world_nodes]. rewrite (Hrel _ Hp), Hr3, (ex_root _ _ Hx), Hc3, (ex_cwd _ _ Hx).
  cbn [root cwd w1 set_nodes]. rewrite (proj2 (Z.eqb_neq _ _) Hr), (proj2 (Z.eqb_neq _ _) Hc0).
  cbn [node_open world_nodes]. unfold v_open, deref. by rewrite Hdel.
Qed.
End start.
(** ** Witnesses *)

Import Block.Pure.

Lemma short_name_ok nm : bool_decide (nm ≠ [] ∧ (SLASH ∉ nm) ∧ (length nm ≤ 127)%nat) = true → name_ok nm.
Proof. apply bool_decide_eq_true_1. Qed.

(** A fall-back root with a RAM disk of one file. *)
Definition demo_world : world store :=
  mk_world {[ 1000 := mk_node [SLASH] VFS_DIRECTORY 0 0 1 1000 (RootFS [2000]);
              2000 := mk_node INITRD VFS_DIRECTORY 206 0 0 1000 (KeonFS_MountNode [3000]);
              3000 := mk_node [97] VFS_FILE 3 0 0 0 (KeonFS_File 0x1000) ]}
    1000 0 (mem_of 0x1000 [1; 2; 3]) Fat.demo_fat Fat.demo_store.

Lemma demo_world_static : static_tree demo_world.
Proof.
  constructor; [by eexists|done| |].
  - intros p n H. cbn in H.
    apply lookup_insert_Some in H as [[<- <-]|[_ H]]; [exists [2000]; split; [done|]; intros q ->%list_elem_of_singleton; by eexists|].
    apply lookup_insert_Some in H as [[<- <-]|[_ H]]; [exists [3000]; split; [done|]; intros q ->%list_elem_of_singleton; by eexists|].
    apply lookup_singleton_Some in H as [<- <-]. exists []. split; [done|]. intros q []%not_elem_of_nil.
  - intros p n H. cbn in H.
    apply lookup_insert_Some in H as [[<- <-]|[_ H]]; [right; by eexists|].
    apply lookup_insert_Some in H as [[<- <-]|[_ H]]; [right; by eexists|].
    apply lookup_singleton_Some in H as [<- <-]. by left.
Qed.

Lemma vfs_open_resolves_witness :
  ∃ w', vfs_open (Some (initrd_path [97])) demo_world = Ok (3000, w') ∧ keeps demo_world w'.
Proof.
  destruct (@vfs_open_resolves _ world_nodes static_file_tree demo_world (initrd_path [97]) 1000) as (q & w' & E & Hk & H).
  - exact demo_world_static.
  - done.
  - split; [reflexivity|by eexists].
  - change (components (initrd_path [97])) with [INITRD; [97]]. repeat constructor; cbn; lia.
  - assert (Er : resolve (FileTree0 := static_file_tree) demo_world 1000 (components (initrd_path [97])) = Some 3000) by (vm_compute; reflexivity).
    rewrite Er in H. destruct H as [-> _]. exists w'. by split.
Defined.

Lemma vfs_operations_on_parent_witness :
  ∃ w1, vfs_mkdir (Some (initrd_path [98])) 0 demo_world = Ok (-1, w1).
Proof.
  destruct (@vfs_operations_on_parent _ world_nodes static_file_tree demo_world (SLASH :: INITRD) [98] 0 1000) as [H _].
  - exact demo_world_static.
  - done.
  - split; [reflexivity|by eexists].
  - change (components (SLASH :: INITRD)) with [INITRD]. repeat constructor; cbn; lia.
  - set_solver.
  - cbn. lia.
  - destruct H as (q & w1 & Hk & H); [cbn; lia|].
    assert (Er : resolve (FileTree0 := static_file_tree) demo_world 1000 (components (SLASH :: INITRD)) = Some 2000) by (vm_compute; reflexivity).
    rewrite Er in H. destruct H as ([-> [m Hm]] & _ & H & _).
    vm_compute. eexists. reflexivity.
Defined.

Definition overlay : VFSNode := mk_node [SLASH] VFS_DIRECTORY 0 0 0 0 (MountOverlayNode 11 []).
Definition image_world : world store :=
  mk_world {[ 10 := overlay ]} 10 0 (mem_of 0x1000 (Ramfs.pack Ramfs.demo_files)) Fat.demo_fat
    (mk_store Fat.demo_disk {[ 10 ]} 4096).

Lemma initrd_files_open_witness :
  ∃ w1 q w2, mount_initrd 10 0x1000 image_world = Ok w1 ∧
    vfs_open (Some (initrd_path [98; 99])) w1 = Ok (q, w2) ∧ vfs_read q 0 10 w2 = Ok ([4; 5], w2).
Proof.
  destruct (initrd_files_open image_world (mk_store Fat.demo_disk {[ 10 ]} 4096) overlay 11 0x1000 Ramfs.demo_files)
    as (w1 & E1 & H).
  - constructor; [reflexivity|]. cbn. intros p [n [<- _]%lookup_singleton_Some]. set_solver.
  - cbn. lia.
  - done.
  - reflexivity.
  - reflexivity.
  - apply bytes_mem_of.
  - repeat constructor; lia.
  - repeat constructor; set_solver.
  - cbn. lia.
  - vm_compute. reflexivity.
  - lia.
  - vm_compute. reflexivity.
  - destruct (H 1%nat [98; 99] [4; 5]) as (q & w2 & Eo & _ & Hr); [reflexivity| |done|done|].
    { by apply short_name_ok. }
    exists w1, q, w2. split; [exact E1|]. split; [exact Eo|]. by apply (Hr 0 10).
Defined.

Definition cwd_world : world store :=
  mk_world {[ 10 := overlay; 20 := mk_node [100] VFS_DIRECTORY 0 0 0 10 (FAT32_Directory 2) ]} 10 20 ∅ Fat.demo_fat
    (mk_store Fat.demo_disk {[ 10; 20 ]} 4096).

Lemma cwd_is_freed_witness :
  ∃ q w', vfs_open (Some [97]) cwd_world = Ok (q, w') ∧ vfs_open (Some [97]) w' = Fault.
Proof.
  destruct (cwd_is_freed cwd_world (mk_store Fat.demo_disk {[ 10; 20 ]} 4096)
    (mk_node [100] VFS_DIRECTORY 0 0 0 10 (FAT32_Directory 2)) 2 [2] [97]) as (q & w' & E & _ & _ & H).
  - constructor; [reflexivity|]. cbn. intros p [n Hp].
    apply lookup_insert_Some in Hp as [[<- _]|[_ [<- _]%lookup_singleton_Some]]; set_solver.
  - done.
  - done.
  - done.
  - reflexivity.
  - reflexivity.
  - reflexivity.
  - exact Fat.demo_geometry.
  - exact FatDir.demo_dir_chain.
  - vm_compute. congruence.
  - vm_compute. congruence.
  - by apply short_name_ok.
  - done.
  - done.
  - exists q, w'. split; [exact E|]. by apply H.
Defined.
End RootTree.
