(* ===== verification/Ata.v ===== *)
(** * The ATA driver (drivers/ata.cpp)

    The driver talks to the disk through I/O ports, by polling.  [PortIO] is the
    port instructions; [AtaLaws] is what a disk promises on its ports: the task
    file registers, the read and write commands, a data register that moves two
    bytes at a time, and a status register that shows the disk busy for some
    polls after a command and after a sector.

    The driver implements [BlockDevice]: against the laws of the disk it
    satisfies the laws of [StoreLaws], so that the file systems run over it. *)

From S2P Require Import Prelude Bytes Block.

Module Ata.
Import Bytes Block.

(** ** Ports *)

Class PortIO (W : Type) := {
  inb : Z → kernel W Z;
  outb : Z → Z → kernel W unit;
  inw : Z → kernel W Z;
  outw : Z → Z → kernel W unit
}.

Definition ATA_PRIMARY_COMM_STAT : Z := 0x1F7.

Section driver.
Context {W : Type} `{!PortIO W}.

(** The loops poll without a limit; [patience] is the number of polls. *)
Fixpoint wait_bsy (patience : nat) : kernel W unit :=
  match patience with
  | O => λ _, OutOfFuel
  | S n => v ← inb ATA_PRIMARY_COMM_STAT; if Z.land v 0x80 =? 0 then mret () else wait_bsy n
  end.
Fixpoint wait_drq (patience : nat) : kernel W unit :=
  match patience with
  | O => λ _, OutOfFuel
  | S n => v ← inb ATA_PRIMARY_COMM_STAT; if Z.land v 0x08 =? 0 then wait_drq n else mret ()
  end.

(** Selecting the drive, the count and the address, and the command. *)
Definition issue (patience : nat) (lba count command : Z) : kernel W unit :=
  wait_bsy patience;;
  outb 0x1F6 (Z.lor 0xE0 (Z.land (Z.shiftr lba 24) 0x0F));;
  outb 0x1F2 count;;
  outb 0x1F3 (u8 lba);;
  outb 0x1F4 (u8 (Z.shiftr lba 8));;
  outb 0x1F5 (u8 (Z.shiftr lba 16));;
  outb 0x1F7 command.

(** [n] words of the data register, stored one after the other. *)
Fixpoint read_words (n : nat) : kernel W (list Z) :=
  match n with
  | O => mret []
  | S n' => v ← inw 0x1F0; rest ← read_words n'; mret (le 2 v ++ rest)
  end.

Fixpoint read_loop (patience n : nat) : kernel W (list Z) :=
  match n with
  | O => mret []
  | S n' =>
      wait_bsy patience;;
      wait_drq patience;;
      bs ← read_words 256;
      rest ← read_loop patience n';
      mret (bs ++ rest)
  end.

Definition ata_read_sectors (patience : nat) (lba count : Z) : kernel W (list Z) :=
  issue patience lba count 0x20;; read_loop patience (Z.to_nat count).

(** The words of the buffer; reading past its end is undefined. *)
Fixpoint write_words (n : nat) (buffer : list Z) : kernel W (list Z) :=
  match n with
  | O => mret buffer
  | S n' =>
      match buffer with
      | b0 :: b1 :: rest => outw 0x1F0 (of_le [b0; b1]);; write_words n' rest
      | _ => λ _, Fault
      end
  end.

Fixpoint write_loop (patience n : nat) (buffer : list Z) : kernel W unit :=
  match n with
  | O => mret ()
  | S n' =>
      wait_bsy patience;;
      wait_drq patience;;
      rest ← write_words 256 buffer;
      write_loop patience n' rest
  end.

Definition ata_write_sectors (patience : nat) (lba count : Z) (buffer : list Z) : kernel W unit :=
  issue patience lba count 0x30;; write_loop patience (Z.to_nat count) buffer.
End driver.

(** ** The disk *)

(** Idle, or moving data: the byte address reached and the words left. *)
Inductive phase : Set :=
| Idle
| DataIn (addr : Z) (words : nat)
| DataOut (addr : Z) (words : nat).

Record ata_state : Type := mk_ata {
  drive_head : Z; sector_count : Z; lba_low : Z; lba_mid : Z; lba_high : Z;
  ph : phase; busy : nat; contents : list Z
}.

Definition set_phase (p : phase) (b : nat) (s : ata_state) : ata_state :=
  mk_ata (drive_head s) (sector_count s) (lba_low s) (lba_mid s) (lba_high s) p b (contents s).
Definition set_contents (d : list Z) (s : ata_state) : ata_state :=
  mk_ata (drive_head s) (sector_count s) (lba_low s) (lba_mid s) (lba_high s) (ph s) (busy s) d.

Definition set_register (port v : Z) (s : ata_state) : option ata_state :=
  let '(mk_ata r6 r2 r3 r4 r5 p b d) := s in
  if port =? 0x1F2 then Some (mk_ata r6 v r3 r4 r5 p b d)
  else if port =? 0x1F3 then Some (mk_ata r6 r2 v r4 r5 p b d)
  else if port =? 0x1F4 then Some (mk_ata r6 r2 r3 v r5 p b d)
  else if port =? 0x1F5 then Some (mk_ata r6 r2 r3 r4 v p b d)
  else if port =? 0x1F6 then Some (mk_ata v r2 r3 r4 r5 p b d)
  else None.

(** The 28-bit address, and how many sectors the count stands for. *)
Definition address (s : ata_state) : Z :=
  lba_low s + 2 ^ 8 * lba_mid s + 2 ^ 16 * lba_high s + 2 ^ 24 * (drive_head s mod 16).
Definition sectors (s : ata_state) : nat :=
  if sector_count s =? 0 then 256 else Z.to_nat (sector_count s).

Definition started (command : Z) (s : ata_state) : phase :=
  if command =? 0x20 then DataIn (SECTOR * address s) (256 * sectors s)
  else DataOut (SECTOR * address s) (256 * sectors s).

(** After a word, at [addr] and with [n] words left. *)
Definition next_phase (inp : bool) (addr : Z) (n : nat) : phase :=
  match n with O => Idle | _ => if inp then DataIn addr n else DataOut addr n end.

Class AtaLaws (W : Type) `{!PortIO W} := {
  patience : nat;
  ata : W → ata_state → Prop;
  poll_law w s : ata w s → ∃ v w', inb ATA_PRIMARY_COMM_STAT w = Ok (v, w') ∧
    ata w' (set_phase (ph s) (Nat.pred (busy s)) s) ∧
    (Z.land v 0x80 =? 0) = (busy s =? 0)%nat ∧
    (busy s = O → (Z.land v 0x08 =? 0) = match ph s with Idle => true | _ => false end);
  register_law w s port v s' : ata w s → ph s = Idle → busy s = O → set_register port v s = Some s' →
    ∃ w', outb port v w = Ok ((), w') ∧ ata w' s';
  command_law w s command : ata w s → ph s = Idle → busy s = O → command = 0x20 ∨ command = 0x30 →
    SECTOR * (address s + Z.of_nat (sectors s)) ≤ len (contents s) →
    ∃ w' b, outb 0x1F7 command w = Ok ((), w') ∧ ata w' (set_phase (started command s) b s);
  inw_law w s addr n : ata w s → ph s = DataIn addr (S n) → busy s = O →
    ∃ w' b, inw 0x1F0 w = Ok (of_le (sub addr 2 (contents s)), w') ∧
      ((n mod 256)%nat ≠ O → b = O) ∧ ata w' (set_phase (next_phase true (addr + 2) n) b s);
  outw_law w s addr n v : ata w s → ph s = DataOut addr (S n) → busy s = O → 0 ≤ v < 2 ^ 16 →
    ∃ w' b, outw 0x1F0 v w = Ok ((), w') ∧
      ((n mod 256)%nat ≠ O → b = O) ∧
      ata w' (set_contents (splice addr (le 2 v) (contents s)) (set_phase (next_phase false (addr + 2) n) b s));
  busy_law w s : ata w s → (busy s < patience)%nat;
  contents_bytes w s : ata w s → Forall byte (contents s)
}.
(** ** The driver on the disk *)

Section correct.
Context {W : Type} `{!PortIO W} `{!AtaLaws W}.
Implicit Types s : ata_state.

(** Total correctness, for some of the disk's delays. *)
Definition does {A} (m : kernel W A) s (Q : A → ata_state → Prop) : Prop :=
  ∀ w, ata w s → ∃ a w' s', m w = Ok (a, w') ∧ ata w' s' ∧ Q a s'.

Lemma does_ret {A} (a : A) s Q : Q a s → does (mret a) s Q.
Proof. intros H w Hw. by exists a, w, s. Qed.

Lemma does_bind {A B} (m : kernel W A) (k : A → kernel W B) s P Q :
  does m s P → (∀ a s1, P a s1 → does (k a) s1 Q) → does (m ≫= k) s Q.
Proof.
  intros Hm Hk w Hw. destruct (Hm w Hw) as (a & w1 & s1 & E1 & H1 & Ha).
  destruct (Hk a s1 Ha w1 H1) as (b & w2 & s2 & E2 & H2 & Hb). exists b, w2, s2. split_and!; [|done|done].
  unfold mbind, kernel_bind. rewrite E1. by run.
Qed.

Lemma does_wait_bsy n s : (busy s < n)%nat → does (wait_bsy n) s (λ _ s', s' = set_phase (ph s) 0 s).
Proof.
  revert s. induction n as [|n IH]; intros s Hn w Hw; [lia|]. cbn [wait_bsy].
  destruct (poll_law w s Hw) as (v & w1 & E & Hw1 & Hb & _). unfold mbind, kernel_bind. rewrite E. run. rewrite Hb.
  destruct (Nat.eqb_spec (busy s) 0) as [E0|Hne].
  - rewrite E0 in Hw1. by exists (), w1, (set_phase (ph s) 0 s).
  - apply (IH (set_phase (ph s) (Nat.pred (busy s)) s)); [cbn; lia|done].
Qed.

Lemma does_wait_drq n s : (0 < n)%nat → busy s = O → ph s ≠ Idle → does (wait_drq n) s (λ _ s', s' = set_phase (ph s) 0 s).
Proof.
  intros Hn Hb Hp w Hw. destruct n as [|n]; [lia|]. cbn [wait_drq].
  destruct (poll_law w s Hw) as (v & w1 & E & Hw1 & _ & Hd). unfold mbind, kernel_bind. rewrite E. run.
  rewrite (Hd Hb). rewrite Hb in Hw1. assert (E2 : match ph s with Idle => true | _ => false end = false) by by destruct (ph s).
  rewrite E2. by exists (), w1, (set_phase (ph s) 0 s).
Qed.

Lemma does_patience {A} (m : kernel W A) s Q : ((busy s < patience)%nat → does m s Q) → does m s Q.
Proof. intros H w Hw. apply H; [|done]. by apply (busy_law w). Qed.

(** Waiting until the disk can move the next sector. *)
Lemma does_ready {A} (k : kernel W A) s Q : ph s ≠ Idle →
  does k (set_phase (ph s) 0 s) Q →
  does (wait_bsy patience;; wait_drq patience;; k) s Q.
Proof.
  intros Hp Hk. apply does_patience. intros Hb. eapply does_bind; [by apply does_wait_bsy|].
  intros _ s1 ->. eapply does_bind; [apply does_wait_drq; [lia|done..]|]. by intros _ s2 ->.
Qed.

Lemma does_register {A} port v s s' (k : unit → kernel W A) Q :
  ph s = Idle → busy s = O → set_register port v s = Some s' → does (k ()) s' Q → does (outb port v ≫= k) s Q.
Proof.
  intros Hp Hb Hs Hk. eapply does_bind with (P := λ _ s1, s1 = s'); [|by intros [] s1 ->].
  intros w Hw. destruct (register_law w s port v s' Hw Hp Hb Hs) as (w' & E & Hw'). by exists (), w', s'.
Qed.

Lemma lor_drive x : Z.lor 0xE0 x mod 16 = x mod 2 ^ 4.
Proof.
  change 16 with (2 ^ 4).  rewrite <- !Z.land_ones by lia. rewrite Z.land_lor_distr_l. by change (Z.land 0xE0 (Z.ones 4)) with 0.
Qed.

(** The six registers hold the low 28 bits of the address. *)
Lemma address_parts lba : 0 ≤ lba →
  u8 lba + 2 ^ 8 * u8 (Z.shiftr lba 8) + 2 ^ 16 * u8 (Z.shiftr lba 16) +
    2 ^ 24 * (Z.lor 0xE0 (Z.land (Z.shiftr lba 24) 0x0F) mod 16) = lba mod 2 ^ 28.
Proof.
  intros H. rewrite !Z.shiftr_div_pow2 by lia. change 0x0F with (Z.ones 4). rewrite Z.land_ones by lia.
  rewrite lor_drive, Z.mod_mod by lia.
  unfold wrap. change (2 ^ 28) with (2 ^ 8 * (2 ^ 8 * (2 ^ 8 * 2 ^ 4))).
  rewrite !Z.rem_mul_r, !Z.div_div by lia. change (2 ^ 8 * 2 ^ 8) with (2 ^ 16). change (2 ^ 16 * 2 ^ 8) with (2 ^ 24). lia.
Qed.

Lemma does_issue s lba count command : ph s = Idle → 0 ≤ lba → 0 ≤ count → command = 0x20 ∨ command = 0x30 →
  let n := if count =? 0 then 256%nat else Z.to_nat count in
  SECTOR * (lba mod 2 ^ 28 + Z.of_nat n) ≤ len (contents s) →
  does (issue patience lba count command) s (λ _ s', contents s' = contents s ∧
    ph s' = if command =? 0x20 then DataIn (SECTOR * (lba mod 2 ^ 28)) (256 * n)
            else DataOut (SECTOR * (lba mod 2 ^ 28)) (256 * n)).
Proof.
  intros Hp Hl Hc Hcmd n Hd. apply does_patience. intros Hb. unfold issue.
  eapply does_bind; [by apply does_wait_bsy|]. intros _ s1 ->. destruct s as [r6 r2 r3 r4 r5 p b d].
  cbn in Hp, Hd. subst p. unfold set_phase. cbn [drive_head sector_count lba_low lba_mid lba_high ph contents].
  do 5 (eapply does_register; [reflexivity|reflexivity|reflexivity|]).
  intros w Hw. destruct (command_law w _ command Hw) as (w' & b' & E & Hw'); [done|done|done| |].
  - unfold address, sectors. cbn [drive_head sector_count lba_low lba_mid lba_high contents].
    by rewrite address_parts.
  - eexists (), w', _. split_and!; [exact E|exact Hw'|done|]. cbn [ph set_phase]. unfold started, address, sectors.
    cbn [drive_head sector_count lba_low lba_mid lba_high]. by rewrite address_parts.
Qed.
Lemma does_mono {A} (m : kernel W A) s (P Q : A → ata_state → Prop) :
  does m s P → (∀ a s', P a s' → Q a s') → does m s Q.
Proof. intros Hm H w Hw. destruct (Hm w Hw) as (a & w' & s' & E & Hw' & Ha). exists a, w', s'. auto. Qed.

Lemma does_bytes {A} (m : kernel W A) s Q : (Forall byte (contents s) → does m s Q) → does m s Q.
Proof. intros H w Hw. apply H; [|done]. by apply (contents_bytes w). Qed.

(** *** Reading *)

Lemma next_phase_S inp addr n : next_phase inp addr (S n) = if inp then DataIn addr (S n) else DataOut addr (S n).
Proof. done. Qed.

(** The words of a sector with [k] more sectors to come. *)
Lemma does_read_words n : ∀ s addr k, (n ≤ 256)%nat → ph s = next_phase true addr (n + 256 * k) →
  (n ≠ O → busy s = O) → 0 ≤ addr → addr + 2 * Z.of_nat n ≤ len (contents s) →
  does (read_words n) s (λ bs s', bs = sub addr (2 * Z.of_nat n) (contents s) ∧ contents s' = contents s ∧
    ph s' = next_phase true (addr + 2 * Z.of_nat n) (256 * k)).
Proof.
  induction n as [|n IH]; intros s addr k Hn Hp Hb Ha Hl; cbn [read_words].
  { apply does_ret. rewrite sub_0. split_and!; [done|done|]. by rewrite Hp, Z.add_0_r. }
  apply does_bytes. intros Hbs. rewrite Nat.add_succ_l, next_phase_S in Hp. eapply does_bind
    with (P := λ v s1, v = of_le (sub addr 2 (contents s)) ∧ contents s1 = contents s ∧
      ph s1 = next_phase true (addr + 2) (n + 256 * k) ∧ (n ≠ O → busy s1 = O)).
  - intros w Hw. destruct (inw_law w s addr _ Hw Hp) as (w' & b & E & Hb' & Hw'); [by apply Hb|].
    eexists _, w', _. split_and!; [exact E|exact Hw'|done|done|done|]. cbn. intros Hn0. apply Hb'.
    rewrite Nat.mul_comm, Nat.Div0.mod_add, Nat.mod_small by lia. done.
  - intros v s1 (-> & Ec & Ep & Eb). eapply does_bind.
    { apply (IH s1 (addr + 2) k); [lia|done|done|lia|rewrite Ec; lia]. }
    intros rest s2 (-> & Ec2 & Ep2). apply does_ret. split_and!; [|by rewrite Ec2|].
    + replace 2%nat with (length (sub addr 2 (contents s))).
      * rewrite le_of_le by by apply Forall_sub. rewrite Ec, sub_app by lia. f_equal. lia.
      * pose proof (len_sub addr 2 (contents s)). unfold len in *. lia.
    + rewrite Ep2. f_equal. lia.
Qed.

Lemma does_read_loop n : ∀ s addr, ph s = next_phase true addr (256 * n) →
  0 ≤ addr → addr + SECTOR * Z.of_nat n ≤ len (contents s) →
  does (read_loop patience n) s (λ bs s', bs = sub addr (SECTOR * Z.of_nat n) (contents s) ∧
    contents s' = contents s ∧ ph s' = Idle).
Proof.
  unfold SECTOR. induction n as [|n IH]; intros s addr Hp Ha Hl; cbn [read_loop].
  { apply does_ret. rewrite sub_0. by split_and!. }
  replace (256 * S n)%nat with (256 + 256 * n)%nat in Hp by lia.
  apply does_ready; [by rewrite Hp|]. eapply does_bind.
  { apply (does_read_words 256 _ addr n); [lia|exact Hp|done|done|cbn; lia]. }
  intros bs s1 (-> & Ec & Ep). eapply does_bind.
  { apply (IH s1 (addr + 512)); [exact Ep|lia|rewrite Ec; cbn; lia]. }
  intros rest s2 (-> & Ec2 & Ep2). apply does_ret. rewrite Ec2, Ec. split_and!; [|done|done].
  cbn [contents set_phase]. rewrite sub_app by lia. f_equal. lia.
Qed.

(** *** Writing *)

Lemma set_contents_len addr bs s : 0 ≤ addr → addr + len bs ≤ len (contents s) →
  len (splice addr bs (contents s)) = len (contents s).
Proof. apply len_splice. Qed.

Lemma does_write_words n : ∀ s addr k buffer rest, (n ≤ 256)%nat → ph s = next_phase false addr (n + 256 * k) →
  (n ≠ O → busy s = O) → 0 ≤ addr → addr + 2 * Z.of_nat n ≤ len (contents s) →
  len buffer = 2 * Z.of_nat n → Forall byte buffer →
  does (write_words n (buffer ++ rest)) s (λ r s', r = rest ∧ contents s' = splice addr buffer (contents s) ∧
    ph s' = next_phase false (addr + 2 * Z.of_nat n) (256 * k)).
Proof.
  induction n as [|n IH]; intros s addr k buffer rest Hn Hp Hb Ha Hl Hbuf Hby; cbn [write_words].
  { destruct buffer; [|done]. apply does_ret. rewrite splice_nil. split_and!; [done|done|]. by rewrite Hp, Z.add_0_r. }
  destruct buffer as [|b0 [|b1 buffer]]; [done|unfold len in Hbuf; cbn in Hbuf; lia|]. cbn [app].
  apply Forall_cons in Hby as [Hb0 Hby]. apply Forall_cons in Hby as [Hb1 Hby]. cbv beta in Hb0, Hb1.
  rewrite Nat.add_succ_l, next_phase_S in Hp.
  assert (El : le 2 (of_le [b0; b1]) = [b0; b1]) by (apply (le_of_le [b0; b1]); repeat constructor; lia).
  eapply does_bind with (P := λ _ s1, contents s1 = splice addr [b0; b1] (contents s) ∧
      ph s1 = next_phase false (addr + 2) (n + 256 * k) ∧ (n ≠ O → busy s1 = O)).
  - intros w Hw. destruct (outw_law w s addr _ (of_le [b0; b1]) Hw Hp) as (w' & b & E & Hb' & Hw').
    { by apply Hb. }
    { cbn. lia. }
    eexists (), w', _. split_and!; [exact E|exact Hw'|cbn [contents set_contents]; by rewrite El|done|].
    cbn. intros Hn0. apply Hb'. rewrite Nat.mul_comm, Nat.Div0.mod_add, Nat.mod_small by lia. done.
  - intros _ s1 (Ec & Ep & Eb). change (b0 :: b1 :: buffer) with ([b0; b1] ++ buffer) in *. rewrite len_app in Hbuf.
    change (len [b0; b1]) with 2 in Hbuf.
    eapply does_mono; [apply (IH s1 (addr + 2) k buffer rest)|]; try done; try lia.
    + rewrite Ec, len_splice; [lia|done|]. change (len [b0; b1]) with 2. lia.
    + intros r s2 (-> & Ec2 & Ep2). split_and!; [done| |rewrite Ep2; f_equal; lia].
      rewrite Ec2, Ec. change (addr + 2) with (addr + len [b0; b1]). apply splice_adjacent; [done|].
      change (len [b0; b1]) with 2. lia.
Qed.

Lemma does_write_loop n : ∀ s addr buffer, ph s = next_phase false addr (256 * n) →
  0 ≤ addr → addr + SECTOR * Z.of_nat n ≤ len (contents s) →
  len buffer = SECTOR * Z.of_nat n → Forall byte buffer →
  does (write_loop patience n buffer) s (λ _ s', contents s' = splice addr buffer (contents s) ∧ ph s' = Idle).
Proof.
  unfold SECTOR. induction n as [|n IH]; intros s addr buffer Hp Ha Hl Hbuf Hby; cbn [write_loop].
  { destruct buffer; [|done]. apply does_ret. rewrite splice_nil. by split. }
  replace (256 * S n)%nat with (256 + 256 * n)%nat in Hp by lia.
  apply does_ready; [by rewrite Hp|].
  rewrite <- (take_drop 512 buffer) in *. set (b1 := take 512 buffer) in *. set (b2 := drop 512 buffer) in *.
  rewrite len_app in Hbuf. apply Forall_app in Hby as [Hby1 Hby2].
  assert (E1 : len b1 = 512) by (unfold b1, b2, len in *; rewrite length_take, length_drop in *; lia).
  eapply does_bind.
  { apply (does_write_words 256 _ addr n b1 b2); [lia|exact Hp|done|done|cbn; lia|rewrite E1; lia|done]. }
  intros rest s1 (-> & Ec & Ep). cbn [contents set_phase] in Ec. eapply does_mono.
  { apply (IH s1 (addr + 512) b2); [exact Ep|lia|rewrite Ec, len_splice by lia; lia|lia|done]. }
  intros _ s2 (Ec2 & Ep2). split; [|done]. rewrite Ec2, Ec, <- E1. apply splice_adjacent; lia.
Qed.
End correct.
(** ** Whole transfers *)

Section transfers.
Context {W : Type} `{!PortIO W} `{!AtaLaws W}.

Lemma ata_read_ok st lba n : ph st = Idle → 0 ≤ lba → 1 ≤ n ≤ 255 →
  SECTOR * (lba mod 2 ^ 28 + n) ≤ len (contents st) →
  does (ata_read_sectors patience lba n) st (λ bs st',
    bs = sub (SECTOR * (lba mod 2 ^ 28)) (SECTOR * n) (contents st) ∧ contents st' = contents st ∧ ph st' = Idle).
Proof.
  intros Hp Hl Hn Hd. pose proof (Z.mod_pos_bound lba (2 ^ 28)). unfold ata_read_sectors.
  assert (E0 : (if n =? 0 then 256%nat else Z.to_nat n) = Z.to_nat n) by by rewrite (proj2 (Z.eqb_neq n 0)) by lia.
  eapply does_bind; [apply (does_issue st lba n 0x20); [done|done|lia|by left|rewrite E0; lia]|].
  intros _ s1 (Ec & Ep). rewrite E0 in Ep. change (0x20 =? 0x20) with true in Ep. unfold SECTOR in *.
  eapply does_mono; [apply (does_read_loop (Z.to_nat n) s1 (512 * (lba mod 2 ^ 28)))|].
  - rewrite Ep. by destruct (Z.to_nat n) eqn:E; [lia|].
  - lia.
  - rewrite Ec. unfold SECTOR. lia.
  - intros bs s2 (-> & Ec2 & Ep2). rewrite Ec2, Ec. split_and!; [|done|done]. unfold SECTOR. f_equal. lia.
Qed.

Lemma ata_write_ok st lba n bs : ph st = Idle → 0 ≤ lba → 1 ≤ n ≤ 255 →
  SECTOR * (lba mod 2 ^ 28 + n) ≤ len (contents st) → len bs = SECTOR * n → Forall byte bs →
  does (ata_write_sectors patience lba n bs) st (λ _ st',
    contents st' = splice (SECTOR * (lba mod 2 ^ 28)) bs (contents st) ∧ ph st' = Idle).
Proof.
  intros Hp Hl Hn Hd Hbs Hby. pose proof (Z.mod_pos_bound lba (2 ^ 28)). unfold ata_write_sectors.
  assert (E0 : (if n =? 0 then 256%nat else Z.to_nat n) = Z.to_nat n) by by rewrite (proj2 (Z.eqb_neq n 0)) by lia.
  eapply does_bind; [apply (does_issue st lba n 0x30); [done|done|lia|by right|rewrite E0; lia]|].
  intros _ s1 (Ec & Ep). rewrite E0 in Ep. change (0x30 =? 0x20) with false in Ep. unfold SECTOR in *.
  eapply does_mono; [apply (does_write_loop (Z.to_nat n) s1 (512 * (lba mod 2 ^ 28)) bs)|].
  - rewrite Ep. by destruct (Z.to_nat n) eqn:E; [lia|].
  - lia.
  - rewrite Ec. unfold SECTOR. lia.
  - unfold SECTOR. lia.
  - done.
  - intros _ s2 (Ec2 & Ep2). by rewrite Ec2, Ec.
Qed.

(** A count of 0 means 256 sectors to the disk and none to the driver. *)
Lemma ata_read_none st lba : ph st = Idle → 0 ≤ lba →
  SECTOR * (lba mod 2 ^ 28 + 256) ≤ len (contents st) →
  does (ata_read_sectors patience lba 0) st (λ bs st',
    bs = [] ∧ ph st' = DataIn (SECTOR * (lba mod 2 ^ 28)) (256 * 256)).
Proof.
  intros Hp Hl Hd. unfold ata_read_sectors.
  eapply does_bind; [apply (does_issue st lba 0 0x20); [done|done|lia|by left|done]|].
  intros _ s1 (Ec & Ep). cbn [Z.to_nat read_loop]. apply does_ret. split; [done|exact Ep].
Qed.
End transfers.

(** ** A block device *)

Section device.
Context {P : Type} `{!PortIO P} `{!AtaLaws P}.

(** The ports and the kernel heap side by side; only the heap's part of the store counts. *)
Definition on_ports {A} (m : kernel P A) : kernel (P * store) A :=
  λ w, '(a, p) ← m (fst w); Ok (a, (p, snd w)).
Definition on_heap {A} (m : kernel store A) : kernel (P * store) A :=
  λ w, '(a, h) ← m (snd w); Ok (a, (fst w, h)).

#[export] Instance ata_device : BlockDevice (P * store) := {|
  read_sectors lba n := on_ports (ata_read_sectors patience lba n);
  write_sectors lba n bs := on_ports (ata_write_sectors patience lba n bs) |}.
#[export] Instance ata_allocator : Allocator (P * store) := {|
  kmalloc n := on_heap (Pure.pure_kmalloc n); kfree p := on_heap (Pure.pure_kfree p) |}.

Definition ata_holds (w : P * store) (s : store) : Prop :=
  (∃ st, ata (fst w) st ∧ ph st = Idle ∧ contents st = disk s) ∧ live (snd w) = live s ∧ quota (snd w) = quota s.

#[export] Program Instance ata_laws : StoreLaws (P * store) := {| holds := ata_holds |}.
Next Obligation.
  intros [p h] s lba n [(st & Hst & Hp & Hc) Hh] (H1 & H2 & H3 & H4).
  assert (Em : lba mod 2 ^ 28 = lba) by (apply Z.mod_small; lia).
  destruct (ata_read_ok st lba n Hp H1 H2) with (w := p) as (bs & p' & st' & E & Hst' & -> & Ec & Ep);
    [by rewrite Em, Hc|done|].
  cbn. unfold on_ports. cbn [fst snd]. rewrite E. run. eexists. split; [by rewrite Em, Hc|].
  split; [|done]. exists st'. by rewrite Ec, Hc.
Qed.
Next Obligation.
  intros [p h] s lba n bs [(st & Hst & Hp & Hc) Hh] (H1 & H2 & H3 & H4) Hl Hb.
  assert (Em : lba mod 2 ^ 28 = lba) by (apply Z.mod_small; lia).
  destruct (ata_write_ok st lba n bs Hp H1 H2) with (w := p) as ([] & p' & st' & E & Hst' & Ec & Ep);
    [by rewrite Em, Hc|done|done|done|].
  cbn. unfold on_ports. cbn [fst snd]. rewrite E. run. eexists. split; [done|].
  split; [|done]. exists st'. by rewrite Ec, Em, Hc.
Qed.
Next Obligation.
  intros [p h] s n [Hst [Hl Hq]] Hn. cbn in *.
  destruct (@kmalloc_law store _ _ Pure.pure_laws h h n eq_refl) as (q & h' & E & Hq0 & Hf & Eh); [by rewrite Hq|].
  cbn in E, Eh. subst h'. unfold on_heap. cbn [fst snd]. rewrite E. run. exists q. eexists. split_and!; [done|done|by rewrite <- Hl|].
  split; [done|]. cbn. by rewrite Hl.
Qed.
Next Obligation.
  intros [p h] s q [Hst [Hl Hq]] Hin. cbn in *. unfold on_heap, Pure.pure_kfree. cbn. eexists. split; [done|].
  split; [done|]. cbn. by rewrite Hl.
Qed.
End device.
(** ** Properties *)

(** C39. The driver transfers the sectors: against a disk that follows the PIO
    protocol, with any delays up to [patience] polls, [read_sectors] answers the
    bytes of the sectors and [write_sectors] replaces exactly them, and the disk
    is idle again.  The address is taken modulo 2^28; a count of 0 reads nothing
    but leaves the disk with 256 sectors to deliver. *)
Theorem ata_transfers {W} `{!PortIO W} `{!AtaLaws W} w st lba n :
  ata w st → ph st = Idle → 0 ≤ lba →
  (1 ≤ n ≤ 255 → SECTOR * (lba mod 2 ^ 28 + n) ≤ len (contents st) →
   (∃ w' st', ata_read_sectors patience lba n w =
        Ok (sub (SECTOR * (lba mod 2 ^ 28)) (SECTOR * n) (contents st), w') ∧
      ata w' st' ∧ ph st' = Idle ∧ contents st' = contents st) ∧
   ∀ bs, len bs = SECTOR * n → Forall byte bs →
     ∃ w' st', ata_write_sectors patience lba n bs w = Ok ((), w') ∧
      ata w' st' ∧ ph st' = Idle ∧ contents st' = splice (SECTOR * (lba mod 2 ^ 28)) bs (contents st)) ∧
  (SECTOR * (lba mod 2 ^ 28 + 256) ≤ len (contents st) →
   ∃ w' st', ata_read_sectors patience lba 0 w = Ok ([], w') ∧ ata w' st' ∧
     ph st' = DataIn (SECTOR * (lba mod 2 ^ 28))  (256 * 256)).
Proof.
  intros Hw Hp Hl. split.
  - intros Hn Hd. split.
    + destruct (ata_read_ok st lba n Hp Hl Hn Hd w Hw) as (bs & w' & st' & E & Hw' & -> & Ec & Ep). by exists w', st'.
    + intros bs Hb Hby.
      destruct (ata_write_ok st lba n bs Hp Hl Hn Hd Hb Hby w Hw) as ([] & w' & st' & E & Hw' & Ec & Ep). by exists w', st'.
  - intros Hd. destruct (ata_read_none st lba Hp Hl Hd w Hw) as (bs & w' & st' & E & Hw' & -> & Ep). by exists w', st'.
Qed.

(** ** A simulated disk *)

Definition sim_busy : nat := 2.
Definition sim_inb (port : Z) : kernel ata_state Z := λ s,
  if port =? 0x1F7 then
    Ok (match busy s with O => match ph s with Idle => 0x40 | _ => 0x48 end | S _ => 0x80 end,
        set_phase (ph s) (Nat.pred (busy s)) s)
  else Fault.
Definition sim_outb (port v : Z) : kernel ata_state unit := λ s,
  match ph s, busy s with
  | Idle, O =>
      if port =? 0x1F7 then Ok ((), set_phase (started v s) sim_busy s)
      else s' ← of_option (set_register port v s); Ok ((), s')
  | _, _ => Fault
  end.
Definition sim_delay (n : nat) : nat := if (n mod 256 =? 0)%nat then sim_busy else O.
Definition sim_inw (port : Z) : kernel ata_state Z := λ s,
  match ph s, busy s with
  | DataIn addr (S n), O =>
      Ok (of_le (sub addr 2 (contents s)), set_phase (next_phase true (addr + 2) n) (sim_delay n) s)
  | _, _ => Fault
  end.
Definition sim_outw (port v : Z) : kernel ata_state unit := λ s,
  match ph s, busy s with
  | DataOut addr (S n), O =>
      Ok ((), set_contents (splice addr (le 2 v) (contents s)) (set_phase (next_phase false (addr + 2) n) (sim_delay n) s))
  | _, _ => Fault
  end.

#[export] Instance sim_ports : PortIO ata_state := {| inb := sim_inb; outb := sim_outb; inw := sim_inw; outw := sim_outw |}.

Lemma sim_delay_zero n : (n mod 256)%nat ≠ O → sim_delay n = O.
Proof. intros H. unfold sim_delay. by rewrite (proj2 (Nat.eqb_neq _ _) H). Qed.

Lemma sim_delay_bound n : (sim_delay n < 3)%nat.
Proof. unfold sim_delay, sim_busy. destruct (_ =? _)%nat; lia. Qed.

Lemma set_register_keeps port v s s' : set_register port v s = Some s' → busy s' = busy s ∧ contents s' = contents s.
Proof.
  destruct s. unfold set_register. repeat (destruct (port =? _); [intros H; injection H as <-; done|]). done.
Qed.

#[export] Program Instance sim_laws : AtaLaws ata_state :=
  {| patience := 3; ata w s := w = s ∧ (busy s < 3)%nat ∧ Forall byte (contents s) |}.
Next Obligation.
  intros w s (-> & Hb & Hc). cbn. unfold sim_inb, ATA_PRIMARY_COMM_STAT. cbn [Z.eqb Pos.eqb].
  eexists _, _. split; [done|]. split_and!; [done|cbn; lia|done|..].
  - by destruct (busy s), (ph s).
  - intros E. rewrite E. by destruct (ph s).
Qed.
Next Obligation.
  intros w s port v s' (-> & Hb & Hc) Hp H0 Hs. cbn. unfold sim_outb. rewrite Hp, H0, Hs.
  destruct (Z.eqb_spec port 0x1F7) as [->|_]; [by destruct s|]. cbn.
  destruct (set_register_keeps _ _ _ _ Hs) as [E1 E2]. exists s'. by rewrite E1, E2.
Qed.
Next Obligation.
  intros w s c (-> & Hb & Hc) Hp H0 Hcmd Hd. cbn. unfold sim_outb. rewrite Hp, H0.
  eexists _, sim_busy. split; [done|]. split_and!; [done|unfold sim_busy; cbn; lia|done].
Qed.
Next Obligation.
  intros w s a n (-> & Hb & Hc) Hp H0. cbn. unfold sim_inw. rewrite Hp, H0.
  eexists _, (sim_delay n). split; [done|]. split; [apply sim_delay_zero|]. split_and!; [done|apply sim_delay_bound|done].
Qed.
Next Obligation.
  intros w s a n v (-> & Hb & Hc) Hp H0 Hv. cbn. unfold sim_outw. rewrite Hp, H0.
  eexists _, (sim_delay n). split; [done|]. split; [apply sim_delay_zero|].
  split_and!; [done|apply sim_delay_bound|]. apply Forall_splice; [apply (le_bytes 2)|done].
Qed.
Next Obligation. by intros w s (-> & Hb & _). Qed.
Next Obligation. by intros w s (-> & _ & Hc). Qed.

Definition sim_disk : ata_state := mk_ata 0 0 0 0 0 Idle 1 (replicate 512 7 ++ replicate 1024 9).

Lemma ata_transfers_witness :
  ∃ w' st', ata_read_sectors patience (2 ^ 28 + 1) 2 sim_disk = Ok (replicate 1024 9, w') ∧ ata w' st' ∧ ph st' = Idle.
Proof.
  destruct (ata_transfers sim_disk sim_disk (2 ^ 28 + 1) 2) as [H _].
  - split_and!; [reflexivity|cbn; lia|]. apply bytes_check. vm_compute. reflexivity.
  - reflexivity.
  - lia.
  - destruct H as [(w' & st' & E & Hw & Hp & _) _]; [lia|vm_compute; congruence|].
    assert (Es : sub (SECTOR * ((2 ^ 28 + 1) mod 2 ^ 28)) (SECTOR * 2) (contents sim_disk) = replicate 1024 9)
      by (vm_compute; reflexivity).
    rewrite Es in E. exists w', st'. split; [exact E|]. by split.
Defined.
End Ata.
