(* ===== verification/UserMem.v ===== *)
(** * User memory (kernel/syscalls/syscalls.cpp, kernel/syscalls/sys_mem.cpp)

    System calls move bytes between the kernel and the memory of the calling
    process, after asking [paging_is_user_accessible] about every byte.
    [UserSpace] is what the copying code uses, [UserLaws] what it relies on; the
    page tables implement it: a byte is a byte of the physical word that the
    processor's walk leads to.

    The processor raises a general-protection exception for addresses that are
    not canonical; the check of the kernel does not know about them.  The break
    of a process is moved by [sys_sbrk], which maps what lies below it. *)

From S2P Require Import Prelude Pfa Paging Bytes.

Module UserMem.
Import Pfa Paging Bytes.

(** ** Copying *)

Class UserSpace (W : Type) := {
  accessible : Z → W → outcome bool;
  load_user : Z → W → outcome Z;
  store_user : Z → Z → W → outcome W
}.

Section copying.
Context {W : Type} `{!UserSpace W}.

(** The bytes copied to the kernel's buffer, if all [n] can be. *)
Fixpoint copy_from_user (n : nat) (u : Z) (w : W) : outcome (option (list Z)) :=
  match n with
  | O => Ok (Some [])
  | S n' =>
      ok ← accessible u w;
      if negb ok then Ok None else
      b ← load_user u w;
      r ← copy_from_user n' (u64 (u + 1)) w;
      Ok (option_map (cons b) r)
  end.

Fixpoint copy_to_user (bs : list Z) (u : Z) (w : W) : outcome (bool * W) :=
  match bs with
  | [] => Ok (true, w)
  | b :: bs' =>
      ok ← accessible u w;
      if negb ok then Ok (false, w) else
      w' ← store_user u b w;
      copy_to_user bs' (u64 (u + 1)) w'
  end.
End copying.

(** What user memory promises: the byte at each address that may be accessed. *)
Class UserLaws (W : Type) `{!UserSpace W} := {
  user_ok : W → Prop;
  user_byte : W → Z → option Z;
  accessible_law w u : user_ok w → canonical u → accessible u w = Ok (bool_decide (is_Some (user_byte w u)));
  load_law w u b : user_ok w → canonical u → user_byte w u = Some b → load_user u w = Ok b;
  store_law w u b b' : user_ok w → canonical u → user_byte w u = Some b' → byte b →
    ∃ w', store_user u b w = Ok w' ∧ user_ok w' ∧
      ∀ u', canonical u' → user_byte w' u' = if decide (u' = u) then Some b else user_byte w u'
}.

(** A range of canonical addresses. *)
Definition range_ok (u n : Z) : Prop := 0 ≤ n ∧ 0 ≤ u ∧ (u + n ≤ 2 ^ 47 ∨ 2 ^ 64 - 2 ^ 47 ≤ u ∧ u + n ≤ 2 ^ 64).

Section copying_laws.
Context {W : Type} `{!UserSpace W, !UserLaws W}.
Implicit Types w : W.

(** The bytes of a range, when all of it may be accessed. *)
Definition user_bytes w (u : Z) (n : nat) : option (list Z) := mapM (user_byte w) (seqZ u (Z.of_nat n)).

Lemma user_bytes_S w u n : user_bytes w u (S n) =
  (b ← user_byte w u; bs ← user_bytes w (u + 1) n; Some (b :: bs)).
Proof.
  unfold user_bytes. rewrite seqZ_cons by lia. replace (Z.pred (Z.of_nat (S n))) with (Z.of_nat n) by lia.
  rewrite <- Z.add_1_r. done.
Qed.

Lemma range_S u n : range_ok u (Z.of_nat (S n)) → canonical u ∧ (n = O ∨ u64 (u + 1) = u + 1) ∧ range_ok (u + 1) (Z.of_nat n).
Proof.
  unfold range_ok, canonical. intros H. split_and!; try lia. destruct n; [by left|right]. apply wrap_small. lia.
Qed.

Lemma copy_from_user_spec n : ∀ w u, user_ok w → range_ok u (Z.of_nat n) →
  copy_from_user n u w = Ok (user_bytes w u n).
Proof.
  induction n as [|n IH]; intros w u Hw Hr; [done|]. cbn [copy_from_user].
  destruct (range_S _ _ Hr) as (Hc & Hu & Hr'). rewrite accessible_law, user_bytes_S by done. run.
  destruct (user_byte w u) as [b|] eqn:Eb; cbn [is_Some].
  - rewrite bool_decide_true by by eexists. cbn [negb]. rewrite (load_law w u b) by done. run.
    destruct Hu as [->| ->]; [done|]. rewrite IH by done. run. by destruct (user_bytes w (u + 1) n).
  - rewrite bool_decide_false by by intros [? ?]. done.
Qed.

(** Writing reaches exactly the bytes before the first that may not be accessed. *)
Lemma copy_to_user_spec bs : ∀ w u, user_ok w → range_ok u (Z.of_nat (length bs)) → Forall byte bs →
  ∃ ok w' k, copy_to_user bs u w = Ok (ok, w') ∧ user_ok w' ∧ (k ≤ length bs)%nat ∧
    ((k < length bs)%nat → user_byte w (u + Z.of_nat k) = None) ∧ is_Some (user_bytes w u k) ∧
    (ok = true ↔ k = length bs) ∧ (ok = true ↔ is_Some (user_bytes w u (length bs))) ∧
    ∀ u', canonical u' → user_byte w' u' =
      if decide (u ≤ u' < u + Z.of_nat k) then bs !! Z.to_nat (u' - u) else user_byte w u'.
Proof.
  induction bs as [|b bs IH]; intros w u Hw Hr Hb.
  { exists true, w, O. split_and!; [done|done|done|cbn; lia|by eexists|done|split; [intros _; by eexists|done]|].
    intros u' _. rewrite decide_False by lia. done. }
  apply Forall_cons in Hb as [Hb Hbs]. cbn [copy_to_user length] in *.
  destruct (range_S _ _ Hr) as (Hc & Hu & Hr'). rewrite accessible_law by done. run.
  destruct (user_byte w u) as [b'|] eqn:Eb; cbn [is_Some].
  2:{ rewrite bool_decide_false by by intros [? ?]. exists false, w, O. split_and!; [done|done|lia|by rewrite Z.add_0_r|by eexists|done| |].
      - rewrite user_bytes_S, Eb. split; [done|]. intros [? [=]].
      - intros u' _. rewrite decide_False by lia. done. }
  rewrite bool_decide_true by by eexists. cbn [negb].
  destruct (store_law w u b b' Hw Hc Eb Hb) as (w1 & -> & Hw1 & H1). run.
  assert (E1 : copy_to_user bs (u64 (u + 1)) w1 = copy_to_user bs (u + 1) w1).
  { destruct Hu as [Hu| ->]; [by destruct bs|done]. }
  rewrite E1. destruct (IH w1 (u + 1) Hw1 Hr' Hbs) as (ok & w2 & k & E & Hw2 & Hk & Hnx & Hp & Ho1 & Ho2 & H2).
  assert (Erest : ∀ m, (m ≤ length bs)%nat → user_bytes w1 (u + 1) m = user_bytes w (u + 1) m).
  { intros m Hm. unfold user_bytes. apply Forall_mapM_ext, Forall_forall. intros x Hx. apply elem_of_seqZ in Hx. rewrite H1.
    - rewrite decide_False by lia. done.
    - unfold range_ok, canonical in *. lia. }
  exists ok, w2, (S k). split_and!; [exact E|done|lia| | | | |].
  - intros Hlt. replace (u + Z.of_nat (S k)) with (u + 1 + Z.of_nat k) by lia. rewrite <- Hnx, H1 by (unfold range_ok, canonical in *; lia).
    by rewrite decide_False by lia.
  - rewrite user_bytes_S, Eb, <- (Erest k Hk). cbn. destruct Hp as [? ->]. by eexists.
  - rewrite Ho1. lia.
  - rewrite Ho2, Erest by done. rewrite user_bytes_S, Eb. cbn. destruct (user_bytes w (u + 1) (length bs)); cbn.
    + split; intros _; by eexists.
    + split; intros [? [=]].
  - intros u' Hc'. rewrite H2, H1 by done. destruct (decide (u' = u)) as [->|Hne].
    + rewrite decide_False, decide_True by lia. by rewrite Z.sub_diag.
    + destruct (decide (u + 1 ≤ u' < u + 1 + Z.of_nat k)).
      * rewrite decide_True by lia. replace (Z.to_nat (u' - u)) with (S (Z.to_nat (u' - (u + 1)))) by lia. done.
      * rewrite decide_False by lia. done.
Qed.
End copying_laws.
(** ** Bytes of physical memory *)

Definition word_of (pa : Z) : Z := pa - pa mod 8.
Definition byte_at (m : gmap Z Z) (pa : Z) : Z := (rd m (word_of pa) / 2 ^ (8 * (pa mod 8))) mod 256.
Definition put_byte (m : gmap Z Z) (pa b : Z) : gmap Z Z :=
  <[word_of pa := rd m (word_of pa) + (b - byte_at m pa) * 2 ^ (8 * (pa mod 8))]> m.

(** Replacing byte [i] of a word. *)
Lemma word_byte_same x i b : 0 ≤ i → 0 ≤ b < 256 →
  (x + (b - (x / 2 ^ (8 * i)) mod 256) * 2 ^ (8 * i)) / 2 ^ (8 * i) mod 256 = b.
Proof.
  intros Hi Hb. rewrite Z.div_add by (apply Z.pow_nonzero; lia). zdm.
Qed.

Lemma word_byte_other x i j b : 0 ≤ i → 0 ≤ j → i ≠ j → 0 ≤ b < 256 →
  (x + (b - (x / 2 ^ (8 * i)) mod 256) * 2 ^ (8 * i)) / 2 ^ (8 * j) mod 256 = x / 2 ^ (8 * j) mod 256.
Proof.
  intros Hi Hj Hne Hb. set (d := b - _). destruct (decide (j < i)) as [Hlt|Hge].
  - replace (2 ^ (8 * i)) with (2 ^ (8 * (i - j - 1)) * 256 * 2 ^ (8 * j)).
    + rewrite !Z.mul_assoc, Z.div_add by (apply Z.pow_nonzero; lia). by rewrite Z.mod_add.
    + change 256 with (2 ^ 8). rewrite <- !Z.pow_add_r by lia. f_equal. lia.
  - replace (2 ^ (8 * j)) with (2 ^ (8 * i) * 256 * 2 ^ (8 * (j - i - 1))).
    + pose proof (Z.pow_pos_nonneg 2 (8 * i)). pose proof (Z.pow_pos_nonneg 2 (8 * (j - i - 1))).
      rewrite <- !Z.div_div by lia. rewrite Z.div_add by lia. do 2 f_equal. unfold d. zdm.
    + change 256 with (2 ^ 8). rewrite <- !Z.pow_add_r by lia. f_equal. lia.
Qed.

Lemma byte_at_put m pa b pa' : 0 ≤ b < 256 → byte_at (put_byte m pa b) pa' = if decide (pa' = pa) then b else byte_at m pa'.
Proof.
  intros Hb. unfold byte_at at 1, put_byte. pose proof (Z.mod_pos_bound pa 8). pose proof (Z.mod_pos_bound pa' 8).
  destruct (decide (word_of pa = word_of pa')) as [Ew|Hne].
  - rewrite <- Ew, rd_insert_eq. unfold byte_at at 1. case_decide as E.
    + subst pa'. apply word_byte_same; lia.
    + rewrite word_byte_other; [unfold byte_at; by rewrite Ew|lia|lia| |done]. unfold word_of in Ew. lia.
  - rewrite rd_insert_ne by done. case_decide as E; [by subst|done].
Qed.

Lemma byte_at_range m pa : 0 ≤ byte_at m pa < 256.
Proof. apply Z.mod_pos_bound. lia. Qed.

(** ** User memory behind the page tables *)

Definition access (va : Z) (st : paging) : outcome Z :=
  if negb (canonicalb va) then Panic K_ERR_GENERAL_PROTECTION else
  match translate (pg_mem st) (cr3 st) va with Some pa => Ok pa | None => Panic K_ERR_PAGE_FAULT end.

Definition load_byte (va : Z) (st : paging) : outcome Z := pa ← access va st; Ok (byte_at (pg_mem st) pa).
Definition store_byte (va b : Z) (st : paging) : outcome paging :=
  pa ← access va st; Ok (set_mem (put_byte (pg_mem st) pa b) st).

#[export] Instance paging_user : UserSpace paging := {|
  accessible := paging_is_user_accessible; load_user := load_byte; store_user := store_byte |}.

Definition user_page (st : paging) (va : Z) : bool := user_path (pg_mem st) (root_of (cr3 st)) (path4 va).

(** The frames of user pages hold no tables, and a frame is in one user page only. *)
Record user_wf (st : paging) : Prop := {
  uw_tables : ∃ T, paging_wf st T ∧
    ∀ va f, user_page st va = true → walk_st st va = Some f → T !! f = None ∧ f mod 4096 = 0;
  uw_inj : ∀ va va' f, canonical va → canonical va' → user_page st va = true → user_page st va' = true →
    walk_st st va = Some f → walk_st st va' = Some f → va / 4096 = va' / 4096
}.

Definition paging_user_byte (st : paging) (va : Z) : option Z :=
  if user_page st va then byte_at (pg_mem st) <$> translate (pg_mem st) (cr3 st) va else None.

Lemma user_page_translates st va : user_wf st → user_page st va = true → is_Some (translate (pg_mem st) (cr3 st) va).
Proof.
  intros [(T & Hwf & _) _] Hu. apply user_path_walk in Hu.
  rewrite <- (walk_page_tables _ _ T (pw_tables _ _ Hwf)) in Hu. by apply fmap_is_Some.
Qed.

Lemma user_path_agree m T root m' idxs f p : tables_wf m root T → tables_agree m T m' →
  T !! f = Some p → Forall is_idx idxs → (length p + length idxs ≤ 4)%nat →
  user_path m' f idxs = user_path m f idxs.
Proof.
  intros Hwf Hag. revert f p. induction idxs as [|i idxs IH]; intros f p Hf Hi Hlen; cbn [user_path length] in *; [done|].
  apply Forall_cons in Hi as [Hi Hi']. rewrite (Hag f p i) by done.
  destruct (flag (rd m (f + 8 * i)) PTE_PRESENT) eqn:E; [|done]. cbn [andb]. f_equal.
  destruct idxs as [|j idxs]; [done|]. cbn [length] in Hlen.
  destruct (tw_child _ _ _ Hwf f p i Hf) as (_ & _ & HT); [lia|done..|].
  apply (IH _ (p ++ [i])); [done|done|]. rewrite length_app. cbn [length]. lia.
Qed.

(** A store to a user page changes no table. *)
Lemma store_keeps_tables st T va f b :
  paging_wf st T → walk_st st va = Some f → T !! f = None → f mod 4096 = 0 →
  tables_agree (pg_mem st) T (put_byte (pg_mem st) (f + va mod 4096) b).
Proof.
  intros Hwf Hw HT Ha g p i Hg Hi. unfold put_byte. apply rd_insert_ne. intros E.
  destruct (tw_frame _ _ _ (pw_tables _ _ Hwf) _ _ Hg) as (Hga & _). unfold is_idx in Hi.
  assert (g = f); [|congruence]. unfold word_of in E. zdm.
Qed.

Lemma store_user_page st T va f b :
  paging_wf st T → walk_st st va = Some f → T !! f = None → f mod 4096 = 0 →
  let st' := set_mem (put_byte (pg_mem st) (f + va mod 4096) b) st in
  paging_wf st' T ∧ (∀ x, walk_st st' x = walk_st st x) ∧ (∀ x, user_page st' x = user_page st x).
Proof.
  intros Hwf Hw HT Ha st'. pose proof (store_keeps_tables st T va f b Hwf Hw HT Ha) as Hag.
  pose proof (same_space_agree st T _ (pw_tables _ _ Hwf) Hag) as Hsp. split_and!.
  - apply (paging_wf_same st st' T Hwf Hsp); [|done]. by apply (tables_wf_agree _ _ _ (pw_tables _ _ Hwf)).
  - apply Hsp.
  - intros x. apply (user_path_agree _ T _ _ _ _ [] (pw_tables _ _ Hwf) Hag); [apply Hwf|apply path4_idx|done].
Qed.
Lemma access_ok st va f : canonical va → walk_st st va = Some f → access va st = Ok (f + va mod 4096).
Proof.
  intros Hc Hw. unfold access. rewrite (proj2 (canonicalb_spec va) Hc). cbn [negb].
  by rewrite translate_walk, Hw.
Qed.

Lemma user_page_frame st va : user_wf st → user_page st va = true → ∃ f, walk_st st va = Some f.
Proof.
  intros Hwf Hu. destruct (user_page_translates st va Hwf Hu) as [pa Hpa]. rewrite translate_walk in Hpa.
  destruct (walk_st st va) as [f|]; [by exists f|done].
Qed.

Lemma paging_user_byte_page st va f : user_page st va = true → walk_st st va = Some f →
  paging_user_byte st va = Some (byte_at (pg_mem st) (f + va mod 4096)).
Proof. intros Hu Hw. unfold paging_user_byte. by rewrite Hu, translate_walk, Hw. Qed.

Lemma paging_store_law st u b b' : user_wf st → canonical u → paging_user_byte st u = Some b' → byte b →
  ∃ st', store_byte u b st = Ok st' ∧ user_wf st' ∧
    ∀ u', canonical u' → paging_user_byte st' u' = if decide (u' = u) then Some b else paging_user_byte st u'.
Proof.
  intros Hwf Hc Hb' Hb. assert (Hu : user_page st u = true) by (unfold paging_user_byte in Hb'; by destruct (user_page st u)).
  destruct (user_page_frame st u Hwf Hu) as [f Hf]. destruct Hwf as [(T & Hwf & HT) Hinj].
  destruct (HT u f Hu Hf) as [HTf Ha]. destruct (store_user_page st T u f b Hwf Hf HTf Ha) as (Hwf' & Hw' & Hu').
  unfold store_byte. rewrite (access_ok st u f Hc Hf). run. eexists. split; [reflexivity|]. split.
  - constructor.
    + exists T. split; [done|]. intros va g. rewrite Hw', Hu'. apply HT.
    + intros va va' g Hv Hv'. rewrite !Hw', !Hu'. by apply Hinj.
  - intros u' Hcu'. unfold paging_user_byte. rewrite Hu'. destruct (user_page st u') eqn:Eu'.
    + destruct (user_page_frame st u') as [f' Hf']; [by constructor; [exists T|]|done|].
      rewrite !translate_walk, Hw', Hf'. cbn [fmap option_fmap option_map pg_mem set_mem].
      rewrite byte_at_put by done. destruct (HT u' f' Eu' Hf') as [_ Ha'].
      destruct (decide (u' = u)) as [->|Hne].
      * rewrite Hf in Hf'. injection Hf' as <-. by rewrite decide_True.
      * rewrite decide_False; [done|]. intros E. apply Hne. assert (f' = f) as -> by zdm.
        assert (u' / 4096 = u / 4096) by by apply (Hinj u' u f). zdm.
    + destruct (decide (u' = u)) as [->|]; [congruence|done].
Qed.

#[export] Program Instance paging_user_laws : UserLaws paging := {|
  user_ok := user_wf; user_byte := paging_user_byte |}.
Next Obligation.
  intros st u Hwf Hc. destruct (uw_tables _ Hwf) as (T & Hp & HT).
  change (paging_is_user_accessible u st = Ok (bool_decide (is_Some (paging_user_byte st u)))).
  rewrite (is_user_accessible_spec st T u Hp). f_equal. fold (user_page st u). unfold paging_user_byte.
  destruct (user_page st u) eqn:Eu.
  - symmetry. apply bool_decide_eq_true_2.
    apply fmap_is_Some. by apply user_page_translates.
  - symmetry. apply bool_decide_eq_false_2. by intros [? ?].
Qed.
Next Obligation.
  intros st u b Hwf Hc. cbn. unfold paging_user_byte. destruct (user_page st u) eqn:Eu; [|done].
  destruct (user_page_frame st u Hwf Eu) as [f Hf]. rewrite translate_walk, Hf. cbn. intros [= <-].
  unfold load_byte. by rewrite (access_ok st u f Hc Hf).
Qed.
Next Obligation. intros st u b b' Hwf Hc Hb' Hb. by apply (paging_store_law st u b b'). Qed.

(** ** Properties *)

Lemma user_bytes_all {W} `{!UserSpace W, !UserLaws W} (w w' : W) u bs :
  (∀ i b, bs !! i = Some b → user_byte w' (u + Z.of_nat i) = Some b) → user_bytes w' u (length bs) = Some bs.
Proof.
  revert u. induction bs as [|b bs IH]; intros u H; [done|]. cbn [length]. rewrite user_bytes_S.
  pose proof (H O b eq_refl) as H0. rewrite Z.add_0_r in H0. rewrite H0. cbn. rewrite (IH (u + 1)); [done|].
  intros i b' Hi. rewrite <- (H (S i) b' Hi). f_equal. lia.
Qed.

(** C30. Copying to and from user memory, over the page tables: [copy_from_user]
    answers the bytes of the range, or fails when a byte of it is not
    accessible to the user; [copy_to_user] of a range that is accessible writes
    exactly its bytes, so that copying back gives them, and changes no other
    byte of user memory; of any other range it answers false, after it wrote
    the bytes before the first one that is not accessible, and those alone. *)
Theorem copy_user_exact (st : paging) u bs :
  user_wf st → range_ok u (Z.of_nat (length bs)) → Forall byte bs →
  copy_from_user (length bs) u st = Ok (user_bytes st u (length bs)) ∧
  (is_Some (user_bytes st u (length bs)) →
   ∃ st', copy_to_user bs u st = Ok (true, st') ∧ user_wf st' ∧
     copy_from_user (length bs) u st' = Ok (Some bs) ∧
     ∀ x, canonical x → ¬ (u ≤ x < u + Z.of_nat (length bs)) → paging_user_byte st' x = paging_user_byte st x) ∧
  (user_bytes st u (length bs) = None →
   ∃ st' k, copy_to_user bs u st = Ok (false, st') ∧ user_wf st' ∧
     (k < length bs)%nat ∧ paging_user_byte st (u + Z.of_nat k) = None ∧ is_Some (user_bytes st u k) ∧
     ∀ x, canonical x → paging_user_byte st' x =
       if decide (u ≤ x < u + Z.of_nat k) then bs !! Z.to_nat (x - u) else paging_user_byte st x).
Proof.
  intros Hwf Hr Hb. split; [exact (copy_from_user_spec (UserLaws0 := paging_user_laws) _ st u Hwf Hr)|].
  destruct (copy_to_user_spec (UserLaws0 := paging_user_laws) bs st u Hwf Hr Hb) as (ok & st' & k & E & Hwf' & Hk & Hx & Hp & Ho1 & Ho2 & H).
  split; intros Hs.
  2: { destruct ok; [destruct (proj1 Ho2 eq_refl); congruence|].
    assert (Hlt : (k < length bs)%nat) by (destruct (decide (k = length bs)) as [Hkl|]; [by apply Ho1 in Hkl|lia]).
    exists st', k. split_and!; [done|done|done|by apply Hx|done|done]. }
  rewrite (proj2 Ho2 Hs) in *. assert (k = length bs) as -> by tauto.
  exists st'. split_and!; [done|done| |].
  - rewrite (copy_from_user_spec (UserLaws0 := paging_user_laws) _ st' u Hwf' Hr). f_equal. apply (user_bytes_all st). intros i b Hi.
    pose proof (lookup_lt_Some _ _ _ Hi). rewrite H by (unfold range_ok, canonical in *; lia).
    rewrite decide_True by lia. by replace (Z.to_nat (u + Z.of_nat i - u)) with i by lia.
  - intros x Hcx Hout. specialize (H x Hcx). cbn in H. by rewrite decide_False in H.
Qed.

(** The check of a user pointer ignores bits 48 to 63: when [u] is an accessible
    address of user space, the non-canonical [u + 2^48 k] passes it, and the
    access then raises a general-protection exception in the kernel. *)
Theorem copy_noncanonical_panics (st : paging) u k n :
  user_wf st → 0 ≤ u < 2 ^ 47 → user_page st u = true → 1 ≤ k < 2 ^ 16 - 1 →
  paging_is_user_accessible (u + 2 ^ 48 * k) st = Ok true ∧
  copy_from_user (S n) (u + 2 ^ 48 * k) st = Panic K_ERR_GENERAL_PROTECTION ∧
  ∀ b bs, copy_to_user (b :: bs) (u + 2 ^ 48 * k) st = Panic K_ERR_GENERAL_PROTECTION.
Proof.
  intros Hwf Hu Hp Hk. destruct (uw_tables _ Hwf) as (T & Hwf' & _).
  assert (Ha : paging_is_user_accessible (u + 2 ^ 48 * k) st = Ok true).
  { rewrite (is_user_accessible_spec st T _ Hwf'), path4_high. f_equal. exact Hp. }
  assert (Hc : canonicalb (u + 2 ^ 48 * k) = false).
  { destruct (canonicalb (u + 2 ^ 48 * k)) eqn:E; [|done]. apply canonicalb_spec in E. unfold canonical in E. lia. }
  split_and!; [done| |intros b bs]; cbn [copy_from_user copy_to_user];
    change (@accessible paging paging_user) with paging_is_user_accessible; rewrite Ha; run; cbn [negb].
  - change (@load_user paging paging_user) with load_byte. unfold load_byte, access. by rewrite Hc.
  - change (@store_user paging paging_user) with store_byte. unfold store_byte, access. by rewrite Hc.
Qed.

(** ** A machine with a user page

    The small machine with the page 0x400000 mapped to frame 8 for the user. *)

Definition demo_user_words : list (Z * Z) :=
  (0x1000 + 8 * 0, 0x5007) :: (0x5000, 0x6007) :: (0x6000 + 8 * 2, 0x7007) :: (0x7000, 0x8007) :: demo_words.
Definition demo_user_list : list (Z * list Z) :=
  [(0x1000, []); (0x2000, [511]); (0x3000, [511; 510]); (0x4000, [511; 510; 0]);
   (0x5000, [0]); (0x6000, [0; 0]); (0x7000, [0; 0; 2])].
Definition demo_user_tables : gmap Z (list Z) := list_to_map demo_user_list.
Definition demo_user : paging :=
  mk_paging (mk_pfa [0xFFFF01FF] 1 16 9) (list_to_map demo_user_words) 0x1000 0xFFFFFFFF80001000 1.

(** The conditions on the tables, by computation. *)
Definition entry_check (m : gmap Z Z) (T : gmap Z (list Z)) (f : Z) (p : list Z) (i : Z) : bool :=
  let e := rd m (f + 8 * i) in
  negb (flag e PTE_PRESENT) ||
  (negb (flag e PTE_PS) && (mask_low e 0xFFF =? entry_addr e) && bool_decide (T !! entry_addr e = Some (p ++ [i]))).
Definition tables_check (m : gmap Z Z) (l : list (Z * list Z)) : bool :=
  forallb (λ fp, (fst fp mod 4096 =? 0) && (0 <=? fst fp) && (fst fp <? 2 ^ 31) && (length (snd fp) <=? 3)%nat &&
    ((3 <=? length (snd fp))%nat || forallb (entry_check m (list_to_map l) (fst fp) (snd fp)) (seqZ 0 512))) l.

Lemma tables_check_sound m l root : tables_check m l = true → (list_to_map l : gmap Z (list Z)) !! root = Some [] →
  tables_wf m root (list_to_map l).
Proof.
  intros Hc Hr. unfold tables_check in Hc. rewrite forallb_forall in Hc.
  assert (H : ∀ f p, (list_to_map l : gmap Z (list Z)) !! f = Some p → In (f, p) l).
  { intros f p Hf. by apply list_elem_of_In, elem_of_list_to_map_2. }
  constructor; [done| |].
  - intros f p Hf%H%Hc. cbn [fst snd] in Hf. rewrite !andb_true_iff, Z.eqb_eq, Z.leb_le, Z.ltb_lt, Nat.leb_le in Hf. tauto.
  - intros f p i Hf Hlen Hi e He. apply H, Hc in Hf. cbn [fst snd] in Hf.
    apply andb_prop in Hf as [_ Hf]. rewrite (proj2 (Nat.leb_gt _ _) Hlen) in Hf. cbn [orb] in Hf.
    rewrite forallb_forall in Hf. specialize (Hf i). unfold entry_check in Hf. cbv zeta in Hf. fold e in Hf.
    rewrite He in Hf. cbn [negb orb] in Hf. rewrite !andb_true_iff, negb_true_iff, Z.eqb_eq, bool_decide_eq_true in Hf.
    unfold is_idx in Hi. assert (Hin : In i (seqZ 0 512)) by (apply list_elem_of_In, elem_of_seqZ; lia). tauto.
Qed.

Lemma demo_user_wf : paging_wf demo_user demo_user_tables.
Proof.
  assert (Hfree : free_frames (pg_pfa demo_user) = seqZ 9 7) by (vm_compute; reflexivity).
  assert (Hin : ∀ f p, demo_user_tables !! f = Some p → (f, p) ∈ demo_user_list) by (intros f p; apply elem_of_list_to_map_2).
  constructor.
  - apply tables_check_sound; [vm_compute; reflexivity|reflexivity].
  - constructor; rewrite ?Hfree; [cbn; lia|reflexivity|cbn; lia|cbn; lia| |reflexivity].
    cbn [demo_user pg_pfa frame_bitmap]. repeat constructor; lia.
  - intros f p Hf%Hin. rewrite Hfree, elem_of_seqZ.
    repeat (apply elem_of_cons in Hf as [[= -> ->]|Hf]; [zdm|]). by apply elem_of_nil in Hf.
  - intros g. rewrite Hfree, elem_of_seqZ. lia.
  - intros f p Hf%Hin.
    repeat (apply elem_of_cons in Hf as [[= -> ->]|Hf]; [vm_compute; reflexivity|]). by apply elem_of_nil in Hf.
  - intros g. rewrite Hfree. intros Hg. assert (Hg' : g ∈ [9; 10; 11; 12; 13; 14; 15]) by exact Hg.
    repeat (apply elem_of_cons in Hg' as [->|Hg']; [vm_compute; reflexivity|]). by apply elem_of_nil in Hg'.
Qed.

(** The entries with the user bit. *)
Lemma demo_user_entry a : flag (rd (pg_mem demo_user) a) PTE_PRESENT = true → flag (rd (pg_mem demo_user) a) PTE_USER = true →
  a ∈ [0x1000; 0x5000; 0x6010; 0x7000].
Proof.
  unfold rd. destruct (pg_mem demo_user !! a) as [v|] eqn:E; [|done]. cbn [default from_option id]. intros _ Hu.
  apply elem_of_list_to_map_2 in E.
  assert (Hf : (a, v) ∈ filter (λ x, flag (snd x) PTE_USER = true) demo_user_words) by by apply list_elem_of_filter.
  assert (Ew : filter (λ x : Z * Z, flag (snd x) PTE_USER = true) demo_user_words =
    [(0x1000, 0x5007); (0x5000, 0x6007); (0x6010, 0x7007); (0x7000, 0x8007)]) by (vm_compute; reflexivity).
  rewrite Ew in Hf. repeat (apply elem_of_cons in Hf as [[= -> ->]|Hf]; [set_solver|]). by apply elem_of_nil in Hf.
Qed.

Ltac in_list H := repeat (apply elem_of_cons in H as [H|H]; [lia|]); by apply elem_of_nil in H.

Lemma demo_user_page va : user_page demo_user va = true → path4 va = [0; 0; 2; 0].
Proof.
  unfold user_page. pose proof (path4_idx va) as Hi. unfold path4, path3 in *. cbn [app] in *.
  apply Forall_cons in Hi as [H1 Hi]. apply Forall_cons in Hi as [H2 Hi]. apply Forall_cons in Hi as [H3 Hi].
  apply Forall_cons in Hi as [H4 _]. unfold is_idx in *. change (root_of (cr3 demo_user)) with 0x1000. cbn [user_path].
  intros [[P1 U1]%andb_prop R]%andb_prop. assert (PML4_IDX va = 0) as E1.
  { pose proof (demo_user_entry _ P1 U1) as H. in_list H. }
  rewrite E1 in R. change (entry_addr (rd (pg_mem demo_user) (0x1000 + 8 * 0))) with 0x5000 in R.
  apply andb_prop in R as [[P2 U2]%andb_prop R]. assert (PDPT_IDX va = 0) as E2.
  { pose proof (demo_user_entry _ P2 U2) as H. in_list H. }
  rewrite E2 in R. change (entry_addr (rd (pg_mem demo_user) (0x5000 + 8 * 0))) with 0x6000 in R.
  apply andb_prop in R as [[P3 U3]%andb_prop R]. assert (PD_IDX va = 2) as E3.
  { pose proof (demo_user_entry _ P3 U3) as H. in_list H. }
  rewrite E3 in R. change (entry_addr (rd (pg_mem demo_user) (0x6000 + 8 * 2))) with 0x7000 in R.
  apply andb_prop in R as [[P4 U4]%andb_prop _]. assert (PT_IDX va = 0) as E4.
  { pose proof (demo_user_entry _ P4 U4) as H. in_list H. }
  by rewrite E1, E2, E3, E4.
Qed.

Lemma demo_user_ok : user_wf demo_user.
Proof.
  constructor.
  - exists demo_user_tables. split; [apply demo_user_wf|]. intros va f Hu Hw. apply demo_user_page in Hu.
    unfold walk_st in Hw. rewrite (walk_page_tables _ _ _ (pw_tables _ _ demo_user_wf)), Hu in Hw.
    assert (f = 0x8000) as -> by (vm_compute in Hw; congruence). split; [reflexivity|reflexivity].
  - intros va va' f Hc Hc' Hu Hu' _ _. apply (canonical_page va' va Hc' Hc).
    by rewrite (demo_user_page _ Hu), (demo_user_page _ Hu').
Qed.

Lemma copy_user_exact_witness :
  ∃ st', (copy_to_user [1; 2; 3] 0x400FFD demo_user = Ok (true, st') ∧ copy_from_user 3 0x400FFD st' = Ok (Some [1; 2; 3])) ∧
    ∃ st2, copy_to_user [1; 2; 3] 0x400FFE demo_user = Ok (false, st2).
Proof.
  destruct (copy_user_exact demo_user 0x400FFD [1; 2; 3]) as (_ & H & _).
  - apply demo_user_ok.
  - split_and!; [cbn; lia|lia|left; cbn; lia].
  - repeat constructor; lia.
  - destruct (copy_user_exact demo_user 0x400FFE [1; 2; 3]) as (_ & _ & H2).
    + apply demo_user_ok.
    + split_and!; [cbn; lia|lia|left; cbn; lia].
    + repeat constructor; lia.
    + destruct H as (st' & E & _ & E2 & _).
      * exists [0; 0; 0]. vm_compute. reflexivity.
      * destruct H2 as (st2 & k & E3 & _); [vm_compute; reflexivity|].
        exists st'. split; [split; [exact E|exact E2]|exists st2; exact E3].
Defined.

Lemma copy_noncanonical_panics_witness :
  copy_from_user 1 0x1000000400000 demo_user = Panic K_ERR_GENERAL_PROTECTION.
Proof.
  destruct (copy_noncanonical_panics demo_user 0x400000 1 0) as (_ & E & _).
  - apply demo_user_ok.
  - lia.
  - vm_compute. reflexivity.
  - lia.
  - exact E.
Defined.
End UserMem.
