(* ===== verification/Image.v ===== *)
(** * Private memory of a process image

    The program loader maps fresh frames at the addresses that a file names and
    fills them through these addresses.  [PageMapper] and [UserSpace] are what it
    uses of the page tables, [ImageLaws] what it relies on: a partial memory of
    bytes, the pages that were mapped so far, and a number of free frames.
    Mapping a page adds its bytes or replaces them; a store changes one byte.

    The page tables implement this: each page of the image has a frame of its
    own, which holds no table and is not free.  [kernel/arch/x86_64/paging.cpp]
    is modelled in [Paging]; nothing here is new code of the kernel. *)

From S2P Require Import Prelude Pfa Paging Bytes UserMem.

Module Image.
Import Pfa Paging Bytes UserMem.

Class PageMapper (W : Type) := {
  alloc_frame : W → outcome (Z * W);
  map_page : Z → Z → Z → W → outcome W
}.

(** A partial memory of bytes. *)
Definition memory : Type := Z → option Z.
Definition fill (a : Z) (bs : list Z) (m : memory) : memory := λ u,
  if decide (a ≤ u < a + len bs) then bs !! Z.to_nat (u - a) else m u.

Class ImageLaws (W : Type) `{!UserSpace W, !PageMapper W} := {
  holds : W → memory → nat → Prop;
  holds_ext w m m' k : holds w m k → (∀ u, m' u = m u) → holds w m' k;
  page_law w m k page flags : holds w m k → page mod 4096 = 0 → 0 ≤ page → page + 4096 ≤ 2 ^ 47 →
    0 ≤ flags < 4096 → (5 ≤ k)%nat →
    ∃ g w1 w2 bs k', alloc_frame w = Ok (g, w1) ∧ g ≠ 0 ∧ map_page page g flags w1 = Ok w2 ∧
      length bs = 4096%nat ∧ holds w2 (fill page bs m) k' ∧ (k ≤ k' + 4)%nat;
  no_frame_law w m : holds w m 0 → alloc_frame w = Ok (0, w);
  poke_law w m k u b : holds w m k → is_Some (m u) → byte b →
    ∃ w', store_user u b w = Ok w' ∧ holds w' (fill u [b] m) k;
  peek_law w m k u b : holds w m k → m u = Some b → load_user u w = Ok b;
  holds_user w m k u : holds w m k → is_Some (m u) → 0 ≤ u < 2 ^ 47;
  holds_byte w m k u b : holds w m k → m u = Some b → byte b
}.

(** ** Copying into and out of the image *)

Section copying.
Context {W : Type} `{!UserSpace W}.

Fixpoint store_all (bs : list Z) (a : Z) (w : W) : outcome W :=
  match bs with [] => Ok w | b :: bs' => w1 ← store_user a b w; store_all bs' (u64 (a + 1)) w1 end.
Fixpoint load_all (n : nat) (a : Z) (w : W) : outcome (list Z) :=
  match n with O => Ok [] | S n' => b ← load_user a w; bs ← load_all n' (u64 (a + 1)) w; Ok (b :: bs) end.

Definition load64 (a : Z) (w : W) : outcome Z := bs ← load_all 8 a w; Ok (of_le bs).
Definition store64 (a v : Z) (w : W) : outcome W := store_all (le 8 v) a w.
End copying.

Lemma fill_in a bs m u : a ≤ u < a + len bs → fill a bs m u = bs !! Z.to_nat (u - a).
Proof. intros. unfold fill. by rewrite decide_True. Qed.

Lemma fill_out a bs m u : ¬ a ≤ u < a + len bs → fill a bs m u = m u.
Proof. intros. unfold fill. by rewrite decide_False. Qed.

Lemma fill_some a bs m u : a ≤ u < a + len bs → is_Some (fill a bs m u).
Proof. intros. rewrite fill_in by done. apply lookup_lt_is_Some. unfold len in *. lia. Qed.

Lemma fill_mono a bs m u : is_Some (m u) → is_Some (fill a bs m u).
Proof.
  intros. destruct (decide (a ≤ u < a + len bs)); [by apply fill_some|by rewrite fill_out].
Qed.

Lemma fill_cons a b bs m u : fill (a + 1) bs (fill a [b] m) u = fill a (b :: bs) m u.
Proof.
  unfold fill, len. cbn [length]. case_decide as H1; case_decide as H2; try lia.
  - replace (Z.to_nat (u - a)) with (S (Z.to_nat (u - (a + 1)))) by lia. done.
  - case_decide; [|lia]. replace u with a by lia. by rewrite Z.sub_diag.
  - case_decide; [lia|done].
Qed.

Section copying_laws.
Context {W : Type} `{!UserSpace W, !PageMapper W, !ImageLaws W}.
Implicit Types (w : W) (m : memory).

Lemma store_all_spec bs : ∀ a w m k, holds w m k → Forall byte bs → (∀ u, a ≤ u < a + len bs → is_Some (m u)) →
  ∃ w', store_all bs a w = Ok w' ∧ holds w' (fill a bs m) k.
Proof.
  induction bs as [|b bs IH]; intros a w m k Hw Hb Hm; cbn [store_all].
  { exists w. split; [done|]. apply (holds_ext _ _ _ _ Hw). intros u. apply fill_out. unfold len. cbn. lia. }
  apply Forall_cons in Hb as [Hb Hbs]. unfold len in Hm. cbn [length] in Hm.
  destruct (poke_law w m k a b Hw) as (w1 & -> & Hw1); [apply Hm; lia|done|]. run.
  pose proof (holds_user w m k a Hw ltac:(apply Hm; lia)) as Ha.
  rewrite wrap_small by lia. destruct (IH (a + 1) w1 (fill a [b] m) k Hw1 Hbs) as (w2 & -> & Hw2).
  { intros u Hu. apply fill_mono, Hm. unfold len in Hu. lia. }
  exists w2. split; [done|]. apply (holds_ext _ _ _ _ Hw2). intros u. by rewrite fill_cons.
Qed.

Lemma load_all_spec n : ∀ a w m k bs, holds w m k → length bs = n →
  (∀ i b, bs !! i = Some b → m (a + Z.of_nat i) = Some b) → load_all n a w = Ok bs.
Proof.
  induction n as [|n IH]; intros a w m k [|b bs] Hw Hn Hm; try done.
  cbn [load_all]. pose proof (Hm O b eq_refl) as H0. rewrite Z.add_0_r in H0.
  rewrite (peek_law w m k a b Hw H0). run. pose proof (holds_user w m k a Hw ltac:(by eexists)).
  rewrite wrap_small by lia. rewrite (IH (a + 1) w m k bs Hw); [done|cbn in Hn; lia|].
  intros i b' Hi. rewrite <- (Hm (S i) b' Hi). f_equal. lia.
Qed.
End copying_laws.

(** ** The page tables *)

#[export] Instance paging_mapper : PageMapper paging := {|
  alloc_frame := pfa_alloc_frame; map_page va phys flags := paging_map_page va phys flags |}.

(** The pages [O] of the image have frames of their own. *)
Record owned (st : paging) (T : gmap Z (list Z)) (O : gmap Z Z) : Prop := {
  ow_range : ∀ n f, O !! n = Some f → 0 ≤ n < 2 ^ 35;
  ow_walk : ∀ n f, O !! n = Some f → walk_st st (n * 4096) = Some f;
  ow_foreign : ∀ n f, O !! n = Some f → foreign st T f;
  ow_inj : ∀ n n' f, O !! n = Some f → O !! n' = Some f → n = n'
}.

Definition image_bytes (st : paging) (O : gmap Z Z) : memory := λ u,
  f ← O !! (u / 4096); Some (byte_at (pg_mem st) (f + u mod 4096)).

Definition paging_holds (st : paging) (m : memory) (k : nat) : Prop := ∃ T O,
  paging_wf st T ∧ owned st T O ∧ (∀ u, m u = image_bytes st O u) ∧ k = length (free_frames (pg_pfa st)).

Lemma owned_access st T O u f : owned st T O → O !! (u / 4096) = Some f →
  0 ≤ u < 2 ^ 47 ∧ canonical u ∧ walk_st st u = Some f ∧ access u st = Ok (f + u mod 4096).
Proof.
  intros HO Hf. pose proof (ow_range _ _ _ HO _ _ Hf). assert (Hu : 0 ≤ u < 2 ^ 47) by zdm.
  assert (Hc : canonical u) by (left; lia).
  assert (Hw : walk_st st u = Some f).
  { rewrite <- (ow_walk _ _ _ HO _ _ Hf). apply walk_page_same_page. zdm. }
  split_and!; try done; try lia. by apply access_ok.
Qed.

(** Bytes of a frame depend on its words. *)
Lemma byte_at_words m m' f o : f mod 4096 = 0 → 0 ≤ o < 4096 →
  (∀ i, is_idx i → rd m' (f + 8 * i) = rd m (f + 8 * i)) → byte_at m' (f + o) = byte_at m (f + o).
Proof.
  intros Hf Ho H. unfold byte_at. replace (word_of (f + o)) with (f + 8 * (o / 8)) by (unfold word_of; zdm).
  rewrite H; [done|]. unfold is_idx. zdm.
Qed.

Lemma owned_page st T O n f st' T' :
  owned st T O → foreign st' T' f → 0 ≤ n < 2 ^ 35 → (∀ n' f', O !! n' = Some f' → f' ≠ f) →
  (∀ va, walk_st st' va = if decide (path4 va = path4 (n * 4096)) then Some f else walk_st st va) →
  (∀ f', foreign st T f' → foreign st' T' f') → owned st' T' (<[n := f]> O).
Proof.
  intros HO Hf Hn Hne Hw Hfor. constructor.
  - intros n' f' [[<- <-]|[_ H]]%lookup_insert_Some; [done|by apply (ow_range _ _ _ HO n' f')].
  - intros n' f' [[<- <-]|[Hd H]]%lookup_insert_Some; rewrite Hw; [by rewrite decide_True|].
    rewrite decide_False; [by apply (ow_walk _ _ _ HO)|]. intros E. apply path4_inj in E.
    pose proof (ow_range _ _ _ HO n' f' H). zdm.
  - intros n' f' [[<- <-]|[_ H]]%lookup_insert_Some; [done|by apply Hfor, (ow_foreign _ _ _ HO n')].
  - intros n1 n2 f' [[<- <-]|[_ H1]]%lookup_insert_Some [[<- E]|[_ H2]]%lookup_insert_Some; try done.
    + by destruct (Hne n2 f).
    + subst. exfalso. apply (Hne n1 f' H1 eq_refl).
    + by apply (ow_inj _ _ _ HO n1 n2 f').
Qed.

Lemma paging_page_law st m k page flags : paging_holds st m k → page mod 4096 = 0 → 0 ≤ page → page + 4096 ≤ 2 ^ 47 →
  0 ≤ flags < 4096 → (5 ≤ k)%nat →
  ∃ g w1 w2 bs k', pfa_alloc_frame st = Ok (g, w1) ∧ g ≠ 0 ∧ paging_map_page page g flags w1 = Ok w2 ∧
    length bs = 4096%nat ∧ paging_holds w2 (fill page bs m) k' ∧ (k ≤ k' + 4)%nat.
Proof.
  intros (T & O & Hwf & HO & Hm & ->) Ha H0 Hend Hfl Hk. pose proof (pfa_alloc_frame_spec st T Hwf) as Halloc.
  destruct (free_frames (pg_pfa st)) as [|g l] eqn:Efree; [cbn in Hk; lia|]. cbn [length] in Hk.
  destruct Halloc as (s1 & E1 & Hwf1 & Hsp1 & _ & Hl & Hg & HTg & _ & Hz & Hother).
  pose proof (free_frames_NoDup (pg_pfa st)) as Hnd. rewrite Efree in Hnd. apply NoDup_cons in Hnd as [Hnd _].
  destruct (map_page_foreign s1 T page (g * 4096) flags Hwf1) as (s2 & T2 & E2 & Hwf2 & _ & Hlen & Hw2 & Hfor2);
    [lia|done|apply (user_not_direct _ _ _ Hwf1); lia|rewrite Hl; lia|].
  assert (Hfor1 : ∀ f, foreign st T f → foreign s1 T f).
  { intros f (? & ? & Hf). split_and!; [done..|]. rewrite Hl. intros ?. apply Hf. rewrite Efree. by right. }
  assert (Hg1 : foreign s1 T (g * 4096)).
  { split_and!; [by rewrite Z.mod_mul|done|]. by rewrite Hl, Z.div_mul. }
  assert (Hne : ∀ n' f', O !! n' = Some f' → f' ≠ g * 4096).
  { intros n' f' Hn' ->. destruct (ow_foreign _ _ _ HO _ _ Hn') as (_ & _ & Hin). apply Hin.
    rewrite Efree, Z.div_mul by lia. by left. }
  assert (Hpage : page = page / 4096 * 4096) by zdm.
  assert (HO2 : owned s2 T2 (<[page / 4096 := g * 4096]> O)).
  { apply (owned_page st T O (page / 4096) (g * 4096) s2 T2 HO); [by apply Hfor2|zdm|done| |].
    - intros va. rewrite Hw2, <- Hpage, Z.mod_mul, Z.sub_0_r by lia. case_decide; [done|apply Hsp1].
    - intros f' Hf'. by apply Hfor2, Hfor1. }
  exists (g * 4096), s1, s2, (map (λ o, byte_at (pg_mem s2) (g * 4096 + o)) (seqZ 0 4096)), (length (free_frames (pg_pfa s2))).
  rewrite length_map, length_seqZ. split_and!; [done|lia|done|done| |cbn [length]; rewrite Hl in Hlen; lia].
  exists T2, (<[page / 4096 := g * 4096]> O). split_and!; [done|done| |done].
  intros u. unfold fill, image_bytes, len. rewrite length_map, length_seqZ. case_decide as Hu.
  - replace (u / 4096) with (page / 4096) by zdm. rewrite lookup_insert_eq. cbn [mbind option_bind].
    rewrite list_lookup_fmap, lookup_seqZ_lt by lia. cbn. do 3 f_equal. zdm.
  - rewrite Hm. unfold image_bytes. rewrite lookup_insert_ne by zdm.
    destruct (O !! (u / 4096)) as [f|] eqn:Ef; [|done]. cbn. f_equal. symmetry.
    pose proof (ow_foreign _ _ _ HO _ _ Ef) as Hf. apply byte_at_words; [apply Hf|zdm|].
    intros i Hi. rewrite (proj2 (Hfor2 f (Hfor1 f Hf)) i Hi). apply Hother. intros j Hj E.
    apply slot_inj in E as [E _]; try done; [by apply (Hne _ f Ef)|apply Hf|by rewrite Z.mod_mul].
Qed.

Lemma paging_poke_law st m k u b : paging_holds st m k → is_Some (m u) → byte b →
  ∃ st', store_byte u b st = Ok st' ∧ paging_holds st' (fill u [b] m) k.
Proof.
  intros (T & O & Hwf & HO & Hm & ->) Hu Hb. rewrite Hm in Hu. unfold image_bytes in Hu.
  destruct (O !! (u / 4096)) as [f|] eqn:Ef; [|by destruct Hu]. clear Hu.
  destruct (owned_access st T O u f HO Ef) as (Hu & Hc & Hw & Hacc).
  destruct (ow_foreign _ _ _ HO _ _ Ef) as (Hfa & HTf & Hff).
  destruct (store_user_page st T u f b Hwf Hw HTf Hfa) as (Hwf' & Hw' & _).
  unfold store_byte. rewrite Hacc. run. eexists. split; [reflexivity|].
  exists T, O. split_and!; [done| |intros x|done].
  - constructor; try apply HO. intros n g Hn. rewrite Hw'. by apply (ow_walk _ _ _ HO).
  - unfold fill, len. cbn [length]. rewrite Hm. unfold image_bytes. cbn [pg_mem set_mem]. case_decide as Hx.
    + replace x with u by lia. rewrite Ef, Z.sub_diag. cbn. by rewrite byte_at_put, decide_True.
    + destruct (O !! (x / 4096)) as [g|] eqn:Eg; [|done]. cbn. f_equal. rewrite byte_at_put, decide_False; [done| |done].
      intros E. destruct (ow_foreign _ _ _ HO _ _ Eg) as (Hga & _). assert (g = f) as -> by zdm.
      pose proof (ow_inj _ _ _ HO _ _ _ Ef Eg). zdm.
Qed.

#[export] Program Instance paging_image_laws : ImageLaws paging := {| holds := paging_holds |}.
Next Obligation.
  intros st m m' k (T & O & Hwf & HO & Hm & ->) He. exists T, O. split_and!; [done..| |done]. intros u. by rewrite He.
Qed.
Next Obligation. exact paging_page_law. Qed.
Next Obligation.
  intros st m (T & O & Hwf & _ & _ & Hk). pose proof (pfa_alloc_frame_spec st T Hwf) as H.
  by destruct (free_frames (pg_pfa st)).
Qed.
Next Obligation. exact paging_poke_law. Qed.
Next Obligation.
  intros st m k u b (T & O & Hwf & HO & Hm & ->) Hu. rewrite Hm in Hu. unfold image_bytes in Hu.
  destruct (O !! (u / 4096)) as [f|] eqn:Ef; [|done]. cbn in Hu. injection Hu as <-.
  destruct (owned_access st T O u f HO Ef) as (_ & _ & _ & Hacc).
  change (load_byte u st = Ok (byte_at (pg_mem st) (f + u mod 4096))). unfold load_byte. by rewrite Hacc.
Qed.
Next Obligation.
  intros st m k u (T & O & Hwf & HO & Hm & ->) Hu. rewrite Hm in Hu. unfold image_bytes in Hu.
  destruct (O !! (u / 4096)) as [f|] eqn:Ef; [|by destruct Hu]. by destruct (owned_access st T O u f HO Ef).
Qed.
Next Obligation.
  intros st m k u b (T & O & Hwf & HO & Hm & ->) Hu. rewrite Hm in Hu. unfold image_bytes in Hu.
  destruct (O !! (u / 4096)) as [f|] eqn:Ef; [|done]. cbn in Hu. injection Hu as <-. apply byte_at_range.
Qed.

(** The empty image. *)
Lemma paging_holds_empty st T : paging_wf st T → paging_holds st (λ _, None) (length (free_frames (pg_pfa st))).
Proof.
  intros Hwf. exists T, ∅. split_and!; [done| |done|done]. by constructor; intros ? ?; rewrite lookup_empty.
Qed.
End Image.
