(* ===== verification/Sbrk.v ===== *)
(** * The break of a process (kernel/syscalls/sys_mem.cpp)

    [sys_sbrk] maps the pages between the old and the new break with the user
    bit.  The first part shows that [paging_map_page] with this bit makes a page
    accessible to the user: the bit is set at every level of the walk.

    The new break is computed modulo 2^64 and not compared with the bounds of
    user space: a process can move its break into the kernel and have the pages
    of the kernel mapped for itself. *)

From S2P Require Import Prelude Pfa Paging Bytes UserMem.

Module Sbrk.
Import Pfa Paging UserMem.

(** ** The code *)

(** A page of the loop; [inr] is the early [return -1]. *)
Definition sbrk_user_page (addr : Z) (st : paging) : outcome (paging + paging) :=
  ok ← paging_is_user_accessible addr st;
  if (ok : bool) then Ok (inl st) else
  '(frame, st1) ← paging_get_physical_address addr st;
  '(frame, st2) ← (if frame =? 0 then pfa_alloc_frame st1 else Ok (frame, st1));
  if frame =? 0 then Ok (inr st2) else
  st3 ← paging_map_page addr frame (Z.lor (Z.lor PTE_PRESENT PTE_RW) PTE_USER) st2;
  Ok (inl st3).

Definition round_down (a : Z) : Z := mask_low a 0xFFF.

(** The result, the new break and the page tables; [is_user] is false for a kernel thread. *)
Definition sys_sbrk (increment : Z) (is_user : bool) (user_heap_break : Z) (st : paging) : outcome (Z * Z * paging) :=
  if negb is_user then Ok (2 ^ 64 - 1, user_heap_break, st) else
  let old_break := user_heap_break in
  if increment =? 0 then Ok (old_break, user_heap_break, st) else
  let new_break := u64 (old_break + increment) in
  let start_page := round_down old_break in
  let end_page := round_down (u64 (new_break + 4095)) in
  r ← for_return (λ i st, sbrk_user_page (start_page + i * 4096) st) (Z.to_nat ((end_page - start_page) / 4096)) 0 st;
  match r with
  | inr st' => Ok (2 ^ 64 - 1, user_heap_break, st')
  | inl st' => Ok (old_break, new_break, st')
  end.

(** ** The user bit at every level *)

Lemma flag_user e : flag e PTE_USER = Z.testbit e 2.
Proof. apply (bit_test_spec e 2). lia. Qed.

(** Entries as good as before. *)
Definition entry_le (e e' : Z) : Prop := entry_sim e e' ∧ (flag e PTE_USER = true → flag e' PTE_USER = true).

Lemma entry_le_refl e : entry_le e e.
Proof. by repeat split. Qed.

Lemma entry_le_lor e b : b = PTE_USER ∨ b = PTE_RW → entry_le e (Z.lor e b).
Proof.
  intros Hb. split; [by apply entry_sim_lor|]. rewrite !flag_user, Z.lor_spec. by intros ->.
Qed.

Lemma user_path_mono m m' t idxs : (∀ a, entry_le (rd m a) (rd m' a)) → user_path m t idxs = true → user_path m' t idxs = true.
Proof.
  intros Hle. revert t. induction idxs as [|i idxs IH]; intros t; cbn [user_path]; [done|].
  destruct (Hle (t + 8 * i)) as ((E1 & _ & E3 & _) & Hu). rewrite <- E1, <- E3.
  intros [[-> H2]%andb_prop H3]%andb_prop. rewrite (Hu H2). cbn [andb]. auto.
Qed.

(** Filling an absent entry is not on any path of present entries. *)
Lemma user_path_fill m a v t idxs : flag (rd m a) PTE_PRESENT = false →
  user_path m t idxs = true → user_path (<[a := v]> m) t idxs = true.
Proof.
  intros Ha. revert t. induction idxs as [|i idxs IH]; intros t; cbn [user_path]; [done|].
  intros [[H1 H2]%andb_prop H3]%andb_prop. rewrite rd_insert_ne by (intros ->; congruence).
  rewrite H1, H2. cbn [andb]. auto.
Qed.

(** A slot of a deeper table is not on the path. *)
Lemma user_path_deeper m root T f0 p0 i0 v idxs f p : tables_wf m root T →
  T !! f0 = Some p0 → is_idx i0 → T !! f = Some p → Forall is_idx idxs → (length p + length idxs ≤ length p0)%nat →
  user_path m f idxs = true → user_path (<[f0 + 8 * i0 := v]> m) f idxs = true.
Proof.
  intros Hwf Hf0 Hi0. revert f p. induction idxs as [|i idxs IH]; intros f p Hf Hi Hlen; cbn [user_path length] in *; [done|].
  apply Forall_cons in Hi as [Hi Hi']. destruct (tw_frame _ _ _ Hwf _ _ Hf0) as (Ha0 & _ & Hl0).
  destruct (tw_frame _ _ _ Hwf _ _ Hf) as (Ha & _). rewrite rd_insert_ne.
  2:{ intros E. apply slot_inj in E as [-> ->]; try done. assert (p = p0) as -> by congruence. lia. }
  intros [[H1 H2]%andb_prop H3]%andb_prop. rewrite H1, H2. cbn [andb].
  destruct idxs as [|j idxs]; [done|]. cbn [length] in Hlen.
  destruct (tw_child _ _ _ Hwf f p i Hf) as (_ & _ & HT); [lia|done..|].
  apply (IH _ (p ++ [i])); [done|done| |done]. rewrite length_app. cbn [length]. lia.
Qed.

Lemma walk_fill m a v t idxs x : flag (rd m a) PTE_PRESENT = false →
  walk_tables m t idxs = Some x → walk_tables (<[a := v]> m) t idxs = Some x.
Proof.
  intros Ha. revert t. induction idxs as [|i idxs IH]; intros t; cbn [walk_tables]; [done|].
  destruct (flag (rd m (t + 8 * i)) PTE_PRESENT) eqn:E; [|done]. intros H.
  rewrite rd_insert_ne by (intros ->; congruence). rewrite E. auto.
Qed.

Section level_user.
Context (st : paging) (T : gmap Z (list Z)) (f0 : Z) (p0 : list Z) (i0 flags : Z).
Hypothesis Hwf : paging_wf st T.
Hypothesis Hidx : Forall is_idx (p0 ++ [i0]).
Hypothesis Hlen : (length p0 < 3)%nat.
Hypothesis Hwalk : walk_tables (pg_mem st) (root_of (cr3 st)) p0 = Some f0.
Hypothesis Huser : flag flags PTE_USER = true.
Let slot := f0 + 8 * i0.

Lemma level_present_user r s : flag (rd (pg_mem st) slot) PTE_PRESENT = true →
  get_pte_level true flags (phys_to_virt f0) i0 st = Ok (r, s) →
  cr3 s = cr3 st ∧ walk_tables (pg_mem s) (root_of (cr3 s)) p0 = Some f0 ∧
  (∀ a, entry_le (rd (pg_mem st) a) (rd (pg_mem s) a)) ∧ flag (rd (pg_mem s) slot) PTE_USER = true.
Proof.
  intros Hp. unfold get_pte_level. cbv zeta. rewrite (level_load st T f0 p0 i0) by done. run.
  fold slot. rewrite Hp, Huser. cbn [negb].
  rewrite (level_store st T f0 p0 i0) by done. run. fold slot. set (e := rd (pg_mem st) slot).
  set (s1 := set_mem (<[slot := Z.lor e PTE_USER]> (pg_mem st)) st).
  destruct (level_set_flag st T f0 p0 i0 Hwf Hidx Hlen Hwalk PTE_USER) as (Hext & Hw1 & _); [by left|].
  fold slot e s1 in Hext, Hw1. pose proof (ext_wf _ _ _ _ _ Hext) as Hwf1.
  assert (H1 : (∀ a, entry_le (rd (pg_mem st) a) (rd (pg_mem s1) a)) ∧ flag (rd (pg_mem s1) slot) PTE_USER = true).
  { cbn [s1 pg_mem set_mem]. split.
    - intros a. destruct (decide (a = slot)) as [->|Hne]; [rewrite rd_insert_eq; apply entry_le_lor; by left|].
      rewrite rd_insert_ne by done. apply entry_le_refl.
    - rewrite rd_insert_eq, flag_user, Z.lor_spec. apply orb_true_r. }
  destruct H1 as [Hle1 Hu1]. destruct (flag flags PTE_RW).
  - rewrite (level_load s1 T f0 p0 i0) by done. run. rewrite (level_store s1 T f0 p0 i0) by done. run. fold slot.
    set (s2 := set_mem _ s1). destruct (level_set_flag s1 T f0 p0 i0 Hwf1 Hidx Hlen Hw1 PTE_RW) as (Hext2 & Hw2 & _); [by right|].
    fold slot in Hext2, Hw2. fold s2 in Hext2, Hw2. pose proof (ext_wf _ _ _ _ _ Hext2) as Hwf2.
    rewrite (level_load s2 T f0 p0 i0) by done. run. intros [= <- <-].
    split; [done|]. split; [done|]. cbn [s2 pg_mem set_mem]. split.
    + intros a. destruct (decide (a = slot)) as [->|Hne].
      * rewrite rd_insert_eq. destruct (Hle1 slot) as [Hs Hf]. destruct (entry_le_lor (rd (pg_mem s1) slot) PTE_RW) as [Hs' Hf']; [by right|].
        split; [|by intros; apply Hf', Hf]. destruct Hs as (? & ? & ? & ?), Hs' as (? & ? & ? & ?). repeat split; congruence.
      * rewrite rd_insert_ne by done. apply Hle1.
    + rewrite rd_insert_eq. by apply (entry_le_lor _ PTE_RW); [right|].
  - run. rewrite (level_load s1 T f0 p0 i0) by done. run. intros [= <- <-]. by split_and!.
Qed.
Lemma level_absent_user tv s : flag (rd (pg_mem st) slot) PTE_PRESENT = false →
  get_pte_level true flags (phys_to_virt f0) i0 st = Ok (Some tv, s) →
  cr3 s = cr3 st ∧ walk_tables (pg_mem s) (root_of (cr3 s)) p0 = Some f0 ∧
  (∀ idxs, Forall is_idx idxs → (length idxs ≤ 4)%nat →
     user_path (pg_mem st) (root_of (cr3 st)) idxs = true → user_path (pg_mem s) (root_of (cr3 s)) idxs = true) ∧
  flag (rd (pg_mem s) slot) PTE_USER = true.
Proof.
  intros Hp. unfold get_pte_level. cbv zeta. rewrite (level_load st T f0 p0 i0) by done. run.
  fold slot. rewrite Hp. cbn [negb]. pose proof (pfa_alloc_frame_spec st T Hwf) as Halloc.
  destruct (free_frames (pg_pfa st)) as [|g l] eqn:Efree; [by rewrite Halloc; run|].
  destruct Halloc as (s1 & -> & Hwf1 & Hsp1 & _ & _ & Hg & HTg & _ & _ & Hother). run.
  rewrite (proj2 (Z.eqb_neq _ 0)) by lia.
  assert (Hgm : g * 4096 mod 4096 = 0) by by rewrite Z.mod_mul.
  assert (Hcr : cr3 s1 = cr3 st) by apply Hsp1.
  destruct (fresh_frame_other st T f0 p0 i0 Hwf Hidx Hlen Hwalk s1 (g * 4096) HTg Hgm Hother Hcr) as [Hrd1 Hwalk1].
  rewrite (level_store s1 T f0 p0 i0) by done. run. fold slot. intros H. inv_ok H.
  injection H as _ <-. cbn [pg_mem cr3 set_mem]. split_and!; [done| | |].
  - apply walk_fill; [by fold slot in Hrd1; rewrite Hrd1|done].
  - intros idxs Hi Hl Hu. apply user_path_fill; [by fold slot in Hrd1; rewrite Hrd1|].
    rewrite Hcr, <- Hu. apply (user_path_agree _ T (root_of (cr3 st)) _ _ _ [] (pw_tables _ _ Hwf)); [|apply Hwf|done|done].
    intros f p i Hf Hii. apply Hother. intros j Hj E'.
    destruct (tw_frame _ _ _ (pw_tables _ _ Hwf) _ _ Hf) as [Ha _]. apply slot_inj in E' as [-> _]; try done. congruence.
  - rewrite rd_insert_eq, flag_user, !Z.lor_spec, Z.land_spec. rewrite flag_user in Huser. rewrite Huser.
    change (Z.testbit PTE_USER 2) with true. by rewrite !orb_true_r.
Qed.

Lemma level_user tv s :
  get_pte_level true flags (phys_to_virt f0) i0 st = Ok (Some tv, s) →
  cr3 s = cr3 st ∧ walk_tables (pg_mem s) (root_of (cr3 s)) p0 = Some f0 ∧
  (∀ idxs, Forall is_idx idxs → (length idxs ≤ 4)%nat →
     user_path (pg_mem st) (root_of (cr3 st)) idxs = true → user_path (pg_mem s) (root_of (cr3 s)) idxs = true) ∧
  flag (rd (pg_mem s) slot) PTE_USER = true.
Proof.
  intros E. destruct (flag (rd (pg_mem st) slot) PTE_PRESENT) eqn:Ep; [|by apply (level_absent_user tv)].
  destruct (level_present_user _ _ Ep E) as (Hcr & Hw & Hle & Hu). split_and!; [done|done| |done].
  intros idxs _ _ H. rewrite Hcr. by eapply user_path_mono.
Qed.
End level_user.

Lemma loop_user flags idxs : ∀ st T f0 p0 tv s,
  paging_wf st T → Forall is_idx (p0 ++ idxs) → (length p0 + length idxs ≤ 3)%nat →
  walk_tables (pg_mem st) (root_of (cr3 st)) p0 = Some f0 → flag flags PTE_USER = true →
  user_path (pg_mem st) (root_of (cr3 st)) p0 = true →
  get_pte_loop true flags idxs (phys_to_virt f0) st = Ok (Some tv, s) →
  cr3 s = cr3 st ∧ user_path (pg_mem s) (root_of (cr3 s)) (p0 ++ idxs) = true ∧
  (∀ l, Forall is_idx l → (length l ≤ 4)%nat →
     user_path (pg_mem st) (root_of (cr3 st)) l = true → user_path (pg_mem s) (root_of (cr3 s)) l = true).
Proof.
  induction idxs as [|i idxs IH]; intros st T f0 p0 tv s Hwf Hidx Hlen Hw Hu Hp; cbn [get_pte_loop length] in *.
  { intros [= <- <-]. rewrite app_nil_r. by split_and!. }
  rewrite (cons_middle i), app_assoc in Hidx. assert (Hi : Forall is_idx (p0 ++ [i])) by by apply Forall_app in Hidx as [? _].
  destruct (get_pte_level_create st T f0 p0 i flags Hwf Hi) as (r & s1 & T1 & E1 & Hext & Hr); [lia|done|].
  rewrite E1. run. destruct r as [tv1|]; [|done]. destruct Hr as (f1 & -> & Hw1). intros E2.
  destruct (level_user st T f0 p0 i flags Hwf Hi ltac:(lia) Hw Hu _ _ E1) as (Hcr1 & Hw0 & Hk1 & Hf1).
  assert (Hp1 : user_path (pg_mem s1) (root_of (cr3 s1)) (p0 ++ [i]) = true).
  { rewrite walk_tables_app, Hw0 in Hw1.
    rewrite (user_path_app _ _ _ _ _ Hw0), (Hk1 p0) by (done || lia || by apply Forall_app in Hi as [? _]).
    cbn in Hw1 |- *. destruct (flag (rd (pg_mem s1) (f0 + 8 * i)) PTE_PRESENT); [|done]. by rewrite Hf1. }
  destruct (IH s1 T1 f1 (p0 ++ [i]) tv s (ext_wf _ _ _ _ _ Hext)) as (Hcr2 & Hp2 & Hk2);
    [done|rewrite length_app; cbn; lia|done|done|done|done|].
  rewrite <- app_assoc in Hp2. split_and!; [congruence|done|auto].
Qed.

(** Storing a user entry in a leaf keeps what users could access. *)
Lemma store_leaf_user st T va t v :
  paging_wf st T → walk_tables (pg_mem st) (root_of (cr3 st)) (path3 va) = Some t →
  flag v PTE_PRESENT = true → flag v PTE_USER = true →
  user_path (pg_mem st) (root_of (cr3 st)) (path3 va) = true →
  let m' := <[t + 8 * PT_IDX va := v]> (pg_mem st) in
  user_path m' (root_of (cr3 st)) (path4 va) = true ∧
  ∀ va', user_path (pg_mem st) (root_of (cr3 st)) (path4 va') = true →
    user_path m' (root_of (cr3 st)) (path4 va') = true.
Proof.
  intros Hwf Hw Hvp Hvu Hu m'. pose proof (pw_tables _ _ Hwf) as HT.
  destruct (leaf_table st T va t Hwf Hw) as (HTt & _ & _ & _ & Hi).
  assert (Hleaf : ∀ x, user_path (pg_mem st) (root_of (cr3 st)) (path3 x) = true →
    ∃ t', walk_tables m' (root_of (cr3 st)) (path3 x) = Some t' ∧
      walk_tables (pg_mem st) (root_of (cr3 st)) (path3 x) = Some t' ∧
      user_path m' (root_of (cr3 st)) (path3 x) = true).
  { intros x Hx. destruct (user_path_walk _ _ _ Hx) as [t' Ht'].
    assert (Hix : Forall is_idx (path3 x)).
    { pose proof (path4_idx x) as H. unfold path4 in H. by apply Forall_app in H as [? _]. }
    exists t'. split_and!; [|done|].
    - rewrite <- Ht'. apply (walk_tables_upd _ _ T HT t (path3 va) (PT_IDX va) v (path3 x) _ []); try done; [apply HT|unfold path3; cbn; lia|].
      intros l1 l2 E1 E2. apply (f_equal length) in E1. apply (f_equal length) in E2.
      rewrite length_app in E1. cbn in E1, E2. unfold path3 in E1, E2. cbn in E1, E2. lia.
    - apply (user_path_deeper _ (root_of (cr3 st)) T t (path3 va) (PT_IDX va) v (path3 x) _ [] HT); try done; [apply HT]. }
  assert (Hpath : ∀ x, user_path (pg_mem st) (root_of (cr3 st)) (path3 x) = true →
    (∀ t', walk_tables (pg_mem st) (root_of (cr3 st)) (path3 x) = Some t' →
       t' + 8 * PT_IDX x = t + 8 * PT_IDX va ∨ user_path (pg_mem st) t' [PT_IDX x] = true) →
    user_path m' (root_of (cr3 st)) (path4 x) = true).
  { intros x Hx Hl. destruct (Hleaf x Hx) as (t' & Hw' & Ht' & Hu'). unfold path4.
    rewrite (user_path_app _ _ _ _ _ Hw'), Hu'. cbn [andb user_path]. destruct (decide (t' + 8 * PT_IDX x = t + 8 * PT_IDX va)) as [->|Hne].
    - unfold m'. by rewrite rd_insert_eq, Hvp, Hvu.
    - destruct (Hl t' Ht') as [?|Hl']; [done|]. unfold m'. by rewrite rd_insert_ne. }
  split.
  - apply Hpath; [done|]. intros t' Ht'. left. congruence.
  - intros x Hx. unfold path4 in Hx. assert (Hx3 : user_path (pg_mem st) (root_of (cr3 st)) (path3 x) = true).
    { pose proof (user_path_walk _ _ _ Hx) as [y Hy]. rewrite walk_tables_app in Hy.
      destruct (walk_tables (pg_mem st) (root_of (cr3 st)) (path3 x)) as [t'|] eqn:E; [|done].
      rewrite (user_path_app _ _ _ _ _ E) in Hx. by apply andb_prop in Hx as [? _]. }
    apply Hpath; [done|]. intros t' Ht'. right. rewrite (user_path_app _ _ _ _ _ Ht') in Hx. by apply andb_prop in Hx as [_ ?].
Qed.

(** Mapping with the user bit makes the page accessible, and no page inaccessible. *)
Lemma map_page_user st T va phys flags :
  paging_wf st T → 0 ≤ phys < 2 ^ 52 → 0 ≤ flags < 4096 → flag flags PTE_USER = true →
  (3 < length (free_frames (pg_pfa st)))%nat →
  ∃ st', paging_map_page va phys flags st = Ok st' ∧ user_page st' va = true ∧
    ∀ va', user_page st va' = true → user_page st' va' = true.
Proof.
  intros Hwf Hp Hf Hu Hfree. unfold paging_map_page.
  destruct (get_pte_create st T va flags Hwf) as (r & s1 & T1 & E & Hext & Hr). rewrite E. run.
  destruct r as [pte|].
  2:{ destruct (ext_free _ _ _ _ _ Hext) as (k & Hk & Ed). rewrite Hr in Ed. apply (f_equal length) in Ed.
      rewrite length_drop in Ed. cbn in Ed. lia. }
  destruct Hr as (t & -> & Hw). pose proof (ext_wf _ _ _ _ _ Hext) as Hwf1.
  assert (Hloop : ∃ tv, get_pte_loop true flags (path3 va) (phys_to_virt (root_of (cr3 st))) st = Ok (Some tv, s1)).
  { unfold get_pte, get_current_pml4_virt in E. fold (root_of (cr3 st)) in E. unfold path3. inv_ok E.
    destruct r as [[tv|] s0]; [|done]. injection E as _ <-. exists tv. exact E0. }
  destruct Hloop as [tv Hloop].
  destruct (loop_user flags (path3 va) st T (root_of (cr3 st)) [] tv s1 Hwf) as (Hcr & Hu3 & Hk);
    [|unfold path3; cbn; lia|done|done|done|done|].
  { pose proof (path4_idx va) as Hi. unfold path4 in Hi. by apply Forall_app in Hi as [? _]. }
  destruct (map_entry_spec phys flags Hp Hf) as (V1 & _). set (v := Z.lor _ PTE_PRESENT) in *.
  destruct (store_leaf s1 T1 va t v Hwf1 Hw) as (-> & _). run.
  destruct (store_leaf_user s1 T1 va t v Hwf1 Hw V1) as [Hva Hothers]; [by unfold v; rewrite flag_user_entry|exact Hu3|].
  eexists. split; [reflexivity|]. split; [exact Hva|]. intros va' Hva'. apply Hothers.
  apply Hk; [apply path4_idx|done|exact Hva'].
Qed.

(** ** The loop *)

Lemma round_down_eq a : round_down a = a - a mod 4096.
Proof. apply mask_page_eq. Qed.

Definition USER_FLAGS : Z := Z.lor (Z.lor PTE_PRESENT PTE_RW) PTE_USER.

(** A page that is not mapped has no physical address. *)
Lemma get_physical_unmapped st T va : paging_wf st T → walk_st st va = None →
  paging_get_physical_address va st = Ok (0, st).
Proof.
  intros Hwf Hn. unfold paging_get_physical_address. rewrite (get_pte_lookup st T va Hwf). run.
  unfold walk_st in Hn. rewrite (walk_page_leaf st T va Hwf) in Hn.
  destruct (walk_tables (pg_mem st) (root_of (cr3 st)) (path3 va)) as [t|] eqn:Et; [|done].
  cbn in Hn |- *. destruct (leaf_table st T va t Hwf Et) as (HT & Ha & Hr & Hreach & Hi).
  rewrite direct_vload by done. run. by destruct (flag (rd (pg_mem st) (t + 8 * PT_IDX va)) PTE_PRESENT).
Qed.

(** What a step of the loop keeps. *)
Record grown (n : nat) (st : paging) (T : gmap Z (list Z)) (st' : paging) (T' : gmap Z (list Z)) : Prop := {
  gr_wf : paging_wf st' T';
  gr_direct : ∀ va, not_direct st T va → not_direct st' T' va;
  gr_free : (length (free_frames (pg_pfa st)) ≤ length (free_frames (pg_pfa st')) + 4 * n)%nat;
  gr_user : ∀ va, user_page st va = true → user_page st' va = true;
  gr_walk : ∀ va f, walk_st st va = Some f → walk_st st' va = Some f
}.

Lemma sbrk_grown_trans n1 n2 s1 T1 s2 T2 s3 T3 : grown n1 s1 T1 s2 T2 → grown n2 s2 T2 s3 T3 → grown (n1 + n2) s1 T1 s3 T3.
Proof. intros [] []. constructor; auto. lia. Qed.

Lemma sbrk_page_grows st T va :
  paging_wf st T → not_direct st T va → (4 < length (free_frames (pg_pfa st)))%nat →
  user_page st va = true ∨ walk_st st va = None →
  ∃ st' T', sbrk_user_page va st = Ok (inl st') ∧ grown 1 st T st' T' ∧ user_page st' va = true ∧
    ∀ va', path4 va' ≠ path4 va → walk_st st' va' = walk_st st va'.
Proof.
  intros Hwf Hnd Hfree Hcase. unfold sbrk_user_page. rewrite (is_user_accessible_spec st T va Hwf). run.
  fold (user_page st va). destruct (user_page st va) eqn:Eu.
  { exists st, T. split_and!; [done| |done|done]. constructor; auto; lia. }
  destruct Hcase as [?|Hn]; [done|]. rewrite (get_physical_unmapped st T va Hwf Hn). run. cbn [Z.eqb].
  pose proof (pfa_alloc_frame_spec st T Hwf) as Halloc.
  destruct (free_frames (pg_pfa st)) as [|g l] eqn:Efree; [cbn in Hfree; lia|]. cbn [length] in Hfree.
  destruct Halloc as (s1 & -> & Hwf1 & Hsp1 & _ & Hl & Hg & HTg & _ & Hz & Hother). run.
  rewrite (proj2 (Z.eqb_neq _ 0)) by lia.
  assert (Hw1 : ∀ x, walk_st s1 x = walk_st st x) by apply Hsp1.
  assert (Hnd1 : ∀ x, not_direct st T x → not_direct s1 T x).
  { intros x Hx f [HT|[Ha Hin]]; apply Hx; [by left|right]. split; [done|]. rewrite Efree. rewrite Hl in Hin. by right. }
  assert (Hu1 : ∀ x, user_page st x = true → user_page s1 x = true).
  { intros x Hx. rewrite <- Hx. destruct Hsp1 as (Hcr & _). unfold user_page. rewrite Hcr.
    apply (user_path_agree _ T (root_of (cr3 st)) _ _ _ [] (pw_tables _ _ Hwf)); [|apply Hwf|apply path4_idx|done].
    intros f p i Hf Hii. apply Hother. intros j Hj E'. destruct (tw_frame _ _ _ (pw_tables _ _ Hwf) _ _ Hf) as [Ha _].
    apply slot_inj in E' as [-> _]; try done; [congruence|zdm]. }
  destruct (map_page_user s1 T va (g * 4096) USER_FLAGS Hwf1) as (s2 & E2 & Hu2 & Hk2);
    [lia|done|reflexivity|rewrite Hl; lia|].
  destruct (map_page_spec s1 T va (g * 4096) USER_FLAGS Hwf1) as (s2' & E2' & _ & (k & Hk & Hd) & Hcase2); [lia|done|].
  rewrite E2 in E2'. injection E2' as <-. fold USER_FLAGS. rewrite E2. run.
  assert (Hlen2 : (length l ≤ length (free_frames (pg_pfa s2)) + 3)%nat) by (rewrite Hd, Hl, length_drop; lia).
  destruct Hcase2 as [(Hnil & _)|(_ & Hwalk & Hpres)]; [rewrite Hnil in Hlen2; cbn in Hlen2; lia|].
  destruct (Hpres (Hnd1 va Hnd)) as (T2 & Hwf2 & Hnd2 & _).
  assert (Hw2 : ∀ x, path4 x ≠ path4 va → walk_st s2 x = walk_st st x).
  { intros x Hx. by rewrite Hwalk, decide_False, Hw1. }
  exists s2, T2. split_and!; [done| |done|done]. constructor; auto.
  - rewrite Efree. cbn [length]. lia.
  - intros x f Hx. rewrite Hw2; [done|]. intros E. unfold walk_st in Hx, Hn.
    rewrite (walk_page_tables _ _ T (pw_tables _ _ Hwf)) in Hx, Hn. congruence.
Qed.

(** The pages from [start] on. *)
Lemma sbrk_loop_grows n : ∀ i st T start,
  paging_wf st T → start mod 4096 = 0 → 0 ≤ start → 0 ≤ i → start + (i + Z.of_nat n) * 4096 ≤ 2 ^ 47 →
  (4 * n + 1 ≤ length (free_frames (pg_pfa st)))%nat →
  (∀ j, i ≤ j < i + Z.of_nat n → user_page st (start + j * 4096) = true ∨ walk_st st (start + j * 4096) = None) →
  ∃ st' T', for_return (λ i st, sbrk_user_page (start + i * 4096) st) n i st = Ok (inl st') ∧ grown n st T st' T' ∧
    ∀ j, i ≤ j < i + Z.of_nat n → user_page st' (start + j * 4096) = true.
Proof.
  induction n as [|n IH]; intros i st T start Hwf Ha H0 Hi Hend Hfree Hcase; cbn [for_return].
  { exists st, T. split_and!; [done|constructor; auto; lia|lia]. }
  destruct (sbrk_page_grows st T (start + i * 4096) Hwf) as (s1 & T1 & -> & Hg1 & Hu1 & Hw1);
    [apply (user_not_direct _ _ _ Hwf); lia|lia|apply Hcase; lia|]. run.
  destruct (IH (i + 1) s1 T1 start) as (s2 & T2 & -> & Hg2 & Hu2); try done; try lia; [apply Hg1| | |].
  - pose proof (gr_free _ _ _ _ _ Hg1). lia.
  - intros j Hj. destruct (Hcase j) as [Hu|Hn]; [lia|left; by apply Hg1|right].
    rewrite Hw1; [done|]. intros E. apply path4_inj in E. zdm.
  - exists s2, T2. split_and!; [done|by apply (sbrk_grown_trans 1 n _ _ _ _ _ _ Hg1)|].
    intros j Hj. destruct (decide (j = i)) as [->|]; [by apply Hg2|apply Hu2; lia].
Qed.

(** ** Properties *)

Lemma user_page_same st va va' : va / 4096 = va' / 4096 → user_page st va = user_page st va'.
Proof. intros H. unfold user_page. by rewrite (path4_page va va'). Qed.

(** C29. Growing the break of a process inside user space, with four free frames per page
    and one to spare, succeeds: it answers the old break, every byte up to the
    new break can be accessed by the user, and whatever was mapped or accessible
    before still is, to the same frame. *)
Theorem sys_sbrk_grows st T old inc :
  paging_wf st T → 0 ≤ old → 0 < inc → old + inc + 4095 ≤ 2 ^ 47 →
  (4 * Z.to_nat (inc / 4096 + 2) + 1 ≤ length (free_frames (pg_pfa st)))%nat →
  (∀ va, round_down old ≤ va < old + inc → user_page st va = true ∨ walk_st st va = None) →
  ∃ st' T', sys_sbrk inc true old st = Ok (old, old + inc, st') ∧ paging_wf st' T' ∧
    (∀ va, old ≤ va < old + inc → user_page st' va = true) ∧
    (∀ va, user_page st va = true → user_page st' va = true) ∧
    (∀ va pa, translate (pg_mem st) (cr3 st) va = Some pa → translate (pg_mem st') (cr3 st') va = Some pa).
Proof.
  intros Hwf Hold Hinc Hend Hfree Hcase. unfold sys_sbrk. cbn [negb].
  rewrite (proj2 (Z.eqb_neq inc 0)), (wrap_small 64 (old + inc)), (wrap_small 64) by lia.
  rewrite !round_down_eq. rewrite round_down_eq in Hcase. set (start := old - old mod 4096).
  set (end_ := old + inc + 4095 - (old + inc + 4095) mod 4096).
  assert (Hs : start mod 4096 = 0 ∧ 0 ≤ start ≤ old ∧ old < start + 4096) by (unfold start; zdm).
  assert (He : end_ mod 4096 = 0 ∧ old + inc ≤ end_ ∧ end_ < old + inc + 4096 ∧ start ≤ end_) by (unfold start, end_; zdm).
  set (n := Z.to_nat ((end_ - start) / 4096)).
  assert (Hn : start + Z.of_nat n * 4096 = end_ ∧ (n ≤ Z.to_nat (inc / 4096 + 2))%nat).
  { unfold n. rewrite Z2Nat.id by zdm. split; [zdm|]. apply Z2Nat.inj_le; zdm. }
  destruct (sbrk_loop_grows n 0 st T start) as (st' & T' & -> & Hg & Hu); try done; try lia.
  { intros j Hj. apply Hcase. lia. }
  run. exists st', T'. split_and!; [done|apply Hg| |apply Hg|].
  - intros va Hva. rewrite (user_page_same _ _ (start + (va - start) / 4096 * 4096)) by zdm. apply Hu. zdm.
  - intros va pa. rewrite !translate_walk. intros Hx. destruct (walk_st st va) as [f|] eqn:Ef; [|done].
    by rewrite (gr_walk _ _ _ _ _ Hg va f Ef).
Qed.

(** The break is not confined to user space: with three calls that all succeed, the
    first two moving the break to the top of the address space and down to a
    page of the kernel without mapping anything, a process gets this page mapped
    for itself, readable and writable, at the frame the kernel uses. *)
Theorem sbrk_exposes_kernel st T brk va f :
  paging_wf st T → 0 ≤ brk < 2 ^ 47 → va mod 4096 = 0 → 2 ^ 64 - 2 ^ 47 ≤ va < 2 ^ 64 - 8192 →
  (3 < length (free_frames (pg_pfa st)))%nat → walk_st st va = Some f → 0 < f < 2 ^ 52 → f mod 4096 = 0 →
  user_page st va = false → paging_get_physical_address va st = Ok (f, st) →
  ∃ st', sys_sbrk (2 ^ 64 - 1 - brk) true brk st = Ok (brk, 2 ^ 64 - 1, st) ∧
    sys_sbrk (va + 1) true (2 ^ 64 - 1) st = Ok (2 ^ 64 - 1, va, st) ∧
    sys_sbrk 4096 true va st = Ok (va, va + 4096, st') ∧
    user_page st' va = true ∧ walk_st st' va = Some f.
Proof.
  intros Hwf Hb Ha Hva Hfree Hw Hf Hfa Hu Hphys.
  destruct (map_page_user st T va f USER_FLAGS Hwf) as (st' & E & Hu' & _); [lia|done|reflexivity|done|].
  destruct (map_page_spec st T va f USER_FLAGS Hwf) as (s2 & E2 & _ & (k & Hk & Hd) & Hcase); [lia|done|].
  rewrite E in E2. injection E2 as <-.
  destruct Hcase as [(Hnil & _)|(_ & Hwalk & _)].
  { rewrite Hnil in Hd. apply (f_equal length) in Hd. rewrite length_drop in Hd. cbn in Hd. lia. }
  exists st'. split_and!.
  - unfold sys_sbrk. cbn [negb]. rewrite (proj2 (Z.eqb_neq _ 0)) by lia.
    replace (u64 (brk + (2 ^ 64 - 1 - brk))) with (2 ^ 64 - 1) by (replace (brk + _) with (2 ^ 64 - 1) by lia; done).
    change (u64 (2 ^ 64 - 1 + 4095)) with 4094. rewrite !round_down_eq.
    assert (E0 : Z.to_nat ((4094 - 4094 mod 4096 - (brk - brk mod 4096)) / 4096) = O) by zdm. rewrite E0. done.
  - unfold sys_sbrk. cbn [negb]. rewrite (proj2 (Z.eqb_neq _ 0)) by lia.
    replace (u64 (2 ^ 64 - 1 + (va + 1))) with va by (unfold wrap; zdm). rewrite (wrap_small 64) by lia.
    rewrite !round_down_eq. assert (E0 : Z.to_nat ((va + 4095 - (va + 4095) mod 4096 - (2 ^ 64 - 1 - (2 ^ 64 - 1) mod 4096)) / 4096) = O).
    { change ((2 ^ 64 - 1) mod 4096) with 4095. zdm. }
    rewrite E0. done.
  - unfold sys_sbrk. cbn [negb]. rewrite (proj2 (Z.eqb_neq _ 0)), !(wrap_small 64) by lia. rewrite !round_down_eq.
    assert (E1 : Z.to_nat ((va + 4096 + 4095 - (va + 4096 + 4095) mod 4096 - (va - va mod 4096)) / 4096) = 1%nat) by zdm.
    rewrite E1. cbn [for_return]. rewrite Ha, Z.sub_0_r, Z.mul_0_l, Z.add_0_r.
    unfold sbrk_user_page. rewrite (is_user_accessible_spec st T va Hwf). fold (user_page st va). rewrite Hu. run.
    rewrite Hphys. run. rewrite (proj2 (Z.eqb_neq f 0)) by lia. run. rewrite (proj2 (Z.eqb_neq f 0)) by lia.
    fold USER_FLAGS. rewrite E. by run.
  - done.
  - rewrite Hwalk, decide_True, Hfa, Z.sub_0_r by done. done.
Qed.

Lemma sys_sbrk_grows_witness :
  ∃ st', sys_sbrk 100 true 0x600000 demo_paging = Ok (0x600000, 0x600064, st') ∧ user_page st' 0x600063 = true.
Proof.
  destruct (sys_sbrk_grows demo_paging demo_tables 0x600000 100) as (st' & T' & E & _ & Hu & _).
  - apply demo_paging_wf.
  - lia.
  - lia.
  - lia.
  - rewrite demo_free. vm_compute. lia.
  - intros va Hva. right. rewrite round_down_eq in Hva. unfold walk_st.
    rewrite (walk_page_same_page _ _ _ 0x600000); [vm_compute; reflexivity|]. zdm.
  - exists st'. split; [exact E|apply Hu; lia].
Defined.

Lemma sbrk_exposes_kernel_witness :
  ∃ st', sys_sbrk 4096 true 0xFFFFFFFF80001000 demo_paging = Ok (0xFFFFFFFF80001000, 0xFFFFFFFF80002000, st') ∧
    user_page st' 0xFFFFFFFF80001000 = true.
Proof.
  destruct (sbrk_exposes_kernel demo_paging demo_tables 0x600000 0xFFFFFFFF80001000 0x1000) as (st' & _ & _ & E & Hu & _).
  - apply demo_paging_wf.
  - lia.
  - reflexivity.
  - lia.
  - rewrite demo_free. vm_compute. lia.
  - vm_compute. reflexivity.
  - lia.
  - reflexivity.
  - vm_compute. reflexivity.
  - vm_compute. reflexivity.
  - exists st'. split; [exact E|exact Hu].
Defined.
End Sbrk.
