(* ===== verification/Syscall.v ===== *)
(** * System calls on files (kernel/syscalls/sys_file.cpp, sys_stat.cpp, syscalls.cpp)

    Each thread has 16 file descriptors: a node and an offset.  The system calls
    copy paths and data between user memory and a buffer of the kernel heap and
    call the virtual file system.  The node operations, the heap, user memory
    and the console are interfaces; [FileLaws] is what the proofs use of them: a
    file node has contents, and the four do not disturb each other. *)

From S2P Require Import Prelude Pfa Paging Heap Bytes Block Vfs UserMem.

Module Syscall.
Import Bytes Block Vfs UserMem.

(** [-1] and [-ENOSYS] as 64-bit results. *)
Definition FAIL : Z := 2 ^ 64 - 1.
Definition ENOSYS : Z := 38.
Definition O_CREAT : Z := 1.

(** The part of [thread_t] with the open files; a free descriptor has node 0. *)
Record process : Set := mk_process { fd_table : list Z; fd_offset : list Z }.
Definition process_ok (t : process) : Prop := length (fd_table t) = 16%nat ∧ length (fd_offset t) = 16%nat.

Definition set_offset (fd off : Z) (t : process) : process :=
  mk_process (fd_table t) (<[Z.to_nat fd := off]> (fd_offset t)).
Definition set_fd (fd node off : Z) (t : process) : process :=
  mk_process (<[Z.to_nat fd := node]> (fd_table t)) (<[Z.to_nat fd := off]> (fd_offset t)).

(** The node and the offset of an open descriptor, [None] for the check at the start of the calls. *)
Definition open_file (fd : Z) (t : process) : option (Z * Z) :=
  if 16 <=? fd then None else
  node ← fd_table t !! Z.to_nat fd;
  off ← fd_offset t !! Z.to_nat fd;
  if node =? 0 then None else Some (node, off).

(** Standard input and output. *)
Class Console (W : Type) := {
  keyboard_has_input : W → bool;
  keyboard_getchar : W → outcome (Z * W);
  serial_received : W → bool;
  serial_getc : W → outcome (Z * W);
  block_and_yield : W → outcome W;
  putchar : Z → W → outcome W
}.

(** The fields of nodes that [sys_stat] reads. *)
Class NodeFields (W : Type) := {
  node_type : Z → W → outcome Z;
  node_size : Z → W → outcome Z;
  node_inode : Z → W → outcome Z
}.

Section calls.
Context {W : Type} `{!VirtualNode W, !Allocator W, !UserSpace W, !Console W, !NodeFields W}.

(** ** Standard input *)

Definition poll_char (w : W) : outcome (Z * W) :=
  if keyboard_has_input w then keyboard_getchar w
  else if serial_received w then serial_getc w
  else Ok (0, w).

(** Blocking until there is a character; [waits] bounds how often the thread blocks. *)
Fixpoint next_char (waits : nat) (w : W) : outcome (Z * W) :=
  '(c, w1) ← poll_char w;
  if negb (c =? 0) then Ok (c, w1) else
  match waits with
  | O => OutOfFuel
  | S k => w2 ← block_and_yield w1; next_char k w2
  end.

(** The loop: [acc] are the characters read, last first.  Only the first one is waited for. *)
Fixpoint read_line (waits n : nat) (acc : list Z) (w : W) : outcome (list Z * W) :=
  match n with
  | O => Ok (rev acc, w)
  | S n' =>
      '(c, w1) ← (match acc with [] => next_char waits w | _ => poll_char w end);
      if c =? 0 then Ok (rev acc, w1)
      else if c =? 10 then Ok (rev (c :: acc), w1)
      else read_line waits n' (c :: acc) w1
  end.

Definition read_stdin (waits : nat) (buf size : Z) (w : W) : outcome (Z * W) :=
  let size := Z.min size 256 in
  '(bs, w1) ← read_line waits (Z.to_nat size) [] w;
  match bs with
  | [] => Ok (0, w1)
  | _ => '(ok, w2) ← copy_to_user bs buf w1; Ok (if (ok : bool) then len bs else FAIL, w2)
  end.

(** ** Files *)

(** A buffer of [kmalloc(size)] holds the rounded size; more would run over the heap. *)
Definition capacity (size : Z) : Z := Heap.round16 size.

Definition sys_read (waits : nat) (fd buf size : Z) (t : process) (w : W) : outcome (Z * process * W) :=
  if fd =? 0 then '(r, w1) ← read_stdin waits buf size w; Ok (r, t, w1) else
  match open_file fd t with
  | None => Ok (FAIL, t, w)
  | Some (node, off) =>
      '(kbuf, w1) ← kmalloc size w;
      if kbuf =? 0 then Ok (FAIL, t, w1) else
      '(bs, w2) ← vfs_read node off (u32 size) w1;
      if capacity size <? len bs then Fault else
      match bs with
      | [] => '(_, w3) ← kfree kbuf w2; Ok (0, t, w3)
      | _ =>
          '(ok, w3) ← copy_to_user bs buf w2;
          '(_, w4) ← kfree kbuf w3;
          if (ok : bool) then Ok (len bs, set_offset fd (u32 (off + len bs)) t, w4) else Ok (FAIL, t, w4)
      end
  end.

(** Copying [size] bytes of user memory to a buffer of the heap. *)
Definition copy_to_kbuf (buf size : Z) (w : W) : outcome (option (list Z)) :=
  if size <=? capacity size then copy_from_user (Z.to_nat size) buf w
  else r ← copy_from_user (Z.to_nat (capacity size + 1)) buf w;
       match r with Some _ => Fault | None => Ok None end.

Fixpoint put_all (bs : list Z) (w : W) : outcome W :=
  match bs with [] => Ok w | b :: bs' => w1 ← putchar b w; put_all bs' w1 end.

Definition sys_write (fd buf size : Z) (t : process) (w : W) : outcome (Z * process * W) :=
  if (fd =? 1) || (fd =? 2) then
    let size := Z.min size 256 in
    r ← copy_from_user (Z.to_nat size) buf w;
    match r with
    | None => Ok (FAIL, t, w)
    | Some bs => w1 ← put_all bs w; Ok (size, t, w1)
    end
  else
  match open_file fd t with
  | None => Ok (FAIL, t, w)
  | Some (node, off) =>
      '(kbuf, w1) ← kmalloc size w;
      if kbuf =? 0 then Ok (FAIL, t, w1) else
      r ← copy_to_kbuf buf size w1;
      match r with
      | None => '(_, w2) ← kfree kbuf w1; Ok (FAIL, t, w2)
      | Some bs =>
          '(written, w2) ← vfs_write node off (take (Z.to_nat (u32 size)) bs) w1;
          '(_, w3) ← kfree kbuf w2;
          Ok (written, set_offset fd (u32 (off + written)) t, w3)
      end
  end.

(** A path: the 255 bytes up to the first null. *)
Fixpoint c_string (bs : list Z) : list Z :=
  match bs with [] => [] | b :: bs' => if b =? 0 then [] else b :: c_string bs' end.
Definition user_path_arg (path_ptr : Z) (w : W) : outcome (option (list Z)) :=
  r ← copy_from_user 255 path_ptr w; Ok (option_map c_string r).

(** The first free descriptor from [fd] on, [n] of them left. *)
Fixpoint free_fd (n : nat) (fd : Z) (t : process) : option Z :=
  match n with
  | O => None
  | S n' => if default 0 (fd_table t !! Z.to_nat fd) =? 0 then Some fd else free_fd n' (fd + 1) t
  end.

Definition sys_open (path_ptr flags : Z) (t : process) (w : W) : outcome (Z * process * W) :=
  p ← user_path_arg path_ptr w;
  match p with
  | None => Ok (FAIL, t, w)
  | Some path =>
      '(node, w1) ← vfs_open (Some path) w;
      '(node, w2) ← (if (node =? 0) && negb (Z.land flags O_CREAT =? 0)
                      then vfs_create (Some path) (u32 flags) w1 else Ok (node, w1));
      if node =? 0 then Ok (FAIL, t, w2) else
      match free_fd 13 3 t with
      | Some fd => Ok (fd, set_fd fd node 0 t, w2)
      | None => w3 ← vfs_close node w2; Ok (FAIL, t, w3)
      end
  end.

Definition sys_close (fd : Z) (t : process) (w : W) : outcome (Z * process * W) :=
  if fd <? 3 then Ok (FAIL, t, w) else
  match open_file fd t with
  | None => Ok (FAIL, t, w)
  | Some (node, _) => w1 ← vfs_close node w; Ok (0, set_fd fd 0 0 t, w1)
  end.

Definition sys_mkdir (path_ptr mode : Z) (w : W) : outcome (Z * W) :=
  p ← user_path_arg path_ptr w;
  match p with
  | None => Ok (FAIL, w)
  | Some path => '(r, w1) ← vfs_mkdir (Some path) (u32 mode) w; Ok (u64 r, w1)
  end.

Definition sys_unlink (path_ptr : Z) (w : W) : outcome (Z * W) :=
  p ← user_path_arg path_ptr w;
  match p with
  | None => Ok (FAIL, w)
  | Some path => '(r, w1) ← vfs_unlink (Some path) w; Ok (if (r : bool) then 0 else FAIL, w1)
  end.

(** The structure as the static entry holds it: after the name, what was there before. *)
Definition dirent_bytes (stale : list Z) (de : vfs_dirent) : list Z :=
  take 128 (de_name de ++ 0 :: drop (S (length (de_name de))) stale) ++ le 4 (de_inode de) ++ le 4 (de_type de).

Definition sys_readdir (stale : list Z) (fd index dirent_ptr : Z) (t : process) (w : W) : outcome (Z * W) :=
  match open_file fd t with
  | None => Ok (FAIL, w)
  | Some (node, _) =>
      '(de, w1) ← vfs_readdir node (u32 index) w;
      match de with
      | None => Ok (0, w1)
      | Some de => '(ok, w2) ← copy_to_user (dirent_bytes stale de) dirent_ptr w1; Ok (if (ok : bool) then 1 else FAIL, w2)
      end
  end.

Definition stat_mode (type : Z) : Z :=
  if type =? 2 then Z.lor 0x4000 493 else if type =? 3 then Z.lor 0x2000 384 else Z.lor 0x8000 420.
Definition stat_bytes (inode size type : Z) : list Z :=
  le 8 1 ++ le 8 inode ++ le 4 (stat_mode type) ++ le 4 1 ++ le 4 0 ++ le 4 0 ++ le 8 0 ++
  le 8 size ++ le 8 512 ++ le 8 (u32 (size + 511) / 512) ++ le 8 0 ++ le 8 0 ++ le 8 0.

Definition stat_of (node : Z) (w : W) : outcome (list Z) :=
  i ← node_inode node w; s ← node_size node w; ty ← node_type node w; Ok (stat_bytes i s ty).

(** [sys_stat] looks the path up in the root first and drops the result. *)
Definition sys_stat (path_ptr statbuf_ptr : Z) (w : W) : outcome (Z * W) :=
  p ← user_path_arg path_ptr w;
  match p with
  | None => Ok (FAIL, w)
  | Some path =>
      '(_, w1) ← node_finddir (vfs_root w) path w;
      '(node, w2) ← vfs_open (Some path) w1;
      if node =? 0 then Ok (FAIL, w2) else
      st ← stat_of node w2;
      w3 ← vfs_close node w2;
      '(ok, w4) ← copy_to_user st statbuf_ptr w3;
      Ok (if (ok : bool) then 0 else FAIL, w4)
  end.

Definition sys_fstat (fd statbuf_ptr : Z) (t : process) (w : W) : outcome (Z * W) :=
  match open_file fd t with
  | None => Ok (FAIL, w)
  | Some (node, _) =>
      st ← stat_of node w;
      '(ok, w1) ← copy_to_user st statbuf_ptr w;
      Ok (if (ok : bool) then 0 else FAIL, w1)
  end.
End calls.

(** ** What the calls rely on *)

(** Two states with the same user memory and the same files. *)
Record same_data {W} `{!UserSpace W, !UserLaws W} (contents : W → Z → option (list Z)) (w w' : W) : Prop := {
  sd_ok : user_ok w';
  sd_user : ∀ u, user_byte w' u = user_byte w u;
  sd_files : ∀ p, contents w' p = contents w p
}.

Class FileLaws (W : Type) `{!VirtualNode W, !Allocator W, !UserSpace W, !UserLaws W} := {
  contents : W → Z → option (list Z);
  max_request : Z;
  kmalloc_data w n : user_ok w → 0 ≤ n ≤ max_request →
    ∃ p w', kmalloc n w = Ok (p, w') ∧ p ≠ 0 ∧ same_data contents w w';
  kfree_data w p : user_ok w → ∃ w', kfree p w = Ok ((), w') ∧ same_data contents w w';
  read_data w p d off n : user_ok w → contents w p = Some d → 0 ≤ off → 0 ≤ n → off + n < 2 ^ 32 →
    ∃ w', node_read p off n w = Ok (sub off n d, w') ∧ same_data contents w w';
  store_data w u b w' : store_user u b w = Ok w' → ∀ p, contents w' p = contents w p;
  contents_data w p d : user_ok w → contents w p = Some d → Forall byte d;
  user_byte_data w u b : user_byte w u = Some b → byte b
}.

(** Writing, apart: only for files that can be written, with room for the bytes, that no second
    node stands for.  A node of the RAM disk inherits [write] of the class and writes nothing. *)
Class WriteLaws (W : Type) `{!VirtualNode W, !Allocator W, !UserSpace W, !UserLaws W, !FileLaws W} := {
  write_data w p d off bs : user_ok w → contents w p = Some d → 0 ≤ off ≤ len d → Forall byte bs → off + len bs < 2 ^ 32 →
    ∃ w', node_write p off bs w = Ok (len bs, w') ∧ user_ok w' ∧
      (∀ u, user_byte w' u = user_byte w u) ∧
      (∀ q, contents w' q = if decide (q = p) then Some (splice off bs d) else contents w q)
}.

Section laws.
Context {W : Type} `{!VirtualNode W, !Allocator W, !UserSpace W, !Console W, !NodeFields W}.
Context `{!UserLaws W, !FileLaws W}.
Implicit Types w : W.

Lemma same_data_trans w1 w2 w3 : same_data contents w1 w2 → same_data contents w2 w3 → same_data contents w1 w3.
Proof. intros [A1 A2 A3] [B1 B2 B3]. constructor; [done|congruence|congruence]. Qed.

Lemma user_bytes_same w w' u n : (∀ x, user_byte w' x = user_byte w x) → user_bytes w' u n = user_bytes w u n.
Proof. intros H. unfold user_bytes. apply Forall_mapM_ext, Forall_forall. auto. Qed.

Lemma copy_to_user_files bs : ∀ u w ok w', copy_to_user bs u w = Ok (ok, w') → ∀ p, contents w' p = contents w p.
Proof.
  induction bs as [|b bs IH]; intros u w ok w'; cbn [copy_to_user]; [by intros [= _ <-]|].
  intros H. inv_ok H. destruct r; cbn [negb] in H; [|by injection H as _ <-].
  inv_ok H. intros p. rewrite (IH _ _ _ _ H). by apply (store_data w u b r).
Qed.

Lemma range_take u n m : range_ok u n → 0 ≤ m ≤ n → range_ok u m.
Proof. unfold range_ok. lia. Qed.

(** The bytes copied, when the range can be accessed. *)
Lemma copy_to_user_all bs u w : user_ok w → range_ok u (len bs) → Forall byte bs → is_Some (user_bytes w u (length bs)) →
  ∃ w', copy_to_user bs u w = Ok (true, w') ∧ user_ok w' ∧ (∀ p, contents w' p = contents w p) ∧
    ∀ u', Paging.canonical u' → user_byte w' u' = if decide (u ≤ u' < u + len bs) then bs !! Z.to_nat (u' - u) else user_byte w u'.
Proof.
  intros Hw Hr Hb Hs. destruct (copy_to_user_spec bs w u Hw Hr Hb) as (ok & w' & k & E & Hw' & Hk & _ & _ & Ho1 & Ho2 & H).
  rewrite (proj2 Ho2 Hs) in *. assert (k = length bs) as -> by tauto. exists w'.
  split_and!; [done|done|by apply (copy_to_user_files _ _ _ _ _ E)|done].
Qed.

Lemma user_bytes_prefix w u n m : (m ≤ n)%nat → is_Some (user_bytes w u n) → is_Some (user_bytes w u m).
Proof.
  revert u m. induction n as [|n IH]; intros u m Hm [l Hl]; [by replace m with O by lia|].
  destruct m as [|m]; [by eexists|]. rewrite user_bytes_S in Hl |- *. destruct (user_byte w u); [|done]. cbn in Hl |- *.
  destruct (user_bytes w (u + 1) n) as [l'|] eqn:E; [|done]. destruct (IH (u + 1) m) as [l2 E2]; [lia|by exists l'|].
  rewrite E2. by eexists.
Qed.

(** ** Descriptors *)

Lemma open_file_lt fd t node off : open_file fd t = Some (node, off) → fd < 16 ∧ node ≠ 0.
Proof.
  unfold open_file. destruct (Z.leb_spec 16 fd); [done|]. destruct (fd_table t !! Z.to_nat fd) as [n|]; [|done].
  cbn. destruct (fd_offset t !! Z.to_nat fd); [|done]. cbn. destruct (Z.eqb_spec n 0); [done|]. intros [= <- <-]. done.
Qed.

Lemma open_file_set_fd fd node off t : process_ok t → 0 ≤ fd < 16 →
  open_file fd (set_fd fd node off t) = (if node =? 0 then None else Some (node, off)).
Proof.
  intros [H1 H2] Hfd. unfold open_file, set_fd. rewrite (proj2 (Z.leb_gt _ _)) by lia. cbn [fd_table fd_offset].
  rewrite !list_lookup_insert_eq by lia. done.
Qed.

Lemma open_file_set_fd_ne fd fd' node off t : 0 ≤ fd → 0 ≤ fd' → fd' ≠ fd →
  open_file fd' (set_fd fd node off t) = open_file fd' t.
Proof.
  intros H0 H0' Hne. unfold open_file, set_fd. cbn [fd_table fd_offset].
  rewrite !list_lookup_insert_ne by (intros E; apply Hne; lia). done.
Qed.

Lemma open_file_set_offset fd node off off' t : process_ok t → 0 ≤ fd → open_file fd t = Some (node, off) →
  open_file fd (set_offset fd off' t) = Some (node, off').
Proof.
  intros [H1 H2] Hfd Ho. destruct (open_file_lt _ _ _ _ Ho) as [Hlt _]. unfold open_file, set_offset in *.
  rewrite (proj2 (Z.leb_gt _ _)) in * by lia. cbn [fd_table fd_offset]. rewrite list_lookup_insert_eq by lia.
  destruct (fd_table t !! Z.to_nat fd) as [n|]; [|done]. cbn in Ho |- *.
  destruct (fd_offset t !! Z.to_nat fd); [|done]. cbn in Ho. destruct (n =? 0); [done|]. by injection Ho as -> _.
Qed.

Lemma open_file_set_offset_ne fd fd' off t : 0 ≤ fd → 0 ≤ fd' → fd' ≠ fd →
  open_file fd' (set_offset fd off t) = open_file fd' t.
Proof.
  intros H0 H0' Hne. unfold open_file, set_offset. cbn [fd_table fd_offset].
  by rewrite !list_lookup_insert_ne by (intros E; apply Hne; lia).
Qed.

Lemma process_ok_set_offset fd off t : process_ok t → process_ok (set_offset fd off t).
Proof. intros [H1 H2]. split; cbn; rewrite ?length_insert; done. Qed.

Lemma capacity_ok size : 0 ≤ size < 2 ^ 32 → size ≤ capacity size.
Proof.
  intros H. unfold capacity, Heap.round16. rewrite wrap_small by lia. rewrite (mask_low_ones _ 4) by lia. zdm.
Qed.

(** What the process sees of a transfer on [fd]. *)
Definition moved (fd node off' : Z) (t t' : process) : Prop :=
  process_ok t' ∧ open_file fd t' = Some (node, off') ∧
  ∀ fd', 0 ≤ fd' → fd' ≠ fd → open_file fd' t' = open_file fd' t.

Lemma moved_offset fd node off off' t : process_ok t → 0 ≤ fd → open_file fd t = Some (node, off) →
  moved fd node off' t (set_offset fd off' t).
Proof.
  intros Ht Hfd Ho. split_and!; [by apply process_ok_set_offset|by eapply open_file_set_offset|].
  intros fd' H1 H2. by apply open_file_set_offset_ne.
Qed.

Lemma moved_none fd node off t : process_ok t → open_file fd t = Some (node, off) → moved fd node off t t.
Proof. intros Ht Ho. by split_and!. Qed.
End laws.

(** ** Properties *)

Section properties.
Context {W : Type} `{!VirtualNode W, !Allocator W, !UserSpace W, !Console W, !NodeFields W}.
Context `{!UserLaws W, !FileLaws W}.
Implicit Types w : W.

(** Reading an open file. *)
Lemma read_file_spec waits w t fd node off d buf size :
  user_ok w → process_ok t → 0 < fd → open_file fd t = Some (node, off) → contents w node = Some d →
  0 ≤ off → 0 ≤ size ≤ max_request → off + size < 2 ^ 32 → range_ok buf size →
  let bs := sub off size d in
  ∃ r t' w', sys_read waits fd buf size t w = Ok (r, t', w') ∧ user_ok w' ∧ (∀ p, contents w' p = contents w p) ∧
    if decide (is_Some (user_bytes w buf (length bs)))
    then r = len bs ∧ moved fd node (off + len bs) t t' ∧
      ∀ u, Paging.canonical u → user_byte w' u =
        if decide (buf ≤ u < buf + len bs) then bs !! Z.to_nat (u - buf) else user_byte w u
    else r = FAIL ∧ t' = t.
Proof.
  intros Hw Ht Hfd Ho Hd Hoff Hsize Hend Hr bs. destruct (open_file_lt _ _ _ _ Ho) as [_ Hnode].
  unfold sys_read. rewrite (proj2 (Z.eqb_neq fd 0)), Ho by lia.
  destruct (kmalloc_data w size Hw Hsize) as (kbuf & w1 & -> & Hk & S1). run. rewrite (proj2 (Z.eqb_neq _ _) Hk).
  unfold vfs_read. rewrite (proj2 (Z.eqb_neq _ _) Hnode), (wrap_small 32 size) by lia.
  destruct (read_data w1 node d off size (sd_ok _ _ _ S1)) as (w2 & -> & S2); [by rewrite (sd_files _ _ _ S1)|lia|lia|lia|]. run.
  fold bs. pose proof (same_data_trans _ _ _ S1 S2) as S12. pose proof (capacity_ok size ltac:(lia)) as Hc.
  assert (Hlen : len bs ≤ size) by (unfold bs, sub, len; rewrite length_take; lia).
  rewrite (proj2 (Z.ltb_ge _ _)) by lia. destruct bs as [|b bs'] eqn:Ebs.
  { destruct (kfree_data w2 kbuf (sd_ok _ _ _ S12)) as (w3 & -> & S3). run. pose proof (same_data_trans _ _ _ S12 S3) as S13.
    eexists _, _, w3. split; [reflexivity|]. split_and!; [apply S13|apply S13|]. cbn [length].
    rewrite decide_True by by eexists. change (len []) with 0. rewrite Z.add_0_r.
    split_and!; [done|by apply moved_none|]. intros u _. rewrite decide_False by lia. apply S13. }
  rewrite <- Ebs in *. assert (Hb : Forall byte bs) by (apply Forall_sub; by apply (contents_data w node)).
  assert (Hrb : range_ok buf (len bs)) by (apply (range_take _ size); [done|unfold len in *; lia]).
  assert (Eu : user_bytes w2 buf (length bs) = user_bytes w buf (length bs)) by (apply user_bytes_same, S12).
  destruct (copy_to_user_spec bs w2 buf (sd_ok _ _ _ S12) Hrb Hb) as (ok & w3 & k & E & Hw3 & Hk3 & _ & _ & Ho1 & Ho2 & H3).
  rewrite E. run. destruct (kfree_data w3 kbuf Hw3) as (w4 & -> & S4). run. rewrite Eu in Ho2.
  assert (Hfiles : ∀ p, contents w4 p = contents w p).
  { intros p. rewrite (sd_files _ _ _ S4), (copy_to_user_files _ _ _ _ _ E). apply S12. }
  case_decide as Hs.
  - rewrite (proj2 Ho2 Hs) in *. assert (k = length bs) as -> by tauto. rewrite wrap_small by (unfold len in *; lia).
    eexists _, _, w4. split; [reflexivity|]. split_and!; [apply S4|done|done|apply (moved_offset _ _ off); (done || lia)|].
    intros u Hu. rewrite (sd_user _ _ _ S4), H3 by done. unfold len. case_decide; [done|]. apply S12.
  - destruct ok; [by destruct Hs; apply Ho2|]. eexists _, _, w4. split; [reflexivity|]. split_and!; [apply S4|done|done|done].
Qed.

(** [sys_read] of an open file puts the part of its contents at the offset of the
    descriptor into the user's buffer and moves the offset behind it, or, when
    the bytes cannot be stored there, fails and leaves the descriptor; files,
    other descriptors and the rest of user memory do not change. *)
Theorem sys_read_file waits w t fd node off d buf size :
  user_ok w → process_ok t → 0 < fd → open_file fd t = Some (node, off) → contents w node = Some d →
  0 ≤ off → 0 ≤ size ≤ max_request → off + size < 2 ^ 32 → range_ok buf size →
  let bs := sub off size d in
  ∃ r t' w', sys_read waits fd buf size t w = Ok (r, t', w') ∧ user_ok w' ∧ (∀ p, contents w' p = contents w p) ∧
    if decide (is_Some (user_bytes w buf (length bs)))
    then r = len bs ∧ moved fd node (off + len bs) t t' ∧
      ∀ u, Paging.canonical u → user_byte w' u =
        if decide (buf ≤ u < buf + len bs) then bs !! Z.to_nat (u - buf) else user_byte w u
    else r = FAIL ∧ t' = t.
Proof. apply read_file_spec. Qed.

(** The bytes that [copy_from_user] answers are bytes. *)
Lemma user_bytes_ok w u n bs : user_bytes w u n = Some bs → length bs = n ∧ Forall byte bs.
Proof.
  revert u bs. induction n as [|n IH]; intros u bs; [by intros [= <-]|]. rewrite user_bytes_S.
  destruct (user_byte w u) as [b|] eqn:Eb; [|done]. cbn. destruct (user_bytes w (u + 1) n) as [l|] eqn:E; [|done].
  cbn. intros [= <-]. destruct (IH _ _ E) as [<- H]. split; [done|]. constructor; [by apply (user_byte_data w u)|done].
Qed.

(** [sys_write] to an open file puts the bytes of the user's buffer into its
    contents at the offset of the descriptor, at the end or over what is there,
    and moves the offset behind them, or, when the buffer cannot be read, fails
    and changes nothing; user memory, other files and other descriptors stay. *)
Theorem sys_write_file `{!WriteLaws W} w t fd node off d buf size :
  user_ok w → process_ok t → 2 < fd → open_file fd t = Some (node, off) → contents w node = Some d →
  0 ≤ off ≤ len d → 0 ≤ size ≤ max_request → off + size < 2 ^ 32 → range_ok buf size →
  ∃ r t' w', sys_write fd buf size t w = Ok (r, t', w') ∧ user_ok w' ∧ (∀ u, user_byte w' u = user_byte w u) ∧
    match user_bytes w buf (Z.to_nat size) with
    | Some bs => r = size ∧ moved fd node (off + size) t t' ∧
        ∀ q, contents w' q = if decide (q = node) then Some (splice off bs d) else contents w q
    | None => r = FAIL ∧ t' = t ∧ ∀ q, contents w' q = contents w q
    end.
Proof.
  intros Hw Ht Hfd Ho Hd Hoff Hsize Hend Hr. destruct (open_file_lt _ _ _ _ Ho) as [_ Hnode].
  unfold sys_write. rewrite !(proj2 (Z.eqb_neq fd _)), Ho by lia. cbn [orb].
  destruct (kmalloc_data w size Hw Hsize) as (kbuf & w1 & -> & Hk & S1). run. rewrite (proj2 (Z.eqb_neq _ _) Hk).
  unfold copy_to_kbuf. rewrite (proj2 (Z.leb_le _ _)) by (apply capacity_ok; lia).
  rewrite copy_from_user_spec, (user_bytes_same _ w1 buf _ (sd_user _ _ _ S1)) by (apply S1 || by rewrite Z2Nat.id by lia). run.
  destruct (user_bytes w buf (Z.to_nat size)) as [bs|] eqn:Ebs.
  - destruct (user_bytes_ok _ _ _ _ Ebs) as [Hlen Hb]. assert (El : len bs = size) by (unfold len; lia).
    unfold vfs_write. rewrite (proj2 (Z.eqb_neq _ _) Hnode), (wrap_small 32 size), take_ge by (unfold len in *; lia).
    destruct (write_data w1 node d off bs (sd_ok _ _ _ S1)) as (w2 & -> & Hw2 & Hu2 & Hf2);
      [by rewrite (sd_files _ _ _ S1)|done|done|lia|]. run.
    destruct (kfree_data w2 kbuf Hw2) as (w3 & -> & S3). run. rewrite El, wrap_small by lia.
    eexists _, _, w3. split; [reflexivity|]. split_and!; [apply S3| |done|apply (moved_offset _ _ off); (done || lia)|].
    + intros u. rewrite (sd_user _ _ _ S3), Hu2. apply S1.
    + intros q. rewrite (sd_files _ _ _ S3), Hf2. case_decide; [done|]. apply S1.
  - destruct (kfree_data w1 kbuf (sd_ok _ _ _ S1)) as (w2 & -> & S2). run. pose proof (same_data_trans _ _ _ S1 S2) as S12.
    eexists _, _, w2. split; [reflexivity|]. split_and!; [apply S12|apply S12|done|done|apply S12].
Qed.

(** The size of a transfer is rounded up by [kmalloc] modulo 2^64: for a size of
    2^64 - 15 or more the buffer has no bytes at all, and reading from a file
    with data at the offset, or writing from a readable address, runs over it. *)
Theorem huge_transfer_overflows waits w w1 t fd node off d buf size kbuf b :
  user_ok w → 2 < fd → open_file fd t = Some (node, off) → contents w node = Some d →
  2 ^ 64 - 15 ≤ size < 2 ^ 64 → 0 ≤ off < 2 ^ 64 - size → off < len d →
  kmalloc size w = Ok (kbuf, w1) → kbuf ≠ 0 → same_data contents w w1 →
  sys_read waits fd buf size t w = Fault ∧
  (Paging.canonical buf → user_byte w buf = Some b → sys_write fd buf size t w = Fault).
Proof.
  intros Hw Hfd Ho Hd Hsize Hoff Hlen Em Hk S1. destruct (open_file_lt _ _ _ _ Ho) as [_ Hnode].
  assert (Ec : capacity size = 0).
  { unfold capacity, Heap.round16. replace (u64 (size + 15)) with (size + 15 - 2 ^ 64) by (unfold wrap; zdm).
    rewrite (mask_low_ones _ 4) by lia. zdm. }
  assert (Eu : u32 size = size - (2 ^ 64 - 2 ^ 32)) by (unfold wrap; zdm).
  split.
  - unfold sys_read. rewrite (proj2 (Z.eqb_neq fd 0)), Ho, Em by lia. run. rewrite (proj2 (Z.eqb_neq _ _) Hk), Eu, Ec.
    unfold vfs_read. rewrite (proj2 (Z.eqb_neq _ _) Hnode).
    destruct (read_data w1 node d off (size - (2 ^ 64 - 2 ^ 32)) (sd_ok _ _ _ S1)) as (w2 & -> & S2);
      [by rewrite (sd_files _ _ _ S1)|lia|lia|lia|]. run.
    rewrite (proj2 (Z.ltb_lt _ _)); [done|]. unfold sub, len in *. rewrite length_take, length_drop. lia.
  - intros Hc Hb. unfold sys_write. rewrite !(proj2 (Z.eqb_neq fd _)), Ho, Em by lia. cbn [orb]. run.
    rewrite (proj2 (Z.eqb_neq _ _) Hk). unfold copy_to_kbuf. rewrite Ec, (proj2 (Z.leb_gt _ _)) by lia.
    change (Z.to_nat (0 + 1)) with 1%nat.
    rewrite copy_from_user_spec by (apply S1 || (unfold range_ok, Paging.canonical in *; lia)).
    rewrite user_bytes_S, (sd_user _ _ _ S1), Hb. done.
Qed.

Lemma free_fd_spec n fd t : 0 ≤ fd →
  match free_fd n fd t with
  | Some i => fd ≤ i < fd + Z.of_nat n ∧ default 0 (fd_table t !! Z.to_nat i) = 0 ∧
      ∀ j, fd ≤ j < i → default 0 (fd_table t !! Z.to_nat j) ≠ 0
  | None => ∀ j, fd ≤ j < fd + Z.of_nat n → default 0 (fd_table t !! Z.to_nat j) ≠ 0
  end.
Proof.
  revert fd. induction n as [|n IH]; intros fd H0; cbn [free_fd]; [lia|].
  destruct (Z.eqb_spec (default 0 (fd_table t !! Z.to_nat fd)) 0) as [E|Hne]; [split_and!; [lia|lia|done|lia]|].
  specialize (IH (fd + 1)). destruct (free_fd n (fd + 1) t) as [i|].
  - destruct IH as (H1 & H2 & H3); [lia|]. split_and!; [lia|lia|done|]. intros j Hj.
    destruct (decide (j = fd)) as [->|]; [done|apply H3; lia].
  - intros j Hj. destruct (decide (j = fd)) as [->|]; [done|apply IH; lia].
Qed.

Lemma open_file_iff fd t : process_ok t → 0 ≤ fd < 16 →
  (open_file fd t = None ↔ default 0 (fd_table t !! Z.to_nat fd) = 0).
Proof.
  intros [H1 H2] Hfd. unfold open_file. rewrite (proj2 (Z.leb_gt _ _)) by lia.
  destruct (lookup_lt_is_Some_2 (fd_table t) (Z.to_nat fd)) as [n En]; [lia|].
  destruct (lookup_lt_is_Some_2 (fd_offset t) (Z.to_nat fd)) as [o Eo]; [lia|].
  rewrite En, Eo. cbn. destruct (Z.eqb_spec n 0); split; congruence.
Qed.

(** Descriptors: [sys_open] of a path that resolves answers the lowest free
    descriptor from 3 on and opens it at offset 0, or, with all thirteen in use,
    closes the node again and fails; [sys_close] frees the descriptor, closes the
    node, and fails for a descriptor that is not open.  Others do not change. *)
Theorem sys_open_close w w1 t path path_ptr flags node :
  process_ok t → user_path_arg path_ptr w = Ok (Some path) → vfs_open (Some path) w = Ok (node, w1) → node ≠ 0 →
  match free_fd 13 3 t with
  | Some fd => ∃ t', sys_open path_ptr flags t w = Ok (fd, t', w1) ∧ moved fd node 0 t t' ∧
      3 ≤ fd < 16 ∧ open_file fd t = None ∧ (∀ j, 3 ≤ j < fd → open_file j t ≠ None) ∧
      ∀ w2 w3, vfs_close node w2 = Ok w3 →
        ∃ t'', sys_close fd t' w2 = Ok (0, t'', w3) ∧ open_file fd t'' = None ∧
          (∀ j, 0 ≤ j → open_file j t'' = open_file j t) ∧ sys_close fd t'' w3 = Ok (FAIL, t'', w3)
  | None => (∀ j, 3 ≤ j < 16 → open_file j t ≠ None) ∧
      ∀ w2, vfs_close node w1 = Ok w2 → sys_open path_ptr flags t w = Ok (FAIL, t, w2)
  end.
Proof.
  intros Ht Ep Eo Hn. pose proof (free_fd_spec 13 3 t) as Hf. unfold sys_open. rewrite Ep. run. rewrite Eo. run.
  rewrite (proj2 (Z.eqb_neq _ _) Hn). cbn [andb]. run. rewrite (proj2 (Z.eqb_neq _ _) Hn).
  destruct (free_fd 13 3 t) as [fd|].
  2:{ split; [|by intros w2 ->]. intros j Hj. rewrite open_file_iff by (done || lia). apply Hf; lia. }
  destruct Hf as (H1 & H2 & H3); [lia|]. assert (Hfree : open_file fd t = None) by (apply open_file_iff; (done || lia)).
  assert (Ht' : process_ok (set_fd fd node 0 t)) by (destruct Ht; split; cbn; rewrite ?length_insert; done).
  assert (Hfd : open_file fd (set_fd fd node 0 t) = Some (node, 0)).
  { rewrite open_file_set_fd by (done || lia). by rewrite (proj2 (Z.eqb_neq _ _) Hn). }
  exists (set_fd fd node 0 t). split_and!; [done| |lia|lia|done| |].
  - split_and!; [done|done|]. intros fd' H0 Hne. apply open_file_set_fd_ne; lia.
  - intros j Hj. rewrite open_file_iff by (done || lia). apply H3. lia.
  - intros w2 w3 Ec. unfold sys_close. rewrite (proj2 (Z.ltb_ge fd 3)), Hfd, Ec by lia. run.
    eexists. split; [reflexivity|].
    assert (Hc : open_file fd (set_fd fd 0 0 (set_fd fd node 0 t)) = None) by (rewrite open_file_set_fd by (done || lia); done).
    rewrite Hc. split_and!; [done| |done]. intros j Hj. destruct (decide (j = fd)) as [->|Hne]; [by rewrite Hc, Hfree|].
    by rewrite !open_file_set_fd_ne by lia.
Qed.

(** A path is copied as 255 bytes: one shorter than that is not accepted unless all
    of them can be read. *)
Lemma short_path_needs_255 w path_ptr : user_ok w → range_ok path_ptr 255 →
  user_bytes w path_ptr 255 = None → user_path_arg path_ptr w = Ok None.
Proof. intros Hw Hr Hn. unfold user_path_arg. rewrite copy_from_user_spec, Hn by done. done. Qed.
End properties.

(** ** A small machine

    The page tables of [demo_user], and files that are lists of bytes. *)
Module Machine.
Import Paging.

Definition machine : Type := (paging * gmap Z (list Z))%type.

Definition on_paging {A} (m : paging → outcome (A * paging)) (w : machine) : outcome (A * machine) :=
  '(a, p) ← m (fst w); Ok (a, (p, snd w)).

#[export] Instance machine_user : UserSpace machine := {|
  accessible u w := accessible u (fst w);
  load_user u w := load_user u (fst w);
  store_user u b w := p ← store_user u b (fst w); Ok (p, snd w) |}.

#[export] Instance machine_heap : Allocator machine := {|
  kmalloc n := λ w, Ok (0x1000, w); kfree p := λ w, Ok ((), w) |}.

Definition machine_read (p off n : Z) (w : machine) : outcome (list Z * machine) :=
  d ← of_option (snd w !! p); Ok (sub off n d, w).
Definition machine_write (p off : Z) (bs : list Z) (w : machine) : outcome (Z * machine) :=
  d ← of_option (snd w !! p); Ok (len bs, (fst w, <[p := splice off bs d]> (snd w))).

#[export] Instance machine_nodes : VirtualNode machine := {|
  vfs_root _ := 1;
  cwd_node _ := 0;
  Vfs.parent _ _ := Ok 1;
  node_open _ w := Ok w;
  node_close _ w := Ok w;
  node_finddir _ nm w := Ok (if bool_decide (nm = [102]) then 7 else 0, w);
  node_read := machine_read;
  node_write := machine_write;
  node_readdir _ _ w := Ok (None, w);
  node_create _ _ _ w := Ok (0, w);
  node_mkdir _ _ _ w := Ok (-1, w);
  node_unlink _ _ w := Ok (false, w) |}.

#[export] Instance machine_console : Console machine := {|
  keyboard_has_input _ := false; keyboard_getchar w := Ok (0, w);
  serial_received _ := false; serial_getc w := Ok (0, w);
  block_and_yield w := Ok w; putchar _ w := Ok w |}.
#[export] Instance machine_fields : NodeFields machine := {|
  node_type _ _ := Ok 1; node_size _ _ := Ok 0; node_inode _ _ := Ok 0 |}.

Definition machine_ok (w : machine) : Prop := user_wf (fst w) ∧ map_Forall (λ _, Forall byte) (snd w).

#[export] Program Instance machine_user_laws : UserLaws machine := {|
  user_ok := machine_ok; user_byte w := paging_user_byte (fst w) |}.
Next Obligation. intros w u [Hw _] Hc. exact (accessible_law (UserLaws := paging_user_laws) (fst w) u Hw Hc). Qed.
Next Obligation. intros w u b [Hw _] Hc Hb. exact (load_law (UserLaws := paging_user_laws) (fst w) u b Hw Hc Hb). Qed.
Next Obligation.
  intros [p fs] u b b' [Hw Hf] Hc Hb' Hb. destruct (paging_store_law p u b b' Hw Hc Hb' Hb) as (p' & E & Hw' & H).
  exists (p', fs). split; [|by split]. cbn [store_user machine_user]. change (@store_user paging paging_user) with store_byte.
  cbn [fst snd]. rewrite E. by run.
Qed.

#[export] Program Instance machine_files : FileLaws machine := {|
  contents w p := snd w !! p; max_request := 2 ^ 31 |}.
Next Obligation. intros w n Hw Hn. exists 0x1000, w. split_and!; [done|done|by constructor]. Qed.
Next Obligation. intros w p Hw. exists w. split; [done|by constructor]. Qed.
Next Obligation.
  intros w p d off n Hw Hd _ _ _. exists w. cbn. unfold machine_read. rewrite Hd. split; [done|by constructor].
Qed.
Next Obligation.
  intros w u b w' E p. cbn in E. inv_ok E. by injection E as <-.
Qed.
Next Obligation. intros w p d [_ Hf] Hd. exact (Hf p d Hd). Qed.
Next Obligation.
  intros w u b. cbn. unfold paging_user_byte. destruct (user_page (fst w) u); [|done].
  destruct (Paging.translate _ _ _); cbn; [|done]. intros [= <-]. apply byte_at_range.
Qed.

#[export] Program Instance machine_writes : WriteLaws machine.
Next Obligation.
  intros w p d off bs [Hw Hf] Hd _ Hb _. cbn in Hd |- *. unfold machine_write. rewrite Hd. cbn. eexists. split; [done|].
  split_and!; [|done|].
  - split; [done|]. cbn. apply map_Forall_insert_2; [|done]. apply Forall_splice; [done|exact (Hf p d Hd)].
  - intros q. cbn. case_decide as E; [subst; by rewrite lookup_insert_eq|by rewrite lookup_insert_ne].
Qed.

Definition demo_machine : machine := (demo_user, {[ 7 := [10; 20; 30; 40] ]}).
Definition demo_process : process := mk_process ([0; 0; 0; 7] ++ replicate 12 0) (replicate 16 1).

Lemma demo_machine_ok : machine_ok demo_machine.
Proof. split; [apply demo_user_ok|]. apply map_Forall_singleton. repeat constructor; lia. Qed.
End Machine.

Import Machine.

Lemma sys_read_file_witness :
  ∃ t' w', sys_read 0 3 0x400010 2 demo_process demo_machine = Ok (2, t', w') ∧ user_byte w' 0x400011 = Some 30.
Proof.
  destruct (sys_read_file 0 demo_machine demo_process 3 7 1 [10; 20; 30; 40] 0x400010 2)
    as (r & t' & w' & E & _ & _ & H).
  - exact demo_machine_ok.
  - split; reflexivity.
  - lia.
  - reflexivity.
  - reflexivity.
  - lia.
  - vm_compute. split; congruence.
  - lia.
  - split_and!; [lia|lia|left; lia].
  - rewrite decide_True in H; [|exists [0; 0]; vm_compute; reflexivity]. destruct H as (-> & _ & Hu).
    exists t', w'. split; [exact E|]. rewrite Hu; [reflexivity|left; lia].
Defined.

Lemma sys_write_file_witness :
  ∃ t' w', sys_write 3 0x400010 2 demo_process demo_machine = Ok (2, t', w') ∧ contents w' 7 = Some [10; 0; 0; 40].
Proof.
  destruct (sys_write_file demo_machine demo_process 3 7 1 [10; 20; 30; 40] 0x400010 2)
    as (r & t' & w' & E & _ & _ & H).
  - exact demo_machine_ok.
  - split; reflexivity.
  - lia.
  - reflexivity.
  - reflexivity.
  - vm_compute. split; congruence.
  - vm_compute. split; congruence.
  - lia.
  - split_and!; [lia|lia|left; lia].
  - assert (Eb : user_bytes demo_machine 0x400010 (Z.to_nat 2) = Some [0; 0]) by (vm_compute; reflexivity).
    rewrite Eb in H. destruct H as (-> & _ & Hf). exists t', w'. split; [exact E|]. by rewrite Hf.
Defined.

Lemma huge_transfer_overflows_witness :
  sys_read 0 3 0x400010 (2 ^ 64 - 2) demo_process demo_machine = Fault.
Proof.
  destruct (huge_transfer_overflows 0 demo_machine demo_machine demo_process 3 7 1 [10; 20; 30; 40] 0x400010 (2 ^ 64 - 2) 0x1000 0)
    as [H _].
  - exact demo_machine_ok.
  - lia.
  - reflexivity.
  - reflexivity.
  - lia.
  - lia.
  - vm_compute. reflexivity.
  - reflexivity.
  - lia.
  - constructor; [exact demo_machine_ok|done|done].
  - exact H.
Defined.

(** The path "f" at 0x400000, followed by nulls. *)
Definition path_machine : machine := (Paging.set_mem (put_byte (Paging.pg_mem demo_user) 0x8000 102) demo_user, {[ 7 := [] ]}).

Lemma sys_open_close_witness :
  ∃ t', sys_open 0x400000 0 demo_process path_machine = Ok (4, t', path_machine) ∧ open_file 4 t' = Some (7, 0).
Proof.
  pose proof (sys_open_close path_machine path_machine demo_process [102] 0x400000 0 7) as H.
  destruct H as (t' & E & (_ & Hm & _) & _).
  - split; reflexivity.
  - vm_compute. reflexivity.
  - vm_compute. reflexivity.
  - lia.
  - exists t'. split; [exact E|exact Hm].
Defined.
End Syscall.
