(* ===== verification/StdFile.v ===== *)
(** * Streams (libc/stdio/fopen, fclose, fread, fwrite, fseek, ftell, rewind)

    A stream is a node, a position, the size of the file when it was opened and
    an error flag.  [None] is the null pointer.  Reading and writing go through
    the virtual file system with 32-bit positions and sizes. *)

From S2P Require Import Prelude Bytes Block Vfs UserMem Syscall.

Module StdFile.
Import Bytes Block Vfs UserMem Syscall.

Definition EOF : Z := -1.
Definition SEEK_SET : Z := 0.
Definition SEEK_CUR : Z := 1.
Definition SEEK_END : Z := 2.
Definition sizeof_FILE : Z := 32.

Record FILE : Set := mk_FILE { f_addr : Z; f_fd : Z; f_offset : Z; f_size : Z; f_error : Z }.
Definition move_to (off : Z) (f : FILE) : FILE := mk_FILE (f_addr f) (f_fd f) off (f_size f) (f_error f).

Section streams.
Context {W : Type} `{!VirtualNode W, !Allocator W, !NodeFields W}.

Definition fopen (filename : list Z) (w : W) : outcome (option FILE * W) :=
  '(node, w1) ← vfs_open (Some filename) w;
  if node =? 0 then Ok (None, w1) else
  '(stream, w2) ← kmalloc sizeof_FILE w1;
  if stream =? 0 then w3 ← vfs_close node w2; Ok (None, w3) else
  sz ← node_size node w2;
  Ok (Some (mk_FILE stream node 0 sz 0), w2).

Definition fclose (stream : option FILE) (w : W) : outcome (Z * W) :=
  match stream with
  | None => Ok (EOF, w)
  | Some f => w1 ← vfs_close (f_fd f) w; '(_, w2) ← kfree (f_addr f) w1; Ok (0, w2)
  end.

(** The bytes read, the count answered and the stream. *)
Definition fread (size nmemb : Z) (stream : option FILE) (w : W) : outcome (list Z * Z * option FILE * W) :=
  match stream with
  | None => Ok ([], 0, None, w)
  | Some f =>
      if f_fd f =? 0 then Ok ([], 0, stream, w) else
      let total_bytes := u32 (size * nmemb) in
      '(bs, w1) ← vfs_read (f_fd f) (u32 (f_offset f)) total_bytes w;
      Ok (bs, if 0 <? size then len bs / size else 0, Some (move_to (u64 (f_offset f + len bs)) f), w1)
  end.

Definition fwrite (ptr : list Z) (size nmemb : Z) (stream : option FILE) (w : W) : outcome (Z * option FILE * W) :=
  match stream with
  | None => Ok (0, None, w)
  | Some f =>
      if f_fd f =? 0 then Ok (0, stream, w) else
      let total_bytes := u32 (size * nmemb) in
      bs ← get_bytes 0 total_bytes ptr;
      '(written, w1) ← vfs_write (f_fd f) (u32 (f_offset f)) bs w;
      Ok (if 0 <? size then written / size else 0, Some (move_to (u64 (f_offset f + written)) f), w1)
  end.
End streams.

(** [offset] is signed. *)
Definition fseek (stream : option FILE) (offset whence : Z) : Z * option FILE :=
  match stream with
  | None => (-1, None)
  | Some f =>
      let ok off := (0, Some (mk_FILE (f_addr f) (f_fd f) off (f_size f) 0)) in
      if whence =? SEEK_SET then
        if offset <? 0 then (-1, stream) else ok (u32 offset)
      else if whence =? SEEK_CUR then
        if (offset <? 0) && (f_offset f <? u32 (- offset)) then (-1, stream)
        else ok (u64 (f_offset f + offset))
      else if whence =? SEEK_END then
        if 0 <? offset then (-1, stream)
        else if f_size f <? u32 (- offset) then (-1, stream)
        else ok (u64 (f_size f + offset))
      else (-1, stream)
  end.

Definition ftell (stream : option FILE) : Z := match stream with None => -1 | Some f => f_offset f end.
Definition rewind (stream : option FILE) : option FILE := snd (fseek stream 0 SEEK_SET).

(** ** Properties *)

Section properties.
Context {W : Type} `{!VirtualNode W, !Allocator W, !NodeFields W, !UserSpace W, !UserLaws W, !FileLaws W}.
Implicit Types w : W.

(** A stream on a file at a position that 32 bits hold. *)
Definition on_file w (f : FILE) (d : list Z) : Prop :=
  user_ok w ∧ f_fd f ≠ 0 ∧ contents w (f_fd f) = Some d ∧ 0 ≤ f_offset f < 2 ^ 32 ∧ len d < 2 ^ 32.

Lemma len_sub_part {A} (d : list A) off n : 0 ≤ off → 0 ≤ n → len (sub off n d) = Z.max 0 (Z.min n (len d - off)).
Proof. intros H0 Hn. unfold sub, len. rewrite length_take, length_drop. lia. Qed.

Lemma fread_spec w f d n size nmemb : on_file w f d → 0 < size → 0 ≤ nmemb → size * nmemb = n → f_offset f + n < 2 ^ 32 →
  let bs := sub (f_offset f) n d in
  ∃ w', fread size nmemb (Some f) w = Ok (bs, len bs / size, Some (move_to (f_offset f + len bs) f), w') ∧
    on_file w' (move_to (f_offset f + len bs) f) d.
Proof.
  intros (Hw & Hfd & Hd & Hoff & Hlen) Hs Hm En Hend bs. unfold fread. rewrite (proj2 (Z.eqb_neq _ _) Hfd).
  assert (H0 : 0 ≤ n) by (subst n; apply Z.mul_nonneg_nonneg; lia). rewrite En, !(wrap_small 32) by lia.
  unfold vfs_read. rewrite (proj2 (Z.eqb_neq _ _) Hfd).
  destruct (read_data w (f_fd f) d (f_offset f) n Hw Hd) as (w' & -> & S); [lia|lia|lia|]. run. fold bs.
  assert (Hbs : 0 ≤ len bs ≤ n) by (unfold bs; rewrite len_sub_part; lia).
  rewrite (proj2 (Z.ltb_lt _ _) Hs), wrap_small by lia. exists w'. split; [done|].
  split_and!; [apply S|done|by rewrite (sd_files _ _ _ S)|cbn; lia|cbn; lia|done].
Qed.

Lemma take_append {A} (l : list A) n m : take n l ++ take m (drop (length (take n l)) l) = take (n + m) l.
Proof.
  rewrite length_take. destruct (decide (n ≤ length l)%nat).
  - rewrite Nat.min_l by done. apply take_take_drop.
  - rewrite Nat.min_r by lia. rewrite drop_all, take_nil, app_nil_r, !take_ge by lia. done.
Qed.

Lemma sub_append {A} (d : list A) off n m : 0 ≤ off → 0 ≤ n → 0 ≤ m →
  sub off n d ++ sub (off + len (sub off n d)) m d = sub off (n + m) d.
Proof.
  intros H0 Hn Hm. unfold sub, len. rewrite (Z2Nat.inj_add off), (Z2Nat.inj_add n), Nat2Z.id by lia.
  rewrite <- drop_drop. apply take_append.
Qed.

(** Reading a stream in two steps reads what one step of the sum would: the bytes
    follow each other from the position, which ends behind them; the counts are
    in whole items. *)
Theorem fread_sequential w f d size n m : on_file w f d → 0 < size → 0 ≤ n → 0 ≤ m →
  f_offset f + size * (n + m) < 2 ^ 32 →
  ∃ b1 c1 f1 w1 b2 c2 f2 w2 w3,
    fread size n (Some f) w = Ok (b1, c1, Some f1, w1) ∧ fread size m (Some f1) w1 = Ok (b2, c2, Some f2, w2) ∧
    c1 = len b1 / size ∧ c2 = len b2 / size ∧
    fread size (n + m) (Some f) w = Ok (b1 ++ b2, len (b1 ++ b2) / size, Some f2, w3) ∧
    ftell (Some f2) = ftell (Some f) + len (b1 ++ b2).
Proof.
  intros Hf Hs Hn Hm Hend. assert (Hn' : 0 ≤ size * n) by (apply Z.mul_nonneg_nonneg; lia).
  assert (Hm' : 0 ≤ size * m) by (apply Z.mul_nonneg_nonneg; lia).
  destruct (fread_spec w f d (size * n) size n Hf Hs Hn eq_refl) as (w1 & E1 & Hf1); [lia|].
  set (b1 := sub (f_offset f) (size * n) d) in *. set (f1 := move_to (f_offset f + len b1) f) in *.
  assert (Hoff : 0 ≤ f_offset f) by apply Hf.
  assert (Hb1 : 0 ≤ len b1 ≤ size * n) by (unfold b1; rewrite len_sub_part; lia).
  destruct (fread_spec w1 f1 d (size * m) size m Hf1 Hs Hm eq_refl) as (w2 & E2 & Hf2); [cbn; lia|].
  set (b2 := sub (f_offset f1) (size * m) d) in *.
  destruct (fread_spec w f d (size * (n + m)) size (n + m) Hf Hs) as (w3 & E3 & _); [lia|done|lia|].
  assert (Eb : sub (f_offset f) (size * (n + m)) d = b1 ++ b2).
  { replace (size * (n + m)) with (size * n + size * m) by ring. symmetry. by apply sub_append. }
  rewrite Eb in E3. exists b1, (len b1 / size), f1, w1, b2, (len b2 / size), (move_to (f_offset f1 + len b2) f1), w2, w3.
  split_and!; [exact E1|exact E2|done|done| |].
  - rewrite E3, len_app. do 4 f_equal. cbn. unfold move_to. cbn. f_equal. lia.
  - cbn. rewrite len_app. lia.
Qed.
End properties.

Import Machine.

Definition demo_FILE : FILE := mk_FILE 0x1000 7 1 4 0.

Lemma fread_sequential_witness :
  ∃ f1 w1 f2 w2, fread 1 2 (Some demo_FILE) demo_machine = Ok ([20; 30], 2, Some f1, w1) ∧
    fread 1 2 (Some f1) w1 = Ok ([40], 1, Some f2, w2) ∧ ftell (Some f2) = 4.
Proof.
  destruct (fread_sequential demo_machine demo_FILE [10; 20; 30; 40] 1 2 2)
    as (b1 & c1 & f1 & w1 & b2 & c2 & f2 & w2 & w3 & E1 & E2 & Ec1 & Ec2 & E3 & Et).
  - split_and!; [exact demo_machine_ok|done|reflexivity|done|done|reflexivity].
  - lia.
  - lia.
  - lia.
  - done.
  - vm_compute in E1. injection E1 as <- <- <- <-. vm_compute in E2. injection E2 as <- <- <- <-.
    do 4 eexists. split; [reflexivity|]. split; [reflexivity|exact Et].
Defined.

(** Positions: what can be reached is reached, what lies before the start is refused. *)
Lemma fseek_positions f off : 0 ≤ f_size f < 2 ^ 32 → 0 ≤ f_offset f < 2 ^ 32 → - 2 ^ 32 < off < 2 ^ 32 →
  (0 ≤ off → fst (fseek (Some f) off SEEK_SET) = 0 ∧ ftell (snd (fseek (Some f) off SEEK_SET)) = off) ∧
  (off < 0 → fseek (Some f) off SEEK_SET = (-1, Some f)) ∧
  (- f_offset f ≤ off → fst (fseek (Some f) off SEEK_CUR) = 0 ∧
     ftell (snd (fseek (Some f) off SEEK_CUR)) = f_offset f + off) ∧
  (off < - f_offset f → fseek (Some f) off SEEK_CUR = (-1, Some f)) ∧
  (- f_size f ≤ off ≤ 0 → fst (fseek (Some f) off SEEK_END) = 0 ∧
     ftell (snd (fseek (Some f) off SEEK_END)) = f_size f + off) ∧
  (off < - f_size f ∨ 0 < off → fseek (Some f) off SEEK_END = (-1, Some f)).
Proof.
  intros Hs Ho Hoff. unfold fseek, SEEK_SET, SEEK_CUR, SEEK_END. cbn [Z.eqb Pos.eqb].
  assert (E : off < 0 → u32 (- off) = - off) by (intros; apply wrap_small; lia).
  split_and!; intros H.
  - rewrite (proj2 (Z.ltb_ge _ _)) by lia. cbn. split; [done|]. apply wrap_small. lia.
  - by rewrite (proj2 (Z.ltb_lt _ _)).
  - destruct (Z.ltb_spec off 0); cbn [andb]; [rewrite E, (proj2 (Z.ltb_ge _ _)) by lia|]; cbn; (split; [done|]; apply wrap_small; lia).
  - rewrite (proj2 (Z.ltb_lt off 0)), E, (proj2 (Z.ltb_lt _ _)) by lia. done.
  - rewrite (proj2 (Z.ltb_ge 0 off)) by lia. destruct (decide (off = 0)) as [->|].
    + change (u32 (- 0)) with 0. rewrite (proj2 (Z.ltb_ge _ _)) by lia. cbn. split; [done|]. apply wrap_small. lia.
    + rewrite E, (proj2 (Z.ltb_ge _ _)) by lia. cbn. split; [done|]. apply wrap_small. lia.
  - destruct (Z.ltb_spec 0 off); [done|]. rewrite E, (proj2 (Z.ltb_lt _ _)) by lia. done.
Qed.

(** The size is the one at the opening: after writing to an empty file the end is
    still at 0, and the next write at the end overwrites the first. *)
Lemma fseek_end_stale {W} `{!VirtualNode W} (w w1 : W) f ptr size nmemb n f1 :
  f_size f = 0 → fwrite ptr size nmemb (Some f) w = Ok (n, Some f1, w1) →
  ftell (snd (fseek (Some f1) 0 SEEK_END)) = 0.
Proof.
  intros H0. unfold fwrite. destruct (f_fd f =? 0); [intros [= _ <- _]; cbn; by rewrite H0|].
  intros E. inv_ok E. inv_ok E. destruct r0 as [wr w']. injection E as _ <- _. cbn. by rewrite H0.
Qed.

(** A position before the start by exactly 2^32 is not refused. *)
Lemma fseek_wraps f : 0 ≤ f_size f < 2 ^ 32 →
  fst (fseek (Some f) (- 2 ^ 32) SEEK_END) = 0 ∧
  ftell (snd (fseek (Some f) (- 2 ^ 32) SEEK_END)) = 2 ^ 64 - 2 ^ 32 + f_size f.
Proof.
  intros H. unfold fseek, SEEK_SET, SEEK_CUR, SEEK_END. cbn [Z.eqb Pos.eqb].
  rewrite (proj2 (Z.ltb_ge 0 _)) by lia. change (u32 (- - 2 ^ 32)) with 0. rewrite (proj2 (Z.ltb_ge _ _)) by lia.
  cbn. split; [done|]. unfold wrap. zdm.
Qed.
End StdFile.
