(* ===== verification/Kex.v ===== *)
(** * The program loader (kernel/exec/kex_loader.cpp)

    [kex_load] starts a program: it reads the ELF header and the program headers
    of a file, looks for the note that marks a program of this system, makes a
    thread and puts the loadable segments at their addresses, in fresh zeroed
    pages.  [kdl_load] loads a library at the next free address of a thread and
    applies its relative relocations.

    Files, the heap, the page tables and the threads are interfaces.  Reading a
    buffer behind the bytes that were read into it is a fault (what is there is
    what the heap left), as is the use of a null buffer. *)

From S2P Require Import Prelude Pfa Paging Bytes Block Vfs Thread UserMem Image Syscall.

Module Kex.
Import Bytes Block Vfs UserMem Image.
Import Thread(thread_t, thread_state_t, THREAD_BLOCKED, THREAD_READY, mk_thread).

(** ** The file format (include/exec/elf.h, include/exec/kex.h) *)

Definition ET_EXEC : Z := 2.
Definition ET_DYN : Z := 3.
Definition EM_X86_64 : Z := 62.
Definition PT_LOAD : Z := 1.
Definition PT_DYNAMIC : Z := 2.
Definition PT_NOTE : Z := 4.
Definition DT_NULL : Z := 0.
Definition DT_RELA : Z := 7.
Definition DT_RELASZ : Z := 8.
Definition DT_RELAENT : Z := 9.
Definition R_X86_64_RELATIVE : Z := 8.
Definition sizeof_Ehdr : Z := 64.
Definition sizeof_Phdr : Z := 56.
Definition sizeof_Rela : Z := 24.
(** "KeonOS" *)
Definition KEX_NOTE_NAME : list Z := [75; 101; 111; 110; 79; 83].
Definition KEX_NOTE_TYPE_VERSION : Z := 0x1001.

Record Elf64_Ehdr : Set := mk_Ehdr {
  e_ident : list Z; e_type : Z; e_machine : Z; e_version : Z; e_entry : Z; e_phoff : Z; e_shoff : Z;
  e_flags : Z; e_ehsize : Z; e_phentsize : Z; e_phnum : Z; e_shentsize : Z; e_shnum : Z; e_shstrndx : Z
}.

(** The structure over its 64 bytes. *)
Definition read_Ehdr (bs : list Z) : Elf64_Ehdr :=
  let f n off := of_le (sub off n bs) in
  mk_Ehdr (sub 0 16 bs) (f 2 16) (f 2 18) (f 4 20) (f 8 24) (f 8 32) (f 8 40) (f 4 48) (f 2 52) (f 2 54)
    (f 2 56) (f 2 58) (f 2 60) (f 2 62).

Definition validate_elf (hdr : Elf64_Ehdr) : bool :=
  let ident i := default 0 (e_ident hdr !! i) in
  if negb (ident 0%nat =? 0x7F) || negb (ident 1%nat =? 69) || negb (ident 2%nat =? 76) || negb (ident 3%nat =? 70)
  then false
  else if negb (ident 4%nat =? 2) then false
  else if negb (ident 5%nat =? 1) then false
  else if negb (e_machine hdr =? EM_X86_64) then false
  else if negb (e_type hdr =? ET_EXEC) && negb (e_type hdr =? ET_DYN) then false
  else true.

(** The fields of the [i]-th program header in the buffer. *)
Definition ph_field (n : nat) (off : Z) (ph : list Z) (i : Z) : outcome Z := get_le n (sizeof_Phdr * i + off) ph.
Definition p_type : list Z → Z → outcome Z := ph_field 4 0.
Definition p_offset : list Z → Z → outcome Z := ph_field 8 8.
Definition p_vaddr : list Z → Z → outcome Z := ph_field 8 16.
Definition p_filesz : list Z → Z → outcome Z := ph_field 8 32.
Definition p_memsz : list Z → Z → outcome Z := ph_field 8 40.

(** [strcmp] of the name in the note with a constant is 0. *)
Fixpoint name_is (bs name : list Z) : outcome bool :=
  match bs, name with
  | [], _ => Fault
  | b :: _, [] => Ok (b =? 0)
  | b :: bs', c :: name' => if b =? c then name_is bs' name' else Ok false
  end.

Definition note_matches (note : list Z) : outcome bool :=
  type ← get32 8 note;
  if negb (type =? KEX_NOTE_TYPE_VERSION) then Ok false else
  namesz ← get32 0 note;
  if negb (namesz =? 7) then Ok false else
  name_is (drop 12 note) KEX_NOTE_NAME.

(** ** Threads *)

Class Threads (W : Type) := {
  thread_add : Z → list Z → bool → W → outcome (Z * W);
  thread_kill : Z → W → outcome (bool * W);
  get_thread : Z → W → outcome thread_t;
  put_thread : Z → thread_t → W → outcome W
}.

Definition set_image (lo hi : Z) (t : thread_t) : thread_t :=
  mk_thread (Thread.rsp t) (Thread.id t) (Thread.name t) (Thread.stack_start t) (Thread.user_stack t) (Thread.is_user t)
    (Thread.next t) (Thread.state t) (Thread.sleep_ticks t) (Thread.exit_code t) lo hi (Thread.user_heap_break t)
    (Thread.dyn_lib_break t) (Thread.fd_table t) (Thread.fd_offset t).
Definition set_break (v : Z) (t : thread_t) : thread_t :=
  mk_thread (Thread.rsp t) (Thread.id t) (Thread.name t) (Thread.stack_start t) (Thread.user_stack t) (Thread.is_user t)
    (Thread.next t) (Thread.state t) (Thread.sleep_ticks t) (Thread.exit_code t) (Thread.user_image_start t)
    (Thread.user_image_end t) v (Thread.dyn_lib_break t) (Thread.fd_table t) (Thread.fd_offset t).
Definition set_dyn_break (v : Z) (t : thread_t) : thread_t :=
  mk_thread (Thread.rsp t) (Thread.id t) (Thread.name t) (Thread.stack_start t) (Thread.user_stack t) (Thread.is_user t)
    (Thread.next t) (Thread.state t) (Thread.sleep_ticks t) (Thread.exit_code t) (Thread.user_image_start t)
    (Thread.user_image_end t) (Thread.user_heap_break t) v (Thread.fd_table t) (Thread.fd_offset t).

Definition page_down (a : Z) : Z := mask_low a 0xFFF.
Definition page_up (a : Z) : Z := mask_low (u64 (a + 0xFFF)) 0xFFF.
Definition SEGMENT_FLAGS : Z := Z.lor (Z.lor Paging.PTE_PRESENT Paging.PTE_USER) Paging.PTE_RW.

Section loader.
Context {W : Type} `{!VirtualNode W, !Allocator W, !UserSpace W, !PageMapper W, !Threads W}.

Definition update_thread (t : Z) (f : thread_t → thread_t) (w : W) : outcome W :=
  th ← get_thread t w; put_thread t (f th) w.

(** ** Segments *)

(** One fresh page, cleared through its address; [inr] is the end of the frames. *)
Definition map_zeroed (addr : Z) (w : W) : outcome (W + W) :=
  '(phys, w1) ← alloc_frame w;
  if phys =? 0 then Ok (inr w1) else
  w2 ← map_page addr phys SEGMENT_FLAGS w1;
  w3 ← store_all (replicate 4096 0) addr w2;
  Ok (inl w3).

Definition map_range (vaddr_start vaddr_end : Z) (w : W) : outcome (W + W) :=
  let page_start := page_down vaddr_start in
  let page_end := page_up vaddr_end in
  for_return (λ i, map_zeroed (page_start + i * 4096)) (Z.to_nat ((page_end - page_start) / 4096)) 0 w.

(** [vfs_read] to an address of the image. *)
Definition read_content (file file_offset file_size vaddr : Z) (w : W) : outcome W :=
  if 0 <? file_size then
    '(bs, w1) ← vfs_read file (u32 file_offset) (u32 file_size) w;
    store_all bs vaddr w1
  else Ok w.

(** ** Programs *)

Fixpoint find_note (n : nat) (i file : Z) (ph : list Z) (found : bool) (w : W) : outcome (bool * W) :=
  match n with
  | O => Ok (found, w)
  | S n' =>
      type ← p_type ph i;
      if type =? PT_NOTE then
        size ← p_filesz ph i;
        off ← p_offset ph i;
        '(note_buf, w1) ← kmalloc size w;
        '(note, w2) ← vfs_read file (u32 off) (u32 size) w1;
        if note_buf =? 0 then Fault else
        ok ← note_matches note;
        '(_, w3) ← kfree note_buf w2;
        find_note n' (i + 1) file ph (found || ok) w3
      else find_note n' (i + 1) file ph found w
  end.

(** The loop over the loadable segments, with the least and the greatest address. *)
Fixpoint load_segments (n : nat) (i file : Z) (ph : list Z) (max_vaddr min_vaddr : Z) (w : W)
  : outcome (Z * Z * (W + W)) :=
  match n with
  | O => Ok (max_vaddr, min_vaddr, inl w)
  | S n' =>
      type ← p_type ph i;
      if type =? PT_LOAD then
        vaddr_start ← p_vaddr ph i;
        memsz ← p_memsz ph i;
        file_offset ← p_offset ph i;
        file_size ← p_filesz ph i;
        let vaddr_end := u64 (vaddr_start + memsz) in
        if vaddr_end =? vaddr_start then load_segments n' (i + 1) file ph max_vaddr min_vaddr w else
        let max_vaddr := if max_vaddr <? vaddr_end then vaddr_end else max_vaddr in
        let min_vaddr := if vaddr_start <? min_vaddr then vaddr_start else min_vaddr in
        r ← map_range vaddr_start vaddr_end w;
        match r with
        | inr w1 => Ok (max_vaddr, min_vaddr, inr w1)
        | inl w1 =>
            w2 ← read_content file file_offset file_size vaddr_start w1;
            load_segments n' (i + 1) file ph max_vaddr min_vaddr w2
        end
      else load_segments n' (i + 1) file ph max_vaddr min_vaddr w
  end.

(** The errors: the program headers are freed and the file is closed. *)
Definition give_back (ph_buf file : Z) (w : W) : outcome W :=
  '(_, w1) ← kfree ph_buf w; vfs_close file w1.

(** The buffer of the program headers and the bytes read to it. *)
Definition read_headers (file : Z) (hdr : Elf64_Ehdr) (w : W) : outcome (Z * list Z * W) :=
  let ph_size := u32 (e_phnum hdr * e_phentsize hdr) in
  '(ph_buf, w1) ← kmalloc ph_size w;
  '(ph, w2) ← vfs_read file (u32 (e_phoff hdr)) ph_size w1;
  if (ph_buf =? 0) && (0 <? len ph) then Fault else Ok (ph_buf, ph, w2).

Definition HEAP_START : Z := 0x40000000.

(** After the note was found: the thread and its image. *)
Definition start_program (path : list Z) (hdr : Elf64_Ehdr) (file ph_buf : Z) (ph : list Z) (w : W) : outcome (Z * W) :=
  '(t, w1) ← thread_add (e_entry hdr) path true w;
  if t =? 0 then w2 ← give_back ph_buf file w1; Ok (-1, w2) else
  w2 ← update_thread t (Thread.set_state THREAD_BLOCKED) w1;
  '(max_vaddr, min_vaddr, r) ← load_segments (Z.to_nat (e_phnum hdr)) 0 file ph 0 (2 ^ 64 - 1) w2;
  match r with
  | inr w3 =>
      w4 ← update_thread t (set_image (page_down min_vaddr) (page_up max_vaddr)) w3;
      th ← get_thread t w4;
      '(_, w5) ← thread_kill (Thread.id th) w4;
      w6 ← give_back ph_buf file w5;
      Ok (-1, w6)
  | inl w3 =>
      w4 ← update_thread t (set_image (page_down min_vaddr) (page_up max_vaddr)) w3;
      let max_vaddr := if max_vaddr <? HEAP_START then HEAP_START else max_vaddr in
      w5 ← update_thread t (set_break (page_up max_vaddr)) w4;
      w6 ← give_back ph_buf file w5;
      w7 ← update_thread t (Thread.set_state THREAD_READY) w6;
      th ← get_thread t w7;
      Ok (signed 32 (Thread.id th), w7)
  end.

Definition kex_load (path : list Z) (w : W) : outcome (Z * W) :=
  '(file, w1) ← vfs_open (Some path) w;
  if file =? 0 then Ok (-1, w1) else
  '(hb, w2) ← vfs_read file 0 sizeof_Ehdr w1;
  if negb (len hb =? sizeof_Ehdr) then w3 ← vfs_close file w2; Ok (-1, w3) else
  let hdr := read_Ehdr hb in
  if negb (validate_elf hdr) then w3 ← vfs_close file w2; Ok (-1, w3) else
  '(ph_buf, ph, w3) ← read_headers file hdr w2;
  if negb (len ph =? u32 (e_phnum hdr * e_phentsize hdr)) then w4 ← give_back ph_buf file w3; Ok (-1, w4) else
  '(found, w4) ← find_note (Z.to_nat (e_phnum hdr)) 0 file ph false w3;
  if negb found then w5 ← give_back ph_buf file w4; Ok (-1, w5) else
  start_program path hdr file ph_buf ph w4.

(** ** Libraries *)

(** The end of the last segment. *)
Fixpoint library_end (n : nat) (i : Z) (ph : list Z) (lib_size : Z) : outcome Z :=
  match n with
  | O => Ok lib_size
  | S n' =>
      type ← p_type ph i;
      if type =? PT_LOAD then
        vaddr ← p_vaddr ph i;
        memsz ← p_memsz ph i;
        let seg_end := u64 (vaddr + memsz) in
        library_end n' (i + 1) ph (if lib_size <? seg_end then seg_end else lib_size)
      else library_end n' (i + 1) ph lib_size
  end.

(** The loop over the segments, with the address of the dynamic table. *)
Fixpoint map_segments (n : nat) (i file load_base : Z) (ph : list Z) (dyn_table : Z) (w : W) : outcome (Z * (W + W)) :=
  match n with
  | O => Ok (dyn_table, inl w)
  | S n' =>
      type ← p_type ph i;
      if type =? PT_LOAD then
        vaddr ← p_vaddr ph i;
        memsz ← p_memsz ph i;
        file_offset ← p_offset ph i;
        file_size ← p_filesz ph i;
        let vaddr_start := u64 (load_base + vaddr) in
        let vaddr_end := u64 (load_base + vaddr + memsz) in
        if vaddr_end =? vaddr_start then map_segments n' (i + 1) file load_base ph dyn_table w else
        r ← map_range vaddr_start vaddr_end w;
        match r with
        | inr w1 => Ok (dyn_table, inr w1)
        | inl w1 =>
            w2 ← read_content file file_offset file_size vaddr_start w1;
            map_segments n' (i + 1) file load_base ph dyn_table w2
        end
      else if type =? PT_DYNAMIC then
        vaddr ← p_vaddr ph i;
        map_segments n' (i + 1) file load_base ph (u64 (load_base + vaddr)) w
      else map_segments n' (i + 1) file load_base ph dyn_table w
  end.

(** The entries of the dynamic table up to the null tag. *)
Fixpoint read_dynamic (fuel : nat) (load_base d rela rela_sz rela_ent : Z) (w : W) : outcome (Z * Z * Z) :=
  match fuel with
  | O => OutOfFuel
  | S fuel' =>
      tag ← load64 d w;
      if tag =? DT_NULL then Ok (rela, rela_sz, rela_ent) else
      let next := u64 (d + 16) in
      if tag =? DT_RELA then v ← load64 (u64 (d + 8)) w; read_dynamic fuel' load_base next (u64 (load_base + v)) rela_sz rela_ent w
      else if tag =? DT_RELASZ then v ← load64 (u64 (d + 8)) w; read_dynamic fuel' load_base next rela v rela_ent w
      else if tag =? DT_RELAENT then v ← load64 (u64 (d + 8)) w; read_dynamic fuel' load_base next rela rela_sz v w
      else read_dynamic fuel' load_base next rela rela_sz rela_ent w
  end.

Definition relocate_one (load_base rela i : Z) (w : W) : outcome W :=
  let r := u64 (rela + sizeof_Rela * i) in
  info ← load64 (u64 (r + 8)) w;
  if Z.land info 0xffffffff =? R_X86_64_RELATIVE then
    offset ← load64 r w;
    addend ← load64 (u64 (r + 16)) w;
    store64 (u64 (load_base + offset)) (u64 (load_base + addend)) w
  else Ok w.

Definition relocate (fuel : nat) (load_base dyn_table : Z) (w : W) : outcome W :=
  if dyn_table =? 0 then Ok w else
  '(rela, rela_sz, rela_ent) ← read_dynamic fuel load_base dyn_table 0 0 0 w;
  if negb (rela =? 0) && (0 <? rela_ent) then
    for_range (relocate_one load_base rela) (Z.to_nat (rela_sz / rela_ent)) 0 w
  else Ok w.

Definition LIBRARY_BASE : Z := 0x700000000000.

(** After the headers were read. *)
Definition load_library (fuel : nat) (hdr : Elf64_Ehdr) (file ph_buf : Z) (ph : list Z) (t : Z) (w : W) : outcome (Z * W) :=
  let n := Z.to_nat (e_phnum hdr) in
  lib_end ← library_end n 0 ph 0;
  let lib_size := page_up lib_end in
  w1 ← update_thread t (λ th, if Thread.dyn_lib_break th =? 0 then set_dyn_break LIBRARY_BASE th else th) w;
  th ← get_thread t w1;
  let load_base := Thread.dyn_lib_break th in
  w2 ← update_thread t (set_dyn_break (u64 (load_base + lib_size))) w1;
  '(dyn_table, r) ← map_segments n 0 file load_base ph 0 w2;
  match r with
  | inr w3 => w4 ← give_back ph_buf file w3; Ok (0, w4)
  | inl w3 =>
      w4 ← relocate fuel load_base dyn_table w3;
      w5 ← give_back ph_buf file w4;
      Ok (load_base, w5)
  end.

Definition kdl_load (fuel : nat) (path : list Z) (t : Z) (w : W) : outcome (Z * W) :=
  if t =? 0 then Ok (0, w) else
  '(file, w1) ← vfs_open (Some path) w;
  if file =? 0 then Ok (0, w1) else
  '(hb, w2) ← vfs_read file 0 sizeof_Ehdr w1;
  if negb (len hb =? sizeof_Ehdr) then w3 ← vfs_close file w2; Ok (0, w3) else
  let hdr := read_Ehdr hb in
  if negb (validate_elf hdr) || negb (e_type hdr =? ET_DYN) then w3 ← vfs_close file w2; Ok (0, w3) else
  '(ph_buf, ph, w3) ← read_headers file hdr w2;
  if negb (len ph =? u32 (e_phnum hdr * e_phentsize hdr)) then w4 ← give_back ph_buf file w3; Ok (0, w4) else
  load_library fuel hdr file ph_buf ph t w3.
End loader.

(** ** What the loader relies on *)

(** Besides the files and the threads, these laws idealise the kernel heap: a request of at
    most [max_alloc] bytes is always served, and giving a buffer back always works.
    A load that runs out of memory is therefore not covered by what follows. *)
Class LoaderLaws (W : Type) `{!VirtualNode W, !Allocator W, !UserSpace W, !PageMapper W, !Threads W, !ImageLaws W} := {
  contents_of : W → Z → option (list Z);
  threads_of : W → gmap Z thread_t;
  max_alloc : Z;
  thread_frames : nat;
  ll_bytes w p d : contents_of w p = Some d → Forall byte d;
  ll_read w m k p d off n : holds w m k → contents_of w p = Some d → 0 ≤ off → 0 ≤ n → off + n < 2 ^ 32 →
    ∃ w', node_read p off n w = Ok (sub off n d, w') ∧ holds w' m k ∧
      contents_of w' = contents_of w ∧ threads_of w' = threads_of w;
  ll_close w m k p d : holds w m k → contents_of w p = Some d →
    ∃ w', node_close p w = Ok w' ∧ holds w' m k ∧ threads_of w' = threads_of w;
  ll_kmalloc w m k n : holds w m k → 0 ≤ n ≤ max_alloc →
    ∃ p w', kmalloc n w = Ok (p, w') ∧ p ≠ 0 ∧ holds w' m k ∧
      contents_of w' = contents_of w ∧ threads_of w' = threads_of w;
  ll_kfree w m k p : holds w m k → ∃ w', kfree p w = Ok ((), w') ∧ holds w' m k ∧
      contents_of w' = contents_of w ∧ threads_of w' = threads_of w;
  ll_alloc w g w' : alloc_frame w = Ok (g, w') → contents_of w' = contents_of w ∧ threads_of w' = threads_of w;
  ll_map w va pa fl w' : map_page va pa fl w = Ok w' → contents_of w' = contents_of w ∧ threads_of w' = threads_of w;
  ll_store w u b w' : store_user u b w = Ok w' → contents_of w' = contents_of w ∧ threads_of w' = threads_of w;
  ll_add w m k e nm : holds w m k → (thread_frames ≤ k)%nat →
    ∃ t th w' m' k', thread_add e nm true w = Ok (t, w') ∧ t ≠ 0 ∧ holds w' m' k' ∧ (k ≤ k' + thread_frames)%nat ∧
      (∀ u, u < Thread.USER_STACK_BASE → m' u = m u) ∧ contents_of w' = contents_of w ∧
      threads_of w' !! t = Some th;
  ll_get w t th : threads_of w !! t = Some th → get_thread t w = Ok th;
  ll_put w m k t th th' : holds w m k → threads_of w !! t = Some th →
    ∃ w', put_thread t th' w = Ok w' ∧ holds w' m k ∧ contents_of w' = contents_of w ∧
      threads_of w' = <[t := th']> (threads_of w)
}.

(** ** Segments *)

(** A field of a header that is inside the buffer. *)
Definition header (n : nat) (off : Z) (ph : list Z) (i : Z) : Z := of_le (sub (sizeof_Phdr * i + off) (Z.of_nat n) ph).

Record segment : Set := mk_segment { sg_vaddr : Z; sg_memsz : Z; sg_offset : Z; sg_filesz : Z }.

Definition segment_of (ph : list Z) (i : Z) : segment :=
  mk_segment (header 8 16 ph i) (header 8 40 ph i) (header 8 8 ph i) (header 8 32 ph i).

(** The segments with contents among the headers from [i] on. *)
Fixpoint segments (n : nat) (i : Z) (ph : list Z) : list segment :=
  match n with
  | O => []
  | S n' => let s := segment_of ph i in
      if (header 4 0 ph i =? PT_LOAD) && negb (sg_memsz s =? 0) then s :: segments n' (i + 1) ph
      else segments n' (i + 1) ph
  end.

(** A segment below [limit] when loaded at [base], whose file part fits. *)
Definition segment_ok (base limit : Z) (s : segment) : Prop :=
  0 ≤ sg_vaddr s ∧ 0 < sg_memsz s ∧ base + sg_vaddr s + sg_memsz s + 4095 ≤ limit ∧
  0 ≤ sg_filesz s ≤ sg_memsz s ∧ 0 ≤ sg_offset s ∧ sg_offset s + sg_filesz s < 2 ^ 32.

Definition seg_pages (base : Z) (s : segment) : nat :=
  Z.to_nat ((page_up (base + sg_vaddr s + sg_memsz s) - page_down (base + sg_vaddr s)) / 4096).
Definition in_pages (base : Z) (s : segment) (u : Z) : Prop :=
  page_down (base + sg_vaddr s) ≤ u < page_up (base + sg_vaddr s + sg_memsz s).

Definition place (base : Z) (d : list Z) (m : memory) (s : segment) : memory :=
  fill (base + sg_vaddr s) (sub (sg_offset s) (sg_filesz s) d)
    (fill (page_down (base + sg_vaddr s)) (replicate (4096 * seg_pages base s) 0) m).
Definition image_of (base : Z) (d : list Z) (ss : list segment) (m : memory) : memory := foldl (place base d) m ss.

Lemma page_down_eq a : page_down a = a - a mod 4096.
Proof. apply Paging.mask_page_eq. Qed.

Lemma page_up_eq a : 0 ≤ a → a + 4095 < 2 ^ 64 → page_up a = a + 4095 - (a + 4095) mod 4096.
Proof. intros. unfold page_up. rewrite wrap_small by lia. apply Paging.mask_page_eq. Qed.

Lemma seg_pages_spec base limit s : 0 ≤ base → limit ≤ 2 ^ 47 → segment_ok base limit s →
  page_up (base + sg_vaddr s + sg_memsz s) = page_down (base + sg_vaddr s) + 4096 * Z.of_nat (seg_pages base s) ∧
  page_down (base + sg_vaddr s) mod 4096 = 0 ∧ 0 ≤ page_down (base + sg_vaddr s) ≤ base + sg_vaddr s ∧
  base + sg_vaddr s + sg_memsz s ≤ page_up (base + sg_vaddr s + sg_memsz s) ≤ limit.
Proof.
  intros H0 Hl (Hv & Hm & Hend & Hf & Ho & _). unfold seg_pages. rewrite page_up_eq, !page_down_eq by lia.
  rewrite Z2Nat.id by zdm. split_and!; zdm.
Qed.

Lemma place_in base limit d m s u : 0 ≤ base → limit ≤ 2 ^ 47 → segment_ok base limit s →
  base + sg_vaddr s ≤ u < base + sg_vaddr s + sg_memsz s → sg_offset s + sg_filesz s ≤ len d →
  place base d m s u = Some (if decide (u - (base + sg_vaddr s) < sg_filesz s)
    then default 0 (d !! Z.to_nat (sg_offset s + (u - (base + sg_vaddr s)))) else 0).
Proof.
  intros H0 Hl Hs Hu Hd. destruct (seg_pages_spec base limit s H0 Hl Hs) as (E & Ha & Hd1 & Hu1).
  destruct Hs as (Hv & Hm & Hend & Hf & Ho & _). unfold place.
  assert (El : len (sub (sg_offset s) (sg_filesz s) d) = sg_filesz s) by (apply len_sub; lia).
  case_decide as Hin.
  - rewrite fill_in by lia. rewrite lookup_sub by lia. replace (_ + _)%nat with (Z.to_nat (sg_offset s + (u - (base + sg_vaddr s)))) by lia.
    destruct (d !! _) eqn:Ed; [done|]. apply lookup_ge_None_1 in Ed. unfold len in Hd. lia.
  - rewrite fill_out by lia. rewrite fill_in by (unfold len; rewrite length_replicate; lia).
    apply lookup_replicate_2. lia.
Qed.

Lemma place_out base limit d m s u : 0 ≤ base → limit ≤ 2 ^ 47 → segment_ok base limit s → sg_offset s + sg_filesz s ≤ len d →
  ¬ in_pages base s u → place base d m s u = m u.
Proof.
  intros H0 Hl Hs Hd Hu. destruct (seg_pages_spec base limit s H0 Hl Hs) as (E & Ha & Hd1 & Hu1).
  destruct Hs as (Hv & Hm & Hend & Hf & Ho & _). unfold place, in_pages in *.
  assert (El : len (sub (sg_offset s) (sg_filesz s) d) = sg_filesz s) by (apply len_sub; lia).
  rewrite !fill_out; [done| |lia]. unfold len. rewrite length_replicate. lia.
Qed.

Lemma image_out base limit d ss m u : 0 ≤ base → limit ≤ 2 ^ 47 →
  Forall (λ s, segment_ok base limit s ∧ sg_offset s + sg_filesz s ≤ len d) ss →
  Forall (λ s, ¬ in_pages base s u) ss → image_of base d ss m u = m u.
Proof.
  intros H0 Hl Hs. revert m. induction Hs as [|s ss [Hs Hd] _ IH]; intros m Hu; [done|].
  apply Forall_cons in Hu as [Hu Hu']. unfold image_of. cbn [foldl]. fold (image_of base d ss (place base d m s)).
  rewrite IH by done. by apply (place_out base limit).
Qed.

Lemma image_in base limit d s1 s s2 m u : 0 ≤ base → limit ≤ 2 ^ 47 →
  Forall (λ s, segment_ok base limit s ∧ sg_offset s + sg_filesz s ≤ len d) (s1 ++ s :: s2) →
  Forall (λ s, ¬ in_pages base s u) s2 → base + sg_vaddr s ≤ u < base + sg_vaddr s + sg_memsz s →
  image_of base d (s1 ++ s :: s2) m u = Some (if decide (u - (base + sg_vaddr s) < sg_filesz s)
    then default 0 (d !! Z.to_nat (sg_offset s + (u - (base + sg_vaddr s)))) else 0).
Proof.
  intros H0 Hl Hall Hu2 Hu. apply Forall_app in Hall as [_ [[Hs Hd] Hs2]%Forall_cons].
  unfold image_of. rewrite foldl_app. cbn [foldl]. fold (image_of base d s1 m).
  fold (image_of base d s2 (place base d (image_of base d s1 m) s)).
  rewrite (image_out base limit) by done. by apply (place_in base limit).
Qed.

Section laws.
Context {W : Type} `{!VirtualNode W, !Allocator W, !UserSpace W, !PageMapper W, !Threads W, !ImageLaws W, !LoaderLaws W}.
Implicit Types (w : W) (m : memory) (F : Z → option (list Z)) (Th : gmap Z thread_t).

(** The state of the loader: memory, free frames, files and threads. *)
Record at_state w m (k : nat) F Th : Prop := {
  as_holds : holds w m k;
  as_files : contents_of w = F;
  as_threads : threads_of w = Th
}.

Lemma at_state_ext w m m' k F Th : at_state w m k F Th → (∀ u, m' u = m u) → at_state w m' k F Th.
Proof. intros [] ?. constructor; [by eapply holds_ext|done..]. Qed.

Lemma store_all_files bs : ∀ a w w', store_all bs a w = Ok w' → contents_of w' = contents_of w ∧ threads_of w' = threads_of w.
Proof.
  induction bs as [|b bs IH]; intros a w w'; cbn [store_all]; [by intros [= <-]|].
  intros H. inv_ok H. destruct (IH _ _ _ H) as [-> ->]. by apply (ll_store w a b).
Qed.

Lemma store_all_state bs a w m k F Th : at_state w m k F Th → Forall byte bs → (∀ u, a ≤ u < a + len bs → is_Some (m u)) →
  ∃ w', store_all bs a w = Ok w' ∧ at_state w' (fill a bs m) k F Th.
Proof.
  intros [Hw HF HT] Hb Hm. destruct (store_all_spec bs a w m k Hw Hb Hm) as (w' & E & Hw').
  destruct (store_all_files bs a w w' E) as [E1 E2]. exists w'. split; [done|]. constructor; congruence.
Qed.

Lemma map_zeroed_state addr w m k F Th : at_state w m k F Th → addr mod 4096 = 0 → 0 ≤ addr → addr + 4096 ≤ 2 ^ 47 →
  (5 ≤ k)%nat → ∃ w' k', map_zeroed addr w = Ok (inl w') ∧ at_state w' (fill addr (replicate 4096 0) m) k' F Th ∧
    (k ≤ k' + 4)%nat.
Proof.
  intros [Hw HF HT] Ha H0 Hend Hk. unfold map_zeroed.
  destruct (page_law w m k addr SEGMENT_FLAGS Hw Ha H0 Hend) as (g & w1 & w2 & bs & k' & E1 & Hg & E2 & Hbs & Hw2 & Hk');
    [done|done|]. rewrite E1. run. rewrite (proj2 (Z.eqb_neq _ _) Hg), E2. run.
  destruct (ll_alloc w g w1 E1) as [F1 T1]. destruct (ll_map w1 addr g _ w2 E2) as [F2 T2].
  destruct (store_all_state (replicate 4096 0) addr w2 (fill addr bs m) k' F Th) as (w3 & -> & H3).
  - constructor; congruence.
  - apply Forall_replicate. lia.
  - intros u Hu. apply fill_some. unfold len in *. rewrite length_replicate in Hu. lia.
  - run. exists w3, k'. split_and!; [done| |done]. apply (at_state_ext _ _ _ _ _ _ H3). intros u.
    unfold fill, len. rewrite length_replicate, Hbs. by case_decide.
Qed.

(** Adjacent pages of zeros. *)
Lemma fill_zeros a n n' m u :
  fill (a + Z.of_nat n) (replicate n' 0) (fill a (replicate n 0) m) u = fill a (replicate (n + n') 0) m u.
Proof.
  unfold fill, len. rewrite !length_replicate. case_decide as H1.
  - rewrite decide_True by lia. rewrite !lookup_replicate_2 by lia. done.
  - case_decide as H2.
    + rewrite decide_True by lia. rewrite !lookup_replicate_2 by lia. done.
    + by rewrite decide_False by lia.
Qed.

Lemma map_pages_state n : ∀ i a w m k F Th, at_state w m k F Th → a mod 4096 = 0 → 0 ≤ a → 0 ≤ i →
  a + (i + Z.of_nat n) * 4096 ≤ 2 ^ 47 → (4 * n + 1 ≤ k)%nat →
  ∃ w' k', for_return (λ i, map_zeroed (a + i * 4096)) n i w = Ok (inl w') ∧
    at_state w' (fill (a + i * 4096) (replicate (4096 * n) 0) m) k' F Th ∧ (k ≤ k' + 4 * n)%nat.
Proof.
  induction n as [|n IH]; intros i a w m k F Th Hw Ha H0 Hi Hend Hk; cbn [for_return].
  { exists w, k. split_and!; [done| |lia]. apply (at_state_ext _ _ _ _ _ _ Hw). intros u.
    rewrite Nat.mul_0_r. apply fill_out. unfold len. cbn. lia. }
  destruct (map_zeroed_state (a + i * 4096) w m k F Th Hw) as (w1 & k1 & -> & H1 & Hk1);
    [by rewrite Z.mod_add|lia|lia|lia|]. run.
  destruct (IH (i + 1) a w1 _ k1 F Th H1) as (w2 & k2 & E2 & H2 & Hk2); [done|lia|lia|lia|lia|].
  rewrite E2. exists w2, k2. split_and!; [done| |lia]. apply (at_state_ext _ _ _ _ _ _ H2). intros u.
  replace (a + (i + 1) * 4096) with (a + i * 4096 + Z.of_nat 4096) by lia.
  rewrite fill_zeros. do 2 f_equal. lia.
Qed.

Lemma map_range_state base s w m k F Th : at_state w m k F Th → 0 ≤ base → segment_ok base (2 ^ 47) s →
  (4 * seg_pages base s + 1 ≤ k)%nat →
  ∃ w' k', map_range (base + sg_vaddr s) (base + sg_vaddr s + sg_memsz s) w = Ok (inl w') ∧
    at_state w' (fill (page_down (base + sg_vaddr s)) (replicate (4096 * seg_pages base s) 0) m) k' F Th ∧
    (k ≤ k' + 4 * seg_pages base s)%nat.
Proof.
  intros Hw H0 Hs Hk. destruct (seg_pages_spec base _ s H0 (Z.le_refl _) Hs) as (E & Ha & Hd & Hu).
  unfold map_range. fold (seg_pages base s).
  destruct (map_pages_state (seg_pages base s) 0 (page_down (base + sg_vaddr s)) w m k F Th Hw)
    as (w' & k' & E' & H' & Hk'); [done|lia|lia|lia|done|].
  rewrite E'. exists w', k'. split_and!; [done| |done]. by rewrite Z.mul_0_l, Z.add_0_r in H'.
Qed.

(** A segment of the file [d]. *)
Lemma load_segment_state base s file d w m k F Th : at_state w m k F Th → file ≠ 0 → F file = Some d →
  0 ≤ base → segment_ok base (2 ^ 47) s → sg_offset s + sg_filesz s ≤ len d → (4 * seg_pages base s + 1 ≤ k)%nat →
  ∃ w1 w2 k', map_range (base + sg_vaddr s) (base + sg_vaddr s + sg_memsz s) w = Ok (inl w1) ∧
    read_content file (sg_offset s) (sg_filesz s) (base + sg_vaddr s) w1 = Ok w2 ∧
    at_state w2 (place base d m s) k' F Th ∧ (k ≤ k' + 4 * seg_pages base s)%nat.
Proof.
  intros Hw Hfile Hd H0 Hs Hlen Hk. destruct (map_range_state base s w m k F Th Hw H0 Hs Hk) as (w1 & k' & E1 & H1 & Hk').
  destruct (seg_pages_spec base _ s H0 (Z.le_refl _) Hs) as (E & Ha & Hdn & Hu).
  destruct Hs as (Hv & Hm & Hend & Hf & Ho & Hoff). exists w1. unfold read_content, place.
  destruct (Z.ltb_spec 0 (sg_filesz s)).
  - rewrite !wrap_small by lia. unfold vfs_read. rewrite (proj2 (Z.eqb_neq _ _) Hfile).
    destruct H1 as [Hh1 HF1 HT1]. assert (Hd1 : contents_of w1 file = Some d) by (by rewrite HF1).
    destruct (ll_read w1 _ k' file d (sg_offset s) (sg_filesz s) Hh1 Hd1) as (w2 & E2 & Hh2 & HF2 & HT2); [lia..|].
    rewrite E2. run. destruct (store_all_state (sub (sg_offset s) (sg_filesz s) d) (base + sg_vaddr s) w2
      (fill (page_down (base + sg_vaddr s)) (replicate (4096 * seg_pages base s) 0) m) k' F Th) as (w3 & E3 & H3).
    + constructor; [exact Hh2|congruence|congruence].
    + by apply Forall_sub, (ll_bytes w1 file).
    + intros u Hu'. apply fill_some. rewrite len_sub in Hu' by lia. unfold len. rewrite length_replicate. lia.
    + exists w3, k'. by rewrite E3.
  - exists w1, k'. split_and!; [done|done| |done]. apply (at_state_ext _ _ _ _ _ _ H1). intros u.
    apply fill_out. replace (sg_filesz s) with 0 by lia. rewrite sub_0. unfold len. cbn. lia.
Qed.

(** ** Headers *)

Lemma ph_field_ok n off ph i : 0 ≤ off → 0 ≤ i → 56 * i + off + Z.of_nat n ≤ len ph →
  ph_field n off ph i = Ok (header n off ph i).
Proof. intros. unfold ph_field, header, sizeof_Phdr in *. apply get_le_ok; lia. Qed.

Lemma header_range n off ph i : Forall byte ph → 0 ≤ header n off ph i.
Proof. intros H. unfold header. apply of_le_range. by apply Forall_sub. Qed.

Lemma header_small n off ph i : Forall byte ph → header n off ph i < 2 ^ (8 * Z.of_nat n).
Proof.
  intros H. unfold header. pose proof (of_le_range (sub (sizeof_Phdr * i + off) (Z.of_nat n) ph) ltac:(by apply Forall_sub)) as [_ Hlt].
  eapply Z.lt_le_trans; [exact Hlt|]. apply Z.pow_le_mono_r; [lia|]. unfold sub, len. rewrite length_take. lia.
Qed.

(** Headers from [i] on that are inside the buffer. *)
Definition headers_in (n : nat) (i : Z) (ph : list Z) : Prop :=
  Forall byte ph ∧ 0 ≤ i ∧ 56 * (i + Z.of_nat n) ≤ len ph.

Lemma headers_in_S n i ph : headers_in (S n) i ph → headers_in n (i + 1) ph.
Proof. unfold headers_in. intros (? & ? & ?). split_and!; [done|lia|lia]. Qed.

Lemma header_fields n i ph : headers_in (S n) i ph →
  p_type ph i = Ok (header 4 0 ph i) ∧ p_vaddr ph i = Ok (sg_vaddr (segment_of ph i)) ∧
  p_memsz ph i = Ok (sg_memsz (segment_of ph i)) ∧ p_offset ph i = Ok (sg_offset (segment_of ph i)) ∧
  p_filesz ph i = Ok (sg_filesz (segment_of ph i)).
Proof.
  intros (_ & Hi & Hlen). unfold p_type, p_vaddr, p_memsz, p_offset, p_filesz, segment_of.
  cbn [sg_vaddr sg_memsz sg_offset sg_filesz]. rewrite !ph_field_ok by lia. done.
Qed.

Lemma memsz_zero base ph i : Forall byte ph → sg_memsz (segment_of ph i) < 2 ^ 64 →
  (u64 (base + sg_memsz (segment_of ph i)) =? base) = true → 0 ≤ base < 2 ^ 64 → sg_memsz (segment_of ph i) = 0.
Proof.
  intros Hb Hlt He Hba. apply Z.eqb_eq in He. pose proof (header_range 8 40 ph i Hb).
  unfold segment_of in *. cbn [sg_memsz] in *. unfold wrap in He. zdm.
Qed.

Definition max_end (ss : list segment) (a : Z) : Z := foldl (λ a s, Z.max a (sg_vaddr s + sg_memsz s)) a ss.
Definition min_start (ss : list segment) (a : Z) : Z := foldl (λ a s, Z.min a (sg_vaddr s)) a ss.

Definition total_pages (base : Z) (ss : list segment) : nat := foldr (λ s n, (seg_pages base s + n)%nat) O ss.

Lemma if_max a b : (if a <? b then b else a) = Z.max a b.
Proof. destruct (Z.ltb_spec a b); lia. Qed.
Lemma if_min a b : (if b <? a then b else a) = Z.min a b.
Proof. destruct (Z.ltb_spec b a); lia. Qed.

Lemma load_segments_state n : ∀ i file d ph mx mn w m k F Th,
  at_state w m k F Th → file ≠ 0 → F file = Some d → headers_in n i ph →
  Forall (λ s, segment_ok 0 (2 ^ 47) s ∧ sg_offset s + sg_filesz s ≤ len d) (segments n i ph) →
  (4 * total_pages 0 (segments n i ph) + 1 ≤ k)%nat →
  ∃ w' k', load_segments n i file ph mx mn w =
      Ok (max_end (segments n i ph) mx, min_start (segments n i ph) mn, inl w') ∧
    at_state w' (image_of 0 d (segments n i ph) m) k' F Th.
Proof.
  induction n as [|n IH]; intros i file d ph mx mn w m k F Th Hw Hfile Hd Hin Hs Hk; cbn [load_segments].
  { exists w, k. by split. }
  destruct (header_fields n i ph Hin) as (-> & Ev & Em & Eo & Ef). run.
  pose proof (headers_in_S _ _ _ Hin) as Hin'. cbn [segments] in Hs, Hk |- *. set (s := segment_of ph i) in *.
  destruct (header 4 0 ph i =? PT_LOAD); cbn [andb negb] in *; [|by apply (IH (i + 1) file d ph mx mn w m k F Th)].
  rewrite Ev, Em, Eo, Ef. run.
  assert (Hms : 0 ≤ sg_memsz s < 2 ^ 64) by (split; [apply (header_range 8 40 ph i)|apply (header_small 8 40 ph i)]; apply Hin).
  assert (Hvs : 0 ≤ sg_vaddr s < 2 ^ 64) by (split; [apply (header_range 8 16 ph i)|apply (header_small 8 16 ph i)]; apply Hin).
  destruct (Z.eqb_spec (sg_memsz s) 0) as [E0|Hne]; cbn [negb] in *.
  { rewrite E0, Z.add_0_r, wrap_small, Z.eqb_refl by lia. by apply (IH (i + 1) file d ph mx mn w m k F Th). }
  apply Forall_cons in Hs as [[Hs Hlen] Hs']. cbn [total_pages foldr] in Hk. fold (total_pages 0 (segments n (i + 1) ph)) in Hk.
  destruct (load_segment_state 0 s file d w m k F Th Hw Hfile Hd (Z.le_refl 0) Hs Hlen) as (w1 & w2 & k' & E1 & E2 & H2 & Hk2); [lia|].
  rewrite Z.add_0_l in E1, E2. assert (Ew : u64 (sg_vaddr s + sg_memsz s) = sg_vaddr s + sg_memsz s).
  { apply wrap_small. destruct Hs as (? & ? & ? & _). lia. }
  rewrite Ew, (proj2 (Z.eqb_neq _ _)), if_max, if_min, E1 by lia. run. rewrite E2. run.
  destruct (IH (i + 1) file d ph (Z.max mx (sg_vaddr s + sg_memsz s)) (Z.min mn (sg_vaddr s)) w2 _ k' F Th H2)
    as (w3 & k3 & E3 & H3); try done; [lia|].
  exists w3, k3. by split.
Qed.

(** ** Notes *)

Definition note_at (d ph : list Z) (j : Z) : list Z := sub (header 8 8 ph j) (header 8 32 ph j) d.

(** The notes can be read whole, and each is long enough to be compared. *)
Definition notes_ok (n : nat) (i : Z) (d ph : list Z) : Prop := ∀ j, i ≤ j < i + Z.of_nat n → header 4 0 ph j = PT_NOTE →
  header 8 32 ph j ≤ max_alloc ∧ header 8 8 ph j + header 8 32 ph j < 2 ^ 32 ∧ ∃ b, note_matches (note_at d ph j) = Ok b.
Definition marked (n : nat) (i : Z) (d ph : list Z) : Prop := ∃ j, i ≤ j < i + Z.of_nat n ∧
  header 4 0 ph j = PT_NOTE ∧ note_matches (note_at d ph j) = Ok true.

Lemma find_note_state n : ∀ i file d ph found w m k F Th,
  at_state w m k F Th → file ≠ 0 → F file = Some d → headers_in n i ph → notes_ok n i d ph →
  ∃ found' w', find_note n i file ph found w = Ok (found', w') ∧ at_state w' m k F Th ∧
    (found' = true ↔ found = true ∨ marked n i d ph).
Proof.
  induction n as [|n IH]; intros i file d ph found w m k F Th Hw Hfile Hd Hin Hn; cbn [find_note].
  { exists found, w. split_and!; [done..|]. split; [by left|]. intros [?|(j & Hj & _)]; [done|lia]. }
  destruct (header_fields n i ph Hin) as (-> & _ & _ & Eo & Ef). run. pose proof (headers_in_S _ _ _ Hin) as Hin'.
  assert (Hn' : notes_ok n (i + 1) d ph) by (intros j Hj; apply Hn; lia).
  assert (Hmark : marked (S n) i d ph ↔ (header 4 0 ph i = PT_NOTE ∧ note_matches (note_at d ph i) = Ok true) ∨ marked n (i + 1) d ph).
  { split.
    - intros (j & Hj & H). destruct (decide (j = i)) as [->|]; [by left|right; exists j; split; [lia|done]].
    - intros [H|(j & Hj & H)]; [exists i; split; [lia|done]|exists j; split; [lia|done]]. }
  destruct (Z.eqb_spec (header 4 0 ph i) PT_NOTE) as [Ety|Ety].
  2:{ destruct (IH (i + 1) file d ph found w m k F Th Hw Hfile Hd Hin' Hn') as (f' & w' & E & H & Hf).
      exists f', w'. split_and!; [done..|]. rewrite Hf, Hmark. tauto. }
  rewrite Ef, Eo. run. unfold segment_of. cbn [sg_filesz sg_offset].
  destruct (Hn i) as (Hs & Hos & b & Hb); [lia|done|]. pose proof (header_range 8 8 ph i (proj1 Hin)).
  pose proof (header_range 8 32 ph i (proj1 Hin)). destruct Hw as [Hh HF HT].
  destruct (ll_kmalloc w m k (header 8 32 ph i) Hh) as (p & w1 & -> & Hp & Hh1 & HF1 & HT1); [lia|]. run.
  rewrite !wrap_small by lia. unfold vfs_read. rewrite (proj2 (Z.eqb_neq _ _) Hfile).
  destruct (ll_read w1 m k file d (header 8 8 ph i) (header 8 32 ph i) Hh1) as (w2 & -> & Hh2 & HF2 & HT2); [congruence|lia..|].
  run. rewrite (proj2 (Z.eqb_neq _ _) Hp). fold (note_at d ph i). rewrite Hb. run.
  destruct (ll_kfree w2 m k p Hh2) as (w3 & -> & Hh3 & HF3 & HT3). run.
  destruct (IH (i + 1) file d ph (found || b) w3 m k F Th) as (f' & w' & E & H3 & Hf); try done; [constructor; congruence|].
  exists f', w'. split_and!; [done..|]. rewrite Hf, Hmark, orb_true_iff. rewrite Hb. split.
  - intros [[?| ->]|?]; [by left|by right; left|by right; right].
  - intros [?|[[_ [= ->]]|?]]; [by left; left|by left; right|by right].
Qed.

(** ** Programs *)

Definition hdr_of (d : list Z) : Elf64_Ehdr := read_Ehdr (sub 0 sizeof_Ehdr d).
Definition headers_of (d : list Z) : list Z := sub (e_phoff (hdr_of d)) (56 * e_phnum (hdr_of d)) d.
Definition segments_of (d : list Z) : list segment := segments (Z.to_nat (e_phnum (hdr_of d))) 0 (headers_of d).

(** A file that the header checks accept, with its headers inside. *)
Record elf_ok (d : list Z) : Prop := {
  eo_len : 64 ≤ len d < 2 ^ 32;
  eo_elf : validate_elf (hdr_of d) = true;
  eo_size : e_phentsize (hdr_of d) = 56;
  eo_headers : e_phoff (hdr_of d) + 56 * e_phnum (hdr_of d) ≤ len d;
  eo_alloc : 56 * e_phnum (hdr_of d) ≤ max_alloc
}.

Lemma hdr_range d : Forall byte d → 0 ≤ e_phoff (hdr_of d) ∧ 0 ≤ e_phnum (hdr_of d).
Proof.
  intros H. unfold hdr_of, read_Ehdr. cbn [e_phoff e_phnum].
  assert (Hb : ∀ o n, Forall byte (sub o n (sub 0 sizeof_Ehdr d))) by (intros; by apply Forall_sub, Forall_sub).
  split; apply of_le_range, Hb.
Qed.

Lemma headers_in_file d : Forall byte d → elf_ok d → headers_in (Z.to_nat (e_phnum (hdr_of d))) 0 (headers_of d).
Proof.
  intros Hb [Hl He Hs Hh _]. destruct (hdr_range d Hb) as [H1 H2]. unfold headers_of. split_and!; [by apply Forall_sub|done|].
  rewrite len_sub by lia. lia.
Qed.

Lemma read_headers_state file d w m k F Th : at_state w m k F Th → file ≠ 0 → F file = Some d → elf_ok d →
  ∃ ph_buf w', read_headers file (hdr_of d) w = Ok (ph_buf, headers_of d, w') ∧ at_state w' m k F Th ∧
    len (headers_of d) = u32 (e_phnum (hdr_of d) * e_phentsize (hdr_of d)).
Proof.
  intros [Hh HF HT] Hfile Hd [Hl He Hs Hhd Ha]. assert (Hb : Forall byte d) by (apply (ll_bytes w file); congruence).
  destruct (hdr_range d Hb) as [H1 H2]. unfold read_headers. rewrite Hs.
  rewrite (Z.mul_comm (e_phnum _)), !wrap_small by lia.
  destruct (ll_kmalloc w m k (56 * e_phnum (hdr_of d)) Hh) as (p & w1 & -> & Hp & Hh1 & HF1 & HT1); [lia|]. run.
  unfold vfs_read. rewrite (proj2 (Z.eqb_neq _ _) Hfile).
  destruct (ll_read w1 m k file d (e_phoff (hdr_of d)) (56 * e_phnum (hdr_of d)) Hh1)
    as (w2 & E & Hh2 & HF2 & HT2); [congruence|lia..|].
  - rewrite E. run. rewrite (proj2 (Z.eqb_neq _ _) Hp). cbn [andb]. exists p, w2. split_and!; [done| |].
    + constructor; congruence.
    + unfold headers_of. apply len_sub; lia.
Qed.

Lemma segment_ok_weaken base l l' s : l ≤ l' → segment_ok base l s → segment_ok base l' s.
Proof. unfold segment_ok. intros. intuition lia. Qed.

Lemma update_thread_state t f th w m k F Th : at_state w m k F Th → Th !! t = Some th →
  ∃ w', update_thread t f w = Ok w' ∧ at_state w' m k F (<[t := f th]> Th).
Proof.
  intros [Hh HF HT] Ht. assert (Ht' : threads_of w !! t = Some th) by congruence. unfold update_thread.
  rewrite (ll_get w t th Ht'). run. destruct (ll_put w m k t th (f th) Hh Ht') as (w' & -> & Hh' & HF' & HT').
  exists w'. split; [done|]. constructor; congruence.
Qed.

Lemma get_thread_state t th w m k F Th : at_state w m k F Th → Th !! t = Some th → get_thread t w = Ok th.
Proof. intros [_ _ HT] Ht. apply ll_get. congruence. Qed.

(** Giving the buffer back and closing; the file may be gone afterwards. *)
Lemma give_back_state p file d w m k F Th : at_state w m k F Th → file ≠ 0 → F file = Some d →
  ∃ w', give_back p file w = Ok w' ∧ at_state w' m k (contents_of w') Th.
Proof.
  intros [Hh HF HT] Hfile Hd. unfold give_back.
  destruct (ll_kfree w m k p Hh) as (w1 & -> & Hh1 & HF1 & HT1). run. unfold vfs_close.
  rewrite (proj2 (Z.eqb_neq _ _) Hfile).
  destruct (ll_close w1 m k file d Hh1) as (w2 & -> & Hh2 & HT2); [congruence|].
  exists w2. split; [done|]. constructor; [done|done|congruence].
Qed.

(** A program: its notes can be read and one is the mark, and its segments lie
    below the stack, with their contents in the file. *)
Record program_ok (d : list Z) : Prop := {
  po_elf : elf_ok d;
  po_notes : notes_ok (Z.to_nat (e_phnum (hdr_of d))) 0 d (headers_of d);
  po_mark : marked (Z.to_nat (e_phnum (hdr_of d))) 0 d (headers_of d);
  po_segments : Forall (λ s, segment_ok 0 Thread.USER_STACK_BASE s ∧ sg_offset s + sg_filesz s ≤ len d) (segments_of d)
}.

Definition loaded_thread (ss : list segment) (th : thread_t) : thread_t :=
  Thread.set_state THREAD_READY
    (set_break (page_up (Z.max (max_end ss 0) HEAP_START))
      (set_image (page_down (min_start ss (2 ^ 64 - 1))) (page_up (max_end ss 0))
        (Thread.set_state THREAD_BLOCKED th))).

Lemma segments_weaken d : program_ok d →
  Forall (λ s, segment_ok 0 (2 ^ 47) s ∧ sg_offset s + sg_filesz s ≤ len d) (segments_of d).
Proof.
  intros Hp. eapply Forall_impl; [apply (po_segments d Hp)|]. intros s [Hs ?]. split; [|done].
  by eapply segment_ok_weaken; [|exact Hs].
Qed.

Lemma start_program_state path file ph_buf d w m k F Th : at_state w m k F Th → file ≠ 0 → F file = Some d →
  program_ok d → (4 * total_pages 0 (segments_of d) + 1 + thread_frames ≤ k)%nat →
  ∃ t th wa wb m1 k1 T1 w' k', thread_add (e_entry (hdr_of d)) path true wa = Ok (t, wb) ∧
    T1 !! t = Some th ∧ at_state wb m1 k1 F T1 ∧ (∀ u, u < Thread.USER_STACK_BASE → m1 u = m u) ∧
    start_program path (hdr_of d) file ph_buf (headers_of d) w = Ok (signed 32 (Thread.id th), w') ∧
    at_state w' (image_of 0 d (segments_of d) m1) k' (contents_of w') (<[t := loaded_thread (segments_of d) th]> T1).
Proof.
  intros [Hh HF HT] Hfile Hd Hp Hk. unfold start_program.
  destruct (ll_add w m k (e_entry (hdr_of d)) path Hh) as (t & th & w1 & m1 & k1 & E1 & Ht & Hh1 & Hk1 & Hm1 & HF1 & HT1); [lia|].
  rewrite E1. run. rewrite (proj2 (Z.eqb_neq _ _) Ht).
  assert (H1 : at_state w1 m1 k1 F (threads_of w1)) by (constructor; congruence).
  destruct (update_thread_state t (Thread.set_state THREAD_BLOCKED) th w1 _ _ _ _ H1 HT1) as (w2 & -> & H2). run.
  assert (Hb : Forall byte d) by (apply (ll_bytes w file); congruence).
  destruct (load_segments_state (Z.to_nat (e_phnum (hdr_of d))) 0 file d (headers_of d) 0 (2 ^ 64 - 1) w2 m1 k1 F _ H2 Hfile Hd)
    as (w3 & k3 & E3 & H3); [by apply headers_in_file; [|apply Hp]|by apply segments_weaken|fold (segments_of d); lia|].
  rewrite E3. run. fold (segments_of d) in H3 |- *.
  destruct (update_thread_state t (set_image (page_down (min_start (segments_of d) (2 ^ 64 - 1))) (page_up (max_end (segments_of d) 0)))
    (Thread.set_state THREAD_BLOCKED th) w3 _ _ _ _ H3 (lookup_insert_eq _ _ _)) as (w4 & -> & H4). run.
  rewrite insert_insert_eq in H4. rewrite if_max.
  destruct (update_thread_state t (set_break (page_up (Z.max (max_end (segments_of d) 0) HEAP_START))) _ w4 _ _ _ _ H4 (lookup_insert_eq _ _ _))
    as (w5 & -> & H5). run. rewrite insert_insert_eq in H5.
  destruct (give_back_state ph_buf file d w5 _ _ _ _ H5 Hfile Hd) as (w6 & -> & H6). run.
  destruct (update_thread_state t (Thread.set_state THREAD_READY) _ w6 _ _ _ _ H6 (lookup_insert_eq _ _ _)) as (w7 & -> & H7). run.
  rewrite insert_insert_eq in H7. rewrite (get_thread_state t _ w7 _ _ _ _ H7 (lookup_insert_eq _ _ _)). run.
  exists t, th, w, w1, m1, k1, (threads_of w1), w7, k3. split_and!; try done.
  destruct H7 as [A1 A2 A3]. by constructor.
Qed.

(** C9. A valid program is started: [kex_load] answers the id of a thread that
    [thread_add] made for the entry point and that is ready, with the bounds of
    the image and of the heap recorded.  In memory every byte of a segment is
    the byte of the file or, behind the part in the file, zero, unless a later
    segment has a page in common; what is outside the pages of the segments is
    unchanged. *)
Theorem kex_load_image path w w0 m k F Th file d :
  vfs_open (Some path) w = Ok (file, w0) → at_state w0 m k F Th → file ≠ 0 → F file = Some d →
  program_ok d → (4 * total_pages 0 (segments_of d) + 1 + thread_frames ≤ k)%nat →
  ∃ t th wa wb w' m' k', thread_add (e_entry (hdr_of d)) path true wa = Ok (t, wb) ∧ threads_of wb !! t = Some th ∧
    kex_load path w = Ok (signed 32 (Thread.id th), w') ∧ holds w' m' k' ∧
    threads_of w' = <[t := loaded_thread (segments_of d) th]> (threads_of wb) ∧
    (∀ s1 s s2 u, segments_of d = s1 ++ s :: s2 → Forall (λ s', ¬ in_pages 0 s' u) s2 →
       sg_vaddr s ≤ u < sg_vaddr s + sg_memsz s →
       m' u = Some (if decide (u - sg_vaddr s < sg_filesz s)
                    then default 0 (d !! Z.to_nat (sg_offset s + (u - sg_vaddr s))) else 0)) ∧
    (∀ u, u < Thread.USER_STACK_BASE → Forall (λ s, ¬ in_pages 0 s u) (segments_of d) → m' u = m u).
Proof.
  intros Eo [Hh HF HT] Hfile Hd Hp Hk. unfold kex_load. rewrite Eo. run. rewrite (proj2 (Z.eqb_neq _ _) Hfile).
  destruct (po_elf d Hp) as [Hl He Hs Hhd Ha]. unfold vfs_read at 1. rewrite (proj2 (Z.eqb_neq _ _) Hfile).
  destruct (ll_read w0 m k file d 0 sizeof_Ehdr Hh) as (w1 & -> & Hh1 & HF1 & HT1); [congruence|done|done|done|]. run.
  rewrite len_sub by (unfold sizeof_Ehdr; lia). rewrite Z.eqb_refl. cbn [negb]. fold (hdr_of d). rewrite He. cbn [negb].
  assert (H1 : at_state w1 m k F Th) by (constructor; congruence).
  destruct (read_headers_state file d w1 m k F Th H1 Hfile Hd (po_elf d Hp)) as (p & w2 & -> & H2 & Hlen). run.
  rewrite Hlen, Z.eqb_refl. cbn [negb]. assert (Hb : Forall byte d) by (apply (ll_bytes w0 file); congruence).
  destruct (find_note_state (Z.to_nat (e_phnum (hdr_of d))) 0 file d (headers_of d) false w2 m k F Th H2 Hfile Hd)
    as (found & w3 & -> & H3 & Hf); [by apply headers_in_file, Hp|apply Hp|]. run.
  rewrite (proj2 Hf (or_intror (po_mark d Hp))). cbn [negb].
  destruct (start_program_state path file p d w3 m k F Th H3 Hfile Hd Hp Hk)
    as (t & th & wa & wb & m1 & k1 & T1 & w' & k' & Eadd & Ht & Hwb & Hm1 & -> & H').
  exists t, th, wa, wb, w', (image_of 0 d (segments_of d) m1), k'. rewrite (as_threads _ _ _ _ _ Hwb).
  split_and!; [done|done|done|apply H'|apply H'| |].
  - intros s1 s s2 u E Hu2 Hu. rewrite E. pose proof (segments_weaken d Hp) as Hsw. rewrite E in Hsw.
    rewrite (image_in 0 (2 ^ 47)) by (done || lia). done.
  - intros u Hu Hout. rewrite (image_out 0 (2 ^ 47)); [by apply Hm1|done|done|by apply segments_weaken|done].
Qed.

(** ** Libraries *)

(** A 64-bit word in memory. *)
Definition word (m : memory) (a v : Z) : Prop := 0 ≤ v < 2 ^ 64 ∧ ∀ i b, le 8 v !! i = Some b → m (a + Z.of_nat i) = Some b.

Lemma load64_state w m k F Th a v : at_state w m k F Th → word m a v → load64 a w = Ok v.
Proof.
  intros [Hh _ _] [Hv Hm]. unfold load64. rewrite (load_all_spec 8 a w m k (le 8 v) Hh (length_le 8 v) Hm). run.
  rewrite of_le_le. f_equal. change (8 * Z.of_nat 8) with 64. apply Z.mod_small. lia.
Qed.

Lemma word_other m a v b bs : word m a v → (a + 8 ≤ b ∨ b + len bs ≤ a) → word (fill b bs m) a v.
Proof.
  intros [Hv Hm] Hd. split; [done|]. intros i x Hi. rewrite fill_out; [by apply Hm|].
  apply lookup_lt_Some in Hi. rewrite length_le in Hi. lia.
Qed.

Lemma word_same m a v : 0 ≤ v < 2 ^ 64 → word (fill a (le 8 v) m) a v.
Proof.
  intros Hv. split; [done|]. intros i x Hi. pose proof (lookup_lt_Some _ _ _ Hi) as Hlt. rewrite length_le in Hlt.
  rewrite fill_in by (rewrite len_le; lia). by replace (Z.to_nat (a + Z.of_nat i - a)) with i by lia.
Qed.

Lemma word_user w m k F Th a v : at_state w m k F Th → word m a v → 0 ≤ a ∧ a + 8 ≤ 2 ^ 47.
Proof.
  intros [Hh _ _] [_ Hm]. assert (Hs : ∀ i, (i < 8)%nat → is_Some (m (a + Z.of_nat i))).
  { intros i Hi. destruct (lookup_lt_is_Some_2 (le 8 v) i) as [b Hb]; [by rewrite length_le|]. exists b. by apply Hm. }
  pose proof (holds_user w m k _ Hh (Hs O ltac:(lia))). pose proof (holds_user w m k _ Hh (Hs 7%nat ltac:(lia))). lia.
Qed.

(** The dynamic table: pairs of a tag and a value, ended by the null tag. *)
Fixpoint dynamic (m : memory) (a : Z) (l : list (Z * Z)) : Prop :=
  match l with
  | [] => word m a DT_NULL
  | (tag, v) :: l' => tag ≠ DT_NULL ∧ word m a tag ∧ word m (a + 8) v ∧ dynamic m (a + 16) l'
  end.

Definition scan (base : Z) (acc : Z * Z * Z) (e : Z * Z) : Z * Z * Z :=
  let '(rela, sz, ent) := acc in let '(tag, v) := e in
  if tag =? DT_RELA then (u64 (base + v), sz, ent) else if tag =? DT_RELASZ then (rela, v, ent)
  else if tag =? DT_RELAENT then (rela, sz, v) else acc.

Lemma read_dynamic_state l : ∀ fuel base a rela sz ent w m k F Th, at_state w m k F Th → dynamic m a l →
  (length l < fuel)%nat → read_dynamic fuel base a rela sz ent w = Ok (foldl (scan base) (rela, sz, ent) l).
Proof.
  induction l as [|[tag v] l IH]; intros [|fuel] base a rela sz ent w m k F Th Hw Hd Hf; try (cbn in Hf; lia); cbn [read_dynamic].
  { cbn [dynamic] in Hd. rewrite (load64_state w m k F Th a _ Hw Hd). by run. }
  destruct Hd as (Ht & H1 & H2 & Hd). cbn [length] in Hf. rewrite (load64_state w m k F Th a _ Hw H1). run.
  rewrite (proj2 (Z.eqb_neq _ _) Ht). destruct (word_user w m k F Th a tag Hw H1) as [Ha1 Ha2].
  destruct (word_user w m k F Th _ v Hw H2) as [_ Ha3]. rewrite !(wrap_small 64 (a + _)) by lia.
  rewrite (load64_state w m k F Th _ _ Hw H2). cbn [foldl scan].
  destruct (tag =? DT_RELA); [|destruct (tag =? DT_RELASZ); [|destruct (tag =? DT_RELAENT)]]; run;
    by apply (IH _ _ _ _ _ _ w m k F Th Hw Hd); lia.
Qed.

(** Relocations: offset, info and addend. *)
Record rela : Set := mk_rela { r_offset : Z; r_info : Z; r_addend : Z }.
Definition relative (r : rela) : bool := Z.land (r_info r) 0xffffffff =? R_X86_64_RELATIVE.

Definition rela_at (m : memory) (a : Z) (r : rela) : Prop :=
  word m a (r_offset r) ∧ word m (a + 8) (r_info r) ∧ word m (a + 16) (r_addend r).

Definition patch (base : Z) (m : memory) (r : rela) : memory :=
  if relative r then fill (base + r_offset r) (le 8 (u64 (base + r_addend r))) m else m.

(** The target of a relative relocation is in the image and outside the table at [a]. *)
Definition target_ok (base : Z) (m : memory) (a n : Z) (r : rela) : Prop := relative r = true →
  (∀ u, base + r_offset r ≤ u < base + r_offset r + 8 → is_Some (m u)) ∧
  (base + r_offset r + 8 ≤ a ∨ a + 24 * n ≤ base + r_offset r) ∧ 0 ≤ base + r_offset r < 2 ^ 64.

Definition apart (base : Z) (r r' : rela) : Prop := relative r = true → relative r' = true →
  base + r_offset r + 8 ≤ base + r_offset r' ∨ base + r_offset r' + 8 ≤ base + r_offset r.

Lemma patch_mono base m r u : is_Some (m u) → is_Some (patch base m r u).
Proof. intros. unfold patch. destruct (relative r); [by apply fill_mono|done]. Qed.

Lemma patch_table base m a n r a' v : target_ok base m a n r → a ≤ a' → a' + 8 ≤ a + 24 * n → word m a' v → word (patch base m r) a' v.
Proof.
  intros Ht H1 H2 Hw. unfold patch. destruct (relative r) eqn:E; [|done]. destruct (Ht E) as (_ & Hd & _).
  apply word_other; [done|]. rewrite len_le. lia.
Qed.

Lemma relocate_one_state base a n i r w m k F Th : at_state w m k F Th → 0 ≤ i < n → 0 ≤ a →
  rela_at m (a + 24 * i) r → target_ok base m a n r →
  ∃ w', relocate_one base a i w = Ok w' ∧ at_state w' (patch base m r) k F Th.
Proof.
  intros Hw Hi Ha (H1 & H2 & H3) Ht. unfold relocate_one, sizeof_Rela.
  destruct (word_user _ _ _ _ _ _ _ Hw H1) as [B1 B2]. destruct (word_user _ _ _ _ _ _ _ Hw H3) as [_ B3].
  rewrite !(wrap_small 64 (a + _)), !(wrap_small 64 (a + 24 * i + _)) by lia.
  rewrite (load64_state _ _ _ _ _ _ _ Hw H2). run. unfold patch. fold (relative r).
  destruct (relative r) eqn:Er; [|by exists w].
  destruct (Ht Er) as (Hs & _ & Hb). rewrite (load64_state _ _ _ _ _ _ _ Hw H1). run.
  rewrite (load64_state _ _ _ _ _ _ _ Hw H3). run. rewrite (wrap_small 64 (base + r_offset r)) by lia. unfold store64.
  apply store_all_state; [done|apply le_bytes|]. intros u Hu. apply Hs. rewrite len_le in Hu. lia.
Qed.

Lemma relocate_loop_state base a n rs : ∀ i w m k F Th, at_state w m k F Th → 0 ≤ i → 0 ≤ a → i + len rs ≤ n →
  (∀ j r, rs !! j = Some r → rela_at m (a + 24 * (i + Z.of_nat j)) r) → Forall (target_ok base m a n) rs →
  ∃ w', for_range (relocate_one base a) (length rs) i w = Ok w' ∧ at_state w' (foldl (patch base) m rs) k F Th.
Proof.
  induction rs as [|r rs IH]; intros i w m k F Th Hw Hi Ha Hn Hr Ht; cbn [length for_range foldl]; [by exists w|].
  apply Forall_cons in Ht as [Ht Hts]. unfold len in Hn. cbn [length] in Hn.
  pose proof (Hr O r eq_refl) as H0. rewrite Z.add_0_r in H0.
  destruct (relocate_one_state base a n i r w m k F Th Hw ltac:(lia) Ha H0 Ht) as (w1 & -> & H1). run.
  apply (IH (i + 1) w1 (patch base m r) k F Th H1); [lia|done|unfold len; lia| |].
  - intros j r' Hj. destruct (Hr (S j) r' Hj) as (A1 & A2 & A3). apply lookup_lt_Some in Hj.
    replace (i + 1 + Z.of_nat j) with (i + Z.of_nat (S j)) by lia. by split_and!; eapply patch_table; try done; lia.
  - eapply Forall_impl; [exact Hts|]. intros r' Hr' E. destruct (Hr' E) as (A1 & A2). split; [|done].
    intros u Hu. by apply patch_mono, A1.
Qed.

(** What the relocations leave in memory. *)
Lemma patched_out base rs : ∀ m u, Forall (λ r, relative r = true → ¬ base + r_offset r ≤ u < base + r_offset r + 8) rs →
  foldl (patch base) m rs u = m u.
Proof.
  induction rs as [|r rs IH]; intros m u Hu; [done|]. apply Forall_cons in Hu as [Hu Hus]. cbn [foldl]. rewrite IH by done.
  unfold patch. destruct (relative r); [|done]. apply fill_out. rewrite len_le. lia.
Qed.

Lemma patched_word base rs m j r : rs !! j = Some r → relative r = true →
  (∀ i i' r1 r2, rs !! i = Some r1 → rs !! i' = Some r2 → i ≠ i' → apart base r1 r2) →
  word (foldl (patch base) m rs) (base + r_offset r) (u64 (base + r_addend r)).
Proof.
  intros Hj Hr Hap. apply list_elem_of_split_length in Hj as (l1 & l2 & -> & ->). rewrite foldl_app. cbn [foldl].
  set (m0 := foldl (patch base) m l1). assert (E : patch base m0 r = fill (base + r_offset r) (le 8 (u64 (base + r_addend r))) m0).
  { unfold patch. by rewrite Hr. }
  split; [apply wrap_range; lia|]. intros i b Hi. pose proof (lookup_lt_Some _ _ _ Hi) as Hlt. rewrite length_le in Hlt.
  rewrite patched_out, E.
  - apply (proj2 (word_same m0 _ _ (wrap_range 64 _ ltac:(lia))) i b Hi).
  - apply Forall_lookup. intros i' r' Hi' Hr' Hu.
    destruct (Hap (length l1) (length l1 + S i')%nat r r') as [?|?]; try lia; try done.
    + by rewrite lookup_app_r, Nat.sub_diag by lia.
    + rewrite lookup_app_r by lia. by replace (_ - _)%nat with (S i') by lia.
Qed.

(** All segments of a library, and the address of its dynamic table. *)
Fixpoint loads (n : nat) (i : Z) (ph : list Z) : list segment :=
  match n with
  | O => []
  | S n' => if header 4 0 ph i =? PT_LOAD then segment_of ph i :: loads n' (i + 1) ph else loads n' (i + 1) ph
  end.

Fixpoint dynamic_address (n : nat) (i base : Z) (ph : list Z) (a : Z) : Z :=
  match n with
  | O => a
  | S n' => dynamic_address n' (i + 1) base ph
      (if header 4 0 ph i =? PT_DYNAMIC then u64 (base + sg_vaddr (segment_of ph i)) else a)
  end.

Lemma segment_range ph i : Forall byte ph →
  0 ≤ sg_vaddr (segment_of ph i) < 2 ^ 64 ∧ 0 ≤ sg_memsz (segment_of ph i) < 2 ^ 64.
Proof. intros H. unfold segment_of. cbn [sg_vaddr sg_memsz]. by split_and!; (apply header_range || apply (header_small 8)). Qed.

Lemma library_end_spec n : ∀ i ph a, headers_in n i ph → Forall (λ s, sg_vaddr s + sg_memsz s < 2 ^ 64) (loads n i ph) →
  library_end n i ph a = Ok (max_end (loads n i ph) a).
Proof.
  induction n as [|n IH]; intros i ph a Hin Hs; cbn [library_end loads] in *; [done|].
  destruct (header_fields n i ph Hin) as (-> & Ev & Em & _). run. pose proof (headers_in_S _ _ _ Hin) as Hin'.
  destruct (header 4 0 ph i =? PT_LOAD); [|by apply IH]. apply Forall_cons in Hs as [Hs Hs'].
  rewrite Ev, Em. run. destruct (segment_range ph i (proj1 Hin)). rewrite wrap_small, if_max, IH by (done || lia). done.
Qed.

Lemma map_segments_state n : ∀ i file base d ph dyn w m k F Th,
  at_state w m k F Th → file ≠ 0 → F file = Some d → headers_in n i ph → 0 ≤ base < 2 ^ 47 →
  Forall (λ s, segment_ok base (2 ^ 47) s ∧ sg_offset s + sg_filesz s ≤ len d) (segments n i ph) →
  (4 * total_pages base (segments n i ph) + 1 ≤ k)%nat →
  ∃ w' k', map_segments n i file base ph dyn w = Ok (dynamic_address n i base ph dyn, inl w') ∧
    at_state w' (image_of base d (segments n i ph) m) k' F Th.
Proof.
  induction n as [|n IH]; intros i file base d ph dyn w m k F Th Hw Hfile Hd Hin Hbase Hs Hk; cbn [map_segments].
  { exists w, k. by split. }
  destruct (header_fields n i ph Hin) as (-> & Ev & Em & Eo & Ef). run.
  pose proof (headers_in_S _ _ _ Hin) as Hin'. cbn [segments dynamic_address] in Hs, Hk |- *.
  destruct (segment_range ph i (proj1 Hin)) as [Hv Hms]. set (s := segment_of ph i) in *.
  destruct (Z.eqb_spec (header 4 0 ph i) PT_LOAD) as [->|Hne]; cbn [andb] in *.
  2:{ destruct (header 4 0 ph i =? PT_DYNAMIC); [rewrite Ev; run|]; by apply (IH (i + 1) file base d ph _ w m k F Th). }
  rewrite Ev, Em, Eo, Ef. run. change (PT_LOAD =? PT_DYNAMIC) with false. cbv iota.
  destruct (Z.eqb_spec (sg_memsz s) 0) as [E0|Hne]; cbn [negb] in *.
  { rewrite E0, Z.add_0_r, Z.eqb_refl. by apply (IH (i + 1) file base d ph _ w m k F Th). }
  apply Forall_cons in Hs as [[Hs Hlen] Hs']. cbn [total_pages foldr] in Hk. fold (total_pages base (segments n (i + 1) ph)) in Hk.
  destruct (load_segment_state base s file d w m k F Th Hw Hfile Hd (proj1 Hbase) Hs Hlen) as (w1 & w2 & k' & E1 & E2 & H2 & Hk2); [lia|].
  assert (Ew : base + sg_vaddr s + sg_memsz s < 2 ^ 64) by (destruct Hs as (? & ? & ? & _); lia).
  rewrite !(wrap_small 64 (base + _)), !(wrap_small 64 (base + sg_vaddr s + _)) by lia.
  rewrite (proj2 (Z.eqb_neq _ _)), E1 by lia. run. rewrite E2. run.
  destruct (IH (i + 1) file base d ph dyn w2 _ k' F Th H2) as (w3 & k3 & E3 & H3); try done; [lia|].
  exists w3, k3. by split.
Qed.

Definition dynamic_of (base : Z) (d : list Z) : Z :=
  dynamic_address (Z.to_nat (e_phnum (hdr_of d))) 0 base (headers_of d) 0.
Definition loads_of (d : list Z) : list segment := loads (Z.to_nat (e_phnum (hdr_of d))) 0 (headers_of d).

(** A library loaded at [base] to memory that becomes [m]: the relocations are
    [rs], at the address the dynamic table [l] gives. *)
Record library_ok (base : Z) (d : list Z) (m : memory) (l : list (Z * Z)) (a : Z) (rs : list rela) : Prop := {
  lo_elf : elf_ok d;
  lo_type : e_type (hdr_of d) = ET_DYN;
  lo_base : 0 ≤ base < 2 ^ 47;
  lo_segments : Forall (λ s, segment_ok base (2 ^ 47) s ∧ sg_offset s + sg_filesz s ≤ len d) (segments_of d);
  lo_loads : Forall (λ s, sg_vaddr s + sg_memsz s < 2 ^ 64) (loads_of d);
  lo_table : dynamic_of base d ≠ 0;
  lo_dynamic : dynamic m (dynamic_of base d) l;
  lo_scan : foldl (scan base) (0, 0, 0) l = (a, 24 * len rs, 24);
  lo_rela : 0 < a ∧ ∀ j r, rs !! j = Some r → rela_at m (a + 24 * Z.of_nat j) r;
  lo_targets : Forall (target_ok base m a (len rs)) rs;
  lo_apart : ∀ i i' r1 r2, rs !! i = Some r1 → rs !! i' = Some r2 → i ≠ i' → apart base r1 r2
}.

Lemma relocate_state fuel base d l a rs w m k F Th : at_state w m k F Th → library_ok base d m l a rs → (length l < fuel)%nat →
  ∃ w', relocate fuel base (dynamic_of base d) w = Ok w' ∧ at_state w' (foldl (patch base) m rs) k F Th.
Proof.
  intros Hw [_ _ _ _ _ Ht Hd Hs [Ha Hr] Hts _] Hf. unfold relocate. rewrite (proj2 (Z.eqb_neq _ _) Ht).
  rewrite (read_dynamic_state l fuel base _ 0 0 0 w m k F Th Hw Hd Hf), Hs. run.
  rewrite (proj2 (Z.eqb_neq a 0)) by lia. cbn [negb andb Z.ltb Z.compare].
  rewrite Z.mul_comm, Z.div_mul by lia. unfold len. rewrite Nat2Z.id.
  apply (relocate_loop_state base a (len rs) rs 0 w m k F Th Hw); [lia|lia|lia| |done].
  intros j r Hj. rewrite Z.add_0_l. by apply Hr.
Qed.

Definition library_base (th : thread_t) : Z := if Thread.dyn_lib_break th =? 0 then LIBRARY_BASE else Thread.dyn_lib_break th.

Lemma load_library_state fuel file p d t th base l a rs w m k F Th : at_state w m k F Th → file ≠ 0 → F file = Some d →
  Th !! t = Some th → base = library_base th → library_ok base d (image_of base d (segments_of d) m) l a rs →
  (length l < fuel)%nat → (4 * total_pages base (segments_of d) + 1 ≤ k)%nat →
  ∃ w' k', load_library fuel (hdr_of d) file p (headers_of d) t w = Ok (base, w') ∧
    at_state w' (foldl (patch base) (image_of base d (segments_of d) m) rs) k' (contents_of w')
      (<[t := set_dyn_break (u64 (base + page_up (max_end (loads_of d) 0))) th]> Th).
Proof.
  intros Hw Hfile Hd Ht Ebase Hl Hf Hk. unfold load_library.
  assert (Hb : Forall byte d) by (apply (ll_bytes w file); rewrite (as_files _ _ _ _ _ Hw); done).
  pose proof (headers_in_file d Hb (lo_elf _ _ _ _ _ _ Hl)) as Hin.
  rewrite (library_end_spec _ 0 (headers_of d) 0 Hin (lo_loads _ _ _ _ _ _ Hl)). run. fold (loads_of d).
  destruct (update_thread_state t (λ th, if Thread.dyn_lib_break th =? 0 then set_dyn_break LIBRARY_BASE th else th) th w _ _ _ _ Hw Ht)
    as (w1 & -> & H1). run. rewrite (get_thread_state t _ w1 _ _ _ _ H1 (lookup_insert_eq _ _ _)). run.
  assert (Eb : Thread.dyn_lib_break (if Thread.dyn_lib_break th =? 0 then set_dyn_break LIBRARY_BASE th else th) = base).
  { rewrite Ebase. unfold library_base. by destruct (Thread.dyn_lib_break th =? 0). }
  rewrite Eb.
  destruct (update_thread_state t (set_dyn_break (u64 (base + page_up (max_end (loads_of d) 0)))) _ w1 _ _ _ _ H1 (lookup_insert_eq _ _ _))
    as (w2 & -> & H2). run. rewrite insert_insert_eq in H2.
  assert (Et : ∀ v, set_dyn_break v (if Thread.dyn_lib_break th =? 0 then set_dyn_break LIBRARY_BASE th else th) = set_dyn_break v th)
    by (intros v; by destruct (Thread.dyn_lib_break th =? 0)). rewrite Et in H2.
  destruct (map_segments_state _ 0 file base d (headers_of d) 0 w2 m k F _ H2 Hfile Hd Hin (lo_base _ _ _ _ _ _ Hl) (lo_segments _ _ _ _ _ _ Hl) Hk)
    as (w3 & k3 & -> & H3). run. fold (segments_of d) (dynamic_of base d) in H3 |- *.
  destruct (relocate_state fuel base d l a rs w3 _ k3 F _ H3 Hl Hf) as (w4 & -> & H4). run.
  destruct (give_back_state p file d w4 _ _ _ _ H4 Hfile Hd) as (w5 & -> & H5). run.
  by exists w5, k3.
Qed.

(** C31. A library is loaded at the next address of the thread, which moves behind
    it, and relocated: every word that a relative relocation names is the load
    address plus the addend; every other byte of memory is that of the segments. *)
Theorem kdl_load_relocates fuel path t th w w0 m k F Th file d base l a rs :
  vfs_open (Some path) w = Ok (file, w0) → at_state w0 m k F Th → file ≠ 0 → F file = Some d →
  t ≠ 0 → Th !! t = Some th → base = library_base th → library_ok base d (image_of base d (segments_of d) m) l a rs →
  (length l < fuel)%nat → (4 * total_pages base (segments_of d) + 1 ≤ k)%nat →
  ∃ w' m' k', kdl_load fuel path t w = Ok (base, w') ∧ holds w' m' k' ∧
    threads_of w' = <[t := set_dyn_break (u64 (base + page_up (max_end (loads_of d) 0))) th]> Th ∧
    (∀ j r, rs !! j = Some r → relative r = true → word m' (base + r_offset r) (u64 (base + r_addend r))) ∧
    (∀ u, Forall (λ r, relative r = true → ¬ base + r_offset r ≤ u < base + r_offset r + 8) rs →
       m' u = image_of base d (segments_of d) m u).
Proof.
  intros Eo [Hh HF HT] Hfile Hd Ht Hth Ebase Hl Hf Hk. unfold kdl_load. rewrite (proj2 (Z.eqb_neq _ _) Ht), Eo. run.
  rewrite (proj2 (Z.eqb_neq _ _) Hfile). destruct (lo_elf _ _ _ _ _ _ Hl) as [Hlen He Hs Hhd Ha].
  unfold vfs_read at 1. rewrite (proj2 (Z.eqb_neq _ _) Hfile).
  destruct (ll_read w0 m k file d 0 sizeof_Ehdr Hh) as (w1 & -> & Hh1 & HF1 & HT1); [congruence|done|done|done|]. run.
  rewrite len_sub by (unfold sizeof_Ehdr; lia). rewrite Z.eqb_refl. cbn [negb]. fold (hdr_of d).
  rewrite He, (lo_type _ _ _ _ _ _ Hl). cbn [negb orb Z.eqb Pos.eqb ET_DYN].
  assert (H1 : at_state w1 m k F Th) by (constructor; congruence).
  destruct (read_headers_state file d w1 m k F Th H1 Hfile Hd (lo_elf _ _ _ _ _ _ Hl)) as (p & w2 & -> & H2 & Hplen). run.
  rewrite Hplen, Z.eqb_refl. cbn [negb].
  destruct (load_library_state fuel file p d t th base l a rs w2 m k F Th H2 Hfile Hd Hth Ebase Hl Hf Hk) as (w' & k' & -> & H').
  exists w', (foldl (patch base) (image_of base d (segments_of d) m) rs), k'. split_and!; [done|apply H'|apply H'| |].
  - intros j r Hj Hr. by apply (patched_word base rs _ j r Hj Hr), (lo_apart _ _ _ _ _ _ Hl).
  - intros u Hu. by apply patched_out.
Qed.

(** The first library of a thread goes where its user stack is: a byte of the
    library replaces the first byte of the stack. *)
Lemma first_library_on_stack th d m s : Thread.dyn_lib_break th = 0 → segments_of d = [s] → sg_vaddr s = 0 →
  segment_ok (library_base th) (2 ^ 47) s → sg_offset s + sg_filesz s ≤ len d → 0 < sg_filesz s →
  image_of (library_base th) d (segments_of d) m Thread.USER_STACK_BASE = Some (default 0 (d !! Z.to_nat (sg_offset s))).
Proof.
  intros H0 Hs Hv Hok Hlen Hf. rewrite Hs. unfold library_base in *. rewrite H0 in *. cbn [Z.eqb] in *.
  pose proof Hok as (_ & Hm & _). unfold Thread.USER_STACK_BASE.
  rewrite (image_in LIBRARY_BASE (2 ^ 47) d [] s [] m); [|unfold LIBRARY_BASE; lia|done| | |unfold LIBRARY_BASE; lia].
  2:{ apply Forall_cons. by split; [split|apply Forall_nil]. }
  2:{ apply Forall_nil. done. }
  rewrite Hv. rewrite decide_True by (unfold LIBRARY_BASE; lia). do 3 f_equal. unfold LIBRARY_BASE. lia.
Qed.
End laws.

(** ** A machine of page tables, files and threads *)

Module LoaderMachine.
Import Paging Syscall.Syscall.Machine.

Definition lmachine : Type := (machine * gmap Z thread_t)%type.

Definition on_machine {A} (m : machine → outcome (A * machine)) (w : lmachine) : outcome (A * lmachine) :=
  '(a, x) ← m (fst w); Ok (a, (x, snd w)).
Definition on_tables (m : paging → outcome paging) (w : lmachine) : outcome lmachine :=
  p ← m (fst (fst w)); Ok (p, snd (fst w), snd w).

#[export] Instance lm_user : UserSpace lmachine := {|
  accessible u w := accessible u (fst w); load_user u w := load_user u (fst (fst w));
  store_user u b w := on_tables (store_user u b) w |}.
#[export] Instance lm_mapper : PageMapper lmachine := {|
  alloc_frame w := '(g, p) ← pfa_alloc_frame (fst (fst w)); Ok (g, (p, snd (fst w), snd w));
  map_page va pa fl w := on_tables (paging_map_page va pa fl) w |}.
#[export] Instance lm_heap : Allocator lmachine := {| kmalloc n w := Ok (0x1000, w); kfree p w := Ok ((), w) |}.
#[export] Instance lm_nodes : VirtualNode lmachine := {|
  vfs_root w := 1; cwd_node w := 0; Vfs.parent _ _ := Ok 1; node_open _ w := Ok w; node_close _ w := Ok w;
  node_finddir p nm w := on_machine (node_finddir p nm) w; node_read p off n w := on_machine (node_read p off n) w;
  node_write p off bs w := on_machine (node_write p off bs) w; node_readdir _ _ w := Ok (None, w);
  node_create _ _ _ w := Ok (0, w); node_mkdir _ _ _ w := Ok (-1, w); node_unlink _ _ w := Ok (false, w) |}.

Definition new_thread (nm : list Z) (i : Z) : thread_t :=
  mk_thread 0 i (take 15 nm) 0 0 true 0 THREAD_READY 0 0 0 0 0x600000 0 (replicate 16 0) (replicate 16 0).
#[export] Instance lm_threads : Threads lmachine := {|
  thread_add e nm user w := let i := Z.of_nat (size (snd w)) + 1 in Ok (0x9000 + i, (fst w, <[0x9000 + i := new_thread nm i]> (snd w)));
  thread_kill i w := Ok (true, w);
  get_thread t w := of_option (snd w !! t);
  put_thread t th w := Ok (fst w, <[t := th]> (snd w)) |}.

#[export] Program Instance lm_image_laws : ImageLaws lmachine := {| holds w := paging_holds (fst (fst w)) |}.
Next Obligation. intros w m m' k. exact (holds_ext (ImageLaws := paging_image_laws) (fst (fst w)) m m' k). Qed.
Next Obligation.
  intros [[p fs] th] m k page flags Hw Ha H0 He Hf Hk.
  destruct (paging_page_law p m k page flags Hw Ha H0 He Hf Hk) as (g & p1 & p2 & bs & k' & E1 & Hg & E2 & H).
  exists g, (p1, fs, th), (p2, fs, th), bs, k'. destruct H as (Hb & Hh & Hk').
  split_and!; [cbn; by rewrite E1|done| |done|exact Hh|done].
  change (on_tables (paging_map_page page g flags) (p1, fs, th) = Ok (p2, fs, th)). unfold on_tables. cbn [fst snd]. by rewrite E2.
Qed.
Next Obligation.
  intros [[p fs] th] m Hw. cbn. pose proof (no_frame_law (ImageLaws := paging_image_laws) p m Hw) as E.
  cbn in E. by rewrite E.
Qed.
Next Obligation.
  intros [[p fs] th] m k u b Hw Hu Hb. destruct (paging_poke_law p m k u b Hw Hu Hb) as (p' & E & H).
  exists (p', fs, th). split; [|exact H]. change (on_tables (store_byte u b) (p, fs, th) = Ok (p', fs, th)).
  unfold on_tables. cbn [fst snd]. by rewrite E.
Qed.
Next Obligation. intros w m k u b. exact (peek_law (ImageLaws := paging_image_laws) (fst (fst w)) m k u b). Qed.
Next Obligation. intros w m k u. exact (holds_user (ImageLaws := paging_image_laws) (fst (fst w)) m k u). Qed.
Next Obligation. intros w m k u b. exact (holds_byte (ImageLaws := paging_image_laws) (fst (fst w)) m k u b). Qed.

Definition byte_file (fs : gmap Z (list Z)) (p : Z) : option (list Z) :=
  d ← fs !! p; if decide (Forall byte d) then Some d else None.

Lemma byte_file_some fs p d : byte_file fs p = Some d → fs !! p = Some d ∧ Forall byte d.
Proof. unfold byte_file. destruct (fs !! p) as [d'|]; cbn; [|done]. case_decide; [|done]. by intros [= ->]. Qed.

Lemma on_tables_same f w w' : on_tables f w = Ok w' → snd (fst w') = snd (fst w) ∧ snd w' = snd w.
Proof. unfold on_tables. intros H. inv_ok H. by injection H as <-. Qed.

#[export] Program Instance lm_laws : LoaderLaws lmachine := {|
  contents_of w := byte_file (snd (fst w)); threads_of w := snd w; max_alloc := 2 ^ 31; thread_frames := 0 |}.
Next Obligation. intros w p d Hd. by apply (byte_file_some _ _ _ Hd). Qed.
Next Obligation.
  intros [[p fs] th] m k q d off n Hw Hd _ _ _. destruct (byte_file_some _ _ _ Hd) as [Hq _]. exists (p, fs, th).
  cbn in *. unfold on_machine, machine_read. cbn. by rewrite Hq.
Qed.
Next Obligation. intros w m k p d Hw Hd. by exists w. Qed.
Next Obligation. intros w m k n Hw Hn. by exists 0x1000, w. Qed.
Next Obligation. intros w m k p Hw. by exists w. Qed.
Next Obligation. intros w g w' H. cbn in H. inv_ok H. destruct r as [g' p]. by injection H as _ <-. Qed.
Next Obligation. intros w va pa fl w' H. by destruct (on_tables_same _ _ _ H) as [-> ->]. Qed.
Next Obligation. intros w u b w' H. by destruct (on_tables_same _ _ _ H) as [-> ->]. Qed.
Next Obligation.
  intros w m k e nm Hw _. set (i := Z.of_nat (size (snd w)) + 1).
  exists (0x9000 + i), (new_thread nm i), (fst w, <[0x9000 + i := new_thread nm i]> (snd w)), m, k.
  split_and!; try done; [unfold i; lia|lia|apply lookup_insert_eq].
Qed.
Next Obligation. intros w t th Ht. cbn in *. by rewrite Ht. Qed.
Next Obligation. intros w m k t th th' Hw Ht. by eexists. Qed.

(** A program of one page of notes and one segment across two pages. *)
Definition demo_program : list Z :=
  [0x7F; 69; 76; 70; 2; 1] ++ replicate 10 0 ++ le 2 2 ++ le 2 62 ++ le 4 1 ++ le 8 0x400ff8 ++ le 8 64 ++ le 8 0 ++
  le 4 0 ++ le 2 64 ++ le 2 56 ++ le 2 2 ++ le 2 0 ++ le 2 0 ++ le 2 0 ++
  le 4 PT_NOTE ++ le 4 4 ++ le 8 176 ++ le 8 0 ++ le 8 0 ++ le 8 20 ++ le 8 20 ++ le 8 4 ++
  le 4 PT_LOAD ++ le 4 5 ++ le 8 196 ++ le 8 0x400ff8 ++ le 8 0 ++ le 8 4 ++ le 8 16 ++ le 8 4096 ++
  le 4 7 ++ le 4 0 ++ le 4 KEX_NOTE_TYPE_VERSION ++ KEX_NOTE_NAME ++ [0; 0] ++ [1; 2; 3; 4].

Definition demo_loader : lmachine := ((demo_paging, {[ 7 := demo_program ]}), ∅).

Lemma demo_segments : segments_of demo_program = [mk_segment 0x400ff8 16 196 4].
Proof. vm_compute. reflexivity. Qed.

Lemma demo_program_ok : program_ok demo_program.
Proof.
  assert (E : e_phnum (hdr_of demo_program) = 2) by (vm_compute; reflexivity).
  constructor.
  - constructor; [by vm_compute|by vm_compute|by vm_compute|by vm_compute|]. rewrite E. by vm_compute.
  - rewrite E. intros j Hj Ht. assert (j = 0 ∨ j = 1) as [-> | ->] by lia; [|by vm_compute in Ht].
    split_and!; [by vm_compute|by vm_compute|]. exists true. vm_compute. reflexivity.
  - rewrite E. exists 0. split_and!; [lia|lia|by vm_compute|]. vm_compute. reflexivity.
  - rewrite demo_segments. repeat constructor; vm_compute; congruence.
Qed.

(** A library of one segment: a dynamic table, one relocation and its target. *)
Definition demo_library : list Z :=
  [0x7F; 69; 76; 70; 2; 1] ++ replicate 10 0 ++ le 2 3 ++ le 2 62 ++ le 4 1 ++ le 8 0 ++ le 8 64 ++ le 8 0 ++
  le 4 0 ++ le 2 64 ++ le 2 56 ++ le 2 2 ++ le 2 0 ++ le 2 0 ++ le 2 0 ++
  le 4 PT_LOAD ++ le 4 6 ++ le 8 176 ++ le 8 0 ++ le 8 0 ++ le 8 96 ++ le 8 96 ++ le 8 4096 ++
  le 4 PT_DYNAMIC ++ le 4 6 ++ le 8 176 ++ le 8 0 ++ le 8 0 ++ le 8 64 ++ le 8 64 ++ le 8 8 ++
  le 8 DT_RELA ++ le 8 64 ++ le 8 DT_RELASZ ++ le 8 24 ++ le 8 DT_RELAENT ++ le 8 24 ++ le 8 DT_NULL ++ le 8 0 ++
  le 8 88 ++ le 8 R_X86_64_RELATIVE ++ le 8 0x10 ++ le 8 0.

Definition demo_caller : thread_t := new_thread [102] 1.
Definition demo_lib_loader : lmachine := ((demo_paging, {[ 7 := demo_library ]}), {[ 0x9001 := demo_caller ]}).
Definition demo_dynamic : list (Z * Z) := [(DT_RELA, 64); (DT_RELASZ, 24); (DT_RELAENT, 24)].
Definition demo_rela : rela := mk_rela 88 R_X86_64_RELATIVE 0x10.
Definition demo_memory : memory := image_of LIBRARY_BASE demo_library (segments_of demo_library) (λ _, None).

Definition word_b (m : memory) (a v : Z) : bool :=
  (0 <=? v) && (v <? 2 ^ 64) && forallb (λ i, bool_decide (m (a + Z.of_nat i) = le 8 v !! i)) (seq 0 8).
Lemma word_check m a v : word_b m a v = true → word m a v.
Proof.
  unfold word_b. intros [[H1 H2]%andb_prop H3]%andb_prop. apply Z.leb_le in H1. apply Z.ltb_lt in H2. split; [lia|].
  intros i b Hi. rewrite forallb_forall in H3. rewrite <- Hi. apply (bool_decide_eq_true_1 _), H3, in_seq.
  apply lookup_lt_Some in Hi. rewrite length_le in Hi. lia.
Qed.

Lemma demo_library_segments : segments_of demo_library = [mk_segment 0 96 176 96].
Proof. vm_compute. reflexivity. Qed.

Lemma demo_library_ok : library_ok LIBRARY_BASE demo_library demo_memory demo_dynamic (LIBRARY_BASE + 64) [demo_rela].
Proof.
  constructor.
  - constructor; [by vm_compute|by vm_compute|by vm_compute|by vm_compute|]. by vm_compute.
  - by vm_compute.
  - unfold LIBRARY_BASE. lia.
  - rewrite demo_library_segments. repeat constructor; vm_compute; congruence.
  - assert (E : loads_of demo_library = [mk_segment 0 96 176 96]) by (vm_compute; reflexivity). rewrite E. by repeat constructor.
  - by vm_compute.
  - unfold demo_dynamic. cbn [dynamic]. split_and!; try done; apply word_check; vm_compute; reflexivity.
  - vm_compute. reflexivity.
  - split; [by vm_compute|]. intros [|[|]] r; [|done..]. intros [= <-].
    split_and!; apply word_check; vm_compute; reflexivity.
  - constructor; [|constructor]. intros _. split_and!.
    + intros u Hu. unfold demo_memory. rewrite demo_library_segments. apply fill_some.
      replace (len _) with 96 by (vm_compute; reflexivity). cbn in *. unfold LIBRARY_BASE in *. lia.
    + right. by vm_compute.
    + by vm_compute.
    + by vm_compute.
  - intros [|[|]] [|[|]] r1 r2; try done.
Qed.
End LoaderMachine.

Import LoaderMachine.

Lemma kex_load_image_witness :
  ∃ r w' m' k', kex_load [102] demo_loader = Ok (r, w') ∧ holds w' m' k' ∧
    m' 0x400ffa = Some 3 ∧ m' 0x401007 = Some 0.
Proof.
  destruct (kex_load_image [102] demo_loader demo_loader (λ _, None) 11 (byte_file {[ 7 := demo_program ]}) ∅ 7 demo_program)
    as (t & th & wa & wb & w' & m' & k' & Ea & Ht & E & Hh & _ & Hin & _).
  - vm_compute. reflexivity.
  - constructor; [|done|done]. replace 11%nat with (length (Pfa.free_frames (Paging.pg_pfa Paging.demo_paging)))
      by (rewrite Paging.demo_free; reflexivity). apply (paging_holds_empty _ Paging.demo_tables), Paging.demo_paging_wf.
  - lia.
  - vm_compute. reflexivity.
  - exact demo_program_ok.
  - rewrite demo_segments. vm_compute. lia.
  - exists (signed 32 (Thread.id th)), w', m', k'. rewrite demo_segments in Hin. split_and!; [exact E|exact Hh| |].
    + rewrite (Hin [] (mk_segment 0x400ff8 16 196 4) [] 0x400ffa); [reflexivity|done|constructor|cbn; lia].
    + rewrite (Hin [] (mk_segment 0x400ff8 16 196 4) [] 0x401007); [reflexivity|done|constructor|cbn; lia].
Defined.

Lemma kdl_load_relocates_witness :
  ∃ w' m' k', kdl_load 4 [102] 0x9001 demo_lib_loader = Ok (LIBRARY_BASE, w') ∧ holds w' m' k' ∧
    word m' (LIBRARY_BASE + 88) (LIBRARY_BASE + 0x10).
Proof.
  destruct (kdl_load_relocates 4 [102] 0x9001 demo_caller demo_lib_loader demo_lib_loader (λ _, None) 11
      (byte_file {[ 7 := demo_library ]}) {[ 0x9001 := demo_caller ]} 7 demo_library LIBRARY_BASE demo_dynamic
      (LIBRARY_BASE + 64) [demo_rela]) as (w' & m' & k' & E & Hh & _ & Hw & _).
  - vm_compute. reflexivity.
  - constructor; [|done|done]. replace 11%nat with (length (Pfa.free_frames (Paging.pg_pfa Paging.demo_paging)))
      by (rewrite Paging.demo_free; reflexivity). apply (paging_holds_empty _ Paging.demo_tables), Paging.demo_paging_wf.
  - lia.
  - vm_compute. reflexivity.
  - lia.
  - vm_compute. reflexivity.
  - reflexivity.
  - exact demo_library_ok.
  - cbn. lia.
  - rewrite demo_library_segments. vm_compute. lia.
  - exists w', m', k'. split; [exact E|]. split; [exact Hh|]. exact (Hw O demo_rela eq_refl eq_refl).
Defined.
End Kex.
