(* ===== verification/Layout.v ===== *)
(** * Packed structures

    The structures of a file system are packed: the bytes of a buffer or of an
    object, member after member.  A [layout] lists the members with their sizes,
    [offset_of] computes where a member starts as the compiler does, and the
    members of an object are read and written by name.  [get_member] and
    [put_member] go through a pointer into a buffer and fault outside of it;
    [member] and [set_member] are for an object that is all there. *)

From Stdlib Require Import String.
From S2P Require Import Prelude Bytes.

Module Layout.
Import Bytes.
Local Open Scope string_scope.

(** The name of a member and its number of bytes. *)
Definition layout : Type := list (string * nat).

Fixpoint sizeof (l : layout) : Z :=
  match l with [] => 0 | (_, n) :: l' => Z.of_nat n + sizeof l' end.

Fixpoint offset_of (l : layout) (x : string) : Z :=
  match l with
  | [] => 0
  | (y, n) :: l' => if String.eqb x y then 0 else Z.of_nat n + offset_of l' x
  end.

Fixpoint width_of (l : layout) (x : string) : nat :=
  match l with
  | [] => O
  | (y, n) :: l' => if String.eqb x y then n else width_of l' x
  end.

Definition member (l : layout) (x : string) (o : list Z) : Z :=
  of_le (sub (offset_of l x) (Z.of_nat (width_of l x)) o).
Definition set_member (l : layout) (x : string) (v : Z) (o : list Z) : list Z :=
  splice (offset_of l x) (le (width_of l x) v) o.

(** The member of the object that starts [p] bytes into the buffer. *)
Definition get_member (l : layout) (p : Z) (x : string) (b : list Z) : outcome Z :=
  get_le (width_of l x) (p + offset_of l x) b.
Definition put_member (l : layout) (p : Z) (x : string) (v : Z) (b : list Z) : outcome (list Z) :=
  put_le (width_of l x) (p + offset_of l x) v b.

(** Members of the structure at [p] given values, in order. *)
Definition poke (l : layout) (p : Z) (xs : list (string * Z)) (b : list Z) : list Z :=
  foldl (λ b '(x, v), splice (p + offset_of l x) (le (width_of l x) v) b) b xs.

(** [memset(&o, 0, sizeof(o))] *)
Definition zeroed (l : layout) : list Z := replicate (Z.to_nat (sizeof l)) 0.

(** ** Reads of writes *)

Section laws.
Context (l : layout).
Implicit Types o b : list Z.

Lemma sizeof_nonneg l0 : 0 ≤ sizeof l0.
Proof. induction l0 as [|[? n] l0 IH]; cbn; lia. Qed.

Lemma offset_bounds l0 x : 0 ≤ offset_of l0 x ∧ offset_of l0 x + Z.of_nat (width_of l0 x) ≤ sizeof l0.
Proof.
  induction l0 as [|[y n] l0 IH]; cbn; [lia|]. pose proof (sizeof_nonneg l0).
  destruct (String.eqb x y); lia.
Qed.

(** Different members are apart. *)
Lemma members_disjoint l0 x y : x ≠ y →
  offset_of l0 x + Z.of_nat (width_of l0 x) ≤ offset_of l0 y ∨
  offset_of l0 y + Z.of_nat (width_of l0 y) ≤ offset_of l0 x.
Proof.
  intros Hne. induction l0 as [|[z n] l0 IH]; cbn; [lia|].
  pose proof (offset_bounds l0 x). pose proof (offset_bounds l0 y).
  destruct (String.eqb_spec x z), (String.eqb_spec y z); subst; [done|lia|lia|lia].
Qed.

Lemma len_zeroed : len (zeroed l) = sizeof l.
Proof. unfold zeroed, len. rewrite length_replicate. pose proof (sizeof_nonneg l). lia. Qed.

Lemma len_set_member x v o : sizeof l ≤ len o → len (set_member l x v o) = len o.
Proof. intros H. pose proof (offset_bounds l x). apply len_splice; rewrite ?len_le; lia. Qed.

Lemma member_range x o : Forall byte o → 0 ≤ member l x o < 2 ^ (8 * Z.of_nat (width_of l x)).
Proof.
  intros H. unfold member. pose proof (of_le_range (sub (offset_of l x) (Z.of_nat (width_of l x)) o)) as Hr.
  specialize (Hr (Forall_sub _ _ _ _ H)). split; [lia|]. eapply Z.lt_le_trans; [apply Hr|].
  apply Z.pow_le_mono_r; [lia|]. unfold len, sub. rewrite length_take. lia.
Qed.

Lemma member_set_same x v o : sizeof l ≤ len o →
  member l x (set_member l x v o) = v mod 2 ^ (8 * Z.of_nat (width_of l x)).
Proof.
  intros H. pose proof (offset_bounds l x). unfold member, set_member.
  rewrite sub_splice_le by lia. apply of_le_le.
Qed.

Lemma member_set_other x y v o : sizeof l ≤ len o → x ≠ y → member l x (set_member l y v o) = member l x o.
Proof.
  intros H Hne. pose proof (offset_bounds l x). pose proof (offset_bounds l y).
  unfold member, set_member. f_equal. apply sub_splice_disjoint; rewrite ?len_le; try lia.
  by apply members_disjoint.
Qed.

Lemma set_member_bytes x v o : Forall byte o → Forall byte (set_member l x v o).
Proof. intros H. apply Forall_splice; [apply le_bytes|done]. Qed.

(** The object at [p] in a buffer. *)
Lemma get_member_ok p x b : 0 ≤ p → p + sizeof l ≤ len b →
  get_member l p x b = Ok (member l x (sub p (sizeof l) b)).
Proof.
  intros Hp Hb. pose proof (offset_bounds l x). unfold get_member, member.
  rewrite get_le_ok by lia. rewrite sub_sub by lia. done.
Qed.

Lemma put_member_ok p x v b : 0 ≤ p → p + sizeof l ≤ len b →
  put_member l p x v b = Ok (splice p (set_member l x v (sub p (sizeof l) b)) b).
Proof.
  intros Hp Hb. pose proof (offset_bounds l x). unfold put_member, set_member.
  rewrite put_le_ok by lia. rewrite splice_splice_sub; rewrite ?len_le; (done || lia).
Qed.
End laws.

(** [decide] for the names of members, which are literals. *)
Ltac members := first [reflexivity | discriminate | by vm_compute].

#[global] Arguments member : simpl never.
#[global] Arguments set_member : simpl never.
#[global] Arguments get_member : simpl never.
#[global] Arguments put_member : simpl never.
End Layout.
