(* ===== verification/Ext4.v ===== *)
(** * EXT4: superblock, blocks, group descriptors, inodes (fs/ext4_vfs.cpp: Ext4Manager)

    [Ext4Manager] is the object [ext4_inst].  Its superblock, a group descriptor
    and an inode are the packed structures of include/fs/ext4_structs.h, kept as
    their bytes ([Layout]).  The journal's state is a member of the object; its
    operations are in [Ext4Journal].

    A disk is divided into blocks of [block_size] bytes; [block f d b] are the
    bytes of block [b].  The descriptor of a group and an inode are 64 and 160
    bytes of a block, whatever the sizes the superblock gives: [desc_fits] and
    [inode_fits] say that they lie inside. *)

From Stdlib Require Import String.
From S2P Require Import Prelude Bytes Block Layout.

Module Ext4.
Import Bytes Block Layout.
Local Open Scope string_scope.
Local Open Scope list_scope.
Local Open Scope Z_scope.

Definition EXT4_SUPER_MAGIC : Z := 0xEF53.
Definition EXT4_EXTENT_MAGIC : Z := 0xF30A.
Definition EXT4_FEATURE_INCOMPAT_EXTENTS : Z := 0x40.
Definition EXT4_FEATURE_INCOMPAT_64BIT : Z := 0x80.
Definition EXT4_EXTENTS_FL : Z := 0x80000.
Definition EXT4_S_IFREG : Z := 0x8000.
Definition EXT4_S_IFDIR : Z := 0x4000.
Definition EXT4_S_IRUSR : Z := 0x100.
Definition EXT4_S_IWUSR : Z := 0x80.
Definition EXT4_S_IXUSR : Z := 0x40.

(** ** The structures on the disk *)

Definition Ext4Superblock : layout := [
  ("s_inodes_count", 4%nat); ("s_blocks_count_lo", 4%nat); ("s_r_blocks_count_lo", 4%nat);
  ("s_free_blocks_count_lo", 4%nat); ("s_free_inodes_count", 4%nat); ("s_first_data_block", 4%nat);
  ("s_log_block_size", 4%nat); ("s_log_cluster_size", 4%nat); ("s_blocks_per_group", 4%nat);
  ("s_clusters_per_group", 4%nat); ("s_inodes_per_group", 4%nat); ("s_mtime", 4%nat); ("s_wtime", 4%nat);
  ("s_mnt_count", 2%nat); ("s_max_mnt_count", 2%nat); ("s_magic", 2%nat); ("s_state", 2%nat);
  ("s_errors", 2%nat); ("s_minor_rev_level", 2%nat); ("s_lastcheck", 4%nat); ("s_checkinterval", 4%nat);
  ("s_creator_os", 4%nat); ("s_rev_level", 4%nat); ("s_def_resuid", 2%nat); ("s_def_resgid", 2%nat);
  ("s_first_ino", 4%nat); ("s_inode_size", 2%nat); ("s_block_group_nr", 2%nat); ("s_feature_compat", 4%nat);
  ("s_feature_incompat", 4%nat); ("s_feature_ro_compat", 4%nat); ("s_uuid", 16%nat);
  ("s_volume_name", 16%nat); ("s_last_mounted", 64%nat); ("s_algorithm_usage_bitmap", 4%nat);
  ("s_prealloc_blocks", 1%nat); ("s_prealloc_dir_blocks", 1%nat); ("s_reserved_gdt_blocks", 2%nat);
  ("s_journal_uuid", 16%nat); ("s_journal_inum", 4%nat); ("s_journal_dev", 4%nat); ("s_last_orphan", 4%nat);
  ("s_hash_seed", 16%nat); ("s_def_hash_version", 1%nat); ("s_jnl_backup_type", 1%nat);
  ("s_desc_size", 2%nat); ("s_default_mount_opts", 4%nat); ("s_first_meta_bg", 4%nat);
  ("s_mkfs_time", 4%nat); ("s_jnl_blocks", 68%nat); ("s_blocks_count_hi", 4%nat);
  ("s_r_blocks_count_hi", 4%nat); ("s_free_blocks_count_hi", 4%nat); ("s_min_extra_isize", 2%nat);
  ("s_want_extra_isize", 2%nat); ("s_flags", 4%nat); ("s_raid_stride", 2%nat); ("s_mmp_interval", 2%nat);
  ("s_mmp_block", 8%nat); ("s_raid_stripe_width", 4%nat); ("s_log_groups_per_flex", 1%nat);
  ("s_checksum_type", 1%nat); ("s_reserved_pad", 1%nat); ("s_reserved_pad2", 1%nat);
  ("s_kbytes_written", 8%nat); ("s_reserved", 640%nat)].

Definition Ext4GroupDesc : layout := [
  ("bg_block_bitmap_lo", 4%nat); ("bg_inode_bitmap_lo", 4%nat); ("bg_inode_table_lo", 4%nat);
  ("bg_free_blocks_count_lo", 2%nat); ("bg_free_inodes_count_lo", 2%nat); ("bg_used_dirs_count_lo", 2%nat);
  ("bg_flags", 2%nat); ("bg_exclude_bitmap_lo", 4%nat); ("bg_block_bitmap_csum_lo", 2%nat);
  ("bg_inode_bitmap_csum_lo", 2%nat); ("bg_itable_unused_lo", 2%nat); ("bg_checksum", 2%nat);
  ("bg_block_bitmap_hi", 4%nat); ("bg_inode_bitmap_hi", 4%nat); ("bg_inode_table_hi", 4%nat);
  ("bg_free_blocks_count_hi", 2%nat); ("bg_free_inodes_count_hi", 2%nat); ("bg_used_dirs_count_hi", 2%nat);
  ("bg_itable_unused_hi", 2%nat); ("bg_exclude_bitmap_hi", 4%nat); ("bg_block_bitmap_csum_hi", 2%nat);
  ("bg_inode_bitmap_csum_hi", 2%nat); ("bg_reserved", 4%nat)].

Definition Ext4Inode : layout := [
  ("i_mode", 2%nat); ("i_uid", 2%nat); ("i_size_lo", 4%nat); ("i_atime", 4%nat); ("i_ctime", 4%nat);
  ("i_mtime", 4%nat); ("i_dtime", 4%nat); ("i_gid", 2%nat); ("i_links_count", 2%nat);
  ("i_blocks_lo", 4%nat); ("i_flags", 4%nat); ("i_osd1", 4%nat); ("i_block", 60%nat);
  ("i_generation", 4%nat); ("i_file_acl_lo", 4%nat); ("i_size_high", 4%nat); ("i_obso_faddr", 4%nat);
  ("i_blocks_high", 2%nat); ("i_file_acl_high", 2%nat); ("i_uid_high", 2%nat); ("i_gid_high", 2%nat);
  ("i_checksum_lo", 2%nat); ("i_reserved", 2%nat); ("i_extra_isize", 2%nat); ("i_checksum_hi", 2%nat);
  ("i_ctime_extra", 4%nat); ("i_mtime_extra", 4%nat); ("i_atime_extra", 4%nat); ("i_crtime", 4%nat);
  ("i_crtime_extra", 4%nat); ("i_version_hi", 4%nat); ("i_projid", 4%nat)].

Definition Ext4ExtentHeader : layout := [
  ("eh_magic", 2%nat); ("eh_entries", 2%nat); ("eh_max", 2%nat); ("eh_depth", 2%nat);
  ("eh_generation", 4%nat)].

Definition Ext4Extent : layout := [
  ("ee_block", 4%nat); ("ee_len", 2%nat); ("ee_start_hi", 2%nat); ("ee_start_lo", 4%nat)].

Definition Ext4ExtentIdx : layout := [
  ("ei_block", 4%nat); ("ei_leaf_lo", 4%nat); ("ei_leaf_hi", 2%nat); ("ei_unused", 2%nat)].

Definition Ext4DirEntry2 : layout := [
  ("inode", 4%nat); ("rec_len", 2%nat); ("name_len", 1%nat); ("file_type", 1%nat); ("name", 255%nat)].

(** Two halves of a number. *)
Definition hi_lo (w hi lo : Z) : Z := Z.lor (Z.shiftl hi w) lo.

Definition ext4_get_blocks_count (sb : list Z) : Z :=
  hi_lo 32 (member Ext4Superblock "s_blocks_count_hi" sb) (member Ext4Superblock "s_blocks_count_lo" sb).
Definition ext4_get_inode_size (inode : list Z) : Z :=
  hi_lo 32 (member Ext4Inode "i_size_high" inode) (member Ext4Inode "i_size_lo" inode).
Definition ext4_get_inode_uid (inode : list Z) : Z :=
  hi_lo 16 (member Ext4Inode "i_uid_high" inode) (member Ext4Inode "i_uid" inode).
Definition ext4_get_inode_gid (inode : list Z) : Z :=
  hi_lo 16 (member Ext4Inode "i_gid_high" inode) (member Ext4Inode "i_gid" inode).

(** ** The manager *)

(** A block waiting in the journal: where it belongs, the copy on the heap, its bytes. *)
Record log_entry : Set := mk_log { fs_block : Z; copy : Z; data : list Z }.

(** [current_trans] holds the first [trans_count] entries of the static array. *)
Record JBD2 : Set := mk_jbd2 {
  journal_inode_num : Z; journal_block_size : Z; max_blocks : Z; current_seq : Z; head_block : Z;
  current_trans : list log_entry
}.

Record Ext4Manager : Set := mk_ext4 {
  sb : list Z; journal : JBD2; partition_lba : Z; block_size : Z; inode_size : Z;
  inodes_per_group : Z; blocks_per_group : Z; group_desc_size : Z; groups_count : Z
}.

Definition set_journal (j : JBD2) (f : Ext4Manager) : Ext4Manager :=
  mk_ext4 (sb f) j (partition_lba f) (block_size f) (inode_size f) (inodes_per_group f)
    (blocks_per_group f) (group_desc_size f) (groups_count f).
Definition set_sb (b : list Z) (f : Ext4Manager) : Ext4Manager :=
  mk_ext4 b (journal f) (partition_lba f) (block_size f) (inode_size f) (inodes_per_group f)
    (blocks_per_group f) (group_desc_size f) (groups_count f).

Definition s_first_data_block (f : Ext4Manager) : Z := member Ext4Superblock "s_first_data_block" (sb f).
Definition s_journal_inum (f : Ext4Manager) : Z := member Ext4Superblock "s_journal_inum" (sb f).
Definition feature_incompat (b : list Z) (feature : Z) : bool :=
  negb (Z.land (member Ext4Superblock "s_feature_incompat" b) feature =? 0).
Definition check_feature_incompat (f : Ext4Manager) (feature : Z) : bool := feature_incompat (sb f) feature.

(** [1024 << n] for an unsigned [n]: undefined from the width of the result on. *)
Definition shl_1024 (n : Z) : outcome Z := if n <? 32 then Ok (u32 (Z.shiftl 1024 n)) else Fault.

(** The journal's object after [JBD2::init], and [JBD2::start_transaction]. *)
Definition JBD2_init (fs_block_size inode : Z) : JBD2 := mk_jbd2 inode fs_block_size 1024 1 1 [].
Definition start_transaction (j : JBD2) : JBD2 :=
  mk_jbd2 (journal_inode_num j) (journal_block_size j) (max_blocks j) (u32 (current_seq j + 1)) (head_block j) [].

Section manager.
Context {W : Type} `{!BlockDevice W, !Allocator W}.

(** [f] is the object before the call. *)
Definition init (f : Ext4Manager) (lba : Z) : kernel W Ext4Manager :=
  buffer ← read_sectors (u32 (lba + 2)) 2;
  b ← lift (get_bytes 0 (sizeof Ext4Superblock) buffer);
  if negb (member Ext4Superblock "s_magic" b =? EXT4_SUPER_MAGIC) then lift (Panic K_ERR_GENERAL_PROTECTION) else
  bsize ← lift (shl_1024 (member Ext4Superblock "s_log_block_size" b));
  let ipg := member Ext4Superblock "s_inodes_per_group" b in
  let bpg := member Ext4Superblock "s_blocks_per_group" b in
  let isize := if 0 <? member Ext4Superblock "s_rev_level" b then member Ext4Superblock "s_inode_size" b else 128 in
  let total_blocks := ext4_get_blocks_count b in
  groups ← lift (udiv (u64 (u64 (total_blocks + bpg) - 1)) bpg);
  let dsize := if feature_incompat b EXT4_FEATURE_INCOMPAT_64BIT
    then member Ext4Superblock "s_desc_size" b else 32 in
  let inum := member Ext4Superblock "s_journal_inum" b in
  let j := if negb (inum =? 0) then start_transaction (JBD2_init bsize inum) else journal f in
  mret (mk_ext4 b j lba bsize isize ipg bpg dsize (u32 groups)).

(** The entries of the partition table, the first that holds an EXT4 superblock. *)
Fixpoint scan_partitions (n : nat) (i : Z) (sector : list Z) : kernel W Z :=
  match n with
  | O => mret 0
  | S n' =>
      type ← lift (get8 (446 + 16 * i + 4) sector);
      lba_start ← lift (get32 (446 + 16 * i + 8) sector);
      if type =? 0x83 then
        buffer ← read_sectors (u32 (lba_start + 2)) 2;
        magic ← lift (get_member Ext4Superblock 0 "s_magic" buffer);
        if magic =? EXT4_SUPER_MAGIC then mret lba_start else scan_partitions n' (i + 1) sector
      else scan_partitions n' (i + 1) sector
  end.

Definition find_ext4_partition : kernel W Z :=
  sector ← read_sectors 0 1; scan_partitions 4 0 sector.

(** *** Blocks *)

Definition sectors_per_block (f : Ext4Manager) : Z := block_size f / 512.
Definition block_lba (f : Ext4Manager) (block_num : Z) : Z :=
  u64 (partition_lba f + u64 (block_num * sectors_per_block f)).

(** The driver takes a 32-bit sector and an 8-bit count. *)
Definition read_block (f : Ext4Manager) (block_num : Z) : kernel W (list Z) :=
  read_sectors (u32 (block_lba f block_num)) (u8 (sectors_per_block f)).
Definition write_block (f : Ext4Manager) (block_num : Z) (buffer : list Z) : kernel W unit :=
  bs ← lift (get_bytes 0 (SECTOR * u8 (sectors_per_block f)) buffer);
  write_sectors (u32 (block_lba f block_num)) (u8 (sectors_per_block f)) bs.
Definition read_blocks (f : Ext4Manager) (block_num count : Z) : kernel W (list Z) :=
  read_sectors (u32 (block_lba f block_num)) (u8 (count * sectors_per_block f)).

(** Reading a block to a buffer that [kmalloc] may have refused. *)
Definition read_into (f : Ext4Manager) (buffer block_num : Z) : kernel W (list Z) :=
  if buffer =? 0 then lift Fault else read_block f block_num.

(** *** Group descriptors *)

(** The block of the descriptor of a group, and where it is in the block. *)
Definition desc_place (f : Ext4Manager) (group : Z) : outcome (Z * Z) :=
  let first_desc_block := u32 (s_first_data_block f + 1) in
  desc_per_block ← udiv (block_size f) (group_desc_size f);
  block_offset ← udiv group desc_per_block;
  index ← umod group desc_per_block;
  Ok (u32 (first_desc_block + block_offset), u32 (index * group_desc_size f)).

Definition read_group_desc (f : Ext4Manager) (group : Z) : kernel W (list Z) :=
  '(blk, off) ← lift (desc_place f group);
  buffer ← kmalloc (block_size f);
  b ← read_into f buffer blk;
  desc ← lift (get_bytes off (sizeof Ext4GroupDesc) b);
  kfree buffer;;
  mret desc.

(** A block number of a descriptor: the high half counts with the feature. *)
Definition desc_block (f : Ext4Manager) (lo hi : string) (desc : list Z) : Z :=
  let block := member Ext4GroupDesc lo desc in
  if check_feature_incompat f EXT4_FEATURE_INCOMPAT_64BIT
  then Z.lor block (Z.shiftl (member Ext4GroupDesc hi desc) 32) else block.
Definition get_block_bitmap (f : Ext4Manager) (desc : list Z) : Z :=
  desc_block f "bg_block_bitmap_lo" "bg_block_bitmap_hi" desc.
Definition get_inode_bitmap (f : Ext4Manager) (desc : list Z) : Z :=
  desc_block f "bg_inode_bitmap_lo" "bg_inode_bitmap_hi" desc.
Definition get_inode_table (f : Ext4Manager) (desc : list Z) : Z :=
  desc_block f "bg_inode_table_lo" "bg_inode_table_hi" desc.

(** *** Inodes *)

Definition get_inode_group (f : Ext4Manager) (inode_num : Z) : outcome Z :=
  udiv (u32 (inode_num - 1)) (inodes_per_group f).
Definition get_inode_index (f : Ext4Manager) (inode_num : Z) : outcome Z :=
  umod (u32 (inode_num - 1)) (inodes_per_group f).

(** The block of an inode, and where it is in the block. *)
Definition inode_place (f : Ext4Manager) (inode_num : Z) : kernel W (Z * Z) :=
  group ← lift (get_inode_group f inode_num);
  index ← lift (get_inode_index f inode_num);
  gd ← read_group_desc f group;
  let table_block := get_inode_table f gd in
  inodes_per_block ← lift (udiv (block_size f) (inode_size f));
  block_offset ← lift (udiv index inodes_per_block);
  i ← lift (umod index inodes_per_block);
  mret (u64 (table_block + block_offset), u32 (i * inode_size f)).

Definition read_inode (f : Ext4Manager) (inode_num : Z) : kernel W (list Z) :=
  '(blk, off) ← inode_place f inode_num;
  buffer ← kmalloc (block_size f);
  b ← read_into f buffer blk;
  inode ← lift (get_bytes off (sizeof Ext4Inode) b);
  kfree buffer;;
  mret inode.

Definition write_inode (f : Ext4Manager) (inode_num : Z) (inode : list Z) : kernel W unit :=
  '(blk, off) ← inode_place f inode_num;
  buffer ← kmalloc (block_size f);
  b ← read_into f buffer blk;
  b' ← lift (put_bytes off inode b);
  write_block f blk b';;
  kfree buffer.
End manager.

(** The halves of a number put together. *)
Lemma hi_lo_add w hi lo : 0 ≤ w → 0 ≤ lo < 2 ^ w → hi_lo w hi lo = hi * 2 ^ w + lo.
Proof.
  intros Hw Hlo. unfold hi_lo. rewrite <- Z.shiftl_mul_pow2 by done.
  assert (E : Z.land (Z.shiftl hi w) lo = 0).
  { apply Z.bits_inj'. intros j Hj. rewrite Z.land_spec, Z.bits_0.
    destruct (Z.ltb_spec j w); [by rewrite Z.shiftl_spec_low by done|].
    by rewrite (testbit_high w lo j Hlo), andb_false_r by done. }
  rewrite Z.add_nocarry_lxor by done. symmetry. by apply Z.lxor_lor.
Qed.

Lemma hi_lo_range w k hi lo : 0 ≤ w → 0 ≤ k → 0 ≤ hi < 2 ^ k → 0 ≤ lo < 2 ^ w → 0 ≤ hi_lo w hi lo < 2 ^ (k + w).
Proof. intros. rewrite hi_lo_add by done. rewrite Z.pow_add_r by done. nia. Qed.

(** ** The blocks of the disk *)

Definition block_addr (f : Ext4Manager) (b : Z) : Z := 512 * partition_lba f + block_size f * b.
Definition block (f : Ext4Manager) (d : list Z) (b : Z) : list Z := sub (block_addr f b) (block_size f) d.
Definition put_block (f : Ext4Manager) (b : Z) (bs d : list Z) : list Z := splice (block_addr f b) bs d.
Definition on_disk (f : Ext4Manager) (d : list Z) (b : Z) : Prop := 0 ≤ b ∧ block_addr f (b + 1) ≤ len d.

(** Blocks are whole sectors, few enough for one command, and the disk is within the
    reach of the driver. *)
Record geometry_ok (f : Ext4Manager) (d : list Z) : Prop := {
  go_partition : 0 ≤ partition_lba f;
  go_sectors : block_size f = 512 * sectors_per_block f;
  go_size : 2 ≤ sectors_per_block f ≤ 128;
  go_disk : len d ≤ 512 * 2 ^ 28;
  go_bytes : Forall byte d
}.

Section blocks.
Context (f : Ext4Manager).
Implicit Types d : list Z.

Lemma block_size_bounds d : geometry_ok f d → 1024 ≤ block_size f ≤ 65536.
Proof. intros []. lia. Qed.

Lemma on_disk_bounds d b : geometry_ok f d → on_disk f d b →
  0 ≤ block_addr f b ∧ block_addr f b + block_size f ≤ len d ∧ 0 ≤ b < 2 ^ 28.
Proof. intros [] [H1 H2]. unfold block_addr in *. split_and!; nia. Qed.

Lemma ext4_geometry_len d d' : geometry_ok f d → len d' = len d → Forall byte d' → geometry_ok f d'.
Proof. intros [] E Hb. constructor; rewrite ?E; done. Qed.
Lemma on_disk_len d d' b : len d' = len d → on_disk f d b → on_disk f d' b.
Proof. unfold on_disk. by intros ->. Qed.

Lemma len_block d b : geometry_ok f d → on_disk f d b → len (block f d b) = block_size f.
Proof.
  intros Hg Hb. destruct (on_disk_bounds d b Hg Hb) as (B1 & B2 & B3). pose proof (block_size_bounds d Hg).
  apply len_sub; lia.
Qed.

Lemma block_bytes d b : geometry_ok f d → Forall byte (block f d b).
Proof. intros Hg. apply Forall_sub, Hg. Qed.

Lemma len_put_block d b bs : geometry_ok f d → on_disk f d b → len bs = block_size f →
  len (put_block f b bs d) = len d.
Proof. intros Hg Hb E. destruct (on_disk_bounds d b Hg Hb) as (B1 & B2 & B3). apply len_splice; lia. Qed.

Lemma geometry_put d b bs : geometry_ok f d → on_disk f d b → len bs = block_size f → Forall byte bs →
  geometry_ok f (put_block f b bs d).
Proof.
  intros Hg Hb E H. eapply ext4_geometry_len; [done|by apply len_put_block|]. apply Forall_splice; [done|apply Hg].
Qed.

Lemma block_put_same d b bs : geometry_ok f d → on_disk f d b → len bs = block_size f →
  block f (put_block f b bs d) b = bs.
Proof.
  intros Hg Hb E. destruct (on_disk_bounds d b Hg Hb) as (B1 & B2 & B3).
  unfold block, put_block. rewrite <- E. apply sub_splice_same; lia.
Qed.

Lemma block_put_other d b b' bs : geometry_ok f d → on_disk f d b → on_disk f d b' → len bs = block_size f →
  b ≠ b' → block f (put_block f b bs d) b' = block f d b'.
Proof.
  intros Hg Hb Hb' E Hne. destruct (on_disk_bounds d b Hg Hb) as (B1 & B2 & B3).
  destruct (on_disk_bounds d b' Hg Hb') as (C1 & C2 & C3). pose proof (block_size_bounds d Hg).
  unfold block, put_block. apply sub_splice_disjoint; try lia. unfold block_addr in *. nia.
Qed.

(** Writing back a block with a part changed changes that part of the disk. *)
Lemma put_block_part d b p bs : geometry_ok f d → on_disk f d b → 0 ≤ p → p + len bs ≤ block_size f →
  put_block f b (splice p bs (block f d b)) d = splice (block_addr f b + p) bs d.
Proof.
  intros Hg Hb Hp Hl. destruct (on_disk_bounds d b Hg Hb) as (B1 & B2 & B3).
  pose proof (block_size_bounds d Hg). apply splice_splice_sub; lia.
Qed.

Lemma block_lba_ok d b : geometry_ok f d → on_disk f d b →
  u32 (block_lba f b) = block_lba f b ∧ SECTOR * block_lba f b = block_addr f b ∧
  u8 (sectors_per_block f) = sectors_per_block f ∧
  sectors_ok (block_lba f b) (sectors_per_block f) d.
Proof.
  intros Hg Hb. destruct (on_disk_bounds d b Hg Hb) as (B1 & B2 & B3). destruct Hg as [G1 G2 G3 G4 _].
  unfold block_addr in *. assert (E : block_lba f b = partition_lba f + b * sectors_per_block f).
  { unfold block_lba. rewrite (wrap_small 64 (b * _)) by nia. apply wrap_small. nia. }
  rewrite E. unfold sectors_ok, SECTOR. rewrite !wrap_small by nia. split_and!; nia.
Qed.
End blocks.

Section operations.
Context {W : Type} `{!BlockDevice W, !Allocator W, !StoreLaws W}.
Context (f : Ext4Manager).
Implicit Types s : store.

Lemma runs_read_block s b : geometry_ok f (disk s) → on_disk f (disk s) b →
  runs (read_block f b) s (block f (disk s) b) s.
Proof.
  intros Hg Hb. destruct (block_lba_ok f _ b Hg Hb) as (E1 & E2 & E3 & H). unfold read_block.
  rewrite E1, E3. unfold block. rewrite <- E2.
  replace (block_size f) with (SECTOR * sectors_per_block f); [by apply runs_read|].
  symmetry. apply Hg.
Qed.

Lemma runs_write_block s b bs : geometry_ok f (disk s) → on_disk f (disk s) b → len bs = block_size f →
  Forall byte bs → runs (write_block f b bs) s () (set_disk (put_block f b bs (disk s)) s).
Proof.
  intros Hg Hb El Hbs. destruct (block_lba_ok f _ b Hg Hb) as (E1 & E2 & E3 & H). unfold write_block.
  rewrite E1, E3. assert (Es : SECTOR * sectors_per_block f = len bs) by (rewrite El; symmetry; apply Hg).
  pose proof (len_nonneg bs). eapply runs_lift; [apply get_bytes_ok; lia|]. rewrite Es, sub_full.
  unfold put_block. rewrite <- E2. apply runs_write; [done|lia|done].
Qed.

Lemma runs_read_blocks_into s p b : geometry_ok f (disk s) → on_disk f (disk s) b → p ≠ 0 →
  runs (read_into f p b) s (block f (disk s) b) s.
Proof.
  intros Hg Hb Hp. unfold read_into. rewrite (proj2 (Z.eqb_neq _ _)) by done. by apply runs_read_block.
Qed.

(** A block read to a new buffer. *)
Lemma runs_buffer {A} s b (k : Z → list Z → kernel W A) a s' :
  geometry_ok f (disk s) → on_disk f (disk s) b → block_size f ≤ quota s →
  (∀ p, p ≠ 0 → p ∉ live s → runs (k p (block f (disk s) b)) (add_buffer p s) a s') →
  runs (buffer ← kmalloc (block_size f); x ← read_into f buffer b; k buffer x) s a s'.
Proof.
  intros Hg Hb Hq Hk. pose proof (block_size_bounds f _ Hg). apply runs_kmalloc; [lia|].
  intros p Hp Hl. eapply runs_bind; [by apply runs_read_blocks_into|]. by apply Hk.
Qed.
End operations.

(** ** Group descriptors *)

Definition desc_index (f : Ext4Manager) (g : Z) : Z := g mod (block_size f / group_desc_size f).
Definition desc_blk (f : Ext4Manager) (g : Z) : Z :=
  s_first_data_block f + 1 + g / (block_size f / group_desc_size f).
Definition desc_off (f : Ext4Manager) (g : Z) : Z := desc_index f g * group_desc_size f.

(** The 64 bytes read and written for group [g] are in one block of the disk. *)
Record desc_fits (f : Ext4Manager) (d : list Z) (g : Z) : Prop := {
  df_group : 0 ≤ g;
  df_size : 32 ≤ group_desc_size f ≤ block_size f;
  df_inside : desc_off f g + 64 ≤ block_size f;
  df_disk : on_disk f d (desc_blk f g);
  df_first : 0 ≤ s_first_data_block f
}.

Definition desc (f : Ext4Manager) (d : list Z) (g : Z) : list Z := sub (desc_off f g) 64 (block f d (desc_blk f g)).

(** ** Inodes *)

Definition group_of (f : Ext4Manager) (i : Z) : Z := (i - 1) / inodes_per_group f.
Definition index_of (f : Ext4Manager) (i : Z) : Z := (i - 1) mod inodes_per_group f.
Definition inode_blk (f : Ext4Manager) (d : list Z) (i : Z) : Z :=
  get_inode_table f (desc f d (group_of f i)) + index_of f i / (block_size f / inode_size f).
Definition inode_off (f : Ext4Manager) (i : Z) : Z :=
  index_of f i mod (block_size f / inode_size f) * inode_size f.

(** The 160 bytes read and written for inode [i] are in one block of the disk. *)
Record inode_fits (f : Ext4Manager) (d : list Z) (i : Z) : Prop := {
  if_num : 1 ≤ i < 2 ^ 32;
  if_per_group : 0 < inodes_per_group f;
  if_desc : desc_fits f d (group_of f i);
  if_size : 0 < inode_size f ≤ block_size f;
  if_inside : inode_off f i + 160 ≤ block_size f;
  if_disk : on_disk f d (inode_blk f d i)
}.

Definition inode (f : Ext4Manager) (d : list Z) (i : Z) : list Z := sub (inode_off f i) 160 (block f d (inode_blk f d i)).
Definition put_inode (f : Ext4Manager) (i : Z) (v d : list Z) : list Z :=
  put_block f (inode_blk f d i) (splice (inode_off f i) v (block f d (inode_blk f d i))) d.

Section inodes.
Context {W : Type} `{!BlockDevice W, !Allocator W, !StoreLaws W}.
Context (f : Ext4Manager).
Implicit Types s : store.
Implicit Types d : list Z.

Lemma desc_place_ok d g : geometry_ok f d → desc_fits f d g →
  desc_place f g = Ok (desc_blk f g, desc_off f g) ∧ 0 ≤ desc_off f g.
Proof.
  intros Hg [D1 D2 D3 D4 D5]. destruct (on_disk_bounds f d _ Hg D4) as (B1 & B2 & B3).
  pose proof (block_size_bounds f d Hg) as Hs.
  assert (Hq : 0 < block_size f / group_desc_size f) by (apply Z.div_str_pos; lia).
  pose proof (Z.div_pos g (block_size f / group_desc_size f) D1 Hq) as Hd.
  pose proof (Z.mod_pos_bound g (block_size f / group_desc_size f) Hq) as Hm.
  unfold desc_off, desc_blk, desc_index in *. assert (0 ≤ g mod (block_size f / group_desc_size f) * group_desc_size f) by nia.
  split; [|done]. unfold desc_place. rewrite udiv_ok by lia. run. rewrite udiv_ok by lia. run.
  rewrite umod_ok by lia. run. do 2 f_equal.
  - rewrite (wrap_small 32 (s_first_data_block f + 1)) by lia. apply wrap_small. lia.
  - apply wrap_small. lia.
Qed.

Lemma len_desc d g : geometry_ok f d → desc_fits f d g → len (desc f d g) = 64.
Proof.
  intros Hg Hd. destruct (desc_place_ok d g Hg Hd) as [_ H0]. destruct Hd.
  apply len_sub; rewrite ?len_block by done; lia.
Qed.

Lemma runs_read_group_desc s g : geometry_ok f (disk s) → desc_fits f (disk s) g → block_size f ≤ quota s →
  runs (read_group_desc f g) s (desc f (disk s) g) s.
Proof.
  intros Hg Hd Hq. destruct (desc_place_ok _ g Hg Hd) as [E H0]. destruct Hd as [D1 D2 D3 D4 D5].
  unfold read_group_desc. eapply runs_lift; [exact E|]. cbn beta iota.
  apply runs_buffer; [done..|]. intros p Hp Hl.
  change (sizeof Ext4GroupDesc) with 64. eapply runs_lift; [apply get_bytes_ok; rewrite ?len_block by done; lia|].
  apply runs_kfree; [done|]. apply runs_ret.
Qed.

Lemma inode_place_ok s i : geometry_ok f (disk s) → inode_fits f (disk s) i → block_size f ≤ quota s →
  runs (inode_place f i) s (inode_blk f (disk s) i, inode_off f i) s ∧ 0 ≤ inode_off f i.
Proof.
  intros Hg [I1 I2 I3 I4 I5 I6] Hq. destruct (on_disk_bounds f _ _ Hg I6) as (B1 & B2 & B3).
  pose proof (block_size_bounds f _ Hg) as Hs.
  assert (Hp : 0 < block_size f / inode_size f) by (apply Z.div_str_pos; lia).
  pose proof (Z.mod_pos_bound (index_of f i) _ Hp) as Hm.
  assert (0 ≤ inode_off f i) by (unfold inode_off; nia).
  split; [|done]. unfold inode_place, get_inode_group, get_inode_index.
  rewrite (wrap_small 32 (i - 1)) by lia.
  eapply runs_lift; [apply udiv_ok; lia|]. eapply runs_lift; [apply umod_ok; lia|].
  eapply runs_bind; [by apply runs_read_group_desc|].
  eapply runs_lift; [apply udiv_ok; lia|]. eapply runs_lift; [apply udiv_ok; lia|].
  eapply runs_lift; [apply umod_ok; lia|]. fold (group_of f i) (index_of f i) (inode_off f i) (inode_blk f (disk s) i).
  rewrite !wrap_small by lia. apply runs_ret.
Qed.

Lemma len_inode d i : geometry_ok f d → inode_fits f d i → 0 ≤ inode_off f i → len (inode f d i) = 160.
Proof. intros Hg Hi H0. destruct Hi. apply len_sub; rewrite ?len_block by done; lia. Qed.

Lemma runs_read_inode s i : geometry_ok f (disk s) → inode_fits f (disk s) i → block_size f ≤ quota s →
  runs (read_inode f i) s (inode f (disk s) i) s.
Proof.
  intros Hg Hi Hq. destruct (inode_place_ok s i Hg Hi Hq) as [Hr H0]. destruct Hi as [I1 I2 I3 I4 I5 I6].
  unfold read_inode. eapply runs_bind; [exact Hr|]. cbn beta iota. apply runs_buffer; [done..|]. intros p Hp Hl.
  change (sizeof Ext4Inode) with 160. eapply runs_lift; [apply get_bytes_ok; rewrite ?len_block by done; lia|].
  apply runs_kfree; [done|]. apply runs_ret.
Qed.

Lemma runs_write_inode s i v : geometry_ok f (disk s) → inode_fits f (disk s) i → block_size f ≤ quota s →
  len v = 160 → Forall byte v →
  runs (write_inode f i v) s () (set_disk (put_inode f i v (disk s)) s).
Proof.
  intros Hg Hi Hq Ev Hv. destruct (inode_place_ok s i Hg Hi Hq) as [Hr H0]. destruct Hi as [I1 I2 I3 I4 I5 I6].
  unfold write_inode. eapply runs_bind; [exact Hr|]. cbn beta iota. apply runs_buffer; [done..|]. intros p Hp Hl.
  eapply runs_lift; [apply put_bytes_ok; rewrite ?len_block by done; lia|].
  eapply runs_bind; [apply runs_write_block; [done|done| |]|].
  - rewrite len_splice; rewrite ?len_block by done; lia.
  - apply Forall_splice; [done|by apply block_bytes].
  - rewrite set_disk_add. by apply runs_kfree_last.
Qed.
End inodes.
End Ext4.
