(* ===== verification/Start.v ===== *)
(** * The root file system (init_file_system of kernel/kernel.cpp)

    [init_file_system] takes the first EXT4 partition of the table in the first
    sector as the root, the first FAT32 partition when there is none, and panics
    without either.  The root of a FAT32 volume becomes a node under an overlay,
    and the RAM disk is mounted in the overlay.  [root_selected] is the choice,
    [fat_root_mounted] the tree of nodes that it leaves. *)

From Stdlib Require Import String.
From S2P Require Import Prelude Bytes LibcString Block Vfs Ramfs Fat FatFile FatDir VfsNode RootTree Layout Ext4.

Module Start.
Import Bytes Block Layout.
#[local] Open Scope string_scope.
#[local] Open Scope Z_scope.
#[local] Open Scope list_scope.
#[local] Abbreviation length := List.length.

(** ** The code *)

(** What the objects [ext4_inst] or [fat32_inst] become. *)
Inductive root_fs : Set :=
| RootExt4 (f : Ext4.Ext4Manager)
| RootFat (f : Fat.FAT32Manager).

Section select.
Context {W : Type} `{!BlockDevice W, !Allocator W}.

Definition find_root (ext4_inst : Ext4.Ext4Manager) : kernel W root_fs :=
  ext4_lba ← Ext4.find_ext4_partition;
  if negb (ext4_lba =? 0) then
    f ← Ext4.init ext4_inst ext4_lba; mret (RootExt4 f)
  else
    fat_lba ← Fat.find_fat32_partition;
    if fat_lba =? 0 then lift (Panic K_ERR_GENERAL_PROTECTION) else
    f ← Fat.init fat_lba; mret (RootFat f).
End select.

Section nodes.
Context {D : Type} `{!BlockDevice D, !Allocator D}.
Import VfsNode.

Definition set_fat (f : Fat.FAT32Manager) (w : world D) : world D :=
  mk_world (nodes w) (root w) (cwd w) (memory w) f (io w).

(** The part after the choice of a FAT32 volume. *)
Definition mount_fat_root (f : Fat.FAT32Manager) (ramdisk_vaddr : Z) (w : world D) : outcome (world D) :=
  let n := node [Vfs.SLASH] VFS_DIRECTORY 0 (FAT32_Directory (Fat.root_cluster (Fat.bpb f))) in
  '(fat_root, w1) ← new_node n (set_fat f w);
  '(root_overlay, w2) ← new_node (new_MountOverlayNode fat_root n) w1;
  let w3 := set_root root_overlay w2 in
  RootTree.mount_initrd root_overlay ramdisk_vaddr w3.
End nodes.

(** ** The table of partitions *)

(** The type and the first sector of an entry. *)
Definition partition (d : list Z) (i : Z) : Z * Z :=
  (of_le (sub (446 + 16 * i + 4) 1 d), of_le (sub (446 + 16 * i + 8) 4 d)).
Definition partitions (d : list Z) : list (Z * Z) := partition d <$> [0; 1; 2; 3].

(** The bytes of the superblock of a partition. *)
Definition super_at (d : list Z) (lba : Z) : list Z := sub (SECTOR * (lba + 2)) (sizeof Ext4.Ext4Superblock) d.

Definition is_ext4 (d : list Z) (p : Z * Z) : bool :=
  (p.1 =? 0x83) && (member Ext4.Ext4Superblock "s_magic" (super_at d p.2) =? Ext4.EXT4_SUPER_MAGIC).
Definition is_fat32 (p : Z * Z) : bool := (p.1 =? 0x0B) || (p.1 =? 0x0C).

Definition first_lba (P : Z * Z → bool) (ps : list (Z * Z)) : Z :=
  match List.find P ps with Some p => p.2 | None => 0 end.

(** There is a first sector, and the superblocks of the Linux partitions are on the disk. *)
Definition table_ok (d : list Z) : Prop :=
  sectors_ok 0 1 d ∧ Forall (λ p, p.1 = 0x83 → sectors_ok (p.2 + 2) 2 d) (partitions d).

(** What [Fat.init] keeps of the boot sector. *)
Definition bpb_at (d : list Z) (lba : Z) : Fat.FAT32_BPB :=
  let field o n := of_le (sub (SECTOR * lba + o) n d) in
  Fat.mk_bpb (field 13 1) (field 14 2) (field 16 1) (field 36 4) (field 44 4).

(** A superblock that [Ext4.init] can use. *)
Definition super_ok (b : list Z) : Prop :=
  0 ≤ member Ext4.Ext4Superblock "s_log_block_size" b < 22 ∧ member Ext4.Ext4Superblock "s_blocks_per_group" b ≠ 0.

Lemma get8_sub o off n d : 0 ≤ o → 0 ≤ off → o + 1 ≤ n → off + n ≤ len d →
  get8 o (sub off n d) = Ok (of_le (sub (off + o) 1 d)).
Proof. intros. rewrite get_le_ok; [|cbn; lia|rewrite len_sub; cbn; lia]. by rewrite sub_sub by (cbn; lia). Qed.
Lemma get16_sub o off n d : 0 ≤ o → 0 ≤ off → o + 2 ≤ n → off + n ≤ len d →
  get16 o (sub off n d) = Ok (of_le (sub (off + o) 2 d)).
Proof. intros. rewrite get_le_ok; [|cbn; lia|rewrite len_sub; cbn; lia]. by rewrite sub_sub by (cbn; lia). Qed.
Lemma get32_sub o off n d : 0 ≤ o → 0 ≤ off → o + 4 ≤ n → off + n ≤ len d →
  get32 o (sub off n d) = Ok (of_le (sub (off + o) 4 d)).
Proof. intros. rewrite get_le_ok; [|cbn; lia|rewrite len_sub; cbn; lia]. by rewrite sub_sub by (cbn; lia). Qed.

Lemma super_size : 0 ≤ sizeof Ext4.Ext4Superblock ≤ 1024.
Proof. split; by vm_compute. Qed.

Section choice.
Context {W : Type} `{!BlockDevice W, !Allocator W, !StoreLaws W}.
Implicit Types s : store.

Lemma runs_first_sector s : sectors_ok 0 1 (disk s) → runs (read_sectors (W := W) 0 1) s (sub 0 512 (disk s)) s.
Proof. intros H. apply (runs_read s 0 1 H). Qed.

(** An entry of the table, read from the sector. *)
Lemma read_partition d i : 512 ≤ len d → 0 ≤ i < 4 →
  get8 (446 + 16 * i + 4) (sub 0 512 d) = Ok (partition d i).1 ∧
  get32 (446 + 16 * i + 8) (sub 0 512 d) = Ok (partition d i).2.
Proof. intros. split; [apply get8_sub|apply get32_sub]; lia. Qed.

Lemma ext4_scan n : ∀ i s, 512 ≤ len (disk s) → 0 ≤ i → i + Z.of_nat n ≤ 4 →
  Forall (λ p, p.1 = 0x83 → sectors_ok (p.2 + 2) 2 (disk s)) (partition (disk s) <$> seqZ i (Z.of_nat n)) →
  runs (W := W) (Ext4.scan_partitions n i (sub 0 512 (disk s))) s
    (first_lba (is_ext4 (disk s)) (partition (disk s) <$> seqZ i (Z.of_nat n))) s.
Proof.
  induction n as [|n IH]; intros i s Hd Hi Hn Hp; [apply runs_ret|].
  rewrite Nat2Z.inj_succ, seqZ_cons in Hp |- * by lia. rewrite Z.pred_succ in Hp |- *.
  rewrite fmap_cons in Hp |- *. apply Forall_cons in Hp as [Hp Hps]. cbn [Ext4.scan_partitions].
  destruct (read_partition (disk s) i Hd) as [E1 E2]; [lia|].
  eapply runs_lift; [exact E1|]. eapply runs_lift; [exact E2|].
  unfold first_lba. cbn [List.find]. unfold is_ext4 at 1.
  specialize (IH (Z.succ i) s Hd ltac:(lia) ltac:(lia) Hps). rewrite <- Z.add_1_r in IH.
  destruct (Z.eqb_spec (partition (disk s) i).1 0x83) as [E|]; cbn [andb]; [|exact IH].
  specialize (Hp E). pose proof Hp as (Hl & _ & Hb & Hlen). pose proof super_size as Hsz. unfold SECTOR in *.
  rewrite wrap_small by lia. eapply runs_bind; [by apply runs_read|].
  eapply runs_lift; [apply get_member_ok; [done|unfold SECTOR; rewrite len_sub; lia]|].
  unfold SECTOR; rewrite sub_sub, Z.add_0_r by lia.
  fold (super_at (disk s) (partition (disk s) i).2).
  destruct (_ =? Ext4.EXT4_SUPER_MAGIC); [apply runs_ret|exact IH].
Qed.

Lemma runs_find_ext4 s : table_ok (disk s) →
  runs (W := W) Ext4.find_ext4_partition s (first_lba (is_ext4 (disk s)) (partitions (disk s))) s.
Proof.
  intros [H0 Hp]. eapply runs_bind; [by apply runs_first_sector|].
  apply (ext4_scan 4 0); [unfold SECTOR in *; destruct H0; unfold SECTOR in *; lia|lia|done|done].
Qed.

Lemma fat_scan n : ∀ i d, 512 ≤ len d → 0 ≤ i → i + Z.of_nat n ≤ 4 →
  Fat.scan_partitions n i (sub 0 512 d) = Ok (first_lba is_fat32 (partition d <$> seqZ i (Z.of_nat n))).
Proof.
  induction n as [|n IH]; intros i d Hd Hi Hn; [done|].
  rewrite Nat2Z.inj_succ, seqZ_cons by lia. rewrite Z.pred_succ, fmap_cons. cbn [Fat.scan_partitions].
  destruct (read_partition d i Hd) as [E1 E2]; [lia|]. rewrite E1. run. rewrite E2.
  unfold first_lba. cbn [List.find]. unfold is_fat32 at 1.
  destruct ((_ =? 0x0B) || (_ =? 0x0C)); [done|]. rewrite Z.add_1_r. apply IH; lia.
Qed.

Lemma runs_find_fat32 s : sectors_ok 0 1 (disk s) →
  runs (W := W) Fat.find_fat32_partition s (first_lba is_fat32 (partitions (disk s))) s.
Proof.
  intros H0. eapply runs_bind; [by apply runs_first_sector|].
  apply runs_lift_ret, (fat_scan 4 0); [|lia|done]. destruct H0. unfold SECTOR in *. lia.
Qed.

Lemma runs_fat_init s lba : sectors_ok lba 1 (disk s) →
  runs (W := W) (Fat.init lba) s (Fat.mk_fat lba (bpb_at (disk s) lba)) s.
Proof.
  intros H. eapply runs_bind; [by apply runs_read|]. destruct H as (H1 & _ & _ & H2). unfold SECTOR in *.
  eapply runs_lift; [|apply runs_ret]. unfold Fat.load_bpb.
  rewrite !get8_sub, get16_sub, !get32_sub by lia. by run.
Qed.

(** The object of EXT4: the superblock, and where the partition starts. *)
Lemma runs_ext4_init f s lba : sectors_ok (lba + 2) 2 (disk s) → 0 ≤ lba →
  let b := super_at (disk s) lba in
  member Ext4.Ext4Superblock "s_magic" b = Ext4.EXT4_SUPER_MAGIC → super_ok b →
  ∃ f', runs (W := W) (Ext4.init f lba) s f' s ∧ Ext4.partition_lba f' = lba ∧ Ext4.sb f' = b ∧
    Ext4.block_size f' = 1024 * 2 ^ member Ext4.Ext4Superblock "s_log_block_size" b.
Proof.
  intros H H0 b Hm [Hl Hg]. pose proof H as (_ & _ & Hb & Hlen). unfold SECTOR in *.
  assert (Hs : get_bytes 0 (sizeof Ext4.Ext4Superblock) (sub (512 * (lba + 2)) (512 * 2) (disk s)) = Ok b).
  { pose proof super_size. rewrite get_bytes_ok; [|lia|done|rewrite len_sub; lia].
    rewrite sub_sub by lia. by rewrite Z.add_0_r. }
  assert (Hsh : Ext4.shl_1024 (member Ext4.Ext4Superblock "s_log_block_size" b) =
    Ok (1024 * 2 ^ member Ext4.Ext4Superblock "s_log_block_size" b)).
  { unfold Ext4.shl_1024. rewrite (proj2 (Z.ltb_lt _ _)), Z.shiftl_mul_pow2 by lia.
    f_equal. apply wrap_small. pose proof (Z.pow_le_mono_r 2 (member Ext4.Ext4Superblock "s_log_block_size" b) 21). lia. }
  eexists. split.
  { unfold Ext4.init. rewrite wrap_small by lia. eapply runs_bind; [by apply runs_read|].
    eapply runs_lift; [exact Hs|]. rewrite (proj2 (Z.eqb_eq _ _) Hm). cbn [negb].
    eapply runs_lift; [exact Hsh|]. cbv zeta. eapply runs_lift; [by apply udiv_ok|]. apply runs_ret. }
  done.
Qed.
End choice.

(** ** The choice of the root *)

Lemma first_ext4 d ps : first_lba (is_ext4 d) ps ≠ 0 →
  ∃ p, p ∈ ps ∧ p.2 = first_lba (is_ext4 d) ps ∧ p.1 = 0x83 ∧
    member Ext4.Ext4Superblock "s_magic" (super_at d p.2) = Ext4.EXT4_SUPER_MAGIC.
Proof.
  unfold first_lba. destruct (List.find (is_ext4 d) ps) as [p|] eqn:E; [|done]. intros _.
  apply List.find_some in E as [Hp [H1 H2]%andb_prop]. exists p. split_and!; [by apply list_elem_of_In|done| |];
    by apply Z.eqb_eq.
Qed.

Lemma partition_nonneg d p : Forall byte d → p ∈ partitions d → 0 ≤ p.2.
Proof.
  intros Hb [i [-> _]]%list_elem_of_fmap. cbn [snd partition].
  apply of_le_range. by apply Forall_sub.
Qed.

(** C13. The root of the file system is the first partition of type 0x83 with the
    magic number of EXT4 in its superblock, with the size of block that the
    superblock gives; without one it is the first FAT32 partition, with the
    parameters of its boot sector; without either the kernel panics.  The disk
    and the heap are as before. *)
Theorem root_selected {W} `{!BlockDevice W, !Allocator W, !StoreLaws W} ext4_inst s :
  table_ok (disk s) → Forall byte (disk s) →
  let d := disk s in
  let e := first_lba (is_ext4 d) (partitions d) in
  let v := first_lba is_fat32 (partitions d) in
  (e ≠ 0 → super_ok (super_at d e) →
     ∃ f, runs (W := W) (find_root ext4_inst) s (RootExt4 f) s ∧ Ext4.partition_lba f = e ∧
       Ext4.sb f = super_at d e ∧
       Ext4.block_size f = 1024 * 2 ^ member Ext4.Ext4Superblock "s_log_block_size" (super_at d e)) ∧
  (e = 0 → v ≠ 0 → sectors_ok v 1 d →
     runs (W := W) (find_root ext4_inst) s (RootFat (Fat.mk_fat v (bpb_at d v))) s) ∧
  (e = 0 → v = 0 → ∀ w : W, holds w s → find_root ext4_inst w = Panic K_ERR_GENERAL_PROTECTION).
Proof.
  intros Ht Hb d e v. pose proof (runs_find_ext4 (W := W) s Ht) as He. fold d e in He.
  pose proof (runs_find_fat32 (W := W) s (proj1 Ht)) as Hv. fold d v in Hv. split_and!.
  - intros He0 Hs. destruct (first_ext4 d (partitions d) He0) as (p & Hp & Ep & Ety & Em). fold e in Ep.
    destruct Ht as [_ Ht]. rewrite Forall_forall in Ht. specialize (Ht p Hp Ety).
    pose proof (partition_nonneg d p Hb Hp). rewrite Ep in *.
    destruct (runs_ext4_init (W := W) ext4_inst s e) as (f & Hf & H1 & H2 & H3); [done..|].
    exists f. split_and!; [|done..]. eapply runs_bind; [exact He|]. rewrite (proj2 (Z.eqb_neq _ _) He0). cbn [negb].
    eapply runs_bind; [exact Hf|]. apply runs_ret.
  - intros He0 Hv0 Hsec. eapply runs_bind; [exact He|]. rewrite He0. cbn [negb Z.eqb].
    eapply runs_bind; [exact Hv|]. rewrite (proj2 (Z.eqb_neq _ _) Hv0).
    eapply runs_bind; [by apply runs_fat_init|]. apply runs_ret.
  - intros He0 Hv0. eapply runs_then; [exact He|]. intros w1 Hw1. rewrite He0. cbn [negb Z.eqb].
    revert w1 Hw1. eapply runs_then; [exact Hv|]. intros w2 Hw2. by rewrite Hv0.
Qed.

Import Pure.

(** A disk with a Linux partition without EXT4, an EXT4 partition at sector 4 and a
    FAT32 one at sector 1. *)
Definition part_entry (i type lba : Z) (d : list Z) : list Z :=
  splice (446 + 16 * i + 8) (le 4 lba) (splice (446 + 16 * i + 4) [type] d).
Definition two_roots : list Z :=
  let d := replicate (Z.to_nat 8192) 0 in
  let d := part_entry 0 0x83 1 (part_entry 1 0x83 4 (part_entry 2 0x0C 1 d)) in
  poke Ext4.Ext4Superblock (512 * 6) [("s_magic", Ext4.EXT4_SUPER_MAGIC); ("s_log_block_size", 2);
    ("s_blocks_per_group", 64)] d.

Definition one_root : list Z := part_entry 1 0 0 two_roots.

Lemma two_roots_ok : bool_decide (len two_roots = 8192) && bool_decide (partitions two_roots = [(0x83, 1); (0x83, 4); (0x0C, 1); (0, 0)]) &&
  forallb (λ b, (0 <=? b) && (b <? 256)) two_roots && (first_lba (is_ext4 two_roots) (partitions two_roots) =? 4) &&
  (member Ext4.Ext4Superblock "s_log_block_size" (super_at two_roots 4) =? 2) &&
  (member Ext4.Ext4Superblock "s_blocks_per_group" (super_at two_roots 4) =? 64) = true.
Proof. vm_compute. reflexivity. Qed.

Lemma one_root_ok : bool_decide (len one_root = 8192) && bool_decide (partitions one_root = [(0x83, 1); (0, 0); (0x0C, 1); (0, 0)]) &&
  forallb (λ b, (0 <=? b) && (b <? 256)) one_root && (first_lba (is_ext4 one_root) (partitions one_root) =? 0) &&
  (first_lba is_fat32 (partitions one_root) =? 1) = true.
Proof. vm_compute. reflexivity. Qed.

#[local] Opaque two_roots one_root.

Lemma table_ok_at d ps : len d = 8192 → partitions d = ps → Forall (λ p, p.2 ≤ 4 ∧ 0 ≤ p.2) ps → table_ok d.
Proof.
  intros Hl Hp Hps. unfold table_ok, sectors_ok, SECTOR. rewrite Hl, Hp. split; [lia|].
  eapply Forall_impl; [exact Hps|]. cbn beta. intros p [? ?] _. lia.
Qed.

Lemma root_selected_witness :
  (∃ f, runs (W := store) (find_root (Ext4.mk_ext4 [] (Ext4.JBD2_init 0 0) 0 0 0 0 0 0 0)) (mk_store two_roots ∅ 4096)
     (RootExt4 f) (mk_store two_roots ∅ 4096) ∧ Ext4.partition_lba f = 4 ∧ Ext4.block_size f = 4096) ∧
  (∃ f, runs (W := store) (find_root (Ext4.mk_ext4 [] (Ext4.JBD2_init 0 0) 0 0 0 0 0 0 0)) (mk_store one_root ∅ 4096)
     (RootFat f) (mk_store one_root ∅ 4096) ∧ Fat.partition_lba f = 1).
Proof.
  pose proof two_roots_ok as H. apply andb_prop in H as [[[[[H1 H2]%andb_prop H3]%andb_prop H4]%andb_prop H5]%andb_prop H6].
  apply bool_decide_eq_true in H1, H2. apply bytes_check in H3. apply Z.eqb_eq in H4, H5, H6.
  pose proof one_root_ok as G. apply andb_prop in G as [[[[G1 G2]%andb_prop G3]%andb_prop G4]%andb_prop G5].
  apply bool_decide_eq_true in G1, G2. apply bytes_check in G3. apply Z.eqb_eq in G4, G5. split.
  - destruct (root_selected (W := store) (Ext4.mk_ext4 [] (Ext4.JBD2_init 0 0) 0 0 0 0 0 0 0) (mk_store two_roots ∅ 4096)) as (H & _).
    + apply (table_ok_at _ _ H1 H2). by repeat constructor.
    + exact H3.
    + cbn [disk] in H. rewrite H4 in H. destruct H as (f & Hf & Hp & _ & Hs).
      * lia.
      * unfold super_ok. rewrite H5, H6. lia.
      * exists f. rewrite H5 in Hs. split; [exact Hf|]. split; [exact Hp|exact Hs].
  - destruct (root_selected (W := store) (Ext4.mk_ext4 [] (Ext4.JBD2_init 0 0) 0 0 0 0 0 0 0) (mk_store one_root ∅ 4096)) as (_ & H & _).
    + apply (table_ok_at _ _ G1 G2). by repeat constructor.
    + exact G3.
    + cbn [disk] in H. rewrite G4, G5 in H. eexists. split; [apply H|reflexivity].
      * reflexivity.
      * lia.
      * unfold sectors_ok, SECTOR. rewrite G1. lia.
Defined.

(** ** The nodes *)

Section mount.
Context {D : Type} `{!BlockDevice D, !Allocator D, !StoreLaws D}.
Import LibcString Vfs VfsNode RootTree.
Implicit Types w : world D.

Definition fat_root_node (f : Fat.FAT32Manager) : VFSNode :=
  node [SLASH] VFS_DIRECTORY 0 (FAT32_Directory (Fat.root_cluster (Fat.bpb f))).

(** With memory for the objects the root becomes an overlay over the root directory
    of the volume with the RAM disk as its only mount, so a name other than
    [initrd] is looked up in the volume. *)
Theorem fat_root_mounted w s f addr fs total :
  heap_ok w s → 1264 ≤ quota s → addr ≠ 0 →
  Ramfs.KeonFS_MountNode addr (memory w) = Ok (fs, total) →
  ∃ w' q, mount_fat_root f addr w = Ok w' ∧ initrd_at fs w' ∧ fat w' = f ∧ cwd w' = cwd w ∧
    (∃ b p, nodes w' !! root w' = Some b ∧ kind b = MountOverlayNode q [(INITRD, p)]) ∧
    nodes w' !! q = Some (fat_root_node f) ∧
    ∀ dp nm, str_diff INITRD nm ≠ 0 →
      v_finddir (S dp) (root w') nm w' = FAT32_Directory_finddir q (Fat.root_cluster (Fat.bpb f)) nm w'.
Proof.
  intros Hh Hq Ha Hm. unfold mount_fat_root. fold (fat_root_node f). cbv zeta.
  assert (Hh0 : heap_ok (set_fat f w) s) by (destruct Hh; by constructor).
  destruct (new_node_spec _ s (fat_root_node f) Hh0) as (q & w1 & -> & Hq0 & Hnq & En1 & X1 & Hh1); [cbn; lia|]. run.
  destruct (new_node_spec w1 _ (new_MountOverlayNode q (fat_root_node f)) Hh1) as (r & w2 & -> & Hr & Hnr & En2 & X2 & Hh2);
    [cbn; lia|]. run.
  assert (Hqr : q ≠ r) by (intros ->; rewrite En1, lookup_insert_eq in Hnr; done).
  assert (Hh3 : heap_ok (set_root r w2) (add_buffer r (add_buffer q s))) by (destruct Hh2; by constructor).
  destruct (mount_initrd_spec (set_root r w2) _ (new_MountOverlayNode q (fat_root_node f)) q addr fs total Hh3)
    as (w' & E & Hat & Hmem & Hroot & Hcwd & Hfat & (b & p & Hb & Ek) & Hkeep).
  - cbn. lia.
  - done.
  - done.
  - cbn. by rewrite En2, lookup_insert_eq.
  - done.
  - cbn. rewrite (ex_memory _ _ X2), (ex_memory _ _ X1). exact Hm.
  - cbn [root set_root cwd fat] in *. exists w', q. rewrite Hroot.
    assert (Hqn : nodes w' !! q = Some (fat_root_node f)).
    { apply Hkeep; [done|]. cbn. by rewrite En2, lookup_insert_ne, En1, lookup_insert_eq. }
    split_and!; [exact E|exact Hat| | |by exists b, p|exact Hqn|].
    + by rewrite Hfat, (ex_fat _ _ X2), (ex_fat _ _ X1).
    + by rewrite Hcwd, (ex_cwd _ _ X2), (ex_cwd _ _ X1).
    + intros dp nm Hnm. cbn [v_finddir]. unfold deref at 1. rewrite Hb. cbn [of_option mbind outcome_bind]. rewrite Ek.
      unfold MountOverlayNode_finddir. cbn [find_mount]. rewrite (proj2 (Z.eqb_neq _ 0)) by done.
      destruct dp; cbn [v_finddir]; unfold deref at 1; by rewrite Hqn.
Qed.
End mount.

Lemma fat_root_mounted_witness :
  ∃ w' q, mount_fat_root Fat.demo_fat 0x1000
      (VfsNode.mk_world ∅ 0 0 (LibcString.mem_of 0x1000 (Ramfs.pack Ramfs.demo_files)) Fat.demo_fat (mk_store Fat.demo_disk ∅ 4096)) = Ok w' ∧
    VfsNode.nodes w' !! q = Some (fat_root_node Fat.demo_fat).
Proof.
  assert (Hm : ∃ fs total, Ramfs.KeonFS_MountNode 0x1000 (LibcString.mem_of 0x1000 (Ramfs.pack Ramfs.demo_files)) = Ok (fs, total)).
  { vm_compute. eexists _, _. reflexivity. }
  destruct Hm as (fs & total & Hm).
  destruct (fat_root_mounted (D := store) (VfsNode.mk_world ∅ 0 0 (LibcString.mem_of 0x1000 (Ramfs.pack Ramfs.demo_files)) Fat.demo_fat (mk_store Fat.demo_disk ∅ 4096))
    (mk_store Fat.demo_disk ∅ 4096) Fat.demo_fat 0x1000 fs total) as (w' & q & E & _ & _ & _ & _ & Hq & _).
  - constructor; [reflexivity|]. cbn. intros p [n Hp]. by rewrite lookup_empty in Hp.
  - cbn. lia.
  - done.
  - exact Hm.
  - exists w', q. split; [exact E|exact Hq].
Defined.
End Start.
