(* ===== verification/Ext4Extent.v ===== *)
(** * EXT4: the extent tree (fs/ext4_vfs.cpp: Ext4Manager::extent_get_block)

    The blocks of a file are found through a tree whose root is in the inode.  A
    node is a header and entries of 12 bytes; the entries of a leaf are extents
    (runs of blocks), those of an inner node lead to a block with a node for the
    logical blocks from their key on.  A node is given by a buffer and the place
    of the header in it, as the code's pointer does.

    [extents_of] checks a tree and lists its extents; [lookup_extents] is what the
    code's descent finds.  The descent gets the depth of the root as fuel: in a
    tree the depth drops at every level.  The code has no bound of its own, and
    goes on forever in a node that leads to itself ([descent_of_cycle]). *)

From Stdlib Require Import String.
From S2P Require Import Prelude Bytes Block Layout Ext4.

Module Ext4Extent.
Import Bytes Block Layout Ext4.
Local Open Scope string_scope.
Local Open Scope list_scope.
Local Open Scope Z_scope.

(** Where the root is in an inode, and entry [i] of the node at [p]. *)
Definition i_block : Z := offset_of Ext4Inode "i_block".
Definition entry_at (p i : Z) : Z := p + sizeof Ext4ExtentHeader + 12 * i.

(** [((uint64_t)hi << 32) | lo] of an extent and of an index entry. *)
Definition ext4_get_extent_start (b : list Z) (e : Z) : outcome Z :=
  hi ← get_member Ext4Extent e "ee_start_hi" b;
  lo ← get_member Ext4Extent e "ee_start_lo" b;
  Ok (hi_lo 32 hi lo).
Definition index_leaf (b : list Z) (e : Z) : outcome Z :=
  hi ← get_member Ext4ExtentIdx e "ei_leaf_hi" b;
  lo ← get_member Ext4ExtentIdx e "ei_leaf_lo" b;
  Ok (hi_lo 32 hi lo).

(** The entries of a leaf from [i] on. *)
Fixpoint search_leaf (n : nat) (i : Z) (b : list Z) (p logical_block : Z) : outcome (option Z) :=
  match n with
  | O => Ok None
  | S n' =>
      let e := entry_at p i in
      ee_block ← get_member Ext4Extent e "ee_block" b;
      ee_len ← get_member Ext4Extent e "ee_len" b;
      if (ee_block <=? logical_block) && (logical_block <? u32 (ee_block + ee_len)) then
        physical_start ← ext4_get_extent_start b e;
        Ok (Some (u64 (physical_start + (logical_block - ee_block))))
      else search_leaf n' (i + 1) b p logical_block
  end.

(** The entries of an inner node from [i] on: the block of the next node. *)
Fixpoint search_index (n : nat) (i : Z) (b : list Z) (p entries logical_block : Z) : outcome (option Z) :=
  match n with
  | O => Ok None
  | S n' =>
      let e := entry_at p i in
      next_start ← (if i + 1 <? entries then get_member Ext4ExtentIdx (entry_at p (i + 1)) "ei_block" b
                    else Ok 0xFFFFFFFF);
      ei_block ← get_member Ext4ExtentIdx e "ei_block" b;
      if (ei_block <=? logical_block) && (logical_block <? next_start) then
        leaf ← index_leaf b e; Ok (Some leaf)
      else search_index n' (i + 1) b p entries logical_block
  end.

Section descent.
Context {W : Type} `{!BlockDevice W, !Allocator W}.
Context (f : Ext4Manager).

(** [if (current_block_data) kfree(current_block_data)] *)
Definition release (current_block_data : Z) : kernel W unit :=
  if current_block_data =? 0 then mret () else kfree current_block_data.

Fixpoint extent_loop (n : nat) (current_block_data : Z) (b : list Z) (p depth logical_block : Z) : kernel W Z :=
  entries ← lift (get_member Ext4ExtentHeader p "eh_entries" b);
  if depth =? 0 then
    r ← lift (search_leaf (Z.to_nat entries) 0 b p logical_block);
    release current_block_data;;
    mret (default 0 r)
  else
    r ← lift (search_index (Z.to_nat entries) 0 b p entries logical_block);
    match r with
    | None => release current_block_data;; mret 0
    | Some next_block_phys =>
        match n with
        | O => lift OutOfFuel
        | S n' =>
            release current_block_data;;
            buffer ← kmalloc (block_size f);
            x ← read_into f buffer next_block_phys;
            magic ← lift (get_member Ext4ExtentHeader 0 "eh_magic" x);
            if negb (magic =? EXT4_EXTENT_MAGIC) then kfree buffer;; mret 0 else
            depth' ← lift (get_member Ext4ExtentHeader 0 "eh_depth" x);
            extent_loop n' buffer x 0 depth' logical_block
        end
    end.

Definition extent_get_block (inode : list Z) (logical_block : Z) : kernel W Z :=
  if Z.land (member Ext4Inode "i_flags" inode) EXT4_EXTENTS_FL =? 0 then mret 0 else
  magic ← lift (get_member Ext4ExtentHeader i_block "eh_magic" inode);
  if negb (magic =? EXT4_EXTENT_MAGIC) then mret 0 else
  depth ← lift (get_member Ext4ExtentHeader i_block "eh_depth" inode);
  extent_loop (Z.to_nat depth) 0 inode i_block depth logical_block.
End descent.

(** ** The extents of a tree *)

Record extent : Set := mk_extent { e_block : Z; e_len : Z; e_start : Z }.

#[global] Instance extent_eq_dec : EqDecision extent.
Proof. solve_decision. Defined.

(** The members of the node at [p] of a buffer. *)
Definition header (x : string) (b : list Z) (p : Z) : Z := member Ext4ExtentHeader x (sub p 12 b).
Definition read_extent (b : list Z) (p i : Z) : extent :=
  let e := sub (entry_at p i) 12 b in
  mk_extent (member Ext4Extent "ee_block" e) (member Ext4Extent "ee_len" e)
    (hi_lo 32 (member Ext4Extent "ee_start_hi" e) (member Ext4Extent "ee_start_lo" e)).
Definition index_key (b : list Z) (p i : Z) : Z := member Ext4ExtentIdx "ei_block" (sub (entry_at p i) 12 b).
Definition index_block (b : list Z) (p i : Z) : Z :=
  let e := sub (entry_at p i) 12 b in
  hi_lo 32 (member Ext4ExtentIdx "ei_leaf_hi" e) (member Ext4ExtentIdx "ei_leaf_lo" e).
Definition index_next (b : list Z) (p i : Z) : Z :=
  if i + 1 <? header "eh_entries" b p then index_key b p (i + 1) else 0xFFFFFFFF.

Definition e_end (e : extent) : Z := e_block e + e_len e.
Definition leaf_extents (b : list Z) (p : Z) : list extent :=
  map (read_extent b p) (seqZ 0 (header "eh_entries" b p)).

(** What a list of extents says of a logical block: 0 where there is none. *)
Fixpoint lookup_extents (es : list extent) (lb : Z) : Z :=
  match es with
  | [] => 0
  | e :: es' => if (e_block e <=? lb) && (lb <? e_end e) then e_start e + (lb - e_block e) else lookup_extents es' lb
  end.

Definition node_ok (b : list Z) (p depth : Z) : bool :=
  (0 <=? p) && (p + 12 + 12 * header "eh_entries" b p <=? len b)
  && (header "eh_magic" b p =? EXT4_EXTENT_MAGIC) && (header "eh_depth" b p =? depth).
Definition on_diskb (f : Ext4Manager) (d : list Z) (b : Z) : bool := (0 <=? b) && (block_addr f (b + 1) <=? len d).

(** The extents below the node at [p] of [b], with [n] levels of inner nodes, if the
    tree is one: the keys ascend and the extents of a child are in its part. *)
Fixpoint extents_of (f : Ext4Manager) (d : list Z) (n : nat) (b : list Z) (p : Z) : option (list extent) :=
  if node_ok b p (Z.of_nat n) then
    match n with
    | O => let es := leaf_extents b p in
           if forallb (λ e, e_end e <? 2 ^ 32) es then Some es else None
    | S n' =>
        children ← mapM (λ i,
          es ← extents_of f d n' (block f d (index_block b p i)) 0;
          if on_diskb f d (index_block b p i) && (index_key b p i <=? index_next b p i)
             && forallb (λ e, (index_key b p i <=? e_block e) && (e_end e <=? index_next b p i)) es
          then Some es else None) (seqZ 0 (header "eh_entries" b p));
        Some (concat children)
    end
  else None.

(** The extents of a file. *)
Definition inode_extents (f : Ext4Manager) (d : list Z) (inode : list Z) : option (list extent) :=
  if Z.land (member Ext4Inode "i_flags" inode) EXT4_EXTENTS_FL =? 0 then None
  else extents_of f d (Z.to_nat (header "eh_depth" inode i_block)) inode i_block.

Section nodes.
Implicit Types b : list Z.

Lemma extent_range b p i : Forall byte b →
  0 ≤ e_block (read_extent b p i) < 2 ^ 32 ∧ 0 ≤ e_len (read_extent b p i) < 2 ^ 16 ∧
  0 ≤ e_start (read_extent b p i) < 2 ^ 48.
Proof.
  intros Hb. pose proof (Forall_sub _ (entry_at p i) 12 _ Hb) as He. cbn [read_extent e_block e_len e_start].
  split; [apply (member_range Ext4Extent "ee_block" _ He)|].
  split; [apply (member_range Ext4Extent "ee_len" _ He)|].
  apply (hi_lo_range 32 16); [done|done| |].
  - apply (member_range Ext4Extent "ee_start_hi" _ He).
  - apply (member_range Ext4Extent "ee_start_lo" _ He).
Qed.

Lemma index_range b p i : Forall byte b → 0 ≤ index_key b p i < 2 ^ 32.
Proof. intros Hb. apply (member_range Ext4ExtentIdx "ei_block"). by apply Forall_sub. Qed.

Lemma node_header_range x b p : Forall byte b → 0 ≤ header x b p < 2 ^ (8 * Z.of_nat (width_of Ext4ExtentHeader x)).
Proof. intros Hb. apply member_range. by apply Forall_sub. Qed.

Lemma get_header x b p : 0 ≤ p → p + 12 ≤ len b → get_member Ext4ExtentHeader p x b = Ok (header x b p).
Proof. intros. by rewrite get_member_ok. Qed.

(** The code's reads of entry [i] of a node that lies inside the buffer. *)
Section entries.
Context (b : list Z) (p i : Z).
Context (Hp : 0 ≤ p) (Hi : 0 ≤ i) (Hb : entry_at p i + 12 ≤ len b).

Lemma entry_at_nonneg : 0 ≤ entry_at p i.
Proof. unfold entry_at. change (sizeof Ext4ExtentHeader) with 12. lia. Qed.

Lemma get_extent x : get_member Ext4Extent (entry_at p i) x b = Ok (member Ext4Extent x (sub (entry_at p i) 12 b)).
Proof. pose proof entry_at_nonneg. by rewrite get_member_ok. Qed.
Lemma get_index x : get_member Ext4ExtentIdx (entry_at p i) x b = Ok (member Ext4ExtentIdx x (sub (entry_at p i) 12 b)).
Proof. pose proof entry_at_nonneg. by rewrite get_member_ok. Qed.
Lemma get_extent_start : ext4_get_extent_start b (entry_at p i) = Ok (e_start (read_extent b p i)).
Proof. unfold ext4_get_extent_start. rewrite !get_extent. by run. Qed.
Lemma get_index_leaf : index_leaf b (entry_at p i) = Ok (index_block b p i).
Proof. unfold index_leaf. rewrite !get_index. by run. Qed.
End entries.

(** The search of a leaf finds the first extent with the block. *)
Lemma search_leaf_spec b p lb n : ∀ i, 0 ≤ p → 0 ≤ i → Forall byte b → 0 ≤ lb →
  entry_at p (i + Z.of_nat n) ≤ len b →
  Forall (λ e, e_end e < 2 ^ 32) (map (read_extent b p) (seqZ i (Z.of_nat n))) →
  ∃ r, search_leaf n i b p lb = Ok r ∧
    default 0 r = lookup_extents (map (read_extent b p) (seqZ i (Z.of_nat n))) lb.
Proof.
  induction n as [|n IH]; intros i Hp Hi Hb Hlb Hl Hf; [by exists None|].
  rewrite seqZ_cons in * by lia. replace (Z.succ i) with (i + 1) in * by lia.
  replace (Z.pred (Z.of_nat (S n))) with (Z.of_nat n) in * by lia.
  cbn [map lookup_extents] in *. apply Forall_cons in Hf as [He Hf]. unfold entry_at in Hl.
  change (sizeof Ext4ExtentHeader) with 12 in Hl.
  assert (Hin : entry_at p i + 12 ≤ len b) by (unfold entry_at; change (sizeof Ext4ExtentHeader) with 12; lia).
  destruct (extent_range b p i Hb) as (R1 & R2 & R3).
  cbn [search_leaf]. rewrite !get_extent by done. run. rewrite get_extent_start by done. run.
  change (member Ext4Extent "ee_block" _) with (e_block (read_extent b p i)).
  change (member Ext4Extent "ee_len" _) with (e_len (read_extent b p i)).
  rewrite (wrap_small 32) by (unfold e_end in *; lia). fold (e_end (read_extent b p i)).
  destruct (_ && _) eqn:E.
  - eexists. split; [done|]. cbn [default]. apply andb_true_iff in E as [E1%Z.leb_le E2%Z.ltb_lt].
    unfold e_end in *. apply wrap_small. lia.
  - apply IH; try done; [lia|]. unfold entry_at. change (sizeof Ext4ExtentHeader) with 12. lia.
Qed.

(** The search of an inner node finds the first part with the block. *)
Lemma search_index_spec b p lb n : ∀ i, 0 ≤ p → 0 ≤ i → Forall byte b →
  entry_at p (i + Z.of_nat n) ≤ len b → i + Z.of_nat n = header "eh_entries" b p →
  ∃ r, search_index n i b p (header "eh_entries" b p) lb = Ok r ∧
    match r with
    | Some x => ∃ j, i ≤ j < i + Z.of_nat n ∧ x = index_block b p j ∧ index_key b p j ≤ lb < index_next b p j
    | None => ∀ j, i ≤ j < i + Z.of_nat n → ¬ (index_key b p j ≤ lb < index_next b p j)
    end.
Proof.
  induction n as [|n IH]; intros i Hp Hi Hb Hl He; [by exists None; split; [|lia]|].
  unfold entry_at in Hl. change (sizeof Ext4ExtentHeader) with 12 in Hl.
  assert (Hin : entry_at p i + 12 ≤ len b) by (unfold entry_at; change (sizeof Ext4ExtentHeader) with 12; lia).
  assert (En : (if i + 1 <? header "eh_entries" b p then get_member Ext4ExtentIdx (entry_at p (i + 1)) "ei_block" b
    else Ok 0xFFFFFFFF) = Ok (index_next b p i)).
  { unfold index_next. destruct (Z.ltb_spec (i + 1) (header "eh_entries" b p)); [|done].
    rewrite get_index; [done|done|lia|]. unfold entry_at. change (sizeof Ext4ExtentHeader) with 12. lia. }
  cbn [search_index]. rewrite En. run. rewrite get_index, get_index_leaf by done. run.
  fold (index_key b p i). destruct (_ && _) eqn:E.
  - eexists. split; [done|]. exists i. apply andb_true_iff in E as [E1%Z.leb_le E2%Z.ltb_lt]. split_and!; [lia|lia|done|lia|lia].
  - destruct (IH (i + 1)) as (r & Er & Hr); try done; [lia| |lia|].
    { unfold entry_at. change (sizeof Ext4ExtentHeader) with 12. lia. }
    exists r. split; [done|]. destruct r as [x|].
    + destruct Hr as (j & H1 & H2). exists j. split; [lia|done].
    + intros j Hj. destruct (decide (j = i)) as [->|]; [lia|apply Hr; lia].
Qed.

Lemma lookup_extents_app es es' lb : Forall (λ e, ¬ (e_block e ≤ lb < e_end e)) es →
  lookup_extents (es ++ es') lb = lookup_extents es' lb.
Proof.
  induction 1 as [|e es He _ IH]; [done|]. cbn [app lookup_extents]. destruct (_ && _) eqn:E; [lia|done].
Qed.
Lemma lookup_extents_none es lb : Forall (λ e, ¬ (e_block e ≤ lb < e_end e)) es → lookup_extents es lb = 0.
Proof. intros H. rewrite <- (app_nil_r es). by rewrite lookup_extents_app. Qed.
Lemma lookup_extents_drop es es' lb : Forall (λ e, ¬ (e_block e ≤ lb < e_end e)) es' →
  lookup_extents (es ++ es') lb = lookup_extents es lb.
Proof.
  intros H. induction es as [|e es IH]; [by apply lookup_extents_none|]. cbn [app lookup_extents]. by rewrite IH.
Qed.
End nodes.

(** ** The parts of an inner node *)

Section parts.
Context (b : list Z) (p : Z).
Let k := header "eh_entries" b p.
Context (Hk : ∀ i, 0 ≤ i < k → index_key b p i ≤ index_next b p i).

Lemma next_below_key i j : 0 ≤ i < j → j < k → index_next b p i ≤ index_key b p j.
Proof using Hk.
  intros Hi Hj. replace j with (i + 1 + Z.of_nat (Z.to_nat (j - i - 1))) by lia.
  assert (Hn : i + 1 + Z.of_nat (Z.to_nat (j - i - 1)) < k) by lia. clear Hj.
  assert (Es : ∀ m, m + 1 < k → index_next b p m = index_key b p (m + 1)).
  { intros m Hm. unfold index_next. fold k. by rewrite (proj2 (Z.ltb_lt _ _) Hm). }
  revert Hn. induction (Z.to_nat (j - i - 1)) as [|n IH]; intros Hn.
  - rewrite Z.add_0_r in *. rewrite Es by done. lia.
  - assert (IH' := IH ltac:(lia)). pose proof (Hk (i + 1 + Z.of_nat n) ltac:(lia)) as Hm.
    rewrite Es in Hm by lia. replace (i + 1 + Z.of_nat (S n)) with (i + 1 + Z.of_nat n + 1) by lia. lia.
Qed.

(** The extents of the children, each in its part. *)
Definition in_part (i : Z) (es : list extent) : Prop :=
  Forall (λ e, index_key b p i ≤ e_block e ∧ e_end e ≤ index_next b p i) es.

Lemma outside_part i es lb : in_part i es → ¬ (index_key b p i ≤ lb < index_next b p i) →
  Forall (λ e, ¬ (e_block e ≤ lb < e_end e)) es.
Proof. intros H Hn. eapply Forall_impl; [exact H|]. intros e [H1 H2] H3. apply Hn. lia. Qed.

Lemma lookup_parts lb j es children : Forall2 in_part (seqZ 0 k) children → 0 ≤ j < k →
  children !! Z.to_nat j = Some es → index_key b p j ≤ lb < index_next b p j →
  lookup_extents (concat children) lb = lookup_extents es lb.
Proof using Hk.
  intros Hc Hj He Hlb. pose proof (take_drop_middle _ _ _ He) as Em. rewrite <- Em, concat_app. cbn [concat].
  assert (Hout : ∀ i es', children !! i = Some es' → i ≠ Z.to_nat j → Forall (λ e, ¬ (e_block e ≤ lb < e_end e)) es').
  { intros i es' Hi Hne. destruct (Forall2_lookup_r _ _ _ _ _ Hc Hi) as (x & Hx & Hp).
    apply lookup_seqZ in Hx as [-> Hx]. eapply outside_part; [exact Hp|]. intros Hin.
    destruct (decide (Z.of_nat i < j)).
    - pose proof (next_below_key (0 + Z.of_nat i) j ltac:(lia) ltac:(lia)). lia.
    - pose proof (next_below_key j (0 + Z.of_nat i) ltac:(lia) ltac:(lia)). lia. }
  rewrite lookup_extents_app.
  - apply lookup_extents_drop. apply Forall_concat, Forall_lookup. intros i es' Hi. rewrite lookup_drop in Hi.
    eapply Hout; [exact Hi|lia].
  - apply Forall_concat, Forall_lookup. intros i es' Hi. apply lookup_take_Some in Hi as [Hi Hlt].
    eapply Hout; [exact Hi|lia].
Qed.

Lemma lookup_no_part lb children : Forall2 in_part (seqZ 0 k) children →
  (∀ j, 0 ≤ j < k → ¬ (index_key b p j ≤ lb < index_next b p j)) → lookup_extents (concat children) lb = 0.
Proof.
  intros Hc Hn. apply lookup_extents_none, Forall_concat, Forall_lookup. intros i es Hi.
  destruct (Forall2_lookup_r _ _ _ _ _ Hc Hi) as (x & Hx & Hp). apply lookup_seqZ in Hx as [-> Hx].
  eapply outside_part; [exact Hp|]. apply Hn. lia.
Qed.
End parts.

(** ** The descent *)

Section lookup.
Context {W : Type} `{!BlockDevice W, !Allocator W, !StoreLaws W}.
Context (f : Ext4Manager).
Implicit Types s : store.

(** The store while the buffer [p] is held, if there is one. *)
Definition held (p : Z) s : store := if p =? 0 then s else add_buffer p s.

Lemma runs_release_last p s : p = 0 ∨ (p ∉ live s) → runs (release p) (held p s) () s.
Proof.
  intros Hp. unfold release, held. destruct (Z.eqb_spec p 0); [apply runs_ret|].
  apply runs_kfree_last. by destruct Hp.
Qed.

Lemma runs_release {A} p (k : unit → kernel W A) s a s' : p = 0 ∨ (p ∉ live s) →
  runs (k ()) s a s' → runs (release p ≫= k) (held p s) a s'.
Proof. intros Hp Hk. eapply runs_bind; [by apply runs_release_last|done]. Qed.

Lemma node_ok_inv b p depth : node_ok b p depth = true →
  0 ≤ p ∧ p + 12 + 12 * header "eh_entries" b p ≤ len b ∧ header "eh_magic" b p = EXT4_EXTENT_MAGIC ∧
  header "eh_depth" b p = depth.
Proof. unfold node_ok. rewrite !andb_true_iff, !Z.leb_le, !Z.eqb_eq. tauto. Qed.

Lemma extents_of_node d n b p es : extents_of f d n b p = Some es → node_ok b p (Z.of_nat n) = true.
Proof. destruct n; cbn [extents_of]; destruct (node_ok _ _ _); done. Qed.

(** What the check of an inner node gives. *)
Lemma extents_of_children d n b p es : extents_of f d (S n) b p = Some es →
  ∃ children, es = concat children ∧ Forall2 (in_part b p) (seqZ 0 (header "eh_entries" b p)) children ∧
    (∀ i, 0 ≤ i < header "eh_entries" b p → index_key b p i ≤ index_next b p i) ∧
    (∀ i, 0 ≤ i < header "eh_entries" b p → on_disk f d (index_block b p i) ∧
       ∃ c, children !! Z.to_nat i = Some c ∧ extents_of f d n (block f d (index_block b p i)) 0 = Some c).
Proof.
  cbn [extents_of]. destruct (node_ok _ _ _); [|done]. intros H.
  apply bind_Some in H as (children & Hm & [= <-]). apply mapM_Some in Hm.
  assert (Hall : ∀ i c, children !! i = Some c →
    extents_of f d n (block f d (index_block b p (Z.of_nat i))) 0 = Some c ∧
    on_disk f d (index_block b p (Z.of_nat i)) ∧
    index_key b p (Z.of_nat i) ≤ index_next b p (Z.of_nat i) ∧ in_part b p (Z.of_nat i) c).
  { intros i c Hi. destruct (Forall2_lookup_r _ _ _ _ _ Hm Hi) as (x & Hx & Hp).
    apply lookup_seqZ in Hx as [Ex Hx]. rewrite Z.add_0_l in Ex. subst x.
    cbn in Hp. apply bind_Some in Hp as (c' & Hc & Hp).
    destruct (_ && _ && _) eqn:E; [|done]. injection Hp as ->. apply andb_true_iff in E as [E E3].
    apply andb_true_iff in E as [E1 E2%Z.leb_le]. split; [done|]. split.
    { unfold on_diskb in E1. unfold on_disk. lia. }
    split; [done|]. apply Forall_forall. intros e He. rewrite forallb_forall in E3.
    specialize (E3 e (proj1 (list_elem_of_In _ _) He)). lia. }
  exists children. split; [done|]. pose proof (Forall2_length _ _ _ Hm) as El. rewrite length_seqZ in El.
  assert (Hex : ∀ i, 0 ≤ i < header "eh_entries" b p → ∃ c, children !! Z.to_nat i = Some c).
  { intros i Hi. apply lookup_lt_is_Some_2. lia. }
  split_and!.
  - apply Forall2_same_length_lookup. split; [by rewrite length_seqZ|]. intros i x c Hx Hc.
    apply lookup_seqZ in Hx as [-> _]. rewrite Z.add_0_l. by apply Hall.
  - intros i Hi. destruct (Hex i Hi) as [c Hc]. apply Hall in Hc. rewrite Z2Nat.id in Hc by lia. apply Hc.
  - intros i Hi. destruct (Hex i Hi) as [c Hc]. pose proof (Hall _ _ Hc) as Ha. rewrite Z2Nat.id in Ha by lia.
    split; [apply Ha|]. exists c. split; [done|apply Ha].
Qed.

Lemma runs_extent_loop lb n : ∀ cur b p s es, geometry_ok f (disk s) → block_size f ≤ quota s →
  0 ≤ lb → Forall byte b → cur = 0 ∨ (cur ∉ live s) → extents_of f (disk s) n b p = Some es →
  runs (extent_loop f n cur b p (Z.of_nat n) lb) (held cur s) (lookup_extents es lb) s.
Proof.
  induction n as [|n IH]; intros cur b p s es Hg Hq Hlb Hb Hcur He;
    destruct (node_ok_inv _ _ _ (extents_of_node _ _ _ _ _ He)) as (N1 & N2 & N3 & N4);
    pose proof (node_header_range "eh_entries" b p Hb) as Hk;
    (assert (El : entry_at p (0 + Z.of_nat (Z.to_nat (header "eh_entries" b p))) ≤ len b);
      [unfold entry_at; change (sizeof Ext4ExtentHeader) with 12; lia|]).
  - cbn [extents_of] in He. destruct (node_ok _ _ _); [|done]. destruct (forallb _ _) eqn:Ef in He; [|done].
    injection He as <-. cbn [extent_loop].
    eapply runs_lift; [apply get_header; lia|]. rewrite Z.eqb_refl.
    destruct (search_leaf_spec b p lb (Z.to_nat (header "eh_entries" b p)) 0) as (r & Er & Hr); try done.
    { rewrite Z2Nat.id by lia. fold (leaf_extents b p). apply Forall_forall. intros e He.
      rewrite forallb_forall in Ef. specialize (Ef e (proj1 (list_elem_of_In _ _) He)). lia. }
    eapply runs_lift; [exact Er|]. apply runs_release; [done|]. rewrite Hr, Z2Nat.id by lia. apply runs_ret.
  - destruct (extents_of_children _ _ _ _ _ He) as (children & -> & Hp & Hkn & Hc).
    cbn [extent_loop]. eapply runs_lift; [apply get_header; lia|].
    rewrite (proj2 (Z.eqb_neq _ _)) by lia.
    destruct (search_index_spec b p lb (Z.to_nat (header "eh_entries" b p)) 0) as (r & Er & Hr); try done; [lia|].
    eapply runs_lift; [exact Er|]. destruct r as [x|].
    2: { apply runs_release; [done|]. rewrite lookup_no_part with (b := b) (p := p); [apply runs_ret|done|].
         intros j Hj. apply Hr. lia. }
    destruct Hr as (j & Hj & -> & Hlbj). destruct (Hc j) as (Hd & c & Hcj & Hex); [lia|].
    rewrite (lookup_parts b p Hkn lb j c) by (done || lia).
    apply runs_release; [done|]. apply runs_buffer; [done..|]. intros q Hq0 Hql.
    destruct (node_ok_inv _ _ _ (extents_of_node _ _ _ _ _ Hex)) as (M1 & M2 & M3 & M4).
    pose proof (block_bytes f (disk s) (index_block b p j) Hg) as Hbb.
    pose proof (node_header_range "eh_entries" _ 0 Hbb) as Hk'.
    eapply runs_lift; [apply get_header; lia|]. rewrite M3. cbn [negb Z.eqb].
    rewrite Z.eqb_refl. cbn [negb].
    eapply runs_lift; [apply get_header; lia|]. rewrite M4.
    replace (add_buffer q s) with (held q s); [|unfold held; by rewrite (proj2 (Z.eqb_neq _ _))].
    apply IH; try done. by right.
Qed.

(** The block of a file's byte range is found, and nothing is kept. *)
Lemma runs_extent_get_block s inode es lb : geometry_ok f (disk s) → block_size f ≤ quota s →
  Forall byte inode → 0 ≤ lb → inode_extents f (disk s) inode = Some es →
  runs (extent_get_block f inode lb) s (lookup_extents es lb) s.
Proof.
  intros Hg Hq Hb Hlb He. unfold inode_extents in He. unfold extent_get_block.
  destruct (_ =? 0); [done|]. assert (H0 : 0 ≤ i_block) by done.
  set (n := Z.to_nat _) in *. pose proof (extents_of_node _ _ _ _ _ He) as Hn.
  destruct (node_ok_inv _ _ _ Hn) as (N1 & N2 & N3 & N4).
  pose proof (node_header_range "eh_entries" inode i_block Hb). pose proof (node_header_range "eh_depth" inode i_block Hb).
  eapply runs_lift; [apply get_header; lia|]. rewrite N3, Z.eqb_refl. cbn [negb].
  eapply runs_lift; [apply get_header; lia|]. rewrite N4, Nat2Z.id.
  change s with (held 0 s) at 1. apply runs_extent_loop; try done. by left.
Qed.
End lookup.

(** ** A node that leads to itself *)

Section cycle.
Context {W : Type} `{!BlockDevice W, !Allocator W, !StoreLaws W}.
Context (f : Ext4Manager).
Implicit Types s : store.

(** The block [x] is an inner node, and the part of the logical block [lb] leads to [x]. *)
Record leads_to_itself (d : list Z) (x lb : Z) : Prop := {
  li_disk : on_disk f d x;
  li_magic : header "eh_magic" (block f d x) 0 = EXT4_EXTENT_MAGIC;
  li_depth : header "eh_depth" (block f d x) 0 ≠ 0;
  li_entries : 12 + 12 * header "eh_entries" (block f d x) 0 ≤ block_size f;
  li_index : search_index (Z.to_nat (header "eh_entries" (block f d x) 0)) 0 (block f d x) 0
    (header "eh_entries" (block f d x) 0) lb = Ok (Some x)
}.

(** The descent in a block that leads to itself uses up any fuel: the code never
    returns. *)
Theorem descent_of_cycle s x lb n cur : geometry_ok f (disk s) → block_size f ≤ quota s →
  leads_to_itself (disk s) x lb → cur = 0 ∨ (cur ∉ live s) → ∀ w, holds w (held cur s) →
  extent_loop f n cur (block f (disk s) x) 0 (header "eh_depth" (block f (disk s) x) 0) lb w = OutOfFuel.
Proof.
  intros Hg Hq [Hx Hm Hd He Hi]. pose proof (block_size_bounds f _ Hg) as Hs.
  pose proof (len_block f _ x Hg Hx) as Hl. revert cur.
  induction n as [|n IH]; intros cur Hcur; cbn [extent_loop].
  all: eapply runs_then; [apply runs_lift_ret, get_header; lia|].
  all: rewrite (proj2 (Z.eqb_neq _ _)) by done; eapply runs_then; [apply runs_lift_ret, Hi|]; intros w Hw.
  - done.
  - revert w Hw. eapply runs_then; [by apply runs_release_last|].
    intros w Hw. destruct (kmalloc_law w s (block_size f) Hw) as (p & w1 & E & H0 & Hf & H1); [lia|].
    unfold mbind at 1, kernel_bind. rewrite E. run. clear E.
    revert w1 H1. eapply runs_then; [by apply runs_read_blocks_into|]. cbn [disk add_buffer].
    eapply runs_then; [apply runs_lift_ret, get_header; lia|]. rewrite Hm, Z.eqb_refl. cbn [negb].
    eapply runs_then; [apply runs_lift_ret, get_header; lia|].
    replace (add_buffer p s) with (held p s); [|unfold held; by rewrite (proj2 (Z.eqb_neq _ _))].
    apply IH. by right.
Qed.
End cycle.

(** ** The lookup *)

Definition covers (e : extent) (lb : Z) : Prop := e_block e ≤ lb < e_end e.

(** No block is in two extents. *)
Definition disjoint_extents (es : list extent) : Prop :=
  ∀ e e' lb, e ∈ es → e' ∈ es → covers e lb → covers e' lb → e = e'.

Lemma lookup_extents_covers es e lb : disjoint_extents es → e ∈ es → covers e lb →
  lookup_extents es lb = e_start e + (lb - e_block e).
Proof.
  intros Hd He Hc. assert (Hu : ∀ e', e' ∈ es → covers e' lb → e' = e) by (intros; by eapply Hd).
  clear Hd. induction es as [|e0 es IH]; [by apply not_elem_of_nil in He|]. cbn [lookup_extents].
  destruct (_ && _) eqn:E.
  - rewrite (Hu e0); [done|by left|]. unfold covers. lia.
  - apply IH; [|intros e' He'; apply Hu; by right]. apply elem_of_cons in He as [->|He]; [|done].
    unfold covers in Hc. lia.
Qed.

Section results.
Context {W : Type} `{!BlockDevice W, !Allocator W, !StoreLaws W}.
Context (f : Ext4Manager).
Implicit Types s : store.

(** C23. The descent of a tree of any depth finds the block that the one extent with the
    logical block says, and 0 if there is none; the buffers it read nodes to are
    freed and the disk is as before. *)
Theorem extent_get_block_finds s inode es lb : geometry_ok f (disk s) → block_size f ≤ quota s →
  Forall byte inode → 0 ≤ lb → inode_extents f (disk s) inode = Some es → disjoint_extents es →
  ∃ r, runs (extent_get_block f inode lb) s r s ∧
    (∀ e, e ∈ es → covers e lb → r = e_start e + (lb - e_block e)) ∧
    ((∀ e, e ∈ es → ¬ covers e lb) → r = 0).
Proof.
  intros Hg Hq Hb Hlb He Hd. eexists. split; [by apply runs_extent_get_block|]. split.
  - intros e Hin Hc. by apply lookup_extents_covers.
  - intros Hn. apply lookup_extents_none, Forall_forall. intros e Hin. by apply Hn.
Qed.
End results.

(** ** A tree of two levels *)
Import Pure.

Module ExtentExample.

Definition no_journal : JBD2 := mk_jbd2 0 0 0 0 0 [].
Definition fs : Ext4Manager := mk_ext4 (zeroed Ext4Superblock) no_journal 0 1024 256 8 64 64 1.

Definition put_extent (p i eb el es : Z) : list Z → list Z :=
  poke Ext4Extent (entry_at p i) [("ee_block", eb); ("ee_len", el); ("ee_start_lo", es)].
Definition put_index (p i k x : Z) : list Z → list Z :=
  poke Ext4ExtentIdx (entry_at p i) [("ei_block", k); ("ei_leaf_lo", x)].
Definition put_header (p n depth : Z) : list Z → list Z :=
  poke Ext4ExtentHeader p [("eh_magic", EXT4_EXTENT_MAGIC); ("eh_entries", n); ("eh_max", 4); ("eh_depth", depth)].

(** The leaves are the blocks 1 and 2; block 3 leads to itself. *)
Definition disk_bytes : list Z :=
  put_index 3072 0 0 3 (put_header 3072 1 1
  (put_extent 2048 0 12 2 40 (put_header 2048 1 0
  (put_extent 1024 1 5 3 30 (put_extent 1024 0 0 4 20 (put_header 1024 2 0 (replicate (Z.to_nat 4096) 0))))))).
Definition file : list Z :=
  put_index i_block 1 10 2 (put_index i_block 0 0 1 (put_header i_block 2 1
    (poke Ext4Inode 0 [("i_flags", EXT4_EXTENTS_FL)] (zeroed Ext4Inode)))).
Definition machine : store := mk_store disk_bytes ∅ 4096.

Lemma geometry : geometry_ok fs (disk machine).
Proof. constructor; [by vm_compute|by vm_compute|by vm_compute|by vm_compute|by apply bytes_check; vm_compute]. Qed.
End ExtentExample.

Lemma extent_get_block_finds_witness :
  ∃ r, runs (extent_get_block ExtentExample.fs ExtentExample.file 6)
         ExtentExample.machine r ExtentExample.machine ∧ r = 31.
Proof.
  destruct (extent_get_block_finds ExtentExample.fs ExtentExample.machine
    ExtentExample.file [mk_extent 0 4 20; mk_extent 5 3 30; mk_extent 12 2 40] 6) as (r & Hr & Hc & _).
  - apply ExtentExample.geometry.
  - by vm_compute.
  - by apply bytes_check; vm_compute.
  - done.
  - by vm_compute.
  - intros e e' lb He He' Hc Hc'. rewrite !elem_of_cons, elem_of_nil in He, He'. unfold covers, e_end in *.
    destruct He as [->|[->|[->|[]]]], He' as [->|[->|[->|[]]]]; cbn in *; (done || lia).
  - exists r. split; [exact Hr|]. apply (Hc (mk_extent 5 3 30)); [by right; left|]. unfold covers, e_end. cbn. lia.
Defined.

Lemma descent_of_cycle_witness :
  extent_loop ExtentExample.fs 100 0 (block ExtentExample.fs (disk ExtentExample.machine) 3) 0 1 0 ExtentExample.machine = OutOfFuel.
Proof.
  pose proof (descent_of_cycle ExtentExample.fs ExtentExample.machine 3 0 100 0) as H.
  specialize (H ExtentExample.geometry).
  assert (E : header "eh_depth" (block ExtentExample.fs (disk ExtentExample.machine) 3) 0 = 1) by (vm_compute; reflexivity).
  rewrite E in H. apply H.
  - by vm_compute.
  - constructor; [split; vm_compute; discriminate|vm_compute; reflexivity|vm_compute; discriminate|vm_compute; discriminate|vm_compute; reflexivity].
  - by left.
  - reflexivity.
Defined.
End Ext4Extent.
