(* ===== verification/Ext4Journal.v ===== *)
(** * EXT4: the journal (fs/ext4_journal.cpp: JBD2, fs/ext4_vfs.cpp: journal_write_block)

    With a journal, [journal_write_block] only puts a copy of the block on a list in
    memory; [commit_transaction] writes the copies to the journal and to the blocks
    they belong to.  Until then the disk has the old block, and [read_block] reads
    the disk. *)

From Stdlib Require Import String.
From S2P Require Import Prelude Bytes Block Layout Ext4 Ext4Extent.

Module Ext4Journal.
Import Bytes Block Layout Ext4 Ext4Extent.
Local Open Scope string_scope.
Local Open Scope list_scope.
Local Open Scope Z_scope.

Definition JBD2_MAGIC_NUMBER : Z := 0xC03B3998.
Definition JBD2_DESCRIPTOR_BLOCK : Z := 1.
Definition JBD2_COMMIT_BLOCK : Z := 2.
Definition MAX_TRANS_BLOCKS : Z := 16.

Definition journal_header_t : layout := [
  ("h_magic", 4%nat); ("h_blocktype", 4%nat); ("h_sequence", 4%nat)].

(** The code does not read or write the journal's superblock; this is its layout. *)
Definition journal_superblock_t : layout := [
  ("s_header", 12%nat); ("s_blocksize", 4%nat); ("s_maxlen", 4%nat); ("s_first", 4%nat);
  ("s_sequence", 4%nat); ("s_start", 4%nat); ("s_errno", 4%nat); ("s_feature_compat", 4%nat);
  ("s_feature_incompat", 4%nat); ("s_feature_ro_compat", 4%nat); ("s_uuid", 16%nat); ("s_nr_users", 4%nat);
  ("s_dynsuper", 4%nat); ("s_max_transaction", 4%nat); ("s_max_trans_data", 4%nat);
  ("s_checksum_type", 1%nat); ("s_padding2", 3%nat); ("s_padding", 168%nat); ("s_checksum", 4%nat);
  ("s_users", 768%nat)].

(** [__builtin_bswap32] *)
Definition bswap32 (v : Z) : Z := of_le (rev (le 4 v)).

Definition with_head (h : Z) (j : JBD2) : JBD2 :=
  mk_jbd2 (journal_inode_num j) (journal_block_size j) (max_blocks j) (current_seq j) h (current_trans j).
Definition with_trans (t : list log_entry) (j : JBD2) : JBD2 :=
  mk_jbd2 (journal_inode_num j) (journal_block_size j) (max_blocks j) (current_seq j) (head_block j) t.

Definition get_next_block_wrapper (j : JBD2) (current : Z) : Z :=
  let current := u32 (current + 1) in if max_blocks j <=? current then 1 else current.
Definition advance (j : JBD2) : JBD2 := with_head (get_next_block_wrapper j (head_block j)) j.

(** A zeroed block with a header. *)
Definition header_block (j : JBD2) (blocktype : Z) : outcome (list Z) :=
  let b := replicate (Z.to_nat (journal_block_size j)) 0 in
  b ← put_member journal_header_t 0 "h_magic" JBD2_MAGIC_NUMBER b;
  b ← put_member journal_header_t 0 "h_blocktype" (bswap32 blocktype) b;
  put_member journal_header_t 0 "h_sequence" (bswap32 (current_seq j)) b.

Section journal.
Context {W : Type} `{!BlockDevice W, !Allocator W}.

(** The journal is the contents of an inode; a hole is only reported. *)
Definition write_journal_block (f : Ext4Manager) (offset_block : Z) (bs : list Z) : kernel W unit :=
  journal_inode ← read_inode f (journal_inode_num (journal f));
  phys_block ← extent_get_block f journal_inode offset_block;
  if negb (phys_block =? 0) then write_block f phys_block bs else mret ().

(** A block at the head of the journal, and the head moved on. *)
Definition append_block (f : Ext4Manager) (bs : list Z) : kernel W Ext4Manager :=
  write_journal_block f (head_block (journal f)) bs;;
  mret (set_journal (advance (journal f)) f).

(** The descriptor and the commit block, built in a buffer. *)
Definition append_header (f : Ext4Manager) (blocktype : Z) : kernel W Ext4Manager :=
  buffer ← kmalloc (journal_block_size (journal f));
  b ← (if buffer =? 0 then lift Fault else lift (header_block (journal f) blocktype));
  f ← append_block f b;
  kfree buffer;;
  mret f.

Fixpoint append_data (f : Ext4Manager) (es : list log_entry) : kernel W Ext4Manager :=
  match es with
  | [] => mret f
  | e :: es' =>
      f ← append_block f (data e);
      write_block f (fs_block e) (data e);;
      kfree (copy e);;
      append_data f es'
  end.

Definition commit_transaction (f : Ext4Manager) : kernel W Ext4Manager :=
  match current_trans (journal f) with
  | [] => mret f
  | es =>
      f ← append_header f JBD2_DESCRIPTOR_BLOCK;
      f ← append_data f es;
      f ← append_header f JBD2_COMMIT_BLOCK;
      mret (set_journal (with_trans [] (journal f)) f)
  end.

Definition log_block (f : Ext4Manager) (block : Z) (bs : list Z) : kernel W Ext4Manager :=
  f ← (if MAX_TRANS_BLOCKS <=? len (current_trans (journal f)) then
         f ← commit_transaction f; mret (set_journal (start_transaction (journal f)) f)
       else mret f);
  p ← kmalloc (journal_block_size (journal f));
  bs ← (if p =? 0 then lift Fault else lift (get_bytes 0 (journal_block_size (journal f)) bs));
  mret (set_journal (with_trans (current_trans (journal f) ++ [mk_log block p bs]) (journal f)) f).

Definition journal_write_block (f : Ext4Manager) (block_num : Z) (buffer : list Z) : kernel W Ext4Manager :=
  if negb (s_journal_inum f =? 0) then log_block f block_num buffer
  else write_block f block_num buffer;; mret f.

(** [if (sb.s_journal_inum != 0) { commit_transaction(); start_transaction(); }] *)
Definition commit_and_start (f : Ext4Manager) : kernel W Ext4Manager :=
  if negb (s_journal_inum f =? 0) then
    f ← commit_transaction f; mret (set_journal (start_transaction (journal f)) f)
  else mret f.
End journal.

(** ** The blocks of the journal *)

(** The place [k] blocks on in the ring. *)
Definition place (j : JBD2) (h : Z) (k : nat) : Z := Nat.iter k (get_next_block_wrapper j) h.

Section ring.
Context (j : JBD2) (Hm : 2 ≤ max_blocks j < 2 ^ 32).

Lemma next_in h : 1 ≤ h < max_blocks j → 1 ≤ get_next_block_wrapper j h < max_blocks j.
Proof using Hm.
  intros Hh. unfold get_next_block_wrapper. rewrite wrap_small by lia. destruct (Z.leb_spec (max_blocks j) (h + 1)); lia.
Qed.

Lemma place_in_log h k : 1 ≤ h < max_blocks j → 1 ≤ place j h k < max_blocks j.
Proof using Hm. intros Hh. induction k as [|k IH]; [done|]. by apply next_in. Qed.

Lemma place_mod h k : 1 ≤ h < max_blocks j → place j h k = 1 + (h - 1 + Z.of_nat k) mod (max_blocks j - 1).
Proof using Hm.
  intros Hh. induction k as [|k IH].
  - change (place j h 0) with h. rewrite Z.mod_small; lia.
  - pose proof (place_in_log h k Hh) as Hp. change (place j h (S k)) with (get_next_block_wrapper j (place j h k)).
    unfold get_next_block_wrapper. rewrite wrap_small by lia.
    replace (h - 1 + Z.of_nat (S k)) with ((h - 1 + Z.of_nat k) + 1) by lia. rewrite <- Zplus_mod_idemp_l.
    set (m := (h - 1 + Z.of_nat k) mod (max_blocks j - 1)) in *.
    destruct (Z.leb_spec (max_blocks j) (place j h k + 1)).
    + replace (m + 1) with (max_blocks j - 1) by lia. rewrite Z.mod_same by lia. done.
    + rewrite Z.mod_small by lia. lia.
Qed.

(** Fewer places than the ring has are different. *)
Lemma place_inj h i k : 1 ≤ h < max_blocks j → (i < k)%nat → Z.of_nat k < max_blocks j - 1 → place j h i ≠ place j h k.
Proof using Hm.
  intros Hh Hi Hk. rewrite !place_mod by done. intros E.
  assert (E' : (h - 1 + Z.of_nat i) mod (max_blocks j - 1) = (h - 1 + Z.of_nat k) mod (max_blocks j - 1)) by lia.
  clear E. assert (Hn : 0 < max_blocks j - 1) by lia. revert E' Hk Hn. generalize (max_blocks j - 1). intros n E' Hk Hn.
  pose proof (Z.div_mod (h - 1 + Z.of_nat i) n ltac:(lia)) as D1.
  pose proof (Z.div_mod (h - 1 + Z.of_nat k) n ltac:(lia)) as D2. rewrite E' in D1.
  assert (Ed : n * ((h - 1 + Z.of_nat k) / n - (h - 1 + Z.of_nat i) / n) = Z.of_nat k - Z.of_nat i) by (rewrite Z.mul_sub_distr_l; lia).
  clear D1 D2 E'. set (q := _ - _) in Ed. assert (q = 0 ∨ 1 ≤ q ∨ q ≤ -1) as [->|[?|?]] by lia; nia.
Qed.
End ring.

(** What [es], written in order, leaves of a block that was [bs]. *)
Definition logged_block (es : list log_entry) (b : Z) (bs : list Z) : list Z :=
  foldl (λ x e, if decide (fs_block e = b) then data e else x) bs es.

(** An inode without inner nodes: its extents do not depend on other blocks. *)
Definition root_only (inode : list Z) (es : list extent) : Prop :=
  Z.land (member Ext4Inode "i_flags" inode) EXT4_EXTENTS_FL ≠ 0 ∧ node_ok inode i_block 0 = true ∧
  es = leaf_extents inode i_block ∧ Forall (λ e, e_end e < 2 ^ 32) es.

Lemma root_only_extents f d inode es : root_only inode es → inode_extents f d inode = Some es.
Proof.
  intros (H1 & H2 & -> & H4). unfold inode_extents. rewrite (proj2 (Z.eqb_neq _ _)) by done.
  destruct (node_ok_inv _ _ _ H2) as (_ & _ & _ & E). rewrite E. change (Z.to_nat 0) with O. cbn [extents_of].
  change (Z.of_nat 0) with 0. rewrite H2. assert (Hf : forallb (λ e, e_end e <? 2 ^ 32) (leaf_extents inode i_block) = true).
  { rewrite forallb_forall. intros e He. apply Z.ltb_lt. rewrite Forall_forall in H4. by apply H4, list_elem_of_In. }
  by rewrite Hf.
Qed.

(** A control block of the journal of [n] bytes: the magic number as the code stores it (in the
    order of the processor), then type and sequence number in the order of the
    network, and zeros. *)
Definition control_block (n type seq : Z) : list Z :=
  [0x98; 0x39; 0x3B; 0xC0] ++ rev (le 4 type) ++ rev (le 4 seq) ++ replicate (Z.to_nat (n - 12)) 0.

(** ** Committing *)

Lemma set_journal_same f : set_journal (journal f) f = f.
Proof. by destruct f. Qed.

(** The journal's state does not matter to where things are. *)
Lemma geometry_journal j f d : geometry_ok f d → geometry_ok (set_journal j f) d.
Proof. intros []. by constructor. Qed.
Lemma inode_fits_journal j f d i : inode_fits f d i → inode_fits (set_journal j f) d i.
Proof. intros [I1 I2 [D1 D2 D3 D4 D5] I4 I5 I6]. by constructor; [..|constructor| | |]. Qed.

Section commit.
Context {W : Type} `{!BlockDevice W, !Allocator W, !StoreLaws W}.
Context (f : Ext4Manager) (jino : list Z) (es : list extent).
Context (Hino : root_only jino es) (Hjb : Forall byte jino).
Context (Hm : 2 ≤ max_blocks (journal f) < 2 ^ 32).
Implicit Types s : store.
Implicit Types d : list Z.

Let jn := journal_inode_num (journal f).
Definition jblock (p : Z) : Z := lookup_extents es p.

(** The journal's inode is found, and has the blocks of the ring. *)
Record journal_ok d : Prop := {
  jo_geometry : geometry_ok f d;
  jo_fits : inode_fits f d jn;
  jo_inode : inode f d jn = jino;
  jo_disk p : 1 ≤ p < max_blocks (journal f) → jblock p ≠ 0 ∧ on_disk f d (jblock p) ∧
    jblock p ≠ inode_blk f d jn ∧ jblock p ≠ desc_blk f (group_of f jn)
}.

(** Writing [bs] to the block [b] leaves the journal's inode where and what it is. *)
Definition keeps_inode d (b : Z) (bs : list Z) : Prop :=
  b ≠ inode_blk f d jn ∧
  (b = desc_blk f (group_of f jn) →
     get_inode_table f (sub (desc_off f (group_of f jn)) 64 bs) = get_inode_table f (desc f d (group_of f jn))).

Lemma put_inode_blk d b bs : journal_ok d → on_disk f d b → len bs = block_size f → keeps_inode d b bs →
  inode_blk f (put_block f b bs d) jn = inode_blk f d jn.
Proof.
  intros [J1 J2 J3 J4] Hb El [_ Hk]. unfold inode_blk. f_equal. unfold desc.
  destruct (decide (b = desc_blk f (group_of f jn))) as [E|Hne].
  - rewrite <- E at 1. rewrite block_put_same by done. by apply Hk.
  - rewrite block_put_other; try done. apply (df_disk f d _ (if_desc _ _ _ J2)).
Qed.

Lemma journal_ok_put d b bs : journal_ok d → on_disk f d b → len bs = block_size f → Forall byte bs →
  keeps_inode d b bs → journal_ok (put_block f b bs d).
Proof.
  intros Hok Hb El Hbs Hk. pose proof (put_inode_blk d b bs Hok Hb El Hk) as Ei.
  destruct Hok as [J1 J2 J3 J4]. pose proof (len_put_block f d b bs J1 Hb El) as Ed. constructor.
  - by apply geometry_put.
  - destruct J2 as [I1 I2 I3 I4 I5 I6]. constructor; try done.
    + destruct I3. constructor; try done. by eapply on_disk_len.
    + rewrite Ei. by eapply on_disk_len.
  - rewrite <- J3. unfold inode. rewrite Ei. f_equal. apply block_put_other; [done|done|apply J2|done|apply Hk].
  - intros p Hp. destruct (J4 p Hp) as (H1 & H2 & H3 & H4). rewrite Ei. split; [done|]. split; [by eapply on_disk_len|done].
Qed.

Lemma jblock_keeps d p bs : journal_ok d → 1 ≤ p < max_blocks (journal f) → keeps_inode d (jblock p) bs.
Proof. intros [J1 J2 J3 J4] Hp. destruct (J4 p Hp) as (H1 & H2 & H3 & H4). by split. Qed.

Lemma runs_append_block s j bs : let fj := set_journal j f in
  journal_inode_num j = jn → max_blocks j = max_blocks (journal f) →
  journal_ok (disk s) → block_size f ≤ quota s → 1 ≤ head_block j < max_blocks j →
  len bs = block_size f → Forall byte bs →
  runs (append_block fj bs) s (set_journal (advance j) f)
    (set_disk (put_block f (jblock (head_block j)) bs (disk s)) s).
Proof using Hino Hjb.
  intros fj Ej Em Hok Hq Hh El Hbs. destruct Hok as [J1 J2 J3 J4]. rewrite Em in Hh.
  destruct (J4 _ Hh) as (H1 & H2 & H3 & H4). unfold append_block, write_journal_block. cbn [journal fj set_journal].
  eapply runs_bind; [|apply runs_ret]. rewrite Ej.
  eapply runs_bind; [apply (runs_read_inode fj); [by apply geometry_journal|by apply inode_fits_journal|done]|].
  change (inode fj (disk s) jn) with (inode f (disk s) jn). rewrite J3.
  eapply runs_bind.
  { apply (runs_extent_get_block fj s jino es); [by apply geometry_journal|done|done|lia|by apply root_only_extents]. }
  fold (jblock (head_block j)). rewrite (proj2 (Z.eqb_neq _ _)) by done. cbn [negb].
  apply (runs_write_block fj); [by apply geometry_journal|done|done|done].
Qed.

Definition header_bytes (j : JBD2) (blocktype : Z) : list Z :=
  poke journal_header_t 0 [("h_magic", JBD2_MAGIC_NUMBER); ("h_blocktype", bswap32 blocktype);
    ("h_sequence", bswap32 (current_seq j))] (replicate (Z.to_nat (journal_block_size j)) 0).

Lemma header_block_ok j t : 12 ≤ journal_block_size j →
  header_block j t = Ok (header_bytes j t) ∧ len (header_bytes j t) = journal_block_size j ∧
  Forall byte (header_bytes j t).
Proof.
  intros Hj. unfold header_block, header_bytes, put_member, poke. cbn [foldl].
  set (z := replicate _ 0). assert (Ez : len z = journal_block_size j) by (unfold z, len; rewrite length_replicate; lia).
  rewrite put_le_ok by (cbn; lia). run. rewrite put_le_ok by (rewrite ?len_splice; rewrite ?len_le; cbn; lia). run.
  rewrite put_le_ok by (rewrite ?len_splice; rewrite ?len_splice; rewrite ?len_le; cbn; lia).
  split; [done|]. split.
  - rewrite !len_splice; rewrite ?len_splice; rewrite ?len_splice; rewrite ?len_le; cbn; lia.
  - repeat (apply Forall_splice; [apply le_bytes|]). apply Forall_replicate. lia.
Qed.

Lemma le_bswap32 v : le 4 (bswap32 v) = rev (le 4 v).
Proof.
  unfold bswap32. assert (Hb : Forall byte (rev (le 4 v))) by (apply Forall_rev, le_bytes).
  rewrite <- (le_of_le _ Hb) at 2. by rewrite length_rev, length_le.
Qed.

Lemma header_bytes_control j t : 12 ≤ journal_block_size j →
  header_bytes j t = control_block (journal_block_size j) t (current_seq j).
Proof.
  intros Hj. unfold header_bytes, control_block, poke. cbn [foldl].
  change (width_of journal_header_t _) with 4%nat. change (offset_of journal_header_t "h_magic") with 0.
  change (width_of journal_header_t _) with 4%nat. change (offset_of journal_header_t "h_blocktype") with 4.
  change (width_of journal_header_t _) with 4%nat. change (offset_of journal_header_t "h_sequence") with 8.
  rewrite !le_bswap32. replace (Z.to_nat (journal_block_size j)) with (12 + Z.to_nat (journal_block_size j - 12))%nat by lia.
  rewrite replicate_add. generalize (replicate (Z.to_nat (journal_block_size j - 12)) 0). intros z.
  reflexivity.
Qed.

Lemma runs_append_header s j t : journal_inode_num j = jn → max_blocks j = max_blocks (journal f) →
  journal_block_size j = block_size f → journal_ok (disk s) → block_size f ≤ quota s →
  1 ≤ head_block j < max_blocks j →
  runs (append_header (set_journal j f) t) s (set_journal (advance j) f)
    (set_disk (put_block f (jblock (head_block j)) (header_bytes j t) (disk s)) s).
Proof using Hino Hjb.
  intros Ej Em Es Hok Hq Hh. pose proof (block_size_bounds f _ (jo_geometry _ Hok)) as Hs.
  destruct (header_block_ok j t) as (E & El & Hb); [lia|]. unfold append_header. cbn [journal set_journal].
  rewrite Es. apply runs_kmalloc; [lia|]. intros p Hp Hl. rewrite (proj2 (Z.eqb_neq _ _)) by done.
  eapply runs_lift; [exact E|]. eapply runs_bind.
  - apply (runs_append_block (add_buffer p s) j); try done. by rewrite El.
  - rewrite set_disk_add. apply runs_kfree; [done|]. apply runs_ret.
Qed.

(** The disk after the data blocks are written from the place [h] on: each to the journal
    and to the block it belongs to. *)
Fixpoint data_disk (h : Z) (l : list log_entry) d : list Z :=
  match l with
  | [] => d
  | e :: l' => data_disk (get_next_block_wrapper (journal f) h) l'
      (put_block f (fs_block e) (data e) (put_block f (jblock h) (data e) d))
  end.

(** A block that may be logged. *)
Record entry_ok d (e : log_entry) : Prop := {
  eo_disk : on_disk f d (fs_block e);
  eo_len : len (data e) = block_size f;
  eo_bytes : Forall byte (data e);
  eo_keeps : keeps_inode d (fs_block e) (data e);
  eo_apart p : 1 ≤ p < max_blocks (journal f) → fs_block e ≠ jblock p
}.

Lemma keeps_put d b bs b' bs' : journal_ok d → on_disk f d b → len bs = block_size f → keeps_inode d b bs →
  keeps_inode d b' bs' → keeps_inode (put_block f b bs d) b' bs'.
Proof.
  intros Hok Hb El Hk [K1 K2]. pose proof (put_inode_blk d b bs Hok Hb El Hk) as Ei. split; [by rewrite Ei|].
  intros E. rewrite (K2 E). unfold inode_blk in Ei. fold jn in Ei. set (g := group_of f jn) in *. lia.
Qed.

Lemma entry_put d b bs e : journal_ok d → on_disk f d b → len bs = block_size f → Forall byte bs →
  keeps_inode d b bs → entry_ok d e → entry_ok (put_block f b bs d) e.
Proof.
  intros Hok Hb El Hbs Hk [E1 E2 E3 E4 E5]. constructor; try done.
  - eapply on_disk_len; [|done]. apply len_put_block; [apply Hok|done|done].
  - by apply keeps_put.
Qed.

Section data.
Context (d : list Z) (h : Z) (e : log_entry) (Hok : journal_ok d) (Hh : 1 ≤ h < max_blocks (journal f)).
Context (He : entry_ok d e).
Let d1 := put_block f (jblock h) (data e) d.
Let d2 := put_block f (fs_block e) (data e) d1.

Lemma data_ok1 : journal_ok d1.
Proof using Hok Hh He.
  destruct (jo_disk _ Hok h Hh) as (_ & H2 & _). destruct He as [E1 E2 E3 E4 E5].
  apply journal_ok_put; try done. by apply jblock_keeps.
Qed.
Lemma data_len1 : len d1 = len d.
Proof using Hok Hh He. destruct (jo_disk _ Hok h Hh) as (_ & H2 & _). apply len_put_block; [apply Hok|done|apply He]. Qed.
Lemma data_entry1 x : entry_ok d x → entry_ok d1 x.
Proof using Hok Hh He.
  destruct (jo_disk _ Hok h Hh) as (_ & H2 & _). destruct He as [E1 E2 E3 E4 E5].
  apply entry_put; try done. by apply jblock_keeps.
Qed.
Lemma data_ok2 : journal_ok d2.
Proof using Hok Hh He. pose proof (data_entry1 e He) as [E1 E2 E3 E4 E5]. apply journal_ok_put; try done. apply data_ok1. Qed.
Lemma data_len2 : len d2 = len d.
Proof using Hok Hh He.
  pose proof (data_entry1 e He) as [E1 E2 E3 E4 E5]. unfold d2.
  rewrite len_put_block; [apply data_len1|apply data_ok1|done|done].
Qed.
Lemma data_entry2 x : entry_ok d x → entry_ok d2 x.
Proof using Hok Hh He.
  intros Hx. pose proof (data_entry1 e He) as [E1 E2 E3 E4 E5].
  apply entry_put; try done; [apply data_ok1|by apply data_entry1].
Qed.
Lemma data_block b : on_disk f d b → block f d2 b =
  if decide (fs_block e = b) then data e else if decide (b = jblock h) then data e else block f d b.
Proof using Hok Hh He.
  intros Hb. destruct (jo_disk _ Hok h Hh) as (_ & H2 & _). pose proof (data_entry1 e He) as [E1 E2 E3 E4 E5].
  assert (Hb1 : on_disk f d1 b) by (eapply on_disk_len; [apply data_len1|done]). unfold d2.
  destruct (decide (fs_block e = b)) as [<-|Hne].
  - apply block_put_same; [apply data_ok1|done|done].
  - rewrite block_put_other; [|apply data_ok1|done|done|done|done]. unfold d1.
    destruct (decide (b = jblock h)) as [->|Hne'].
    + apply block_put_same; [apply Hok|done|done].
    + apply block_put_other; [apply Hok|done|done|done|congruence].
Qed.
End data.

Lemma len_data_disk l : ∀ h d, journal_ok d → 1 ≤ h < max_blocks (journal f) → Forall (entry_ok d) l →
  len (data_disk h l d) = len d ∧ journal_ok (data_disk h l d).
Proof using Hm.
  induction l as [|e l IH]; intros h d Hok Hh Hl; [done|]. apply Forall_cons in Hl as [He Hl]. cbn [data_disk].
  destruct (IH (get_next_block_wrapper (journal f) h) _ (data_ok2 d h e Hok Hh He)) as [E1 E2].
  - by apply next_in.
  - eapply Forall_impl; [exact Hl|]. intros x Hx. by apply data_entry2.
  - split; [|done]. rewrite E1. by apply data_len2.
Qed.

(** Blocks outside of the journal get what was logged for them last. *)
Lemma data_disk_home l : ∀ h d b, journal_ok d → 1 ≤ h < max_blocks (journal f) → Forall (entry_ok d) l →
  on_disk f d b → (∀ p, 1 ≤ p < max_blocks (journal f) → b ≠ jblock p) →
  block f (data_disk h l d) b = logged_block l b (block f d b).
Proof using Hm.
  induction l as [|e l IH]; intros h d b Hok Hh Hl Hb Hn; [done|]. apply Forall_cons in Hl as [He Hl].
  cbn [data_disk logged_block foldl]. rewrite IH.
  - rewrite (data_block d h e Hok Hh He b Hb). rewrite (decide_False (P := b = jblock h)); [done|by apply Hn].
  - by apply data_ok2.
  - by apply next_in.
  - eapply Forall_impl; [exact Hl|]. intros x Hx. by apply data_entry2.
  - eapply on_disk_len; [by apply data_len2|done].
  - done.
Qed.

(** The places of the ring hold different blocks. *)
Definition ring_injective : Prop :=
  ∀ p q, 1 ≤ p < max_blocks (journal f) → 1 ≤ q < max_blocks (journal f) → jblock p = jblock q → p = q.

(** A place that is not written keeps its block; the others hold the data in order. *)
Lemma data_disk_skip (Hinj : ring_injective) l : ∀ h d q, journal_ok d → 1 ≤ h < max_blocks (journal f) →
  Forall (entry_ok d) l → 1 ≤ q < max_blocks (journal f) →
  (∀ k, (k < length l)%nat → place (journal f) h k ≠ q) → block f (data_disk h l d) (jblock q) = block f d (jblock q).
Proof using Hm.
  induction l as [|e l IH]; intros h d q Hok Hh Hl Hq Hn; [done|]. apply Forall_cons in Hl as [He Hl].
  destruct (jo_disk _ Hok q Hq) as (_ & Hqd & _). cbn [data_disk]. rewrite IH.
  - rewrite (data_block d h e Hok Hh He _ Hqd). rewrite decide_False by (by apply (eo_apart _ _ He)).
    rewrite decide_False; [done|]. intros E. apply Hinj in E; [|done..]. subst q. by apply (Hn O); [cbn; lia|].
  - by apply data_ok2.
  - by apply next_in.
  - eapply Forall_impl; [exact Hl|]. intros x Hx. by apply data_entry2.
  - done.
  - intros k Hk. specialize (Hn (S k) ltac:(cbn; lia)). unfold place in *. by rewrite Nat.iter_succ_r in Hn.
Qed.

Lemma data_disk_log (Hinj : ring_injective) l : ∀ h d i e, journal_ok d → 1 ≤ h < max_blocks (journal f) →
  Forall (entry_ok d) l → Z.of_nat (length l) < max_blocks (journal f) - 1 → l !! i = Some e →
  block f (data_disk h l d) (jblock (place (journal f) h i)) = data e.
Proof using Hm.
  induction l as [|e0 l IH]; intros h d i e Hok Hh Hl Hlen Hi; [done|]. apply Forall_cons in Hl as [He Hl].
  cbn [length] in Hlen. cbn [data_disk].
  assert (Hl2 : Forall (entry_ok (put_block f (fs_block e0) (data e0) (put_block f (jblock h) (data e0) d))) l).
  { eapply Forall_impl; [exact Hl|]. intros x Hx. by apply data_entry2. }
  destruct i as [|i]; cbn in Hi.
  - injection Hi as ->. change (place (journal f) h 0) with h. destruct (jo_disk _ Hok h Hh) as (_ & Hhd & _).
    rewrite data_disk_skip; [|done|by apply data_ok2|by apply next_in|done|done|].
    + rewrite (data_block d h e Hok Hh He _ Hhd). rewrite decide_False by (by apply (eo_apart _ _ He)).
      by rewrite decide_True.
    + intros k Hk. assert (Hne := place_inj (journal f) Hm h 0 (S k) Hh ltac:(lia) ltac:(lia)).
      unfold place in *. rewrite Nat.iter_succ_r in Hne. intros E. by apply Hne.
  - unfold place. rewrite Nat.iter_succ_r. apply IH; [by apply data_ok2|by apply next_in|done|lia|done].
Qed.

(** Running the copies to their blocks. *)
Lemma runs_append_data l : ∀ s j, journal_inode_num j = jn → max_blocks j = max_blocks (journal f) →
  journal_ok (disk s) → block_size f ≤ quota s → 1 ≤ head_block j < max_blocks j →
  Forall (entry_ok (disk s)) l → NoDup (map copy l) → (∀ e, e ∈ l → copy e ∈ live s) →
  runs (append_data (set_journal j f) l) s
    (set_journal (with_head (place (journal f) (head_block j) (length l)) j) f)
    (mk_store (data_disk (head_block j) l (disk s)) (live s ∖ list_to_set (map copy l)) (quota s)).
Proof using Hino Hjb Hm.
  induction l as [|e l IH]; intros s j Ej Em Hok Hq Hh Hl Hnd Hlive.
  - cbn [append_data data_disk map list_to_set length]. rewrite difference_empty_L.
    replace (with_head _ j) with j by by destruct j. destruct s. apply runs_ret.
  - apply Forall_cons in Hl as [He Hl].
    change (map copy (e :: l)) with (copy e :: map copy l) in *. apply NoDup_cons in Hnd as [Hn Hnd]. cbn [append_data].
    assert (Enext : get_next_block_wrapper j (head_block j) = get_next_block_wrapper (journal f) (head_block j)).
    { unfold get_next_block_wrapper. by rewrite Em. }
    pose proof (data_ok1 (disk s) _ e Hok ltac:(by rewrite <- Em) He) as Hok1.
    pose proof (data_entry1 (disk s) _ e Hok ltac:(by rewrite <- Em) He e He) as [X1 X2 X3 X4 X5].
    eapply runs_bind.
    { by apply runs_append_block. }
    eapply runs_bind.
    { apply (runs_write_block (set_journal (advance j) f)); [by apply geometry_journal, Hok1|done|done|done]. }
    cbn [disk set_disk]. rewrite set_disk_set. eapply runs_bind; [apply runs_kfree_in; cbn; apply Hlive; by left|].
    cbn [disk live quota set_disk data_disk length]. rewrite list_to_set_cons, <- difference_difference_l_L.
    assert (El : with_head (place (journal f) (head_block j) (S (length l))) j =
      with_head (place (journal f) (head_block (advance j)) (length l)) (advance j)).
    { unfold place. rewrite Nat.iter_succ_r.
      change (head_block (advance j)) with (get_next_block_wrapper j (head_block j)). by rewrite Enext. }
    rewrite El, <- Enext. change (get_next_block_wrapper j (head_block j)) with (head_block (advance j)).
    cbn [disk live quota]. refine (IH (mk_store (put_block f (fs_block e) (data e) (put_block f (jblock (head_block j)) (data e) (disk s)))
      (live s ∖ {[copy e]}) (quota s)) (advance j) _ _ _ _ _ _ _ _); try done.
    + apply (data_ok2 (disk s) _ e Hok); [by rewrite <- Em|done].
    + cbn [advance with_head head_block max_blocks]. rewrite Em, Enext. apply next_in; [done|]. by rewrite <- Em.
    + eapply Forall_impl; [exact Hl|]. intros x Hx. apply data_entry2; [done|by rewrite <- Em|done|done].
    + cbn [live]. intros x Hx. apply elem_of_difference. split; [apply Hlive; by right|].
      intros Ex%elem_of_singleton. apply Hn. rewrite <- Ex. by apply list_elem_of_fmap_2.
Qed.

(** The disk after a commit. *)
Definition commit_disk (l : list log_entry) d : list Z :=
  let j := journal f in
  let h := get_next_block_wrapper j (head_block j) in
  put_block f (jblock (place j h (length l))) (header_bytes j JBD2_COMMIT_BLOCK)
    (data_disk h l (put_block f (jblock (head_block j)) (header_bytes j JBD2_DESCRIPTOR_BLOCK) d)).

Definition after_commit (n : nat) : JBD2 :=
  let j := journal f in with_trans [] (with_head (place j (head_block j) (S (S n))) j).

Section committed.
Context (d : list Z) (Hok : journal_ok d) (Hh : 1 ≤ head_block (journal f) < max_blocks (journal f)).
Context (Hs : journal_block_size (journal f) = block_size f).
Context (l : list log_entry) (Hl : Forall (entry_ok d) l).
Let h := get_next_block_wrapper (journal f) (head_block (journal f)).
Let d0 := put_block f (jblock (head_block (journal f))) (header_bytes (journal f) JBD2_DESCRIPTOR_BLOCK) d.

Lemma header_facts t : len (header_bytes (journal f) t) = block_size f ∧ Forall byte (header_bytes (journal f) t).
Proof using Hok Hs.
  pose proof (block_size_bounds f _ (jo_geometry _ Hok)). destruct (header_block_ok (journal f) t) as (_ & E & Hb); [lia|].
  by rewrite E.
Qed.

Lemma cm_ok0 : journal_ok d0 ∧ len d0 = len d ∧ Forall (entry_ok d0) l.
Proof using Hok Hh Hs Hl.
  destruct (jo_disk _ Hok _ Hh) as (_ & H2 & _). destruct (header_facts JBD2_DESCRIPTOR_BLOCK) as [E Hb].
  split_and!.
  - apply journal_ok_put; try done. by apply jblock_keeps.
  - apply len_put_block; [apply Hok|done|done].
  - eapply Forall_impl; [exact Hl|]. intros e He. apply entry_put; try done. by apply jblock_keeps.
Qed.

Lemma cm_next : 1 ≤ h < max_blocks (journal f) ∧ 1 ≤ place (journal f) h (length l) < max_blocks (journal f).
Proof using Hm Hh. assert (1 ≤ h < max_blocks (journal f)) by by apply next_in. split; [done|by apply place_in_log]. Qed.

Lemma cm_ok1 : journal_ok (data_disk h l d0) ∧ len (data_disk h l d0) = len d.
Proof using Hm Hok Hh Hs Hl.
  destruct cm_ok0 as (H0 & E0 & Hl0). destruct cm_next as [Hn _].
  destruct (len_data_disk l h d0 H0 Hn Hl0) as [E1 H1]. split; [done|congruence].
Qed.

Lemma cm_home b : on_disk f d b → (∀ p, 1 ≤ p < max_blocks (journal f) → b ≠ jblock p) →
  block f (commit_disk l d) b = logged_block l b (block f d b).
Proof using Hm Hok Hh Hs Hl.
  intros Hb Hn. destruct cm_ok0 as (H0 & E0 & Hl0). destruct cm_ok1 as [H1 E1]. destruct cm_next as [Hn1 Hn2].
  destruct (header_facts JBD2_DESCRIPTOR_BLOCK) as [Ed _]. destruct (header_facts JBD2_COMMIT_BLOCK) as [Ec _].
  destruct (jo_disk _ H1 _ Hn2) as (_ & J2 & _). destruct (jo_disk _ Hok _ Hh) as (_ & J1 & _).
  unfold commit_disk. fold h. fold d0. rewrite block_put_other; [|apply H1|done|by eapply on_disk_len|done|].
  2: { intros E. by apply (Hn _ Hn2). }
  rewrite data_disk_home; [|done|done|done|by eapply on_disk_len|done].
  f_equal. apply block_put_other; [apply Hok|done|done|done|]. intros E. by apply (Hn _ Hh).
Qed.

Lemma cm_log (Hinj : ring_injective) i e : Z.of_nat (length l) + 2 < max_blocks (journal f) → l !! i = Some e →
  block f (commit_disk l d) (jblock (place (journal f) (head_block (journal f)) (S i))) = data e.
Proof using Hm Hok Hh Hs Hl.
  intros Hlen Hi. destruct cm_ok0 as (H0 & E0 & Hl0). destruct cm_ok1 as [H1 E1]. destruct cm_next as [Hn1 Hn2].
  destruct (header_facts JBD2_COMMIT_BLOCK) as [Ec _]. destruct (jo_disk _ H1 _ Hn2) as (_ & J2 & _).
  pose proof (lookup_lt_Some _ _ _ Hi) as Hlt.
  assert (Ep : place (journal f) (head_block (journal f)) (S i) = place (journal f) h i) by (unfold place; by rewrite Nat.iter_succ_r).
  pose proof (place_in_log (journal f) Hm h i Hn1) as Hpi. rewrite Ep.
  unfold commit_disk. fold h. fold d0. destruct (jo_disk _ H1 _ Hpi) as (_ & J3 & _). rewrite block_put_other; [|apply H1|done|done|done|].
  - apply data_disk_log; try done. lia.
  - intros E. apply Hinj in E; [|done..]. symmetry in E. revert E. apply place_inj; try done. lia.
Qed.

(** The place [k] blocks behind the head is written exactly for the [length l + 2] first. *)
Lemma cm_place k : place (journal f) h k = place (journal f) (head_block (journal f)) (S k).
Proof. unfold place. by rewrite Nat.iter_succ_r. Qed.

Lemma cm_control (Hinj : ring_injective) : Z.of_nat (length l) + 2 < max_blocks (journal f) →
  block f (commit_disk l d) (jblock (head_block (journal f))) = header_bytes (journal f) JBD2_DESCRIPTOR_BLOCK ∧
  block f (commit_disk l d) (jblock (place (journal f) (head_block (journal f)) (S (length l)))) =
    header_bytes (journal f) JBD2_COMMIT_BLOCK.
Proof using Hm Hok Hh Hs Hl.
  intros Hlen. destruct cm_ok0 as (H0 & E0 & Hl0). destruct cm_ok1 as [H1 E1]. destruct cm_next as [Hn1 Hn2].
  destruct (header_facts JBD2_DESCRIPTOR_BLOCK) as [Ed _]. destruct (header_facts JBD2_COMMIT_BLOCK) as [Ec _].
  destruct (jo_disk _ H1 _ Hn2) as (_ & J2 & _). destruct (jo_disk _ Hok _ Hh) as (_ & J1 & _).
  assert (Hhead : ∀ k, (k ≤ length l)%nat → place (journal f) h k ≠ head_block (journal f)).
  { intros k Hk. rewrite cm_place. apply not_eq_sym, (place_inj (journal f) Hm (head_block (journal f)) 0); (done || lia). }
  unfold commit_disk. fold h. fold d0. rewrite <- cm_place. split.
  - rewrite block_put_other; [|apply H1|done|by eapply on_disk_len|done|].
    2: { intros E. apply Hinj in E; [|done..]. symmetry in E. by apply (Hhead (length l)). }
    rewrite data_disk_skip; [by apply block_put_same; [apply Hok|..]|done..|]. intros k Hk. apply Hhead. lia.
  - by apply block_put_same; [apply H1|..].
Qed.

Lemma cm_rest (Hinj : ring_injective) q : 1 ≤ q < max_blocks (journal f) →
  (∀ k, (k < length l + 2)%nat → place (journal f) (head_block (journal f)) k ≠ q) →
  block f (commit_disk l d) (jblock q) = block f d (jblock q).
Proof using Hm Hok Hh Hs Hl.
  intros Hq Hk. destruct cm_ok0 as (H0 & E0 & Hl0). destruct cm_ok1 as [H1 E1]. destruct cm_next as [Hn1 Hn2].
  destruct (header_facts JBD2_DESCRIPTOR_BLOCK) as [Ed _]. destruct (header_facts JBD2_COMMIT_BLOCK) as [Ec _].
  destruct (jo_disk _ H1 _ Hn2) as (_ & J2 & _). destruct (jo_disk _ Hok _ Hh) as (_ & J1 & _). destruct (jo_disk _ Hok _ Hq) as (_ & J3 & _).
  unfold commit_disk. fold h. fold d0. rewrite block_put_other; [|apply H1|done|by eapply on_disk_len|done|].
  2: { intros E. apply Hinj in E; [|done..]. revert E. rewrite cm_place. apply Hk. lia. }
  rewrite data_disk_skip; [|done..|intros k Hlt; rewrite cm_place; apply Hk; lia].
  apply block_put_other; [apply Hok|done|done|done|]. intros E. apply Hinj in E; [|done..].
  revert E. apply (Hk 0%nat). lia.
Qed.
End committed.

(** C24. Committing the blocks on the list: each block of the disk outside of the journal gets
    what was logged for it last and the others stay; in the ring of the journal, from its head on,
    there are a descriptor block, the logged blocks in order, and a commit block, with
    the types 1 and 2 and the sequence number, and the rest of the ring stays; the
    copies are freed and the list is empty. *)
Theorem commit_applies_log s l : current_trans (journal f) = l → l ≠ [] →
  journal_ok (disk s) → ring_injective → block_size f ≤ quota s →
  1 ≤ head_block (journal f) < max_blocks (journal f) → journal_block_size (journal f) = block_size f →
  Z.of_nat (length l) + 2 < max_blocks (journal f) →
  Forall (entry_ok (disk s)) l → NoDup (map copy l) → (∀ e, e ∈ l → copy e ∈ live s) →
  ∃ d', runs (commit_transaction f) s (set_journal (after_commit (length l)) f)
      (mk_store d' (live s ∖ list_to_set (map copy l)) (quota s)) ∧
    (∀ b, on_disk f (disk s) b → (∀ p, 1 ≤ p < max_blocks (journal f) → b ≠ jblock p) →
       block f d' b = logged_block l b (block f (disk s) b)) ∧
    (let at_place k := block f d' (jblock (place (journal f) (head_block (journal f)) k)) in
     at_place O = control_block (block_size f) 1 (current_seq (journal f)) ∧
     (∀ i e, l !! i = Some e → at_place (S i) = data e) ∧
     at_place (S (length l)) = control_block (block_size f) 2 (current_seq (journal f))) ∧
    (∀ q, 1 ≤ q < max_blocks (journal f) →
       (∀ k, (k < length l + 2)%nat → place (journal f) (head_block (journal f)) k ≠ q) →
       block f d' (jblock q) = block f (disk s) (jblock q)).
Proof using Hino Hjb Hm.
  intros Et Hne Hok Hinj Hq Hh Hs Hlen Hl Hnd Hlive. exists (commit_disk l (disk s)). split; [|split; [|split]].
  2: { intros b Hb Hn. by apply cm_home. }
  2: { pose proof (block_size_bounds f _ (jo_geometry _ Hok)).
       destruct (cm_control (disk s) Hok Hh Hs l Hl Hinj Hlen) as [C1 C2]. rewrite !header_bytes_control, Hs in C1, C2 by lia.
       split; [exact C1|]. split; [|exact C2]. intros i e Hi. by apply cm_log. }
  2: { intros q Hq1 Hk. by apply cm_rest. }
  destruct (cm_ok0 (disk s) Hok Hh Hs l Hl) as (H0 & E0 & Hl0).
  destruct (cm_ok1 (disk s) Hok Hh Hs l Hl) as [H1 E1]. destruct (cm_next Hh l) as [Hn1 Hn2].
  unfold commit_transaction. rewrite Et. destruct l as [|e0 l0]; [done|]. set (l := e0 :: l0) in *.
  pose proof (set_journal_same f) as Ef.
  eapply runs_bind; [rewrite <- Ef at 1; by apply runs_append_header|].
  eapply runs_bind; [apply (runs_append_data l _ (advance (journal f))); try done|]. cbn [disk live quota set_disk].
  change (head_block (advance (journal f))) with (get_next_block_wrapper (journal f) (head_block (journal f))).
  eapply runs_bind; [apply (runs_append_header (mk_store _ _ _)); try done|]. cbn [disk live quota set_disk].
  cbn [advance with_head head_block journal_inode_num journal_block_size max_blocks current_seq current_trans].
  unfold after_commit. cbn [journal set_journal]. unfold commit_disk.
  assert (Ea : place (journal f) (head_block (journal f)) (S (S (length l))) =
    get_next_block_wrapper (journal f) (place (journal f) (get_next_block_wrapper (journal f) (head_block (journal f))) (length l))).
  { unfold place. by rewrite <- Nat.iter_succ_r. }
  rewrite Ea. apply runs_ret.
Qed.
End commit.

(** ** A journal of seven blocks

    Blocks of 1024 bytes: the descriptors in block 2, the table of inodes in 5, the journal
    is inode 1 with the blocks 10 to 17; the blocks 20 and 21 are logged, 20 twice. *)
Import Pure.

Module JournalExample.
Import ExtentExample.

Definition jinode : list Z :=
  put_extent i_block 0 0 8 10 (put_header i_block 1 0 (poke Ext4Inode 0 [("i_flags", EXT4_EXTENTS_FL)] (zeroed Ext4Inode))).
Definition disk_bytes : list Z :=
  let d := replicate (Z.to_nat 24576) 0 in
  let d := poke Ext4GroupDesc 2048 [("bg_inode_table_lo", 5)] d in
  splice 5120 jinode d.
Definition ones (v : Z) : list Z := replicate (Z.to_nat 1024) v.
Definition entries : list log_entry := [mk_log 20 7 (ones 1); mk_log 21 8 (ones 2); mk_log 20 9 (ones 3)].
Definition fs : Ext4Manager :=
  mk_ext4 (poke Ext4Superblock 0 [("s_first_data_block", 1)] (zeroed Ext4Superblock))
    (mk_jbd2 1 1024 8 5 1 entries) 0 1024 256 8 64 64 1.
Definition machine : store := mk_store disk_bytes {[7; 8; 9]} 4096.

Lemma journal_root : root_only jinode [mk_extent 0 8 10].
Proof.
  split; [by vm_compute|]. split; [by vm_compute|]. split; [by vm_compute|]. constructor; [|constructor]. done.
Qed.

Lemma jblock_at p : 1 ≤ p < 8 → jblock [mk_extent 0 8 10] p = 10 + p.
Proof.
  intros Hp. unfold jblock. cbn [lookup_extents e_block e_end e_len e_start].
  rewrite (proj2 (Z.leb_le _ _)), (proj2 (Z.ltb_lt _ _)) by (unfold e_end; cbn; lia). cbn [andb]. lia.
Qed.

Lemma journal_inode_ok : journal_ok fs jinode [mk_extent 0 8 10] (disk machine).
Proof.
  constructor.
  - constructor; [by vm_compute|by vm_compute|by vm_compute|by vm_compute|by apply bytes_check; vm_compute].
  - constructor; [by vm_compute|by vm_compute| |by vm_compute|by vm_compute|by vm_compute].
    constructor; by vm_compute.
  - vm_compute. reflexivity.
  - intros p Hp. change (max_blocks (journal fs)) with 8 in Hp. rewrite jblock_at by done.
    assert (Ei : inode_blk fs (disk machine) 1 = 5) by (vm_compute; reflexivity).
    assert (Ed : desc_blk fs (group_of fs 1) = 2) by (vm_compute; reflexivity).
    assert (El : len (disk machine) = 24576) by (vm_compute; reflexivity).
    change (journal_inode_num (journal fs)) with 1. rewrite Ei, Ed. split; [lia|]. split; [|lia].
    unfold on_disk, block_addr. rewrite El. cbn [partition_lba block_size fs]. lia.
Qed.

Lemma entry_ok_at b p v : 18 ≤ b < 24 → 0 ≤ v < 256 →
  entry_ok fs [mk_extent 0 8 10] (disk machine) (mk_log b p (ones v)).
Proof.
  intros Hb Hv. assert (Ei : inode_blk fs (disk machine) 1 = 5) by (vm_compute; reflexivity).
  assert (Ed : desc_blk fs (group_of fs 1) = 2) by (vm_compute; reflexivity).
  assert (El : len (disk machine) = 24576) by (vm_compute; reflexivity). constructor; cbn [fs_block data].
  - unfold on_disk, block_addr. rewrite El. cbn [partition_lba block_size fs]. lia.
  - by vm_compute.
  - by apply Forall_replicate.
  - unfold keeps_inode. change (journal_inode_num (journal fs)) with 1. rewrite Ei, Ed. split; [lia|]. intros E. lia.
  - intros q Hq. change (max_blocks (journal fs)) with 8 in Hq. rewrite jblock_at by done. lia.
Qed.
End JournalExample.

Lemma commit_applies_log_witness :
  ∃ d', runs (commit_transaction JournalExample.fs) JournalExample.machine
      (set_journal (after_commit JournalExample.fs 3) JournalExample.fs) (mk_store d' ∅ 4096) ∧
    block JournalExample.fs d' 20 = JournalExample.ones 3 ∧
    block JournalExample.fs d' 12 = JournalExample.ones 1 ∧
    block JournalExample.fs d' 15 = control_block 1024 2 5.
Proof.
  destruct (commit_applies_log JournalExample.fs JournalExample.jinode [mk_extent 0 8 10] JournalExample.journal_root
    ltac:(by apply bytes_check; vm_compute) ltac:(by vm_compute) JournalExample.machine JournalExample.entries)
    as (d' & Hr & Hh & Hl & _); [reflexivity|discriminate|apply JournalExample.journal_inode_ok| |by vm_compute|by vm_compute|by vm_compute|by vm_compute| | | |].
  - intros p q Hp Hq. rewrite !JournalExample.jblock_at by done. lia.
  - do 3 (apply Forall_cons_2; [apply JournalExample.entry_ok_at; lia|]). apply Forall_nil_2.
  - apply (bool_decide_eq_true_1 _). by vm_compute.
  - intros e He. apply (bool_decide_eq_true_1 (copy e ∈ live JournalExample.machine)).
    unfold JournalExample.entries in He. rewrite !elem_of_cons, elem_of_nil in He.
    destruct He as [->|[->|[->|[]]]]; by vm_compute.
  - exists d'. split; [exact Hr|]. split.
    + rewrite Hh; [reflexivity| |].
      * apply (eo_disk _ _ _ _ (JournalExample.entry_ok_at 20 0 0 ltac:(lia) ltac:(lia))).
      * intros p Hp. change (max_blocks (journal JournalExample.fs)) with 8 in Hp. rewrite JournalExample.jblock_at by done. lia.
    + destruct Hl as (_ & Hl & Hc). split; [exact (Hl 0%nat _ eq_refl)|exact Hc].
Defined.
End Ext4Journal.
