(* ===== verification/Ext4Alloc.v ===== *)
(** * EXT4: bitmaps and allocation (fs/ext4_vfs.cpp: Ext4Manager)

    A group has a bitmap of its blocks and one of its inodes, and counts of the free
    ones in its descriptor.  The allocators take the first clear bit of the first
    group whose count is not 0. *)

From Stdlib Require Import String.
From S2P Require Import Prelude Bytes Block Layout Ext4 Ext4Extent Ext4Journal.

Module Ext4Alloc.
Import Bytes Block Layout Ext4 Ext4Extent Ext4Journal.
Local Open Scope string_scope.
Local Open Scope list_scope.
Local Open Scope Z_scope.

(** Bit [i] of a bitmap read and written. *)
Definition get_bit (i : Z) (buffer : list Z) : outcome bool :=
  v ← get8 (i / 8) buffer; Ok (bit_test v (i mod 8)).
Definition put_bit (i : Z) (value : bool) (buffer : list Z) : outcome (list Z) :=
  v ← get8 (i / 8) buffer;
  put8 (i / 8) (if value then bit_set v (i mod 8) else bit_clear v (i mod 8)) buffer.

(** The first clear bit from [i] on. *)
Fixpoint find_clear (n : nat) (i : Z) (buffer : list Z) : outcome (option Z) :=
  match n with
  | O => Ok None
  | S n' => used ← get_bit i buffer; if (used : bool) then find_clear n' (i + 1) buffer else Ok (Some i)
  end.

Section alloc.
Context {W : Type} `{!BlockDevice W, !Allocator W}.

Definition write_group_desc (f : Ext4Manager) (group : Z) (desc : list Z) : kernel W Ext4Manager :=
  '(blk, off) ← lift (desc_place f group);
  buffer ← kmalloc (block_size f);
  b ← read_into f buffer blk;
  b' ← lift (put_bytes off desc b);
  f ← journal_write_block f blk b';
  kfree buffer;;
  mret f.

(** Testing and changing a bit of a bitmap block. *)
Definition test_bit (f : Ext4Manager) (bitmap_block i : Z) : kernel W bool :=
  buffer ← kmalloc (block_size f);
  b ← read_into f buffer bitmap_block;
  used ← lift (get_bit i b);
  kfree buffer;;
  mret used.

Definition test_block_bitmap (f : Ext4Manager) (group block_in_group : Z) : kernel W bool :=
  gd ← read_group_desc f group; test_bit f (get_block_bitmap f gd) block_in_group.
Definition test_inode_bitmap (f : Ext4Manager) (group inode_in_group : Z) : kernel W bool :=
  gd ← read_group_desc f group; test_bit f (get_inode_bitmap f gd) inode_in_group.

Definition set_block_bitmap (f : Ext4Manager) (group block_in_group : Z) (value : bool) : kernel W Ext4Manager :=
  gd ← read_group_desc f group;
  let bitmap_block := get_block_bitmap f gd in
  buffer ← kmalloc (block_size f);
  b ← read_into f buffer bitmap_block;
  b' ← lift (put_bit block_in_group value b);
  f ← journal_write_block f bitmap_block b';
  kfree buffer;;
  mret f.

(** The bitmap of the inodes is written past the journal here. *)
Definition set_inode_bitmap (f : Ext4Manager) (group inode_in_group : Z) (value : bool) : kernel W unit :=
  gd ← read_group_desc f group;
  let bitmap_block := get_inode_bitmap f gd in
  buffer ← kmalloc (block_size f);
  b ← read_into f buffer bitmap_block;
  b' ← lift (put_bit inode_in_group value b);
  write_block f bitmap_block b';;
  kfree buffer.

(** The first clear bit of a bitmap is set. *)
Definition claim_bit (f : Ext4Manager) (bitmap_block count : Z) : kernel W (option Z * Ext4Manager) :=
  buffer ← kmalloc (block_size f);
  b ← read_into f buffer bitmap_block;
  r ← lift (find_clear (Z.to_nat count) 0 b);
  match r with
  | Some i =>
      b' ← lift (put_bit i true b);
      f ← journal_write_block f bitmap_block b';
      kfree buffer;;
      mret (Some i, f)
  | None => kfree buffer;; mret (None, f)
  end.

(** A member of a structure counted up or down. *)
Definition add_member (l : layout) (x : string) (n : Z) (o : list Z) : list Z :=
  set_member l x (member l x o + n) o.

Fixpoint allocate_block_from (n : nat) (g : Z) (f : Ext4Manager) : kernel W (Z * Ext4Manager) :=
  match n with
  | O => mret (0, f)
  | S n' =>
      gd ← read_group_desc f g;
      if 0 <? member Ext4GroupDesc "bg_free_blocks_count_lo" gd then
        '(r, f) ← claim_bit f (get_block_bitmap f gd) (blocks_per_group f);
        match r with
        | Some i =>
            f ← write_group_desc f g (add_member Ext4GroupDesc "bg_free_blocks_count_lo" (-1) gd);
            let f := set_sb (add_member Ext4Superblock "s_free_blocks_count_lo" (-1) (sb f)) f in
            mret (u64 (g * blocks_per_group f + i + s_first_data_block f), f)
        | None => allocate_block_from n' (g + 1) f
        end
      else allocate_block_from n' (g + 1) f
  end.
Definition allocate_block (f : Ext4Manager) : kernel W (Z * Ext4Manager) :=
  allocate_block_from (Z.to_nat (groups_count f)) 0 f.

Fixpoint allocate_inode_from (is_directory : bool) (n : nat) (g : Z) (f : Ext4Manager) : kernel W (Z * Ext4Manager) :=
  match n with
  | O => mret (0, f)
  | S n' =>
      gd ← read_group_desc f g;
      if 0 <? member Ext4GroupDesc "bg_free_inodes_count_lo" gd then
        '(r, f) ← claim_bit f (get_inode_bitmap f gd) (inodes_per_group f);
        match r with
        | Some i =>
            let gd := add_member Ext4GroupDesc "bg_free_inodes_count_lo" (-1) gd in
            let gd := if is_directory then add_member Ext4GroupDesc "bg_used_dirs_count_lo" 1 gd else gd in
            f ← write_group_desc f g gd;
            let f := set_sb (add_member Ext4Superblock "s_free_inodes_count" (-1) (sb f)) f in
            mret (u32 (g * inodes_per_group f + i + 1), f)
        | None => allocate_inode_from is_directory n' (g + 1) f
        end
      else allocate_inode_from is_directory n' (g + 1) f
  end.
Definition allocate_inode (f : Ext4Manager) (is_directory : bool) : kernel W (Z * Ext4Manager) :=
  allocate_inode_from is_directory (Z.to_nat (groups_count f)) 0 f.

Definition free_block (f : Ext4Manager) (block : Z) : kernel W Ext4Manager :=
  let block_in_fs := u64 (block - s_first_data_block f) in
  q ← lift (udiv block_in_fs (blocks_per_group f));
  r ← lift (umod block_in_fs (blocks_per_group f));
  let group := u32 q in
  f ← set_block_bitmap f group (u32 r) false;
  gd ← read_group_desc f group;
  f ← write_group_desc f group (add_member Ext4GroupDesc "bg_free_blocks_count_lo" 1 gd);
  mret (set_sb (add_member Ext4Superblock "s_free_blocks_count_lo" 1 (sb f)) f).

(** *** A block for a file: only a root without inner nodes is extended *)

Definition put_extent_block (e ee_block ee_len start : Z) (inode : list Z) : outcome (list Z) :=
  inode ← put_member Ext4Extent e "ee_block" ee_block inode;
  inode ← put_member Ext4Extent e "ee_len" ee_len inode;
  inode ← put_member Ext4Extent e "ee_start_lo" (Z.land start 0xFFFFFFFF) inode;
  put_member Ext4Extent e "ee_start_hi" (Z.land (Z.shiftr start 32) 0xFFFF) inode.

(** A new extent behind the last one. *)
Definition append_extent (entries logical_start count start : Z) (inode : list Z) : outcome (list Z) :=
  inode ← put_extent_block (entry_at i_block entries) logical_start count start inode;
  put_member Ext4ExtentHeader i_block "eh_entries" (entries + 1) inode.

(** The last extent, when the new block follows its blocks. *)
Definition last_extent (entries logical_start : Z) (inode : list Z) : outcome (option (Z * Z * Z)) :=
  if 0 <? entries then
    let e := entry_at i_block (entries - 1) in
    ee_block ← get_member Ext4Extent e "ee_block" inode;
    ee_len ← get_member Ext4Extent e "ee_len" inode;
    if logical_start =? u32 (ee_block + ee_len) then
      last_phys ← ext4_get_extent_start inode e;
      Ok (Some (e, ee_len, u64 (last_phys + ee_len)))
    else Ok None
  else Ok None.

(** Answers success, the inode and the manager. *)
Definition extent_allocate_blocks (f : Ext4Manager) (inode : list Z) (logical_start count : Z)
  : kernel W (bool * list Z * Ext4Manager) :=
  if Z.land (member Ext4Inode "i_flags" inode) EXT4_EXTENTS_FL =? 0 then mret (false, inode, f) else
  depth ← lift (get_member Ext4ExtentHeader i_block "eh_depth" inode);
  if negb (depth =? 0) then mret (false, inode, f) else
  entries ← lift (get_member Ext4ExtentHeader i_block "eh_entries" inode);
  eh_max ← lift (get_member Ext4ExtentHeader i_block "eh_max" inode);
  last ← lift (last_extent entries logical_start inode);
  match last with
  | Some (e, ee_len, next_phys) =>
      '(new_block, f) ← allocate_block f;
      if new_block =? 0 then mret (false, inode, f) else
      if (new_block =? next_phys) && (ee_len <? 32768) then
        inode' ← lift (put_member Ext4Extent e "ee_len" (ee_len + 1) inode); mret (true, inode', f)
      else if eh_max <=? entries then f ← free_block f new_block; mret (false, inode, f)
      else inode' ← lift (append_extent entries logical_start count new_block inode); mret (true, inode', f)
  | None =>
      if eh_max <=? entries then mret (false, inode, f) else
      '(new_block, f) ← allocate_block f;
      if new_block =? 0 then mret (false, inode, f) else
      inode' ← lift (append_extent entries logical_start count new_block inode); mret (true, inode', f)
  end.
End alloc.

(** ** Bits of a bitmap *)

Definition bit_at (bs : list Z) (i : Z) : bool := Z.testbit (of_le (sub (i / 8) 1 bs)) (i mod 8).
Definition set_bit_at (i : Z) (value : bool) (bs : list Z) : list Z :=
  let v := of_le (sub (i / 8) 1 bs) in
  splice (i / 8) (le 1 (if value then bit_set v (i mod 8) else bit_clear v (i mod 8))) bs.

Section bits.
Implicit Types bs : list Z.

Lemma bit_place i : 0 ≤ i → 0 ≤ i / 8 ∧ 0 ≤ i mod 8 < 8.
Proof. intros. split; [by apply Z.div_pos|by apply Z.mod_pos_bound]. Qed.

Lemma byte_value_range bs k : Forall byte bs → 0 ≤ of_le (sub k 1 bs) < 2 ^ 8.
Proof.
  intros Hb. pose proof (of_le_range _ (Forall_sub _ k 1 _ Hb)) as Hr. split; [lia|].
  eapply Z.lt_le_trans; [apply Hr|]. apply Z.pow_le_mono_r; [lia|]. unfold len, sub. rewrite length_take. lia.
Qed.

Lemma get_bit_ok bs i : Forall byte bs → 0 ≤ i → i / 8 < len bs → get_bit i bs = Ok (bit_at bs i).
Proof.
  intros Hb Hi Hl. destruct (bit_place i Hi). unfold get_bit. rewrite get_le_ok by lia. run.
  by rewrite bit_test_spec by lia.
Qed.

Lemma put_bit_ok bs i value : 0 ≤ i → i / 8 < len bs → put_bit i value bs = Ok (set_bit_at i value bs).
Proof.
  intros Hi Hl. destruct (bit_place i Hi). unfold put_bit. rewrite get_le_ok by lia. run.
  by rewrite put_le_ok by lia.
Qed.

Lemma len_set_bit bs i value : 0 ≤ i → i / 8 < len bs → len (set_bit_at i value bs) = len bs.
Proof. intros Hi Hl. destruct (bit_place i Hi). apply len_splice; rewrite ?len_le; lia. Qed.

Lemma set_bit_bytes bs i value : Forall byte bs → Forall byte (set_bit_at i value bs).
Proof. intros. apply Forall_splice; [apply le_bytes|done]. Qed.

Lemma same_bit i j : i / 8 = j / 8 → i mod 8 = j mod 8 → i = j.
Proof. intros. rewrite (Z.div_mod i 8), (Z.div_mod j 8) by done. lia. Qed.

Lemma bit_set_bit bs i j value : Forall byte bs → 0 ≤ i → i / 8 < len bs → 0 ≤ j →
  bit_at (set_bit_at i value bs) j = if decide (j = i) then value else bit_at bs j.
Proof.
  intros Hb Hi Hl Hj. destruct (bit_place i Hi) as [I1 I2]. destruct (bit_place j Hj) as [J1 J2].
  pose proof (byte_value_range bs (i / 8) Hb) as Hv. unfold bit_at, set_bit_at.
  destruct (decide (j / 8 = i / 8)) as [E|Hne].
  - rewrite E, sub_splice_le by lia. rewrite of_le_le. change (8 * Z.of_nat 1) with 8.
    rewrite Z.mod_small by (destruct value; [by apply bit_set_range|by apply bit_clear_range]).
    destruct value; [rewrite bit_set_spec by lia|rewrite bit_clear_spec by lia].
    all: destruct (decide (j = i)) as [->|Hji]; [by rewrite bool_decide_true by done|].
    all: rewrite bool_decide_false; [done|]; intros Em; apply Hji; by apply same_bit.
  - rewrite sub_splice_disjoint by (rewrite ?len_le; lia).
    rewrite decide_False; [done|]. by intros ->.
Qed.

(** The first clear bit, if there is one below [i + n]. *)
Lemma find_clear_spec bs n : ∀ i, Forall byte bs → 0 ≤ i → i + Z.of_nat n ≤ 8 * len bs →
  ∃ r, find_clear n i bs = Ok r ∧
    match r with
    | Some k => i ≤ k < i + Z.of_nat n ∧ bit_at bs k = false ∧ ∀ j, i ≤ j < k → bit_at bs j = true
    | None => ∀ j, i ≤ j < i + Z.of_nat n → bit_at bs j = true
    end.
Proof.
  induction n as [|n IH]; intros i Hb Hi Hl; [by exists None; split; [|lia]|].
  cbn [find_clear]. rewrite get_bit_ok; [|done|done|apply Z.div_lt_upper_bound; lia]. run.
  destruct (bit_at bs i) eqn:E.
  - destruct (IH (i + 1)) as (r & Er & Hr); [done|lia|lia|]. exists r. split; [done|].
    destruct r as [k|].
    + destruct Hr as (H1 & H2 & H3). split; [lia|]. split; [done|]. intros j Hj.
      destruct (decide (j = i)) as [->|]; [done|]. apply H3. lia.
    + intros j Hj. destruct (decide (j = i)) as [->|]; [done|]. apply Hr. lia.
  - eexists. split; [done|]. split; [lia|]. split; [done|]. lia.
Qed.
End bits.

(** ** Members of descriptors on the disk *)

Definition desc_addr (f : Ext4Manager) (g : Z) : Z := block_addr f (desc_blk f g) + desc_off f g.
Definition desc_member (f : Ext4Manager) (d : list Z) (g : Z) (x : string) : Z := member Ext4GroupDesc x (desc f d g).
Definition poke_desc (f : Ext4Manager) (g : Z) (x : string) (v : Z) (d : list Z) : list Z :=
  splice (desc_addr f g + offset_of Ext4GroupDesc x) (le (width_of Ext4GroupDesc x) v) d.

(** The members that every descriptor has of its own: the others are beyond its size. *)
Definition own (f : Ext4Manager) (x : string) : Prop :=
  offset_of Ext4GroupDesc x + Z.of_nat (width_of Ext4GroupDesc x) ≤ Z.min 64 (group_desc_size f).

Section descs.
Context (f : Ext4Manager).
Implicit Types d : list Z.

Lemma splice_over {A} a (b1 b2 l : list A) : 0 ≤ a → len b1 = len b2 → a + len b2 ≤ len l →
  splice a b1 (splice a b2 l) = splice a b1 l.
Proof.
  intros Ha E Hl. apply list_eq. intros i. pose proof (len_nonneg b2).
  destruct (decide (a ≤ Z.of_nat i < a + len b1)).
  - rewrite !lookup_splice_in; (done || rewrite ?len_splice; lia).
  - rewrite !lookup_splice_out; (done || rewrite ?len_splice; lia).
Qed.

(** A change inside of what is written. *)
Lemma splice_of_splice {A} a p (bs o l : list A) : 0 ≤ a → a + len o ≤ len l → 0 ≤ p → p + len bs ≤ len o →
  splice a (splice p bs o) l = splice (a + p) bs (splice a o l).
Proof.
  intros Ha Hl Hp Hb. pose proof (len_nonneg bs). rewrite <- (splice_over a (splice p bs o) o l); [|done| |done].
  2: { by apply len_splice. }
  rewrite <- (sub_splice_same a o l) at 1 by done.
  apply splice_splice_sub; rewrite ?len_splice; lia.
Qed.

Lemma desc_bounds d g : geometry_ok f d → desc_fits f d g → 0 ≤ desc_addr f g ∧ desc_addr f g + 64 ≤ len d.
Proof.
  intros Hg Hd. destruct (desc_place_ok f d g Hg Hd) as [_ H0]. destruct Hd as [D1 D2 D3 D4 D5].
  destruct (on_disk_bounds f d _ Hg D4) as (B1 & B2 & B3). unfold desc_addr. lia.
Qed.

Lemma desc_sub d g : geometry_ok f d → desc_fits f d g → desc f d g = sub (desc_addr f g) 64 d.
Proof.
  intros Hg Hd. destruct (desc_place_ok f d g Hg Hd) as [_ H0]. destruct Hd as [D1 D2 D3 D4 D5].
  destruct (on_disk_bounds f d _ Hg D4) as (B1 & B2 & B3). unfold desc, block. apply sub_sub; lia.
Qed.

(** Descriptors are at least their size apart. *)
Lemma descs_apart d g g' : desc_fits f d g → desc_fits f d g' → g ≠ g' →
  desc_addr f g + group_desc_size f ≤ desc_addr f g' ∨ desc_addr f g' + group_desc_size f ≤ desc_addr f g.
Proof.
  intros [D1 D2 _ _ _] [E1 _ _ _ _] Hne. unfold desc_addr, desc_off, desc_blk, desc_index, block_addr.
  set (z := group_desc_size f) in *. set (bs := block_size f) in *. set (q := bs / z).
  assert (Hq : 0 < q) by (apply Z.div_str_pos; lia).
  assert (Hqz : q * z ≤ bs) by (unfold q; rewrite Z.mul_comm; apply Z.mul_div_le; lia).
  pose proof (Z.div_mod g q ltac:(lia)) as Eg. pose proof (Z.mod_pos_bound g q Hq).
  pose proof (Z.div_mod g' q ltac:(lia)) as Eg'. pose proof (Z.mod_pos_bound g' q Hq).
  set (a := g / q) in *. set (a' := g' / q) in *. set (m := g mod q) in *. set (m' := g' mod q) in *.
  destruct (Z.lt_total a a') as [Hlt|[Heq|Hlt]].
  - left. assert ((m + 1) * z ≤ q * z) by (apply Z.mul_le_mono_nonneg_r; lia). nia.
  - rewrite Heq in *. assert (m ≠ m') by (intros E; apply Hne; rewrite Eg, Eg', E; lia).
    destruct (Z.lt_total m m') as [Hm|[?|Hm]]; [left|done|right].
    + assert ((m + 1) * z ≤ m' * z) by (apply Z.mul_le_mono_nonneg_r; lia). lia.
    + assert ((m' + 1) * z ≤ m * z) by (apply Z.mul_le_mono_nonneg_r; lia). lia.
  - right. assert ((m' + 1) * z ≤ q * z) by (apply Z.mul_le_mono_nonneg_r; lia). nia.
Qed.

Lemma desc_fits_len d d' g : len d' = len d → desc_fits f d g → desc_fits f d' g.
Proof. intros E []. constructor; try done. by eapply on_disk_len. Qed.

Section poke.
Context (d : list Z) (g : Z) (x : string) (v : Z).
Context (Hg : geometry_ok f d) (Hd : desc_fits f d g).
Let d' := poke_desc f g x v d.

Lemma len_poke_desc : len d' = len d.
Proof using Hg Hd.
  destruct (desc_bounds d g Hg Hd). pose proof (offset_bounds Ext4GroupDesc x) as Ho. change (sizeof _) with 64 in Ho.
  apply len_splice; rewrite ?len_le; lia.
Qed.

Lemma poke_desc_geometry : geometry_ok f d'.
Proof using Hg Hd. eapply ext4_geometry_len; [exact Hg|apply len_poke_desc|]. apply Forall_splice; [apply le_bytes|apply Hg]. Qed.

Lemma poke_desc_same : desc_member f d' g x = v mod 2 ^ (8 * Z.of_nat (width_of Ext4GroupDesc x)).
Proof using Hg Hd.
  destruct (desc_bounds d g Hg Hd). pose proof (offset_bounds Ext4GroupDesc x) as Ho. change (sizeof _) with 64 in Ho.
  assert (Hd' : desc_fits f d' g) by (eapply desc_fits_len; [apply len_poke_desc|done]).
  unfold desc_member, member. rewrite desc_sub by (done || apply poke_desc_geometry).
  rewrite sub_sub by lia. unfold d', poke_desc. rewrite sub_splice_le by lia. apply of_le_le.
Qed.

Lemma poke_desc_other g' y : desc_fits f d g' → g' ≠ g ∨ y ≠ x → own f x → own f y →
  desc_member f d' g' y = desc_member f d g' y.
Proof using Hg Hd.
  intros Hd1 Hne Hx Hy. unfold own in *.
  destruct (desc_bounds d g Hg Hd). destruct (desc_bounds d g' Hg Hd1).
  pose proof (offset_bounds Ext4GroupDesc x). pose proof (offset_bounds Ext4GroupDesc y).
  assert (Hd' : desc_fits f d' g') by (eapply desc_fits_len; [apply len_poke_desc|done]).
  unfold desc_member, member. rewrite !desc_sub by (done || apply poke_desc_geometry).
  rewrite !sub_sub by lia. f_equal. unfold d', poke_desc.
  apply sub_splice_disjoint; rewrite ?len_le; try lia.
  destruct (decide (g' = g)) as [->|Hgg].
  - destruct Hne as [?|Hyx]; [done|]. pose proof (members_disjoint Ext4GroupDesc y x Hyx). lia.
  - pose proof (descs_apart d g' g Hd1 Hd Hgg). lia.
Qed.

(** Other blocks are as before. *)
Lemma poke_desc_block b : on_disk f d b → b ≠ desc_blk f g → block f d' b = block f d b.
Proof using Hg Hd.
  intros Hb Hne. destruct (on_disk_bounds f d b Hg Hb) as (B1 & B2 & B3).
  destruct (desc_place_ok f d g Hg Hd) as [_ H0]. pose proof (block_size_bounds f d Hg).
  pose proof (offset_bounds Ext4GroupDesc x) as Ho. change (sizeof _) with 64 in Ho. destruct Hd as [D1 D2 D3 D4 D5].
  destruct (on_disk_bounds f d _ Hg D4) as (C1 & C2 & C3).
  unfold block, d', poke_desc, desc_addr. apply sub_splice_disjoint; rewrite ?len_le; try lia.
  unfold block_addr in *. nia.
Qed.
End poke.
End descs.

(** ** A volume *)

Definition bbm (f : Ext4Manager) (d : list Z) (g : Z) : Z := get_block_bitmap f (desc f d g).
Definition ibm (f : Ext4Manager) (d : list Z) (g : Z) : Z := get_inode_bitmap f (desc f d g).
Definition itb (f : Ext4Manager) (d : list Z) (g : Z) : Z := get_inode_table f (desc f d g).

(** The group of a block and its bit; whether it is in use. *)
Definition group_in (f : Ext4Manager) (b : Z) : Z := (b - s_first_data_block f) / blocks_per_group f.
Definition index_in (f : Ext4Manager) (b : Z) : Z := (b - s_first_data_block f) mod blocks_per_group f.
Definition used (f : Ext4Manager) (d : list Z) (b : Z) : bool :=
  bit_at (block f d (bbm f d (group_in f b))) (index_in f b).
Definition inode_used (f : Ext4Manager) (d : list Z) (i : Z) : bool :=
  bit_at (block f d (ibm f d (group_of f i))) (index_of f i).

(** The blocks that have a bit, the groups, the inodes. *)
Definition in_volume (f : Ext4Manager) (b : Z) : Prop :=
  s_first_data_block f ≤ b < s_first_data_block f + groups_count f * blocks_per_group f.
Definition is_group (f : Ext4Manager) (g : Z) : Prop := 0 ≤ g < groups_count f.
Definition is_inode (f : Ext4Manager) (i : Z) : Prop := 1 ≤ i ≤ groups_count f * inodes_per_group f.

(** What a block of the file system itself is for. *)
Inductive role : Set := Descriptors | BlockBitmap (g : Z) | InodeBitmap (g : Z) | InodeTable.
Definition has_role (f : Ext4Manager) (d : list Z) (b : Z) (r : role) : Prop :=
  match r with
  | Descriptors => ∃ g, is_group f g ∧ b = desc_blk f g
  | BlockBitmap g => is_group f g ∧ b = bbm f d g
  | InodeBitmap g => is_group f g ∧ b = ibm f d g
  | InodeTable => ∃ i, is_inode f i ∧ b = inode_blk f d i
  end.

(** A file system: its blocks are on the disk, have one role each and are in use, free
    blocks are on the disk, and the inodes do not overlap. *)
Record volume_ok (f : Ext4Manager) (d : list Z) : Prop := {
  vo_geometry : geometry_ok f d;
  vo_sb : len (sb f) = 1024;
  vo_groups : 0 < blocks_per_group f ≤ 8 * block_size f ∧ 0 < inodes_per_group f ≤ 8 * block_size f;
  vo_numbers : s_first_data_block f + groups_count f * blocks_per_group f < 2 ^ 32 ∧
    groups_count f * inodes_per_group f < 2 ^ 32;
  vo_wide : check_feature_incompat f EXT4_FEATURE_INCOMPAT_64BIT = true → 64 ≤ group_desc_size f;
  vo_desc g : is_group f g → desc_fits f d g;
  vo_bbm g : is_group f g → on_disk f d (bbm f d g);
  vo_ibm g : is_group f g → on_disk f d (ibm f d g);
  vo_inode i : is_inode f i → inode_fits f d i;
  vo_role b r r' : has_role f d b r → has_role f d b r' → r = r';
  vo_apart i j : is_inode f i → is_inode f j → i ≠ j → inode_blk f d i = inode_blk f d j →
    inode_off f i + 160 ≤ inode_off f j ∨ inode_off f j + 160 ≤ inode_off f i;
  vo_meta b r : has_role f d b r → in_volume f b ∧ used f d b = true;
  vo_free b : in_volume f b → used f d b = false → 1 ≤ b ∧ on_disk f d b
}.

(** The object with other counts in its superblock, and the journal further on. *)
Record same_fs (f f' : Ext4Manager) : Prop := {
  sf_fields : f' = set_journal (journal f') (set_sb (sb f') f);
  sf_first : s_first_data_block f' = s_first_data_block f;
  sf_inum : s_journal_inum f' = s_journal_inum f;
  sf_incompat x : check_feature_incompat f' x = check_feature_incompat f x;
  sf_len : len (sb f') = len (sb f)
}.

Section same.
Implicit Types f : Ext4Manager.
Implicit Types d : list Z.

Lemma same_fs_refl f : same_fs f f.
Proof. constructor; try done. by destruct f. Qed.

Lemma same_fs_trans f1 f2 f3 : same_fs f1 f2 → same_fs f2 f3 → same_fs f1 f3.
Proof.
  intros [A1 A2 A3 A4 A5] [B1 B2 B3 B4 B5]. constructor; try congruence.
  rewrite B1. rewrite A1. done.
Qed.

Lemma same_fs_count f x n : len (sb f) = 1024 → x ∈ ["s_free_blocks_count_lo"; "s_free_inodes_count"] →
  same_fs f (set_sb (add_member Ext4Superblock x n (sb f)) f).
Proof.
  intros E Hx. assert (Ho : ∀ y, y ≠ x → member Ext4Superblock y (add_member Ext4Superblock x n (sb f)) =
    member Ext4Superblock y (sb f)).
  { intros y Hy. apply member_set_other; [by rewrite E|done]. }
  rewrite !elem_of_cons, elem_of_nil in Hx. constructor.
  - done.
  - apply Ho. by destruct Hx as [->|[->|[]]].
  - apply Ho. by destruct Hx as [->|[->|[]]].
  - intros y. unfold check_feature_incompat, feature_incompat. cbn [sb set_sb]. rewrite Ho; [done|].
    by destruct Hx as [->|[->|[]]].
  - cbn [sb set_sb]. apply len_set_member. by rewrite E.
Qed.

Section two.
Context (f f' : Ext4Manager) (Hs : same_fs f f').

Lemma same_block d b : block f' d b = block f d b.
Proof using Hs. by rewrite (sf_fields f f' Hs). Qed.
Lemma same_on_disk d b : on_disk f' d b ↔ on_disk f d b.
Proof using Hs. by rewrite (sf_fields f f' Hs). Qed.
Lemma same_geometry d : geometry_ok f d → geometry_ok f' d.
Proof using Hs. rewrite (sf_fields f f' Hs). intros []. by constructor. Qed.
Lemma same_desc_blk g : desc_blk f' g = desc_blk f g.
Proof using Hs. unfold desc_blk. rewrite (sf_first f f' Hs). by rewrite (sf_fields f f' Hs). Qed.
Lemma same_desc_off g : desc_off f' g = desc_off f g.
Proof using Hs. by rewrite (sf_fields f f' Hs). Qed.
Lemma same_desc d g : desc f' d g = desc f d g.
Proof using Hs. unfold desc. by rewrite same_desc_blk, same_desc_off, same_block. Qed.
Lemma same_desc_fits d g : desc_fits f d g → desc_fits f' d g.
Proof using Hs.
  intros [D1 D2 D3 D4 D5]. constructor; rewrite ?same_desc_off, ?same_desc_blk, ?same_on_disk, ?(sf_first f f' Hs); try done.
  all: by rewrite (sf_fields f f' Hs).
Qed.
Lemma same_desc_block lo hi de : desc_block f' lo hi de = desc_block f lo hi de.
Proof using Hs. unfold desc_block. by rewrite (sf_incompat f f' Hs). Qed.
Lemma same_bbm d g : bbm f' d g = bbm f d g.
Proof using Hs. unfold bbm, get_block_bitmap. by rewrite same_desc_block, same_desc. Qed.
Lemma same_ibm d g : ibm f' d g = ibm f d g.
Proof using Hs. unfold ibm, get_inode_bitmap. by rewrite same_desc_block, same_desc. Qed.
Lemma same_itb d g : itb f' d g = itb f d g.
Proof using Hs. unfold itb, get_inode_table. by rewrite same_desc_block, same_desc. Qed.
Lemma same_group_of i : group_of f' i = group_of f i.
Proof using Hs. by rewrite (sf_fields f f' Hs). Qed.
Lemma same_inode_off i : inode_off f' i = inode_off f i.
Proof using Hs. by rewrite (sf_fields f f' Hs). Qed.
Lemma same_inode_blk d i : inode_blk f' d i = inode_blk f d i.
Proof using Hs.
  unfold inode_blk. fold (itb f' d (group_of f' i)) (itb f d (group_of f i)). rewrite same_group_of, same_itb.
  by rewrite (sf_fields f f' Hs).
Qed.
Lemma same_inode_fits d i : inode_fits f d i → inode_fits f' d i.
Proof using Hs.
  intros [I1 I2 I3 I4 I5 I6]. constructor; rewrite ?same_group_of, ?same_inode_off, ?same_inode_blk, ?same_on_disk; try done.
  - by rewrite (sf_fields f f' Hs).
  - by apply same_desc_fits.
  - by rewrite (sf_fields f f' Hs).
  - by rewrite (sf_fields f f' Hs).
Qed.
Lemma same_inode d i : inode f' d i = inode f d i.
Proof using Hs. unfold inode. by rewrite same_inode_off, same_inode_blk, same_block. Qed.
Lemma same_used d b : used f' d b = used f d b.
Proof using Hs.
  unfold used, group_in, index_in. rewrite same_bbm, same_block, (sf_first f f' Hs). by rewrite (sf_fields f f' Hs).
Qed.
Lemma same_inode_used d i : inode_used f' d i = inode_used f d i.
Proof using Hs. unfold inode_used. rewrite same_ibm, same_block. by rewrite (sf_fields f f' Hs). Qed.
Lemma same_in_volume b : in_volume f' b ↔ in_volume f b.
Proof using Hs. unfold in_volume. rewrite (sf_first f f' Hs). by rewrite (sf_fields f f' Hs). Qed.
Lemma same_is_group g : is_group f' g ↔ is_group f g.
Proof using Hs. by rewrite (sf_fields f f' Hs). Qed.
Lemma same_is_inode i : is_inode f' i ↔ is_inode f i.
Proof using Hs. by rewrite (sf_fields f f' Hs). Qed.
Lemma same_role d b r : has_role f' d b r ↔ has_role f d b r.
Proof using Hs.
  destruct r; cbn [has_role]; rewrite ?same_bbm, ?same_ibm, ?same_is_group; [|done..|].
  - by setoid_rewrite same_desc_blk; setoid_rewrite same_is_group.
  - by setoid_rewrite same_inode_blk; setoid_rewrite same_is_inode.
Qed.

Lemma same_volume d : volume_ok f d → volume_ok f' d.
Proof using Hs.
  intros [V1 V2 V3 V4 V5 V6 V7 V8 V9 V10 V11 V12 V13]. constructor.
  - by apply same_geometry.
  - by rewrite (sf_len f f' Hs).
  - by rewrite (sf_fields f f' Hs).
  - rewrite (sf_first f f' Hs). by rewrite (sf_fields f f' Hs).
  - rewrite (sf_incompat f f' Hs). by rewrite (sf_fields f f' Hs).
  - intros g Hg%same_is_group. by apply same_desc_fits, V6.
  - intros g Hg%same_is_group. rewrite same_on_disk, same_bbm. by apply V7.
  - intros g Hg%same_is_group. rewrite same_on_disk, same_ibm. by apply V8.
  - intros i Hi%same_is_inode. by apply same_inode_fits, V9.
  - intros b r r' H%same_role H'%same_role. by eapply V10.
  - intros i j Hi%same_is_inode Hj%same_is_inode. rewrite !same_inode_blk, !same_inode_off. by apply V11.
  - intros b r H%same_role. rewrite same_in_volume, same_used. by eapply V12.
  - intros b H%same_in_volume. rewrite same_used, same_on_disk. by apply V13.
Qed.
End two.
End same.

(** ** Changes of the disk *)

(** The descriptors lead to the same places. *)
Record same_places (f : Ext4Manager) (d d' : list Z) : Prop := {
  sp_len : len d' = len d;
  sp_bytes : Forall byte d';
  sp_bbm g : is_group f g → bbm f d' g = bbm f d g;
  sp_ibm g : is_group f g → ibm f d' g = ibm f d g;
  sp_itb g : is_group f g → itb f d' g = itb f d g
}.

Section places.
Context (f : Ext4Manager).
Implicit Types d : list Z.

Lemma same_places_refl d : Forall byte d → same_places f d d.
Proof. by constructor. Qed.
Lemma same_places_trans d1 d2 d3 : same_places f d1 d2 → same_places f d2 d3 → same_places f d1 d3.
Proof.
  intros [A1 A2 A3 A4 A5] [B1 B2 B3 B4 B5]. constructor; [congruence|done|..]; intros g Hg.
  - by rewrite B3, A3.
  - by rewrite B4, A4.
  - by rewrite B5, A5.
Qed.

Lemma inode_group i : 0 < inodes_per_group f → is_inode f i → is_group f (group_of f i).
Proof.
  intros Hp [H1 H2]. unfold is_group, group_of. split; [apply Z.div_pos; lia|].
  apply Z.div_lt_upper_bound; lia.
Qed.

Lemma block_group b : 0 < blocks_per_group f → in_volume f b → is_group f (group_in f b).
Proof.
  intros Hp [H1 H2]. unfold is_group, group_in. split; [apply Z.div_pos; lia|].
  apply Z.div_lt_upper_bound; lia.
Qed.

Section same.
Context (d d' : list Z) (Hv : volume_ok f d) (Hp : same_places f d d').

Lemma sp_inode_blk i : is_inode f i → inode_blk f d' i = inode_blk f d i.
Proof using Hv Hp.
  intros Hi. unfold inode_blk. fold (itb f d' (group_of f i)) (itb f d (group_of f i)).
  rewrite (sp_itb _ _ _ Hp); [done|]. apply inode_group; [|done]. apply (vo_groups f d Hv).
Qed.

Lemma sp_role b r : has_role f d' b r ↔ has_role f d b r.
Proof using Hv Hp.
  destruct r as [|g|g|]; cbn [has_role]; [done|..].
  - split; intros [Hg ->]; (split; [done|]); by rewrite (sp_bbm _ _ _ Hp) by done.
  - split; intros [Hg ->]; (split; [done|]); by rewrite (sp_ibm _ _ _ Hp) by done.
  - split; intros (i & Hi & ->); exists i; (split; [done|]); by rewrite sp_inode_blk by done.
Qed.

Lemma sp_volume : (∀ b r, has_role f d b r → used f d' b = true) →
  (∀ b, in_volume f b → used f d' b = false → 1 ≤ b ∧ on_disk f d b) → volume_ok f d'.
Proof using Hv Hp.
  intros Hm Hf. destruct Hp as [P1 P2 P3 P4 P5]. pose proof Hv as [V1 V2 V3 V4 V5 V6 V7 V8 V9 V10 V11 V12 V13].
  constructor; try done.
  - by eapply ext4_geometry_len.
  - intros g Hg. eapply desc_fits_len; [exact P1|auto].
  - intros g Hg. eapply on_disk_len; [exact P1|]. rewrite P3; auto.
  - intros g Hg. eapply on_disk_len; [exact P1|]. rewrite P4; auto.
  - intros i Hi. destruct (V9 i Hi) as [I1 I2 I3 I4 I5 I6]. constructor; try done.
    + by eapply desc_fits_len.
    + eapply on_disk_len; [exact P1|]. by rewrite sp_inode_blk.
  - intros b r r' H%sp_role H'%sp_role. by eapply V10.
  - intros i j Hi Hj. rewrite !sp_inode_blk by done. by apply V11.
  - intros b r H%sp_role. split; [by eapply V12|by eapply Hm].
  - intros b Hb Hu. destruct (Hf b Hb Hu). split; [done|]. by eapply on_disk_len.
Qed.
End same.

(** The places and the bitmaps of a disk that changed in other blocks. *)
Lemma places_of_blocks d d' : volume_ok f d → len d' = len d → Forall byte d' →
  (∀ g, is_group f g → block f d' (desc_blk f g) = block f d (desc_blk f g)) → same_places f d d'.
Proof.
  intros Hv El Hb Hd. assert (E : ∀ g, is_group f g → desc f d' g = desc f d g).
  { intros g Hg. unfold desc. by rewrite Hd. }
  constructor; [done..|unfold bbm|unfold ibm|unfold itb]; intros g Hg; by rewrite E.
Qed.

Lemma role_block d b r : volume_ok f d → has_role f d b r → on_disk f d b.
Proof.
  intros Hv Hr. destruct r as [|g|g|]; cbn in Hr.
  - destruct Hr as (g & Hg & ->). apply (df_disk f d g), (vo_desc f d Hv); done.
  - destruct Hr as [Hg ->]. by apply (vo_bbm f d Hv).
  - destruct Hr as [Hg ->]. by apply (vo_ibm f d Hv).
  - destruct Hr as (i & Hi & ->). apply (if_disk f d i), (vo_inode f d Hv); done.
Qed.

Lemma roles_differ d b b' r r' : volume_ok f d → has_role f d b r → has_role f d b' r' → r ≠ r' → b ≠ b'.
Proof. intros Hv Hr Hr' Hne ->. apply Hne. by eapply (vo_role f d Hv). Qed.

(** An inode is kept with its block, and when only bitmaps of blocks and descriptors change. *)
Lemma inode_block_kept d d' j : volume_ok f d → same_places f d d' → is_inode f j →
  block f d' (inode_blk f d j) = block f d (inode_blk f d j) → Ext4.inode f d' j = Ext4.inode f d j.
Proof. intros Hv Hp Hj E. unfold Ext4.inode. rewrite (sp_inode_blk _ _ Hv Hp) by done. by rewrite E. Qed.

Lemma meta_inode d d' j : volume_ok f d → same_places f d d' →
  (∀ x, on_disk f d x → (∀ g, is_group f g → x ≠ desc_blk f g ∧ x ≠ bbm f d g) → block f d' x = block f d x) →
  is_inode f j → Ext4.inode f d' j = Ext4.inode f d j.
Proof.
  intros Hv Hp Hb Hj. apply inode_block_kept; [done..|].
  assert (Hro : has_role f d (inode_blk f d j) InodeTable) by by exists j.
  apply Hb; [by eapply role_block|]. intros g Hgg. split.
  - apply (roles_differ d _ _ InodeTable Descriptors); [done|done|by exists g|done].
  - apply (roles_differ d _ _ InodeTable (BlockBitmap g)); [done|done|by split|done].
Qed.

Lemma used_block d d' b : same_places f d d' → is_group f (group_in f b) →
  block f d' (bbm f d (group_in f b)) = block f d (bbm f d (group_in f b)) → used f d' b = used f d b.
Proof. intros Hp Hg E. unfold used. rewrite (sp_bbm _ _ _ Hp) by done. by rewrite E. Qed.
End places.

Section bitmap.
Context (f : Ext4Manager) (d : list Z) (b : Z) (v : bool).
Context (Hv : volume_ok f d) (Hb : in_volume f b).
Let g := group_in f b.
Let i := index_in f b.
Let d' := put_block f (bbm f d g) (set_bit_at i v (block f d (bbm f d g))) d.

Lemma bm_group : is_group f g.
Proof using Hv Hb. apply block_group; [apply (vo_groups f d Hv)|done]. Qed.
Lemma bm_role : has_role f d (bbm f d g) (BlockBitmap g).
Proof using Hv Hb. split; [apply bm_group|done]. Qed.
Lemma bm_disk : on_disk f d (bbm f d g).
Proof using Hv Hb. apply (vo_bbm f d Hv), bm_group. Qed.
Lemma bm_index : 0 ≤ i < blocks_per_group f ∧ i / 8 < block_size f.
Proof using Hv Hb.
  destruct (vo_groups f d Hv) as [Hp _]. assert (Hi : 0 ≤ i < blocks_per_group f) by (apply Z.mod_pos_bound; lia).
  split; [done|]. apply Z.div_lt_upper_bound; lia.
Qed.
Lemma bm_len : len (block f d (bbm f d g)) = block_size f.
Proof using Hv Hb. apply len_block; [apply (vo_geometry f d Hv)|apply bm_disk]. Qed.
Lemma bm_new_len : len (set_bit_at i v (block f d (bbm f d g))) = block_size f.
Proof using Hv Hb. destruct bm_index. rewrite len_set_bit; [apply bm_len|lia|by rewrite bm_len]. Qed.

Lemma bm_places : same_places f d d'.
Proof using Hv Hb.
  pose proof (vo_geometry f d Hv) as Hg. apply places_of_blocks; [done| | |].
  - apply len_put_block; [done|apply bm_disk|apply bm_new_len].
  - apply geometry_put; [done|apply bm_disk|apply bm_new_len|]. apply set_bit_bytes. by apply block_bytes.
  - intros g' Hg'. apply block_put_other; [done|apply bm_disk| |apply bm_new_len|].
    + apply (df_disk f d g'), (vo_desc f d Hv g' Hg').
    + apply (roles_differ f d _ _ (BlockBitmap g) Descriptors); [done|apply bm_role|by exists g'|done].
Qed.

Lemma bm_other x : on_disk f d x → x ≠ bbm f d g → block f d' x = block f d x.
Proof using Hv Hb.
  intros Hx Hne. apply block_put_other; [apply (vo_geometry f d Hv)|apply bm_disk|done|apply bm_new_len|done].
Qed.

Lemma bm_used x : in_volume f x → used f d' x = if decide (x = b) then v else used f d x.
Proof using Hv Hb.
  intros Hx. assert (Hgx : is_group f (group_in f x)) by (apply block_group; [apply (vo_groups f d Hv)|done]).
  pose proof (vo_geometry f d Hv) as Hg. destruct (vo_groups f d Hv) as [Hbpg _].
  assert (0 ≤ index_in f x) by (apply Z.mod_pos_bound; lia).
  unfold used. rewrite (sp_bbm _ _ _ bm_places) by done.
  destruct (decide (group_in f x = g)) as [E|Hne].
  - rewrite E. unfold d'. rewrite block_put_same; [|done|apply bm_disk|apply bm_new_len].
    rewrite bit_set_bit; [|by apply block_bytes|apply bm_index|rewrite bm_len; apply bm_index|done].
    destruct (decide (x = b)) as [->|Hxb]; [by rewrite decide_True|]. rewrite decide_False; [done|].
    intros Ei. apply Hxb. unfold g, i, group_in, index_in in *.
    pose proof (Z.div_mod (x - s_first_data_block f) (blocks_per_group f) ltac:(lia)).
    pose proof (Z.div_mod (b - s_first_data_block f) (blocks_per_group f) ltac:(lia)). rewrite E, Ei in *. lia.
  - rewrite bm_other; [|by apply (vo_bbm f d Hv)|].
    + destruct (decide (x = b)) as [->|]; done.
    + apply (roles_differ f d _ _ (BlockBitmap (group_in f x)) (BlockBitmap g)); [done|by split|apply bm_role|congruence].
Qed.
End bitmap.

(** Changing a count of a descriptor. *)
Section counts.
Context (f : Ext4Manager) (d : list Z) (g : Z) (x : string) (v : Z).
Context (Hv : volume_ok f d) (Hg : is_group f g).
Context (Hx : x ∈ ["bg_free_blocks_count_lo"; "bg_free_inodes_count_lo"; "bg_used_dirs_count_lo"]).
Let d' := poke_desc f g x v d.

Lemma ct_own : own f x.
Proof using Hv Hg Hx.
  clear d'. pose proof (df_size f d g (vo_desc f d Hv g Hg)). unfold own. rewrite !elem_of_cons, elem_of_nil in Hx.
  destruct Hx as [->|[->|[->|[]]]]; cbn; lia.
Qed.

Lemma ct_member g' y : is_group f g' → own f y → g' ≠ g ∨ y ≠ x → desc_member f d' g' y = desc_member f d g' y.
Proof using Hv Hg Hx.
  intros Hg' Hy Hne. apply poke_desc_other; [apply (vo_geometry f d Hv)|by apply (vo_desc f d Hv)| |done|apply ct_own|done].
  by apply (vo_desc f d Hv).
Qed.

Lemma ct_desc_block g' lo hi : is_group f g' → lo ≠ x → hi ≠ x →
  offset_of Ext4GroupDesc lo + Z.of_nat (width_of Ext4GroupDesc lo) ≤ 32 →
  desc_block f lo hi (desc f d' g') = desc_block f lo hi (desc f d g').
Proof using Hv Hg Hx.
  intros Hg' Hlo Hhi Ho. pose proof (df_size f d g (vo_desc f d Hv g Hg)).
  pose proof (offset_bounds Ext4GroupDesc hi) as Hb. change (sizeof Ext4GroupDesc) with 64 in Hb.
  unfold desc_block. fold (desc_member f d' g' lo) (desc_member f d g' lo) (desc_member f d' g' hi) (desc_member f d g' hi).
  rewrite (ct_member g' lo); [|done|unfold own; lia|by right].
  destruct (check_feature_incompat f _) eqn:E; [|done].
  apply (vo_wide f d Hv) in E. rewrite (ct_member g' hi); [done|done|unfold own; lia|by right].
Qed.

Lemma ct_places : same_places f d d'.
Proof using Hv Hg Hx.
  pose proof (vo_geometry f d Hv) as Hgeo. pose proof (vo_desc f d Hv g Hg) as Hd.
  constructor; [by apply len_poke_desc|apply (poke_desc_geometry f d g x v Hgeo Hd)|..]; intros g' Hg'.
  all: assert (Hx' := Hx); rewrite !elem_of_cons, elem_of_nil in Hx';
    apply ct_desc_block; [done|by destruct Hx' as [->|[->|[->|[]]]]..|by vm_compute].
Qed.

Lemma ct_other b : on_disk f d b → b ≠ desc_blk f g → block f d' b = block f d b.
Proof using Hv Hg. intros Hb Hne. by apply poke_desc_block; [apply (vo_geometry f d Hv)|apply (vo_desc f d Hv)|..]. Qed.

Lemma ct_role b r : has_role f d b r → r ≠ Descriptors → block f d' b = block f d b.
Proof using Hv Hg.
  intros Hr Hne. apply ct_other; [by eapply role_block|].
  apply (roles_differ f d _ _ r Descriptors); [done|done|by exists g|done].
Qed.

Lemma ct_used b : in_volume f b → used f d' b = used f d b.
Proof using Hv Hg Hx.
  intros Hb. assert (Hgb : is_group f (group_in f b)) by (apply block_group; [apply (vo_groups f d Hv)|done]).
  apply used_block; [apply ct_places|done|]. by apply (ct_role _ (BlockBitmap (group_in f b))).
Qed.
End counts.

(** ** The operations, without a journal *)

Section operations.
Context {W : Type} `{!BlockDevice W, !Allocator W, !StoreLaws W}.
Context (f : Ext4Manager) (Hj : s_journal_inum f = 0).
Implicit Types s : store.
Implicit Types d : list Z.

Lemma runs_journal_write s b bs : geometry_ok f (disk s) → on_disk f (disk s) b → len bs = block_size f →
  Forall byte bs → runs (journal_write_block f b bs) s f (set_disk (put_block f b bs (disk s)) s).
Proof using Hj.
  intros Hg Hb El Hbs. unfold journal_write_block. rewrite Hj. cbn [Z.eqb negb].
  eapply runs_bind; [by apply runs_write_block|apply runs_ret].
Qed.

Lemma runs_write_group_desc s g de : geometry_ok f (disk s) → desc_fits f (disk s) g → block_size f ≤ quota s →
  len de = 64 → Forall byte de →
  runs (write_group_desc f g de) s f (set_disk (splice (desc_addr f g) de (disk s)) s).
Proof using Hj.
  intros Hg Hd Hq El Hb. destruct (desc_place_ok f _ g Hg Hd) as [E H0]. destruct Hd as [D1 D2 D3 D4 D5].
  unfold write_group_desc. eapply runs_lift; [exact E|]. cbn beta iota.
  apply runs_buffer; [done..|]. intros p Hp Hl.
  eapply runs_lift; [apply put_bytes_ok; rewrite ?len_block by done; lia|].
  eapply runs_bind; [apply runs_journal_write; [done|done| |]|].
  - rewrite len_splice; rewrite ?len_block by done; lia.
  - apply Forall_splice; [done|by apply block_bytes].
  - rewrite set_disk_add. apply runs_kfree; [done|]. cbn [disk add_buffer].
    rewrite put_block_part by (done || lia). apply runs_ret.
Qed.

(** The first clear bit of a bitmap, if any, is set on the disk. *)
Lemma runs_claim_bit s b n : geometry_ok f (disk s) → on_disk f (disk s) b → block_size f ≤ quota s →
  0 ≤ n ≤ 8 * block_size f → let bm := block f (disk s) b in
  ∃ r, match r with
    | Some i => (0 ≤ i < n ∧ bit_at bm i = false ∧ ∀ j, 0 ≤ j < i → bit_at bm j = true) ∧
        runs (claim_bit f b n) s (Some i, f) (set_disk (put_block f b (set_bit_at i true bm) (disk s)) s)
    | None => (∀ j, 0 ≤ j < n → bit_at bm j = true) ∧ runs (claim_bit f b n) s (None, f) s
    end.
Proof using Hj.
  intros Hg Hb Hq Hn bm. pose proof (len_block f _ b Hg Hb) as El.
  assert (Hbm : Forall byte bm) by by apply block_bytes.
  destruct (find_clear_spec bm (Z.to_nat n) 0) as (r & Er & Hr); [done|lia|unfold bm; lia|].
  rewrite Z2Nat.id, Z.add_0_l in Hr by lia. exists r. destruct r as [i|]; (split; [done|]).
  - destruct Hr as (Hi & _ & _). assert (Hi8 : i / 8 < len bm) by (unfold bm; apply Z.div_lt_upper_bound; lia).
    unfold claim_bit. apply runs_buffer; [done..|]. intros p Hp Hl. eapply runs_lift; [exact Er|]. cbn beta iota.
    eapply runs_lift; [by apply put_bit_ok; [lia|]|].
    eapply runs_bind; [apply runs_journal_write; [done|done| |]|].
    + fold bm. rewrite len_set_bit by (done || lia). done.
    + by apply set_bit_bytes.
    + rewrite set_disk_add. apply runs_kfree; [done|]. apply runs_ret.
  - unfold claim_bit. apply runs_buffer; [done..|]. intros p Hp Hl. eapply runs_lift; [exact Er|]. cbn beta iota.
    apply runs_kfree; [done|]. apply runs_ret.
Qed.

(** Writing a descriptor with one member changed. *)
Lemma put_desc_member d g x v : geometry_ok f d → desc_fits f d g →
  splice (desc_addr f g) (set_member Ext4GroupDesc x v (desc f d g)) d = poke_desc f g x v d.
Proof.
  intros Hg Hd. destruct (desc_bounds f d g Hg Hd). pose proof (offset_bounds Ext4GroupDesc x) as Ho.
  change (sizeof Ext4GroupDesc) with 64 in Ho. rewrite desc_sub by done. unfold set_member, poke_desc.
  apply splice_splice_sub; rewrite ?len_le; lia.
Qed.
End operations.

(** ** A block allocated *)

Definition free_count (f : Ext4Manager) (d : list Z) (g : Z) : Z := desc_member f d g "bg_free_blocks_count_lo".

(** The groups without free blocks by their count, whatever the bitmap says, are passed
    over. *)
Definition available (f : Ext4Manager) (d : list Z) (b : Z) : Prop :=
  in_volume f b ∧ used f d b = false ∧ 0 < free_count f d (group_in f b).

(** The disk with the bit of block [b] set and its group's count one less: two places. *)
Definition block_taken (f : Ext4Manager) (d : list Z) (b : Z) : list Z :=
  let g := group_in f b in
  poke_desc f g "bg_free_blocks_count_lo" (free_count f d g + -1)
    (put_block f (bbm f d g) (set_bit_at (index_in f b) true (block f d (bbm f d g))) d).
Definition one_block_less (f : Ext4Manager) : Ext4Manager :=
  set_sb (add_member Ext4Superblock "s_free_blocks_count_lo" (-1) (sb f)) f.

Record allocated (f : Ext4Manager) (d d' : list Z) (b : Z) : Prop := {
  ac_volume : volume_ok f d';
  ac_places : same_places f d d';
  ac_available : available f d b;
  ac_first x : available f d x → b ≤ x;
  ac_used x : in_volume f x → used f d' x = if decide (x = b) then true else used f d x;
  ac_count g : is_group f g →
    free_count f d' g = if decide (g = group_in f b) then free_count f d g - 1 else free_count f d g;
  ac_block x : on_disk f d x → (∀ g, is_group f g → x ≠ desc_blk f g ∧ x ≠ bbm f d g) → block f d' x = block f d x;
  ac_disk : d' = block_taken f d b
}.

Section allocate.
Context {W : Type} `{!BlockDevice W, !Allocator W, !StoreLaws W}.
Context (f : Ext4Manager) (Hj : s_journal_inum f = 0).
Implicit Types s : store.
Implicit Types d : list Z.

Lemma count_range d g : volume_ok f d → is_group f g → 0 ≤ free_count f d g < 2 ^ 16.
Proof. intros Hv Hg. apply (member_range Ext4GroupDesc "bg_free_blocks_count_lo"). apply Forall_sub, block_bytes, Hv. Qed.

(** The block with bit [i] of group [g]. *)
Lemma block_of_bit d g i : volume_ok f d → is_group f g → 0 ≤ i < blocks_per_group f →
  let b := g * blocks_per_group f + i + s_first_data_block f in
  in_volume f b ∧ group_in f b = g ∧ index_in f b = i.
Proof.
  intros Hv Hg Hi b. unfold in_volume, group_in, index_in, is_group in *. destruct (vo_groups f d Hv) as [Hp _].
  assert (E : b - s_first_data_block f = g * blocks_per_group f + i) by (unfold b; lia). rewrite E.
  split; [unfold b; nia|]. split.
  - rewrite Z.div_add_l by lia. rewrite Z.div_small by lia. lia.
  - rewrite Z.add_comm, Z.mod_add by lia. by apply Z.mod_small.
Qed.

Lemma bit_of_block d b : volume_ok f d → in_volume f b →
  b = group_in f b * blocks_per_group f + index_in f b + s_first_data_block f.
Proof.
  intros Hv Hb. destruct (vo_groups f d Hv) as [Hp _]. unfold group_in, index_in.
  pose proof (Z.div_mod (b - s_first_data_block f) (blocks_per_group f) ltac:(lia)). lia.
Qed.

(** The two changes of the disk that an allocation makes. *)
Section step.
Context (d : list Z) (b : Z) (Hv : volume_ok f d) (Hb : available f d b).
Let g := group_in f b.
Let d1 := put_block f (bbm f d g) (set_bit_at (index_in f b) true (block f d (bbm f d g))) d.
Let d2 := poke_desc f g "bg_free_blocks_count_lo" (free_count f d g + -1) d1.

Lemma st_group : is_group f g.
Proof using Hv Hb. destruct Hb as (H & _). apply block_group; [apply (vo_groups f d Hv)|done]. Qed.

Lemma st_volume1 : volume_ok f d1.
Proof using Hv Hb.
  destruct Hb as (H1 & H2 & _). apply (sp_volume f d d1 Hv (bm_places f d b true Hv H1)).
  - intros x r Hr. destruct (vo_meta f d Hv x r Hr) as [Hx Hu]. unfold d1, g.
    rewrite (bm_used f d b true Hv H1) by done. by destruct (decide (x = b)).
  - intros x Hx. unfold d1, g. rewrite (bm_used f d b true Hv H1) by done.
    destruct (decide (x = b)); [done|]. by apply (vo_free f d Hv).
Qed.

Lemma st_desc1 g' : is_group f g' → desc f d1 g' = desc f d g'.
Proof using Hv Hb.
  destruct Hb as (H1 & _ & _). intros Hg'. unfold desc. f_equal. unfold d1, g.
  apply (bm_other f d b true Hv H1).
  - apply (df_disk f d g'), (vo_desc f d Hv g' Hg').
  - apply (roles_differ f d _ _ Descriptors (BlockBitmap (group_in f b))); [done|by exists g'|by apply bm_role|done].
Qed.

Lemma st_allocated : (∀ x, available f d x → b ≤ x) → allocated f d d2 b.
Proof using Hv Hb.
  intros Hfirst. pose proof st_volume1 as Hv1. pose proof st_group as Hg. pose proof Hb as (H1 & H2 & H3).
  assert (Hx : "bg_free_blocks_count_lo" ∈ ["bg_free_blocks_count_lo"; "bg_free_inodes_count_lo"; "bg_used_dirs_count_lo"]) by by left.
  pose proof (bm_places f d b true Hv H1) as Hp1. fold g d1 in Hp1.
  pose proof (ct_places f d1 g "bg_free_blocks_count_lo" (free_count f d g + -1) Hv1 Hg Hx) as Hp2. fold d2 in Hp2.
  assert (Hu : ∀ x, in_volume f x → used f d2 x = if decide (x = b) then true else used f d x).
  { intros x Hxv. unfold d2. rewrite (ct_used f d1 g _ _ Hv1 Hg Hx) by done. by apply (bm_used f d b true Hv H1). }
  assert (Hc : ∀ g', is_group f g' → free_count f d1 g' = free_count f d g').
  { intros g' Hg'. unfold free_count, desc_member. by rewrite st_desc1. }
  constructor; try done.
  - apply (sp_volume f d d2 Hv); [by eapply same_places_trans| |].
    + intros x r Hr. destruct (vo_meta f d Hv x r Hr) as [Hxv Hux]. rewrite Hu by done. by destruct (decide _).
    + intros x Hxv. rewrite Hu by done. destruct (decide _); [done|]. by apply (vo_free f d Hv).
  - by eapply same_places_trans.
  - intros g' Hg'. pose proof (count_range d g Hv Hg). unfold free_count at 1, d2. destruct (decide (g' = group_in f b)) as [->|Hne].
    + rewrite poke_desc_same; [|apply (vo_geometry f d1 Hv1)|by apply (vo_desc f d1 Hv1)].
      fold g. change (2 ^ (8 * _)) with (2 ^ 16). unfold g in *. rewrite Z.mod_small by lia. lia.
    + rewrite (ct_member f d1 g _ _ Hv1 Hg Hx); [by apply Hc|done|by apply (ct_own f d1 g _ Hv1 Hg Hx)|by left].
  - intros x Hxd Hxn. destruct (Hxn g Hg) as [N1 N2]. unfold d2. rewrite (ct_other f d1 g _ _ Hv1 Hg).
    + by apply (bm_other f d b true Hv H1).
    + eapply on_disk_len; [apply Hp1|done].
    + done.
Qed.
End step.

(** The group [g] with a clear bit [i]: what the code does there. *)
Lemma runs_allocate_here n s g i b : volume_ok f (disk s) → block_size f ≤ quota s → is_group f g →
  0 < free_count f (disk s) g → b = g * blocks_per_group f + i + s_first_data_block f →
  0 ≤ i < blocks_per_group f → bit_at (block f (disk s) (bbm f (disk s) g)) i = false →
  (∀ j, 0 ≤ j < i → bit_at (block f (disk s) (bbm f (disk s) g)) j = true) →
  (∀ x, available f (disk s) x → g ≤ group_in f x) →
  ∃ d', runs (allocate_block_from (S n) g f) s (b, one_block_less f) (set_disk d' s) ∧ same_fs f (one_block_less f) ∧
    1 ≤ b ∧ allocated f (disk s) d' b.
Proof using Hj.
  intros Hv Hq Hg Hc Eb Hi Hbit Hlow Hgr. pose proof (vo_geometry _ _ Hv) as Hgeo.
  destruct (block_of_bit (disk s) g i Hv Hg Hi) as (B1 & B2 & B3). rewrite <- Eb in B1, B2, B3.
  assert (Ha : available f (disk s) b).
  { split; [done|]. unfold used. by rewrite B2, B3. }
  assert (Hfirst : ∀ x, available f (disk s) x → b ≤ x).
  { intros x Hx. pose proof Hx as (X1 & X2 & X3). pose proof (Hgr x Hx) as Hle.
    pose proof (bit_of_block (disk s) x Hv X1) as Ex. destruct (vo_groups _ _ Hv) as [Hp _].
    assert (0 ≤ index_in f x < blocks_per_group f) by (apply Z.mod_pos_bound; lia).
    destruct (decide (group_in f x = g)) as [E|]; [|nia].
    unfold used in X2. rewrite E in X2. destruct (decide (index_in f x < i)); [|nia].
    by rewrite Hlow in X2 by lia. }
  pose proof (st_allocated (disk s) b Hv Ha Hfirst) as Hal. pose proof (st_volume1 (disk s) b Hv Ha) as Hv1.
  pose proof (st_desc1 (disk s) b Hv Ha g Hg) as Ed. rewrite B2, B3 in Hal, Hv1, Ed.
  set (d1 := put_block f _ _ _) in *. cbn [allocate_block_from].
  eexists. split; [|split; [|split; [|exact Hal]]].
  - eapply runs_bind; [apply runs_read_group_desc; [done|by apply (vo_desc _ _ Hv)|done]|].
    fold (free_count f (disk s) g). rewrite (proj2 (Z.ltb_lt _ _)) by exact Hc.
    destruct (runs_claim_bit f Hj s (bbm f (disk s) g) (blocks_per_group f)) as (r & Hr);
      [done|by apply (vo_bbm _ _ Hv)|done|destruct (vo_groups _ _ Hv); lia|].
    destruct r as [k|]; destruct Hr as [Hr Hclaim].
    2: { rewrite Hr in Hbit by done. done. }
    assert (k = i) as ->.
    { destruct Hr as (R1 & R2 & R3). destruct (Z.lt_total k i) as [H|[H|H]]; [|done|].
      - by rewrite Hlow in R2 by lia.
      - by rewrite R3 in Hbit by lia. }
    eapply runs_bind; [exact Hclaim|]. cbn beta iota. fold d1.
    eapply runs_bind; [apply (runs_write_group_desc f Hj); [apply (vo_geometry _ _ Hv1)|by apply (vo_desc _ _ Hv1)|done| |]|].
    + unfold add_member. rewrite len_set_member; [apply len_desc; [done|by apply (vo_desc _ _ Hv)]|].
      rewrite len_desc; [done|done|by apply (vo_desc _ _ Hv)].
    + apply set_member_bytes, Forall_sub, block_bytes, Hgeo.
    + cbn [disk set_disk]. unfold add_member. rewrite <- Ed at 2. rewrite put_desc_member;
        [|apply (vo_geometry _ _ Hv1)|by apply (vo_desc _ _ Hv1)].
      rewrite set_disk_set. change (s_first_data_block (set_sb _ f)) with (member Ext4Superblock "s_first_data_block" (add_member Ext4Superblock "s_free_blocks_count_lo" (-1) (sb f))).
      unfold add_member at 1. rewrite member_set_other; [|rewrite (vo_sb _ _ Hv); done|done].
      cbn [blocks_per_group set_sb]. fold (s_first_data_block f). rewrite <- Eb.
      rewrite (wrap_small 64); [apply runs_ret|].
      destruct (vo_numbers _ _ Hv). unfold in_volume in B1. pose proof (df_first _ _ _ (vo_desc _ _ Hv g Hg)). lia.
  - apply same_fs_count; [apply (vo_sb _ _ Hv)|by left].
  - destruct Ha as (A1 & A2 & _). by apply (vo_free _ _ Hv b A1 A2).
Qed.

Lemma runs_allocate_from n : ∀ s g, volume_ok f (disk s) → block_size f ≤ quota s →
  0 ≤ g → g + Z.of_nat n = groups_count f → (∀ x, available f (disk s) x → g ≤ group_in f x) →
  ∃ b f' d', runs (allocate_block_from n g f) s (b, f') (set_disk d' s) ∧ same_fs f f' ∧
    ((1 ≤ b ∧ allocated f (disk s) d' b ∧ f' = one_block_less f) ∨
     (b = 0 ∧ f' = f ∧ d' = disk s ∧ ∀ x, ¬ available f (disk s) x)).
Proof using Hj.
  induction n as [|n IH]; intros s g Hv Hq Hg0 Hgn Hgr; cbn [allocate_block_from].
  - exists 0, f, (disk s). rewrite set_disk_same. split; [apply runs_ret|]. split; [apply same_fs_refl|]. right.
    split_and!; try done. intros x Hx. pose proof (Hgr x Hx). destruct Hx as (X1 & _).
    pose proof (block_group f x (proj1 (proj1 (vo_groups _ _ Hv))) X1) as [_ ?]. lia.
  - assert (Hg : is_group f g) by (unfold is_group; lia). pose proof (vo_geometry _ _ Hv) as Hgeo.
    assert (Hskip : (∀ x, available f (disk s) x → group_in f x ≠ g) →
      ∀ x, available f (disk s) x → g + 1 ≤ group_in f x).
    { intros Hne x Hx. pose proof (Hgr x Hx). specialize (Hne x Hx). lia. }
    destruct (Z.ltb_spec 0 (free_count f (disk s) g)) as [Hc|Hc].
    2: { destruct (IH s (g + 1)) as (b & f' & d' & Hr & Hs); [done|done|lia|lia| |].
         { apply Hskip. intros x (_ & _ & X3) E. rewrite E in X3. lia. }
         exists b, f', d'. split; [|done]. eapply runs_bind; [apply runs_read_group_desc; [done|by apply (vo_desc _ _ Hv)|done]|].
         fold (free_count f (disk s) g). by rewrite (proj2 (Z.ltb_ge _ _)). }
    destruct (runs_claim_bit f Hj s (bbm f (disk s) g) (blocks_per_group f)) as (r & Hr);
      [done|by apply (vo_bbm _ _ Hv)|done|destruct (vo_groups _ _ Hv); lia|].
    destruct r as [i|]; destruct Hr as [Hr Hclaim].
    + destruct Hr as (R1 & R2 & R3).
      destruct (runs_allocate_here n s g i _ Hv Hq Hg Hc eq_refl R1 R2 R3 Hgr) as (d' & H1 & H2 & H3 & H4).
      do 3 eexists. split; [exact H1|]. split; [exact H2|]. by left.
    + destruct (IH s (g + 1)) as (b & f' & d' & Hrun & Hs); [done|done|lia|lia| |].
      { apply Hskip. intros x (X1 & X2 & _) E. unfold used in X2. rewrite E, Hr in X2; [done|].
        apply Z.mod_pos_bound. apply (vo_groups _ _ Hv). }
      exists b, f', d'. split; [|done].
      eapply runs_bind; [apply runs_read_group_desc; [done|by apply (vo_desc _ _ Hv)|done]|].
      fold (free_count f (disk s) g). rewrite (proj2 (Z.ltb_lt _ _)) by done.
      eapply runs_bind; [exact Hclaim|]. done.
Qed.

Lemma runs_allocate_block s : volume_ok f (disk s) → block_size f ≤ quota s →
  ∃ b f' d', runs (allocate_block f) s (b, f') (set_disk d' s) ∧ same_fs f f' ∧
    ((1 ≤ b ∧ allocated f (disk s) d' b ∧ f' = one_block_less f) ∨
     (b = 0 ∧ f' = f ∧ d' = disk s ∧ ∀ x, ¬ available f (disk s) x)).
Proof using Hj.
  intros Hv Hq. destruct (decide (0 ≤ groups_count f)) as [H0|Hneg].
  - apply runs_allocate_from; [done|done|done|lia|]. intros x (X1 & _).
    apply (block_group f x (proj1 (proj1 (vo_groups _ _ Hv))) X1).
  - exists 0, f, (disk s). rewrite set_disk_same. split.
    { unfold allocate_block. replace (Z.to_nat (groups_count f)) with O by lia. apply runs_ret. }
    split; [apply same_fs_refl|]. right. split_and!; try done. intros x (X1 & _).
    pose proof (block_group f x (proj1 (proj1 (vo_groups _ _ Hv))) X1) as [? ?]. lia.
Qed.
End allocate.

(** ** The operations, with a journal *)

Section journal.
Context {W : Type} `{!BlockDevice W, !Allocator W, !StoreLaws W}.
Implicit Types f : Ext4Manager.
Implicit Types s : store.

(** What logging leaves as it is: the disk, and all of the object but the journal's list
    and the counts, with [n] more blocks on the list. *)
Record logged f s n f' s' : Prop := {
  lg_disk : disk s' = disk s;
  lg_quota : quota s' = quota s;
  lg_live : live s ⊆ live s';
  lg_fs : same_fs f f';
  lg_size : journal_block_size (journal f') = journal_block_size (journal f);
  lg_trans : len (current_trans (journal f')) = len (current_trans (journal f)) + n
}.

Lemma logged_refl f s : logged f s 0 f s.
Proof. constructor; [done..|apply same_fs_refl|done|lia]. Qed.

Lemma logged_trans f s n f1 s1 m f2 s2 : logged f s n f1 s1 → logged f1 s1 m f2 s2 → logged f s (n + m) f2 s2.
Proof.
  intros [A1 A2 A3 A4 A5 A6] [B1 B2 B3 B4 B5 B6].
  constructor; [congruence|congruence|set_solver|by eapply same_fs_trans|congruence|lia].
Qed.

Lemma logged_count f s n f' s' x k : len (sb f') = 1024 → x ∈ ["s_free_blocks_count_lo"; "s_free_inodes_count"] →
  logged f s n f' s' → logged f s n (set_sb (add_member Ext4Superblock x k (sb f')) f') s'.
Proof.
  intros El Hx [A1 A2 A3 A4 A5 A6]. constructor; try done.
  eapply same_fs_trans; [exact A4|by apply same_fs_count].
Qed.

(** The log has room for [n] blocks of the file system's size. *)
Definition log_room f (n : Z) : Prop :=
  s_journal_inum f ≠ 0 ∧ journal_block_size (journal f) = block_size f ∧
  len (current_trans (journal f)) + n ≤ MAX_TRANS_BLOCKS.

Lemma log_room_after f s n m f' s' : logged f s n f' s' → log_room f (n + m) → log_room f' m.
Proof.
  intros [A1 A2 A3 A4 A5 A6] (R1 & R2 & R3). unfold log_room. rewrite A5, A6, (sf_inum _ _ A4).
  rewrite (sf_fields _ _ A4). split_and!; [done|done|lia].
Qed.

Lemma ensures_log f s b bs : log_room f 1 → 0 < block_size f ≤ quota s → len bs = block_size f →
  ensures (journal_write_block f b bs) s (logged f s 1).
Proof.
  intros (R1 & R2 & R3) Hq El. unfold journal_write_block. rewrite (proj2 (Z.eqb_neq _ _)) by done. cbn [negb].
  unfold log_block. rewrite (proj2 (Z.leb_gt _ _)) by lia.
  eapply ensures_step; [apply runs_ret|]. rewrite R2. apply ensures_kmalloc; [done|]. intros p Hp Hl.
  rewrite (proj2 (Z.eqb_neq _ _)) by done. pose proof (len_nonneg bs).
  eapply ensures_lift; [apply get_bytes_ok; lia|]. apply ensures_ret.
  assert (Hs : same_fs f (set_journal (with_trans (current_trans (journal f) ++ [mk_log b p (sub 0 (block_size f) bs)])
    (journal f)) f)) by by constructor.
  constructor; [done|done|apply union_subseteq_r|exact Hs|done|].
  cbn [journal set_journal current_trans with_trans]. by rewrite len_app.
Qed.

(** A buffer that the code frees while others stay in use. *)
Lemma ensures_buffer {A} f s b (k : Z → list Z → kernel W A) Q :
  geometry_ok f (disk s) → on_disk f (disk s) b → block_size f ≤ quota s →
  (∀ p, p ≠ 0 → p ∉ live s → ensures (k p (block f (disk s) b)) (add_buffer p s) Q) →
  ensures (buffer ← kmalloc (block_size f); x ← read_into f buffer b; k buffer x) s Q.
Proof.
  intros Hg Hb Hq Hk. pose proof (block_size_bounds f _ Hg). apply ensures_kmalloc; [lia|].
  intros p Hp Hl. eapply ensures_step; [by apply runs_read_blocks_into|]. by apply Hk.
Qed.

Lemma logged_free f s n f' s' p : p ∉ live s → logged f (add_buffer p s) n f' s' →
  p ∈ live s' ∧ logged f s n f' (mk_store (disk s') (live s' ∖ {[p]}) (quota s')).
Proof.
  intros Hp [A1 A2 A3 A4 A5 A6]. cbn in A3. split; [set_solver|]. constructor; try done. cbn. set_solver.
Qed.

Lemma ensures_free {A} f s n f' s' p (r : A) Q : p ∉ live s → logged f (add_buffer p s) n f' s' →
  (∀ s'', logged f s n f' s'' → Q r s'') → ensures (kfree p;; mret r) s' Q.
Proof.
  intros Hp Hl HQ. destruct (logged_free _ _ _ _ _ _ Hp Hl) as [Hin Hl'].
  eapply ensures_step; [by apply runs_kfree_in|]. apply ensures_ret. auto.
Qed.

Lemma ensures_write_group_desc f s g de : volume_ok f (disk s) → is_group f g → block_size f ≤ quota s →
  log_room f 1 → len de = 64 → ensures (write_group_desc f g de) s (logged f s 1).
Proof.
  intros Hv Hg Hq Hr El. pose proof (vo_geometry _ _ Hv) as Hgeo. pose proof (vo_desc _ _ Hv g Hg) as Hd.
  destruct (desc_place_ok f _ g Hgeo Hd) as [E H0]. destruct Hd as [D1 D2 D3 D4 D5].
  unfold write_group_desc. eapply ensures_lift; [exact E|]. cbn beta iota. pose proof (block_size_bounds f _ Hgeo).
  apply ensures_buffer; [done..|]. intros p Hp Hl.
  eapply ensures_lift; [apply put_bytes_ok; rewrite ?len_block by done; lia|].
  eapply ensures_bind.
  - apply ensures_log; [done|cbn; lia|]. rewrite len_splice; rewrite ?len_block by done; lia.
  - intros f' s' Hlog. by eapply ensures_free; [|exact Hlog|].
Qed.

Lemma ensures_claim_bit f s b n : volume_ok f (disk s) → on_disk f (disk s) b → block_size f ≤ quota s →
  log_room f 1 → 0 ≤ n ≤ 8 * block_size f → let bm := block f (disk s) b in
  ensures (claim_bit f b n) s (λ '(r, f') s',
    match r with
    | Some i => (0 ≤ i < n ∧ bit_at bm i = false ∧ ∀ j, 0 ≤ j < i → bit_at bm j = true) ∧ logged f s 1 f' s'
    | None => (∀ j, 0 ≤ j < n → bit_at bm j = true) ∧ f' = f ∧ s' = s
    end).
Proof.
  intros Hv Hb Hq Hroom Hn bm. pose proof (vo_geometry _ _ Hv) as Hgeo. pose proof (len_block f _ b Hgeo Hb) as El.
  assert (Hbm : Forall byte bm) by by apply block_bytes. pose proof (block_size_bounds f _ Hgeo).
  destruct (find_clear_spec bm (Z.to_nat n) 0) as (r & Er & Hr); [done|lia|unfold bm; lia|].
  rewrite Z2Nat.id, Z.add_0_l in Hr by lia. unfold claim_bit. apply ensures_buffer; [done..|]. intros p Hp Hl.
  eapply ensures_lift; [exact Er|]. cbn beta iota. destruct r as [i|].
  - destruct Hr as (Hi & Hr). assert (Hi8 : i / 8 < len bm) by (unfold bm; apply Z.div_lt_upper_bound; lia).
    eapply ensures_lift; [by apply put_bit_ok; [lia|]|]. eapply ensures_bind.
    + apply ensures_log; [done|cbn; lia|]. fold bm. rewrite len_set_bit by (done || lia). done.
    + intros f' s' Hlog. eapply ensures_free; [exact Hl|exact Hlog|]. intros s'' Hlog'. done.
  - eapply ensures_runs; [apply runs_kfree; [done|apply runs_ret]|]. done.
Qed.
End journal.

(** ** Allocating twice in a transaction *)

Section twice.
Context {W : Type} `{!BlockDevice W, !Allocator W, !StoreLaws W}.
Implicit Types f : Ext4Manager.
Implicit Types s : store.

Lemma ensures_allocate_from n : ∀ f s g b, volume_ok f (disk s) → block_size f ≤ quota s → log_room f 2 →
  available f (disk s) b → (∀ x, available f (disk s) x → b ≤ x) →
  0 ≤ g ≤ group_in f b → g + Z.of_nat n = groups_count f →
  ensures (allocate_block_from n g f) s (λ '(x, f') s', x = b ∧ logged f s 2 f' s').
Proof.
  induction n as [|n IH]; intros f s g b Hv Hq Hroom Ha Hlow Hg0 Hgn.
  { destruct Ha as (A1 & _). pose proof (block_group f b (proj1 (proj1 (vo_groups _ _ Hv))) A1) as [_ ?]. lia. }
  pose proof Ha as (A1 & A2 & A3). pose proof (vo_geometry _ _ Hv) as Hgeo.
  assert (Hg : is_group f g) by (unfold is_group; lia). cbn [allocate_block_from].
  assert (Hnext : ¬ (∃ i, 0 ≤ i < blocks_per_group f ∧ 0 < free_count f (disk s) g ∧
      bit_at (block f (disk s) (bbm f (disk s) g)) i = false) → group_in f b ≠ g).
  { intros Hno E. apply Hno. exists (index_in f b). split; [apply Z.mod_pos_bound, (vo_groups _ _ Hv)|].
    rewrite <- E. by split. }
  eapply ensures_step; [apply runs_read_group_desc; [done|by apply (vo_desc _ _ Hv)|done]|].
  fold (free_count f (disk s) g). destruct (Z.ltb_spec 0 (free_count f (disk s) g)) as [Hc|Hc].
  2: { rewrite (proj2 (Z.ltb_ge _ _)) by exact Hc. apply IH; try done; [|lia]. assert (group_in f b ≠ g); [|lia]. apply Hnext. intros (i & _ & ? & _). lia. }
  rewrite (proj2 (Z.ltb_lt _ _)) by exact Hc. eapply ensures_bind.
  { apply (ensures_claim_bit f s (bbm f (disk s) g) (blocks_per_group f) Hv); [by apply (vo_bbm _ _ Hv)|done| |].
    - destruct Hroom as (R1 & R2 & R3). split_and!; [done|done|lia].
    - destruct (vo_groups _ _ Hv); lia. }
  intros [[i|] f1] s1 H1; cbn beta iota in H1.
  - destruct H1 as ((I1 & I2 & I3) & Hlog). cbn beta iota.
    destruct (block_of_bit f (disk s) g i Hv Hg I1) as (B1 & B2 & B3). set (x := _ + _ + _) in *.
    assert (Ex : x = b).
    { assert (Hax : available f (disk s) x). { split; [done|]. unfold used. by rewrite B2, B3. }
      pose proof (Hlow x Hax) as Hle. pose proof (bit_of_block f (disk s) b Hv A1) as Eb.
      destruct (vo_groups _ _ Hv) as [Hp _].
      assert (0 ≤ index_in f b < blocks_per_group f) by (apply Z.mod_pos_bound; lia).
      assert (group_in f b = g) as Egb.
      { assert (group_in f b < g + 1); [|lia]. apply Z.div_lt_upper_bound; [lia|]. unfold x in Hle. lia. }
      unfold used in A2. rewrite Egb in A2. destruct (decide (index_in f b < i)); [by rewrite I3 in A2 by lia|].
      unfold x in *. rewrite Egb in Eb. lia. }
    pose proof Hlog as [L1 L2 L3 L4 L5 L6]. eapply ensures_bind.
    + apply ensures_write_group_desc.
      * rewrite L1. by apply (same_volume f f1).
      * by apply (same_is_group f f1).
      * rewrite L2, (sf_fields _ _ L4). done.
      * by eapply (log_room_after f s 1 1).
      * pose proof (len_desc f _ g Hgeo (vo_desc _ _ Hv g Hg)) as Eg. unfold add_member. rewrite len_set_member; [done|by rewrite Eg].
    + intros f2 s2 Hlog2. apply ensures_ret. pose proof (logged_trans _ _ _ _ _ _ _ _ Hlog Hlog2) as Hlog3.
      assert (El : len (sb f2) = 1024) by (rewrite (sf_len _ _ (lg_fs _ _ _ _ _ Hlog3)); apply (vo_sb _ _ Hv)).
      assert (Hf3 : logged f s 2 (set_sb (add_member Ext4Superblock "s_free_blocks_count_lo" (-1) (sb f2)) f2) s2).
      { apply logged_count; [done|by left|done]. }
      split; [|exact Hf3]. pose proof (lg_fs _ _ _ _ _ Hf3) as Hs3.
      rewrite (sf_first _ _ Hs3). rewrite (sf_fields _ _ Hs3). cbn [blocks_per_group set_sb set_journal].
      fold x. rewrite wrap_small; [done|]. destruct (vo_numbers _ _ Hv). unfold in_volume in B1.
      pose proof (df_first _ _ _ (vo_desc _ _ Hv g Hg)). lia.
  - destruct H1 as (Hnone & -> & ->). cbn beta iota. apply IH; try done; [|lia].
    assert (group_in f b ≠ g); [|lia]. apply Hnext. intros (i & Hi & _ & Hb). by rewrite Hnone in Hb.
Qed.

Lemma ensures_allocate_logged f s b : volume_ok f (disk s) → block_size f ≤ quota s → log_room f 2 →
  available f (disk s) b → (∀ x, available f (disk s) x → b ≤ x) →
  ensures (allocate_block f) s (λ '(x, f') s', x = b ∧ logged f s 2 f' s').
Proof.
  intros Hv Hq Hroom Ha Hlow. pose proof Ha as (A1 & _).
  pose proof (block_group f b (proj1 (proj1 (vo_groups _ _ Hv))) A1) as [? ?].
  apply ensures_allocate_from; try done; lia.
Qed.

(** With a journal, allocating a block twice before the transaction is committed gives the
    same block both times: the bit that the first call set is in the journal's list,
    and the second call reads the bitmap of the disk. *)
Theorem journalled_allocation_repeats f s b : volume_ok f (disk s) → block_size f ≤ quota s → log_room f 4 →
  available f (disk s) b → (∀ x, available f (disk s) x → b ≤ x) →
  ensures ('(x, f1) ← allocate_block f; '(y, f2) ← allocate_block f1; mret (x, y)) s
    (λ '(x, y) s', x = b ∧ y = b ∧ disk s' = disk s).
Proof.
  intros Hv Hq Hroom Ha Hlow. eapply ensures_bind.
  - apply ensures_allocate_logged; try done. destruct Hroom as (R1 & R2 & R3). split_and!; [done|done|lia].
  - intros [x f1] s1 [-> Hlog]. pose proof Hlog as [L1 L2 L3 L4 L5 L6]. cbn beta iota. eapply ensures_bind.
    + apply (ensures_allocate_logged f1 s1 b).
      * rewrite L1. by apply (same_volume f f1).
      * rewrite L2, (sf_fields _ _ L4). done.
      * by eapply (log_room_after f s 2 2).
      * rewrite L1. destruct Ha as (A1 & A2 & A3). split; [by apply (same_in_volume f f1)|].
        rewrite (same_used f f1 L4). split; [done|]. unfold free_count, desc_member. rewrite (same_desc f f1 L4).
        unfold group_in. rewrite (sf_first _ _ L4), (sf_fields _ _ L4). exact A3.
      * intros y (Y1 & Y2 & Y3). apply Hlow. rewrite L1 in *. split; [by apply (same_in_volume f f1)|].
        rewrite (same_used f f1 L4) in Y2. split; [done|]. unfold free_count, desc_member in Y3.
        rewrite (same_desc f f1 L4) in Y3. unfold group_in in Y3. rewrite (sf_first _ _ L4), (sf_fields _ _ L4) in Y3. exact Y3.
    + intros [y f2] s2 [-> [M1 _ _ _ _ _]]. apply ensures_ret. split_and!; [done|done|congruence].
Qed.
End twice.

(** ** A block freed *)

Record freed (f : Ext4Manager) (d d' : list Z) (b : Z) : Prop := {
  fr_volume : volume_ok f d';
  fr_places : same_places f d d';
  fr_used x : in_volume f x → used f d' x = if decide (x = b) then false else used f d x;
  fr_count g : is_group f g →
    free_count f d' g = if decide (g = group_in f b) then wrap 16 (free_count f d g + 1) else free_count f d g;
  fr_block x : on_disk f d x → (∀ g, is_group f g → x ≠ desc_blk f g ∧ x ≠ bbm f d g) → block f d' x = block f d x
}.

Section free.
Context {W : Type} `{!BlockDevice W, !Allocator W, !StoreLaws W}.
Context (f : Ext4Manager) (Hj : s_journal_inum f = 0).
Implicit Types s : store.

Section step.
Context (d : list Z) (b : Z) (Hv : volume_ok f d) (Hb : in_volume f b) (Hpos : 1 ≤ b) (Hd : on_disk f d b).
Context (Hr : ∀ r, ¬ has_role f d b r).
Let g := group_in f b.
Let d1 := put_block f (bbm f d g) (set_bit_at (index_in f b) false (block f d (bbm f d g))) d.
Let d2 := poke_desc f g "bg_free_blocks_count_lo" (free_count f d g + 1) d1.

Lemma fs_volume1 : volume_ok f d1.
Proof using Hv Hb Hpos Hd Hr.
  apply (sp_volume f d d1 Hv (bm_places f d b false Hv Hb)).
  - intros x r Hxr. destruct (vo_meta f d Hv x r Hxr) as [Hx Hu]. unfold d1, g.
    rewrite (bm_used f d b false Hv Hb) by done. destruct (decide (x = b)) as [->|]; [by destruct (Hr r)|done].
  - intros x Hx. unfold d1, g. rewrite (bm_used f d b false Hv Hb) by done.
    destruct (decide (x = b)) as [->|]; [done|]. by apply (vo_free f d Hv).
Qed.

Lemma fs_desc1 g' : is_group f g' → desc f d1 g' = desc f d g'.
Proof using Hv Hb.
  intros Hg'. unfold desc. f_equal. unfold d1, g. apply (bm_other f d b false Hv Hb).
  - apply (df_disk f d g'), (vo_desc f d Hv g' Hg').
  - apply (roles_differ f d _ _ Descriptors (BlockBitmap (group_in f b))); [done|by exists g'|by apply bm_role|done].
Qed.

Lemma fs_freed : freed f d d2 b.
Proof using Hv Hb Hpos Hd Hr.
  pose proof fs_volume1 as Hv1. assert (Hg : is_group f g) by by apply (bm_group f d).
  assert (Hx : "bg_free_blocks_count_lo" ∈ ["bg_free_blocks_count_lo"; "bg_free_inodes_count_lo"; "bg_used_dirs_count_lo"]) by by left.
  pose proof (bm_places f d b false Hv Hb) as Hp1. fold g d1 in Hp1.
  pose proof (ct_places f d1 g "bg_free_blocks_count_lo" (free_count f d g + 1) Hv1 Hg Hx) as Hp2. fold d2 in Hp2.
  assert (Hu : ∀ x, in_volume f x → used f d2 x = if decide (x = b) then false else used f d x).
  { intros x Hxv. unfold d2. rewrite (ct_used f d1 g _ _ Hv1 Hg Hx) by done. by apply (bm_used f d b false Hv Hb). }
  constructor; try done.
  - apply (sp_volume f d d2 Hv); [by eapply same_places_trans| |].
    + intros x r Hxr. destruct (vo_meta f d Hv x r Hxr) as [Hxv Hux]. rewrite Hu by done.
      destruct (decide (x = b)) as [->|]; [by destruct (Hr r)|done].
    + intros x Hxv. rewrite Hu by done. destruct (decide (x = b)) as [->|]; [done|]. by apply (vo_free f d Hv).
  - by eapply same_places_trans.
  - intros g' Hg'. unfold free_count at 1, d2. destruct (decide (g' = group_in f b)) as [->|Hne].
    + fold g. rewrite poke_desc_same; [done|apply (vo_geometry f d1 Hv1)|by apply (vo_desc f d1 Hv1)].
    + rewrite (ct_member f d1 g _ _ Hv1 Hg Hx); [|done|by apply (ct_own f d1 g _ Hv1 Hg Hx)|by left].
      unfold free_count, desc_member. by rewrite fs_desc1.
  - intros x Hxd Hxn. destruct (Hxn g Hg) as [N1 N2]. unfold d2. rewrite (ct_other f d1 g _ _ Hv1 Hg).
    + by apply (bm_other f d b false Hv Hb).
    + eapply on_disk_len; [apply Hp1|done].
    + done.
Qed.

End step.

Lemma runs_set_block_bitmap s b v : volume_ok f (disk s) → block_size f ≤ quota s → in_volume f b →
  let g := group_in f b in
  runs (set_block_bitmap f g (index_in f b) v) s f
    (set_disk (put_block f (bbm f (disk s) g) (set_bit_at (index_in f b) v (block f (disk s) (bbm f (disk s) g))) (disk s)) s).
Proof using Hj.
  intros Hv Hq Hb g. pose proof (vo_geometry _ _ Hv) as Hgeo.
  assert (Hg : is_group f g) by by apply (bm_group f (disk s)).
  pose proof (bm_index f (disk s) b Hv Hb) as [Hi Hi8]. pose proof (vo_bbm _ _ Hv g Hg) as Hd.
  unfold set_block_bitmap. eapply runs_bind; [apply runs_read_group_desc; [done|by apply (vo_desc _ _ Hv)|done]|].
  fold (bbm f (disk s) g). apply runs_buffer; [done..|].
  intros p Hp0 Hl. eapply runs_lift; [apply put_bit_ok; [lia|by rewrite len_block]|].
  eapply runs_bind; [apply (runs_journal_write f Hj); [done|done|by apply bm_new_len|]|].
  - by apply set_bit_bytes, block_bytes.
  - rewrite set_disk_add. apply runs_kfree; [done|]. apply runs_ret.
Qed.

Lemma runs_free_block s b : volume_ok f (disk s) → block_size f ≤ quota s → in_volume f b → 1 ≤ b →
  on_disk f (disk s) b → (∀ r, ¬ has_role f (disk s) b r) →
  ∃ f' d', runs (free_block f b) s f' (set_disk d' s) ∧ same_fs f f' ∧ freed f (disk s) d' b.
Proof using Hj.
  intros Hv Hq Hb Hpos Hd Hr. pose proof (vo_geometry _ _ Hv) as Hgeo.
  pose proof (fs_freed (disk s) b Hv Hb Hpos Hd Hr) as Hfr. pose proof (fs_volume1 (disk s) b Hv Hb Hpos Hd Hr) as Hv1.
  assert (Hg : is_group f (group_in f b)) by by apply (bm_group f (disk s)).
  pose proof (fs_desc1 (disk s) b Hv Hb _ Hg) as Ed. pose proof (bm_index f (disk s) b Hv Hb) as [Hi Hi8].
  destruct (vo_groups _ _ Hv) as [Hp _]. pose proof (df_first _ _ _ (vo_desc _ _ Hv _ Hg)) as Hf0.
  destruct (vo_numbers _ _ Hv) as [Hn _]. set (d1 := put_block f _ _ _) in *.
  do 2 eexists. split; [|split; [|exact Hfr]].
  - unfold free_block. unfold in_volume, is_group in *. rewrite (wrap_small 64) by lia.
    eapply runs_lift; [apply udiv_ok; lia|]. eapply runs_lift; [apply umod_ok; lia|].
    fold (group_in f b) (index_in f b).
    assert (group_in f b < 2 ^ 32).
    { unfold group_in. apply Z.div_lt_upper_bound; [lia|]. nia. }
    rewrite (wrap_small 32 (group_in f b)) by lia. rewrite (wrap_small 32) by nia.
    eapply runs_bind; [by apply runs_set_block_bitmap|].
    fold d1. eapply runs_bind; [apply runs_read_group_desc; [apply (vo_geometry _ _ Hv1)|by apply (vo_desc _ _ Hv1)|done]|].
    cbn [disk set_disk]. eapply runs_bind.
    { apply (runs_write_group_desc f Hj); [apply (vo_geometry _ _ Hv1)|by apply (vo_desc _ _ Hv1)|done| |].
      - pose proof (len_desc f d1 _ (vo_geometry _ _ Hv1) (vo_desc _ _ Hv1 _ Hg)) as Eg.
        unfold add_member. rewrite len_set_member; [done|by rewrite Eg].
      - apply set_member_bytes, Forall_sub, block_bytes. apply (vo_geometry _ _ Hv1). }
    cbn [disk set_disk]. unfold add_member. rewrite put_desc_member;
      [|apply (vo_geometry _ _ Hv1)|by apply (vo_desc _ _ Hv1)].
    rewrite set_disk_set. rewrite Ed. apply runs_ret.
  - apply same_fs_count; [apply (vo_sb _ _ Hv)|by left].
Qed.
End free.

(** ** The results *)

Section results.
Context {W : Type} `{!BlockDevice W, !Allocator W, !StoreLaws W}.
Context (f : Ext4Manager) (Hj : s_journal_inum f = 0).
Implicit Types s : store.
Implicit Types d : list Z.

(** C22. Without a journal, [allocate_block] answers the lowest block that is free by its
    bitmap in a group with a free count; the disk it leaves is the one before with that bit
    set and that count one less, so that no other bit, count or block changes, and the object's
    own count is one less too.  It answers 0, changing nothing, if there is none. *)
Theorem allocate_block_takes_lowest s : volume_ok f (disk s) → block_size f ≤ quota s →
  ∃ b f' d', runs (allocate_block f) s (b, f') (set_disk d' s) ∧
    ((available f (disk s) b ∧ (∀ x, available f (disk s) x → b ≤ x) ∧ f' = one_block_less f ∧ d' = block_taken f (disk s) b ∧
      volume_ok f d' ∧ (∀ x, in_volume f x → used f d' x = if decide (x = b) then true else used f (disk s) x) ∧
      (∀ g, is_group f g → free_count f d' g = if decide (g = group_in f b) then free_count f (disk s) g - 1 else free_count f (disk s) g) ∧
      (∀ x, on_disk f (disk s) x → (∀ g, is_group f g → x ≠ desc_blk f g ∧ x ≠ bbm f (disk s) g) → block f d' x = block f (disk s) x)) ∨
     (b = 0 ∧ f' = f ∧ d' = disk s ∧ ∀ x, ¬ available f (disk s) x)).
Proof using Hj.
  intros Hv Hq. destruct (runs_allocate_block f Hj s Hv Hq) as (b & f' & d' & Hr & _ & Hres). exists b, f', d'. split; [done|].
  destruct Hres as [(_ & Ha & Ef)|?]; [left|by right]. split_and!; try apply Ha. done.
Qed.

Lemma allocated_no_role d d' b r : volume_ok f d → allocated f d d' b → ¬ has_role f d b r.
Proof.
  intros Hv Ha Hr. destruct (ac_available _ _ _ _ Ha) as (_ & Hu & _).
  destruct (vo_meta f d Hv b r Hr) as [_ Hu']. by rewrite Hu in Hu'.
Qed.

Lemma freed_same f1 d d' b : same_fs f f1 → freed f1 d d' b → freed f d d' b.
Proof.
  intros Hs [F1 F2 F3 F4 F5]. assert (Hs' : same_fs f1 f).
  { pose proof Hs as [S1 S2 S3 S4 S5]. constructor; try done. rewrite S1. by destruct f. }
  constructor.
  - by apply (same_volume f1 f).
  - destruct F2 as [P1 P2 P3 P4 P5]. constructor; [done..| | |]; intros g Hg.
    + rewrite <- !(same_bbm f f1 Hs). by apply P3, (same_is_group f f1).
    + rewrite <- !(same_ibm f f1 Hs). by apply P4, (same_is_group f f1).
    + rewrite <- !(same_itb f f1 Hs). by apply P5, (same_is_group f f1).
  - intros x Hx. rewrite <- !(same_used f f1 Hs). by apply F3, (same_in_volume f f1).
  - intros g Hg. unfold free_count, desc_member in *. rewrite <- !(same_desc f f1 Hs).
    rewrite F4 by by apply (same_is_group f f1).
    assert (E : group_in f1 b = group_in f b) by (unfold group_in; rewrite (sf_first _ _ Hs); by rewrite (sf_fields _ _ Hs)).
    by rewrite E.
  - intros x Hx Hn. rewrite <- !(same_block f f1 Hs). apply F5; [by apply (same_on_disk f f1)|].
    intros g Hg. rewrite (same_bbm f f1 Hs), (same_desc_blk f f1 Hs). by apply Hn, (same_is_group f f1).
Qed.

(** Freeing a block that was just allocated. *)
Lemma runs_free_allocated s f1 d1 b : volume_ok f (disk s) → block_size f ≤ quota s → same_fs f f1 → 1 ≤ b →
  allocated f (disk s) d1 b →
  ∃ f2 d2, runs (free_block f1 b) (set_disk d1 s) f2 (set_disk d2 s) ∧ same_fs f f2 ∧ freed f d1 d2 b.
Proof using Hj.
  intros Hv Hq Hs Hb Ha. pose proof Ha as [A1 A2 (B1 & B2 & B3) A4 A5 A6 A7].
  destruct (vo_free _ _ Hv b B1 B2) as [_ Hd].
  destruct (runs_free_block f1 (eq_trans (sf_inum _ _ Hs) Hj) (set_disk d1 s) b) as (f2 & d2 & Hr2 & Hs2 & Hf2).
  { cbn [disk set_disk]. by apply (same_volume f f1). }
  { rewrite (sf_fields _ _ Hs). exact Hq. }
  { by apply (same_in_volume f f1). }
  { done. }
  { apply (same_on_disk f f1 Hs). eapply on_disk_len; [apply A2|done]. }
  { intros r Hrole%(same_role f f1 Hs). apply (sp_role f (disk s) d1 Hv A2) in Hrole.
    exact (allocated_no_role _ _ _ r Hv Ha Hrole). }
  cbn [disk set_disk] in Hf2. rewrite set_disk_set in Hr2. exists f2, d2. split; [exact Hr2|].
  split; [by eapply same_fs_trans|]. by apply (freed_same f1).
Qed.

Lemma allocated_freed d d1 d2 b : volume_ok f d → allocated f d d1 b → freed f d1 d2 b →
  (∀ y, in_volume f y → used f d2 y = used f d y) ∧
  (∀ g, is_group f g → free_count f d2 g = free_count f d g) ∧
  (∀ y, on_disk f d y → (∀ g, is_group f g → y ≠ desc_blk f g ∧ y ≠ bbm f d g) → block f d2 y = block f d y).
Proof.
  intros Hv [A1 A2 (B1 & B2 & B3) A4 A5 A6 A7] [F1 F2 F3 F4 F5]. split; [|split].
  - intros y Hy. rewrite F3 by done. destruct (decide (y = b)) as [->|Hne]; [done|].
    rewrite A5 by done. by rewrite decide_False.
  - intros g Hg. rewrite F4, A6 by done. destruct (decide _) as [->|]; [|done].
    pose proof (count_range f d (group_in f b) Hv Hg). rewrite wrap_small; lia.
  - intros y Hy Hn. rewrite F5; [by apply A7|eapply on_disk_len; [apply A2|done]|].
    intros g Hg. destruct (Hn g Hg). split; [done|]. by rewrite (sp_bbm _ _ _ A2).
Qed.

(** Freeing what was just allocated: every bit and every count is as before, and so is every
    block that is neither a bitmap nor a block of descriptors. *)
Theorem allocate_free_round_trip s x : volume_ok f (disk s) → block_size f ≤ quota s → available f (disk s) x →
  ∃ b f' d', runs ('(b, f1) ← allocate_block f; f2 ← free_block f1 b; mret (b, f2)) s (b, f') (set_disk d' s) ∧
    1 ≤ b ∧ volume_ok f' d' ∧
    (∀ y, in_volume f y → used f d' y = used f (disk s) y) ∧
    (∀ g, is_group f g → free_count f d' g = free_count f (disk s) g) ∧
    (∀ y, on_disk f (disk s) y → (∀ g, is_group f g → y ≠ desc_blk f g ∧ y ≠ bbm f (disk s) g) →
       block f d' y = block f (disk s) y).
Proof using Hj.
  intros Hv Hq Hx. destruct (runs_allocate_block f Hj s Hv Hq) as (b & f1 & d1 & Hr & Hs & [(Hb & Ha & _)|(_ & _ & _ & Hno)]).
  2: by destruct (Hno x).
  destruct (runs_free_allocated s f1 d1 b Hv Hq Hs Hb Ha) as (f2 & d2 & Hr2 & Hs2 & Hf2).
  destruct (allocated_freed (disk s) d1 d2 b Hv Ha Hf2) as (H1 & H2 & H3).
  exists b, f2, d2. split; [|split_and!; try done].
  - eapply runs_bind; [exact Hr|]. cbn beta iota. eapply runs_bind; [exact Hr2|]. apply runs_ret.
  - apply (same_volume f f2 Hs2), Hf2.
Qed.
End results.

(** ** Checking a volume *)

Definition all_in (lo n : Z) (P : Z → bool) : bool := forallb P (seqZ lo n).

Lemma all_in_spec lo n P x : all_in lo n P = true → lo ≤ x < lo + n → P x = true.
Proof.
  unfold all_in. intros H Hx. rewrite forallb_forall in H. apply H, list_elem_of_In, elem_of_seqZ. lia.
Qed.

#[global] Instance role_eq_dec : EqDecision role.
Proof. solve_decision. Defined.

(** The blocks with a role, with their roles. *)
Definition roles (f : Ext4Manager) (d : list Z) : list (Z * role) :=
  map (λ g, (desc_blk f g, Descriptors)) (seqZ 0 (groups_count f)) ++
  map (λ g, (bbm f d g, BlockBitmap g)) (seqZ 0 (groups_count f)) ++
  map (λ g, (ibm f d g, InodeBitmap g)) (seqZ 0 (groups_count f)) ++
  map (λ i, (inode_blk f d i, InodeTable)) (seqZ 1 (groups_count f * inodes_per_group f)).

Definition desc_fitsb (f : Ext4Manager) (d : list Z) (g : Z) : bool :=
  (0 <=? g) && (32 <=? group_desc_size f) && (group_desc_size f <=? block_size f) &&
  (desc_off f g + 64 <=? block_size f) && on_diskb f d (desc_blk f g) && (0 <=? s_first_data_block f).
Definition inode_fitsb (f : Ext4Manager) (d : list Z) (i : Z) : bool :=
  (1 <=? i) && (i <? 2 ^ 32) && (0 <? inodes_per_group f) && desc_fitsb f d (group_of f i) &&
  (0 <? inode_size f) && (inode_size f <=? block_size f) && (inode_off f i + 160 <=? block_size f) &&
  on_diskb f d (inode_blk f d i).
Definition in_volumeb (f : Ext4Manager) (b : Z) : bool :=
  (s_first_data_block f <=? b) && (b <? s_first_data_block f + groups_count f * blocks_per_group f).

Definition volumeb (f : Ext4Manager) (d : list Z) : bool :=
  (len (sb f) =? 1024) &&
  (0 <? blocks_per_group f) && (blocks_per_group f <=? 8 * block_size f) &&
  (0 <? inodes_per_group f) && (inodes_per_group f <=? 8 * block_size f) &&
  (s_first_data_block f + groups_count f * blocks_per_group f <? 2 ^ 32) &&
  (groups_count f * inodes_per_group f <? 2 ^ 32) &&
  (negb (check_feature_incompat f EXT4_FEATURE_INCOMPAT_64BIT) || (64 <=? group_desc_size f)) &&
  all_in 0 (groups_count f) (λ g, desc_fitsb f d g && on_diskb f d (bbm f d g) && on_diskb f d (ibm f d g)) &&
  all_in 1 (groups_count f * inodes_per_group f) (inode_fitsb f d) &&
  forallb (λ x, in_volumeb f (fst x) && used f d (fst x) &&
    forallb (λ y, negb (fst x =? fst y) || bool_decide (snd x = snd y)) (roles f d)) (roles f d) &&
  all_in 1 (groups_count f * inodes_per_group f) (λ i,
    all_in 1 (groups_count f * inodes_per_group f) (λ j, (i =? j) ||
      negb (inode_blk f d i =? inode_blk f d j) || (inode_off f i + 160 <=? inode_off f j) ||
      (inode_off f j + 160 <=? inode_off f i))) &&
  all_in (s_first_data_block f) (groups_count f * blocks_per_group f)
    (λ b, used f d b || ((1 <=? b) && on_diskb f d b)).

Lemma on_diskb_spec f d b : on_diskb f d b = true → on_disk f d b.
Proof. unfold on_diskb, on_disk. rewrite andb_true_iff, !Z.leb_le. done. Qed.

Lemma desc_fitsb_spec f d g : desc_fitsb f d g = true → desc_fits f d g.
Proof.
  unfold desc_fitsb. rewrite !andb_true_iff, !Z.leb_le. intros (((((H1 & H2) & H3) & H4) & H5%on_diskb_spec) & H6).
  by constructor.
Qed.

Lemma inode_fitsb_spec f d i : inode_fitsb f d i = true → inode_fits f d i.
Proof.
  unfold inode_fitsb. rewrite !andb_true_iff, !Z.leb_le, !Z.ltb_lt.
  intros (((((((H1 & H2) & H3) & H4%desc_fitsb_spec) & H5) & H6) & H7) & H8%on_diskb_spec). by constructor.
Qed.

Lemma has_role_listed f d b r : has_role f d b r → (b, r) ∈ roles f d.
Proof.
  unfold roles. rewrite !elem_of_app, !list_elem_of_fmap.
  destruct r as [|g|g|]; cbn [has_role]; intros H.
  - destruct H as (g & Hg & ->). left. exists g. split; [done|]. rewrite elem_of_seqZ. unfold is_group in Hg. lia.
  - destruct H as [Hg ->]. right; left. exists g. split; [done|]. rewrite elem_of_seqZ. unfold is_group in Hg. lia.
  - destruct H as [Hg ->]. right; right; left. exists g. split; [done|]. rewrite elem_of_seqZ. unfold is_group in Hg. lia.
  - destruct H as (i & Hi & ->). right; right; right. exists i. split; [done|]. rewrite elem_of_seqZ. unfold is_inode in Hi. lia.
Qed.

Lemma volume_check f d : geometry_ok f d → volumeb f d = true → volume_ok f d.
Proof.
  intros Hg H. unfold volumeb in H. rewrite !andb_true_iff, !Z.ltb_lt, !Z.leb_le, Z.eqb_eq in H.
  destruct H as ((((((((((((H1 & H2) & H3) & H4) & H5) & H6) & H7) & H8) & H9) & H10) & H11) & H12) & H13).
  assert (Hgr : ∀ g, is_group f g → desc_fits f d g ∧ on_disk f d (bbm f d g) ∧ on_disk f d (ibm f d g)).
  { intros g Hgg. pose proof (all_in_spec _ _ _ g H9 ltac:(unfold is_group in Hgg; lia)) as E.
    rewrite !andb_true_iff in E. destruct E as ((E1%desc_fitsb_spec & E2%on_diskb_spec) & E3%on_diskb_spec). done. }
  assert (Hro : ∀ b r, has_role f d b r → in_volume f b ∧ used f d b = true ∧ ∀ r', has_role f d b r' → r = r').
  { intros b r Hr%has_role_listed. rewrite forallb_forall in H11. specialize (H11 _ (proj1 (list_elem_of_In _ _) Hr)).
    rewrite !andb_true_iff in H11. destruct H11 as ((E1 & E2) & E3). unfold in_volumeb in E1. cbn [fst snd] in *.
    split; [unfold in_volume; lia|]. split; [done|]. intros r' Hr'%has_role_listed. rewrite forallb_forall in E3.
    specialize (E3 _ (proj1 (list_elem_of_In _ _) Hr')). cbn [fst snd] in E3. rewrite Z.eqb_refl in E3.
    by apply bool_decide_eq_true in E3. }
  constructor.
  - done.
  - done.
  - lia.
  - lia.
  - intros E. rewrite E in H8. cbn in H8. lia.
  - intros g Hgg. apply Hgr, Hgg.
  - intros g Hgg. by apply Hgr.
  - intros g Hgg. by apply Hgr.
  - intros i Hi. apply inode_fitsb_spec, (all_in_spec _ _ _ i H10). unfold is_inode in Hi. lia.
  - intros b r r' Hr Hr'. by apply (Hro b r Hr).
  - intros i j Hi Hj Hne Eb. unfold is_inode in *.
    pose proof (all_in_spec _ _ _ i H12 ltac:(lia)) as E. pose proof (all_in_spec _ _ _ j E ltac:(lia)) as E'.
    cbn beta in E'. lia.
  - intros b r Hr. destruct (Hro b r Hr) as (? & ? & _). done.
  - intros b Hb Hu. pose proof (all_in_spec _ _ _ b H13 Hb) as E. cbn beta in E. rewrite Hu in E.
    apply andb_true_iff in E as [E1 E2%on_diskb_spec]. split; [lia|done].
Qed.

(** ** Inodes *)

Section inode_write.
Context (f : Ext4Manager) (d : list Z) (i : Z) (v : list Z).
Context (Hv : volume_ok f d) (Hi : is_inode f i) (El : len v = 160) (Hb : Forall byte v).
Let b := inode_blk f d i.
Let d' := put_inode f i v d.

Lemma iw_off : 0 ≤ inode_off f i ∧ inode_off f i + 160 ≤ block_size f.
Proof using Hv Hi.
  destruct (vo_inode f d Hv i Hi) as [I1 I2 I3 I4 I5 I6]. split; [|done].
  assert (0 < block_size f / inode_size f) by (apply Z.div_str_pos; lia).
  pose proof (Z.mod_pos_bound (index_of f i) (block_size f / inode_size f) ltac:(lia)). unfold inode_off. nia.
Qed.
Lemma iw_disk : on_disk f d b.
Proof using Hv Hi. apply (if_disk f d i), (vo_inode f d Hv i Hi). Qed.
Lemma iw_len : len (block f d b) = block_size f.
Proof using Hv Hi. apply len_block; [apply (vo_geometry f d Hv)|apply iw_disk]. Qed.
Lemma iw_new : len (splice (inode_off f i) v (block f d b)) = block_size f ∧ Forall byte (splice (inode_off f i) v (block f d b)).
Proof using Hv Hi El Hb.
  destruct iw_off. split; [rewrite len_splice; [apply iw_len|lia|rewrite iw_len; lia]|]. apply Forall_splice; [done|].
  apply block_bytes, (vo_geometry f d Hv).
Qed.
Lemma iw_role : has_role f d b InodeTable.
Proof using Hi. by exists i. Qed.

Lemma iw_other x : on_disk f d x → x ≠ b → block f d' x = block f d x.
Proof using Hv Hi El Hb.
  intros Hx Hne. apply block_put_other; [apply (vo_geometry f d Hv)|apply iw_disk|done|apply iw_new|by apply not_eq_sym].
Qed.
Lemma iw_kept x r : has_role f d x r → r ≠ InodeTable → block f d' x = block f d x.
Proof using Hv Hi El Hb.
  intros Hr Hne. apply iw_other; [by eapply role_block|]. apply (roles_differ f d _ _ r InodeTable); [done|done|apply iw_role|done].
Qed.

Lemma iw_places : same_places f d d'.
Proof using Hv Hi El Hb.
  pose proof (vo_geometry f d Hv) as Hg. apply places_of_blocks; [done| | |].
  - apply len_put_block; [done|apply iw_disk|apply iw_new].
  - apply geometry_put; [done|apply iw_disk|apply iw_new|apply iw_new].
  - intros g Hgg. apply (iw_kept _ Descriptors); [by exists g|done].
Qed.

Lemma iw_used x : in_volume f x → used f d' x = used f d x.
Proof using Hv Hi El Hb.
  intros Hx. assert (Hgx : is_group f (group_in f x)) by (apply block_group; [apply (vo_groups f d Hv)|done]).
  apply used_block; [apply iw_places|done|]. by apply (iw_kept _ (BlockBitmap (group_in f x))).
Qed.

Lemma iw_available x : available f d' x ↔ available f d x.
Proof using Hv Hi El Hb.
  assert (Ec : ∀ g, is_group f g → free_count f d' g = free_count f d g).
  { intros g Hg. unfold free_count, desc_member, desc. by rewrite (iw_kept _ Descriptors) by (done || by exists g). }
  unfold available. split; intros (X1 & X2 & X3); rewrite iw_used, Ec in * by
    (done || (apply block_group; [apply (vo_groups f d Hv)|done])); done.
Qed.

Lemma iw_volume : volume_ok f d'.
Proof using Hv Hi El Hb.
  apply (sp_volume f d d' Hv iw_places).
  - intros x r Hx. destruct (vo_meta f d Hv x r Hx). by rewrite iw_used.
  - intros x Hx. rewrite iw_used by done. by apply (vo_free f d Hv).
Qed.

Lemma iw_same : inode f d' i = v.
Proof using Hv Hi El Hb.
  destruct iw_off. unfold inode. rewrite (sp_inode_blk f d d' Hv iw_places) by done. fold b. unfold d', put_inode. fold b.
  rewrite block_put_same; [|apply (vo_geometry f d Hv)|apply iw_disk|apply iw_new].
  rewrite <- El. apply sub_splice_same; rewrite ?iw_len; lia.
Qed.

Lemma iw_inode j : is_inode f j → j ≠ i → inode f d' j = inode f d j.
Proof using Hv Hi El Hb.
  intros Hj Hne. unfold inode. rewrite (sp_inode_blk f d d' Hv iw_places) by done.
  destruct (vo_inode f d Hv j Hj) as [J1 J2 J3 J4 J5 J6].
  assert (0 ≤ inode_off f j).
  { assert (0 < block_size f / inode_size f) by (apply Z.div_str_pos; lia).
    pose proof (Z.mod_pos_bound (index_of f j) (block_size f / inode_size f) ltac:(lia)). unfold inode_off. nia. }
  destruct (decide (inode_blk f d j = b)) as [E|Hb'].
  - rewrite E. destruct iw_off. unfold d', put_inode. fold b.
    rewrite block_put_same; [|apply (vo_geometry f d Hv)|apply iw_disk|apply iw_new].
    apply sub_splice_disjoint; rewrite ?iw_len; try lia. rewrite El.
    pose proof (vo_apart f d Hv j i Hj Hi Hne E). lia.
  - by rewrite iw_other.
Qed.
End inode_write.

Lemma no_role_check f d b : forallb (λ x, negb (fst x =? b)) (roles f d) = true → ∀ r, ¬ has_role f d b r.
Proof.
  intros H r Hr%has_role_listed. rewrite forallb_forall in H. specialize (H _ (proj1 (list_elem_of_In _ _) Hr)).
  cbn [fst] in H. by rewrite Z.eqb_refl in H.
Qed.

(** An inode that was written is read back as it was written, and all others are read as
    before; the volume stays well formed, with the same free blocks. *)
Theorem inode_round_trip {W : Type} `{!BlockDevice W, !Allocator W, !StoreLaws W} f (s : store) i v :
  volume_ok f (disk s) → block_size f ≤ quota s → is_inode f i → len v = 160 → Forall byte v →
  ∃ d', runs (write_inode f i v) s () (set_disk d' s) ∧ volume_ok f d' ∧
    runs (read_inode f i) (set_disk d' s) v (set_disk d' s) ∧
    (∀ j, is_inode f j → j ≠ i → runs (read_inode f j) (set_disk d' s) (inode f (disk s) j) (set_disk d' s)) ∧
    (∀ x, in_volume f x → used f d' x = used f (disk s) x).
Proof.
  intros Hv Hq Hi El Hb. pose proof (iw_volume f _ i v Hv Hi El Hb) as Hv'. exists (put_inode f i v (disk s)).
  assert (Hread : ∀ j, is_inode f j → runs (read_inode f j) (set_disk (put_inode f i v (disk s)) s)
    (inode f (put_inode f i v (disk s)) j) (set_disk (put_inode f i v (disk s)) s)).
  { intros j Hj. apply (runs_read_inode f (set_disk _ s)); [apply (vo_geometry _ _ Hv')|by apply (vo_inode _ _ Hv')|done]. }
  split; [|split; [done|split; [|split]]].
  - apply runs_write_inode; [apply (vo_geometry _ _ Hv)|by apply (vo_inode _ _ Hv)|done..].
  - rewrite <- (iw_same f _ i v Hv Hi El Hb) at 2. by apply Hread.
  - intros j Hj Hne. rewrite <- (iw_inode f _ i v Hv Hi El Hb j Hj Hne). by apply Hread.
  - intros x Hx. by apply iw_used.
Qed.

(** ** A volume of one group

    Blocks of 1024 bytes on a disk of 16: the superblock in block 1, the descriptors in
    2, the bitmaps in 3 and 4, eight inodes in 5 and 6, the root directory in 7 and
    a file of 600 bytes in 8; the blocks from 9 on are free, and bits without a
    block are set. *)
Import Pure.

Module VolumeExample.
Import ExtentExample.

Definition superblock (journal_inum : Z) : list Z :=
  poke Ext4Superblock 0 [("s_first_data_block", 1); ("s_free_blocks_count_lo", 7); ("s_free_inodes_count", 5);
    ("s_blocks_count_lo", 16); ("s_blocks_per_group", 64); ("s_inodes_per_group", 8); ("s_magic", EXT4_SUPER_MAGIC);
    ("s_rev_level", 1); ("s_inode_size", 256); ("s_feature_incompat", EXT4_FEATURE_INCOMPAT_EXTENTS);
    ("s_journal_inum", journal_inum)] (zeroed Ext4Superblock).

Definition an_inode (mode size start : Z) : list Z :=
  put_extent i_block 0 0 1 start (put_header i_block 1 0
    (poke Ext4Inode 0 [("i_mode", mode); ("i_size_lo", size); ("i_links_count", 1); ("i_flags", EXT4_EXTENTS_FL)]
      (zeroed Ext4Inode))).

Definition put_entry (p ino reclen ty : Z) (nm : list Z) (b : list Z) : list Z :=
  splice (p + 8) nm (poke Ext4DirEntry2 p [("inode", ino); ("rec_len", reclen); ("name_len", len nm); ("file_type", ty)] b).

(** The root holds [.], [..] and the file [a]. *)
Definition disk_bytes : list Z :=
  let d := replicate (Z.to_nat 16384) 0 in
  let d := splice 1024 (superblock 0) d in
  let d := poke Ext4GroupDesc 2048 [("bg_block_bitmap_lo", 3); ("bg_inode_bitmap_lo", 4); ("bg_inode_table_lo", 5);
    ("bg_free_blocks_count_lo", 7); ("bg_free_inodes_count_lo", 5); ("bg_used_dirs_count_lo", 1)] d in
  let d := splice 3072 ([255; 128] ++ replicate (Z.to_nat 6) 255) d in
  let d := splice 4096 [7] d in
  let d := splice (5120 + 256) (an_inode (EXT4_S_IFDIR + 0x1ED) 1024 7) d in
  let d := splice (5120 + 512) (an_inode (EXT4_S_IFREG + 0x1A4) 600 8) d in
  let d := put_entry 7168 2 12 2 [46] d in
  let d := put_entry (7168 + 12) 2 12 2 [46; 46] d in
  let d := put_entry (7168 + 24) 3 1000 1 [97] d in
  splice 8192 (map (λ i, i mod 251) (seqZ 1 600)) d.

Definition fs : Ext4Manager := mk_ext4 (superblock 0) no_journal 0 1024 256 8 64 32 1.
Definition machine : store := mk_store disk_bytes ∅ 4096.

(** The same with a journal. *)
Definition fs_journal : Ext4Manager := mk_ext4 (superblock 8) (JBD2_init 1024 8) 0 1024 256 8 64 32 1.

Lemma volume_geometry f : partition_lba f = 0 → block_size f = 1024 → geometry_ok f (disk machine).
Proof.
  intros E1 E2. constructor.
  - by rewrite E1.
  - unfold sectors_per_block. by rewrite E2.
  - unfold sectors_per_block. by rewrite E2.
  - by vm_compute.
  - by apply bytes_check; vm_compute.
Qed.

Lemma volume : volume_ok fs (disk machine).
Proof. apply volume_check; [by apply volume_geometry|by vm_compute]. Qed.
Lemma volume_journal : volume_ok fs_journal (disk machine).
Proof. apply volume_check; [by apply volume_geometry|by vm_compute]. Qed.

(** Block 9 is the first free one. *)
Lemma nine_available f : volume_ok f (disk machine) → s_first_data_block f = 1 → blocks_per_group f = 64 →
  groups_count f = 1 → used f (disk machine) 9 = false → (0 <? free_count f (disk machine) 0) = true →
  forallb (λ b, used f (disk machine) b) (seqZ 1 8) = true →
  available f (disk machine) 9 ∧ ∀ x, available f (disk machine) x → 9 ≤ x.
Proof.
  intros Hv E1 E2 E3 Hu Hc Hall. split.
  - split; [unfold in_volume; lia|]. split; [done|]. unfold group_in. rewrite E1, E2. by apply Z.ltb_lt.
  - intros x (X1 & X2 & _). destruct (Z.le_gt_cases 9 x) as [|Hlt]; [done|]. unfold in_volume in X1.
    rewrite forallb_forall in Hall. rewrite Hall in X2; [done|]. apply list_elem_of_In, elem_of_seqZ. lia.
Qed.
End VolumeExample.

Lemma allocate_block_takes_lowest_witness :
  volume_ok VolumeExample.fs (disk VolumeExample.machine) ∧
  ∃ b f' d', runs (allocate_block VolumeExample.fs) VolumeExample.machine (b, f') (set_disk d' VolumeExample.machine).
Proof.
  split; [apply VolumeExample.volume|].
  destruct (allocate_block_takes_lowest VolumeExample.fs ltac:(by vm_compute) VolumeExample.machine
    VolumeExample.volume ltac:(by vm_compute)) as (b & f' & d' & Hr & _).
  exists b, f', d'. exact Hr.
Defined.

Lemma allocate_free_round_trip_witness :
  ∃ b f' d', runs ('(b, f1) ← allocate_block VolumeExample.fs; f2 ← free_block f1 b; mret (b, f2))
    VolumeExample.machine (b, f') (set_disk d' VolumeExample.machine) ∧ used VolumeExample.fs d' 9 = false.
Proof.
  assert (Ha : available VolumeExample.fs (disk VolumeExample.machine) 9).
  { apply VolumeExample.nine_available; [apply VolumeExample.volume|by vm_compute..]. }
  destruct (allocate_free_round_trip VolumeExample.fs ltac:(by vm_compute) VolumeExample.machine 9
    VolumeExample.volume ltac:(by vm_compute) Ha) as (b & f' & d' & Hr & _ & _ & Hu & _).
  exists b, f', d'. split; [exact Hr|]. rewrite (Hu 9); [by vm_compute|apply Ha].
Defined.

Lemma journalled_allocation_repeats_witness :
  ensures ('(x, f1) ← allocate_block VolumeExample.fs_journal; '(y, f2) ← allocate_block f1; mret (x, y))
    VolumeExample.machine (λ '(x, y) s', x = 9 ∧ y = 9 ∧ disk s' = disk VolumeExample.machine).
Proof.
  destruct (VolumeExample.nine_available VolumeExample.fs_journal) as [Ha Hlow];
    [apply VolumeExample.volume_journal|by vm_compute..|].
  apply (journalled_allocation_repeats VolumeExample.fs_journal VolumeExample.machine 9).
  - apply VolumeExample.volume_journal.
  - by vm_compute.
  - split_and!; by vm_compute.
  - exact Ha.
  - exact Hlow.
Defined.

Lemma inode_round_trip_witness :
  ∃ d', runs (write_inode VolumeExample.fs 5 (zeroed Ext4Inode)) VolumeExample.machine () (set_disk d' VolumeExample.machine) ∧
    runs (read_inode VolumeExample.fs 5) (set_disk d' VolumeExample.machine) (zeroed Ext4Inode) (set_disk d' VolumeExample.machine).
Proof.
  destruct (inode_round_trip VolumeExample.fs VolumeExample.machine 5 (zeroed Ext4Inode) VolumeExample.volume)
    as (d' & Hw & _ & Hr & _); [by vm_compute|by vm_compute|by vm_compute|by apply bytes_check; vm_compute|].
  exists d'. split; [exact Hw|exact Hr].
Defined.
End Ext4Alloc.
