(* ===== verification/Ext4File.v ===== *)
(** * EXT4: files (fs/ext4_vfs.cpp: Ext4File)

    A file object has a copy of its inode.  The bytes of block [lb] of the file are
    those of the block its extents lead to, and zeros where they have none
    ([file_block]); the contents are the bytes of the blocks up to the size.

    The loops go from block to block of the file; their fuel is the number of blocks that
    the bytes asked for can touch. *)

From Stdlib Require Import String.
From S2P Require Import Prelude Bytes Block Layout Ext4 Ext4Extent Ext4Journal Ext4Alloc.

Module Ext4File.
Import Bytes Block Layout Ext4 Ext4Extent Ext4Journal Ext4Alloc.
Local Open Scope string_scope.
Local Open Scope list_scope.
Local Open Scope Z_scope.

Record Ext4File : Set := mk_file {
  name : list Z; inode_num : Z; inode : list Z; size : Z; ref_count : Z
}.

Definition set_inode (i : list Z) (n : Z) (fl : Ext4File) : Ext4File :=
  mk_file (name fl) (inode_num fl) i n (ref_count fl).
Definition set_ref (r : Z) (fl : Ext4File) : Ext4File := mk_file (name fl) (inode_num fl) (inode fl) (size fl) r.

(** [ref_count++]; [close] answers whether the object deletes itself. *)
Definition open (fl : Ext4File) : Ext4File := set_ref (u32 (ref_count fl + 1)) fl.
Definition close (fl : Ext4File) : Ext4File * bool :=
  let fl := if 0 <? ref_count fl then set_ref (ref_count fl - 1) fl else fl in (fl, ref_count fl =? 0).

(** The user of every access is the superuser. *)
Definition current_uid : Z := 0.
Definition current_gid : Z := 0.
Definition check_permission (i : list Z) (required_mode : Z) : bool :=
  if current_uid =? 0 then true else
  let mode := member Ext4Inode "i_mode" i in
  let check_mode :=
    if current_uid =? ext4_get_inode_uid i then required_mode
    else if current_gid =? ext4_get_inode_gid i then Z.shiftr required_mode 3
    else Z.shiftr required_mode 6 in
  Z.land mode check_mode =? check_mode.

Definition smaller (a b : Z) : Z := if b <? a then b else a.

Section file.
Context {W : Type} `{!BlockDevice W, !Allocator W}.

Definition new_Ext4File (f : Ext4Manager) (n : list Z) (ino : Z) : kernel W Ext4File :=
  i ← read_inode f ino;
  mret (mk_file (take 127 n) ino i (u32 (ext4_get_inode_size i)) 0).

Fixpoint read_loop (n : nat) (f : Ext4Manager) (i : list Z) (offset size bytes_read : Z) : kernel W (list Z) :=
  if bytes_read <? size then
    match n with
    | O => lift OutOfFuel
    | S n' =>
        let current_offset := u32 (offset + bytes_read) in
        logical_block ← lift (udiv current_offset (block_size f));
        offset_in_block ← lift (umod current_offset (block_size f));
        physical_block ← extent_get_block f i logical_block;
        let to_read := smaller (block_size f - offset_in_block) (size - bytes_read) in
        bs ← (if physical_block =? 0 then mret (replicate (Z.to_nat to_read) 0)
              else
                temp_buf ← kmalloc (block_size f);
                b ← read_into f temp_buf physical_block;
                bs ← lift (get_bytes offset_in_block to_read b);
                kfree temp_buf;;
                mret bs);
        rest ← read_loop n' f i offset size (bytes_read + to_read);
        mret (bs ++ rest)
    end
  else mret [].

(** The bytes copied to the caller's buffer. *)
Definition read (f : Ext4Manager) (fl : Ext4File) (offset count : Z) : kernel W (list Z) :=
  if negb (check_permission (inode fl) EXT4_S_IRUSR) then mret [] else
  if size fl <=? offset then mret [] else
  let count := if size fl <? u32 (offset + count) then size fl - offset else count in
  read_loop (Z.to_nat (count / block_size f) + 2) f (inode fl) offset count 0.

(** The block for a logical block, allocated if there is none; 0 if that fails. *)
Definition block_for_write (f : Ext4Manager) (i : list Z) (logical_block : Z)
  : kernel W (Z * list Z * Ext4Manager) :=
  physical_block ← extent_get_block f i logical_block;
  if physical_block =? 0 then
    '(ok, i, f) ← extent_allocate_blocks f i logical_block 1;
    if negb ok then mret (0, i, f) else
    physical_block ← extent_get_block f i logical_block;
    mret (physical_block, i, f)
  else mret (physical_block, i, f).

(** Part of a block changed: it is read first unless all of it is written.  What a new
    buffer holds does not matter then. *)
Definition write_part (f : Ext4Manager) (physical_block offset_in_block : Z) (part : list Z)
  : kernel W Ext4Manager :=
  temp_buf ← kmalloc (block_size f);
  b ← (if len part <? block_size f then read_into f temp_buf physical_block
       else if temp_buf =? 0 then lift Fault else mret (replicate (Z.to_nat (block_size f)) 0));
  b' ← lift (put_bytes offset_in_block part b);
  f ← journal_write_block f physical_block b';
  kfree temp_buf;;
  mret f.

Fixpoint write_loop (n : nat) (f : Ext4Manager) (i : list Z) (offset : Z) (buffer : list Z) (bytes_written : Z)
  : kernel W (Z * list Z * Ext4Manager) :=
  if bytes_written <? len buffer then
    match n with
    | O => lift OutOfFuel
    | S n' =>
        let current_offset := u32 (offset + bytes_written) in
        logical_block ← lift (udiv current_offset (block_size f));
        offset_in_block ← lift (umod current_offset (block_size f));
        '(physical_block, i, f) ← block_for_write f i logical_block;
        if physical_block =? 0 then mret (bytes_written, i, f) else
        let to_write := smaller (block_size f - offset_in_block) (len buffer - bytes_written) in
        part ← lift (get_bytes bytes_written to_write buffer);
        f ← write_part f physical_block offset_in_block part;
        write_loop n' f i offset buffer (bytes_written + to_write)
    end
  else mret (bytes_written, i, f).

(** Answers the count, the file object and the manager. *)
Definition write (f : Ext4Manager) (fl : Ext4File) (offset : Z) (buffer : list Z)
  : kernel W (Z * Ext4File * Ext4Manager) :=
  if negb (check_permission (inode fl) EXT4_S_IWUSR) then mret (0, fl, f) else
  '(bytes_written, i, f) ← write_loop (Z.to_nat (len buffer / block_size f) + 2) f (inode fl) offset buffer 0;
  let fl :=
    if size fl <? u32 (offset + bytes_written) then
      let n := u32 (offset + bytes_written) in set_inode (set_member Ext4Inode "i_size_lo" n i) n fl
    else set_inode i (size fl) fl in
  write_inode f (inode_num fl) (inode fl);;
  mret (bytes_written, fl, f).
End file.

(** ** The contents of a file *)

Definition file_block (f : Ext4Manager) (d : list Z) (es : list extent) (lb : Z) : list Z :=
  let b := lookup_extents es lb in
  if b =? 0 then replicate (Z.to_nat (block_size f)) 0 else block f d b.

(** The first [n] blocks. *)
Definition file_bytes (f : Ext4Manager) (d : list Z) (es : list extent) (n : nat) : list Z :=
  concat (map (file_block f d es) (seqZ 0 (Z.of_nat n))).

(** The blocks that [n] bytes need. *)
Definition blocks_for (f : Ext4Manager) (n : Z) : nat := Z.to_nat ((n + block_size f - 1) / block_size f).
Definition content (f : Ext4Manager) (d : list Z) (es : list extent) (n : Z) : list Z :=
  sub 0 n (file_bytes f d es (blocks_for f n)).

(** The blocks of the extents are on the disk. *)
Definition mapped_ok (f : Ext4Manager) (d : list Z) (es : list extent) : Prop :=
  ∀ lb, lookup_extents es lb ≠ 0 → on_disk f d (lookup_extents es lb).

Section contents.
Context (f : Ext4Manager).
Implicit Types d : list Z.

Lemma len_file_block d es lb : geometry_ok f d → mapped_ok f d es → len (file_block f d es lb) = block_size f.
Proof.
  intros Hg Hm. pose proof (block_size_bounds f d Hg). unfold file_block. destruct (Z.eqb_spec (lookup_extents es lb) 0).
  - unfold len. rewrite length_replicate. lia.
  - apply len_block; [done|by apply Hm].
Qed.

Lemma file_bytes_S d es n : file_bytes f d es (S n) = file_bytes f d es n ++ file_block f d es (Z.of_nat n).
Proof.
  unfold file_bytes. rewrite seqZ_S, map_app, concat_app, Z.add_0_l. cbn [map concat].
  by rewrite app_nil_r.
Qed.

Lemma len_file_bytes d es n : geometry_ok f d → mapped_ok f d es →
  len (file_bytes f d es n) = block_size f * Z.of_nat n.
Proof.
  intros Hg Hm. induction n as [|n IH]; [by rewrite Z.mul_0_r|]. rewrite file_bytes_S, len_app, IH, len_file_block by done. lia.
Qed.

(** A part of a block. *)
Lemma file_bytes_sub d es n lb p k : geometry_ok f d → mapped_ok f d es → 0 ≤ lb < Z.of_nat n → 0 ≤ p → 0 ≤ k →
  p + k ≤ block_size f → sub (block_size f * lb + p) k (file_bytes f d es n) = sub p k (file_block f d es lb).
Proof.
  intros Hg Hm Hlb Hp Hk Hb. pose proof (block_size_bounds f d Hg).
  induction n as [|n IH]; [lia|]. rewrite file_bytes_S.
  pose proof (len_file_bytes d es n Hg Hm) as El. pose proof (len_file_block d es (Z.of_nat n) Hg Hm) as Eb.
  destruct (decide (lb = Z.of_nat n)) as [->|Hne].
  - rewrite sub_app_r by lia. f_equal. lia.
  - rewrite sub_app_l by nia. apply IH. lia.
Qed.

(** Bytes asked for beyond the end are cut off. *)
Lemma sub_clipped {A} (l : list A) sz off n : 0 ≤ off → 0 ≤ n → 0 ≤ sz ≤ len l →
  sub off n (sub 0 sz l) =
    if sz <=? off then [] else sub off (if sz <? off + n then sz - off else n) l.
Proof.
  intros H0 Hn Hs. pose proof (len_sub 0 sz l) as El. apply list_eq. intros j.
  destruct (Z.leb_spec sz off).
  { rewrite lookup_nil. destruct (decide (Z.of_nat j < n)); [|by rewrite lookup_sub_ge by lia].
    rewrite lookup_sub by lia. apply lookup_Z_ge. lia. }
  set (m := if _ <? _ then _ else _). assert (Hm : 0 ≤ m ≤ n ∧ m = Z.min n (sz - off)).
  { unfold m. destruct (Z.ltb_spec sz (off + n)); lia. }
  destruct (decide (Z.of_nat j < n)).
  - rewrite lookup_sub by lia. destruct (decide (Z.of_nat j < m)).
    + rewrite !lookup_sub by lia. f_equal.
    + rewrite !lookup_sub_ge by lia. done.
  - by rewrite !lookup_sub_ge by lia.
Qed.
End contents.

(** ** Reading *)

Section reading.
Context {W : Type} `{!BlockDevice W, !Allocator W, !StoreLaws W}.
Context (f : Ext4Manager).
Implicit Types s : store.

Lemma smaller_min a b : smaller a b = Z.min a b.
Proof. unfold smaller. destruct (Z.ltb_spec b a); lia. Qed.

(** One block's part of a read. *)
Lemma runs_read_part s (es : list extent) lb p k : geometry_ok f (disk s) → block_size f ≤ quota s →
  mapped_ok f (disk s) es → 0 ≤ p → 0 ≤ k → p + k ≤ block_size f →
  runs (if lookup_extents es lb =? 0 then mret (replicate (Z.to_nat k) 0)
        else
          temp_buf ← kmalloc (block_size f);
          b ← read_into f temp_buf (lookup_extents es lb);
          bs ← lift (get_bytes p k b);
          kfree temp_buf;;
          mret bs) s (sub p k (file_block f (disk s) es lb)) s.
Proof.
  intros Hg Hq Hm Hp Hk Hb. pose proof (block_size_bounds f _ Hg). unfold file_block.
  destruct (Z.eqb_spec (lookup_extents es lb) 0) as [E|Hne].
  - assert (Er : sub p k (replicate (Z.to_nat (block_size f)) 0) = replicate (Z.to_nat k) 0).
    { unfold sub. rewrite drop_replicate, take_replicate. f_equal. lia. }
    rewrite Er. apply runs_ret.
  - apply runs_buffer; [done|by apply Hm|done|]. intros q Hq0 Hl.
    eapply runs_lift; [apply get_bytes_ok; [done|done|rewrite len_block; [lia|done|by apply Hm]]|].
    apply runs_kfree; [done|]. apply runs_ret.
Qed.

Lemma runs_read_blocks (i : list Z) es nb n : ∀ s off count dn, geometry_ok f (disk s) → block_size f ≤ quota s →
  Forall byte i → inode_extents f (disk s) i = Some es → mapped_ok f (disk s) es →
  0 ≤ off → 0 ≤ dn ≤ count → off + count < 2 ^ 32 → off + count ≤ block_size f * Z.of_nat nb →
  (dn < count → (off + dn) mod block_size f + (count - dn) ≤ block_size f * Z.of_nat n) →
  runs (read_loop n f i off count dn) s (sub (off + dn) (count - dn) (file_bytes f (disk s) es nb)) s.
Proof.
  induction n as [|n IH]; intros s off count dn Hg Hq Hb He Hm Ho Hd Hw Hl Hn.
  all: pose proof (block_size_bounds f _ Hg) as Hs; pose proof (Z.mod_pos_bound (off + dn) (block_size f) ltac:(lia)) as Hp.
  all: cbn [read_loop]; destruct (Z.ltb_spec dn count) as [Hlt|Hge];
    [|replace (count - dn) with 0 by lia; rewrite sub_0; apply runs_ret].
  { specialize (Hn Hlt). lia. }
  rewrite (wrap_small 32) by lia. eapply runs_lift; [apply udiv_ok; lia|]. eapply runs_lift; [apply umod_ok; lia|].
  pose proof (Z.div_mod (off + dn) (block_size f) ltac:(lia)) as Ed.
  set (lb := (off + dn) / block_size f) in *. set (p := (off + dn) mod block_size f) in *.
  assert (Hlb : 0 ≤ lb) by (apply Z.div_pos; lia).
  eapply runs_bind; [apply (runs_extent_get_block f s i es lb); done|]. rewrite smaller_min.
  set (k := Z.min _ _). assert (Hk : 0 < k ∧ k ≤ count - dn ∧ p + k ≤ block_size f) by (unfold k; lia).
  eapply runs_bind; [apply (runs_read_part s es lb p k); (done || lia)|].
  specialize (Hn Hlt).
  assert (Hp' : dn + k < count → (off + (dn + k)) mod block_size f + (count - (dn + k)) ≤ block_size f * Z.of_nat n).
  { intros Hmore. assert (Ek : k = block_size f - p) by (unfold k in *; lia).
    replace (off + (dn + k)) with ((lb + 1) * block_size f) by lia. rewrite Z.mod_mul by lia. lia. }
  eapply runs_bind; [apply (IH s off count (dn + k)); (done || lia)|].
  assert (Hnb : lb < Z.of_nat nb) by nia. pose proof (len_file_bytes f _ es nb Hg Hm) as El.
  rewrite <- (file_bytes_sub f _ es nb lb p k) by (done || lia). rewrite <- Ed.
  replace (off + (dn + k)) with (off + dn + k) by lia. rewrite sub_app by lia.
  replace (k + (count - (dn + k))) with (count - dn) by lia. apply runs_ret.
Qed.

Lemma runs_ext4_read s fl es off n : geometry_ok f (disk s) → block_size f ≤ quota s →
  Forall byte (inode fl) → inode_extents f (disk s) (inode fl) = Some es → mapped_ok f (disk s) es →
  0 ≤ size fl → 0 ≤ off → 0 ≤ n → off + n < 2 ^ 32 →
  runs (read f fl off n) s (sub off n (content f (disk s) es (size fl))) s.
Proof.
  intros Hg Hq Hb He Hm Hs H0 Hn Hw. pose proof (block_size_bounds f _ Hg) as Hbs.
  assert (Hnb : size fl ≤ block_size f * Z.of_nat (blocks_for f (size fl))).
  { unfold blocks_for. rewrite Z2Nat.id by (apply Z.div_pos; lia).
    pose proof (Z.div_mod (size fl + block_size f - 1) (block_size f) ltac:(lia)).
    pose proof (Z.mod_pos_bound (size fl + block_size f - 1) (block_size f) ltac:(lia)). lia. }
  unfold content. rewrite sub_clipped by (rewrite ?len_file_bytes; done || lia).
  unfold read. cbn [check_permission negb]. destruct (Z.leb_spec (size fl) off); [apply runs_ret|].
  rewrite (wrap_small 32) by lia. set (m := if _ <? _ then _ else _).
  assert (Hm' : 0 ≤ m ≤ n ∧ off + m ≤ size fl) by (unfold m; destruct (Z.ltb_spec (size fl) (off + n)); lia).
  replace (sub off m _) with (sub (off + 0) (m - 0) (file_bytes f (disk s) es (blocks_for f (size fl)))) by (f_equal; lia).
  apply runs_read_blocks; try done; try lia.
  pose proof (Z.mod_pos_bound (off + 0) (block_size f) ltac:(lia)).
  pose proof (Z.div_mod m (block_size f) ltac:(lia)). pose proof (Z.mod_pos_bound m (block_size f) ltac:(lia)).
  assert (0 ≤ m / block_size f) by (apply Z.div_pos; lia). nia.
Qed.
End reading.

(** ** Changing the root of a file *)

(** The members of the structures as places and sizes. *)
Ltac places :=
  change (offset_of Ext4Extent "ee_block") with 0 in *; change (width_of Ext4Extent "ee_block") with 4%nat in *;
  change (offset_of Ext4Extent "ee_len") with 4 in *; change (width_of Ext4Extent "ee_len") with 2%nat in *;
  change (offset_of Ext4Extent "ee_start_hi") with 6 in *; change (width_of Ext4Extent "ee_start_hi") with 2%nat in *;
  change (offset_of Ext4Extent "ee_start_lo") with 8 in *; change (width_of Ext4Extent "ee_start_lo") with 4%nat in *;
  change (offset_of Ext4ExtentHeader "eh_magic") with 0 in *; change (width_of Ext4ExtentHeader "eh_magic") with 2%nat in *;
  change (offset_of Ext4ExtentHeader "eh_entries") with 2 in *; change (width_of Ext4ExtentHeader "eh_entries") with 2%nat in *;
  change (offset_of Ext4ExtentHeader "eh_max") with 4 in *; change (width_of Ext4ExtentHeader "eh_max") with 2%nat in *;
  change (offset_of Ext4ExtentHeader "eh_depth") with 6 in *; change (width_of Ext4ExtentHeader "eh_depth") with 2%nat in *;
  change (offset_of Ext4Inode "i_flags") with 32 in *; change (width_of Ext4Inode "i_flags") with 4%nat in *;
  change i_block with 40 in *; change (sizeof Ext4Extent) with 12 in *; change (sizeof Ext4ExtentHeader) with 12 in *.

(** The length of a list that was written to, and [sub] of a number that was just
    written, or next to it. *)
Ltac know_len l :=
  lazymatch l with
  | splice ?o ?x ?l' =>
      know_len l';
      lazymatch goal with
      | _ : len (splice o x l') = _ |- _ => idtac
      | _ => let E := fresh "El" in
             assert (E : len (splice o x l') = len l') by (apply len_splice; rewrite ?len_le; lia)
      end
  | _ => idtac
  end.
Ltac lens :=
  rewrite ?len_le;
  repeat match goal with
  | |- context [len (splice ?o ?x ?l)] =>
      lazymatch goal with _ : len (splice o x l) = _ |- _ => fail | _ => know_len (splice o x l) end
  end;
  lia.
Ltac see := repeat first [rewrite sub_splice_le by lens|rewrite sub_splice_disjoint by lens].

Section root.
Implicit Types b i : list Z.

Lemma member_at l x p b : 0 ≤ p → member l x (sub p (sizeof l) b) = of_le (sub (p + offset_of l x) (Z.of_nat (width_of l x)) b).
Proof. intros Hp. pose proof (offset_bounds l x). unfold member. by rewrite sub_sub by lia. Qed.

Lemma leaf_extents_snoc b b' p n e : 0 ≤ n → header "eh_entries" b p = n → header "eh_entries" b' p = n + 1 →
  (∀ j, 0 ≤ j < n → read_extent b' p j = read_extent b p j) → read_extent b' p n = e →
  leaf_extents b' p = leaf_extents b p ++ [e].
Proof.
  intros Hn E E' Hj He. unfold leaf_extents. rewrite E, E'. rewrite <- (Z2Nat.id n) by done.
  replace (Z.of_nat (Z.to_nat n) + 1) with (Z.of_nat (S (Z.to_nat n))) by lia.
  rewrite seqZ_S, map_app. cbn [map]. rewrite Z.add_0_l, Z2Nat.id, He by done. f_equal.
  apply map_ext_in. intros j Hin. apply list_elem_of_In, elem_of_seqZ in Hin. apply Hj. lia.
Qed.

Lemma leaf_extents_last b b' p n e : 0 ≤ n → header "eh_entries" b p = n + 1 → header "eh_entries" b' p = n + 1 →
  (∀ j, 0 ≤ j < n → read_extent b' p j = read_extent b p j) → read_extent b' p n = e →
  ∃ l, leaf_extents b p = l ++ [read_extent b p n] ∧ leaf_extents b' p = l ++ [e].
Proof.
  intros Hn E E' Hj He. exists (map (read_extent b p) (seqZ 0 n)). unfold leaf_extents. rewrite E, E'.
  rewrite <- (Z2Nat.id n) by done. replace (Z.of_nat (Z.to_nat n) + 1) with (Z.of_nat (S (Z.to_nat n))) by lia.
  rewrite seqZ_S, !map_app. cbn [map]. rewrite Z.add_0_l, Z2Nat.id, He by done. split; [done|]. f_equal.
  apply map_ext_in. intros j Hin. apply list_elem_of_In, elem_of_seqZ in Hin. apply Hj. lia.
Qed.

(** The members of entry [j] as numbers in the buffer. *)
Lemma read_extent_at b j : 0 ≤ j → read_extent b i_block j =
  mk_extent (of_le (sub (52 + 12 * j) 4 b)) (of_le (sub (52 + 12 * j + 4) 2 b))
    (hi_lo 32 (of_le (sub (52 + 12 * j + 6) 2 b)) (of_le (sub (52 + 12 * j + 8) 4 b))).
Proof.
  intros Hj. unfold read_extent. assert (Ee : entry_at i_block j = 52 + 12 * j) by (unfold entry_at; cbn; lia).
  rewrite Ee. change (sub (52 + 12 * j) 12 b) with (sub (52 + 12 * j) (sizeof Ext4Extent) b).
  rewrite !member_at by lia. places. by rewrite Z.add_0_r.
Qed.

Lemma header_at x b : header x b i_block = of_le (sub (40 + offset_of Ext4ExtentHeader x) (Z.of_nat (width_of Ext4ExtentHeader x)) b).
Proof. apply (member_at Ext4ExtentHeader). done. Qed.

(** An extent written behind the last one. *)
Definition with_extent (n lb start : Z) (i : list Z) : list Z :=
  splice 42 (le 2 (n + 1)) (splice (52 + 12 * n + 6) (le 2 (Z.land (Z.shiftr start 32) 0xFFFF))
    (splice (52 + 12 * n + 8) (le 4 (Z.land start 0xFFFFFFFF)) (splice (52 + 12 * n + 4) (le 2 1)
      (splice (52 + 12 * n) (le 4 lb) i)))).

Lemma append_extent_ok n lb start i : len i = 160 → 0 ≤ n < 4 →
  append_extent n lb 1 start i = Ok (with_extent n lb start i) ∧ len (with_extent n lb start i) = 160 ∧
  (Forall byte i → Forall byte (with_extent n lb start i)).
Proof.
  intros El Hn. assert (Ee : entry_at i_block n = 52 + 12 * n) by (unfold entry_at; cbn; lia).
  unfold append_extent, put_extent_block, put_member. rewrite Ee. places. rewrite Z.add_0_r.
  assert (L1 : len (splice (52 + 12 * n) (le 4 lb) i) = 160) by lens.
  rewrite put_le_ok by lia. run. rewrite put_le_ok by lia. run.
  assert (L2 : len (splice (52 + 12 * n + 4) (le 2 1) (splice (52 + 12 * n) (le 4 lb) i)) = 160).
  { lens. }
  rewrite put_le_ok by lia. run. set (i3 := splice (52 + 12 * n + 8) _ _).
  assert (L3 : len i3 = 160) by (unfold i3; lens).
  rewrite put_le_ok by lia. run. set (i4 := splice (52 + 12 * n + 6) _ _).
  assert (L4 : len i4 = 160) by (unfold i4; lens).
  rewrite put_le_ok by lia. split; [done|]. split; [unfold with_extent; fold i3; fold i4; lens|].
  intros Hb. unfold with_extent. repeat (apply Forall_splice; [apply le_bytes|]). done.
Qed.

Lemma halves start : 0 ≤ start < 2 ^ 48 →
  hi_lo 32 (Z.land (Z.shiftr start 32) 0xFFFF mod 2 ^ 16) (Z.land start 0xFFFFFFFF mod 2 ^ 32) = start.
Proof.
  intros Hs. change 0xFFFF with (Z.ones 16). change 0xFFFFFFFF with (Z.ones 32).
  rewrite !Z.land_ones, Z.shiftr_div_pow2 by done. rewrite !Z.mod_mod by done.
  rewrite (Z.mod_small (start / 2 ^ 32)) by (split; [apply Z.div_pos; lia|apply Z.div_lt_upper_bound; lia]).
  pose proof (Z.mod_pos_bound start (2 ^ 32) ltac:(lia)). rewrite hi_lo_add by lia.
  pose proof (Z.div_mod start (2 ^ 32) ltac:(lia)). lia.
Qed.

(** What the code reads of the inode afterwards. *)
Record same_root i i' : Prop := {
  sr_len : len i' = 160;
  sr_flags : member Ext4Inode "i_flags" i' = member Ext4Inode "i_flags" i;
  sr_magic : header "eh_magic" i' i_block = header "eh_magic" i i_block;
  sr_max : header "eh_max" i' i_block = header "eh_max" i i_block;
  sr_depth : header "eh_depth" i' i_block = header "eh_depth" i i_block
}.

Lemma with_extent_root n lb start i : len i = 160 → 0 ≤ n < 4 → 0 ≤ lb < 2 ^ 32 → 0 ≤ start < 2 ^ 48 →
  let i' := with_extent n lb start i in
  same_root i i' ∧ header "eh_entries" i' i_block = n + 1 ∧ read_extent i' i_block n = mk_extent lb 1 start ∧
  (∀ j, 0 ≤ j < n → read_extent i' i_block j = read_extent i i_block j).
Proof.
  intros El Hn Hlb Hs i'. destruct (append_extent_ok n lb start i El Hn) as (_ & El' & _). fold i' in El'.
  assert (Hfar : ∀ o k, 0 ≤ o → 0 ≤ k → o + k ≤ 42 ∨ 44 ≤ o → o + k ≤ 52 + 12 * n ∨ 64 + 12 * n ≤ o → o + k ≤ 160 →
    sub o k i' = sub o k i).
  { intros o k H0 Hk H1 H2 H3. unfold i', with_extent. see. done. }
  split; [|split; [|split]].
  - constructor; [done|unfold member; places|rewrite !header_at; places..].
    all: rewrite Hfar by lia; done.
  - rewrite header_at. places. unfold i', with_extent. rewrite sub_splice_le; [|done|done|].
    + rewrite of_le_le. apply Z.mod_small. change (8 * Z.of_nat 2) with 16. lia.
    + lens.
  - rewrite read_extent_at by lia. unfold i', with_extent. f_equal.
    + see. rewrite of_le_le. by apply Z.mod_small.
    + see. done.
    + see. rewrite !of_le_le. by apply halves.
  - intros j Hj. rewrite !read_extent_at by lia. rewrite !Hfar by lia. done.
Qed.

Definition with_len (n v : Z) i : list Z := splice (52 + 12 * n + 4) (le 2 v) i.

Lemma with_len_root n v i : len i = 160 → 0 ≤ n < 4 → 0 ≤ v < 2 ^ 16 →
  let i' := with_len n v i in let e := read_extent i i_block n in
  same_root i i' ∧ header "eh_entries" i' i_block = header "eh_entries" i i_block ∧
  read_extent i' i_block n = mk_extent (e_block e) v (e_start e) ∧
  (∀ j, 0 ≤ j < n → read_extent i' i_block j = read_extent i i_block j).
Proof.
  intros El Hn Hv i' e. assert (El' : len i' = 160) by (unfold i', with_len; lens).
  assert (Hfar : ∀ o k, 0 ≤ o → 0 ≤ k → o + k ≤ 56 + 12 * n ∨ 58 + 12 * n ≤ o → sub o k i' = sub o k i).
  { intros o k H0 Hk H2. unfold i', with_len. see. done. }
  split; [|split; [|split]].
  - constructor; [done|unfold member; places|rewrite !header_at; places..].
    all: rewrite Hfar by lia; done.
  - rewrite !header_at. places. rewrite Hfar by lia. done.
  - unfold e. rewrite !read_extent_at by lia. cbn [e_block e_start].
    rewrite (Hfar (52 + 12 * n) 4), (Hfar (52 + 12 * n + 6) 2), (Hfar (52 + 12 * n + 8) 4) by lia. f_equal.
    unfold i', with_len. see. rewrite of_le_le. by apply Z.mod_small.
  - intros j Hj. rewrite !read_extent_at by lia. rewrite !Hfar by lia. done.
Qed.

(** An inode in which only the entries of the root of the tree changed. *)
Record only_extents i i' : Prop := {
  oe_head : sub 0 40 i' = sub 0 40 i;
  oe_tail : sub 100 60 i' = sub 100 60 i;
  oe_max : header "eh_max" i' i_block = header "eh_max" i i_block
}.

(** The same, and the low half of the size is now [n]. *)
Record size_and_extents i i' (n : Z) : Prop := {
  se_size : member Ext4Inode "i_size_lo" i' = n;
  se_head : sub 0 4 i' = sub 0 4 i;
  se_mid : sub 8 32 i' = sub 8 32 i;
  se_tail : sub 100 60 i' = sub 100 60 i;
  se_max : header "eh_max" i' i_block = header "eh_max" i i_block
}.

#[global] Instance only_extents_preorder : PreOrder only_extents.
Proof.
  split; [by intros i|]. intros i1 i2 i3 [A1 A2 A3] [B1 B2 B3]. constructor; congruence.
Qed.

Lemma with_extent_only n lb start i : len i = 160 → 0 ≤ n < 4 → 0 ≤ lb < 2 ^ 32 → 0 ≤ start < 2 ^ 48 →
  only_extents i (with_extent n lb start i).
Proof.
  intros El Hn Hlb Hs. destruct (with_extent_root n lb start i El Hn Hlb Hs) as (S & _).
  constructor; [| |apply (sr_max _ _ S)]; unfold with_extent; see; done.
Qed.

Lemma with_len_only n v i : len i = 160 → 0 ≤ n < 4 → 0 ≤ v < 2 ^ 16 → only_extents i (with_len n v i).
Proof.
  intros El Hn Hv. destruct (with_len_root n v i El Hn Hv) as (S & _).
  constructor; [| |apply (sr_max _ _ S)]; unfold with_len; see; done.
Qed.
End root.

(** ** A file of the volume *)

Record file_ok (f : Ext4Manager) (d i : list Z) (es : list extent) : Prop := {
  fo_len : len i = 160;
  fo_bytes : Forall byte i;
  fo_root : root_only i es;
  fo_max : header "eh_entries" i i_block ≤ header "eh_max" i i_block ≤ 4;
  fo_start : Forall (λ e, 1 ≤ e_start e) es;
  fo_block lb : lookup_extents es lb ≠ 0 → let b := lookup_extents es lb in
    in_volume f b ∧ used f d b = true ∧ on_disk f d b ∧ ∀ r, ¬ has_role f d b r;
  fo_inj lb lb' : lookup_extents es lb ≠ 0 → lookup_extents es lb = lookup_extents es lb' → lb = lb'
}.

Section maps.
Implicit Types es : list extent.

Lemma unmapped es lb : Forall (λ e, 1 ≤ e_start e) es → lookup_extents es lb = 0 → Forall (λ e, ¬ covers e lb) es.
Proof.
  induction 1 as [|e es He _ IH]; intros H; [constructor|]. cbn [lookup_extents] in H.
  destruct (_ && _) eqn:E; [lia|]. constructor; [unfold covers; lia|auto].
Qed.

Lemma lookup_snoc es lb b x : Forall (λ e, 1 ≤ e_start e) es → lookup_extents es lb = 0 →
  lookup_extents (es ++ [mk_extent lb 1 b]) x = if decide (x = lb) then b else lookup_extents es x.
Proof.
  intros Hs H0. pose proof (unmapped es lb Hs H0) as Hn. destruct (decide (x = lb)) as [->|Hne].
  - rewrite lookup_extents_app by done. cbn [lookup_extents]. unfold e_end. cbn [e_block e_len e_start].
    rewrite (proj2 (Z.leb_le _ _)), (proj2 (Z.ltb_lt _ _)) by lia. cbn [andb]. lia.
  - apply lookup_extents_drop. constructor; [|constructor]. unfold e_end. cbn [e_block e_len]. lia.
Qed.

Lemma lookup_grow l e lb x : let es := l ++ [e] in Forall (λ e, 1 ≤ e_start e) es → lookup_extents es lb = 0 →
  lb = e_end e → e_block e ≤ lb →
  lookup_extents (l ++ [mk_extent (e_block e) (e_len e + 1) (e_start e)]) x =
    if decide (x = lb) then e_start e + e_len e else lookup_extents es x.
Proof.
  intros es Hs H0 Elb Hle. pose proof (unmapped es lb Hs H0) as Hn. unfold es in *. unfold e_end in Elb.
  apply Forall_app in Hn as [Hn _]. set (e' := mk_extent _ _ _).
  assert (Hlast : ∀ l' y, lookup_extents (l' ++ [y]) x =
    if (existsb (λ z, (e_block z <=? x) && (x <? e_end z)) l') then lookup_extents l' x else lookup_extents [y] x).
  { induction l' as [|z l' IH]; intros y; [done|]. cbn [app lookup_extents existsb].
    destruct (_ && _); [done|]. by rewrite IH. }
  rewrite !Hlast. destruct (existsb _ l) eqn:Ex.
  - destruct (decide (x = lb)) as [->|]; [|done]. apply existsb_exists in Ex as (z & Hz & Hc).
    rewrite Forall_forall in Hn. apply list_elem_of_In in Hz. destruct (Hn z Hz). unfold covers. lia.
  - cbn [lookup_extents]. unfold e_end, e'. cbn [e_block e_len e_start].
    destruct (decide (x = lb)) as [->|Hne].
    + rewrite (proj2 (Z.leb_le _ _)), (proj2 (Z.ltb_lt _ _)) by lia. cbn [andb]. lia.
    + destruct (Z.leb_spec (e_block e) x); cbn [andb]; [|done].
      destruct (Z.ltb_spec x (e_block e + (e_len e + 1))), (Z.ltb_spec x (e_block e + e_len e)); (done || lia).
Qed.
End maps.

(** The object with the roles of the two exchanged. *)
Lemma same_fs_sym f f' : same_fs f f' → same_fs f' f.
Proof. intros [S1 S2 S3 S4 S5]. constructor; try done. rewrite S1. by destruct f. Qed.

Section same.
Context (f f1 : Ext4Manager) (Hs : same_fs f f1).

Lemma places_same d d' : same_places f1 d d' → same_places f d d'.
Proof using Hs.
  intros [P1 P2 P3 P4 P5]. constructor; [done..| | |]; intros g Hg.
  - rewrite <- !(same_bbm f f1 Hs). by apply P3, (same_is_group f f1).
  - rewrite <- !(same_ibm f f1 Hs). by apply P4, (same_is_group f f1).
  - rewrite <- !(same_itb f f1 Hs). by apply P5, (same_is_group f f1).
Qed.

Lemma group_in_same b : group_in f1 b = group_in f b.
Proof using Hs. unfold group_in. rewrite (sf_first _ _ Hs). by rewrite (sf_fields _ _ Hs). Qed.

Lemma available_same d b : available f1 d b ↔ available f d b.
Proof using Hs.
  unfold available, free_count, desc_member.
  by rewrite (same_in_volume f f1 Hs), (same_used f f1 Hs), (same_desc f f1 Hs), group_in_same.
Qed.

Lemma allocated_same d d' b : allocated f1 d d' b → allocated f d d' b.
Proof using Hs.
  intros [A1 A2 A3 A4 A5 A6 A7 A8]. constructor.
  - by apply (same_volume f1 f (same_fs_sym _ _ Hs)).
  - by apply places_same.
  - by apply available_same.
  - intros x Hx. by apply A4, available_same.
  - intros x Hx. rewrite <- !(same_used f f1 Hs). by apply A5, (same_in_volume f f1).
  - intros g Hg. unfold free_count, desc_member in *. rewrite <- !(same_desc f f1 Hs).
    rewrite A6 by by apply (same_is_group f f1). by rewrite group_in_same.
  - intros x Hx Hn. rewrite <- !(same_block f f1 Hs). apply A7; [by apply (same_on_disk f f1)|].
    intros g Hg. rewrite (same_bbm f f1 Hs), (same_desc_blk f f1 Hs). by apply Hn, (same_is_group f f1).
  - rewrite A8. unfold block_taken, free_count, desc_member, index_in.
    rewrite group_in_same, (same_desc f f1 Hs), (same_bbm f f1 Hs), (same_block f f1 Hs), (sf_first _ _ Hs).
    unfold poke_desc, desc_addr. rewrite (same_desc_blk f f1 Hs), (same_desc_off f f1 Hs).
    by rewrite (sf_fields _ _ Hs).
Qed.

Lemma file_same d i es : file_ok f d i es ↔ file_ok f1 d i es.
Proof using Hs.
  split; intros [F1 F2 F3 F4 F5 F6 F7]; constructor; try done; intros lb Hlb b; destruct (F6 lb Hlb) as (B1 & B2 & B3 & B4).
  - rewrite (same_in_volume f f1 Hs), (same_used f f1 Hs), (same_on_disk f f1 Hs). split; [done|]. split; [done|].
    split; [done|]. intros r. rewrite (same_role f f1 Hs). apply B4.
  - rewrite (same_in_volume f f1 Hs) in B1. rewrite (same_used f f1 Hs) in B2. rewrite (same_on_disk f f1 Hs) in B3.
    split; [done|]. split; [done|]. split; [done|]. intros r. rewrite <- (same_role f f1 Hs). apply B4.
Qed.
End same.

(** What stays of a disk when only bitmaps and descriptors were written. *)
Record meta_only (f : Ext4Manager) (d d' : list Z) : Prop := {
  mo_volume : volume_ok f d';
  mo_places : same_places f d d';
  mo_used x : in_volume f x → used f d' x = used f d x;
  mo_block x : on_disk f d x → (∀ g, is_group f g → x ≠ desc_blk f g ∧ x ≠ bbm f d g) → block f d' x = block f d x
}.

Lemma meta_only_refl f d : volume_ok f d → meta_only f d d.
Proof. intros Hv. constructor; try done. apply same_places_refl, (vo_geometry f d Hv). Qed.

Section extend.
Context (f : Ext4Manager).
Implicit Types d i : list Z.

(** A block without a role is neither a bitmap nor a block of descriptors. *)
Lemma no_role_meta d x : (∀ r, ¬ has_role f d x r) → ∀ g, is_group f g → x ≠ desc_blk f g ∧ x ≠ bbm f d g.
Proof.
  intros Hr g Hg. split; intros ->; [apply (Hr Descriptors); by exists g|by apply (Hr (BlockBitmap g))].
Qed.

(** The file with a block that was free. *)
Lemma file_extended d d' i es i' es' lb b : volume_ok f d → file_ok f d i es → allocated f d d' b → 1 ≤ b →
  lookup_extents es lb = 0 → (∀ x, lookup_extents es' x = if decide (x = lb) then b else lookup_extents es x) →
  len i' = 160 → Forall byte i' → root_only i' es' →
  header "eh_entries" i' i_block ≤ header "eh_max" i' i_block ≤ 4 → Forall (λ e, 1 ≤ e_start e) es' →
  file_ok f d' i' es'.
Proof.
  intros Hv [F1 F2 F3 F4 F5 F6 F7] Ha Hb H0 Hl E1 E2 E3 E4 E5. pose proof Ha as [A1 A2 (B1 & B2 & B3) A4 A5 A6 A7].
  destruct (vo_free f d Hv b B1 B2) as [_ Hd]. pose proof (sp_len _ _ _ A2) as El. constructor; try done.
  - intros x Hx y. unfold y. rewrite Hl in *. destruct (decide (x = lb)) as [->|Hne].
    + split; [done|]. split; [rewrite A5 by done; by rewrite decide_True|]. split; [by eapply on_disk_len|].
      intros r Hr%(sp_role f d d' Hv A2). by apply (allocated_no_role f d d' b r Hv Ha).
    + destruct (F6 x Hx) as (X1 & X2 & X3 & X4). split; [done|]. split; [rewrite A5 by done; by destruct (decide _)|].
      split; [by eapply on_disk_len|]. intros r Hr%(sp_role f d d' Hv A2). by apply (X4 r).
  - intros x y Hx Exy. rewrite !Hl in *.
    assert (Hnb : ∀ z, lookup_extents es z ≠ 0 → lookup_extents es z ≠ b).
    { intros z Hz E. destruct (F6 z Hz) as (_ & X2 & _). rewrite E in X2. by rewrite B2 in X2. }
    destruct (decide (x = lb)) as [->|], (decide (y = lb)) as [->|]; try done.
    + by destruct (Hnb y); [rewrite <- Exy; lia|].
    + by destruct (Hnb x Hx).
    + by apply F7.
Qed.

Lemma root_only_same i i' es' : same_root i i' → root_only i (leaf_extents i i_block) → es' = leaf_extents i' i_block →
  header "eh_entries" i' i_block ≤ 4 → Forall byte i' → Forall (λ e, e_end e < 2 ^ 32) es' → root_only i' es'.
Proof.
  intros [S1 S2 S3 S4 S5] (R1 & R2 & R3 & R4) -> Hn Hb Hf. split; [by rewrite S2|]. split; [|done].
  destruct (node_ok_inv _ _ _ R2) as (N1 & N2 & N3 & N4). pose proof (node_header_range "eh_entries" i' i_block Hb).
  unfold node_ok. rewrite S1, S3, S5, N3, N4. rewrite !Z.eqb_refl.
  assert (Hle : i_block + 12 + 12 * header "eh_entries" i' i_block ≤ 160).
  { assert (i_block = 40) by done. lia. }
  by rewrite (proj2 (Z.leb_le _ _) Hle).
Qed.
End extend.

(** ** A block for a file *)

Section allocate.
Context {W : Type} `{!BlockDevice W, !Allocator W, !StoreLaws W}.
Context (f : Ext4Manager) (Hj : s_journal_inum f = 0).
Implicit Types s : store.
Implicit Types d i : list Z.

(** The file with a new block for [lb], or no block to be had. *)
Inductive extended (d : list Z) (i : list Z) (es : list extent) (lb : Z) : bool → list Z → list Z → Prop :=
| ex_block d' i' es' b : allocated f d d' b → 1 ≤ b → file_ok f d' i' es' → only_extents i i' →
    (∀ x, lookup_extents es' x = if decide (x = lb) then b else lookup_extents es x) →
    extended d i es lb true i' d'
| ex_full d' : meta_only f d d' →
    (∀ x, ¬ available f d' x) ∨ header "eh_entries" i i_block = header "eh_max" i i_block →
    extended d i es lb false i d'.

Lemma root_entries d i es : file_ok f d i es → let n := header "eh_entries" i i_block in
  0 ≤ n ∧ es = leaf_extents i i_block ∧ header "eh_depth" i i_block = 0 ∧ len es = n ∧
  (0 < n → ∃ l, es = l ++ [read_extent i i_block (n - 1)]).
Proof.
  intros [F1 F2 (R1 & R2 & -> & R4) F4 F5 F6 F7] n. pose proof (node_header_range "eh_entries" i i_block F2) as Hn.
  destruct (node_ok_inv _ _ _ R2) as (N1 & N2 & N3 & N4). unfold leaf_extents. fold n. split_and!; [lia|done|done| |].
  - unfold len. rewrite length_map, length_seqZ. lia.
  - intros Hp. exists (map (read_extent i i_block) (seqZ 0 (n - 1))).
    replace n with (Z.of_nat (S (Z.to_nat (n - 1)))) at 1 by lia. rewrite seqZ_S, map_app. cbn [map].
    rewrite Z.add_0_l, !Z2Nat.id by lia. done.
Qed.

(** The new extent behind the others. *)
Lemma extended_snoc d d' i es lb b : volume_ok f d → file_ok f d i es → allocated f d d' b → 1 ≤ b →
  lookup_extents es lb = 0 → 0 ≤ lb < 2 ^ 32 - 1 → let n := header "eh_entries" i i_block in
  n < header "eh_max" i i_block →
  append_extent n lb 1 b i = Ok (with_extent n lb b i) ∧ extended d i es lb true (with_extent n lb b i) d'.
Proof.
  intros Hv Hf Ha Hb H0 Hlb n Hn. destruct (root_entries d i es Hf) as (N0 & Ees & Ed & _ & _). fold n in N0.
  pose proof Hf as [F1 F2 F3 F4 F5 F6 F7]. destruct (append_extent_ok n lb b i F1 ltac:(lia)) as (E & El & Hby).
  pose proof (ac_available _ _ _ _ Ha) as (B1 & _ & _). destruct (vo_numbers f d Hv) as [Hnum _].
  destruct (with_extent_root n lb b i F1 ltac:(lia) ltac:(lia) ltac:(unfold in_volume in B1; lia)) as (S & S1 & S2 & S3).
  set (i' := with_extent n lb b i) in *. split; [done|].
  assert (Ees' : leaf_extents i' i_block = es ++ [mk_extent lb 1 b]).
  { rewrite Ees. by apply (leaf_extents_snoc i i' i_block n). }
  assert (Hl : ∀ x, lookup_extents (es ++ [mk_extent lb 1 b]) x = if decide (x = lb) then b else lookup_extents es x).
  { intros x. by apply lookup_snoc. }
  apply (ex_block d i es lb d' i' (es ++ [mk_extent lb 1 b]) b); try done.
  2: { apply with_extent_only; [done|lia|lia|unfold in_volume in B1; lia]. }
  apply (file_extended f d d' i es i' _ lb b); try done; [by apply Hby| |rewrite S1, (sr_max _ _ S); lia|].
  - apply (root_only_same i i'); try done; [by rewrite <- Ees|rewrite S1; lia|by apply Hby|].
    apply Forall_app. split; [by destruct F3 as (_ & _ & _ & ?)|]. constructor; [|constructor]. unfold e_end. cbn. lia.
  - apply Forall_app. split; [done|]. constructor; [done|constructor].
Qed.

(** The last extent one block longer. *)
Lemma extended_grow d d' i es lb b : volume_ok f d → file_ok f d i es → allocated f d d' b → 1 ≤ b →
  lookup_extents es lb = 0 → let n := header "eh_entries" i i_block in let e := read_extent i i_block (n - 1) in
  0 < n → lb = e_end e → b = e_start e + e_len e → e_len e < 32768 → lb < 2 ^ 32 - 1 →
  put_member Ext4Extent (entry_at i_block (n - 1)) "ee_len" (e_len e + 1) i = Ok (with_len (n - 1) (e_len e + 1) i) ∧
  extended d i es lb true (with_len (n - 1) (e_len e + 1) i) d'.
Proof.
  intros Hv Hf Ha Hb H0 n e Hn Elb Eb Hlen Hlb. destruct (root_entries d i es Hf) as (N0 & Ees & Ed & _ & Hl).
  pose proof Hf as [F1 F2 F3 F4 F5 F6 F7]. destruct (extent_range i i_block (n - 1) F2) as (X1 & X2 & X3). fold e in X1, X2, X3.
  destruct (with_len_root (n - 1) (e_len e + 1) i F1 ltac:(lia) ltac:(lia)) as (S & S1 & S2 & S3). fold e in S2.
  set (i' := with_len (n - 1) (e_len e + 1) i) in *.
  assert (Eput : put_member Ext4Extent (entry_at i_block (n - 1)) "ee_len" (e_len e + 1) i = Ok i').
  { assert (Ee : entry_at i_block (n - 1) = 52 + 12 * (n - 1)) by (unfold entry_at; places; lia).
    unfold put_member. rewrite Ee. places. rewrite put_le_ok by lia. done. }
  split; [done|]. assert (Hby : Forall byte i') by (apply Forall_splice; [apply le_bytes|done]).
  assert (En : header "eh_entries" i i_block = n - 1 + 1) by (fold n; lia). assert (En' := S1). rewrite En in En'.
  destruct (leaf_extents_last i i' i_block (n - 1) _ ltac:(lia) En En' S3 S2) as (l & L1 & L2). fold e in L1.
  rewrite <- Ees in L1. set (e' := mk_extent (e_block e) (e_len e + 1) (e_start e)) in *.
  assert (Hlk : ∀ x, lookup_extents (l ++ [e']) x = if decide (x = lb) then b else lookup_extents es x).
  { intros x. rewrite L1, Eb. rewrite L1 in F5, H0. apply lookup_grow; try done. unfold e_end in Elb. lia. }
  apply (ex_block d i es lb d' i' (l ++ [e']) b); try done; [|apply with_len_only; [done|lia|lia]].
  rewrite L1 in F5, F3. apply Forall_app in F5 as [F5 F5']. destruct F3 as (R1 & R2 & R3 & R4). apply Forall_app in R4 as [R4 R4'].
  apply (file_extended f d d' i es i' _ lb b); try done; [apply S| |rewrite S1, (sr_max _ _ S); lia|].
  - apply (root_only_same i i'); try done; [by rewrite <- Ees; destruct Hf as [_ _ F3' _ _ _ _]|rewrite S1; lia|].
    apply Forall_app. split; [done|]. constructor; [|constructor]. unfold e_end, e'. cbn [e_block e_len]. unfold e_end in Elb. lia.
  - apply Forall_app. split; [done|]. constructor; [|constructor]. by apply Forall_cons in F5' as [? _].
Qed.

Lemma last_extent_ok d i es lb : file_ok f d i es → let n := header "eh_entries" i i_block in
  let e := read_extent i i_block (n - 1) in
  last_extent n lb i =
    Ok (if (0 <? n) && (lb =? e_end e) then Some (entry_at i_block (n - 1), e_len e, e_start e + e_len e) else None).
Proof.
  intros Hf n e. destruct (root_entries d i es Hf) as (N0 & Ees & Ed & _ & Hl). fold n in N0, Hl. fold e in Hl.
  pose proof Hf as [F1 F2 F3 F4 F5 F6 F7]. fold n in F4. unfold last_extent.
  destruct (Z.ltb_spec 0 n) as [Hn|Hn]; [|done].
  destruct (extent_range i i_block (n - 1) F2) as (X1 & X2 & X3). fold e in X1, X2, X3.
  assert (He : e_end e < 2 ^ 32).
  { destruct F3 as (_ & _ & _ & R4). destruct (Hl Hn) as (l & El). rewrite El in R4. apply Forall_app in R4 as [_ R4].
    by apply Forall_cons in R4 as [? _]. }
  assert (Hin : entry_at i_block (n - 1) + 12 ≤ len i) by (unfold entry_at; places; lia).
  assert (H40 : 0 ≤ i_block) by done. assert (Hn1 : 0 ≤ n - 1) by lia.
  rewrite !get_extent by done. run. rewrite get_extent_start by done. fold e.
  change (member Ext4Extent "ee_block" _) with (e_block e). change (member Ext4Extent "ee_len" _) with (e_len e).
  rewrite (wrap_small 32) by (unfold e_end in He; lia). fold (e_end e). cbn [andb].
  destruct (lb =? e_end e); [|done]. run. rewrite wrap_small by lia. done.
Qed.

(** The checks in front: what remains with the last extent at hand. *)
Lemma runs_allocate_start s i es lb r s' : file_ok f (disk s) i es →
  let n := header "eh_entries" i i_block in
  runs (last ← lift (last_extent n lb i);
    match last with
    | Some (e, ee_len, next_phys) =>
        '(new_block, f) ← allocate_block f;
        if new_block =? 0 then mret (false, i, f) else
        if (new_block =? next_phys) && (ee_len <? 32768) then
          inode' ← lift (put_member Ext4Extent e "ee_len" (ee_len + 1) i); mret (true, inode', f)
        else if header "eh_max" i i_block <=? n then f ← free_block f new_block; mret (false, i, f)
        else inode' ← lift (append_extent n lb 1 new_block i); mret (true, inode', f)
    | None =>
        if header "eh_max" i i_block <=? n then mret (false, i, f) else
        '(new_block, f) ← allocate_block f;
        if new_block =? 0 then mret (false, i, f) else
        inode' ← lift (append_extent n lb 1 new_block i); mret (true, inode', f)
    end) s r s' → runs (extent_allocate_blocks f i lb 1) s r s'.
Proof using Hj.
  intros Hf n H. destruct (root_entries _ i es Hf) as (N0 & Ees & Ed & _ & Hl). pose proof Hf as [F1 F2 F3 F4 F5 F6 F7].
  pose proof F3 as (R1 & R2 & _ & _). unfold extent_allocate_blocks. rewrite (proj2 (Z.eqb_neq _ _)) by done.
  assert (0 ≤ i_block ∧ i_block + 12 ≤ len i) as [I1 I2] by (rewrite F1; places; lia).
  eapply runs_lift; [by apply get_header|]. rewrite Ed. cbn [Z.eqb negb].
  eapply runs_lift; [by apply get_header|]. eapply runs_lift; [by apply get_header|]. exact H.
Qed.

Lemma runs_extent_allocate s i es lb : volume_ok f (disk s) → block_size f ≤ quota s → file_ok f (disk s) i es →
  lookup_extents es lb = 0 → 0 ≤ lb < 2 ^ 32 - 1 →
  ∃ ok i' f' d', runs (extent_allocate_blocks f i lb 1) s (ok, i', f') (set_disk d' s) ∧ same_fs f f' ∧
    extended (disk s) i es lb ok i' d'.
Proof using Hj.
  intros Hv Hq Hf H0 Hlb. destruct (root_entries _ i es Hf) as (N0 & Ees & Ed & _ & Hl).
  pose proof Hf as [F1 F2 F3 F4 F5 F6 F7]. pose proof F3 as (R1 & R2 & _ & _).
  pose proof (last_extent_ok _ i es lb Hf) as Elast. cbn zeta in Elast.
  set (n := header "eh_entries" i i_block) in *. set (e := read_extent i i_block (n - 1)) in *.
  pose proof (λ r s', runs_allocate_start s i es lb r s' Hf) as Hpre. cbn zeta in Hpre. fold n in Hpre.
  destruct (runs_allocate_block f Hj s Hv Hq) as (b & f1 & d1 & Hr & Hs & Hres).
  destruct ((0 <? n) && (lb =? e_end e)) eqn:Eapp.
  - apply andb_true_iff in Eapp as [En%Z.ltb_lt Elb%Z.eqb_eq].
    destruct Hres as [(Hb & Ha & _)|(-> & -> & -> & Hno)].
    2: { do 4 eexists. split; [apply Hpre; eapply runs_lift; [exact Elast|]; eapply runs_bind; [exact Hr|]; apply runs_ret|].
         split; [done|]. apply ex_full; [by apply meta_only_refl|by left]. }
    assert (Hb0 : (b =? 0) = false) by lia.
    destruct ((b =? e_start e + e_len e) && (e_len e <? 32768)) eqn:Emerge.
    { apply andb_true_iff in Emerge as [Eb%Z.eqb_eq El%Z.ltb_lt].
      destruct (extended_grow (disk s) d1 i es lb b Hv Hf Ha Hb H0 En Elb Eb El ltac:(lia)) as [Eput Hex].
      do 4 eexists. split; [|split; [exact Hs|exact Hex]]. apply Hpre. eapply runs_lift; [exact Elast|].
      eapply runs_bind; [exact Hr|]. cbn beta iota. rewrite Hb0, Eb, Z.eqb_refl, (proj2 (Z.ltb_lt _ _)) by done. cbn [andb].
      eapply runs_lift; [exact Eput|]. apply runs_ret. }
    destruct (Z.leb_spec (header "eh_max" i i_block) n) as [Hmax|Hmax].
    { destruct (runs_free_allocated f Hj s f1 d1 b Hv Hq Hs Hb Ha) as (f2 & d2 & Hr2 & Hs2 & Hf2).
      destruct (allocated_freed f (disk s) d1 d2 b Hv Ha Hf2) as (M1 & M2 & M3).
      do 4 eexists. split; [|split; [exact Hs2|apply (ex_full (disk s) i es lb d2); [|right; lia]]].
      - apply Hpre. eapply runs_lift; [exact Elast|]. eapply runs_bind; [exact Hr|]. cbn beta iota.
        rewrite Hb0, Emerge. eapply runs_bind; [exact Hr2|]. apply runs_ret.
      - constructor; [apply Hf2|eapply same_places_trans; [apply Ha|apply Hf2]|done|done]. }
    destruct (extended_snoc (disk s) d1 i es lb b Hv Hf Ha Hb H0 Hlb Hmax) as [Eput Hex].
    do 4 eexists. split; [|split; [exact Hs|exact Hex]]. apply Hpre. eapply runs_lift; [exact Elast|].
    eapply runs_bind; [exact Hr|]. cbn beta iota. rewrite Hb0, Emerge.
    eapply runs_lift; [exact Eput|]. apply runs_ret.
  - destruct (Z.leb_spec (header "eh_max" i i_block) n) as [Hmax|Hmax].
    { exists false, i, f, (disk s). split; [|split; [apply same_fs_refl|]].
      - apply Hpre. eapply runs_lift; [exact Elast|]. cbn beta iota.
        rewrite set_disk_same. apply runs_ret.
      - apply ex_full; [by apply meta_only_refl|right; lia]. }
    destruct Hres as [(Hb & Ha & _)|(-> & -> & -> & Hno)].
    2: { do 4 eexists. split; [apply Hpre; eapply runs_lift; [exact Elast|]; cbn beta iota; eapply runs_bind; [exact Hr|]; apply runs_ret|].
         split; [done|]. apply ex_full; [by apply meta_only_refl|by left]. }
    destruct (extended_snoc (disk s) d1 i es lb b Hv Hf Ha Hb H0 Hlb Hmax) as [Eput Hex].
    do 4 eexists. split; [|split; [exact Hs|exact Hex]]. apply Hpre. eapply runs_lift; [exact Elast|].
    cbn beta iota. eapply runs_bind; [exact Hr|]. cbn beta iota.
    rewrite (proj2 (Z.eqb_neq _ _)) by lia. eapply runs_lift; [exact Eput|]. apply runs_ret.
Qed.
End allocate.

(** ** Writing *)

Section data.
Context (f : Ext4Manager).
Implicit Types d i bs : list Z.

(** A block of data changed. *)
Section block.
Context (d : list Z) (b : Z) (bs : list Z).
Context (Hv : volume_ok f d) (Hb : on_disk f d b) (Hr : ∀ r, ¬ has_role f d b r).
Context (El : len bs = block_size f) (Hbs : Forall byte bs).
Let d' := put_block f b bs d.

Lemma db_other x : on_disk f d x → x ≠ b → block f d' x = block f d x.
Proof using Hv Hb El. intros Hx Hne. apply block_put_other; [apply (vo_geometry f d Hv)|done|done|done|congruence]. Qed.

Lemma db_role x r : has_role f d x r → block f d' x = block f d x.
Proof using Hv Hb Hr El. intros Hx. apply db_other; [by eapply role_block|]. intros ->. by apply (Hr r). Qed.

Lemma db_places : same_places f d d'.
Proof using Hv Hb Hr El Hbs.
  pose proof (vo_geometry f d Hv) as Hg. apply places_of_blocks; [done|by apply len_put_block|by apply geometry_put|].
  intros g Hgg. apply (db_role _ Descriptors). by exists g.
Qed.

Lemma db_used x : in_volume f x → used f d' x = used f d x.
Proof using Hv Hb Hr El Hbs.
  intros Hx. assert (Hgx : is_group f (group_in f x)) by (apply block_group; [apply (vo_groups f d Hv)|done]).
  apply used_block; [apply db_places|done|]. by apply (db_role _ (BlockBitmap (group_in f x))).
Qed.

Lemma db_volume : volume_ok f d'.
Proof using Hv Hb Hr El Hbs.
  apply (sp_volume f d d' Hv db_places).
  - intros x r Hx. destruct (vo_meta f d Hv x r Hx). by rewrite db_used.
  - intros x Hx. rewrite db_used by done. by apply (vo_free f d Hv).
Qed.

Lemma db_file i es : file_ok f d i es → file_ok f d' i es.
Proof using Hv Hb Hr El Hbs.
  intros [F1 F2 F3 F4 F5 F6 F7]. constructor; try done. intros lb Hlb x. destruct (F6 lb Hlb) as (X1 & X2 & X3 & X4).
  split; [done|]. split; [by rewrite db_used|]. split; [eapply on_disk_len; [apply db_places|done]|].
  intros r Hx%(sp_role f d d' Hv db_places). by apply (X4 r).
Qed.
End block.

(** The logical block [lb] has the block [b]: as before, or from a free one. *)
Record mapped (d i : list Z) (es : list extent) (lb b : Z) (d1 i1 : list Z) (es1 : list extent) : Prop := {
  mp_volume : volume_ok f d1;
  mp_places : same_places f d d1;
  mp_file : file_ok f d1 i1 es1;
  mp_here : lookup_extents es1 lb = b ∧ b ≠ 0;
  mp_there x : x ≠ lb → lookup_extents es1 x = lookup_extents es x;
  mp_from : lookup_extents es lb = b ∨ (lookup_extents es lb = 0 ∧ in_volume f b ∧ used f d b = false);
  mp_used x : in_volume f x → used f d x = true → used f d1 x = true;
  mp_block x : on_disk f d x → (∀ r, ¬ has_role f d x r) → block f d1 x = block f d x;
  mp_inodes j : is_inode f j → Ext4.inode f d1 j = Ext4.inode f d j;
  mp_root : only_extents i i1
}.

Lemma mapped_same d i es lb : volume_ok f d → file_ok f d i es → lookup_extents es lb ≠ 0 →
  mapped d i es lb (lookup_extents es lb) d i es.
Proof. intros Hv Hf H. constructor; try done; [apply same_places_refl, (vo_geometry f d Hv)|by left]. Qed.

Lemma mapped_new d i es lb b d1 i1 es1 : volume_ok f d → lookup_extents es lb = 0 → allocated f d d1 b → 1 ≤ b →
  file_ok f d1 i1 es1 → only_extents i i1 →
  (∀ x, lookup_extents es1 x = if decide (x = lb) then b else lookup_extents es x) →
  mapped d i es lb b d1 i1 es1.
Proof.
  intros Hv H0 [A1 A2 (B1 & B2 & B3) A4 A5 A6 A7] Hb Hf Ho Hl. constructor; try done.
  - rewrite Hl, decide_True by done. split; [done|lia].
  - intros x Hx. by rewrite Hl, decide_False.
  - by right.
  - intros x Hx Hu. rewrite A5 by done. by destruct (decide _).
  - intros x Hx Hr. apply A7; [done|]. by apply (no_role_meta f d).
  - intros j Hj. by apply (meta_inode f d d1).
Qed.

(** What has become of the disk [d0] and the file with the extents [es0] after the first
    [k] bytes of [buf] were written from [off] on. *)
Record written (d0 : list Z) (es0 : list extent) (off : Z) (buf : list Z) (k : Z) (d i : list Z) (es : list extent) : Prop := {
  wr_volume : volume_ok f d;
  wr_places : same_places f d0 d;
  wr_file : file_ok f d i es;
  wr_keep lb : lookup_extents es0 lb ≠ 0 → lookup_extents es lb = lookup_extents es0 lb;
  wr_new lb : lookup_extents es0 lb = 0 → lookup_extents es lb ≠ 0 →
    in_volume f (lookup_extents es lb) ∧ used f d0 (lookup_extents es lb) = false ∧
    block_size f * lb < off + k ∧ off < block_size f * (lb + 1);
  wr_bytes j : 0 ≤ j < k → let lb := (off + j) / block_size f in
    lookup_extents es lb ≠ 0 ∧
    block f d (lookup_extents es lb) !! Z.to_nat ((off + j) mod block_size f) = buf !! Z.to_nat j;
  wr_old lb q : lookup_extents es0 lb ≠ 0 → 0 ≤ q < block_size f → ¬ (off ≤ block_size f * lb + q < off + k) →
    block f d (lookup_extents es0 lb) !! Z.to_nat q = block f d0 (lookup_extents es0 lb) !! Z.to_nat q;
  wr_used x : in_volume f x → used f d0 x = true → used f d x = true;
  wr_other x : on_disk f d0 x → (∀ r, ¬ has_role f d0 x r) → (in_volume f x → used f d0 x = true) →
    (∀ lb, lookup_extents es0 lb ≠ x) → block f d x = block f d0 x;
  wr_inodes j : is_inode f j → Ext4.inode f d j = Ext4.inode f d0 j
}.

Lemma written_start d i es off buf : volume_ok f d → file_ok f d i es → written d es off buf 0 d i es.
Proof.
  intros Hv Hf. constructor; try done; [apply same_places_refl, (vo_geometry f d Hv)|]. intros j Hj. lia.
Qed.

(** An attempt to allocate a block that failed. *)
Lemma written_meta d0 es0 off buf k d i es d' : volume_ok f d0 → written d0 es0 off buf k d i es → meta_only f d d' →
  written d0 es0 off buf k d' i es.
Proof.
  intros Hv0 [W1 W2 W3 W4 W5 W6 W7 W8 W9 W10] [M1 M2 M3 M4]. pose proof (sp_len _ _ _ M2) as El.
  pose proof (sp_len _ _ _ W2) as El0.
  assert (Hb : ∀ lb, lookup_extents es lb ≠ 0 → block f d' (lookup_extents es lb) = block f d (lookup_extents es lb)).
  { intros lb Hlb. destruct (fo_block _ _ _ _ W3 lb Hlb) as (X1 & X2 & X3 & X4). apply M4; [done|]. by apply (no_role_meta f d). }
  constructor; try done.
  - by eapply same_places_trans.
  - destruct W3 as [F1 F2 F3 F4 F5 F6 F7]. constructor; try done. intros lb Hlb x. destruct (F6 lb Hlb) as (X1 & X2 & X3 & X4).
    split; [done|]. split; [by rewrite M3|]. split; [by eapply on_disk_len|].
    intros r Hx%(sp_role f d d' W1 M2). by apply (X4 r).
  - intros j Hj lb. destruct (W6 j Hj) as [H1 H2]. split; [done|]. by rewrite Hb.
  - intros lb q Hlb Hq Hn. rewrite <- W7 by done. rewrite <- (W4 lb Hlb). rewrite Hb by (by rewrite W4). done.
  - intros x Hx Hu. rewrite M3 by done. by apply W8.
  - intros x Hx Hr Hu Hn. rewrite M4; [by apply W9|by eapply on_disk_len|].
    intros g Hg. rewrite (sp_bbm _ _ _ W2) by done. by apply (no_role_meta f d0).
  - intros j Hj. rewrite (meta_inode f d d') by done. by apply W10.
Qed.

(** One more part of a block. *)
Section step.
Context (d0 : list Z) (es0 : list extent) (off : Z) (buf : list Z) (k : Z) (d i : list Z) (es : list extent).
Context (d1 i1 : list Z) (es1 : list extent) (b n : Z).
Context (Hv0 : volume_ok f d0) (Hw : written d0 es0 off buf k d i es) (Hoff : 0 ≤ off) (Hk : 0 ≤ k).
Let lb := (off + k) / block_size f.
Let p := (off + k) mod block_size f.
Context (Hm : mapped d i es lb b d1 i1 es1) (Hn : 0 < n) (Hnk : k + n ≤ len buf) (Hpn : p + n ≤ block_size f).
Context (Hbuf : Forall byte buf).
Let part := sub k n buf.
Let d2 := put_block f b (splice p part (block f d1 b)) d1.

Lemma st_place : 0 ≤ p < block_size f ∧ off + k = block_size f * lb + p ∧ 0 ≤ lb.
Proof using Hv0 Hoff Hk.
  pose proof (block_size_bounds f d0 (vo_geometry f d0 Hv0)). split; [apply Z.mod_pos_bound; lia|].
  split; [apply Z.div_mod; lia|apply Z.div_pos; lia].
Qed.

Lemma st_block : on_disk f d1 b ∧ (∀ r, ¬ has_role f d1 b r) ∧ len (block f d1 b) = block_size f ∧ len part = n.
Proof using Hv0 Hm Hn Hnk Hk.
  destruct (mp_here _ _ _ _ _ _ _ _ Hm) as [E Hb]. destruct (fo_block _ _ _ _ (mp_file _ _ _ _ _ _ _ _ Hm) lb) as (X1 & X2 & X3 & X4); [by rewrite E|].
  rewrite E in *. split; [done|]. split; [done|]. split; [apply len_block; [apply Hm|done]|]. apply len_sub; lia.
Qed.

Lemma st_new : len (splice p part (block f d1 b)) = block_size f ∧ Forall byte (splice p part (block f d1 b)).
Proof using Hv0 Hm Hn Hnk Hpn Hbuf Hoff Hk.
  destruct st_block as (B1 & B2 & B3 & B4). destruct st_place as (P1 & _). split; [rewrite len_splice; lia|].
  apply Forall_splice; [by apply Forall_sub|]. apply block_bytes, Hm.
Qed.

Lemma st_volume2 : volume_ok f d2 ∧ same_places f d1 d2 ∧ file_ok f d2 i1 es1.
Proof using Hv0 Hm Hn Hnk Hpn Hbuf Hoff Hk.
  destruct st_block as (B1 & B2 & B3 & B4). destruct st_new as [N1 N2]. pose proof (mp_volume _ _ _ _ _ _ _ _ Hm) as Hv1.
  split; [by apply db_volume|]. split; [by apply db_places|]. apply db_file; try done. apply Hm.
Qed.

(** A block of the file before the step is the same but for the part. *)
Lemma st_read x q : lookup_extents es x ≠ 0 → 0 ≤ q < block_size f → ¬ (x = lb ∧ p ≤ q < p + n) →
  lookup_extents es1 x = lookup_extents es x ∧
  block f d2 (lookup_extents es x) !! Z.to_nat q = block f d (lookup_extents es x) !! Z.to_nat q.
Proof using Hv0 Hw Hm Hn Hnk Hpn Hbuf Hoff Hk.
  intros Hx Hq Hout. destruct st_block as (B1 & B2 & B3 & B4). destruct st_place as (P1 & _).
  destruct (fo_block _ _ _ _ (wr_file _ _ _ _ _ _ _ _ Hw) x Hx) as (X1 & X2 & X3 & X4).
  assert (E1 : block f d1 (lookup_extents es x) = block f d (lookup_extents es x)) by by apply (mp_block _ _ _ _ _ _ _ _ Hm).
  assert (X3' : on_disk f d1 (lookup_extents es x)).
  { eapply on_disk_len; [apply (mp_places _ _ _ _ _ _ _ _ Hm)|done]. }
  destruct (mp_here _ _ _ _ _ _ _ _ Hm) as [Eh Hb]. destruct (decide (x = lb)) as [->|Hne].
  - destruct (mp_from _ _ _ _ _ _ _ _ Hm) as [E|[E _]]; [|by rewrite E in Hx]. rewrite E in *. split; [done|].
    rewrite <- E1. unfold d2. rewrite block_put_same; [|apply Hm|done|apply st_new].
    apply lookup_splice_out; lia.
  - split; [by apply (mp_there _ _ _ _ _ _ _ _ Hm)|]. rewrite <- E1. f_equal. unfold d2.
    apply (db_other d1); [apply Hm|done|apply st_new|done|]. intros E. apply Hne.
    apply (fo_inj _ _ _ _ (mp_file _ _ _ _ _ _ _ _ Hm)).
    + by rewrite (mp_there _ _ _ _ _ _ _ _ Hm) by done.
    + rewrite Eh. by rewrite (mp_there _ _ _ _ _ _ _ _ Hm) by done.
Qed.

Lemma st_bytes j : 0 ≤ j < k + n → let x := (off + j) / block_size f in
  lookup_extents es1 x ≠ 0 ∧
  block f d2 (lookup_extents es1 x) !! Z.to_nat ((off + j) mod block_size f) = buf !! Z.to_nat j.
Proof using Hv0 Hw Hm Hn Hnk Hpn Hbuf Hoff Hk.
  intros Hj x. destruct st_block as (B1 & B2 & B3 & B4). destruct st_place as (P1 & P2 & P3).
  pose proof (block_size_bounds f d0 (vo_geometry f d0 Hv0)) as Hs.
  pose proof (Z.div_mod (off + j) (block_size f) ltac:(lia)) as Ej.
  pose proof (Z.mod_pos_bound (off + j) (block_size f) ltac:(lia)) as Hq.
  fold x in Ej. set (q := (off + j) mod block_size f) in *. destruct (decide (j < k)) as [Hlt|Hge].
  - destruct (wr_bytes _ _ _ _ _ _ _ _ Hw j) as [H1 H2]; [lia|]. fold x q in H1, H2.
    destruct (st_read x q) as [E1 E2]; [done|done|intros [-> ?]; lia|]. by rewrite E1, E2.
  - assert (x = lb) as -> by nia. assert (q = p + (j - k)) as -> by lia.
    destruct (mp_here _ _ _ _ _ _ _ _ Hm) as [-> Hb]. split; [done|]. unfold d2.
    rewrite block_put_same; [|apply Hm|done|apply st_new].
    rewrite lookup_splice_in by lia. unfold part. rewrite lookup_sub by lia. f_equal. lia.
Qed.

Lemma st_written : written d0 es0 off buf (k + n) d2 i1 es1.
Proof using Hv0 Hw Hm Hn Hnk Hpn Hbuf Hoff Hk.
  pose proof Hw as [W1 W2 W3 W4 W5 W6 W7 W8 W9 W10]. destruct st_volume2 as (V1 & V2 & V3).
  destruct st_block as (B1 & B2 & B3 & B4). destruct st_place as (P1 & P2 & P3).
  pose proof Hm as [M1 M2 M3 [M4 Mb] M5 M6 M7 M8 M9 M10].
  assert (E2 : same_places f d0 d1) by by eapply same_places_trans.
  constructor; try done.
  - by eapply same_places_trans.
  - intros x Hx. rewrite <- W4 by done. destruct (decide (x = lb)) as [->|]; [|by apply M5].
    destruct M6 as [->|[E _]]; [done|]. by rewrite <- W4, E in Hx.
  - intros x Hx0 Hx. destruct (decide (x = lb)) as [->|Hne].
    + rewrite M4 in *. destruct M6 as [E|(E & Hin & Hu)].
      * destruct (W5 lb Hx0) as (X1 & X2 & X3 & X4); [by rewrite E|]. rewrite E in *. split; [done|]. split; [done|]. lia.
      * split; [done|]. split; [|lia]. apply not_true_iff_false. intros Hu0. by rewrite W8 in Hu.
    + rewrite M5 in * by done. destruct (W5 x Hx0 Hx) as (X1 & X2 & X3 & X4). split; [exact X1|]. split; [exact X2|]. lia.
  - intros j Hj. by apply st_bytes.
  - intros x q Hx Hq Hout. pose proof (W4 x Hx) as Ex. rewrite <- W7 by (done || lia). rewrite <- Ex.
    apply st_read; [by rewrite Ex|done|]. intros [-> ?]. lia.
  - intros x Hx Hu. unfold d2. rewrite (db_used d1 b); [|done|done|done|apply st_new|apply st_new|done].
    apply M7; [done|]. by apply W8.
  - intros x Hx Hr Hu Hno. rewrite <- (W9 x) by done. assert (Hxd : on_disk f d x) by (eapply on_disk_len; [apply W2|done]).
    rewrite <- M8; [|done|intros r Hxr%(sp_role f d0 d Hv0 W2); by apply (Hr r)].
    unfold d2. apply (db_other d1); [done|done|apply st_new|eapply on_disk_len; [apply M2|done]|].
    intros ->. destruct M6 as [E|(E & Hin & Hub)].
    + destruct (decide (lookup_extents es0 lb = 0)) as [E0|E0].
      * destruct (W5 lb E0) as (X1 & X2 & _); [by rewrite E|]. rewrite E in *. by rewrite Hu in X2.
      * apply (Hno lb). by rewrite <- W4, E.
    + rewrite W8 in Hub; [done|done|by apply Hu].
  - intros j Hj. rewrite <- W10, <- M9 by done. apply (inode_block_kept f d1 d2); [done..|].
    apply (db_role d1 b _ M1 B1 B2 (proj1 st_new) _ InodeTable). by exists j.
Qed.
End step.
End data.

Section writing.
Context {W : Type} `{!BlockDevice W, !Allocator W, !StoreLaws W}.
Context (f : Ext4Manager) (Hj : s_journal_inum f = 0).
Implicit Types s : store.

Lemma splice_whole (bs l : list Z) : len bs = len l → splice 0 bs l = bs.
Proof.
  intros E. unfold splice, len in *. rewrite drop_ge by lia. cbn [Z.to_nat take]. by rewrite app_nil_r.
Qed.

Lemma runs_write_in_block fc s b p part : same_fs f fc → volume_ok f (disk s) → on_disk f (disk s) b →
  block_size f ≤ quota s → 0 ≤ p → 0 < len part → p + len part ≤ block_size f → Forall byte part →
  runs (write_part fc b p part) s fc (set_disk (put_block f b (splice p part (block f (disk s) b)) (disk s)) s).
Proof using Hj.
  intros Hs Hv Hb Hq Hp Hl Hpl Hby. pose proof (vo_geometry f _ Hv) as Hg. pose proof (block_size_bounds f _ Hg) as Hbs.
  pose proof (same_geometry f fc Hs _ Hg) as Hgc. assert (Ebs : block_size fc = block_size f) by by rewrite (sf_fields _ _ Hs).
  assert (Hbc : on_disk fc (disk s) b) by by apply (same_on_disk f fc Hs).
  assert (Hjc : s_journal_inum fc = 0) by by rewrite (sf_inum _ _ Hs).
  pose proof (len_block f _ b Hg Hb) as El. unfold write_part. rewrite Ebs.
  set (new := splice p part (block f (disk s) b)). assert (En : len new = block_size f) by (unfold new; rewrite len_splice; lia).
  assert (Hnew : Forall byte new) by by apply Forall_splice, block_bytes.
  assert (Eput : put_block fc b new (disk s) = put_block f b new (disk s)) by by rewrite (sf_fields _ _ Hs).
  assert (Hw : ∀ q, q ∉ live s → runs (f0 ← journal_write_block fc b new; kfree q;; mret f0) (add_buffer q s) fc
    (set_disk (put_block f b new (disk s)) s)).
  { intros q Hl'. eapply runs_bind; [apply (runs_journal_write fc Hjc (add_buffer q s)); [done|done|by rewrite Ebs|done]|].
    cbn [disk add_buffer]. rewrite Eput, set_disk_add. apply runs_kfree; [done|]. apply runs_ret. }
  apply runs_kmalloc; [lia|]. intros q Hq0 Hl'. destruct (Z.ltb_spec (len part) (block_size f)) as [Hlt|Hge].
  - eapply runs_bind; [by apply (runs_read_blocks_into fc (add_buffer q s))|]. cbn [disk add_buffer].
    rewrite (same_block f fc Hs). eapply runs_lift; [apply put_bytes_ok; lia|]. by apply Hw.
  - rewrite (proj2 (Z.eqb_neq _ _)) by done. eapply runs_bind; [apply runs_ret|]. assert (p = 0) as Ep by lia.
    assert (Ez : len (replicate (Z.to_nat (block_size f)) 0) = block_size f) by (unfold len; rewrite length_replicate; lia).
    eapply runs_lift; [apply put_bytes_ok; lia|].
    assert (Enew : splice p part (replicate (Z.to_nat (block_size f)) 0) = new).
    { unfold new. rewrite Ep, !splice_whole by lia. done. }
    rewrite Enew. by apply Hw.
Qed.

(** The block for a write: mapped, or the code gives up. *)
Lemma runs_block_for_write fc s i es lb : same_fs f fc → volume_ok f (disk s) → block_size f ≤ quota s →
  file_ok f (disk s) i es → 0 ≤ lb < 2 ^ 32 - 1 →
  ∃ b i' fc' d', runs (block_for_write fc i lb) s (b, i', fc') (set_disk d' s) ∧ same_fs f fc' ∧
    ((∃ es', mapped f (disk s) i es lb b d' i' es') ∨
     (b = 0 ∧ i' = i ∧ meta_only f (disk s) d' ∧ lookup_extents es lb = 0 ∧
       ((∀ x, ¬ available f d' x) ∨ header "eh_entries" i i_block = header "eh_max" i i_block))).
Proof using Hj.
  intros Hs Hv Hq Hf Hlb. pose proof (same_fs_sym f fc Hs) as Hs'. pose proof (same_volume f fc Hs _ Hv) as Hvc.
  assert (Ebs : block_size fc = block_size f) by by rewrite (sf_fields _ _ Hs).
  assert (Hjc : s_journal_inum fc = 0) by by rewrite (sf_inum _ _ Hs).
  assert (Hget : ∀ fx sx ix ex, same_fs f fx → geometry_ok f (disk sx) → block_size f ≤ quota sx → Forall byte ix →
    root_only ix ex → runs (extent_get_block fx ix lb) sx (lookup_extents ex lb) sx).
  { intros fx sx ix ex Hsx Hgx Hqx Hbx Hrx. apply runs_extent_get_block; try done; [by apply (same_geometry f fx)| |lia|].
    - by rewrite (sf_fields _ _ Hsx).
    - by apply root_only_extents. }
  pose proof (Hget fc s i es Hs (vo_geometry _ _ Hv) Hq (fo_bytes _ _ _ _ Hf) (fo_root _ _ _ _ Hf)) as Hg.
  unfold block_for_write. destruct (Z.eqb_spec (lookup_extents es lb) 0) as [E|Hne].
  2: { exists (lookup_extents es lb), i, fc, (disk s). rewrite set_disk_same. split.
       - eapply runs_bind; [exact Hg|]. rewrite (proj2 (Z.eqb_neq _ _)) by done. apply runs_ret.
       - split; [done|]. left. exists es. by apply mapped_same. }
  destruct (runs_extent_allocate fc Hjc s i es lb Hvc ltac:(by rewrite Ebs) (proj1 (file_same f fc Hs _ _ _) Hf) E Hlb)
    as (ok & i' & fc' & d' & Hr & Hs2 & Hex).
  pose proof (same_fs_trans _ _ _ Hs Hs2) as Hs3.
  destruct Hex as [d' i' es' b Ha Hb Hf' Hoe Hl|d' Hmo Hfull].
  - apply (allocated_same f fc Hs) in Ha. apply (file_same f fc Hs) in Hf'.
    exists b, i', fc', d'. split; [|split; [done|left; exists es'; by apply mapped_new]].
    eapply runs_bind; [exact Hg|]. rewrite E. cbn [Z.eqb]. eapply runs_bind; [exact Hr|]. cbn beta iota. cbn [negb].
    assert (Eb : lookup_extents es' lb = b) by by rewrite Hl, decide_True. rewrite <- Eb.
    eapply runs_bind; [apply (Hget fc' (set_disk d' s) i' es' Hs3)|apply runs_ret].
    + apply (vo_geometry f d'), Ha.
    + done.
    + apply Hf'.
    + apply Hf'.
  - exists 0, i, fc', d'. split; [|split; [done|right; split; [done|]; split; [done|]; split; [|split; [done|]]]].
    + eapply runs_bind; [exact Hg|]. rewrite E. cbn [Z.eqb]. eapply runs_bind; [exact Hr|]. cbn beta iota. cbn [negb].
      apply runs_ret.
    + destruct Hmo as [M1 M2 M3 M4]. constructor.
      * by apply (same_volume fc f Hs').
      * by apply (places_same f fc).
      * intros x Hx. rewrite <- !(same_used f fc Hs). by apply M3, (same_in_volume f fc).
      * intros x Hx Hn. rewrite <- !(same_block f fc Hs). apply M4; [by apply (same_on_disk f fc)|].
        intros g Hg'. rewrite (same_bbm f fc Hs), (same_desc_blk f fc Hs). by apply Hn, (same_is_group f fc).
    + destruct Hfull as [Hno|Hfull]; [left|by right]. intros x Hx%(available_same f fc Hs). by apply (Hno x).
Qed.

Definition full (d i : list Z) : Prop :=
  (∀ x, ¬ available f d x) ∨ header "eh_entries" i i_block = header "eh_max" i i_block.

Lemma runs_write_blocks d0 es0 off buf n : volume_ok f d0 → 0 ≤ off → off + len buf < 2 ^ 32 → Forall byte buf →
  ∀ s fc i es k, same_fs f fc → block_size f ≤ quota s → written f d0 es0 off buf k (disk s) i es → 0 ≤ k ≤ len buf →
  (k < len buf → (off + k) mod block_size f + (len buf - k) ≤ block_size f * Z.of_nat n) →
  ∃ k' i' es' fc' d', runs (write_loop n fc i off buf k) s (k', i', fc') (set_disk d' s) ∧ same_fs f fc' ∧
    k ≤ k' ≤ len buf ∧ written f d0 es0 off buf k' d' i' es' ∧ only_extents i i' ∧
    (k' < len buf → full d' i' ∧ lookup_extents es' ((off + k') / block_size f) = 0).
Proof using Hj.
  intros Hv0 Ho Hlen Hby. pose proof (block_size_bounds f d0 (vo_geometry f d0 Hv0)) as Hbs.
  induction n as [|n IH]; intros s fc i es k Hs Hq Hw Hk Hn.
  all: assert (Ebs : block_size fc = block_size f) by by rewrite (sf_fields _ _ Hs).
  all: pose proof (Z.mod_pos_bound (off + k) (block_size f) ltac:(lia)) as Hp.
  all: cbn [write_loop]; destruct (Z.ltb_spec k (len buf)) as [Hlt|Hge];
    [|exists k, i, es, fc, (disk s); rewrite set_disk_same;
      split; [apply runs_ret|]; split; [done|]; split; [lia|]; split; [done|split; [reflexivity|lia]]].
  { specialize (Hn Hlt). lia. }
  specialize (Hn Hlt). rewrite (wrap_small 32) by lia. rewrite !Ebs.
  pose proof (Z.div_mod (off + k) (block_size f) ltac:(lia)) as Ed.
  assert (Hlb : 0 ≤ (off + k) / block_size f) by (apply Z.div_pos; lia).
  destruct (runs_block_for_write fc s i es ((off + k) / block_size f) Hs (wr_volume _ _ _ _ _ _ _ _ _ Hw) Hq
    (wr_file _ _ _ _ _ _ _ _ _ Hw) ltac:(nia)) as (b & i1 & fc1 & d1 & Hr & Hs1 & Hres).
  destruct Hres as [(es1 & Hm)|(-> & -> & Hmo & H0 & Hfull)].
  2: { exists k, i, es, fc1, d1. split.
       - eapply runs_lift; [apply udiv_ok; lia|]. eapply runs_lift; [apply umod_ok; lia|].
         eapply runs_bind; [exact Hr|]. cbn beta iota. cbn [Z.eqb]. apply runs_ret.
       - split; [done|]. split; [lia|]. split; [by eapply written_meta|]. split; [reflexivity|done]. }
  assert (Ebs1 : block_size fc1 = block_size f) by by rewrite (sf_fields _ _ Hs1).
  set (m := Z.min (block_size f - (off + k) mod block_size f) (len buf - k)).
  assert (Hm' : 0 < m ∧ k + m ≤ len buf ∧ (off + k) mod block_size f + m ≤ block_size f) by (unfold m; lia).
  destruct Hm' as (Hm0 & Hm1 & Hm2).
  pose proof (st_written f d0 es0 off buf k (disk s) i es d1 i1 es1 b m Hv0 Hw Ho (proj1 Hk) Hm Hm0 Hm1 Hm2 Hby) as Hw2.
  destruct (st_block f d0 off buf k (disk s) i es d1 i1 es1 b m Hv0 ltac:(lia) Hm Hm0 Hm1) as (B1 & B2 & B3 & B4).
  set (d2 := put_block f b _ d1) in Hw2.
  destruct (IH (set_disk d2 s) fc1 i1 es1 (k + m)) as (k' & i' & es' & fc' & d' & Hr' & Hs' & Hk' & Hw' & Ho' & Hfull'); try done; [lia| |].
  { intros Hmore. assert (Em : m = block_size f - (off + k) mod block_size f) by (unfold m in *; lia).
    replace (off + (k + m)) with (((off + k) / block_size f + 1) * block_size f) by lia. rewrite Z.mod_mul by lia. lia. }
  exists k', i', es', fc', d'. split; [|split; [done|split; [lia|split; [done|split; [|done]]]]].
  2: { etransitivity; [apply (mp_root _ _ _ _ _ _ _ _ _ Hm)|exact Ho']. }
  eapply runs_lift; [apply udiv_ok; lia|]. eapply runs_lift; [apply umod_ok; lia|].
  eapply runs_bind; [exact Hr|]. cbn beta iota. rewrite (proj2 (Z.eqb_neq _ _)) by apply Hm.
  rewrite smaller_min, Ebs1. fold m. eapply runs_lift; [apply get_bytes_ok; lia|].
  eapply runs_bind.
  { apply (runs_write_in_block fc1 (set_disk d1 s) b _ (sub k m buf) Hs1); [apply Hm|done|done|lia|lia|lia|by apply Forall_sub]. }
  cbn [disk set_disk]. rewrite set_disk_set. fold d2. rewrite set_disk_set in Hr'. exact Hr'.
Qed.
End writing.

(** ** The results *)

Section size.
Implicit Types d i : list Z.

(** The members of an inode before its flags are apart from the extents. *)
Definition early (x : string) : Prop := offset_of Ext4Inode x + Z.of_nat (width_of Ext4Inode x) ≤ 32.

Lemma early_root x (n : Z) i : early x → len i = 160 → let i' := set_member Ext4Inode x n i in
  same_root i i' ∧ header "eh_entries" i' i_block = header "eh_entries" i i_block ∧
  (Forall byte i → leaf_extents i' i_block = leaf_extents i i_block).
Proof.
  intros Hx F1 i'. assert (El : len i' = 160) by (unfold i'; rewrite len_set_member; [done|by rewrite F1]).
  assert (Hfar : ∀ o k, 32 ≤ o → 0 ≤ k → sub o k i' = sub o k i).
  { intros o k Ho Hk. unfold i', set_member, early in *. pose proof (offset_bounds Ext4Inode x).
    apply sub_splice_disjoint; rewrite ?len_le; lia. }
  assert (Ee : header "eh_entries" i' i_block = header "eh_entries" i i_block).
  { rewrite !header_at. places. rewrite Hfar by lia. done. }
  split; [|split; [done|]].
  - constructor; [done|unfold member; places|rewrite !header_at; places..]; rewrite Hfar by lia; done.
  - intros Hb. unfold leaf_extents. rewrite Ee. apply map_ext_in. intros j Hj.
    apply list_elem_of_In, elem_of_seqZ in Hj. rewrite !read_extent_at by lia. rewrite !Hfar by lia. done.
Qed.

Lemma early_file x d i es n f : early x → file_ok f d i es → file_ok f d (set_member Ext4Inode x n i) es.
Proof.
  intros Hx Hf. pose proof Hf as [F1 F2 F3 F4 F5 F6 F7]. destruct (early_root x n i Hx F1) as (Hs & Ee & Ex).
  specialize (Ex F2). set (i' := set_member _ _ _ _) in *. pose proof F3 as (R1 & R2 & R3 & R4).
  assert (Hby : Forall byte i') by by apply set_member_bytes. constructor; try done.
  - apply Hs.
  - apply (root_only_same i i'); try done; [by rewrite <- R3|by rewrite Ex|rewrite Ee; lia].
  - by rewrite Ee, (sr_max _ _ Hs).
Qed.

Lemma size_early : early "i_size_lo".
Proof. by vm_compute. Qed.

Ltac size_place :=
  change (offset_of Ext4Inode "i_size_lo") with 4; change (width_of Ext4Inode "i_size_lo") with 4%nat.

Lemma only_extents_size i i' : len i = 160 → only_extents i i' → size_and_extents i i' (member Ext4Inode "i_size_lo" i).
Proof.
  intros El [O1 O2 O3]. assert (Hsub : ∀ o n, 0 ≤ o → 0 ≤ n → o + n ≤ 40 → sub o n i' = sub o n i).
  { intros o n Ho Hn Hon. pose proof (f_equal (sub o n) O1) as E. rewrite !sub_sub in E by lia. by rewrite !Z.add_0_l in E. }
  constructor; [|apply Hsub; lia|apply Hsub; lia|done|done]. unfold member. size_place. by rewrite Hsub by lia.
Qed.

Lemma set_size_extents i i' n : len i' = 160 → only_extents i i' → 0 ≤ n < 2 ^ 32 →
  size_and_extents i (set_member Ext4Inode "i_size_lo" n i') n.
Proof.
  intros El [O1 O2 O3] Hn. destruct (early_root "i_size_lo" n i' size_early El) as (S & _).
  assert (Hsub : ∀ o k, 0 ≤ o → 0 ≤ k → o + k ≤ 40 → sub o k i' = sub o k i).
  { intros o k Ho Hk Hok. pose proof (f_equal (sub o k) O1) as E. rewrite !sub_sub in E by lia. by rewrite !Z.add_0_l in E. }
  constructor.
  - rewrite member_set_same by (done || by rewrite El). by apply Z.mod_small.
  - unfold set_member. size_place. see. apply Hsub; lia.
  - unfold set_member. size_place. see. apply Hsub; lia.
  - unfold set_member. size_place. by see.
  - by rewrite (sr_max _ _ S).
Qed.
(** A file keeps its blocks when an inode is written. *)
Lemma iw_file f d j v i es : volume_ok f d → is_inode f j → len v = 160 → Forall byte v → file_ok f d i es →
  file_ok f (put_inode f j v d) i es.
Proof.
  intros Hv Hj El Eb [F1 F2 F3 F4 F5 F6 F7]. pose proof (iw_places f d j v Hv Hj El Eb) as P.
  constructor; try done. intros lb Hlb x. destruct (F6 lb Hlb) as (X1 & X2 & X3 & X4).
  split; [done|]. split; [by rewrite (iw_used f d j v Hv Hj El Eb)|]. split; [eapply on_disk_len; [apply P|done]|].
  intros r Hx%(sp_role f d _ Hv P). by apply (X4 r).
Qed.

(** So does a block without a role. *)
Lemma iw_data f d j v x : volume_ok f d → is_inode f j → len v = 160 → Forall byte v → on_disk f d x →
  (∀ r, ¬ has_role f d x r) → block f (put_inode f j v d) x = block f d x.
Proof.
  intros Hv Hj El Eb Hx Hr. apply (iw_other f d j v Hv Hj El Eb); [done|]. intros ->. apply (Hr InodeTable). by exists j.
Qed.
End size.

(** No block of the first [n] bytes is missing. *)
Definition dense (f : Ext4Manager) (es : list extent) (n : Z) : Prop :=
  ∀ lb, 0 ≤ lb → block_size f * lb < n → lookup_extents es lb ≠ 0.

Section lookups.
Context (f : Ext4Manager).
Implicit Types d : list Z.

Lemma len_content d es n : geometry_ok f d → mapped_ok f d es → 0 ≤ n → len (content f d es n) = n.
Proof.
  intros Hg Hm Hn. pose proof (block_size_bounds f d Hg). unfold content. apply len_sub; [done..|].
  rewrite len_file_bytes by done. unfold blocks_for.
  pose proof (Z.div_mod (n + block_size f - 1) (block_size f) ltac:(lia)).
  pose proof (Z.mod_pos_bound (n + block_size f - 1) (block_size f) ltac:(lia)).
  assert (0 ≤ (n + block_size f - 1) / block_size f) by (apply Z.div_pos; lia). nia.
Qed.

Lemma content_lookup d es n j : geometry_ok f d → mapped_ok f d es → 0 ≤ j < n →
  content f d es n !! Z.to_nat j = file_block f d es (j / block_size f) !! Z.to_nat (j mod block_size f).
Proof.
  intros Hg Hm Hj. pose proof (block_size_bounds f d Hg). pose proof (Z.mod_pos_bound j (block_size f) ltac:(lia)).
  pose proof (Z.div_mod j (block_size f) ltac:(lia)). assert (0 ≤ j / block_size f) by (apply Z.div_pos; lia).
  assert (Hnb : j / block_size f < Z.of_nat (blocks_for f n)).
  { unfold blocks_for. pose proof (Z.div_mod (n + block_size f - 1) (block_size f) ltac:(lia)).
    pose proof (Z.mod_pos_bound (n + block_size f - 1) (block_size f) ltac:(lia)).
    assert (0 ≤ (n + block_size f - 1) / block_size f) by (apply Z.div_pos; lia). nia. }
  unfold content. rewrite lookup_sub by lia. cbn [Z.to_nat Nat.add].
  pose proof (file_bytes_sub f d es (blocks_for f n) (j / block_size f) (j mod block_size f) 1 Hg Hm ltac:(lia) ltac:(lia) ltac:(lia) ltac:(lia)) as E.
  apply (f_equal (λ l, l !! 0%nat)) in E. rewrite !lookup_sub in E by lia. rewrite !Nat.add_0_r in E.
  replace (block_size f * (j / block_size f) + j mod block_size f) with j in E by lia. exact E.
Qed.

Lemma file_mapped d i es : file_ok f d i es → mapped_ok f d es.
Proof. intros Hf lb Hlb. apply (fo_block f d i es Hf lb Hlb). Qed.

(** Without holes, what was written is in the contents and the rest is as before. *)
Lemma written_content d0 i0 es0 off buf k d i es sz : volume_ok f d0 → file_ok f d0 i0 es0 →
  written f d0 es0 off buf k d i es → 0 ≤ k ≤ len buf → 0 ≤ off ≤ sz → dense f es0 sz →
  content f d es (Z.max sz (off + k)) = splice off (sub 0 k buf) (content f d0 es0 sz).
Proof.
  intros Hv0 Hf0 Hw Hk Ho Hd. pose proof (vo_geometry f d0 Hv0) as Hg0. pose proof (block_size_bounds f d0 Hg0) as Hbs.
  pose proof Hw as [W1 W2 W3 W4 W5 W6 W7 W8 W9]. pose proof (vo_geometry f d W1) as Hg.
  pose proof (file_mapped d0 i0 es0 Hf0) as Hm0. pose proof (file_mapped d i es W3) as Hm.
  pose proof (len_content d0 es0 sz Hg0 Hm0 ltac:(lia)) as L0.
  pose proof (len_content d es (Z.max sz (off + k)) Hg Hm ltac:(lia)) as L.
  assert (Lb : len (sub 0 k buf) = k) by (apply len_sub; lia).
  apply list_eq. intros n. rewrite lookup_splice by lia. rewrite Lb.
  destruct (decide (Z.of_nat n < Z.max sz (off + k))) as [Hn|Hn].
  2: { rewrite lookup_Z_ge by lia. repeat destruct (decide _); try lia; by rewrite lookup_Z_ge by lia. }
  pose proof (Z.mod_pos_bound (Z.of_nat n) (block_size f) ltac:(lia)) as Hq.
  pose proof (Z.div_mod (Z.of_nat n) (block_size f) ltac:(lia)) as En.
  assert (0 ≤ Z.of_nat n / block_size f) as Hlb by (apply Z.div_pos; lia).
  pose proof (content_lookup d es (Z.max sz (off + k)) (Z.of_nat n) Hg Hm ltac:(lia)) as C. rewrite Nat2Z.id in C. rewrite C. clear C.
  assert (Hold : Z.of_nat n < sz → ¬ (off ≤ Z.of_nat n < off + k) →
    file_block f d es (Z.of_nat n / block_size f) !! Z.to_nat (Z.of_nat n mod block_size f) = content f d0 es0 sz !! n).
  { intros Hs Hout. pose proof (content_lookup d0 es0 sz (Z.of_nat n) Hg0 Hm0 ltac:(lia)) as C. rewrite Nat2Z.id in C.
    rewrite C. assert (Hne : lookup_extents es0 (Z.of_nat n / block_size f) ≠ 0) by (apply Hd; [done|lia]).
    unfold file_block. rewrite (W4 _ Hne). rewrite (proj2 (Z.eqb_neq _ _)) by done. apply W7; [done|done|lia]. }
  repeat destruct (decide _); [apply Hold; lia| |apply Hold; lia].
  destruct (W6 (Z.of_nat n - off) ltac:(lia)) as [H1 H2]. replace (off + (Z.of_nat n - off)) with (Z.of_nat n) in H1, H2 by lia.
  unfold file_block. rewrite (proj2 (Z.eqb_neq _ _)) by done. rewrite H2, lookup_sub by lia. f_equal. lia.
Qed.
End lookups.

Section results.
Context {W : Type} `{!BlockDevice W, !Allocator W, !StoreLaws W}.
Context (f : Ext4Manager).
Implicit Types s : store.

(** C17. Reading gives the bytes of the contents that were asked for, as far as there are any,
    with zeros for missing blocks; any depth of the tree of extents. *)
Theorem ext4_file_read s fl es off n : geometry_ok f (disk s) → block_size f ≤ quota s →
  Forall byte (inode fl) → inode_extents f (disk s) (inode fl) = Some es → mapped_ok f (disk s) es →
  0 ≤ size fl → 0 ≤ off → 0 ≤ n → off + n < 2 ^ 32 →
  runs (read f fl off n) s (sub off n (content f (disk s) es (size fl))) s.
Proof. apply runs_ext4_read. Qed.

Lemma runs_ext4_write s fl es off buf : s_journal_inum f = 0 → volume_ok f (disk s) → block_size f ≤ quota s →
  file_ok f (disk s) (inode fl) es → is_inode f (inode_num fl) → 0 ≤ size fl < 2 ^ 32 → 0 ≤ off →
  off + len buf < 2 ^ 32 → Forall byte buf →
  ∃ k fl' f' d' es', runs (write f fl off buf) s (k, fl', f') (set_disk d' s) ∧ same_fs f f' ∧ 0 ≤ k ≤ len buf ∧
    volume_ok f d' ∧ file_ok f d' (inode fl') es' ∧ Ext4.inode f d' (inode_num fl') = inode fl' ∧
    inode_num fl' = inode_num fl ∧ size fl' = Z.max (size fl) (off + k) ∧
    (k < len buf → full f d' (inode fl') ∧ lookup_extents es' ((off + k) / block_size f) = 0) ∧
    (off ≤ size fl → dense f es (size fl) →
       content f d' es' (size fl') = splice off (sub 0 k buf) (content f (disk s) es (size fl))) ∧
    (∀ x, on_disk f (disk s) x → (∀ r, ¬ has_role f (disk s) x r) → (in_volume f x → used f (disk s) x = true) →
       (∀ lb, lookup_extents es lb ≠ x) → block f d' x = block f (disk s) x) ∧
    size_and_extents (inode fl) (inode fl') (if size fl <? off + k then off + k else member Ext4Inode "i_size_lo" (inode fl)) ∧
    (∀ j, is_inode f j → j ≠ inode_num fl → Ext4.inode f d' j = Ext4.inode f (disk s) j) ∧
    same_places f (disk s) d' ∧ (∀ x, in_volume f x → used f (disk s) x = true → used f d' x = true).
Proof.
  intros Hj Hv Hq Hf Hi Hsz Ho Hlen Hby. pose proof (block_size_bounds f _ (vo_geometry f _ Hv)) as Hbs.
  pose proof (Z.mod_pos_bound (off + 0) (block_size f) ltac:(lia)) as Hp.
  destruct (runs_write_blocks f Hj (disk s) es off buf (Z.to_nat (len buf / block_size f) + 2) Hv Ho Hlen Hby s f (inode fl) es 0
    (same_fs_refl f) Hq (written_start f (disk s) (inode fl) es off buf Hv Hf) ltac:(pose proof (len_nonneg buf); lia))
    as (k & i1 & es1 & f1 & d1 & Hr & Hs & Hk & Hw & Ho1 & Hfull).
  { intros _. pose proof (len_nonneg buf). pose proof (Z.div_mod (len buf) (block_size f) ltac:(lia)).
    pose proof (Z.mod_pos_bound (len buf) (block_size f) ltac:(lia)). assert (0 ≤ len buf / block_size f) by (apply Z.div_pos; lia). nia. }
  pose proof Hw as [W1 W2 W3 W4 W5 W6 W7 W8 W9 W10].
  set (fl' := if size fl <? off + k then set_inode (set_member Ext4Inode "i_size_lo" (off + k) i1) (off + k) fl
    else set_inode i1 (size fl) fl).
  assert (Hfl : file_ok f d1 (inode fl') es1) by (unfold fl'; destruct (size fl <? off + k); [by apply early_file; [apply size_early|]|done]).
  assert (Hnum : inode_num fl' = inode_num fl) by (unfold fl'; by destruct (size fl <? off + k)).
  assert (Hsize : size fl' = Z.max (size fl) (off + k)).
  { unfold fl'. destruct (Z.ltb_spec (size fl) (off + k)); cbn [size set_inode]; lia. }
  pose proof (fo_len _ _ _ _ Hfl) as El. pose proof (fo_bytes _ _ _ _ Hfl) as Eb.
  set (d2 := put_inode f (inode_num fl) (inode fl') d1).
  pose proof (iw_volume f d1 _ _ W1 Hi El Eb) as V2. pose proof (iw_places f d1 _ _ W1 Hi El Eb) as P2. fold d2 in V2, P2.
  assert (Hdata : ∀ x, on_disk f d1 x → (∀ r, ¬ has_role f d1 x r) → block f d2 x = block f d1 x) by (intros; by apply iw_data).
  assert (Hf2 : file_ok f d2 (inode fl') es1) by by apply iw_file.
  exists k, fl', f1, d2, es1.
  split; [|do 4 (split; [done|]); split; [|do 2 (split; [done|]); split; [|split; [|split; [|split; [|split; [|split]]]]]]].
  - unfold write. cbn [check_permission negb]. eapply runs_bind; [exact Hr|]. cbn beta iota.
    rewrite (wrap_small 32) by lia. fold fl'.
    assert (Hw1 : runs (write_inode f1 (inode_num fl) (inode fl')) (set_disk d1 s) () (set_disk d2 s)).
    { assert (Ep : put_inode f1 (inode_num fl) (inode fl') d1 = d2).
      { unfold d2, put_inode. rewrite (same_inode_blk f f1 Hs), (same_inode_off f f1 Hs), (same_block f f1 Hs).
        unfold put_block. by rewrite (sf_fields _ _ Hs). }
      assert (X : runs (write_inode f1 (inode_num fl) (inode fl')) (set_disk d1 s) ()
        (set_disk (put_inode f1 (inode_num fl) (inode fl') d1) (set_disk d1 s))).
      { apply (runs_write_inode f1 (set_disk d1 s)); [apply (same_geometry f f1 Hs), (vo_geometry _ _ W1)|
          apply (same_inode_fits f f1 Hs); by apply (vo_inode _ _ W1)|by rewrite (sf_fields _ _ Hs)|done|done]. }
      rewrite set_disk_set, Ep in X. exact X. }
    rewrite Hnum. eapply runs_bind; [exact Hw1|]. apply runs_ret.
  - rewrite Hnum. by apply (iw_same f d1).
  - intros Hlt. destruct (Hfull Hlt) as [Hf0 Hl0]. split; [|done]. destruct Hf0 as [Hno|Heq].
    + left. intros x Hx%(iw_available f d1 _ _ W1 Hi El Eb). by apply (Hno x).
    + right. unfold fl'. destruct (size fl <? off + k); [|done]. cbn [inode set_inode].
      destruct (early_root "i_size_lo" (off + k) i1 size_early (fo_len _ _ _ _ W3)) as (Hsr & Ee & _). by rewrite Ee, (sr_max _ _ Hsr).
  - intros Hos Hd. rewrite Hsize. rewrite <- (written_content f (disk s) (inode fl) es off buf k d1 i1 es1 (size fl)); try done.
    unfold content, file_bytes. f_equal. f_equal. apply map_ext_in. intros lb _. unfold file_block.
    destruct (Z.eqb_spec (lookup_extents es1 lb) 0) as [|Hne]; [done|].
    destruct (fo_block _ _ _ _ Hfl lb Hne) as (X1 & X2 & X3 & X4). by apply Hdata.
  - intros x Hx Hr' Hu Hno. rewrite Hdata; [by apply W9|eapply on_disk_len; [apply W2|done]|].
    intros r Hxr%(sp_role f (disk s) d1 Hv W2). by apply (Hr' r).
  - unfold fl'. destruct (Z.ltb_spec (size fl) (off + k)); cbn [inode set_inode].
    + apply set_size_extents; [apply W3|done|lia].
    + apply only_extents_size; [apply Hf|done].
  - intros j Hjj Hne. unfold d2. rewrite (iw_inode f d1 (inode_num fl) _ W1 Hi El Eb) by done. by apply W10.
  - by eapply same_places_trans.
  - intros x Hx Hu. unfold d2. rewrite (iw_used f d1 (inode_num fl) _ W1 Hi El Eb) by done. by apply W8.
Qed.

(** C7. Writing to a file of a volume without a journal: [k] bytes are written, all of them
    unless no block is free or the root of the extents is full; the inode on the disk is
    the object's, and differs from the old one only in the size, which is the new end
    if that is behind the old one, and in the extents; the contents of a file without
    holes up to its end are the old ones with the new bytes at [off]; the blocks in use
    elsewhere and all other inodes are as before. *)
Theorem ext4_file_write s fl es off buf : s_journal_inum f = 0 → volume_ok f (disk s) → block_size f ≤ quota s →
  file_ok f (disk s) (inode fl) es → is_inode f (inode_num fl) → 0 ≤ size fl < 2 ^ 32 → 0 ≤ off →
  off + len buf < 2 ^ 32 → Forall byte buf →
  ∃ k fl' f' d' es', runs (write f fl off buf) s (k, fl', f') (set_disk d' s) ∧ same_fs f f' ∧ 0 ≤ k ≤ len buf ∧
    volume_ok f d' ∧ file_ok f d' (inode fl') es' ∧ Ext4.inode f d' (inode_num fl') = inode fl' ∧
    inode_num fl' = inode_num fl ∧ size fl' = Z.max (size fl) (off + k) ∧
    (k < len buf → full f d' (inode fl') ∧ lookup_extents es' ((off + k) / block_size f) = 0) ∧
    (off ≤ size fl → dense f es (size fl) →
       content f d' es' (size fl') = splice off (sub 0 k buf) (content f (disk s) es (size fl))) ∧
    (∀ x, on_disk f (disk s) x → (∀ r, ¬ has_role f (disk s) x r) → (in_volume f x → used f (disk s) x = true) →
       (∀ lb, lookup_extents es lb ≠ x) → block f d' x = block f (disk s) x) ∧
    size_and_extents (inode fl) (inode fl') (if size fl <? off + k then off + k else member Ext4Inode "i_size_lo" (inode fl)) ∧
    (∀ j, is_inode f j → j ≠ inode_num fl → Ext4.inode f d' j = Ext4.inode f (disk s) j) ∧
    same_places f (disk s) d' ∧ (∀ x, in_volume f x → used f (disk s) x = true → used f d' x = true).
Proof. apply runs_ext4_write. Qed.
End results.

(** ** The file of the example volume *)
Import Pure.

Module FileExample.
Import ExtentExample VolumeExample.

Definition file_inode : list Z := an_inode (EXT4_S_IFREG + 0x1A4) 600 8.
Definition file : Ext4File := mk_file [97] 3 file_inode 600 0.
Definition extents : list extent := [mk_extent 0 1 8].

Lemma lookup_file lb : lookup_extents extents lb = if decide (lb = 0) then 8 else 0.
Proof.
  unfold extents. cbn [lookup_extents]. unfold e_end. cbn [e_block e_len e_start].
  destruct (decide (lb = 0)) as [->|Hne]; [done|].
  destruct (Z.leb_spec 0 lb), (Z.ltb_spec lb (0 + 1)); try done. lia.
Qed.

Lemma file_root : root_only file_inode extents.
Proof. split; [by vm_compute|]. split; [by vm_compute|]. split; [by vm_compute|]. constructor; [|constructor]. done. Qed.

Lemma file_inode_ok : file_ok fs (disk machine) file_inode extents.
Proof.
  constructor.
  - by vm_compute.
  - by apply bytes_check; vm_compute.
  - apply file_root.
  - split; by vm_compute.
  - constructor; [|constructor]. done.
  - intros lb. rewrite lookup_file. destruct (decide (lb = 0)); [|done]. intros _. split; [by vm_compute|].
    split; [by vm_compute|]. split; [by vm_compute|]. apply no_role_check. by vm_compute.
  - intros lb lb'. rewrite !lookup_file. destruct (decide (lb = 0)), (decide (lb' = 0)); (done || congruence).
Qed.
End FileExample.

Lemma ext4_file_read_witness :
  runs (read VolumeExample.fs FileExample.file 10 20) VolumeExample.machine
    (sub 10 20 (content VolumeExample.fs (disk VolumeExample.machine) FileExample.extents 600)) VolumeExample.machine.
Proof.
  apply (ext4_file_read VolumeExample.fs VolumeExample.machine FileExample.file FileExample.extents 10 20).
  - by apply VolumeExample.volume_geometry.
  - by vm_compute.
  - by apply bytes_check; vm_compute.
  - apply root_only_extents, FileExample.file_root.
  - apply (file_mapped _ _ FileExample.file_inode), FileExample.file_inode_ok.
  - done.
  - done.
  - done.
  - done.
Defined.

Lemma ext4_file_write_witness :
  ∃ k fl' f' d' es', runs (write VolumeExample.fs FileExample.file 590 (replicate (Z.to_nat 1000) 7))
      VolumeExample.machine (k, fl', f') (set_disk d' VolumeExample.machine) ∧
    size fl' = Z.max 600 (590 + k) ∧
    content VolumeExample.fs d' es' (size fl') =
      splice 590 (sub 0 k (replicate (Z.to_nat 1000) 7))
        (content VolumeExample.fs (disk VolumeExample.machine) FileExample.extents 600).
Proof.
  destruct (ext4_file_write VolumeExample.fs VolumeExample.machine FileExample.file FileExample.extents 590
    (replicate (Z.to_nat 1000) 7)) as (k & fl' & f' & d' & es' & Hr & _ & _ & _ & _ & _ & _ & Hs & _ & Hc & _).
  - by vm_compute.
  - apply VolumeExample.volume.
  - by vm_compute.
  - apply FileExample.file_inode_ok.
  - split; by vm_compute.
  - split; by vm_compute.
  - done.
  - by vm_compute.
  - by apply bytes_check; vm_compute.
  - exists k, fl', f', d', es'. split; [exact Hr|]. split; [exact Hs|]. apply Hc.
    + by vm_compute.
    + intros lb H0 Hlt. rewrite FileExample.lookup_file. change (block_size VolumeExample.fs) with 1024 in Hlt.
      cbn [size FileExample.file] in Hlt. rewrite decide_True by lia. done.
Defined.
End Ext4File.
