(* ===== verification/Ext4Inodes.v ===== *)
(** * EXT4: allocating an inode (fs/ext4_vfs.cpp: Ext4Manager::allocate_inode)

    The theory of [Ext4Alloc.allocate_inode] for a volume without a journal: the
    inode of the lowest clear bit is taken, its bit is set and counts change, and
    nothing else does. *)

From Stdlib Require Import String.
From S2P Require Import Prelude Bytes Block Layout Ext4 Ext4Extent Ext4Journal Ext4Alloc.

Module Ext4Inodes.
Import Bytes Block Layout Ext4 Ext4Extent Ext4Journal Ext4Alloc.
Local Open Scope string_scope.
Local Open Scope list_scope.
Local Open Scope Z_scope.

Definition free_inodes (f : Ext4Manager) (d : list Z) (g : Z) : Z := desc_member f d g "bg_free_inodes_count_lo".

(** An inode that can be had: free by its bit, in a group that has free ones by its count. *)
Definition inode_available (f : Ext4Manager) (d : list Z) (i : Z) : Prop :=
  is_inode f i ∧ inode_used f d i = false ∧ 0 < free_inodes f d (group_of f i).

Record inode_allocated (f : Ext4Manager) (d d' : list Z) (i : Z) : Prop := {
  ia_volume : volume_ok f d';
  ia_places : same_places f d d';
  ia_available : inode_available f d i;
  ia_first x : inode_available f d x → i ≤ x;
  ia_inode_used x : is_inode f x → inode_used f d' x = if decide (x = i) then true else inode_used f d x;
  ia_used x : in_volume f x → used f d' x = used f d x;
  ia_block x : on_disk f d x → (∀ g, is_group f g → x ≠ desc_blk f g ∧ x ≠ ibm f d g) → block f d' x = block f d x
}.

(** ** A block with a role rewritten, other than descriptors and bitmaps of blocks *)

Section rewrite_role.
Context (f : Ext4Manager) (d : list Z) (b : Z) (r : role) (bs : list Z).
Context (Hv : volume_ok f d) (Hr : has_role f d b r) (H1 : r ≠ Descriptors) (H2 : ∀ g, r ≠ BlockBitmap g).
Context (El : len bs = block_size f) (Hbs : Forall byte bs).
Let d' := put_block f b bs d.

Lemma rr_other x : on_disk f d x → x ≠ b → block f d' x = block f d x.
Proof using Hv Hr El.
  intros Hx Hne. apply block_put_other; [apply (vo_geometry f d Hv)|by eapply role_block|done|done|by apply not_eq_sym].
Qed.

Lemma rr_role x r' : has_role f d x r' → r' ≠ r → block f d' x = block f d x.
Proof using Hv Hr El. intros Hx Hne. apply rr_other; [by eapply role_block|]. by apply (roles_differ f d _ _ r' r). Qed.

Lemma rr_places : same_places f d d'.
Proof using Hv Hr H1 El Hbs.
  pose proof (vo_geometry f d Hv) as Hg. pose proof (role_block f d b r Hv Hr) as Hb.
  apply places_of_blocks; [done|by apply len_put_block|by apply geometry_put|].
  intros g Hgg. apply (rr_role _ Descriptors); [by exists g|done].
Qed.

Lemma rr_used x : in_volume f x → used f d' x = used f d x.
Proof using Hv Hr H1 H2 El Hbs.
  intros Hx. assert (Hgx : is_group f (group_in f x)) by (apply block_group; [apply (vo_groups f d Hv)|done]).
  apply used_block; [apply rr_places|done|]. apply (rr_role _ (BlockBitmap (group_in f x))); [done|]. apply not_eq_sym, H2.
Qed.

Lemma rr_volume : volume_ok f d'.
Proof using Hv Hr H1 H2 El Hbs.
  apply (sp_volume f d d' Hv rr_places).
  - intros x r' Hx. destruct (vo_meta f d Hv x r' Hx). by rewrite rr_used.
  - intros x Hx. rewrite rr_used by done. by apply (vo_free f d Hv).
Qed.
End rewrite_role.

(** ** The changes of the disk *)

Section step.
Context (f : Ext4Manager) (d : list Z) (i : Z) (is_directory : bool).
Context (Hv : volume_ok f d) (Ha : inode_available f d i).
Let g := group_of f i.
Let k := index_of f i.
Let bm := block f d (ibm f d g).
Let d1 := put_block f (ibm f d g) (set_bit_at k true bm) d.
Let d2 := poke_desc f g "bg_free_inodes_count_lo" (free_inodes f d g + -1) d1.
Let d3 := if is_directory then poke_desc f g "bg_used_dirs_count_lo" (desc_member f d g "bg_used_dirs_count_lo" + 1) d2 else d2.

Lemma is_group_of : is_group f g.
Proof using Hv Ha. apply inode_group; [apply (vo_groups f d Hv)|apply Ha]. Qed.
Lemma is_role : has_role f d (ibm f d g) (InodeBitmap g).
Proof using Hv Ha. split; [apply is_group_of|done]. Qed.
Lemma is_index : 0 ≤ k < inodes_per_group f ∧ k / 8 < block_size f.
Proof using Hv Ha.
  destruct (vo_groups f d Hv) as [_ Hp]. assert (0 ≤ k < inodes_per_group f) by (apply Z.mod_pos_bound; lia).
  split; [done|]. apply Z.div_lt_upper_bound; lia.
Qed.
Lemma is_len : len bm = block_size f ∧ Forall byte bm.
Proof using Hv Ha.
  split; [apply len_block; [apply (vo_geometry f d Hv)|eapply role_block; [done|apply is_role]]|].
  apply block_bytes, (vo_geometry f d Hv).
Qed.
Lemma is_new : len (set_bit_at k true bm) = block_size f ∧ Forall byte (set_bit_at k true bm).
Proof using Hv Ha.
  destruct is_index, is_len as [El Hb]. split; [rewrite len_set_bit; [done|lia|by rewrite El]|]. by apply set_bit_bytes.
Qed.

Lemma is_volume1 : volume_ok f d1 ∧ same_places f d d1.
Proof using Hv Ha. destruct is_new. split; [apply (rr_volume f d _ (InodeBitmap g))|apply (rr_places f d _ (InodeBitmap g))]; (done || apply is_role). Qed.

Lemma is_desc1 g' : is_group f g' → desc f d1 g' = desc f d g'.
Proof using Hv Ha.
  intros Hg'. unfold desc. f_equal. destruct is_new. apply (rr_role f d _ (InodeBitmap g)) with (r' := Descriptors);
    [done|apply is_role|done|by exists g'|done].
Qed.

(** Two inodes with the same bit are the same. *)
Lemma same_index x : is_inode f x → group_of f x = g → index_of f x = k → x = i.
Proof using Hv Ha.
  intros Hx E1 E2. destruct (vo_groups f d Hv) as [_ Hp]. unfold g, k, group_of, index_of in *.
  pose proof (Z.div_mod (x - 1) (inodes_per_group f) ltac:(lia)).
  pose proof (Z.div_mod (i - 1) (inodes_per_group f) ltac:(lia)). rewrite E1, E2 in *. lia.
Qed.

Lemma is_used1 x : is_inode f x → inode_used f d1 x = if decide (x = i) then true else inode_used f d x.
Proof using Hv Ha.
  intros Hx. pose proof (vo_geometry f d Hv) as Hgeo. destruct (vo_groups f d Hv) as [_ Hp]. destruct is_volume1 as [_ P1].
  destruct is_new as [N1 N2], is_len as [L1 L2], is_index as [K1 K2].
  assert (Hgx : is_group f (group_of f x)) by (apply inode_group; [lia|done]).
  assert (0 ≤ index_of f x) by (apply Z.mod_pos_bound; lia).
  unfold inode_used. rewrite (sp_ibm _ _ _ P1) by done. destruct (decide (group_of f x = g)) as [E|Hne].
  - rewrite E. unfold d1. rewrite block_put_same; [|done|eapply role_block; [done|apply is_role]|done].
    rewrite bit_set_bit by (rewrite ?L1; (done || lia)). fold bm.
    destruct (decide (x = i)) as [->|Hxi]; [by rewrite decide_True|]. rewrite decide_False; [done|].
    intros Ei. by apply Hxi, same_index.
  - rewrite (rr_role f d _ (InodeBitmap g) _ Hv is_role N1 _ (InodeBitmap (group_of f x))); [|by split|congruence].
    destruct (decide (x = i)) as [->|]; done.
Qed.

(** A count of the descriptor changed. *)
Lemma count_step (e : list Z) x v : volume_ok f e → same_places f d e →
  x ∈ ["bg_free_blocks_count_lo"; "bg_free_inodes_count_lo"; "bg_used_dirs_count_lo"] →
  let e' := poke_desc f g x v e in
  volume_ok f e' ∧ same_places f d e' ∧ (∀ y, is_inode f y → inode_used f e' y = inode_used f e y) ∧
  (∀ y, in_volume f y → used f e' y = used f e y) ∧
  (∀ b, on_disk f d b → (∀ g', is_group f g' → b ≠ desc_blk f g') → block f e' b = block f e b).
Proof using Hv Ha.
  intros Hve Hp Hx e'. pose proof is_group_of as Hg. pose proof (ct_places f e g x v Hve Hg Hx) as Hp'. fold e' in Hp'.
  assert (Hu : ∀ y, in_volume f y → used f e' y = used f e y) by (intros; by apply ct_used).
  split; [|split; [by eapply same_places_trans|split; [|split; [done|]]]].
  - apply (sp_volume f e e' Hve Hp').
    + intros y r Hr. destruct (vo_meta f e Hve y r Hr). by rewrite Hu.
    + intros y Hy. rewrite Hu by done. by apply (vo_free f e Hve).
  - intros y Hy. assert (is_group f (group_of f y)) by (apply inode_group; [apply (vo_groups f d Hv)|done]).
    unfold inode_used. rewrite (sp_ibm _ _ _ Hp') by done.
    unfold e'. by rewrite (ct_role f e g x v Hve Hg _ (InodeBitmap (group_of f y))) by done.
  - intros b Hb Hn. apply (ct_other f e g x v Hve Hg); [|by apply Hn]. eapply on_disk_len; [apply Hp|done].
Qed.

Lemma is_allocated : (∀ x, inode_available f d x → i ≤ x) → inode_allocated f d d3 i.
Proof using Hv Ha.
  intros Hfirst. destruct is_volume1 as [V1 P1]. destruct is_new as [N1 N2].
  destruct (count_step d1 "bg_free_inodes_count_lo" (free_inodes f d g + -1) V1 P1) as (V2 & P2 & I2 & U2 & B2);
    [by right; left|]. fold d2 in V2, P2, I2, U2, B2.
  assert (H3 : volume_ok f d3 ∧ same_places f d d3 ∧ (∀ y, is_inode f y → inode_used f d3 y = inode_used f d2 y) ∧
    (∀ y, in_volume f y → used f d3 y = used f d2 y) ∧
    (∀ b, on_disk f d b → (∀ g', is_group f g' → b ≠ desc_blk f g') → block f d3 b = block f d2 b)).
  { unfold d3. destruct is_directory; [|done]. apply count_step; [done|done|by right; right; left]. }
  destruct H3 as (V3 & P3 & I3 & U3 & B3). constructor; try done.
  - intros x Hx. rewrite I3, I2 by done. by apply is_used1.
  - intros x Hx. rewrite U3, U2 by done. by apply (rr_used f d _ (InodeBitmap g) _ Hv is_role).
  - intros x Hx Hn. rewrite B3, B2; [|done|by intros; apply Hn|done|by intros; apply Hn].
    apply (rr_other f d _ (InodeBitmap g) _ Hv is_role N1); [done|]. apply Hn, is_group_of.
Qed.
End step.

(** ** The code *)

Section allocate.
Context {W : Type} `{!BlockDevice W, !Allocator W, !StoreLaws W}.
Context (f : Ext4Manager) (Hj : s_journal_inum f = 0).
Implicit Types s : store.
Implicit Types d : list Z.

(** The descriptor that the code writes back. *)
Definition new_desc (is_directory : bool) (gd : list Z) : list Z :=
  let gd := add_member Ext4GroupDesc "bg_free_inodes_count_lo" (-1) gd in
  if is_directory then add_member Ext4GroupDesc "bg_used_dirs_count_lo" 1 gd else gd.

Lemma new_desc_ok is_directory gd : len gd = 64 → Forall byte gd →
  len (new_desc is_directory gd) = 64 ∧ Forall byte (new_desc is_directory gd).
Proof.
  intros El Hb. unfold new_desc, add_member. assert (E1 : ∀ x v o, len o = 64 → len (set_member Ext4GroupDesc x v o) = 64).
  { intros x v o E. rewrite len_set_member; [done|by rewrite E]. }
  destruct is_directory; split; repeat first [apply E1|apply set_member_bytes|done].
Qed.

(** Writing it back changes the two counts. *)
Lemma new_desc_poke d g is_directory : geometry_ok f d → desc_fits f d g →
  let d2 := poke_desc f g "bg_free_inodes_count_lo" (free_inodes f d g + -1) d in
  splice (desc_addr f g) (new_desc is_directory (desc f d g)) d =
    if is_directory then poke_desc f g "bg_used_dirs_count_lo" (desc_member f d g "bg_used_dirs_count_lo" + 1) d2 else d2.
Proof.
  intros Hg Hd d2. destruct (desc_bounds f d g Hg Hd) as [A1 A2]. pose proof (len_desc f d g Hg Hd) as El.
  set (o := set_member Ext4GroupDesc "bg_free_inodes_count_lo" (free_inodes f d g + -1) (desc f d g)).
  assert (Eo : len o = 64) by (unfold o; rewrite len_set_member; [done|by rewrite El]).
  assert (E2 : d2 = splice (desc_addr f g) o d) by (symmetry; by apply put_desc_member).
  unfold new_desc, add_member. fold (desc_member f d g "bg_free_inodes_count_lo") (free_inodes f d g) o.
  destruct is_directory; [|done].
  assert (Eg : geometry_ok f d2) by by apply poke_desc_geometry.
  assert (Ed : desc_fits f d2 g) by (eapply desc_fits_len; [by apply len_poke_desc|done]).
  assert (Edo : desc f d2 g = o).
  { rewrite desc_sub by done. rewrite E2, <- Eo. apply sub_splice_same; lia. }
  unfold o at 1. rewrite member_set_other; [|by rewrite El|done]. fold (desc_member f d g "bg_used_dirs_count_lo").
  rewrite <- (put_desc_member f d2 g) by done. rewrite Edo, E2. symmetry.
  apply splice_over; [done|rewrite len_set_member; [by rewrite Eo|by rewrite Eo]|lia].
Qed.

Lemma inode_number d g k : volume_ok f d → is_group f g → 0 ≤ k < inodes_per_group f →
  let i := g * inodes_per_group f + k + 1 in is_inode f i ∧ group_of f i = g ∧ index_of f i = k.
Proof.
  intros Hv Hg Hk i. unfold is_inode, group_of, index_of, is_group in *. destruct (vo_groups f d Hv) as [_ Hp].
  assert (E : i - 1 = g * inodes_per_group f + k) by (unfold i; lia). rewrite E.
  split; [unfold i; nia|]. split.
  - rewrite Z.div_add_l by lia. rewrite Z.div_small by lia. lia.
  - rewrite Z.add_comm, Z.mod_add by lia. by apply Z.mod_small.
Qed.

(** The group [g] with a clear bit [k]. *)
Lemma runs_inode_here n s g k is_directory : volume_ok f (disk s) → block_size f ≤ quota s → is_group f g →
  0 < free_inodes f (disk s) g → 0 ≤ k < inodes_per_group f →
  bit_at (block f (disk s) (ibm f (disk s) g)) k = false →
  (∀ j, 0 ≤ j < k → bit_at (block f (disk s) (ibm f (disk s) g)) j = true) →
  runs (claim_bit f (ibm f (disk s) g) (inodes_per_group f)) s (Some k, f)
    (set_disk (put_block f (ibm f (disk s) g) (set_bit_at k true (block f (disk s) (ibm f (disk s) g))) (disk s)) s) →
  (∀ x, inode_available f (disk s) x → g ≤ group_of f x) →
  let i := g * inodes_per_group f + k + 1 in
  ∃ f' d', runs (allocate_inode_from is_directory (S n) g f) s (i, f') (set_disk d' s) ∧ same_fs f f' ∧
    inode_allocated f (disk s) d' i.
Proof using Hj.
  intros Hv Hq Hg Hc Hk Hbit Hlow Hclaim Hgr i. pose proof (vo_geometry _ _ Hv) as Hgeo.
  destruct (inode_number (disk s) g k Hv Hg Hk) as (I1 & I2 & I3). fold i in I1, I2, I3.
  assert (Ha : inode_available f (disk s) i).
  { split; [done|]. unfold inode_used. by rewrite I2, I3. }
  assert (Hfirst : ∀ x, inode_available f (disk s) x → i ≤ x).
  { intros x Hx. pose proof Hx as (X1 & X2 & _). pose proof (Hgr x Hx) as Hle.
    destruct (vo_groups _ _ Hv) as [_ Hp]. unfold inode_used in X2.
    assert (0 ≤ index_of f x < inodes_per_group f) by (apply Z.mod_pos_bound; lia).
    pose proof (Z.div_mod (x - 1) (inodes_per_group f) ltac:(lia)) as Ex. fold (group_of f x) (index_of f x) in Ex.
    destruct (decide (group_of f x = g)) as [E|]; [|unfold i; nia]. rewrite E in X2, Ex.
    destruct (decide (index_of f x < k)); [|unfold i; lia]. by rewrite Hlow in X2 by lia. }
  pose proof (is_allocated f (disk s) i is_directory Hv Ha Hfirst) as Hal.
  destruct (is_volume1 f (disk s) i Hv Ha) as [Hv1 _]. pose proof (is_desc1 f (disk s) i Hv Ha g Hg) as Ed.
  rewrite I2, I3 in Hal, Hv1, Ed. set (d1 := put_block f _ _ _) in *. cbn [allocate_inode_from].
  do 2 eexists. split; [|split; [|exact Hal]].
  - eapply runs_bind; [apply runs_read_group_desc; [done|by apply (vo_desc _ _ Hv)|done]|].
    fold (desc_member f (disk s) g "bg_free_inodes_count_lo") (free_inodes f (disk s) g).
    rewrite (proj2 (Z.ltb_lt _ _)) by done. eapply runs_bind; [exact Hclaim|]. cbn beta iota. fold d1.
    fold (new_desc is_directory (desc f (disk s) g)).
    destruct (new_desc_ok is_directory (desc f (disk s) g)) as [N1 N2];
      [apply len_desc; [done|by apply (vo_desc _ _ Hv)]|apply Forall_sub, block_bytes, Hgeo|].
    eapply runs_bind; [apply (runs_write_group_desc f Hj); [apply (vo_geometry _ _ Hv1)|by apply (vo_desc _ _ Hv1)|done..]|].
    cbn [disk set_disk]. rewrite <- Ed. rewrite new_desc_poke; [|apply (vo_geometry _ _ Hv1)|by apply (vo_desc _ _ Hv1)].
    unfold free_inodes, desc_member. rewrite Ed. rewrite set_disk_set. cbn [inodes_per_group set_sb]. fold i.
    rewrite (wrap_small 32) by (destruct (vo_numbers _ _ Hv); unfold is_inode in I1; lia). apply runs_ret.
  - apply same_fs_count; [apply (vo_sb _ _ Hv)|by right; left].
Qed.

Lemma runs_inode_from is_directory n : ∀ s g, volume_ok f (disk s) → block_size f ≤ quota s →
  0 ≤ g → g + Z.of_nat n = groups_count f → (∀ x, inode_available f (disk s) x → g ≤ group_of f x) →
  ∃ i f' d', runs (allocate_inode_from is_directory n g f) s (i, f') (set_disk d' s) ∧ same_fs f f' ∧
    (inode_allocated f (disk s) d' i ∨ (i = 0 ∧ f' = f ∧ d' = disk s ∧ ∀ x, ¬ inode_available f (disk s) x)).
Proof using Hj.
  induction n as [|n IH]; intros s g Hv Hq Hg0 Hgn Hgr.
  - exists 0, f, (disk s). rewrite set_disk_same. split; [apply runs_ret|]. split; [apply same_fs_refl|]. right.
    split_and!; try done. intros x Hx. pose proof (Hgr x Hx). destruct Hx as (X1 & _).
    pose proof (inode_group f x (proj1 (proj2 (vo_groups _ _ Hv))) X1) as [_ ?]. lia.
  - assert (Hg : is_group f g) by (unfold is_group; lia). pose proof (vo_geometry _ _ Hv) as Hgeo.
    assert (Hskip : (∀ x, inode_available f (disk s) x → group_of f x ≠ g) →
      ∀ x, inode_available f (disk s) x → g + 1 ≤ group_of f x).
    { intros Hne x Hx. pose proof (Hgr x Hx). specialize (Hne x Hx). lia. }
    destruct (runs_claim_bit f Hj s (ibm f (disk s) g) (inodes_per_group f)) as (r & Hr);
      [done|by apply (vo_ibm _ _ Hv)|done|destruct (vo_groups _ _ Hv); lia|].
    assert (Hnext : (∀ x, inode_available f (disk s) x → group_of f x ≠ g) →
      (if 0 <? free_inodes f (disk s) g then r = None else True) →
      ∃ i f' d', runs (allocate_inode_from is_directory (S n) g f) s (i, f') (set_disk d' s) ∧ same_fs f f' ∧
        (inode_allocated f (disk s) d' i ∨ (i = 0 ∧ f' = f ∧ d' = disk s ∧ ∀ x, ¬ inode_available f (disk s) x))).
    { intros Hne Hno. destruct (IH s (g + 1)) as (i & f' & d' & Hrun & Hs); [done|done|lia|lia|by apply Hskip|].
      exists i, f', d'. split; [|done]. cbn [allocate_inode_from].
      eapply runs_bind; [apply runs_read_group_desc; [done|by apply (vo_desc _ _ Hv)|done]|].
      fold (desc_member f (disk s) g "bg_free_inodes_count_lo") (free_inodes f (disk s) g).
      destruct (0 <? free_inodes f (disk s) g); [|done]. subst r. eapply runs_bind; [apply Hr|]. exact Hrun. }
    destruct (Z.ltb_spec 0 (free_inodes f (disk s) g)) as [Hc|Hc].
    2: { apply Hnext; [|done]. intros x (_ & _ & X3) E. rewrite E in X3. lia. }
    destruct r as [k|]; destruct Hr as [Hr Hclaim].
    + destruct Hr as (R1 & R2 & R3).
      destruct (runs_inode_here n s g k is_directory Hv Hq Hg Hc R1 R2 R3 Hclaim Hgr) as (f' & d' & H1 & H2 & H3).
      do 3 eexists. split; [exact H1|]. split; [exact H2|]. by left.
    + apply Hnext; [|done]. intros x (X1 & X2 & _) E. unfold inode_used in X2. rewrite E, Hr in X2; [done|].
      apply Z.mod_pos_bound. apply (vo_groups _ _ Hv).
Qed.

Lemma runs_allocate_inode s is_directory : volume_ok f (disk s) → block_size f ≤ quota s →
  ∃ i f' d', runs (allocate_inode f is_directory) s (i, f') (set_disk d' s) ∧ same_fs f f' ∧
    (inode_allocated f (disk s) d' i ∨ (i = 0 ∧ f' = f ∧ d' = disk s ∧ ∀ x, ¬ inode_available f (disk s) x)).
Proof using Hj.
  intros Hv Hq. destruct (decide (0 ≤ groups_count f)) as [H0|Hneg].
  - apply runs_inode_from; [done|done|done|lia|]. intros x (X1 & _).
    apply (inode_group f x (proj1 (proj2 (vo_groups _ _ Hv))) X1).
  - exists 0, f, (disk s). rewrite set_disk_same. split.
    { unfold allocate_inode. replace (Z.to_nat (groups_count f)) with O by lia. apply runs_ret. }
    split; [apply same_fs_refl|]. right. split_and!; try done. intros x (X1 & _).
    pose proof (inode_group f x (proj1 (proj2 (vo_groups _ _ Hv))) X1) as [? ?]. lia.
Qed.
End allocate.
End Ext4Inodes.
