(* ===== verification/Ext4Dir.v ===== *)
(** * EXT4: directories (fs/ext4_vfs.cpp: Ext4Directory)

    A directory is a file of entries: an inode number, the distance to the next entry
    ([rec_len]), and a name; number 0 marks an entry that is not in use.  Names are lists
    of bytes without 0.

    An object returned by [finddir] and [create] is a value here.  The loop over the
    blocks of a directory gets one step of fuel for every byte of its size, the loop in a
    block one for every byte of the block: each step goes ahead by at least one
    byte, or the code never leaves the loop ([finddir_never_returns]).

    [walk] says that the entries of a block lead to its end, each with room for its
    name; [entries] are those in use, and [listing] those of a directory.
    [ext4_finddir] and [ext4_readdir] are the lookups in terms of the listing; what
    [remove_from_block] and [split_entry] do to the entries of a block
    ([cut_ok], [split_entry_ok]) is for [Ext4DirOps]. *)

From Stdlib Require Import String.
From S2P Require Import Prelude Bytes Block Layout Ext4 Ext4Extent Ext4Journal Ext4Alloc Ext4File.

Module Ext4Dir.
Import Bytes Block Layout Ext4 Ext4Extent Ext4Journal Ext4Alloc.
Local Open Scope string_scope.
Local Open Scope list_scope.
Local Open Scope Z_scope.

Definition EXT4_FT_REG_FILE : Z := 1.
Definition EXT4_FT_DIR : Z := 2.
Definition VFS_FILE : Z := 1.
Definition VFS_DIRECTORY : Z := 2.
Definition DOT : Z := 46.

Record Ext4Directory : Set := mk_dir {
  name : list Z; inode_num : Z; inode : list Z; size : Z; ref_count : Z
}.
Record vfs_dirent : Set := mk_dirent { d_name : list Z; d_inode : Z; d_type : Z }.

Inductive ext4_node : Set :=
| NodeFile (fl : Ext4File.Ext4File)
| NodeDirectory (dir : Ext4Directory).

Definition set_inode (i : list Z) (dir : Ext4Directory) : Ext4Directory :=
  mk_dir (name dir) (inode_num dir) i (size dir) (ref_count dir).
Definition set_ref (r : Z) (dir : Ext4Directory) : Ext4Directory :=
  mk_dir (name dir) (inode_num dir) (inode dir) (size dir) r.

(** [ref_count++]; [close] answers whether the object deletes itself. *)
Definition open (dir : Ext4Directory) : Ext4Directory := set_ref (u32 (ref_count dir + 1)) dir.
Definition close (dir : Ext4Directory) : Ext4Directory * bool :=
  let dir := if 0 <? ref_count dir then set_ref (ref_count dir - 1) dir else dir in (dir, ref_count dir =? 0).

(** Members of the entry at [p] of a block. *)
Definition get_entry (x : string) (p : Z) (b : list Z) : outcome Z := get_member Ext4DirEntry2 p x b.
Definition put_entry (x : string) (p v : Z) (b : list Z) : outcome (list Z) := put_member Ext4DirEntry2 p x v b.
Definition NAME : Z := offset_of Ext4DirEntry2 "name".

(** [strncmp(name, entry->name, strlen(name)) == 0]: up to the first difference. *)
Fixpoint same_name (nm : list Z) (p : Z) (b : list Z) : outcome bool :=
  match nm with
  | [] => Ok true
  | c :: nm' => x ← get8 p b; if x =? c then same_name nm' (p + 1) b else Ok false
  end.

(** An entry in use with this name. *)
Definition entry_matches (nm : list Z) (p : Z) (b : list Z) : outcome bool :=
  ino ← get_entry "inode" p b;
  if ino =? 0 then Ok false else
  n ← get_entry "name_len" p b;
  if len nm =? n then same_name nm (p + NAME) b else Ok false.

(** Eight bytes and the name, a multiple of four. *)
Definition round4 (x : Z) : Z := if x mod 4 =? 0 then x else x + (4 - x mod 4).
Definition entry_size (name_len : Z) : Z := round4 (8 + name_len).

(** The entries of a block from [p] on: the one with the name, or the offset after the
    block.  An entry without length ends the walk. *)
Fixpoint scan_block (n : nat) (nm : list Z) (b : list Z) (p offset : Z) : outcome (Z + Z) :=
  if p <? len b then
    match n with
    | O => OutOfFuel
    | S n' =>
        m ← entry_matches nm p b;
        if (m : bool) then ino ← get_entry "inode" p b; Ok (inr ino) else
        rec_len ← get_entry "rec_len" p b;
        if rec_len =? 0 then Ok (inl offset)
        else scan_block n' nm b (p + rec_len) (u32 (offset + rec_len))
    end
  else Ok (inl offset).

Section directory.
Context {W : Type} `{!BlockDevice W, !Allocator W}.

Definition new_Ext4Directory (f : Ext4Manager) (n : list Z) (ino : Z) : kernel W Ext4Directory :=
  i ← read_inode f ino;
  mret (mk_dir (take 127 n) ino i (u32 (ext4_get_inode_size i)) 0).

Definition check_permission (dir : Ext4Directory) (required_mode : Z) : bool :=
  Ext4File.check_permission (inode dir) required_mode.

Definition read (dir : Ext4Directory) (offset size : Z) : kernel W Z := mret 0.

(** *** finddir *)

Definition is_directory (i : list Z) : bool := Z.land (member Ext4Inode "i_mode" i) 0xF000 =? EXT4_S_IFDIR.

Definition new_node (f : Ext4Manager) (nm : list Z) (ino : Z) : kernel W ext4_node :=
  inode_data ← read_inode f ino;
  if is_directory inode_data then dir ← new_Ext4Directory f nm ino; mret (NodeDirectory dir)
  else fl ← Ext4File.new_Ext4File f nm ino; mret (NodeFile fl).

Fixpoint finddir_loop (n : nat) (f : Ext4Manager) (dir : Ext4Directory) (nm : list Z) (buffer offset : Z)
  : kernel W (option ext4_node) :=
  if offset <? size dir then
    match n with
    | O => lift OutOfFuel
    | S n' =>
        logical_block ← lift (udiv offset (block_size f));
        physical_block ← extent_get_block f (inode dir) logical_block;
        if physical_block =? 0 then finddir_loop n' f dir nm buffer (u32 (offset + block_size f)) else
        b ← read_into f buffer physical_block;
        r ← lift (scan_block (S (length b)) nm b 0 offset);
        match r with
        | inr ino => node ← new_node f nm ino; mret (Some node)
        | inl offset' => finddir_loop n' f dir nm buffer offset'
        end
    end
  else mret None.

Definition finddir (f : Ext4Manager) (dir : Ext4Directory) (nm : list Z) : kernel W (option ext4_node) :=
  buffer ← kmalloc (block_size f);
  r ← finddir_loop (S (Z.to_nat (size dir))) f dir nm buffer 0;
  kfree buffer;;
  mret r.

(** *** readdir *)

(** The name goes to an array of 128 bytes. *)
Definition dirent_of (p : Z) (b : list Z) : outcome vfs_dirent :=
  n ← get_entry "name_len" p b;
  nm ← get_bytes (p + NAME) n b;
  if 128 <=? n then Fault else
  ino ← get_entry "inode" p b;
  ty ← get_entry "file_type" p b;
  Ok (mk_dirent nm ino (if ty =? EXT4_FT_DIR then VFS_DIRECTORY else VFS_FILE)).

(** The entries of a block from [p] on, counted from [current_idx]: the one with the
    index, or the offset and the count after the block. *)
Fixpoint list_block (n : nat) (index : Z) (b : list Z) (sz p offset current_idx : Z)
  : outcome ((Z * Z) + vfs_dirent) :=
  if (p <? len b) && (offset <? sz) then
    match n with
    | O => OutOfFuel
    | S n' =>
        ino ← get_entry "inode" p b;
        rec_len ← get_entry "rec_len" p b;
        if negb (ino =? 0) && (current_idx =? index) then d ← dirent_of p b; Ok (inr d) else
        let current_idx := if ino =? 0 then current_idx else u32 (current_idx + 1) in
        if rec_len =? 0 then Ok (inl (u32 (offset + len b), current_idx))
        else list_block n' index b sz (p + rec_len) (u32 (offset + rec_len)) current_idx
    end
  else Ok (inl (offset, current_idx)).

Fixpoint readdir_loop (n : nat) (f : Ext4Manager) (dir : Ext4Directory) (index buffer offset current_idx : Z)
  : kernel W (option vfs_dirent) :=
  if offset <? size dir then
    match n with
    | O => lift OutOfFuel
    | S n' =>
        logical_block ← lift (udiv offset (block_size f));
        offset_in_block ← lift (umod offset (block_size f));
        physical_block ← extent_get_block f (inode dir) logical_block;
        if physical_block =? 0
        then readdir_loop n' f dir index buffer (u32 (offset + (block_size f - offset_in_block))) current_idx else
        b ← read_into f buffer physical_block;
        r ← lift (list_block (S (length b)) index b (size dir) offset_in_block offset current_idx);
        match r with
        | inr d => mret (Some d)
        | inl (offset', idx') => readdir_loop n' f dir index buffer offset' idx'
        end
    end
  else mret None.

Definition readdir (f : Ext4Manager) (dir : Ext4Directory) (index : Z) : kernel W (option vfs_dirent) :=
  buffer ← kmalloc (block_size f);
  r ← readdir_loop (S (Z.to_nat (size dir))) f dir index buffer 0 0;
  kfree buffer;;
  mret r.

(** *** Room for an entry *)

(** The entries of a block from [p] on: the first with room behind its name. *)
Fixpoint room_in_block (n : nat) (required_size : Z) (b : list Z) (p : Z) : outcome (option (Z * Z)) :=
  if p <? len b then
    match n with
    | O => OutOfFuel
    | S n' =>
        name_len ← get_entry "name_len" p b;
        let actual_used := entry_size name_len in
        rec_len ← get_entry "rec_len" p b;
        if rec_len =? 0 then Ok None
        else if actual_used + required_size <=? rec_len then Ok (Some (rec_len - actual_used, p))
        else room_in_block n' required_size b (p + rec_len)
    end
  else Ok None.

Fixpoint find_space_loop (n : nat) (f : Ext4Manager) (dir : Ext4Directory) (required_size buffer offset : Z)
  : kernel W (option (Z * Z * Z)) :=
  if offset <? size dir then
    match n with
    | O => lift OutOfFuel
    | S n' =>
        logical_block ← lift (udiv offset (block_size f));
        physical_block ← extent_get_block f (inode dir) logical_block;
        if physical_block =? 0 then find_space_loop n' f dir required_size buffer (u32 (offset + block_size f)) else
        b ← read_into f buffer physical_block;
        r ← lift (room_in_block (S (length b)) required_size b 0);
        match r with
        | Some (space, p) => mret (Some (space, physical_block, p))
        | None => find_space_loop n' f dir required_size buffer (u32 (offset + block_size f))
        end
    end
  else mret None.

(** The space, the block and the entry in it; [None] stands for the answer 0. *)
Definition find_free_entry_space (f : Ext4Manager) (dir : Ext4Directory) (required_size : Z)
  : kernel W (option (Z * Z * Z)) :=
  buffer ← kmalloc (block_size f);
  r ← find_space_loop (S (Z.to_nat (size dir))) f dir required_size buffer 0;
  kfree buffer;;
  mret r.

(** The entry at [p] cut to its name, and a new one in the rest. *)
Definition split_entry (p ino file_type : Z) (nm : list Z) (b : list Z) : outcome (list Z) :=
  n ← get_entry "name_len" p b;
  let old_actual_len := entry_size n in
  original_rec_len ← get_entry "rec_len" p b;
  b ← put_entry "rec_len" p old_actual_len b;
  let q := p + old_actual_len in
  let name_len := u8 (len nm) in
  b ← put_entry "inode" q ino b;
  b ← put_entry "rec_len" q (original_rec_len - old_actual_len) b;
  b ← put_entry "name_len" q name_len b;
  b ← put_entry "file_type" q file_type b;
  put_bytes (q + NAME) (take (Z.to_nat name_len) nm) b.

Definition add_entry (f : Ext4Manager) (phys_block p ino file_type : Z) (nm : list Z) : kernel W Ext4Manager :=
  buffer ← kmalloc (block_size f);
  b ← read_into f buffer phys_block;
  b' ← lift (split_entry p ino file_type nm b);
  f ← journal_write_block f phys_block b';
  kfree buffer;;
  mret f.

(** *** create and mkdir *)

(** A new inode: the members that are not 0, and the header of the root. *)
Definition fresh_inode (mode links sz entries : Z) : list Z :=
  poke Ext4ExtentHeader i_block
    [("eh_magic", EXT4_EXTENT_MAGIC); ("eh_entries", entries); ("eh_max", 4); ("eh_depth", 0)]
    (poke Ext4Inode 0 [("i_mode", mode); ("i_links_count", links); ("i_size_lo", sz); ("i_flags", EXT4_EXTENTS_FL)]
      (zeroed Ext4Inode)).

Definition new_file_inode : list Z := fresh_inode (Z.lor EXT4_S_IFREG 0x1A4) 1 0 0.

(** Answers the node and the manager. *)
Definition create (f : Ext4Manager) (dir : Ext4Directory) (nm : list Z)
  : kernel W (option ext4_node * Ext4Manager) :=
  if negb (check_permission dir EXT4_S_IWUSR) then mret (None, f) else
  space ← find_free_entry_space f dir (entry_size (u8 (len nm)));
  match space with
  | None => mret (None, f)
  | Some (_, phys_block, entry_block_offset) =>
      '(new_inode_num, f) ← allocate_inode f false;
      if new_inode_num =? 0 then mret (None, f) else
      write_inode f new_inode_num new_file_inode;;
      f ← add_entry f phys_block entry_block_offset new_inode_num EXT4_FT_REG_FILE nm;
      f ← commit_and_start f;
      fl ← Ext4File.new_Ext4File f nm new_inode_num;
      mret (Some (NodeFile fl), f)
  end.

Definition new_dir_inode (bsize block : Z) : list Z :=
  let e := entry_at i_block 0 in
  poke Ext4Extent e [("ee_block", 0); ("ee_len", 1); ("ee_start_lo", Z.land block 0xFFFFFFFF);
      ("ee_start_hi", Z.land (Z.shiftr block 32) 0xFFFF)]
    (fresh_inode (Z.lor EXT4_S_IFDIR 0x1ED) 2 bsize 1).

(** The block of a new directory: [.] and [..]. *)
Definition dots_block (bsize ino parent : Z) : outcome (list Z) :=
  let b := replicate (Z.to_nat bsize) 0 in
  b ← put_entry "inode" 0 ino b;
  b ← put_entry "name_len" 0 1 b;
  b ← put_entry "rec_len" 0 12 b;
  b ← put_entry "file_type" 0 EXT4_FT_DIR b;
  b ← put_bytes NAME [DOT] b;
  b ← put_entry "inode" 12 parent b;
  b ← put_entry "name_len" 12 2 b;
  b ← put_entry "rec_len" 12 (bsize - 12) b;
  b ← put_entry "file_type" 12 EXT4_FT_DIR b;
  put_bytes (12 + NAME) [DOT; DOT] b.

(** [links++] and [links--] of an inode. *)
Definition add_links (n : Z) (i : list Z) : list Z := add_member Ext4Inode "i_links_count" n i.

(** Answers the result, the directory object and the manager. *)
Definition mkdir (f : Ext4Manager) (dir : Ext4Directory) (nm : list Z)
  : kernel W (Z * Ext4Directory * Ext4Manager) :=
  if negb (check_permission dir (Z.lor EXT4_S_IWUSR EXT4_S_IXUSR)) then mret (-1, dir, f) else
  '(new_inode_num, f) ← allocate_inode f true;
  if new_inode_num =? 0 then mret (-1, dir, f) else
  '(block, f) ← allocate_block f;
  if block =? 0 then mret (-1, dir, f) else
  write_inode f new_inode_num (new_dir_inode (block_size f) block);;
  buf ← kmalloc (block_size f);
  b ← (if buf =? 0 then lift Fault else lift (dots_block (block_size f) new_inode_num (inode_num dir)));
  write_block f block b;;
  kfree buf;;
  space ← find_free_entry_space f dir (entry_size (u8 (len nm)));
  f ← match space with
      | Some (_, phys_block, entry_block_offset) =>
          add_entry f phys_block entry_block_offset new_inode_num EXT4_FT_DIR nm
      | None => mret f
      end;
  let dir := set_inode (add_links 1 (inode dir)) dir in
  write_inode f (inode_num dir) (inode dir);;
  f ← commit_and_start f;
  mret (0, dir, f).

(** *** unlink *)

(** The entries of a block from [p] on, [prev] the one before: the block without the
    entry of the name, and its inode. *)
Fixpoint remove_from_block (n : nat) (nm : list Z) (b : list Z) (prev : option Z) (p : Z)
  : outcome (option (Z * list Z)) :=
  if p <? len b then
    match n with
    | O => OutOfFuel
    | S n' =>
        m ← entry_matches nm p b;
        rec_len ← get_entry "rec_len" p b;
        if (m : bool) then
          ino ← get_entry "inode" p b;
          b' ← match prev with
               | Some q => r ← get_entry "rec_len" q b; put_entry "rec_len" q (r + rec_len) b
               | None => put_entry "inode" p 0 b
               end;
          Ok (Some (ino, b'))
        else if rec_len =? 0 then Ok None
        else remove_from_block n' nm b (Some p) (p + rec_len)
    end
  else Ok None.

Fixpoint unlink_loop (n : nat) (f : Ext4Manager) (dir : Ext4Directory) (nm : list Z) (buffer offset : Z)
  : kernel W (option Z * Ext4Manager) :=
  if offset <? size dir then
    match n with
    | O => lift OutOfFuel
    | S n' =>
        logical_block ← lift (udiv offset (block_size f));
        physical_block ← extent_get_block f (inode dir) logical_block;
        if physical_block =? 0 then unlink_loop n' f dir nm buffer (u32 (offset + block_size f)) else
        b ← read_into f buffer physical_block;
        r ← lift (remove_from_block (S (length b)) nm b None 0);
        match r with
        | Some (ino, b') => f ← journal_write_block f physical_block b'; mret (Some ino, f)
        | None => unlink_loop n' f dir nm buffer (u32 (offset + block_size f))
        end
    end
  else mret (None, f).

(** Answers success, the directory object and the manager. *)
Definition unlink (f : Ext4Manager) (dir : Ext4Directory) (nm : list Z)
  : kernel W (bool * Ext4Directory * Ext4Manager) :=
  if negb (check_permission dir (Z.lor EXT4_S_IWUSR EXT4_S_IXUSR)) then mret (false, dir, f) else
  buffer ← kmalloc (block_size f);
  '(found, f) ← unlink_loop (S (Z.to_nat (size dir))) f dir nm buffer 0;
  kfree buffer;;
  match found with
  | None => mret (false, dir, f)
  | Some ino =>
      target ← read_inode f ino;
      target ← (if 0 <? member Ext4Inode "i_links_count" target then
                  let target := add_links (-1) target in write_inode f ino target;; mret target
                else mret target);
      dir ← (if is_directory target then
               let dir := set_inode (add_links (-1) (inode dir)) dir in
               write_inode f (inode_num dir) (inode dir);; mret dir
             else mret dir);
      f ← commit_and_start f;
      mret (true, dir, f)
  end.
End directory.

(** ** The entries of a block *)

Record dentry : Set := mk_dentry { de_name : list Z; de_ino : Z; de_type : Z }.
#[global] Instance dentry_eq_dec : EqDecision dentry.
Proof. solve_decision. Defined.

Definition name_len (b : list Z) (p : Z) : Z := of_le (sub (p + 6) 1 b).
Definition rec_len (b : list Z) (p : Z) : Z := of_le (sub (p + 4) 2 b).
Definition entry_of (b : list Z) (p : Z) : dentry :=
  mk_dentry (sub (p + 8) (name_len b p) b) (of_le (sub p 4 b)) (of_le (sub (p + 7) 1 b)).

(** The entry at [p] lies in the block and has room for its name. *)
Definition entry_ok (b : list Z) (p : Z) : bool :=
  (0 <=? p) && (p + 8 <=? len b) && (entry_size (name_len b p) <=? rec_len b p) && (p + rec_len b p <=? len b).

(** The entries [ps], one behind the other, lead from [p] to [q]. *)
Fixpoint walk (b : list Z) (p : Z) (ps : list Z) (q : Z) : Prop :=
  match ps with
  | [] => p = q
  | x :: ps' => x = p ∧ entry_ok b p = true ∧ walk b (p + rec_len b p) ps' q
  end.

(** The entries from [p] to the end of the block, if they lead there. *)
Fixpoint places (n : nat) (b : list Z) (p : Z) : option (list Z) :=
  if p =? len b then Some [] else
  match n with
  | O => None
  | S n' => if entry_ok b p then ps ← places n' b (p + rec_len b p); Some (p :: ps) else None
  end.

(** The entries that are in use. *)
Definition in_use (e : dentry) : bool := negb (de_ino e =? 0).
Definition entries (b : list Z) (ps : list Z) : list dentry := List.filter in_use (map (entry_of b) ps).

Definition has_name (nm : list Z) (e : dentry) : bool := bool_decide (de_name e = nm).

Section walks.
Implicit Types b : list Z.

Lemma round4_bounds x : x ≤ round4 x ≤ x + 3.
Proof. unfold round4. pose proof (Z.mod_pos_bound x 4 ltac:(lia)). destruct (Z.eqb_spec (x mod 4) 0); lia. Qed.
Lemma entry_size_bounds n : 8 + n ≤ entry_size n ≤ n + 11.
Proof. unfold entry_size. pose proof (round4_bounds (8 + n)). lia. Qed.

Section entry.
Context (b : list Z) (p : Z) (Hb : Forall byte b) (Hok : entry_ok b p = true).

Lemma name_len_range : 0 ≤ name_len b p < 256.
Proof using Hb.
  pose proof (of_le_range (sub (p + 6) 1 b) (Forall_sub _ _ _ _ Hb)) as H. unfold name_len. split; [lia|].
  eapply Z.lt_le_trans; [apply H|]. change 256 with (2 ^ (8 * 1)). apply Z.pow_le_mono_r; [lia|].
  unfold len, sub. rewrite length_take. lia.
Qed.

Lemma entry_bounds : 0 ≤ p ∧ 8 + name_len b p ≤ rec_len b p ∧ p + rec_len b p ≤ len b ∧
  entry_size (name_len b p) ≤ rec_len b p.
Proof using Hok.
  unfold entry_ok in Hok. apply andb_true_iff in Hok as [H H4%Z.leb_le]. apply andb_true_iff in H as [H H3%Z.leb_le].
  apply andb_true_iff in H as [H1%Z.leb_le H2%Z.leb_le]. pose proof (entry_size_bounds (name_len b p)). lia.
Qed.

Lemma get_ino : get_entry "inode" p b = Ok (de_ino (entry_of b p)).
Proof using Hb Hok.
  destruct entry_bounds as (B1 & B2 & B3 & _). pose proof name_len_range. unfold get_entry, get_member.
  change (offset_of Ext4DirEntry2 "inode") with 0. change (width_of Ext4DirEntry2 "inode") with 4%nat.
  rewrite get_le_ok by lia. cbn [de_ino entry_of]. by rewrite Z.add_0_r.
Qed.
Lemma get_rec : get_entry "rec_len" p b = Ok (rec_len b p).
Proof using Hb Hok.
  destruct entry_bounds as (B1 & B2 & B3 & _). pose proof name_len_range. unfold get_entry, get_member.
  change (offset_of Ext4DirEntry2 "rec_len") with 4. change (width_of Ext4DirEntry2 "rec_len") with 2%nat.
  by rewrite get_le_ok by lia.
Qed.
Lemma get_name_len : get_entry "name_len" p b = Ok (name_len b p).
Proof using Hb Hok.
  destruct entry_bounds as (B1 & B2 & B3 & _). pose proof name_len_range. unfold get_entry, get_member.
  change (offset_of Ext4DirEntry2 "name_len") with 6. change (width_of Ext4DirEntry2 "name_len") with 1%nat.
  by rewrite get_le_ok by lia.
Qed.
Lemma get_type : get_entry "file_type" p b = Ok (de_type (entry_of b p)).
Proof using Hb Hok.
  destruct entry_bounds as (B1 & B2 & B3 & _). pose proof name_len_range. unfold get_entry, get_member.
  change (offset_of Ext4DirEntry2 "file_type") with 7. change (width_of Ext4DirEntry2 "file_type") with 1%nat.
  by rewrite get_le_ok by lia.
Qed.
Lemma len_de_name : len (de_name (entry_of b p)) = name_len b p.
Proof using Hb Hok. destruct entry_bounds as (B1 & B2 & B3 & _). pose proof name_len_range. apply len_sub; lia. Qed.
End entry.

Lemma same_name_ok nm : ∀ p b, 0 ≤ p → p + len nm ≤ len b →
  same_name nm p b = Ok (bool_decide (sub p (len nm) b = nm)).
Proof.
  induction nm as [|c nm IH]; intros p b Hp Hl; [done|]. pose proof (len_nonneg nm). cbn [same_name].
  assert (El : len (c :: nm) = 1 + len nm) by (unfold len; cbn [length]; lia). rewrite El in *.
  rewrite get_le_ok by lia. run. rewrite <- (sub_app p 1 (len nm)) by lia.
  pose proof (len_sub p 1 b Hp ltac:(lia) ltac:(lia)) as E1. change (Z.of_nat 1) with 1.
  destruct (sub p 1 b) as [|x [|? ?]]; [done| |unfold len in E1; cbn [length] in E1; lia].
  cbn [of_le app]. replace (x + 256 * 0) with x by lia. destruct (Z.eqb_spec x c) as [->|Hne].
  - rewrite IH by lia. f_equal. apply bool_decide_ext. split; [by intros ->|by intros [= ->]].
  - f_equal. symmetry. apply bool_decide_eq_false_2. by intros [= E].
Qed.

Lemma entry_matches_ok nm p b : Forall byte b → entry_ok b p = true →
  entry_matches nm p b = Ok (in_use (entry_of b p) && has_name nm (entry_of b p)).
Proof.
  intros Hb Hok. unfold entry_matches, in_use. rewrite get_ino by done. run. destruct (_ =? 0); [done|].
  rewrite get_name_len by done. run. destruct (entry_bounds b p Hok) as (B1 & B2 & B3 & _). pose proof (name_len_range b p Hb).
  unfold has_name. destruct (Z.eqb_spec (len nm) (name_len b p)) as [E|Hne].
  - change NAME with 8. rewrite same_name_ok by lia. cbn [negb andb]. do 2 f_equal. cbn [de_name entry_of]. by rewrite E.
  - cbn [negb andb]. f_equal. symmetry. apply bool_decide_eq_false_2. intros E. apply Hne. rewrite <- E. by rewrite len_de_name.
Qed.

(** *** Walks *)

Lemma walk_app b l1 l2 : ∀ p q, walk b p (l1 ++ l2) q ↔ ∃ m, walk b p l1 m ∧ walk b m l2 q.
Proof.
  induction l1 as [|x l1 IH]; intros p q; cbn [app walk].
  - split; [by eauto|]. by intros (m & -> & H).
  - rewrite IH. split.
    + intros (-> & Hok & m & H1 & H2). eauto 10.
    + intros (m & (-> & Hok & H1) & H2). eauto 10.
Qed.

Lemma walk_le b ps : Forall byte b → ∀ p q, walk b p ps q → p + 8 * len ps ≤ q.
Proof.
  intros Hb. induction ps as [|x ps IH]; intros p q H; cbn [walk] in H; [unfold len; cbn; lia|].
  destruct H as (-> & Hok & H). apply IH in H. destruct (entry_bounds b p Hok). pose proof (name_len_range b p Hb).
  unfold len in *. cbn [length]. lia.
Qed.

Lemma places_walk n b : ∀ p ps, places n b p = Some ps → walk b p ps (len b).
Proof.
  induction n as [|n IH]; intros p ps; cbn [places]; destruct (Z.eqb_spec p (len b)) as [->|]; try done.
  1-2: by intros [= <-].
  destruct (entry_ok b p) eqn:Hok; [|done]. intros (ps' & H & [= <-])%bind_Some. cbn [walk]. auto.
Qed.

Lemma walk_places n b : Forall byte b → ∀ p ps, walk b p ps (len b) → (length ps ≤ n)%nat → places n b p = Some ps.
Proof.
  intros Hb. induction n as [|n IH]; intros p ps Hw Hl.
  - destruct ps; [|cbn in Hl; lia]. cbn [walk] in Hw. cbn [places]. by rewrite (proj2 (Z.eqb_eq _ _) Hw).
  - destruct ps as [|x ps]; cbn [walk] in Hw; cbn [places].
    + by rewrite (proj2 (Z.eqb_eq _ _) Hw).
    + destruct Hw as (-> & Hok & Hw). destruct (entry_bounds b p Hok) as (B1 & B2 & B3 & _).
      pose proof (name_len_range b p Hb). rewrite (proj2 (Z.eqb_neq _ _)) by lia. rewrite Hok.
      rewrite (IH _ ps) by (done || (cbn in Hl; lia)). done.
Qed.

(** A walk depends on the bytes it goes over. *)
Lemma walk_local b b' ps : Forall byte b → len b' = len b → ∀ p q, walk b p ps q → 0 ≤ p → q ≤ len b →
  (∀ off n, p ≤ off → 0 ≤ n → off + n ≤ q → sub off n b' = sub off n b) →
  walk b' p ps q ∧ map (entry_of b') ps = map (entry_of b) ps.
Proof.
  intros Hb El. induction ps as [|x ps IH]; intros p q Hw Hp Hq Hs; [done|].
  cbn [walk map] in *. destruct Hw as (-> & Hok & Hw). destruct (entry_bounds b p Hok) as (B1 & B2 & B3 & B4).
  pose proof (name_len_range b p Hb). pose proof (walk_le b ps Hb _ _ Hw) as Hle. pose proof (len_nonneg ps).
  assert (En : name_len b' p = name_len b p) by (unfold name_len; rewrite Hs by lia; done).
  assert (Er : rec_len b' p = rec_len b p) by (unfold rec_len; rewrite Hs by lia; done).
  destruct (IH (p + rec_len b p) q Hw) as [I1 I2]; [lia|done|intros; apply Hs; lia|].
  split; [split; [done|split]|].
  - unfold entry_ok in *. by rewrite En, Er, El.
  - by rewrite Er.
  - f_equal; [|done]. unfold entry_of. rewrite En, !Hs by lia. done.
Qed.

Lemma entries_app b l1 l2 : entries b (l1 ++ l2) = entries b l1 ++ entries b l2.
Proof. unfold entries. by rewrite map_app, List.filter_app. Qed.
Lemma entries_cons b p ps : entries b (p :: ps) = entries b [p] ++ entries b ps.
Proof. apply (entries_app b [p]). Qed.

Lemma find_app {A} (P : A → bool) l1 l2 : find P (l1 ++ l2) = match find P l1 with Some x => Some x | None => find P l2 end.
Proof. induction l1 as [|x l1 IH]; [done|]. cbn [app find]. by destruct (P x). Qed.
End walks.

(** *** The loops over the entries of a block *)

Section loops.
Implicit Types b : list Z.

(** The first entry in use with the name. *)
Definition find_entry (nm : list Z) (es : list dentry) : option dentry := find (has_name nm) es.

Lemma entries_matches nm b p ps : find_entry nm (entries b (p :: ps)) =
  if in_use (entry_of b p) && has_name nm (entry_of b p) then Some (entry_of b p) else find_entry nm (entries b ps).
Proof.
  unfold find_entry, entries. cbn [map List.filter]. destruct (in_use _); [|done]. cbn [find andb]. by destruct (has_name _ _).
Qed.

Lemma scan_block_ok nm b n : ∀ p ps offset, Forall byte b → walk b p ps (len b) → (length ps ≤ n)%nat →
  0 ≤ p → 0 ≤ offset → offset + (len b - p) < 2 ^ 32 →
  scan_block n nm b p offset = Ok (match find_entry nm (entries b ps) with
    | Some e => inr (de_ino e) | None => inl (offset + (len b - p)) end).
Proof.
  induction n as [|n IH]; intros p ps offset Hb Hw Hl Hp Ho Hlim;
    (destruct ps as [|x ps]; cbn [walk] in Hw; [|destruct Hw as (-> & Hok & Hw)]).
  1,3: subst p; cbn [scan_block]; rewrite Z.ltb_irrefl, Z.sub_diag, Z.add_0_r; done.
  { cbn in Hl. lia. }
  destruct (entry_bounds b p Hok) as (B1 & B2 & B3 & _). pose proof (name_len_range b p Hb).
  cbn [scan_block]. rewrite (proj2 (Z.ltb_lt _ _)) by lia. rewrite entry_matches_ok by done. run.
  rewrite entries_matches. destruct (in_use _ && has_name _ _).
  - rewrite get_ino by done. by run.
  - rewrite get_rec by done. run. rewrite (proj2 (Z.eqb_neq _ _)) by lia.
    rewrite wrap_small by lia. rewrite (IH _ ps); [|done|done|cbn in Hl; lia|lia|lia|lia].
    by replace (offset + rec_len b p + (len b - (p + rec_len b p))) with (offset + (len b - p)) by lia.
Qed.

(** What [readdir] answers for an entry. *)
Definition dirent (e : dentry) : vfs_dirent :=
  mk_dirent (de_name e) (de_ino e) (if de_type e =? EXT4_FT_DIR then VFS_DIRECTORY else VFS_FILE).

Lemma dirent_of_ok b p : Forall byte b → entry_ok b p = true → len (de_name (entry_of b p)) < 128 →
  dirent_of p b = Ok (dirent (entry_of b p)).
Proof.
  intros Hb Hok Hlt. destruct (entry_bounds b p Hok) as (B1 & B2 & B3 & _). pose proof (name_len_range b p Hb).
  rewrite len_de_name in Hlt by done. unfold dirent_of. rewrite get_name_len by done. run. change NAME with 8.
  rewrite get_bytes_ok by lia. run. rewrite (proj2 (Z.leb_gt _ _)) by lia. rewrite get_ino by done. run.
  rewrite get_type by done. by run.
Qed.

Lemma list_block_ok b sz n : ∀ p ps offset idx index, Forall byte b → walk b p ps (len b) → (length ps ≤ n)%nat →
  0 ≤ p → 0 ≤ offset → offset + (len b - p) ≤ sz → sz < 2 ^ 32 → 0 ≤ idx ≤ index → idx + len ps < 2 ^ 32 →
  (∀ e, e ∈ entries b ps → len (de_name e) < 128) →
  list_block n index b sz p offset idx = Ok (match entries b ps !! Z.to_nat (index - idx) with
    | Some e => inr (dirent e) | None => inl (offset + (len b - p), idx + len (entries b ps)) end).
Proof.
  induction n as [|n IH]; intros p ps offset idx index Hb Hw Hl Hp Ho Hlim Hsz Hi Hc Hnm;
    (destruct ps as [|x ps]; cbn [walk] in Hw; [|destruct Hw as (-> & Hok & Hw)]).
  1,3: subst p; cbn [list_block]; rewrite Z.ltb_irrefl, Z.sub_diag; cbn [andb];
    change (len (entries b [])) with 0; by rewrite !Z.add_0_r.
  { cbn in Hl. lia. }
  destruct (entry_bounds b p Hok) as (B1 & B2 & B3 & _). pose proof (name_len_range b p Hb).
  assert (El : len (p :: ps) = 1 + len ps) by (unfold len; cbn [length]; lia). rewrite El in Hc.
  pose proof (walk_le b ps Hb _ _ Hw). pose proof (len_nonneg ps).
  cbn [list_block]. rewrite (proj2 (Z.ltb_lt p _)), (proj2 (Z.ltb_lt offset _)) by lia. cbn [andb].
  rewrite get_ino by done. run. rewrite get_rec by done. run. rewrite (proj2 (Z.eqb_neq (rec_len b p) 0)) by lia.
  rewrite (wrap_small 32 (offset + _)) by lia.
  assert (Hps : ∀ e, e ∈ entries b ps → len (de_name e) < 128).
  { intros e He. apply Hnm. rewrite entries_cons. apply elem_of_app. by right. }
  assert (Ecut : offset + rec_len b p + (len b - (p + rec_len b p)) = offset + (len b - p)) by lia.
  rewrite entries_cons. unfold entries at 1 3. cbn [map List.filter].
  unfold in_use at 1 2. destruct (Z.eqb_spec (de_ino (entry_of b p)) 0) as [E0|Hne]; cbn [negb andb app].
  - rewrite (IH _ ps) by (done || cbn in Hl; lia). by rewrite Ecut.
  - destruct (Z.eqb_spec idx index) as [->|Hlt].
    + rewrite Z.sub_diag. cbn [lookup]. rewrite dirent_of_ok; [done|done|done|].
      apply Hnm. rewrite entries_cons. unfold entries at 1. cbn [map List.filter]. unfold in_use.
      rewrite (proj2 (Z.eqb_neq _ _)) by done. apply elem_of_app. left. by left.
    + rewrite wrap_small by lia. rewrite (IH _ ps) by (done || cbn in Hl; lia). rewrite Ecut.
      replace (Z.to_nat (index - idx)) with (S (Z.to_nat (index - (idx + 1)))) by lia. cbn [lookup list_lookup].
      destruct (entries b ps !! _); [done|]. do 3 f_equal. unfold len. cbn [length]. lia.
Qed.

(** Room behind the name of an entry. *)
Definition room (b : list Z) (p : Z) : Z := rec_len b p - entry_size (name_len b p).

Lemma room_in_block_ok req b n : ∀ p ps, Forall byte b → walk b p ps (len b) → (length ps ≤ n)%nat →
  match find (λ x, req <=? room b x) ps with
  | Some x => room_in_block n req b p = Ok (Some (room b x, x))
  | None => room_in_block n req b p = Ok None
  end.
Proof.
  induction n as [|n IH]; intros p ps Hb Hw Hl;
    (destruct ps as [|x ps]; cbn [walk] in Hw; [|destruct Hw as (-> & Hok & Hw)]).
  1,3: subst p; cbn [room_in_block find]; rewrite Z.ltb_irrefl; done.
  { cbn in Hl. lia. }
  destruct (entry_bounds b p Hok) as (B1 & B2 & B3 & B4). pose proof (name_len_range b p Hb).
  cbn [find]. cbn [room_in_block]. rewrite (proj2 (Z.ltb_lt p _)) by lia.
  rewrite get_name_len by done. run. rewrite get_rec by done. run. rewrite (proj2 (Z.eqb_neq (rec_len b p) 0)) by lia.
  assert (E : (entry_size (name_len b p) + req <=? rec_len b p) = (req <=? room b p)).
  { unfold room. destruct (Z.leb_spec req (rec_len b p - entry_size (name_len b p))), (Z.leb_spec (entry_size (name_len b p) + req) (rec_len b p)); (done || lia). }
  rewrite E. destruct (req <=? room b p); [done|]. apply IH; [done|done|cbn in Hl; lia].
Qed.
End loops.

(** *** Changes of a block *)

Fixpoint remove_named (nm : list Z) (es : list dentry) : list dentry :=
  match es with [] => [] | e :: es' => if has_name nm e then es' else e :: remove_named nm es' end.

(** The block without the entry [x]: the entry before it is longer, or the first one is
    not in use. *)
Definition cut (b : list Z) (prev : option Z) (x : Z) : list Z :=
  match prev with
  | Some q => splice (q + 4) (le 2 (rec_len b q + rec_len b x)) b
  | None => splice x (le 4 0) b
  end.

Section changes.
Implicit Types b : list Z.

Lemma remove_named_app nm l1 e l2 : find_entry nm l1 = None → has_name nm e = true →
  remove_named nm (l1 ++ e :: l2) = l1 ++ l2.
Proof.
  intros Hn He. induction l1 as [|x l1 IH]; cbn [app remove_named]; [by rewrite He|].
  unfold find_entry in Hn. cbn [find] in Hn. destruct (has_name nm x); [done|]. by rewrite IH.
Qed.

Lemma remove_from_block_ok nm b n : ∀ p ps prev, Forall byte b → walk b p ps (len b) → (length ps ≤ n)%nat →
  (∀ q, prev = Some q → entry_ok b q = true) →
  (∃ l1 x l2, ps = l1 ++ x :: l2 ∧ find_entry nm (entries b l1) = None ∧
     in_use (entry_of b x) = true ∧ has_name nm (entry_of b x) = true ∧
     remove_from_block n nm b prev p =
       Ok (Some (de_ino (entry_of b x), cut b (match last l1 with Some q => Some q | None => prev end) x))) ∨
  (find_entry nm (entries b ps) = None ∧ remove_from_block n nm b prev p = Ok None).
Proof.
  induction n as [|n IH]; intros p ps prev Hb Hw Hl Hprev;
    (destruct ps as [|x ps]; cbn [walk] in Hw; [|destruct Hw as (-> & Hok & Hw)]).
  1,3: right; subst p; cbn [remove_from_block]; rewrite Z.ltb_irrefl; done.
  { cbn in Hl. lia. }
  destruct (entry_bounds b p Hok) as (B1 & B2 & B3 & B4). pose proof (name_len_range b p Hb).
  cbn [remove_from_block]. rewrite (proj2 (Z.ltb_lt p _)) by lia. rewrite entry_matches_ok by done. run.
  rewrite get_rec by done. run. destruct (in_use _ && has_name _ _) eqn:Em.
  - left. apply andb_true_iff in Em as [E1 E2]. exists [], p, ps. split_and!; try done.
    rewrite get_ino by done. run. cbn [last cut]. destruct prev as [q|]; cbn [cut].
    + specialize (Hprev q eq_refl). destruct (entry_bounds b q Hprev) as (Q1 & Q2 & Q3 & Q4). pose proof (name_len_range b q Hb).
      rewrite get_rec by done. run. unfold put_entry, put_member.
      change (offset_of Ext4DirEntry2 "rec_len") with 4. change (width_of Ext4DirEntry2 "rec_len") with 2%nat.
      rewrite put_le_ok by lia. by run.
    + unfold put_entry, put_member. change (offset_of Ext4DirEntry2 "inode") with 0.
      change (width_of Ext4DirEntry2 "inode") with 4%nat. rewrite put_le_ok by lia. rewrite Z.add_0_r. by run.
  - rewrite (proj2 (Z.eqb_neq (rec_len b p) 0)) by lia.
    destruct (IH (p + rec_len b p) ps (Some p)) as [(l1 & x & l2 & -> & H1 & H2 & H3 & H4)|[H1 H2]];
      [done|done|cbn in Hl; lia|by intros q [= <-]| |].
    + left. exists (p :: l1), x, l2. rewrite H4. split_and!; try done; [by rewrite entries_matches, Em|].
      rewrite last_cons. by destruct (last l1).
    + right. by rewrite entries_matches, Em.
Qed.

Lemma cut_ok b l1 x l2 : Forall byte b → len b < 2 ^ 16 → walk b 0 (l1 ++ x :: l2) (len b) →
  let b' := cut b (last l1) x in
  len b' = len b ∧ Forall byte b' ∧
  ∃ ps', walk b' 0 ps' (len b) ∧ entries b' ps' = entries b l1 ++ entries b l2.
Proof.
  intros Hb Hlen Hw b'. apply walk_app in Hw as (m & Hw1 & Hw). cbn [walk] in Hw. destruct Hw as (-> & Hok & Hw2).
  destruct (entry_bounds b m Hok) as (B1 & B2 & B3 & B4). pose proof (name_len_range b m Hb).
  assert (Eb : b' = cut b (last l1) m) by done. clearbody b'. destruct l1 as [|q l1 _] using rev_ind.
  - cbn [walk] in Hw1. subst m. cbn [last cut] in Eb.
    assert (El : len b' = len b) by (rewrite Eb; Ext4File.lens). split; [done|].
    split; [rewrite Eb; apply Forall_splice; [apply le_bytes|done]|].
    exists (0 :: l2). destruct (walk_local b b' l2 Hb El _ _ Hw2) as [W1 W2]; [lia|lia| |].
    { intros off n Ho Hn Hend. rewrite Eb. by Ext4File.see. }
    assert (Er : rec_len b' 0 = rec_len b 0) by (unfold rec_len; rewrite Eb; by Ext4File.see).
    assert (En : name_len b' 0 = name_len b 0) by (unfold name_len; rewrite Eb; by Ext4File.see).
    split.
    + cbn [walk]. split; [done|]. unfold entry_ok in *. by rewrite El, Er, En.
    + rewrite entries_cons. unfold entries at 1 2. rewrite W2. cbn [map List.filter].
      assert (E0 : in_use (entry_of b' 0) = false).
      { unfold in_use. cbn [de_ino entry_of]. rewrite Eb. by Ext4File.see. }
      by rewrite E0.
  - apply walk_app in Hw1 as (k & Hw1 & Hq). cbn [walk] in Hq. destruct Hq as (-> & Hokq & Em).
    destruct (entry_bounds b k Hokq) as (Q1 & Q2 & Q3 & Q4). pose proof (name_len_range b k Hb).
    rewrite last_snoc in Eb. cbn [cut] in Eb.
    assert (El : len b' = len b) by (rewrite Eb; Ext4File.lens). split; [done|].
    split; [rewrite Eb; apply Forall_splice; [apply le_bytes|done]|].
    exists (l1 ++ k :: l2).
    destruct (walk_local b b' l1 Hb El _ _ Hw1) as [V1 V2]; [lia|lia| |].
    { intros off n Ho Hn Hend. rewrite Eb. by Ext4File.see. }
    destruct (walk_local b b' l2 Hb El _ _ Hw2) as [W1 W2]; [lia|lia| |].
    { intros off n Ho Hn Hend. rewrite Eb. by Ext4File.see. }
    assert (Er : rec_len b' k = rec_len b k + rec_len b m).
    { unfold rec_len at 1. rewrite Eb. Ext4File.see. rewrite of_le_le. apply Z.mod_small. change (2 ^ (8 * Z.of_nat 2)) with (2 ^ 16). lia. }
    assert (En : name_len b' k = name_len b k) by (unfold name_len; rewrite Eb; by Ext4File.see).
    assert (Ee : entry_of b' k = entry_of b k).
    { unfold entry_of. rewrite En. rewrite Eb. by Ext4File.see. }
    split.
    + apply walk_app. exists k. split; [done|]. cbn [walk]. split; [done|]. rewrite Er.
      replace (k + (rec_len b k + rec_len b m)) with (m + rec_len b m) by lia. split; [|done].
      unfold entry_ok. rewrite El, Er, En.
      rewrite !(proj2 (Z.leb_le _ _)) by lia. done.
    + rewrite !entries_app, (entries_cons b' k l2). unfold entries at 1 2 3.
      cbn [map]. rewrite V2, W2, Ee. unfold entries. cbn [map]. by rewrite !app_assoc.
Qed.

(** The name of at most 255 bytes put behind the entry [p]. *)
Lemma split_entry_ok b l1 p l2 ino ty nm : Forall byte b → walk b 0 (l1 ++ p :: l2) (len b) →
  0 < ino < 2 ^ 32 → 0 ≤ ty < 256 → len nm < 256 → Forall byte nm → entry_size (len nm) ≤ room b p →
  ∃ b' ps', split_entry p ino ty nm b = Ok b' ∧ len b' = len b ∧ Forall byte b' ∧ walk b' 0 ps' (len b) ∧
    entries b' ps' = entries b (l1 ++ [p]) ++ mk_dentry nm ino ty :: entries b l2.
Proof.
  intros Hb Hw Hino Hty Hnm Hnmb Hroom. apply walk_app in Hw as (m & Hw1 & Hw). cbn [walk] in Hw.
  destruct Hw as (-> & Hok & Hw2). destruct (entry_bounds b m Hok) as (B1 & B2 & B3 & B4).
  pose proof (name_len_range b m Hb). unfold room in Hroom. pose proof (entry_size_bounds (name_len b m)).
  pose proof (entry_size_bounds (len nm)). pose proof (len_nonneg nm).
  assert (Hrec : rec_len b m < 2 ^ 16).
  { pose proof (of_le_range (sub (m + 4) 2 b) (Forall_sub _ _ _ _ Hb)) as Hr. rewrite len_sub in Hr by lia. apply Hr. }
  unfold split_entry. rewrite get_name_len by done. run. rewrite get_rec by done. run.
  rewrite (wrap_small 8 (len nm)) by lia. replace (Z.to_nat (len nm)) with (length nm) by (unfold len; lia).
  rewrite firstn_all.
  set (os := entry_size (name_len b m)) in *. set (r := rec_len b m) in *. set (q := m + os).
  unfold put_entry, put_member. change NAME with 8.
  change (offset_of Ext4DirEntry2 "inode") with 0. change (width_of Ext4DirEntry2 "inode") with 4%nat.
  change (offset_of Ext4DirEntry2 "rec_len") with 4. change (width_of Ext4DirEntry2 "rec_len") with 2%nat.
  change (offset_of Ext4DirEntry2 "name_len") with 6. change (width_of Ext4DirEntry2 "name_len") with 1%nat.
  change (offset_of Ext4DirEntry2 "file_type") with 7. change (width_of Ext4DirEntry2 "file_type") with 1%nat.
  assert (Eq : q = m + os) by done. clearbody q. rewrite Z.add_0_r.
  do 5 (rewrite put_le_ok by Ext4File.lens; run). rewrite put_bytes_ok by Ext4File.lens.
  set (b' := splice (q + 8) nm _). exists b', (l1 ++ m :: q :: l2).
  assert (El : len b' = len b) by (unfold b'; Ext4File.lens).
  split; [done|]. split; [done|]. split.
  { unfold b'. repeat (apply Forall_splice; [first [apply le_bytes|done]|]). done. }
  destruct (walk_local b b' l1 Hb El _ _ Hw1) as [V1 V2]; [lia|lia| |].
  { intros off n Ho Hn Hend. unfold b'. by Ext4File.see. }
  destruct (walk_local b b' l2 Hb El _ _ Hw2) as [W1 W2]; [lia|lia| |].
  { intros off n Ho Hn Hend. unfold b'. by Ext4File.see. }
  assert (Er : rec_len b' m = os).
  { unfold rec_len, b'. Ext4File.see. rewrite of_le_le. apply Z.mod_small. change (2 ^ (8 * Z.of_nat 2)) with (2 ^ 16). lia. }
  assert (En : name_len b' m = name_len b m) by (unfold name_len, b'; by Ext4File.see).
  assert (Ee : entry_of b' m = entry_of b m) by (unfold entry_of; rewrite En; unfold b'; by Ext4File.see).
  assert (Er2 : rec_len b' q = r - os).
  { unfold rec_len, b'. Ext4File.see. rewrite of_le_le. apply Z.mod_small. change (2 ^ (8 * Z.of_nat 2)) with (2 ^ 16). lia. }
  assert (En2 : name_len b' q = len nm).
  { unfold name_len, b'. Ext4File.see. rewrite of_le_le. apply Z.mod_small. change (2 ^ (8 * Z.of_nat 1)) with 256. lia. }
  assert (Ee2 : entry_of b' q = mk_dentry nm ino ty).
  { unfold entry_of. rewrite En2. f_equal; unfold b'.
    - apply sub_splice_same; [lia|Ext4File.lens].
    - Ext4File.see. rewrite of_le_le. apply Z.mod_small. change (2 ^ (8 * Z.of_nat 4)) with (2 ^ 32). lia.
    - Ext4File.see. rewrite of_le_le. apply Z.mod_small. change (2 ^ (8 * Z.of_nat 1)) with 256. lia. }
  split.
  - apply walk_app. exists m. split; [done|]. cbn [walk]. rewrite Er, <- Eq, Er2.
    replace (q + (r - os)) with (m + r) by lia. unfold entry_ok. rewrite El, Er, En, Er2, En2. fold os.
    rewrite !(proj2 (Z.leb_le _ _)) by lia. done.
  - rewrite !entries_app, (entries_cons b' m), (entries_cons b' q). unfold entries. cbn [map].
    rewrite V2, W2, Ee, Ee2. rewrite <- app_assoc. f_equal.
    assert (Eu : in_use (mk_dentry nm ino ty) = true) by (unfold in_use; cbn [de_ino]; by rewrite (proj2 (Z.eqb_neq ino 0)) by lia).
    cbn [List.filter]. rewrite Eu. by destruct (in_use (entry_of b m)).
Qed.
End changes.

(** ** The entries of a directory *)

Section listing.
Context (f : Ext4Manager).
Implicit Types d : list Z.

(** The blocks of a directory of [sz] bytes, 0 where there is none. *)
Definition dir_blocks (es : list extent) (sz : Z) : list Z := map (lookup_extents es) (seqZ 0 (sz / block_size f)).

Definition block_entries d (x : Z) : option (list dentry) :=
  if x =? 0 then Some [] else
  if on_diskb f d x then ps ← places (length (block f d x)) (block f d x) 0; Some (entries (block f d x) ps) else None.
Fixpoint blocks_entries d (xs : list Z) : option (list dentry) :=
  match xs with
  | [] => Some []
  | x :: xs' => es ← block_entries d x; es' ← blocks_entries d xs'; Some (es ++ es')
  end.

(** The entries in use of the directory with the inode [i] of [sz] bytes. *)
Definition listing d (i : list Z) (sz : Z) : option (list dentry) :=
  if sz mod block_size f =? 0 then es ← inode_extents f d i; blocks_entries d (dir_blocks es sz) else None.

(** The object for the inode [ino]. *)
Definition node_of d (nm : list Z) (ino : Z) : ext4_node :=
  let i := Ext4.inode f d ino in
  let sz := u32 (ext4_get_inode_size i) in
  if is_directory i then NodeDirectory (mk_dir (take 127 nm) ino i sz 0)
  else NodeFile (Ext4File.mk_file (take 127 nm) ino i sz 0).

(** What the entries of a block with a number are. *)
Lemma block_entries_inv d x es : block_entries d x = Some es → x ≠ 0 →
  on_disk f d x ∧ ∃ ps, walk (block f d x) 0 ps (len (block f d x)) ∧ (length ps ≤ length (block f d x))%nat ∧
    es = entries (block f d x) ps.
Proof.
  unfold block_entries. destruct (Z.eqb_spec x 0); [done|]. intros H _. destruct (on_diskb f d x) eqn:E; [|done].
  apply on_diskb_spec in E. split; [done|]. apply bind_Some in H as (ps & Hp & [= <-]). exists ps.
  split; [by eapply places_walk|]. split; [|done]. revert Hp. clear. generalize (block f d x). intros b.
  set (n := length b) at 1 2. clearbody n. generalize 0.
  revert ps. induction n as [|n IH]; intros ps p; cbn [places]; destruct (p =? len b); try done.
  1-2: intros [= <-]; cbn; lia.
  destruct (entry_ok b p); [|done]. intros (ps' & H & [= <-])%bind_Some. apply IH in H. cbn. lia.
Qed.

Lemma block_entries_intro d x ps : geometry_ok f d → on_disk f d x → walk (block f d x) 0 ps (block_size f) →
  x ≠ 0 → block_entries d x = Some (entries (block f d x) ps).
Proof.
  intros Hg Hx Hw H0. unfold block_entries. rewrite (proj2 (Z.eqb_neq _ _)) by done.
  assert (E : on_diskb f d x = true).
  { unfold on_diskb. destruct Hx. by rewrite (proj2 (Z.leb_le _ _)), (proj2 (Z.leb_le _ _)) by done. }
  pose proof (len_block f d x Hg Hx) as El. pose proof (block_bytes f d x Hg) as Hb. pose proof (walk_le _ _ Hb _ _ Hw).
  rewrite E. rewrite (walk_places _ _ Hb 0 ps); [done|by rewrite El|]. unfold len in *. lia.
Qed.

(** The entries depend on the blocks. *)
Lemma blocks_entries_same d d' xs : len d' = len d → (∀ x, x ∈ xs → x ≠ 0 → block f d' x = block f d x) →
  blocks_entries d' xs = blocks_entries d xs.
Proof.
  intros El. induction xs as [|x xs IH]; intros Hs; [done|]. cbn [blocks_entries].
  rewrite IH by (intros y Hy; apply Hs; by right).
  assert (E : block_entries d' x = block_entries d x); [|by rewrite E].
  unfold block_entries. destruct (Z.eqb_spec x 0); [done|]. rewrite Hs by (done || by left).
  unfold on_diskb. by rewrite El.
Qed.

Lemma blocks_entries_app d xs ys es : blocks_entries d (xs ++ ys) = Some es ↔
  ∃ e1 e2, blocks_entries d xs = Some e1 ∧ blocks_entries d ys = Some e2 ∧ es = e1 ++ e2.
Proof.
  revert es. induction xs as [|x xs IH]; intros es; cbn [app blocks_entries].
  - split; [by intros H; exists [], es|]. by intros (e1 & e2 & [= <-] & H & ->).
  - split.
    + intros (e & He & H)%bind_Some. apply bind_Some in H as (es' & H & [= <-]).
      apply IH in H as (e1 & e2 & H1 & H2 & ->). exists (e ++ e1), e2. rewrite He, H1. by rewrite app_assoc.
    + intros (e1 & e2 & H1 & H2 & ->). apply bind_Some in H1 as (e & He & H1).
      apply bind_Some in H1 as (e' & H1 & [= <-]). rewrite He. cbn [mbind option_bind].
      assert (E : blocks_entries d (xs ++ ys) = Some (e' ++ e2)) by (apply IH; eauto).
      rewrite E. cbn [mbind option_bind]. by rewrite app_assoc.
Qed.
End listing.

(** ** finddir and readdir *)

Section lookups.
Context {W : Type} `{!BlockDevice W, !Allocator W, !StoreLaws W}.
Context (f : Ext4Manager).
Implicit Types s : store.

Lemma runs_new_node s nm ino : geometry_ok f (disk s) → inode_fits f (disk s) ino → block_size f ≤ quota s →
  runs (new_node f nm ino) s (node_of f (disk s) nm ino) s.
Proof.
  intros Hg Hi Hq. unfold new_node, node_of. eapply runs_bind; [by apply runs_read_inode|].
  destruct (is_directory _); (eapply runs_bind; [|apply runs_ret]);
    (eapply runs_bind; [by apply runs_read_inode|apply runs_ret]).
Qed.

(** A directory whose blocks can be walked. *)
Section dir.
Context (dir : Ext4Directory) (es : list extent) (d : list Z).
Context (Hg : geometry_ok f d) (Hb : Forall byte (inode dir)) (Hx : inode_extents f d (inode dir) = Some es).
Context (Hsz : 0 ≤ size dir < 2 ^ 32) (Hm : size dir mod block_size f = 0).
Let nb := size dir / block_size f.

Lemma dir_size : size dir = block_size f * nb ∧ 0 ≤ nb ∧ 0 < block_size f.
Proof using Hg Hsz Hm.
  pose proof (block_size_bounds f d Hg). pose proof (Z.div_mod (size dir) (block_size f) ltac:(lia)).
  assert (0 ≤ nb) by (apply Z.div_pos; lia). unfold nb in *. lia.
Qed.

(** What a loop over the blocks does at block [j]. *)
Lemma at_block j : 0 ≤ j < nb → let o := block_size f * j in
  o < size dir ∧ o + block_size f < 2 ^ 32 + 1 ∧ o / block_size f = j ∧ o mod block_size f = 0 ∧
  o + block_size f = block_size f * (j + 1).
Proof using Hg Hsz Hm.
  intros Hj o. destruct dir_size as (E1 & E2 & E3). unfold o. split_and!; try nia.
  - rewrite Z.mul_comm. apply Z.div_mul. lia.
  - rewrite Z.mul_comm. apply Z.mod_mul. lia.
Qed.

Lemma after_blocks : size dir ≤ block_size f * nb.
Proof using Hg Hsz Hm. destruct dir_size as (E1 & E2 & E3). lia. Qed.

Lemma u32_next j : 0 ≤ j < nb → (j + 1 < nb → block_size f * j + block_size f < 2 ^ 32).
Proof using Hg Hsz Hm. intros Hj Hn. destruct dir_size as (E1 & E2 & E3). nia. Qed.

Lemma runs_finddir_loop nm k : ∀ s j n buffer r, disk s = d → block_size f ≤ quota s → buffer ≠ 0 →
  0 ≤ j → j + Z.of_nat k = nb → (k ≤ n)%nat →
  blocks_entries f d (map (lookup_extents es) (seqZ j (Z.of_nat k))) = Some r →
  (∀ e, find_entry nm r = Some e → inode_fits f d (de_ino e)) →
  runs (finddir_loop n f dir nm buffer (block_size f * j)) s
    ((λ e, node_of f d nm (de_ino e)) <$> find_entry nm r) s.
Proof using Hg Hb Hx Hsz Hm.
  induction k as [|k IH]; intros s j n buffer r Hd Hq Hbuf Hj Hk Hn Hr Hfit.
  { cbn in Hr. injection Hr as <-. assert (E : finddir_loop n f dir nm buffer (block_size f * j) = mret None).
    { replace j with nb by lia. pose proof after_blocks. by destruct n; cbn [finddir_loop]; rewrite (proj2 (Z.ltb_ge _ _)) by lia. }
    rewrite E. apply runs_ret. }
  destruct n as [|n]; [lia|]. destruct (at_block j) as (A1 & A2 & A3 & A4 & A5); [lia|]. destruct dir_size as (S1 & S2 & S3).
  rewrite seqZ_cons in Hr by lia. replace (Z.succ j) with (j + 1) in Hr by lia.
  replace (Z.pred (Z.of_nat (S k))) with (Z.of_nat k) in Hr by lia. cbn [map blocks_entries] in Hr.
  apply bind_Some in Hr as (e1 & He1 & Hr). apply bind_Some in Hr as (e2 & He2 & [= <-]).
  assert (Hlt : block_size f * (j + 1) < 2 ^ 32) by (destruct k; nia).
  cbn [finddir_loop]. rewrite (proj2 (Z.ltb_lt _ _)) by done. eapply runs_lift; [apply udiv_ok; lia|]. rewrite A3.
  eapply runs_bind; [apply (runs_extent_get_block f s (inode dir) es j); by rewrite ?Hd|].
  destruct (Z.eqb_spec (lookup_extents es j) 0) as [E0|Hne].
  - rewrite A5, wrap_small by nia. rewrite E0 in He1. cbn in He1. injection He1 as <-. apply IH; (done || lia).
  - destruct (block_entries_inv f d _ _ He1 Hne) as (Hdk & ps & Hw & Hlen & ->).
    pose proof (len_block f d _ Hg Hdk) as El. pose proof (block_bytes f d (lookup_extents es j) Hg) as Hbb.
    eapply runs_bind; [apply runs_read_blocks_into; by rewrite ?Hd|]. rewrite Hd.
    eapply runs_lift; [apply (scan_block_ok nm _ _ 0 ps); [done|done|lia|lia|nia|rewrite El; lia]|].
    unfold find_entry. rewrite find_app. fold (find_entry nm (entries (block f d (lookup_extents es j)) ps)).
    fold (find_entry nm e2). assert (Hf0 := Hfit). unfold find_entry in Hf0 at 1. rewrite find_app in Hf0.
    fold (find_entry nm (entries (block f d (lookup_extents es j)) ps)) in Hf0. fold (find_entry nm e2) in Hf0.
    destruct (find_entry nm (entries _ ps)) as [e|] eqn:Ef.
    + eapply runs_bind; [|apply runs_ret]. rewrite <- Hd. apply runs_new_node; rewrite ?Hd; auto.
    + rewrite El. rewrite Z.sub_0_r, A5. apply IH; (done || lia).
Qed.

Lemma runs_readdir_loop k : ∀ s j n buffer r idx index, disk s = d → block_size f ≤ quota s → buffer ≠ 0 →
  0 ≤ j → j + Z.of_nat k = nb → (k ≤ n)%nat → 0 ≤ idx ≤ index → idx ≤ block_size f * j →
  blocks_entries f d (map (lookup_extents es) (seqZ j (Z.of_nat k))) = Some r →
  (∀ e, e ∈ r → len (de_name e) < 128) →
  runs (readdir_loop n f dir index buffer (block_size f * j) idx) s (dirent <$> r !! Z.to_nat (index - idx)) s.
Proof using Hg Hb Hx Hsz Hm.
  induction k as [|k IH]; intros s j n buffer r idx index Hd Hq Hbuf Hj Hk Hn Hi Hij Hr Hnm.
  { cbn in Hr. injection Hr as <-. assert (E : readdir_loop n f dir index buffer (block_size f * j) idx = mret None).
    { replace j with nb by lia. pose proof after_blocks. by destruct n; cbn [readdir_loop]; rewrite (proj2 (Z.ltb_ge _ _)) by lia. }
    rewrite E. apply runs_ret. }
  destruct n as [|n]; [lia|]. destruct (at_block j) as (A1 & A2 & A3 & A4 & A5); [lia|]. destruct dir_size as (S1 & S2 & S3).
  rewrite seqZ_cons in Hr by lia. replace (Z.succ j) with (j + 1) in Hr by lia.
  replace (Z.pred (Z.of_nat (S k))) with (Z.of_nat k) in Hr by lia. cbn [map blocks_entries] in Hr.
  apply bind_Some in Hr as (e1 & He1 & Hr). apply bind_Some in Hr as (e2 & He2 & [= <-]).
  assert (Hlt : block_size f * (j + 1) ≤ size dir) by nia.
  cbn [readdir_loop]. rewrite (proj2 (Z.ltb_lt _ _)) by done. eapply runs_lift; [apply udiv_ok; lia|]. rewrite A3.
  eapply runs_lift; [apply umod_ok; lia|]. rewrite A4.
  eapply runs_bind; [apply (runs_extent_get_block f s (inode dir) es j); by rewrite ?Hd|].
  destruct (Z.eqb_spec (lookup_extents es j) 0) as [E0|Hne].
  - rewrite Z.sub_0_r, A5, wrap_small by nia. rewrite E0 in He1. cbn in He1. injection He1 as <-. apply IH; (done || nia).
  - destruct (block_entries_inv f d _ _ He1 Hne) as (Hdk & ps & Hw & Hlen & ->).
    pose proof (len_block f d _ Hg Hdk) as El. pose proof (block_bytes f d (lookup_extents es j) Hg) as Hbb.
    pose proof (walk_le _ _ Hbb _ _ Hw) as Hle. rewrite El in Hle.
    assert (Hent : len (entries (block f d (lookup_extents es j)) ps) ≤ len ps).
    { unfold len, entries. rewrite <- (length_map (entry_of (block f d (lookup_extents es j))) ps).
      apply inj_le, List.filter_length_le. }
    eapply runs_bind; [apply runs_read_blocks_into; by rewrite ?Hd|]. rewrite Hd.
    eapply runs_lift; [apply (list_block_ok _ _ _ 0 ps); [done|done|lia|lia|nia|rewrite El; lia|lia|lia|nia|]|].
    { intros e He. apply Hnm, elem_of_app. by left. }
    destruct (entries _ ps !! Z.to_nat (index - idx)) as [e|] eqn:Ee.
    + rewrite lookup_app_l by (by eapply lookup_lt_Some). rewrite Ee. apply runs_ret.
    + apply lookup_ge_None in Ee. rewrite lookup_app_r by lia.
      rewrite El, Z.sub_0_r, A5. cbn beta iota.
      replace (Z.to_nat (index - idx) - _)%nat with (Z.to_nat (index - (idx + len (entries (block f d (lookup_extents es j)) ps))))
        by (unfold len; lia).
      pose proof (len_nonneg (entries (block f d (lookup_extents es j)) ps)).
      apply IH; try done; [lia|lia|lia|unfold len in *; lia|lia|]. intros e He. apply Hnm, elem_of_app. by right.
Qed.
End dir.
End lookups.

Section results.
Context {W : Type} `{!BlockDevice W, !Allocator W, !StoreLaws W}.
Context (f : Ext4Manager).
Implicit Types s : store.

(** What a directory with a listing gives to the loops. *)
Lemma listing_inv d i sz r : listing f d i sz = Some r →
  sz mod block_size f = 0 ∧ ∃ es, inode_extents f d i = Some es ∧ blocks_entries f d (dir_blocks f es sz) = Some r.
Proof.
  unfold listing. destruct (Z.eqb_spec (sz mod block_size f) 0); [|done]. intros (es & H1 & H2)%bind_Some. eauto.
Qed.

Lemma runs_find_entry s dir nm r : geometry_ok f (disk s) → block_size f ≤ quota s → Forall byte (inode dir) →
  0 ≤ size dir < 2 ^ 32 → listing f (disk s) (inode dir) (size dir) = Some r →
  (∀ e, find_entry nm r = Some e → inode_fits f (disk s) (de_ino e)) →
  runs (finddir f dir nm) s ((λ e, node_of f (disk s) nm (de_ino e)) <$> find_entry nm r) s.
Proof.
  intros Hg Hq Hb Hsz (Hm & es & Hx & Hr)%listing_inv Hfit. pose proof (block_size_bounds f _ Hg).
  destruct (dir_size f dir (disk s) Hg Hsz Hm) as (E1 & E2 & E3).
  unfold finddir. apply runs_kmalloc; [lia|]. intros p Hp Hl. eapply runs_bind.
  - replace 0 with (block_size f * 0) by lia.
    apply (runs_finddir_loop f dir es (disk s) Hg Hb Hx Hsz Hm nm (Z.to_nat (size dir / block_size f)) (add_buffer p s) 0);
      [done|done|done|done|lia|nia| |done].
    rewrite Z2Nat.id by lia. exact Hr.
  - apply runs_kfree; [done|]. apply runs_ret.
Qed.

(** C28. Looking up a name in a directory gives the object for the inode of the first entry in
    use with that name, a directory or a file by the inode's mode, or nothing if there
    is none; the disk and the heap are as before.  Any number of blocks, any depth
    of the tree of extents. *)
Theorem ext4_finddir s dir nm r : geometry_ok f (disk s) → block_size f ≤ quota s → Forall byte (inode dir) →
  0 ≤ size dir < 2 ^ 32 → listing f (disk s) (inode dir) (size dir) = Some r →
  (∀ e, find_entry nm r = Some e → inode_fits f (disk s) (de_ino e)) →
  runs (finddir f dir nm) s ((λ e, node_of f (disk s) nm (de_ino e)) <$> find_entry nm r) s.
Proof. apply runs_find_entry. Qed.

(** Listing a directory: index [k] gives the entry in use number [k], holes and entries
    not in use being passed over, and nothing from the number of entries on; the names
    must be shorter than the array of the answer. *)
Theorem ext4_readdir s dir index r : geometry_ok f (disk s) → block_size f ≤ quota s → Forall byte (inode dir) →
  0 ≤ size dir < 2 ^ 32 → listing f (disk s) (inode dir) (size dir) = Some r →
  (∀ e, e ∈ r → len (de_name e) < 128) → 0 ≤ index →
  runs (readdir f dir index) s (dirent <$> r !! Z.to_nat index) s.
Proof.
  intros Hg Hq Hb Hsz (Hm & es & Hx & Hr)%listing_inv Hnm Hi. pose proof (block_size_bounds f _ Hg).
  destruct (dir_size f dir (disk s) Hg Hsz Hm) as (E1 & E2 & E3).
  unfold readdir. apply runs_kmalloc; [lia|]. intros p Hp Hl. eapply runs_bind.
  - pose proof (runs_readdir_loop f dir es (disk s) Hg Hb Hx Hsz Hm (Z.to_nat (size dir / block_size f)) (add_buffer p s) 0
      (S (Z.to_nat (size dir))) p r 0 index) as X. rewrite Z.mul_0_r, Z.sub_0_r in X.
    apply X; [done|done|done|done|lia|nia|lia|lia| |done].
    rewrite Z2Nat.id by lia. exact Hr.
  - apply runs_kfree; [done|]. apply runs_ret.
Qed.

(** The first block of a directory starts with an entry without length. *)
Record stuck (d : list Z) (dir : Ext4Directory) (es : list extent) (nm : list Z) : Prop := {
  st_extents : inode_extents f d (inode dir) = Some es;
  st_mapped : lookup_extents es 0 ≠ 0;
  st_disk : on_disk f d (lookup_extents es 0);
  st_other : entry_matches nm 0 (block f d (lookup_extents es 0)) = Ok false;
  st_length : get_entry "rec_len" 0 (block f d (lookup_extents es 0)) = Ok 0
}.

(** Looking up a name there uses up any fuel: [offset] is not moved past the entry, and
    the code reads the same block for ever. *)
Theorem finddir_never_returns s dir es nm n buffer : geometry_ok f (disk s) → block_size f ≤ quota s →
  Forall byte (inode dir) → 0 < size dir → buffer ≠ 0 → stuck (disk s) dir es nm → ∀ w, holds w s →
  finddir_loop n f dir nm buffer 0 w = OutOfFuel.
Proof.
  intros Hg Hq Hb Hsz Hbuf [H1 H2 H3 H4 H5]. pose proof (block_size_bounds f _ Hg).
  pose proof (len_block f _ _ Hg H3) as El. set (b := block f (disk s) (lookup_extents es 0)) in *.
  assert (Escan : scan_block (S (length b)) nm b 0 0 = Ok (inl 0)).
  { cbn [scan_block]. rewrite (proj2 (Z.ltb_lt _ _)) by lia. rewrite H4. run. rewrite H5. by run. }
  induction n as [|n IH]; cbn [finddir_loop]; rewrite (proj2 (Z.ltb_lt _ _)) by done; [done|].
  eapply runs_then; [apply runs_lift_ret, udiv_ok; lia|]. rewrite Z.div_0_l by lia.
  eapply runs_then; [by apply (runs_extent_get_block f s (inode dir) es 0)|].
  rewrite (proj2 (Z.eqb_neq _ _)) by done. eapply runs_then; [by apply runs_read_blocks_into|].
  eapply runs_then; [apply runs_lift_ret, Escan|]. exact IH.
Qed.
End results.

(** ** The directory of the example volume *)
Import Pure.

Module DirExample.
Import ExtentExample VolumeExample.

Definition root_inode : list Z := an_inode (EXT4_S_IFDIR + 0x1ED) 1024 7.
Definition root : Ext4Directory := mk_dir [47] 2 root_inode 1024 0.
Definition root_entries : list dentry := [mk_dentry [46] 2 2; mk_dentry [46; 46] 2 2; mk_dentry [97] 3 1].

Lemma root_listing : listing fs (disk machine) root_inode 1024 = Some root_entries.
Proof. by vm_compute. Qed.

(** Another directory, whose block of zeros is an entry without length. *)
Definition broken : Ext4Directory := mk_dir [98] 4 (an_inode (EXT4_S_IFDIR + 0x1ED) 1024 9) 1024 0.
End DirExample.

Lemma ext4_finddir_witness :
  runs (finddir VolumeExample.fs DirExample.root [97]) VolumeExample.machine
    (Some (node_of VolumeExample.fs (disk VolumeExample.machine) [97] 3)) VolumeExample.machine.
Proof.
  apply (ext4_finddir VolumeExample.fs VolumeExample.machine DirExample.root [97] DirExample.root_entries).
  - by apply VolumeExample.volume_geometry.
  - by vm_compute.
  - by apply bytes_check; vm_compute.
  - split; by vm_compute.
  - apply DirExample.root_listing.
  - intros e. assert (E : find_entry [97] DirExample.root_entries = Some (mk_dentry [97] 3 1)) by (vm_compute; reflexivity).
    rewrite E. intros [= <-]. apply (vo_inode _ _ VolumeExample.volume). split; by vm_compute.
Defined.

Lemma ext4_readdir_witness :
  runs (readdir VolumeExample.fs DirExample.root 2) VolumeExample.machine
    (Some (mk_dirent [97] 3 VFS_FILE)) VolumeExample.machine.
Proof.
  apply (ext4_readdir VolumeExample.fs VolumeExample.machine DirExample.root 2 DirExample.root_entries).
  - by apply VolumeExample.volume_geometry.
  - by vm_compute.
  - by apply bytes_check; vm_compute.
  - split; by vm_compute.
  - apply DirExample.root_listing.
  - apply Forall_forall. repeat constructor; by vm_compute.
  - done.
Defined.

Lemma finddir_never_returns_witness :
  finddir_loop 100 VolumeExample.fs DirExample.broken [97] 1 0 VolumeExample.machine = OutOfFuel.
Proof.
  apply (finddir_never_returns VolumeExample.fs VolumeExample.machine DirExample.broken [mk_extent 0 1 9] [97] 100 1).
  - by apply VolumeExample.volume_geometry.
  - by vm_compute.
  - by apply bytes_check; vm_compute.
  - done.
  - done.
  - constructor; [vm_compute; reflexivity|vm_compute; discriminate|split; vm_compute; discriminate|vm_compute; reflexivity..].
  - reflexivity.
Defined.
End Ext4Dir.
