(* ===== verification/Ext4DirOps.v ===== *)
(** * EXT4: changing directories (fs/ext4_vfs.cpp: Ext4Directory::create, unlink)

    The theory of [Ext4Dir.create] and [Ext4Dir.unlink] for a volume without a
    journal and a directory whose extents are in its inode ([dir_ok]), in terms of the
    listing: [ext4_unlink] takes the first entry with the name out of it,
    [ext4_create] puts a new one into it, and the file it gives is found by
    [finddir] and is an empty file that [Ext4File.write] can write to
    ([ext4_created_file_reads_back]). *)

From Stdlib Require Import String.
From S2P Require Import Prelude Bytes Block Layout Ext4 Ext4Extent Ext4Journal Ext4Alloc Ext4File Ext4Inodes Ext4Dir.

Module Ext4DirOps.
Import Bytes Block Layout Ext4 Ext4Extent Ext4Journal Ext4Alloc Ext4Inodes Ext4Dir.
Local Open Scope string_scope.
Local Open Scope list_scope.
Local Open Scope Z_scope.

(** The object of a directory in step with its inode on the disk, and its listing. *)
Record dir_ok (f : Ext4Manager) (d : list Z) (dir : Ext4Directory) (es : list extent) (r : list dentry) : Prop := {
  dk_file : Ext4File.file_ok f d (inode dir) es;
  dk_num : is_inode f (inode_num dir);
  dk_disk : Ext4.inode f d (inode_num dir) = inode dir;
  dk_size : 0 ≤ size dir < 2 ^ 32;
  dk_listing : listing f d (inode dir) (size dir) = Some r
}.

Section changes.
Context (f : Ext4Manager).
Implicit Types d : list Z.

Lemma dir_blocks_file d i es : Ext4File.file_ok f d i es → inode_extents f d i = Some es.
Proof. intros Hf. apply root_only_extents, Hf. Qed.

Lemma listing_file d i es sz : Ext4File.file_ok f d i es → sz mod block_size f = 0 →
  listing f d i sz = blocks_entries f d (dir_blocks f es sz).
Proof. intros Hf Hm. unfold listing. rewrite (proj2 (Z.eqb_eq _ _) Hm), (dir_blocks_file d i es Hf). done. Qed.

Lemma listing_mod d i sz r : listing f d i sz = Some r → sz mod block_size f = 0.
Proof. by intros (H & _)%listing_inv. Qed.

(** The blocks of a directory that are there. *)
Lemma dir_block_elem es sz x : x ∈ dir_blocks f es sz → ∃ lb, x = lookup_extents es lb.
Proof. unfold dir_blocks. intros (lb & -> & _)%list_elem_of_fmap. eauto. Qed.

(** A change of the disk that leaves the blocks of the directory. *)
Lemma listing_kept d d' i i' es sz r : len d' = len d → Ext4File.file_ok f d i es → Ext4File.file_ok f d' i' es →
  (∀ lb, lookup_extents es lb ≠ 0 → block f d' (lookup_extents es lb) = block f d (lookup_extents es lb)) →
  listing f d i sz = Some r → listing f d' i' sz = Some r.
Proof.
  intros El Hf Hf' Hs Hl. pose proof (listing_mod _ _ _ _ Hl) as Hm. rewrite (listing_file d i es) in Hl by done.
  rewrite (listing_file d' i' es) by done. rewrite (blocks_entries_same f d d'); [done|done|].
  intros x (lb & ->)%dir_block_elem Hx. by apply Hs.
Qed.

(** An inode that is written: of another file, or the directory's own with its number of
    links changed. *)
Lemma dir_ok_inode d dir es r j v : volume_ok f d → dir_ok f d dir es r → is_inode f j → len v = 160 → Forall byte v →
  j ≠ inode_num dir → dir_ok f (put_inode f j v d) dir es r.
Proof.
  intros Hv [D1 D2 D3 D4 D5] Hj El Eb Hne. pose proof (iw_places f d j v Hv Hj El Eb) as P.
  pose proof (Ext4File.iw_file f d j v _ _ Hv Hj El Eb D1) as Hf. constructor; try done.
  - rewrite (iw_inode f d j v Hv Hj El Eb); [done|done|by apply not_eq_sym].
  - eapply listing_kept; [apply P|exact D1|exact Hf| |exact D5]. intros lb Hlb.
    destruct (Ext4File.fo_block _ _ _ _ D1 lb Hlb) as (X1 & X2 & X3 & X4). by apply Ext4File.iw_data.
Qed.

Lemma links_early : Ext4File.early "i_links_count".
Proof. by vm_compute. Qed.

Lemma dir_ok_links d dir es r n : volume_ok f d → dir_ok f d dir es r →
  let dir' := set_inode (add_links n (inode dir)) dir in
  dir_ok f (put_inode f (inode_num dir) (inode dir') d) dir' es r.
Proof.
  intros Hv [D1 D2 D3 D4 D5] dir'. pose proof (Ext4File.early_file "i_links_count" d (inode dir) es
    (member Ext4Inode "i_links_count" (inode dir) + n) f links_early D1) as D1'.
  fold (add_member Ext4Inode "i_links_count" n (inode dir)) (add_links n (inode dir)) in D1'.
  pose proof (Ext4File.fo_len _ _ _ _ D1') as El. pose proof (Ext4File.fo_bytes _ _ _ _ D1') as Eb.
  pose proof (iw_places f d (inode_num dir) _ Hv D2 El Eb) as P.
  pose proof (Ext4File.iw_file f d (inode_num dir) _ _ _ Hv D2 El Eb D1') as Hf. constructor; try done.
  - by apply (iw_same f d).
  - eapply listing_kept; [apply P|exact D1|exact Hf| |exact D5]. intros lb Hlb.
    destruct (Ext4File.fo_block _ _ _ _ D1 lb Hlb) as (X1 & X2 & X3 & X4). by apply Ext4File.iw_data.
Qed.

(** *** One block of the directory changed *)

(** Logical block [j] of the directory is the block [x], with the entries [ps]; before and
    behind are the entries [r1] and [r2]. *)
Record dir_block d (es : list extent) (sz : Z) (j x : Z) (r1 : list dentry) (ps : list Z) (r2 : list dentry) : Prop := {
  db_j : 0 ≤ j < sz / block_size f;
  db_x : lookup_extents es j = x;
  db_mapped : x ≠ 0;
  db_disk : on_disk f d x;
  db_before : blocks_entries f d (map (lookup_extents es) (seqZ 0 j)) = Some r1;
  db_walk : walk (block f d x) 0 ps (block_size f);
  db_after : blocks_entries f d (map (lookup_extents es) (seqZ (j + 1) (sz / block_size f - (j + 1)))) = Some r2
}.

Lemma dir_blocks_split es sz j : 0 ≤ j < sz / block_size f →
  dir_blocks f es sz = map (lookup_extents es) (seqZ 0 j) ++
    lookup_extents es j :: map (lookup_extents es) (seqZ (j + 1) (sz / block_size f - (j + 1))).
Proof.
  intros Hj. unfold dir_blocks. rewrite <- (map_cons (lookup_extents es) j), <- map_app. f_equal.
  replace (sz / block_size f) with (j + (sz / block_size f - j)) at 1 by lia. rewrite seqZ_app by lia. f_equal.
  rewrite Z.add_0_l, seqZ_cons by lia. f_equal. f_equal; lia.
Qed.

Lemma dir_block_listing d i es sz j x r1 ps r2 : geometry_ok f d → Ext4File.file_ok f d i es →
  sz mod block_size f = 0 → dir_block d es sz j x r1 ps r2 →
  listing f d i sz = Some (r1 ++ entries (block f d x) ps ++ r2).
Proof.
  intros Hg Hf Hm [B1 B2 B3 B4 B5 B6 B7]. rewrite (listing_file d i es) by done. rewrite (dir_blocks_split es sz j B1).
  apply blocks_entries_app. exists r1, (entries (block f d x) ps ++ r2). split; [done|]. split; [|done].
  cbn [blocks_entries]. rewrite B2. rewrite (block_entries_intro f d x ps) by done. by rewrite B7.
Qed.

(** The blocks of a directory are different. *)
Lemma dir_block_put d dir es r j x r1 ps r2 bs ps' : volume_ok f d → dir_ok f d dir es r →
  dir_block d es (size dir) j x r1 ps r2 → len bs = block_size f → Forall byte bs → walk bs 0 ps' (block_size f) →
  let d' := put_block f x bs d in
  dir_ok f d' dir es (r1 ++ entries bs ps' ++ r2) ∧ volume_ok f d' ∧
  (∀ i, is_inode f i → Ext4.inode f d' i = Ext4.inode f d i) ∧ (∀ y, in_volume f y → used f d' y = used f d y) ∧
  (∀ i fs, Ext4File.file_ok f d i fs → Ext4File.file_ok f d' i fs).
Proof.
  intros Hv [D1 D2 D3 D4 D5] Hdb El Hbs Hw d'. pose proof Hdb as [B1 B2 B3 B4 B5 B6 B7].
  pose proof (vo_geometry f d Hv) as Hg. pose proof (listing_mod _ _ _ _ D5) as Hm.
  assert (Hr : ∀ ro, ¬ has_role f d x ro).
  { rewrite <- B2. apply (Ext4File.fo_block _ _ _ _ D1 j). by rewrite B2. }
  pose proof (Ext4File.db_volume f d x bs Hv B4 Hr El Hbs) as V'.
  pose proof (Ext4File.db_file f d x bs Hv B4 Hr El Hbs _ _ D1) as F'. fold d' in V', F'.
  pose proof (Ext4File.db_places f d x bs Hv B4 Hr El Hbs) as P'. fold d' in P'.
  assert (Hi : ∀ i, is_inode f i → Ext4.inode f d' i = Ext4.inode f d i).
  { intros i Hi. unfold Ext4.inode. rewrite (sp_inode_blk f d d' Hv P') by done. f_equal.
    apply (Ext4File.db_role f d x bs Hv B4 Hr El _ InodeTable). by exists i. }
  split; [|split; [done|split; [done|split; [intros y Hy; by apply (Ext4File.db_used f d x bs Hv B4 Hr El Hbs)|
    intros i fs; by apply (Ext4File.db_file f d x bs Hv B4 Hr El Hbs)]]]].
  assert (Hoth : ∀ lb, lb ≠ j → lookup_extents es lb ≠ 0 → block f d' (lookup_extents es lb) = block f d (lookup_extents es lb)).
  { intros lb Hne Hlb. destruct (Ext4File.fo_block _ _ _ _ D1 lb Hlb) as (X1 & X2 & X3 & X4).
    apply (Ext4File.db_other f d x bs Hv B4 El); [done|]. intros E. apply Hne.
    apply (Ext4File.fo_inj _ _ _ _ D1 lb j Hlb). congruence. }
  assert (Hpart : ∀ a n l, j < a ∨ a + n ≤ j → blocks_entries f d (map (lookup_extents es) (seqZ a n)) = Some l →
    blocks_entries f d' (map (lookup_extents es) (seqZ a n)) = Some l).
  { intros a n l Ha Hl. rewrite (blocks_entries_same f d d'); [done|apply P'|].
    intros y (lb & -> & Hlb)%list_elem_of_fmap Hy. apply elem_of_seqZ in Hlb. apply Hoth; [lia|done]. }
  assert (Hdb' : dir_block d' es (size dir) j x r1 ps' r2).
  { constructor; try done.
    - eapply on_disk_len; [apply P'|done].
    - apply Hpart; [lia|done].
    - unfold d'. by rewrite block_put_same.
    - apply Hpart; [lia|done]. }
  constructor; try done.
  - by rewrite Hi.
  - rewrite (dir_block_listing d' (inode dir) es _ j x r1 ps' r2); [|apply V'|done|done|done].
    unfold d'. by rewrite block_put_same.
Qed.
End changes.

(** ** unlink *)

Lemma blocks_entries_next f d es j r1 e1 : 0 ≤ j →
  blocks_entries f d (map (lookup_extents es) (seqZ 0 j)) = Some r1 → block_entries f d (lookup_extents es j) = Some e1 →
  blocks_entries f d (map (lookup_extents es) (seqZ 0 (j + 1))) = Some (r1 ++ e1).
Proof.
  intros Hj0 H1 H2. rewrite seqZ_app by lia. rewrite map_app. apply blocks_entries_app. exists r1, e1.
  split; [done|]. split; [|done]. rewrite Z.add_0_l, seqZ_cons, seqZ_nil by lia. cbn [map blocks_entries]. rewrite H2.
  cbn [mbind option_bind]. by rewrite app_nil_r.
Qed.

Section unlink.
Context {W : Type} `{!BlockDevice W, !Allocator W, !StoreLaws W}.
Context (f : Ext4Manager) (Hj : s_journal_inum f = 0).
Implicit Types s : store.

Section dir.
Context (dir : Ext4Directory) (es : list extent) (r : list dentry) (d : list Z).
Context (Hv : volume_ok f d) (Hd : dir_ok f d dir es r).

Let Hg : geometry_ok f d := vo_geometry f d Hv.
Let Hb : Forall byte (inode dir) := Ext4File.fo_bytes _ _ _ _ (dk_file _ _ _ _ _ Hd).
Let Hx : inode_extents f d (inode dir) = Some es := dir_blocks_file f d _ es (dk_file _ _ _ _ _ Hd).
Let Hsz : 0 ≤ size dir < 2 ^ 32 := dk_size _ _ _ _ _ Hd.
Let Hm : size dir mod block_size f = 0 := listing_mod f d _ _ r (dk_listing _ _ _ _ _ Hd).
Let nb := size dir / block_size f.

(** The listing is that of all the blocks. *)
Lemma listing_blocks : blocks_entries f d (map (lookup_extents es) (seqZ 0 nb)) = Some r.
Proof using Hv Hd. rewrite <- (dk_listing _ _ _ _ _ Hd). symmetry. apply listing_file; [apply Hd|apply Hm]. Qed.

(** The block with the entry that the loop finds. *)
Record found_in (nm : list Z) (x : Z) (l1 : list Z) (p : Z) (l2 : list Z) (r1 r2 : list dentry) : Prop := {
  fi_block : ∃ j, dir_block f d es (size dir) j x r1 (l1 ++ p :: l2) r2;
  fi_before : find_entry nm r1 = None;
  fi_block_before : find_entry nm (entries (block f d x) l1) = None;
  fi_use : in_use (entry_of (block f d x) p) = true;
  fi_name : has_name nm (entry_of (block f d x) p) = true
}.

Lemma found_listing nm x l1 p l2 r1 r2 : found_in nm x l1 p l2 r1 r2 →
  let e := entry_of (block f d x) p in
  r = (r1 ++ entries (block f d x) l1) ++ e :: (entries (block f d x) l2 ++ r2) ∧
  find_entry nm (r1 ++ entries (block f d x) l1) = None.
Proof using Hv Hd.
  intros [(j & Hb0) F2 F3 F4 F5] e. pose proof (dir_block_listing f d (inode dir) es (size dir) j x _ _ _ Hg
    (dk_file _ _ _ _ _ Hd) Hm Hb0) as E. rewrite (dk_listing _ _ _ _ _ Hd) in E. injection E as ->.
  split.
  - rewrite entries_app, (entries_cons _ p). unfold entries at 2. cbn [map List.filter]. rewrite F4.
    cbn [app]. by rewrite <- !app_assoc.
  - unfold find_entry. rewrite find_app. fold (find_entry nm r1). by rewrite F2.
Qed.

Lemma found_entry nm x l1 p l2 r1 r2 : found_in nm x l1 p l2 r1 r2 →
  find_entry nm r = Some (entry_of (block f d x) p) ∧
  remove_named nm r = r1 ++ (entries (block f d x) l1 ++ entries (block f d x) l2) ++ r2.
Proof using Hv Hd.
  intros Hf. destruct (found_listing _ _ _ _ _ _ _ Hf) as [E H0]. rewrite E.
  split; [|rewrite remove_named_app; [by rewrite <- !app_assoc|done|apply Hf]].
  unfold find_entry in *. rewrite find_app, H0. cbn [find]. by rewrite (fi_name _ _ _ _ _ _ _ Hf).
Qed.

(** One turn of the loop: nothing in this block, or the entry. *)
Lemma at_unlink nm s j n buffer a s' : disk s = d → block_size f ≤ quota s → 0 ≤ j < nb →
  (lookup_extents es j = 0 → runs (unlink_loop n f dir nm buffer (block_size f * (j + 1))) s a s') →
  (lookup_extents es j ≠ 0 → runs (
        b ← read_into f buffer (lookup_extents es j);
        r ← lift (remove_from_block (S (length b)) nm b None 0);
        match r with
        | Some (ino, b') => f ← journal_write_block f (lookup_extents es j) b'; mret (Some ino, f)
        | None => unlink_loop n f dir nm buffer (block_size f * (j + 1))
        end) s a s') →
  runs (unlink_loop (S n) f dir nm buffer (block_size f * j)) s a s'.
Proof using Hv Hd.
  intros Hds Hq Hj0 H0 H1. destruct (at_block f dir d Hg Hsz Hm j Hj0) as (A1 & A2 & A3 & A4 & A5).
  destruct (dir_size f dir d Hg Hsz Hm) as (S1 & S2 & S3). fold nb in S1, S2.
  cbn [unlink_loop]. rewrite (proj2 (Z.ltb_lt _ _)) by done.
  eapply runs_lift; [apply udiv_ok; lia|]. rewrite A3.
  eapply runs_bind; [apply (runs_extent_get_block f s (inode dir) es j); rewrite ?Hds; (done || apply Hg || apply Hb || apply Hx || lia)|].
  rewrite A5, wrap_small by nia. destruct (Z.eqb_spec (lookup_extents es j) 0); auto.
Qed.

Lemma runs_unlink_next nm s j n buffer a s' e1 : disk s = d → block_size f ≤ quota s → buffer ≠ 0 → 0 ≤ j < nb →
  block_entries f d (lookup_extents es j) = Some e1 → find_entry nm e1 = None →
  runs (unlink_loop n f dir nm buffer (block_size f * (j + 1))) s a s' →
  runs (unlink_loop (S n) f dir nm buffer (block_size f * j)) s a s'.
Proof using Hv Hd.
  intros Hds Hq Hbuf Hj0 He1 Hno Hrun. apply at_unlink; [done..|]. intros Hne.
  destruct (block_entries_inv f d _ _ He1 Hne) as (Hdk & ps & Hw & Hlen & ->).
  pose proof (block_bytes f d (lookup_extents es j) Hg) as Hbb.
  eapply runs_bind; [apply runs_read_blocks_into; rewrite ?Hds; (done || apply Hg)|]. rewrite Hds.
  destruct (remove_from_block_ok nm _ (S (length (block f d (lookup_extents es j)))) 0 ps None Hbb Hw)
    as [(l1 & x & l2 & -> & R1 & R2 & R3 & R4)|[R1 R2]]; [lia|done| |].
  - exfalso. rewrite entries_app, entries_cons in Hno. unfold find_entry in *. rewrite find_app, R1 in Hno.
    unfold entries at 1 in Hno. cbn [map List.filter] in Hno. rewrite R2 in Hno. cbn [app find] in Hno. by rewrite R3 in Hno.
  - eapply runs_lift; [exact R2|]. exact Hrun.
Qed.

(** The block without the entry [p] is as long. *)
Lemma cut_length b l1 p l2 : Forall byte b → walk b 0 (l1 ++ p :: l2) (len b) →
  len (cut b (last l1) p) = len b ∧ Forall byte (cut b (last l1) p).
Proof using.
  clear. intros Hb Hw. split; [|by destruct (last l1); cbn [cut]; apply Forall_splice; (apply le_bytes || done)].
  destruct (last l1) as [q|] eqn:Eq; cbn [cut].
  - apply last_Some in Eq as (l1' & ->). rewrite <- app_assoc in Hw. apply walk_app in Hw as (m & _ & Hw).
    cbn [walk app] in Hw. destruct Hw as (-> & Hok & _). destruct (entry_bounds _ _ Hok) as (Q1 & Q2 & Q3 & Q4).
    pose proof (name_len_range _ m Hb). rewrite len_splice; rewrite ?len_le; lia.
  - apply walk_app in Hw as (m & _ & Hw). cbn [walk] in Hw. destruct Hw as (-> & Hok & _).
    destruct (entry_bounds _ _ Hok) as (Q1 & Q2 & Q3 & Q4). pose proof (name_len_range _ m Hb).
    rewrite len_splice; rewrite ?len_le; lia.
Qed.

Lemma runs_unlink_here nm j n e1 r1 r2 : 0 ≤ j < nb →
  block_entries f d (lookup_extents es j) = Some e1 → find_entry nm e1 ≠ None →
  blocks_entries f d (map (lookup_extents es) (seqZ 0 j)) = Some r1 → find_entry nm r1 = None →
  blocks_entries f d (map (lookup_extents es) (seqZ (j + 1) (nb - (j + 1)))) = Some r2 →
  ∃ x l1 p l2, found_in nm x l1 p l2 r1 r2 ∧ ∀ s buffer, disk s = d → block_size f ≤ quota s → buffer ≠ 0 →
    runs (unlink_loop (S n) f dir nm buffer (block_size f * j)) s (Some (de_ino (entry_of (block f d x) p)), f)
      (set_disk (put_block f x (cut (block f d x) (last l1) p) d) s).
Proof using Hj Hv Hd.
  intros Hj0 He1 Hyes Hr1 Hno Hr2. destruct (decide (lookup_extents es j = 0)) as [E0|Hne].
  { rewrite E0 in He1. cbn in He1. by injection He1 as <-. }
  destruct (block_entries_inv f d _ _ He1 Hne) as (Hdk & ps & Hw & Hlen & ->).
  pose proof (len_block f d _ Hg Hdk) as El. pose proof (block_bytes f d (lookup_extents es j) Hg) as Hbb.
  destruct (remove_from_block_ok nm _ (S (length (block f d (lookup_extents es j)))) 0 ps None Hbb Hw)
    as [(l1 & x & l2 & -> & R1 & R2 & R3 & R4)|[R1 R2]]; [lia|done| |done].
  destruct (cut_length _ l1 x l2 Hbb Hw) as [C1 C2]. exists (lookup_extents es j), l1, x, l2. split.
  { constructor; try done. exists j. constructor; try done. by rewrite El in Hw. }
  intros s buffer Hds Hq Hbuf. apply at_unlink; [done..|]. intros _.
  eapply runs_bind; [apply runs_read_blocks_into; rewrite ?Hds; (done || apply Hg)|]. rewrite Hds.
  eapply runs_lift; [exact R4|]. cbn beta iota.
  replace (match last l1 with Some q => Some q | None => None end) with (last l1) by (by destruct (last l1)).
  eapply runs_bind; [|apply runs_ret].
  pose proof (runs_journal_write f Hj s (lookup_extents es j) (cut (block f d (lookup_extents es j)) (last l1) x)) as X.
  rewrite Hds in X. apply X; [apply Hg|done|by rewrite C1|done].
Qed.

Lemma runs_unlink_blocks nm k : ∀ j n r1, 0 ≤ j → j + Z.of_nat k = nb → (k ≤ n)%nat →
  blocks_entries f d (map (lookup_extents es) (seqZ 0 j)) = Some r1 → find_entry nm r1 = None →
  (find_entry nm r = None ∧ ∀ s buffer, disk s = d → block_size f ≤ quota s → buffer ≠ 0 →
     runs (unlink_loop n f dir nm buffer (block_size f * j)) s (None, f) s) ∨
  (∃ x l1 p l2 r1 r2, found_in nm x l1 p l2 r1 r2 ∧ ∀ s buffer, disk s = d → block_size f ≤ quota s → buffer ≠ 0 →
     runs (unlink_loop n f dir nm buffer (block_size f * j)) s (Some (de_ino (entry_of (block f d x) p)), f)
       (set_disk (put_block f x (cut (block f d x) (last l1) p) d) s)).
Proof using Hj Hv Hd.
  induction k as [|k IH]; intros j n r1 Hj0 Hk Hn Hr1 Hno.
  { left. assert (j = nb) as -> by lia. pose proof listing_blocks as E. rewrite Hr1 in E. injection E as <-.
    split; [done|]. intros s buffer _ _ _. assert (E : unlink_loop n f dir nm buffer (block_size f * nb) = mret (None, f)).
    { pose proof (after_blocks f dir d Hg Hsz Hm) as Ha. fold nb in Ha.
      by destruct n; cbn [unlink_loop]; rewrite (proj2 (Z.ltb_ge _ _)) by lia. }
    rewrite E. apply runs_ret. }
  destruct n as [|n]; [lia|]. assert (Hjb : 0 ≤ j < nb) by lia. assert (Hall := listing_blocks).
  replace (map (lookup_extents es) (seqZ 0 nb)) with (dir_blocks f es (size dir)) in Hall by done.
  rewrite (dir_blocks_split f es (size dir) j Hjb) in Hall. fold nb in Hall.
  apply blocks_entries_app in Hall as (r1' & r2 & H1 & H2 & Er). rewrite Hr1 in H1. injection H1 as <-.
  cbn [blocks_entries] in H2. apply bind_Some in H2 as (e1 & He1 & H2). apply bind_Some in H2 as (e2 & He2 & [= <-]).
  destruct (find_entry nm e1) eqn:Ee1.
  - right. destruct (runs_unlink_here nm j n e1 r1 e2) as (x & l1 & p & l2 & H); try done; [by rewrite Ee1|].
    by exists x, l1, p, l2, r1, e2.
  - destruct (IH (j + 1) n (r1 ++ e1)) as [[I1 I2]|(x & l1 & p & l2 & q1 & q2 & I1 & I2)]; try done;
      [lia|lia|lia|by apply blocks_entries_next|by unfold find_entry in *; rewrite find_app, Hno| |].
    + left. split; [done|]. intros s buffer Hds Hq Hbuf. apply (runs_unlink_next nm s j n buffer _ _ e1); auto.
    + right. exists x, l1, p, l2, q1, q2. split; [done|]. intros s buffer Hds Hq Hbuf.
      apply (runs_unlink_next nm s j n buffer _ _ e1); auto.
Qed.
End dir.
End unlink.

(** ** The result of unlink *)

(** [links--] unless there are none. *)
Definition drop_link (i : list Z) : list Z :=
  if 0 <? member Ext4Inode "i_links_count" i then add_links (-1) i else i.

Section results.
Context {W : Type} `{!BlockDevice W, !Allocator W, !StoreLaws W}.
Context (f : Ext4Manager) (Hj : s_journal_inum f = 0).
Implicit Types s : store.

Lemma runs_commit_none s : runs (commit_and_start f) s f s.
Proof using Hj. unfold commit_and_start. rewrite Hj. apply runs_ret. Qed.

Lemma member_type d i : is_directory (add_links d i) = is_directory i ∨ len i ≠ 160.
Proof.
  destruct (decide (len i = 160)) as [E|]; [left|by right]. unfold is_directory, add_links, add_member.
  by rewrite member_set_other by (done || by rewrite E).
Qed.

(** The target loses a link when it has one. *)
Lemma runs_drop_target s dir es r ino : volume_ok f (disk s) → block_size f ≤ quota s → dir_ok f (disk s) dir es r →
  is_inode f ino → ino ≠ inode_num dir → let t := Ext4.inode f (disk s) ino in
  is_directory (drop_link t) = is_directory t ∧
  ∃ d1, runs (if 0 <? member Ext4Inode "i_links_count" t then
      let target := add_links (-1) t in write_inode f ino target;; mret target else mret t) s (drop_link t) (set_disk d1 s) ∧
    volume_ok f d1 ∧ dir_ok f d1 dir es r ∧ Ext4.inode f d1 ino = drop_link t ∧
    (∀ i, is_inode f i → i ≠ ino → Ext4.inode f d1 i = Ext4.inode f (disk s) i) ∧
    (∀ x, in_volume f x → used f d1 x = used f (disk s) x).
Proof using Hj.
  intros Hv Hq Hd Hi Hne t. pose proof (vo_geometry _ _ Hv) as Hg. pose proof (vo_inode _ _ Hv ino Hi) as Hfit.
  assert (Et : len t = 160) by (apply len_inode; [done|done|apply (iw_off f _ _ Hv Hi)]).
  assert (Hbt : Forall byte t) by apply Forall_sub, block_bytes, Hg.
  unfold drop_link. destruct (0 <? member Ext4Inode "i_links_count" t).
  - assert (Et' : len (add_links (-1) t) = 160) by (unfold add_links, add_member; by rewrite len_set_member; rewrite ?Et).
    assert (Hbt' : Forall byte (add_links (-1) t)) by by apply set_member_bytes.
    split; [by destruct (member_type (-1) t)|]. exists (put_inode f ino (add_links (-1) t) (disk s)).
    split; [eapply runs_bind; [by apply runs_write_inode|apply runs_ret]|].
    split; [by apply iw_volume|]. split; [by apply dir_ok_inode|]. split; [by apply iw_same|].
    split; [intros; by apply iw_inode|]. intros; by apply iw_used.
  - split; [done|]. exists (disk s). rewrite set_disk_same. split; [apply runs_ret|]. done.
Qed.

(** Its parent loses one when the target is a directory. *)
Lemma runs_drop_parent s dir es r (b : bool) : volume_ok f (disk s) → block_size f ≤ quota s → dir_ok f (disk s) dir es r →
  let dir' := if b then set_inode (add_links (-1) (inode dir)) dir else dir in
  ∃ d2, runs (if b then
      let dir := set_inode (add_links (-1) (inode dir)) dir in write_inode f (inode_num dir) (inode dir);; mret dir
      else mret dir) s dir' (set_disk d2 s) ∧
    volume_ok f d2 ∧ dir_ok f d2 dir' es r ∧
    (∀ i, is_inode f i → i ≠ inode_num dir → Ext4.inode f d2 i = Ext4.inode f (disk s) i) ∧
    (∀ x, in_volume f x → used f d2 x = used f (disk s) x).
Proof using Hj.
  intros V1 Hq K1 dir'. pose proof (dk_num _ _ _ _ _ K1) as Hnum. unfold dir'. destruct b.
  - pose proof (dir_ok_links f (disk s) dir es r (-1) V1 K1) as K2. cbn [inode set_inode] in K2.
    pose proof (Ext4File.fo_len _ _ _ _ (dk_file _ _ _ _ _ K2)) as El. cbn [inode set_inode] in El.
    pose proof (Ext4File.fo_bytes _ _ _ _ (dk_file _ _ _ _ _ K2)) as Eb. cbn [inode set_inode] in Eb.
    exists (put_inode f (inode_num dir) (add_links (-1) (inode dir)) (disk s)).
    split; [|split; [by apply iw_volume|split; [done|split; [intros; by apply iw_inode|intros; by apply iw_used]]]].
    eapply runs_bind; [|apply runs_ret]. cbn [inode inode_num set_inode].
    apply (runs_write_inode f s); [apply (vo_geometry _ _ V1)|by apply (vo_inode _ _ V1)|done|done|done].
  - exists (disk s). rewrite set_disk_same. split; [apply runs_ret|]. done.
Qed.

(** What the code does once the entry is out of its block: [d] is the disk then. *)
Lemma runs_unlink_rest s dir es r ino : volume_ok f (disk s) → block_size f ≤ quota s →
  dir_ok f (disk s) dir es r → is_inode f ino → ino ≠ inode_num dir →
  let t := Ext4.inode f (disk s) ino in
  ∃ dir' d',
    runs (target ← read_inode f ino;
      target ← (if 0 <? member Ext4Inode "i_links_count" target then
                  let target := add_links (-1) target in write_inode f ino target;; mret target
                else mret target);
      dir ← (if is_directory target then
               let dir := set_inode (add_links (-1) (inode dir)) dir in
               write_inode f (inode_num dir) (inode dir);; mret dir
             else mret dir);
      f ← commit_and_start f;
      mret (true, dir, f)) s (true, dir', f) (set_disk d' s) ∧
    volume_ok f d' ∧ dir_ok f d' dir' es r ∧
    dir' = (if is_directory t then set_inode (add_links (-1) (inode dir)) dir else dir) ∧
    Ext4.inode f d' ino = drop_link t ∧
    (∀ i, is_inode f i → i ≠ ino → i ≠ inode_num dir → Ext4.inode f d' i = Ext4.inode f (disk s) i) ∧
    (∀ x, in_volume f x → used f d' x = used f (disk s) x).
Proof using Hj.
  intros Hv Hq Hd Hi Hne t. pose proof (vo_geometry _ _ Hv) as Hg. pose proof (vo_inode _ _ Hv ino Hi) as Hfit.
  destruct (runs_drop_target s dir es r ino Hv Hq Hd Hi Hne) as (Edir & d1 & R1 & V1 & K1 & T1 & O1 & U1). fold t in Edir, R1, T1.
  destruct (runs_drop_parent (set_disk d1 s) dir es r (is_directory t) V1 Hq K1) as (d2 & R2 & V2 & K2 & O2 & U2).
  rewrite set_disk_set in R2. cbn [disk set_disk] in O2, U2. do 2 eexists.
  split; [|split; [exact V2|split; [exact K2|split; [done|split; [by rewrite O2|split]]]]].
  - eapply runs_bind; [by apply runs_read_inode|]. fold t. eapply runs_bind; [exact R1|]. rewrite Edir.
    eapply runs_bind; [exact R2|]. eapply runs_bind; [apply runs_commit_none|]. apply runs_ret.
  - intros i Hii N1 N2. by rewrite O2, O1.
  - intros x Hx. by rewrite U2, U1.
Qed.

End results.

(** ** Room for an entry *)

Lemma walk_unique b : Forall byte b → ∀ ps ps' p q, walk b p ps q → walk b p ps' q → ps = ps'.
Proof.
  intros Hb. induction ps as [|x ps IH]; intros [|y ps'] p q H H'; [done| | |].
  - cbn [walk] in H. subst q. pose proof (walk_le b _ Hb _ _ H'). unfold len in *. cbn [length] in *. lia.
  - cbn [walk] in H'. subst q. pose proof (walk_le b _ Hb _ _ H). unfold len in *. cbn [length] in *. lia.
  - cbn [walk] in H, H'. destruct H as (-> & _ & H). destruct H' as (-> & _ & H'). f_equal. by eapply IH.
Qed.

(** No entry of the block [x] has room for [req] bytes behind its name. *)
Definition block_full (f : Ext4Manager) (d : list Z) (req x : Z) : Prop :=
  x ≠ 0 → ∀ ps p, walk (block f d x) 0 ps (block_size f) → p ∈ ps → room (block f d x) p < req.
Definition no_room (f : Ext4Manager) (d : list Z) (es : list extent) (sz req : Z) : Prop :=
  ∀ j, 0 ≤ j < sz / block_size f → block_full f d req (lookup_extents es j).

Section space.
Context {W : Type} `{!BlockDevice W, !Allocator W, !StoreLaws W}.
Context (f : Ext4Manager) (dir : Ext4Directory) (es : list extent) (r : list dentry) (d : list Z).
Context (Hv : volume_ok f d) (Hd : dir_ok f d dir es r).
Implicit Types s : store.

Let Hg : geometry_ok f d := vo_geometry f d Hv.
Let Hb : Forall byte (inode dir) := Ext4File.fo_bytes _ _ _ _ (dk_file _ _ _ _ _ Hd).
Let Hx : inode_extents f d (inode dir) = Some es := dir_blocks_file f d _ es (dk_file _ _ _ _ _ Hd).
Let Hsz : 0 ≤ size dir < 2 ^ 32 := dk_size _ _ _ _ _ Hd.
Let Hm : size dir mod block_size f = 0 := listing_mod f d _ _ r (dk_listing _ _ _ _ _ Hd).
Let nb := size dir / block_size f.

(** Logical block [j] of the listing. *)
Lemma listing_at j : 0 ≤ j < nb → ∃ r1 e1 r2,
  blocks_entries f d (map (lookup_extents es) (seqZ 0 j)) = Some r1 ∧ block_entries f d (lookup_extents es j) = Some e1 ∧
  blocks_entries f d (map (lookup_extents es) (seqZ (j + 1) (nb - (j + 1)))) = Some r2 ∧ r = r1 ++ e1 ++ r2.
Proof using Hv Hd.
  intros Hj. assert (Hall := listing_blocks f dir es r d Hv Hd). fold nb in Hall.
  replace (map (lookup_extents es) (seqZ 0 nb)) with (dir_blocks f es (size dir)) in Hall by done.
  rewrite (dir_blocks_split f es (size dir) j Hj) in Hall. fold nb in Hall.
  apply blocks_entries_app in Hall as (r1 & r2 & H1 & H2 & Er).
  cbn [blocks_entries] in H2. apply bind_Some in H2 as (e1 & He1 & H2). apply bind_Some in H2 as (e2 & He2 & [= <-]).
  by exists r1, e1, e2.
Qed.

(** One turn of the loop. *)
Lemma runs_find_space_turn req n j s buffer a : 0 ≤ j < nb → disk s = d → block_size f ≤ quota s →
  (lookup_extents es j = 0 → runs (find_space_loop n f dir req buffer (block_size f * (j + 1))) s a s) →
  (lookup_extents es j ≠ 0 → runs (b ← read_into f buffer (lookup_extents es j);
      r ← lift (room_in_block (S (length b)) req b 0);
      match r with
      | Some (space, p) => mret (Some (space, lookup_extents es j, p))
      | None => find_space_loop n f dir req buffer (block_size f * (j + 1))
      end) s a s) →
  runs (find_space_loop (S n) f dir req buffer (block_size f * j)) s a s.
Proof using Hv Hd.
  intros Hjb Hds Hq T0 T1. destruct (at_block f dir d Hg Hsz Hm j Hjb) as (A1 & A2 & A3 & A4 & A5).
  destruct (dir_size f dir d Hg Hsz Hm) as (S1 & S2 & S3). fold nb in S1, S2.
  cbn [find_space_loop]. rewrite (proj2 (Z.ltb_lt _ _)) by done.
  eapply runs_lift; [apply udiv_ok; lia|]. rewrite A3.
  eapply runs_bind; [apply (runs_extent_get_block f s (inode dir) es j); rewrite ?Hds; (done || apply Hg || apply Hb || apply Hx || lia)|].
  rewrite A5, wrap_small by nia. destruct (Z.eqb_spec (lookup_extents es j) 0); auto.
Qed.

Lemma runs_find_space_loop req k : ∀ j n, 0 ≤ j → j + Z.of_nat k = nb → (k ≤ n)%nat →
  (∀ i, 0 ≤ i < j → block_full f d req (lookup_extents es i)) →
  (no_room f d es (size dir) req ∧ ∀ s buffer, disk s = d → block_size f ≤ quota s → buffer ≠ 0 →
     runs (find_space_loop n f dir req buffer (block_size f * j)) s None s) ∨
  (∃ jx x l1 p l2 r1 r2, dir_block f d es (size dir) jx x r1 (l1 ++ p :: l2) r2 ∧ req ≤ room (block f d x) p ∧
     ∀ s buffer, disk s = d → block_size f ≤ quota s → buffer ≠ 0 →
     runs (find_space_loop n f dir req buffer (block_size f * j)) s (Some (room (block f d x) p, x, p)) s).
Proof using Hv Hd.
  induction k as [|k IH]; intros j n Hj Hk Hn Hfull.
  { left. assert (j = nb) as -> by lia. split; [done|]. intros s buffer _ _ _.
    assert (E : find_space_loop n f dir req buffer (block_size f * nb) = mret None).
    { pose proof (after_blocks f dir d Hg Hsz Hm) as Ha. fold nb in Ha.
      by destruct n; cbn [find_space_loop]; rewrite (proj2 (Z.ltb_ge _ _)) by lia. }
    rewrite E. apply runs_ret. }
  destruct n as [|n]; [lia|]. assert (Hjb : 0 ≤ j < nb) by lia. destruct (listing_at j Hjb) as (r1 & e1 & r2 & H1 & He1 & H2 & Er).
  destruct (at_block f dir d Hg Hsz Hm j Hjb) as (A1 & A2 & A3 & A4 & A5). destruct (dir_size f dir d Hg Hsz Hm) as (S1 & S2 & S3).
  fold nb in S1, S2.
  pose proof (runs_find_space_turn req n j) as Hturn.
  assert (Hnext : block_full f d req (lookup_extents es j) → ∀ i, 0 ≤ i < j + 1 → block_full f d req (lookup_extents es i)).
  { intros Hfj i Hi. destruct (decide (i = j)) as [->|]; [done|]. apply Hfull. lia. }
  destruct (decide (lookup_extents es j = 0)) as [E0|Hne].
  { destruct (IH (j + 1) n) as [[I1 I2]|(jx & x & l1 & p & l2 & q1 & q2 & I1 & I2 & I3)];
      [lia|lia|lia|apply Hnext; by intros ?| |].
    - left. split; [done|]. intros. apply Hturn; auto. by intros.
    - right. exists jx, x, l1, p, l2, q1, q2. split; [done|]. split; [done|]. intros. apply Hturn; auto. by intros. }
  destruct (block_entries_inv f d _ _ He1 Hne) as (Hdk & ps & Hw & Hlen & ->).
  pose proof (len_block f d _ Hg Hdk) as El. pose proof (block_bytes f d (lookup_extents es j) Hg) as Hbb.
  pose proof (room_in_block_ok req _ (S (length (block f d (lookup_extents es j)))) 0 ps Hbb Hw ltac:(lia)) as Hroom.
  assert (Hread : ∀ s buffer, disk s = d → buffer ≠ 0 →
    runs (read_into f buffer (lookup_extents es j)) s (block f d (lookup_extents es j)) s).
  { intros s buffer Hds Hb0. pose proof (runs_read_blocks_into f s buffer (lookup_extents es j)) as X. rewrite Hds in X.
    apply X; (done || apply Hg). }
  destruct (find _ ps) as [p|] eqn:Ef.
  - right. apply find_some in Ef as [Hp%list_elem_of_In Hle%Z.leb_le].
    apply list_elem_of_split in Hp as (l1 & l2 & ->).
    exists j, (lookup_extents es j), l1, p, l2, r1, r2. split; [|split; [done|]].
    + constructor; try done. by rewrite El in Hw.
    + intros s buffer Hds Hq Hb0. apply Hturn; [done|done|done|done|]. intros _. eapply runs_bind; [by apply Hread|].
      eapply runs_lift; [exact Hroom|]. apply runs_ret.
  - assert (Hfj : block_full f d req (lookup_extents es j)).
    { intros _ ps' p Hw' Hp. rewrite El in Hw. rewrite (walk_unique _ Hbb _ _ _ _ Hw' Hw) in Hp.
      pose proof (find_none _ _ Ef p (proj1 (list_elem_of_In _ _) Hp)) as Hn'. cbn beta in Hn'. lia. }
    destruct (IH (j + 1) n) as [[I1 I2]|(jx & x & l1 & p & l2 & q1 & q2 & I1 & I2 & I3)];
      [lia|lia|lia|by apply Hnext| |].
    + left. split; [done|]. intros. apply Hturn; [done|done|done|done|]. intros _. eapply runs_bind; [by apply Hread|].
      eapply runs_lift; [exact Hroom|]. by apply I2.
    + right. exists jx, x, l1, p, l2, q1, q2. split; [done|]. split; [done|]. intros. apply Hturn; [done|done|done|done|].
      intros _. eapply runs_bind; [by apply Hread|]. eapply runs_lift; [exact Hroom|]. by apply I3.
Qed.

Lemma runs_find_free_entry_space req s : disk s = d → block_size f ≤ quota s →
  (no_room f d es (size dir) req ∧ runs (find_free_entry_space f dir req) s None s) ∨
  (∃ jx x l1 p l2 r1 r2, dir_block f d es (size dir) jx x r1 (l1 ++ p :: l2) r2 ∧ req ≤ room (block f d x) p ∧
     runs (find_free_entry_space f dir req) s (Some (room (block f d x) p, x, p)) s).
Proof using Hv Hd.
  intros Hds Hq. pose proof (block_size_bounds f d Hg). destruct (dir_size f dir d Hg Hsz Hm) as (S1 & S2 & S3). fold nb in S1, S2.
  pose proof (runs_find_space_loop req (Z.to_nat nb) 0 (S (Z.to_nat (size dir))) ltac:(lia) ltac:(lia) ltac:(nia) ltac:(lia)) as H0.
  rewrite Z.mul_0_r in H0. unfold find_free_entry_space.
  destruct H0 as [[N R]|(jx & x & l1 & p & l2 & q1 & q2 & I1 & I2 & R)]; [left|right].
  - split; [done|]. apply runs_kmalloc; [lia|]. intros q Hq0 Hl.
    eapply runs_bind; [by apply (R (add_buffer q s))|]. apply runs_kfree; [done|]. apply runs_ret.
  - exists jx, x, l1, p, l2, q1, q2. split; [done|]. split; [done|]. apply runs_kmalloc; [lia|]. intros q Hq0 Hl.
    eapply runs_bind; [by apply (R (add_buffer q s))|]. apply runs_kfree; [done|]. apply runs_ret.
Qed.
End space.

(** ** create *)

(** What stays of a disk when blocks with a role were written and blocks may have been
    taken. *)
Record data_kept (f : Ext4Manager) (d d' : list Z) : Prop := {
  kp_volume : volume_ok f d';
  kp_places : same_places f d d';
  kp_used x : in_volume f x → used f d x = true → used f d' x = true;
  kp_data x : on_disk f d x → (∀ r, ¬ has_role f d x r) → block f d' x = block f d x
}.

Section kept.
Context (f : Ext4Manager).
Implicit Types d : list Z.

Lemma kept_inode d j v : volume_ok f d → is_inode f j → len v = 160 → Forall byte v → data_kept f d (put_inode f j v d).
Proof.
  intros Hv Hj El Eb. constructor; [by apply iw_volume|by apply iw_places|intros; by rewrite (iw_used f d j v Hv Hj El Eb)|intros; by apply Ext4File.iw_data].
Qed.

Lemma kept_allocated d d' i : inode_allocated f d d' i → data_kept f d d'.
Proof.
  intros [A1 A2 A3 A4 A5 A6 A7]. constructor; [done|done|intros; by rewrite A6|]. intros x Hx Hr. apply A7; [done|].
  intros g Hg. split; intros ->; [apply (Hr Descriptors); by exists g|by apply (Hr (InodeBitmap g))].
Qed.

Lemma kept_block d d' b : allocated f d d' b → data_kept f d d'.
Proof.
  intros [A1 A2 A3 A4 A5 A6 A7]. constructor; [done|done| |].
  - intros x Hx Hu. rewrite A5 by done. by destruct (decide (x = b)).
  - intros x Hx Hr. apply A7; [done|]. intros g Hg.
    split; intros ->; [apply (Hr Descriptors); by exists g|by apply (Hr (BlockBitmap g))].
Qed.

(** The inodes are not touched by an allocation. *)
Lemma allocated_inode d d' i j : volume_ok f d → inode_allocated f d d' i → is_inode f j → Ext4.inode f d' j = Ext4.inode f d j.
Proof.
  intros Hv Ha Hjj. unfold Ext4.inode. rewrite (sp_inode_blk f _ _ Hv (ia_places _ _ _ _ Ha)) by done. f_equal.
  assert (Hro : has_role f d (inode_blk f d j) InodeTable) by by exists j.
  apply (ia_block _ _ _ _ Ha); [by eapply role_block|]. intros g Hgg. split.
  - apply (roles_differ f d _ _ InodeTable Descriptors); [done|done|by exists g|done].
  - apply (roles_differ f d _ _ InodeTable (InodeBitmap g)); [done|done|by split|done].
Qed.

Lemma allocated_block_inode d d' b j : volume_ok f d → allocated f d d' b → is_inode f j → Ext4.inode f d' j = Ext4.inode f d j.
Proof.
  intros Hv Ha Hjj. apply meta_inode; [done|apply Ha| |done]. apply (ac_block _ _ _ _ Ha).
Qed.

Section dir.
Context (d d' : list Z) (dir : Ext4Directory) (es : list extent) (r : list dentry).
Context (Hv : volume_ok f d) (Hk : data_kept f d d') (Hd : dir_ok f d dir es r).

Lemma file_kept i fs : Ext4File.file_ok f d i fs → Ext4File.file_ok f d' i fs.
Proof using Hv Hk.
  intros [F1 F2 F3 F4 F5 F6 F7]. destruct Hk as [K1 K2 K3 K4]. constructor; try done.
  intros lb Hlb x. destruct (F6 lb Hlb) as (X1 & X2 & X3 & X4). split; [done|]. split; [by apply K3|].
  split; [eapply on_disk_len; [apply K2|done]|]. intros ro Hx%(sp_role f d d' Hv K2). by apply (X4 ro).
Qed.

Lemma dir_data lb : lookup_extents es lb ≠ 0 → block f d' (lookup_extents es lb) = block f d (lookup_extents es lb).
Proof using Hk Hd.
  intros Hlb. destruct (Ext4File.fo_block _ _ _ _ (dk_file _ _ _ _ _ Hd) lb Hlb) as (X1 & X2 & X3 & X4).
  by apply (kp_data _ _ _ Hk).
Qed.

Lemma dir_kept : Ext4.inode f d' (inode_num dir) = inode dir → dir_ok f d' dir es r.
Proof using Hv Hk Hd.
  intros Hi. pose proof Hd as [D1 D2 D3 D4 D5]. constructor; try done; [by apply file_kept|].
  eapply listing_kept; [apply (sp_len _ _ _ (kp_places _ _ _ Hk))|exact D1|by apply file_kept|apply dir_data|exact D5].
Qed.

Lemma dir_block_kept sz j x r1 ps r2 : dir_block f d es sz j x r1 ps r2 → dir_block f d' es sz j x r1 ps r2.
Proof using Hv Hk Hd.
  intros [B1 B2 B3 B4 B5 B6 B7]. pose proof (sp_len _ _ _ (kp_places _ _ _ Hk)) as El.
  assert (Hpart : ∀ l, blocks_entries f d' (map (lookup_extents es) l) = blocks_entries f d (map (lookup_extents es) l)).
  { intros l. apply blocks_entries_same; [done|]. intros y (lb & -> & _)%list_elem_of_fmap Hy. by apply dir_data. }
  constructor; try done; [by eapply on_disk_len|by rewrite Hpart| |by rewrite Hpart].
  rewrite <- B2 in *. by rewrite dir_data.
Qed.
End dir.

Lemma new_file_ok d : Ext4File.file_ok f d new_file_inode [].
Proof.
  constructor.
  - by vm_compute.
  - by apply bytes_check; vm_compute.
  - split; [by vm_compute|]. split; [by vm_compute|]. split; [by vm_compute|constructor].
  - split; by vm_compute.
  - constructor.
  - intros lb H. by cbn in H.
  - intros lb lb' H. by cbn in H.
Qed.
End kept.

Section create.
Context {W : Type} `{!BlockDevice W, !Allocator W, !StoreLaws W}.
Context (f : Ext4Manager) (Hj : s_journal_inum f = 0).
Implicit Types s : store.

(** The operations of an object that counts differently. *)
Section same.
Context (fc : Ext4Manager) (Hs : same_fs f fc).

Lemma same_put_inode i v d : put_inode fc i v d = put_inode f i v d.
Proof using Hs.
  unfold put_inode. rewrite (same_inode_blk f fc Hs), (same_inode_off f fc Hs), (same_block f fc Hs).
  unfold put_block. by rewrite (sf_fields _ _ Hs).
Qed.

Lemma same_block_size : block_size fc = block_size f.
Proof using Hs. by rewrite (sf_fields _ _ Hs). Qed.

Lemma same_commit s : runs (commit_and_start fc) s fc s.
Proof using Hj Hs. unfold commit_and_start. rewrite (sf_inum _ _ Hs), Hj. apply runs_ret. Qed.

Lemma runs_write_inode_same s i v : volume_ok f (disk s) → is_inode f i → block_size f ≤ quota s → len v = 160 →
  Forall byte v → runs (write_inode fc i v) s () (set_disk (put_inode f i v (disk s)) s).
Proof using Hs.
  intros Hv Hi Hq El Eb. rewrite <- same_put_inode. apply runs_write_inode; [apply (same_geometry f fc Hs), (vo_geometry _ _ Hv)|
    apply (same_inode_fits f fc Hs); by apply (vo_inode _ _ Hv)|by rewrite same_block_size|done|done].
Qed.

Lemma runs_read_inode_same s i : volume_ok f (disk s) → is_inode f i → block_size f ≤ quota s →
  runs (read_inode fc i) s (Ext4.inode f (disk s) i) s.
Proof using Hs.
  intros Hv Hi Hq. rewrite <- (same_inode f fc Hs). apply runs_read_inode; [apply (same_geometry f fc Hs), (vo_geometry _ _ Hv)|
    apply (same_inode_fits f fc Hs); by apply (vo_inode _ _ Hv)|by rewrite same_block_size].
Qed.

(** The new entry in the block where room was found. *)
Lemma runs_add_entry s dir es r j x r1 l1 p l2 r2 ino ty nm : volume_ok f (disk s) → block_size f ≤ quota s →
  dir_ok f (disk s) dir es r → dir_block f (disk s) es (size dir) j x r1 (l1 ++ p :: l2) r2 →
  0 < ino < 2 ^ 32 → 0 ≤ ty < 256 → len nm < 256 → Forall byte nm →
  entry_size (len nm) ≤ room (block f (disk s) x) p →
  let b := block f (disk s) x in
  let ra := r1 ++ entries b (l1 ++ [p]) in
  let rb := entries b l2 ++ r2 in
  r = ra ++ rb ∧
  ∃ d', runs (add_entry fc x p ino ty nm) s fc (set_disk d' s) ∧ volume_ok f d' ∧
    dir_ok f d' dir es (ra ++ mk_dentry nm ino ty :: rb) ∧
    (∀ i, is_inode f i → Ext4.inode f d' i = Ext4.inode f (disk s) i) ∧
    (∀ y, in_volume f y → used f d' y = used f (disk s) y) ∧
    (∀ y, on_disk f (disk s) y → y ≠ x → block f d' y = block f (disk s) y) ∧
    (∀ i fs, Ext4File.file_ok f (disk s) i fs → Ext4File.file_ok f d' i fs) ∧ same_places f (disk s) d'.
Proof using Hj Hs.
  intros Hv Hq Hd Hdb Hino Hty Hnm Hnmb Hroom b ra rb. pose proof (vo_geometry _ _ Hv) as Hg.
  pose proof Hdb as [B1 B2 B3 B4 B5 B6 B7]. pose proof (len_block f _ x Hg B4) as El. fold b in El.
  assert (Hb : Forall byte b) by by apply block_bytes. fold b in B6. assert (Hw := B6). rewrite <- El in Hw.
  destruct (split_entry_ok b l1 p l2 ino ty nm Hb Hw Hino Hty Hnm Hnmb Hroom) as (b' & ps' & S1 & S2 & S3 & S4 & S5).
  split.
  { pose proof (dir_block_listing f _ (inode dir) es (size dir) j x _ _ _ Hg (dk_file _ _ _ _ _ Hd)
      (listing_mod f _ _ _ _ (dk_listing _ _ _ _ _ Hd)) Hdb) as E. rewrite (dk_listing _ _ _ _ _ Hd) in E.
    injection E as ->. fold b. unfold ra, rb. replace (l1 ++ p :: l2) with ((l1 ++ [p]) ++ l2) by (by rewrite <- app_assoc).
    rewrite entries_app. by rewrite <- !app_assoc. }
  rewrite El in S2, S4.
  destruct (dir_block_put f (disk s) dir es r j x r1 _ r2 b' ps' Hv Hd Hdb S2 S3 S4) as (K1 & V1 & I1 & U1 & F1).
  exists (put_block f x b' (disk s)). split; [|split; [done|split; [|split; [done|split; [done|split; [|split; [done|]]]]]]].
  4: { pose proof (Ext4File.fo_block _ _ _ _ (dk_file _ _ _ _ _ Hd) j) as X. rewrite B2 in X.
       destruct (X B3) as (X1 & X2 & X3 & X4). by apply Ext4File.db_places. }
  - unfold add_entry. rewrite same_block_size. pose proof (block_size_bounds f _ Hg). apply runs_kmalloc; [lia|].
    intros q Hq0 Hl. eapply runs_bind; [apply runs_read_blocks_into; [by apply (same_geometry f fc Hs)|by apply (same_on_disk f fc Hs)|done]|].
    rewrite (same_block f fc Hs). cbn [disk add_buffer]. fold b. eapply runs_lift; [exact S1|].
    eapply runs_bind; [apply (runs_journal_write fc); [by rewrite (sf_inum _ _ Hs)|by apply (same_geometry f fc Hs)|
      by apply (same_on_disk f fc Hs)|by rewrite same_block_size|done]|].
    rewrite set_disk_add. apply runs_kfree; [done|]. cbn [disk add_buffer].
    replace (put_block fc x b' (disk s)) with (put_block f x b' (disk s)); [apply runs_ret|].
    unfold put_block. by rewrite (sf_fields _ _ Hs).
  - rewrite S5 in K1. unfold ra, rb. rewrite <- app_assoc in K1. rewrite <- app_assoc. exact K1.
  - intros y Hy Hne. apply block_put_other; [done|done|done|done|by apply not_eq_sym].
Qed.
End same.

(** What [create] does on the disk when it succeeds. *)
Record created (d : list Z) (dir : Ext4Directory) (es : list extent) (r : list dentry) (nm : list Z)
    (ino : Z) (d' : list Z) : Prop := {
  cr_volume : volume_ok f d';
  cr_inode : inode_available f d ino;
  cr_lowest i : inode_available f d i → ino ≤ i;
  cr_dir : ∃ r1 r2, r = r1 ++ r2 ∧ dir_ok f d' dir es (r1 ++ mk_dentry nm ino EXT4_FT_REG_FILE :: r2);
  cr_new : Ext4.inode f d' ino = new_file_inode;
  cr_others i : is_inode f i → i ≠ ino → Ext4.inode f d' i = Ext4.inode f d i;
  cr_used x : in_volume f x → used f d' x = used f d x;
  cr_data x : on_disk f d x → (∀ ro, ¬ has_role f d x ro) → (∀ lb, lookup_extents es lb ≠ x) → block f d' x = block f d x;
  cr_places : same_places f d d'
}.

Lemma runs_create_node s dir es nm r : volume_ok f (disk s) → block_size f ≤ quota s → dir_ok f (disk s) dir es r →
  inode_used f (disk s) (inode_num dir) = true → len nm < 256 → Forall byte nm →
  (runs (create f dir nm) s (None, f) s ∧
     (no_room f (disk s) es (size dir) (entry_size (len nm)) ∨ ∀ i, ¬ inode_available f (disk s) i)) ∨
  (∃ ino f' d', runs (create f dir nm) s (Some (NodeFile (Ext4File.mk_file (take 127 nm) ino new_file_inode 0 0)), f')
     (set_disk d' s) ∧ same_fs f f' ∧ created (disk s) dir es r nm ino d').
Proof using Hj.
  intros Hv Hq Hd Hused Hnm Hnmb. pose proof (vo_geometry _ _ Hv) as Hg. pose proof (len_nonneg nm).
  unfold create. cbn [check_permission negb]. rewrite (wrap_small 8 (len nm)) by lia.
  destruct (runs_find_free_entry_space f dir es r _ Hv Hd (entry_size (len nm)) s eq_refl Hq)
    as [[N R]|(j & x & l1 & p & l2 & q1 & q2 & B & Hroom & R)].
  { left. split; [|by left]. eapply runs_bind; [exact R|]. apply runs_ret. }
  destruct (runs_allocate_inode f Hj s false Hv Hq) as (ino & f1 & d1 & Ra & Hs & [Ha|(-> & -> & -> & Hno)]).
  2: { left. rewrite set_disk_same in Ra. split; [|by right]. eapply runs_bind; [exact R|]. cbn beta iota.
       eapply runs_bind; [exact Ra|]. apply runs_ret. }
  right. pose proof (kept_allocated f _ _ _ Ha) as K1. destruct (ia_available _ _ _ _ Ha) as (Hi & Hfree & _).
  destruct (vo_numbers _ _ Hv) as [_ Hnum]. assert (Hir : 0 < ino < 2 ^ 32) by (unfold is_inode in Hi; lia).
  assert (Hne : inode_num dir ≠ ino) by congruence.
  assert (I1 : ∀ i, is_inode f i → Ext4.inode f d1 i = Ext4.inode f (disk s) i) by (intros; by eapply allocated_inode).
  assert (D1 : dir_ok f d1 dir es r).
  { apply (dir_kept f (disk s)); [done|done|done|]. rewrite I1 by apply Hd. apply Hd. }
  assert (B1 : dir_block f d1 es (size dir) j x q1 (l1 ++ p :: l2) q2) by (by apply (dir_block_kept f (disk s) d1 dir es r)).
  pose proof (new_file_ok f d1) as Hnew. pose proof (Ext4File.fo_len _ _ _ _ Hnew) as El.
  pose proof (Ext4File.fo_bytes _ _ _ _ Hnew) as Eb.
  set (d2 := put_inode f ino new_file_inode d1). pose proof (kp_volume _ _ _ K1) as V1.
  pose proof (kept_inode f d1 ino new_file_inode V1 Hi El Eb) as K2. fold d2 in K2.
  assert (I2 : ∀ i, is_inode f i → i ≠ ino → Ext4.inode f d2 i = Ext4.inode f d1 i) by (intros; by apply iw_inode).
  assert (D2 : dir_ok f d2 dir es r).
  { apply (dir_kept f d1); [done|done|done|]. rewrite I2 by (done || apply Hd). apply D1. }
  pose proof (dir_block_kept f d1 d2 dir es r V1 K2 D1 _ _ _ _ _ _ B1) as B2. pose proof (kp_volume _ _ _ K2) as V2.
  assert (Ex : block f d2 x = block f (disk s) x).
  { rewrite <- (db_x _ _ _ _ _ _ _ _ _ B). pose proof (db_mapped _ _ _ _ _ _ _ _ _ B) as Hx0.
    rewrite <- (db_x _ _ _ _ _ _ _ _ _ B) in Hx0.
    rewrite (dir_data f d1 d2 dir es r K2 D1) by done. by rewrite (dir_data f _ d1 dir es r K1 Hd) by done. }
  destruct (runs_add_entry f1 Hs (set_disk d2 s) dir es r j x q1 l1 p l2 q2 ino EXT4_FT_REG_FILE nm V2 Hq D2 B2 Hir)
    as (Er & d3 & R3 & V3 & D3 & I3 & U3 & O3 & _ & P3); [done|done|done|cbn [disk set_disk]; by rewrite Ex|]. rewrite set_disk_set in R3.
  exists ino, f1, d3. split; [|split; [done|]].
  - eapply runs_bind; [exact R|]. cbn beta iota. eapply runs_bind; [exact Ra|]. cbn beta iota.
    rewrite (proj2 (Z.eqb_neq ino 0)) by lia.
    eapply runs_bind; [apply (runs_write_inode_same f1 Hs (set_disk d1 s)); done|]. rewrite set_disk_set. fold d2.
    eapply runs_bind; [exact R3|]. eapply runs_bind; [by apply same_commit|].
    eapply runs_bind; [eapply runs_bind; [by apply (runs_read_inode_same f1 Hs (set_disk d3 s))|apply runs_ret]|].
    cbn [disk set_disk]. rewrite I3 by done. cbn [disk set_disk]. unfold d2. rewrite iw_same by done. apply runs_ret.
  - constructor; try done.
    + apply Ha.
    + apply Ha.
    + do 2 eexists. split; [exact Er|exact D3].
    + rewrite I3 by done. cbn [disk set_disk]. by apply iw_same.
    + intros i Hii Hni. rewrite I3 by done. cbn [disk set_disk]. by rewrite I2, I1.
    + intros y Hy. rewrite U3 by done. cbn [disk set_disk]. unfold d2. rewrite (iw_used f d1 ino _ V1 Hi El Eb) by done. by apply (ia_used _ _ _ _ Ha).
    + intros y Hy Hro Hlb. pose proof (kp_places _ _ _ K1) as P1. pose proof (kp_places _ _ _ K2) as P2.
      assert (Hy1 : on_disk f d1 y) by (eapply on_disk_len; [apply P1|done]).
      rewrite O3; [|eapply on_disk_len; [apply P2|done]|rewrite <- (db_x _ _ _ _ _ _ _ _ _ B); by apply not_eq_sym].
      cbn [disk set_disk]. rewrite (kp_data _ _ _ K2); [by apply (kp_data _ _ _ K1)|done|].
      intros ro Hx%(sp_role f _ _ Hv P1). by apply (Hro ro).
    + eapply same_places_trans; [apply K1|]. eapply same_places_trans; [apply K2|exact P3].
Qed.
End create.

(** ** The results *)

(** Creates a file, looks it up, writes to it and reads it: the number of bytes written
    and the bytes read. *)
Definition create_write_read {W} `{!BlockDevice W, !Allocator W} (f : Ext4Manager) (dir : Ext4Directory)
    (nm buf : list Z) : kernel W (option (Z * list Z)) :=
  '(o, f) ← create f dir nm;
  match o with
  | None => mret None
  | Some _ =>
      n ← finddir f dir nm;
      match n with
      | Some (NodeFile fl) =>
          '(k, fl, f) ← Ext4File.write f fl 0 buf;
          b ← Ext4File.read f fl 0 (len buf);
          mret (Some (k, b))
      | _ => lift Fault
      end
  end.

Section results2.
Context {W : Type} `{!BlockDevice W, !Allocator W, !StoreLaws W}.
Context (f : Ext4Manager) (Hj : s_journal_inum f = 0).
Implicit Types s : store.

(** Creating a file fails without a change when no entry has room for the name or no inode
    can be had; a directory never gets a new block.  Otherwise the lowest free inode
    becomes an empty regular file, the listing has one more entry, the other inodes,
    the bitmap of the blocks and the data outside of the directory stay.  The
    name may be there already: there is no check. *)
Theorem ext4_create s dir es nm r : volume_ok f (disk s) → block_size f ≤ quota s → dir_ok f (disk s) dir es r →
  inode_used f (disk s) (inode_num dir) = true → len nm < 256 → Forall byte nm →
  (runs (create f dir nm) s (None, f) s ∧
     (no_room f (disk s) es (size dir) (entry_size (len nm)) ∨ ∀ i, ¬ inode_available f (disk s) i)) ∨
  (∃ ino f' d', runs (create f dir nm) s (Some (NodeFile (Ext4File.mk_file (take 127 nm) ino new_file_inode 0 0)), f')
     (set_disk d' s) ∧ same_fs f f' ∧ created f (disk s) dir es r nm ino d').
Proof using Hj. by apply runs_create_node. Qed.

Lemma find_entry_new nm r1 e r2 : find_entry nm (r1 ++ r2) = None → has_name nm e = true →
  find_entry nm (r1 ++ e :: r2) = Some e.
Proof.
  unfold find_entry. rewrite !find_app. destruct (find _ r1); [done|]. intros _ He. cbn [find]. by rewrite He.
Qed.

Lemma listing_same f1 d i es sz r : same_fs f f1 → Ext4File.file_ok f d i es → listing f d i sz = Some r →
  listing f1 d i sz = Some r.
Proof.
  intros Hs Hf Hl. pose proof (listing_mod f _ _ _ _ Hl) as Hm. rewrite (listing_file f d i es) in Hl by done.
  rewrite (listing_file f1 d i es); [|by apply (Ext4File.file_same f f1 Hs)|by rewrite (same_block_size f f1 Hs)].
  rewrite <- Hl. rewrite (sf_fields f f1 Hs). reflexivity.
Qed.

Lemma content_same f1 d es n : same_fs f f1 → Ext4File.content f1 d es n = Ext4File.content f d es n.
Proof. intros Hs. rewrite (sf_fields f f1 Hs). reflexivity. Qed.

(** What is on the disk after a file with inode [ino] was created and [k] bytes of [n] written to it. *)
Record file_made (f : Ext4Manager) (d : list Z) (dir : Ext4Directory) (es : list extent) (r : list dentry)
    (nm : list Z) (ino k n : Z) (d' : list Z) : Prop := {
  fm_volume : volume_ok f d';
  fm_inode : inode_available f d ino;
  fm_listing : ∃ r1 r2, r = r1 ++ r2 ∧ dir_ok f d' dir es (r1 ++ mk_dentry nm ino EXT4_FT_REG_FILE :: r2);
  fm_size : member Ext4Inode "i_size_lo" (Ext4.inode f d' ino) = k;
  fm_full : k < n → (∀ x, ¬ available f d' x) ∨ header "eh_entries" (Ext4.inode f d' ino) i_block = 4;
  fm_others i : is_inode f i → i ≠ ino → Ext4.inode f d' i = Ext4.inode f d i;
  fm_data x : on_disk f d x → (∀ ro, ¬ has_role f d x ro) → in_volume f x → used f d x = true → x ≠ 0 →
    (∀ lb, lookup_extents es lb ≠ x) → block f d' x = block f d x
}.

(** A directory whose blocks and inode stay. *)
Lemma dir_stays d d' dir es r : volume_ok f d → same_places f d d' → dir_ok f d dir es r →
  (∀ x, in_volume f x → used f d x = true → used f d' x = true) →
  (∀ lb, lookup_extents es lb ≠ 0 → block f d' (lookup_extents es lb) = block f d (lookup_extents es lb)) →
  Ext4.inode f d' (inode_num dir) = inode dir → dir_ok f d' dir es r.
Proof.
  intros Hv Hp [D1 D2 D3 D4 D5] Hu Hb Hi. assert (F : Ext4File.file_ok f d' (inode dir) es).
  { pose proof D1 as [F1 F2 F3 F4 F5 F6 F7]. constructor; try done. intros lb Hlb x. destruct (F6 lb Hlb) as (X1 & X2 & X3 & X4).
    split; [done|]. split; [by apply Hu|]. split; [eapply on_disk_len; [apply Hp|done]|].
    intros ro Hx%(sp_role f d d' Hv Hp). by apply (X4 ro). }
  constructor; try done. eapply listing_kept; [apply Hp|exact D1|exact F|exact Hb|exact D5].
Qed.

(** Writing to the file that was just created. *)
Lemma runs_write_created f1 s d dir es nm r ino d1 buf : same_fs f f1 → volume_ok f d →
  inode_used f d (inode_num dir) = true → created f d dir es r nm ino d1 →
  disk s = d1 → block_size f ≤ quota s → Forall byte buf → len buf < 2 ^ 32 →
  let fl := Ext4File.mk_file (take 127 nm) ino new_file_inode 0 0 in
  ∃ k fl' f2 d2 es', runs (Ext4File.write f1 fl 0 buf) s (k, fl', f2) (set_disk d2 s) ∧ same_fs f1 f2 ∧
    0 ≤ k ≤ len buf ∧ file_made f d dir es r nm ino k (len buf) d2 ∧ Ext4File.file_ok f1 d2 (Ext4File.inode fl') es' ∧
    Ext4File.size fl' = k ∧ Ext4File.content f1 d2 es' k = sub 0 k buf.
Proof using Hj.
  intros Hs Hv Hused [V1 Hav _ (r1 & r2 & -> & D1) N1 O1 U1 C1 P1] Hsd Hq Hbuf Hlen fl. pose proof D1 as [F1 Hn Hdi Hsz L1].
  pose proof Hav as (Hi & Hfree & _).
  pose proof (same_volume f f1 Hs d1 V1) as V1'. pose proof (vo_geometry _ _ V1') as G1. subst d1.
  destruct (Ext4File.runs_ext4_write f1 s fl [] 0 buf) as
    (k & fl' & f2 & d2 & es' & Rw & Hs2 & Hk & V2 & F2 & Ed & En & Hsize & Hfull & Hcont & Hdata & Hse & Hino & Hp & Hu2);
    [by rewrite (sf_inum _ _ Hs)|done|by rewrite (same_block_size f f1 Hs)|apply new_file_ok|by apply (same_is_inode f f1 Hs)|done|done|lia|done|].
  cbn [Ext4File.size Ext4File.inode Ext4File.inode_num fl] in *. rewrite Z.add_0_l, Z.max_r in Hsize by lia. rewrite Z.add_0_l in Hse.
  pose proof (Ext4File.same_fs_sym f f1 Hs) as Hs'. assert (V2' : volume_ok f d2) by by apply (same_volume f1 f).
  rewrite En, (same_inode f f1 Hs) in Ed.
  assert (Hother : ∀ j, is_inode f j → j ≠ ino → Ext4.inode f d2 j = Ext4.inode f (disk s) j).
  { intros j Hjj Hne. rewrite <- !(same_inode f f1 Hs). apply Hino; [by apply (same_is_inode f f1 Hs)|done]. }
  assert (Hblock : ∀ x, on_disk f (disk s) x → (∀ ro, ¬ has_role f (disk s) x ro) → (in_volume f x → used f (disk s) x = true) → x ≠ 0 →
    block f d2 x = block f (disk s) x).
  { intros x Hx Hro Hu H0. rewrite <- !(same_block f f1 Hs). apply Hdata; [by apply (same_on_disk f f1 Hs)| | |].
    - intros ro. rewrite (same_role f f1 Hs). apply Hro.
    - rewrite (same_in_volume f f1 Hs), (same_used f f1 Hs). done.
    - intros lb. cbn [lookup_extents]. by apply not_eq_sym. }
  exists k, fl', f2, d2, es'. split; [exact Rw|]. split; [done|]. split; [done|]. split; [|split; [done|split; [done|]]].
  - constructor; try done.
    + exists r1, r2. split; [done|]. apply (dir_stays (disk s)); try done.
      * by apply (Ext4File.places_same f f1).
      * intros x Hx Hu. rewrite <- (same_used f f1 Hs) in *. apply Hu2; [by apply (same_in_volume f f1 Hs)|done].
      * intros lb Hlb. destruct (Ext4File.fo_block _ _ _ _ F1 lb Hlb) as (X1 & X2 & X3 & X4). by apply Hblock.
      * rewrite Hother; [done|done|]. intros E. by rewrite E, Hfree in Hused.
    + rewrite Ed, (Ext4File.se_size _ _ _ Hse). destruct (Z.ltb_spec 0 k); [done|]. by assert (k = 0) as -> by lia.
    + intros Hlt. rewrite Ed. destruct (Hfull Hlt) as [[Hno|Heq] _]; [left|right].
      * intros x Hx. by apply (Hno x), (Ext4File.available_same f f1 Hs).
      * by rewrite Heq, (Ext4File.se_max _ _ _ Hse).
    + intros i Hii Hne. by rewrite Hother, O1.
    + intros x Hx Hro Hin Hu H0 Hnl. rewrite Hblock; [by apply C1| | | |done].
      * by eapply on_disk_len; [apply P1|].
      * intros ro Hr%(sp_role f d _ Hv P1). by apply (Hro ro).
      * intros _. by rewrite U1.
  - rewrite Hsize in Hcont. rewrite Hcont; [|done|intros lb; cbn [Ext4File.size fl]; pose proof (block_size_bounds _ _ G1); nia].
    unfold Ext4File.content. rewrite sub_0. unfold splice. cbn [Z.to_nat take app drop Nat.add length].
    by rewrite drop_nil, app_nil_r.
Qed.

(** The new file is found under its name. *)
Lemma runs_find_created f1 s dir es nm r ino d1 : same_fs f f1 → block_size f ≤ quota s → find_entry nm r = None →
  created f (disk s) dir es r nm ino d1 →
  runs (finddir f1 dir nm) (set_disk d1 s) (Some (NodeFile (Ext4File.mk_file (take 127 nm) ino new_file_inode 0 0))) (set_disk d1 s).
Proof using Hj.
  intros Hs Hq Hnew [V1 (Hi & _) _ (r1 & r2 & -> & D1) N1 _ _ _]. pose proof D1 as [F1 _ _ Hsz L1].
  pose proof (same_volume f f1 Hs d1 V1) as V1'.
  assert (Hbs : block_size f1 ≤ quota s) by by rewrite (same_block_size f f1 Hs).
  assert (E : find_entry nm (r1 ++ mk_dentry nm ino EXT4_FT_REG_FILE :: r2) = Some (mk_dentry nm ino EXT4_FT_REG_FILE)).
  { apply find_entry_new; [done|]. by apply bool_decide_eq_true_2. }
  assert (X : runs (finddir f1 dir nm) (set_disk d1 s) ((λ e, node_of f1 d1 nm (de_ino e)) <$> Some (mk_dentry nm ino EXT4_FT_REG_FILE)) (set_disk d1 s)).
  { rewrite <- E. apply (runs_find_entry f1 (set_disk d1 s)); [apply (vo_geometry _ _ V1')|done|apply F1|done|by eapply listing_same|].
    rewrite E. intros e [= <-]. apply (vo_inode _ _ V1'). by apply (same_is_inode f f1 Hs). }
  cbn [fmap option_fmap option_map de_ino] in X. unfold node_of in X. rewrite (same_inode f f1 Hs), N1 in X.
  change (is_directory new_file_inode) with false in X. exact X.
Qed.

(** C2. On a volume without a journal, a file that is created under a new name is found under
    it and gives back the first [k] bytes of what is written to it.  [k] is all of them
    unless no block is free or the four extents of its inode are used; its inode has
    the size [k], the listing has one entry more, and all other inodes and the blocks
    in use outside of the directory stay.  Creation fails without a change only when no entry
    of the directory has room for the name or no inode is free. *)
Theorem ext4_created_file_reads_back s dir es nm r buf : volume_ok f (disk s) → block_size f ≤ quota s →
  dir_ok f (disk s) dir es r → inode_used f (disk s) (inode_num dir) = true → len nm < 256 → Forall byte nm →
  find_entry nm r = None → Forall byte buf → len buf < 2 ^ 32 →
  (runs (create_write_read f dir nm buf) s None s ∧
     (no_room f (disk s) es (size dir) (entry_size (len nm)) ∨ ∀ i, ¬ inode_available f (disk s) i)) ∨
  (∃ ino k d', runs (create_write_read f dir nm buf) s (Some (k, sub 0 k buf)) (set_disk d' s) ∧ 0 ≤ k ≤ len buf ∧
     file_made f (disk s) dir es r nm ino k (len buf) d').
Proof using Hj.
  intros Hv Hq Hd Hu Hnm Hnmb Hnew Hbuf Hlen.
  destruct (runs_create_node f Hj s dir es nm r Hv Hq Hd Hu Hnm Hnmb) as [[R Hno]|(ino & f1 & d1 & R & Hs & C)].
  { left. split; [|done]. eapply runs_bind; [exact R|]. apply runs_ret. }
  right. destruct (runs_write_created f1 (set_disk d1 s) (disk s) dir es nm r ino d1 buf Hs Hv Hu C eq_refl Hq Hbuf Hlen)
    as (k & fl' & f2 & d2 & es' & Rw & Hs2 & Hk & Hmade & F2 & Hsize & Ec). rewrite set_disk_set in Rw.
  pose proof (runs_find_created f1 s dir es nm r ino d1 Hs Hq Hnew C) as Hfind.
  pose proof (same_volume f f1 Hs d2 (fm_volume _ _ _ _ _ _ _ _ _ _ Hmade)) as V2.
  assert (Hbs : block_size f1 ≤ quota s) by by rewrite (same_block_size f f1 Hs).
  exists ino, k, d2. split; [|done]. eapply runs_bind; [exact R|]. cbn beta iota. eapply runs_bind; [exact Hfind|]. cbn beta iota.
  eapply runs_bind; [exact Rw|]. cbn beta iota.
  assert (X : runs (Ext4File.read f2 fl' 0 (len buf)) (set_disk d2 s) (sub 0 (len buf) (Ext4File.content f2 d2 es' k)) (set_disk d2 s)).
  { rewrite <- Hsize. apply (Ext4File.runs_ext4_read f2 (set_disk d2 s));
      [apply (same_geometry f1 f2 Hs2), (vo_geometry _ _ V2)| |apply F2|apply root_only_extents, F2| |lia|done|lia|lia].
    - by rewrite (same_block_size f1 f2 Hs2).
    - eapply Ext4File.file_mapped. apply (Ext4File.file_same f2 f1); [|exact F2]. by apply Ext4File.same_fs_sym. }
  eapply runs_bind; [exact X|]. rewrite (sf_fields f1 f2 Hs2) at 1.
  replace (sub 0 (len buf) _) with (sub 0 k buf); [apply runs_ret|].
  change (Ext4File.content _ d2 es' k) with (Ext4File.content f1 d2 es' k). rewrite Ec.
  pose proof (len_sub 0 k buf ltac:(lia) ltac:(lia) ltac:(lia)) as Ek. unfold sub at 2. rewrite drop_0. symmetry. apply take_ge. unfold len in *. lia.
Qed.
End results2.

(** ** The root of the example volume *)
Import Pure.

Module OpsExample.
Import ExtentExample VolumeExample DirExample.

Definition extents : list extent := [mk_extent 0 1 7].

Lemma lookup_root lb : lookup_extents extents lb = if decide (lb = 0) then 7 else 0.
Proof.
  unfold extents. cbn [lookup_extents]. unfold e_end. cbn [e_block e_len e_start].
  destruct (decide (lb = 0)) as [->|Hne]; [done|].
  destruct (Z.leb_spec 0 lb), (Z.ltb_spec lb (0 + 1)); try done. lia.
Qed.

Lemma root_file : Ext4File.file_ok fs (disk machine) root_inode extents.
Proof.
  constructor.
  - by vm_compute.
  - by apply bytes_check; vm_compute.
  - split; [by vm_compute|]. split; [by vm_compute|]. split; [by vm_compute|]. constructor; [|constructor]. done.
  - split; by vm_compute.
  - constructor; [|constructor]. done.
  - intros lb. rewrite lookup_root. destruct (decide (lb = 0)); [|done]. intros _. split; [by vm_compute|].
    split; [by vm_compute|]. split; [by vm_compute|]. apply no_role_check. by vm_compute.
  - intros lb lb'. rewrite !lookup_root. destruct (decide (lb = 0)), (decide (lb' = 0)); (done || congruence).
Qed.

Lemma root_ok : dir_ok fs (disk machine) root extents root_entries.
Proof.
  constructor.
  - apply root_file.
  - split; by vm_compute.
  - by vm_compute.
  - split; by vm_compute.
  - apply root_listing.
Qed.
End OpsExample.


Lemma ext4_create_witness :
  (runs (create VolumeExample.fs DirExample.root [98]) VolumeExample.machine (None, VolumeExample.fs) VolumeExample.machine ∧
     (no_room VolumeExample.fs (disk VolumeExample.machine) OpsExample.extents 1024 12 ∨
      ∀ i, ¬ inode_available VolumeExample.fs (disk VolumeExample.machine) i)) ∨
  ∃ ino f' d', runs (create VolumeExample.fs DirExample.root [98]) VolumeExample.machine
      (Some (NodeFile (Ext4File.mk_file [98] ino new_file_inode 0 0)), f') (set_disk d' VolumeExample.machine) ∧
    same_fs VolumeExample.fs f' ∧
    created VolumeExample.fs (disk VolumeExample.machine) DirExample.root OpsExample.extents DirExample.root_entries [98] ino d'.
Proof.
  apply (ext4_create VolumeExample.fs ltac:(by vm_compute) VolumeExample.machine DirExample.root OpsExample.extents [98]
    DirExample.root_entries).
  - apply VolumeExample.volume.
  - by vm_compute.
  - apply OpsExample.root_ok.
  - by vm_compute.
  - by vm_compute.
  - by apply bytes_check.
Defined.

Lemma ext4_created_file_reads_back_witness :
  (runs (create_write_read VolumeExample.fs DirExample.root [98] [1; 2; 3]) VolumeExample.machine None VolumeExample.machine ∧
     (no_room VolumeExample.fs (disk VolumeExample.machine) OpsExample.extents 1024 12 ∨
      ∀ i, ¬ inode_available VolumeExample.fs (disk VolumeExample.machine) i)) ∨
  ∃ ino k d', runs (create_write_read VolumeExample.fs DirExample.root [98] [1; 2; 3]) VolumeExample.machine
      (Some (k, sub 0 k [1; 2; 3])) (set_disk d' VolumeExample.machine) ∧ 0 ≤ k ≤ 3 ∧
    file_made VolumeExample.fs (disk VolumeExample.machine) DirExample.root OpsExample.extents DirExample.root_entries [98] ino k 3 d'.
Proof.
  apply (ext4_created_file_reads_back VolumeExample.fs ltac:(by vm_compute) VolumeExample.machine DirExample.root
    OpsExample.extents [98] DirExample.root_entries [1; 2; 3]).
  - apply VolumeExample.volume.
  - by vm_compute.
  - apply OpsExample.root_ok.
  - by vm_compute.
  - by vm_compute.
  - by apply bytes_check.
  - by vm_compute.
  - by apply bytes_check.
  - by vm_compute.
Defined.

(** On that volume there is room for the file. *)
Example example_file : match create_write_read VolumeExample.fs DirExample.root [98] [1; 2; 3] VolumeExample.machine with
  | Ok (r, _) => r = Some (3, [1; 2; 3]) | _ => False end.
Proof. vm_compute. reflexivity. Qed.
End Ext4DirOps.
