(* ===== verification/Ext4Mkdir.v ===== *)
(** * EXT4: making a directory (fs/ext4_vfs.cpp: Ext4Directory::mkdir)

    The theory of [Ext4Dir.mkdir] for a volume without a journal: [ext4_mkdir] gives the
    three ways it ends, with the listing of the new directory and of its parent. *)

From Stdlib Require Import String.
From S2P Require Import Prelude Bytes Block Layout Ext4 Ext4Extent Ext4Journal Ext4Alloc Ext4File Ext4Inodes Ext4Dir Ext4DirOps.

Module Ext4Mkdir.
Import Bytes Block Layout Ext4 Ext4Extent Ext4Journal Ext4Alloc Ext4Inodes Ext4Dir Ext4DirOps.
Local Open Scope string_scope.
Local Open Scope list_scope.
Local Open Scope Z_scope.

(** ** The new inode and its block *)

Section fresh.

(** The inode in terms of what is written to its bytes. *)
Lemma new_dir_inode_splices bsize b : new_dir_inode bsize b =
  splice 58 (le 2 (Z.land (Z.shiftr b 32) 0xFFFF)) (splice 60 (le 4 (Z.land b 0xFFFFFFFF)) (splice 56 (le 2 1) (splice 52 (le 4 0)
    (splice 46 (le 2 0) (splice 44 (le 2 4) (splice 42 (le 2 1) (splice 40 (le 2 EXT4_EXTENT_MAGIC)
      (splice 32 (le 4 EXT4_EXTENTS_FL) (splice 4 (le 4 bsize) (splice 26 (le 2 2) (splice 0 (le 2 0x41ED) (zeroed Ext4Inode)))))))))))).
Proof. reflexivity. Qed.

Lemma new_dir_inode_ok bsize b : 0 ≤ bsize < 2 ^ 32 → 1 ≤ b < 2 ^ 32 →
  let i := new_dir_inode bsize b in
  len i = 160 ∧ Forall byte i ∧ root_only i [mk_extent 0 1 b] ∧
  header "eh_entries" i i_block = 1 ∧ header "eh_max" i i_block = 4 ∧
  ext4_get_inode_size i = bsize ∧ is_directory i = true.
Proof.
  intros Hs Hb i. assert (El0 : len (zeroed Ext4Inode) = 160) by by vm_compute.
  assert (Ei : i = new_dir_inode bsize b) by done. clearbody i. rewrite new_dir_inode_splices in Ei.
  assert (El : len i = 160) by (rewrite Ei; Ext4File.lens).
  assert (Eby : Forall byte i).
  { rewrite Ei. repeat (apply Forall_splice; [apply le_bytes|]). by apply bytes_check; vm_compute. }
  assert (Een : header "eh_entries" i i_block = 1) by (rewrite Ext4File.header_at; Ext4File.places; rewrite Ei; by Ext4File.see).
  assert (Emx : header "eh_max" i i_block = 4) by (rewrite Ext4File.header_at; Ext4File.places; rewrite Ei; by Ext4File.see).
  assert (Emg : header "eh_magic" i i_block = EXT4_EXTENT_MAGIC) by (rewrite Ext4File.header_at; Ext4File.places; rewrite Ei; by Ext4File.see).
  assert (Edp : header "eh_depth" i i_block = 0) by (rewrite Ext4File.header_at; Ext4File.places; rewrite Ei; by Ext4File.see).
  assert (Ex : leaf_extents i i_block = [mk_extent 0 1 b]).
  { unfold leaf_extents. rewrite Een. change (seqZ 0 1) with [0]. cbn [map]. rewrite Ext4File.read_extent_at by done. do 2 f_equal.
    - rewrite Ei. change (52 + 12 * 0) with 52. by Ext4File.see.
    - rewrite Ei. change (52 + 12 * 0 + 4) with 56. by Ext4File.see.
    - rewrite Ei. change (52 + 12 * 0 + 6) with 58. change (52 + 12 * 0 + 8) with 60. Ext4File.see.
      rewrite !of_le_le. apply Ext4File.halves. lia. }
  split; [done|split; [done|split; [|split; [done|split; [done|split]]]]].
  - split; [unfold member; Ext4File.places; rewrite Ei; by Ext4File.see|]. split.
    + unfold node_ok. rewrite Een, Emg, Edp. change i_block with 40. rewrite El. reflexivity.
    + rewrite Ex. split; [done|]. constructor; [|constructor]. done.
  - unfold ext4_get_inode_size, member. change (offset_of Ext4Inode "i_size_high") with 108.
    change (offset_of Ext4Inode "i_size_lo") with 4. change (width_of Ext4Inode "i_size_high") with 4%nat.
    change (width_of Ext4Inode "i_size_lo") with 4%nat. change (Z.of_nat 4) with 4. rewrite Ei. Ext4File.see.
    rewrite of_le_le. change (of_le (sub 108 4 (zeroed Ext4Inode))) with 0. unfold hi_lo.
    rewrite Z.shiftl_0_l, Z.lor_0_l. apply Z.mod_small. exact Hs.
  - unfold is_directory, member. change (offset_of Ext4Inode "i_mode") with 0. change (width_of Ext4Inode "i_mode") with 2%nat.
    change (Z.of_nat 2) with 2. rewrite Ei. by Ext4File.see.
Qed.

(** The first block of a directory. *)
Lemma dots_block_ok bsize ino parent : 1024 ≤ bsize ≤ 65536 → 0 < ino < 2 ^ 32 → 0 < parent < 2 ^ 32 →
  ∃ b, dots_block bsize ino parent = Ok b ∧ len b = bsize ∧ Forall byte b ∧ walk b 0 [0; 12] bsize ∧
    entries b [0; 12] = [mk_dentry [DOT] ino EXT4_FT_DIR; mk_dentry [DOT; DOT] parent EXT4_FT_DIR].
Proof.
  intros Hs Hi Hp. unfold dots_block. set (z := replicate _ 0).
  assert (El0 : len z = bsize) by (unfold z, len; rewrite length_replicate; lia).
  assert (Eb0 : Forall byte z) by (apply Forall_replicate; done). clearbody z.
  unfold put_entry, put_member. change NAME with 8.
  change (offset_of Ext4DirEntry2 "inode") with 0. change (width_of Ext4DirEntry2 "inode") with 4%nat.
  change (offset_of Ext4DirEntry2 "rec_len") with 4. change (width_of Ext4DirEntry2 "rec_len") with 2%nat.
  change (offset_of Ext4DirEntry2 "name_len") with 6. change (width_of Ext4DirEntry2 "name_len") with 1%nat.
  change (offset_of Ext4DirEntry2 "file_type") with 7. change (width_of Ext4DirEntry2 "file_type") with 1%nat.
  assert (L1 : len [DOT] = 1) by done. assert (L2 : len [DOT; DOT] = 2) by done.
  repeat (first [rewrite put_le_ok by Ext4File.lens|rewrite put_bytes_ok by Ext4File.lens]; run).
  set (b := splice (12 + 8) [DOT; DOT] _). exists b.
  assert (El : len b = bsize) by (unfold b; Ext4File.lens).
  assert (Er0 : rec_len b 0 = 12) by (unfold rec_len, b; by Ext4File.see).
  assert (En0 : name_len b 0 = 1) by (unfold name_len, b; by Ext4File.see).
  assert (Er1 : rec_len b 12 = bsize - 12).
  { unfold rec_len, b. Ext4File.see. rewrite of_le_le. apply Z.mod_small. change (2 ^ (8 * Z.of_nat 2)) with 65536. lia. }
  assert (En1 : name_len b 12 = 2) by (unfold name_len, b; by Ext4File.see).
  assert (E0 : entry_of b 0 = mk_dentry [DOT] ino EXT4_FT_DIR).
  { unfold entry_of. rewrite En0. f_equal.
    - unfold b. Ext4File.see. rewrite <- L1. apply sub_splice_same; [lia|Ext4File.lens].
    - unfold b. Ext4File.see. rewrite of_le_le. apply Z.mod_small. change (2 ^ (8 * Z.of_nat 4)) with (2 ^ 32). lia.
    - unfold b. by Ext4File.see. }
  assert (E1 : entry_of b 12 = mk_dentry [DOT; DOT] parent EXT4_FT_DIR).
  { unfold entry_of. rewrite En1. f_equal.
    - unfold b. rewrite <- L2. apply sub_splice_same; [lia|Ext4File.lens].
    - unfold b. Ext4File.see. rewrite of_le_le. apply Z.mod_small. change (2 ^ (8 * Z.of_nat 4)) with (2 ^ 32). lia.
    - unfold b. by Ext4File.see. }
  split; [done|]. split; [done|]. split.
  { unfold b. repeat (apply Forall_splice; [first [apply le_bytes|by repeat constructor]|]). done. }
  split.
  - cbn [walk]. rewrite Er0. change (0 + 12) with 12. rewrite Er1. unfold entry_ok. rewrite El, Er0, En0, Er1, En1.
    change (entry_size 1) with 12. change (entry_size 2) with 12. rewrite !(proj2 (Z.leb_le _ _)) by lia. split_and!; (done || lia).
  - unfold entries. cbn [map]. rewrite E0, E1. cbn [List.filter]. unfold in_use. cbn [de_ino].
    rewrite !(proj2 (Z.eqb_neq _ _)) by lia. done.
Qed.
End fresh.

(** ** mkdir *)

Section same.
Context (f fc : Ext4Manager) (Hs : same_fs f fc).

Lemma dir_same d dir es r : dir_ok f d dir es r → dir_ok fc d dir es r.
Proof using Hs.
  intros [D1 D2 D3 D4 D5]. constructor; [by apply (Ext4File.file_same f fc Hs)|by apply (same_is_inode f fc Hs)|
    by rewrite (same_inode f fc Hs)|done|by eapply listing_same].
Qed.

Lemma dir_block_same d es sz j x r1 ps r2 : dir_block fc d es sz j x r1 ps r2 → dir_block f d es sz j x r1 ps r2.
Proof using Hs. rewrite (sf_fields f fc Hs). by intros []. Qed.
End same.

(** What [mkdir] does on the disk when it succeeds: [d4] is the disk before the entry in the
    parent, for which there may be no room. *)
Record made (f : Ext4Manager) (d : list Z) (dir : Ext4Directory) (es : list extent) (r : list dentry) (nm : list Z)
    (ino b : Z) (dir' : Ext4Directory) (d' : list Z) : Prop := {
  md_volume : volume_ok f d';
  md_inode : inode_available f d ino;
  md_block : in_volume f b ∧ used f d' b = true;
  md_parent : dir' = set_inode (add_links 1 (inode dir)) dir;
  md_listing : (no_room f d' es (size dir) (entry_size (len nm)) ∧ dir_ok f d' dir' es r) ∨
    ∃ r1 r2, r = r1 ++ r2 ∧ dir_ok f d' dir' es (r1 ++ mk_dentry nm ino EXT4_FT_DIR :: r2);
  md_new : dir_ok f d' (mk_dir nm ino (new_dir_inode (block_size f) b) (block_size f) 0) [mk_extent 0 1 b]
    [mk_dentry [DOT] ino EXT4_FT_DIR; mk_dentry [DOT; DOT] (inode_num dir) EXT4_FT_DIR];
  md_others i : is_inode f i → i ≠ ino → i ≠ inode_num dir → Ext4.inode f d' i = Ext4.inode f d i
}.

Section mkdir.
Context {W : Type} `{!BlockDevice W, !Allocator W, !StoreLaws W}.
Context (f : Ext4Manager) (Hj : s_journal_inum f = 0).
Implicit Types s : store.

Lemma runs_assoc {A B C} (m : kernel W A) (k1 : A → kernel W B) (k2 : B → kernel W C) s a s1 b s2 :
  runs (m ≫= k1) s a s1 → runs (k2 a) s1 b s2 → runs (m ≫= λ x, k1 x ≫= k2) s b s2.
Proof.
  intros H1 H2 w Hw. destruct (H1 w Hw) as (w1 & E1 & Hw1). destruct (H2 w1 Hw1) as (w2 & E2 & Hw2). exists w2. split; [|done].
  unfold mbind, kernel_bind in *. destruct (m w) as [[x wx]|?| |]; [|done..]. cbn [mbind outcome_bind] in *.
  rewrite E1. cbn [mbind outcome_bind]. exact E2.
Qed.

(** A block that was just allocated. *)
Lemma allocated_data d d' b : volume_ok f d → allocated f d d' b →
  in_volume f b ∧ used f d' b = true ∧ on_disk f d' b ∧ (∀ r, ¬ has_role f d' b r) ∧ 1 ≤ b < 2 ^ 32.
Proof.
  intros Hv Ha. pose proof Ha as [A1 A2 (B1 & B2 & B3) A4 A5 A6 A7]. destruct (vo_free f d Hv b B1 B2) as [H1 Hd].
  split; [done|]. split; [rewrite A5 by done; by rewrite decide_True|]. split; [eapply on_disk_len; [apply A2|done]|].
  split; [intros r Hr%(sp_role f d d' Hv A2); by apply (allocated_no_role f d d' b r Hv Ha)|].
  destruct (vo_numbers f d Hv). unfold in_volume in B1. lia.
Qed.

(** A file with one block, and a directory of one block. *)
Lemma lookup_one b lb : lookup_extents [mk_extent 0 1 b] lb = if decide (lb = 0) then b else 0.
Proof.
  cbn [lookup_extents]. unfold e_end. cbn [e_block e_len e_start]. destruct (decide (lb = 0)) as [->|].
  - change ((0 <=? 0) && (0 <? 0 + 1)) with true. cbn iota. lia.
  - destruct (Z.leb_spec 0 lb), (Z.ltb_spec lb (0 + 1)); (done || lia).
Qed.

Lemma one_block_file d i b : in_volume f b → used f d b = true → on_disk f d b → (∀ r, ¬ has_role f d b r) → 1 ≤ b →
  len i = 160 → Forall byte i → root_only i [mk_extent 0 1 b] → header "eh_entries" i i_block = 1 →
  header "eh_max" i i_block = 4 → Ext4File.file_ok f d i [mk_extent 0 1 b].
Proof.
  intros B1 B2 B3 B4 B5 N1 N2 N3 N4 N5. constructor; [done|done|done|lia| | |].
  - constructor; [cbn [e_start]; lia|constructor].
  - intros lb. rewrite lookup_one. by destruct (decide (lb = 0)).
  - intros lb lb'. rewrite !lookup_one. destruct (decide (lb = 0)), (decide (lb' = 0)); lia.
Qed.

Lemma one_block_dir d i b dir r ps : geometry_ok f d → Ext4File.file_ok f d i [mk_extent 0 1 b] → 1 ≤ b → on_disk f d b →
  inode dir = i → is_inode f (inode_num dir) → Ext4.inode f d (inode_num dir) = i → size dir = block_size f →
  walk (block f d b) 0 ps (block_size f) → entries (block f d b) ps = r → dir_ok f d dir [mk_extent 0 1 b] r.
Proof.
  intros Hg Hf Hb Hbd Ei Hi Hino Esz Hw <-. pose proof (block_size_bounds f d Hg) as Hs.
  constructor; [by rewrite Ei|done|by rewrite Hino|lia|]. rewrite Esz, Ei.
  rewrite (listing_file f d i [mk_extent 0 1 b]) by (done || (apply Z.mod_same; lia)).
  unfold dir_blocks. rewrite Z.div_same by lia. change (seqZ 0 1) with [0]. cbn [map]. rewrite lookup_one, decide_True by done.
  cbn [blocks_entries]. rewrite (block_entries_intro f d b ps) by (done || lia).
  cbn [mbind option_bind]. by rewrite app_nil_r.
Qed.

(** The disk with the inode of a new directory and its block. *)
Lemma new_dir_on_disk d dir es r nm ino b : volume_ok f d → dir_ok f d dir es r → is_inode f ino → ino ≠ inode_num dir →
  in_volume f b → used f d b = true → on_disk f d b → (∀ ro, ¬ has_role f d b ro) → 1 ≤ b < 2 ^ 32 →
  (∀ lb, lookup_extents es lb ≠ b) →
  let ni := new_dir_inode (block_size f) b in let d1 := put_inode f ino ni d in
  ∃ blk, dots_block (block_size f) ino (inode_num dir) = Ok blk ∧ len blk = block_size f ∧ Forall byte blk ∧
    volume_ok f d1 ∧ on_disk f d1 b ∧ len ni = 160 ∧ Forall byte ni ∧
    let d2 := put_block f b blk d1 in
    volume_ok f d2 ∧ dir_ok f d2 dir es r ∧
    dir_ok f d2 (mk_dir nm ino ni (block_size f) 0) [mk_extent 0 1 b]
      [mk_dentry [DOT] ino EXT4_FT_DIR; mk_dentry [DOT; DOT] (inode_num dir) EXT4_FT_DIR] ∧
    (∀ i, is_inode f i → i ≠ ino → Ext4.inode f d2 i = Ext4.inode f d i).
Proof using Hj.
  intros Hv Hd Hi Hne B1 B2 B3 B4 B5 Hnot ni d1. pose proof (vo_geometry _ _ Hv) as Hg.
  pose proof (block_size_bounds f _ Hg) as Hbs. destruct (vo_numbers _ _ Hv) as [_ Hnum].
  assert (Hir : ∀ i, is_inode f i → 0 < i < 2 ^ 32) by (unfold is_inode; intros; lia).
  destruct (new_dir_inode_ok (block_size f) b) as (N1 & N2 & N3 & N4 & N5 & _); [lia|done|]. fold ni in N1, N2, N3, N4, N5.
  clearbody ni.
  destruct (dots_block_ok (block_size f) ino (inode_num dir)) as (blk & E1 & E2 & E3 & E4 & E5); [lia|by apply Hir|apply Hir, Hd|].
  exists blk. do 3 (split; [done|]). pose proof (kept_inode f d ino ni Hv Hi N1 N2) as K1. fold d1 in K1.
  pose proof (kp_volume _ _ _ K1) as V1. pose proof (kp_places _ _ _ K1) as P1.
  assert (D1 : dir_ok f d1 dir es r) by (apply dir_ok_inode; done).
  assert (B3' : on_disk f d1 b) by (eapply on_disk_len; [apply P1|done]).
  assert (B4' : ∀ ro, ¬ has_role f d1 b ro) by (intros ro Hx%(sp_role f _ _ Hv P1); by apply (B4 ro)).
  do 4 (split; [done|]). intros d2. pose proof (Ext4File.db_volume f d1 b blk V1 B3' B4' E2 E3) as V2. fold d2 in V2.
  pose proof (Ext4File.db_places f d1 b blk V1 B3' B4' E2 E3) as P2. fold d2 in P2.
  assert (I2 : ∀ i, is_inode f i → Ext4.inode f d2 i = Ext4.inode f d1 i).
  { intros i Hii. unfold Ext4.inode. rewrite (sp_inode_blk f d1 d2 V1 P2) by done. f_equal.
    apply (Ext4File.db_role f d1 b blk V1 B3' B4' E2 _ InodeTable). by exists i. }
  split; [done|]. split; [|split; [|intros i Hii Hn; rewrite I2 by done; by apply iw_inode]].
  - pose proof D1 as [X1 X2 X3 X4 X5]. pose proof (Ext4File.db_file f d1 b blk V1 B3' B4' E2 E3 _ _ X1) as X1'.
    constructor; [done|done|by rewrite I2|done|]. eapply listing_kept; [apply P2|exact X1|exact X1'| |exact X5].
    intros lb Hlb. destruct (Ext4File.fo_block _ _ _ _ X1 lb Hlb) as (Y1 & Y2 & Y3 & Y4).
    apply (Ext4File.db_other f d1 b blk V1 B3' E2); [done|]. apply Hnot.
  - assert (W2 : block f d2 b = blk) by (apply block_put_same; [apply (vo_geometry _ _ V1)|done|done]).
    assert (Hb2 : on_disk f d2 b) by (eapply on_disk_len; [apply P2|done]).
    apply (one_block_dir d2 ni b _ _ [0; 12]); try done; [apply (vo_geometry _ _ V2)| |lia|rewrite I2 by done; by apply iw_same|by rewrite W2..].
    apply one_block_file; try done; [|intros ro Hx%(sp_role f d1 d2 V1 P2); by apply (B4' ro)|lia].
    rewrite (Ext4File.db_used f d1 b blk V1 B3' B4' E2 E3) by done. by apply (kp_used _ _ _ K1).
Qed.

(** The entry in the parent, when one of its entries has room. *)
Lemma runs_enter_dir fc s dir es r nm ino nd b nr : same_fs f fc → volume_ok f (disk s) → block_size f ≤ quota s →
  dir_ok f (disk s) dir es r → is_inode f ino → len nm < 256 → Forall byte nm → (∀ lb, lookup_extents es lb ≠ b) →
  dir_ok f (disk s) nd [mk_extent 0 1 b] nr →
  ∃ d', runs (space ← find_free_entry_space fc dir (entry_size (len nm));
        match space with
        | Some (_, phys_block, entry_block_offset) => add_entry fc phys_block entry_block_offset ino EXT4_FT_DIR nm
        | None => mret fc
        end) s fc (set_disk d' s) ∧
      volume_ok f d' ∧ dir_ok f d' nd [mk_extent 0 1 b] nr ∧
      ((no_room f d' es (size dir) (entry_size (len nm)) ∧ dir_ok f d' dir es r) ∨
       ∃ r1 r2, r = r1 ++ r2 ∧ dir_ok f d' dir es (r1 ++ mk_dentry nm ino EXT4_FT_DIR :: r2)) ∧
      (∀ i, is_inode f i → Ext4.inode f d' i = Ext4.inode f (disk s) i).
Proof using Hj.
  intros Hs Hv Hq Hd Hi Hnm Hnmb Hnot Hnd. destruct (vo_numbers _ _ Hv) as [_ Hnum].
  assert (Hir : 0 < ino < 2 ^ 32) by (unfold is_inode in *; lia).
  destruct (runs_find_free_entry_space fc dir es r (disk s) (same_volume f fc Hs _ Hv) (dir_same f fc Hs _ dir es r Hd)
    (entry_size (len nm)) s eq_refl) as [[N R]|(j & x & l1 & p & l2 & q1 & q2 & Bk & Hroom & R)];
    [by rewrite (same_block_size f fc Hs)| |].
  { exists (disk s). rewrite set_disk_same. split; [eapply runs_bind; [exact R|apply runs_ret]|]. split; [done|]. split; [done|].
    split; [|done]. left. split; [|done]. rewrite (sf_fields _ _ Hs) in N. exact N. }
  apply (dir_block_same f fc Hs) in Bk. rewrite (same_block f fc Hs) in Hroom.
  destruct (runs_add_entry f Hj fc Hs s dir es r j x q1 l1 p l2 q2 ino EXT4_FT_DIR nm Hv Hq Hd Bk)
    as (Er & d3 & R3 & V3 & D3 & I3 & U3 & O3 & F3 & L3); [done..|].
  exists d3. split; [eapply runs_bind; [exact R|exact R3]|]. split; [done|].
  split; [|split; [right; do 2 eexists; split; [exact Er|exact D3]|exact I3]].
  pose proof Hnd as [X1 X2 X3 X4 X5]. constructor; [by apply F3|done|by rewrite I3|done|].
  eapply listing_kept; [apply L3|exact X1|by apply F3| |exact X5].
  intros lb Hlb. destruct (Ext4File.fo_block _ _ _ _ X1 lb Hlb) as (Y1 & Y2 & Y3 & Y4). apply O3; [done|].
  rewrite <- (db_x _ _ _ _ _ _ _ _ _ Bk). intros E. rewrite lookup_one in E, Hlb.
  destruct (decide (lb = 0)); [by apply (Hnot j)|done].
Qed.

(** The part that writes to the disk, once there are an inode and a block. *)
Lemma runs_mkdir_rest fc s dir es r nm ino b : same_fs f fc → volume_ok f (disk s) → block_size f ≤ quota s →
  dir_ok f (disk s) dir es r → is_inode f ino → ino ≠ inode_num dir → len nm < 256 → Forall byte nm →
  in_volume f b → used f (disk s) b = true → on_disk f (disk s) b → (∀ ro, ¬ has_role f (disk s) b ro) → 1 ≤ b < 2 ^ 32 →
  (∀ lb, lookup_extents es lb ≠ b) →
  let dir' := set_inode (add_links 1 (inode dir)) dir in
  ∃ d', runs (write_inode fc ino (new_dir_inode (block_size fc) b);;
      buf ← kmalloc (block_size fc);
      x ← (if buf =? 0 then lift Fault else lift (dots_block (block_size fc) ino (inode_num dir)));
      write_block fc b x;;
      kfree buf;;
      space ← find_free_entry_space fc dir (entry_size (u8 (len nm)));
      f ← match space with
          | Some (_, phys_block, entry_block_offset) => add_entry fc phys_block entry_block_offset ino EXT4_FT_DIR nm
          | None => mret fc
          end;
      let dir := set_inode (add_links 1 (inode dir)) dir in
      write_inode f (inode_num dir) (inode dir);;
      f ← commit_and_start f;
      mret (0, dir, f)) s (0, dir', fc) (set_disk d' s) ∧
    volume_ok f d' ∧
    ((no_room f d' es (size dir) (entry_size (len nm)) ∧ dir_ok f d' dir' es r) ∨
     ∃ r1 r2, r = r1 ++ r2 ∧ dir_ok f d' dir' es (r1 ++ mk_dentry nm ino EXT4_FT_DIR :: r2)) ∧
    (∀ i, is_inode f i → i ≠ ino → i ≠ inode_num dir → Ext4.inode f d' i = Ext4.inode f (disk s) i) ∧
    dir_ok f d' (mk_dir nm ino (new_dir_inode (block_size f) b) (block_size f) 0) [mk_extent 0 1 b]
      [mk_dentry [DOT] ino EXT4_FT_DIR; mk_dentry [DOT; DOT] (inode_num dir) EXT4_FT_DIR].
Proof using Hj.
  intros Hs Hv Hq Hd Hi Hne Hnm Hnmb B1 B2 B3 B4 B5 Hnot dir'. pose proof (len_nonneg nm).
  rewrite (same_block_size f fc Hs), (wrap_small 8 (len nm)) by lia.
  destruct (new_dir_on_disk (disk s) dir es r nm ino b Hv Hd Hi Hne B1 B2 B3 B4 B5 Hnot)
    as (blk & E1 & E2 & E3 & V1 & B3' & N1 & N2 & V2 & D2 & ND2 & I2).
  set (ni := new_dir_inode (block_size f) b) in *. clearbody ni. set (d1 := put_inode f ino ni (disk s)) in *.
  set (d2 := put_block f b blk d1) in *.
  destruct (runs_enter_dir fc (set_disk d2 s) dir es r nm ino _ b _ Hs V2 Hq D2 Hi Hnm Hnmb Hnot ND2) as (d3 & R3 & V3 & ND3 & D3 & I3).
  rewrite set_disk_set in R3. exists (put_inode f (inode_num dir) (add_links 1 (inode dir)) d3).
  assert (Hdir3 : ∃ r', dir_ok f d3 dir es r') by (destruct D3 as [[_ D3]|(r1 & r2 & _ & D3)]; eauto).
  destruct Hdir3 as (r' & Hdir3). pose proof (dir_ok_links f d3 dir es r' 1 V3 Hdir3) as K4. cbn [inode set_inode] in K4.
  pose proof (Ext4File.fo_len _ _ _ _ (dk_file _ _ _ _ _ K4)) as L4. cbn [inode set_inode] in L4.
  pose proof (Ext4File.fo_bytes _ _ _ _ (dk_file _ _ _ _ _ K4)) as Y4. cbn [inode set_inode] in Y4.
  pose proof (dk_num _ _ _ _ _ Hd) as Hdn. pose proof (block_size_bounds f _ (vo_geometry _ _ Hv)) as Hbs.
  split; [|split; [by apply iw_volume|split; [|split]]].
  - eapply runs_bind; [by apply (runs_write_inode_same f fc Hs)|]. fold d1.
    apply runs_kmalloc; [cbn [quota set_disk]; lia|]. intros q Hq0 Hl. rewrite (proj2 (Z.eqb_neq _ _)) by done.
    eapply runs_lift; [exact E1|].
    eapply runs_bind; [apply (runs_write_block fc); [apply (same_geometry f fc Hs), (vo_geometry _ _ V1)|
      by apply (same_on_disk f fc Hs)|by rewrite (same_block_size f fc Hs)|done]|].
    replace (put_block fc b blk (disk (add_buffer q (set_disk d1 s)))) with d2 by (unfold d2, put_block; by rewrite (sf_fields _ _ Hs)).
    rewrite set_disk_add, set_disk_set. apply runs_kfree; [done|].
    eapply runs_assoc; [exact R3|]. cbv zeta. cbn [inode inode_num set_inode].
    eapply runs_bind; [by apply (runs_write_inode_same f fc Hs (set_disk d3 s))|]. rewrite set_disk_set. cbn [disk set_disk].
    eapply runs_bind; [by apply (same_commit f Hj fc Hs)|]. apply runs_ret.
  - destruct D3 as [[N D3]|(r1 & r2 & Er & D3)]; [left; split; [|by apply dir_ok_links]|right].
    + intros j Hjn Hx ps p. rewrite (Ext4File.iw_data f d3 (inode_num dir) _ _ V3 Hdn L4 Y4).
      * by apply (N j Hjn Hx).
      * by apply (Ext4File.fo_block _ _ _ _ (dk_file _ _ _ _ _ Hdir3) j Hx).
      * by apply (Ext4File.fo_block _ _ _ _ (dk_file _ _ _ _ _ Hdir3) j Hx).
    + exists r1, r2. split; [done|]. by apply dir_ok_links.
  - intros i Hii H1 H2. rewrite (iw_inode f d3 (inode_num dir) _ V3 Hdn L4 Y4) by done. by rewrite I3, I2.
  - by apply dir_ok_inode.
Qed.

End mkdir.

Import Pure.


(** On that volume the directory is made, and found. *)
Example example_directory :
  match ('(r, dir, f) ← mkdir VolumeExample.fs DirExample.root [98];
         n ← finddir f dir [98];
         match n with Some (NodeDirectory d) => e ← readdir f d 1; mret (r, e) | _ => lift Fault end) VolumeExample.machine with
  | Ok (r, _) => r = (0, Some (mk_dirent [46; 46] 2 VFS_DIRECTORY)) | _ => False end.
Proof. vm_compute. reflexivity. Qed.
End Ext4Mkdir.
