(* ===== verification/Shell.v ===== *)
(** * The shell: commands (kernel/shell.cpp)

    A command line is split into a word and arguments; the word selects one of 24
    commands or is the path of a program.  Commands call the virtual file system,
    the threads, the loader and the memory managers, or, when the code runs in
    user mode, the system calls.  All of these are interfaces here: [VirtualNode]
    and [NodeFields] as elsewhere, [Screen], [Tasks], [Memory] and [SystemCalls].

    Strings are lists of characters without the null; a local array has a size,
    and a string that does not fit is a fault.  The theorems: paths fit their
    buffers and denote what the user means, lines are split into words, what
    [cat], [cd] and [echo] do, and where the text of the working directory and
    its node part. *)

From Stdlib Require Import String.
From S2P Require Import Prelude LibcString LibcStdlib Paging Heap Vga Stdio Bytes Block Vfs Syscall.

Module Shell.
Import Bytes Block Vfs.
#[local] Close Scope string_scope.
#[local] Open Scope list_scope.
#[local] Abbreviation length := List.length.
#[local] Abbreviation chars := LibcStdlib.chars.

(** ** What the shell calls *)

(** The console: the terminal and, for the cursor, the serial port. *)
Class Screen (W : Type) := {
  putchar : Z → kernel W unit;
  terminal_setcolor : Vga.vga_color_t → kernel W unit;
  terminal_clear : kernel W unit;
  terminal_move_cursor : Z → kernel W unit;
  serial_move_cursor : Z → kernel W unit;
  keyboard_getchar : kernel W Z
}.

(** Threads and programs. *)
Class Tasks (W : Type) := {
  current_id : W → option Z;
  thread_exists : Z → W → bool;                       (** [thread_get_by_id(id) != nullptr] *)
  thread_sleep : Z → kernel W unit;
  thread_kill : Z → kernel W bool;
  thread_get_id_by_name : list Z → W → Z;
  thread_print_list : kernel W unit;
  timer_get_ticks : W → Z;
  kex_load : list Z → list (list Z) → kernel W Z
}.

(** Frames, pages, the heap and bytes of memory. *)
Class Memory (W : Type) := {
  pfa_alloc_frame : kernel W Z;
  pfa_free_frame : Z → kernel W unit;
  paging_map_page : Z → Z → Z → kernel W unit;
  paging_unmap_page : Z → kernel W unit;
  paging_get_physical_address : Z → kernel W Z;
  paging_get_stats : W → Paging.paging_stats;
  kheap_get_stats : kernel W Heap.heap_stats;
  get_kheap_start : W → Z;
  get_total_allocated : W → Z;
  peek : Z → W → outcome Z
}.

(** The system calls of [include/libc/sys/syscall.h] that the shell makes.  A
    pointer to a string or a structure is given by what it points to; the second
    component of the answer is what the call stores through a pointer. *)
Inductive call : Set :=
| SYS_READ (fd n : Z)
| SYS_WRITE (fd : Z) (bs : list Z)
| SYS_OPEN (path : list Z) (flags : Z)
| SYS_CLOSE (fd : Z)
| SYS_MKDIR (path : list Z) (mode : Z)
| SYS_UPTIME
| SYS_UNLINK (path : list Z)
| SYS_READDIR (fd index : Z)
| SYS_STAT (path : list Z)
| SYS_GETPID
| SYS_SLEEP (ms : Z)
| SYS_KILL (ptr : Z)
| SYS_EXIT
| SYS_VGA (cmd a b : Z)
| SYS_REBOOT
| SYS_PS.

(** What [SYS_READDIR] and [SYS_STAT] store, read back. *)
Record user_stat : Set := mk_stat { st_size : Z; st_ino : Z; st_mode : Z }.

Inductive stored : Set :=
| Nothing
| Bytes_read (bs : list Z)
| Dirent (de : vfs_dirent)
| Stat (st : user_stat).

Class SystemCalls (W : Type) := {
  is_user_mode : W → bool;                            (** the privilege level in CS *)
  syscall : call → kernel W (Z * stored);
  set_cwd_node : Z → W → W;
  outb : Z → Z → kernel W unit
}.

Definition VFS_FILE : Z := 1.
Definition VFS_DIRECTORY : Z := 2.
Definition O_CREAT : Z := 1.
Definition THREAD_NOT_FOUND : Z := 2 ^ 32 - 1.
Definition THREAD_AMBIGUOUS : Z := 2 ^ 32 - 2.

Definition BLACK : Z := 0.
Definition RED : Z := 4.
Definition LIGHT_BLUE : Z := 9.
Definition LIGHT_GREEN : Z := 10.
Definition LIGHT_CYAN : Z := 11.
Definition LIGHT_RED : Z := 12.
Definition WHITE : Z := 15.
Definition on_black (fg : Z) : Vga.vga_color_t := Vga.mk_color fg BLACK.

(** Standard C functions on strings that are given as lists. *)
Definition strcmp_eq (a b : list Z) : bool := bool_decide (a = b).
(** [strncmp(a, b, n) == 0] *)
Definition strncmp_eq (a b : list Z) (n : Z) : bool := bool_decide (take (Z.to_nat n) a = take (Z.to_nat n) b).
Definition atoi (s : list Z) : outcome Z := LibcStdlib.atoi Stdio.BUFFER (LibcString.mem_of Stdio.BUFFER (s ++ [0])).
Definition strtoul (s : list Z) (base : Z) : outcome Z :=
  '(v, _) ← LibcStdlib.strtoul Stdio.BUFFER base (LibcString.mem_of Stdio.BUFFER (s ++ [0])); Ok v.
Definition NL : list Z := [10].

Section shell.
Context {W : Type} `{!VirtualNode W, !Syscall.NodeFields W, !Allocator W}.
Context `{!Screen W, !Tasks W, !Memory W, !SystemCalls W}.

(** ** Output *)

Fixpoint put_all (bs : list Z) : kernel W unit :=
  match bs with [] => mret () | b :: bs' => putchar b;; put_all bs' end.

Definition printf (format : list Z) (args : list Stdio.arg) : kernel W unit :=
  '(out, _) ← lift (Stdio.vprintf format args); put_all out.
(** A string literal without directives and without an argument. *)
Definition print (s : string) : kernel W unit := printf (chars s) [].
Definition println (s : string) : kernel W unit := printf (chars s ++ NL) [].
Definition print_string (s : list Z) : kernel W unit := printf (chars "%s") [Stdio.ArgStr (Some s)].
Definition print_char (c : Z) : kernel W unit := printf (chars "%c") [Stdio.ArgWord c].
(** [args] is the argument of every command below: never null. *)
Definition quoted (before : string) (s : list Z) (after : string) : kernel W unit :=
  printf (chars before ++ chars "%s" ++ chars after ++ NL) [Stdio.ArgStr (Some s)].
Definition word (v : Z) : Stdio.arg := Stdio.ArgWord v.

Definition shell_setcolor (color : Vga.vga_color_t) : kernel W unit :=
  λ w, if is_user_mode w then (syscall (SYS_VGA 1 (Vga.fg color) (Vga.bg color));; mret ()) w
       else terminal_setcolor color w.

Definition shell_clear : kernel W unit :=
  λ w, if is_user_mode w then (syscall (SYS_VGA 0 0 0);; mret ()) w else terminal_clear w.

Definition shell_prompt (cwd : list Z) : kernel W unit :=
  putchar 10;;
  shell_setcolor (on_black LIGHT_BLUE);; print "root@keonOS";;
  shell_setcolor (on_black WHITE);; print ":";;
  shell_setcolor (on_black LIGHT_GREEN);; print_string cwd;;
  shell_setcolor (on_black WHITE);; print "$ ".

(** Does the code run in user mode? *)
Definition user_mode : kernel W bool := λ w, Ok (is_user_mode w, w).
Definition get_cwd_node : kernel W Z := λ w, Ok (cwd_node w, w).
Definition get_vfs_root : kernel W Z := λ w, Ok (vfs_root w, w).
Definition put_cwd_node (n : Z) : kernel W unit := λ w, Ok ((), set_cwd_node n w).
Definition open_path (path : list Z) : kernel W Z := vfs_open (Some path).
Definition close_node (n : Z) : kernel W unit := λ w, w' ← vfs_close n w; Ok ((), w').
Definition type_of (n : Z) : kernel W Z := λ w, t ← Syscall.node_type n w; Ok (t, w).
Definition size_of (n : Z) : kernel W Z := λ w, t ← Syscall.node_size n w; Ok (t, w).
Definition inode_of (n : Z) : kernel W Z := λ w, t ← Syscall.node_inode n w; Ok (t, w).

(** A system call whose stored data is not used. *)
Definition syscall_ (c : call) : kernel W Z := '(r, _) ← syscall c; mret r.
(** [(int)syscall(...)] *)
Definition syscall_int (c : call) : kernel W Z := '(r, _) ← syscall c; mret (signed 32 r).

(** ** Paths *)

(** [out] is an array of 512 characters: [strncpy] of 511 characters does not
    terminate a longer string, and [strcat] writes past the end of a full array. *)
Definition strncpy_511 (s : list Z) : outcome (list Z) := if len s <? 511 then Ok s else Fault.
Definition strcat_512 (a b : list Z) : outcome (list Z) := if len a + len b <? 512 then Ok (a ++ b) else Fault.

Definition resolve_path (cwd arg : list Z) : outcome (list Z) :=
  if match arg with c :: _ => c =? SLASH | [] => false end then strncpy_511 arg
  else
    out ← strncpy_511 cwd;
    out ← (if (0 <? len out) && negb (List.last out 0 =? SLASH) then strcat_512 out [SLASH] else Ok out);
    strcat_512 out arg.

(** ** help, clear, echo, info *)

Definition help_dev : list string := [
  "  testheap   - Stress test the kernel heap allocator";
  "  testpaging - Verify virtual memory mapping/unmapping";
  "  paginginfo - Display physical frame and page table stats";
  "  memstat    - Detailed summary of physical and virtual memory";
  "  dump <hex> - Hexdump 64 bytes starting from memory address"; ""]%string.

Definition help_user : list string := [
  "  help       - Show this help message (use --dev for more)";
  "  info       - Show OS version and system branding";
  "  uptime     - Display time elapsed since boot";
  "  clear      - Clear the terminal screen";
  "  reboot     - Perform a cold system restart";
  "  halt       - Stop all CPU execution safely"; "";
  "  ps         - List all active kernel threads/processes";
  "  pkill <id> - Terminate a thread by ID or Name"; "";
  "  ls <path>  - List directory contents";
  "  cd <path>  - Change current working directory";
  "  cat <file> - Print file contents to standard output";
  "  touch <f>  - Create a new empty file";
  "  rm <f>     - Deletes a file";
  "  mkdir <d>  - Create a new directory";
  "  echo <msg> - Print text or arguments to screen";
  "  sleep <ms> - Sleep for milliseconds";
  "  pid        - Show current Process ID";
  "  stat <f>   - Show file statistics"]%string.

Fixpoint print_lines (ls : list string) : kernel W unit :=
  match ls with [] => mret () | l :: ls' => println l;; print_lines ls' end.

Definition cmd_help (args : list Z) : kernel W unit :=
  if strcmp_eq args (chars "--dev") then
    shell_setcolor (on_black LIGHT_RED);;
    printf (NL ++ chars "--- Developer & Debugging Commands ---" ++ NL) [];;
    shell_setcolor (on_black WHITE);;
    print_lines help_dev
  else
    shell_setcolor (on_black LIGHT_CYAN);;
    printf (NL ++ chars "--- keonOS Available Commands ---" ++ NL) [];;
    shell_setcolor (on_black WHITE);;
    print_lines help_user;;
    printf (NL ++ chars "Tip: Press [TAB] for autocompletion and [UP/DOWN] for history." ++ NL) [].

Definition cmd_clear : kernel W unit := shell_clear.

(** The characters before the first [c] and those behind it. *)
Fixpoint split_at (c : Z) (s : list Z) : option (list Z * list Z) :=
  match s with
  | [] => None
  | x :: s' => if x =? c then Some ([], s') else option_map (prod_map (cons x) id) (split_at c s')
  end.

Fixpoint skip_while (p : Z → bool) (s : list Z) : list Z :=
  match s with [] => [] | x :: s' => if p x then skip_while p s' else s end.
Definition strip_end (p : Z → bool) (s : list Z) : list Z := rev (skip_while p (rev s)).

(** The loop keeps the first character. *)
Definition trim_message (message : list Z) : list Z :=
  match message with [] => [] | c :: m => c :: strip_end LibcStdlib.isspace m end.

Definition GT : Z := 62.

(** The part with [syscall], which is also the code of a shell in user mode. *)
Definition echo_user (full_path filename message : list Z) : kernel W unit :=
  fd ← syscall_int (SYS_OPEN full_path O_CREAT);
  if 0 <=? fd then
    syscall (SYS_WRITE (u64 fd) message);; syscall (SYS_WRITE (u64 fd) NL);; syscall (SYS_CLOSE (u64 fd));; mret ()
  else quoted "echo: cannot write to " filename "".

Definition echo_kernel (full_path filename message : list Z) : kernel W unit :=
  n ← open_path full_path;
  n ← (if n =? 0 then vfs_create (Some full_path) 0 else mret n);
  if n =? 0 then quoted "echo: error while creating file " filename "" else
  off ← size_of n;
  (vfs_write n off message : kernel W Z);;
  off ← size_of n;
  (vfs_write n off NL : kernel W Z);;
  close_node n.

Definition cmd_echo (cwd args : list Z) : kernel W unit :=
  match args with
  | [] => printf NL []
  | _ =>
      match split_at GT args with
      | Some (before, after) =>
          let message := trim_message (take 255 before) in
          let filename := take 127 (skip_while LibcStdlib.isspace after) in
          full_path ← lift (resolve_path cwd filename);
          user ← user_mode;
          if (user : bool) then echo_user full_path filename message else echo_kernel full_path filename message
      | None => print_string (take 255 args);; printf NL []
      end
  end.

Definition OS_VERSION_STRING : string := "keonOS v0.6 ".

Definition cmd_info : kernel W unit :=
  shell_setcolor (on_black LIGHT_BLUE);;
  printf (NL ++ chars "%s" ++ NL) [Stdio.ArgStr (Some (chars OS_VERSION_STRING))];;
  shell_setcolor (on_black WHITE);;
  println "A x86 operating system written in C++ and Assembly";;
  println "Memory: Paging enabled, Kernel Heap active";;
  println "Bootloader: GRUB".

(** ** Memory *)

Definition check (ok : bool) (good bad : string) : kernel W unit := if ok then println good else println bad.

Definition cmd_testheap : kernel W unit :=
  printf (chars "Testing heap allocation..." ++ NL ++ NL) [];;
  ptr1 ← kmalloc 64;
  if ptr1 =? 0 then println "  [-] Allocation failed!" else
  println "  [+] Allocated 64 bytes";;
  ptr2 ← kmalloc 128;
  ptr3 ← kmalloc 256;
  check (negb (ptr2 =? 0) && negb (ptr3 =? 0)) "  [+] Multiple allocations successful" "  [-] Multiple allocations failed!";;
  kfree ptr2;;
  ptr4 ← kmalloc 128;
  check (negb (ptr4 =? 0)) "  [+] Free and reallocate successful" "  [-] Free and reallocate failed!";;
  arr ← kmalloc 40;
  (if negb (arr =? 0) then
     println "  [+] C++ new operator works";; kfree arr;; println "  [+] C++ delete operator works"
   else println "  [-] C++ new operator failed!");;
  kfree ptr1;;
  kfree ptr3;;
  kfree ptr4;;
  shell_setcolor (on_black LIGHT_GREEN);;
  printf (NL ++ chars "Heap test completed!") [];;
  shell_setcolor (on_black WHITE).

(** [(int)((part * 100) / total)], or 0 *)
Definition percent (part total : Z) : Z := if 0 <? total then signed 32 (u64 (part * 100) / total) else 0.

Definition cmd_meminfo : kernel W unit :=
  stats ← kheap_get_stats;
  printf (NL ++ chars " --- Kernel Heap Information --- " ++ NL) [];;
  start ← (λ w, Ok (get_kheap_start w, w));
  let total := Heap.st_total_size stats in
  let used := Heap.st_used_size stats in
  let free := Heap.st_free_size stats in
  printf (chars "Heap Start: 0x%x" ++ NL) [word start];;
  printf (chars "Total Size: %d KB" ++ NL) [word (signed 32 (total / 1024))];;
  printf (chars "Used:       %d KB (%d%%)" ++ NL) [word (signed 32 (used / 1024)); word (percent used total)];;
  printf (chars "Free:       %d KB (%d%%)" ++ NL) [word (signed 32 (free / 1024)); word (percent free total)];;
  printf (chars "Blocks:     Total: %d, Free: %d" ++ NL)
    [word (signed 32 (Heap.st_block_count stats)); word (signed 32 (Heap.st_free_block_count stats))];;
  println "-------------------------------".

Definition cmd_paginginfo : kernel W unit :=
  stats ← (λ w, Ok (paging_get_stats w, w));
  printf (NL ++ chars "--- Paging & Physical Memory ---" ++ NL) [];;
  let total := Paging.st_total_frames stats in
  let used := Paging.st_used_frames stats in
  let free := Paging.st_free_frames stats in
  let total_mb := u32 (u64 (total * 4) / 1024) in
  printf (chars "Total Frames:  %d (%d MB)" ++ NL) [word (signed 32 total); word (signed 32 total_mb)];;
  printf (chars "Used Frames:   %d (%d%%)" ++ NL) [word (signed 32 used); word (percent used total)];;
  printf (chars "Free Frames:   %d (%d%%)" ++ NL) [word (signed 32 free); word (percent free total)];;
  printf (chars "Mapped Pages:  %d" ++ NL) [word (signed 32 (Paging.st_mapped_pages stats))];;
  println "--------------------------------".

Definition TEST_VADDR : Z := 0xE0000000.

Definition cmd_testpaging : kernel W unit :=
  printf (NL ++ chars "--- Testing Paging Functionality ---" ++ NL) [];;
  print " [1] Allocating physical frame... ";;
  frame ← pfa_alloc_frame;
  if frame =? 0 then println "FAILED - Out of memory" else
  printf (chars "OK (Phys: 0x%lx)" ++ NL) [word frame];;
  printf (chars " [2] Mapping virtual page 0x%lx... ") [word TEST_VADDR];;
  paging_map_page TEST_VADDR frame (Z.lor Paging.PTE_PRESENT Paging.PTE_RW);;
  println "OK";;
  print " [3] Verification: ";;
  phys ← paging_get_physical_address TEST_VADDR;
  (if phys =? frame then printf (chars "MATCH (0x%lx == 0x%lx)" ++ NL) [word phys; word frame]
   else
     shell_setcolor (on_black RED);;
     printf (chars "FAILED (Got 0x%lx)" ++ NL) [word phys];;
     shell_setcolor (on_black WHITE));;
  print " [4] Unmapping virtual page... ";;
  paging_unmap_page TEST_VADDR;;
  println "OK";;
  print " [5] Freeing physical frame... ";;
  pfa_free_frame frame;;
  println "OK";;
  shell_setcolor (on_black LIGHT_GREEN);;
  printf (NL ++ chars "[SUCCESS] Paging test completed!" ++ NL) [];;
  shell_setcolor (on_black WHITE).

Definition cmd_memstat : kernel W unit :=
  p_stats ← (λ w, Ok (paging_get_stats w, w));
  virt_heap ← (λ w, Ok (get_total_allocated w, w));
  let total := u64 (Paging.st_total_frames p_stats * 4) in
  printf (NL ++ chars " --- keonOS Memory Statistics ---" ++ NL) [];;
  println "Physical RAM:";;
  printf (chars "    Total: %u KB (%u MB)" ++ NL) [word total; word (total / 1024)];;
  printf (chars "    Used: %u KB" ++ NL) [word (u64 (Paging.st_used_frames p_stats * 4))];;
  printf (chars "    Free: %u KB" ++ NL) [word (u64 (Paging.st_free_frames p_stats * 4))];;
  printf (NL ++ chars "Virtual Kernel Heap:" ++ NL) [];;
  printf (chars "    Current Reservation: %u KB" ++ NL) [word (virt_heap / 1024)];;
  h_stats ← kheap_get_stats;
  printf (chars "    Heap Block: %d" ++ NL) [word (Heap.st_block_count h_stats)];;
  printf (chars "    Heap Free Space: %u KB" ++ NL) [word (Heap.st_free_size h_stats / 1024)];;
  printf (chars "--------------------------------" ++ NL ++ NL) [].

(** The loop over [ptr[i]]. *)
Fixpoint dump_bytes (n : nat) (i ptr : Z) : kernel W unit :=
  match n with
  | O => mret ()
  | S n' =>
      (if (i mod 16 =? 0) && negb (i =? 0) then printf NL [] else mret ());;
      b ← (λ w, b ← peek (ptr + i) w; Ok (b, w));
      printf (chars "%02x ") [word b];;
      dump_bytes n' (i + 1) ptr
  end.

Definition cmd_dump (args : list Z) : kernel W unit :=
  addr ← lift (strtoul args 16);
  printf (chars "Dumping memory at 0x%x:" ++ NL) [word addr];;
  dump_bytes 64 0 addr;;
  printf NL [].

(** ** Threads and the machine *)

(** An endless loop. *)
Definition forever {A} : kernel W A := λ _, OutOfFuel.

(** The triple fault at the end of the reset sequence stops the processor. *)
Definition cmd_reboot : kernel W unit :=
  print "Rebooting system...";;
  user ← user_mode;
  (if (user : bool) then syscall SYS_REBOOT;; mret () else outb 0x64 0xFE;; outb 0xCF9 0x06;; forever);;
  print "Reboot failed! System halted.";;
  forever.

Definition cmd_halt : kernel W unit :=
  println "Halting system...";;
  user ← user_mode;
  if (user : bool) then syscall SYS_EXIT;; mret ()
  else print "System halted. Press Ctrl+Alt+Del to restart.";; forever.

(** In user mode the call gets the number of the thread, where it expects a string. *)
Definition cmd_pkill (args : list Z) : kernel W unit :=
  match args with
  | [] => println "Usage: pkill <thread_id>"
  | c :: _ =>
      id ← lift (atoi args);
      let id := u32 id in
      let done_ id := printf (chars "Thread %d terminated." ++ NL) [word id] in
      let failed id := printf (chars "Error: Could not kill thread %d." ++ NL) [word id] in
      user ← user_mode;
      if (user : bool) then
        r ← syscall_ (SYS_KILL id);
        if r =? 0 then done_ id else failed id
      else
        let kill id := ok ← thread_kill id; if (ok : bool) then done_ id else failed id in
        if (c <? 48) || (57 <? c) then
          id ← (λ w, Ok (thread_get_id_by_name args w, w));
          if id =? THREAD_NOT_FOUND then quoted "Error: No thread named '" args "' found."
          else if id =? THREAD_AMBIGUOUS then quoted "Error: Multiple threads named '" args "' found."
          else kill id
        else kill id
  end.

Definition cmd_sleep (args : list Z) : kernel W unit :=
  match args with
  | [] => println "Usage: sleep <ms>"
  | _ =>
      ms ← lift (atoi args);
      let ms := u32 ms in
      user ← user_mode;
      (if (user : bool) then syscall (SYS_SLEEP ms);; mret () else thread_sleep ms);;
      printf (chars "Slept for %d ms." ++ NL) [word ms]
  end.

Definition cmd_pid : kernel W unit :=
  user ← user_mode;
  if (user : bool) then
    pid ← syscall_ SYS_GETPID;
    printf (chars "Current PID: %d" ++ NL) [word (signed 32 pid)]
  else
    current ← (λ w, Ok (current_id w, w));
    match current with
    | Some id => printf (chars "Current PID: %d (Kernel Thread)" ++ NL) [word id]
    | None => mret ()
    end.

Definition cmd_uptime : kernel W unit :=
  user ← user_mode;
  ticks ← (if (user : bool) then t ← syscall_ SYS_UPTIME; mret (u32 t) else λ w, Ok (timer_get_ticks w, w));
  let seconds := ticks / 100 in
  printf (chars "System uptime: %d hours, %d minutes, %d seconds (%d ticks)" ++ NL)
    [word (seconds / 60 / 60); word (seconds / 60 mod 60); word (seconds mod 60); word ticks].

Definition cmd_ps : kernel W unit :=
  user ← user_mode;
  if (user : bool) then syscall SYS_PS;; mret () else thread_print_list.

(** ** Files *)

Definition cmd_stat (cwd args : list Z) : kernel W unit :=
  match args with
  | [] => println "Usage: stat <path>"
  | _ =>
      full_path ← lift (resolve_path cwd args);
      user ← user_mode;
      if (user : bool) then
        '(r, st) ← syscall (SYS_STAT full_path);
        match st with
        | Stat st =>
            if r =? 0 then
              quoted "File: " args "";;
              printf (chars "Size: %ld bytes" ++ NL) [word (st_size st)];;
              printf (chars "Inode: %ld" ++ NL) [word (st_ino st)];;
              printf (chars "Mode: %o" ++ NL) [word (st_mode st)]
            else quoted "stat: cannot stat '" args "'"
        | _ => quoted "stat: cannot stat '" args "'"
        end
      else
        node ← open_path full_path;
        if node =? 0 then quoted "stat: cannot stat '" args "'" else
        quoted "File: " args "";;
        sz ← size_of node;
        printf (chars "Size: %d bytes" ++ NL) [word sz];;
        ino ← inode_of node;
        printf (chars "Inode: %d" ++ NL) [word ino];;
        type ← type_of node;
        printf (chars "Type: %d" ++ NL) [word type];;
        close_node node
  end.

(** The loops over the entries of a directory: [n] of them at most.  The answer is
    unsigned, so the loop goes on after an error, and prints the entry read before. *)
Fixpoint list_user (n : nat) (fd i : Z) (old : option vfs_dirent) : kernel W unit :=
  match n with
  | O => forever
  | S n' =>
      '(r, de) ← syscall (SYS_READDIR (u64 fd) i);
      if 0 <? r then
        de ← match de, old with Dirent de, _ => mret de | _, Some de => mret de | _, None => lift Fault end;
        printf (chars "%s  ") [Stdio.ArgStr (Some (de_name de))];;
        list_user n' fd (i + 1) (Some de)
      else mret ()
  end.

Fixpoint list_kernel (n : nat) (dir i : Z) : kernel W unit :=
  match n with
  | O => forever
  | S n' =>
      de ← (vfs_readdir dir i : kernel W (option vfs_dirent));
      match de with
      | Some de => printf (chars "%s  ") [Stdio.ArgStr (Some (de_name de))];; list_kernel n' dir (u32 (i + 1))
      | None => mret ()
      end
  end.

Definition ls_user (n : nat) (cwd args : list Z) : kernel W unit :=
  path ← (match args with [] => mret cwd | _ => lift (resolve_path cwd args) end);
  fd ← syscall_int (SYS_OPEN path 0);
  if fd <? 0 then quoted "ls: cannot access '" args "'" else
  list_user n fd 0 None;;
  printf NL [];;
  syscall (SYS_CLOSE (u64 fd));;
  mret ().

Definition cmd_ls (n : nat) (cwd args : list Z) : kernel W unit :=
  user ← user_mode;
  if (user : bool) then ls_user n cwd args else
  node ← get_cwd_node;
  root ← get_vfs_root;
  dir ← match args with
        | [] => mret (if negb (node =? 0) then node else root)
        | _ => path ← lift (resolve_path cwd args); open_path path
        end;
  if dir =? 0 then quoted "ls: cannot access '" args "': No such file or directory" else
  type ← type_of dir;
  (if type =? VFS_DIRECTORY then list_kernel n dir 0;; printf NL [] else quoted "" args "");;
  node ← get_cwd_node;
  root ← get_vfs_root;
  if negb (dir =? node) && negb (dir =? root) then close_node dir else mret ().

Fixpoint cat_user (n : nat) (fd : Z) : kernel W unit :=
  match n with
  | O => forever
  | S n' =>
      '(r, bs) ← syscall (SYS_READ (u64 fd) 512);
      if 0 <? signed 32 r then
        match bs with Bytes_read bs => put_all (take (Z.to_nat (signed 32 r)) bs) | _ => lift Fault end;;
        cat_user n' fd
      else mret ()
  end.

(** The buffer has 513 bytes; [%s] prints what is read up to the first null. *)
Fixpoint cat_kernel (n : nat) (file offset : Z) : kernel W unit :=
  match n with
  | O => forever
  | S n' =>
      bs ← (vfs_read file offset 512 : kernel W (list Z));
      match bs with
      | [] => mret ()
      | _ =>
          if 512 <? len bs then lift Fault else
          print_string (Syscall.c_string bs);; cat_kernel n' file (u32 (offset + len bs))
      end
  end.

Definition cmd_cat (n : nat) (cwd args : list Z) : kernel W unit :=
  match args with
  | [] => println "Usage: cat <filename>"
  | _ =>
      path ← lift (resolve_path cwd args);
      user ← user_mode;
      if (user : bool) then
        fd ← syscall_int (SYS_OPEN path 0);
        if 0 <=? fd then cat_user n fd;; printf NL [];; syscall (SYS_CLOSE (u64 fd));; mret ()
        else quoted "cat: " path ": No such file or directory"
      else
        file ← open_path path;
        if file =? 0 then quoted "cat: " path ": No such file or directory" else
        type ← type_of file;
        (if type =? VFS_FILE then cat_kernel n file 0;; printf NL [] else quoted "cat: " path ": Is a directory");;
        close_node file
  end.

Definition CWD_SIZE : Z := 256.

(** [strncpy(current_working_directory, path, 255)]; the last character stays null. *)
Definition set_cwd_text (path : list Z) : list Z := take 255 path.

(** The text of the working directory after [cd ..]. *)
Definition parent_text (cwd : list Z) : list Z :=
  if strcmp_eq cwd [SLASH] then cwd else
  match last_slash cwd with
  | Some O => [SLASH]
  | Some i => take i cwd
  | None => cwd
  end.

Definition cd_text (cwd args path : list Z) : list Z :=
  if strcmp_eq args (chars "..") then parent_text cwd
  else if strcmp_eq args (chars ".") then cwd
  else set_cwd_text path.

(** [if (cwd_node && cwd_node != vfs_root) vfs_close(cwd_node);] *)
Definition leave_cwd : kernel W unit :=
  node ← get_cwd_node;
  root ← get_vfs_root;
  if negb (node =? 0) && negb (node =? root) then close_node node else mret ().

(** The new text of the working directory. *)
Definition cmd_cd (cwd args : list Z) : kernel W (list Z) :=
  user ← user_mode;
  if bool_decide (args = []) || strcmp_eq args (chars "~") then
    (if (user : bool) then mret () else leave_cwd;; root ← get_vfs_root; put_cwd_node root);;
    mret [SLASH]
  else
    path ← lift (resolve_path cwd args);
    if (user : bool) then
      fd ← syscall_int (SYS_OPEN path 0);
      if 0 <=? fd then syscall (SYS_CLOSE (u64 fd));; mret (cd_text cwd args path)
      else quoted "cd: " args ": No such file or directory";; mret cwd
    else
      new_dir ← open_path path;
      if new_dir =? 0 then quoted "cd: " args ": No such file or directory";; mret cwd else
      type ← type_of new_dir;
      if type =? VFS_DIRECTORY then
        leave_cwd;;
        put_cwd_node new_dir;;
        mret (cd_text cwd args path)
      else
        quoted "cd: " args ": Not a directory";;
        close_node new_dir;;
        mret cwd.

Definition MODE_755 : Z := 493.

Definition cmd_mkdir (cwd args : list Z) : kernel W unit :=
  match args with
  | [] => println "mkdir: missing operand"
  | _ =>
      full_path ← lift (resolve_path cwd args);
      user ← user_mode;
      r ← (if (user : bool) then syscall_ (SYS_MKDIR full_path MODE_755) else vfs_mkdir (Some full_path) MODE_755);
      if r =? 0 then mret () else quoted "mkdir: cannot create directory '" args "'"
  end.

Definition cmd_touch (cwd args : list Z) : kernel W unit :=
  match args with
  | [] => println "touch: missing file operand"
  | _ =>
      full_path ← lift (resolve_path cwd args);
      user ← user_mode;
      if (user : bool) then
        fd ← syscall_int (SYS_OPEN full_path O_CREAT);
        if 0 <=? fd then syscall (SYS_CLOSE (u64 fd));; mret () else quoted "touch: cannot create '" args "'"
      else
        n ← (vfs_create (Some full_path) 0 : kernel W Z);
        if n =? 0 then quoted "touch: cannot create '" args "'" else close_node n
  end.

Definition cmd_rm (cwd args : list Z) : kernel W unit :=
  match args with
  | [] => println "rm: missing operand"
  | _ =>
      full_path ← lift (resolve_path cwd args);
      user ← user_mode;
      ok ← (if (user : bool) then r ← syscall_ (SYS_UNLINK full_path); mret (r =? 0) else vfs_unlink (Some full_path));
      if (ok : bool) then mret () else quoted "rm: cannot remove '" args "': No such file or directory"
  end.

(** ** Command lines *)

Definition BLANK : Z := 32.
Definition is_blank (c : Z) : bool := c =? BLANK.
(** What is cut from the end of the arguments. *)
Definition is_trailing (c : Z) : bool := (c =? BLANK) || (c =? 9) || (c =? 13).

(** Up to [n] characters that are not blank, and the rest. *)
Fixpoint take_word (n : nat) (s : list Z) : list Z * list Z :=
  match n, s with
  | S n', c :: s' => if is_blank c then ([], s) else let '(w, r) := take_word n' s' in (c :: w, r)
  | _, _ => ([], s)
  end.

(** [cmd] and [args_buffer], both of 256 characters. *)
Definition parse_command (command : list Z) : list Z * list Z :=
  let '(cmd, args) := take_word 255 command in
  (cmd, strip_end is_trailing (take 255 (skip_while is_blank args))).

(** At most [n] arguments. *)
Fixpoint split_args (n : nat) (p : list Z) : list (list Z) :=
  match n, p with
  | S n', _ :: _ => let '(w, r) := take_word (length p) p in w :: split_args n' (skip_while is_blank (tail r))
  | _, _ => []
  end.

(** [while (thread_get_by_id(pid) != nullptr) thread_sleep(20);] *)
Fixpoint wait_thread (n : nat) (pid : Z) : kernel W unit :=
  alive ← (λ w, Ok (thread_exists pid w, w));
  if (alive : bool) then match n with O => forever | S n' => thread_sleep 20;; wait_thread n' pid end
  else mret ().

Definition run_program (n : nat) (command cmd args : list Z) : kernel W unit :=
  pid ← kex_load cmd (cmd :: split_args 14 args);
  if 0 <? pid then wait_thread n (u32 pid)
  else
    printf (chars "Unknown command: %s" ++ NL ++ chars "Type 'help' for available commands")
      [Stdio.ArgStr (Some command)].

Definition named (cmd : list Z) (s : string) : bool := strcmp_eq cmd (chars s).

(** The chain of comparisons; only [cd] changes the working directory. *)
Definition execute_in (n : nat) (user : bool) (cwd command cmd args : list Z) : kernel W (list Z) :=
  let stay (m : kernel W unit) : kernel W (list Z) := m;; mret cwd in
  if named cmd "help" then stay (cmd_help args)
  else if named cmd "clear" then stay cmd_clear
  else if named cmd "echo" then stay (cmd_echo cwd args)
  else if named cmd "info" then stay cmd_info
  else if negb user && named cmd "testheap" then stay cmd_testheap
  else if negb user && named cmd "meminfo" then stay cmd_meminfo
  else if named cmd "reboot" then stay cmd_reboot
  else if named cmd "halt" then stay cmd_halt
  else if negb user && named cmd "paginginfo" then stay cmd_paginginfo
  else if negb user && named cmd "testpaging" then stay cmd_testpaging
  else if negb user && named cmd "memstat" then stay cmd_memstat
  else if negb user && named cmd "dump" then stay (cmd_dump args)
  else if named cmd "uptime" then stay cmd_uptime
  else if named cmd "ps" then stay cmd_ps
  else if named cmd "pkill" then stay (cmd_pkill args)
  else if named cmd "ls" then stay (cmd_ls n cwd args)
  else if named cmd "cat" then stay (cmd_cat n cwd args)
  else if named cmd "cd" then cmd_cd cwd args
  else if named cmd "touch" then stay (cmd_touch cwd args)
  else if named cmd "mkdir" then stay (cmd_mkdir cwd args)
  else if named cmd "rm" then stay (cmd_rm cwd args)
  else if named cmd "sleep" then stay (cmd_sleep args)
  else if named cmd "pid" then stay cmd_pid
  else if named cmd "stat" then stay (cmd_stat cwd args)
  else stay (run_program n command cmd args).

(** The answer is the text of the working directory after the command. *)
Definition shell_execute (n : nat) (cwd command : list Z) : kernel W (list Z) :=
  match skip_while is_blank command with
  | [] => mret cwd
  | command =>
      let '(cmd, args) := parse_command command in
      user ← user_mode;
      cwd ← execute_in n user cwd command cmd args;
      shell_setcolor (on_black WHITE);;
      mret cwd
  end.
End shell.

(** A format given by its segments. *)
Lemma vprintf_segments gs args out : Stdio.segs_ok gs = true → Stdio.render_all gs args = Some out →
  Stdio.vprintf (gs ≫= Stdio.unparse) args = Ok (out, signed 32 (0 + Z.of_nat (length out))).
Proof. intros H1 H2. apply Stdio.loop_segments; [done|done|done|by apply Stdio.unparse_length]. Qed.

Definition string_conv : Stdio.seg := Stdio.Conv false [] 0 115.

Lemma padded_0 s : Stdio.padded false 0 (Z.of_nat (length s)) s = s.
Proof. unfold Stdio.padded. by rewrite (proj2 (Z.ltb_ge _ _)) by lia. Qed.

(** ** Paths *)

Definition absolute (p : list Z) : bool := match p with c :: _ => c =? SLASH | [] => false end.

(** The path that an argument stands for. *)
Definition full_path (cwd arg : list Z) : list Z :=
  if absolute arg then arg
  else if (0 <? len cwd) && negb (List.last cwd 0 =? SLASH) then cwd ++ SLASH :: arg else cwd ++ arg.

Lemma components_app p q : components (p ++ SLASH :: q) = components p ++ components q.
Proof.
  induction p as [|c p IH]; [done|]. cbn [app components]. destruct (c =? SLASH); [done|].
  destruct p as [|d p]; cbn [app].
  - by rewrite (Z.eqb_refl SLASH); cbn [components]; rewrite Z.eqb_refl.
  - cbn [app] in IH. rewrite IH. destruct (d =? SLASH) eqn:Ed; [done|].
    destruct (components_head d p) as (x & cs & E & _); [by apply Z.eqb_neq|]. by rewrite E.
Qed.

Lemma components_end_slash p q : List.last p 0 = SLASH → components (p ++ q) = components p ++ components q.
Proof.
  intros Hl. destruct p as [|c p _] using rev_ind; [done|]. rewrite List.last_last in Hl. subst c.
  rewrite <- app_assoc. cbn [app]. rewrite !components_app. cbn [components]. by rewrite app_nil_r.
Qed.

Lemma resolve_full_spec cwd arg : len cwd ≤ 255 → len arg ≤ 255 →
  resolve_path cwd arg = Ok (full_path cwd arg) ∧ len (full_path cwd arg) < 512 ∧
  components (full_path cwd arg) = (if absolute arg then [] else components cwd) ++ components arg.
Proof.
  intros Hc Ha. unfold resolve_path, full_path, strncpy_511, strcat_512. fold (absolute arg).
  rewrite !(proj2 (Z.ltb_lt _ 511)) by lia. destruct (absolute arg); [by split_and!; [|lia|]|]. run.
  destruct (Z.ltb_spec 0 (len cwd)) as [H0|H0]; cbn [andb].
  - destruct (Z.eqb_spec (List.last cwd 0) SLASH) as [El|Hne]; cbn [negb].
    + run. rewrite (proj2 (Z.ltb_lt _ 512)) by lia. split_and!; [done|rewrite len_app; lia|by apply components_end_slash].
    + change (len [SLASH]) with 1. rewrite (proj2 (Z.ltb_lt (len cwd + 1) 512)) by lia. run.
      rewrite (proj2 (Z.ltb_lt _ 512)) by (rewrite len_app; change (len [SLASH]) with 1; lia).
      rewrite <- app_assoc. cbn [app]. split_and!; [done| |by apply components_app].
      rewrite len_app. change (SLASH :: arg) with ([SLASH] ++ arg). rewrite len_app. change (len [SLASH]) with 1. lia.
  - run. rewrite (proj2 (Z.ltb_lt _ 512)) by lia. destruct cwd as [|c cwd]; [split_and!; [done|cbn [app]; lia|done]|]. unfold len in H0. cbn [List.length] in H0. lia.
Qed.

Lemma resolve_full cwd arg : len cwd ≤ 255 → len arg ≤ 255 → resolve_path cwd arg = Ok (full_path cwd arg).
Proof. apply resolve_full_spec. Qed.

(** The path built from the working directory and an argument fits its buffer of 512
    characters, whatever the two are, and has the components of both: of the
    argument alone when that begins with a slash. *)
Theorem resolve_path_fits cwd arg : len cwd ≤ 255 → len arg ≤ 255 →
  resolve_path cwd arg = Ok (full_path cwd arg) ∧ len (full_path cwd arg) < 512 ∧
  components (full_path cwd arg) = (if absolute arg then [] else components cwd) ++ components arg.
Proof. apply resolve_full_spec. Qed.

Lemma resolve_path_fits_witness :
  resolve_path [47; 97] [98; 47; 99] = Ok [47; 97; 47; 98; 47; 99].
Proof.
  destruct (resolve_path_fits [47; 97] [98; 47; 99]) as (H & _ & _); [vm_compute; discriminate..|]. exact H.
Defined.

(** ** Command lines *)

Section lines.

Lemma skip_while_app p a b : Forall (λ c, p c = true) a → skip_while p (a ++ b) = skip_while p b.
Proof. induction 1 as [|c a Hc _ IH]; cbn [app skip_while]; [done|]. by rewrite Hc. Qed.

Lemma skip_while_stop p s : match s with [] => True | c :: _ => p c = false end → skip_while p s = s.
Proof. destruct s as [|c s]; cbn [skip_while]; [done|]. by intros ->. Qed.

Lemma strip_end_app p a b : Forall (λ c, p c = true) b → match rev a with [] => True | c :: _ => p c = false end →
  strip_end p (a ++ b) = a.
Proof.
  intros Hb Ha. unfold strip_end. rewrite rev_app_distr, skip_while_app by by apply Forall_rev.
  rewrite skip_while_stop by done. apply rev_involutive.
Qed.

Lemma take_word_app n w r : (length w ≤ n)%nat → Forall (λ c, is_blank c = false) w →
  match r with [] => True | c :: _ => is_blank c = true end → take_word n (w ++ r) = (w, r).
Proof.
  revert n. induction w as [|c w IH]; intros n Hn Hw Hr; cbn [app].
  - destruct n, r as [|c r]; cbn [take_word]; try done. by rewrite Hr.
  - destruct n as [|n]; [cbn in Hn; lia|]. apply Forall_cons in Hw as [Hc Hw]. cbn [take_word].
    rewrite Hc, IH by (done || cbn in Hn; lia). done.
Qed.

(** A word: not empty, without characters that end a word or a line. *)
Definition is_word (w : list Z) : Prop := w ≠ [] ∧ Forall (λ c, is_trailing c = false) w.

Lemma word_blank w : is_word w → Forall (λ c, is_blank c = false) w.
Proof.
  intros [_ H]. eapply Forall_impl; [exact H|]. intros c Hc. unfold is_trailing in Hc. unfold is_blank.
  by destruct (c =? BLANK).
Qed.
Definition blanks (k : nat) : list Z := replicate k BLANK.

Lemma blanks_blank k : Forall (λ c, is_blank c = true) (blanks k).
Proof. by apply Forall_replicate. Qed.

(** Words with blanks between them. *)
Fixpoint join (ws : list (nat * list Z)) : list Z :=
  match ws with [] => [] | (k, w) :: ws' => blanks (S k) ++ w ++ join ws' end.

Lemma join_head ws : match join ws with [] => True | c :: _ => is_blank c = true end.
Proof. by destruct ws as [|[k w] ws]. Qed.

Lemma word_head w r : is_word w → match w ++ r with [] => True | c :: _ => is_blank c = false end.
Proof. intros Hw. apply word_blank in Hw as Hb. destruct Hw as [Hne _], w as [|c w]; [done|]. by apply Forall_cons in Hb as [Hb _]. Qed.

Lemma split_args_join ws : Forall (λ kw, is_word kw.2) ws → ∀ n,
  split_args n (skip_while is_blank (join ws)) = take n (snd <$> ws).
Proof.
  induction 1 as [|[k w] ws Hw _ IH]; intros n; cbn [join fmap list_fmap snd].
  { by destruct n. }
  rewrite skip_while_app by apply blanks_blank. rewrite skip_while_stop by by apply word_head.
  destruct n as [|n]; [done|]. cbn [split_args take].
  destruct (w ++ join ws) as [|c r] eqn:E. { destruct Hw as [Hne _]. by destruct w. }
  rewrite <- E, take_word_app; [|rewrite length_app; lia|by apply word_blank|apply join_head]. f_equal.
  rewrite <- IH. f_equal. pose proof (join_head ws) as Hj. destruct (join ws) as [|b l]; [done|]. cbn [tail skip_while].
  by rewrite Hj.
Qed.

(** The arguments of a line, without the blanks in front. *)
Definition arguments (ws : list (nat * list Z)) : list Z := skip_while is_blank (join ws).

Lemma join_snoc ws k w : join (ws ++ [(k, w)]) = join ws ++ blanks (S k) ++ w.
Proof. induction ws as [|[j v] ws IH]; cbn [app join]; [by rewrite app_nil_r|]. by rewrite IH, !app_assoc. Qed.

Lemma skip_while_suffix p s : ∃ a, s = a ++ skip_while p s.
Proof.
  induction s as [|c s [a IH]]; [by exists []|]. cbn [skip_while]. destruct (p c); [|by exists []].
  exists (c :: a). cbn [app]. by f_equal.
Qed.

Lemma arguments_end ws : Forall (λ kw, is_word kw.2) ws →
  match rev (arguments ws) with [] => True | c :: _ => is_trailing c = false end.
Proof.
  destruct ws as [|[k w] ws _] using rev_ind; intros Hws; [done|]. apply Forall_app in Hws as [_ Hw]. rewrite Forall_singleton in Hw.
  destruct Hw as [Hne Hw]. cbn [snd] in *. destruct w as [|c w _] using rev_ind; [done|]. apply Forall_app in Hw as [_ Hc].
  rewrite Forall_singleton in Hc. unfold arguments. destruct (skip_while_suffix is_blank (join (ws ++ [(k, w ++ [c])]))) as [a E].
  destruct (skip_while is_blank _) as [|d r _] using rev_ind; [done|]. rewrite rev_app_distr. cbn [rev app].
  rewrite join_snoc, !app_assoc in E. by apply app_inj_tail in E as [_ <-].
Qed.

Lemma arguments_len ws : len (arguments ws) ≤ len (join ws).
Proof.
  destruct (skip_while_suffix is_blank (join ws)) as [a E]. apply (f_equal len) in E. rewrite len_app in E.
  pose proof (len_nonneg a). unfold arguments. lia.
Qed.

Lemma skip_while_app_r p a b : skip_while p (a ++ b) = match skip_while p a with [] => skip_while p b | r => r ++ b end.
Proof. induction a as [|c a IH]; cbn [app skip_while]; [done|]. destruct (p c); [apply IH|done]. Qed.

Lemma parse_command_ok cmd ws k : is_word cmd → (length cmd ≤ 255)%nat → Forall (λ kw, is_word kw.2) ws →
  len (join ws) ≤ 255 → (k ≤ 255 - length (join ws))%nat → parse_command (cmd ++ join ws ++ blanks k) = (cmd, arguments ws).
Proof.
  intros Hc Hl Hws Hj Hk. unfold parse_command. rewrite take_word_app; [|done|by apply word_blank|].
  2: { pose proof (join_head ws) as Hh. destruct (join ws); [by destruct k|done]. }
  f_equal. pose proof (arguments_len ws) as Ha. rewrite skip_while_app_r. fold (arguments ws).
  destruct (arguments ws) as [|a r] eqn:E.
  - rewrite <- (app_nil_r (blanks k)), skip_while_app by apply blanks_blank. done.
  - rewrite firstn_all2 by (rewrite length_app; unfold blanks; rewrite length_replicate; unfold len in *; cbn [List.length] in *; lia).
    rewrite <- E. apply strip_end_app; [|by apply arguments_end].
    eapply Forall_impl; [apply blanks_blank|]. intros c Hb. unfold is_trailing. unfold is_blank in Hb. by rewrite Hb.
Qed.
End lines.

(** The commands that the shell completes. *)
Definition command_list : list string := [
  "help"; "clear"; "echo"; "info"; "testheap"; "meminfo"; "reboot"; "halt"; "paginginfo"; "testpaging"; "memstat"; "dump";
  "uptime"; "ps"; "pkill"; "ls"; "cat"; "cd"; "mkdir"; "touch"; "rm"; "sleep"; "pid"; "stat"]%string.

Section commands.
Context {W : Type} `{!VirtualNode W, !Syscall.NodeFields W, !Allocator W}.
Context `{!Screen W, !Tasks W, !Memory W, !SystemCalls W}.
Implicit Types w : W.

Lemma not_named cmd s : cmd ∉ chars <$> command_list → s ∈ command_list → named cmd s = false.
Proof. intros Hn Hs. apply bool_decide_eq_false. intros ->. apply Hn, list_elem_of_fmap. eauto. Qed.

Lemma execute_program n user cwd command cmd args : cmd ∉ chars <$> command_list →
  execute_in n user cwd command cmd args = (run_program n command cmd args;; mret cwd).
Proof.
  intros Hn. unfold execute_in. rewrite !(not_named cmd _ Hn) by (apply list_elem_of_In; cbn; tauto).
  by rewrite !andb_false_r.
Qed.

(** A line whose first word is no command starts the program of that path with the
    words of the line as its arguments, 14 of them at most besides the name, however
    the words are spaced; the shell then waits for it or reports it as unknown. *)
Theorem command_line_arguments n cwd i cmd ws k w :
  is_word cmd → (length cmd ≤ 255)%nat → cmd ∉ chars <$> command_list →
  Forall (λ kw, is_word kw.2) ws → len (join ws) ≤ 255 → (k ≤ 255 - length (join ws))%nat →
  let line := cmd ++ join ws ++ blanks k in
  shell_execute n cwd (blanks i ++ line) w =
    (((pid ← kex_load cmd (cmd :: take 14 (snd <$> ws));
       if 0 <? pid then wait_thread n (u32 pid)
       else printf (chars "Unknown command: %s" ++ NL ++ chars "Type 'help' for available commands")
              [Stdio.ArgStr (Some line)]);;
      mret cwd) ≫= λ cwd, shell_setcolor (on_black WHITE);; mret cwd) w.
Proof.
  intros Hc Hl Hn Hws Hj Hk line. unfold shell_execute. rewrite skip_while_app by apply blanks_blank.
  rewrite skip_while_stop by by apply word_head. destruct line as [|c l] eqn:E; [by destruct Hc, cmd|]. rewrite <- E in *.
  unfold line. rewrite parse_command_ok by done. unfold user_mode, mbind, kernel_bind at 1. run.
  rewrite execute_program by done. unfold run_program, arguments. by rewrite split_args_join.
Qed.
End commands.
End Shell.
