(* ===== verification/ShellFiles.v ===== *)
(** * The shell over a tree of files

    What the shell's file commands do when the nodes denote a tree ([FileTree]) and
    the console takes characters: [cat] prints a file, [cd] moves in the tree.  The
    laws are those of a tree whose nodes outlive their closing, such as the RAM disk; a
    node of EXT4 is deleted when it is closed.  The working directory is kept twice, as a
    text and as a node; [cd_moves] says for which arguments the two stay together when
    every directory knows its parent ([parents]; EXT4 never sets it, and [cd ..] fails
    there), [cd_leaves_text_behind] shows an argument after which they do not. *)

From Stdlib Require Import String.
From S2P Require Import Prelude LibcString LibcStdlib Paging Heap Vga Stdio Bytes Block Vfs Syscall Shell.

Module ShellFiles.
Import Bytes Block Vfs Shell.
#[local] Close Scope string_scope.
#[local] Open Scope list_scope.
#[local] Abbreviation length := List.length.
#[local] Abbreviation chars := LibcStdlib.chars.

(** ** What the commands rely on *)

Class FileShell (W : Type) `{!VirtualNode W, !Syscall.NodeFields W, !Screen W, !SystemCalls W, !FileTree W} := {
  printed : W → list Z;
  data : W → obj → option (list Z);                    (** the contents of the objects that are files *)
  kernel_mode w : tree_ok w → is_user_mode w = false;
  put_law w c : tree_ok w → ∃ w', putchar c w = Ok ((), w') ∧ keeps w w' ∧ printed w' = printed w ++ [c] ∧ data w' = data w;
  open_frame w p w' : node_open p w = Ok w' → printed w' = printed w ∧ data w' = data w;
  close_frame w p w' : node_close p w = Ok w' → printed w' = printed w ∧ data w' = data w;
  find_frame w p nm q w' : node_finddir p nm w = Ok (q, w') → printed w' = printed w ∧ data w' = data w;
  type_law w p o : tree_ok w → den w p o →
    Syscall.node_type p w = Ok (match data w o with Some _ => VFS_FILE | None => VFS_DIRECTORY end);
  read_law w p o d off n : tree_ok w → den w p o → data w o = Some d → 0 ≤ off → 0 ≤ n → off + n < 2 ^ 32 →
    ∃ w', node_read p off n w = Ok (sub off n d, w') ∧ keeps w w' ∧ printed w' = printed w ∧ data w' = data w;
  cwd_law w p o : tree_ok w → den w p o → tree_ok (set_cwd_node p w) ∧ cwd_node (set_cwd_node p w) = p ∧
    vfs_root (set_cwd_node p w) = vfs_root w ∧ (∀ q o', den w q o' → den (set_cwd_node p w) q o') ∧
    (∀ o' nm, child (set_cwd_node p w) o' nm = child w o' nm) ∧ (∀ o', up (set_cwd_node p w) o' = up w o') ∧
    printed (set_cwd_node p w) = printed w ∧ data (set_cwd_node p w) = data w
}.

Section files.
Context {W : Type} {NF : Syscall.NodeFields W} `{!VirtualNode W, !Screen W, !SystemCalls W, !FileTree W, !FileShell W}.
Implicit Types w : W.

(** [w'] is [w] after printing [bs], as far as files and nodes go. *)
Record prints (bs : list Z) w w' : Prop := {
  pr_keeps : keeps w w';
  pr_printed : printed w' = printed w ++ bs;
  pr_data : data w' = data w
}.

Lemma prints_refl w : tree_ok w → prints [] w w.
Proof. intros Hw. constructor; [by apply keeps_refl|by rewrite app_nil_r|done]. Qed.
Lemma prints_trans a b w1 w2 w3 : prints a w1 w2 → prints b w2 w3 → prints (a ++ b) w1 w3.
Proof.
  intros [A1 A2 A3] [B1 B2 B3]. constructor; [by eapply keeps_trans|by rewrite B2, A2, app_assoc|congruence].
Qed.
Lemma prints_nil_trans b w1 w2 w3 : prints [] w1 w2 → prints b w2 w3 → prints b w1 w3.
Proof. apply prints_trans. Qed.
Lemma prints_ok bs w w' : prints bs w w' → tree_ok w'.
Proof. intros [Hk _ _]. apply Hk. Qed.
Lemma prints_den bs w w' p o : prints bs w w' → den w p o → den w' p o.
Proof. intros [Hk _ _]. apply (kt_den _ _ _ _ _ _ Hk). Qed.

Lemma put_all_prints bs : ∀ w, tree_ok w → ∃ w', put_all bs w = Ok ((), w') ∧ prints bs w w'.
Proof.
  induction bs as [|b bs IH]; intros w Hw; cbn [put_all]; [exists w; split; [done|by apply prints_refl]|].
  destruct (put_law w b Hw) as (w1 & E & Hk & Hp & Hd). assert (P1 : prints [b] w w1) by by constructor.
  destruct (IH w1 (prints_ok _ _ _ P1)) as (w2 & E2 & P2). exists w2.
  split; [|by apply (prints_trans [b] bs w w1)]. unfold mbind, kernel_bind. by rewrite E.
Qed.

Lemma printf_prints gs args out w : Stdio.segs_ok gs = true → Stdio.render_all gs args = Some out → tree_ok w →
  ∃ w', printf (gs ≫= Stdio.unparse) args w = Ok ((), w') ∧ prints out w w'.
Proof.
  intros H1 H2 Hw. unfold printf, lift. rewrite (vprintf_segments _ _ _ H1 H2). by apply put_all_prints.
Qed.

Lemma print_string_prints s w : tree_ok w → ∃ w', print_string s w = Ok ((), w') ∧ prints s w w'.
Proof.
  intros Hw. apply (printf_prints [string_conv] [Stdio.ArgStr (Some s)]); [done| |done].
  cbn -[Stdio.padded List.length]. by rewrite padded_0, app_nil_r.
Qed.

Lemma newline_prints w : tree_ok w → ∃ w', printf NL [] w = Ok ((), w') ∧ prints NL w w'.
Proof. by apply (printf_prints [Stdio.Text NL]). Qed.

(** The messages with a string in the middle. *)
Lemma quoted_prints before s after w : Stdio.plain (chars before) = true → Stdio.plain (chars after ++ NL) = true →
  chars before ≠ [] → tree_ok w →
  ∃ w', quoted before s after w = Ok ((), w') ∧ prints (chars before ++ s ++ chars after ++ NL) w w'.
Proof.
  intros H1 H2 H3 Hw.
  destruct (printf_prints [Stdio.Text (chars before); string_conv; Stdio.Text (chars after ++ NL)] [Stdio.ArgStr (Some s)]
    (chars before ++ s ++ chars after ++ NL) w) as (w' & E & P); [| |done|].
  - cbn [Stdio.segs_ok Stdio.seg_ok]. rewrite H1, H2, length_app. destruct (chars before); [done|]. cbn.
    by rewrite Nat.add_1_r.
  - cbn -[Stdio.padded List.length app]. by rewrite padded_0, !app_nil_r.
  - exists w'. split; [|done]. unfold quoted. cbn in E. by rewrite !app_nil_r in E.
Qed.

(** ** Opening *)

Lemma walk_frame fuel : ∀ current p w q w', walk fuel current p w = Ok (q, w') → printed w' = printed w ∧ data w' = data w.
Proof.
  induction fuel as [|fuel IH]; intros current p w q w'; destruct p as [|c p]; cbn [walk]; try done; [by intros [= _ <-]..|].
  destruct (take_component 127 (c :: p)) as [comp p1]. case_bool_decide; [apply IH|]. intros Hr.
  apply bind_Ok in Hr as ([next w1] & E1 & Hr). apply bind_Ok in Hr as (w2 & E2 & Hr).
  assert (F1 : printed w1 = printed w ∧ data w1 = data w).
  { clear Hr. case_bool_decide; [|by eapply find_frame]. apply bind_Ok in E1 as (x & _ & E1).
    case_match; [by injection E1 as _ <-|]. apply bind_Ok in E1 as (w3 & E3 & E1). injection E1 as _ <-. by eapply open_frame. }
  apply close_frame in E2 as [F2 F3]. rewrite <- (proj1 F1), <- (proj2 F1), <- F2, <- F3.
  case_match; [by injection Hr as _ <-|]. by apply IH in Hr.
Qed.

Lemma open_path_prints w path o : tree_ok w → den w (vfs_root w) o → absolute path = true →
  Forall (λ c, (length c ≤ 127)%nat) (components path) →
  ∃ q w', open_path path w = Ok (q, w') ∧ prints [] w w' ∧
    match resolve w o (components path) with Some o' => den w' q o' | None => q = 0 end.
Proof.
  intros Hw Ho Ha Hc. destruct (open_spec w path o) as (q & w' & E & Hk & Hq); try done.
  { by eapply den_not_null. }
  { unfold start_node. unfold absolute in Ha. by rewrite Ha. }
  exists q, w'. split; [done|]. split; [|done]. unfold vfs_open in E.
  rewrite (proj2 (Z.eqb_neq (vfs_root w) 0)) in E by by eapply den_not_null. apply bind_Ok in E as (w1 & E1 & E). apply open_frame in E1 as [F1 F2].
  apply walk_frame in E as [F3 F4]. constructor; [done|rewrite app_nil_r; congruence|congruence].
Qed.

Lemma close_prints w p o : tree_ok w → den w p o → ∃ w', close_node p w = Ok ((), w') ∧ prints [] w w'.
Proof.
  intros Hw Ho. destruct (close_law w p o Hw Ho) as (w' & E & Hk). exists w'. unfold close_node, vfs_close.
  rewrite (proj2 (Z.eqb_neq p 0)) by (by eapply den_not_null). rewrite E. split; [done|].
  apply close_frame in E as [F1 F2]. constructor; [done|by rewrite app_nil_r|done].
Qed.

Lemma user_mode_off w : tree_ok w → user_mode w = Ok (false, w).
Proof. intros Hw. unfold user_mode. by rewrite kernel_mode. Qed.

Lemma prints_data bs w w' o : prints bs w w' → data w' o = data w o.
Proof. intros [_ _ ->]. done. Qed.
Lemma prints_resolve bs w w' o cs : prints bs w w' → resolve w' o cs = resolve w o cs.
Proof. intros [Hk _ _]. by apply resolve_keeps. Qed.
Lemma prints_root bs w w' : prints bs w w' → vfs_root w' = vfs_root w.
Proof. intros [Hk _ _]. apply Hk. Qed.
Lemma prints_cwd bs w w' : prints bs w w' → cwd_node w' = cwd_node w.
Proof. intros [Hk _ _]. apply Hk. Qed.

(** ** cat *)

(** Every 512 bytes, up to a null among them. *)
Fixpoint cat_text (n : nat) (d : list Z) : list Z :=
  match n, d with
  | S n', _ :: _ => Syscall.c_string (take 512 d) ++ cat_text n' (drop 512 d)
  | _, _ => []
  end.

Lemma c_string_text d : 0 ∉ d → Syscall.c_string d = d.
Proof.
  induction d as [|b d IH]; [done|]. intros [Hb Hd]%not_elem_of_cons. cbn [Syscall.c_string].
  rewrite (proj2 (Z.eqb_neq b 0)) by congruence. by rewrite IH.
Qed.

Lemma cat_text_all n : ∀ d, (length d ≤ 512 * n)%nat → 0 ∉ d → cat_text n d = d.
Proof.
  induction n as [|n IH]; intros d Hn Hd; [by destruct d; [|cbn in Hn; lia]|].
  assert (E : cat_text (S n) d = Syscall.c_string (take 512 d) ++ cat_text n (drop 512 d)) by (destruct d; [by destruct n|done]).
  rewrite E. rewrite <- (take_drop 512 d) in Hd. apply not_elem_of_app in Hd as [H1 H2].
  rewrite c_string_text, IH; [apply take_drop|rewrite length_drop; lia|done|done].
Qed.

Definition enough_for (d : list Z) (n : nat) : Prop := (length d + 511 < 512 * n)%nat.

(** The loop from [off] on. *)
Lemma cat_loop n : ∀ w p o d off, tree_ok w → den w p o → data w o = Some d → 0 ≤ off ≤ len d → len d + 512 < 2 ^ 32 →
  enough_for (drop (Z.to_nat off) d) n →
  ∃ w', cat_kernel n p off w = Ok ((), w') ∧ prints (cat_text n (drop (Z.to_nat off) d)) w w'.
Proof.
  induction n as [|n IH]; intros w p o d off Hw Hp Hd Hoff Hl Hn; unfold enough_for in Hn; [lia|].
  cbn [cat_kernel]. unfold vfs_read. rewrite (proj2 (Z.eqb_neq p 0)) by by eapply den_not_null.
  destruct (read_law w p o d off 512) as (w1 & E & Hk & F1 & F2); try done; [lia..|].
  assert (P1 : prints [] w w1) by (constructor; [done|by rewrite app_nil_r|done]).
  unfold mbind, kernel_bind. rewrite E. run. unfold sub. set (r := drop (Z.to_nat off) d) in *.
  assert (Hr : len r = len d - off) by (unfold r, len; rewrite length_drop; unfold len in *; lia).
  destruct r as [|b r'] eqn:Er.
  { exists w1. split; [by destruct n|]. done. }
  rewrite <- Er in *. destruct (take (Z.to_nat 512) r) as [|c bs] eqn:Eb; [by rewrite Er in Eb|]. rewrite <- Eb.
  assert (El : len (take (Z.to_nat 512) r) = Z.min 512 (len r)) by (unfold len; rewrite length_take; lia).
  rewrite (proj2 (Z.ltb_ge 512 _)) by lia.
  destruct (print_string_prints (Syscall.c_string (take (Z.to_nat 512) r)) w1) as (w2 & E2 & P2); [by eapply prints_ok|].
  rewrite E2. pose proof (prints_nil_trans _ _ _ _ P1 P2) as P12. rewrite wrap_small by lia.
  destruct (IH w2 p o d (off + len (take (Z.to_nat 512) r))) as (w3 & E3 & P3); try lia.
  { by eapply prints_ok. } { by eapply prints_den. } { by rewrite (prints_data _ _ _ _ P12). }
  { assert (0 < length r)%nat by (rewrite Er; cbn; lia). unfold enough_for. rewrite El, length_drop. unfold len in *. lia. }
  exists w3. split; [exact E3|].
  assert (Ed : drop (Z.to_nat (off + len (take (Z.to_nat 512) r))) d = drop 512 r).
  { unfold r at 2. rewrite drop_drop. destruct (Z.le_gt_cases 512 (len r)) as [Hge|Hlt].
    - f_equal. lia.
    - rewrite !drop_ge; [done|unfold len in *; lia..]. }
  rewrite Ed in P3. assert (Ec : cat_text (S n) r = Syscall.c_string (take 512 r) ++ cat_text n (drop 512 r)) by by rewrite Er.
  rewrite Ec. by apply (prints_trans _ _ _ _ _ P12).
Qed.

(** The path of an argument as the tree reads it. *)
Lemma open_resolved w cwd arg o : tree_ok w → den w (vfs_root w) o → absolute cwd = true → len cwd ≤ 255 → len arg ≤ 255 →
  Forall (λ c, (length c ≤ 127)%nat) (components (full_path cwd arg)) →
  resolve_path cwd arg = Ok (full_path cwd arg) ∧
  ∃ q w', open_path (full_path cwd arg) w = Ok (q, w') ∧ prints [] w w' ∧
    match resolve w o (components (full_path cwd arg)) with Some o' => den w' q o' | None => q = 0 end.
Proof.
  intros Hw Ho Ha Hc Hg Hn. split; [by apply resolve_full|]. apply open_path_prints; try done.
  unfold full_path. destruct (absolute arg) eqn:E; [done|]. destruct cwd as [|c cwd]; [done|]. by case_match.
Qed.

(** ** The working directory as a list of names *)

(** A name that stands for itself. *)
Definition dir_name (nm : list Z) : Prop := name_ok nm ∧ nm ≠ DOT ∧ nm ≠ DOTDOT.

(** The text of a directory. *)
Definition dir_text (cs : list (list Z)) : list Z :=
  match cs with [] => [SLASH] | _ => cs ≫= cons SLASH end.

Lemma components_name nm : nm ≠ [] → SLASH ∉ nm → components nm = [nm].
Proof.
  intros Hne Hs. induction nm as [|c nm IH]; [done|]. apply not_elem_of_cons in Hs as [Hc Hs].
  cbn [components]. rewrite (proj2 (Z.eqb_neq c SLASH)) by congruence. destruct nm as [|d nm]; [done|].
  rewrite (IH ltac:(done) Hs). apply not_elem_of_cons in Hs as [Hd _]. by rewrite (proj2 (Z.eqb_neq d SLASH)) by congruence.
Qed.

Lemma components_text cs : Forall dir_name cs → components (cs ≫= cons SLASH) = cs.
Proof.
  induction 1 as [|nm cs ([Hne [Hs _]] & _ & _) _ IH]; [done|]. rewrite bind_cons. cbn [app components]. rewrite Z.eqb_refl.
  destruct cs as [|nm' cs]; [cbn; rewrite app_nil_r; by apply components_name|].
  rewrite bind_cons in IH |- *. cbn [app] in *. rewrite components_app, components_name by done.
  cbn [components] in IH. rewrite Z.eqb_refl in IH. by rewrite IH.
Qed.

Lemma components_dir cs : Forall dir_name cs → components (dir_text cs) = cs.
Proof. intros H. destruct cs; [done|]. by apply components_text. Qed.

(** Arguments of [cd]: nothing or a tilde, a dot, two dots, names under the working
    directory, names under the root. *)
Inductive target : Set :=
| Home (tilde : bool)
| Here
| Parent
| Below (cs : list (list Z))
| Rooted (cs : list (list Z)).

Definition target_text (t : target) : list Z :=
  match t with
  | Home tilde => if tilde then [126] else []
  | Here => DOT
  | Parent => DOTDOT
  | Below cs => tail (dir_text cs)
  | Rooted cs => dir_text cs
  end.

Definition target_ok (t : target) : Prop :=
  match t with
  | Below cs => Forall dir_name cs ∧ cs ≠ [] ∧ cs ≠ [[126]]
  | Rooted cs => Forall dir_name cs
  | _ => True
  end.

(** Where they lead, as names from the root. *)
Definition goto (cs : list (list Z)) (t : target) : list (list Z) :=
  match t with
  | Home _ => []
  | Here => cs
  | Parent => removelast cs
  | Below cs' => cs ++ cs'
  | Rooted cs' => cs'
  end.

Lemma dir_text_absolute cs : absolute (dir_text cs) = true.
Proof. by destruct cs. Qed.

Lemma text_snoc cs nm : (cs ++ [nm]) ≫= cons SLASH = (cs ≫= cons SLASH) ++ SLASH :: nm.
Proof. induction cs as [|c cs IH]; [by cbn; rewrite app_nil_r|]. cbn [app]. rewrite !bind_cons, IH. by rewrite <- app_assoc. Qed.

Lemma dir_text_ne cs : cs ≠ [] → dir_text cs = cs ≫= cons SLASH.
Proof. by destruct cs. Qed.

Lemma dir_text_snoc cs nm : dir_text (cs ++ [nm]) = (cs ≫= cons SLASH) ++ SLASH :: nm.
Proof. rewrite <- text_snoc. by destruct cs. Qed.

Lemma dir_text_last cs nm : dir_name nm → List.last (dir_text (cs ++ [nm])) 0 ≠ SLASH.
Proof.
  intros [[Hne [Hs _]] _]. rewrite dir_text_snoc. destruct nm as [|c nm _] using rev_ind; [done|].
  rewrite app_comm_cons, app_assoc, List.last_last. set_solver.
Qed.

Lemma parent_dir_text cs : Forall dir_name cs → parent_text (dir_text cs) = dir_text (removelast cs).
Proof.
  destruct cs as [|nm cs _] using rev_ind; [done|]. intros [_ Hn]%Forall_app. rewrite Forall_singleton in Hn.
  destruct Hn as [[Hne [Hs _]] _]. rewrite removelast_last. unfold parent_text, strcmp_eq. rewrite dir_text_snoc.
  rewrite bool_decide_eq_false_2.
  2: { intros E. apply (f_equal length) in E. rewrite length_app in E. destruct nm; [done|]. cbn in E. lia. }
  rewrite last_slash_app by done. destruct cs as [|c cs]; [done|]. rewrite bind_cons. cbn [app List.length].
  change (S (length (c ++ (cs ≫= cons SLASH)))) with (length ((c :: cs) ≫= cons SLASH)).
  by rewrite app_comm_cons, take_app_length.
Qed.

Lemma full_below cs cs' : Forall dir_name cs → Forall dir_name cs' → cs' ≠ [] →
  full_path (dir_text cs) (tail (dir_text cs')) = dir_text (cs ++ cs').
Proof.
  intros H1 H2 Hne. destruct cs' as [|nm cs']; [done|]. apply Forall_cons in H2 as [[[Hn [Hs _]] _] H2].
  cbn [dir_text]. rewrite bind_cons. cbn [app tail]. unfold full_path.
  assert (Ea : absolute (nm ++ (cs' ≫= cons SLASH)) = false).
  { destruct nm as [|c nm]; [done|]. cbn. apply Z.eqb_neq. set_solver. }
  rewrite Ea. destruct cs as [|c cs _] using rev_ind; [done|]. apply Forall_app in H1 as [_ H1]. rewrite Forall_singleton in H1.
  rewrite (proj2 (Z.eqb_neq (List.last _ 0) SLASH)) by by apply dir_text_last.
  rewrite (proj2 (Z.ltb_lt 0 _)) by (rewrite dir_text_snoc, len_app; unfold len; cbn; lia). cbn [andb negb].
  rewrite !dir_text_ne by (intros E; apply (f_equal length) in E; rewrite !length_app in E; cbn in E; lia).
  by rewrite (bind_app (cons SLASH) (cs ++ [c]) (nm :: cs')).
Qed.

Lemma resolve_app w a b : ∀ o, resolve w o (a ++ b) = (o' ← resolve w o a; resolve w o' b).
Proof.
  induction a as [|c a IH]; intros o; [done|]. cbn [app resolve]. case_bool_decide; [apply IH|].
  destruct (if bool_decide (c = DOTDOT) then up w o else child w o c) as [o'|]; [apply IH|done].
Qed.

(** ** cd *)

Definition parents w : Prop := ∀ o nm o', child w o nm = Some o' → up w o' = Some o.

(** The working directory is the directory with the names [cs] from the root, as text and
    as node; a missing node stands for the root. *)
Record stands w (ro : obj) (cs : list (list Z)) : Prop := {
  st_ok : tree_ok w;
  st_root : den w (vfs_root w) ro;
  st_names : Forall dir_name cs;
  st_len : len (dir_text cs) ≤ 255;
  st_dir : ∃ o, resolve w ro cs = Some o ∧ data w o = None ∧ (cwd_node w = 0 ∧ cs = [] ∨ den w (cwd_node w) o)
}.

Lemma stands_prints bs w w' ro cs : prints bs w w' → stands w ro cs → stands w' ro cs.
Proof.
  intros P [H1 H2 H3 H4 (o & H5 & H6 & H7)]. constructor; [by eapply prints_ok| |done|done|].
  - rewrite (prints_root _ _ _ P). by eapply prints_den.
  - exists o. rewrite (prints_resolve _ _ _ _ _ P), (prints_data _ _ _ _ P), (prints_cwd _ _ _ P).
    split_and!; [done|done|]. destruct H7; [by left|right]. by eapply prints_den.
Qed.

(** What [cd] needs of a state, whatever the text is. *)
Record based w (ro : obj) : Prop := {
  ba_ok : tree_ok w;
  ba_root : den w (vfs_root w) ro;
  ba_cwd : cwd_node w = 0 ∨ ∃ o, den w (cwd_node w) o
}.

Lemma stands_based w ro cs : stands w ro cs → based w ro.
Proof. intros [H1 H2 _ _ (o & _ & _ & [[H _]|H])]; constructor; eauto. Qed.

Lemma based_prints bs w w' ro : prints bs w w' → based w ro → based w' ro.
Proof.
  intros P [H1 H2 H3]. constructor; [by eapply prints_ok|rewrite (prints_root _ _ _ P); by eapply prints_den|].
  rewrite (prints_cwd _ _ _ P). destruct H3 as [H3|[o H3]]; [by left|right]. exists o. by eapply prints_den.
Qed.

Lemma leave_prints w ro : based w ro → ∃ w', leave_cwd w = Ok ((), w') ∧ prints [] w w'.
Proof.
  intros [H1 H2 H3]. unfold leave_cwd, get_cwd_node, get_vfs_root, mbind, kernel_bind. run.
  destruct (Z.eqb_spec (cwd_node w) 0) as [E|Hne]; cbn [negb andb].
  { exists w. split; [done|by apply prints_refl]. }
  destruct (_ =? vfs_root w); cbn [negb]; [exists w; split; [done|by apply prints_refl]|].
  destruct H3 as [?|[o H3]]; [done|]. by apply (close_prints w (cwd_node w) o).
Qed.

(** [w'] is [w] with the node of the working directory denoting [o]. *)
Record moved_to (ro o : obj) w w' : Prop := {
  mo_based : based w' ro;
  mo_node : den w' (cwd_node w') o;
  mo_printed : printed w' = printed w;
  mo_data : data w' = data w;
  mo_child : ∀ o' nm, child w' o' nm = child w o' nm;
  mo_up : ∀ o', up w' o' = up w o'
}.

Lemma enter_node w ro q o : based w ro → den w q o → moved_to ro o w (set_cwd_node q w).
Proof.
  intros [H1 H2 H3] Hq. destruct (cwd_law w q o) as (C1 & C2 & C3 & C4 & C5 & C6 & C7 & C8); [done..|].
  constructor; [|by rewrite C2; apply C4|done..]. constructor; [done|by rewrite C3; apply C4|].
  right. exists o. rewrite C2. by apply C4.
Qed.

Lemma enter_after w w1 ro q o : prints [] w w1 → based w1 ro → den w1 q o → moved_to ro o w (set_cwd_node q w1).
Proof.
  intros [Hk F1 F2] B Hq. destruct (enter_node w1 ro q o B Hq) as [M1 M2 M3 M4 M5 M6]. rewrite app_nil_r in F1.
  constructor; [done|done|congruence|congruence| |].
  - intros o' nm. by rewrite M5, (kt_child _ _ _ _ _ _ Hk).
  - intros o'. by rewrite M6, (kt_up _ _ _ _ _ _ Hk).
Qed.

Lemma moved_resolve w w' ro o cs : moved_to ro o w w' → ∀ o', resolve w' o' cs = resolve w o' cs.
Proof.
  intros [_ _ _ _ M5 M6]. induction cs as [|c cs IH]; intros o'; [done|]. cbn [resolve]. rewrite M5, M6, IH.
  case_bool_decide; [done|]. by destruct (if bool_decide _ then _ else _); cbn.
Qed.

Lemma moved_stands w w' ro o cs : moved_to ro o w w' → resolve w ro cs = Some o → data w o = None →
  Forall dir_name cs → len (dir_text cs) ≤ 255 → stands w' ro cs.
Proof.
  intros M Hr Hd Hn Hl. pose proof (moved_resolve _ _ _ _ cs M) as Er. destruct M as [[B1 B2 _] M2 _ M4 _ _].
  constructor; [done..|]. exists o. rewrite Er, M4. split_and!; [done|done|by right].
Qed.

Lemma names_short cs : Forall dir_name cs → Forall (λ c, (length c ≤ 127)%nat) cs.
Proof. intros H. eapply Forall_impl; [exact H|]. intros c [[_ [_ Hc]] _]. exact Hc. Qed.

Lemma below_components cs : Forall dir_name cs → components (tail (dir_text cs)) = cs.
Proof.
  intros H. rewrite <- (components_dir cs H) at 2. destruct cs as [|nm cs]; [done|]. cbn [dir_text]. rewrite bind_cons.
  cbn [app tail components]. by rewrite Z.eqb_refl.
Qed.

(** The names that a target's path has behind those of the working directory. *)
Definition path_names (cs : list (list Z)) (t : target) : list (list Z) :=
  match t with Here => cs ++ [DOT] | Parent => cs ++ [DOTDOT] | _ => goto cs t end.

Lemma target_components cs t : Forall dir_name cs → target_ok t → (∀ b, t ≠ Home b) →
  len (dir_text cs) ≤ 255 → len (target_text t) ≤ 255 →
  components (full_path (dir_text cs) (target_text t)) = path_names cs t ∧
  Forall (λ c, (length c ≤ 127)%nat) (path_names cs t).
Proof.
  intros Hcs Ht Hh H1 H2. destruct (resolve_full_spec (dir_text cs) (target_text t) H1 H2) as (_ & _ & ->).
  rewrite components_dir by done. pose proof (names_short cs Hcs).
  destruct t as [b| | |cs'|cs']; [by destruct (Hh b)| | | |]; cbn [target_text path_names goto].
  - split; [done|]. apply Forall_app; split; [done|]. repeat constructor.
  - split; [done|]. apply Forall_app; split; [done|]. repeat constructor.
  - destruct Ht as (Ht & Hne & _). assert (Ea : absolute (tail (dir_text cs')) = false).
    { destruct cs' as [|nm cs']; [done|]. apply Forall_cons in Ht as [[[Hn [Hs _]] _] _]. cbn [dir_text]. rewrite bind_cons.
      cbn [app tail]. destruct nm as [|c nm]; [done|]. cbn. apply Z.eqb_neq. set_solver. }
    rewrite Ea, below_components by done. split; [done|]. by apply Forall_app; split; [|apply names_short].
  - rewrite dir_text_absolute, components_dir by done. split; [done|by apply names_short].
Qed.

Lemma resolve_removelast w ro cs o : parents w → tree_ok w → den w (vfs_root w) ro → Forall dir_name cs → resolve w ro cs = Some o →
  (o' ← Some o; resolve w o' [DOTDOT]) = resolve w ro (removelast cs).
Proof.
  intros Hp Hw Hr Hcs Ho. cbn. destruct cs as [|c cs _] using rev_ind.
  { injection Ho as <-. cbn. by rewrite (den_root_up w ro). }
  apply Forall_app in Hcs as [_ Hc]. rewrite Forall_singleton in Hc. destruct Hc as (_ & N1 & N2).
  rewrite removelast_last. rewrite resolve_app in Ho. destruct (resolve w ro cs) as [o1|]; [|done]. cbn in Ho.
  rewrite !bool_decide_eq_false_2 in Ho by done. destruct (child w o1 c) as [o2|] eqn:E; [|done]. injection Ho as <-.
  by rewrite (Hp _ _ _ E).
Qed.

Lemma resolve_target w ro cs t : parents w → stands w ro cs → target_ok t →
  resolve w ro (path_names cs t) = resolve w ro (goto cs t).
Proof.
  intros Hp [H1 H2 H3 H4 (o & H5 & _)] Ht. destruct t; try done; cbn [path_names goto]; rewrite resolve_app, H5; [done|].
  rewrite <- (resolve_removelast w ro cs o) by done. done.
Qed.

Lemma cd_text_target cs t : Forall dir_name cs → target_ok t → (∀ b, t ≠ Home b) → len (dir_text (goto cs t)) ≤ 255 →
  cd_text (dir_text cs) (target_text t) (full_path (dir_text cs) (target_text t)) = dir_text (goto cs t).
Proof.
  intros Hcs Ht Hh Hl. unfold cd_text, strcmp_eq, set_cwd_text.
  destruct t as [b| | |cs'|cs']; [by destruct (Hh b)|done|by apply parent_dir_text|..]; cbn [target_text goto] in *.
  - destruct Ht as (Ht & Hne & _). pose proof (below_components cs' Ht) as Ec.
    rewrite !bool_decide_eq_false_2.
    + rewrite full_below by done. apply firstn_all2. unfold len in Hl. lia.
    + intros E. rewrite E in Ec. cbn in Ec. subst cs'. apply Forall_cons in Ht as [(_ & Hd & _) _]. done.
    + intros E. rewrite E in Ec. cbn in Ec. subst cs'. apply Forall_cons in Ht as [(_ & _ & Hd) _]. done.
  - unfold full_path. rewrite dir_text_absolute.
    rewrite !bool_decide_eq_false_2 by (intros E; pose proof (dir_text_absolute cs') as Ha; by rewrite E in Ha).
    apply firstn_all2. unfold len in Hl. lia.
Qed.

Definition is_home (arg : list Z) : bool := bool_decide (arg = []) || strcmp_eq arg (chars "~").

Lemma target_home_dec t : (∃ b, t = Home b) ∨ (∀ b, t ≠ Home b).
Proof. destruct t; [left; eauto|right; done..]. Qed.

Lemma target_not_home t : target_ok t → (∀ b, t ≠ Home b) →
  is_home (target_text t) = false.
Proof.
  intros Ht Hh. unfold is_home, strcmp_eq. destruct t as [b| | |cs'|cs']; [by destruct (Hh b)|done|done| |]; cbn [target_text].
  - destruct Ht as (Ht & Hne & Hti). pose proof (below_components cs' Ht) as Ec.
    rewrite !bool_decide_eq_false_2; [done|intros E; by rewrite E in Ec..].
  - rewrite !bool_decide_eq_false_2; [done|intros E; pose proof (dir_text_absolute cs') as Ha; by rewrite E in Ha..].
Qed.

(** [cd] to what the tree has at the path. *)
Lemma cd_path w ro cwd arg : based w ro → absolute cwd = true → len cwd ≤ 255 → len arg ≤ 255 → is_home arg = false →
  Forall (λ c, (length c ≤ 127)%nat) (components (full_path cwd arg)) →
  match (o ← resolve w ro (components (full_path cwd arg)); match data w o with Some _ => None | None => Some o end) with
  | Some o => ∃ w', cmd_cd cwd arg w = Ok (cd_text cwd arg (full_path cwd arg), w') ∧ moved_to ro o w w'
  | None => ∃ w' msg, cmd_cd cwd arg w = Ok (cwd, w') ∧ prints msg w w'
  end.
Proof.
  intros B Ha Hl1 Hl2 Hh Hc. pose proof B as [H1 H2 _]. unfold is_home in Hh.
  destruct (open_resolved w cwd arg ro) as (Er & q & w1 & E1 & P1 & Hq); try done.
  assert (Ecd : cmd_cd cwd arg w = (if q =? 0 then quoted "cd: " arg ": No such file or directory";; mret cwd else
      type ← type_of q;
      if type =? VFS_DIRECTORY then leave_cwd;; put_cwd_node q;; mret (cd_text cwd arg (full_path cwd arg))
      else quoted "cd: " arg ": Not a directory";; close_node q;; mret cwd) w1).
  { unfold cmd_cd. rewrite (kbind _ _ w false w) by by apply user_mode_off. rewrite Hh.
    rewrite (kbind _ _ w (full_path cwd arg) w) by by unfold lift; rewrite Er. by rewrite (kbind _ _ _ _ _ E1). }
  assert (Hw1 : tree_ok w1) by by eapply prints_ok. destruct (resolve w ro _) as [o|]; cbn [mbind option_bind].
  - rewrite (proj2 (Z.eqb_neq q 0)) in Ecd by by eapply den_not_null.
    rewrite (kbind (type_of q) _ w1 (match data w o with Some _ => VFS_FILE | None => VFS_DIRECTORY end) w1) in Ecd
      by by unfold type_of; rewrite (type_law w1 q o), (prints_data _ _ _ _ P1).
    destruct (data w o) as [d|].
    + change (VFS_FILE =? VFS_DIRECTORY) with false in Ecd. cbn iota in Ecd.
      destruct (quoted_prints "cd: " arg ": Not a directory" w1) as (w2 & E2 & P2); try done.
      destruct (close_prints w2 q o) as (w3 & E3 & P3); [by eapply prints_ok|by eapply prints_den|].
      rewrite (kbind _ _ _ _ _ E2), (kbind _ _ _ _ _ E3) in Ecd. exists w3, (chars "cd: " ++ arg ++ chars ": Not a directory" ++ NL).
      split; [done|]. eapply prints_nil_trans; [done|]. rewrite <- (app_nil_r (_ ++ _)). by eapply prints_trans.
    + change (VFS_DIRECTORY =? VFS_DIRECTORY) with true in Ecd. cbn iota in Ecd.
      pose proof (based_prints _ _ _ _ P1 B) as B1. destruct (leave_prints w1 ro B1) as (w2 & E2 & P2).
      rewrite (kbind _ _ _ _ _ E2) in Ecd. exists (set_cwd_node q w2). split; [exact Ecd|].
      apply enter_after; [by eapply prints_nil_trans|by apply (based_prints _ _ _ _ P2)|by apply (prints_den _ _ _ _ _ P2)].
  - subst q. cbn [Z.eqb] in Ecd. destruct (quoted_prints "cd: " arg ": No such file or directory" w1) as (w2 & E2 & P2); try done.
    rewrite (kbind _ _ _ _ _ E2) in Ecd. eexists w2, _. split; [done|]. by eapply prints_nil_trans.
Qed.

Lemma cd_home w ro cwd b : based w ro → ∃ w', cmd_cd cwd (target_text (Home b)) w = Ok ([SLASH], w') ∧ moved_to ro ro w w'.
Proof.
  intros B. unfold cmd_cd. rewrite (kbind _ _ w false w) by by apply user_mode_off, B.
  assert (Eb : bool_decide (target_text (Home b) = []) || strcmp_eq (target_text (Home b)) (chars "~") = true) by by destruct b.
  rewrite Eb. destruct (leave_prints w ro B) as (w2 & E2 & P). exists (set_cwd_node (vfs_root w2) w2).
  split; [unfold mbind, kernel_bind; by rewrite E2|]. pose proof (based_prints _ _ _ _ P B) as B2.
  apply enter_after; [done|done|apply B2].
Qed.

(** The directory with the names [cs], if there is one. *)
Definition directory_at w (ro : obj) (cs : list (list Z)) : option obj :=
  o ← resolve w ro cs; match data w o with Some _ => None | None => Some o end.

Lemma directory_at_some w ro cs o : directory_at w ro cs = Some o → resolve w ro cs = Some o ∧ data w o = None.
Proof.
  unfold directory_at. destruct (resolve w ro cs) as [o'|]; [|done]. cbn. destruct (data w o') eqn:E; [done|]. by intros [= <-].
Qed.

Lemma goto_names w ro cs t : stands w ro cs → target_ok t → Forall dir_name (goto cs t).
Proof.
  intros [_ _ Hn _ _] Ht. destruct t as [b| | |cs1|cs1]; cbn [goto]; [done|done| |by apply Forall_app; split; [|apply Ht]|done].
  destruct cs as [|c cs _] using rev_ind; [done|]. rewrite removelast_last. by apply Forall_app in Hn as [Hn _].
Qed.

(** The working directory is a list of names, and [cd] moves it as one would expect: to
    the root, nowhere, one up, down along names or to an absolute path, when a
    directory is there, and else not at all.  The text and the node change together,
    and nothing is printed when the directory is found. *)
Theorem cd_moves w cs ro t : parents w → stands w ro cs → target_ok t → data w ro = None →
  len (target_text t) ≤ 255 → len (dir_text (goto cs t)) ≤ 255 →
  ∃ w', data w' = data w ∧
    match directory_at w ro (goto cs t) with
    | Some o => cmd_cd (dir_text cs) (target_text t) w = Ok (dir_text (goto cs t), w') ∧
        stands w' ro (goto cs t) ∧ den w' (cwd_node w') o ∧ printed w' = printed w
    | None => cmd_cd (dir_text cs) (target_text t) w = Ok (dir_text cs, w') ∧ stands w' ro cs
    end.
Proof.
  intros Hp S Ht Hd Hl1 Hl2. pose proof (goto_names w ro cs t S Ht) as Hg. pose proof (stands_based _ _ _ S) as B.
  destruct (decide (is_home (target_text t) = true)) as [Hh|Hh].
  - assert (Et : ∃ b, t = Home b).
    { destruct (target_home_dec t) as [?|Hn]; [done|]. by rewrite (target_not_home t Ht Hn) in Hh. }
    destruct Et as [b ->]. destruct (cd_home w ro (dir_text cs) b B) as (w' & E & M). exists w'. split; [apply M|].
    unfold directory_at. cbn [goto resolve mbind option_bind]. rewrite Hd.
    split_and!; [done|by apply (moved_stands w w' ro ro)|apply M|apply M].
  - apply not_true_is_false in Hh. assert (Hn : ∀ b, t ≠ Home b) by (intros [] ->; done).
    destruct (target_components cs t) as [Ec Hc]; [apply S|done|done|apply S|done|].
    pose proof (cd_path w ro (dir_text cs) (target_text t) B (dir_text_absolute cs) (st_len _ _ _ S) Hl1 Hh) as H.
    rewrite Ec in H. specialize (H Hc). rewrite (resolve_target w ro cs t) in H by done. fold (directory_at w ro (goto cs t)) in H.
    destruct (directory_at w ro (goto cs t)) as [o|] eqn:Eo.
    + destruct H as (w' & E & M). apply directory_at_some in Eo as [Eo Hdo]. exists w'. split; [apply M|].
      rewrite cd_text_target in E by (done || apply S). split_and!; [done|by apply (moved_stands w w' ro o)|apply M|apply M].
    + destruct H as (w' & msg & E & P). exists w'. split; [apply P|]. split; [done|by eapply stands_prints].
Qed.

(** ** cat on a file *)

(** [arg] names the object [o] from the working directory. *)
Definition names_object w (ro : obj) (cs : list (list Z)) (arg : list Z) (o : obj) : Prop :=
  arg ≠ [] ∧ len arg ≤ 255 ∧ Forall (λ c, (length c ≤ 127)%nat) (components (full_path (dir_text cs) arg)) ∧
  resolve w ro (components (full_path (dir_text cs) arg)) = Some o.

Lemma named_opens w ro cs arg o : stands w ro cs → names_object w ro cs arg o →
  resolve_path (dir_text cs) arg = Ok (full_path (dir_text cs) arg) ∧
  ∃ q w', open_path (full_path (dir_text cs) arg) w = Ok (q, w') ∧ prints [] w w' ∧ den w' q o ∧ (q =? 0) = false.
Proof.
  intros S (Hne & Hl & Hc & Ho). destruct (open_resolved w (dir_text cs) arg ro) as (Er & q & w1 & E1 & P1 & Hq); try done.
  { apply S. } { apply S. } { apply dir_text_absolute. } { apply S. }
  rewrite Ho in Hq. split; [done|]. exists q, w1. split_and!; [done..|].
  apply Z.eqb_neq. eapply den_not_null; [by eapply prints_ok|done].
Qed.

Lemma cat_file n w cs ro arg o d : stands w ro cs → names_object w ro cs arg o → data w o = Some d →
  len d + 512 < 2 ^ 32 → enough_for d n →
  ∃ w', cmd_cat n (dir_text cs) arg w = Ok ((), w') ∧ prints (cat_text n d ++ NL) w w'.
Proof.
  intros S Hn Hd Hl Hf. destruct (named_opens w ro cs arg o S Hn) as (Er & q & w1 & E1 & P1 & Hq & Eq).
  unfold cmd_cat. destruct arg as [|c arg]; [by destruct Hn|]. set (path := full_path (dir_text cs) (c :: arg)) in *.
  rewrite (kbind _ _ w path w) by by unfold lift; rewrite Er. rewrite (kbind _ _ w false w) by by apply user_mode_off, S.
  rewrite (kbind _ _ _ _ _ E1), Eq.
  rewrite (kbind (type_of q) _ w1 VFS_FILE w1).
  2: { unfold type_of. rewrite (type_law w1 q o), (prints_data _ _ _ _ P1), Hd; [done|by eapply prints_ok|done]. }
  change (VFS_FILE =? VFS_FILE) with true. cbn iota.
  destruct (cat_loop n w1 q o d 0) as (w2 & E2 & P2); try done; [by eapply prints_ok|by rewrite (prints_data _ _ _ _ P1)|unfold len; lia|].
  destruct (newline_prints w2) as (w3 & E3 & P3); [by eapply prints_ok|].
  rewrite (kbind _ _ w1 () w3) by (rewrite (kbind _ _ _ _ _ E2); exact E3).
  destruct (close_prints w3 q o) as (w4 & E4 & P4); [by eapply prints_ok| |].
  { eapply prints_den; [exact P3|]. by eapply prints_den. }
  exists w4. split; [exact E4|]. eapply prints_nil_trans; [exact P1|]. eapply prints_trans; [exact P2|].
  rewrite <- (app_nil_r NL). by eapply prints_trans.
Qed.

(** [cat] prints a file, each block of 512 bytes up to a null in it: all of a text. *)
Theorem cat_prints_file n w cs ro arg o d : stands w ro cs → names_object w ro cs arg o → data w o = Some d →
  len d + 512 < 2 ^ 32 → enough_for d n →
  ∃ w', cmd_cat n (dir_text cs) arg w = Ok ((), w') ∧ stands w' ro cs ∧ data w' = data w ∧
    printed w' = printed w ++ cat_text n d ++ NL ∧ (0 ∉ d → cat_text n d = d).
Proof.
  intros S Hn Hd Hl Hf. destruct (cat_file n w cs ro arg o d S Hn Hd Hl Hf) as (w' & E & P). exists w'.
  split_and!; [done|by eapply stands_prints|apply P|apply P|]. apply cat_text_all. unfold enough_for in Hf. lia.
Qed.

(** The text and the node of the working directory part: after [cd nm/..] and [cd ..] at the
    root the text is the directory [nm], and paths are read from there, while the node
    is the root. *)
Theorem cd_leaves_text_behind w ro nm o : parents w → stands w ro [] → dir_name nm → child w ro nm = Some o → data w ro = None →
  ∃ w', (cwd ← cmd_cd [SLASH] (nm ++ SLASH :: DOTDOT); cmd_cd cwd DOTDOT) w = Ok (SLASH :: nm, w') ∧
    den w' (cwd_node w') ro ∧ components (SLASH :: nm) = [nm] ∧ resolve w' ro [nm] = Some o.
Proof.
  intros Hp S Hn Ho Hd. pose proof (stands_based _ _ _ S) as B. destruct Hn as [Hok [Hn1 Hn2]]. pose proof Hok as [Hne [Hs Hl]].
  pose proof (components_name nm Hne Hs) as Ecn.
  assert (Ea : absolute (nm ++ SLASH :: DOTDOT) = false).
  { destruct nm as [|c nm]; [done|]. cbn. apply Z.eqb_neq. set_solver. }
  assert (Ef : full_path [SLASH] (nm ++ SLASH :: DOTDOT) = SLASH :: nm ++ SLASH :: DOTDOT) by (unfold full_path; by rewrite Ea).
  assert (Ec : components (SLASH :: nm ++ SLASH :: DOTDOT) = [nm; DOTDOT]).
  { change (SLASH :: nm ++ SLASH :: DOTDOT) with ([] ++ SLASH :: nm ++ SLASH :: DOTDOT). by rewrite !components_app, Ecn. }
  assert (Hr : resolve w ro [nm; DOTDOT] = Some ro).
  { cbn [resolve]. rewrite !(bool_decide_eq_false_2 (nm = _)) by done. rewrite Ho. cbn. by rewrite (Hp _ _ _ Ho). }
  assert (Hlen : len (nm ++ SLASH :: DOTDOT) ≤ 130) by (rewrite len_app; unfold len; cbn; lia).
  assert (Hh1 : is_home (nm ++ SLASH :: DOTDOT) = false).
  { unfold is_home, strcmp_eq. rewrite !bool_decide_eq_false_2; [done|..]; intros E; apply (f_equal length) in E;
      rewrite length_app in E; cbn in E; lia. }
  pose proof (cd_path w ro [SLASH] (nm ++ SLASH :: DOTDOT) B eq_refl ltac:(by vm_compute) ltac:(lia) Hh1) as H1.
  rewrite Ef, Ec, Hr in H1. cbn [mbind option_bind] in H1. rewrite Hd in H1.
  destruct H1 as (w1 & E1 & M1). { rewrite !Forall_cons. split_and!; [done|cbn; lia|done]. }
  set (t1 := SLASH :: nm ++ SLASH :: DOTDOT) in *.
  assert (Ht1 : cd_text [SLASH] (nm ++ SLASH :: DOTDOT) t1 = t1).
  { unfold cd_text, strcmp_eq. rewrite !bool_decide_eq_false_2.
    - unfold set_cwd_text, t1. apply firstn_all2. unfold len in Hlen. cbn [List.length]. lia.
    - intros E. apply (f_equal length) in E. rewrite length_app in E. cbn in E. lia.
    - intros E. apply (f_equal length) in E. rewrite length_app in E. cbn in E. destruct nm; [done|cbn in E; lia]. }
  rewrite Ht1 in E1. rewrite (kbind _ _ _ _ _ E1).
  assert (Hlast : List.last t1 0 = 46) by (replace t1 with ((SLASH :: nm ++ [SLASH; 46]) ++ [46]) by (unfold t1; cbn [app]; by rewrite <- app_assoc);
    apply List.last_last).
  assert (Ef2 : full_path t1 DOTDOT = t1 ++ SLASH :: DOTDOT) by (unfold full_path; by rewrite Hlast).
  assert (Ec2 : components (t1 ++ SLASH :: DOTDOT) = [nm; DOTDOT; DOTDOT]) by by rewrite components_app, Ec.
  assert (Hr2 : resolve w1 ro [nm; DOTDOT; DOTDOT] = Some ro).
  { rewrite (moved_resolve _ _ _ _ _ M1), (resolve_app w [nm; DOTDOT] [DOTDOT]), Hr. cbn. rewrite (den_root_up w ro); [done|apply S..]. }
  pose proof (cd_path w1 ro t1 DOTDOT (mo_based _ _ _ _ M1) eq_refl) as H2. rewrite Ef2, Ec2, Hr2 in H2.
  cbn [mbind option_bind] in H2. rewrite (mo_data _ _ _ _ M1), Hd in H2.
  destruct H2 as (w2 & E2 & M2); [unfold t1, len in *; cbn [List.length]; lia|by vm_compute|done| |].
  { rewrite !Forall_cons. split_and!; [done|cbn; lia|cbn; lia|done]. }
  assert (Ht2 : cd_text t1 DOTDOT (t1 ++ SLASH :: DOTDOT) = SLASH :: nm).
  { unfold cd_text, parent_text, strcmp_eq. rewrite bool_decide_eq_true_2, bool_decide_eq_false_2; [|unfold t1; by destruct nm|done].
    unfold t1. rewrite app_comm_cons, last_slash_app by set_solver. cbn [List.length].
    change (Datatypes.S (length nm)) with (length (SLASH :: nm)). by rewrite take_app_length. }
  rewrite Ht2 in E2. exists w2. split_and!; [done|apply M2|by cbn [components]; rewrite Z.eqb_refl|].
  rewrite (moved_resolve _ _ _ _ _ M2), (moved_resolve _ _ _ _ _ M1). cbn [resolve]. rewrite bool_decide_eq_false_2 by done.
  rewrite bool_decide_eq_false_2 by done. by rewrite Ho.
Qed.
End files.

(** ** A machine

    Directories [/] and [/d], the file [/f]; what is printed is a list, no program can
    be loaded, and there is no memory to give out. *)
Module Machine.

Record machine : Type := mk_machine { m_files : gmap Z (list Z); m_out : list Z; m_cwd : Z }.

Definition children (p : Z) : list (list Z * Z) :=
  if p =? 1 then [([100], 2); ([102], 3)] else [].
Definition exists_node (p : Z) : bool := (1 <=? p) && (p <=? 3).
Fixpoint assoc (nm : list Z) (l : list (list Z * Z)) : Z :=
  match l with [] => 0 | (x, p) :: l' => if bool_decide (x = nm) then p else assoc nm l' end.

#[export] Instance m_nodes : VirtualNode machine := {|
  vfs_root := λ _, 1;
  cwd_node := m_cwd;
  parent := λ _ _, Ok 1;
  node_open := λ _ w, Ok w;
  node_close := λ _ w, Ok w;
  node_finddir := λ p nm w, Ok (assoc nm (children p), w);
  node_read := λ p off n w, d ← of_option (m_files w !! p); Ok (sub off n d, w);
  node_write := λ p off bs w,
    d ← of_option (m_files w !! p); Ok (len bs, mk_machine (<[p := splice off bs d]> (m_files w)) (m_out w) (m_cwd w));
  node_readdir := λ p i w,
    Ok (option_map (λ '(nm, q), mk_dirent nm q VFS_DIRECTORY) (children p !! Z.to_nat i), w);
  node_create := λ _ _ _ w, Ok (0, w);
  node_mkdir := λ _ _ _ w, Ok (-1, w);
  node_unlink := λ _ _ w, Ok (false, w)
|}.

#[export] Instance m_fields : Syscall.NodeFields machine := {|
  Syscall.node_type := λ p w, Ok (match m_files w !! p with Some _ => VFS_FILE | None => VFS_DIRECTORY end);
  Syscall.node_size := λ p w, Ok (match m_files w !! p with Some d => len d | None => 0 end);
  Syscall.node_inode := λ p _, Ok p
|}.

#[export] Instance m_screen : Screen machine := {|
  putchar := λ c w, Ok ((), mk_machine (m_files w) (m_out w ++ [c]) (m_cwd w));
  terminal_setcolor := λ _ w, Ok ((), w);
  terminal_clear := λ w, Ok ((), w);
  terminal_move_cursor := λ _ w, Ok ((), w);
  serial_move_cursor := λ _ w, Ok ((), w);
  keyboard_getchar := λ w, Ok (10, w)
|}.

(** Every system call fails. *)
#[export] Instance m_calls : SystemCalls machine := {|
  is_user_mode := λ _, false;
  syscall := λ _ w, Ok ((Syscall.FAIL, Nothing), w);
  set_cwd_node := λ p w, mk_machine (m_files w) (m_out w) p;
  outb := λ _ _ w, Ok ((), w)
|}.

#[export] Instance m_alloc : Allocator machine := {| kmalloc := λ _ w, Ok (0, w); kfree := λ _ w, Ok ((), w) |}.

#[export] Instance m_tasks : Tasks machine := {|
  current_id := λ _, Some 1;
  thread_exists := λ _ _, false;
  thread_sleep := λ _ w, Ok ((), w);
  thread_kill := λ _ w, Ok (false, w);
  thread_get_id_by_name := λ _ _, THREAD_NOT_FOUND;
  thread_print_list := λ w, Ok ((), w);
  timer_get_ticks := λ _, 0;
  kex_load := λ _ _ w, Ok (-1, w)
|}.

#[export] Instance m_memory : Memory machine := {|
  pfa_alloc_frame := λ w, Ok (0, w);
  pfa_free_frame := λ _ w, Ok ((), w);
  paging_map_page := λ _ _ _ w, Ok ((), w);
  paging_unmap_page := λ _ w, Ok ((), w);
  paging_get_physical_address := λ _ w, Ok (0, w);
  paging_get_stats := λ _, Paging.mk_stats 0 0 0 0;
  kheap_get_stats := λ w, Ok (Heap.mk_stats 0 0 0 0 0, w);
  get_kheap_start := λ _, 0;
  get_total_allocated := λ _, 0;
  peek := λ _ _, Fault
|}.

Lemma children_nodes p nm : assoc nm (children p) ≠ 0 → exists_node (assoc nm (children p)) = true.
Proof.
  unfold children. destruct (p =? 1); [|done]. cbn [assoc]. by repeat case_bool_decide.
Qed.

#[export] Program Instance m_tree : FileTree machine := {|
  obj := Z;
  tree_ok := λ _, True;
  den := λ _ p o, p = o ∧ exists_node p = true;
  child := λ _ o nm, let q := assoc nm (children o) in if q =? 0 then None else Some q;
  up := λ _ _, Some 1
|}.
Next Obligation. intros w p o _ [_ H] ->. done. Qed.
Next Obligation. by intros w o _ [<- _]. Qed.
Next Obligation. intros w p o _ H. exists w. by split. Qed.
Next Obligation. intros w p o _ H. exists w. by split. Qed.
Next Obligation.
  intros w p o nm _ [-> _] _. cbn. exists (assoc nm (children o)), w. split; [done|]. split; [done|].
  destruct (Z.eqb_spec (assoc nm (children o)) 0) as [->|Hn]; [done|]. split; [done|by apply children_nodes].
Qed.
Next Obligation. intros w p o _ _ _. exists 1. by split. Qed.

#[export] Program Instance m_shell : FileShell machine := {|
  printed := m_out;
  data := λ w o, m_files w !! o
|}.
Next Obligation. done. Qed.
Next Obligation. intros w c _. eexists. split; [reflexivity|]. by split_and!. Qed.
Next Obligation. by intros w p w' [= ->]. Qed.
Next Obligation. by intros w p w' [= ->]. Qed.
Next Obligation. by intros w p nm q w' [= _ ->]. Qed.
Next Obligation. by intros w p o _ [-> _]. Qed.
Next Obligation.
  intros w p o d off n _ [-> _] E _ _ _. cbn in *. rewrite E. cbn. exists w. by split_and!.
Qed.
Next Obligation. intros w p o _ H. split_and!; done. Qed.

Definition fresh : machine := mk_machine {[3 := [104; 105]]} [] 0.

Lemma fresh_stands : stands fresh 1 [].
Proof.
  constructor; [done|done|done|by vm_compute|]. exists 1. split_and!; [done|by vm_compute|by left].
Qed.

Lemma machine_parents w : parents w.
Proof.
  intros o nm o'. cbn. unfold children. by destruct (Z.eqb_spec o 1) as [->|].
Qed.
End Machine.

(** ** Witnesses *)

Section witnesses.
Import Machine.

Lemma cd_moves_witness : ∃ w', cmd_cd [SLASH] [100] fresh = Ok ([SLASH; 100], w') ∧ cwd_node w' = 2.
Proof.
  destruct (@cd_moves machine m_fields m_nodes m_screen m_calls m_tree m_shell fresh [] 1 (Below [[100]])) as (w' & _ & H).
  - apply machine_parents.
  - apply fresh_stands.
  - split_and!; [|done|done]. constructor; [|done]. split_and!; [|done|done]. split_and!; [done|by vm_compute; set_solver|cbn; lia].
  - by vm_compute.
  - by vm_compute.
  - by vm_compute.
  - assert (E : directory_at fresh 1 (goto [] (Below [[100]])) = Some 2) by (vm_compute; reflexivity).
    rewrite E in H. destruct H as (H & _ & [Hn _] & _). exists w'. split; [exact H|exact Hn].
Defined.

Lemma cat_prints_file_witness : ∃ w', cmd_cat 3 [SLASH] [102] fresh = Ok ((), w') ∧ printed w' = [104; 105; 10].
Proof.
  destruct (@cat_prints_file machine m_fields m_nodes m_screen m_calls m_tree m_shell 3 fresh [] 1 [102] 3 [104; 105]) as (w' & E & _ & _ & H & _).
  - apply fresh_stands.
  - split_and!; [done|by vm_compute| |by vm_compute]. constructor; [cbn; lia|done].
  - by vm_compute.
  - by vm_compute.
  - unfold enough_for. cbn. lia.
  - exists w'. split; [exact E|exact H].
Defined.

Lemma cd_leaves_text_behind_witness : ∃ w',
  (cwd ← cmd_cd [SLASH] [100; 47; 46; 46]; cmd_cd cwd DOTDOT) fresh = Ok ([SLASH; 100], w') ∧ cwd_node w' = 1.
Proof.
  destruct (@cd_leaves_text_behind machine m_fields m_nodes m_screen m_calls m_tree m_shell fresh 1 [100] 2) as (w' & E & [H _] & _).
  - apply machine_parents.
  - apply fresh_stands.
  - split_and!; [|done|done]. split_and!; [done|by vm_compute; set_solver|cbn; lia].
  - by vm_compute.
  - by vm_compute.
  - exists w'. split; [exact E|exact H].
Defined.

Lemma command_line_arguments_witness :
  shell_execute 1 [SLASH] (blanks 1 ++ [112] ++ join [(0%nat, [97]); (2%nat, [98; 99])] ++ blanks 2) fresh =
    Ok ([SLASH], mk_machine (m_files fresh)
      (chars "Unknown command: p a   bc  " ++ NL ++ chars "Type 'help' for available commands") 0).
Proof.
  rewrite (command_line_arguments 1 [SLASH] 1 [112] [(0%nat, [97]); (2%nat, [98; 99])] 2 fresh).
  - vm_compute. reflexivity.
  - split; [done|by repeat constructor].
  - cbn. lia.
  - by vm_compute; set_solver.
  - repeat constructor; done.
  - by vm_compute.
  - cbn. lia.
Defined.
End witnesses.

(** In user mode [ls] does not stop at an error: the answer of the call is unsigned. *)
Lemma list_user_loops {W} `{!Screen W, !SystemCalls W} n fd de :
  (∀ c w, syscall c w = Ok ((Syscall.FAIL, Nothing), w)) → (∀ c w, ∃ w', putchar c w = Ok ((), w')) →
  ∀ i w, list_user n fd i (Some de) w = OutOfFuel.
Proof.
  intros Hs Hp. assert (Hput : ∀ bs w, ∃ w', put_all bs w = Ok ((), w')).
  { induction bs as [|b bs IH]; intros w; [by exists w|]. cbn [put_all]. destruct (Hp b w) as [w1 E1].
    destruct (IH w1) as [w2 E2]. exists w2. by rewrite (kbind _ _ _ _ _ E1). }
  induction n as [|n IH]; intros i w; [done|]. cbn [list_user].
  rewrite (kbind _ _ _ _ _ (Hs _ _)). change (0 <? Syscall.FAIL) with true. cbn iota.
  rewrite (kbind (mret de) _ w de w) by done.
  assert (Ep : ∃ w', printf (chars "%s  ") [Stdio.ArgStr (Some (de_name de))] w = Ok ((), w')).
  { unfold printf, lift. change (chars "%s  ") with ([string_conv; Stdio.Text [32; 32]] ≫= Stdio.unparse).
    rewrite (vprintf_segments _ _ (de_name de ++ [32; 32])); [apply Hput|done|].
    cbn -[Stdio.padded List.length app]. by rewrite padded_0, app_nil_r. }
  destruct Ep as [w' E]. rewrite (kbind _ _ _ _ _ E). apply IH.
Qed.
End ShellFiles.
