(* ===== verification/ShellLine.v ===== *)
(** * The shell: the line editor (kernel/shell.cpp)

    The line is an array with an end and a cursor; keys insert and delete at the
    cursor, move it, or fetch a line of the history; every key also prints, so that
    the screen shows the line.  The specification is a zipper, the characters on
    the two sides of the cursor, and the list of the lines entered before.  One
    theorem says that each key does to the array, the screen and the cursor what it
    does to the zipper, for lines of any length and across scrolling; others are
    about the history and the completion of commands and paths, which can write
    behind the end of the array. *)

From Stdlib Require Import String.
From S2P Require Import Prelude LibcString LibcStdlib Paging Heap Vga Stdio Bytes Block Vfs Syscall Shell.

Module ShellLine.
Import Bytes Block Vfs Shell.
#[local] Close Scope string_scope.
#[local] Open Scope list_scope.
#[local] Abbreviation length := List.length.
#[local] Abbreviation chars := LibcStdlib.chars.

Definition SHELL_BUFFER_SIZE : Z := 1024.
Definition MAX_HISTORY : Z := 10.
Definition KEY_UP : Z := 0x11.
Definition KEY_DOWN : Z := 0x12.
Definition KEY_LEFT : Z := 0x13.
Definition KEY_RIGHT : Z := 0x14.
Definition BACKSPACE : Z := 8.
Definition TAB : Z := 9.

(** The variables of the file and the local [cursor_pos]. *)
Record shell : Type := mk_shell {
  input_buffer : list Z;
  buffer_pos : Z;
  cursor_pos : Z;
  current_working_directory : list Z;
  history : list (list Z);
  history_count : Z;
  history_index : Z
}.

Definition set_line (b : list Z) (n c : Z) (s : shell) : shell :=
  mk_shell b n c (current_working_directory s) (history s) (history_count s) (history_index s).
Definition set_cwd (d : list Z) (s : shell) : shell :=
  mk_shell (input_buffer s) (buffer_pos s) (cursor_pos s) d (history s) (history_count s) (history_index s).
Definition set_history (h : list (list Z)) (n : Z) (s : shell) : shell :=
  mk_shell (input_buffer s) (buffer_pos s) (cursor_pos s) (current_working_directory s) h n (history_index s).
Definition set_index (i : Z) (s : shell) : shell :=
  mk_shell (input_buffer s) (buffer_pos s) (cursor_pos s) (current_working_directory s) (history s) (history_count s) i.

(** Elements of arrays; outside is a fault. *)
Definition get_at {A} (i : Z) (l : list A) : outcome A :=
  if i <? 0 then Fault else of_option (l !! Z.to_nat i).
Definition put_at {A} (i : Z) (x : A) (l : list A) : outcome (list A) :=
  if (0 <=? i) && (i <? len l) then Ok (<[Z.to_nat i := x]> l) else Fault.

(** The string in an array, which must have a null. *)
Fixpoint string_in (b : list Z) : outcome (list Z) :=
  match b with [] => Fault | c :: b' => if c =? 0 then Ok [] else s ← string_in b'; Ok (c :: s) end.
(** [strcpy] to an array. *)
Definition strcpy (s b : list Z) : outcome (list Z) := put_bytes 0 (s ++ [0]) b.

(** [memset] of the buffer and the history, as the loader left them too. *)
Definition shell_init (s : shell) : shell :=
  mk_shell (replicate 1024 0) 0 (cursor_pos s) (current_working_directory s) (replicate 10 (replicate 1024 0)) 0 (-1).

(** [for (i = hi; i > lo; i--) b[i] = b[i - 1]], from [i] with [n] steps. *)
Fixpoint shift_right (n : nat) (i : Z) (b : list Z) : outcome (list Z) :=
  match n with
  | O => Ok b
  | S n' => x ← get_at (i - 1) b; b ← put_at i x b; shift_right n' (i - 1) b
  end.
(** [for (i = lo; i < hi; i++) b[i] = b[i + 1]] *)
Fixpoint shift_left (n : nat) (i : Z) (b : list Z) : outcome (list Z) :=
  match n with
  | O => Ok b
  | S n' => x ← get_at (i + 1) b; b ← put_at i x b; shift_left n' (i + 1) b
  end.

(** The lines move one place back: [for (i = 9; i > 0; i--) memcpy(history[i], history[i-1])]. *)
Fixpoint shift_history (n : nat) (i : Z) (h : list (list Z)) : outcome (list (list Z)) :=
  match n with
  | O => Ok h
  | S n' => x ← get_at (i - 1) h; h ← put_at i x h; shift_history n' (i - 1) h
  end.

(** The part of the loop that keeps an entered line, unless it repeats the last one. *)
Definition remember (s : shell) : outcome shell :=
  line ← string_in (input_buffer s);
  h0 ← get_at 0 (history s);
  same ← (if history_count s =? 0 then Ok false else last ← string_in h0; Ok (bool_decide (line = last)));
  if (same : bool) then Ok s else
  h ← shift_history 9 (MAX_HISTORY - 1) (history s);
  h0 ← get_at 0 h;
  h0 ← strcpy line h0;
  h ← put_at 0 h0 h;
  Ok (set_history h (if history_count s <? MAX_HISTORY then history_count s + 1 else history_count s) s).

Section editor.
Context {W : Type} {NF : Syscall.NodeFields W} `{!VirtualNode W, !Allocator W}.
Context `{!Screen W, !Tasks W, !Memory W, !SystemCalls W}.

Definition move_cursor (dx : Z) : kernel W unit := terminal_move_cursor dx;; serial_move_cursor dx.

(** [for (i = lo; i < hi; i++) printf("%c", b[i])] *)
Fixpoint print_from (n : nat) (i : Z) (b : list Z) : kernel W unit :=
  match n with
  | O => mret ()
  | S n' => c ← lift (get_at i b); print_char c;; print_from n' (i + 1) b
  end.

Fixpoint print_spaces (n : nat) : kernel W unit :=
  match n with O => mret () | S n' => print " ";; print_spaces n' end.

Definition insert_char (c : Z) (s : shell) : kernel W shell :=
  b ← lift (shift_right (Z.to_nat (buffer_pos s - cursor_pos s)) (buffer_pos s) (input_buffer s));
  b ← lift (put_at (cursor_pos s) c b);
  let n := buffer_pos s + 1 in
  let cur := cursor_pos s + 1 in
  print_from (Z.to_nat (n - (cur - 1))) (cur - 1) b;;
  move_cursor (- (n - cur));;
  mret (set_line b n cur s).

Definition delete_char (s : shell) : kernel W shell :=
  let cur := cursor_pos s - 1 in
  let n := buffer_pos s - 1 in
  b ← lift (shift_left (Z.to_nat (n - cur)) cur (input_buffer s));
  b ← lift (put_at n 0 b);
  move_cursor (-1);;
  print_from (Z.to_nat (n - cur)) cur b;;
  print " ";;
  move_cursor (- (n - cur + 1));;
  mret (set_line b n cur s).

(** The line on the screen is overwritten with spaces. *)
Definition erase_line (s : shell) : kernel W unit :=
  move_cursor (- cursor_pos s);;
  print_spaces (Z.to_nat (buffer_pos s));;
  move_cursor (- buffer_pos s).

Definition show_history (s : shell) : kernel W shell :=
  h ← lift (get_at (history_index s) (history s));
  line ← lift (string_in h);
  b ← lift (strcpy line (input_buffer s));
  print_string line;;
  mret (set_line b (len line) (len line) s).

Definition key_up (s : shell) : kernel W shell :=
  if (0 <? history_count s) && (history_index s <? history_count s - 1) then
    let s := set_index (history_index s + 1) s in erase_line s;; show_history s
  else mret s.

Definition key_down (s : shell) : kernel W shell :=
  if 0 <? history_index s then
    let s := set_index (history_index s - 1) s in erase_line s;; show_history s
  else if history_index s =? 0 then
    let s := set_index (-1) s in
    erase_line s;;
    b ← lift (put_at 0 0 (input_buffer s));
    mret (set_line b 0 0 s)
  else mret s.

Definition key_left (s : shell) : kernel W shell :=
  if 0 <? cursor_pos s then
    move_cursor (-1);; mret (set_line (input_buffer s) (buffer_pos s) (cursor_pos s - 1) s)
  else mret s.

Definition key_right (s : shell) : kernel W shell :=
  if cursor_pos s <? buffer_pos s then
    move_cursor 1;; mret (set_line (input_buffer s) (buffer_pos s) (cursor_pos s + 1) s)
  else mret s.

Definition enter (fuel : nat) (s : shell) : kernel W shell :=
  printf NL [];;
  b ← lift (put_at (buffer_pos s) 0 (input_buffer s));
  let s := set_line b (buffer_pos s) (cursor_pos s) s in
  s ← (if 0 <? buffer_pos s then
         s ← lift (remember s);
         line ← lift (string_in (input_buffer s));
         cwd ← shell_execute fuel (current_working_directory s) line;
         mret (set_cwd cwd s)
       else mret s);
  let s := set_index (-1) (set_line (input_buffer s) 0 0 s) in
  shell_prompt (current_working_directory s);;
  mret s.

(** *** Completion *)

(** [input_buffer[buffer_pos++] = c; printf("%c", c);] for the characters of a string. *)
Fixpoint append_chars (cs : list Z) (s : shell) : kernel W shell :=
  match cs with
  | [] => mret s
  | c :: cs' =>
      b ← lift (put_at (buffer_pos s) c (input_buffer s));
      print_char c;;
      append_chars cs' (set_line b (buffer_pos s + 1) (cursor_pos s) s)
  end.

(** The last character, printed as a string. *)
Definition append_last (c : Z) (s : shell) : kernel W shell :=
  b ← lift (put_at (buffer_pos s) c (input_buffer s));
  printf [c] [];;
  mret (set_line b (buffer_pos s + 1) (cursor_pos s) s).

(** [printf("\b \b"); buffer_pos--;] *)
Fixpoint take_back (n : nat) (s : shell) : kernel W shell :=
  match n with
  | O => mret s
  | S n' => printf [8; 32; 8] [];; take_back n' (set_line (input_buffer s) (buffer_pos s - 1) (cursor_pos s) s)
  end.

Fixpoint print_names (ns : list (list Z)) : kernel W unit :=
  match ns with [] => mret () | n :: ns' => printf (chars "%s  ") [Stdio.ArgStr (Some n)];; print_names ns' end.

Definition prompt_again (s : shell) : kernel W unit :=
  shell_prompt (current_working_directory s);;
  line ← lift (string_in (input_buffer s));
  print_string line.

Definition matching_commands (line : list Z) (n : Z) : list (list Z) :=
  List.filter (λ c, strncmp_eq line c n) (chars <$> command_list).

Definition complete_command (line : list Z) (s : shell) : kernel W shell :=
  match matching_commands line (buffer_pos s) with
  | [] => mret s
  | [m] => s ← append_chars (drop (Z.to_nat (buffer_pos s)) m) s; append_last BLANK s
  | ms => printf NL [];; print_names ms;; prompt_again s;; mret s
  end.

(** The part of a path before the last slash, for the directory, and the part behind it;
    [path_temp] holds 255 characters of the path. *)
Definition split_search (file_part : list Z) : option nat * list Z * list Z :=
  let path_temp := take 255 file_part in
  match last_slash path_temp with
  | None => (None, path_temp, file_part)
  | Some i =>
      let term := match last_slash file_part with Some k => drop (k + 1) file_part | None => [] end in
      (Some i, take i path_temp, term)
  end.

Definition entry_match (term : list Z) (de : vfs_dirent) : bool := strncmp_eq term (de_name de) (len term).

(** The entries that begin with [term], 64 at most, in reverse; [n] entries are looked at. *)
Fixpoint search_user (n : nat) (fd i : Z) (old : option vfs_dirent) (term : list Z) (found : list (list Z * Z))
  : kernel W (list (list Z * Z)) :=
  match n with
  | O => forever
  | S n' =>
      '(r, de) ← syscall (SYS_READDIR (u64 fd) i);
      if (0 <? r) && (length found <? 64)%nat then
        de ← match de, old with Dirent de, _ => mret de | _, Some de => mret de | _, None => lift Fault end;
        if entry_match term de then
          nm ← lift (copy_local 128 (de_name de));
          search_user n' fd (i + 1) (Some de) term ((nm, u8 (de_type de)) :: found)
        else search_user n' fd (i + 1) (Some de) term found
      else mret found
  end.

Fixpoint search_kernel (n : nat) (dir i : Z) (term : list Z) (found : list (list Z * Z))
  : kernel W (list (list Z * Z)) :=
  match n with
  | O => forever
  | S n' =>
      de ← (vfs_readdir dir i : kernel W (option vfs_dirent));
      match de with
      | Some de =>
          if (length found <? 64)%nat then
            if entry_match term de then
              nm ← lift (copy_local 128 (de_name de));
              search_kernel n' dir (u32 (i + 1)) term ((nm, u8 (de_type de)) :: found)
            else search_kernel n' dir (u32 (i + 1)) term found
          else mret found
      | None => mret found
      end
  end.

(** The directory to search and whether it is closed afterwards; [None] when there is none. *)
Definition search_directory (file_part : list Z) (slash : option nat) (path_temp : list Z)
  : kernel W (option (Z * bool)) :=
  node ← get_cwd_node;
  root ← get_vfs_root;
  let start := if absolute file_part then root else if negb (node =? 0) then node else root in
  match slash with
  | Some (S _) =>
      target ← open_path path_temp;
      if target =? 0 then mret None else
      type ← type_of target;
      if type =? VFS_DIRECTORY then mret (Some (target, true)) else close_node target;; mret None
  | _ => mret (Some (start, false))
  end.

(** The matches, or [None] for the early return. *)
Definition find_matches (fuel : nat) (file_part : list Z) (s : shell) : kernel W (option (list (list Z * Z))) :=
  let '(slash, path_temp, term) := split_search file_part in
  user ← user_mode;
  if (user : bool) then
    let dir := match slash with None => current_working_directory s | Some O => [SLASH] | Some _ => path_temp end in
    fd ← syscall_int (SYS_OPEN dir 0);
    if 0 <=? fd then
      ms ← search_user fuel fd 0 None term [];
      syscall (SYS_CLOSE (u64 fd));;
      mret (Some (rev ms))
    else mret (Some [])
  else
    d ← search_directory file_part slash path_temp;
    match d with
    | None => mret None
    | Some (dir, should_close) =>
        ms ← search_kernel fuel dir 0 term [];
        node ← get_cwd_node;
        root ← get_vfs_root;
        (if should_close && negb (dir =? root) && negb (dir =? node) then close_node dir else mret ());;
        mret (Some (rev ms))
    end.

Definition is_dir (m : list Z * Z) : bool := m.2 =? VFS_DIRECTORY.

Fixpoint print_matches (ms : list (list Z * Z)) : kernel W unit :=
  match ms with
  | [] => mret ()
  | m :: ms' =>
      (if is_dir m then shell_setcolor (on_black LIGHT_BLUE) else mret ());;
      printf (chars "%s%s  ") [Stdio.ArgStr (Some m.1); Stdio.ArgStr (Some (if is_dir m then [SLASH] else []))];;
      shell_setcolor (on_black WHITE);;
      print_matches ms'
  end.

Definition complete_path (fuel : nat) (file_part : list Z) (s : shell) : kernel W shell :=
  let '(_, _, term) := split_search file_part in
  ms ← find_matches fuel file_part s;
  match ms with
  | None | Some [] => mret s
  | Some [m] =>
      s ← take_back (length term) s;
      s ← append_chars m.1 s;
      append_last (if is_dir m then SLASH else BLANK) s
  | Some ms => printf NL [];; print_matches ms;; prompt_again s;; mret s
  end.

Definition shell_tab_completion (fuel : nat) (s : shell) : kernel W shell :=
  if buffer_pos s =? 0 then mret s else
  b ← lift (put_at (buffer_pos s) 0 (input_buffer s));
  let s := set_line b (buffer_pos s) (cursor_pos s) s in
  line ← lift (string_in b);
  match split_at BLANK line with
  | None => complete_command line s
  | Some (_, rest) => complete_path fuel (skip_while is_blank rest) s
  end.

(** *** The loop *)

(** In user mode a character is read with a system call. *)
Definition getchar : kernel W Z :=
  user ← user_mode;
  if (user : bool) then
    '(r, bs) ← syscall (SYS_READ 0 1);
    if r =? 1 then match bs with Bytes_read (c :: _) => mret c | _ => lift Fault end else mret (-1)
  else keyboard_getchar.

Definition printable (c : Z) : bool := (32 <=? c) && (c <=? 126).

(** One turn of the loop of [shell_run]. *)
Definition handle_key (fuel : nat) (c : Z) (s : shell) : kernel W shell :=
  if c =? 0 then mret s
  else if (c =? 10) || (c =? 13) then enter fuel s
  else if c =? BACKSPACE then if 0 <? cursor_pos s then delete_char s else mret s
  else if c =? TAB then
    if cursor_pos s =? buffer_pos s then
      s ← shell_tab_completion fuel s; mret (set_line (input_buffer s) (buffer_pos s) (buffer_pos s) s)
    else mret s
  else if (buffer_pos s <? SHELL_BUFFER_SIZE - 1) && printable c then insert_char c s
  else if c =? KEY_UP then key_up s
  else if c =? KEY_DOWN then key_down s
  else if c =? KEY_LEFT then key_left s
  else if c =? KEY_RIGHT then key_right s
  else mret s.

(** [keys] turns of the loop. *)
Fixpoint shell_loop (fuel keys : nat) (s : shell) : kernel W shell :=
  match keys with
  | O => mret s
  | S k => c ← getchar; s ← handle_key fuel (u8 c) s; shell_loop fuel k s
  end.

Definition shell_run (fuel keys : nat) (s : shell) : kernel W shell :=
  shell_prompt (current_working_directory s);; shell_loop fuel keys (set_line (input_buffer s) (buffer_pos s) 0 s).
End editor.

(** ** What the console shows *)

(** [displays w col s]: the screen is [s] and characters are printed in the colour [col]. *)
Class ScreenLaws (W : Type) `{!Screen W} := {
  displays : W → Vga.vga_color_t → Vga.screen → Prop;
  screen_grid w col s : displays w col s → Vga.grid (Vga.rows s) ∧ 0 ≤ Vga.row s < 25 ∧ 0 ≤ Vga.col s < 80;
  put_screen w col s c : displays w col s → byte c →
    ∃ w', putchar c w = Ok ((), w') ∧ displays w' col (Vga.screen_putchar col s c);
  move_screen w col s dx : displays w col s → -4096 ≤ dx ≤ 4096 →
    let pos := Z.max 0 (Z.min 1999 (80 * Vga.row s + Vga.col s + dx)) in
    ∃ w', terminal_move_cursor dx w = Ok ((), w') ∧ displays w' col (Vga.mk_screen (Vga.rows s) (pos / 80) (pos mod 80));
  serial_screen w col s dx : displays w col s → ∃ w', serial_move_cursor dx w = Ok ((), w') ∧ displays w' col s
}.

(** The cells of the screen in a row, and the place of the cursor in it. *)
Definition cells (s : Vga.screen) : list Z := concat (Vga.rows s).
Definition place (s : Vga.screen) : nat := Z.to_nat (80 * Vga.row s + Vga.col s).

(** The screen has the characters of [l] in a row from some cell on, and the cursor on the
    one with the number [k], or behind them. *)
Definition shown (col : Vga.vga_color_t) (s : Vga.screen) (l : list Z) (k : nat) : Prop :=
  Vga.grid (Vga.rows s) ∧ 0 ≤ Vga.row s < 25 ∧ 0 ≤ Vga.col s < 80 ∧
  ∃ p, (p + length l < 2000)%nat ∧ place s = (p + k)%nat ∧
    ∀ i c, l !! i = Some c → cells s !! (p + i)%nat = Some (Vga.vga_entry c col).

Definition plain_char (c : Z) : Prop := c ≠ 8 ∧ c ≠ 9 ∧ c ≠ 10.

(** [rs] written over [l] from [k] on. *)
Definition over (l : list Z) (k : nat) (rs : list Z) : list Z := take k l ++ rs ++ drop (k + length rs) l.

Lemma cells_length s : Vga.grid (Vga.rows s) → length (cells s) = 2000%nat.
Proof. intros [H1 H2]. unfold cells. rewrite Vga.length_concat80 by done. lia. Qed.

(** Printing a character moves on by one cell, or scrolls at the last one. *)
Lemma put_place col s c : Vga.grid (Vga.rows s) → 0 ≤ Vga.row s < 25 → 0 ≤ Vga.col s < 80 → plain_char c →
  let s' := Vga.screen_putchar col s c in let written := <[place s := Vga.vga_entry c col]> (cells s) in
  Vga.grid (Vga.rows s') ∧ 0 ≤ Vga.row s' < 25 ∧ 0 ≤ Vga.col s' < 80 ∧
  if decide (place s = 1999%nat) then place s' = 1920%nat ∧ cells s' = drop 80 written ++ replicate 80 (Vga.vga_entry 32 col)
  else place s' = S (place s) ∧ cells s' = written.
Proof.
  intros Hg Hr Hc (N8 & N9 & N10) s' written. pose proof Hg as [Hn Hf].
  assert (Ew : cells (Vga.screen_put (Vga.vga_entry c col) s) = written).
  { unfold cells, written, Vga.screen_put, place. cbn [Vga.rows]. rewrite Vga.concat_put by (done || lia).
    f_equal. lia. }
  assert (Hg' : Vga.grid (Vga.rows (Vga.screen_put (Vga.vga_entry c col) s))) by (cbn; by apply Vga.grid_put).
  unfold s', Vga.screen_putchar. rewrite !(proj2 (Z.eqb_neq c _)) by done.
  destruct (Z.eqb_spec (Vga.col s) 79) as [E79|Hne].
  - unfold Vga.line_feed. cbn [Vga.row Vga.screen_put]. destruct (Z.eqb_spec (Vga.row s) 24) as [E24|Hr24].
    + rewrite decide_True by (unfold place; lia). destruct (Vga.grid_scroll _ (Vga.vga_entry 32 col) Hg') as [H1 H2].
      split_and!; cbn; [done|lia..|done|]. unfold cells. cbn [Vga.rows]. cbn in H2. rewrite H2. by rewrite <- Ew.
    + rewrite decide_False by (unfold place; lia). split_and!; cbn; try done; [lia..|unfold place; cbn; lia].
  - rewrite decide_False by (unfold place; lia). split_and!; cbn; try done; [lia..|unfold place; cbn; lia].
Qed.

Lemma over_lookup l k c i : (k ≤ length l)%nat → over l k [c] !! i = if decide (i = k) then Some c else l !! i.
Proof.
  intros Hk. unfold over. cbn [List.length]. rewrite Nat.add_1_r. case_decide as E.
  - subst i. rewrite lookup_app_r by (rewrite length_take; lia). rewrite length_take, Nat.min_l, Nat.sub_diag by lia. done.
  - destruct (decide (i < k)%nat).
    + by rewrite lookup_app_l, lookup_take_lt by (rewrite ?length_take; lia).
    + rewrite lookup_app_r by (rewrite length_take; lia). rewrite length_take, Nat.min_l by lia.
      destruct (i - k)%nat as [|j] eqn:Ej; [lia|]. cbn [app]. rewrite lookup_cons, lookup_drop. f_equal. lia.
Qed.

Lemma over_length l k rs : (k ≤ length l)%nat → length (over l k rs) = Nat.max (length l) (k + length rs).
Proof. intros Hk. unfold over. rewrite !length_app, length_take, length_drop. lia. Qed.

Lemma over_over l k c rs : (k ≤ length l)%nat → over (over l k [c]) (S k) rs = over l k (c :: rs).
Proof.
  intros Hk. unfold over. cbn [List.length app]. rewrite Nat.add_1_r.
  assert (E : length (take k l) = k) by (rewrite length_take; lia).
  assert (E1 : take (S k) (take k l ++ c :: drop (S k) l) = take k l ++ [c]).
  { rewrite take_app_ge by lia. rewrite E. replace (S k - k)%nat with 1%nat by lia. done. }
  rewrite E1, <- app_assoc. cbn [app]. do 3 f_equal. rewrite drop_app_ge by lia. rewrite E.
  replace (S k + length rs - k)%nat with (S (length rs)) by lia. cbn [drop]. rewrite drop_drop. f_equal. lia.
Qed.

Lemma over_nil l k : over l k [] = l.
Proof. unfold over. cbn [List.length app]. rewrite Nat.add_0_r. apply take_drop. Qed.

Lemma shown_put col s l k c : shown col s l k → (k ≤ length l ≤ 1100)%nat → plain_char c →
  shown col (Vga.screen_putchar col s c) (over l k [c]) (S k).
Proof.
  intros (Hg & Hr & Hc & p & Hp & Hk & Hl) Hlen Hch. pose proof (cells_length s Hg) as Hcl.
  destruct (put_place col s c Hg Hr Hc Hch) as (Hg' & Hr' & Hc' & H). split; [done|]. split; [done|]. split; [done|].
  rewrite over_length by lia. cbn [List.length]. case_decide as E.
  - destruct H as [H1 H2]. exists (p - 80)%nat. split_and!; [lia|lia|]. intros i x. rewrite over_lookup by lia.
    rewrite H2. intros Hx. assert (Hi : (i < S (length l))%nat).
    { case_decide; [lia|]. apply lookup_lt_Some in Hx. lia. }
    rewrite lookup_app_l by (rewrite length_drop, length_insert; lia). rewrite lookup_drop.
    replace (80 + (p - 80 + i))%nat with (p + i)%nat by lia. rewrite Hk. case_decide as Ei.
    + subst i. injection Hx as <-. rewrite list_lookup_insert_eq by lia. done.
    + rewrite list_lookup_insert_ne by lia. by apply Hl.
  - destruct H as [H1 H2]. exists p. split_and!; [lia|lia|]. intros i x. rewrite over_lookup by lia. rewrite H2, Hk.
    case_decide as Ei; intros Hx.
    + subst i. injection Hx as <-. rewrite list_lookup_insert_eq by lia. done.
    + rewrite list_lookup_insert_ne by lia. by apply Hl.
Qed.

Lemma shown_prefix col s l l' k : shown col s (l ++ l') k → shown col s l k.
Proof.
  intros (Hg & Hr & Hc & p & Hp & Hk & Hl). do 3 (split; [done|]). exists p. rewrite length_app in Hp.
  split_and!; [lia|done|]. intros i c Hi. apply Hl. by apply lookup_app_l_Some.
Qed.

Section shown.
Context {W : Type} `{!Screen W, !ScreenLaws W}.
Implicit Types w : W.

Definition line_on w (col : Vga.vga_color_t) (l : list Z) (k : nat) : Prop := ∃ s, displays w col s ∧ shown col s l k.

Lemma put_all_line col rs : ∀ w l k, line_on w col l k → (k ≤ length l)%nat → (length l ≤ 1100)%nat →
  (k + length rs ≤ 1100)%nat → Forall (λ c, plain_char c ∧ byte c) rs →
  ∃ w', put_all rs w = Ok ((), w') ∧ line_on w' col (over l k rs) (k + length rs).
Proof.
  induction rs as [|c rs IH]; intros w l k (s & Hd & Hs) Hk Hl Hr Hc; cbn [put_all List.length] in *.
  { exists w. split; [done|]. exists s. by rewrite over_nil, Nat.add_0_r. }
  apply Forall_cons in Hc as [[Hc Hb] Hrs]. destruct (put_screen w col s c Hd Hb) as (w1 & E1 & Hd1).
  rewrite (kbind _ _ _ _ _ E1). destruct (IH w1 (over l k [c]) (S k)) as (w2 & E2 & H2).
  - exists (Vga.screen_putchar col s c). split; [done|]. by apply shown_put.
  - rewrite over_length by done. cbn. lia.
  - rewrite over_length by done. cbn. lia.
  - lia.
  - done.
  - exists w2. split; [done|]. rewrite over_over in H2 by done. by rewrite Nat.add_succ_r.
Qed.

Lemma move_line col w l k dx : line_on w col l k → 0 ≤ Z.of_nat k + dx ≤ len l → len l ≤ 1100 → (k ≤ length l)%nat →
  ∃ w', move_cursor dx w = Ok ((), w') ∧ line_on w' col l (Z.to_nat (Z.of_nat k + dx)).
Proof.
  intros (s & Hd & Hg & Hr & Hc & p & Hp & Hk & Hl) Hdx Hlen Hkl. unfold len in *.
  destruct (move_screen w col s dx Hd) as (w1 & E1 & Hd1); [lia|].
  destruct (serial_screen w1 col _ dx Hd1) as (w2 & E2 & Hd2). exists w2. split.
  { unfold move_cursor. by rewrite (kbind _ _ _ _ _ E1). }
  eexists. split; [exact Hd2|]. unfold place in Hk.
  set (pos := Z.max 0 (Z.min 1999 (80 * Vga.row s + Vga.col s + dx))) in *.
  assert (Ep : pos = Z.of_nat p + (Z.of_nat k + dx)) by (unfold pos; lia).
  split; [done|]. cbn [Vga.row Vga.col]. split; [zdm|]. split; [zdm|]. exists p. split; [done|]. split; [|done].
  unfold place. cbn [Vga.row Vga.col]. pose proof (Z.div_mod pos 80). lia.
Qed.
End shown.

(** ** The line as a zipper *)

(** The characters before and after the cursor, the lines entered before, the newest first,
    and the one of them that is shown, -1 for none. *)
Record zipper : Type := mk_zipper { left : list Z; right : list Z; past : list (list Z); shown_at : Z }.

Definition line_of (z : zipper) : list Z := left z ++ right z.

(** A line of the history, with the cursor at its end. *)
Definition recall (i : Z) (z : zipper) : zipper :=
  mk_zipper (default [] (past z !! Z.to_nat i)) [] (past z) i.

(** What the keys do. *)
Definition edit (z : zipper) (c : Z) : zipper :=
  if c =? BACKSPACE then mk_zipper (removelast (left z)) (right z) (past z) (shown_at z)
  else if (len (line_of z) <? SHELL_BUFFER_SIZE - 1) && printable c
  then mk_zipper (left z ++ [c]) (right z) (past z) (shown_at z)
  else if c =? KEY_UP then if shown_at z <? len (past z) - 1 then recall (shown_at z + 1) z else z
  else if c =? KEY_DOWN then
    if 0 <? shown_at z then recall (shown_at z - 1) z
    else if shown_at z =? 0 then mk_zipper [] [] (past z) (-1) else z
  else if c =? KEY_LEFT then
    match rev (left z) with x :: l => mk_zipper (rev l) (x :: right z) (past z) (shown_at z) | [] => z end
  else if c =? KEY_RIGHT then
    match right z with x :: r => mk_zipper (left z ++ [x]) r (past z) (shown_at z) | [] => z end
  else z.

Definition line_ok (l : list Z) : Prop := Forall (λ c, printable c = true) l ∧ len l < SHELL_BUFFER_SIZE.

(** The arrays hold a zipper. *)
Record editing (s : shell) (z : zipper) : Prop := {
  ed_size : len (input_buffer s) = SHELL_BUFFER_SIZE;
  ed_line : take (length (line_of z)) (input_buffer s) = line_of z;
  ed_pos : buffer_pos s = len (line_of z);
  ed_cursor : cursor_pos s = len (left z);
  ed_ok : line_ok (line_of z);
  ed_history : length (history s) = 10%nat;
  ed_count : history_count s = len (past z) ∧ len (past z) ≤ MAX_HISTORY;
  ed_past i l : past z !! i = Some l → line_ok l ∧ l ≠ [] ∧ ∃ h, history s !! i = Some h ∧ string_in h = Ok l;
  ed_arrays : Forall (λ h, len h = SHELL_BUFFER_SIZE) (history s);
  ed_index : history_index s = shown_at z ∧ -1 ≤ shown_at z < Z.max 1 (len (past z))
}.

Lemma printable_plain c : printable c = true → plain_char c ∧ byte c.
Proof. unfold printable. destruct (Z.leb_spec 32 c); [|done]. destruct (Z.leb_spec c 126); [|done]. intros _. unfold plain_char. lia. Qed.

Lemma line_chars l : Forall (λ c, printable c = true) l → Forall (λ c, plain_char c ∧ byte c) l.
Proof. intros H. eapply Forall_impl; [exact H|]. apply printable_plain. Qed.

Lemma printable_not_0 l : Forall (λ c, printable c = true) l → Forall (λ c, c ≠ 0) l.
Proof. intros H. eapply Forall_impl; [exact H|]. by intros c Hc ->. Qed.

(** *** Arrays *)

Lemma get_at_ok {A} i (l : list A) x : 0 ≤ i → l !! Z.to_nat i = Some x → get_at i l = Ok x.
Proof. intros Hi E. unfold get_at. rewrite (proj2 (Z.ltb_ge _ _)) by lia. by rewrite E. Qed.
Lemma put_at_ok {A} i (x : A) l : 0 ≤ i < len l → put_at i x l = Ok (<[Z.to_nat i := x]> l).
Proof. intros Hi. unfold put_at. by rewrite (proj2 (Z.leb_le _ _)), (proj2 (Z.ltb_lt _ _)) by lia. Qed.

Lemma len_insert {A} i (x : A) l : len (<[i := x]> l) = len l.
Proof. unfold len. by rewrite length_insert. Qed.

(** An array seen as a front, a part that moves and a rest. *)
Lemma insert_mid {A} (a : list A) x y b : <[length a := y]> (a ++ x :: b) = a ++ y :: b.
Proof. rewrite insert_app_r_alt by lia. by rewrite Nat.sub_diag. Qed.
Lemma lookup_mid {A} (a : list A) x b : (a ++ x :: b) !! length a = Some x.
Proof. rewrite lookup_app_r by lia. by rewrite Nat.sub_diag. Qed.

Lemma shift_right_spec r : ∀ l x b, len l + len r + len b + 1 < 2 ^ 31 →
  ∃ y, shift_right (length r) (len l + len r) (l ++ r ++ x :: b) = Ok (l ++ y :: r ++ b).
Proof.
  induction r as [|c r IH] using rev_ind; intros l x b Hb; [by exists x|].
  rewrite length_app. cbn [List.length]. rewrite Nat.add_1_r. cbn [shift_right]. rewrite len_app in *. change (len [c]) with 1 in *.
  pose proof (len_nonneg l). pose proof (len_nonneg r).
  rewrite (get_at_ok _ _ c); [|lia|].
  2: { rewrite <- app_assoc, app_assoc. replace (Z.to_nat (len l + (len r + 1) - 1)) with (length (l ++ r))
         by (rewrite length_app; unfold len; lia). cbn [app]. apply lookup_mid. }
  run. rewrite put_at_ok.
  2: { rewrite !len_app. change (len [c]) with 1. unfold len. cbn [List.length]. lia. }
  replace (Z.to_nat (len l + (len r + 1))) with (length (l ++ r ++ [c])) by (rewrite !length_app; unfold len; cbn [List.length]; lia).
  rewrite (app_assoc l (r ++ [c]) (x :: b)), insert_mid. run. rewrite <- (app_assoc l (r ++ [c])), <- (app_assoc r). cbn [app].
  replace (len l + (len r + 1) - 1) with (len l + len r) by lia.
  destruct (IH l c (c :: b)) as [y E]; [unfold len in *; cbn [List.length]; lia|]. exists y. rewrite E. by rewrite <- app_assoc.
Qed.

Lemma shift_left_spec r : ∀ l x b, ∃ y, shift_left (length r) (len l) (l ++ x :: r ++ b) = Ok (l ++ r ++ y :: b).
Proof.
  induction r as [|c r IH]; intros l x b; [by exists x|]. cbn [List.length shift_left app]. pose proof (len_nonneg l).
  rewrite (get_at_ok _ _ c); [|lia|].
  2: { replace (Z.to_nat (len l + 1)) with (length (l ++ [x])) by (rewrite length_app; unfold len; cbn; lia).
       change (l ++ x :: c :: r ++ b) with (l ++ [x] ++ c :: r ++ b). rewrite app_assoc. apply lookup_mid. }
  run. rewrite put_at_ok by (rewrite len_app; unfold len; cbn [List.length]; lia).
  replace (Z.to_nat (len l)) with (length l) by (unfold len; lia). rewrite insert_mid. run.
  destruct (IH (l ++ [c]) c b) as [y E]. exists y. rewrite len_app in E. change (len [c]) with 1 in E.
  rewrite <- !app_assoc in E. exact E.
Qed.

Lemma string_in_app l b : Forall (λ c, c ≠ 0) l → string_in (l ++ 0 :: b) = Ok l.
Proof.
  induction 1 as [|c l Hc _ IH]; [done|]. cbn [app string_in]. rewrite (proj2 (Z.eqb_neq _ _) Hc), IH. done.
Qed.

Lemma strcpy_ok l b : len l < len b → strcpy l b = Ok (l ++ 0 :: drop (S (length l)) b).
Proof.
  intros H. unfold strcpy. rewrite put_bytes_ok; [|lia|rewrite len_app; change (len [0]) with 1; lia].
  unfold splice. cbn [take]. rewrite length_app. cbn [List.length Z.to_nat]. rewrite Nat.add_0_l, Nat.add_1_r.
  by rewrite <- app_assoc.
Qed.

Lemma over_app l k a b : (k ≤ length l)%nat → over (over l k a) (k + length a) b = over l k (a ++ b).
Proof.
  revert l k. induction a as [|c a IH]; intros l k Hk; cbn [List.length app].
  - by rewrite over_nil, Nat.add_0_r.
  - rewrite <- (over_over l k c a), <- (over_over l k c (a ++ b)) by done. rewrite <- IH by (rewrite over_length by done; cbn; lia).
    f_equal. lia.
Qed.

Lemma over_tail l r rs : (length r ≤ length rs)%nat → over (l ++ r) (length l) rs = l ++ rs.
Proof.
  intros H. unfold over. rewrite take_app_length, drop_ge by (rewrite length_app; lia). by rewrite app_nil_r.
Qed.

Section keys.
Context {W : Type} {NF : Syscall.NodeFields W} `{!VirtualNode W, !Allocator W}.
Context `{!Screen W, !Tasks W, !Memory W, !SystemCalls W, !ScreenLaws W}.
Implicit Types w : W.

Lemma print_char_puts c w : byte c → print_char c w = put_all [c] w.
Proof.
  intros Hc. unfold print_char, printf, lift. change (chars "%c") with ([Stdio.Conv false [] 0 99] ≫= Stdio.unparse).
  rewrite (vprintf_segments _ _ [c]); [done|done|]. cbn. by rewrite wrap_small.
Qed.

Lemma print_string_puts l w : print_string l w = put_all l w.
Proof.
  unfold print_string, printf, lift. change (chars "%s") with ([string_conv] ≫= Stdio.unparse).
  rewrite (vprintf_segments _ _ l); [done|done|]. cbn -[Stdio.padded List.length]. by rewrite padded_0, app_nil_r.
Qed.

Lemma print_space_puts w : print " " w = put_all [32] w.
Proof.
  unfold print, printf, lift. change (chars " ") with ([Stdio.Text [32]] ≫= Stdio.unparse).
  by rewrite (vprintf_segments _ _ [32]).
Qed.

Lemma put_all_app a b w : put_all (a ++ b) w = (put_all a;; put_all b) w.
Proof.
  revert w. induction a as [|c a IH]; intros w; [done|]. cbn [app put_all]. unfold mbind, kernel_bind in *.
  destruct (putchar c w) as [[[] w1]|?| |]; [|done..]. run. apply IH.
Qed.

Lemma print_from_puts rs b : Forall (λ c, byte c) rs → ∀ i w, 0 ≤ i → (∀ j c, rs !! j = Some c → b !! (Z.to_nat i + j)%nat = Some c) →
  print_from (length rs) i b w = put_all rs w.
Proof.
  induction 1 as [|c rs Hc _ IH]; intros i w Hi Hb; [done|]. cbn [List.length print_from].
  pose proof (Hb 0%nat c eq_refl) as H0. rewrite Nat.add_0_r in H0.
  rewrite (kbind _ _ w c w) by (unfold lift; by rewrite (get_at_ok _ _ c)).
  change (put_all (c :: rs)) with (put_all ([c] ++ rs)). rewrite put_all_app. unfold mbind, kernel_bind.
  rewrite print_char_puts by done. destruct (put_all [c] w) as [[[] w1]|?| |]; [|done..]. run. apply IH; [lia|].
  intros j x Hj. rewrite <- (Hb (S j) x Hj). f_equal. lia.
Qed.

Lemma print_spaces_puts n w : print_spaces n w = put_all (replicate n 32) w.
Proof.
  revert w. induction n as [|n IH]; intros w; [done|]. cbn [print_spaces replicate].
  change (put_all (32 :: replicate n 32)) with (put_all ([32] ++ replicate n 32)). rewrite put_all_app.
  unfold mbind, kernel_bind. rewrite print_space_puts. destruct (put_all [32] w) as [[[] w1]|?| |]; [|done..]. run. apply IH.
Qed.

Lemma erase_line_ok col w s z : editing s z → line_on w col (line_of z) (length (left z)) →
  ∃ w', erase_line s w = Ok ((), w') ∧ line_on w' col [] 0.
Proof.
  intros [E1 E2 E3 E4 [E5 E5'] _ _ _ _ _] Hl. unfold SHELL_BUFFER_SIZE in *. unfold line_of in *.
  pose proof (length_app (left z) (right z)) as Hla. unfold erase_line.
  destruct (move_line col w _ _ (- cursor_pos s) Hl) as (w1 & M1 & L1); [unfold len in *; lia|lia|lia|].
  rewrite (kbind _ _ _ _ _ M1). replace (Z.to_nat _) with 0%nat in L1 by (unfold len in *; lia).
  destruct (put_all_line col (replicate (Z.to_nat (buffer_pos s)) 32) w1 _ 0 L1) as (w2 & P2 & L2);
    [lia|unfold len in *; lia|rewrite length_replicate; unfold len in *; lia|by apply Forall_replicate; unfold plain_char|].
  rewrite (kbind _ _ w1 () w2) by by rewrite print_spaces_puts.
  rewrite length_replicate, Nat.add_0_l in L2.
  destruct (move_line col w2 _ _ (- buffer_pos s) L2) as (w3 & M3 & L3).
  { rewrite E3. unfold len in *. lia. }
  { unfold len. rewrite over_length, length_replicate by lia. unfold len in *. lia. }
  { rewrite over_length, length_replicate by lia. lia. }
  exists w3. split; [done|]. replace (Z.to_nat (Z.of_nat (Z.to_nat (buffer_pos s)) + - buffer_pos s)) with 0%nat in L3 by (unfold len in *; lia).
  destruct L3 as (s3 & D3 & H3). exists s3. split; [done|]. by eapply (shown_prefix _ _ []).
Qed.

(** The arrays of an edited line. *)
Lemma editing_buffer s z : editing s z → ∃ x t, input_buffer s = left z ++ right z ++ x :: t.
Proof.
  intros [E1 E2 _ _ [_ E5] _ _ _ _ _]. rewrite <- (take_drop (length (line_of z)) (input_buffer s)), E2.
  unfold line_of at 1. destruct (drop _ _) as [|x t] eqn:E.
  - apply (f_equal length) in E. rewrite length_drop in E. cbn in E. unfold len in *. lia.
  - exists x, t. by rewrite <- app_assoc.
Qed.

(** A new line in the arrays. *)
Lemma editing_line s z b l r t : editing s z → b = l ++ r ++ t → len b = SHELL_BUFFER_SIZE → line_ok (l ++ r) →
  editing (set_line b (len (l ++ r)) (len l) s) (mk_zipper l r (past z) (shown_at z)).
Proof.
  intros [E1 E2 E3 E4 E5 E6 E7 E8 E9 E10] -> Hb Hl. constructor; cbn; try done. unfold line_of. cbn.
  by rewrite app_assoc, take_app_length.
Qed.

Lemma line_ok_app a b : line_ok (a ++ b) → Forall (λ c, printable c = true) a ∧ Forall (λ c, printable c = true) b ∧ len a + len b < 1024.
Proof. intros [H1 H2]. apply Forall_app in H1 as [H1 H3]. rewrite len_app in H2. unfold SHELL_BUFFER_SIZE in H2. done. Qed.

Lemma insert_char_ok col w s z c : editing s z → line_on w col (line_of z) (length (left z)) → printable c = true →
  len (line_of z) < SHELL_BUFFER_SIZE - 1 →
  let z' := mk_zipper (left z ++ [c]) (right z) (past z) (shown_at z) in
  ∃ s' w', insert_char c s w = Ok (s', w') ∧ editing s' z' ∧ line_on w' col (line_of z') (length (left z')) ∧
    current_working_directory s' = current_working_directory s.
Proof.
  intros E Hl Hc Hn z'. destruct (editing_buffer s z E) as (x & t & Eb). pose proof E as [E1 _ E3 E4 E5 _ _ _ _ _].
  unfold line_of, SHELL_BUFFER_SIZE in *. set (l := left z) in *. set (r := right z) in *.
  destruct (line_ok_app _ _ E5) as (Pl & Pr & Hlr). rewrite len_app in E3, Hn. unfold insert_char.
  assert (Esz : len l + len r + len t + 1 = 1024).
  { rewrite Eb, !len_app in E1. unfold len in *. cbn [List.length] in *. lia. }
  destruct (shift_right_spec r l x t) as [y Es]; [lia|].
  replace (Z.to_nat (buffer_pos s - cursor_pos s)) with (length r) by (unfold len in *; lia).
  rewrite Eb, E3, (kbind _ _ w (l ++ y :: r ++ t) w) by by unfold lift; rewrite Es.
  pose proof (len_nonneg l). pose proof (len_nonneg r). pose proof (len_nonneg t).
  rewrite (kbind _ _ w (l ++ c :: r ++ t) w).
  2: { unfold lift. rewrite E4, put_at_ok; [|rewrite len_app; unfold len in *; cbn [List.length]; rewrite length_app; lia].
       replace (Z.to_nat (len l)) with (length l) by (unfold len; lia). by rewrite insert_mid. }
  cbn zeta. assert (Pc : Forall (λ c, byte c) (c :: r)).
  { constructor; [by apply printable_plain|]. eapply Forall_impl; [exact Pr|]. intros a Ha. by apply printable_plain. }
  destruct (put_all_line col (c :: r) w (l ++ r) (length l) Hl) as (w1 & P1 & L1);
    [rewrite length_app; lia|rewrite length_app; unfold len in *; lia|cbn [List.length]; unfold len in *; lia|by apply line_chars; constructor|].
  rewrite (kbind _ _ w () w1).
  2: { replace (Z.to_nat (len l + len r + 1 - (cursor_pos s + 1 - 1))) with (length (c :: r)) by (cbn [List.length]; unfold len in *; lia).
       rewrite print_from_puts; [exact P1|done|lia|]. intros j a Hj.
       replace (Z.to_nat (cursor_pos s + 1 - 1)) with (length l) by (unfold len in *; lia).
       rewrite lookup_app_r by lia. replace (length l + j - length l)%nat with j by lia.
       change (c :: r ++ t) with ((c :: r) ++ t). by apply lookup_app_l_Some. }
  rewrite over_tail in L1 by (cbn [List.length]; lia).
  destruct (move_line col w1 _ _ (- (len l + len r + 1 - (cursor_pos s + 1))) L1) as (w2 & M2 & L2).
  { rewrite len_app. unfold len in *. cbn [List.length]. lia. }
  { rewrite len_app. unfold len in *. cbn [List.length]. lia. }
  { rewrite length_app. cbn [List.length]. lia. }
  rewrite (kbind _ _ _ _ _ M2). eexists _, w2. split; [reflexivity|].
  replace (Z.to_nat _) with (length (l ++ [c])) in L2 by (rewrite length_app; unfold len in *; cbn [List.length]; lia).
  replace (len l + len r + 1) with (len ((l ++ [c]) ++ r)) by (rewrite !len_app; change (len [c]) with 1; lia).
  replace (cursor_pos s + 1) with (len (l ++ [c])) by (rewrite len_app; change (len [c]) with 1; lia).
  split_and!; [|unfold line_of, z'; cbn [left right]; by rewrite <- app_assoc|done].
  - eapply editing_line; [done|by rewrite <- app_assoc| |].
    + rewrite Eb, !len_app in E1. unfold len in E1 |- *. rewrite !length_app. cbn [List.length] in E1 |- *.
      unfold SHELL_BUFFER_SIZE. rewrite length_app. lia.
    + split; [rewrite !Forall_app; split_and!; [done|by constructor|done]|]. rewrite !len_app. change (len [c]) with 1. unfold SHELL_BUFFER_SIZE. lia.
Qed.

Lemma rev_snoc {A} (l : list A) : l = [] ∨ ∃ l0 x, l = l0 ++ [x].
Proof. destruct l as [|x l0 _] using rev_ind; [by left|right; eauto]. Qed.

Lemma delete_char_ok col w s z l0 y : editing s z → line_on w col (line_of z) (length (left z)) → left z = l0 ++ [y] →
  let z' := mk_zipper l0 (right z) (past z) (shown_at z) in
  ∃ s' w', delete_char s w = Ok (s', w') ∧ editing s' z' ∧ line_on w' col (line_of z') (length (left z')) ∧
    current_working_directory s' = current_working_directory s.
Proof.
  intros E Hl Ey z'. destruct (editing_buffer s z E) as (x & t & Eb). pose proof E as [E1 _ E3 E4 E5 _ _ _ _ _].
  unfold line_of, SHELL_BUFFER_SIZE in *. rewrite Ey in *. set (r := right z) in *.
  destruct (line_ok_app _ _ E5) as (Pl & Pr & Hlr). apply Forall_app in Pl as [Pl _].
  rewrite !len_app in E3. rewrite len_app in E4, Hlr. change (len [y]) with 1 in *. unfold delete_char.
  rewrite <- app_assoc in Eb. cbn [app] in Eb.
  assert (Esz : len l0 + 1 + len r + 1 + len t = 1024).
  { rewrite Eb in E1. unfold len in *. repeat (rewrite length_app in E1 || cbn [List.length] in E1). lia. }
  pose proof (len_nonneg l0). pose proof (len_nonneg r). pose proof (len_nonneg t).
  replace (cursor_pos s - 1) with (len l0) by lia. replace (buffer_pos s - 1) with (len l0 + len r) by lia. cbn zeta.
  destruct (shift_left_spec r l0 y (x :: t)) as [y' Es]. replace (Z.to_nat (len l0 + len r - len l0)) with (length r) by (unfold len; lia).
  rewrite Eb, (kbind _ _ w (l0 ++ r ++ y' :: x :: t) w) by by unfold lift; rewrite Es.
  rewrite (kbind _ _ w (l0 ++ r ++ 0 :: x :: t) w).
  2: { unfold lift. rewrite put_at_ok; [|unfold len in *; rewrite !length_app; cbn [List.length]; lia].
       replace (Z.to_nat (len l0 + len r)) with (length (l0 ++ r)) by (rewrite length_app; unfold len; lia).
       by rewrite (app_assoc l0), insert_mid, <- app_assoc. }
  destruct (move_line col w _ _ (-1) Hl) as (w1 & M1 & L1); [rewrite !length_app, !len_app; change (len [y]) with 1; cbn [List.length]; unfold len in *; lia|
    rewrite !len_app; change (len [y]) with 1; lia|rewrite !length_app; lia|].
  rewrite (kbind _ _ _ _ _ M1). rewrite length_app in L1. cbn [List.length] in L1.
  replace (Z.to_nat (Z.of_nat (length l0 + 1) + -1)) with (length l0) in L1 by lia. rewrite <- app_assoc in L1. cbn [app] in L1.
  assert (Hlen : (length l0 + length r < 1023)%nat) by (unfold len in *; lia).
  destruct (put_all_line col r w1 _ _ L1) as (w2 & P2 & L2);
    [rewrite length_app; lia|rewrite length_app; cbn [List.length]; lia|lia|by apply line_chars|].
  rewrite (kbind _ _ w1 () w2).
  2: { rewrite print_from_puts; [exact P2| |lia|].
       - eapply Forall_impl; [exact Pr|]. intros a Ha. by apply printable_plain.
       - intros j a Hj. replace (Z.to_nat (len l0)) with (length l0) by (unfold len; lia).
         rewrite lookup_app_r by lia. replace (length l0 + j - length l0)%nat with j by lia. by apply lookup_app_l_Some. }
  destruct (put_all_line col [32] w2 _ _ L2) as (w3 & P3 & L3);
    [rewrite over_length, length_app; cbn [List.length]; rewrite ?length_app; lia| | |by repeat constructor|].
  { rewrite over_length; rewrite length_app; cbn [List.length]; lia. } { cbn [List.length]. lia. }
  rewrite (kbind _ _ w2 () w3) by by rewrite print_space_puts.
  rewrite over_app, over_tail in L3 by (rewrite ?length_app; cbn [List.length]; rewrite ?length_app; cbn [List.length]; lia).
  cbn [List.length] in L3.
  destruct (move_line col w3 _ _ (- (len l0 + len r - len l0 + 1)) L3) as (w4 & M4 & L4).
  { rewrite !len_app. change (len [32]) with 1. unfold len in *. lia. }
  { rewrite !len_app. change (len [32]) with 1. lia. }
  { rewrite !length_app. cbn [List.length]. lia. }
  replace (Z.to_nat _) with (length l0) in L4 by (unfold len in *; lia).
  rewrite (kbind _ _ _ _ _ M4). eexists _, w4. split; [reflexivity|]. rewrite <- len_app. split_and!; [| |done].
  - apply (editing_line s z _ l0 r (0 :: x :: t)); [done|done| |].
    + unfold SHELL_BUFFER_SIZE, len in *. rewrite !length_app. cbn [List.length]. lia.
    + split; [by apply Forall_app|]. rewrite len_app. unfold SHELL_BUFFER_SIZE. lia.
  - unfold z', line_of. cbn [left right]. destruct L4 as (s4 & D4 & H4). exists s4. split; [done|].
    rewrite app_assoc in H4. by apply shown_prefix in H4.
Qed.

(** A line of the history takes the place of the line. *)
Lemma recall_ok col w s z i line : editing s z → line_on w col (line_of z) (length (left z)) →
  past z !! Z.to_nat i = Some line → 0 ≤ i → 
  ∃ s' w', (let s1 := set_index i s in erase_line s1;; show_history s1) w = Ok (s', w') ∧ editing s' (recall i z) ∧
    line_on w' col (line_of (recall i z)) (length (left (recall i z))) ∧
    current_working_directory s' = current_working_directory s.
Proof.
  intros E Hl Hi H0. set (s1 := set_index i s). cbn zeta. pose proof E as [E1 _ _ _ _ E6 E7 E8 E9 E10].
  destruct (E8 _ _ Hi) as ([Hp Hlen] & Hne & h & Hh & Hs). unfold SHELL_BUFFER_SIZE in *.
  assert (Hlt : i < len (past z)) by (apply lookup_lt_Some in Hi; unfold len; lia).
  destruct (erase_line_ok col w s z E Hl) as (w1 & M1 & L1). change (erase_line s) with (erase_line s1) in M1.
  rewrite (kbind _ _ _ _ _ M1). unfold show_history, s1. cbn [history_index history input_buffer set_index].
  rewrite (kbind _ _ w1 h w1) by (unfold lift; by rewrite (get_at_ok _ _ h)).
  rewrite (kbind _ _ w1 line w1) by (unfold lift; by rewrite Hs).
  rewrite (kbind _ _ w1 (line ++ 0 :: drop (S (length line)) (input_buffer s)) w1)
    by (unfold lift; rewrite strcpy_ok; [done|lia]).
  destruct (put_all_line col line w1 [] 0 L1) as (w2 & P2 & L2); [cbn; lia|cbn; lia|unfold len in *; lia|by apply line_chars|].
  rewrite (kbind _ _ w1 () w2) by by rewrite print_string_puts. eexists _, w2. split; [reflexivity|].
  unfold recall. rewrite Hi. cbn [default]. split_and!; [| |done].
  - assert (E' : editing (set_index i s) (mk_zipper (left z) (right z) (past z) i)).
    { destruct E as [X1 X2 X3 X4 X5 X6 X7 X8 X9 X10]. constructor; cbn; try done. lia. }
    pose proof (editing_line (set_index i s) _ (line ++ 0 :: drop (S (length line)) (input_buffer s)) line []
      (0 :: drop (S (length line)) (input_buffer s)) E' eq_refl) as X. rewrite app_nil_r in X. apply X.
    + unfold SHELL_BUFFER_SIZE, len in *. rewrite length_app. cbn [List.length]. rewrite length_drop. lia.
    + by split.
  - unfold line_of. cbn [left right]. rewrite app_nil_r. unfold over in L2. cbn [take app Nat.add] in L2.
    by rewrite drop_nil, app_nil_r in L2.
Qed.

(** The zippers that the keys keep. *)
Lemma key_up_ok col w s z : editing s z → line_on w col (line_of z) (length (left z)) →
  let z' := if shown_at z <? len (past z) - 1 then recall (shown_at z + 1) z else z in
  ∃ s' w', key_up s w = Ok (s', w') ∧ editing s' z' ∧ line_on w' col (line_of z') (length (left z')) ∧
    current_working_directory s' = current_working_directory s.
Proof.
  intros E Hl z'. pose proof E as [_ _ _ _ _ _ [E7 _] _ _ [E10 E11]]. unfold key_up. rewrite E7, E10.
  destruct (Z.ltb_spec (shown_at z) (len (past z) - 1)) as [Hlt|Hge].
  - rewrite (proj2 (Z.ltb_lt 0 _)) by lia. cbn [andb].
    destruct (lookup_lt_is_Some_2 (past z) (Z.to_nat (shown_at z + 1))) as [line Hi]; [unfold len in *; lia|].
    unfold z'. apply (recall_ok col w s z (shown_at z + 1) line); (done || lia).
  - rewrite andb_false_r. exists s, w. by split_and!.
Qed.

Lemma key_down_ok col w s z : editing s z → line_on w col (line_of z) (length (left z)) →
  let z' := if 0 <? shown_at z then recall (shown_at z - 1) z
            else if shown_at z =? 0 then mk_zipper [] [] (past z) (-1) else z in
  ∃ s' w', key_down s w = Ok (s', w') ∧ editing s' z' ∧ line_on w' col (line_of z') (length (left z')) ∧
    current_working_directory s' = current_working_directory s.
Proof.
  intros E Hl z'. pose proof E as [E1 _ _ _ _ _ [E7 _] _ _ [E10 E11]]. unfold key_down. rewrite E10.
  destruct (Z.ltb_spec 0 (shown_at z)) as [Hlt|Hge].
  - destruct (lookup_lt_is_Some_2 (past z) (Z.to_nat (shown_at z - 1))) as [line Hi]; [unfold len in *; lia|].
    unfold z'. apply (recall_ok col w s z (shown_at z - 1) line); (done || lia).
  - destruct (Z.eqb_spec (shown_at z) 0) as [E0|Hne]; [|exists s, w; by split_and!].
    destruct (erase_line_ok col w s z E Hl) as (w1 & M1 & L1). change (erase_line s) with (erase_line (set_index (-1) s)) in M1.
    cbn zeta. rewrite (kbind _ _ _ _ _ M1). unfold SHELL_BUFFER_SIZE in *. cbn [input_buffer set_index].
    rewrite (kbind _ _ w1 (<[0%nat := 0]> (input_buffer s)) w1) by (unfold lift; by rewrite put_at_ok by lia).
    eexists _, w1. split; [reflexivity|]. split_and!; [|done|done].
    assert (E' : editing (set_index (-1) s) (mk_zipper (left z) (right z) (past z) (-1))).
    { destruct E as [X1 X2 X3 X4 X5 X6 X7 X8 X9 X10]. constructor; cbn; try done. lia. }
    apply (editing_line (set_index (-1) s) _ _ [] [] (<[0%nat := 0]> (input_buffer s)) E'); [done|by rewrite len_insert|].
    by split.
Qed.

Lemma cursor_ok col w s z l r dx : editing s z → line_on w col (line_of z) (length (left z)) → l ++ r = line_of z →
  cursor_pos s + dx = len l →
  ∃ w', move_cursor dx w = Ok ((), w') ∧
    editing (set_line (input_buffer s) (buffer_pos s) (cursor_pos s + dx) s) (mk_zipper l r (past z) (shown_at z)) ∧
    line_on w' col (l ++ r) (length l).
Proof.
  intros E Hl Elr Hd. pose proof E as [E1 E2 E3 E4 [E5 E5'] _ _ _ _ _]. unfold SHELL_BUFFER_SIZE in *.
  pose proof (f_equal len Elr) as Hlen. rewrite len_app in Hlen. pose proof (len_nonneg l). pose proof (len_nonneg r).
  destruct (move_line col w _ _ dx Hl) as (w1 & M1 & L1).
  { unfold len in *. lia. } { lia. } { unfold line_of. rewrite length_app. lia. }
  exists w1. split; [done|]. rewrite Hd. split.
  - rewrite E3, <- Elr. destruct (editing_buffer s z E) as (x & t & Eb).
    apply (editing_line s z _ l r (x :: t)); [done| |done|by rewrite Elr].
    rewrite Eb, !app_assoc. f_equal. by rewrite Elr.
  - rewrite Elr. by replace (length l) with (Z.to_nat (Z.of_nat (length (left z)) + dx)) by (unfold len in *; lia).
Qed.

(** One key. *)
Lemma handle_key_ok fuel col w s z c : editing s z → line_on w col (line_of z) (length (left z)) →
  c ≠ 10 → c ≠ 13 → c ≠ TAB →
  ∃ s' w', handle_key fuel c s w = Ok (s', w') ∧ editing s' (edit z c) ∧
    line_on w' col (line_of (edit z c)) (length (left (edit z c))) ∧
    current_working_directory s' = current_working_directory s.
Proof.
  intros E Hl N10 N13 N9. pose proof E as [E1 E2 E3 E4 E5 _ _ _ _ _]. unfold handle_key, edit.
  assert (Hsame : ∃ s' w', (mret s : kernel W shell) w = Ok (s', w') ∧ editing s' z ∧ line_on w' col (line_of z) (length (left z)) ∧
    current_working_directory s' = current_working_directory s) by (exists s, w; by split_and!).
  destruct (Z.eqb_spec c 0) as [->|N0].
  { cbn. replace (printable 0) with false by done. rewrite andb_false_r. apply Hsame. }
  rewrite (proj2 (Z.eqb_neq c 10)), (proj2 (Z.eqb_neq c 13)), (proj2 (Z.eqb_neq c TAB)) by done. cbn [orb].
  destruct (Z.eqb_spec c BACKSPACE) as [->|N8].
  { destruct (rev_snoc (left z)) as [El|(l0 & y & El)].
    - rewrite E4, El. cbn [Z.ltb len List.length removelast]. destruct z as [l r p a]. cbn in *. subst l. apply Hsame.
    - rewrite (proj2 (Z.ltb_lt 0 _)) by (rewrite E4, El, len_app; unfold len; cbn; lia).
      replace (removelast (left z)) with l0 by by rewrite El, removelast_last.
      by apply (delete_char_ok col w s z l0 y). }
  rewrite E3. destruct ((len (line_of z) <? SHELL_BUFFER_SIZE - 1) && printable c) eqn:Ep.
  { apply andb_prop in Ep as [Hn%Z.ltb_lt Hc]. by apply insert_char_ok. }
  destruct (c =? KEY_UP); [by apply key_up_ok|]. destruct (c =? KEY_DOWN); [by apply key_down_ok|].
  destruct (c =? KEY_LEFT).
  { unfold key_left. rewrite E4. destruct (rev_snoc (left z)) as [El|(l0 & y & El)]; rewrite El.
    - apply Hsame.
    - rewrite (proj2 (Z.ltb_lt 0 _)) by (rewrite len_app; unfold len; cbn; lia).
      rewrite rev_app_distr. cbn [rev app]. rewrite rev_involutive.
      destruct (cursor_ok col w s z l0 (y :: right z) (-1) E Hl) as (w1 & M1 & E' & L').
      { unfold line_of. rewrite El, <- app_assoc. done. }
      { rewrite E4, El, len_app. change (len [y]) with 1. lia. }
      rewrite (kbind _ _ _ _ _ M1). eexists _, w1. split; [reflexivity|].
      rewrite E4, El in E'. by split_and!. }
  destruct (c =? KEY_RIGHT); [|apply Hsame].
  unfold key_right. rewrite E3, E4. unfold line_of at 1. rewrite len_app. destruct (right z) as [|y r] eqn:Er.
  - rewrite (proj2 (Z.ltb_ge _ _)) by (unfold len; cbn; lia). apply Hsame.
  - rewrite (proj2 (Z.ltb_lt _ _)) by (unfold len; cbn; lia).
    destruct (cursor_ok col w s z (left z ++ [y]) r 1 E Hl) as (w1 & M1 & E' & L').
    { unfold line_of. by rewrite Er, <- app_assoc. }
    { rewrite E4, len_app. change (len [y]) with 1. lia. }
    rewrite (kbind _ _ _ _ _ M1). eexists _, w1. split; [reflexivity|].
    rewrite E3, E4 in E'. by split_and!.
Qed.

(** The keys of a list, one after the other. *)
Fixpoint handle_keys (fuel : nat) (cs : list Z) (s : shell) : kernel W shell :=
  match cs with [] => mret s | c :: cs' => s ← handle_key fuel c s; handle_keys fuel cs' s end.

(** C16. However the user types, deletes, moves and recalls lines, with any keys but Tab and
    Enter, the array holds the line that
    these keys make of the two halves around the cursor, no access leaves the arrays,
    and the screen shows that line in one piece with the cursor where it is in the
    line, also when the line scrolls the screen.  Enter is [enter_runs_line]; a Tab can
    write behind the array ([tab_completes_path]). *)
Theorem editor_refines_zipper fuel cs : ∀ col w s z,
  editing s z → line_on w col (line_of z) (length (left z)) → Forall (λ c, c ≠ 10 ∧ c ≠ 13 ∧ c ≠ TAB) cs →
  let z' := foldl edit z cs in
  ∃ s' w', handle_keys fuel cs s w = Ok (s', w') ∧ editing s' z' ∧ line_on w' col (line_of z') (length (left z')) ∧
    current_working_directory s' = current_working_directory s.
Proof.
  induction cs as [|c cs IH]; intros col w s z E Hl Hcs; cbn [handle_keys foldl].
  { exists s, w. by split_and!. }
  apply Forall_cons in Hcs as [(N1 & N2 & N3) Hcs].
  destruct (handle_key_ok fuel col w s z c E Hl N1 N2 N3) as (s1 & w1 & E1 & H1 & L1 & C1).
  rewrite (kbind _ _ _ _ _ E1). destruct (IH col w1 s1 (edit z c) H1 L1 Hcs) as (s2 & w2 & E2 & H2 & L2 & C2).
  exists s2, w2. split_and!; [done..|by rewrite C2].
Qed.

(** *** Entered lines *)

(** The history after a line was entered. *)
Definition with_line (line : list Z) (past : list (list Z)) : list (list Z) :=
  if decide (head past = Some line) then past else take 10 (line :: past).

Lemma shift_history_ok n : ∀ h : list (list Z), (n < length h)%nat →
  ∃ h', shift_history n (Z.of_nat n) h = Ok h' ∧ length h' = length h ∧
    ∀ i, h' !! i = match i with O => h !! O | S j => if decide (j < n)%nat then h !! j else h !! i end.
Proof.
  induction n as [|n IH]; intros h Hn; cbn [shift_history]; [exists h; split_and!; [done..|by intros [|i]]|].
  destruct (lookup_lt_is_Some_2 h n) as [x Hx]; [lia|].
  rewrite (get_at_ok _ _ x) by (try lia; by replace (Z.to_nat _) with n by lia). run.
  rewrite put_at_ok by (unfold len; lia). run. replace (Z.of_nat (S n) - 1) with (Z.of_nat n) by lia.
  destruct (IH (<[S n := x]> h)) as (h' & E & Hl & Hi); [rewrite length_insert; lia|].
  replace (Z.to_nat (Z.of_nat (S n))) with (S n) by lia. exists h'. rewrite length_insert in Hl. split_and!; [done..|].
  intros [|i]; rewrite Hi; [by rewrite list_lookup_insert_ne|]. destruct (decide (i = n)) as [->|Hne].
  - rewrite decide_False, decide_True, list_lookup_insert_eq by lia. done.
  - do 2 case_decide; try lia; rewrite list_lookup_insert_ne by lia; done.
Qed.

Lemma past_head z h0 s : editing s z → history s !! 0%nat = Some h0 → past z ≠ [] → ∃ l, head (past z) = Some l ∧ string_in h0 = Ok l.
Proof.
  intros E Hh Hp. destruct (past z) as [|l ls] eqn:Ep; [done|]. exists l. split; [done|].
  destruct (ed_past s z E 0%nat l) as (_ & _ & h & Hh' & Hs); [by rewrite Ep|]. congruence.
Qed.

(** The line is kept in front of the history. *)
Lemma remember_ok s z : editing s z → string_in (input_buffer s) = Ok (line_of z) → line_of z ≠ [] →
  ∃ h n, remember s = Ok (set_history h n s) ∧
    editing (set_history h n s) (mk_zipper (left z) (right z) (with_line (line_of z) (past z)) (shown_at z)).
Proof.
  intros E Hline Hne. pose proof E as [E1 E2 E3 E4 E5 E6 [E7 E7'] E8 E9 [E10 E11]]. unfold remember, MAX_HISTORY in *.
  rewrite Hline. run. destruct (history s) as [|h0 h] eqn:Eh; [done|]. change (get_at 0 (h0 :: h)) with (Ok h0). run.
  assert (Hh0 : history s !! 0%nat = Some h0) by by rewrite Eh.
  assert (Hsame : ∃ b, (if history_count s =? 0 then Ok false else last ← string_in h0; Ok (bool_decide (line_of z = last))) = Ok b ∧
    b = bool_decide (head (past z) = Some (line_of z))).
  { rewrite E7. destruct (decide (past z = [])) as [Ep|Hp].
    - rewrite Ep. exists false. split; [done|]. by rewrite bool_decide_eq_false_2.
    - rewrite (proj2 (Z.eqb_neq _ _)) by (unfold len; destruct (past z); [done|cbn; lia]).
      destruct (past_head z h0 s E Hh0 Hp) as (l & Hl & Hs). rewrite Hs. run. eexists. split; [reflexivity|].
      apply bool_decide_ext. rewrite Hl. split; congruence. }
  destruct Hsame as (b & -> & Hb). run. unfold with_line. destruct b.
  { symmetry in Hb. apply bool_decide_eq_true in Hb. exists (history s), (history_count s).
    split; [by destruct s; cbn in *; subst|]. rewrite decide_True by done.
    constructor; cbn; try done; by rewrite ?Eh. }
  symmetry in Hb. apply bool_decide_eq_false in Hb. rewrite decide_False by done.
  destruct (shift_history_ok 9 (h0 :: h)) as (h1 & Es & Hl1 & Hi1); [cbn in *; lia|]. change (10 - 1) with (Z.of_nat 9). rewrite Es. run.
  pose proof (Hi1 0%nat) as H0. cbn in H0. rewrite (get_at_ok _ _ h0) by (done || lia). run.
  pose proof (proj1 (Forall_lookup _ _) E9 0%nat h0 eq_refl) as Hh0l. cbn in Hh0l. destruct E5 as [E5 E5'].
  rewrite strcpy_ok by lia. run. rewrite put_at_ok by (unfold len; lia). run. eexists _, _. split; [reflexivity|].
  constructor; cbn -[take]; try done; [by rewrite length_insert, Hl1| | | |].
  - rewrite E7. unfold MAX_HISTORY, len in *. rewrite length_take. cbn [List.length]. destruct (Z.ltb_spec (Z.of_nat (length (past z))) 10); lia.
  - intros [|i] l Hi; cbn in Hi.
    + injection Hi as <-. split; [done|]. split; [done|]. eexists. rewrite list_lookup_insert_eq by (rewrite Hl1; cbn; lia).
      split; [done|]. apply string_in_app. by apply printable_not_0.
    + apply lookup_take_Some in Hi as [Hi Hi9]. destruct (E8 i l Hi) as (X1 & X2 & h2 & X3 & X4). split; [done|]. split; [done|].
      exists h2. split; [|done]. rewrite list_lookup_insert_ne by lia. rewrite Hi1, decide_True by lia. done.
  - apply Forall_insert.
    + apply Forall_lookup. intros [|i] x; rewrite Hi1.
      * by apply (proj1 (Forall_lookup _ _) E9).
      * case_decide; apply (proj1 (Forall_lookup _ _) E9).
    + unfold len in *. rewrite length_app. cbn [List.length]. rewrite length_drop. unfold SHELL_BUFFER_SIZE in *. lia.
  - split; [lia|]. unfold len in *. rewrite length_take. cbn [List.length]. lia.
Qed.

Lemma with_line_head line past : head (with_line line past) = Some line.
Proof. unfold with_line. by case_decide. Qed.

(** The array gets a null behind the line, for [strchr]. *)
Lemma end_line s z : editing s z →
  ∃ t, put_at (buffer_pos s) 0 (input_buffer s) = Ok (line_of z ++ 0 :: t) ∧
    editing (set_line (line_of z ++ 0 :: t) (buffer_pos s) (cursor_pos s) s) z ∧ string_in (line_of z ++ 0 :: t) = Ok (line_of z).
Proof.
  intros E. pose proof E as [E1 E2 E3 E4 E5 E6 E7 E8 E9 [E10 E11]].
  destruct (editing_buffer s z E) as (x & t & Eb). rewrite app_assoc in Eb. change (left z ++ right z) with (line_of z) in Eb.
  exists t. split_and!.
  - rewrite put_at_ok by (rewrite E3, E1; destruct E5; pose proof (len_nonneg (line_of z)); lia). rewrite E3, Eb.
    replace (Z.to_nat (len (line_of z))) with (length (line_of z)) by (unfold len; lia). by rewrite insert_mid.
  - rewrite E3, E4. destruct z as [l r p a]. apply (editing_line s (mk_zipper l r p a) _ l r (0 :: t)); try done.
    + by rewrite app_assoc.
    + rewrite Eb in E1. rewrite <- E1. unfold len. rewrite !length_app. done.
  - apply string_in_app, printable_not_0, (proj1 E5).
Qed.

(** Enter ends the line: the characters of the line, and nothing else of the array, are what
    the command gets; a line that is not empty and not the last one entered is put in
    front of the history, which keeps ten lines; the line is empty afterwards, and the
    next Up brings the entered line back. *)
Theorem enter_runs_line fuel w s z : editing s z →
  let z' := mk_zipper [] [] (if decide (line_of z = []) then past z else with_line (line_of z) (past z)) (-1) in
  (line_of z ≠ [] → line_of (edit z' KEY_UP) = line_of z) ∧
  ∃ s', editing s' z' ∧ current_working_directory s' = current_working_directory s ∧
    enter fuel s w =
      (printf NL [];;
       cwd ← (if decide (line_of z = []) then mret (current_working_directory s)
              else shell_execute fuel (current_working_directory s) (line_of z));
       shell_prompt cwd;;
       mret (set_cwd cwd s')) w.
Proof.
  intros E z'. pose proof E as [E1 E2 E3 E4 E5 E6 E7 E8 E9 [E10 E11]]. split.
  { intros Hne. unfold z', edit. rewrite decide_False by done. cbn [shown_at past].
    change (KEY_UP =? BACKSPACE) with false. change (KEY_UP =? KEY_UP) with true. change (printable KEY_UP) with false.
    rewrite andb_false_r. pose proof (with_line_head (line_of z) (past z)) as Hh.
    destruct (with_line (line_of z) (past z)) as [|l ls] eqn:Ew; [done|]. injection Hh as ->.
    rewrite (proj2 (Z.ltb_lt _ _)) by (unfold len; cbn [List.length]; lia). unfold recall, line_of at 1. cbn. by rewrite app_nil_r. }
  destruct (end_line s z E) as (t & Eput & Es1 & Hstr). set (s1 := set_line (line_of z ++ 0 :: t) (buffer_pos s) (cursor_pos s) s) in *.
  assert (Hend : ∀ s0 p, editing s0 (mk_zipper (left z) (right z) p (shown_at z)) →
    editing (set_index (-1) (set_line (input_buffer s0) 0 0 s0)) (mk_zipper [] [] p (-1))).
  { intros s0 p [X1 X2 X3 X4 X5 X6 X7 X8 X9 X10]. constructor; cbn; try done. lia. }
  unfold enter. case_decide as Hl.
  - exists (set_index (-1) (set_line (input_buffer s1) 0 0 s1)). split_and!; [apply (Hend s1); by destruct z|done|].
    unfold mbind, kernel_bind. destruct (printf NL [] w) as [[[] w1]|?| |]; [|done..]. run.
    unfold lift. rewrite Eput. run. fold s1. change (buffer_pos s1) with (buffer_pos s).
    assert (Hpos : (0 <? buffer_pos s) = false) by by rewrite E3, Hl.
    rewrite Hpos. destruct s; reflexivity.
  - destruct (remember_ok s1 z Es1 Hstr Hl) as (h & n & Er & Es2).
    exists (set_index (-1) (set_line (input_buffer s1) 0 0 (set_history h n s1))). split_and!; [by apply (Hend (set_history h n s1))|done|].
    unfold mbind, kernel_bind. destruct (printf NL [] w) as [[[] w1]|?| |]; [|done..]. run.
    unfold lift. rewrite Eput. run. fold s1. change (buffer_pos s1) with (buffer_pos s).
    assert (Hpos : (0 <? buffer_pos s) = true).
    { apply Z.ltb_lt. rewrite E3. destruct (line_of z); [done|unfold len; cbn [List.length]; lia]. }
    rewrite Hpos.
    rewrite Er. run. change (input_buffer (set_history h n s1)) with (input_buffer s1). change (input_buffer s1) with (line_of z ++ 0 :: t). rewrite Hstr. run.
    change (current_working_directory (set_history h n s1)) with (current_working_directory s).
    destruct (shell_execute _ _ _ w1) as [[cwd w2]|?| |]; done.
Qed.

Lemma over_end l rs : over l (length l) rs = l ++ rs.
Proof. unfold over. by rewrite firstn_all, drop_ge, app_nil_r by lia. Qed.

Lemma splice_mid (l rest b : list Z) : len rest < len b →
  ∃ x t, splice (len l) rest (l ++ b) = l ++ rest ++ x :: t ∧ len rest + 1 + len t = len b.
Proof.
  intros H. unfold splice, len in *. rewrite Nat2Z.id, take_app_length, drop_app_add.
  destruct (drop (length rest) b) as [|x t] eqn:E; apply (f_equal List.length) in E; rewrite length_drop in E; cbn in E; [lia|].
  exists x, t. split; [done|]. lia.
Qed.

(** *** Completion *)

Lemma put_text_puts c w : c ≠ 37 → printf [c] [] w = put_all [c] w.
Proof.
  intros H37. unfold printf, lift. change [c] with ([Stdio.Text [c]] ≫= Stdio.unparse) at 1.
  rewrite (vprintf_segments _ _ [c]); [done| |done]. cbn. by rewrite (proj2 (Z.eqb_neq _ _) H37).
Qed.

Lemma kernel_bind_ok {A B} (m : kernel W A) (k : A → kernel W B) w r :
  (m ≫= k) w = Ok r → ∃ a w1, m w = Ok (a, w1) ∧ k a w1 = Ok r.
Proof. unfold mbind, kernel_bind. destruct (m w) as [[a w1]|?| |] eqn:E; [|done..]. intros H. exists a, w1. split; [done|]. exact H. Qed.

(** Characters behind the line. *)
Lemma append_chars_ok cs : ∀ s w w1, len (input_buffer s) = SHELL_BUFFER_SIZE → 0 ≤ buffer_pos s →
  buffer_pos s + len cs ≤ SHELL_BUFFER_SIZE → Forall (λ c, byte c) cs → put_all cs w = Ok ((), w1) →
  append_chars cs s w =
    Ok (set_line (splice (buffer_pos s) cs (input_buffer s)) (buffer_pos s + len cs) (cursor_pos s) s, w1).
Proof.
  unfold SHELL_BUFFER_SIZE. induction cs as [|c cs IH]; intros s w w1 Hb H0 Hn Hc Hp; cbn [append_chars].
  - injection Hp as <-. unfold splice. cbn [app List.length len]. rewrite Nat.add_0_r, take_drop, Z.add_0_r. by destruct s.
  - apply Forall_cons in Hc as [Hc Hcs]. change (len (c :: cs)) with (len ([c] ++ cs)) in *. rewrite len_app in *. change (len [c]) with 1 in *. pose proof (len_nonneg cs).
    change (put_all (c :: cs)) with (put_all ([c] ++ cs)) in Hp. rewrite put_all_app in Hp.
    apply kernel_bind_ok in Hp as ([] & w2 & P1 & P2).
    rewrite (kbind _ _ w (<[Z.to_nat (buffer_pos s) := c]> (input_buffer s)) w) by (unfold lift; by rewrite put_at_ok by lia).
    rewrite (kbind _ _ w () w2) by by rewrite print_char_puts.
    rewrite (IH _ w2 w1); cbn; [|by rewrite len_insert|lia|lia|done|done]. f_equal. f_equal.
    unfold set_line. cbn. f_equal; [|lia]. apply list_eq. intros j. unfold splice.
    replace (Z.to_nat (buffer_pos s + 1)) with (S (Z.to_nat (buffer_pos s))) by lia.
    assert (Hlt : (Z.to_nat (buffer_pos s) < length (input_buffer s))%nat) by (unfold len in *; lia).
    rewrite (take_S_r _ _ c) by by rewrite list_lookup_insert_eq. rewrite <- app_assoc. cbn [app].
    rewrite take_insert_ge, drop_insert_lt by lia. cbn [List.length]. do 4 f_equal. f_equal. lia.
Qed.

(** Behind the last place of the array there is no room. *)
Lemma append_chars_fault cs : ∀ s w w1, len (input_buffer s) = SHELL_BUFFER_SIZE → 0 ≤ buffer_pos s ≤ SHELL_BUFFER_SIZE →
  SHELL_BUFFER_SIZE < buffer_pos s + len cs → Forall (λ c, byte c) cs → put_all cs w = Ok ((), w1) →
  append_chars cs s w = Fault.
Proof.
  unfold SHELL_BUFFER_SIZE. induction cs as [|c cs IH]; intros s w w1 Hb H0 Hn Hc Hp; cbn [append_chars].
  - change (len []) with 0 in Hn. lia.
  - apply Forall_cons in Hc as [Hc Hcs]. change (len (c :: cs)) with (len ([c] ++ cs)) in *. rewrite len_app in *. change (len [c]) with 1 in *. pose proof (len_nonneg cs).
    change (put_all (c :: cs)) with (put_all ([c] ++ cs)) in Hp. rewrite put_all_app in Hp.
    apply kernel_bind_ok in Hp as ([] & w2 & P1 & P2).
    destruct (Z.ltb_spec (buffer_pos s) 1024) as [Hlt|Hge].
    + rewrite (kbind _ _ w (<[Z.to_nat (buffer_pos s) := c]> (input_buffer s)) w) by (unfold lift; by rewrite put_at_ok by lia).
      rewrite (kbind _ _ w () w2) by by rewrite print_char_puts.
      apply (IH _ w2 w1); cbn; [by rewrite len_insert|lia|lia|done|done].
    + unfold mbind, kernel_bind, lift, put_at. rewrite (proj2 (Z.ltb_ge _ (len _))) by lia. by rewrite andb_false_r.
Qed.

Lemma split_at_none c l : c ∉ l → split_at c l = None.
Proof.
  induction l as [|x l IH]; intros Hc; [done|]. apply not_elem_of_cons in Hc as [H1 H2]. cbn.
  rewrite (proj2 (Z.eqb_neq _ _)) by done. by rewrite IH.
Qed.

Lemma prefix_take (l m : list Z) : l `prefix_of` m → take (length l) m = l ∧ m = l ++ drop (length l) m.
Proof. intros [k ->]. by rewrite take_app_length, drop_app_length. Qed.

Lemma strncmp_prefix l m : strncmp_eq l m (len l) = bool_decide (l `prefix_of` m).
Proof.
  unfold strncmp_eq, len. rewrite Nat2Z.id, firstn_all. apply bool_decide_ext. split.
  - intros ->. exists (drop (length l) m). by rewrite take_drop.
  - intros H. by rewrite (proj1 (prefix_take _ _ H)).
Qed.

Lemma matching_prefix line : matching_commands line (len line) = List.filter (λ m, bool_decide (line `prefix_of` m)) (chars <$> command_list).
Proof. apply List.filter_ext. intros m. apply strncmp_prefix. Qed.

Lemma commands_short m : m ∈ chars <$> command_list → Forall (λ c, printable c = true) m ∧ len m < 16.
Proof.
  assert (H : Forall (λ m, Forall (λ c, printable c = true) m ∧ len m < 16) (chars <$> command_list)).
  { repeat constructor. }
  intros Hm. by apply (proj1 (Forall_forall _ _) H).
Qed.

(** A completion: characters and a last one behind what is kept of the line. *)
Lemma append_ok l rest c b s w w1 w2 :
  input_buffer s = l ++ b → buffer_pos s = len l → len (l ++ b) = SHELL_BUFFER_SIZE → len l + len rest < SHELL_BUFFER_SIZE →
  Forall (λ c, byte c) rest → c ≠ 37 → put_all rest w = Ok ((), w1) → put_all [c] w1 = Ok ((), w2) →
  ∃ t, (s ← append_chars rest s; append_last c s) w =
         Ok (set_line (l ++ rest ++ c :: t) (len l + len rest + 1) (cursor_pos s) s, w2) ∧
       len (l ++ rest ++ c :: t) = SHELL_BUFFER_SIZE.
Proof.
  unfold SHELL_BUFFER_SIZE. intros Eb Ep Hl Hr Hb Hc P1 P2. pose proof (len_nonneg l). pose proof (len_nonneg rest).
  rewrite len_app in Hl. destruct (splice_mid l rest b) as (x & t & Esp & Hsz); [lia|]. exists t. split.
  2: { unfold len in *. rewrite !length_app. cbn [List.length]. lia. }
  rewrite (kbind _ _ _ _ _ (append_chars_ok rest s w w1 ltac:(unfold SHELL_BUFFER_SIZE; rewrite Eb, len_app; lia) ltac:(lia)
    ltac:(unfold SHELL_BUFFER_SIZE; lia) Hb P1)).
  rewrite Eb, Ep, Esp. unfold append_last. cbn [input_buffer buffer_pos set_line cursor_pos].
  rewrite (kbind _ _ w1 (l ++ rest ++ c :: t) w1).
  2: { unfold lift. rewrite put_at_ok by (unfold len in *; rewrite !length_app; cbn [List.length]; lia).
       replace (Z.to_nat (len l + len rest)) with (length (l ++ rest)) by (rewrite length_app; unfold len; lia).
       by rewrite (app_assoc l), insert_mid, <- app_assoc. }
  by rewrite (kbind _ _ w1 () w2) by by rewrite put_text_puts.
Qed.

Lemma append_fault rest c s w w1 w2 :
  len (input_buffer s) = SHELL_BUFFER_SIZE → 0 ≤ buffer_pos s ≤ SHELL_BUFFER_SIZE →
  SHELL_BUFFER_SIZE ≤ buffer_pos s + len rest → Forall (λ c, byte c) rest →
  put_all rest w = Ok ((), w1) → put_all [c] w1 = Ok ((), w2) →
  (s ← append_chars rest s; append_last c s) w = Fault.
Proof.
  intros Hb Hp Hr Hbytes P1 P2. destruct (decide (SHELL_BUFFER_SIZE < buffer_pos s + len rest)) as [Hlt|Hge].
  { unfold mbind, kernel_bind. by rewrite (append_chars_fault rest s w w1). }
  rewrite (kbind _ _ _ _ _ (append_chars_ok rest s w w1 Hb (proj1 Hp) ltac:(lia) Hbytes P1)).
  unfold append_last, mbind, kernel_bind, lift, put_at. cbn [input_buffer buffer_pos set_line].
  rewrite (proj2 (Z.ltb_ge _ (len _))), andb_false_r; [done|]. unfold splice, SHELL_BUFFER_SIZE, len in *.
  rewrite !length_app, length_take, length_drop. lia.
Qed.

(** Tab at the end of a word that only one command begins with completes the command and
    puts a blank behind it, in the array and on the screen. *)
Theorem tab_completes_command fuel col w s z m :
  editing s z → line_on w col (line_of z) (length (left z)) → right z = [] → left z ≠ [] → BLANK ∉ left z →
  List.filter (λ c, bool_decide (left z `prefix_of` c)) (chars <$> command_list) = [m] →
  let z' := mk_zipper (m ++ [BLANK]) [] (past z) (shown_at z) in
  ∃ s' w', handle_key fuel TAB s w = Ok (s', w') ∧ editing s' z' ∧ line_on w' col (line_of z') (length (left z')) ∧
    current_working_directory s' = current_working_directory s.
Proof.
  intros E Hl Hr Hne Hb Hm z'. pose proof E as [E1 _ E3 E4 _ _ _ _ _ _]. unfold SHELL_BUFFER_SIZE in *.
  assert (Hline : line_of z = left z) by (unfold line_of; by rewrite Hr, app_nil_r). rewrite Hline in *.
  destruct (end_line s z E) as (t & Eput & Es1 & Hstr). rewrite Hline in *.
  assert (Hin : m ∈ chars <$> command_list ∧ left z `prefix_of` m).
  { assert (Hm' : In m [m]) by by left. rewrite <- Hm in Hm'. apply filter_In in Hm' as [H1 H2].
    split; [by apply list_elem_of_In|by apply bool_decide_eq_true in H2]. }
  destruct Hin as [Hin Hp]. destruct (commands_short m Hin) as [Hpm Hlm]. destruct (prefix_take _ _ Hp) as [_ Em].
  set (rest := drop (length (left z)) m) in *. assert (Hlen : len m = len (left z) + len rest) by (rewrite Em at 1; apply len_app).
  rewrite Em in Hpm. apply Forall_app in Hpm as [Hpl Hpr]. pose proof (len_nonneg rest). pose proof (len_nonneg (left z)).
  unfold handle_key. change (TAB =? 0) with false. change ((TAB =? 10) || (TAB =? 13)) with false.
  change (TAB =? BACKSPACE) with false. change (TAB =? TAB) with true. cbn iota.
  rewrite (proj2 (Z.eqb_eq (cursor_pos s) _)) by by rewrite E3, E4, <- Hline. unfold shell_tab_completion.
  assert (Hpos : (buffer_pos s =? 0) = false).
  { apply Z.eqb_neq. rewrite E3. destruct (left z); [done|]. unfold len. cbn [List.length]. lia. }
  rewrite Hpos. set (s1 := set_line (left z ++ 0 :: t) (buffer_pos s) (cursor_pos s) s) in *.
  destruct (put_all_line col (rest ++ [BLANK]) w _ _ Hl) as (w1 & P1 & L1).
  { lia. } { unfold len in *. lia. } { rewrite length_app. unfold len in *. cbn [List.length]. lia. }
  { apply Forall_app. split; [by apply line_chars|by repeat constructor]. }
  rewrite over_end in L1. rewrite app_assoc, <- Em in L1. rewrite put_all_app in P1. apply kernel_bind_ok in P1 as ([] & w2 & P1 & P2).
  destruct (append_ok (left z) rest BLANK (0 :: t) s1 w w2 w1) as (t' & Ea & Hsz); try done.
  { exact (ed_size _ _ Es1). } { unfold SHELL_BUFFER_SIZE. lia. }
  { eapply Forall_impl; [apply Hpr|]. intros a Ha. by apply printable_plain. }
  rewrite (app_assoc (left z)), <- Em, <- Hlen in Ea. rewrite (app_assoc (left z)), <- Em in Hsz.
  assert (E' : complete_command (left z) s1 w = Ok (set_line (m ++ BLANK :: t') (len m + 1) (cursor_pos s1) s1, w1)).
  { unfold complete_command. change (buffer_pos s1) with (buffer_pos s). rewrite E3, matching_prefix, Hm.
    replace (Z.to_nat (len (left z))) with (length (left z)) by (unfold len; lia). exact Ea. }
  eexists _, w1. split.
  { unfold mbind, kernel_bind, lift in *. rewrite Eput. run. fold s1. rewrite Hstr. run. rewrite split_at_none by done. rewrite E'. reflexivity. }
  assert (Hfull : editing (set_line (m ++ BLANK :: t') (len (m ++ [BLANK])) (len (m ++ [BLANK])) s1) z').
  { pose proof (editing_line s1 z (m ++ BLANK :: t') (m ++ [BLANK]) [] t' Es1) as X. rewrite app_nil_r in X. apply X.
    - by rewrite <- app_assoc.
    - exact Hsz.
    - split; [apply Forall_app; split; [by apply commands_short|by repeat constructor]|].
      rewrite len_app. unfold SHELL_BUFFER_SIZE, len in *. cbn [List.length]. lia. }
  rewrite len_app in Hfull. split_and!; [exact Hfull| |done].
  unfold z', line_of. cbn [left right]. rewrite app_nil_r.
  replace (length (m ++ [BLANK])) with (length (left z) + length (rest ++ [BLANK]))%nat; [done|].
  rewrite !length_app. unfold len in *. lia.
Qed.

Lemma put_all_ok col cs : Forall (λ c, byte c) cs → ∀ w sc, displays w col sc →
  ∃ w' sc', put_all cs w = Ok ((), w') ∧ displays w' col sc'.
Proof.
  induction 1 as [|c cs Hc _ IH]; intros w sc Hd; cbn [put_all]; [by exists w, sc|].
  destruct (put_screen w col sc c Hd Hc) as (w1 & E1 & Hd1). rewrite (kbind _ _ _ _ _ E1). by eapply IH.
Qed.

Lemma erase_text_puts w : printf [8; 32; 8] [] w = put_all [8; 32; 8] w.
Proof.
  unfold printf, lift. change [8; 32; 8] with ([Stdio.Text [8; 32; 8]] ≫= Stdio.unparse) at 1.
  by rewrite (vprintf_segments _ _ [8; 32; 8]).
Qed.

Lemma take_back_ok col n : ∀ s w sc, displays w col sc →
  ∃ w' sc', take_back n s w = Ok (set_line (input_buffer s) (buffer_pos s - Z.of_nat n) (cursor_pos s) s, w') ∧ displays w' col sc'.
Proof.
  induction n as [|n IH]; intros s w sc Hd; cbn [take_back].
  { exists w, sc. rewrite Z.sub_0_r. by destruct s. }
  destruct (put_all_ok col [8; 32; 8] ltac:(by repeat constructor) w sc Hd) as (w1 & sc1 & P1 & D1).
  rewrite (kbind _ _ w () w1) by by rewrite erase_text_puts.
  destruct (IH (set_line (input_buffer s) (buffer_pos s - 1) (cursor_pos s) s) w1 sc1 D1) as (w2 & sc2 & P2 & D2).
  exists w2, sc2. split; [|done]. rewrite P2. cbn. unfold set_line. cbn. do 3 f_equal; lia.
Qed.

(** When one entry of the directory begins with the last part of the path, Tab puts its name
    there, with a slash behind a directory and a blank behind a file, as long as the
    line still fits the array; when it does not, a character is written behind the
    array, and when it fits without its null, the next Enter writes there. *)
Theorem tab_completes_path fuel col w w1 s sc stem fp m :
  let term := (split_search fp).2 in
  len (input_buffer s) = SHELL_BUFFER_SIZE →
  take (length (stem ++ term)) (input_buffer s) = stem ++ term → buffer_pos s = len (stem ++ term) →
  find_matches fuel fp s w = Ok (Some [m], w1) → displays w1 col sc → Forall (λ c, byte c) m.1 →
  let line := stem ++ m.1 ++ [if is_dir m then SLASH else BLANK] in
  if decide (len line ≤ SHELL_BUFFER_SIZE) then
    ∃ s' w' sc', complete_path fuel fp s w = Ok (s', w') ∧ displays w' col sc' ∧
      buffer_pos s' = len line ∧ take (length line) (input_buffer s') = line ∧
      (len line = SHELL_BUFFER_SIZE → ∀ fuel', enter fuel' s' w' = Fault)
  else complete_path fuel fp s w = Fault.
Proof.
  intros term E1 E2 E3 Hm Hd Hb line. set (c := if is_dir m then SLASH else BLANK) in *.
  assert (Hc : byte c ∧ c ≠ 37) by (unfold c, SLASH, BLANK; destruct (is_dir m); lia).
  destruct (take_back_ok col (length term) s w1 sc Hd) as (w2 & sc2 & T2 & D2).
  rewrite E3, len_app in T2. replace (len stem + len term - Z.of_nat (length term)) with (len stem) in T2 by (unfold len; lia).
  set (s2 := set_line (input_buffer s) (len stem) (cursor_pos s) s) in *.
  destruct (put_all_ok col m.1 Hb w2 sc2 D2) as (w3 & sc3 & P3 & D3).
  destruct (put_all_ok col [c] ltac:(apply Forall_singleton, Hc) w3 sc3 D3) as (w4 & sc4 & P4 & D4).
  assert (Ecp : complete_path fuel fp s w = (s ← append_chars m.1 s2; append_last c s) w2).
  { unfold complete_path. destruct (split_search fp) as [[? ?] tm] eqn:Et. cbn [snd] in term. subst term.
    rewrite (kbind _ _ _ _ _ Hm). by rewrite (kbind _ _ _ _ _ T2). }
  assert (Hline : len line = len stem + len m.1 + 1) by (unfold line; rewrite !len_app; unfold len; cbn [List.length]; lia).
  pose proof (len_nonneg stem). pose proof (len_nonneg m.1).
  assert (Eb : input_buffer s = stem ++ term ++ drop (length (stem ++ term)) (input_buffer s)).
  { rewrite app_assoc. rewrite <- E2 at 1. by rewrite take_drop. }
  rewrite Ecp. case_decide as Hfit.
  - destruct (append_ok stem m.1 c _ s2 w2 w3 w4 Eb) as (t & Ea & Hsz); try done; [by rewrite <- Eb|lia|apply Hc|].
    exists (set_line (stem ++ m.1 ++ c :: t) (len stem + len m.1 + 1) (cursor_pos s2) s2), w4, sc4. cbn [buffer_pos input_buffer set_line].
    split_and!; [done|done|done| |].
    + replace (stem ++ m.1 ++ c :: t) with (line ++ t) by (unfold line; by rewrite <- !app_assoc). apply take_app_length.
    + intros Hfull fuel'. unfold enter. destruct (put_all_ok col [10] ltac:(by repeat constructor) w4 sc4 D4) as (w5 & sc5 & P5 & _).
      rewrite (kbind _ _ w4 () w5) by (unfold NL; by rewrite put_text_puts). unfold mbind, kernel_bind, lift, put_at. cbn [buffer_pos input_buffer set_line].
      rewrite (proj2 (Z.ltb_ge _ (len _))) by lia. by rewrite andb_false_r.
  - apply (append_fault m.1 c s2 w2 w3 w4); try done; cbn; [|lia].
    apply (f_equal len) in Eb. rewrite E1, len_app in Eb. pose proof (len_nonneg (term ++ drop (length (stem ++ term)) (input_buffer s))). lia.
Qed.
End keys.

(** ** The console of the kernel as the screen *)

(** The serial port and the VGA terminal, with a directory of two names and nothing else. *)
Module Desk.
Abbreviation W := Stdio.console.

Definition on_terminal (f : Vga.terminal → Vga.terminal) : kernel W unit :=
  λ c, Ok ((), Stdio.mk_console (Stdio.serial_out c) (Stdio.serial_in c) (f (Stdio.screen c))).

#[export] Instance desk_screen : Screen W := {|
  putchar := λ ch c, c' ← Stdio.putchar ch c; Ok ((), c');
  terminal_setcolor := λ col, on_terminal (Vga.terminal_setcolor col);
  terminal_clear := λ c, t ← Vga.terminal_clear Vga.white_on_black (Stdio.screen c);
                         Ok ((), Stdio.mk_console (Stdio.serial_out c) (Stdio.serial_in c) t);
  terminal_move_cursor := λ dx, on_terminal (Vga.terminal_move_cursor dx);
  serial_move_cursor := λ dx c, Ok ((), Stdio.serial_move_cursor dx c);
  keyboard_getchar := λ c, Ok (Stdio.serial_getc c)
|}.

Lemma serial_putc_screen ch c : Stdio.screen (Stdio.serial_putc ch c) = Stdio.screen c.
Proof. unfold Stdio.serial_putc. by repeat case_match. Qed.
Lemma serial_move_screen dx c : Stdio.screen (Stdio.serial_move_cursor dx c) = Stdio.screen c.
Proof. unfold Stdio.serial_move_cursor. by repeat case_match. Qed.

#[export] Program Instance desk_laws : ScreenLaws W := {|
  displays := λ c col s, Vga.shows (Stdio.screen c) s ∧ Vga.terminal_color (Stdio.screen c) = col
|}.
Next Obligation. by intros c col s [[] _]. Qed.
Next Obligation.
  intros c col s ch [Hs <-] Hb. cbn. unfold Stdio.putchar. rewrite serial_putc_screen.
  unfold Vga.terminal_write. cbn [for_each]. rewrite wrap_small by lia.
  destruct (Vga.putchar_shows _ s ch Hs) as (t & -> & H1 & _ & H2). eexists. split; [reflexivity|]. done.
Qed.
Next Obligation.
  intros c col s dx [Hs <-] Hd. eexists. split; [reflexivity|]. split; [|done].
  by apply Vga.move_cursor_shows; [|lia].
Qed.
Next Obligation. intros c col s dx [Hs <-]. eexists. split; [reflexivity|]. by rewrite serial_move_screen. Qed.

Definition names : list vfs_dirent := [mk_dirent (chars "kernel.txt") 2 VFS_FILE; mk_dirent (chars "boot") 3 VFS_DIRECTORY].

#[export] Instance desk_nodes : VirtualNode W := {|
  vfs_root := λ _, 1; cwd_node := λ _, 1; parent := λ _ _, Ok 1;
  node_open := λ _ w, Ok w; node_close := λ _ w, Ok w; node_finddir := λ _ _ w, Ok (0, w);
  node_read := λ _ _ _ w, Ok ([], w); node_write := λ _ _ _ w, Ok (0, w);
  node_readdir := λ _ i w, Ok (names !! Z.to_nat i, w);
  node_create := λ _ _ _ w, Ok (0, w); node_mkdir := λ _ _ _ w, Ok (-1, w); node_unlink := λ _ _ w, Ok (false, w)
|}.
#[export] Instance desk_fields : Syscall.NodeFields W := {|
  Syscall.node_type := λ _ w, Ok VFS_DIRECTORY; Syscall.node_size := λ _ _, Ok 0; Syscall.node_inode := λ p _, Ok p
|}.
#[export] Instance desk_calls : SystemCalls W := {|
  is_user_mode := λ _, false; syscall := λ _ w, Ok ((Syscall.FAIL, Nothing), w); set_cwd_node := λ _ w, w; outb := λ _ _ w, Ok ((), w)
|}.
#[export] Instance desk_alloc : Allocator W := {| kmalloc := λ _ w, Ok (0, w); kfree := λ _ w, Ok ((), w) |}.
#[export] Instance desk_tasks : Tasks W := {|
  current_id := λ _, Some 1; thread_exists := λ _ _, false; thread_sleep := λ _ w, Ok ((), w); thread_kill := λ _ w, Ok (false, w);
  thread_get_id_by_name := λ _ _, THREAD_NOT_FOUND; thread_print_list := λ w, Ok ((), w); timer_get_ticks := λ _, 0;
  kex_load := λ _ _ w, Ok (-1, w)
|}.
#[export] Instance desk_memory : Memory W := {|
  pfa_alloc_frame := λ w, Ok (0, w); pfa_free_frame := λ _ w, Ok ((), w); paging_map_page := λ _ _ _ w, Ok ((), w);
  paging_unmap_page := λ _ w, Ok ((), w); paging_get_physical_address := λ _ w, Ok (0, w);
  paging_get_stats := λ _, Paging.mk_stats 0 0 0 0; kheap_get_stats := λ w, Ok (Heap.mk_stats 0 0 0 0 0, w);
  get_kheap_start := λ _, 0; get_total_allocated := λ _, 0; peek := λ _ _, Fault
|}.

Definition desk : W :=
  Stdio.mk_console [] [] match Vga.terminal_initialize Vga.demo_terminal with Ok t => t | _ => Vga.demo_terminal end.
Definition ready : shell := shell_init (mk_shell [] 0 0 [SLASH] [] 0 0).
Definition nothing : zipper := mk_zipper [] [] [] (-1).

Lemma desk_displays : displays desk Vga.white_on_black (Vga.blank_screen Vga.white_on_black).
Proof.
  destruct (Vga.initialize_shows Vga.demo_terminal (replicate 2000 0)) as (t & E & H & Hc).
  { split; [reflexivity|apply LibcString.bytes_mem_of]. }
  assert (Ed : desk = Stdio.mk_console [] [] t) by (unfold desk; by rewrite E). rewrite Ed. exact (conj H Hc).
Qed.

Lemma desk_line : line_on desk Vga.white_on_black [] 0.
Proof.
  exists (Vga.blank_screen Vga.white_on_black). split; [apply desk_displays|].
  destruct (screen_grid _ _ _ desk_displays) as (H1 & H2 & H3). split; [exact H1|]. split; [exact H2|]. split; [exact H3|].
  exists 0%nat. split; [cbn; lia|]. split; [reflexivity|]. intros i c Hi. by rewrite lookup_nil in Hi.
Qed.

Lemma ready_editing : editing ready nothing.
Proof.
  constructor; try done. all: first [by apply Forall_replicate | by intros [|i] l].
Qed.
End Desk.

(** ** Witnesses *)

Section witnesses.
Import Desk.
#[local] Opaque desk.

(** A shell with a line. *)
Definition typed (l : list Z) : shell := set_line (l ++ replicate (1024 - length l) 0) (len l) (len l) ready.

Lemma typed_editing l : line_ok l → editing (typed l) (mk_zipper l [] [] (-1)).
Proof.
  intros Hl. pose proof Hl as [_ Hn]. unfold SHELL_BUFFER_SIZE in *.
  pose proof (editing_line ready nothing (l ++ replicate (1024 - length l) 0) l [] (replicate (1024 - length l) 0) ready_editing eq_refl) as X.
  rewrite !app_nil_r in X. apply X; [|done]. unfold SHELL_BUFFER_SIZE, len in *. rewrite length_app, length_replicate. lia.
Qed.

Lemma typed_shown l : line_ok l → ∃ w, put_all l desk = Ok ((), w) ∧ line_on w Vga.white_on_black l (length l).
Proof.
  intros [Hl Hn]. unfold SHELL_BUFFER_SIZE, len in *.
  destruct (put_all_line Vga.white_on_black l desk [] 0 desk_line) as (w & E & L); [cbn; lia|cbn; lia|lia|by apply line_chars|].
  exists w. split; [done|]. unfold over in L. cbn [take app] in L. by rewrite drop_nil, app_nil_r in L.
Qed.

Lemma editor_refines_zipper_witness : ∃ s' w',
  handle_keys 0 [108; KEY_LEFT; 97; KEY_RIGHT; 115; 116; BACKSPACE; KEY_UP] ready desk = Ok (s', w') ∧
  take 3 (input_buffer s') = [97; 108; 115] ∧ cursor_pos s' = 3 ∧ line_on w' Vga.white_on_black [97; 108; 115] 3.
Proof.
  destruct (editor_refines_zipper 0 [108; KEY_LEFT; 97; KEY_RIGHT; 115; 116; BACKSPACE; KEY_UP] Vga.white_on_black desk ready nothing)
    as (s' & w' & E & H & L & _).
  - apply ready_editing.
  - apply desk_line.
  - repeat constructor; done.
  - exists s', w'. destruct H as [_ H _ Hc _ _ _ _ _ _]. split; [exact E|]. split; [exact H|]. split; [exact Hc|exact L].
Defined.

Lemma enter_runs_line_witness : ∃ s',
  editing s' (mk_zipper [] [] [chars "pid"] (-1)) ∧
  enter 1 (typed (chars "pid")) desk =
    (printf NL [];; cwd ← shell_execute 1 [SLASH] (chars "pid"); shell_prompt cwd;; mret (set_cwd cwd s')) desk.
Proof.
  pose proof (enter_runs_line 1 desk (typed (chars "pid")) (mk_zipper (chars "pid") [] [] (-1))) as X.
  destruct X as (_ & s' & H & _ & E).
  - apply typed_editing. split; [by repeat constructor|by vm_compute].
  - exists s'. split; [exact H|]. rewrite decide_False in E by done. exact E.
Defined.

Lemma tab_completes_command_witness : ∃ w s' w',
  put_all (chars "he") desk = Ok ((), w) ∧ handle_key 0 TAB (typed (chars "he")) w = Ok (s', w') ∧
  take 5 (input_buffer s') = chars "help " ∧ line_on w' Vga.white_on_black (chars "help ") 5.
Proof.
  assert (Hl : line_ok (chars "he")) by (split; [by repeat constructor|by vm_compute]).
  assert (Hb : BLANK ∉ chars "he") by (vm_compute; set_solver).
  destruct (typed_shown _ Hl) as (w & Ew & Lw).
  destruct (tab_completes_command 0 Vga.white_on_black w (typed (chars "he")) (mk_zipper (chars "he") [] [] (-1)) (chars "help"))
    as (s' & w' & E & H & L & _).
  - by apply typed_editing.
  - exact Lw.
  - done.
  - done.
  - exact Hb.
  - by vm_compute.
  - exists w, s', w'. split; [exact Ew|]. split; [exact E|]. split; [exact (ed_line _ _ H)|exact L].
Defined.

Definition long_line : list Z := chars "cat" ++ replicate 1017 32.

Lemma desk_matches s : find_matches 3 (chars "ke") s desk = Ok (Some [(chars "kernel.txt", VFS_FILE)], desk).
Proof. reflexivity. Qed.

Lemma tab_completes_path_witness :
  (∃ s' w', complete_path 3 (chars "ke") (typed (chars "cat ke")) desk = Ok (s', w') ∧
     take 15 (input_buffer s') = chars "cat kernel.txt ") ∧
  complete_path 3 (chars "ke") (typed (long_line ++ chars "ke")) desk = Fault.
Proof.
  assert (Hb : Forall (λ c, byte c) (chars "kernel.txt")) by by repeat constructor.
  split.
  - pose proof (tab_completes_path 3 Vga.white_on_black desk desk (typed (chars "cat ke")) (Vga.blank_screen Vga.white_on_black)
      (chars "cat ") (chars "ke") (chars "kernel.txt", VFS_FILE) eq_refl eq_refl eq_refl (desk_matches _) desk_displays Hb) as X.
    rewrite decide_True in X by by vm_compute. destruct X as (s' & w' & sc' & E & _ & _ & H & _). exists s', w'. split; [exact E|exact H].
  - pose proof (tab_completes_path 3 Vga.white_on_black desk desk (typed (long_line ++ chars "ke")) (Vga.blank_screen Vga.white_on_black)
      long_line (chars "ke") (chars "kernel.txt", VFS_FILE) eq_refl eq_refl eq_refl (desk_matches _) desk_displays Hb) as X.
    rewrite decide_False in X by (vm_compute; intros H; exact (H eq_refl)). exact X.
Defined.
End witnesses.
End ShellLine.
