(* ===== verification/Dispatch.v ===== *)
(** * System calls: the table, the calls on processes and the terminal (kernel/syscalls/syscalls.cpp, sys_proc.cpp, sys_vga.cpp)

    The processor enters the kernel at [syscall_handler] with the number of a call
    and its arguments; the number selects a function of a table of 256.  The calls
    on files and memory are those of the files Syscall and Sbrk, on the descriptors,
    the break and the page tables of the current thread; the calls on processes are
    those of the scheduler.  The state gives access to the scheduler and the terminal
    ([Kernel]); [KernelLaws] says that files, user memory and the scheduler are
    different parts of it.  The main theorem runs a program's calls through the
    handler: it opens a file by its path, reads it and closes it. *)

From Stdlib Require Import String.
From S2P Require Import Prelude Pfa Paging Vmm Heap Bytes Descriptors LibcStdlib Block Vfs Vga Stdio Thread UserMem Image Sbrk Syscall Kex Shell.

Module Dispatch.
Import Bytes Block Vfs UserMem Syscall.
#[local] Close Scope string_scope.
#[local] Open Scope list_scope.
#[local] Abbreviation length := List.length.
#[local] Abbreviation chars := LibcStdlib.chars.
#[local] Abbreviation sched := Thread.sched.
#[local] Abbreviation thread_t := Thread.thread_t.

(** The parts of the kernel that the calls work on. *)
Class Kernel (W : Type) := {
  get_timer : W → Thread.timer;                 (** the ticks and the scheduler *)
  put_timer : Thread.timer → W → W;
  get_terminal : W → Vga.terminal;
  put_terminal : Vga.terminal → W → W;
  outb : Z → Z → W → outcome W;
  swapgs : W → W;
  stale_name : W → list Z                       (** what the static directory entry of a node holds *)
}.

(** What a call does with the processor: a result for the user, or it does not come back. *)
Inductive answer : Set := Answer (r : Z) | NoReturn.

Definition set_files (p : process) (t : thread_t) : thread_t :=
  Thread.mk_thread (Thread.rsp t) (Thread.id t) (Thread.name t) (Thread.stack_start t) (Thread.user_stack t) (Thread.is_user t)
    (Thread.next t) (Thread.state t) (Thread.sleep_ticks t) (Thread.exit_code t) (Thread.user_image_start t)
    (Thread.user_image_end t) (Thread.user_heap_break t) (Thread.dyn_lib_break t) (fd_table p) (fd_offset p).
Definition files_of (t : thread_t) : process := mk_process (Thread.fd_table t) (Thread.fd_offset t).

Section calls.
Context (addr_thread_exit addr_user_thread_entry : Z).
Context {W : Type} {NF : Syscall.NodeFields W} `{!VirtualNode W, !Allocator W, !UserSpace W, !Console W}.
Context {PM : Image.PageMapper W} `{!Kernel W}.

(** ** The scheduler *)

Definition get_sched (w : W) : sched := Thread.tm_sched (get_timer w).
Definition put_sched (s : sched) (w : W) : W :=
  put_timer (Thread.mk_timer (Thread.timer_ticks (get_timer w)) (Thread.timer_hz (get_timer w)) s) w.
Definition on_sched {A} (f : sched → outcome (A * sched)) (w : W) : outcome (A * W) :=
  '(a, s) ← f (get_sched w); Ok (a, put_sched s w).

#[local] Instance kernel_threads : Kex.Threads W := {|
  Kex.thread_add entry nm user := on_sched (Thread.thread_add addr_thread_exit addr_user_thread_entry entry nm user);
  Kex.thread_kill i := on_sched (Thread.thread_kill i);
  Kex.get_thread p w := Thread.deref (Thread.threads (get_sched w)) p;
  Kex.put_thread p t w := s ← Thread.assign p (λ _, t) (get_sched w); Ok (put_sched s w)
|}.

Definition thread_get_current (w : W) : Z := Thread.current_thread (get_sched w).

(** A call on the descriptors of the current thread; the pointer is read at the start. *)
Definition with_files (f : process → W → outcome (Z * process * W)) (w : W) : outcome (Z * W) :=
  let current := thread_get_current w in
  t ← Kex.get_thread current w;
  '(r, p, w1) ← f (files_of t) w;
  t1 ← Kex.get_thread current w1;
  w2 ← Kex.put_thread current (set_files p t1) w1;
  Ok (r, w2).

Definition read_files (f : process → W → outcome (Z * W)) (w : W) : outcome (Z * W) :=
  t ← Kex.get_thread (thread_get_current w) w; f (files_of t) w.

(** [printf] in the kernel. *)
Definition printf (format : list Z) (args : list Stdio.arg) (w : W) : outcome W :=
  '(out, _) ← Stdio.vprintf format args; Syscall.put_all out w.

(** ** Processes (sys_proc.cpp) *)

Definition sys_exit (status : Z) (w : W) : outcome (answer * W) :=
  let exit_status := signed 32 status in
  let current := thread_get_current w in
  w ← (if current =? 0 then Ok w
       else t ← Kex.get_thread current w; Ok (if Thread.is_user t then swapgs w else w));
  s ← Thread.thread_exit exit_status (get_sched w);
  Ok (NoReturn, put_sched s w).

Definition sys_uptime (w : W) : Z := Thread.timer_get_ticks (get_timer w).

Definition state_str (s : Thread.thread_state_t) : string :=
  match s with
  | Thread.THREAD_READY => "READY"
  | Thread.THREAD_RUNNING => "RUNN "
  | Thread.THREAD_SLEEPING => "SLEEP"
  | Thread.THREAD_BLOCKED => "BLOCK"
  | Thread.THREAD_ZOMBIE => "ZOMB "
  end%string.

Definition print_thread (t : thread_t) : W → outcome W :=
  printf (chars "  %d    %-15s %-10s 0x%lx" ++ [10])
    [Stdio.ArgWord (u64 (signed 32 (Thread.id t))); Stdio.ArgStr (Some (Thread.name t));
     Stdio.ArgStr (Some (chars (state_str (Thread.state t)))); Stdio.ArgWord (Thread.rsp t)].

(** The loop around the ring. *)
Fixpoint print_loop (fuel : nat) (p stop : Z) (w : W) : outcome W :=
  match fuel with
  | O => OutOfFuel
  | S fuel' =>
      t ← Kex.get_thread p w;
      w ← print_thread t w;
      if Thread.next t =? stop then Ok w else print_loop fuel' (Thread.next t) stop w
  end.

Definition thread_print_list (w : W) : outcome W :=
  let current := thread_get_current w in
  if current =? 0 then Ok w else
  w ← printf (chars "  ID    %-15s %-10s %s" ++ [10])
        [Stdio.ArgStr (Some (chars "NAME")); Stdio.ArgStr (Some (chars "STATE")); Stdio.ArgStr (Some (chars "RSP"))] w;
  w ← printf (chars "------------------------------------------------------------" ++ [10]) [] w;
  print_loop (Thread.fuel_of (get_sched w)) current current w.

Definition sys_ps (w : W) : outcome (Z * W) := w ← thread_print_list w; Ok (0, w).

Definition sys_kill (id_ptr : Z) (w : W) : outcome (Z * W) :=
  r ← copy_from_user 63 id_ptr w;
  match r with
  | None => Ok (FAIL, w)
  | Some kbuf => '(r, w) ← on_sched (Thread.thread_kill_by_string (Some (c_string kbuf))) w; Ok (u64 r, w)
  end.

(** The reset of the keyboard controller; what follows is for a machine that ignores it. *)
Definition sys_reboot (w : W) : outcome (answer * W) :=
  w ← outb 0x64 0xFE w;
  w ← outb 0xCF9 0x06 w;
  Ok (NoReturn, w).

Definition sys_getpid (w : W) : outcome (Z * W) :=
  let current := thread_get_current w in
  if current =? 0 then Ok (FAIL, w) else t ← Kex.get_thread current w; Ok (Thread.id t, w).

Definition sys_sleep (ms : Z) (w : W) : outcome (Z * W) :=
  s ← Thread.thread_sleep (u32 ms) (get_sched w); Ok (0, put_sched s w).

Definition sys_load_library (fuel : nat) (path_ptr : Z) (w : W) : outcome (Z * W) :=
  r ← user_path_arg path_ptr w;
  match r with
  | None => Ok (0, w)
  | Some path =>
      let current := thread_get_current w in
      if current =? 0 then Ok (0, w) else Kex.kdl_load fuel path current w
  end.

(** ** Memory (sys_mem.cpp), on the current thread *)

Definition sys_sbrk (increment : Z) (w : W) : outcome (Z * W) :=
  let current := thread_get_current w in
  if current =? 0 then Ok (FAIL, w) else
  t ← Kex.get_thread current w;
  '(r, brk, pg) ← Sbrk.sys_sbrk increment (Thread.is_user t) (Thread.user_heap_break t) (Thread.get_paging (get_sched w));
  let w := put_sched (Thread.set_paging pg (get_sched w)) w in
  w ← Kex.put_thread current (Kex.set_break brk t) w;
  Ok (r, w).

(** ** The terminal (sys_vga.cpp) *)

Definition sys_vga (cmd a1 a2 : Z) (w : W) : outcome (Z * W) :=
  if cmd =? 0 then t ← Vga.terminal_clear Vga.white_on_black (get_terminal w); Ok (0, put_terminal t w)
  else if cmd =? 1 then
    Ok (0, put_terminal (Vga.terminal_setcolor (Vga.mk_color (u8 a1) (u8 a2)) (get_terminal w)) w)
  else if cmd =? 2 then Ok (0, put_terminal (Vga.update_cursor a1 a2 (get_terminal w)) w)
  else Ok (FAIL, w).

(** ** The table (syscalls.cpp) *)

(** [waits] bounds how often a read of the keyboard blocks, [fuel] the tables of a library. *)
Context (waits fuel : nat).

Record arguments : Set := mk_arguments { a1 : Z; a2 : Z; a3 : Z; a4 : Z; a5 : Z; a6 : Z }.
Definition syscall_fn : Type := arguments → W → outcome (answer * W).

Definition returns (f : arguments → W → outcome (Z * W)) : syscall_fn := λ a w, '(r, w') ← f a w; Ok (Answer r, w').

Definition syscall_table_init : gmap Z syscall_fn :=
  list_to_map [
    (0, returns (λ a, with_files (sys_read waits (a1 a) (a2 a) (a3 a))));
    (1, returns (λ a, with_files (sys_write (a1 a) (a2 a) (a3 a))));
    (2, returns (λ a, with_files (sys_open (a1 a) (a2 a))));
    (3, returns (λ a, with_files (sys_close (a1 a))));
    (4, returns (λ a, sys_mkdir (a1 a) (a2 a)));
    (5, returns (λ _ w, Ok (sys_uptime w, w)));
    (6, returns (λ a, sys_unlink (a1 a)));
    (7, returns (λ a w, read_files (sys_readdir (stale_name w) (a1 a) (a2 a) (a3 a)) w));
    (8, returns (λ a, sys_stat (a1 a) (a2 a)));
    (9, returns (λ a, read_files (sys_fstat (a1 a) (a2 a))));
    (10, returns (λ _, sys_getpid));
    (11, returns (λ a, sys_sleep (a1 a)));
    (12, returns (λ a, sys_sbrk (a1 a)));
    (20, returns (λ a, sys_load_library fuel (a1 a)));
    (37, returns (λ a, sys_kill (a1 a)));
    (60, λ a, sys_exit (a1 a));
    (100, returns (λ a, sys_vga (a1 a) (a2 a) (a3 a)));
    (161, λ _, sys_reboot);
    (200, returns (λ _, sys_ps))].

Definition syscall_handler (num : Z) (a : arguments) (w : W) : outcome (answer * W) :=
  match (if num <? 256 then syscall_table_init !! num else None) with
  | Some f => f a w
  | None =>
      w ← printf ([10] ++ chars "[SYSCALL] Error: %llu not defined" ++ [10]) [Stdio.ArgWord num] w;
      Ok (Answer (u64 (- ENOSYS)), w)
  end.
End calls.

(** ** The registers of [syscall] *)

(** The structure behind the GS base and the registers of the processor. *)
Record syscall_state : Type := mk_syscall_state { kernel_stack : Z; msrs : gmap Z Z }.

Definition wrmsr (register low high : Z) (st : syscall_state) : syscall_state :=
  mk_syscall_state (kernel_stack st) (<[register := Z.lor (Z.shiftl high 32) low]> (msrs st)).

(** [gs_ptr] and [syscall_entry] are the addresses of the structure and the entry. *)
Definition syscall_init (gs_ptr syscall_entry rsp0 : Z) (st : syscall_state) : syscall_state :=
  let efer := default 0 (msrs st !! 0xC0000080) in
  let st := wrmsr 0xC0000080 (Z.lor (u32 efer) 1) (u32 (Z.shiftr efer 32)) st in
  let st := mk_syscall_state rsp0 (msrs st) in
  let st := wrmsr 0xC0000102 (u32 gs_ptr) (u32 (Z.shiftr gs_ptr 32)) st in
  let st := wrmsr 0xC0000081 (u32 Descriptors.STAR) (u32 (Z.shiftr Descriptors.STAR 32)) st in
  let st := wrmsr 0xC0000082 (u32 syscall_entry) (u32 (Z.shiftr syscall_entry 32)) st in
  wrmsr 0xC0000084 0x200 0 st.

Definition syscall_set_kernel_stack (stack : Z) (st : syscall_state) : syscall_state := mk_syscall_state stack (msrs st).

Lemma msr_halves v : 0 ≤ v < 2 ^ 64 → Z.lor (Z.shiftl (u32 (Z.shiftr v 32)) 32) (u32 v) = v.
Proof.
  intros Hv. unfold wrap. rewrite Z.shiftr_div_pow2 by lia. rewrite (Z.mod_small (v / 2 ^ 32)) by zdm.
  apply Z.bits_inj'. intros i Hi. rewrite Z.lor_spec, Z.shiftl_spec by lia. destruct (Z.ltb_spec i 32).
  - rewrite Z.testbit_neg_r by lia. cbn [orb]. by rewrite Z.mod_pow2_bits_low by lia.
  - rewrite Z.mod_pow2_bits_high by lia. rewrite orb_false_r, Z.div_pow2_bits by lia. f_equal. lia.
Qed.

(** After [syscall_init] the instruction enters at [syscall_entry] with interrupts off, in the
    segments of [STAR], and finds the stack of the kernel behind the GS base. *)
Lemma syscall_init_registers gs_ptr entry rsp0 st :
  0 ≤ gs_ptr < 2 ^ 64 → 0 ≤ entry < 2 ^ 64 →
  let st' := syscall_init gs_ptr entry rsp0 st in
  msrs st' !! 0xC0000082 = Some entry ∧ msrs st' !! 0xC0000081 = Some Descriptors.STAR ∧ msrs st' !! 0xC0000084 = Some 0x200 ∧
  msrs st' !! 0xC0000102 = Some gs_ptr ∧ kernel_stack st' = rsp0 ∧
  ∃ efer, msrs st' !! 0xC0000080 = Some efer ∧ Z.testbit efer 0 = true.
Proof.
  intros Hg He. unfold syscall_init, wrmsr. cbn [msrs kernel_stack].
  split_and!; repeat (rewrite lookup_insert_eq || rewrite lookup_insert_ne by done); [by rewrite msr_halves|done|done|by rewrite msr_halves|done|].
  eexists. split; [reflexivity|]. by rewrite !Z.lor_spec, Z.shiftl_spec_low, orb_true_r by lia.
Qed.

(** ** What the calls rely on *)

(** The scheduler is apart from the files, the user memory and the buffers of the heap;
    closing a node of a file leaves user memory alone. *)
Class KernelLaws (W : Type) `{!VirtualNode W, !Allocator W, !UserSpace W, !UserLaws W, !FileLaws W, !Kernel W} := {
  get_put tm w : get_timer (put_timer tm w) = tm;
  put_data tm w : user_ok w → same_data contents w (put_timer tm w);
  kmalloc_timer n w p w' : kmalloc n w = Ok (p, w') → get_timer w' = get_timer w;
  kfree_timer p w u w' : kfree p w = Ok (u, w') → get_timer w' = get_timer w;
  read_timer p off n w bs w' : node_read p off n w = Ok (bs, w') → get_timer w' = get_timer w;
  store_timer u b w w' : store_user u b w = Ok w' → get_timer w' = get_timer w;
  close_data w p d : user_ok w → contents w p = Some d →
    ∃ w', node_close p w = Ok w' ∧ user_ok w' ∧ (∀ u, user_byte w' u = user_byte w u) ∧ get_timer w' = get_timer w
}.

Section laws.
Context (addr_thread_exit addr_user_thread_entry : Z) (waits fuel : nat).
Context {W : Type} {NF : Syscall.NodeFields W} `{!VirtualNode W, !Allocator W, !UserSpace W, !Console W}.
Context {PM : Image.PageMapper W} `{!Kernel W, !UserLaws W, !FileLaws W, !KernelLaws W}.
Implicit Types w : W.
#[local] Abbreviation handler := (syscall_handler addr_thread_exit addr_user_thread_entry waits fuel).
#[local] Abbreviation with_files := (with_files addr_thread_exit addr_user_thread_entry).

(** The thread that runs. *)
Definition running w (th : thread_t) : Prop := Thread.threads (get_sched w) !! thread_get_current w = Some th.

Lemma with_files_ok f w th r p w1 : running w th → f (files_of th) w = Ok (r, p, w1) → get_timer w1 = get_timer w → user_ok w1 →
  ∃ w2, with_files f w = Ok (r, w2) ∧ running w2 (set_files p th) ∧ same_data contents w1 w2 ∧ ∃ tm, w2 = put_timer tm w1.
Proof.
  intros Hr Hf Ht Hw1. unfold running, thread_get_current, get_sched in *. unfold Dispatch.with_files.
  cbn [Kex.get_thread Kex.put_thread kernel_threads]. unfold thread_get_current, get_sched, Thread.deref in *.
  rewrite Hr. cbn [of_option]. run. rewrite Hf. run. rewrite Ht, Hr. cbn [of_option]. run. unfold Thread.assign, Thread.deref. rewrite Hr. cbn [of_option]. run.
  eexists. split; [reflexivity|]. unfold put_sched. split; [|split; [by apply put_data|by eexists]].
  rewrite get_put. cbn [Thread.tm_sched Thread.current_thread Thread.threads Thread.set_threads]. by rewrite lookup_insert_eq.
Qed.

Lemma copy_to_user_timer bs : ∀ u w ok w', copy_to_user bs u w = Ok (ok, w') → get_timer w' = get_timer w.
Proof.
  induction bs as [|b bs IH]; intros u w ok w'; cbn [copy_to_user]; [by intros [= _ <-]|].
  intros H. apply bind_Ok in H as (a & _ & H). destruct a; cbn [negb] in H; [|by injection H as _ <-].
  apply bind_Ok in H as (w1 & E & H). rewrite (IH _ _ _ _ H). by eapply store_timer.
Qed.

Lemma sys_read_timer fd buf size t w r t' w' : fd ≠ 0 → sys_read waits fd buf size t w = Ok (r, t', w') → get_timer w' = get_timer w.
Proof.
  intros Hfd. unfold sys_read. rewrite (proj2 (Z.eqb_neq _ _) Hfd). destruct (open_file fd t) as [[node off]|]; [|by intros [= _ _ <-]].
  intros H. apply bind_Ok in H as ([kb w1] & E1 & H). apply kmalloc_timer in E1.
  destruct (kb =? 0); [by injection H as _ _ <-; rewrite E1|].
  apply bind_Ok in H as ([bs w2] & E2 & H).
  assert (T2 : get_timer w2 = get_timer w1).
  { unfold vfs_read in E2. destruct (node =? 0); [by injection E2 as _ <-|]. by eapply read_timer. }
  destruct (capacity size <? len bs); [done|]. destruct bs as [|b bs].
  - apply bind_Ok in H as ([u w3] & E3 & H). apply kfree_timer in E3. injection H as _ _ <-. congruence.
  - apply bind_Ok in H as ([ok w3] & E3 & H). apply copy_to_user_timer in E3.
    apply bind_Ok in H as ([u w4] & E4 & H). apply kfree_timer in E4.
    destruct ok; injection H as _ _ <-; congruence.
Qed.

Lemma files_set p th : files_of (set_files p th) = p.
Proof. by destruct p. Qed.

(** A number outside the table only prints. *)
Lemma unknown_number num a w : (256 ≤ num ∨ (0 ≤ num < 256 ∧ num ∉ [0;1;2;3;4;5;6;7;8;9;10;11;12;20;37;60;100;161;200])) →
  handler num a w =
    (w ← printf ([10] ++ chars "[SYSCALL] Error: %llu not defined" ++ [10]) [Stdio.ArgWord num] w; Ok (Answer (u64 (- ENOSYS)), w)).
Proof.
  intros H. unfold syscall_handler. destruct (Z.ltb_spec num 256) as [Hlt|Hge]; [|done].
  destruct H as [H|[_ H]]; [lia|]. replace (syscall_table_init _ _ _ _ !! num) with (@None (@syscall_fn W)); [done|].
  symmetry. apply not_elem_of_list_to_map_1. cbn [list_fmap fmap fst]. exact H.
Qed.

Lemma handler_call num f a w : num < 256 →
  syscall_table_init addr_thread_exit addr_user_thread_entry waits fuel !! num = Some (returns f) →
  handler num a w = ('(r, w') ← f a w; Ok (Answer r, w')).
Proof. intros Hn E. unfold syscall_handler. rewrite (proj2 (Z.ltb_lt _ _) Hn). unfold syscall_fn in *. by rewrite E. Qed.

(** The numbers of [include/libc/sys/syscall.h], which the library of the kernel uses, are in the table. *)
Definition number (c : Shell.call) : Z :=
  match c with
  | Shell.SYS_READ _ _ => 0 | Shell.SYS_WRITE _ _ => 1 | Shell.SYS_OPEN _ _ => 2 | Shell.SYS_CLOSE _ => 3
  | Shell.SYS_MKDIR _ _ => 4 | Shell.SYS_UPTIME => 5 | Shell.SYS_UNLINK _ => 6 | Shell.SYS_READDIR _ _ => 7
  | Shell.SYS_STAT _ => 8 | Shell.SYS_GETPID => 10 | Shell.SYS_SLEEP _ => 11 | Shell.SYS_KILL _ => 37
  | Shell.SYS_EXIT => 60 | Shell.SYS_VGA _ _ _ => 100 | Shell.SYS_REBOOT => 161 | Shell.SYS_PS => 200
  end.

Lemma shell_calls_served c : is_Some (syscall_table_init addr_thread_exit addr_user_thread_entry waits fuel !! number c).
Proof. destruct c; eexists; reflexivity. Qed.

(** The name or number of a thread is copied as 63 bytes: a shorter string is refused
    unless all of them can be read. *)
Lemma kill_needs_63 id_ptr w : user_ok w → range_ok id_ptr 63 → user_bytes w id_ptr 63 = None →
  sys_kill id_ptr w = Ok (FAIL, w).
Proof. intros Hw Hr Hn. unfold sys_kill. rewrite copy_from_user_spec, Hn by done. done. Qed.

Section listing.
Context (putchar_timer : ∀ c w w', putchar c w = Ok w' → get_timer w' = get_timer w).

Lemma put_all_timer bs : ∀ w w', Syscall.put_all bs w = Ok w' → get_timer w' = get_timer w.
Proof.
  induction bs as [|b bs IH]; intros w w'; cbn [Syscall.put_all]; [by intros [= ->]|].
  intros H. apply bind_Ok in H as (w1 & E & H). rewrite (IH _ _ H). by eapply putchar_timer.
Qed.

Lemma bind_with {A B} (a : A) (f : A → outcome B) : (Ok a ≫= f) = f a.
Proof. done. Qed.

Lemma get_thread_ok q t w : Thread.threads (get_sched w) !! q = Some t →
  @Kex.get_thread W (kernel_threads addr_thread_exit addr_user_thread_entry) q w = Ok t.
Proof. intros H. cbn [Kex.get_thread kernel_threads]. unfold Thread.deref. by rewrite H. Qed.

Lemma print_loop_S n q p t w : Thread.threads (get_sched w) !! q = Some t →
  print_loop addr_thread_exit addr_user_thread_entry (S n) q p w =
    (w ← print_thread t w;
     if Thread.next t =? p then Ok w else print_loop addr_thread_exit addr_user_thread_entry n (Thread.next t) p w).
Proof. intros H. cbn [print_loop]. rewrite (get_thread_ok q t w H). by rewrite bind_with. Qed.

(** The line of one thread. *)
Definition print_at (q : Z) (w : W) : outcome W := t ← Thread.deref (Thread.threads (get_sched w)) q; print_thread t w.

Lemma print_at_ok q t w : Thread.threads (get_sched w) !! q = Some t → print_at q w = print_thread t w.
Proof. intros H. unfold print_at, Thread.deref. rewrite H. by rewrite (bind_with t). Qed.

Lemma printf_timer format args w w1 : printf format args w = Ok w1 → get_timer w1 = get_timer w.
Proof. intros E. apply bind_Ok in E as ([out k] & _ & E). by eapply put_all_timer. Qed.

Lemma print_thread_timer t w w1 : print_thread t w = Ok w1 → get_timer w1 = get_timer w.
Proof. apply printf_timer. Qed.

(** [ps] prints the threads of the ring once each, in the order of the ring. *)
Lemma ps_prints_ring p l : ∀ n q w, Thread.path (Thread.threads (get_sched w)) q l p → l ≠ [] → p ∉ tail l → (length l ≤ n)%nat →
  print_loop addr_thread_exit addr_user_thread_entry n q p w =
    for_each print_at l w.
Proof.
  induction l as [|a l IH]; intros n q w Hp Hne Hni Hf; [done|]. destruct n as [|n]; [cbn in Hf; lia|].
  destruct Hp as (<- & t & Ht & Hp). rewrite (print_loop_S _ _ _ t w Ht). cbn [for_each]. rewrite (print_at_ok q t w Ht).
  destruct (print_thread t w) as [w1|?| |] eqn:E; [|done..]. rewrite !bind_with.
  pose proof (print_thread_timer t w w1 E) as T1.
  destruct l as [|b l].
  - cbn [Thread.path] in Hp. subst p. by rewrite Z.eqb_refl.
  - assert (Hb : Thread.next t = b) by exact (proj1 Hp).
    assert (Hpb : p ≠ b ∧ p ∉ l) by exact (proj1 (not_elem_of_cons l p b) Hni). destruct Hpb as [Hpb Hni'].
    rewrite (proj2 (Z.eqb_neq _ _)) by congruence. apply IH; [|done|exact Hni'|cbn in Hf |- *; lia].
    unfold get_sched in *. by rewrite T1.
Qed.
End listing.

(** C18. A program reads a file: it asks for the file of a path, reads [n] bytes and closes it.
    Through the handler of system calls it gets the lowest free descriptor, the first
    [n] bytes of the file in its buffer and no other byte of its memory changed, and
    0; its other descriptors stay, the descriptor is free again, and the node of the file
    was closed: the last state is that after [close] of the node but for the table of
    descriptors.  The node may be one that opening the path makes, with its contents, and
    that closing deletes. *)
Theorem program_reads_file w w1 th path_ptr path node d fd buf n b3 b4 b5 b6 c4 c5 c6 e2 e3 e4 e5 e6 :
  user_ok w → running w th → process_ok (files_of th) → free_fd 13 3 (files_of th) = Some fd →
  user_path_arg path_ptr w = Ok (Some path) → vfs_open (Some path) w = Ok (node, w1) → node ≠ 0 →
  user_ok w1 → (∀ u, user_byte w1 u = user_byte w u) → get_timer w1 = get_timer w → contents w1 node = Some d →
  0 ≤ n ≤ max_request → n < 2 ^ 32 → range_ok buf n → is_Some (user_bytes w buf (Z.to_nat n)) →
  let bs := take (Z.to_nat n) d in
  ∃ w2 w3 w4 th',
    handler 2 (mk_arguments path_ptr 0 b3 b4 b5 b6) w = Ok (Answer fd, w2) ∧ 3 ≤ fd < 16 ∧
    handler 0 (mk_arguments fd buf n c4 c5 c6) w2 = Ok (Answer (len bs), w3) ∧
    handler 3 (mk_arguments fd e2 e3 e4 e5 e6) w3 = Ok (Answer 0, w4) ∧
    (∃ w3' tm, node_close node w3 = Ok w3' ∧ w4 = put_timer tm w3') ∧
    (∀ u, Paging.canonical u → user_byte w4 u =
       if decide (buf ≤ u < buf + len bs) then bs !! Z.to_nat (u - buf) else user_byte w u) ∧
    running w4 th' ∧ ∀ j, 0 ≤ j → open_file j (files_of th') = open_file j (files_of th).
Proof.
  intros Hw Hrun Hp Hfd Hpath Hopen Hnode Hw1 U1 T1 Hd Hn Hn32 Hr Hacc bs.
  pose proof (sys_open_close w w1 (files_of th) path path_ptr 0 node Hp Hpath Hopen Hnode) as Ho. rewrite Hfd in Ho.
  destruct Ho as (p1 & Eo & (Hp1 & Hf1 & Hoth1) & Hrange & Hfree & _ & _).
  destruct (with_files_ok (sys_open path_ptr 0) w th fd p1 w1 Hrun Eo T1 Hw1) as (w2 & E2 & R2 & S2 & _).
  assert (U2 : ∀ u, user_byte w2 u = user_byte w u) by (intros u; by rewrite (sd_user _ _ _ S2), U1).
  assert (Hub : ∀ m, user_bytes w2 buf m = user_bytes w buf m) by (intros m; by apply user_bytes_same).
  destruct (read_file_spec waits w2 p1 fd node 0 d buf n) as (r & p2 & w2' & Er & Hw2' & Hfiles & H);
    [apply S2|done|lia|done|by rewrite (sd_files _ _ _ S2)|lia|done|lia|done|].
  fold bs in H. change (sub 0 n d) with bs in H. rewrite Hub in H. rewrite decide_True in H.
  2: { apply (user_bytes_prefix _ _ (Z.to_nat n)); [unfold bs; rewrite length_take; lia|done]. }
  destruct H as (-> & (Hp2 & Hf2 & Hoth2) & Hu2).
  assert (T2 : get_timer w2' = get_timer w2) by (eapply sys_read_timer; [|exact Er]; lia).
  destruct (with_files_ok (sys_read waits fd buf n) w2 (set_files p1 th) (len bs) p2 w2' R2) as (w3 & E3 & R3 & S3 & _);
    [by rewrite files_set|done|done|].
  destruct (close_data w3 node d) as (w3' & Ec & Hw3' & Hu3 & T3); [apply S3|by rewrite (sd_files _ _ _ S3), Hfiles, (sd_files _ _ _ S2)|].
  assert (Ecl : sys_close fd p2 w3 = Ok (0, set_fd fd 0 0 p2, w3')).
  { unfold sys_close. rewrite (proj2 (Z.ltb_ge fd 3)), Hf2 by lia. unfold vfs_close. rewrite (proj2 (Z.eqb_neq _ _) Hnode), Ec. done. }
  destruct (with_files_ok (sys_close fd) w3 (set_files p2 (set_files p1 th)) 0 (set_fd fd 0 0 p2) w3' R3) as (w4 & E4 & R4 & S4 & tm & Ew4);
    [by rewrite files_set|done|done|].
  exists w2, w3, w4, (set_files (set_fd fd 0 0 p2) (set_files p2 (set_files p1 th))). split_and!.
  - rewrite (handler_call 2 (λ a, with_files (sys_open (a1 a) (a2 a)))) by (done || reflexivity). cbn [a1 a2]. by rewrite E2.
  - lia.
  - lia.
  - rewrite (handler_call 0 (λ a, with_files (sys_read waits (a1 a) (a2 a) (a3 a)))) by (done || reflexivity). cbn [a1 a2 a3]. by rewrite E3.
  - rewrite (handler_call 3 (λ a, with_files (sys_close (a1 a)))) by (done || reflexivity). cbn [a1]. by rewrite E4.
  - by exists w3', tm.
  - intros u Hcan. rewrite (sd_user _ _ _ S4), Hu3, (sd_user _ _ _ S3), Hu2 by done. case_decide; [done|]. apply U2.
  - done.
  - intros j Hj. rewrite files_set. destruct (decide (j = fd)) as [->|Hne].
    + rewrite open_file_set_fd, Hfree by (done || lia). done.
    + rewrite open_file_set_fd_ne, Hoth2, Hoth1 by lia. done.
Qed.
End laws.

(** ** A small kernel: the machine of Syscall with a scheduler and a terminal *)

Module Machine.
Import Syscall.Machine.

Record kernel : Type := mk_kernel { user : machine; timer : Thread.timer; terminal : Vga.terminal; ports : list (Z * Z) }.

Definition set_user (m : machine) (w : kernel) : kernel := mk_kernel m (timer w) (terminal w) (ports w).
Definition on_user {A} (f : machine → outcome (A * machine)) (w : kernel) : outcome (A * kernel) :=
  '(a, m) ← f (user w); Ok (a, set_user m w).

#[export] Instance k_user : UserSpace kernel := {|
  accessible u w := accessible u (user w);
  load_user u w := load_user u (user w);
  store_user u b w := m ← store_user u b (user w); Ok (set_user m w) |}.
#[export] Instance k_heap : Allocator kernel := {| kmalloc n := on_user (kmalloc n); kfree p := on_user (kfree p) |}.
#[export] Instance k_nodes : VirtualNode kernel := {|
  vfs_root _ := 1;
  cwd_node _ := 0;
  Vfs.parent _ _ := Ok 1;
  node_open _ w := Ok w;
  node_close p w := Ok (set_user (fst (user w), delete p (snd (user w))) w);
  node_finddir p nm w :=
    Ok (if bool_decide (nm = [102]) then (7, set_user (fst (user w), <[7 := [10; 20; 30; 40]]> (snd (user w))) w) else (0, w));
  node_read p off n := on_user (node_read p off n);
  node_write p off bs := on_user (node_write p off bs);
  node_readdir _ _ w := Ok (None, w);
  node_create _ _ _ w := Ok (0, w);
  node_mkdir _ _ _ w := Ok (-1, w);
  node_unlink _ _ w := Ok (false, w) |}.
#[export] Instance k_console : Console kernel := {|
  keyboard_has_input _ := false; keyboard_getchar w := Ok (0, w);
  serial_received _ := false; serial_getc w := Ok (0, w);
  block_and_yield w := Ok w; putchar _ w := Ok w |}.
#[export] Instance k_fields : NodeFields kernel := {|
  node_type _ _ := Ok 1; node_size _ _ := Ok 0; node_inode _ _ := Ok 0 |}.
#[export] Instance k_mapper : Image.PageMapper kernel := {|
  Image.alloc_frame w := Ok (0, w); Image.map_page _ _ _ w := Ok w |}.
#[export] Instance k_kernel : Kernel kernel := {|
  get_timer := timer;
  put_timer tm w := mk_kernel (user w) tm (terminal w) (ports w);
  get_terminal := terminal;
  put_terminal t w := mk_kernel (user w) (timer w) t (ports w);
  outb port v w := Ok (mk_kernel (user w) (timer w) (terminal w) (ports w ++ [(port, v)]));
  swapgs w := w;
  stale_name _ := [] |}.

#[export] Program Instance k_user_laws : UserLaws kernel := {|
  user_ok w := machine_ok (user w); user_byte w := user_byte (user w) |}.
Next Obligation. intros w u Hw Hc. exact (accessible_law (user w) u Hw Hc). Qed.
Next Obligation. intros w u b Hw Hc Hb. exact (load_law (user w) u b Hw Hc Hb). Qed.
Next Obligation.
  intros w u b b' Hw Hc Hb' Hb. destruct (store_law (UserLaws := machine_user_laws) (user w) u b b' Hw Hc Hb' Hb) as (m & E & Hm & H).
  exists (set_user m w). split; [|by split]. cbn [store_user k_user]. rewrite E. by run.
Qed.

#[export] Program Instance k_files : FileLaws kernel := {| contents w := contents (user w); max_request := 2 ^ 31 |}.
Next Obligation. intros w n Hw Hn. exists 0x1000, w. destruct w. split_and!; [done|done|by constructor]. Qed.
Next Obligation. intros w p Hw. exists w. destruct w. split; [done|by constructor]. Qed.
Next Obligation.
  intros w p d off n Hw Hd H1 H2 H3. destruct (read_data (FileLaws := machine_files) (user w) p d off n Hw Hd H1 H2 H3) as (m & E & [S1 S2 S3]).
  exists (set_user m w). cbn [node_read k_nodes]. unfold on_user. rewrite E. run. split; [done|by constructor].
Qed.
Next Obligation.
  intros w u b w' E p. cbn [store_user k_user] in E. apply bind_Ok in E as (m & E & H). injection H as <-. by apply (store_data (FileLaws := machine_files) _ u b).
Qed.
Next Obligation. intros w p d Hw Hd. by apply (contents_data (FileLaws := machine_files) (user w) p). Qed.
Next Obligation. intros w u b Hb. by apply (user_byte_data (FileLaws := machine_files) (user w) u). Qed.

#[export] Program Instance k_laws : KernelLaws kernel.
Next Obligation. done. Qed.
Next Obligation. intros tm w Hw. by constructor. Qed.
Next Obligation. intros n w p w' [= _ <-]. by destruct w. Qed.
Next Obligation. intros p w u w' [= _ <-]. by destruct w. Qed.
Next Obligation.
  intros p off n w bs w' E. cbn [node_read k_nodes] in E. apply bind_Ok in E as ([a m] & _ & H). by injection H as _ <-.
Qed.
Next Obligation.
  intros u b w w' E. cbn [store_user k_user] in E. apply bind_Ok in E as (m & _ & H). by injection H as <-.
Qed.
Next Obligation.
  intros w p d [Hw Hf] Hd. eexists. split; [reflexivity|]. split_and!; [|done|done]. split; [exact Hw|]. by apply map_Forall_delete.
Qed.

(** The path "f" at 0x400000, a file of four bytes whose node is made when it is looked up
    and deleted when it is closed, one thread. *)
Definition caller : thread_t := Thread.set_id 4 (Thread.set_next 0x9000 Thread.zero_thread).
Definition demo_sched : sched := Thread.mk_sched Thread.demo_heap {[ 0x9000 := caller ]} ∅ 0x9000 0x8000 5 0 0 0 0.
Definition demo_kernel : kernel :=
  mk_kernel (fst path_machine, ∅) (Thread.mk_timer 0 100 demo_sched) (Vga.mk_terminal 0 0 Vga.white_on_black ∅ ∅) [].

Lemma demo_kernel_ok : user_ok demo_kernel.
Proof.
  destruct (store_law (UserLaws := machine_user_laws) demo_machine 0x400000 102 0 demo_machine_ok) as (m & E & [Hm _] & _); [left; lia|by vm_compute|lia|].
  assert (E' : store_user 0x400000 102 demo_machine = Ok (fst path_machine, snd demo_machine)) by (vm_compute; reflexivity).
  rewrite E' in E. apply (f_equal (λ o, match o with Ok x => fst x | _ => fst m end)) in E. cbv beta iota in E. cbn [fst] in E.
  rewrite <- E in Hm. split; [exact Hm|]. apply map_Forall_empty.
Qed.

(** The state in which the node of the file was made. *)
Definition demo_opened : kernel := set_user (fst path_machine, {[ 7 := [10; 20; 30; 40] ]}) demo_kernel.

Lemma demo_opened_ok : user_ok demo_opened.
Proof.
  split; [exact (proj1 demo_kernel_ok)|]. apply map_Forall_singleton. repeat constructor; lia.
Qed.
End Machine.

Import Machine.

Lemma program_reads_file_witness : ∃ w2 w3 w4,
  let handler := syscall_handler 0x100 0x200 0 0 in
  handler 2 (mk_arguments 0x400000 0 0 0 0 0) Machine.demo_kernel = Ok (Answer 3, w2) ∧
  handler 0 (mk_arguments 3 0x400010 2 0 0 0) w2 = Ok (Answer 2, w3) ∧
  handler 3 (mk_arguments 3 0 0 0 0 0) w3 = Ok (Answer 0, w4) ∧ user_byte w4 0x400011 = Some 20.
Proof.
  destruct (program_reads_file 0x100 0x200 0 0 Machine.demo_kernel Machine.demo_opened Machine.caller 0x400000 [102] 7 [10; 20; 30; 40]
    3 0x400010 2 0 0 0 0 0 0 0 0 0 0 0 0) as (w2 & w3 & w4 & th & E2 & _ & E3 & E4 & _ & Hu & _).
  - exact Machine.demo_kernel_ok.
  - reflexivity.
  - split; reflexivity.
  - reflexivity.
  - vm_compute. reflexivity.
  - vm_compute. reflexivity.
  - lia.
  - exact Machine.demo_opened_ok.
  - intros u. reflexivity.
  - reflexivity.
  - reflexivity.
  - vm_compute. split; congruence.
  - lia.
  - split_and!; [lia|lia|left; lia].
  - exists [0; 0]. vm_compute. reflexivity.
  - exists w2, w3, w4. split; [exact E2|]. split; [exact E3|]. split; [exact E4|]. rewrite Hu; [reflexivity|left; lia].
Defined.
End Dispatch.
